(* ===== verification/_CoqProject ===== *)
-Q . S2P
Prelude.v
CStr.v
DList.v
XHash.v
XHashSpec.v
XHashIter.v
Table.v
Alist.v
JQueue.v
Rate.v
Str.v
Codec.v
Access.v
Jid.v
Nad.v
NadThms.v
NadOps.v
Stanza.v
NadScan.v
Filter.v
Lines.v
Router.v
RouterInv.v
RouterBind.v
RouterRoute.v
RouterThms.v
RouterSpec.v
RouterCases.v
Datetime.v
Pkt.v
Sm.v
Pres.v
Roster.v
Offline.v
SmMods.v
Mm.v
SmInv.v
SmTop.v
SmLife.v
SmDispatch.v
SmRun.v
SmSpec.v
Spool.v
Broadcast.v
Config.v
SmAci.v
SmDisco.v
SmDiscoThms.v
SmDiscoSpec.v
SmAmp.v
C2s.v
Authreg.v
C2sClient.v
C2sRouter.v
C2sRun.v
C2sInv.v
C2sTop.v
C2sExample.v
C2sSpec.v
C2sSays.v
Websocket.v
WebsocketThms.v
SxState.v
Sx.v
SxIo.v
SxLogic.v
SxRead.v
SxRun.v
SxTotal.v
SxSpec.v
SxLive.v
SxSasl.v
SxSaslThms.v
Mio.v
Proxy65.v
Proxy65Inv.v
Proxy65Step.v
Proxy65Run.v
Proxy65Loop.v
Proxy65Thms.v
