(* ===== verification/Prelude.v ===== *)
(** * A verification of jabberd2

    jabberd2 is an XMPP server of cooperating processes.  The router
    (src/router) accepts the other components, keeps the table of the names they
    bound and passes the packets between them.  The session manager (src/sm)
    holds the users and their sessions, runs each packet through the chains of
    its modules and answers, stores or forwards it.  The c2s process (src/c2s)
    holds the client connections: it authenticates clients and asks a session
    manager for their sessions.  The proxy (src/proxy65) joins two clients that
    connect to it and passes what the one writes to the other.  All stand on the streams of src/sx
    (parsing, queues, errors, SASL, WebSocket framing), the descriptors of src/mio and the library src/util
    (hash tables, queues, XML documents, jids, encodings, configuration).

    ** How the code is modelled

    The definitions carry the names of the C functions.  A C string is the
    [string] of its characters before the NUL (CStr); a buffer is cut where the
    code cuts it.  Integers are [Z] or [N], with [int32] and [Z.modulo] written
    out where a width matters.  A struct that is shared by pointer lives on a
    heap (a [gmap] of locations) and is updated in place; one that is owned is a
    value.  Functions that can go wrong in C (a NULL pointer, a read outside an
    array, a use after free) return [None] there: a theorem that a run gives
    [Some] says that none of it happens.  Output (bytes written, packets given to
    the stream) is a list in the state.  Loops over an acyclic structure recurse on
    it; the loops over the index chains of a nad take as fuel one more than the
    length of the array, which suffices when the chain goes down, as
    [nad_wf] of NadThms promises; the buckets and queues take the number of nodes.
    Other loops: WebSocket frames take the length of the data, the packets of a read
    the size of the queue, the events of the proxy's stream their number, its handlers that call each other
    [calls] (four, and one for each answer of the system that is left), which [proxy_never_fails] shows to be enough, and
    [expand_loop] of Config a fuel that [config_expand_ends] shows to be enough; where a loop of the code may have no end,
    a theorem says when.

    What is not in src/ is a parameter: stringprep and the digests ([Env]), crypt and
    MD5 ([AuthEnv]), Expat (the events it gives a parser), the HTTP parser, GNU SASL, [mktime],
    [%lf] and the time zone ([Libc]), the address parsers of the C library, the clock, the files.
    What a stream's application and plugins do is a parameter of its functions too.
    The assumptions on them are the laws of the type classes [EnvLaws],
    [TableLaws], ... and the sections' hypotheses, and each theorem that uses them has
    a witness at concrete functions.

    ** The files

    - Prelude: notations, tactics, lemmas on lists, options, integers.  CStr: C
      strings.  DList: doubly linked lists on a heap.  Lines: files read by lines.
    - XHash (util/xhash.c): buckets, free list, iterator; XHashSpec,
      XHashIter: it is a finite map, and the iteration gives every entry once.
      Table: the same promise as a type class, against which the processes
      are proved; XHash and Alist are instances.
    - JQueue (jqueue.c, pqueue.c): stable priority queues.  Rate (rate.c): the limiter.
      Str (str.c), Codec (hex.c, serial.c, base64.c), Access (access.c, inaddr.c), Datetime
      (datetime.c, both ways), Config (config.c).
    - Jid (jid.c): parsing, preparation, the cache of the expanded forms, lists of jids.
    - Nad (nad.c): documents in arrays.  NadThms: the invariant of the arrays and the
      tree they stand for; NadOps: attributes, escaping, the serialised form; NadScan: the loops over children,
      and what a document that is built reads as.  Stanza (stanza.c): errors and the exchange of addresses, and the
      states and errors of streams.
    - Filter (router/aci.c, router/filter.c); Router (router/router.c, parts of router/main.c):
      the components, the names and the handlers.  RouterInv, RouterBind, RouterRoute: what
      each operation does; RouterThms: the invariant and its preservation; RouterSpec: the contract;
      RouterCases: runs in which the code does not do what it means to.
    - Pkt (sm/pkt.c): packets.  Sm (sm.h, sm.c, sess.c, feature.c, parts of pkt.c and mod_pep.c): the
      state, the ways out.  Pres (pres.c), Roster (mod_roster.c), Offline (mod_offline.c), SmMods (the small
      modules), Mm (mm.c, user.c, sess.c, mod_session.c, dispatch.c): the handlers and the dispatcher.
    - SmInv, SmTop, SmLife, SmDispatch: the invariant of the state and its
      preservation by each part; SmRun: a concrete instance for the witnesses, and the session manager as a machine over the events of
      its stream; SmSpec, Broadcast, Spool: what messages, presence, the spool
      and the roster file come to.
    - SmAci (sm/aci.c): access lists.  SmDisco (mod_disco.c): the known services and the kept answers;
      SmDiscoThms: the answers are what the tables say; SmDiscoSpec: who is told what.  SmAmp
      (mod_amp.c): the rules of messages.
    - C2s (c2s.h, sm.c, closing), Authreg (authreg.c), C2sClient (the client streams of c2s.c),
      C2sRouter (its router stream), C2sRun (main.c and the process as a machine).  C2sInv, C2sTop: the
      tables and what makes a session active; C2sSpec, C2sSays: the contract.  C2sExample: the instance for the witnesses.
    - Websocket, WebsocketThms (sx/websocket.c): frames, the handshake.
    - SxState (sx.h), Sx (sx.c, chain.c, error.c), SxIo (callback.c, client.c, server.c, io.c):
      a stream as computations on it.  SxLogic, SxRead: post-conditions of each; SxRun: all entry
      points as a machine; SxTotal: it never fails, and the queue of output; SxSpec, SxLive: the contract.
      SxSasl, SxSaslThms (sasl.c): the plugin with GNU SASL as a parameter.
    - Mio (mio/mio_impl.h and the macros of mio_epoll.h): descriptors, their handlers, one round of results.
      Proxy65 (all of src/proxy65): SOCKS connections, bytestreams, requests, the router's stream, the process.
      Proxy65Inv: the invariant, and what closing removes; Proxy65Step, Proxy65Run, Proxy65Loop: what each handler,
      request and event does to it and to what was read and sent; Proxy65Thms: rounds, runs and the contract.

    ** What is shown

    - Safety: no sequence of events that meets [allowed] makes the router read freed or
      missing memory ([router_never_crashes]); a stream never fails an assertion or overflows a
      buffer, and gives its application only well-formed documents ([sx_never_fails], [sx_packets_are_documents]), for
      any application that meets [AppLaws] (it may write from its callbacks) and any parser that meets [XmlLaws]
      (names are not just a bar, declared URIs are not empty);
      the proxy follows no freed pointer as long as no [send] fails right after one that took a part and a router that was
      reached is not refused later ([proxy_never_fails]).
    - The tables of the router, the session manager and c2s agree with their heaps in every reachable
      state ([router_tables_agree], [sm_tables_agree], [c2s_tables_agree]); for the router these are the states that
      calls which meet [allowed] lead to.
    - Who may do what: names are bound for authorised components, a client speaks for itself
      and becomes active by the answer to its own request, iq:auth needs the secret, EXTERNAL is the
      certificate's, SASL waits for TLS where it must, requests to the server do not disclose the sessions of others (those to a user do),
      the proxy relays only what an activation named.
    - What packets come to: routes to one and to all, messages to exactly the top sessions, presence to the planned
      recipients, stored messages as they were, the roster of the file, the items and rules of
      discovery and message processing.
    - Streams: output in order whatever the socket takes, closing ends and is told once,
      frames do not depend on how the bytes are cut; nor does what a SOCKS client says, and what is relayed
      is in order ([relay_in_order]).
    - Refinement of the data structures: hash table to a map, queue to a sorted list, jid list to a set, documents to trees.
    - Round trips: base64, the serialised integers and documents, escaping, jids, dates, frames.  Bounds: the
      limiter, the widths of the hash, the buffers of dates, the lengths of frames.
    - Where the code goes wrong: a rule without an action ends the session manager, a failed or stale authentication
      opens a stream, a refused start ends c2s, a frame of more than 2^30 bytes breaks the buffer it is read into, a closing stream may stall, what a client of the
      proxy does not take at once is never sent, and a send that fails within another one reads freed memory.

    ** Not modelled

    The calls of sockets, the memory pools and the writing of logs: no decision of
    the program depends on their results beyond what is an input here.  TLS and compression (sx/ssl.c,
    sx/compress.c) hand the bytes to OpenSSL and zlib and keep what these say; sx/ack.c only answers a counter.
    Of mio the backends of poll, select and kqueue, which do the same with other calls.  The main functions of the router and the session
    manager beyond what is listed: options, signals, pid files.  The hash functions copied
    into util (sha1.c, md5.c, crypt_blowfish.c) are not this program's own and are parameters.  Freeing is left out
    where it only frees. *)
From Stdlib Require Export Ascii String.
From stdpp Require Export base gmap strings list numbers fin_maps sorting.



Declare Scope jabberd_scope.
Delimit Scope jabberd_scope with jabberd.
Create HintDb jabberd.

(** ** C integers *)

(** Two's complement wrap-around of a 32-bit [int]. *)
Definition int32 (z : Z) : Z := (z + 2 ^ 31) `mod` 2 ^ 32 - 2 ^ 31.

Lemma int32_range z : (- 2 ^ 31 <= int32 z < 2 ^ 31)%Z.
Proof. unfold int32. pose proof (Z.mod_pos_bound (z + 2 ^ 31) (2 ^ 32)). lia. Qed.

Lemma int32_id z : (- 2 ^ 31 <= z < 2 ^ 31)%Z → int32 z = z.
Proof. intros. unfold int32. rewrite Z.mod_small; lia. Qed.

Lemma int32_add z y : int32 (int32 z + y) = int32 (z + y).
Proof.
  unfold int32. f_equal.
  replace ((z + 2 ^ 31) `mod` 2 ^ 32 - 2 ^ 31 + y + 2 ^ 31)%Z
    with ((z + 2 ^ 31) `mod` 2 ^ 32 + y)%Z by lia.
  rewrite Zplus_mod_idemp_l. f_equal. lia.
Qed.

#[global] Arguments String.append !_ _ / : simpl nomatch.

(** ** Computations that may crash *)

(** What holds of the result of a computation, if it gives one. *)
Definition post {A} (o : option A) (Q : A → Prop) : Prop := ∀ a, o = Some a → Q a.

Lemma post_ret {A} (a : A) (Q : A → Prop) : Q a → post (Some a) Q.
Proof. by intros ? b [= <-]. Qed.
Lemma post_none {A} (Q : A → Prop) : post None Q.
Proof. by intros b. Qed.
Lemma post_bind {A B} (o : option A) (k : A → option B) (Q : B → Prop) :
  post o (λ a, post (k a) Q) → post (o ≫= k) Q.
Proof. intros Ho b. destruct o as [a|]; [|done]. by apply Ho. Qed.
Lemma post_mono {A} (o : option A) (P Q : A → Prop) : post o P → (∀ a, P a → Q a) → post o Q.
Proof. intros Ho HPQ a E. by apply HPQ, Ho. Qed.

(** A post-condition that is known of a computation. *)
Class Spec {A} (o : option A) (P : A → Prop) : Prop := spec : post o P.

(** One step through a computation; what is looked up is remembered. *)
Ltac post_step :=
  lazymatch goal with
  | |- post (Some _) _ => apply post_ret
  | |- post None _ => apply post_none
  | |- post (mbind _ _) _ => apply post_bind
  | |- post (match (match ?x with _ => _ end) with _ => _ end) _ => let E := fresh "E" in destruct x eqn:E
  | |- post (match Some _ with _ => _ end) _ => cbv beta iota
  | |- post (match None with _ => _ end) _ => cbv beta iota
  | |- post (match ?x with _ => _ end) _ => let E := fresh "E" in destruct x eqn:E
  | |- post (let _ := _ in _) _ => cbv zeta
  | |- post ?o _ =>
    first [ eapply post_mono; [apply (spec (o := o))|]; cbv beta; intros
          | let E := fresh "E" in intros ? E ]
  end.
