(* ===== verification/CStr.v ===== *)
(** * C strings

    A C string is modelled by the characters before its terminating NUL, a
    [string]; [no_nul] says that a buffer holds no NUL of its own.  The
    functions of <string.h> that the program calls are defined here as the
    loops the C standard describes, with the lemmas the components use. *)
From S2P Require Import Prelude.

Definition nul : ascii := Ascii.zero.

(** The unsigned value of a character. *)
Definition uchar (c : ascii) : Z := Z.of_N (N_of_ascii c).
(** The character of a byte value. *)
Definition char_of (z : Z) : ascii := ascii_of_N (Z.to_N z).

Fixpoint no_nul (s : string) : bool :=
  match s with
  | EmptyString => true
  | String c s => negb (bool_decide (c = nul)) && no_nul s
  end.

(** The first [n] characters of a buffer, and the rest. *)
Fixpoint stake (n : nat) (s : string) : string :=
  match n, s with
  | S n, String c s => String c (stake n s)
  | _, _ => EmptyString
  end.
Fixpoint sdrop (n : nat) (s : string) : string :=
  match n, s with
  | S n, String c s => sdrop n s
  | O, s => s
  | _, EmptyString => EmptyString
  end.

Definition strlen (s : string) : Z := Z.of_nat (String.length s).

(** [strcmp]: the difference of the first bytes that differ. *)
Fixpoint strcmp (a b : string) : Z :=
  match a, b with
  | EmptyString, EmptyString => 0
  | EmptyString, String d _ => - uchar d
  | String c _, EmptyString => uchar c
  | String c a, String d b => if bool_decide (c = d) then strcmp a b else uchar c - uchar d
  end%Z.

(** [strncmp(a, b, n) == 0]: equal in the first [n] characters, or up to a common NUL. *)
Fixpoint strncmp_eq (n : nat) (a b : string) : bool :=
  match n with
  | O => true
  | S n =>
    match a, b with
    | EmptyString, EmptyString => true
    | EmptyString, String d _ => bool_decide (d = nul)
    | String c _, EmptyString => bool_decide (c = nul)
    | String c a, String d b =>
      if bool_decide (c = d) then (if bool_decide (c = nul) then true else strncmp_eq n a b)
      else false
    end
  end.

(** [strchr]: the part before the first [c] and the part after it. *)
Fixpoint split_at (c : ascii) (s : string) : option (string * string) :=
  match s with
  | EmptyString => None
  | String d s =>
    if bool_decide (d = c) then Some (EmptyString, s)
    else '(a, b) ← split_at c s; Some (String d a, b)
  end.

(** ** Lemmas *)

Lemma sapp_length a b : String.length (a +:+ b) = String.length a + String.length b.
Proof. induction a; simpl; auto. Qed.

Lemma chars_length s : length (String.list_ascii_of_string s) = String.length s.
Proof. induction s; simpl; auto. Qed.

Lemma chars_no_nul s : no_nul s → nul ∉ String.list_ascii_of_string s.
Proof.
  induction s as [|c s IH]; simpl; [set_solver|]. rewrite andb_True. intros [Hc Hs].
  apply negb_prop_elim in Hc. rewrite bool_decide_spec in Hc.
  apply not_elem_of_cons. split; [congruence|auto].
Qed.

Lemma sapp_nil_r a : a +:+ EmptyString = a.
Proof. induction a; simpl; congruence. Qed.

Lemma sapp_assoc a b c : a +:+ (b +:+ c) = (a +:+ b) +:+ c.
Proof. induction a; simpl; congruence. Qed.

Lemma uchar_range c : (0 <= uchar c < 256)%Z.
Proof. unfold uchar. pose proof (N_ascii_bounded c). lia. Qed.

Lemma uchar_inj c d : uchar c = uchar d → c = d.
Proof.
  unfold uchar. intros E%N2Z.inj. rewrite <- (ascii_N_embedding c), E. apply ascii_N_embedding.
Qed.

Lemma uchar_char_of z : (0 <= z < 256)%Z → uchar (char_of z) = z.
Proof. intros. unfold uchar, char_of. rewrite N_ascii_embedding; lia. Qed.

Lemma char_of_uchar c : char_of (uchar c) = c.
Proof. unfold uchar, char_of. rewrite N2Z.id. apply ascii_N_embedding. Qed.

Lemma strlen_nonneg s : (0 <= strlen s)%Z.
Proof. unfold strlen. lia. Qed.

Lemma no_nul_cons c s : no_nul (String c s) = true ↔ c ≠ nul ∧ no_nul s = true.
Proof. simpl. rewrite andb_true_iff, negb_true_iff, bool_decide_eq_false. done. Qed.

Lemma no_nul_app a b : no_nul (a +:+ b) = no_nul a && no_nul b.
Proof. induction a; simpl; [done|]. rewrite IHa. by rewrite andb_assoc. Qed.

Lemma strcmp_refl a : strcmp a a = 0%Z.
Proof. induction a; simpl; [done|]. by rewrite bool_decide_eq_true_2. Qed.

(** Two C strings compare equal exactly when they are the same string. *)
Lemma strcmp_eq a b : no_nul a → no_nul b → strcmp a b = 0%Z ↔ a = b.
Proof.
  intros Ha Hb. split; [|intros ->; apply strcmp_refl].
  revert b Ha Hb. induction a as [|c a IH]; intros [|d b]; simpl; [done|..].
  - intros _ [Hd _]%Is_true_true%no_nul_cons E. destruct Hd. apply uchar_inj.
    change (uchar nul) with 0%Z. lia.
  - intros [Hc _]%Is_true_true%no_nul_cons _ E. destruct Hc. apply uchar_inj.
    change (uchar nul) with 0%Z. lia.
  - intros [_ Ha]%Is_true_true%no_nul_cons [_ Hb]%Is_true_true%no_nul_cons.
    case_bool_decide; subst.
    + intros E. f_equal. apply IH; auto.
    + intros E. assert (c = d) by (apply uchar_inj; lia). done.
Qed.

Lemma stake_length n s : String.length (stake n s) = n `min` String.length s.
Proof. revert s. induction n; intros [|c s]; simpl; auto. Qed.

Lemma stake_all s : stake (String.length s) s = s.
Proof. induction s; simpl; congruence. Qed.

Lemma stake_ge n s : String.length s ≤ n → stake n s = s.
Proof. revert s. induction n; intros [|c s]; simpl; intros; try done; [lia|]. f_equal. apply IHn. lia. Qed.

Lemma stake_sdrop n s : stake n s +:+ sdrop n s = s.
Proof. revert s. induction n; intros [|c s]; simpl; try done. f_equal. apply IHn. Qed.

Lemma stake_app n a b : n ≤ String.length a → stake n (a +:+ b) = stake n a.
Proof.
  revert a. induction n; intros [|c a]; simpl; intros; try done; [lia|]. f_equal. apply IHn. lia.
Qed.

Lemma no_nul_stake n s : no_nul s → no_nul (stake n s).
Proof.
  revert s. induction n; intros [|c s]; simpl; try done.
  rewrite !andb_True. naive_solver.
Qed.

(** On NUL-free prefixes of the full length, [strncmp] decides their equality. *)
Lemma strncmp_eq_spec n a b :
  n ≤ String.length a → n ≤ String.length b → no_nul (stake n a) →
  strncmp_eq n a b = true ↔ stake n a = stake n b.
Proof.
  revert a b. induction n as [|n IH]; intros [|c a] [|d b]; simpl; try done; try lia.
  intros ?? [Hc Ha]%andb_True.
  destruct (decide (c = nul)) as [->|Hn]; [by rewrite bool_decide_true in Hc|].
  destruct (decide (c = d)) as [<-|].
  - rewrite bool_decide_true, bool_decide_false by done.
    rewrite IH by (auto with lia). naive_solver congruence.
  - rewrite bool_decide_false by done. naive_solver congruence.
Qed.

Lemma split_at_Some c s a b : split_at c s = Some (a, b) → s = a +:+ String c b.
Proof.
  revert a. induction s as [|d s IH]; simpl; intros a E; [done|].
  case_bool_decide; simplify_eq/=; [done|].
  destruct (split_at c s) as [[a' b']|] eqn:E'; simplify_eq/=. by rewrite (IH a').
Qed.

(** [free_of c s]: the character does not occur in the string. *)
Fixpoint free_of (c : ascii) (s : string) : bool :=
  match s with
  | EmptyString => true
  | String d s => negb (bool_decide (d = c)) && free_of c s
  end.

Lemma split_at_free c s : free_of c s → split_at c s = None.
Proof.
  induction s as [|d s IH]; simpl; [done|]. intros [Hd Hs]%andb_True.
  apply negb_prop_elim in Hd. case_bool_decide; [done|]. by rewrite IH.
Qed.

Lemma split_at_app c a b : free_of c a → split_at c (a +:+ String c b) = Some (a, b).
Proof.
  induction a as [|d a IH]; simpl; [by rewrite bool_decide_eq_true_2|].
  intros [Hd Hs]%andb_True. apply negb_prop_elim in Hd. case_bool_decide; [done|]. by rewrite IH.
Qed.

Lemma split_at_None c s : split_at c s = None → free_of c s.
Proof.
  induction s as [|d s IH]; simpl; [done|]. case_bool_decide; [done|].
  destruct (split_at c s) as [[]|]; simpl; [done|]. auto.
Qed.

Lemma split_at_free_l c s a b : split_at c s = Some (a, b) → free_of c a.
Proof.
  revert a. induction s as [|d s IH]; simpl; intros a E; [done|].
  case_bool_decide; simplify_eq/=; [done|].
  destruct (split_at c s) as [[a' b']|] eqn:E'; simplify_eq/=.
  rewrite bool_decide_false by done. simpl. auto.
Qed.

Lemma free_of_app c a b : free_of c (a +:+ b) = free_of c a && free_of c b.
Proof. induction a; simpl; [done|]. rewrite IHa. by rewrite andb_assoc. Qed.
