(* ===== verification/DList.v ===== *)
(** * Pointer-level linked lists

    The queues of util/jqueue.c and util/pqueue.c and the buckets of
    util/xhash.c are doubly linked lists whose nodes are updated in place.
    This file models such a structure as a heap, a finite map from addresses
    to node records, and proves once the facts that the components need:
    how a chain of addresses splits, which stores leave it alone, and what
    storing through [next] and [prev] does to it.  Singly linked lists (the
    node caches and the free list) are chains whose [prev] fields are ignored.

    [DNode T] is the interface a node type offers: its two link fields, their
    setters, and the laws that say the setters touch one field each. *)
From S2P Require Import Prelude.

(** Addresses of nodes.  A NULL pointer is [None]. *)
Notation loc := nat (only parsing).

Lemma foldr_delete_ne {V} (m : gmap loc V) (l : list loc) p : p ∉ l → foldr delete m l !! p = m !! p.
Proof.
  induction l as [|q l IH]; [done|]. rewrite not_elem_of_cons. intros [Hq Hp]. cbn.
  rewrite lookup_delete_ne by done. by apply IH.
Qed.
Lemma foldr_delete_Some {V} (m : gmap loc V) (l : list loc) p x : foldr delete m l !! p = Some x → m !! p = Some x.
Proof. induction l as [|q l IH]; [done|]. cbn. intros [_ ?]%lookup_delete_Some. by apply IH. Qed.
Lemma foldr_delete_in {V} (m : gmap loc V) (l : list loc) p : p ∈ l → foldr delete m l !! p = None.
Proof.
  induction l as [|q l IH]; [by intros ?%elem_of_nil|]. cbn. destruct (decide (q = p)) as [->|Hne]; [by rewrite lookup_delete_eq|].
  intros [->|Hp]%elem_of_cons; [done|]. rewrite lookup_delete_ne by done. by apply IH.
Qed.

Class DNode (T : Type) := {
  nx : T → option loc;
  pv : T → option loc;
  set_nx : option loc → T → T;
  set_pv : option loc → T → T;
  nx_set_nx q n : nx (set_nx q n) = q;
  pv_set_nx q n : pv (set_nx q n) = pv n;
  nx_set_pv q n : nx (set_pv q n) = nx n;
  pv_set_pv q n : pv (set_pv q n) = q
}.

#[export] Hint Rewrite @nx_set_nx @pv_set_nx @nx_set_pv @pv_set_pv : jabberd.

(** [if(o) o->next = q] and [if(o) o->prev = q]. *)
Definition link_next {T : Type} `{DNode T} (o q : option loc) (h : gmap loc T) : gmap loc T :=
  match o with None => h | Some a => alter (set_nx q) a h end.
Definition link_prev {T : Type} `{DNode T} (o q : option loc) (h : gmap loc T) : gmap loc T :=
  match o with None => h | Some a => alter (set_pv q) a h end.

(** The first address of a chain, or what follows it; the last one, or what precedes it. *)
Definition hd_or (q : option loc) (l : list loc) : option loc :=
  match l with [] => q | a :: _ => Some a end.
Fixpoint last_or (p : option loc) (l : list loc) : option loc :=
  match l with [] => p | a :: l => last_or (Some a) l end.

Section dlist.
Context {T : Type} `{DNode T}.
Implicit Types (h : gmap loc T) (l : list loc) (a : loc) (p q : option loc).

(** [dseg h p l q]: the nodes at addresses [l] are linked in that order, the
      first one's [prev] is [p] and the last one's [next] is [q]. *)
Fixpoint dseg h p l q : Prop :=
    match l with
    | [] => True
    | a :: l' => ∃ n, h !! a = Some n ∧ pv n = p ∧ nx n = hd_or q l' ∧ dseg h (Some a) l' q
    end.

(** [sseg h l q]: the same through [next] only. *)
Fixpoint sseg h l q : Prop :=
    match l with
    | [] => True
    | a :: l' => ∃ n, h !! a = Some n ∧ nx n = hd_or q l' ∧ sseg h l' q
    end.

(** The addresses reached from [o] by following [next], at most [fuel] of them:
      the loop [for(n = o; n != NULL; n = n->next)]. *)
Fixpoint chase (fuel : nat) h (o : option loc) : list loc :=
    match fuel, o with
    | S f, Some a => a :: chase f h (h !! a ≫= nx)
    | _, _ => []
    end.

(** ** Ends of chains *)

Lemma last_or_app p l1 l2 : last_or p (l1 ++ l2) = last_or (last_or p l1) l2.
Proof. revert p. induction l1; simpl; auto. Qed.

Lemma last_or_snoc p l a : last_or p (l ++ [a]) = Some a.
Proof. by rewrite last_or_app. Qed.

Lemma hd_or_app q l1 l2 : hd_or q (l1 ++ l2) = hd_or (hd_or q l2) l1.
Proof. by destruct l1. Qed.

Lemma last_or_elem p l a : last_or p l = Some a → p = Some a ∨ a ∈ l.
Proof.
    revert p. induction l as [|b l IH]; simpl; intros p E; [by left|].
    destruct (IH _ E) as [[= ->]|?]; right; set_solver.
Qed.

(** ** Structure of segments *)

Lemma dseg_app h p l1 l2 q :
    dseg h p (l1 ++ l2) q ↔ dseg h p l1 (hd_or q l2) ∧ dseg h (last_or p l1) l2 q.
Proof.
    revert p. induction l1 as [|a l1 IH]; intros p; simpl; [tauto|].
    setoid_rewrite IH. setoid_rewrite hd_or_app. naive_solver.
Qed.

Lemma dseg_sseg h p l q : dseg h p l q → sseg h l q.
Proof. revert p. induction l; simpl; [done|]. naive_solver. Qed.

Lemma dseg_lookup h p l1 a l2 q :
    dseg h p (l1 ++ a :: l2) q →
    ∃ n, h !! a = Some n ∧ pv n = last_or p l1 ∧ nx n = hd_or q l2.
Proof. rewrite dseg_app. simpl. naive_solver. Qed.

Lemma sseg_app h l1 l2 q :
    sseg h (l1 ++ l2) q ↔ sseg h l1 (hd_or q l2) ∧ sseg h l2 q.
Proof.
    induction l1 as [|a l1 IH]; simpl; [tauto|].
    setoid_rewrite IH. setoid_rewrite hd_or_app. naive_solver.
Qed.

Lemma sseg_elem h l q a : sseg h l q → a ∈ l → is_Some (h !! a).
Proof. induction l; simpl; set_solver. Qed.

(** ** Frames: a store outside a chain leaves it as it is *)

(** Chains are the same in a heap with the same links. *)
Lemma dseg_same_links h h' p l q :
  (∀ a n, h !! a = Some n → ∃ n', h' !! a = Some n' ∧ nx n' = nx n ∧ pv n' = pv n) → dseg h p l q → dseg h' p l q.
Proof.
  intros Hh. revert p. induction l as [|a l IH]; intros p; [done|]. cbn [dseg]. intros (n & E & H1 & H2 & H3).
  destruct (Hh _ _ E) as (n' & E' & Hn & Hp). exists n'. rewrite Hn, Hp. split_and!; auto.
Qed.
Lemma sseg_same_links h h' l q :
  (∀ a n, h !! a = Some n → ∃ n', h' !! a = Some n' ∧ nx n' = nx n ∧ pv n' = pv n) → sseg h l q → sseg h' l q.
Proof.
  intros Hh. induction l as [|a l IH]; [done|]. cbn [sseg]. intros (n & E & H1 & H2).
  destruct (Hh _ _ E) as (n' & E' & Hn & Hp). exists n'. rewrite Hn. split_and!; auto.
Qed.

Lemma dseg_frame h h' p l q :
    (∀ a, a ∈ l → h' !! a = h !! a) → dseg h p l q → dseg h' p l q.
Proof.
    revert p. induction l as [|a l IH]; simpl; [done|].
    intros p Hf (n & Ha & Hp & Hn & Hs). exists n. rewrite Hf by set_solver.
    split_and!; auto. apply IH; [set_solver|done].
Qed.

Lemma sseg_frame h h' l q :
    (∀ a, a ∈ l → h' !! a = h !! a) → sseg h l q → sseg h' l q.
Proof.
    induction l as [|a l IH]; simpl; [done|].
    intros Hf (n & Ha & Hn & Hs). exists n. rewrite Hf by set_solver.
    split_and!; auto. apply IH; [set_solver|done].
Qed.

(** Changing other fields of a node keeps the links. *)
Lemma dseg_alter_data h p l q a f :
    (∀ n, nx (f n) = nx n) → (∀ n, pv (f n) = pv n) →
    dseg h p l q → dseg (alter f a h) p l q.
Proof.
    intros Hn Hp. revert p. induction l as [|b l IH]; simpl; [done|].
    intros p (n & Hb & Hpv & Hnx & Hs). destruct (decide (a = b)) as [->|].
    - exists (f n). rewrite lookup_alter_eq, Hb, Hn, Hp. auto.
    - exists n. rewrite lookup_alter_ne by done. auto.
Qed.

Lemma sseg_alter_data h l q a f :
    (∀ n, nx (f n) = nx n) → sseg h l q → sseg (alter f a h) l q.
Proof.
    intros Hn. induction l as [|b l IH]; simpl; [done|].
    intros (n & Hb & Hnx & Hs). destruct (decide (a = b)) as [->|].
    - exists (f n). rewrite lookup_alter_eq, Hb, Hn. auto.
    - exists n. rewrite lookup_alter_ne by done. auto.
Qed.

(** ** Storing through the links *)

Lemma link_next_frame o q h a : o ≠ Some a → link_next o q h !! a = h !! a.
Proof. destruct o; simpl; [|done]. intros. apply lookup_alter_ne. congruence. Qed.

Lemma link_prev_frame o q h a : o ≠ Some a → link_prev o q h !! a = h !! a.
Proof. destruct o; simpl; [|done]. intros. apply lookup_alter_ne. congruence. Qed.

(** Storing a new [next] into the last node of a chain. *)
Lemma dseg_link_next h p l q q' :
    NoDup l → dseg h p l q → dseg (link_next (last_or None l) q' h) p l q'.
Proof.
    destruct l as [|a l _] using rev_ind; [done|].
    rewrite last_or_snoc. simpl. intros [Hnd1 [Hni _]]%NoDup_app.
    rewrite !dseg_app. simpl. intros [Hs (n & Ha & Hp & _ & _)]. split.
    - eapply dseg_frame; [|done]. intros b Hb. apply lookup_alter_ne.
      intros <-. set_solver.
    - exists (set_nx q' n). rewrite lookup_alter_eq, Ha. autorewrite with jabberd. auto.
Qed.

(** Storing a new [prev] into the first node of a chain. *)
Lemma dseg_link_prev h p p' l q :
    NoDup l → dseg h p l q → dseg (link_prev (hd_or None l) p' h) p' l q.
Proof.
    destruct l as [|a l]; [done|]. simpl. intros [Hni _]%NoDup_cons (n & Ha & _ & Hn & Hs).
    exists (set_pv p' n). rewrite lookup_alter_eq, Ha. autorewrite with jabberd.
    split_and!; auto. eapply dseg_frame; [|done].
    intros b Hb. apply lookup_alter_ne. congruence.
Qed.

Lemma hd_or_elem l a : hd_or None l = Some a → a ∈ l.
Proof. destruct l; simpl; [done|]. intros [= ->]. set_solver. Qed.

Lemma last_or_None_elem l a : last_or None l = Some a → a ∈ l.
Proof. intros [?|?]%last_or_elem; done. Qed.

(** Unlinking a node by making its neighbours point at each other. *)
Lemma dseg_unlink h l1 a l2 :
    NoDup (l1 ++ a :: l2) → dseg h None (l1 ++ a :: l2) None →
    let h' := link_prev (hd_or None l2) (last_or None l1)
                (link_next (last_or None l1) (hd_or None l2) h) in
    dseg h' None (l1 ++ l2) None ∧ ∀ b, b ∉ l1 ++ l2 → h' !! b = h !! b.
Proof.
    intros [Hnd1 [Hni Hnd2]]%NoDup_app. apply NoDup_cons in Hnd2 as [Ha Hnd2].
    cbv zeta. rewrite !dseg_app. simpl. intros [Hs1 (n & Hn & _ & _ & Hs2)]. split; [split|].
    - apply (dseg_frame (link_next (last_or None l1) (hd_or None l2) h)).
      + intros b Hb. apply link_prev_frame. intros E%hd_or_elem. set_solver.
      + by apply (dseg_link_next _ _ _ (Some a)).
    - apply (dseg_link_prev _ (Some a)); [done|]. apply (dseg_frame h); [|done].
      intros b Hb. apply link_next_frame. intros E%last_or_None_elem. set_solver.
    - intros b Hb. rewrite link_prev_frame, link_next_frame; [done|..].
      + intros E%last_or_None_elem. set_solver.
      + intros E%hd_or_elem. set_solver.
Qed.

(** Linking a fresh node in before [s]. *)
Lemma dseg_link_before h l1 s l2 a n :
  NoDup (l1 ++ s :: l2) → a ∉ l1 ++ s :: l2 → h !! a = Some n → dseg h None (l1 ++ s :: l2) None →
  let h' := alter (set_pv (Some a)) s (link_next (last_or None l1) (Some a)
              (alter (set_pv (last_or None l1)) a (alter (set_nx (Some s)) a h))) in
  dseg h' None (l1 ++ a :: s :: l2) None ∧
  h' !! a = Some (set_pv (last_or None l1) (set_nx (Some s) n)) ∧
  ∀ b, b ≠ a → b ∉ l1 ++ s :: l2 → h' !! b = h !! b.
Proof.
  intros [Hnd1 [Hni Hnd2]]%NoDup_app Ha Hn. apply NoDup_cons in Hnd2 as [Hs Hnd2].
  cbv zeta. rewrite !dseg_app. intros [Hs1 (ns & Hns & _ & Hnx & Hs2)].
  set (h1 := alter (set_pv _) a _). set (h2 := link_next _ _ h1). set (h3 := alter _ s h2).
  assert (s ≠ a ∧ a ∉ l1 ∧ a ∉ l2 ∧ s ∉ l1) as (Hsa & Hal1 & Hal2 & Hsl1) by set_solver.
  assert (∀ b, b ∉ l1 → last_or None l1 ≠ Some b) as Hlast.
  { intros b Hb E%last_or_None_elem. done. }
  assert (∀ b, b ≠ a → b ≠ s → last_or None l1 ≠ Some b → h3 !! b = h !! b) as Hfr.
  { intros b Hba Hbs Hbl. unfold h3. rewrite lookup_alter_ne by done. unfold h2.
    rewrite link_next_frame by done. unfold h1. by rewrite !lookup_alter_ne by done. }
  assert (h3 !! a = Some (set_pv (last_or None l1) (set_nx (Some s) n))) as Hh3a.
  { unfold h3. rewrite lookup_alter_ne by done. unfold h2. rewrite link_next_frame by auto.
    unfold h1. by rewrite !lookup_alter_eq, Hn. }
  split; [split|split; [done|]].
  - apply (dseg_frame h2).
    { intros b Hb. unfold h3. apply lookup_alter_ne. congruence. }
    apply (dseg_link_next _ _ _ (Some s)); [done|]. apply (dseg_frame h); [|done].
    intros b Hb. unfold h1. by rewrite !lookup_alter_ne by congruence.
  - exists (set_pv (last_or None l1) (set_nx (Some s) n)). split; [done|].
    autorewrite with jabberd. split_and!; [done..|]. exists (set_pv (Some a) ns).
    unfold h3 at 1. rewrite lookup_alter_eq. unfold h2 at 1. rewrite link_next_frame by auto.
    unfold h1 at 1. rewrite !lookup_alter_ne by done. rewrite Hns. autorewrite with jabberd.
    split_and!; [done..|]. apply (dseg_frame h); [|done]. intros b Hb.
    apply Hfr; [congruence..|]. apply Hlast. intros Hb1. apply (Hni b Hb1). by right.
  - intros b Hba [Hb1 [Hbs Hb2]%not_elem_of_cons]%not_elem_of_app. apply Hfr; auto.
Qed.

(** Linking a fresh node in after the last one. *)
Lemma dseg_link_last h l a n :
  NoDup l → a ∉ l → h !! a = Some n → nx n = None → dseg h None l None →
  let h' := link_next (last_or None l) (Some a) (alter (set_pv (last_or None l)) a h) in
  dseg h' None (l ++ [a]) None ∧ h' !! a = Some (set_pv (last_or None l) n) ∧
  ∀ b, b ≠ a → b ∉ l → h' !! b = h !! b.
Proof.
  intros Hnd Ha Hn Hnx. cbv zeta. rewrite dseg_app. intros Hs.
  assert (last_or None l ≠ Some a) as Hla by (intros E%last_or_None_elem; set_solver).
  set (h1 := alter _ a h). set (h2 := link_next _ _ h1).
  assert (h2 !! a = Some (set_pv (last_or None l) n)) as Hh2a.
  { unfold h2, h1. rewrite link_next_frame, lookup_alter_eq, Hn by done. done. }
  split; [split|split; [done|]].
  - apply (dseg_link_next _ _ _ None); [done|]. apply (dseg_frame h); [|done].
    intros b Hb. apply lookup_alter_ne. set_solver.
  - exists (set_pv (last_or None l) n). autorewrite with jabberd. done.
  - intros b Hba Hb. unfold h2, h1. rewrite link_next_frame, lookup_alter_ne; [done..|].
    intros E%last_or_None_elem. set_solver.
Qed.

(** ** The traversal loop *)

(** With at least as much fuel as nodes, the loop visits exactly the chain. *)
Lemma chase_sseg fuel h l :
    length l ≤ fuel → sseg h l None → chase fuel h (hd_or None l) = l.
Proof.
    revert l. induction fuel as [|f IH]; intros [|a l]; simpl; intros Hl Hs; try done; [lia|].
    destruct Hs as (n & Ha & Hn & Hs). rewrite Ha. simpl. rewrite Hn.
    f_equal. apply IH; [lia|done].
Qed.

(** Distinct addresses that are all in the heap: there are at most [size h] of them. *)
Lemma length_le_size h l : NoDup l → (∀ a, a ∈ l → is_Some (h !! a)) → length l ≤ size h.
Proof.
    intros Hnd Hin. rewrite <- size_dom, <- (size_list_to_set (C:=gset loc)) by done.
    apply subseteq_size. intros a. rewrite elem_of_list_to_set, elem_of_dom. auto.
Qed.

Lemma sseg_length_le h l q : NoDup l → sseg h l q → length l ≤ size h.
Proof. intros. apply length_le_size; [done|]. intros. by eapply sseg_elem. Qed.
End dlist.
#[global] Arguments dseg : simpl never.
#[global] Arguments sseg : simpl never.
