(* ===== verification/XHash.v ===== *)
(** * The hash table of util/xhash.c

    An [xht] is an array [zen] of [prime] bucket heads, each the first node of
    a doubly linked chain; nodes that leave a chain go to [free_list] and are
    reused, and one built-in iterator ([iter_bucket], [iter_node]) walks the
    buckets.  The heap of nodes is [zen]: bucket head [i] lives at address [i]
    and the nodes taken from the pool at the addresses from [prime] on.
    [xht_rep] relates a table to the finite map it stands for and the theorems
    say that every operation implements the map's. *)
From S2P Require Import Prelude.
From S2P Require Import CStr.
From S2P Require Import DList.

(** ** The hash function *)

(** One turn of [_xhasher]'s loop, for an [unsigned long] of [w] bits. *)
Definition xhasher_step (w : Z) (h : Z) (c : ascii) : Z :=
  let h := ((Z.shiftl h 4 + uchar c) `mod` 2 ^ w)%Z in
  let g := Z.land h 0xF0000000 in
  let h := if (g =? 0)%Z then h else Z.lxor h (Z.shiftr g 24) in
  Z.land h (Z.lnot g).

Fixpoint xhasher_loop (w : Z) (h : Z) (s : string) (len : nat) : Z :=
  match len, s with
  | S len, String c s => xhasher_loop w (xhasher_step w h c) s len
  | _, _ => h
  end.

Definition xhasher_w (w : Z) (s : string) (len : Z) : Z :=
  int32 (xhasher_loop w 0 s (Z.to_nat len)).

(** [_xhasher] as compiled where [unsigned long] has 64 bits. *)
Definition _xhasher (s : string) (len : Z) : Z := xhasher_w 64 s len.

Section xhash.
Context {V : Type}.

(** ** State *)

(** [_xhn]: [n_key] and [n_val] are [None] for NULL pointers. *)
Record xhn := Xhn {
  n_next : option loc;
  n_prev : option loc;
  n_key : option string;
  n_keylen : Z;
  n_val : option V
}.

(** What [pmalloco] returns: all fields zero. *)
Definition xhn_zero : xhn := Xhn None None None 0 None.

#[global] Instance xhn_dnode : DNode xhn := {
  nx := n_next;
  pv := n_prev;
  set_nx q n := Xhn q (n_prev n) (n_key n) (n_keylen n) (n_val n);
  set_pv q n := Xhn (n_next n) q (n_key n) (n_keylen n) (n_val n);
  nx_set_nx _ _ := eq_refl;
  pv_set_nx _ _ := eq_refl;
  nx_set_pv _ _ := eq_refl;
  pv_set_pv _ _ := eq_refl
}.

Definition set_kv (k : option string) (len : Z) (v : option V) (n : xhn) : xhn :=
  Xhn (n_next n) (n_prev n) k len v.

(** [_xht]; [fresh] is the next address the pool hands out. *)
Record xht := Xht {
  prime : Z;
  dirty : Z;
  count : Z;
  zen : gmap loc xhn;
  free_list : option loc;
  iter_bucket : Z;
  iter_node : option loc;
  fresh : nat
}.

Definition with_zen (z : gmap loc xhn) (h : xht) : xht :=
  Xht (prime h) (dirty h) (count h) z (free_list h) (iter_bucket h) (iter_node h) (fresh h).
Definition with_free (f : option loc) (h : xht) : xht :=
  Xht (prime h) (dirty h) (count h) (zen h) f (iter_bucket h) (iter_node h) (fresh h).
Definition with_count (c : Z) (h : xht) : xht :=
  Xht (prime h) (dirty h) c (zen h) (free_list h) (iter_bucket h) (iter_node h) (fresh h).
Definition with_dirty (d : Z) (h : xht) : xht :=
  Xht (prime h) d (count h) (zen h) (free_list h) (iter_bucket h) (iter_node h) (fresh h).
Definition with_iter (b : Z) (n : option loc) (h : xht) : xht :=
  Xht (prime h) (dirty h) (count h) (zen h) (free_list h) b n (fresh h).
Definition with_fresh (f : nat) (h : xht) : xht :=
  Xht (prime h) (dirty h) (count h) (zen h) (free_list h) (iter_bucket h) (iter_node h) f.

(** Enough turns for any loop over a chain: one per node of the heap. *)
Definition fuel (h : xht) : nat := S (size (zen h)).

(** The bucket of a hash, [index % h->prime]. *)
Definition bucket (h : xht) (index : Z) : loc := Z.to_nat (Z.rem index (prime h)).

(** ** Operations *)

(** The zero-filled array of [n] bucket heads. *)
Fixpoint zero_heads (n : nat) : gmap loc xhn :=
  match n with O => ∅ | S n => <[n := xhn_zero]> (zero_heads n) end.

Definition xhash_new (prime : Z) : xht :=
  Xht prime 0 0 (zero_heads (Z.to_nat prime)) None (-1) None (Z.to_nat prime).

(** Take a node off the free list, or a fresh one from the pool. *)
Definition node_alloc (h : xht) : xht * loc :=
  match free_list h with
  | Some f => (with_free (zen h !! f ≫= n_next) h, f)
  | None => (with_fresh (S (fresh h)) (with_zen (<[fresh h := xhn_zero]> (zen h)) h), fresh h)
  end.

Definition _xhash_node_new (h : xht) (index : Z) : xht * loc :=
  let i := bucket h index in
  let h := with_count (int32 (count h + 1)) h in
  match zen h !! i ≫= n_key with
  | None => (h, i)
  | Some _ =>
    let '(h, n) := node_alloc h in
    let nn := zen h !! i ≫= n_next in
    let z := alter (set_pv (Some i)) n (zen h) in
    let z := alter (set_nx nn) n z in
    let z := link_prev nn (Some n) z in
    let z := alter (set_nx (Some n)) i z in
    (with_zen z h, n)
  end.

(** Does this node hold the key?  The test of [_xhash_node_get]'s loop. *)
Definition key_match (key : string) (len : Z) (n : xhn) : bool :=
  match n_key n with
  | None => false
  | Some k => (n_keylen n =? len)%Z && strncmp_eq (Z.to_nat len) key k
  end.

Fixpoint node_get_loop (f : nat) (z : gmap loc xhn) (key : string) (len : Z) (o : option loc) : option loc :=
  match f, o with
  | S f, Some a =>
    match z !! a with
    | Some n => if key_match key len n then Some a else node_get_loop f z key len (n_next n)
    | None => None
    end
  | _, _ => None
  end.

Definition _xhash_node_get (h : xht) (key : string) (len : Z) (index : Z) : option loc :=
  node_get_loop (fuel h) (zen h) key len (Some (bucket h index)).

Definition xhash_putx (h : xht) (key : option string) (len : Z) (val : option V) : xht :=
  match key with
  | None => h
  | Some key =>
    let index := _xhasher key len in
    let h := with_dirty (int32 (dirty h + 1)) h in
    match _xhash_node_get h key len index with
    | Some n => with_zen (alter (set_kv (Some key) len val) n (zen h)) h
    | None =>
      let '(h, n) := _xhash_node_new h index in
      with_zen (alter (set_kv (Some key) len val) n (zen h)) h
    end
  end.

Definition xhash_put (h : xht) (key : option string) (val : option V) : xht :=
  match key with None => h | Some k => xhash_putx h key (strlen k) val end.

Definition xhash_getx (h : xht) (key : option string) (len : Z) : option V :=
  match key with
  | None => None
  | Some key =>
    if (len <=? 0)%Z then None
    else a ← _xhash_node_get h key len (_xhasher key len); zen h !! a ≫= n_val
  end.

Definition xhash_get (h : xht) (key : option string) : option V :=
  match key with None => None | Some k => xhash_getx h key (strlen k) end.

(** Unlink a node from its chain and put it on the free list. *)
Definition node_release (h : xht) (n : loc) : xht :=
  let np := zen h !! n ≫= n_prev in
  let nn := zen h !! n ≫= n_next in
  let z := link_next np nn (zen h) in
  let z := link_prev nn np z in
  let z := alter (set_pv None) n z in
  let z := alter (set_nx (free_list h)) n z in
  with_free (Some n) (with_zen z h).

Definition xhash_zap_inner (h : xht) (n : loc) (index : Z) : xht :=
  let i := bucket h index in
  let h := if negb (bool_decide (i = n)) && negb (bool_decide (iter_node h = Some n))
           then node_release h n else h in
  let h := with_zen (alter (λ nd, set_kv None (n_keylen nd) None nd) n (zen h)) h in
  with_count (int32 (count h - 1)) (with_dirty (int32 (dirty h + 1)) h).

Definition xhash_zapx (h : xht) (key : option string) (len : Z) : xht :=
  match key with
  | None => h
  | Some key =>
    let index := _xhasher key len in
    match _xhash_node_get h key len index with
    | None => h
    | Some n => xhash_zap_inner h n index
    end
  end.

Definition xhash_zap (h : xht) (key : option string) : xht :=
  match key with None => h | Some k => xhash_zapx h key (strlen k) end.

(** [xhash_walk] with a walker that may change the table and threads its own
    state [S]: the loop reads [n->next] after the walker has run. *)
Fixpoint walk_bucket {S : Type} (f : nat) (w : string → Z → V → xht * S → xht * S)
    (o : option loc) (st : xht * S) : xht * S :=
  match f, o with
  | Datatypes.S f, Some a =>
    let st := match zen st.1 !! a with
              | Some (Xhn _ _ (Some k) len (Some v)) => w k len v st
              | _ => st
              end in
    walk_bucket f w (zen st.1 !! a ≫= n_next) st
  | _, _ => st
  end.

Definition xhash_walk {S : Type} (h : xht) (w : string → Z → V → xht * S → xht * S) (arg : S) : xht * S :=
  foldl (λ st i, walk_bucket (fuel h) w (Some i) st) (h, arg) (seq 0 (Z.to_nat (prime h))).

(** Return the dirty counter and reset it. *)
Definition xhash_dirty (h : xht) : Z * xht := (dirty h, with_dirty 0 h).

Definition xhash_count (h : xht) : Z := count h.

(** *** Iteration *)

Definition node_full (n : xhn) : bool :=
  match n_key n, n_val n with Some _, Some _ => true | _, _ => false end.

(** The loop over the rest of the current bucket, which reaps emptied nodes. *)
Fixpoint iter_in_bucket (f : nat) (h : xht) : xht * bool :=
  match f, iter_node h with
  | S f, Some a =>
    match zen h !! a with
    | Some n =>
      if node_full n then (h, true)
      else
        let h := with_iter (iter_bucket h) (n_next n) h in
        let h := if bool_decide (a = Z.to_nat (iter_bucket h)) then h else node_release h a in
        iter_in_bucket f h
    | None => (h, false)
    end
  | _, _ => (h, false)
  end.

(** The first full node of a chain. *)
Fixpoint scan_bucket (f : nat) (z : gmap loc xhn) (o : option loc) : option loc :=
  match f, o with
  | S f, Some a =>
    match z !! a with
    | Some n => if node_full n then Some a else scan_bucket f z (n_next n)
    | None => None
    end
  | _, _ => None
  end.

(** The loop over the [k] buckets from [b] on. *)
Fixpoint iter_buckets (k : nat) (b : Z) (h : xht) : xht * bool :=
  match k with
  | O => (with_iter (-1) None h, false)
  | S k =>
    match scan_bucket (fuel h) (zen h) (Some (Z.to_nat b)) with
    | Some a => (with_iter b (Some a) h, true)
    | None => iter_buckets k (b + 1) h
    end
  end.

Definition xhash_iter_next (h : xht) : xht * bool :=
  let o := iter_node h ≫= λ a, zen h !! a ≫= n_next in
  let '(h, found) := iter_in_bucket (fuel h) (with_iter (iter_bucket h) o h) in
  if found then (h, true)
  else iter_buckets (Z.to_nat (prime h - (iter_bucket h + 1))) (iter_bucket h + 1) h.

Definition xhash_iter_first (h : xht) : xht * bool :=
  xhash_iter_next (with_iter (-1) None h).

(** The key and value at the iterator, if it stands on a node. *)
Definition xhash_iter_get (h : xht) : option (option string * Z * option V) :=
  a ← iter_node h; n ← zen h !! a; Some (n_key n, n_keylen n, n_val n).

(** Zap the node at the iterator.  (A NULL key there would be dereferenced.) *)
Definition xhash_iter_zap (h : xht) : xht :=
  match iter_node h with
  | None => h
  | Some a =>
    match zen h !! a with
    | Some (Xhn _ _ (Some k) len _) => xhash_zap_inner h a (_xhasher k len)
    | _ => h
    end
  end.
End xhash.
Arguments xhn : clear implicits.
Arguments xht : clear implicits.
Arguments xhash_new {V} _ : assert.
