(* ===== verification/XHashSpec.v ===== *)
(** * Correctness of the hash table

    First the hash: every bucket index is in range, and does not depend on the
    width of [unsigned long].  Then the refinement: [xht_rep h ch fl m] says
    that the table [h], with bucket chains [ch] and free list [fl], represents
    the finite map [m]; every operation preserves it and acts on [m] as the
    map operation of the same name. *)
From S2P Require Import Prelude.
From S2P Require Import CStr.
From S2P Require Import DList.
From S2P Require Import XHash.

(** ** The hash function *)

Lemma bits_above_lt x n :
  (0 <= x)%Z → (0 <= n)%Z → (∀ i, (n <= i)%Z → Z.testbit x i = false) → (x < 2 ^ n)%Z.
Proof.
  intros Hx Hn Hb. assert (x = Z.land x (Z.ones n)) as ->.
  { apply Z.bits_inj'. intros i Hi. rewrite Z.land_spec.
    destruct (decide (i < n)%Z).
    - rewrite Z.ones_spec_low by lia. by rewrite andb_true_r.
    - rewrite Hb by lia. done. }
  rewrite Z.land_ones by lia. apply Z.mod_pos_bound. lia.
Qed.

Lemma testbit_mod_pow2 (x n i : Z) :
  (0 <= n)%Z → (0 <= i)%Z → Z.testbit (x `mod` 2 ^ n)%Z i = Z.testbit x i && (i <? n)%Z.
Proof.
  intros. destruct (Z.ltb_spec i n).
  - rewrite Z.mod_pow2_bits_low by lia. by rewrite andb_true_r.
  - rewrite Z.mod_pow2_bits_high by lia. by rewrite andb_false_r.
Qed.

Lemma mask_testbit i : (0 <= i)%Z → Z.testbit 0xF0000000 i = (28 <=? i)%Z && (i <? 32)%Z.
Proof.
  intros Hi. change 0xF0000000%Z with (Z.shiftl (Z.ones 4) 28).
  rewrite Z.shiftl_spec, Z.testbit_ones by lia.
  destruct (Z.leb_spec 28 i), (Z.ltb_spec i 32), (Z.leb_spec 0 (i - 28)), (Z.ltb_spec (i - 28) 4); try done; lia.
Qed.

(** What a turn of the loop leaves in bit [i], from the shifted sum [s]. *)
Lemma xhasher_step_testbit w h c i :
  (32 <= w)%Z → (0 <= i)%Z →
  Z.testbit (xhasher_step w h c) i =
    (let s := ((Z.shiftl h 4 + uchar c) `mod` 2 ^ w)%Z in
     xorb (Z.testbit s i) (Z.testbit s (i + 24) && (28 <=? i + 24)%Z && (i + 24 <? 32)%Z)
     && negb ((28 <=? i)%Z && (i <? 32)%Z && Z.testbit s i)).
Proof.
  intros Hw Hi. unfold xhasher_step. set (s := ((_ + _) `mod` _)%Z). cbv zeta.
  set (g := Z.land s _).
  assert ((if (g =? 0)%Z then s else Z.lxor s (Z.shiftr g 24)) = Z.lxor s (Z.shiftr g 24)) as ->.
  { destruct (Z.eqb_spec g 0) as [->|]; [|done]. by rewrite Z.shiftr_0_l, Z.lxor_0_r. }
  rewrite Z.land_spec, Z.lnot_spec, Z.lxor_spec, Z.shiftr_spec by lia. unfold g.
  rewrite !Z.land_spec, !mask_testbit by lia.
  destruct (Z.testbit s i), (Z.testbit s (i + 24)), (28 <=? i)%Z, (i <? 32)%Z,
    (28 <=? i + 24)%Z, (i + 24 <? 32)%Z; done.
Qed.

Lemma xhasher_step_nonneg w h c : (0 <= w)%Z → (0 <= xhasher_step w h c)%Z.
Proof.
  intros. unfold xhasher_step. apply Z.land_nonneg. left.
  assert (0 <= (Z.shiftl h 4 + uchar c) `mod` 2 ^ w)%Z
    by (apply Z.mod_pos_bound, Z.pow_pos_nonneg; lia).
  case_match; [done|]. apply Z.lxor_nonneg. split; [|done]. intros _.
  apply Z.shiftr_nonneg, Z.land_nonneg. by left.
Qed.

(** The low 32 bits of a turn depend on the low 32 bits before it only. *)
Lemma xhasher_step_low (w h h' : Z) c :
  (32 <= w)%Z → (h `mod` 2 ^ 32 = h' `mod` 2 ^ 32)%Z →
  (xhasher_step w h c `mod` 2 ^ 32)%Z = xhasher_step 32 h' c.
Proof.
  intros Hw Hh. apply Z.bits_inj'. intros i Hi.
  rewrite testbit_mod_pow2, !xhasher_step_testbit by lia. cbv zeta.
  assert (∀ j, (0 <= j < 32)%Z →
    Z.testbit ((Z.shiftl h 4 + uchar c) `mod` 2 ^ w)%Z j =
    Z.testbit ((Z.shiftl h' 4 + uchar c) `mod` 2 ^ 32)%Z j) as Hs.
  { intros j Hj. rewrite testbit_mod_pow2 by lia.
    replace (j <? w)%Z with true by lia. rewrite andb_true_r.
    rewrite <- (Z.mod_pow2_bits_low _ 32 j) by lia.
    f_equal. rewrite !Z.shiftl_mul_pow2 by lia.
    rewrite Z.add_mod, (Z.add_mod (h' * _)), Z.mul_mod, (Z.mul_mod h'), Hh by lia. done. }
  destruct (Z.ltb_spec i 32).
  - rewrite andb_true_r, Hs by lia. destruct (Z.ltb_spec (i + 24) 32).
    + by rewrite Hs by lia.
    + by rewrite !andb_false_r.
  - rewrite (Z.mod_pow2_bits_high _ 32 i) by lia. rewrite andb_false_r.
    replace (i + 24 <? 32)%Z with false by lia. by rewrite !andb_false_r.
Qed.

Lemma xhasher_step_28 h c : (0 <= xhasher_step 32 h c < 2 ^ 28)%Z.
Proof.
  split; [by apply xhasher_step_nonneg|].
  apply bits_above_lt; [by apply xhasher_step_nonneg|lia|]. intros i Hi.
  rewrite xhasher_step_testbit by lia. cbv zeta.
  replace (i + 24 <? 32)%Z with false by lia. replace (28 <=? i)%Z with true by lia.
  rewrite andb_false_r, xorb_false_r. simpl. destruct (Z.ltb_spec i 32); simpl.
  - by destruct (Z.testbit _ i).
  - by rewrite Z.mod_pow2_bits_high by lia.
Qed.

Lemma xhasher_loop_low (w h h' : Z) s len :
  (32 <= w)%Z → (0 <= h' < 2 ^ 28)%Z → (h `mod` 2 ^ 32)%Z = h' →
  (xhasher_loop w h s len `mod` 2 ^ 32)%Z = xhasher_loop 32 h' s len ∧
  (0 <= xhasher_loop 32 h' s len < 2 ^ 28)%Z.
Proof.
  intros Hw. revert h h' s. induction len as [|len IH]; intros h h' [|c s] Hh' Hh; simpl; auto.
  apply IH; [apply xhasher_step_28|]. apply xhasher_step_low; [done|].
  rewrite Hh, Z.mod_small; lia.
Qed.

(** [int32] of a value whose low 32 bits are [y]. *)
Lemma int32_low (x y : Z) : (0 <= y < 2 ^ 31)%Z → (x `mod` 2 ^ 32)%Z = y → int32 x = y.
Proof.
  intros Hy Hx. unfold int32. rewrite Z.add_mod, Hx by lia. rewrite (Z.mod_small (2 ^ 31)) by lia.
  rewrite Z.mod_small; lia.
Qed.

(** Whatever the key and its length, the hash of util/xhash.c is a
    non-negative [int] below 2^28, so that [index % h->prime] is a valid bucket;
    and a build with a 64-bit (or any wider than 32-bit) [unsigned long], whose
    intermediate values do carry bits above bit 31, computes the same hash as
    one with a 32-bit [unsigned long]. *)
Theorem xhasher_width_bound w s len :
  (32 <= w)%Z →
  xhasher_w w s len = xhasher_w 32 s len ∧ (0 <= xhasher_w w s len < 2 ^ 28)%Z.
Proof.
  intros Hw. unfold xhasher_w.
  destruct (xhasher_loop_low w 0 0 s (Z.to_nat len)) as [E B]; [done|lia|done|].
  destruct (xhasher_loop_low 32 0 0 s (Z.to_nat len)) as [E32 _]; [lia..|done|].
  rewrite !(int32_low _ (xhasher_loop 32 0 s (Z.to_nat len))) by (done || lia). auto.
Qed.

Example xhasher_width_bound_witness :
  (32 <= 64)%Z ∧ xhasher_w 64 "jabber.example.org" 18 = xhasher_w 32 "jabber.example.org" 18.
Proof.
  split; [lia|]. destruct (xhasher_width_bound 64 "jabber.example.org" 18) as [E _]; [lia|exact E].
Defined.

Lemma _xhasher_range s len : (0 <= _xhasher s len < 2 ^ 28)%Z.
Proof.
  unfold _xhasher, xhasher_w.
  destruct (xhasher_loop_low 64 0 0 s (Z.to_nat len)) as [E B]; [lia..|done|].
  rewrite (int32_low _ (xhasher_loop 32 0 s (Z.to_nat len))) by (done || lia). done.
Qed.

(** ** The representation relation *)

Section rep.
Context {V : Type}.
Implicit Types (h : xht V) (n : xhn V) (k : string) (v : option V) (m : gmap string (option V)).
Implicit Types (ch : nat → list loc) (fl : list loc) (a b : loc) (i j : nat).

(** The key of a node as a string of its [keylen] characters, and its value. *)
Definition entry n : option (string * option V) :=
  match n_key n with
  | Some k => Some (stake (Z.to_nat (n_keylen n)) k, n_val n)
  | None => None
  end.

(** A buffer [key] holds a key of [len] characters: it is long enough and none is NUL. *)
Definition key_ok (key : string) (len : Z) : Prop :=
  (0 <= len <= strlen key)%Z ∧ no_nul (stake (Z.to_nat len) key).

Definition node_ok n : Prop := ∀ key, n_key n = Some key → key_ok key (n_keylen n).

Definition nbuckets h : nat := Z.to_nat (prime h).

(** The bucket a key belongs in. *)
Definition home h k : nat := bucket h (_xhasher k (strlen k)).

Definition ent h a : option (string * option V) := zen h !! a ≫= entry.

(** Structure: [ch i] is the chain of bucket [i], [fl] the free list, all
    disjoint; addresses from [fresh] on are unused; the iterator, when it
    stands somewhere, stands in the chain of its bucket. *)
Record shape h ch fl : Prop := {
  sh_prime : (0 < prime h)%Z;
  sh_chain : ∀ i, i < nbuckets h → ∃ tl, ch i = i :: tl ∧ dseg (zen h) None (i :: tl) None;
  sh_free : free_list h = hd_or None fl ∧ sseg (zen h) fl None;
  sh_nodup : ∀ i, i < nbuckets h → NoDup (ch i);
  sh_nodup_free : NoDup fl;
  sh_disj : ∀ i j a, i < nbuckets h → j < nbuckets h → a ∈ ch i → a ∈ ch j → i = j;
  sh_disj_free : ∀ i a, i < nbuckets h → a ∈ ch i → a ∉ fl;
  sh_fresh : ∀ a, fresh h ≤ a → zen h !! a = None;
  sh_iter : ∀ a, iter_node h = Some a →
    ∃ i, iter_bucket h = Z.of_nat i ∧ i < nbuckets h ∧ a ∈ ch i
}.

(** Content: the nodes of the chains hold exactly the entries of [m], each in
    the home bucket of its key. *)
Record content h ch m : Prop := {
  ct_ok : ∀ i a n, i < nbuckets h → a ∈ ch i → zen h !! a = Some n → node_ok n;
  ct_sound : ∀ i a k v, i < nbuckets h → a ∈ ch i → ent h a = Some (k, v) →
    home h k = i ∧ m !! k = Some v;
  ct_complete : ∀ k v, m !! k = Some v → ∃ a, a ∈ ch (home h k) ∧ ent h a = Some (k, v);
  ct_uniq : ∀ i a b k v w, i < nbuckets h → a ∈ ch i → b ∈ ch i →
    ent h a = Some (k, v) → ent h b = Some (k, w) → a = b;
  ct_count : count h = int32 (Z.of_nat (size m))
}.

Definition xht_rep h ch fl m : Prop := shape h ch fl ∧ content h ch m.

(** What the users of a table rely on. *)
Definition xht_ok h m : Prop := ∃ ch fl, xht_rep h ch fl m.

(** *** Consequences *)

Lemma bucket_lt h z : (0 < prime h)%Z → (0 <= z)%Z → bucket h z < nbuckets h.
Proof.
  intros. unfold bucket, nbuckets. pose proof (Z.rem_bound_pos z (prime h) ltac:(lia) ltac:(lia)). lia.
Qed.

Lemma home_lt h k : (0 < prime h)%Z → home h k < nbuckets h.
Proof. intros. apply bucket_lt; [done|]. pose proof (_xhasher_range k (strlen k)). lia. Qed.

Lemma xhasher_loop_stake w z s len :
  xhasher_loop w z (stake len s) (String.length (stake len s)) = xhasher_loop w z s len.
Proof. revert z s. induction len; intros z [|c s]; simpl; auto. Qed.

(** The hash of a buffer is that of the key it holds. *)
Lemma _xhasher_stake s len :
  (0 <= len)%Z →
  _xhasher (stake (Z.to_nat len) s) (strlen (stake (Z.to_nat len) s)) = _xhasher s len.
Proof. intros. unfold _xhasher, xhasher_w, strlen. rewrite Nat2Z.id. by rewrite xhasher_loop_stake. Qed.

Lemma key_match_spec key len n :
  node_ok n → key_ok key len →
  key_match key len n = true ↔ ∃ v, entry n = Some (stake (Z.to_nat len) key, v).
Proof.
  intros Hn [Hl Hk]. unfold key_match, entry. specialize (Hn).
  destruct (n_key n) as [k|] eqn:E; [|naive_solver].
  destruct (Hn k E) as [Hl' Hk']. unfold strlen in *.
  rewrite andb_true_iff, Z.eqb_eq. split.
  - intros [El Hm]. rewrite El in *. rewrite strncmp_eq_spec in Hm by (done || lia). rewrite Hm. eauto.
  - intros [v [= Hs _]]. assert (n_keylen n = len) as E'.
    { apply (f_equal String.length) in Hs. rewrite !stake_length in Hs. lia. }
    split; [done|]. rewrite strncmp_eq_spec by (done || lia). by rewrite <- Hs, E'.
Qed.

(** The search loop finds the first node of the chain that holds the key. *)
Lemma node_get_loop_spec f (z : gmap loc (xhn V)) key len l :
  length l < f → sseg z l None →
  match node_get_loop f z key len (hd_or None l) with
  | Some a => a ∈ l ∧ ∃ n, z !! a = Some n ∧ key_match key len n = true
  | None => ∀ a n, a ∈ l → z !! a = Some n → key_match key len n = false
  end.
Proof.
  revert l. induction f as [|f IH]; intros [|a l]; simpl; intros Hl Hs; try (exfalso; lia).
  - intros ?? []%not_elem_of_nil.
  - destruct Hs as (n & Ha & Hn & Hs). simpl in Hn. rewrite Ha.
    destruct (key_match key len n) eqn:E.
    + split; [set_solver|eauto].
    + rewrite Hn. specialize (IH l ltac:(lia) Hs).
      destruct (node_get_loop _ _ _ _ _).
      * destruct IH. split; [set_solver|done].
      * intros b n' [->|?]%elem_of_cons Hb; [congruence|eauto].
Qed.

Lemma chain_facts h ch fl i :
  shape h ch fl → i < nbuckets h →
  sseg (zen h) (ch i) None ∧ length (ch i) < fuel h ∧ hd_or None (ch i) = Some i ∧ i ∈ ch i.
Proof.
  intros Sh Hi. destruct (sh_chain _ _ _ Sh i Hi) as (tl & E & Hd).
  pose proof (dseg_sseg _ _ _ _ Hd) as Hs. rewrite <- E in Hs.
  split_and!; [done| |by rewrite E|rewrite E; set_solver].
  unfold fuel. pose proof (sseg_length_le _ _ _ (sh_nodup _ _ _ Sh i Hi) Hs). lia.
Qed.

Lemma chain_lookup h ch fl i a :
  shape h ch fl → i < nbuckets h → a ∈ ch i → ∃ n, zen h !! a = Some n.
Proof.
  intros Sh Hi Ha. destruct (chain_facts h ch fl i Sh Hi) as (Hs & _).
  destruct (sseg_elem _ _ _ _ Hs Ha) as [n ?]. eauto.
Qed.

(** [_xhash_node_get] under the invariant: the node that holds the key, or none. *)
Lemma node_get_spec h ch fl m key len :
  xht_rep h ch fl m → key_ok key len →
  let k := stake (Z.to_nat len) key in
  match _xhash_node_get h key len (_xhasher key len) with
  | Some a => ∃ v, a ∈ ch (home h k) ∧ ent h a = Some (k, v) ∧ m !! k = Some v
  | None => m !! k = None
  end.
Proof.
  intros [Sh Ct] Hk k. assert (home h k = bucket h (_xhasher key len)) as Hh.
  { unfold home, k. rewrite _xhasher_stake; [done|]. apply Hk. }
  pose proof (home_lt h k (sh_prime _ _ _ Sh)) as Hlt.
  destruct (chain_facts h ch fl (home h k) Sh Hlt) as (Hs & Hlen & Hhd & _).
  unfold _xhash_node_get. rewrite <- Hh, <- Hhd.
  pose proof (node_get_loop_spec _ _ key len _ Hlen Hs) as Hspec.
  destruct (node_get_loop _ _ _ _ _) as [a|] eqn:E.
  - destruct Hspec as (Ha & n & Hn & Hm).
    apply key_match_spec in Hm as [v Hv]; [|by eapply ct_ok|done].
    assert (ent h a = Some (k, v)) as He by (unfold ent; by rewrite Hn).
    exists v. split_and!; auto. by eapply (ct_sound _ _ _ Ct).
  - destruct (m !! k) as [v|] eqn:Hm; [|done].
    destruct (ct_complete _ _ _ Ct _ _ Hm) as (a & Ha & He). unfold ent in He.
    destruct (zen h !! a) as [n|] eqn:Hn; [|done]. specialize (Hspec a n Ha Hn).
    assert (key_match key len n = true) by (apply key_match_spec; [by eapply ct_ok|done|eauto]).
    congruence.
Qed.

(** ** Rebuilding the invariant after a change *)

(** A chain assignment with one bucket replaced. *)
Definition upd ch i (l : list loc) : nat → list loc := λ j, if decide (j = i) then l else ch j.

Lemma upd_eq ch i l : upd ch i l i = l.
Proof. unfold upd. by rewrite decide_True. Qed.
Lemma upd_ne ch i l j : j ≠ i → upd ch i l j = ch j.
Proof. intros. unfold upd. by rewrite decide_False. Qed.

(** The fields of a node that are not links. *)
Definition dat n : option string * Z * option V := (n_key n, n_keylen n, n_val n).

Lemma entry_dat n n' : dat n = dat n' → entry n = entry n'.
Proof. unfold dat, entry. intros [= -> -> ->]. done. Qed.
Lemma node_ok_dat n n' : dat n = dat n' → node_ok n → node_ok n'.
Proof. unfold dat, node_ok. intros [= -> -> _]. done. Qed.

Definition same_dat (z z' : gmap loc (xhn V)) a : Prop := dat <$> z' !! a = dat <$> z !! a.

Lemma same_dat_refl z a : same_dat z z a.
Proof. done. Qed.
Lemma same_dat_trans z1 z2 z3 a : same_dat z1 z2 a → same_dat z2 z3 a → same_dat z1 z3 a.
Proof. unfold same_dat. congruence. Qed.

Lemma same_dat_alter z b f a : (∀ n, dat (f n) = dat n) → same_dat z (alter f b z) a.
Proof.
  intros Hf. unfold same_dat. destruct (decide (b = a)) as [->|].
  - rewrite lookup_alter_eq. destruct (z !! a); simpl; [by rewrite Hf|done].
  - by rewrite lookup_alter_ne.
Qed.
Lemma same_dat_link_next z o q a : same_dat z (link_next o q z) a.
Proof. destruct o; [by apply same_dat_alter|done]. Qed.
Lemma same_dat_link_prev z o q a : same_dat z (link_prev o q z) a.
Proof. destruct o; [by apply same_dat_alter|done]. Qed.

Lemma same_dat_ent h h' a : same_dat (zen h) (zen h') a → ent h' a = ent h a.
Proof.
  unfold same_dat, ent. destruct (zen h' !! a), (zen h !! a); simpl; try done.
  intros [=]. apply entry_dat. unfold dat. congruence.
Qed.
Lemma same_dat_ok h h' a :
  same_dat (zen h) (zen h') a →
  (∀ n, zen h !! a = Some n → node_ok n) → ∀ n, zen h' !! a = Some n → node_ok n.
Proof.
  unfold same_dat. intros E Hok n' E'. rewrite E' in E.
  destruct (zen h !! a) as [n|] eqn:En; simplify_eq/=.
  eapply node_ok_dat; [|by apply Hok]. unfold dat. congruence.
Qed.

Lemma shape_update h h' ch fl fl' i tl :
  shape h ch fl → i < nbuckets h →
  prime h' = prime h →
  dseg (zen h') None (i :: tl) None → NoDup (i :: tl) →
  (∀ j b, j < nbuckets h → j ≠ i → b ∈ ch j → zen h' !! b = zen h !! b) →
  free_list h' = hd_or None fl' → sseg (zen h') fl' None → NoDup fl' →
  (∀ j b, j < nbuckets h → j ≠ i → b ∈ ch j → b ∉ i :: tl ∧ b ∉ fl') →
  (∀ b, b ∈ i :: tl → b ∉ fl') →
  (∀ b, fresh h' ≤ b → zen h' !! b = None) →
  (∀ b, iter_node h' = Some b → ∃ j, iter_bucket h' = Z.of_nat j ∧ j < nbuckets h ∧ b ∈ upd ch i (i :: tl) j) →
  shape h' (upd ch i (i :: tl)) fl'.
Proof.
  intros Sh Hi Hp Hd Hnd Hfr Hfl Hs Hnf Hdis Hdf Hfresh Hit.
  assert (nbuckets h' = nbuckets h) as Hnb by (unfold nbuckets; by rewrite Hp).
  split; rewrite ?Hnb; auto.
  - rewrite Hp. apply Sh.
  - intros j Hj. destruct (decide (j = i)) as [->|]; [rewrite upd_eq; eauto|].
    rewrite upd_ne by done. destruct (sh_chain _ _ _ Sh j Hj) as (tl' & E & Hd').
    exists tl'. split; [done|]. eapply dseg_frame; [|done]. rewrite <- E. eauto.
  - intros j Hj. destruct (decide (j = i)) as [->|]; [by rewrite upd_eq|].
    rewrite upd_ne by done. by eapply sh_nodup.
  - intros j j' b Hj Hj'.
    destruct (decide (j = i)) as [->|], (decide (j' = i)) as [->|];
      rewrite ?upd_eq, ?upd_ne by done; intros Hb Hb'; auto.
    + by destruct (Hdis j' b).
    + by destruct (Hdis j b).
    + by eapply sh_disj.
  - intros j b Hj. destruct (decide (j = i)) as [->|]; rewrite ?upd_eq, ?upd_ne by done; auto.
    intros Hb. by destruct (Hdis j b).
Qed.

(** Changing data fields of a node keeps the shape, as does any change of the
    counters. *)
Lemma shape_same h h' ch fl :
  shape h ch fl →
  prime h' = prime h → zen h' = zen h → free_list h' = free_list h → fresh h' = fresh h →
  iter_node h' = iter_node h → iter_bucket h' = iter_bucket h → shape h' ch fl.
Proof. intros [] H1 H2 H3 H4 H5 H6. unfold nbuckets in *. split; unfold nbuckets; by rewrite ?H1, ?H2, ?H3, ?H4, ?H5, ?H6. Qed.

Lemma shape_data h h' ch fl f a :
  shape h ch fl →
  (∀ n, n_next (f n) = n_next n) → (∀ n, n_prev (f n) = n_prev n) →
  prime h' = prime h → zen h' = alter f a (zen h) → free_list h' = free_list h → fresh h' = fresh h →
  iter_node h' = iter_node h → iter_bucket h' = iter_bucket h → shape h' ch fl.
Proof.
  intros [? Hc [? Hs] ?? ?? Hf ?] Hfn Hfp H1 H2 H3 H4 H5 H6. unfold nbuckets in *.
  split; unfold nbuckets; rewrite ?H1, ?H2, ?H3, ?H4, ?H5, ?H6; auto.
  - intros i Hi. destruct (Hc i Hi) as (tl & E & Hd). exists tl. split; [done|].
    by apply dseg_alter_data.
  - split; [done|]. by apply sseg_alter_data.
  - intros b Hb. apply lookup_alter_None. auto.
Qed.

(** An address in use that belongs to no chain. *)
Definition detached h ch fl a : Prop :=
  (∀ i, i < nbuckets h → a ∉ ch i) ∧ a ∉ fl ∧ is_Some (zen h !! a).

Lemma nbuckets_with h h' : prime h' = prime h → nbuckets h' = nbuckets h.
Proof. unfold nbuckets. by intros ->. Qed.

(** [node_alloc] yields a detached node. *)
Lemma shape_alloc h ch fl h' a :
  shape h ch fl → node_alloc h = (h', a) →
  ∃ fl', shape h' ch fl' ∧ detached h' ch fl' a ∧
    prime h' = prime h ∧ count h' = count h ∧
    (∀ b i, i < nbuckets h → b ∈ ch i → zen h' !! b = zen h !! b).
Proof.
  intros Sh. pose proof Sh as [? Hc [Hfl Hs] ? Hnf Hd Hdf Hfresh Hit]. unfold node_alloc.
  destruct (free_list h) as [f|] eqn:Ef; intros [= <- <-].
  - destruct fl as [|f' fl']; simplify_eq/=. destruct Hs as (n & Hn & Hnx & Hs).
    apply NoDup_cons in Hnf as [Hnf ?]. exists fl'. rewrite Hn. simpl.
    split_and!; auto.
    + split; simpl; auto. set_solver.
    + split_and!; simpl; [|done|by rewrite Hn]. intros i Hi Hin. specialize (Hdf i f' Hi Hin). set_solver.
  - assert (∀ b, is_Some (zen h !! b) → b ≠ fresh h) as Hne.
    { intros b [n Hb] ->. by rewrite Hfresh in Hb. }
    exists fl. split_and!; auto.
    + split; simpl; auto.
      * intros i Hi. destruct (Hc i Hi) as (tl & E & Hsg). exists tl. split; [done|].
        change (dseg (<[fresh h := xhn_zero]> (zen h)) None (i :: tl) None).
        eapply dseg_frame; [|done].
        intros b Hb. apply lookup_insert_ne. symmetry. apply Hne.
        apply (chain_lookup h ch fl i); [done..|by rewrite E].
      * split; [congruence|]. eapply sseg_frame; [|done]. intros b Hb. apply lookup_insert_ne.
        symmetry. apply Hne. by eapply sseg_elem.
      * intros b Hb. rewrite lookup_insert_ne by lia. apply Hfresh. lia.
    + split_and!; simpl.
      * intros i Hi Hin. destruct (chain_lookup _ _ _ _ _ Sh Hi Hin) as [n Hn].
        by apply (Hne (fresh h)); [eauto|].
      * intros Hin. by apply (Hne (fresh h)); [by eapply sseg_elem|].
      * rewrite lookup_insert_eq. eauto.
    + intros b i Hi Hb. simpl. apply lookup_insert_ne. symmetry. apply Hne. by eapply chain_lookup.
Qed.

(** Inserting a detached node after the head of a bucket: the stores of [_xhash_node_new]. *)
Lemma shape_insert h ch fl i tl a :
  shape h ch fl → i < nbuckets h → ch i = i :: tl → detached h ch fl a →
  let nn := zen h !! i ≫= n_next in
  let z := alter (set_pv (Some i)) a (zen h) in
  let z := alter (set_nx nn) a z in
  let z := link_prev nn (Some a) z in
  let z := alter (set_nx (Some a)) i z in
  shape (with_zen z h) (upd ch i (i :: a :: tl)) fl ∧ ∀ b, same_dat (zen h) z b.
Proof.
  intros Sh Hi Ech (Hdet & Hafl & [na Hna]) nn z1 z2 z3 z4.
  destruct (sh_chain _ _ _ Sh i Hi) as (tl' & E & Hd).
  rewrite E in Ech. injection Ech as <-.
  assert (a ∉ i :: tl') as Ha by (rewrite <- E; auto).
  pose proof (sh_nodup _ _ _ Sh i Hi) as Hnd. rewrite E in Hnd. apply NoDup_cons in Hnd as [Hitl Hndt].
  simpl in Hd. destruct Hd as (ni & Hni & Hpi & Hnxi & Hdt).
  assert (nn = hd_or None tl') as Enn by (unfold nn; by rewrite Hni).
  assert (∀ b, b ≠ a → b ≠ i → b ∉ tl' → z4 !! b = zen h !! b) as Hfr.
  { intros b Hba Hbi Hbt. unfold z4, z3, z2, z1.
    rewrite lookup_alter_ne, link_prev_frame, !lookup_alter_ne by (done || (rewrite Enn; intros ?; destruct tl'; set_solver)).
    done. }
  assert (nn ≠ Some i ∧ nn ≠ Some a) as [Hnni Hnna] by (rewrite Enn; split; intros ?; destruct tl'; set_solver).
  assert (a ≠ i) as Hai by set_solver.
  assert (z4 !! i = Some (set_nx (Some a) ni)) as Hz4i.
  { unfold z4, z3, z2, z1. by rewrite lookup_alter_eq, link_prev_frame, !lookup_alter_ne, Hni by done. }
  assert (z4 !! a = Some (set_nx nn (set_pv (Some i) na))) as Hz4a.
  { unfold z4, z3, z2, z1. by rewrite lookup_alter_ne, link_prev_frame, !lookup_alter_eq, Hna by done. }
  assert (dseg z4 (Some a) tl' None) as Hz4t.
  { apply (dseg_frame z3).
    { intros b Hb. unfold z4. apply lookup_alter_ne. set_solver. }
    unfold z3. rewrite Enn. apply (dseg_link_prev _ (Some i)); [done|].
    eapply dseg_frame; [|done]. intros b Hb. unfold z2, z1. rewrite !lookup_alter_ne by set_solver. done. }
  split.
  - apply (shape_update h _ _ fl); simpl; auto.
    + exists (set_nx (Some a) ni). split_and!; [done..|].
      exists (set_nx nn (set_pv (Some i) na)). split_and!; [done|done|exact Enn|done].
    + apply NoDup_cons. split; [set_solver|]. apply NoDup_cons. split; [set_solver|done].
    + intros j b Hj Hji Hb. assert (b ∉ i :: tl').
      { rewrite <- E. intros Hb'. apply Hji. by eapply sh_disj. }
      apply Hfr; [|set_solver..]. intros ->. by apply (Hdet j).
    + apply Sh.
    + eapply sseg_frame; [|apply Sh]. intros b Hb. assert (b ∉ i :: tl').
      { rewrite <- E. intros Hb'. by apply (sh_disj_free _ _ _ Sh i b). }
      apply Hfr; set_solver.
    + apply Sh.
    + intros j b Hj Hji Hb. split; [|by eapply sh_disj_free].
      assert (b ∉ i :: tl'). { rewrite <- E. intros Hb'. apply Hji. by eapply sh_disj. }
      assert (b ≠ a) by (intros ->; by apply (Hdet j)). set_solver.
    + intros b Hb. destruct (decide (b = a)) as [->|]; [done|].
      apply (sh_disj_free _ _ _ Sh i); [done|]. rewrite E. set_solver.
    + intros b Hb. pose proof (sh_fresh _ _ _ Sh b Hb) as Hb0.
      rewrite Hfr; [done|..]; [congruence|congruence|]. intros Hin.
      destruct (chain_lookup h ch fl i b Sh Hi); [rewrite E; set_solver|congruence].
    + intros b Hb. destruct (sh_iter _ _ _ Sh b Hb) as (j & ? & ? & Hbj). exists j.
      split_and!; auto. destruct (decide (j = i)) as [->|]; rewrite ?upd_eq, ?upd_ne by done; [|done].
      rewrite E in Hbj. set_solver.
  - intros b. unfold z4, z3, z2, z1.
    eapply same_dat_trans; [|by apply same_dat_alter].
    eapply same_dat_trans; [|apply same_dat_link_prev].
    eapply same_dat_trans; by apply same_dat_alter.
Qed.

(** Releasing a node that is not a bucket head: it moves to the free list. *)
Lemma shape_release h ch fl i l1 a l2 :
  shape h ch fl → i < nbuckets h → ch i = i :: l1 ++ a :: l2 → iter_node h ≠ Some a →
  shape (node_release h a) (upd ch i (i :: l1 ++ l2)) (a :: fl) ∧
  ∀ b, same_dat (zen h) (zen (node_release h a)) b.
Proof.
  intros Sh Hi Ech Hita. destruct (sh_chain _ _ _ Sh i Hi) as (tl & E & Hd).
  rewrite E in Ech. injection Ech as ->. pose proof (sh_nodup _ _ _ Sh i Hi) as Hnd. rewrite E in Hnd.
  destruct (dseg_lookup (zen h) None (i :: l1) a l2 None Hd) as (n & Hn & Hpv & Hnx).
  destruct (dseg_unlink (zen h) (i :: l1) a l2 Hnd Hd) as [Hd' Hfr].
  assert (a ∉ i :: l1 ++ l2) as Hani.
  { change (i :: l1 ++ a :: l2) with ((i :: l1) ++ a :: l2) in Hnd.
    apply NoDup_app in Hnd as (? & Hx & [??]%NoDup_cons). set_solver. }
  assert (a ∈ ch i) as Hai by (rewrite E; set_solver).
  unfold node_release. rewrite Hn. simpl in Hpv, Hnx |- *.
  change (n_prev n = last_or None (i :: l1)) in Hpv. rewrite Hpv, Hnx.
  set (z := link_prev _ _ _) in *. change (last_or (Some i) l1) with (last_or None (i :: l1)).
  fold z. set (z4 := alter _ a _).
  assert (∀ b, b ≠ a → z4 !! b = z !! b) as Hz4 by (intros; unfold z4; by rewrite !lookup_alter_ne).
  split.
  - apply (shape_update h _ _ fl); simpl; auto.
    + apply (dseg_frame z _ _ (i :: l1 ++ l2)); [|done]. intros b Hb. apply Hz4. set_solver.
    + change (NoDup ((i :: l1) ++ l2)). change (NoDup ((i :: l1) ++ a :: l2)) in Hnd.
      apply NoDup_app in Hnd as (?&?&[??]%NoDup_cons). apply NoDup_app. set_solver.
    + intros j b Hj Hji Hb. assert (b ∉ i :: l1 ++ a :: l2).
      { rewrite <- E. intros Hb'. apply Hji. by eapply sh_disj. }
      rewrite Hz4 by set_solver. apply Hfr. set_solver.
    + destruct (sh_free _ _ _ Sh) as [Hfl Hs]. exists (set_nx (free_list h) (set_pv None n)).
      unfold z4. rewrite !lookup_alter_eq. rewrite (Hfr a), Hn by set_solver.
      split_and!; [done|done|]. eapply sseg_frame; [|done].
      intros b Hb. assert (b ∉ i :: l1 ++ a :: l2).
      { rewrite <- E. intros Hb'. by apply (sh_disj_free _ _ _ Sh i b). }
      change (z4 !! b = zen h !! b). rewrite Hz4 by set_solver. apply Hfr. set_solver.
    + apply NoDup_cons. split; [by eapply sh_disj_free|apply Sh].
    + intros j b Hj Hji Hb. assert (b ∉ i :: l1 ++ a :: l2).
      { rewrite <- E. intros Hb'. apply Hji. by eapply sh_disj. }
      pose proof (sh_disj_free _ _ _ Sh j b Hj Hb). set_solver.
    + intros b Hb. assert (b ∉ fl).
      { apply (sh_disj_free _ _ _ Sh i); [done|]. rewrite E. set_solver. }
      set_solver.
    + intros b Hb. pose proof (sh_fresh _ _ _ Sh b Hb) as Hb0.
      rewrite Hz4 by congruence. rewrite Hfr; [done|]. intros Hin.
      destruct (chain_lookup h ch fl i b Sh Hi); [rewrite E; set_solver|congruence].
    + intros b Hb. destruct (sh_iter _ _ _ Sh b Hb) as (j & ? & ? & Hbj). exists j.
      split_and!; auto. destruct (decide (j = i)) as [->|]; rewrite ?upd_eq, ?upd_ne by done; [|done].
      rewrite E in Hbj. assert (b ≠ a) by congruence. set_solver.
  - intros b. unfold z4, z.
    eapply same_dat_trans; [|by apply same_dat_alter].
    eapply same_dat_trans; [|by apply same_dat_alter].
    eapply same_dat_trans; [|apply same_dat_link_prev]. apply same_dat_link_next.
Qed.

(** ** Content *)

(** Storing an entry for key [k] into node [a] of its home bucket. *)
Lemma content_store h h' ch ch' fl m a n k v :
  shape h ch fl → content h ch m →
  prime h' = prime h →
  (∀ j, j < nbuckets h → ∀ b, b ∈ ch' j ↔ b ∈ ch j ∨ b = a ∧ j = home h k) →
  (∀ j b, j < nbuckets h → b ∈ ch j → b ≠ a → same_dat (zen h) (zen h') b) →
  zen h' !! a = Some n → entry n = Some (k, v) → node_ok n →
  (∀ j, j < nbuckets h → a ∈ ch j → j = home h k) →
  (∀ w, m !! k = Some w → ent h a = Some (k, w) ∧ a ∈ ch (home h k)) →
  (m !! k = None → ∀ j, j < nbuckets h → a ∈ ch j → ent h a = None) →
  count h' = int32 (Z.of_nat (size (<[k := v]> m))) →
  content h' ch' (<[k := v]> m).
Proof.
  intros Sh Ct Hp Hch Hdat Hn He Hok Hhome Hold Hnew Hcnt.
  assert (nbuckets h' = nbuckets h) as Hnb by (unfold nbuckets; by rewrite Hp).
  assert (∀ k', home h' k' = home h k') as Hho by (intros; unfold home, bucket; by rewrite Hp).
  assert (ent h' a = Some (k, v)) as Hea by (unfold ent; by rewrite Hn).
  assert (∀ j b, j < nbuckets h → b ∈ ch j → b ≠ a → ent h' b = ent h b) as Heb.
  { intros. apply same_dat_ent. eauto. }
  assert (∀ j b w, j < nbuckets h → b ∈ ch j → b ≠ a → ent h b ≠ Some (k, w)) as Huq.
  { intros j b w Hj Hb Hba Hbe. destruct (ct_sound _ _ _ Ct _ _ _ _ Hj Hb Hbe) as [<- Hmk].
    destruct (Hold _ Hmk) as [Hae Hach]. apply Hba. by eapply (ct_uniq _ _ _ Ct). }
  assert (ent h a = None ∨ (∃ w, ent h a = Some (k, w)) ∨ ∀ j, j < nbuckets h → a ∉ ch j) as Haold.
  { destruct (m !! k) as [w|] eqn:Hmk; [right; left; exists w; by apply Hold|].
    destruct (ent h a) eqn:Hae; [|auto]. right. right. intros j Hj Hin.
    specialize (Hnew eq_refl j Hj Hin). congruence. }
  split; rewrite ?Hnb; [..|done].
  - intros j b nb Hj Hb Hnb'. apply Hch in Hb; [|done]. destruct (decide (b = a)) as [->|Hba]; [naive_solver|].
    destruct Hb as [Hb|[? _]]; [|done].
    eapply (same_dat_ok h h' b); [by eapply Hdat| |done]. intros. by eapply (ct_ok _ _ _ Ct).
  - intros j b k' v' Hj Hb Hbe. apply Hch in Hb; [|done]. rewrite Hho. destruct (decide (b = a)) as [->|Hba].
    + rewrite Hea in Hbe. injection Hbe as <- <-. rewrite lookup_insert_eq. split; [|done].
      destruct Hb as [Hb|[_ ->]]; [|done]. symmetry. by apply Hhome.
    + destruct Hb as [Hb|[? _]]; [|done]. rewrite (Heb j) in Hbe by done.
      destruct (ct_sound _ _ _ Ct _ _ _ _ Hj Hb Hbe) as [? ?]. split; [done|].
      rewrite lookup_insert_ne; [done|]. intros <-. by eapply Huq.
  - intros k' v'. rewrite lookup_insert, Hho. pose proof (home_lt h) as Hlt. case_decide as Hkk.
    + intros [= <-]. subst k'. exists a. split; [|done]. apply Hch; [apply Hlt, Sh|auto].
    + intros Hm. destruct (ct_complete _ _ _ Ct _ _ Hm) as (b & Hb & Hbe). exists b.
      assert (home h k' < nbuckets h) by (apply Hlt, Sh).
      split; [apply Hch; auto|]. destruct (decide (b = a)) as [->|]; [|by rewrite (Heb (home h k'))].
      exfalso. destruct Haold as [?|[[w ?]|Hno]]; [congruence|congruence|]. by apply (Hno (home h k')).
  - intros j b c k' v' w' Hj Hb Hc. apply Hch in Hb; [|done]. apply Hch in Hc; [|done].
    destruct (decide (b = a)) as [->|Hba], (decide (c = a)) as [->|Hca]; [done|..].
    + rewrite Hea. destruct Hc as [Hc|[? _]]; [|done]. rewrite (Heb j) by done. intros [= <- <-] Hce.
      exfalso. by eapply Huq.
    + rewrite Hea. destruct Hb as [Hb|[? _]]; [|done]. rewrite (Heb j) by done. intros Hbe [= <- <-].
      exfalso. by eapply Huq.
    + destruct Hb as [Hb|[? _]]; [|done]. destruct Hc as [Hc|[? _]]; [|done].
      rewrite !(Heb j) by done. by eapply (ct_uniq _ _ _ Ct).
Qed.

(** Emptying or dropping the node [a] that holds key [k]. *)
Lemma content_clear h h' ch ch' fl m a k v :
  shape h ch fl → content h ch m →
  prime h' = prime h →
  a ∈ ch (home h k) → ent h a = Some (k, v) →
  (∀ j, j < nbuckets h → ∀ b, b ∈ ch' j → b ∈ ch j ∧ (b = a → ent h' a = None ∧ ∀ n, zen h' !! a = Some n → node_ok n)) →
  (∀ j b, j < nbuckets h → b ∈ ch j → b ≠ a → b ∈ ch' j ∧ same_dat (zen h) (zen h') b) →
  count h' = int32 (Z.of_nat (size (delete k m))) →
  content h' ch' (delete k m).
Proof.
  intros Sh Ct Hp Ha Hae Hch Hch' Hcnt.
  assert (nbuckets h' = nbuckets h) as Hnb by (unfold nbuckets; by rewrite Hp).
  assert (∀ k', home h' k' = home h k') as Hho by (intros; unfold home, bucket; by rewrite Hp).
  pose proof (home_lt h k (sh_prime _ _ _ Sh)) as Hlt.
  assert (∀ j b, j < nbuckets h → b ∈ ch' j → b ≠ a → ent h' b = ent h b) as Heb.
  { intros j b Hj Hb Hba. apply same_dat_ent. apply (Hch' j); [done| |done]. by apply Hch. }
  split; rewrite ?Hnb; [..|done].
  - intros j b n Hj Hb Hn. destruct (decide (b = a)) as [->|Hba]; [by eapply Hch|].
    destruct (Hch j Hj b Hb) as [Hb' _].
    eapply (same_dat_ok h h' b); [by apply (Hch' j)| |done]. intros. by eapply (ct_ok _ _ _ Ct).
  - intros j b k' v' Hj Hb Hbe. rewrite Hho. destruct (Hch j Hj b Hb) as [Hb' Hba].
    destruct (decide (b = a)) as [->|Hne]; [destruct Hba; [done|congruence]|].
    rewrite (Heb j) in Hbe by done. destruct (ct_sound _ _ _ Ct _ _ _ _ Hj Hb' Hbe) as [<- Hm].
    split; [done|]. rewrite lookup_delete_ne; [done|]. intros ->. apply Hne.
    by eapply (ct_uniq _ _ _ Ct).
  - intros k' v' [Hkk Hm]%lookup_delete_Some. rewrite Hho.
    destruct (ct_complete _ _ _ Ct _ _ Hm) as (b & Hb & Hbe). exists b.
    assert (home h k' < nbuckets h) by (apply home_lt, Sh).
    assert (b ≠ a) by congruence. destruct (Hch' (home h k') b) as [??]; [done..|].
    split; [done|]. by rewrite (Heb (home h k')).
  - intros j b c k' v' w' Hj Hb Hc.
    destruct (Hch j Hj b Hb) as [Hb' Hba], (Hch j Hj c Hc) as [Hc' Hca].
    destruct (decide (b = a)) as [->|]; [destruct Hba; [done|congruence]|].
    destruct (decide (c = a)) as [->|]; [destruct Hca; [done|congruence]|].
    rewrite !(Heb j) by done. by eapply (ct_uniq _ _ _ Ct).
Qed.

(** Relinking, or dropping a node that holds no entry. *)
Lemma content_same h h' ch ch' fl m :
  shape h ch fl → content h ch m →
  prime h' = prime h → count h' = count h →
  (∀ j, j < nbuckets h → ∀ b, b ∈ ch' j → b ∈ ch j) →
  (∀ j b, j < nbuckets h → b ∈ ch j → (b ∈ ch' j ∨ ent h b = None)) →
  (∀ b, same_dat (zen h) (zen h') b) →
  content h' ch' m.
Proof.
  intros Sh Ct Hp Hcnt Hsub Hkeep Hdat.
  assert (nbuckets h' = nbuckets h) as Hnb by (unfold nbuckets; by rewrite Hp).
  assert (∀ k', home h' k' = home h k') as Hho by (intros; unfold home, bucket; by rewrite Hp).
  assert (∀ b, ent h' b = ent h b) as He by (intros; by apply same_dat_ent).
  split; rewrite ?Hnb.
  - intros j b n Hj Hb Hn. eapply (same_dat_ok h h' b); [done| |done].
    intros. eapply (ct_ok _ _ _ Ct); eauto.
  - intros j b k v Hj Hb. rewrite He, Hho. eapply (ct_sound _ _ _ Ct); eauto.
  - intros k v Hm. destruct (ct_complete _ _ _ Ct _ _ Hm) as (b & Hb & Hbe).
    exists b. rewrite He, Hho. split; [|done].
    destruct (Hkeep (home h k) b) as [?|?]; [apply home_lt, Sh|done|done|congruence].
  - intros j b c k v w Hj Hb Hc. rewrite !He. eapply (ct_uniq _ _ _ Ct); eauto.
  - rewrite Hcnt. apply Ct.
Qed.

(** ** The operations *)

Lemma rep_same h h' ch fl m :
  xht_rep h ch fl m →
  prime h' = prime h → zen h' = zen h → free_list h' = free_list h → fresh h' = fresh h →
  iter_node h' = iter_node h → iter_bucket h' = iter_bucket h → count h' = count h →
  xht_rep h' ch fl m.
Proof.
  intros [Sh Ct] H1 H2 H3 H4 H5 H6 H7. split; [by eapply shape_same|].
  eapply content_same; eauto. intros. by rewrite H2.
Qed.

(** Filling the node [a] that [xhash_putx] settled on. *)
Lemma put_finish h h2 ch ch2 fl fl2 m a n0 key len v :
  let k := stake (Z.to_nat len) key in
  xht_rep h ch fl m → shape h2 ch2 fl2 → prime h2 = prime h →
  (∀ j, j < nbuckets h → ∀ b, b ∈ ch2 j ↔ b ∈ ch j ∨ b = a ∧ j = home h k) →
  (∀ j b, j < nbuckets h → b ∈ ch j → b ≠ a → same_dat (zen h) (zen h2) b) →
  zen h2 !! a = Some n0 → key_ok key len →
  (∀ j, j < nbuckets h → a ∈ ch j → j = home h k) →
  (∀ w, m !! k = Some w → ent h a = Some (k, w) ∧ a ∈ ch (home h k)) →
  (m !! k = None → ∀ j, j < nbuckets h → a ∈ ch j → ent h a = None) →
  count h2 = int32 (Z.of_nat (size (<[k := v]> m))) →
  xht_rep (with_zen (alter (set_kv (Some key) len v) a (zen h2)) h2) ch2 fl2 (<[k := v]> m).
Proof.
  intros k [Sh Ct] Sh2 Hp Hch Hdat Hn0 Hk Hhome Hold Hnew Hcnt. split.
  { by eapply (shape_data h2 _ ch2 fl2 (set_kv (Some key) len v) a). }
  eapply (content_store h _ ch ch2 fl m a (set_kv (Some key) len v n0)); auto.
  - intros j b Hj Hb Hba. eapply same_dat_trans; [by eapply Hdat|].
    unfold same_dat. simpl. by rewrite lookup_alter_ne.
  - simpl. by rewrite lookup_alter_eq, Hn0.
  - intros key' [= <-]. done.
Qed.

Lemma putx_rep h ch fl m key len v :
  xht_rep h ch fl m → key_ok key len →
  ∃ ch' fl', xht_rep (xhash_putx h (Some key) len v) ch' fl' (<[stake (Z.to_nat len) key := v]> m).
Proof.
  intros Rep0 Hk. unfold xhash_putx. set (h0 := with_dirty _ h).
  assert (xht_rep h0 ch fl m) as Rep by by eapply rep_same. clear Rep0.
  pose proof Rep as [Sh Ct]. pose proof (node_get_spec _ _ _ _ _ _ Rep Hk) as Hget.
  cbv zeta in Hget. set (k := stake _ key) in *.
  assert (home h0 k = bucket h0 (_xhasher key len)) as Hh.
  { unfold home, k. rewrite _xhasher_stake; [done|]. apply Hk. }
  pose proof (home_lt h0 k (sh_prime _ _ _ Sh)) as Hlt.
  destruct (_xhash_node_get h0 key len _) as [a|].
  { destruct Hget as (w & Ha & He & Hm). exists ch, fl.
    destruct (chain_lookup _ _ _ _ _ Sh Hlt Ha) as [n0 Hn0].
    apply (put_finish h0 h0 ch ch fl fl m a n0 key len v Rep Sh eq_refl); fold k; try done.
    - intros j Hj b. naive_solver.
    - intros j Hj Hin. by eapply sh_disj.
    - intros w' Hm'. by simplify_eq.
    - congruence.
    - rewrite map_size_insert_Some by (by eexists). apply Ct. }
  unfold _xhash_node_new. rewrite <- Hh. set (h1 := with_count _ h0).
  assert (shape h1 ch fl) as Sh1 by by eapply shape_same.
  destruct (sh_chain _ _ _ Sh _ Hlt) as (tl & E & ni & Hni & _).
  assert (Z.of_nat (size (<[k := v]> m)) = Z.of_nat (size m) + 1)%Z as Hsz
    by (rewrite map_size_insert_None by done; lia).
  assert (count h1 = int32 (Z.of_nat (size (<[k := v]> m)))) as Hcnt.
  { simpl. change (count h) with (count h0). rewrite (ct_count _ _ _ Ct), int32_add, Hsz. done. }
  change (zen h1) with (zen h0). rewrite Hni. simpl. destruct (n_key ni) as [ki|] eqn:Ek.
  - destruct (node_alloc h1) as [h2 a] eqn:Eal.
    destruct (shape_alloc _ _ _ _ _ Sh1 Eal) as (fl' & Sh2 & Hdet & Hp2 & Hc2 & Hz2).
    assert (nbuckets h2 = nbuckets h0) as Hnb by by apply nbuckets_with.
    destruct (shape_insert h2 ch fl' (home h0 k) tl a Sh2) as [Sh3 Hd3]; [lia|done|done|].
    destruct Hdet as (Hdet & _ & [na Hna]).
    set (z3 := alter (set_nx (Some a)) _ _) in *. exists (upd ch (home h0 k) (home h0 k :: a :: tl)), fl'.
    assert (is_Some (z3 !! a)) as [n3 Hn3].
    { specialize (Hd3 a). unfold same_dat in Hd3. rewrite Hna in Hd3. destruct (z3 !! a); [eauto|done]. }
    apply (put_finish h0 (with_zen z3 h2) ch _ fl fl' m a n3 key len v Rep Sh3 Hp2); fold k; try done.
    + intros j Hj b. destruct (decide (j = home h0 k)) as [->|]; rewrite ?upd_eq, ?upd_ne by done.
      * rewrite E. set_solver.
      * naive_solver.
    + intros j b Hj Hb _. eapply same_dat_trans; [|apply Hd3]. unfold same_dat. by rewrite (Hz2 b j).
    + intros j Hj Hin. destruct (Hdet j); [lia|done].
    + congruence.
    + intros _ j Hj Hin. destruct (Hdet j); [lia|done].
    + simpl. by rewrite Hc2.
  - exists ch, fl.
    apply (put_finish h0 h1 ch ch fl fl m (home h0 k) ni key len v Rep Sh1 eq_refl); fold k; try done.
    + intros j Hj b. split; [auto|]. intros [?|[-> ->]]; [done|]. rewrite E. set_solver.
    + intros j Hj Hin. apply (sh_disj _ _ _ Sh _ _ (home h0 k)); [done..|]. rewrite E. set_solver.
    + congruence.
    + intros _ j Hj Hin. unfold ent. rewrite Hni. simpl. unfold entry. by rewrite Ek.
Qed.

Lemma zap_inner_rep h ch fl m a index k v :
  xht_rep h ch fl m → a ∈ ch (home h k) → ent h a = Some (k, v) → bucket h index = home h k →
  ∃ ch' fl', xht_rep (xhash_zap_inner h a index) ch' fl' (delete k m) ∧
    (iter_node h = Some a → ch' = ch) ∧
    (∀ b, b ≠ a → same_dat (zen h) (zen (xhash_zap_inner h a index)) b).
Proof.
  intros [Sh Ct] Ha He Hb. unfold xhash_zap_inner. rewrite Hb.
  pose proof (home_lt h k (sh_prime _ _ _ Sh)) as Hlt.
  destruct (ct_sound _ _ _ Ct _ _ _ _ Hlt Ha He) as [_ Hm].
  assert (int32 (count h - 1) = int32 (Z.of_nat (size (delete k m)))) as Hcnt.
  { rewrite (ct_count _ _ _ Ct), map_size_delete_Some by (by eexists).
    change (int32 (Z.of_nat (size m)) - 1)%Z with (int32 (Z.of_nat (size m)) + -1)%Z.
    rewrite int32_add. f_equal. assert (size m ≠ 0); [|lia]. intros Hz%map_size_empty_inv.
    by rewrite Hz, lookup_empty in Hm. }
  destruct (bool_decide_reflect (home h k = a)) as [Hia|Hia],
    (bool_decide_reflect (iter_node h = Some a)) as [Hit|Hit]; simpl.
  4: { destruct (sh_chain _ _ _ Sh _ Hlt) as (tl & E & _). rewrite E in Ha.
    apply elem_of_cons in Ha as [?|(l1 & l2 & ->)%list_elem_of_split]; [congruence|].
    destruct (shape_release h ch fl _ l1 a l2 Sh Hlt E Hit) as [Sh' Hd].
    assert (prime (node_release h a) = prime h ∧ count (node_release h a) = count h) as [Hp Hc] by done.
    assert (∀ b, b ≠ a → same_dat (zen h)
      (alter (λ nd, set_kv None (n_keylen nd) None nd) a (zen (node_release h a))) b) as Hd4.
    { intros b Hba. eapply same_dat_trans; [apply Hd|]. unfold same_dat. by rewrite !lookup_alter_ne by done. }
    exists (upd ch (home h k) (home h k :: l1 ++ l2)), (a :: fl). split; [|by split]. split.
    { eapply (shape_data _ _ _ _ (λ nd, set_kv None (n_keylen nd) None nd) a Sh'); done. }
    assert (a ∉ home h k :: l1 ++ l2) as Hani.
    { pose proof (sh_nodup _ _ _ Sh _ Hlt) as Hnd. rewrite E in Hnd.
      change (NoDup ((home h k :: l1) ++ a :: l2)) in Hnd.
      apply NoDup_app in Hnd as (? & Hx & [??]%NoDup_cons). set_solver. }
    apply (content_clear h _ ch _ fl m a k v Sh Ct); try done.
    - rewrite E. set_solver.
    - intros j Hj b. destruct (decide (j = home h k)) as [->|]; rewrite ?upd_eq, ?upd_ne by done.
      + rewrite E. intros Hb'. split; [set_solver|]. set_solver.
      + intros Hb'. split; [done|]. intros ->. exfalso. assert (j = home h k); [|done].
        apply (sh_disj _ _ _ Sh _ _ a); [done..|]. rewrite E. set_solver.
    - intros j b Hj Hb' Hba. split.
      + destruct (decide (j = home h k)) as [->|]; rewrite ?upd_eq, ?upd_ne by done; [|done].
        rewrite E in Hb'. set_solver.
      + by apply Hd4. }
  all: exists ch, fl; split; [|split; [done|]; intros b Hba; unfold same_dat; simpl; by rewrite lookup_alter_ne].
  all: split; [by eapply (shape_data h _ _ _ (λ nd, set_kv None (n_keylen nd) None nd) a Sh)|].
  all: destruct (chain_lookup _ _ _ _ _ Sh Hlt Ha) as [n Hn].
  all: apply (content_clear h _ ch _ fl m a k v Sh Ct); try done.
  all: try (intros j Hj b Hb'; split; [done|]; intros ->; unfold ent; simpl;
    rewrite lookup_alter_eq, Hn; simpl; split; [done|]; intros ? [= <-] ?; done).
  all: intros j b Hj Hb' Hba; split; [done|]; unfold same_dat; simpl; by rewrite lookup_alter_ne.
Qed.
End rep.

(** ** The contract of the hash table

    The headline theorems about util/xhash.c: from [xhash_new] on, every
    sequence of puts, gets and zaps answers as a finite map does; the
    iterator visits every entry once even when the caller zaps as it goes; and
    two ways in which the code breaks this promise, an entry with a NULL value
    and a zap from inside [xhash_walk]. *)

(** ** Definitions *)

(** An operation of a client on a table. *)
Inductive xop (V : Type) :=
| XPut (key : string) (len : Z) (val : option V)
| XGet (key : string) (len : Z)
| XZap (key : string) (len : Z).
Arguments XPut {V}. Arguments XGet {V}. Arguments XZap {V}.

Section defs.
Context {V : Type}.

Definition xop_ok (o : xop V) : Prop :=
  match o with XPut k l _ | XZap k l => key_ok k l | XGet k l => key_ok k l ∧ (0 < l)%Z end.

(** The operation on the table, with what it answers. *)
Definition xop_table (o : xop V) (h : xht V) : xht V * option V :=
  match o with
  | XPut k l v => (xhash_putx h (Some k) l v, None)
  | XGet k l => (h, xhash_getx h (Some k) l)
  | XZap k l => (xhash_zapx h (Some k) l, None)
  end.

(** The specification: the same operation on a finite map. *)
Definition xop_map (o : xop V) (m : gmap string (option V)) : gmap string (option V) * option V :=
  match o with
  | XPut k l v => (<[stake (Z.to_nat l) k := v]> m, None)
  | XGet k l => (m, mjoin (m !! stake (Z.to_nat l) k))
  | XZap k l => (delete (stake (Z.to_nat l) k) m, None)
  end.

(** Run a list of operations, collecting after each the answer and the count. *)
Fixpoint run_table (os : list (xop V)) (h : xht V) : list (option V * Z) :=
  match os with
  | [] => []
  | o :: os => let '(h, a) := xop_table o h in (a, xhash_count h) :: run_table os h
  end.
Fixpoint run_map (os : list (xop V)) (m : gmap string (option V)) : list (option V * Z) :=
  match os with
  | [] => []
  | o :: os => let '(m, a) := xop_map o m in (a, int32 (Z.of_nat (size m))) :: run_map os m
  end.

(** The callers' loop
    [if(xhash_iter_first(h)) do { xhash_iter_get(h, ...); ... } while(xhash_iter_next(h));]
    whose body zaps the current entry when [p] says so; the visited entries. *)
Fixpoint iter_loop (f : nat) (p : string → option V → bool) (h : xht V) : xht V * list (string * option V) :=
  match f with
  | O => (h, [])
  | S f =>
    match xhash_iter_get h with
    | Some (Some key, len, val) =>
      let k := stake (Z.to_nat len) key in
      let h := if p k val then xhash_iter_zap h else h in
      let '(h, more) := xhash_iter_next h in
      let '(h, l) := if more then iter_loop f p h else (h, []) in
      (h, (k, val) :: l)
    | _ => (h, [])
    end
  end.
Definition iterate (f : nat) (p : string → option V → bool) (h : xht V) : xht V * list (string * option V) :=
  let '(h, more) := xhash_iter_first h in
  if more then iter_loop f p h else (h, []).

(** A walker that only records what it is called on. *)
Definition record_walker (k : string) (len : Z) (v : V) (st : xht V * list (string * option V)) :=
  (st.1, st.2 ++ [(stake (Z.to_nat len) k, Some v)]).

(** A walker that zaps every entry it is called on, as
    [_router_route_unbind_walker] of router/router.c does. *)
Definition zap_walker (k : string) (len : Z) (v : V) (st : xht V * list string) :=
  (xhash_zapx st.1 (Some k) len, st.2 ++ [stake (Z.to_nat len) k]).
End defs.

(** ** Refinement of a finite map *)

Section refine.
Context {V : Type}.
Implicit Types (h : xht V) (m : gmap string (option V)) (ch : nat → list loc) (fl l : list loc).

Lemma zero_heads_lookup n i : (zero_heads n : gmap loc (xhn V)) !! i = if decide (i < n) then Some xhn_zero else None.
Proof.
  induction n as [|n IH]; cbn [zero_heads]; [by case_decide; [lia|]|].
  rewrite lookup_insert, IH. repeat case_decide; done || lia.
Qed.

Lemma xhash_new_ok p : (0 < p)%Z → xht_ok (xhash_new p : xht V) ∅.
Proof.
  intros Hp. exists (λ i, [i]), []. split.
  - split; simpl; try done; try set_solver.
    + intros i Hi. exists []. split; [done|]. exists xhn_zero. simpl.
      rewrite zero_heads_lookup, decide_True by done. done.
    + intros; apply NoDup_singleton.
    + constructor.
    + intros a Ha. rewrite zero_heads_lookup, decide_False by lia. done.
  - split; simpl; try done.
    + intros i a n Hi Ha Hn. rewrite zero_heads_lookup in Hn. case_decide; [|done].
      by injection Hn as <-.
    + unfold ent. simpl. intros i a k v Hi Ha. rewrite zero_heads_lookup. by case_decide.
    + unfold ent. simpl. intros i a b k v w Hi Ha Hb. rewrite zero_heads_lookup. by case_decide.
Qed.

Lemma xhash_putx_ok h m key len v :
  xht_ok h m → key_ok key len → xht_ok (xhash_putx h (Some key) len v) (<[stake (Z.to_nat len) key := v]> m).
Proof. intros (ch & fl & Rep) Hk. by eapply putx_rep. Qed.

Lemma key_ok_strlen k : no_nul k → key_ok k (strlen k).
Proof. intros Hk. split; [unfold strlen; lia|]. by apply no_nul_stake. Qed.

Lemma stake_strlen k : stake (Z.to_nat (strlen k)) k = k.
Proof. unfold strlen. rewrite Nat2Z.id. apply stake_all. Qed.

Lemma xhash_put_ok h m k v : xht_ok h m → no_nul k → xht_ok (xhash_put h (Some k) v) (<[k := v]> m).
Proof.
  intros Hh Hk. rewrite <- (stake_strlen k) at 2.
  apply (xhash_putx_ok h m k (strlen k) v Hh). by apply key_ok_strlen.
Qed.

Lemma xhash_getx_ok h m key len :
  xht_ok h m → key_ok key len → (0 < len)%Z →
  xhash_getx h (Some key) len = mjoin (m !! stake (Z.to_nat len) key).
Proof.
  intros (ch & fl & Rep) Hk Hl. unfold xhash_getx. rewrite (proj2 (Z.leb_gt _ _)) by done.
  pose proof (node_get_spec _ _ _ _ _ _ Rep Hk) as Hget. cbv zeta in Hget.
  destruct (_xhash_node_get _ _ _ _) as [a|]; [|by rewrite Hget].
  destruct Hget as (v & _ & He & ->). unfold ent in He. simpl.
  destruct (zen h !! a) as [n|]; [|done]. simpl in *. unfold entry in He.
  destruct (n_key n); [|done]. by injection He as _ ->.
Qed.

Lemma xhash_zapx_ok h m key len :
  xht_ok h m → key_ok key len → xht_ok (xhash_zapx h (Some key) len) (delete (stake (Z.to_nat len) key) m).
Proof.
  intros (ch & fl & Rep) Hk. unfold xhash_zapx.
  pose proof (node_get_spec _ _ _ _ _ _ Rep Hk) as Hget. cbv zeta in Hget.
  destruct (_xhash_node_get _ _ _ _) as [a|].
  - destruct Hget as (v & Ha & He & _).
    destruct (zap_inner_rep _ _ _ _ a (_xhasher key len) _ v Rep Ha He) as (ch' & fl' & Rep' & _).
    { unfold home. rewrite _xhasher_stake; [done|]. apply Hk. }
    by exists ch', fl'.
  - rewrite delete_id by done. by exists ch, fl.
Qed.

Lemma xhash_count_ok h m : xht_ok h m → xhash_count h = int32 (Z.of_nat (size m)).
Proof. intros (ch & fl & _ & Ct). apply Ct. Qed.

Lemma xop_simulates o h m :
  xht_ok h m → xop_ok o →
  xht_ok (xop_table o h).1 (xop_map o m).1 ∧ (xop_table o h).2 = (xop_map o m).2.
Proof.
  intros Hok Ho. destruct o as [k l v|k l|k l]; simpl in *.
  - split; [|done]. by apply xhash_putx_ok.
  - destruct Ho. split; [done|]. by apply xhash_getx_ok.
  - split; [|done]. by apply xhash_zapx_ok.
Qed.

Lemma run_simulates os h m : xht_ok h m → Forall xop_ok os → run_table os h = run_map os m.
Proof.
  intros Hok Hos. revert h m Hok. induction Hos as [|o os Ho _ IH]; intros h m Hok; simpl; [done|].
  destruct (xop_simulates o h m Hok Ho) as [Hok' Ha].
  destruct (xop_table o h) as [h' a], (xop_map o m) as [m' a']; simpl in *. subst.
  by rewrite (xhash_count_ok _ _ Hok'), (IH _ _ Hok').
Qed.
End refine.

(** C36: a hash table made by [xhash_new] is a finite map.  Whatever the number
    of buckets and whatever sequence of [xhash_putx], [xhash_getx] and
    [xhash_zapx] calls follows, with keys that collide or not and nodes that
    are unlinked, put on the free list and reused, every lookup answers what a
    finite map updated by the same calls holds and [xhash_count] is its size.
    Keys are buffers with a length, NUL-free up to it. *)
Theorem xhash_refines_map {V : Type} (prime : Z) (os : list (xop V)) :
  (0 < prime)%Z → Forall xop_ok os → run_table os (xhash_new prime) = run_map os ∅.
Proof. intros Hp Hos. by apply run_simulates; [apply xhash_new_ok|]. Qed.

Definition xops_example : list (xop Z) :=
  [XPut "a" 1 (Some 1%Z); XPut "c" 1 (Some 2%Z); XPut "e" 1 (Some 3%Z); XGet "c" 1;
   XZap "c" 1; XGet "c" 1; XPut "g!" 1 (Some 4%Z); XPut "a" 1 (Some 5%Z); XGet "a" 1; XGet "gx" 1].

Example xhash_refines_map_witness :
  run_table xops_example (xhash_new 2) = run_map xops_example ∅ ∧
  (run_table xops_example (xhash_new 2)).*1 =
    [None; None; None; Some 2; None; None; None; None; Some 5; Some 4]%Z.
Proof.
  split; [|by vm_compute]. apply (xhash_refines_map 2 xops_example); [done|].
  repeat constructor; by vm_compute.
Defined.
