(* ===== verification/XHashIter.v ===== *)
(** * Iteration over the hash table

    [xhash_iter_first], [xhash_iter_next] and [xhash_iter_zap] of util/xhash.c
    visit the entries in the order of the bucket chains.  The lemmas follow the
    iterator from one entry to the next while the table reaps emptied nodes;
    the theorems say what the callers' do/while loop sees. *)
From S2P Require Import Prelude.
From S2P Require Import CStr.
From S2P Require Import DList.
From S2P Require Import XHash.
From S2P Require Import XHashSpec.

(** ** Iteration *)

Section iter.
Context {V : Type}.
Implicit Types (h : xht V) (m : gmap string (option V)) (ch : nat → list loc) (fl l pre : list loc).
Implicit Types (p : string → option V → bool).

(** No entry has a NULL value. *)
Definition vals_ok m : Prop := ∀ k, m !! k ≠ Some None.

(** The entries of the nodes of a list, in order. *)
Definition ents h l : list (string * option V) := omap (ent h) l.

#[local] Arguments ents : simpl never.
#[local] Arguments fuel : simpl never.

(** The chains of the [n] buckets from [s] on, one after the other. *)
Definition chains ch (s n : nat) : list loc := mjoin (ch <$> seq s n).

(** The entries the iterator still has to visit when it stands in bucket [b]
    with [l] behind it. *)
Definition rest h ch b l : list (string * option V) :=
  ents h (l ++ chains ch (S b) (nbuckets h - S b)).

Definition at_pos h ch b pre a l : Prop :=
  b < nbuckets h ∧ iter_bucket h = Z.of_nat b ∧ iter_node h = Some a ∧ ch b = pre ++ a :: l.

Lemma ents_app h l l' : ents h (l ++ l') = ents h l ++ ents h l'.
Proof. apply omap_app. Qed.

Lemma ents_cons h a l :
  ents h (a :: l) = match ent h a with Some e => e :: ents h l | None => ents h l end.
Proof. done. Qed.

Lemma ents_ext h h' l : (∀ a, a ∈ l → ent h' a = ent h a) → ents h' l = ents h l.
Proof.
  induction l as [|a l IH]; intros He; [done|].
  rewrite !ents_cons, He, IH by set_solver. done.
Qed.

Lemma elem_of_chains ch s n a : a ∈ chains ch s n ↔ ∃ j, s ≤ j < s + n ∧ a ∈ ch j.
Proof.
  unfold chains. rewrite list_elem_of_join. setoid_rewrite list_elem_of_fmap.
  setoid_rewrite elem_of_seq. naive_solver.
Qed.

Lemma chains_ext ch ch' s n : (∀ j, s ≤ j < s + n → ch' j = ch j) → chains ch' s n = chains ch s n.
Proof.
  intros Hc. unfold chains. f_equal. apply list_fmap_ext. intros i j E.
  apply lookup_seq in E. apply Hc. lia.
Qed.

Lemma shape_iter h ch fl b o :
  shape h ch fl →
  (∀ a, o = Some a → ∃ i, b = Z.of_nat i ∧ i < nbuckets h ∧ a ∈ ch i) →
  shape (with_iter b o h) ch fl.
Proof. intros [] Ho. by split. Qed.

Lemma rep_iter h ch fl m b o :
  xht_rep h ch fl m →
  (∀ a, o = Some a → ∃ i, b = Z.of_nat i ∧ i < nbuckets h ∧ a ∈ ch i) →
  xht_rep (with_iter b o h) ch fl m.
Proof.
  intros [Sh Ct] Ho. split; [by apply shape_iter|]. by eapply content_same; eauto.
Qed.

(** A node of a chain is full exactly when it holds an entry. *)
Lemma node_full_ent h ch fl m i a n :
  xht_rep h ch fl m → vals_ok m → i < nbuckets h → a ∈ ch i → zen h !! a = Some n →
  if node_full n then ∃ e, ent h a = Some e else ent h a = None.
Proof.
  intros [Sh Ct] Hv Hi Ha Hn. unfold node_full.
  destruct (ent h a) as [[k v]|] eqn:He.
  - destruct (ct_sound _ _ _ Ct _ _ _ _ Hi Ha He) as [_ Hm].
    unfold ent, entry in He. rewrite Hn in He. simpl in He.
    destruct (n_key n); [|done]. destruct (n_val n); [eauto|]. simplify_eq. by destruct (Hv _ Hm).
  - unfold ent, entry in He. rewrite Hn in He. simpl in He. by destruct (n_key n).
Qed.

Lemma iter_in_bucket_spec f h ch fl m b pre l :
  xht_rep h ch fl m → vals_ok m → b < nbuckets h → iter_bucket h = Z.of_nat b →
  iter_node h = hd_or None l → ch b = pre ++ l → pre ≠ [] → length l < f →
  ∃ h' found ch' fl', iter_in_bucket f h = (h', found) ∧ xht_rep h' ch' fl' m ∧
    iter_bucket h' = Z.of_nat b ∧ prime h' = prime h ∧
    (∀ j, j ≠ b → ch' j = ch j) ∧ (∀ a, ent h' a = ent h a) ∧
    (if found then ∃ a l' e, ch' b = pre ++ a :: l' ∧ iter_node h' = Some a ∧
                     ent h a = Some e ∧ ents h l = e :: ents h l'
     else iter_node h' = None ∧ ents h l = []).
Proof.
  revert f h ch fl pre. induction l as [|a l IH]; intros [|f] h ch fl pre Rep Hv Hb Hib Hin Hch Hpre Hf;
    simpl in *; try lia.
  { rewrite Hin. exists h, false, ch, fl. by split_and!. }
  pose proof Rep as [Sh Ct]. destruct (sh_chain _ _ _ Sh b Hb) as (tl & E & Hd).
  assert (a ∈ ch b) as Ha by (rewrite Hch; set_solver).
  rewrite <- E, Hch in Hd. destruct (dseg_lookup _ _ _ _ _ _ Hd) as (n & Hn & _ & Hnx).
  change (n_next n = hd_or None l) in Hnx.
  rewrite Hin, Hn. pose proof (node_full_ent _ _ _ _ _ _ _ Rep Hv Hb Ha Hn) as Hfull.
  destruct (node_full n).
  - destruct Hfull as [e He]. exists h, true, ch, fl. split_and!; auto.
    exists a, l, e. split_and!; auto. by rewrite ents_cons, He.
  - destruct pre as [|b' l1]; [done|]. rewrite E in Hch. injection Hch as <- ->.
    assert (a ≠ b) as Hab.
    { pose proof (sh_nodup _ _ _ Sh b Hb) as Hnd. rewrite E in Hnd. apply NoDup_cons in Hnd as [? _]. set_solver. }
    rewrite bool_decide_false by (simpl; rewrite Hib; lia).
    assert (xht_rep (with_iter (iter_bucket h) (n_next n) h) ch fl m) as Rep1.
    { apply rep_iter; [done|]. intros c Hc. exists b. split_and!; auto. rewrite E, Hnx in *.
      apply hd_or_elem in Hc. set_solver. }
    destruct Rep1 as [Sh1 Ct1].
    destruct (shape_release _ ch fl b l1 a l Sh1 Hb E) as [Sh2 Hdat].
    { simpl. rewrite Hnx. intros Hc%hd_or_elem. pose proof (sh_nodup _ _ _ Sh b Hb) as Hnd.
      rewrite E in Hnd. change (NoDup ((b :: l1) ++ a :: l)) in Hnd.
      apply NoDup_app in Hnd as (_ & _ & [??]%NoDup_cons). done. }
    set (h2 := node_release _ a) in *.
    assert (∀ c, ent h2 c = ent h c) as He2 by (intros; by apply same_dat_ent).
    destruct (IH f h2 (upd ch b (b :: l1 ++ l)) (a :: fl) (b :: l1))
      as (h' & found & ch' & fl' & Hit & Rep' & Hib' & Hp' & Hch' & He' & Hres); auto.
    + split; [done|]. eapply (content_same _ h2 ch _ fl m Sh1 Ct1); try done.
      * intros j Hj c. destruct (decide (j = b)) as [->|]; rewrite ?upd_eq, ?upd_ne by done; [|done].
        rewrite E. set_solver.
      * intros j c Hj Hc. destruct (decide (j = b)) as [->|]; rewrite ?upd_eq, ?upd_ne by done; [|auto].
        rewrite E in Hc. destruct (decide (c = a)) as [->|]; [right; done|left; set_solver].
    + by rewrite upd_eq.
    + lia.
    + exists h', found, ch', fl'. split_and!; auto.
      * intros j Hj. rewrite Hch' by done. by rewrite upd_ne.
      * intros c. by rewrite He', He2.
      * assert (ents h (a :: l) = ents h2 l) as ->.
        { rewrite ents_cons, Hfull. symmetry. by apply ents_ext. }
        destruct found; [|done]. destruct Hres as (c & l' & e & ? & ? & ? & ?).
        exists c, l', e. split_and!; auto; [by rewrite <- He2|].
        rewrite <- (ents_ext h h2 l') by done. done.
Qed.

Lemma scan_bucket_spec f h ch fl m i l0 l :
  xht_rep h ch fl m → vals_ok m → i < nbuckets h → ch i = l0 ++ l → length l < f →
  match scan_bucket f (zen h) (hd_or None l) with
  | Some a => ∃ l1 l2 e, l = l1 ++ a :: l2 ∧ ent h a = Some e ∧ ents h l1 = []
  | None => ents h l = []
  end.
Proof.
  revert f l0. induction l as [|a l IH]; intros [|f] l0 Rep Hv Hi Hch Hf; simpl in *; try lia; [done|].
  destruct (sh_chain _ _ _ (proj1 Rep) i Hi) as (tl & E & Hd). rewrite <- E, Hch in Hd.
  destruct (dseg_lookup _ _ _ _ _ _ Hd) as (n & Hn & _ & Hnx). change (n_next n = hd_or None l) in Hnx.
  assert (a ∈ ch i) as Ha by (rewrite Hch; set_solver).
  pose proof (node_full_ent _ _ _ _ _ _ _ Rep Hv Hi Ha Hn) as Hfull. rewrite Hn.
  destruct (node_full n).
  - destruct Hfull as [e ?]. by exists [], l, e.
  - rewrite Hnx. specialize (IH f (l0 ++ [a]) Rep Hv Hi). rewrite <- app_assoc in IH.
    specialize (IH Hch ltac:(lia)). destruct (scan_bucket _ _ _) as [c|].
    + destruct IH as (l1 & l2 & e & -> & ? & Hl1). exists (a :: l1), l2, e. split_and!; auto.
      by rewrite ents_cons, Hfull.
    + by rewrite ents_cons, Hfull.
Qed.

Lemma iter_buckets_spec k b h ch fl m :
  xht_rep h ch fl m → vals_ok m → b + k = nbuckets h →
  ∃ h' found, iter_buckets k (Z.of_nat b) h = (h', found) ∧ xht_rep h' ch fl m ∧
    (∀ a, ent h' a = ent h a) ∧
    (if found then ∃ b' pre a l e, at_pos h' ch b' pre a l ∧ ent h' a = Some e ∧
                     ents h (chains ch b k) = e :: rest h' ch b' l
     else ents h (chains ch b k) = []).
Proof.
  revert b. induction k as [|k IH]; intros b Rep Hv Hbk; cbn [iter_buckets].
  { eexists _, false. split; [done|]. split; [by apply rep_iter|done]. }
  assert (b < nbuckets h) as Hb by lia.
  destruct (chain_facts _ _ _ _ (proj1 Rep) Hb) as (_ & Hlen & Hhd & _).
  rewrite Nat2Z.id, <- Hhd.
  pose proof (scan_bucket_spec (fuel h) h ch fl m b [] (ch b) Rep Hv Hb eq_refl Hlen) as Hscan.
  assert (chains ch b (S k) = ch b ++ chains ch (S b) k) as -> by done.
  destruct (scan_bucket _ _ _) as [a|].
  - destruct Hscan as (l1 & l2 & e & E & He & Hl1). exists (with_iter (Z.of_nat b) (Some a) h), true. split. { done. }
    split; [|split; [done|]].
    + apply rep_iter; [done|]. intros ? [= <-]. exists b. split_and!; auto. rewrite E. set_solver.
    + exists b, l1, a, l2, e. unfold at_pos. split_and!; auto. unfold rest.
      rewrite E, <- app_assoc, ents_app, Hl1.
      assert (nbuckets (with_iter (Z.of_nat b) (Some a) h) - S b = k) as ->.
      { unfold nbuckets in *. simpl. lia. }
      simpl. by rewrite ents_cons, He.
  - rewrite ents_app, Hscan. simpl. replace (Z.of_nat b + 1)%Z with (Z.of_nat (S b)) by lia.
    apply IH; auto. lia.
Qed.

(** [xhash_iter_next] goes to the next entry in the order of the chains. *)
Lemma iter_next_spec h ch fl m b pre a l :
  xht_rep h ch fl m → vals_ok m → at_pos h ch b pre a l →
  ∃ h' found ch' fl', xhash_iter_next h = (h', found) ∧ xht_rep h' ch' fl' m ∧
    (∀ c, ent h' c = ent h c) ∧
    (if found then ∃ b' pre' a' l' e, at_pos h' ch' b' pre' a' l' ∧ ent h' a' = Some e ∧
                     rest h ch b l = e :: rest h' ch' b' l'
     else rest h ch b l = []).
Proof.
  intros Rep Hv (Hb & Hib & Hin & Hch). unfold xhash_iter_next. cbv zeta.
  destruct (sh_chain _ _ _ (proj1 Rep) b Hb) as (tl & E & Hd). rewrite <- E, Hch in Hd.
  destruct (dseg_lookup _ _ _ _ _ _ Hd) as (n & Hn & _ & Hnx). change (n_next n = hd_or None l) in Hnx.
  assert ((iter_node h ≫= λ a, zen h !! a ≫= n_next) = hd_or None l) as ->.
  { rewrite Hin. simpl. by rewrite Hn. }
  destruct (chain_facts _ _ _ _ (proj1 Rep) Hb) as (_ & Hlen & _ & _).
  set (h1 := with_iter _ _ h).
  assert (xht_rep h1 ch fl m) as Rep1.
  { apply rep_iter; [done|]. intros c Hc%hd_or_elem. exists b. split_and!; auto. rewrite Hch. set_solver. }
  destruct (iter_in_bucket_spec (fuel h) h1 ch fl m b (pre ++ [a]) l)
    as (h2 & found & ch2 & fl2 & -> & Rep2 & Hib2 & Hp2 & Hch2 & He2 & Hres); auto.
  { by rewrite <- app_assoc. }
  { by destruct pre. }
  { rewrite Hch, length_app in Hlen. simpl in Hlen. lia. }
  assert (nbuckets h2 = nbuckets h) as Hnb by (unfold nbuckets; by rewrite Hp2).
  assert (∀ c, ent h2 c = ent h c) as He by (intros; rewrite He2; done).
  assert (∀ s n, S b ≤ s → chains ch2 s n = chains ch s n) as Hcs.
  { intros s k Hs. apply chains_ext. intros j Hj. apply Hch2. lia. }
  destruct found.
  - destruct Hres as (c & l' & e & Hc2 & Hin2 & Hec & Hents). exists h2, true, ch2, fl2.
    split_and!; auto. exists b, (pre ++ [a]), c, l', e. unfold at_pos. split_and!; auto; [lia|by rewrite He|].
    unfold rest. rewrite Hnb, Hcs by done. rewrite !ents_app.
    change (ents h l) with (ents h1 l). rewrite Hents. simpl. f_equal. f_equal; symmetry; by apply ents_ext.
  - destruct Hres as [Hin2 Hents]. rewrite Hib2.
    replace (Z.of_nat b + 1)%Z with (Z.of_nat (S b)) by lia.
    replace (Z.to_nat (prime h2 - Z.of_nat (S b))) with (nbuckets h2 - S b) by (unfold nbuckets; lia).
    destruct (iter_buckets_spec (nbuckets h2 - S b) (S b) h2 ch2 fl2 m)
      as (h3 & found & -> & Rep3 & He3 & Hres); auto; [lia|].
    exists h3, found, ch2, fl2. split_and!; auto; [intros; by rewrite He3|].
    assert (rest h ch b l = ents h2 (chains ch2 (S b) (nbuckets h2 - S b))) as ->; [|done].
    unfold rest. rewrite ents_app. change (ents h l) with (ents h1 l). rewrite Hents, Hnb, Hcs by done.
    symmetry. by apply ents_ext.
Qed.

Lemma iter_first_spec h ch fl m :
  xht_rep h ch fl m → vals_ok m →
  ∃ h' found, xhash_iter_first h = (h', found) ∧ xht_rep h' ch fl m ∧
    (if found then ∃ b pre a l e, at_pos h' ch b pre a l ∧ ent h' a = Some e ∧
                     ents h (chains ch 0 (nbuckets h)) = e :: rest h' ch b l
     else ents h (chains ch 0 (nbuckets h)) = []).
Proof.
  intros Rep Hv. unfold xhash_iter_first, xhash_iter_next. cbv zeta.
  assert (xht_rep (with_iter (-1) None (with_iter (-1) None h)) ch fl m) as Rep1
    by (apply rep_iter; [|done]; by apply rep_iter).
  set (h1 := with_iter (-1) None _) in *. change (zen h1) with (zen h).
  replace (iter_in_bucket (fuel (with_iter (-1) None h)) h1) with (h1, false) by done. simpl.
  replace (Z.to_nat (prime h - (-1 + 1))) with (nbuckets h) by (unfold nbuckets; lia).
  destruct (iter_buckets_spec (nbuckets h) 0 h1 ch fl m) as (h' & found & E & Rep' & _ & Hres); auto.
  exists h', found. by split_and!.
Qed.

(** *** The entries of all chains are those of the map *)

Lemma NoDup_chains h ch fl s n :
  shape h ch fl → s + n ≤ nbuckets h → NoDup (chains ch s n).
Proof.
  intros Sh. revert s. induction n as [|n IH]; intros s Hs; [constructor|].
  change (NoDup (ch s ++ chains ch (S s) n)). apply NoDup_app. split_and!.
  - apply (sh_nodup _ _ _ Sh). lia.
  - intros a Ha (j & Hj & Haj)%elem_of_chains.
    assert (s = j); [|lia]. eapply (sh_disj _ _ _ Sh); eauto; lia.
  - apply IH. lia.
Qed.

Lemma NoDup_ents h l :
  NoDup l → (∀ a b k v w, a ∈ l → b ∈ l → ent h a = Some (k, v) → ent h b = Some (k, w) → a = b) →
  NoDup (ents h l).*1.
Proof.
  induction l as [|a l IH]; intros Hnd Hu; [constructor|].
  apply NoDup_cons in Hnd as [Ha Hnd]. rewrite ents_cons.
  assert (NoDup (ents h l).*1) as Hl by (apply IH; [done|]; intros; eapply Hu; set_solver).
  destruct (ent h a) as [[k v]|] eqn:He; [|done]. apply NoDup_cons. split; [|done].
  intros ([k' w] & Ek & (b & Hb & Hbe)%list_elem_of_omap)%list_elem_of_fmap. simpl in Ek. subst k'.
  assert (a = b) as <-; [|done]. eapply Hu; set_solver.
Qed.

Lemma ents_perm h ch fl m :
  xht_rep h ch fl m → ents h (chains ch 0 (nbuckets h)) ≡ₚ map_to_list m.
Proof.
  intros [Sh Ct]. apply NoDup_Permutation.
  - eapply NoDup_fmap_1, NoDup_ents; [by eapply NoDup_chains|].
    intros a b k v w (i & Hi & Ha)%elem_of_chains (j & Hj & Hb)%elem_of_chains He He'.
    destruct (ct_sound _ _ _ Ct i a k v ltac:(lia) Ha He) as [<- _].
    destruct (ct_sound _ _ _ Ct j b k w ltac:(lia) Hb He') as [<- _].
    eapply (ct_uniq _ _ _ Ct); eauto. lia.
  - apply NoDup_map_to_list.
  - intros [k v]. rewrite elem_of_map_to_list. unfold ents. rewrite list_elem_of_omap. split.
    + intros (a & (i & Hi & Ha)%elem_of_chains & He). eapply (ct_sound _ _ _ Ct i a); eauto. lia.
    + intros Hm. destruct (ct_complete _ _ _ Ct _ _ Hm) as (a & Ha & He). exists a.
      split; [|done]. apply elem_of_chains. exists (home h k). split; [|done].
      pose proof (home_lt h k (sh_prime _ _ _ Sh)). lia.
Qed.

(** *** The loop *)

(** The map after the visited entries were zapped as [p] says. *)
Definition zaps p (l : list (string * option V)) m : gmap string (option V) :=
  foldl (λ m kv, if p kv.1 kv.2 then delete kv.1 m else m) m l.

Lemma iter_zap_spec h ch fl m b pre a l k v :
  xht_rep h ch fl m → at_pos h ch b pre a l → ent h a = Some (k, v) →
  ∃ fl', xht_rep (xhash_iter_zap h) ch fl' (delete k m) ∧ at_pos (xhash_iter_zap h) ch b pre a l ∧
    rest (xhash_iter_zap h) ch b l = rest h ch b l.
Proof.
  intros Rep (Hb & Hib & Hin & Hch) He. unfold xhash_iter_zap. rewrite Hin.
  pose proof He as He0. unfold ent in He0. destruct (zen h !! a) as [[? ? [key|] len val]|] eqn:Hn; try done.
  injection He0 as <- <-. assert (a ∈ ch b) as Ha by (rewrite Hch; set_solver).
  destruct (ct_sound _ _ _ (proj2 Rep) _ _ _ _ Hb Ha He) as [Hhome _].
  pose proof (ct_ok _ _ _ (proj2 Rep) _ _ _ Hb Ha Hn key eq_refl) as [Hk _]. simpl in *.
  destruct (zap_inner_rep h ch fl m a (_xhasher key len) _ _ Rep ltac:(by rewrite Hhome) He)
    as (ch' & fl' & Rep' & Hch' & Hdat).
  { unfold home. rewrite _xhasher_stake; [done|lia]. }
  rewrite (Hch' Hin) in Rep'. exists fl'. split; [done|].
  assert (xhash_zap_inner h a (_xhasher key len) =
    with_count (int32 (count h - 1)) (with_dirty (int32 (dirty h + 1))
      (with_zen (alter (λ nd, set_kv None (n_keylen nd) None nd) a (zen h)) h))) as Ez.
  { unfold xhash_zap_inner. by rewrite (bool_decide_true _ Hin), andb_false_r. }
  split; [by rewrite Ez|]. unfold rest. rewrite Ez at 2. apply ents_ext. intros c Hc.
  apply same_dat_ent, Hdat. intros ->. apply elem_of_app in Hc as [Hc|(j & Hj & Hc)%elem_of_chains].
  - pose proof (sh_nodup _ _ _ (proj1 Rep) b Hb) as Hnd. rewrite Hch in Hnd.
    apply NoDup_app in Hnd as (_ & _ & [??]%NoDup_cons). done.
  - change (nbuckets (with_count _ _)) with (nbuckets h) in Hj.
    assert (b = j); [|lia]. eapply (sh_disj _ _ _ (proj1 Rep)); eauto. lia.
Qed.

Lemma vals_ok_delete k m : vals_ok m → vals_ok (delete k m).
Proof. intros Hv j [_ Hm]%lookup_delete_Some. by eapply Hv. Qed.

Lemma iter_loop_spec f p h ch fl m b pre a l e :
  xht_rep h ch fl m → vals_ok m → at_pos h ch b pre a l → ent h a = Some e →
  length (rest h ch b l) < f →
  ∃ h', iter_loop f p h = (h', e :: rest h ch b l) ∧ xht_ok h' (zaps p (e :: rest h ch b l) m).
Proof.
  revert h ch fl m b pre a l e. induction f as [|f IH]; intros h ch fl m b pre a l [k v] Rep Hv Hpos He Hf; [lia|].
  cbn [iter_loop]. unfold xhash_iter_get. destruct Hpos as (Hb & Hib & Hin & Hch). rewrite Hin. simpl.
  pose proof He as He0. unfold ent in He0.
  destruct (zen h !! a) as [[? ? [key|] len val]|] eqn:Hn; try done. injection He0 as Hk ->. simpl in *.
  rewrite Hk. set (h1 := if p k v then _ else h).
  set (m1 := if p k v then delete k m else m).
  assert (∃ fl1, xht_rep h1 ch fl1 m1 ∧ at_pos h1 ch b pre a l ∧ rest h1 ch b l = rest h ch b l) as
    (fl1 & Rep1 & Hpos1 & Hrest1).
  { unfold h1, m1. destruct (p k v); [by eapply iter_zap_spec|by exists fl]. }
  assert (vals_ok m1) as Hv1 by (unfold m1; destruct (p k v); [by apply vals_ok_delete|done]).
  destruct (iter_next_spec h1 ch fl1 m1 b pre a l Rep1 Hv1 Hpos1)
    as (h2 & found & ch2 & fl2 & -> & Rep2 & He2 & Hres).
  rewrite Hrest1 in Hres. destruct found.
  - destruct Hres as (b' & pre' & a' & l' & e' & Hpos2 & He' & Hr).
    destruct (IH h2 ch2 fl2 m1 b' pre' a' l' e' Rep2 Hv1 Hpos2 He') as (h3 & -> & Hok).
    { rewrite Hr in Hf. simpl in Hf. lia. }
    exists h3. rewrite Hr. done.
  - rewrite Hres. exists h2. split; [done|]. by exists ch2, fl2.
Qed.

Lemma zaps_lookup p (l : list (string * option V)) m k v :
  zaps p l m !! k = Some v ↔ m !! k = Some v ∧ ∀ w, (k, w) ∈ l → p k w = false.
Proof.
  revert m. induction l as [|[k' v'] l IH]; intros m; simpl.
  { split; [|naive_solver]. intros ?. split; [done|]. by intros ? ?%not_elem_of_nil. }
  rewrite IH. setoid_rewrite elem_of_cons. destruct (p k' v') eqn:Hp.
  - rewrite lookup_delete_Some. naive_solver congruence.
  - naive_solver congruence.
Qed.

Lemma zaps_filter p (l : list (string * option V)) m :
  l ≡ₚ map_to_list m → zaps p l m = filter (λ kv, p kv.1 kv.2 = false) m.
Proof.
  intros Hl. apply map_eq. intros k. apply option_eq. intros v.
  rewrite zaps_lookup, map_lookup_filter_Some. simpl. setoid_rewrite Hl.
  setoid_rewrite elem_of_map_to_list. naive_solver.
Qed.

Lemma iterate_spec f p h m :
  xht_ok h m → vals_ok m → size m ≤ f →
  (iterate f p h).2 ≡ₚ map_to_list m ∧ xht_ok (iterate f p h).1 (filter (λ kv, p kv.1 kv.2 = false) m).
Proof.
  intros (ch & fl & Rep) Hv Hf. pose proof (ents_perm _ _ _ _ Rep) as Hperm. unfold iterate.
  destruct (iter_first_spec h ch fl m Rep Hv) as (h' & found & -> & Rep' & Hres). destruct found.
  - destruct Hres as (b & pre & a & l & e & Hpos & He & Hr).
    destruct (iter_loop_spec f p h' ch fl m b pre a l e Rep' Hv Hpos He) as (h2 & -> & Hok).
    { rewrite Hr in Hperm. apply Permutation_length in Hperm. simpl in Hperm.
      rewrite length_map_to_list in Hperm. lia. }
    rewrite <- Hr in *. simpl. split; [done|]. by rewrite <- (zaps_filter p _ _ Hperm).
  - rewrite Hres in Hperm. simpl. split; [done|]. rewrite <- (zaps_filter p _ _ Hperm).
    simpl. by exists ch, fl.
Qed.
End iter.

(** *** Walking *)

Section walk.
Context {V : Type}.
Implicit Types (h : xht V) (m : gmap string (option V)) (l pre : list loc).

Lemma walk_bucket_record f h ch fl m i pre l acc :
  xht_rep h ch fl m → vals_ok m → i < nbuckets h → ch i = pre ++ l → length l < f →
  walk_bucket f record_walker (hd_or None l) (h, acc) = (h, acc ++ ents h l).
Proof.
  intros Rep Hv Hi. revert f pre acc. induction l as [|a l IH]; intros [|f] pre acc Hch Hf;
    cbn [length] in Hf; try lia; cbn [walk_bucket hd_or]; [by rewrite app_nil_r|].
  destruct (sh_chain _ _ _ (proj1 Rep) i Hi) as (tl & E & Hd). rewrite <- E, Hch in Hd.
  destruct (dseg_lookup _ _ _ _ _ _ Hd) as (n & Hn & _ & Hnx). change (n_next n = hd_or None l) in Hnx.
  assert (a ∈ ch i) as Ha by (rewrite Hch; set_solver).
  pose proof (node_full_ent _ _ _ _ _ _ _ Rep Hv Hi Ha Hn) as Hfull.
  rewrite ents_cons. cbn [fst]. rewrite Hn.
  destruct n as [nn np [k|] len [v|]]; simpl in Hfull, Hnx.
  2-4: rewrite Hfull; cbn [fst]; rewrite Hn; simpl; rewrite Hnx;
    apply (IH f (pre ++ [a])); [by rewrite <- app_assoc|lia].
  assert (ent h a = Some (stake (Z.to_nat len) k, Some v)) as -> by (unfold ent; by rewrite Hn).
  unfold record_walker at 2. cbn [fst snd]. rewrite Hn. simpl. rewrite Hnx.
  change (record_walker k len v (h, acc)) with (h, acc ++ [(stake (Z.to_nat len) k, Some v)]).
  rewrite (IH f (pre ++ [a])); [|by rewrite <- app_assoc|lia]. by rewrite <- app_assoc.
Qed.

Lemma xhash_walk_record h ch fl m :
  xht_rep h ch fl m → vals_ok m →
  xhash_walk h record_walker [] = (h, ents h (chains ch 0 (nbuckets h))).
Proof.
  intros Rep Hv. unfold xhash_walk. change (Z.to_nat (prime h)) with (nbuckets h).
  assert (∀ n s acc, s + n ≤ nbuckets h →
    foldl (λ st i, walk_bucket (fuel h) record_walker (Some i) st) (h, acc) (seq s n) =
    (h, acc ++ ents h (chains ch s n))) as Hgen; [|by apply (Hgen _ 0 [])].
  induction n as [|n IH]; intros s acc Hs; cbn [seq foldl]; [by rewrite app_nil_r|].
  destruct (chain_facts _ _ _ s (proj1 Rep) ltac:(lia)) as (_ & Hlen & Hhd & _).
  rewrite <- Hhd, (walk_bucket_record _ _ ch fl m s []) by (done || lia).
  rewrite IH by lia. change (chains ch s (S n)) with (ch s ++ chains ch (S s) n).
  by rewrite ents_app, app_assoc.
Qed.
End walk.

(** ** The promises of iteration *)

(** The callers' loop over a table,
    [if(xhash_iter_first(h)) do {...} while(xhash_iter_next(h))], whose body may
    zap the entry it is at, visits every entry exactly once, and leaves exactly
    the entries it did not zap; it ends after as many turns as there are
    entries.  The table must hold no NULL value. *)
Theorem xhash_iteration_complete {V : Type} (h : xht V) m (zap : string → option V → bool) (f : nat) :
  xht_ok h m → vals_ok m → size m ≤ f →
  (iterate f zap h).2 ≡ₚ map_to_list m ∧
  xht_ok (iterate f zap h).1 (filter (λ kv, zap kv.1 kv.2 = false) m).
Proof. apply iterate_spec. Qed.

(** The names of a component, all in one bucket of its table of 51. *)
Definition three_names : list string :=
  ["proxy.example.org"; "irc.example.org"; "rooms.example.org"].
Definition three_table : xht nat :=
  foldl (λ h k, xhash_put h (Some k) (Some 1)) (xhash_new 51) three_names.
Definition three_map : gmap string (option nat) :=
  foldl (λ m k, <[k := Some 1]> m) ∅ three_names.

Lemma three_ok : xht_ok three_table three_map.
Proof.
  unfold three_table, three_map, three_names. cbn [foldl].
  do 3 (apply xhash_put_ok; [|done]). by apply xhash_new_ok.
Qed.

Lemma three_vals : vals_ok three_map.
Proof.
  intros k. unfold three_map, three_names. cbn [foldl]. rewrite !lookup_insert, lookup_empty.
  repeat case_decide; done.
Qed.

Example xhash_iteration_complete_witness :
  (iterate 3 (λ k _, bool_decide (k = "irc.example.org")) three_table).2 ≡ₚ map_to_list three_map ∧
  xhash_count (iterate 3 (λ k _, bool_decide (k = "irc.example.org")) three_table).1 = 2%Z.
Proof.
  split; [|by vm_compute].
  apply (xhash_iteration_complete three_table three_map); [apply three_ok|apply three_vals|by vm_compute; lia].
Defined.

(** [xhash_walk] with a walker that leaves the table alone calls it once on
    every entry. *)
Theorem xhash_walk_complete {V : Type} (h : xht V) m :
  xht_ok h m → vals_ok m →
  (xhash_walk h record_walker []).1 = h ∧ (xhash_walk h record_walker []).2 ≡ₚ map_to_list m.
Proof.
  intros (ch & fl & Rep) Hv. rewrite (xhash_walk_record _ _ _ _ Rep Hv). split; [done|].
  by eapply ents_perm.
Qed.

Example xhash_walk_complete_witness :
  (xhash_walk three_table record_walker []).2 ≡ₚ map_to_list three_map ∧
  length (xhash_walk three_table record_walker []).2 = 3.
Proof. split; [|by vm_compute]. apply xhash_walk_complete; [apply three_ok|apply three_vals]. Defined.

(** A walker that zaps the entries it is called on, which is how router.c
    unbinds the names of a component that went away, makes [xhash_walk] skip
    entries: the zapped node's [next] already leads into the free list.  With
    these three names in a table of 51 buckets the third is never visited and
    stays in the table. *)
Theorem xhash_walk_zap_skips :
  (xhash_walk three_table zap_walker []).2 = ["proxy.example.org"; "rooms.example.org"] ∧
  xhash_count (xhash_walk three_table zap_walker []).1 = 1%Z ∧
  xhash_get (xhash_walk three_table zap_walker []).1 (Some "irc.example.org") = Some 1.
Proof. by vm_compute. Qed.

(** An entry stored with a NULL value is dropped from its chain when the
    iterator passes it, and the count keeps it: afterwards no iteration, lookup
    or zap can bring [xhash_count] back to zero. *)
Theorem xhash_iter_drops_null :
  let h := xhash_put (xhash_put (xhash_new 1) (Some "a") (Some 1)) (Some "b") None in
  let h' := (iterate 2 (λ _ _, true) h).1 in
  xhash_count h = 2%Z ∧ xhash_count h' = 1%Z ∧
  (∀ i, zen h !! 0 ≫= n_next = Some i → zen h' !! i ≫= n_key = Some "b") ∧
  xhash_count (xhash_zap (xhash_zap h' (Some "a")) (Some "b")) = 1%Z.
Proof. vm_compute. split_and!; try done. by intros i [= <-]. Qed.
