(* ===== verification/Table.v ===== *)
(** * The hash table as its clients see it

    The router and the session manager keep their state in [xht] tables whose
    keys are C strings and whose values are never NULL.  [Table] is the
    interface they use, [TableLaws] what they may rely on: a table stands for
    the finite map [tmap], [xhash_walk] and the iterator visit its entries once
    in an order of their own, and a walker that zaps the entries it is called
    on removes what it visited, which need not be everything.  [xht_table] and
    [xht_laws] are the instances that util/xhash.c provides. *)
From S2P Require Import Prelude.
From S2P Require Import CStr.
From S2P Require Import DList.
From S2P Require Import XHash.
From S2P Require Import XHashSpec.
From S2P Require Import XHashIter.

(** ** The interface *)

Class Table (T : Type → Type) := {
  tnew {V} : Z → T V;
  tget {V} : T V → string → option V;
  tput {V} : T V → string → V → T V;
  tzap {V} : T V → string → T V;
  tcount {V} : T V → Z;
  (** What [xhash_walk] calls a walker on that leaves the table alone. *)
  twalk {V} : T V → list (string * V);
  (** The entries that the [xhash_iter_first]/[xhash_iter_next] loop gives. *)
  titer {V} : T V → T V * list (string * V);
  (** [xhash_walk] with a walker that zaps each key it is called on: the table
      it leaves and the keys, in order. *)
  twalk_zap {V} : T V → T V * list string
}.

(** The map a table stands for. *)
Definition tmap {T} `{Table T} {V} (t : T V) : gmap string V := list_to_map (twalk t).

(** A key that [xhash_getx] does not refuse. *)
Definition good_key (k : string) : Prop := no_nul k ∧ k ≠ "".

Class TableLaws (T : Type → Type) `{Table T} := {
  tok {V} : T V → Prop;
  tnew_ok {V} p : (0 < p)%Z → tok (tnew p : T V) ∧ tmap (tnew p : T V) = ∅;
  tget_ok {V} (t : T V) k : tok t → good_key k → tget t k = tmap t !! k;
  tget_empty {V} (t : T V) : tget t "" = None;
  (** Whatever the key, what is found is in the table. *)
  tget_in {V} (t : T V) k v : tok t → tget t k = Some v → ∃ k', tmap t !! k' = Some v;
  tput_ok {V} (t : T V) k v : tok t → no_nul k → tok (tput t k v) ∧ tmap (tput t k v) = <[k := v]> (tmap t);
  tzap_ok {V} (t : T V) k : tok t → no_nul k → tok (tzap t k) ∧ tmap (tzap t k) = delete k (tmap t);
  tcount_ok {V} (t : T V) : tok t → tcount t = int32 (Z.of_nat (size (tmap t)));
  twalk_nodup {V} (t : T V) : tok t → NoDup (twalk t).*1;
  twalk_keys {V} (t : T V) k : tok t → k ∈ (twalk t).*1 → no_nul k;
  titer_ok {V} (t : T V) : tok t →
    tok (titer t).1 ∧ tmap (titer t).1 = tmap t ∧ (titer t).2 ≡ₚ twalk t;
  twalk_zap_ok {V} (t : T V) : tok t →
    tok (twalk_zap t).1 ∧ NoDup (twalk_zap t).2 ∧
    (∀ k, k ∈ (twalk_zap t).2 → no_nul k ∧ is_Some (tmap t !! k)) ∧
    tmap (twalk_zap t).1 = foldr delete (tmap t) (twalk_zap t).2
}.

Section laws.
Context {T : Type → Type} `{TableLaws T} {V : Type}.
Implicit Types (t : T V) (k : string).

Lemma elem_of_twalk t k v : tok t → (k, v) ∈ twalk t ↔ tmap t !! k = Some v.
Proof. intros Ht. unfold tmap. apply elem_of_list_to_map. by apply twalk_nodup. Qed.

Lemma twalk_perm t : tok t → twalk t ≡ₚ map_to_list (tmap t).
Proof. intros Ht. unfold tmap. symmetry. apply map_to_list_to_map. by apply twalk_nodup. Qed.

Lemma tmap_no_nul t k v : tok t → tmap t !! k = Some v → no_nul k.
Proof.
  intros Ht Hk. apply (twalk_keys t); [done|]. apply list_elem_of_fmap. exists (k, v).
  split; [done|]. by apply elem_of_twalk.
Qed.

(** Lookups through [xhash_get] after an update. *)
Lemma tget_put t k k' v : tok t → no_nul k → good_key k' →
  tget (tput t k v) k' = if decide (k = k') then Some v else tget t k'.
Proof.
  intros Ht Hk Hk'. destruct (tput_ok t k v Ht Hk) as [Ht' E].
  rewrite !tget_ok, E by done. case_decide; subst; [by rewrite lookup_insert_eq|by rewrite lookup_insert_ne].
Qed.
Lemma tget_zap t k k' : tok t → no_nul k → good_key k' →
  tget (tzap t k) k' = if decide (k = k') then None else tget t k'.
Proof.
  intros Ht Hk Hk'. destruct (tzap_ok t k Ht Hk) as [Ht' E].
  rewrite !tget_ok, E by done. case_decide; subst; [by rewrite lookup_delete_eq|by rewrite lookup_delete_ne].
Qed.
End laws.

(** ** util/xhash.c provides it *)

Definition some_val {V} (kv : string * option V) : option (string * V) :=
  match kv.2 with Some v => Some (kv.1, v) | None => None end.

#[global] Instance xht_table : Table xht := {
  tnew V p := xhash_new p;
  tget V h k := xhash_get h (Some k);
  tput V h k v := xhash_put h (Some k) (Some v);
  tzap V h k := xhash_zap h (Some k);
  tcount V h := xhash_count h;
  twalk V h := omap some_val (xhash_walk h record_walker []).2;
  titer V h := let '(h', l) := iterate (S (size (zen h))) (λ _ _, false) h in (h', omap some_val l);
  twalk_zap V h := xhash_walk h zap_walker []
}.

Section xht.
Context {V : Type}.
Implicit Types (h : xht V) (m : gmap string (option V)) (ch : nat → list loc) (k : string).

(** Every node that holds a key is in a chain: the free list holds none. *)
Definition chained h ch : Prop :=
  ∀ a, is_Some (ent h a) → ∃ i, i < nbuckets h ∧ a ∈ ch i.

Definition table_rep h m : Prop :=
  ∃ ch fl, xht_rep h ch fl m ∧ vals_ok m ∧ chained h ch.

Lemma chained_sound h ch fl m a k v :
  xht_rep h ch fl m → chained h ch → ent h a = Some (k, v) → a ∈ ch (home h k) ∧ m !! k = Some v.
Proof.
  intros [Sh Ct] Hc He. destruct (Hc a) as (i & Hi & Ha); [by eexists|].
  destruct (ct_sound _ _ _ Ct _ _ _ _ Hi Ha He) as [<- ?]. done.
Qed.
Lemma chained_uniq h ch fl m a b k v w :
  xht_rep h ch fl m → chained h ch → ent h a = Some (k, v) → ent h b = Some (k, w) → a = b.
Proof.
  intros Rep Hc Ha Hb.
  destruct (chained_sound _ _ _ _ _ _ _ Rep Hc Ha), (chained_sound _ _ _ _ _ _ _ Rep Hc Hb).
  eapply (ct_uniq _ _ _ (proj2 Rep)); eauto. apply home_lt, Rep.
Qed.

(** The entries the new state holds are in the new chains, if each is either
    an old one or the one the operation wrote. *)
Lemma chained_step h h' ch ch' fl fl' m m' :
  xht_rep h ch fl m → chained h ch → xht_rep h' ch' fl' m' →
  (∀ a k v, ent h' a = Some (k, v) → m' !! k = Some v) →
  (∀ a b k v w, ent h' a = Some (k, v) → ent h' b = Some (k, w) → a = b) →
  chained h' ch'.
Proof.
  intros Rep Hc Rep' Hs Hu a [[k v] He].
  destruct (ct_complete _ _ _ (proj2 Rep') k v (Hs _ _ _ He)) as (b & Hb & Hbe).
  rewrite (Hu _ _ _ _ _ He Hbe). exists (home h' k). split; [apply home_lt, Rep'|done].
Qed.

Lemma ent_absent h a : zen h !! a = None → ent h a = None.
Proof. unfold ent. by intros ->. Qed.

Lemma ent_alter h f a b : b ≠ a → ent (with_zen (alter f a (zen h)) h) b = ent h b.
Proof. intros. unfold ent. simpl. by rewrite lookup_alter_ne. Qed.

(** [xhash_putx] writes its entry in one node and leaves the others alone. *)
Lemma putx_ent h ch fl m key len v :
  xht_rep h ch fl m → chained h ch → key_ok key len →
  let k := stake (Z.to_nat len) key in
  ∃ a, (∀ b w, ent (xhash_putx h (Some key) len v) b = Some w → b = a ∧ w = (k, v) ∨ b ≠ a ∧ ent h b = Some w) ∧
    (∀ w, m !! k = Some w → ent h a = Some (k, w)).
Proof.
  intros Rep Hc Hk k. unfold xhash_putx. set (h0 := with_dirty _ h).
  assert (xht_rep h0 ch fl m) as Rep0 by by eapply rep_same.
  pose proof (node_get_spec _ _ _ _ _ _ Rep0 Hk) as Hget. cbv zeta in Hget. fold k in Hget.
  assert (∀ h2 a, (∀ b, same_dat (zen h) (zen h2) b ∨ ent h2 b = None) →
    ∀ b w, ent (with_zen (alter (set_kv (Some key) len v) a (zen h2)) h2) b = Some w →
    b = a ∧ w = (k, v) ∨ b ≠ a ∧ ent h b = Some w) as Hfin.
  { intros h2 a Hd b w He. destruct (decide (b = a)) as [->|Hb].
    - left. split; [done|]. unfold ent in He. simpl in He. rewrite lookup_alter_eq in He.
      destruct (zen h2 !! a); [|done]. by injection He as <-.
    - right. split; [done|]. rewrite ent_alter in He by done.
      destruct (Hd b) as [Hd'|]; [|congruence]. rewrite <- He. symmetry. by apply same_dat_ent. }
  destruct (_xhash_node_get h0 key len _) as [a|].
  { destruct Hget as (w & Ha & He & Hm). exists a. split; [|intros; by simplify_eq].
    apply Hfin. intros b. left. apply same_dat_refl. }
  unfold _xhash_node_new. change (zen (with_count _ h0)) with (zen h).
  destruct (zen h !! _ ≫= n_key) as [ki|] eqn:Ek.
  - destruct (node_alloc _) as [h2 a] eqn:Eal. exists a. split; [|congruence]. apply Hfin. intros b.
    unfold node_alloc in Eal. simpl in Eal.
    destruct (free_list h) as [f|]; injection Eal as <- <-; cbn [zen with_zen with_free with_fresh with_count h0 with_dirty].
    + left. repeat (eapply same_dat_trans; [|first [by apply same_dat_alter|apply same_dat_link_prev]]).
      apply same_dat_refl.
    + destruct (decide (b = fresh h)) as [->|Hb].
      * right. set (z := alter _ _ _).
        assert (same_dat (<[fresh h := xhn_zero]> (zen h)) z (fresh h)) as Hd.
        { unfold z. repeat (eapply same_dat_trans; [|first [by apply same_dat_alter|apply same_dat_link_prev]]).
          apply same_dat_refl. }
        unfold same_dat in Hd. rewrite lookup_insert_eq in Hd. unfold ent. simpl.
        destruct (z !! fresh h) as [n|]; [|done]. simpl in *. injection Hd. unfold entry. by intros _ _ ->.
      * left. repeat (eapply same_dat_trans; [|first [by apply same_dat_alter|apply same_dat_link_prev]]).
        unfold same_dat. by rewrite lookup_insert_ne.
  - eexists. split; [|congruence]. apply Hfin. intros b. left. apply same_dat_refl.
Qed.

Lemma put_table h m k v : table_rep h m → no_nul k → table_rep (xhash_put h (Some k) (Some v)) (<[k := Some v]> m).
Proof.
  intros (ch & fl & Rep & Hv & Hc) Hk. pose proof (key_ok_strlen k Hk) as Hko. unfold xhash_put.
  destruct (putx_rep h ch fl m k (strlen k) (Some v) Rep Hko) as (ch' & fl' & Rep').
  destruct (putx_ent h ch fl m k (strlen k) (Some v) Rep Hc Hko) as (a & Ha & Hm).
  rewrite stake_strlen in *. exists ch', fl'. split_and!; [done| |].
  - intros j. rewrite lookup_insert. case_decide; [done|apply Hv].
  - assert (∀ b w, b ≠ a → ent h b ≠ Some (k, w)) as Hne.
    { intros b w Hb Hbe. destruct (chained_sound _ _ _ _ _ _ _ Rep Hc Hbe) as [_ Hmk].
      exact (Hb (chained_uniq _ _ _ _ _ _ _ _ _ Rep Hc Hbe (Hm _ Hmk))). }
    apply (chained_step h _ ch ch' fl fl' m (<[k := Some v]> m) Rep Hc Rep').
    + intros b k' v' [[-> [= -> ->]]|[Hb Hbe]]%Ha; [by rewrite lookup_insert_eq|].
      destruct (decide (k = k')) as [->|]; [by destruct (Hne b v')|]. rewrite lookup_insert_ne by done.
      by eapply chained_sound.
    + intros b c k' v' w' [[-> E]|[Hb Hbe]]%Ha [[-> E']|[Hc' Hce]]%Ha; simplify_eq.
      * done.
      * by destruct (Hne c w').
      * by destruct (Hne b v').
      * exact (chained_uniq _ _ _ _ _ _ _ _ _ Rep Hc Hbe Hce).
Qed.

Lemma zapx_table h m key len : table_rep h m → key_ok key len →
  table_rep (xhash_zapx h (Some key) len) (delete (stake (Z.to_nat len) key) m).
Proof.
  intros (ch & fl & Rep & Hv & Hc) Hk. unfold xhash_zapx.
  pose proof (node_get_spec _ _ _ _ _ _ Rep Hk) as Hget. cbv zeta in Hget.
  destruct (_xhash_node_get _ _ _ _) as [a|]; [|rewrite delete_id by done; by exists ch, fl].
  destruct Hget as (v & Ha & He & _). set (k := stake _ _) in *. set (i := _xhasher key len).
  destruct (zap_inner_rep h ch fl m a i k v Rep Ha He) as (ch' & fl' & Rep' & _ & Hd).
  { unfold i, home, k. rewrite _xhasher_stake; [done|]. apply Hk. }
  assert (ent (xhash_zap_inner h a i) a = None) as Hea.
  { unfold xhash_zap_inner, ent. simpl. rewrite lookup_alter_eq. by destruct (_ !! a). }
  assert (∀ b w, ent (xhash_zap_inner h a i) b = Some w → b ≠ a ∧ ent h b = Some w) as Hent.
  { intros b w Hb. destruct (decide (b = a)) as [->|Hba]; [congruence|]. split; [done|].
    rewrite <- Hb. symmetry. by apply same_dat_ent, Hd. }
  exists ch', fl'. split_and!; [done|by apply vals_ok_delete|].
  apply (chained_step h _ ch ch' fl fl' m (delete k m) Rep Hc Rep').
  - intros b k' v' [Hb Hbe]%Hent. rewrite lookup_delete_ne; [by eapply chained_sound|].
    intros <-. exact (Hb (chained_uniq _ _ _ _ _ _ _ _ _ Rep Hc Hbe He)).
  - intros b c k' v' w' [_ Hb]%Hent [_ Hc']%Hent. exact (chained_uniq _ _ _ _ _ _ _ _ _ Rep Hc Hb Hc').
Qed.

(** The iterator moves and reaps; it does not touch an entry. *)
Lemma iter_in_bucket_dat f h b : same_dat (zen h) (zen (iter_in_bucket f h).1) b.
Proof.
  revert h. induction f as [|f IH]; intros h; cbn [iter_in_bucket]; [apply same_dat_refl|].
  destruct (iter_node h) as [a|]; [|apply same_dat_refl].
  destruct (zen h !! a) as [n|]; [|apply same_dat_refl].
  destruct (node_full n); [apply same_dat_refl|].
  eapply same_dat_trans; [|apply IH]. case_bool_decide; [apply same_dat_refl|].
  unfold node_release. simpl.
  repeat (eapply same_dat_trans; [|first [by apply same_dat_alter|apply same_dat_link_prev|apply same_dat_link_next]]).
  apply same_dat_refl.
Qed.
Lemma iter_buckets_zen n i h : zen (iter_buckets n i h).1 = zen h.
Proof.
  revert i. induction n as [|n IH]; intros i; cbn [iter_buckets]; [done|].
  destruct (scan_bucket _ _ _); [done|apply IH].
Qed.
Lemma iter_next_dat h b : same_dat (zen h) (zen (xhash_iter_next h).1) b.
Proof.
  unfold xhash_iter_next. set (o := iter_node h ≫= _).
  pose proof (iter_in_bucket_dat (fuel h) (with_iter (iter_bucket h) o h) b) as Hd.
  destruct (iter_in_bucket _ _) as [h1 []]; [done|]. by rewrite iter_buckets_zen.
Qed.
Lemma iter_loop_dat f h b : same_dat (zen h) (zen (iter_loop f (λ _ _, false) h).1) b.
Proof.
  revert h. induction f as [|f IH]; intros h; cbn [iter_loop]; [apply same_dat_refl|].
  destruct (xhash_iter_get h) as [[[[k|] len] v]|]; try apply same_dat_refl.
  pose proof (iter_next_dat h b) as Hd. destruct (xhash_iter_next h) as [h1 []]; [|done].
  specialize (IH h1). destruct (iter_loop f _ h1) as [h2 l]. by eapply same_dat_trans.
Qed.
Lemma iterate_dat f h b : same_dat (zen h) (zen (iterate f (λ _ _, false) h).1) b.
Proof.
  unfold iterate. pose proof (iter_next_dat (with_iter (-1) None h) b) as Hd.
  change (xhash_iter_first h) with (xhash_iter_next (with_iter (-1) None h)).
  destruct (xhash_iter_next _) as [h1 []]; [|done]. eapply same_dat_trans; [exact Hd|apply iter_loop_dat].
Qed.

(** [xhash_walk] with a zapping walker: an invariant of every turn. *)
Definition zap_inv (m : gmap string (option V)) (st : xht V * list string) : Prop :=
  table_rep st.1 (foldr delete m st.2) ∧ NoDup st.2 ∧ ∀ k, k ∈ st.2 → no_nul k ∧ is_Some (m !! k).

Lemma foldr_delete_lookup (m : gmap string (option V)) ks k v :
  foldr delete m ks !! k = Some v → k ∉ ks ∧ m !! k = Some v.
Proof.
  induction ks as [|x ks IH]; simpl; [intros; split; [apply not_elem_of_nil|done]|].
  intros [Hx [Hk Hm]%IH]%lookup_delete_Some. split; [|done]. rewrite not_elem_of_cons. auto.
Qed.

Lemma foldr_delete_snoc (m : gmap string (option V)) ks k :
  foldr delete m (ks ++ [k]) = delete k (foldr delete m ks).
Proof. induction ks as [|x ks IH]; simpl; [done|]. by rewrite IH, delete_delete. Qed.

Lemma zap_walker_inv m st a nn np key len v :
  zap_inv m st → zen st.1 !! a = Some (Xhn nn np (Some key) len (Some v)) →
  zap_inv m (zap_walker key len v st).
Proof.
  intros ((ch & fl & Rep & Hv & Hc) & Hnd & Hks) Ha. set (k := stake (Z.to_nat len) key).
  assert (ent st.1 a = Some (k, Some v)) as He by (unfold ent; by rewrite Ha).
  destruct (chained_sound _ _ _ _ _ _ _ Rep Hc He) as [Hch [Hk Hm]%foldr_delete_lookup].
  assert (key_ok key len) as Hko.
  { eapply (ct_ok _ _ _ (proj2 Rep) _ a _ (home_lt _ k (sh_prime _ _ _ (proj1 Rep))) Hch Ha). done. }
  unfold zap_walker, zap_inv. cbn [fst snd]. fold k. rewrite foldr_delete_snoc. split_and!.
  - apply zapx_table; [by exists ch, fl|done].
  - apply NoDup_app. split_and!; [done| |apply NoDup_singleton].
    intros x Hx ->%list_elem_of_singleton. done.
  - intros x [Hx| ->%list_elem_of_singleton]%elem_of_app; [by apply Hks|].
    split; [apply Hko|by eexists].
Qed.

Lemma walk_bucket_zap_inv m f o st : zap_inv m st → zap_inv m (walk_bucket f zap_walker o st).
Proof.
  revert o st. induction f as [|f IH]; intros o st Hst; cbn [walk_bucket]; [done|].
  destruct o as [a|]; [|done]. apply IH.
  destruct (zen st.1 !! a) as [[nn np [key|] len [v|]]|] eqn:Ha; try done.
  by eapply zap_walker_inv.
Qed.

Lemma walk_zap_inv h m : table_rep h m → zap_inv m (xhash_walk h zap_walker []).
Proof.
  intros Hh. unfold xhash_walk. set (l := seq _ _).
  assert (zap_inv m (h, [])) as Hi by (split_and!; [done|constructor|intros ? ?%elem_of_nil; done]).
  revert Hi. generalize (h, [] : list string). induction l as [|i l IH]; intros st Hst; [done|].
  cbn [foldl]. apply IH. by apply walk_bucket_zap_inv.
Qed.

(** *** The map a table stands for *)

Definition values m : gmap string V := omap id m.

Lemma walk_entries h m : table_rep h m →
  twalk h ≡ₚ map_to_list (values m) ∧ NoDup (twalk h).*1 ∧ ∀ k, k ∈ (twalk h).*1 → no_nul k.
Proof.
  intros (ch & fl & Rep & Hv & Hc). simpl. rewrite (xhash_walk_record _ _ _ _ Rep Hv). simpl.
  pose proof (ents_perm _ _ _ _ Rep) as Hp. set (l := ents h _) in *.
  assert (∀ kv, kv ∈ l → ∃ v, kv = (kv.1, Some v) ∧ m !! kv.1 = Some (Some v)) as Hl.
  { intros [k v]. rewrite Hp, elem_of_map_to_list. intros Hm. destruct v as [v|]; [by exists v|].
    by destruct (Hv k). }
  assert ((omap some_val l).*1 = l.*1) as Hfst.
  { clear Hp. induction l as [|[k v] l IH]; [done|]. destruct (Hl (k, v)) as (w & [= ->] & _); [left|].
    cbn. f_equal. apply IH. intros ??. apply Hl. by right. }
  assert (NoDup l.*1) as Hnd by (rewrite Hp; apply NoDup_fst_map_to_list).
  assert (∀ k v, (k, v) ∈ omap some_val l ↔ m !! k = Some (Some v)) as Hel.
  { intros k v. rewrite list_elem_of_omap. split.
    - intros ([k' w] & Hin & Hs). destruct (Hl _ Hin) as (v' & E & Hm). cbn in E, Hm.
      injection E as ->. unfold some_val in Hs. cbn in Hs. by injection Hs as <- <-.
    - intros Hm. exists (k, Some v). split; [|done]. by rewrite Hp, elem_of_map_to_list. }
  split_and!.
  - apply NoDup_Permutation.
    + apply (NoDup_fmap_1 fst). by rewrite Hfst.
    + apply NoDup_map_to_list.
    + intros [k v]. rewrite Hel, elem_of_map_to_list. unfold values. rewrite lookup_omap.
      destruct (m !! k) as [[w|]|]; cbn; split; congruence.
  - by rewrite Hfst.
  - intros k0. rewrite Hfst. intros ([k' v] & -> & Hin)%list_elem_of_fmap.
    unfold l, ents in Hin. apply list_elem_of_omap in Hin as (a & Hin & He).
    destruct (chained_sound _ _ _ _ _ _ _ Rep Hc He) as [Ha _]. cbn. unfold ent in He.
    destruct (zen h !! a) as [n|] eqn:Hn; [|done]. cbn in He. unfold entry in He.
    destruct (n_key n) as [key|] eqn:Hk; [|done]. injection He as Ek _. rewrite <- Ek.
    eapply (ct_ok _ _ _ (proj2 Rep) _ a _ (home_lt _ k' (sh_prime _ _ _ (proj1 Rep))) Ha Hn). done.
Qed.

Lemma tmap_rep h m : table_rep h m → tmap h = values m.
Proof.
  intros Hh. destruct (walk_entries h m Hh) as (Hp & Hnd & _). unfold tmap.
  rewrite (list_to_map_proper _ _ Hnd Hp). apply list_to_map_to_list.
Qed.

Lemma node_get_loop_key f (z : gmap loc (xhn V)) key len o a : node_get_loop f z key len o = Some a →
  ∃ n k, z !! a = Some n ∧ n_key n = Some k.
Proof.
  revert o. induction f as [|f IH]; intros [b|]; try done; cbn [node_get_loop].
  destruct (z !! b) as [n|] eqn:En; [|done]. destruct (key_match key len n) eqn:Ek; [|by apply IH].
  intros [= <-]. unfold key_match in Ek. destruct (n_key n) as [k|] eqn:Ek'; [|done]. by exists n, k.
Qed.

(** A lookup finds a node with a key, and the nodes with keys are in the chains. *)
Lemma get_in h m k v : table_rep h m → xhash_get h (Some k) = Some v → ∃ k', tmap h !! k' = Some v.
Proof.
  intros Hm. rewrite (tmap_rep h m Hm). destruct Hm as (ch & fl & Rep & _ & Hc).
  unfold xhash_get, xhash_getx. destruct (_ <=? _)%Z; [done|]. unfold _xhash_node_get. intros (a & Ha & Hv)%bind_Some.
  destruct (node_get_loop_key _ _ _ _ _ _ Ha) as (n & k' & En & Ek). rewrite En in Hv. cbn in Hv. exists (stake (Z.to_nat (n_keylen n)) k').
  assert (ent h a = Some (stake (Z.to_nat (n_keylen n)) k', Some v)) as He by (unfold ent, entry; rewrite En; cbn; by rewrite Ek, Hv).
  destruct (chained_sound _ _ _ _ _ _ _ Rep Hc He) as [_ E]. unfold values. by rewrite lookup_omap, E.
Qed.

Lemma values_lookup m k : values m !! k = mjoin (m !! k).
Proof. unfold values. rewrite lookup_omap. by destruct (m !! k) as [[]|]. Qed.

Lemma size_values m : vals_ok m → size (values m) = size m.
Proof.
  intros Hv. rewrite <- !size_dom. f_equal. apply set_eq. intros k. rewrite !elem_of_dom, values_lookup.
  specialize (Hv k). destruct (m !! k) as [[w|]|]; cbn; split; intros [? ?]; naive_solver.
Qed.

Lemma values_insert m k v : values (<[k := Some v]> m) = <[k := v]> (values m).
Proof.
  apply map_eq. intros j. rewrite values_lookup, !lookup_insert, values_lookup. by case_decide.
Qed.
Lemma values_delete m k : values (delete k m) = delete k (values m).
Proof.
  apply map_eq. intros j. rewrite values_lookup, !lookup_delete, values_lookup. by case_decide.
Qed.
Lemma values_foldr m ks : values (foldr delete m ks) = foldr delete (values m) ks.
Proof. induction ks as [|k ks IH]; cbn; [done|]. by rewrite values_delete, IH. Qed.

Lemma iter_table h m : table_rep h m →
  table_rep (titer h).1 m ∧ (titer h).2 ≡ₚ map_to_list (values m).
Proof.
  intros Hh. pose proof Hh as (ch & fl & Rep & Hv & Hc). cbn.
  assert (size m ≤ S (size (zen h))) as Hsz.
  { pose proof (ents_perm _ _ _ _ Rep) as Hp. apply Permutation_length in Hp.
    rewrite length_map_to_list in Hp. rewrite <- Hp.
    assert (∀ l, NoDup l → (∀ a, a ∈ l → is_Some (zen h !! a)) → length (ents h l) ≤ size (zen h)) as Hle.
    { intros l Hnd Hin. assert (length (ents h l) ≤ length l) as ?.
      { clear. induction l as [|a l IH]; [done|]. rewrite ents_cons. destruct (ent h a); cbn; lia. }
      assert (length l ≤ size (zen h)); [|lia].
      rewrite <- (size_dom (D:=gset loc)), <- (size_list_to_set (C:=gset loc)) by done.
      apply subseteq_size. intros a Ha%elem_of_list_to_set. by apply elem_of_dom, Hin. }
    enough (length (ents h (chains ch 0 (nbuckets h))) ≤ size (zen h)) by lia. apply Hle.
    - eapply NoDup_chains; [apply Rep|lia].
    - intros a (i & Hi & Ha)%elem_of_chains.
      destruct (chain_lookup h ch fl i a (proj1 Rep)) as [n ->]; [lia|done|by eexists]. }
  pose proof (iterate_spec _ (λ _ _, false) h m (ex_intro _ ch (ex_intro _ fl Rep)) Hv Hsz) as [Hp Hok].
  pose proof (iterate_dat (S (size (zen h))) h) as Hd.
  destruct (iterate _ _ h) as [h' l]. cbn [fst snd] in *. rewrite map_filter_id in Hok by done. split.
  - destruct Hok as (ch' & fl' & Rep'). exists ch', fl'. split_and!; [done|done|].
    assert (∀ b, ent h' b = ent h b) as He by (intros; by apply same_dat_ent).
    apply (chained_step h _ ch ch' fl fl' m m Rep Hc Rep').
    + intros a k v. rewrite He. intros Ha. by destruct (chained_sound _ _ _ _ _ _ _ Rep Hc Ha).
    + intros a b k v w. rewrite !He. exact (chained_uniq _ _ _ _ _ _ _ _ _ Rep Hc).
  - destruct (walk_entries h m Hh) as (<- & _ & _). cbn.
    rewrite (xhash_walk_record _ _ _ _ Rep Hv), Hp. cbn. by rewrite (ents_perm _ _ _ _ Rep).
Qed.
End xht.

#[global] Instance xht_laws : TableLaws xht.
Proof.
  refine (Build_TableLaws xht xht_table (λ V h, ∃ m, table_rep h m) _ _ _ _ _ _ _ _ _ _ _); intros V.
  - intros p Hp. destruct (xhash_new_ok (V:=V) p Hp) as (ch & fl & Rep).
    assert (table_rep (xhash_new p : xht V) ∅) as Hr.
    { exists ch, fl. split_and!; [done|by intros k; rewrite lookup_empty|].
      intros a [e He]. unfold ent in He. cbn in He. rewrite zero_heads_lookup in He. by case_decide. }
    split; [by exists ∅|]. exact (tmap_rep _ _ Hr).
  - intros h k [m Hm] [Hk Hne]. rewrite (tmap_rep _ _ Hm), values_lookup. cbn [tget xht_table]. change (tget h k) with (xhash_get h (Some k)).
    pose proof Hm as (ch & fl & Rep & _). unfold xhash_get.
    rewrite (xhash_getx_ok h m k (strlen k)); [by rewrite stake_strlen|by exists ch, fl|by apply key_ok_strlen|].
    destruct k; [done|]. unfold strlen. cbn. lia.
  - done.
  - intros h k v [m Hm] Hg. by apply (get_in h m k).
  - intros h k v [m Hm] Hk. pose proof (put_table h m k v Hm Hk) as Hp.
    split; [by eexists|]. rewrite (tmap_rep _ _ Hm), <- values_insert. exact (tmap_rep _ _ Hp).
  - intros h k [m Hm] Hk. pose proof (zapx_table h m k (strlen k) Hm (key_ok_strlen k Hk)) as Hz.
    rewrite stake_strlen in Hz. split; [by eexists|]. rewrite (tmap_rep _ _ Hm), <- values_delete. exact (tmap_rep _ _ Hz).
  - intros h [m Hm]. rewrite (tmap_rep _ _ Hm). pose proof Hm as (ch & fl & Rep & Hv & _).
    rewrite size_values by done. cbn. apply xhash_count_ok. by exists ch, fl.
  - intros h [m Hm]. by apply (walk_entries h m Hm).
  - intros h k [m Hm]. by apply (walk_entries h m Hm).
  - intros h [m Hm]. destruct (iter_table h m Hm) as [Hr Hp]. split_and!; [by eexists| |].
    + by rewrite (tmap_rep _ _ Hr), (tmap_rep _ _ Hm).
    + rewrite Hp. symmetry. by apply walk_entries.
  - intros h [m Hm]. destruct (walk_zap_inv h m Hm) as (Hr & Hnd & Hks). change (xhash_walk h zap_walker []) with (twalk_zap h) in *.
    split_and!; [by eexists|done| |].
    + intros k [Hk [v Hv]]%Hks. split; [done|]. rewrite (tmap_rep _ _ Hm), values_lookup, Hv. cbn.
      destruct v as [v|]; [by eexists|]. pose proof Hm as (_ & _ & _ & Hvo & _). by destruct (Hvo k).
    + by rewrite (tmap_rep _ _ Hr), (tmap_rep _ _ Hm), values_foldr.
Qed.
