(* ===== verification/Alist.v ===== *)
(** * Tables as association lists

    A second table that keeps the promises of [TableLaws]: the entries in the
    order of their last [tput].  The examples are evaluated on it. *)
From S2P Require Import Prelude.
From S2P Require Import CStr.
From S2P Require Import Table.

Definition alist (V : Type) : Type := list (string * V).

Fixpoint aget {V} (t : alist V) (k : string) : option V :=
  match t with [] => None | (k', v) :: t => if String.eqb k' k then Some v else aget t k end.
Fixpoint adel {V} (t : alist V) (k : string) : alist V :=
  match t with [] => [] | (k', v) :: t => if String.eqb k' k then adel t k else (k', v) :: adel t k end.

#[global] Instance alist_table : Table alist := {
  tnew V _ := [];
  tget V t k := if String.eqb k "" then None else aget t k;
  tput V t k v := adel t k ++ [(k, v)];
  tzap V t k := adel t k;
  tcount V t := int32 (Z.of_nat (length t));
  twalk V t := t;
  titer V t := (t, t);
  twalk_zap V t := ([], t.*1)
}.

Section alist.
Context {V : Type}.
Implicit Types (t : alist V) (k : string).

Definition alist_ok t : Prop := NoDup t.*1 ∧ Forall (λ k, no_nul k) t.*1.

Lemma tmap_nil : tmap (T := alist) ([] : alist V) = ∅.
Proof. done. Qed.
Lemma tmap_cons t k v : tmap (T := alist) ((k, v) :: t) = <[k := v]> (tmap (T := alist) t).
Proof. done. Qed.

Lemma aget_map t k : aget t k = tmap (T := alist) t !! k.
Proof.
  induction t as [|[k' v] t IH]; [done|]. rewrite tmap_cons. cbn [aget]. destruct (String.eqb_spec k' k) as [->|Hne].
  - by rewrite lookup_insert_eq.
  - by rewrite lookup_insert_ne.
Qed.
Lemma adel_map t k : tmap (T := alist) (adel t k) = delete k (tmap (T := alist) t).
Proof.
  induction t as [|[k' v] t IH]; [by rewrite tmap_nil, delete_empty|]. rewrite tmap_cons. cbn [adel].
  destruct (String.eqb_spec k' k) as [->|Hne]; [by rewrite IH, delete_insert_eq|].
  by rewrite tmap_cons, IH, delete_insert_ne.
Qed.
Lemma elem_of_adel t k k' : k' ∈ (adel t k).*1 ↔ k' ∈ t.*1 ∧ k' ≠ k.
Proof.
  induction t as [|[a v] t IH]; cbn [adel].
  - split; [by intros ?%not_elem_of_nil|by intros [?%not_elem_of_nil _]].
  - destruct (String.eqb_spec a k) as [->|Hne]; rewrite !fmap_cons, !elem_of_cons, IH; cbn; [tauto|].
    split; [|tauto]. intros [->|?]; [split; [by left|done]|tauto].
Qed.
Lemma adel_ok t k : alist_ok t → alist_ok (adel t k).
Proof.
  intros [Hn Hf]. split.
  - induction t as [|[a v] t IH]; [constructor|]. apply NoDup_cons in Hn as [Ha Hn]. apply Forall_cons in Hf as [_ Hf].
    cbn [adel]. destruct (String.eqb_spec a k); [by apply IH|]. apply NoDup_cons. split; [|by apply IH].
    rewrite elem_of_adel. tauto.
  - rewrite Forall_forall in Hf |- *. intros k' [? _]%elem_of_adel. by apply Hf.
Qed.
Lemma aput_ok t k v : alist_ok t → no_nul k →
  alist_ok (adel t k ++ [(k, v)]) ∧ tmap (T := alist) (adel t k ++ [(k, v)]) = <[k := v]> (tmap (T := alist) t).
Proof.
  intros Ht Hk. pose proof (adel_ok t k Ht) as [Hn Hf].
  assert (NoDup ((k, v) :: adel t k).*1) as Hnd.
  { apply NoDup_cons. split; [|done]. rewrite elem_of_adel. tauto. }
  assert (adel t k ++ [(k, v)] ≡ₚ (k, v) :: adel t k) as Hp by by rewrite Permutation_app_comm. split.
  - split; [by rewrite (fmap_Permutation fst _ _ Hp)|]. rewrite fmap_app. apply Forall_app. split; [done|]. by constructor.
  - transitivity (tmap (T := alist) ((k, v) :: adel t k)).
    + symmetry. apply list_to_map_proper; [done|by symmetry].
    + by rewrite tmap_cons, adel_map, insert_delete_eq.
Qed.
Lemma foldr_delete_keys t (m : gmap string V) : (∀ k, k ∈ dom m → k ∈ t.*1) → foldr delete m t.*1 = ∅.
Proof.
  intros Hm. apply map_empty. intros k. destruct (decide (k ∈ t.*1)) as [Hk|Hk].
  - by apply lookup_foldr_delete.
  - rewrite lookup_foldr_delete_not_elem_of by done. apply not_elem_of_dom. intros ?%Hm. done.
Qed.
End alist.

#[global] Instance alist_laws : TableLaws alist.
Proof.
  refine (Build_TableLaws alist alist_table (λ V t, alist_ok t) _ _ _ _ _ _ _ _ _ _ _); intros V.
  - intros p _. split; [|done]. split; constructor.
  - intros t k _ [_ Hk]. cbn. destruct (String.eqb_spec k "") as [->|_]; [done|]. apply aget_map.
  - done.
  - intros t k v _. cbn. destruct (String.eqb k ""); [done|]. rewrite aget_map. by exists k.
  - intros t k v. apply aput_ok.
  - intros t k Ht _. split; [by apply adel_ok|apply adel_map].
  - intros t [Hn _]. cbn. f_equal. f_equal. unfold tmap. rewrite map_size_list_to_map by done. done.
  - by intros t [Hn _].
  - intros t k [_ Hf] Hk. rewrite Forall_forall in Hf. by apply Hf.
  - by intros t Ht.
  - intros t [Hn Hf]. cbn. split_and!; [split; constructor|done| |].
    + intros k Hk. split; [rewrite Forall_forall in Hf; by apply Hf|].
      apply list_elem_of_fmap in Hk as ([k' v] & -> & Hk). exists v. by apply elem_of_list_to_map_1.
    + symmetry. apply foldr_delete_keys. intros k Hk. unfold tmap in Hk. cbn in Hk.
      rewrite dom_list_to_map in Hk. by apply elem_of_list_to_set in Hk.
Qed.
