(* ===== verification/JQueue.v ===== *)
(** * The priority queues of util/jqueue.c and util/pqueue.c

    A queue is a doubly linked list from [back] to [front] through [next],
    ordered so that the node with the lowest priority number is in front, and
    a singly linked [cache] of nodes to reuse.  util/pqueue.c is the same code
    on a pool given by the caller; its operations are the same functions here.
    The specification is a list kept in the order in which elements are
    pulled: [push] puts an element behind those of its own and lower numbers. *)
From S2P Require Import Prelude.
From S2P Require Import DList.

Section jqueue.
Context {D : Type}.

(** ** State *)

(** [struct _jqueue_node_st] *)
Record jnode := JNode {
  jn_data : D;
  jn_priority : Z;
  jn_next : option loc;
  jn_prev : option loc
}.

#[global] Instance jnode_dnode : DNode jnode := {
  nx := jn_next;
  pv := jn_prev;
  set_nx q n := JNode (jn_data n) (jn_priority n) q (jn_prev n);
  set_pv q n := JNode (jn_data n) (jn_priority n) (jn_next n) q;
  nx_set_nx _ _ := eq_refl;
  pv_set_nx _ _ := eq_refl;
  nx_set_pv _ _ := eq_refl;
  pv_set_pv _ _ := eq_refl
}.

(** [struct _jqueue_st], with its heap of nodes and the pool's next address. *)
Record jqueue := JQueue {
  q_heap : gmap loc jnode;
  q_fresh : nat;
  q_cache : option loc;
  q_front : option loc;
  q_back : option loc;
  q_size : Z;
  q_init_time : Z
}.

(** ** Operations *)

Definition jqueue_new (now : Z) : jqueue := JQueue ∅ 0 None None None 0 now.

(** [for(scan = q->back; scan != NULL && scan->priority > priority; scan = scan->next)] *)
Fixpoint push_scan (fuel : nat) (h : gmap loc jnode) (priority : Z) (scan : option loc) : option loc :=
  match fuel, scan with
  | S f, Some a =>
    match h !! a with
    | Some n => if (priority <? jn_priority n)%Z then push_scan f h priority (jn_next n) else Some a
    | None => None
    end
  | _, _ => None
  end.

(** A node from the cache, or a new one: the node, the cache and the next address. *)
Definition push_node (q : jqueue) : loc * option loc * nat :=
  match q_cache q with
  | Some a => (a, q_heap q !! a ≫= jn_next, q_fresh q)
  | None => (q_fresh q, None, S (q_fresh q))
  end.

Definition jqueue_push (q : jqueue) (data : D) (priority : Z) : jqueue :=
  let '(qn, cache, fresh) := push_node q in
  let size := int32 (q_size q + 1) in
  let h := <[qn := JNode data priority None None]> (q_heap q) in
  match q_back q, q_front q with
  | None, None => JQueue h fresh cache (Some qn) (Some qn) size (q_init_time q)
  | _, _ =>
    match push_scan (S (stdpp.base.size h)) h priority (q_back q) with
    | None =>
      (* top priority: push us on the front *)
      let h := alter (set_pv (q_front q)) qn h in
      let h := link_next (q_front q) (Some qn) h in
      JQueue h fresh cache (Some qn) (q_back q) size (q_init_time q)
    | Some s =>
      (* push us in front of scan *)
      let sp := h !! s ≫= jn_prev in
      let h := alter (set_nx (Some s)) qn h in
      let h := alter (set_pv sp) qn h in
      let h := link_next sp (Some qn) h in
      let back := match sp with Some _ => q_back q | None => Some qn end in
      let h := alter (set_pv (Some qn)) s h in
      JQueue h fresh cache (q_front q) back size (q_init_time q)
    end
  end.

Definition jqueue_pull (q : jqueue) : jqueue * option D :=
  match q_front q with
  | None => (q, None)
  | Some qn =>
    let data := jn_data <$> q_heap q !! qn in
    let np := q_heap q !! qn ≫= jn_prev in
    let h := link_next np None (q_heap q) in
    (* node to cache for later reuse *)
    let h := alter (set_nx (q_cache q)) qn h in
    let back := match np with None => None | Some _ => q_back q end in
    (JQueue h (q_fresh q) (Some qn) np back (int32 (q_size q - 1)) (q_init_time q), data)
  end.

Definition jqueue_size (q : jqueue) : Z := q_size q.

Definition jqueue_age (q : jqueue) (now : Z) : Z := now - q_init_time q.

(** util/pqueue.c has no [init_time]; the rest of its state and its code are the same. *)
Definition pqueue_new : jqueue := JQueue ∅ 0 None None None 0 0.
Definition pqueue_push (q : jqueue) (data : D) (priority : Z) : jqueue := jqueue_push q data priority.
Definition pqueue_pull (q : jqueue) : jqueue * option D := jqueue_pull q.
Definition pqueue_size (q : jqueue) : Z := q_size q.

(** ** Specification *)

(** The elements in the order in which they are pulled, with their priorities. *)
Definition pq_push (d : D) (p : Z) (l : list (D * Z)) : list (D * Z) :=
  filter (λ x, x.2 ≤ p)%Z l ++ (d, p) :: filter (λ x, p < x.2)%Z l.

Inductive qop := QPush (d : D) (p : Z) | QPull.

(** What the operations give: the length of the queue after a push, the element pulled. *)
Fixpoint run_jqueue (q : jqueue) (ops : list qop) : list (Z * option D) :=
  match ops with
  | [] => []
  | QPush d p :: ops => let q' := jqueue_push q d p in (jqueue_size q', None) :: run_jqueue q' ops
  | QPull :: ops => let '(q', r) := jqueue_pull q in (jqueue_size q', r) :: run_jqueue q' ops
  end.

Fixpoint run_spec (l : list (D * Z)) (ops : list qop) : list (Z * option D) :=
  match ops with
  | [] => []
  | QPush d p :: ops => let l' := pq_push d p l in (int32 (Z.of_nat (length l')), None) :: run_spec l' ops
  | QPull :: ops =>
    (int32 (Z.of_nat (length (tail l))), fst <$> head l) :: run_spec (tail l) ops
  end.

(** ** The invariant *)

Definition payload (h : gmap loc jnode) (a : loc) : option (D * Z) :=
  (λ n, (jn_data n, jn_priority n)) <$> h !! a.

(** [bl] is the queue's chain from the back, [cl] the cache, [c] the contents from the back. *)
Record jq_rep (q : jqueue) (bl cl : list loc) (c : list (D * Z)) : Prop := {
  jr_chain : dseg (q_heap q) None bl None;
  jr_cache : sseg (q_heap q) cl None;
  jr_nodup : NoDup (bl ++ cl);
  jr_fresh : ∀ a, a ∈ bl ++ cl → a < q_fresh q;
  jr_back : q_back q = hd_or None bl;
  jr_front : q_front q = last_or None bl;
  jr_chd : q_cache q = hd_or None cl;
  jr_size : q_size q = int32 (Z.of_nat (length bl));
  jr_vals : Forall2 (λ a x, payload (q_heap q) a = Some x) bl c
}.

(** [push] seen from the back. *)
Fixpoint bpush (x : D * Z) (c : list (D * Z)) : list (D * Z) :=
  match c with
  | [] => [x]
  | y :: c => if (x.2 <? y.2)%Z then y :: bpush x c else x :: y :: c
  end.

Definition front_sorted (l : list (D * Z)) : Prop := StronglySorted (λ x y, x.2 ≤ y.2)%Z l.

Lemma payload_link_next o q h a : payload (link_next o q h) a = payload h a.
Proof.
  unfold payload. destruct o as [b|]; [|done]. simpl. destruct (decide (a = b)) as [->|].
  - rewrite lookup_alter_eq. by destruct (h !! b).
  - by rewrite lookup_alter_ne.
Qed.

Lemma payload_set_pv o b h a : payload (alter (set_pv o) b h) a = payload h a.
Proof.
  unfold payload. destruct (decide (a = b)) as [->|].
  - rewrite lookup_alter_eq. by destruct (h !! b).
  - by rewrite lookup_alter_ne.
Qed.

Lemma payload_set_nx o b h a : payload (alter (set_nx o) b h) a = payload h a.
Proof. exact (payload_link_next (Some b) o h a). Qed.

#[local] Hint Rewrite payload_link_next payload_set_pv payload_set_nx : jabberd.

Lemma payloads_ext h h' bl c :
  (∀ a, a ∈ bl → payload h' a = payload h a) →
  Forall2 (λ a x, payload h a = Some x) bl c → Forall2 (λ a x, payload h' a = Some x) bl c.
Proof.
  intros Hf HF. induction HF as [|a x bl c Ha HF IH]; constructor.
  - rewrite Hf by set_solver. done.
  - apply IH. intros. apply Hf. set_solver.
Qed.

(** The scan stops at the node before which [bpush] puts the new element. *)
Lemma push_scan_split fuel h bl c (d : D) p :
  length bl < fuel → sseg h bl None → Forall2 (λ a x, payload h a = Some x) bl c →
  ∃ bl1 bl2 c1 c2, bl = bl1 ++ bl2 ∧ c = c1 ++ c2 ∧ length bl1 = length c1 ∧
    push_scan fuel h p (hd_or None bl) = hd_or None bl2 ∧ bpush (d, p) c = c1 ++ (d, p) :: c2.
Proof.
  intros Hf Hs HF. revert fuel Hf. induction HF as [|a x bl c Ha HF IH]; intros [|f] Hf; try (simpl in Hf; lia).
  - exists [], [], [], []. done.
  - destruct Hs as (n & Hn & Hnx & Hs). cbn [hd_or push_scan bpush]. rewrite Hn.
    unfold payload in Ha. rewrite Hn in Ha. simplify_eq/=.
    destruct (Z.ltb_spec p (jn_priority n)).
    + simpl in Hf. destruct (IH Hs f ltac:(lia)) as (b1 & b2 & c1 & c2 & -> & -> & Hl & Hsc & Hbp).
      exists (a :: b1), b2, ((jn_data n, jn_priority n) :: c1), c2.
      simpl in Hnx. rewrite Hnx, Hbp. simpl. auto.
    + exists [], (a :: bl), [], ((jn_data n, jn_priority n) :: c). done.
Qed.

Lemma push_node_rep q bl cl c qn cache fresh :
  jq_rep q bl cl c → push_node q = (qn, cache, fresh) →
  ∃ cl', cache = hd_or None cl' ∧ sseg (q_heap q) cl' None ∧ qn ∉ bl ∧ qn ∉ cl' ∧
    NoDup (bl ++ cl') ∧ (∀ a, a = qn ∨ a ∈ bl ++ cl' → a < fresh).
Proof.
  intros [_ Hsc Hnd Hfr _ _ Hhd _ _]. unfold push_node. rewrite Hhd.
  destruct cl as [|a cl]; simpl; intros [= <- <- <-].
  - exists []. split_and!; try done; [|set_solver|].
    + intros Hb. specialize (Hfr (q_fresh q)). rewrite app_nil_r in Hfr. apply Hfr in Hb. lia.
    + intros a [->|Ha]; [lia|]. apply Hfr in Ha. lia.
  - destruct Hsc as (n & Hn & Hnx & Hs). exists cl. rewrite Hn. simpl. apply NoDup_app in Hnd as (Hn1 & Hn2 & [Hn3 Hn4]%NoDup_cons).
    split_and!; try done; [set_solver| |].
    + apply NoDup_app. set_solver.
    + intros b Hb. apply Hfr. set_solver.
Qed.

(** A new node in the chain keeps the addresses distinct and below [fresh]. *)
Lemma chain_grow (x y cl : list loc) qn fresh :
  qn ∉ x ++ y → qn ∉ cl → NoDup ((x ++ y) ++ cl) → (∀ a, a = qn ∨ a ∈ (x ++ y) ++ cl → a < fresh) →
  NoDup ((x ++ qn :: y) ++ cl) ∧ ∀ a, a ∈ (x ++ qn :: y) ++ cl → a < fresh.
Proof.
  intros H1 H2 H3 H4.
  assert ((x ++ qn :: y) ++ cl ≡ₚ qn :: (x ++ y) ++ cl) as HP by by rewrite <- Permutation_middle.
  rewrite HP. setoid_rewrite HP. split.
  - apply NoDup_cons. split; [|done]. intros [?|?]%elem_of_app; done.
  - intros a Ha. apply H4. by apply elem_of_cons in Ha.
Qed.

(** [bpush] on the whole heap: the new element's node joins the chain. *)
Lemma jqueue_push_rep q bl cl c d p :
  jq_rep q bl cl c → ∃ bl' cl', jq_rep (jqueue_push q d p) bl' cl' (bpush (d, p) c).
Proof.
  intros Hrep. destruct (push_node q) as [[qn cache] fresh] eqn:Epn.
  destruct (push_node_rep _ _ _ _ _ _ _ Hrep Epn) as (cl' & -> & Hsc & Hqb & Hqc & Hnd & Hfr).
  destruct Hrep as [Hch _ _ _ Hb Hf _ Hsz HF]. unfold jqueue_push. rewrite Epn, Hb, Hf.
  set (h := <[qn:=JNode d p None None]> (q_heap q)).
  assert (∀ a, a ≠ qn → h !! a = q_heap q !! a) as Hne by (intros; by apply lookup_insert_ne).
  assert (h !! qn = Some (JNode d p None None)) as Hqn by apply lookup_insert_eq.
  assert (dseg h None bl None) as Hch' by (eapply dseg_frame; [|done]; intros; apply Hne; congruence).
  assert (sseg h cl' None) as Hsc' by (eapply sseg_frame; [|done]; intros; apply Hne; congruence).
  assert (Forall2 (λ a x, payload h a = Some x) bl c) as HF'.
  { eapply payloads_ext; [|done]. intros. unfold payload. by rewrite Hne by congruence. }
  assert (payload h qn = Some (d, p)) as Hpq by (unfold payload; by rewrite Hqn).
  assert (int32 (q_size q + 1) = int32 (Z.of_nat (S (length bl)))) as Hsz'.
  { rewrite Hsz, int32_add. f_equal. lia. }
  destruct bl as [|b0 bl0] eqn:Ebl.
  { inversion HF'; subst. exists [qn], cl'. split; simpl; try done.
    - by exists (JNode d p None None).
    - apply NoDup_cons. done.
    - intros a. rewrite elem_of_cons. intros Ha. apply Hfr. simpl. done.
    - constructor; [done|constructor]. }
  rewrite <- Ebl in *. clear HF Hch Hsc.
  destruct (push_scan_split (S (size h)) h bl c d p) as (b1 & b2 & c1 & c2 & E1 & -> & Hl & Hscan & ->); try done.
  { apply Nat.lt_succ_r. eapply sseg_length_le; [|by eapply dseg_sseg]. by apply NoDup_app in Hnd as [? _]. }
  { by eapply dseg_sseg. }
  rewrite Hscan.
  replace (hd_or None bl) with (Some b0) by by rewrite Ebl.
  apply NoDup_app in Hnd as (Hnd1 & Hnd2 & Hnd3).
  assert (length c1 + length c2 = length b1 + length b2) as Hlen.
  { apply Forall2_length in HF'. rewrite E1, !length_app in HF'. lia. }
  assert (q_back q = Some b0) as Hbk by (by rewrite Hb, Ebl). rewrite Hbk in *.
  destruct b2 as [|s b2]; cbn [hd_or].
  - rewrite app_nil_r in E1. subst b1. destruct c2; [|simpl in Hlen; lia].
    destruct (dseg_link_last h bl qn (JNode d p None None)) as (Hs1 & Hs2 & Hs3); try done.
    destruct (chain_grow bl [] cl' qn fresh) as [Hg1 Hg2]; rewrite ?app_nil_r; try done.
    { by apply NoDup_app. }
    exists (bl ++ [qn]), cl'. rewrite app_nil_r in HF'. split; cbn [q_heap q_back q_front q_size q_cache q_fresh]; try done.
    + eapply sseg_frame; [|done]. intros a Ha. apply Hs3; [congruence|]. intros Hab. by apply (Hnd2 a).
    + by rewrite Ebl.
    + by rewrite last_or_snoc.
    + rewrite Hsz'. do 2 f_equal. rewrite length_app. simpl. lia.
    + apply Forall2_app; [|constructor; [by autorewrite with jabberd|constructor]].
      eapply payloads_ext; [|done]. intros. by autorewrite with jabberd.
  - assert (NoDup (bl ++ cl')) as Hnd0 by by apply NoDup_app.
    rewrite E1 in Hch', Hqb, Hnd0.
    destruct (dseg_lookup _ _ _ _ _ _ Hch') as (ns & Hns & Hpv & _). rewrite Hns. cbn [mbind option_bind].
    replace (jn_prev ns) with (last_or None b1) by done.
    destruct (dseg_link_before h b1 s b2 qn (JNode d p None None)) as (Hs1 & Hs2 & Hs3); try done.
    { by rewrite <- E1. }
    destruct (chain_grow b1 (s :: b2) cl' qn fresh) as [Hg1 Hg2]; try done.
    { by rewrite <- E1. }
    exists (b1 ++ qn :: s :: b2), cl'. split; cbn [q_heap q_back q_front q_size q_cache q_fresh]; try done.
    + eapply sseg_frame; [|done]. intros a Ha. apply Hs3; [congruence|]. rewrite <- E1. intros Hab. by apply (Hnd2 a).
    + destruct b1 as [|b1' b1]; [done|]. rewrite E1 in Ebl. simpl in Ebl. injection Ebl as -> _.
      simpl. destruct (last_or (Some b0) b1) eqn:El; [done|]. exfalso. clear -El.
      revert b0 El. induction b1; simpl; [done|eauto].
    + by rewrite E1, !last_or_app.
    + rewrite Hsz', E1. do 2 f_equal. rewrite !length_app. simpl. lia.
    + rewrite E1 in HF'. destruct (Forall2_app_inv _ _ _ _ _ Hl HF') as [HF1 HF2].
      apply Forall2_app; [|constructor; [by autorewrite with jabberd|]];
      (eapply payloads_ext; [|done]); intros; by autorewrite with jabberd.
Qed.

Lemma jqueue_pull_rep q bl cl c :
  jq_rep q bl cl c →
  ∃ bl' cl' c', jq_rep (jqueue_pull q).1 bl' cl' c' ∧ rev c' = tail (rev c) ∧
    (jqueue_pull q).2 = fst <$> head (rev c).
Proof.
  intros Hrep. pose proof Hrep as [Hch Hsc Hnd Hfr Hb Hf Hhd Hsz HF]. unfold jqueue_pull. rewrite Hf.
  destruct bl as [|qn bl _] using rev_ind; simpl.
  { inversion HF; subst. exists [], cl, []. done. }
  rewrite last_or_snoc. apply Forall2_app_inv_l in HF as (c0 & c1 & HF0 & HF1 & ->).
  inversion HF1 as [|? [d p] ? ? Hqn HF2]; subst. inversion HF2; subst. clear HF1 HF2.
  unfold payload in Hqn. destruct (q_heap q !! qn) as [n|] eqn:En; simplify_eq/=.
  destruct (dseg_lookup _ _ _ _ _ _ Hch) as (n' & En' & Hpv & Hnx). rewrite En in En'. injection En' as <-.
  replace (jn_prev n) with (last_or None bl) by done.
  rewrite <- app_assoc in Hnd. simpl in Hnd.
  assert (bl ++ qn :: cl ≡ₚ qn :: bl ++ cl) as HP by by rewrite <- Permutation_middle.
  assert (qn ∉ bl ∧ qn ∉ cl ∧ NoDup bl ∧ ∀ a, a ∈ bl → a ∉ cl) as (Hq1 & Hq2 & Hnb & Hbc).
  { rewrite HP in Hnd. apply NoDup_cons in Hnd as [H1 (H2&H3&H4)%NoDup_app]. set_solver. }
  apply dseg_app in Hch as [Hch _].
  assert (∀ a, a ∉ bl → a ≠ qn → alter (set_nx (q_cache q)) qn (link_next (last_or None bl) None (q_heap q)) !! a = q_heap q !! a) as Hfrm.
  { intros a Ha Hne. rewrite lookup_alter_ne by done. apply link_next_frame. intros E%last_or_None_elem. done. }
  exists bl, (qn :: cl), c0. split; [|rewrite rev_app_distr; done].
  split; cbn [q_heap q_back q_front q_size q_cache q_fresh fst]; try done.
  - apply (dseg_frame (link_next (last_or None bl) None (q_heap q))).
    { intros a Ha. apply lookup_alter_ne. congruence. }
    by eapply dseg_link_next.
  - exists (set_nx (q_cache q) n). autorewrite with jabberd. split_and!; [|done|].
    + rewrite lookup_alter_eq, link_next_frame, En; [done|]. intros E%last_or_None_elem. done.
    + eapply sseg_frame; [|done]. intros a Ha. apply Hfrm; [intros Hb'; by apply (Hbc a)|congruence].
  - intros a Ha. apply Hfr. by rewrite <- app_assoc.
  - rewrite Hb. destruct bl as [|b bl]; [done|]. simpl.
    destruct (last_or (Some b) bl) eqn:E; [done|]. exfalso. clear -E. revert b E. induction bl; simpl; [done|eauto].
  - unfold Z.sub. rewrite Hsz, int32_add. f_equal. rewrite length_app. simpl. lia.
  - eapply payloads_ext; [|done]. intros a _.
    exact (eq_trans (payload_set_nx (q_cache q) qn _ a) (payload_link_next _ _ _ a)).
Qed.

(** ** The list kept in the order of pulling *)

Lemma filter_all {A} (P : A → Prop) `{!∀ x, Decision (P x)} l : Forall P l → filter P l = l.
Proof. induction 1 as [|x l Hx Hl IH]; [done|]. by rewrite filter_cons_True, IH. Qed.

Lemma filter_none {A} (P : A → Prop) `{!∀ x, Decision (P x)} l : Forall (λ x, ¬ P x) l → filter P l = [].
Proof. induction 1 as [|x l Hx Hl IH]; [done|]. by rewrite filter_cons_False. Qed.

Lemma front_sorted_snoc l y : front_sorted (l ++ [y]) → front_sorted l ∧ Forall (λ x, x.2 ≤ y.2)%Z l.
Proof.
  intros Hs. split.
  - by eapply StronglySorted_app_1_l.
  - apply Forall_forall. intros x Hx. apply (StronglySorted_app_1_elem_of (λ x y, x.2 ≤ y.2)%Z l [y]); [done..|set_solver].
Qed.

Lemma bpush_rev d p l : front_sorted l → bpush (d, p) (rev l) = rev (pq_push d p l).
Proof.
  induction l as [|y l IH] using rev_ind; [done|]. intros [Hs Hle]%front_sorted_snoc.
  rewrite rev_app_distr. simpl. unfold pq_push. rewrite !filter_app. destruct (Z.ltb_spec p y.2).
  - rewrite filter_cons_False by (simpl; lia). rewrite (filter_cons_True _ y) by done. rewrite !filter_nil, app_nil_r.
    rewrite IH by done. unfold pq_push. rewrite app_comm_cons, app_assoc, (rev_app_distr (_ ++ _)). done.
  - assert (Forall (λ x, x.2 ≤ p)%Z l) as Hlp by (eapply Forall_impl; [done|]; simpl; lia).
    rewrite (filter_cons_True _ y) by (simpl; lia). rewrite (filter_cons_False _ y) by lia. rewrite !filter_nil.
    rewrite (filter_all _ l) by done. rewrite (filter_none _ l) by (eapply Forall_impl; [done|]; simpl; lia).
    rewrite app_nil_l, !rev_app_distr. done.
Qed.

Lemma pq_push_sorted d p l : front_sorted l → front_sorted (pq_push d p l).
Proof.
  unfold pq_push. induction 1 as [|y l Hs IH Hle]; [by repeat constructor|].
  assert (y.2 ≤ p → Forall (λ x, y.2 ≤ x.2)%Z (filter (λ x, x.2 ≤ p)%Z l ++ (d, p) :: filter (λ x, p < x.2)%Z l))%Z as HF.
  { intros. apply Forall_app. split; [|constructor; [done|]]; apply Forall_forall;
    intros z [_ Hz]%list_elem_of_filter; rewrite Forall_forall in Hle; auto. }
  destruct (Z.le_gt_cases y.2 p) as [Hy|Hy].
  - rewrite filter_cons_True by done. rewrite (filter_cons_False _ y) by lia. simpl. constructor; auto.
  - rewrite filter_cons_False by lia. rewrite (filter_cons_True _ y) by lia.
    assert (Forall (λ x, p < x.2)%Z l) as Hlp by (eapply Forall_impl; [done|]; simpl; lia).
    rewrite (filter_none _ l) by (eapply Forall_impl; [done|]; simpl; lia).
    rewrite (filter_all _ l) by done. simpl. repeat constructor; auto; simpl; [lia|].
    eapply Forall_impl; [done|]. simpl. lia.
Qed.

Lemma pq_push_length d p l : length (pq_push d p l) = S (length l).
Proof.
  unfold pq_push. rewrite length_app. simpl. induction l as [|y l IH]; [done|].
  destruct (Z.le_gt_cases y.2 p).
  - rewrite filter_cons_True by done. rewrite (filter_cons_False _ y) by lia. simpl. lia.
  - rewrite filter_cons_False by lia. rewrite (filter_cons_True _ y) by lia. simpl. lia.
Qed.

Lemma jq_rep_size q bl cl c : jq_rep q bl cl c → jqueue_size q = int32 (Z.of_nat (length c)).
Proof. intros []. unfold jqueue_size. rewrite jr_size0. do 2 f_equal. by eapply Forall2_length. Qed.

Lemma jqueue_new_rep now : jq_rep (jqueue_new now) [] [] [].
Proof. split; try done; [apply NoDup_nil_2|set_solver]. Qed.

Lemma run_jqueue_rep q bl cl c ops :
  jq_rep q bl cl c → front_sorted (rev c) → run_jqueue q ops = run_spec (rev c) ops.
Proof.
  revert q bl cl c. induction ops as [|[d p|] ops IH]; intros q bl cl c Hr Hs; simpl; [done|..].
  - destruct (jqueue_push_rep q bl cl c d p Hr) as (bl' & cl' & Hr').
    assert (rev (bpush (d, p) c) = pq_push d p (rev c)) as Hb.
    { rewrite <- (rev_involutive (pq_push _ _ _)), <- bpush_rev, rev_involutive by done. done. }
    assert (length (bpush (d, p) c) = length (pq_push d p (rev c))) as Hl by by rewrite <- Hb, length_rev.
    f_equal.
    + rewrite (jq_rep_size _ _ _ _ Hr'). by rewrite Hl.
    + rewrite <- Hb. eapply IH; [done|]. rewrite Hb. by apply pq_push_sorted.
  - destruct (jqueue_pull_rep q bl cl c Hr) as (bl' & cl' & c' & Hr' & Hc & Hd).
    destruct (jqueue_pull q) as [q' r]; simpl in *. subst r. rewrite <- Hc. f_equal.
    + rewrite (jq_rep_size _ _ _ _ Hr'). by rewrite length_rev.
    + eapply IH; [done|]. rewrite Hc. destruct (rev c); [done|]. by inversion Hs.
Qed.

Definition push_all (q : jqueue) (xs : list (D * Z)) : jqueue :=
  foldl (λ q x, jqueue_push q x.1 x.2) q xs.

Fixpoint pull_n (n : nat) (q : jqueue) : list (option D) :=
  match n with
  | O => []
  | S n => let '(q, r) := jqueue_pull q in r :: pull_n n q
  end.

Lemma push_all_rep q bl cl c xs :
  jq_rep q bl cl c → front_sorted (rev c) → ∃ bl' cl' c', jq_rep (push_all q xs) bl' cl' c' ∧
    rev c' = foldl (λ l x, pq_push x.1 x.2 l) (rev c) xs.
Proof.
  revert q bl cl c. induction xs as [|[d p] xs IH]; intros q bl cl c Hr Hs; [by eauto|].
  simpl. destruct (jqueue_push_rep q bl cl c d p Hr) as (bl' & cl' & Hr').
  assert (rev (bpush (d, p) c) = pq_push d p (rev c)) as Hb.
  { rewrite <- (rev_involutive (pq_push _ _ _)), <- bpush_rev, rev_involutive by done. done. }
  rewrite <- Hb. eapply IH; [done|]. rewrite Hb. by apply pq_push_sorted.
Qed.

Lemma pull_n_rep n q bl cl c :
  jq_rep q bl cl c → n = length c → pull_n n q = (λ x, Some x.1) <$> rev c.
Proof.
  revert q bl cl c. induction n as [|n IH]; intros q bl cl c Hr Hn; [by destruct c|].
  destruct (jqueue_pull_rep q bl cl c Hr) as (bl' & cl' & c' & Hr' & Hc & Hd). simpl.
  destruct (jqueue_pull q) as [q' r]; simpl in *. subst r.
  destruct (rev c) as [|x l] eqn:E.
  { apply (f_equal length) in E. rewrite length_rev in E. simpl in E. lia. }
  simpl in *. f_equal. rewrite <- Hc. eapply IH; [done|].
  apply (f_equal length) in E, Hc. rewrite length_rev in E, Hc. simpl in E. lia.
Qed.

Lemma pq_push_perm d p l : pq_push d p l ≡ₚ (d, p) :: l.
Proof.
  unfold pq_push. rewrite <- Permutation_middle. f_equiv. induction l as [|y l IH]; [done|].
  destruct (Z.le_gt_cases y.2 p).
  - rewrite filter_cons_True by done. rewrite (filter_cons_False _ y) by lia. simpl. by rewrite IH.
  - rewrite filter_cons_False by lia. rewrite (filter_cons_True _ y) by lia.
    rewrite <- Permutation_middle. by rewrite IH.
Qed.

(** Within one priority a push is an append. *)
Lemma pq_push_class d p l k :
  filter (λ x, x.2 = k) (pq_push d p l) = filter (λ x, x.2 = k) (l ++ [(d, p)]).
Proof.
  unfold pq_push. rewrite !filter_app, !filter_cons, !filter_nil, !list_filter_filter. simpl.
  assert (∀ (P Q : D * Z → Prop) `{!∀ x, Decision (P x)} `{!∀ x, Decision (Q x)},
    (∀ x, P x ↔ Q x) → filter P l = filter Q l) as Hiff.
  { intros P Q ?? HPQ. by apply list_filter_iff. }
  assert (∀ (P : D * Z → Prop) `{!∀ x, Decision (P x)}, (∀ x, ¬ P x) → filter P l = []) as Hno.
  { intros P ? HP. apply filter_none. apply Forall_true. done. }
  destruct (Z.le_gt_cases k p).
  - rewrite (Hiff (λ x, x.2 = k ∧ x.2 ≤ p)%Z (λ x, x.2 = k) _ _) by lia. rewrite (Hno (λ x, x.2 = k ∧ p < x.2)%Z _) by lia. done.
  - rewrite (Hno (λ x, x.2 = k ∧ x.2 ≤ p)%Z _) by lia. rewrite (Hiff (λ x, x.2 = k ∧ p < x.2)%Z (λ x, x.2 = k) _ _) by lia.
    destruct (decide (p = k)); [lia|]. by rewrite app_nil_r.
Qed.

Lemma push_list_facts (xs : list (D * Z)) l :
  front_sorted l →
  let l' := foldl (λ l x, pq_push x.1 x.2 l) l xs in
  front_sorted l' ∧ l' ≡ₚ xs ++ l ∧ ∀ k, filter (λ x, x.2 = k) l' = filter (λ x, x.2 = k) (l ++ xs).
Proof.
  revert l. induction xs as [|[d p] xs IH]; intros l Hs; simpl.
  { rewrite app_nil_r. done. }
  destruct (IH (pq_push d p l)) as (H1 & H2 & H3); [by apply pq_push_sorted|]. split_and!; [done|..].
  - rewrite H2, pq_push_perm. by rewrite <- Permutation_middle.
  - intros k. rewrite H3, filter_app, pq_push_class, <- filter_app, <- app_assoc. done.
Qed.
End jqueue.

(** ** First in, first out

    Queues whose elements all have priority 0, as the router's are. *)
Definition fifo_rep {A} (q : @jqueue A) (l : list A) : Prop :=
  ∃ bl cl c, jq_rep q bl cl c ∧ rev c = (λ n, (n, 0%Z)) <$> l.

(** [while((x = jqueue_pull(q)) != NULL)] *)
Fixpoint drain {A} (fuel : nat) (q : @jqueue A) : list A :=
  match fuel with
  | O => []
  | S f => match jqueue_pull q with (q, Some n) => n :: drain f q | (_, None) => [] end
  end.

(** [while(jqueue_size(q) > 0) ... jqueue_pull(q)] *)
Fixpoint pull_all {A} (fuel : nat) (q : @jqueue A) : @jqueue A * list A :=
  match fuel with
  | O => (q, [])
  | S f =>
    if (0 <? jqueue_size q)%Z then
      match jqueue_pull q with (q, Some p) => let '(q, l) := pull_all f q in (q, p :: l) | (q, None) => (q, []) end
    else (q, [])
  end.

Section fifo.
Context {A : Type}.
Implicit Types (q : @jqueue A) (l : list A).

Lemma fifo_new now : fifo_rep (jqueue_new (D:=A) now) [].
Proof. exists [], [], []. split; [apply jqueue_new_rep|done]. Qed.

Lemma pq_push_zero (n : A) l : pq_push n 0 ((λ n, (n, 0%Z)) <$> l) = (λ n, (n, 0%Z)) <$> (l ++ [n]).
Proof.
  unfold pq_push. rewrite filter_all, filter_none; [by rewrite fmap_app|..]; apply Forall_fmap, Forall_true; intros; cbn; lia.
Qed.
Lemma zero_sorted l : front_sorted ((λ n, (n, 0%Z)) <$> l).
Proof.
  unfold front_sorted. induction l as [|n l IH]; [constructor|]. rewrite fmap_cons. constructor; [done|].
  apply Forall_fmap, Forall_true. intros. cbn. lia.
Qed.

Lemma fifo_push q l n : fifo_rep q l → fifo_rep (jqueue_push q n 0) (l ++ [n]).
Proof.
  intros (bl & cl & c & Hq & Hc). destruct (jqueue_push_rep q bl cl c n 0 Hq) as (bl' & cl' & Hq').
  exists bl', cl', (bpush (n, 0%Z) c). split; [done|]. rewrite <- (rev_involutive c), Hc, bpush_rev by apply zero_sorted.
  by rewrite rev_involutive, pq_push_zero.
Qed.

Lemma fifo_pull q l : fifo_rep q l → fifo_rep (jqueue_pull q).1 (tail l) ∧ (jqueue_pull q).2 = head l.
Proof.
  intros (bl & cl & c & Hq & Hc). destruct (jqueue_pull_rep q bl cl c Hq) as (bl' & cl' & c' & Hq' & Hc' & Hd).
  rewrite Hc in Hc', Hd. split.
  - exists bl', cl', c'. split; [done|]. rewrite Hc'. by destruct l.
  - rewrite Hd. by destruct l.
Qed.

Lemma fifo_drain q l f : fifo_rep q l → length l < f → drain f q = l.
Proof.
  revert q l. induction f as [|f IH]; intros q l Hq Hf; [lia|]. cbn [drain].
  destruct (fifo_pull q l Hq) as [Hq' Hd]. destruct (jqueue_pull q) as [q' [m|]]; cbn [fst snd] in *; destruct l as [|n l]; try done.
  cbn in Hd. injection Hd as ->. f_equal. apply IH; [done|]. cbn in Hf. lia.
Qed.

Lemma fifo_fuel q l : fifo_rep q l → length l < S (size (q_heap q)).
Proof.
  intros (bl & cl & c & Hq & Hc). apply (f_equal length) in Hc. rewrite length_rev, length_fmap in Hc.
  pose proof (Forall2_length _ _ _ (jr_vals _ _ _ _ Hq)) as E.
  pose proof (proj1 (proj1 (NoDup_app _ _) (jr_nodup _ _ _ _ Hq))) as Hnd.
  pose proof (sseg_length_le _ _ _ Hnd (dseg_sseg _ _ _ _ (jr_chain _ _ _ _ Hq))). lia.
Qed.

(** The count is a C int; past its range the loop stops early, with the rest still queued. *)
Lemma fifo_pull_all f q l : fifo_rep q l →
  ∃ l2, l = (pull_all f q).2 ++ l2 ∧ fifo_rep (pull_all f q).1 l2.
Proof.
  revert q l. induction f as [|f IH]; intros q l Hq; cbn [pull_all]; [by exists l|].
  destruct (0 <? jqueue_size q)%Z; [|by exists l]. destruct (fifo_pull q l Hq) as [Hq' Hd].
  destruct (jqueue_pull q) as [q' [m|]]; cbn [fst snd] in *.
  - destruct l as [|n l]; [done|]. cbn in Hd, Hq'. injection Hd as ->.
    destruct (IH q' l Hq') as (l2 & E & Hr). destruct (pull_all f q') as [q2 l1]. cbn [fst snd] in *.
    exists l2. split; [by rewrite E|done].
  - exists (tail l). split; [by destruct l|done].
Qed.
Lemma fifo_size q l : fifo_rep q l → jqueue_size q = int32 (Z.of_nat (length l)).
Proof.
  intros (bl & cl & c & Hq & Hc). rewrite (jq_rep_size _ _ _ _ Hq). apply (f_equal length) in Hc.
  rewrite length_rev, length_fmap in Hc. by rewrite Hc.
Qed.
(** Within its range everything is pulled. *)
Lemma fifo_pull_all_done f q l : fifo_rep q l → length l < f → (Z.of_nat (length l) < 2 ^ 31)%Z → (pull_all f q).2 = l.
Proof.
  revert q l. induction f as [|f IH]; intros q l Hq Hf Hl; [lia|]. cbn [pull_all].
  rewrite (fifo_size _ _ Hq), int32_id by lia. destruct (fifo_pull q l Hq) as [Hq' Hd].
  destruct l as [|n l]; cbn [length] in *; [done|]. destruct (Z.ltb_spec 0 (Z.of_nat (S (length l)))); [|lia].
  destruct (jqueue_pull q) as [q' [m|]]; cbn [fst snd] in *; [|done]. cbn in Hd, Hq'. injection Hd as ->.
  specialize (IH q' l Hq' ltac:(lia) ltac:(lia)). destruct (pull_all f q') as [q2 l1]. cbn [snd] in *. by subst l1.
Qed.
End fifo.

(** ** Properties *)

(** Every sequence of pushes and pulls on a new queue returns what the list kept in the
    order of pulling returns: a push puts its element behind those whose priority number is not
    greater and in front of the others, a pull takes the first element and answers NULL exactly
    when there is none, and the size is the length of the list, whatever nodes the cache reuses. *)
Theorem jqueue_refines_list {D} (now : Z) (ops : list (@qop D)) :
  run_jqueue (jqueue_new now) ops = run_spec [] ops.
Proof. exact (run_jqueue_rep _ [] [] [] ops (jqueue_new_rep now) (SSorted_nil _)). Qed.

(** A queue filled with [xs] is emptied by increasing priority number, each element once,
    and first in first out among the elements of one priority. *)
Theorem jqueue_stable_order {D} (now : Z) (xs : list (D * Z)) :
  ∃ l, pull_n (length xs) (push_all (jqueue_new now) xs) = (λ x, Some x.1) <$> l ∧
    l ≡ₚ xs ∧ front_sorted l ∧ ∀ k, filter (λ x, x.2 = k) l = filter (λ x, x.2 = k) xs.
Proof.
  destruct (push_all_rep _ [] [] [] xs (jqueue_new_rep now) (SSorted_nil _)) as (bl & cl & c & Hr & Hc).
  destruct (push_list_facts xs []) as (H1 & H2 & H3); [constructor|]. simpl in Hc. rewrite <- Hc in *.
  exists (rev c). rewrite app_nil_r in H2. split_and!; try done.
  eapply pull_n_rep; [done|]. apply Permutation_length in H2. by rewrite <- H2, length_rev.
Qed.
