(* ===== verification/Rate.v ===== *)
(** * The rate limiter of util/rate.c

    A counter of events in a window that starts with its first event, which
    goes bad for [wait] seconds when the count reaches [total].  The router
    uses one per component (bytes) and one per address (connections), c2s one
    per session (bytes and stanzas); all use it as [rate_step] does: check,
    take at most [rate_left] events, add them. *)
From S2P Require Import Prelude.

(** ** State and operations *)

(** [struct rate_st]; the two [time_t] are unbounded. *)
Record rate := Rate {
  rt_total : Z;
  rt_seconds : Z;
  rt_wait : Z;
  rt_time : Z;
  rt_count : Z;
  rt_bad : Z
}.

Definition rate_new (total seconds wait : Z) : rate := Rate total seconds wait 0 0 0.

Definition rate_reset (rt : rate) : rate :=
  Rate (rt_total rt) (rt_seconds rt) (rt_wait rt) 0 0 0.

Definition rate_add (rt : rate) (count now : Z) : rate :=
  (* rate expired *)
  let rt := if (rt_seconds rt <=? now - rt_time rt)%Z then rate_reset rt else rt in
  let cnt := int32 (rt_count rt + count) in
  (* first event, so set the time *)
  let time := if (rt_time rt =? 0)%Z then now else rt_time rt in
  (* uhoh, they stuffed up *)
  let bad := if (rt_total rt <=? cnt)%Z then now else rt_bad rt in
  Rate (rt_total rt) (rt_seconds rt) (rt_wait rt) time cnt bad.

Definition rate_left (rt : rate) : Z :=
  if (rt_bad rt =? 0)%Z then int32 (rt_total rt - rt_count rt) else 0.

(** The limiter after the check, which may reset it, and the answer. *)
Definition rate_check (rt : rate) (now : Z) : rate * bool :=
  (* not tracking *)
  if (rt_time rt =? 0)%Z then (rt, true)
  (* under the limit *)
  else if (rt_count rt <? rt_total rt)%Z then (rt, true)
  (* currently bad *)
  else if negb (rt_bad rt =? 0)%Z then
    if (rt_wait rt <=? now - rt_bad rt)%Z then (rate_reset rt, true) else (rt, false)
  else (rt, true).

(** What every caller does with [k] events at time [now]: how many it lets through. *)
Definition rate_step (rt : rate) (k now : Z) : rate * Z :=
  let '(rt, ok) := rate_check rt now in
  if ok then
    let n := Z.min k (rate_left rt) in
    (rate_add rt n now, n)
  else (rt, 0%Z).

(** The events let through by a run, latest first, each with its time. *)
Fixpoint rate_run (rt : rate) (evs : list (Z * Z)) (hist : list (Z * Z)) : rate * list (Z * Z) :=
  match evs with
  | [] => (rt, hist)
  | (now, k) :: evs =>
    let '(rt, n) := rate_step rt k now in rate_run rt evs ((now, n) :: hist)
  end.

(** How many events of [hist] are later than [x]. *)
Fixpoint passed_after (x : Z) (hist : list (Z * Z)) : Z :=
  match hist with
  | [] => 0
  | (t, n) :: hist => (if x <? t then n else 0) + passed_after x hist
  end%Z.

(** How many are in the interval [x < t <= y]. *)
Definition passed_in (x y : Z) (hist : list (Z * Z)) : Z :=
  (passed_after x hist - passed_after y hist)%Z.

(** ** The window invariant *)

Section window.
Context (total seconds wait : Z).
Hypothesis Htotal : (0 < total < 2 ^ 31)%Z.
Hypothesis Hseconds : (0 <= seconds)%Z.
Hypothesis Hwait : (0 <= wait)%Z.
Notation m := (Z.min seconds wait).

Fixpoint weight (h : list (Z * Z)) : Z :=
  match h with [] => 0 | (_, n) :: h => n + weight h end%Z.

(** [cur] are the events of the window that is open, [prev] the earlier ones. *)
Record window (rt : rate) (now : Z) (cur prev : list (Z * Z)) : Prop := {
  w_total : rt_total rt = total;
  w_seconds : rt_seconds rt = seconds;
  w_wait : rt_wait rt = wait;
  w_now : (0 <= rt_time rt <= now)%Z;
  w_pos : Forall (λ e, 0 <= e.2 ∧ 0 <= e.1)%Z (cur ++ prev);
  w_cur : Forall (λ e, rt_time rt <= e.1 <= now)%Z cur;
  w_prev : rt_time rt ≠ 0%Z → Forall (λ e, e.1 <= rt_time rt)%Z prev;
  w_prev_now : Forall (λ e, e.1 <= now)%Z prev;
  w_count : weight cur = rt_count rt;
  w_count_le : (rt_count rt <= total)%Z;
  w_zero : rt_time rt = 0%Z → cur = [] ∧ rt_bad rt = 0%Z;
  w_bad : rt_bad rt ≠ 0%Z ↔ rt_count rt = total;
  w_bad_cur : rt_bad rt ≠ 0%Z → Forall (λ e, e.2 = 0 ∨ e.1 <= rt_bad rt)%Z cur ∧ (rt_time rt <= rt_bad rt)%Z;
  (* a full earlier window is out of sight of an open one, and of the next *)
  w_before : (passed_after ((if rt_time rt =? 0 then now else rt_time rt) - m) prev < total)%Z
}.

Lemma passed_after_le x h : Forall (λ e, e.2 = 0 ∨ e.1 <= x)%Z h → passed_after x h = 0%Z.
Proof.
  induction h as [|[t n] h IH]; simpl; [done|]. intros [H1 H2]%Forall_cons. simpl in H1.
  rewrite IH by done. destruct (Z.ltb_spec x t); lia.
Qed.

Lemma passed_after_weight x h : Forall (λ e, 0 <= e.2 ∧ 0 <= e.1)%Z h → (0 <= passed_after x h <= weight h)%Z.
Proof.
  induction h as [|[t n] h IH]; simpl; [lia|]. intros [H1 H2]%Forall_cons. simpl in H1.
  specialize (IH H2). destruct (x <? t)%Z; lia.
Qed.

Lemma passed_after_mono x y h :
  Forall (λ e, 0 <= e.2 ∧ 0 <= e.1)%Z h → (x <= y)%Z → (passed_after y h <= passed_after x h)%Z.
Proof.
  induction h as [|[t n] h IH]; simpl; [lia|]. intros [H1 H2]%Forall_cons Hxy. simpl in H1.
  specialize (IH H2 Hxy). destruct (Z.ltb_spec x t), (Z.ltb_spec y t); lia.
Qed.

Lemma passed_after_app x h1 h2 : passed_after x (h1 ++ h2) = (passed_after x h1 + passed_after x h2)%Z.
Proof. induction h1 as [|[t n] h IH]; simpl; lia. Qed.

(** At every moment less than twice the total is in sight. *)
Lemma window_bound rt now cur prev :
  window rt now cur prev → (passed_after (now - m) (cur ++ prev) <= 2 * total - 1)%Z.
Proof.
  intros []. rewrite passed_after_app. apply Forall_app in w_pos0 as [Hc Hp].
  pose proof (passed_after_weight (now - m) _ Hc).
  assert (passed_after (now - m) prev <= passed_after ((if rt_time rt =? 0 then now else rt_time rt) - m) prev)%Z.
  { apply passed_after_mono; [done|]. destruct (rt_time rt =? 0)%Z; lia. }
  lia.
Qed.

Lemma window_new : window (rate_new total seconds wait) 0 [] [].
Proof. split; simpl; try done; lia. Qed.

(** Opening a window at [now] for [n] events. *)
Lemma window_open now n hist :
  (0 < now)%Z → (0 <= n <= total)%Z →
  Forall (λ e, 0 <= e.2 ∧ 0 <= e.1)%Z hist → Forall (λ e, e.1 <= now)%Z hist →
  (passed_after (now - m) hist < total)%Z →
  window (rate_add (rate_new total seconds wait) n now) now [(now, n)] hist.
Proof.
  intros Hnow Hn Hpos Hle Hp.
  assert (rate_add (rate_new total seconds wait) n now =
          Rate total seconds wait now n (if (total <=? n)%Z then now else 0)) as ->.
  { unfold rate_add. destruct (rt_seconds _ <=? _)%Z; simpl; by rewrite int32_id by lia. }
  split; simpl; try done; try lia.
  - constructor; [simpl; lia|done].
  - constructor; [simpl; lia|constructor].
  - destruct (Z.leb_spec total n); lia.
  - destruct (Z.leb_spec total n); intros; [|lia]. split; [|lia]. constructor; [simpl; lia|done].
  - destruct (Z.eqb_spec now 0); [lia|done].
Qed.

Lemma rate_new_eq rt :
  rt_total rt = total → rt_seconds rt = seconds → rt_wait rt = wait →
  rate_reset rt = rate_new total seconds wait.
Proof. destruct rt. simpl. by intros -> -> ->. Qed.

Lemma window_step rt now cur prev now' k :
  window rt now cur prev → (now <= now')%Z → (0 < now')%Z → (0 <= k)%Z →
  ∃ cur' prev', window (rate_step rt k now').1 now' cur' prev' ∧
    cur' ++ prev' = (now', (rate_step rt k now').2) :: cur ++ prev.
Proof.
  intros Hw Hnow Hpos Hk. pose proof Hw as [].
  assert (Forall (λ e, e.1 <= now')%Z (cur ++ prev)) as Hle.
  { apply Forall_app. split; (eapply Forall_impl; [done|]); simpl; intros; lia. }
  unfold rate_step, rate_check.
  destruct (Z.eqb_spec (rt_time rt) 0) as [E0|E0].
  { destruct (w_zero0 E0) as [-> Hb]. simpl in *.
    assert (rt = rate_new total seconds wait) as Ert.
    { destruct rt. simpl in *. subst. done. }
    subst rt. exists [(now', Z.min k total)], prev. unfold rate_left. simpl.
    rewrite Z.sub_0_r, int32_id by lia. split; [|done]. apply window_open; try done; [lia|].
    simpl in w_before0. eapply Z.le_lt_trans; [|exact w_before0]. apply passed_after_mono; [done|]. lia. }
  destruct (Z.ltb_spec (rt_count rt) (rt_total rt)) as [Hlt|Hge].
  { assert (rt_bad rt = 0)%Z as Hb by lia. assert (0 <= rt_count rt)%Z as Hc0.
    { apply Forall_app in w_pos0 as [Hpc _]. pose proof (passed_after_weight 0 _ Hpc). lia. }
    unfold rate_left. rewrite Hb, Z.eqb_refl. rewrite int32_id by lia. simpl.
    set (n := Z.min k _). destruct (Z.leb_spec (rt_seconds rt) (now' - rt_time rt)) as [Hx|Hx].
    - exists [(now', n)], (cur ++ prev). split; [|done].
      replace (rate_add rt n now') with (rate_add (rate_new total seconds wait) n now').
      2:{ unfold rate_add at 2. destruct (Z.leb_spec (rt_seconds rt) (now' - rt_time rt)); [|lia].
          rewrite (rate_new_eq rt) by done. unfold rate_add. by destruct (rt_seconds _ <=? _)%Z. }
      apply window_open; try done; [lia|]. rewrite passed_after_app.
      rewrite (passed_after_le _ prev).
      2:{ eapply Forall_impl; [by apply w_prev0|]. simpl. intros; lia. }
      apply Forall_app in w_pos0 as [Hpc _]. pose proof (passed_after_weight (now' - m) _ Hpc). lia.
    - exists ((now', n) :: cur), prev. split; [|done].
      unfold rate_add. destruct (Z.leb_spec (rt_seconds rt) (now' - rt_time rt)); [lia|].
      destruct (Z.eqb_spec (rt_time rt) 0); [lia|]. rewrite int32_id by lia. rewrite Hb.
      split; simpl; try done; try lia.
      + constructor; [simpl; lia|done].
      + constructor; [simpl; lia|]. eapply Forall_impl; [done|]. simpl. lia.
      + eapply Forall_impl; [done|]. simpl. lia.
      + destruct (Z.leb_spec (rt_total rt) (rt_count rt + n)); lia.
      + destruct (Z.leb_spec (rt_total rt) (rt_count rt + n)); intros; [|lia]. split; [|lia].
        constructor; [simpl; lia|]. eapply Forall_impl; [done|]. simpl. lia.
      + destruct (Z.eqb_spec (rt_time rt) 0); [lia|done]. }
  destruct (Z.eqb_spec (rt_bad rt) 0) as [Hb|Hb]; simpl; [lia|].
  destruct (w_bad_cur0 Hb) as [Hbc Hbt].
  destruct (Z.leb_spec (rt_wait rt) (now' - rt_bad rt)) as [Hwt|Hwt].
  - rewrite (rate_new_eq rt) by done. exists [(now', Z.min k total)], (cur ++ prev).
    unfold rate_left. simpl. rewrite Z.sub_0_r, int32_id by lia. split; [|done].
    apply window_open; try done; [lia|]. rewrite passed_after_le; [lia|].
    apply Forall_app. split.
    + eapply Forall_impl; [done|]. simpl. lia.
    + eapply Forall_impl; [by apply w_prev0|]. simpl. lia.
  - exists ((now', 0%Z) :: cur), prev. split; [|done]. split; simpl; try done; try lia.
    + constructor; [simpl; lia|done].
    + constructor; [simpl; lia|]. eapply Forall_impl; [exact w_cur0|]. simpl. lia.
    + eapply Forall_impl; [done|]. simpl. lia.
    + intros _. split; [|done]. constructor; [by left|]. done.
    + destruct (Z.eqb_spec (rt_time rt) 0); [lia|done].
Qed.

(** Times that do not decrease, from [now] on. *)
Fixpoint timed (now : Z) (evs : list (Z * Z)) : Prop :=
  match evs with
  | [] => True
  | (t, k) :: evs => (now <= t)%Z ∧ (0 < t)%Z ∧ (0 <= k)%Z ∧ timed t evs
  end.

Lemma window_run rt now cur prev evs :
  window rt now cur prev → timed now evs →
  (∀ h1 e h2, cur ++ prev = h1 ++ e :: h2 → passed_after (e.1 - m) (e :: h2) <= 2 * total - 1)%Z →
  ∀ h1 e h2, (rate_run rt evs (cur ++ prev)).2 = h1 ++ e :: h2 →
    (passed_after (e.1 - m) (e :: h2) <= 2 * total - 1)%Z.
Proof.
  revert rt now cur prev. induction evs as [|[t k] evs IH]; intros rt now cur prev Hw Ht Hin; [done|].
  destruct Ht as (H1 & H2 & H3 & Ht). simpl.
  destruct (window_step rt now cur prev t k Hw H1 H2 H3) as (cur' & prev' & Hw' & E).
  destruct (rate_step rt k t) as [rt' n] eqn:Es. simpl in Hw', E. rewrite <- E. apply (IH _ t); try done.
  intros h1 e h2 Ee. destruct h1 as [|e1 h1].
  - pose proof (window_bound _ _ _ _ Hw') as Hb. rewrite Ee in Hb, E. injection E as -> ->. done.
  - rewrite Ee in E. injection E as -> E. by eapply Hin.
Qed.
End window.

(** ** Properties *)

(** Used the way its callers use it, the limiter never lets [2 * total] events through in an
    interval shorter than both the window and the wait: for every admission, the events admitted
    up to it in the last [min seconds wait] seconds number at most [2 * total - 1]. *)
Theorem rate_limit_bound total seconds wait evs h1 e h2 :
  (0 < total < 2 ^ 31)%Z → (0 <= seconds)%Z → (0 <= wait)%Z → timed 0 evs →
  (rate_run (rate_new total seconds wait) evs []).2 = h1 ++ e :: h2 →
  (passed_after (e.1 - Z.min seconds wait) (e :: h2) <= 2 * total - 1)%Z.
Proof.
  intros Ht Hs Hw Hev.
  apply (window_run total seconds wait Ht _ 0 [] [] evs (window_new total seconds wait Ht) Hev).
  intros [|]; done.
Qed.

Lemma rate_limit_bound_witness :
  (passed_after (9 - 5) [(9, 2); (8, 1); (6, 1); (2, 1)] <= 2 * 3 - 1)%Z.
Proof.
  apply (rate_limit_bound 3 5 5 [(2, 1); (6, 1); (8, 2); (9, 7)]%Z [] (9, 2)%Z [(8, 1); (6, 1); (2, 1)]%Z);
    [lia|lia|lia|simpl; lia|vm_compute; reflexivity].
Defined.
