(* ===== verification/Str.v ===== *)
(** * The string functions of util/str.c

    NULL-tolerant comparisons, [j_atoi] and [j_attr], the string spools, and
    the escaping of the five XML specials.  [strunescape] writes into a fresh
    buffer whose bytes are indeterminate until written: its result is a list
    of [option ascii], [None] for a byte that was never written. *)
From S2P Require Import Prelude.
From S2P Require Import CStr.

(** ** Comparisons and conversions *)

(** The loop of [j_strcmp] on two strings. *)
Fixpoint strcmp_loop (a b : string) : Z :=
  match a, b with
  | EmptyString, EmptyString => 0
  | String c a, String d b => if bool_decide (c = d ∧ c ≠ nul) then strcmp_loop a b
                              else if bool_decide (c = d) then 0 else -1
  | String c _, EmptyString => if bool_decide (c = nul) then 0 else -1
  | EmptyString, String d _ => if bool_decide (d = nul) then 0 else -1
  end%Z.

Definition j_strcmp (a b : option string) : Z :=
  match a, b with
  | Some a, Some b => strcmp_loop a b
  | _, _ => (-1)%Z
  end.

Definition j_strlen (a : option string) : Z :=
  match a with None => 0 | Some a => strlen a end.

(** [strncmp(a, b, i) == 0] behind the NULL test. *)
Definition j_strncmp_eq (a b : option string) (i : nat) : bool :=
  match a, b with
  | Some a, Some b => strncmp_eq i a b
  | _, _ => false
  end.

(** atoi of the C library: blanks, a sign, digits, through a 64-bit [long]. *)
Definition isspace (c : ascii) : bool := (uchar c =? 32)%Z || ((9 <=? uchar c) && (uchar c <=? 13))%Z.
Definition isdigit (c : ascii) : bool := ((48 <=? uchar c) && (uchar c <=? 57))%Z.

Fixpoint skip_spaces (s : string) : string :=
  match s with
  | String c s' => if isspace c then skip_spaces s' else s
  | EmptyString => EmptyString
  end.

Fixpoint digits (acc : Z) (s : string) : Z :=
  match s with
  | String c s => if isdigit c then digits (acc * 10 + (uchar c - 48)) s else acc
  | EmptyString => acc
  end%Z.

Definition atoi (s : string) : Z :=
  let s := skip_spaces s in
  let v := match s with
           | String "-" s => (- digits 0 s)%Z
           | String "+" s => digits 0 s
           | _ => digits 0 s
           end in
  int32 (Z.max (- 2 ^ 63) (Z.min (2 ^ 63 - 1) v)).

Definition j_atoi (a : option string) (def : Z) : Z :=
  match a with None => def | Some a => atoi a end.

(** The attributes are an array of names and values in turn, ended by NULL. *)
Fixpoint j_attr (atts : list (option string)) (attr : option string) : option string :=
  match atts with
  | Some n :: v :: atts => if (j_strcmp (Some n) attr =? 0)%Z then v else j_attr atts attr
  | _ => None
  end.

(** The index of the first [c] among the first [n] characters. *)
Fixpoint j_strnchr (s : string) (c : ascii) (n : nat) : option nat :=
  match n, s with
  | S n, String d s => if bool_decide (d = c) then Some 0 else S <$> j_strnchr s c n
  | _, _ => None
  end.

(** ** Escaping *)

(** What the first loop of [strescape] adds to [newlen] for a character. *)
Definition esc_growth (c : ascii) : Z :=
  if bool_decide (c = "&"%char) then 5
  else if bool_decide (c = "'"%char) then 6
  else if bool_decide (c = ascii_of_nat 34) then 6
  else if bool_decide (c = "<"%char) then 4
  else if bool_decide (c = ">"%char) then 4
  else 0.

Fixpoint esc_newlen (newlen : Z) (buf : string) : Z :=
  match buf with
  | EmptyString => newlen
  | String c buf => esc_newlen (int32 (newlen + esc_growth c)) buf
  end.

Definition ent_quot : string := "&quot;".

(** What its second loop writes for a character. *)
Definition esc_char (c : ascii) : string :=
  if bool_decide (c = "&"%char) then "&amp;"
  else if bool_decide (c = "'"%char) then "&apos;"
  else if bool_decide (c = ascii_of_nat 34) then ent_quot
  else if bool_decide (c = "<"%char) then "&lt;"
  else if bool_decide (c = ">"%char) then "&gt;"
  else String c EmptyString.

Fixpoint esc_loop (buf : string) : string :=
  match buf with
  | EmptyString => EmptyString
  | String c buf => esc_char c +:+ esc_loop buf
  end.

(** [buf] is a buffer of at least [len] characters; the result is the buffer
    written, with the size it was allocated. *)
Definition strescape (buf : option string) (len : Z) : option (string * Z) :=
  match buf with
  | None => None
  | Some buf =>
    if (len <? 0)%Z then None else
    let buf := stake (Z.to_nat len) buf in
    let newlen := esc_newlen len buf in
    if (newlen =? len)%Z then Some (buf, newlen + 1)%Z
    else Some (esc_loop buf, newlen + 1)%Z
  end.

(** The loop of [strunescape]: an unknown entity leaves [temp[j]] unwritten. *)
Fixpoint unesc_loop (fuel : nat) (buf : string) : list (option ascii) :=
  match fuel, buf with
  | S f, String c rest =>
    if bool_decide (c = "&"%char) then
      if strncmp_eq 5 buf "&amp;" then Some "&"%char :: unesc_loop f (sdrop 5 buf)
      else if strncmp_eq 6 buf ent_quot then Some (ascii_of_nat 34) :: unesc_loop f (sdrop 6 buf)
      else if strncmp_eq 6 buf "&apos;" then Some "'"%char :: unesc_loop f (sdrop 6 buf)
      else if strncmp_eq 4 buf "&lt;" then Some "<"%char :: unesc_loop f (sdrop 4 buf)
      else if strncmp_eq 4 buf "&gt;" then Some ">"%char :: unesc_loop f (sdrop 4 buf)
      else None :: unesc_loop f rest
    else Some c :: unesc_loop f rest
  | _, _ => []
  end.

Definition chars (s : string) : list (option ascii) := Some <$> String.list_ascii_of_string s.

Definition strunescape (buf : option string) : option (list (option ascii)) :=
  match buf with
  | None => None
  | Some buf =>
    match split_at "&" buf with
    | None => Some (chars buf)
    | Some _ => Some (unesc_loop (String.length buf) buf)
    end
  end.

(** ** Spools *)

(** [struct spool_struct]: the strings in the order they were added, and their total length. *)
Record spool := Spool { sp_nodes : list string; sp_len : Z }.

Definition spool_new : spool := Spool [] 0.

Definition _spool_add (s : spool) (goodstr : string) : spool :=
  Spool (sp_nodes s ++ [goodstr]) (sp_len s + strlen goodstr).

Definition spool_add (s : spool) (str : option string) : spool :=
  match str with
  | None => s
  | Some str => if (strlen str =? 0)%Z then s else _spool_add s str
  end.

Definition spool_escape (s : spool) (raw : option string) (len : Z) : spool :=
  match raw with
  | None => s
  | Some _ => if (len <=? 0)%Z then s else
              match strescape raw len with Some (e, _) => _spool_add s e | None => s end
  end.

(** The variable arguments, up to the end flag. *)
Definition spooler (s : spool) (args : list (option string)) : spool := foldl spool_add s args.

Definition spool_print (s : spool) : option string :=
  if (sp_len s =? 0)%Z then None
  else match sp_nodes s with
       | [] => None
       | _ => Some (foldl String.append EmptyString (sp_nodes s))
       end.

Definition spools (args : list (option string)) : option string :=
  spool_print (spooler spool_new args).

(** ** Lemmas *)

Lemma strcmp_loop_eq a b : no_nul a → no_nul b → strcmp_loop a b = 0%Z ↔ a = b.
Proof.
  revert b. induction a as [|c a IH]; intros [|d b]; simpl; [done|..].
  - intros _ [Hd _]%Is_true_true%no_nul_cons. by rewrite bool_decide_false.
  - intros [Hc _]%Is_true_true%no_nul_cons _. by rewrite bool_decide_false.
  - intros [Hc Ha]%Is_true_true%no_nul_cons [Hd Hb]%Is_true_true%no_nul_cons.
    destruct (decide (c = d)) as [->|Hne].
    + rewrite bool_decide_true by done. rewrite IH by auto. naive_solver congruence.
    + rewrite bool_decide_false by tauto. rewrite bool_decide_false by done. naive_solver congruence.
Qed.

Lemma j_strcmp_eq a b : no_nul a → no_nul b → j_strcmp (Some a) (Some b) = 0%Z ↔ a = b.
Proof. apply strcmp_loop_eq. Qed.

Lemma unesc_esc_char c f rest :
  c ≠ nul → unesc_loop (S f) (esc_char c +:+ rest) =
    Some c :: unesc_loop f rest.
Proof.
  intros Hc. unfold esc_char.
  repeat (case_bool_decide; [subst; simpl; reflexivity|]).
  simpl. by rewrite bool_decide_false.
Qed.

Lemma unesc_esc_loop s f :
  no_nul s → String.length (esc_loop s) ≤ f → unesc_loop f (esc_loop s) = chars s.
Proof.
  revert f. induction s as [|c s IH]; intros f; simpl; [by destruct f|].
  intros [Hc Hs]%Is_true_true%no_nul_cons Hf. rewrite sapp_length in Hf.
  assert (1 ≤ String.length (esc_char c)).
  { unfold esc_char, ent_quot. repeat case_bool_decide; cbn [String.length]; lia. }
  destruct f as [|f]; [lia|]. rewrite unesc_esc_char by done.
  unfold chars. simpl. f_equal. apply IH; [by rewrite Hs|lia].
Qed.

Lemma esc_growth_length c : (Z.of_nat (String.length (esc_char c)) <= 1 + esc_growth c)%Z ∧ (0 <= esc_growth c <= 6)%Z.
Proof. unfold esc_growth, esc_char, ent_quot. repeat case_bool_decide; cbn [String.length]; lia. Qed.

Lemma esc_newlen_spec n s :
  (0 <= n)%Z → (n + 6 * strlen s < 2 ^ 31)%Z →
  (n + Z.of_nat (String.length (esc_loop s)) - strlen s <= esc_newlen n s)%Z ∧ (n <= esc_newlen n s)%Z ∧
  (esc_newlen n s = n → esc_loop s = s).
Proof.
  unfold strlen. revert n. induction s as [|c s IH]; intros n Hn Hl; cbn [esc_newlen esc_loop String.length] in *; [split_and!; [lia|lia|done]|].
  pose proof (esc_growth_length c). rewrite int32_id by lia.
  destruct (IH (n + esc_growth c)%Z) as (H1 & H2 & H3); [lia..|].
  rewrite sapp_length. split; [lia|]. split; [lia|]. intros E.
  assert (esc_growth c = 0)%Z as E0 by lia. rewrite H3 by lia. clear -E0.
  unfold esc_growth, esc_char in *. repeat case_bool_decide; done.
Qed.

Lemma esc_char_clean c d : d ∈ ["'"; "<"; ">"; ascii_of_nat 34]%char → free_of d (esc_char c).
Proof.
  intros Hd. unfold esc_char. repeat (case_bool_decide; [subst; set_unfold; naive_solver|]).
  simpl. rewrite bool_decide_false; [done|]. intros ->. set_unfold. naive_solver.
Qed.

Lemma esc_loop_clean s d : d ∈ ["'"; "<"; ">"; ascii_of_nat 34]%char → free_of d (esc_loop s).
Proof.
  intros Hd. induction s as [|c s IH]; simpl; [done|]. rewrite free_of_app. apply andb_True.
  split; [by apply esc_char_clean|done].
Qed.

Lemma esc_loop_free s : free_of "&" (esc_loop s) → esc_loop s = s.
Proof.
  induction s as [|c s IH]; [done|]. simpl. rewrite free_of_app. intros [Hc Hs]%andb_True.
  rewrite IH by done. unfold esc_char in *. by repeat (case_bool_decide; [subst; by vm_compute in Hc|]).
Qed.

Lemma foldl_append s l : foldl String.append s l = s +:+ foldl String.append EmptyString l.
Proof.
  revert s. induction l as [|x l IH]; intros s; simpl; [by rewrite sapp_nil_r|].
  rewrite IH, (IH x). by rewrite sapp_assoc.
Qed.

Lemma spool_add_cat s x :
  foldl String.append EmptyString (sp_nodes (spool_add s x)) =
  foldl String.append EmptyString (sp_nodes s) +:+ default EmptyString x.
Proof.
  destruct x as [x|]; simpl; [|by rewrite sapp_nil_r].
  destruct (Z.eqb_spec (strlen x) 0) as [E|_].
  - destruct x; [by rewrite sapp_nil_r|]. unfold strlen in E. simpl in E. lia.
  - simpl. by rewrite foldl_app.
Qed.

(** The length kept in a spool is that of its text. *)
Definition spool_wf (s : spool) : Prop :=
  sp_len s = strlen (foldl String.append EmptyString (sp_nodes s)).

Lemma spool_add_wf s x : spool_wf s → spool_wf (spool_add s x).
Proof.
  unfold spool_wf. rewrite spool_add_cat. intros Hs. destruct x as [x|]; simpl; [|by rewrite sapp_nil_r].
  unfold strlen in *. rewrite sapp_length. destruct (Z.eqb_spec (Z.of_nat (String.length x)) 0); simpl; [lia|].
  rewrite Hs. unfold strlen. lia.
Qed.

Lemma spooler_cat args s :
  spool_wf s → spool_wf (spooler s args) ∧
  foldl String.append EmptyString (sp_nodes (spooler s args)) =
  foldl String.append (foldl String.append EmptyString (sp_nodes s)) (default EmptyString <$> args).
Proof.
  unfold spooler. revert s. induction args as [|x args IH]; intros s Hs; simpl; [done|].
  destruct (IH (spool_add s x) (spool_add_wf _ _ Hs)) as [H1 H2].
  split; [done|]. by rewrite H2, spool_add_cat.
Qed.

(** ** Properties *)

(** Unescaping what was escaped gives the text back, for every C string that fits: the
    buffer allocated holds the escaped text and its NUL, no quote and no angle bracket is left
    in it, and every byte of the unescaped buffer has been written. *)
Theorem strescape_roundtrip s :
  no_nul s → (7 * strlen s < 2 ^ 31)%Z →
  ∃ out size, strescape (Some s) (strlen s) = Some (out, size) ∧ (strlen out < size)%Z ∧
    (∀ d, d ∈ ["'"; "<"; ">"; ascii_of_nat 34]%char → free_of d out) ∧
    strunescape (Some out) = Some (chars s).
Proof.
  intros Hs Hl. pose proof (strlen_nonneg s) as H0.
  destruct (esc_newlen_spec (strlen s) s) as (H1 & H2 & H3); [lia..|].
  assert (∀ d, d ∈ ["'"; "<"; ">"; ascii_of_nat 34]%char → free_of d (esc_loop s)) as Hcl.
  { intros d. apply esc_loop_clean. }
  exists (esc_loop s), (esc_newlen (strlen s) s + 1)%Z. unfold strescape.
  destruct (Z.ltb_spec (strlen s) 0); [lia|]. 
  assert (stake (Z.to_nat (strlen s)) s = s) as -> by (unfold strlen; rewrite Nat2Z.id; apply stake_all).
  split_and!; [|unfold strlen in *; lia|done|].
  - destruct (Z.eqb_spec (esc_newlen (strlen s) s) (strlen s)) as [E|E]; [|done].
    by rewrite (H3 E).
  - simpl. destruct (split_at "&" (esc_loop s)) eqn:Es; f_equal; [by apply unesc_esc_loop|].
    apply split_at_None in Es. by rewrite (esc_loop_free s).
Qed.

Lemma strescape_roundtrip_witness :
  ∃ out size, strescape (Some "a<b & 'c'>") (strlen "a<b & 'c'>") = Some (out, size) ∧ (strlen out < size)%Z ∧
    (∀ d, d ∈ ["'"; "<"; ">"; ascii_of_nat 34]%char → free_of d out) ∧
    strunescape (Some out) = Some (chars "a<b & 'c'>").
Proof. apply (strescape_roundtrip "a<b & 'c'>"); [vm_compute; done|vm_compute; done]. Defined.

(** An entity that is not one of the five advances the output without writing to it: the
    byte of the result where it stood was never initialised. *)
Theorem strunescape_unknown_entity :
  strunescape (Some "x&eacute;") = Some (Some "x"%char :: None :: chars "eacute;").
Proof. reflexivity. Qed.

(** [spools] gives the concatenation of its arguments, the NULL ones left out, and NULL
    when there is nothing in them. *)
Theorem spools_concat args :
  spools args = let s := foldl String.append EmptyString (default EmptyString <$> args) in
                if String.eqb s EmptyString then None else Some s.
Proof.
  unfold spools, spool_print. destruct (spooler_cat args spool_new) as [H1 H2]; [done|].
  set (sp := spooler spool_new args) in *. cbv zeta.
  replace (foldl String.append EmptyString (default EmptyString <$> args)) with (foldl String.append EmptyString (sp_nodes sp)) by exact H2.
  rewrite H1. unfold strlen. destruct (sp_nodes sp) as [|x l] eqn:E; [done|].
  destruct (foldl String.append EmptyString (x :: l)) eqn:Ef; [done|]. simpl. done.
Qed.
