(* ===== verification/Codec.v ===== *)
(** * Encodings: util/hex.c, util/serial.c and util/base64.c

    Bytes are integers from 0 to 255.  The serialisation buffer is the list of
    its characters; what [realloc] adds to it is indeterminate, a parameter of
    the section.  util/base64.c is modelled as it is built without OpenSSL; the
    other branch only calls that library. *)
From S2P Require Import Prelude.
From S2P Require Import CStr.

Notation bytes := (list Z) (only parsing).
Definition is_byte (b : Z) : Prop := (0 <= b < 256)%Z.

(** ** util/hex.c *)

Definition hex_char (n : Z) : ascii :=
  char_of (if ((0 <=? n) && (n <=? 9))%Z then n + 0x30 else n + 0x57).

Fixpoint hex_from_raw (inp : bytes) : string :=
  match inp with
  | [] => EmptyString
  | b :: inp =>
    let h := Z.shiftr (Z.land b 0xf0) 4 in
    let l := Z.land b 0x0f in
    String (hex_char h) (String (hex_char l) (hex_from_raw inp))
  end.

Definition in_range (z a b : Z) : bool := ((a <=? z) && (z <=? b))%Z.

Definition hex_digit (c : ascii) : Z :=
  let z := uchar c in
  if in_range z 0x30 0x39 then z - 0x30
  else if in_range z 0x41 0x64 then z - 0x36
  else if in_range z 0x61 0x66 then z - 0x56
  else -1.

Fixpoint hex_loop (inp : string) : option bytes :=
  match inp with
  | String a (String b inp) =>
    let h := hex_digit a in
    let l := hex_digit b in
    if ((h <? 0) || (l <? 0))%Z then None
    else out ← hex_loop inp; Some ((Z.shiftl h 4 + l) `mod` 256 :: out)%Z
  | _ => Some []
  end.

(** [None] is the return value 1. *)
Definition hex_to_raw (inp : string) (inlen : Z) : option bytes :=
  if ((inlen =? 0) || negb (inlen / 2 * 2 =? inlen))%Z then None
  else hex_loop (stake (Z.to_nat inlen) inp).

(** ** util/base64.c *)

Definition pr2six_table : list Z := [
   64; 64; 64; 64; 64; 64; 64; 64; 64; 64; 64; 64; 64; 64; 64; 64;
   64; 64; 64; 64; 64; 64; 64; 64; 64; 64; 64; 64; 64; 64; 64; 64;
   64; 64; 64; 64; 64; 64; 64; 64; 64; 64; 64; 62; 64; 64; 64; 63;
   52; 53; 54; 55; 56; 57; 58; 59; 60; 61; 64; 64; 64; 64; 64; 64;
   64;  0;  1;  2;  3;  4;  5;  6;  7;  8;  9; 10; 11; 12; 13; 14;
   15; 16; 17; 18; 19; 20; 21; 22; 23; 24; 25; 64; 64; 64; 64; 64;
   64; 26; 27; 28; 29; 30; 31; 32; 33; 34; 35; 36; 37; 38; 39; 40;
   41; 42; 43; 44; 45; 46; 47; 48; 49; 50; 51; 64; 64; 64; 64; 64;
   64; 64; 64; 64; 64; 64; 64; 64; 64; 64; 64; 64; 64; 64; 64; 64;
   64; 64; 64; 64; 64; 64; 64; 64; 64; 64; 64; 64; 64; 64; 64; 64;
   64; 64; 64; 64; 64; 64; 64; 64; 64; 64; 64; 64; 64; 64; 64; 64;
   64; 64; 64; 64; 64; 64; 64; 64; 64; 64; 64; 64; 64; 64; 64; 64;
   64; 64; 64; 64; 64; 64; 64; 64; 64; 64; 64; 64; 64; 64; 64; 64;
   64; 64; 64; 64; 64; 64; 64; 64; 64; 64; 64; 64; 64; 64; 64; 64;
   64; 64; 64; 64; 64; 64; 64; 64; 64; 64; 64; 64; 64; 64; 64; 64;
   64; 64; 64; 64; 64; 64; 64; 64; 64; 64; 64; 64; 64; 64; 64; 64]%Z.

Definition pr2six (c : ascii) : Z := nth (Z.to_nat (uchar c)) pr2six_table 64%Z.

Definition basis_64 : string :=
  "ABCDEFGHIJKLMNOPQRSTUVWXYZabcdefghijklmnopqrstuvwxyz0123456789+/".

Definition basis (i : Z) : ascii := default nul (String.get (Z.to_nat i) basis_64).

(** The leading characters that are in the alphabet, of the first [buflen]: [nprbytes]. *)
Fixpoint nprbytes (bufcoded : string) (buflen : nat) : nat :=
  match bufcoded, buflen with
  | String c rest, S n => if (pr2six c <=? 63)%Z then S (nprbytes rest n) else 0
  | _, _ => 0
  end.

Definition apr_base64_decode_len (bufcoded : string) (buflen : nat) : Z :=
  ((Z.of_nat (nprbytes bufcoded buflen) + 3) / 4 * 3 + 1)%Z.

Definition dec1 (a b : Z) : Z := Z.land (Z.lor (Z.shiftl a 2) (Z.shiftr b 4)) 255.
Definition dec2 (a b : Z) : Z := Z.land (Z.lor (Z.shiftl a 4) (Z.shiftr b 2)) 255.
Definition dec3 (a b : Z) : Z := Z.land (Z.lor (Z.shiftl a 6) b) 255.

(** The loop and the tail of [apr_base64_decode_binary], on the sextets. *)
Fixpoint decode_loop (six : list Z) : bytes :=
  match six with
  | a :: b :: c :: d :: (_ :: _) as rest => dec1 a b :: dec2 b c :: dec3 c d :: decode_loop rest
  | [a; b; c; d] => [dec1 a b; dec2 b c; dec3 c d]
  | [a; b; c] => [dec1 a b; dec2 b c]
  | [a; b] => [dec1 a b]
  | _ => []
  end.

(** The bytes written and the value returned. *)
Definition apr_base64_decode_binary (bufcoded : string) (buflen : nat) : bytes * Z :=
  let n := nprbytes bufcoded buflen in
  let six := pr2six <$> String.list_ascii_of_string (stake n bufcoded) in
  (decode_loop six, (Z.of_nat n + 3) / 4 * 3 - Z.land (4 - Z.of_nat n) 3)%Z.

Definition apr_base64_encode_len (len : Z) : Z := ((len + 2) / 3 * 4 + 1)%Z.

Fixpoint apr_base64_encode_binary (inp : bytes) : string :=
  match inp with
  | a :: b :: c :: inp =>
    String (basis (Z.land (Z.shiftr a 2) 0x3F))
    (String (basis (Z.lor (Z.shiftl (Z.land a 0x3) 4) (Z.shiftr (Z.land b 0xF0) 4)))
    (String (basis (Z.lor (Z.shiftl (Z.land b 0xF) 2) (Z.shiftr (Z.land c 0xC0) 6)))
    (String (basis (Z.land c 0x3F)) (apr_base64_encode_binary inp))))
  | [a; b] =>
    String (basis (Z.land (Z.shiftr a 2) 0x3F))
    (String (basis (Z.lor (Z.shiftl (Z.land a 0x3) 4) (Z.shiftr (Z.land b 0xF0) 4)))
    (String (basis (Z.shiftl (Z.land b 0xF) 2)) "="))
  | [a] =>
    String (basis (Z.land (Z.shiftr a 2) 0x3F))
    (String (basis (Z.shiftl (Z.land a 0x3) 4)) "==")
  | [] => EmptyString
  end.

Definition b64_encode (buf : bytes) : string := apr_base64_encode_binary buf.

(** The text in the buffer returned: the bytes decoded, up to [bufplain[len] = 0]. *)
Definition b64_decode (buf : string) : bytes :=
  let '(out, len) := apr_base64_decode_binary buf (String.length buf) in take (Z.to_nat len) out.

(** ** util/serial.c *)

Section serial.
(** What newly allocated memory holds at an offset. *)
Context (junk : nat → ascii).

Definition BLOCKSIZE : Z := 1024.

Record serbuf := SerBuf { sb_buf : list ascii; sb_dest : Z; sb_len : Z }.

Definition _ser_realloc (buf : list ascii) (len : Z) : list ascii * Z :=
  let nlen := (((len - 1) / BLOCKSIZE + 1) * BLOCKSIZE)%Z in
  (take (Z.to_nat nlen) buf ++ (junk <$> seq (length buf) (Z.to_nat nlen - length buf)), nlen).

(** [SER_SAFE] *)
Definition ser_safe (sb : serbuf) (size : Z) : list ascii * Z :=
  if (sb_len sb <? size)%Z then _ser_realloc (sb_buf sb) size else (sb_buf sb, sb_len sb).

(** Storing [data] at an offset of a buffer. *)
Definition write_at (off : nat) (data buf : list ascii) : list ascii :=
  take off buf ++ data ++ drop (off + length data) buf.

Definition ser_string_set (source : string) (sb : serbuf) : serbuf :=
  let need := int32 (strlen source + 1) in
  let '(buf, len) := ser_safe sb (int32 (sb_dest sb + need)) in
  SerBuf (write_at (Z.to_nat (sb_dest sb)) (String.list_ascii_of_string source ++ [nul]) buf)
         (int32 (sb_dest sb + need)) len.

(** The bytes of an [int], lowest first. *)
Definition int_bytes (i : Z) : list ascii :=
  (λ k, char_of (Z.land (Z.shiftr i (8 * k)) 255)) <$> [0; 1; 2; 3]%Z.

Definition ser_int_set (source : Z) (sb : serbuf) : serbuf :=
  let '(buf, len) := ser_safe sb (sb_dest sb + 4) in
  SerBuf (write_at (Z.to_nat (sb_dest sb)) (int_bytes source) buf) (int32 (sb_dest sb + 4)) len.

(** The characters before the first NUL: [strdup]. *)
Fixpoint cstr_of (l : list ascii) : string :=
  match l with
  | [] => EmptyString
  | c :: l => if bool_decide (c = nul) then EmptyString else String c (cstr_of l)
  end.

(** [None] is the return value 1; otherwise the string and the new position. *)
Definition ser_string_get (source : Z) (buf : list ascii) (len : Z) : option (string * Z) :=
  let view := drop (Z.to_nat source) (take (Z.to_nat len) buf) in
  if bool_decide (nul ∈ view) then
    let s := cstr_of view in Some (s, source + strlen s + 1)%Z
  else None.

Definition int_of_bytes (l : list ascii) : Z :=
  int32 (foldr (λ c acc, uchar c + 256 * acc)%Z 0%Z l).

Definition ser_int_get (source : Z) (buf : list ascii) (len : Z) : option (Z * Z) :=
  if (len <? source + 4)%Z then None
  else Some (int_of_bytes (take 4 (drop (Z.to_nat source) buf)), source + 4)%Z.

(** A record of strings and integers, written and read in order. *)
Inductive field := FStr (s : string) | FInt (i : Z).

Definition set_field (sb : serbuf) (f : field) : serbuf :=
  match f with FStr s => ser_string_set s sb | FInt i => ser_int_set i sb end.

Definition get_field (f : field) (source : Z) (buf : list ascii) (len : Z) : option (field * Z) :=
  match f with
  | FStr _ => '(s, p) ← ser_string_get source buf len; Some (FStr s, p)
  | FInt _ => '(i, p) ← ser_int_get source buf len; Some (FInt i, p)
  end.

(** Reading fields of the same shape as [fs]. *)
Fixpoint get_fields (fs : list field) (source : Z) (buf : list ascii) (len : Z) : option (list field * Z) :=
  match fs with
  | [] => Some ([], source)
  | f :: fs =>
    '(g, p) ← get_field f source buf len;
    '(gs, q) ← get_fields fs p buf len;
    Some (g :: gs, q)
  end.
End serial.

(** ** Lemmas: hexadecimal *)

Lemma byte_forall (P : Z → bool) : forallb P (Z.of_nat <$> seq 0 256) = true → ∀ b, is_byte b → P b = true.
Proof.
  rewrite forallb_forall. intros H b Hb. apply H. apply list_elem_of_In, list_elem_of_fmap.
  exists (Z.to_nat b). unfold is_byte in Hb. split; [lia|]. apply elem_of_seq. lia.
Qed.

Definition decimal_nibbles (b : Z) : bool := ((b `mod` 16 <=? 9) && (b / 16 <=? 9))%Z.

(** The two digits of a byte are read back as that byte exactly when both are decimal. *)
Lemma hex_byte b : is_byte b →
  let h := hex_digit (hex_char (Z.shiftr (Z.land b 0xf0) 4)) in
  let l := hex_digit (hex_char (Z.land b 0x0f)) in
  (0 <= h ∧ 0 <= l)%Z ∧ ((Z.shiftl h 4 + l) `mod` 256 = b ↔ decimal_nibbles b = true)%Z.
Proof.
  intros Hb.
  pose proof (byte_forall (λ b,
    let h := hex_digit (hex_char (Z.shiftr (Z.land b 0xf0) 4)) in
    let l := hex_digit (hex_char (Z.land b 0x0f)) in
    ((0 <=? h) && (0 <=? l) && Bool.eqb ((Z.shiftl h 4 + l) `mod` 256 =? b) (decimal_nibbles b))%Z)
    ltac:(vm_compute; reflexivity) b Hb) as H.
  cbv zeta in H. rewrite !andb_true_iff, eqb_true_iff in H. destruct H as [[H1 H2] H3]. cbv zeta.
  split; [lia|]. rewrite <- H3. lia.
Qed.

Lemma hex_char_no_nul n : (0 <= n < 16)%Z → hex_char n ≠ nul.
Proof.
  intros Hn E. assert (uchar (hex_char n) = uchar nul) as E' by (by rewrite E). unfold hex_char in E'.
  destruct ((0 <=? n) && (n <=? 9))%Z; rewrite uchar_char_of in E' by lia; change (uchar nul) with 0%Z in E'; lia.
Qed.
Lemma hex_no_nul l : no_nul (hex_from_raw l).
Proof.
  induction l as [|b l IH]; [done|]. cbn [hex_from_raw].
  assert (∀ z, 0 <= Z.land z 15 < 16)%Z as Hl.
  { intros z. change 15%Z with (Z.ones 4). rewrite Z.land_ones by lia. apply Z.mod_pos_bound. lia. }
  apply Is_true_eq_left, no_nul_cons. split.
  - apply hex_char_no_nul. rewrite Z.shiftr_land. apply Hl.
  - apply no_nul_cons. split; [apply hex_char_no_nul, Hl|by apply Is_true_eq_true].
Qed.

Lemma hex_from_raw_length l : String.length (hex_from_raw l) = 2 * length l.
Proof. induction l; cbn [hex_from_raw String.length length]; lia. Qed.

Lemma hex_loop_from_raw l : Forall is_byte l →
  ∃ out, hex_loop (hex_from_raw l) = Some out ∧ (out = l ↔ Forall (λ b, decimal_nibbles b = true) l).
Proof.
  induction 1 as [|b l Hb Hl (out & E & IH)]; [by exists []|]. cbn [hex_from_raw hex_loop].
  destruct (hex_byte b Hb) as [[H1 H2] H3]. rewrite E.
  destruct (Z.ltb_spec (hex_digit (hex_char (Z.shiftr (Z.land b 0xf0) 4))) 0); [lia|].
  destruct (Z.ltb_spec (hex_digit (hex_char (Z.land b 0x0f))) 0); [lia|]. simpl.
  eexists. split; [done|]. rewrite Forall_cons, <- IH, <- H3. naive_solver congruence.
Qed.

(** ** Lemmas: base64 *)

Definition is_six (s : Z) : Prop := (0 <= s < 64)%Z.

Lemma six_forall (P : Z → bool) : forallb P (Z.of_nat <$> seq 0 64) = true → ∀ s, is_six s → P s = true.
Proof.
  rewrite forallb_forall. intros H b Hb. apply H. apply list_elem_of_In, list_elem_of_fmap.
  exists (Z.to_nat b). unfold is_six in Hb. split; [lia|]. apply elem_of_seq. lia.
Qed.

Lemma six_forall2 (P : Z → Z → bool) :
  forallb (λ s, forallb (P s) (Z.of_nat <$> seq 0 64)) (Z.of_nat <$> seq 0 64) = true →
  ∀ s t, is_six s → is_six t → P s t = true.
Proof. intros H s t Hs Ht. by apply (six_forall (P s) (six_forall _ H s Hs)). Qed.

Lemma pr2six_basis s : is_six s → pr2six (basis s) = s.
Proof.
  intros Hs. apply Z.eqb_eq. revert s Hs. apply (six_forall (λ s, pr2six (basis s) =? s)%Z). vm_compute. reflexivity.
Qed.

Lemma pr2six_pad : pr2six "=" = 64%Z.
Proof. reflexivity. Qed.

(** The bit operations on one byte, and on two sextets, as arithmetic. *)
Lemma byte_bits b : is_byte b →
  Z.land (Z.shiftr b 2) 0x3F = (b / 4)%Z ∧ Z.shiftl (Z.land b 0x3) 4 = (16 * (b `mod` 4))%Z ∧
  Z.shiftr (Z.land b 0xF0) 4 = (b / 16)%Z ∧ Z.shiftl (Z.land b 0xF) 2 = (4 * (b `mod` 16))%Z ∧
  Z.shiftr (Z.land b 0xC0) 6 = (b / 64)%Z ∧ Z.land b 0x3F = (b `mod` 64)%Z.
Proof.
  intros Hb.
  pose proof (byte_forall (λ b,
    (Z.land (Z.shiftr b 2) 0x3F =? b / 4) && (Z.shiftl (Z.land b 0x3) 4 =? 16 * (b `mod` 4)) &&
    (Z.shiftr (Z.land b 0xF0) 4 =? b / 16) && (Z.shiftl (Z.land b 0xF) 2 =? 4 * (b `mod` 16)) &&
    (Z.shiftr (Z.land b 0xC0) 6 =? b / 64) && (Z.land b 0x3F =? b `mod` 64))%Z
    ltac:(vm_compute; reflexivity) b Hb) as H.
  rewrite !andb_true_iff, !Z.eqb_eq in H. tauto.
Qed.

Lemma lor_add s t : is_six s → is_six t →
  (s `mod` 16 = 0 → t < 16 → Z.lor s t = s + t)%Z ∧ (s `mod` 4 = 0 → t < 4 → Z.lor s t = s + t)%Z.
Proof.
  intros Hs Ht.
  pose proof (six_forall2 (λ s t,
    (negb ((s `mod` 16 =? 0) && (t <? 16)) || (Z.lor s t =? s + t)) &&
    (negb ((s `mod` 4 =? 0) && (t <? 4)) || (Z.lor s t =? s + t)))%Z
    ltac:(vm_compute; reflexivity) s t Hs Ht) as H.
  rewrite andb_true_iff, !orb_true_iff, !negb_true_iff, !andb_false_iff in H. lia.
Qed.

Lemma dec_arith s t : is_six s → is_six t →
  dec1 s t = (4 * s + t / 16)%Z ∧ dec2 s t = (16 * (s `mod` 16) + t / 4)%Z ∧
  dec3 s t = (64 * (s `mod` 4) + t)%Z.
Proof.
  intros Hs Ht.
  pose proof (six_forall2 (λ s t,
    (dec1 s t =? 4 * s + t / 16) && (dec2 s t =? 16 * (s `mod` 16) + t / 4) &&
    (dec3 s t =? 64 * (s `mod` 4) + t))%Z ltac:(vm_compute; reflexivity) s t Hs Ht) as H.
  rewrite !andb_true_iff, !Z.eqb_eq in H. tauto.
Qed.

(** The sextets of an encoding, and its padding. *)
Fixpoint enc_six (l : bytes) : list Z :=
  match l with
  | a :: b :: c :: l =>
    (a / 4)%Z :: (16 * (a `mod` 4) + b / 16)%Z :: (4 * (b `mod` 16) + c / 64)%Z :: (c `mod` 64)%Z :: enc_six l
  | [a; b] => [a / 4; 16 * (a `mod` 4) + b / 16; 4 * (b `mod` 16)]%Z
  | [a] => [a / 4; 16 * (a `mod` 4)]%Z
  | [] => []
  end.

Fixpoint enc_pad (l : bytes) : string :=
  match l with
  | _ :: _ :: _ :: l => enc_pad l
  | [_; _] => "="
  | [_] => "=="
  | [] => EmptyString
  end.

Definition basis_string (six : list Z) : string := String.string_of_list_ascii (basis <$> six).

Lemma bytes_ind3 (P : bytes → Prop) :
  P [] → (∀ a, P [a]) → (∀ a b, P [a; b]) → (∀ a b c l, P l → P (a :: b :: c :: l)) → ∀ l, P l.
Proof.
  intros H0 H1 H2 H3. fix IH 1. intros [|a [|b [|c l]]]; [apply H0|apply H1|apply H2|apply H3, IH].
Qed.

Ltac six_cases := repeat match goal with
  | H : Forall _ (_ :: _) |- _ => apply Forall_cons in H as [? H]
  | H : Forall _ [] |- _ => clear H
  end.

Lemma byte_sextets a b : is_byte a → is_byte b →
  is_six (a / 4) ∧ is_six (16 * (a `mod` 4)) ∧ is_six (b / 16) ∧
  is_six (16 * (a `mod` 4) + b / 16) ∧ is_six (4 * (a `mod` 16)) ∧ is_six (b / 64) ∧
  is_six (4 * (a `mod` 16) + b / 64) ∧ is_six (b `mod` 64).
Proof. unfold is_byte, is_six. intros. Z.div_mod_to_equations. split_and!; lia. Qed.

Lemma enc_six_range l : Forall is_byte l → Forall is_six (enc_six l).
Proof.
  induction l as [|a|a b|a b c l IH] using bytes_ind3; intros HF; cbn [enc_six]; six_cases.
  - constructor.
  - repeat constructor; by apply (byte_sextets a a).
  - repeat constructor; by apply (byte_sextets a b) || apply (byte_sextets b b).
  - do 4 (constructor; [by apply (byte_sextets a b) || apply (byte_sextets b c)|]). by apply IH.
Qed.

(** The three mixed sextets, as they are computed. *)
Lemma mix_lor a b : is_byte a → is_byte b →
  Z.lor (Z.shiftl (Z.land a 0x3) 4) (Z.shiftr (Z.land b 0xF0) 4) = (16 * (a `mod` 4) + b / 16)%Z ∧
  Z.lor (Z.shiftl (Z.land a 0xF) 2) (Z.shiftr (Z.land b 0xC0) 6) = (4 * (a `mod` 16) + b / 64)%Z.
Proof.
  intros Ha Hb. destruct (byte_bits a Ha) as (_ & -> & _ & -> & _ & _).
  destruct (byte_bits b Hb) as (_ & _ & -> & _ & -> & _).
  destruct (byte_sextets a b Ha Hb) as (_ & S1 & S2 & _ & S3 & S4 & _).
  destruct (lor_add _ _ S1 S2) as [E1 _]. destruct (lor_add _ _ S3 S4) as [_ E2].
  unfold is_byte in *. split; [apply E1|apply E2]; Z.div_mod_to_equations; lia.
Qed.

Lemma encode_six l : Forall is_byte l →
  apr_base64_encode_binary l = basis_string (enc_six l) +:+ enc_pad l.
Proof.
  induction l as [|a|a b|a b c l IH] using bytes_ind3; intros HF; six_cases;
  cbn [apr_base64_encode_binary enc_six enc_pad]; [done|..].
  - destruct (byte_bits a) as (-> & -> & _); done.
  - destruct (byte_bits a) as (-> & _); [done|]. destruct (mix_lor a b) as [-> _]; [done..|].
    destruct (byte_bits b) as (_ & _ & _ & -> & _); done.
  - destruct (byte_bits a) as (-> & _); [done|]. destruct (mix_lor a b) as [-> _]; [done..|].
    destruct (mix_lor b c) as [_ ->]; [done..|]. destruct (byte_bits c) as (_ & _ & _ & _ & _ & ->); [done|].
    by rewrite IH.
Qed.

Lemma basis_string_length six : String.length (basis_string six) = length six.
Proof. unfold basis_string. induction six; simpl; auto. Qed.

Lemma nprbytes_basis six pad n : Forall is_six six → nprbytes pad (n - length six) = 0 → length six ≤ n →
  nprbytes (basis_string six +:+ pad) n = length six.
Proof.
  intros HF. revert n. induction HF as [|s six Hs HF IH]; intros n Hp Hn; simpl in *.
  { by rewrite Nat.sub_0_r in Hp. }
  destruct n as [|n]; [lia|]. rewrite pr2six_basis by done.
  destruct (Z.leb_spec s 63); unfold is_six in Hs; [|lia]. f_equal. apply IH; [done|lia].
Qed.

Lemma pr2six_basis_string six : Forall is_six six →
  pr2six <$> String.list_ascii_of_string (basis_string six) = six.
Proof.
  induction 1 as [|s six Hs HF IH]; [done|]. unfold basis_string in *. simpl. rewrite pr2six_basis by done. by f_equal.
Qed.

Lemma decode_enc_six l : Forall is_byte l → decode_loop (enc_six l) = l.
Proof.
  induction l as [|a|a b|a b c l IH] using bytes_ind3; intros HF; six_cases; [done|..].
  - cbn [enc_six decode_loop]. destruct (byte_sextets a a) as (S1 & S2 & _); [done..|].
    destruct (dec_arith (a / 4) (16 * (a `mod` 4))) as (-> & _); [done..|]. f_equal. unfold is_byte in *. Z.div_mod_to_equations; lia.
  - cbn [enc_six decode_loop]. destruct (byte_sextets a b) as (S1 & _ & _ & S2 & _); [done..|].
    destruct (byte_sextets b b) as (_ & _ & _ & _ & S3 & _); [done..|].
    destruct (dec_arith (a / 4) (16 * (a `mod` 4) + b / 16)) as (-> & _); [done..|].
    destruct (dec_arith (16 * (a `mod` 4) + b / 16) (4 * (b `mod` 16))) as (_ & -> & _); [done..|].
    unfold is_byte in *.
    repeat f_equal; Z.div_mod_to_equations; lia.
  - assert (decode_loop (enc_six (a :: b :: c :: l)) =
      dec1 (a / 4) (16 * (a `mod` 4) + b / 16) :: dec2 (16 * (a `mod` 4) + b / 16) (4 * (b `mod` 16) + c / 64) ::
      dec3 (4 * (b `mod` 16) + c / 64) (c `mod` 64) :: decode_loop (enc_six l)) as ->.
    { cbn [enc_six]. by destruct (enc_six l). }
    destruct (byte_sextets a b) as (S1 & _ & _ & S2 & _); [done..|].
    destruct (byte_sextets b c) as (_ & _ & _ & _ & _ & _ & S3 & S4); [done..|].
    destruct (dec_arith (a / 4) (16 * (a `mod` 4) + b / 16)) as (-> & _); [done..|].
    destruct (dec_arith (16 * (a `mod` 4) + b / 16) (4 * (b `mod` 16) + c / 64)) as (_ & -> & _); [done..|].
    destruct (dec_arith (4 * (b `mod` 16) + c / 64) (c `mod` 64)) as (_ & _ & ->); [done..|].
    rewrite IH by done. unfold is_byte in *.
    repeat f_equal; Z.div_mod_to_equations; lia.
Qed.

Lemma enc_six_length l :
  let n := Z.of_nat (length (enc_six l)) in
  ((n + 3) / 4 * 3 - (4 - n) `mod` 4 = Z.of_nat (length l))%Z ∧
  (n + Z.of_nat (String.length (enc_pad l)) + 1 = apr_base64_encode_len (Z.of_nat (length l)))%Z.
Proof.
  unfold apr_base64_encode_len.
  induction l as [|a|a b|a b c l [IH1 IH2]] using bytes_ind3; [done..|].
  cbn [enc_six enc_pad length]. cbv zeta in *.
  rewrite !Nat2Z.inj_succ. split; Z.div_mod_to_equations; lia.
Qed.

(** ** Lemmas: the serialisation buffer *)

Section serial_lemmas.
Context (junk : nat → ascii).

(** What a field takes in the buffer. *)
Definition field_bytes (f : field) : list ascii :=
  match f with
  | FStr s => String.list_ascii_of_string s ++ [nul]
  | FInt i => int_bytes i
  end.

Definition field_ok (f : field) : Prop :=
  match f with FStr s => no_nul s | FInt i => (- 2 ^ 31 <= i < 2 ^ 31)%Z end.

(** A buffer whose length is what was allocated, with room to grow by [n]. *)
Definition sb_ok (sb : serbuf) (n : nat) : Prop :=
  Z.of_nat (length (sb_buf sb)) = sb_len sb ∧ (0 <= sb_dest sb <= sb_len sb)%Z ∧
  (sb_dest sb + Z.of_nat n + 1024 < 2 ^ 31)%Z.

Lemma ser_safe_spec sb n :
  sb_ok sb n →
  let '(buf, len) := ser_safe junk sb (sb_dest sb + Z.of_nat n) in
  Z.of_nat (length buf) = len ∧ (sb_dest sb + Z.of_nat n <= len)%Z ∧
  take (Z.to_nat (sb_dest sb)) buf = take (Z.to_nat (sb_dest sb)) (sb_buf sb).
Proof.
  intros (Hb & Hd & Hn). unfold ser_safe. destruct (Z.ltb_spec (sb_len sb) (sb_dest sb + Z.of_nat n)).
  - unfold _ser_realloc, BLOCKSIZE. set (nlen := (((sb_dest sb + Z.of_nat n - 1) / 1024 + 1) * 1024)%Z).
    assert (sb_dest sb + Z.of_nat n <= nlen)%Z as Hnl by (unfold nlen; Z.div_mod_to_equations; lia).
    rewrite take_ge by lia. rewrite length_app, length_fmap, length_seq. split_and!; [lia|lia|].
    rewrite take_app_le by lia. done.
  - done.
Qed.

Lemma set_field_spec sb f n :
  field_ok f → sb_ok sb (length (field_bytes f) + n) →
  let sb' := set_field junk sb f in
  sb_ok sb' n ∧ sb_dest sb' = (sb_dest sb + Z.of_nat (length (field_bytes f)))%Z ∧
  take (Z.to_nat (sb_dest sb')) (sb_buf sb') = take (Z.to_nat (sb_dest sb)) (sb_buf sb) ++ field_bytes f.
Proof.
  intros Hf (Hb & Hd & Hn).
  assert (set_field junk sb f =
    let '(buf, len) := ser_safe junk sb (sb_dest sb + Z.of_nat (length (field_bytes f))) in
    SerBuf (write_at (Z.to_nat (sb_dest sb)) (field_bytes f) buf)
           (sb_dest sb + Z.of_nat (length (field_bytes f))) len) as E.
  { destruct f as [s|i]; simpl in *.
    - unfold ser_string_set. rewrite length_app in *. simpl in *.
      rewrite chars_length in *. unfold strlen.
      rewrite !int32_id by (rewrite ?int32_id by lia; lia).
      replace (Z.of_nat (String.length s + 1)) with (Z.of_nat (String.length s) + 1)%Z by lia. done.
    - unfold ser_int_set. by rewrite int32_id by lia. }
  cbv zeta. rewrite E.
  pose proof (ser_safe_spec sb (length (field_bytes f))) as Hs.
  destruct (ser_safe junk sb _) as [buf len]. destruct Hs as (H1 & H2 & H3); [unfold sb_ok; lia|].
  unfold sb_ok, write_at. simpl. split_and!; try lia.
  - rewrite !length_app, length_take, length_drop. lia.
  - replace (Z.to_nat (sb_dest sb + Z.of_nat (length (field_bytes f)))) with (Z.to_nat (sb_dest sb) + length (field_bytes f)) by lia.
    rewrite <- H3, app_assoc. rewrite take_app_le by (rewrite length_app, length_take; lia).
    apply take_ge. rewrite length_app, length_take. lia.
Qed.

Lemma set_fields_spec fs sb n :
  Forall field_ok fs → sb_ok sb (length (mjoin (field_bytes <$> fs)) + n) →
  let sb' := foldl (set_field junk) sb fs in
  sb_ok sb' n ∧ sb_dest sb' = (sb_dest sb + Z.of_nat (length (mjoin (field_bytes <$> fs))))%Z ∧
  take (Z.to_nat (sb_dest sb')) (sb_buf sb') =
    take (Z.to_nat (sb_dest sb)) (sb_buf sb) ++ mjoin (field_bytes <$> fs).
Proof.
  intros HF. revert sb. induction HF as [|f fs Hf HF IH]; intros sb; csimpl.
  { intros. rewrite app_nil_r. split_and!; [done|change (Z.of_nat 0) with 0%Z; lia|done]. }
  rewrite length_app, <- Nat.add_assoc. intros Hsb.
  destruct (set_field_spec sb f _ Hf Hsb) as (H1 & H2 & H3). cbv zeta in *.
  destruct (IH _ H1) as (H4 & H5 & H6). split; [done|]. split; [lia|].
  by rewrite H6, H3, <- app_assoc.
Qed.

Lemma byte_of_int i k : (0 <= k)%Z →
  uchar (char_of (Z.land (Z.shiftr i (8 * k)) 255)) = ((i / 2 ^ (8 * k)) `mod` 256)%Z.
Proof.
  intros. rewrite Z.shiftr_div_pow2 by lia.
  replace 255%Z with (Z.ones 8) by done. rewrite Z.land_ones by lia.
  apply uchar_char_of. apply Z.mod_pos_bound. lia.
Qed.

Lemma int_of_bytes_int i : (- 2 ^ 31 <= i < 2 ^ 31)%Z → int_of_bytes (int_bytes i) = i.
Proof.
  intros Hi. unfold int_of_bytes, int_bytes. cbn [fmap list_fmap foldr].
  rewrite !byte_of_int by lia. unfold int32.
  change (2 ^ (8 * 0))%Z with 1%Z. change (2 ^ (8 * 1))%Z with 256%Z.
  change (2 ^ (8 * 2))%Z with 65536%Z. change (2 ^ (8 * 3))%Z with 16777216%Z.
  Z.div_mod_to_equations. lia.
Qed.

Lemma cstr_of_chars s l : no_nul s → cstr_of (String.list_ascii_of_string s ++ nul :: l) = s.
Proof.
  induction s as [|c s IH]; simpl; [done|].
  rewrite andb_True. intros [Hc Hs]. apply negb_prop_elim in Hc. rewrite bool_decide_spec in Hc.
  rewrite bool_decide_false by done. by rewrite IH.
Qed.

(** Reading back, and reading from a buffer cut short. *)
Lemma get_field_spec f p buf len rest :
  field_ok f → (0 <= p)%Z → (len <= Z.of_nat (length buf))%Z →
  drop (Z.to_nat p) (take (Z.to_nat len) buf) = field_bytes f ++ rest →
  get_field f p buf len = Some (f, p + Z.of_nat (length (field_bytes f)))%Z.
Proof.
  intros Hf Hp Hl Hv. destruct f as [s|i]; cbn [field_bytes get_field field_ok] in *.
  - unfold ser_string_get. rewrite Hv, <- app_assoc. simpl. rewrite bool_decide_true by set_solver.
    rewrite cstr_of_chars by done. simpl. unfold strlen. rewrite length_app, chars_length. simpl.
    do 2 f_equal. lia.
  - unfold ser_int_get. apply (f_equal length) in Hv as Hlen.
    rewrite length_drop, length_take, length_app in Hlen. change (length (int_bytes i)) with 4 in *.
    destruct (Z.ltb_spec len (p + 4)); [lia|].
    assert (take 4 (drop (Z.to_nat p) buf) = int_bytes i) as ->; [|by rewrite int_of_bytes_int].
    apply (f_equal (take 4)) in Hv. rewrite take_drop_commute, take_take in Hv.
    rewrite take_drop_commute.
    replace (Z.to_nat p + 4) with ((Z.to_nat p + 4) `min` Z.to_nat len) by lia. done.
Qed.

Lemma get_field_short f p buf len n :
  field_ok f → (0 <= p <= len)%Z → (n < length (field_bytes f)) → (len <= Z.of_nat (length buf))%Z →
  drop (Z.to_nat p) (take (Z.to_nat len) buf) = take n (field_bytes f) →
  get_field f p buf len = None.
Proof.
  intros Hf Hp Hn Hl Hv. destruct f as [s|i]; cbn [field_bytes get_field field_ok] in *.
  - unfold ser_string_get. rewrite Hv. rewrite length_app in Hn. simpl in Hn.
    rewrite take_app_le by lia. rewrite bool_decide_false; [done|].
    intros Hin. apply (chars_no_nul s Hf). by eapply elem_of_take in Hin as (k & Hk & _); eapply list_elem_of_lookup_2.
  - unfold ser_int_get. apply (f_equal length) in Hv.
    rewrite length_drop, !length_take in Hv. change (length (int_bytes i)) with 4 in *.
    destruct (Z.ltb_spec len (p + 4)); [done|lia].
Qed.

(** Fields laid out from [p] on are read back; cut anywhere, the read fails. *)
Lemma get_fields_spec fs p buf len :
  Forall field_ok fs → (0 <= p)%Z → (len <= Z.of_nat (length buf))%Z →
  drop (Z.to_nat p) (take (Z.to_nat len) buf) = mjoin (field_bytes <$> fs) →
  get_fields fs p buf len = Some (fs, p + Z.of_nat (length (mjoin (field_bytes <$> fs))))%Z.
Proof.
  intros HF. revert p. induction HF as [|f fs Hf HF IH]; intros p Hp Hl Hv; csimpl in *.
  { change (Z.of_nat 0) with 0%Z. by rewrite Z.add_0_r. }
  rewrite (get_field_spec f p buf len _ Hf Hp Hl Hv). simpl. rewrite IH; [|lia|done|].
  - simpl. rewrite length_app. do 2 f_equal. lia.
  - replace (Z.to_nat (p + Z.of_nat (length (field_bytes f)))) with (Z.to_nat p + length (field_bytes f)) by lia.
    by rewrite <- drop_drop, Hv, drop_app_length.
Qed.

Lemma get_fields_short fs p buf len n :
  Forall field_ok fs → (0 <= p <= len)%Z → (len <= Z.of_nat (length buf))%Z →
  n < length (mjoin (field_bytes <$> fs)) →
  drop (Z.to_nat p) (take (Z.to_nat len) buf) = take n (mjoin (field_bytes <$> fs)) →
  get_fields fs p buf len = None.
Proof.
  intros HF. revert p n. induction HF as [|f fs Hf HF IH]; intros p n Hp Hl Hn Hv; csimpl in *; [lia|].
  destruct (decide (n < length (field_bytes f))) as [Hs|Hs].
  - rewrite take_app_le in Hv by lia. by rewrite (get_field_short f p buf len n).
  - rewrite take_app_ge in Hv by lia. rewrite length_app in Hn.
    rewrite (get_field_spec f p buf len _ Hf (proj1 Hp) Hl Hv). simpl.
    apply (f_equal length) in Hv as Hlen. rewrite length_drop, length_take, length_app in Hlen.
    rewrite (IH _ (n - length (field_bytes f))); [done|lia|done|lia|].
    replace (Z.to_nat (p + Z.of_nat (length (field_bytes f)))) with (Z.to_nat p + length (field_bytes f)) by lia.
    by rewrite <- drop_drop, Hv, drop_app_length.
Qed.
End serial_lemmas.

(** ** Properties *)

(** Base64: decoding an encoded buffer gives its bytes back, the value returned is their
    number, and the lengths that the callers allocate are what is written. *)
Theorem base64_roundtrip l :
  Forall is_byte l →
  b64_decode (b64_encode l) = l ∧
  (apr_base64_decode_binary (b64_encode l) (String.length (b64_encode l))).2 = Z.of_nat (length l) ∧
  (strlen (b64_encode l) + 1 = apr_base64_encode_len (Z.of_nat (length l)))%Z ∧
  (Z.of_nat (length l) + 1 <= apr_base64_decode_len (b64_encode l) (String.length (b64_encode l)))%Z.
Proof.
  intros Hl. pose proof (enc_six_range l Hl) as H6. destruct (enc_six_length l) as [L1 L2].
  unfold b64_encode. rewrite encode_six by done.
  assert (∀ n, nprbytes (enc_pad l) n = 0) as Hpad.
  { clear. induction l as [|a|a b|a b c l IH] using bytes_ind3; intros [|n]; try done; apply IH. }
  assert (nprbytes (basis_string (enc_six l) +:+ enc_pad l)
    (String.length (basis_string (enc_six l) +:+ enc_pad l)) = length (enc_six l)) as Hnp.
  { apply nprbytes_basis; [done|apply Hpad|]. rewrite sapp_length, basis_string_length. lia. }
  unfold b64_decode, apr_base64_decode_len, apr_base64_decode_binary. rewrite Hnp.
  assert (stake (length (enc_six l)) (basis_string (enc_six l) +:+ enc_pad l) = basis_string (enc_six l)) as ->.
  { rewrite <- (basis_string_length (enc_six l)), stake_app by done. apply stake_all. }
  rewrite pr2six_basis_string, decode_enc_six by done. simpl.
  assert (∀ z, Z.land z 3 = z `mod` 4)%Z as Hland by (intros; by rewrite (Z.land_ones _ 2)).
  rewrite !Hland.
  cbv zeta in *. unfold strlen. rewrite sapp_length, basis_string_length.
  split_and!; [|lia|lia|Z.div_mod_to_equations; lia].
  rewrite take_ge; [done|]. lia.
Qed.

Lemma base64_roundtrip_witness :
  b64_decode (b64_encode [0; 255; 16; 77]%Z) = [0; 255; 16; 77]%Z ∧
  (apr_base64_decode_binary (b64_encode [0; 255; 16; 77]%Z) (String.length (b64_encode [0; 255; 16; 77]%Z))).2 = 4%Z ∧
  (strlen (b64_encode [0; 255; 16; 77]%Z) + 1 = apr_base64_encode_len 4)%Z ∧
  (4 + 1 <= apr_base64_decode_len (b64_encode [0; 255; 16; 77]%Z) (String.length (b64_encode [0; 255; 16; 77]%Z)))%Z.
Proof. apply (base64_roundtrip [0; 255; 16; 77]%Z). unfold is_byte. repeat constructor; lia. Defined.

(** Serialisation: strings and integers stored in order are read back as they were, whatever
    the growing buffer held, and reading stops with an error, without a wrong field, when the
    buffer is cut anywhere before the end. *)
Theorem serial_roundtrip junk fs sb :
  Forall field_ok fs → sb_ok sb (length (mjoin (field_bytes <$> fs))) →
  let sb' := foldl (set_field junk) sb fs in
  get_fields fs (sb_dest sb) (sb_buf sb') (sb_dest sb') = Some (fs, sb_dest sb') ∧
  ∀ len, (sb_dest sb <= len < sb_dest sb')%Z → get_fields fs (sb_dest sb) (sb_buf sb') len = None.
Proof.
  intros HF Hsb. rewrite <- (Nat.add_0_r (length _)) in Hsb.
  destruct (set_fields_spec junk fs sb 0 HF Hsb) as ((B1 & B2 & B3) & H2 & H3). cbv zeta in *.
  destruct Hsb as (A1 & A2 & _).
  assert (length (take (Z.to_nat (sb_dest sb)) (sb_buf sb)) = Z.to_nat (sb_dest sb)) as Hlt by (rewrite length_take; lia).
  split.
  - rewrite (get_fields_spec fs); [by rewrite <- H2|done|lia|lia|].
    by rewrite H3, drop_app_length'.
  - intros len Hlen. apply (get_fields_short fs _ _ _ (Z.to_nat (len - sb_dest sb))); [done|lia|lia|lia|].
    apply (f_equal (take (Z.to_nat len))) in H3. rewrite take_take in H3.
    replace (Z.to_nat len `min` Z.to_nat (sb_dest (foldl (set_field junk) sb fs))) with (Z.to_nat len) in H3 by lia.
    rewrite H3, take_app_ge by lia. rewrite drop_app_length' by done. f_equal. lia.
Qed.

Lemma serial_roundtrip_witness :
  let fs := [FStr "hello"; FInt (-2); FStr ""; FInt 70000] in
  let sb := SerBuf [] 0 0 in
  let sb' := foldl (set_field (λ _, "x"%char)) sb fs in
  get_fields fs (sb_dest sb) (sb_buf sb') (sb_dest sb') = Some (fs, sb_dest sb') ∧
  ∀ len, (sb_dest sb <= len < sb_dest sb')%Z → get_fields fs (sb_dest sb) (sb_buf sb') len = None.
Proof.
  apply (serial_roundtrip (λ _, "x"%char)); [|vm_compute; intuition congruence].
  constructor; [done|constructor; [simpl; lia|constructor; [done|constructor; [simpl; lia|constructor]]]].
Defined.

(** [hex_to_raw] reads back what [hex_from_raw] wrote exactly when no digit is a letter:
    its ranges for the letters are wrong, so any other text comes back as different bytes, with
    the return value of success. *)
Theorem hex_roundtrip_decimal_only l :
  Forall is_byte l → l ≠ [] →
  ∃ out, hex_to_raw (hex_from_raw l) (strlen (hex_from_raw l)) = Some out ∧
    (out = l ↔ Forall (λ b, decimal_nibbles b = true) l).
Proof.
  intros Hl Hne. destruct (hex_loop_from_raw l Hl) as (out & E & Ho). exists out. split; [|done].
  assert (strlen (hex_from_raw l) = 2 * Z.of_nat (length l))%Z as Hs.
  { unfold strlen. rewrite hex_from_raw_length. lia. }
  assert (length l ≠ 0) by (by destruct l).
  unfold hex_to_raw. rewrite Hs. destruct (Z.eqb_spec (2 * Z.of_nat (length l)) 0); [lia|].
  destruct (Z.eqb_spec ((2 * Z.of_nat (length l)) `div` 2 * 2)%Z (2 * Z.of_nat (length l))%Z); [|Z.div_mod_to_equations; lia].
  simpl. rewrite stake_ge; [done|]. rewrite hex_from_raw_length. lia.
Qed.

Lemma hex_roundtrip_decimal_only_witness :
  ∃ out, hex_to_raw (hex_from_raw [10; 0x42]%Z) (strlen (hex_from_raw [10; 0x42]%Z)) = Some out ∧
    (out = [10; 0x42]%Z ↔ Forall (λ b, decimal_nibbles b = true) [10; 0x42]%Z).
Proof. apply (hex_roundtrip_decimal_only [10; 0x42]%Z); [repeat constructor; unfold is_byte; lia|done]. Defined.
