(* ===== verification/Access.v ===== *)
(** * The allow/deny filters on addresses of util/access.c

    Addresses are parsed by the C library: the section takes its two parsers
    as parameters, and [j_inet_pton] (util/inaddr.c) tries them in turn.  An
    IPv4 address is its 32 bits in host order, an IPv6 address its 16 bytes.
    A comparison whose shift count C leaves undefined answers [None]. *)
From S2P Require Import Prelude.
From S2P Require Import CStr.
From S2P Require Import Str.

(** [struct sockaddr_storage], as far as the filters look at it. *)
Inductive sockaddr :=
  | INET (s_addr : Z)
  | INET6 (s6_addr : list Z).

Section access.
(** [inet_pton(AF_INET, ...)] and [inet_pton(AF_INET6, ...)]: a value is a success. *)
Context (inet_pton4 : string → option Z).
Context (inet_pton6 : string → option (list Z)).

Definition j_inet_pton (src : string) : option sockaddr :=
  match inet_pton4 src with
  | Some a => Some (INET a)
  | None => INET6 <$> inet_pton6 src
  end.

(** The loop over the zero bits of a dotted mask, [temp] being a signed [int]. *)
Fixpoint mask_loop (netsize : nat) (temp : Z) : nat :=
  match netsize with
  | S n => if (Z.rem temp 2 =? 0)%Z then mask_loop n (Z.quot temp 2) else S n
  | O => O
  end.

Definition _access_calc_netsize (mask : string) (defaultsize : Z) : Z :=
  match inet_pton4 mask with
  | Some m => Z.of_nat (mask_loop 32 (int32 m))
  | None => j_atoi (Some mask) defaultsize
  end.

(** [IN6_IS_ADDR_V4MAPPED]: ten zero bytes and two of ones. *)
Definition v4mapped (b : list Z) : bool :=
  bool_decide (take 12 b = replicate 10 0 ++ [255; 255])%Z.

Definition byte_at (b : list Z) (i : nat) : Z := nth i b 0%Z.

Definition _access_unmap_v4 (b : list Z) : Z :=
  ((((byte_at b 12 * 256 + byte_at b 13) * 256 + byte_at b 14) * 256 + byte_at b 15) `mod` 2 ^ 32)%Z.

(** Two IPv4 addresses; shifting an [int] by 32 or by less than 0 is undefined. *)
Definition match4 (a b netsize : Z) : option bool :=
  let netsize := if (32 <? netsize)%Z then 32%Z else netsize in
  let sh := (32 - netsize)%Z in
  if ((sh <? 0) || (31 <? sh))%Z then None
  else
    let netmask := (Z.shiftl (2 ^ 32 - 1) sh `mod` 2 ^ 32)%Z in
    Some (Z.land a netmask =? Z.land b netmask)%Z.

(** The loop over the whole bytes: do the first [n] agree? *)
Fixpoint bytes_agree (n : nat) (a b : list Z) : bool :=
  match n with
  | O => true
  | S n => (byte_at a 0 =? byte_at b 0)%Z && bytes_agree n (tail a) (tail b)
  end.

Definition match6 (a b : list Z) (netsize : Z) : option bool :=
  let netsize := if (128 <? netsize)%Z then 128%Z else netsize in
  let i := Z.to_nat (Z.quot netsize 8) in
  if negb (bytes_agree i a b) then Some false
  else if (Z.rem netsize 8 =? 0)%Z then Some true
  else
    let bytemask := (Z.shiftl 0xff (8 - Z.rem netsize 8) `mod` 256)%Z in
    Some (Z.land (byte_at a i) bytemask =? Z.land (byte_at b i) bytemask)%Z.

Definition _access_check_match (ip_1 ip_2 : sockaddr) (netsize : Z) : option bool :=
  let mapped_size := if (96 <? netsize)%Z then (netsize - 96)%Z else netsize in
  match ip_1, ip_2 with
  | INET a, INET b => match4 a b netsize
  | INET6 a, INET6 b => match6 a b netsize
  | INET a, INET6 b => if v4mapped b then match4 a (_access_unmap_v4 b) mapped_size else Some false
  | INET6 a, INET b => if v4mapped a then match4 (_access_unmap_v4 a) b mapped_size else Some false
  end.

(** [struct access_rule_st] and [struct access_st] *)
Record access_rule := Rule { rule_ip : sockaddr; rule_mask : Z }.
Record access := Access { acc_order : Z; acc_allow : list access_rule; acc_deny : list access_rule }.

Definition access_new (order : Z) : access := Access order [] [].

Definition new_rule (ip mask : string) : option access_rule :=
  addr ← j_inet_pton ip;
  Some (Rule addr (_access_calc_netsize mask (match addr with INET _ => 32 | INET6 _ => 128 end)%Z)).

(** The filter after the call, and the value returned. *)
Definition access_allow (a : access) (ip mask : string) : access * Z :=
  match new_rule ip mask with
  | None => (a, 1%Z)
  | Some r => (Access (acc_order a) (acc_allow a ++ [r]) (acc_deny a), 0%Z)
  end.

Definition access_deny (a : access) (ip mask : string) : access * Z :=
  match new_rule ip mask with
  | None => (a, 1%Z)
  | Some r => (Access (acc_order a) (acc_allow a) (acc_deny a ++ [r]), 0%Z)
  end.

(** [for(i = 0; !found && i < n; i++)] *)
Fixpoint search_rules (addr : sockaddr) (rules : list access_rule) : option bool :=
  match rules with
  | [] => Some false
  | r :: rules =>
    m ← _access_check_match addr (rule_ip r) (rule_mask r);
    if (m : bool) then Some true else search_rules addr rules
  end.

Definition access_check (a : access) (ip : string) : option Z :=
  match j_inet_pton ip with
  | None => Some 0%Z
  | Some addr =>
    allow ← search_rules addr (acc_allow a);
    deny ← search_rules addr (acc_deny a);
    Some (if (acc_order a =? 0)%Z then
            (if (allow : bool) then 1 else if (deny : bool) then 0 else 1)
          else
            (if deny then 0 else if allow then 1 else 0))%Z
  end.
End access.

(** ** Specification *)

(** The 128 bits of an address: IPv4 addresses are taken as mapped. *)
Fixpoint be_val (acc : Z) (b : list Z) : Z :=
  match b with [] => acc | x :: b => be_val (acc * 256 + x) b end%Z.

Definition addr_ok (a : sockaddr) : Prop :=
  match a with
  | INET a => (0 <= a < 2 ^ 32)%Z
  | INET6 b => length b = 16 ∧ Forall (λ x, 0 <= x < 256)%Z b
  end.

(** The leading [n] of [w] bits agree. *)
Definition prefix_eq (w n a b : Z) : bool := (Z.shiftr a (w - n) =? Z.shiftr b (w - n))%Z.

(** ** Lemmas *)

Lemma land_high a n : (0 <= a < 2 ^ 32)%Z → (1 <= n <= 32)%Z →
  Z.land a (Z.shiftl (2 ^ 32 - 1) (32 - n) `mod` 2 ^ 32) = Z.shiftl (Z.shiftr a (32 - n)) (32 - n).
Proof.
  intros Ha Hn. rewrite <- (Z.land_ones _ 32) by lia. change (2 ^ 32 - 1)%Z with (Z.ones 32).
  apply Z.bits_inj'. intros k Hk.
  rewrite !Z.land_spec, Z.testbit_ones_nonneg by lia.
  destruct (Z.lt_ge_cases k (32 - n)).
  - rewrite !Z.shiftl_spec_low by lia. by rewrite andb_false_r.
  - rewrite !Z.shiftl_spec_high, Z.shiftr_spec by lia. replace (k - (32 - n) + (32 - n))%Z with k by lia.
    destruct (Z.lt_ge_cases k 32).
    + rewrite Z.testbit_ones_nonneg by lia. destruct (Z.ltb_spec (k - (32 - n)) 32); [|lia].
      destruct (Z.ltb_spec k 32); [|lia]. by rewrite !andb_true_r.
    + assert (Z.testbit a k = false) as ->; [|done].
      destruct (Z.eq_dec a 0%Z) as [->|]; [apply Z.bits_0|].
      apply Z.bits_above_log2; [lia|]. assert (Z.log2 a < 32)%Z by (apply Z.log2_lt_pow2; lia). lia.
Qed.

(** The mask comparison is equality of the leading bits. *)
Lemma match4_spec a b n : (0 <= a < 2 ^ 32)%Z → (0 <= b < 2 ^ 32)%Z → (1 <= n)%Z →
  match4 a b n = Some (prefix_eq 32 (Z.min n 32) a b).
Proof.
  intros Ha Hb Hn. unfold match4, prefix_eq.
  replace (if (32 <? n)%Z then 32%Z else n) with (Z.min n 32) by (destruct (Z.ltb_spec 32 n); lia).
  set (m := Z.min n 32). assert (1 <= m <= 32)%Z by lia.
  destruct (Z.ltb_spec (32 - m) 0); [lia|]. destruct (Z.ltb_spec 31 (32 - m)); [lia|]. simpl.
  rewrite !land_high by lia. f_equal.
  destruct (Z.eqb_spec (Z.shiftr a (32 - m)) (Z.shiftr b (32 - m))) as [->|Hne]; [by rewrite Z.eqb_refl|].
  apply Z.eqb_neq. intros E. apply Hne. apply (f_equal (λ z, Z.shiftr z (32 - m))) in E.
  rewrite !Z.shiftr_shiftl_l in E by lia. replace (32 - m - (32 - m))%Z with 0%Z in E by lia.
  by rewrite !Z.shiftl_0_r in E.
Qed.

(** ** IPv6: whole bytes and a mask are the leading bits *)

Notation is_bytes := (Forall (λ x, 0 <= x < 256)%Z).

Lemma be_val_acc acc b : be_val acc b = (acc * 256 ^ Z.of_nat (length b) + be_val 0 b)%Z.
Proof.
  revert acc. induction b as [|x b IH]; intros acc; cbn [be_val length]; [lia|].
  rewrite IH, (IH (0 * 256 + x)%Z), Nat2Z.inj_succ, Z.pow_succ_r by lia. lia.
Qed.

Lemma be_val_range b : is_bytes b → (0 <= be_val 0 b < 256 ^ Z.of_nat (length b))%Z.
Proof.
  induction 1 as [|x b Hx Hb IH]; cbn [be_val length]; [lia|].
  rewrite be_val_acc, Nat2Z.inj_succ, Z.pow_succ_r by lia. nia.
Qed.

Lemma be_val_app a b : be_val 0 (a ++ b) = be_val (be_val 0 a) b.
Proof.
  assert (∀ acc, be_val acc (a ++ b) = be_val (be_val acc a) b) as H; [|apply H].
  induction a as [|x a IH]; intros acc; [done|]. simpl. apply IH.
Qed.

(** Two prefixes of one length agree exactly when their values do. *)
Lemma be_val_inj a b : is_bytes a → is_bytes b → length a = length b → be_val 0 a = be_val 0 b ↔ a = b.
Proof.
  intros Ha Hb Hl. split; [|by intros ->]. revert b Hb Hl.
  induction Ha as [|x a Hx Ha IH]; intros [|y b] Hb Hl E; simplify_eq/=; [done|].
  apply Forall_cons in Hb as [Hy Hb]. rewrite be_val_acc, (be_val_acc _ b), Hl in E.
  pose proof (be_val_range a Ha). pose proof (be_val_range b Hb). rewrite Hl in *.
  assert (x = y) as -> by nia. f_equal. apply IH; [done|done|lia].
Qed.

Lemma bytes_agree_take i a b : i ≤ length a → i ≤ length b → bytes_agree i a b = true ↔ take i a = take i b.
Proof.
  revert a b. induction i as [|i IH]; intros [|x a] [|y b]; simpl; try done; try lia.
  intros. rewrite andb_true_iff, Z.eqb_eq, IH by lia. unfold byte_at. simpl. naive_solver congruence.
Qed.

(** Dropping whole bytes and [8 - r] bits of the next one. *)
Lemma be_val_shiftr t x u r : is_bytes (t ++ x :: u) → (1 <= r <= 7)%Z →
  Z.shiftr (be_val 0 (t ++ x :: u)) (8 * Z.of_nat (length u) + (8 - r)) =
    (be_val 0 t * 2 ^ r + x / 2 ^ (8 - r))%Z.
Proof.
  intros [Ht [Hx Hu]%Forall_cons]%Forall_app Hr. rewrite be_val_app. cbn [be_val].
  rewrite be_val_acc, <- Z.shiftr_shiftr by lia. rewrite !Z.shiftr_div_pow2 by lia.
  pose proof (be_val_range u Hu). rewrite Z.pow_mul_r by lia. change (2 ^ 8)%Z with 256%Z.
  rewrite Z.div_add_l by lia. rewrite (Z.div_small (be_val 0 u)) by lia. rewrite Z.add_0_r.
  replace (be_val 0 t * 256)%Z with (be_val 0 t * 2 ^ r * 2 ^ (8 - r))%Z.
  - rewrite Z.div_add_l; [done|]. lia.
  - rewrite <- Z.mul_assoc, <- Z.pow_add_r by lia. f_equal. by replace (r + (8 - r))%Z with 8%Z by lia.
Qed.

Lemma be_val_shiftr_whole t u : is_bytes (t ++ u) →
  Z.shiftr (be_val 0 (t ++ u)) (8 * Z.of_nat (length u)) = be_val 0 t.
Proof.
  intros [Ht Hu]%Forall_app. rewrite be_val_app, be_val_acc, Z.shiftr_div_pow2 by lia.
  pose proof (be_val_range u Hu). rewrite Z.pow_mul_r by lia. change (2 ^ 8)%Z with 256%Z.
  rewrite Z.div_add_l by lia. rewrite Z.div_small by lia. lia.
Qed.

Lemma byte_mask x r : (0 <= x < 256)%Z → (1 <= r <= 7)%Z →
  Z.land x (Z.shiftl 0xff (8 - r) `mod` 256) = (x / 2 ^ (8 - r) * 2 ^ (8 - r))%Z.
Proof.
  intros Hx Hr.
  assert (forallb (λ r, forallb (λ x, Z.land x (Z.shiftl 0xff (8 - r) `mod` 256) =? x / 2 ^ (8 - r) * 2 ^ (8 - r))%Z
    (Z.of_nat <$> seq 0 256)) [1; 2; 3; 4; 5; 6; 7]%Z = true) as H by (vm_compute; reflexivity).
  rewrite forallb_forall in H. specialize (H r). rewrite forallb_forall in H. apply Z.eqb_eq, H.
  - simpl. lia.
  - apply list_elem_of_In, list_elem_of_fmap. exists (Z.to_nat x). split; [lia|]. apply elem_of_seq. lia.
Qed.

Lemma split_byte (b : list Z) i : i < length b → b = take i b ++ byte_at b i :: drop (S i) b.
Proof.
  intros Hi. unfold byte_at. rewrite <- (take_drop_middle b i (nth i b 0%Z)) at 1; [done|].
  by apply nth_lookup_Some with 0%Z || (rewrite nth_lookup; destruct (lookup_lt_is_Some_2 b i Hi) as [x ->]).
Qed.

(** The leading [8 * i + r] bits of 16 bytes. *)
Lemma be_val_prefix b i r : length b = 16 → is_bytes b → (0 <= r < 8)%Z → (8 * Z.of_nat i + r <= 128)%Z →
  Z.shiftr (be_val 0 b) (128 - (8 * Z.of_nat i + r)) =
    if (r =? 0)%Z then be_val 0 (take i b) else (be_val 0 (take i b) * 2 ^ r + byte_at b i / 2 ^ (8 - r))%Z.
Proof.
  intros Hl Hb Hr Hi. destruct (Z.eqb_spec r 0) as [->|Hr0].
  - rewrite <- (take_drop i b) in Hb. rewrite <- (be_val_shiftr_whole _ _ Hb), take_drop, length_drop.
    f_equal. lia.
  - assert (i < length b) as Hlt by lia. pose proof (split_byte b i Hlt) as E. rewrite E in Hb.
    rewrite <- (be_val_shiftr _ _ _ r Hb) by lia. rewrite <- E, length_drop. f_equal. lia.
Qed.

Lemma radix_inj R A B p q : (0 <= p < R)%Z → (0 <= q < R)%Z →
  (A * R + p = B * R + q)%Z ↔ A = B ∧ p = q.
Proof.
  intros Hp Hq. split; [|by intros [-> ->]]. intros E.
  destruct (Z.div_mod_unique R A B p q); [lia..|done].
Qed.

Lemma match6_spec a b n :
  length a = 16 → length b = 16 → is_bytes a → is_bytes b → (0 <= n)%Z →
  match6 a b n = Some (prefix_eq 128 (Z.min n 128) (be_val 0 a) (be_val 0 b)).
Proof.
  intros Hla Hlb Ha Hb Hn. unfold match6, prefix_eq.
  replace (if (128 <? n)%Z then 128%Z else n) with (Z.min n 128) by (destruct (Z.ltb_spec 128 n); lia).
  assert (0 <= Z.min n 128 <= 128)%Z as Hm by lia. generalize dependent (Z.min n 128). clear n Hn. intros n Hn.
  rewrite Z.quot_div_nonneg, Z.rem_mod_nonneg by lia.
  set (i := Z.to_nat (n / 8)). set (r := (n `mod` 8)%Z).
  assert (n = 8 * Z.of_nat i + r)%Z as En by (unfold i, r; Z.div_mod_to_equations; lia).
  assert (0 <= r < 8)%Z as Hr by (unfold r; Z.div_mod_to_equations; lia).
  assert (i ≤ 16) as Hi by lia.
  assert (bytes_agree i a b = true ↔ take i a = take i b) as Hag by (apply bytes_agree_take; lia).
  assert (be_val 0 (take i a) = be_val 0 (take i b) ↔ take i a = take i b) as Hv.
  { apply be_val_inj; [by apply Forall_take..|]. rewrite !length_take. lia. }
  rewrite En, !be_val_prefix by (done || lia).
  destruct (Z.eqb_spec r 0) as [E0|E0].
  { destruct (bytes_agree i a b); simpl; f_equal; symmetry; [apply Z.eqb_eq|apply Z.eqb_neq]; naive_solver. }
  set (x := byte_at a i). set (y := byte_at b i).
  assert (0 <= x < 256 ∧ 0 <= y < 256)%Z as [Hx Hy].
  { pose proof (split_byte a i ltac:(lia)) as Ea. pose proof (split_byte b i ltac:(lia)) as Eb.
    rewrite Ea in Ha. rewrite Eb in Hb. by apply Forall_app in Ha as [_ [Hx _]%Forall_cons], Hb as [_ [Hy _]%Forall_cons]. }
  rewrite !byte_mask by lia.
  assert (0 < 2 ^ (8 - r))%Z by lia.
  assert (∀ z, 0 <= z < 256 → 0 <= z / 2 ^ (8 - r) < 2 ^ r)%Z as Hq.
  { intros z Hz. split; [apply Z.div_pos; lia|]. apply Z.div_lt_upper_bound; [done|].
    rewrite <- Z.pow_add_r by lia. replace (8 - r + r)%Z with 8%Z by lia. change (2 ^ 8)%Z with 256%Z. lia. }
  pose proof (Hq x Hx). pose proof (Hq y Hy).
  set (qx := (x / 2 ^ (8 - r))%Z) in *. set (qy := (y / 2 ^ (8 - r))%Z) in *.
  assert (be_val 0 (take i a) * 2 ^ r + qx = be_val 0 (take i b) * 2 ^ r + qy ↔
          be_val 0 (take i a) = be_val 0 (take i b) ∧ qx = qy)%Z as Hs by by apply radix_inj.
  assert (qx * 2 ^ (8 - r) = qy * 2 ^ (8 - r) ↔ qx = qy)%Z as Hm by (apply Z.mul_cancel_r; lia).
  destruct (bytes_agree i a b); simpl; f_equal.
  - destruct (Z.eqb_spec (qx * 2 ^ (8 - r)) (qy * 2 ^ (8 - r))); symmetry; [apply Z.eqb_eq|apply Z.eqb_neq];
    clear Hq Hx Hy; rewrite Hs, Hv; tauto.
  - symmetry. apply Z.eqb_neq. clear Hq Hx Hy; rewrite Hs, Hv. clear Hs Hv Hm. naive_solver.
Qed.

(** ** Specification of a filter *)

Section spec.
Context (inet_pton4 : string → option Z).
Context (inet_pton6 : string → option (list Z)).
(** The parsers give addresses of their family. *)
Context (pton4_ok : ∀ s a, inet_pton4 s = Some a → addr_ok (INET a)).
Context (pton6_ok : ∀ s b, inet_pton6 s = Some b → addr_ok (INET6 b)).

(** The network [n] of address [net] holds [a]: the leading bits agree, a mapped IPv6 address
    counting as the IPv4 address when the other one is IPv4. *)
Definition in_net (a net : sockaddr) (n : Z) : bool :=
  let n4 := Z.min (if (96 <? n)%Z then n - 96 else n) 32 in
  match a, net with
  | INET x, INET y => prefix_eq 32 (Z.min n 32) x y
  | INET6 x, INET6 y => prefix_eq 128 (Z.min n 128) (be_val 0 x) (be_val 0 y)
  | INET x, INET6 y => v4mapped y && prefix_eq 32 n4 x (be_val 0 (drop 12 y))
  | INET6 x, INET y => v4mapped x && prefix_eq 32 n4 (be_val 0 (drop 12 x)) y
  end.

Lemma unmap_val b : addr_ok (INET6 b) →
  _access_unmap_v4 b = be_val 0 (drop 12 b) ∧ (0 <= be_val 0 (drop 12 b) < 2 ^ 32)%Z.
Proof.
  intros [Hl Hb]. do 17 (destruct b as [|? b]; try done). clear Hl.
  apply (Forall_drop _ 12) in Hb. pose proof (be_val_range _ Hb) as Hr.
  unfold _access_unmap_v4, byte_at. cbn [drop be_val nth length] in *.
  change (256 ^ Z.of_nat 4)%Z with (2 ^ 32)%Z in Hr. split; [|done]. rewrite Z.mod_small; [lia|]. lia.
Qed.

Lemma check_match_spec a net n : addr_ok a → addr_ok net → (1 <= n)%Z →
  _access_check_match a net n = Some (in_net a net n).
Proof.
  intros Ha Hb Hn. destruct a as [x|x], net as [y|y]; cbn [_access_check_match in_net].
  - by apply match4_spec.
  - destruct (v4mapped y); [|done]. destruct (unmap_val y Hb) as [-> Hy].
    rewrite match4_spec by (done || destruct (Z.ltb_spec 96 n); lia). done.
  - destruct (v4mapped x); [|done]. destruct (unmap_val x Ha) as [-> Hx].
    rewrite match4_spec by (done || destruct (Z.ltb_spec 96 n); lia). done.
  - destruct Ha, Hb. apply match6_spec; try done. lia.
Qed.

Lemma search_rules_spec a rules : addr_ok a →
  Forall (λ r, addr_ok (rule_ip r) ∧ (1 <= rule_mask r)%Z) rules →
  search_rules a rules = Some (existsb (λ r, in_net a (rule_ip r) (rule_mask r)) rules).
Proof.
  intros Ha. induction 1 as [|r rules [Hr Hm] HF IH]; [done|]. simpl.
  rewrite check_match_spec by done. simpl. by destruct (in_net a (rule_ip r) (rule_mask r)).
Qed.

(** Rules given as text: networks whose mask leaves at least one bit. *)
Definition add_rules (allow : bool) (rules : list (string * string)) (acc : access) : access :=
  foldl (λ acc r, (if allow then access_allow inet_pton4 inet_pton6 acc r.1 r.2
                   else access_deny inet_pton4 inet_pton6 acc r.1 r.2).1) acc rules.

Definition parsed (rules : list (string * string)) : list access_rule :=
  omap (λ r, new_rule inet_pton4 inet_pton6 r.1 r.2) rules.

Lemma add_rules_spec allow rules acc :
  add_rules allow rules acc =
    if allow then Access (acc_order acc) (acc_allow acc ++ parsed rules) (acc_deny acc)
    else Access (acc_order acc) (acc_allow acc) (acc_deny acc ++ parsed rules).
Proof.
  unfold add_rules. revert acc. induction rules as [|r rules IH]; intros acc; simpl.
  { rewrite !app_nil_r. by destruct allow, acc. }
  rewrite IH. unfold access_allow, access_deny.
  destruct allow, (new_rule inet_pton4 inet_pton6 r.1 r.2); simpl; by rewrite <- ?app_assoc.
Qed.

Lemma new_rule_addr_ok ip mask r : new_rule inet_pton4 inet_pton6 ip mask = Some r → addr_ok (rule_ip r).
Proof.
  unfold new_rule, j_inet_pton. destruct (inet_pton4 ip) eqn:E4; simpl; [by intros [= <-]; eauto|].
  destruct (inet_pton6 ip) eqn:E6; simpl; [|done]. intros [= <-]. eauto.
Qed.
End spec.

(** ** Properties *)

(** A filter built from textual rules decides by networks: with order 0 an address is let in
    unless it is in a denied network and in no allowed one, with the other order only when it is
    in an allowed network and in no denied one; membership is equality of the leading bits, IPv4
    or IPv6, and a text that is not an address is refused. *)
Theorem access_check_spec inet_pton4 inet_pton6 order allow deny ip :
  (∀ s a, inet_pton4 s = Some a → addr_ok (INET a)) →
  (∀ s b, inet_pton6 s = Some b → addr_ok (INET6 b)) →
  Forall (λ r, 1 <= rule_mask r)%Z (parsed inet_pton4 inet_pton6 allow ++ parsed inet_pton4 inet_pton6 deny) →
  let acc := add_rules inet_pton4 inet_pton6 false deny
               (add_rules inet_pton4 inet_pton6 true allow (access_new order)) in
  let hit a rules := existsb (λ r, in_net a (rule_ip r) (rule_mask r)) (parsed inet_pton4 inet_pton6 rules) in
  access_check inet_pton4 inet_pton6 acc ip =
    Some (match j_inet_pton inet_pton4 inet_pton6 ip with
          | None => 0
          | Some a => if (order =? 0)%Z then Z.b2z (hit a allow || negb (hit a deny))
                      else Z.b2z (hit a allow && negb (hit a deny))
          end)%Z.
Proof.
  intros H4 H6 [Ha Hd]%Forall_app acc hit. unfold access_check.
  assert (acc = Access order (parsed inet_pton4 inet_pton6 allow) (parsed inet_pton4 inet_pton6 deny)) as ->
    by (unfold acc; by rewrite !add_rules_spec).
  assert (∀ rules, Forall (λ r, 1 <= rule_mask r)%Z (parsed inet_pton4 inet_pton6 rules) →
    Forall (λ r, addr_ok (rule_ip r) ∧ (1 <= rule_mask r)%Z) (parsed inet_pton4 inet_pton6 rules)) as Hok.
  { intros rules Hm. apply Forall_and. split; [|done]. apply Forall_forall. intros r.
    unfold parsed. rewrite list_elem_of_omap. intros ([i m] & _ & E). by eapply new_rule_addr_ok. }
  destruct (j_inet_pton inet_pton4 inet_pton6 ip) as [a|] eqn:E; [|done].
  assert (addr_ok a) as Haddr.
  { unfold j_inet_pton in E. destruct (inet_pton4 ip) eqn:E4; simplify_eq; [eauto|].
    destruct (inet_pton6 ip) eqn:E6; simplify_eq/=. eauto. }
  simpl. rewrite !search_rules_spec by auto. simpl. fold (hit a allow) (hit a deny).
  destruct (order =? 0)%Z, (hit a allow), (hit a deny); done.
Qed.

(** A parser that knows a few addresses. *)
Definition few_pton4 (s : string) : option Z :=
  if String.eqb s "10.1.0.0" then Some 0x0A010000%Z
  else if String.eqb s "10.1.2.3" then Some 0x0A010203%Z
  else if String.eqb s "255.255.0.0" then Some 0xFFFF0000%Z
  else if String.eqb s "0.0.0.0" then Some 0%Z
  else None.
Definition few_pton6 (s : string) : option (list Z) :=
  if String.eqb s "::ffff:10.1.2.3" then Some [0; 0; 0; 0; 0; 0; 0; 0; 0; 0; 255; 255; 10; 1; 2; 3]%Z else None.

Lemma few_pton4_ok s a : few_pton4 s = Some a → addr_ok (INET a).
Proof. unfold few_pton4. repeat (destruct (String.eqb s _); [intros [= <-]; simpl; lia|]). done. Qed.
Lemma few_pton6_ok s b : few_pton6 s = Some b → addr_ok (INET6 b).
Proof.
  unfold few_pton6. destruct (String.eqb s _); [|done]. intros [= <-]. split; [done|].
  repeat (constructor; [lia|]). constructor.
Qed.

Lemma access_check_spec_witness :
  let acc := add_rules few_pton4 few_pton6 false [("10.1.2.3", "32")]
               (add_rules few_pton4 few_pton6 true [("10.1.0.0", "255.255.0.0")] (access_new 1)) in
  access_check few_pton4 few_pton6 acc "::ffff:10.1.2.3" = Some 0%Z.
Proof.
  refine (access_check_spec few_pton4 few_pton6 1 [("10.1.0.0", "255.255.0.0")] [("10.1.2.3", "32")]
    "::ffff:10.1.2.3" few_pton4_ok few_pton6_ok _).
  vm_compute. repeat (constructor; [discriminate|]). constructor.
Defined.

(** An IPv4 rule whose mask leaves no bit, such as 0.0.0.0 with mask 0.0.0.0 or 0, makes
    every check of an IPv4 address shift by 32, which C leaves undefined. *)
Theorem access_zero_mask_undefined inet_pton4 inet_pton6 order ip a :
  inet_pton4 "0.0.0.0" = Some 0%Z → inet_pton4 ip = Some a →
  let acc := (access_allow inet_pton4 inet_pton6 (access_new order) "0.0.0.0" "0.0.0.0").1 in
  access_check inet_pton4 inet_pton6 acc ip = None.
Proof.
  intros H0 Ha. unfold access_allow, new_rule, j_inet_pton. rewrite H0. simpl.
  unfold _access_calc_netsize. rewrite H0. change (mask_loop 32 (int32 0)) with 0.
  unfold access_check, j_inet_pton. rewrite Ha. reflexivity.
Qed.

Lemma access_zero_mask_undefined_witness :
  access_check few_pton4 few_pton6
    (access_allow few_pton4 few_pton6 (access_new 1) "0.0.0.0" "0.0.0.0").1 "10.1.2.3" = None.
Proof. exact (access_zero_mask_undefined few_pton4 few_pton6 1 "10.1.2.3" 0x0A010203 eq_refl eq_refl). Defined.
