(* ===== verification/Jid.v ===== *)
(** * Jabber identifiers: util/jid.c

    A [jid] is its three components, the two strings derived from them with
    the dirty flag, and what [jid_data] points to.  The components are the
    strings read through the C pointers; the NULL pointers that [jid_static]
    leaves until the first reset are the empty string.  Whether [free] is
    called on a caller's static buffer is an outcome of its own.  The three
    profiles of the stringprep library are parameters: [None] is a failure. *)
From S2P Require Import Prelude.
From S2P Require Import CStr.

Definition MAXLEN_JID_COMP : nat := 1023.
Definition MAXLEN_JID : Z := 3071.

(** [jid_data]: NULL, or a buffer that is really static or not, with [jid_data_len]. *)
Inductive jdata := JNull | JBuf (static : bool) (len : Z).

(** [struct jid_st], without the list link. *)
Record jid := Jid {
  jid_node : string;
  jid_domain : string;
  jid_resource : string;
  jid_data : jdata;
  jid__user : option string;
  jid__full : option string;
  jid_dirty : bool
}.

(** What building a jid ends in: a jid, NULL with what is left in the struct,
    or [free] called on memory that was not allocated. *)
Inductive jres := JOk (j : jid) | JFail (j : jid) | JBadFree.

Definition free_ok (d : jdata) : bool :=
  match d with JBuf true _ => false | _ => true end.

(** The buffer a reset writes to: the one kept when [jid_data_len] is 0, else a new one. *)
Definition reset_buf (d : jdata) (len : Z) : option jdata :=
  match d with
  | JNull => Some (JBuf false (len + 1))
  | JBuf s l => if (l =? 0)%Z then Some (JBuf s 0)
                else if free_ok d then Some (JBuf false (len + 1)) else None
  end.

Inductive jid_part := PNODE | PDOMAIN | PRESOURCE.

Section jid.
Context (nodeprep nameprep resourceprep : string → option string).
(** The SHA-1 of a text, in hexadecimal. *)
Context (shahash_r : string → string).

Definition jid_prep_pieces (node domain resource : string) : option (string * string * string) :=
  n ← (if bool_decide (node = EmptyString) then Some node else nodeprep node);
  d ← nameprep domain;
  r ← (if bool_decide (resource = EmptyString) then Some resource else resourceprep resource);
  Some (n, d, r).

(** [jid_reset_components_internal] with [prepare] 0. *)
Definition reset_components_raw (j : jid) (node domain resource : string) : jres :=
  let node := stake MAXLEN_JID_COMP node in
  let domain := stake MAXLEN_JID_COMP domain in
  let resource := stake MAXLEN_JID_COMP resource in
  match reset_buf (jid_data j) (strlen node + strlen domain + strlen resource + 2) with
  | Some buf => JOk (Jid node domain resource buf None None true)
  | None => JBadFree
  end.

Definition jid_prep (j : jid) : jres :=
  let node := stake MAXLEN_JID_COMP (jid_node j) in
  let domain := stake MAXLEN_JID_COMP (jid_domain j) in
  let resource := stake MAXLEN_JID_COMP (jid_resource j) in
  match jid_prep_pieces node domain resource with
  | None => JFail j
  | Some (n, d, r) => reset_components_raw j n d r
  end.

Definition jid_reset_components (j : jid) (node domain resource : string) : jres :=
  match reset_components_raw j node domain resource with
  | JOk j =>
    match jid_prep j with
    (* NULL before the dirty flag is set *)
    | JFail j => JFail (Jid (jid_node j) (jid_domain j) (jid_resource j) (jid_data j) None None false)
    | r => r
    end
  | r => r
  end.

Definition empty_jid (d : jdata) : jid :=
  Jid EmptyString EmptyString EmptyString d None None true.

Definition jid_static : jid := empty_jid (JBuf true 0).

(** Everything up to [jid_prep]: the components of an id, [None] when it is refused. *)
Definition split_id (myid : string) : option (string * string * string) :=
  match myid with
  | String c _ =>
    if bool_decide (c = "/"%char) || bool_decide (c = "@"%char) then None
    else
      '(rest, resource) ←
        match split_at "/" myid with
        | None => Some (myid, EmptyString)
        | Some (a, b) => if bool_decide (b = EmptyString) then None else Some (a, b)
        end;
      match split_at "@" rest with
      | None => Some (EmptyString, rest, resource)
      | Some (a, b) => if bool_decide (b = EmptyString) then None else Some (a, b, resource)
      end
  | EmptyString => Some (EmptyString, EmptyString, EmptyString)
  end.

(** [id] and the number of its characters to use, all of them when [len] is negative. *)
Definition jid_reset (j : jid) (id : option string) (len : Z) : jres :=
  match id with
  | None => if reset_buf (jid_data j) 0 then JOk (empty_jid JNull) else JBadFree
  | Some id =>
    let len := if (len <? 0)%Z then strlen id else len in
    match reset_buf (jid_data j) len with
    | None => JBadFree
    | Some buf =>
      if ((len =? 0) || (MAXLEN_JID <? len))%Z then JFail (empty_jid JNull)
      else match split_id (stake (Z.to_nat len) id) with
           | None => JFail (empty_jid JNull)
           | Some (n, d, r) =>
             match jid_prep (Jid n d r buf None None true) with
             | JFail _ => JFail (Jid n d r JNull None None true)
             | r => r
             end
           end
    end
  end.

Definition jid_new (id : option string) (len : Z) : option jid :=
  match jid_reset (empty_jid JNull) id len with JOk j => Some j | _ => None end.

(** ** The derived strings *)

Definition user_str (node domain : string) : string :=
  if (strlen node =? 0)%Z then domain else node +:+ String "@" domain.
Definition full_str (user resource : string) : string :=
  if (strlen resource =? 0)%Z then user else user +:+ String "/" resource.

Definition jid_expand (j : jid) : jid :=
  if negb (jid_dirty j) && bool_decide (is_Some (jid__full j)) then j
  else if bool_decide (jid_domain j = EmptyString) then
    Jid (jid_node j) (jid_domain j) (jid_resource j) (jid_data j) (jid__user j) (Some EmptyString) (jid_dirty j)
  else
    let user := user_str (jid_node j) (jid_domain j) in
    Jid (jid_node j) (jid_domain j) (jid_resource j) (jid_data j)
        (Some user) (Some (full_str user (jid_resource j))) false.

Definition jid_user (j : jid) : jid * option string := let j := jid_expand j in (j, jid__user j).
Definition jid_full (j : jid) : jid * option string := let j := jid_expand j in (j, jid__full j).

(** [None]: [strcmp] on a NULL pointer. *)
Definition strcmp_opt (a b : option string) : option Z :=
  a ← a; b ← b; Some (strcmp a b).
Definition jid_compare_user (a b : jid) : jid * jid * option Z :=
  let a := jid_expand a in let b := jid_expand b in (a, b, strcmp_opt (jid__user a) (jid__user b)).
Definition jid_compare_full (a b : jid) : jid * jid * option Z :=
  let a := jid_expand a in let b := jid_expand b in (a, b, strcmp_opt (jid__full a) (jid__full b)).

(** The jid given, which loses its mark of being static, and its copy. *)
Definition jid_dup (j : jid) : jid * jid :=
  match jid_data j with
  | JNull => (j, j)
  | JBuf s len =>
    let len := (if len =? 0 then 3 * 1025 else len)%Z in
    let with_data d := Jid (jid_node j) (jid_domain j) (jid_resource j) d (jid__user j) (jid__full j) (jid_dirty j) in
    (with_data (JBuf s len), with_data (JBuf false len))
  end.

(** ** Lists of jids *)

Definition full_eq (r : option Z) : bool := bool_decide (r = Some 0%Z).

(** The list and the jid with their strings expanded, and the answer. *)
Fixpoint jid_search (list_ : list jid) (j : jid) : list jid * jid * bool :=
  match list_ with
  | [] => ([], j, false)
  | cur :: rest =>
    let '(cur, j, r) := jid_compare_full cur j in
    if full_eq r then (cur :: rest, j, true)
    else let '(rest, j, b) := jid_search rest j in (cur :: rest, j, b)
  end.

(** [jid_zap] looks at the head first, then at each [cur->next]. *)
Fixpoint zap_next (list_ : list jid) (j : jid) : list jid * jid :=
  match list_ with
  | [] => ([], j)
  | nxt :: rest =>
    let '(nxt, j, r) := jid_compare_full nxt j in
    if full_eq r then (rest, j)
    else let '(rest, j) := zap_next rest j in (nxt :: rest, j)
  end.

(** A NULL jid, like an empty list, gives the empty list. *)
Definition jid_zap (list_ : list jid) (j : option jid) : list jid * option jid :=
  match j, list_ with
  | None, _ => ([], None)
  | Some j, [] => ([], Some j)
  | Some j, hd :: rest =>
    let '(j, hd, r) := jid_compare_full j hd in
    if full_eq r then (rest, Some j)
    else let '(rest, j) := zap_next rest j in (hd :: rest, Some j)
  end.

Fixpoint jid_append (list_ : list jid) (j : jid) : list jid * jid :=
  match list_ with
  | [] => let '(j, new) := jid_dup j in ([new], j)
  | scan :: rest =>
    let '(scan, j, r) := jid_compare_full scan j in
    if full_eq r then (scan :: rest, j)
    else match rest with
         | [] => let '(j, new) := jid_dup j in ([scan; new], j)
         | _ => let '(rest, j) := jid_append rest j in (scan :: rest, j)
         end
  end.

(** The characters chosen by [rand]: a digit for 0, then the letters and what is below them. *)
Definition random_char (r : Z) : ascii :=
  char_of (if ((0 <=? r) && (r <=? 0))%Z then r + 48 else r + 87).

Definition jid_random_part (j : jid) (part : jid_part) (rs : list Z) : jres :=
  let hashBuf := shahash_r (String.string_of_list_ascii (random_char <$> rs)) in
  let r := match part with
           | PNODE => jid_reset_components j hashBuf (jid_domain j) (jid_resource j)
           | PDOMAIN => jid_reset_components j (jid_node j) hashBuf (jid_resource j)
           | PRESOURCE => jid_reset_components j (jid_node j) (jid_domain j) hashBuf
           end in
  match r with
  | JOk j | JFail j => match jid_prep j with JBadFree => JBadFree | JOk j | JFail j => JOk j end
  | JBadFree => JBadFree
  end.
End jid.

(** ** Lemmas: parsing *)

Definition render (node domain resource : string) : string :=
  full_str (user_str node domain) resource.

Lemma strlen_0 s : (strlen s =? 0)%Z = bool_decide (s = EmptyString).
Proof. by destruct s. Qed.

Lemma split_id_render id n d r : split_id id = Some (n, d, r) → id = render n d r ∧ (id ≠ EmptyString → d ≠ EmptyString).
Proof.
  unfold split_id, render, full_str, user_str. destruct id as [|c id]; [by intros [= <- <- <-]|].
  destruct (bool_decide (c = "/"%char) || bool_decide (c = "@"%char)) eqn:Ec; [done|].
  apply orb_false_iff in Ec as [H1%bool_decide_eq_false H2%bool_decide_eq_false].
  assert (∀ rest res, (rest = EmptyString → False) →
    match split_at "@" rest with
    | None => Some (EmptyString, rest, res)
    | Some (a, b) => if bool_decide (b = EmptyString) then None else Some (a, b, res)
    end = Some (n, d, r) → (∃ c' s', rest = String c' s' ∧ c' ≠ "@"%char) →
    rest = (if (strlen n =? 0)%Z then d else n +:+ String "@" d) ∧ r = res ∧ d ≠ EmptyString) as Hu.
  { intros rest res Hne Hm (c' & s' & -> & Hc').
    destruct (split_at "@" (String c' s')) as [[a b]|] eqn:Es.
    - case_bool_decide; [done|]. simplify_eq. apply split_at_Some in Es as Es'.
      rewrite strlen_0. destruct n as [|? n]; [by simplify_eq/=|]. rewrite bool_decide_false by done. done.
    - simplify_eq/=. done. }
  destruct (split_at "/" (String c id)) as [[a b]|] eqn:Es; simpl.
  - case_bool_decide; [done|]. simpl. apply split_at_Some in Es as Es'.
    destruct a as [|c' a']; [by simplify_eq/=|]. injection Es' as <- Eid. intros Hm.
    destruct (Hu (String c a') b ltac:(done) Hm) as (Ha & -> & Hd); [by eauto|]. rewrite <- Ha.
    split; [|done]. rewrite strlen_0, bool_decide_false by done. rewrite Eid. done.
  - intros Hm. destruct (Hu (String c id) EmptyString ltac:(done) Hm) as (Ha & -> & Hd); [by eauto|]. by rewrite <- Ha.
Qed.

(** Components that are written and read back as they are. *)
Record clean (n d r : string) : Prop := {
  clean_node : free_of "@" n ∧ free_of "/" n;
  clean_domain : d ≠ EmptyString ∧ free_of "/" d;
  clean_at : n = EmptyString → free_of "@" d
}.

Lemma free_of_cons c d s : free_of c (String d s) ↔ d ≠ c ∧ free_of c s.
Proof. simpl. rewrite andb_True, negb_True, bool_decide_spec. done. Qed.

Lemma split_id_clean n d r : clean n d r → split_id (render n d r) = Some (n, d, r).
Proof.
  intros [[Hn1 Hn2] [Hd1 Hd2] Hat]. unfold render.
  assert (∃ c s, user_str n d = String c s ∧ c ≠ "/"%char ∧ c ≠ "@"%char) as (c & s & Eu & H1 & H2).
  { unfold user_str. rewrite strlen_0. destruct n as [|c n].
    - rewrite bool_decide_true by done. destruct d as [|c d]; [done|].
      apply free_of_cons in Hd2 as [? _]. specialize (Hat eq_refl). apply free_of_cons in Hat as [? _]. eauto.
    - rewrite bool_decide_false by done. apply free_of_cons in Hn1 as [? _], Hn2 as [? _]. simpl. eauto. }
  assert (match split_at "@" (user_str n d) with
    | None => Some (EmptyString, user_str n d, r)
    | Some (a, b) => if bool_decide (b = EmptyString) then None else Some (a, b, r)
    end = Some (n, d, r)) as Hm.
  { unfold user_str. rewrite strlen_0. destruct n as [|c' n].
    - rewrite bool_decide_true, split_at_free by auto. done.
    - rewrite bool_decide_false by done. simpl app. rewrite (split_at_app "@" (String c' n) d) by done.
      by rewrite bool_decide_false. }
  assert (free_of "/" (user_str n d)) as Hf.
  { unfold user_str. destruct (strlen n =? 0)%Z; [done|]. rewrite free_of_app. apply andb_True. split; [done|].
    apply free_of_cons. done. }
  unfold full_str. rewrite strlen_0. case_bool_decide as Er; unfold split_id; rewrite Eu.
  - rewrite !bool_decide_false by done. cbn [orb]. rewrite <- Eu, split_at_free by done. simpl. by subst r.
  - change (String c s +:+ String "/" r) with (String c (s +:+ String "/" r)). cbv beta iota.
    rewrite (bool_decide_false (c = "/"%char)), (bool_decide_false (c = "@"%char)) by done. cbn [orb].
    change (String c (s +:+ String "/" r)) with (String c s +:+ String "/" r). rewrite <- Eu.
    rewrite split_at_app by done. rewrite bool_decide_false by done. simpl. by rewrite Hm.
Qed.

(** ** Lemmas: derived strings *)

(** The full string of a jid; an empty domain makes it empty. *)
Definition fullname (j : jid) : string :=
  if bool_decide (jid_domain j = EmptyString) then EmptyString
  else render (jid_node j) (jid_domain j) (jid_resource j).

Definition comps (j : jid) : string * string * string := (jid_node j, jid_domain j, jid_resource j).

(** A clean flag means that the strings kept are those of the components. *)
Definition coherent (j : jid) : Prop :=
  (no_nul (jid_node j) ∧ no_nul (jid_domain j) ∧ no_nul (jid_resource j)) ∧
  (jid_dirty j = false → ∀ f, jid__full j = Some f → f = fullname j).

Lemma jid_expand_comps j : comps (jid_expand j) = comps j ∧ jid_data (jid_expand j) = jid_data j.
Proof. unfold jid_expand. destruct (_ && _); [done|]. by case_bool_decide. Qed.

Lemma fullname_comps a b : comps a = comps b → fullname a = fullname b.
Proof. unfold fullname, comps. by intros [= -> -> ->]. Qed.

Lemma jid_expand_full j : coherent j →
  jid__full (jid_expand j) = Some (fullname j) ∧ coherent (jid_expand j).
Proof.
  intros [Hn Hc]. unfold jid_expand.
  destruct (negb (jid_dirty j) && bool_decide (is_Some (jid__full j))) eqn:E.
  - apply andb_true_iff in E as [E1%negb_true_iff [f Ef]%bool_decide_eq_true].
    split; [|done]. rewrite Ef. f_equal. auto.
  - unfold coherent, fullname, render in *. destruct (decide (jid_domain j = EmptyString)) as [Ed|Ed].
    + rewrite (bool_decide_true (_ = _)) by done. simpl. rewrite (bool_decide_true (_ = _)) by done.
      split; [done|]. split; [done|]. by intros _ f [= <-].
    + rewrite (bool_decide_false (_ = _)) by done. simpl. rewrite (bool_decide_false (_ = _)) by done.
      split; [done|]. split; [done|]. by intros _ f [= <-].
Qed.

Lemma no_nul_fullname j : coherent j → no_nul (fullname j).
Proof.
  intros [(Hn & Hd & Hr) _]. unfold fullname, render, full_str, user_str. case_bool_decide; [done|].
  assert (∀ a b c, no_nul a → no_nul b → c ≠ nul → no_nul (a +:+ String c b)) as H1.
  { intros a b c Ha Hb Hc. rewrite no_nul_app. apply andb_True. split; [done|].
    apply Is_true_true, no_nul_cons. split; [done|by apply Is_true_true]. }
  destruct (strlen (jid_resource j) =? 0)%Z, (strlen (jid_node j) =? 0)%Z; auto.
Qed.

Lemma compare_full_spec a b : coherent a → coherent b →
  let '(a', b', r) := jid_compare_full a b in
  full_eq r = bool_decide (fullname a = fullname b) ∧ coherent a' ∧ coherent b' ∧
  comps a' = comps a ∧ comps b' = comps b.
Proof.
  intros Ha Hb. unfold jid_compare_full.
  destruct (jid_expand_full a Ha) as [Ea Ha'], (jid_expand_full b Hb) as [Eb Hb'].
  split_and!; [|done|done|apply jid_expand_comps..]. rewrite Ea, Eb. unfold full_eq, strcmp_opt. simpl.
  apply bool_decide_ext. rewrite <- strcmp_eq by (by apply no_nul_fullname). split; congruence.
Qed.

Lemma jid_dup_spec j : coherent j →
  coherent (jid_dup j).1 ∧ coherent (jid_dup j).2 ∧ comps (jid_dup j).1 = comps j ∧ comps (jid_dup j).2 = comps j.
Proof. intros Hj. unfold jid_dup. destruct (jid_data j); simpl; [done|]. split_and!; done. Qed.

(** ** Lemmas: lists *)

Definition names (l : list jid) : list string := fullname <$> l.

Lemma names_cons c l : names (c :: l) = fullname c :: names l.
Proof. done. Qed.

(** Apart from the strings kept, the list and the jid are as before. *)
Definition same (l l' : list jid) : Prop := comps <$> l' = comps <$> l ∧ Forall coherent l'.

Lemma same_names l l' : same l l' → names l' = names l.
Proof.
  intros [E _]. unfold names. revert l E. induction l' as [|a l' IH]; intros [|b l] E; csimpl in *; try done.
  injection E. intros. f_equal; [apply fullname_comps; unfold comps; congruence|by apply IH].
Qed.

Lemma jid_search_spec l j : Forall coherent l → coherent j →
  let '(l', j', b) := jid_search l j in
  same l l' ∧ coherent j' ∧ comps j' = comps j ∧ b = bool_decide (fullname j ∈ names l).
Proof.
  intros Hl. revert j. induction Hl as [|c l Hc Hl IH]; intros j Hj; cbn [jid_search].
  { split_and!; done. }
  pose proof (compare_full_spec c j Hc Hj) as Hcmp. destruct (jid_compare_full c j) as [[c' j'] r].
  destruct Hcmp as (-> & Hc' & Hj' & Ec & Ej). case_bool_decide as Eq.
  - split_and!; try done; [split; [csimpl; congruence|by constructor]|].
    rewrite bool_decide_true; [done|]. csimpl. rewrite Eq. set_solver.
  - specialize (IH j' Hj'). destruct (jid_search l j') as [[l' j''] b].
    destruct IH as ([E1 E2] & H2 & H3 & ->). split_and!; [split; [csimpl; congruence|by constructor]|done|congruence|].
    rewrite (fullname_comps j' j) by done. csimpl. apply bool_decide_ext. rewrite elem_of_cons. naive_solver.
Qed.

(** Removing the first name that is equal. *)
Fixpoint remove_first (x : string) (l : list string) : list string :=
  match l with
  | [] => []
  | y :: l => if bool_decide (x = y) then l else y :: remove_first x l
  end.

Lemma zap_next_spec l j : Forall coherent l → coherent j →
  let '(l', j') := zap_next l j in
  names l' = remove_first (fullname j) (names l) ∧ Forall coherent l' ∧ coherent j' ∧ comps j' = comps j.
Proof.
  intros Hl. revert j. induction Hl as [|c l Hc Hl IH]; intros j Hj; cbn [zap_next]; [done|].
  pose proof (compare_full_spec c j Hc Hj) as Hcmp. destruct (jid_compare_full c j) as [[c' j'] r].
  destruct Hcmp as (-> & Hc' & Hj' & Ec & Ej). rewrite names_cons. cbn [remove_first]. case_bool_decide as Eq.
  - rewrite bool_decide_true by done. split_and!; try done.
  - specialize (IH j' Hj'). destruct (zap_next l j') as [l' j'']. destruct IH as (E1 & H2 & H3 & E4).
    rewrite bool_decide_false by congruence. split_and!; [|by constructor|done|congruence].
    rewrite names_cons, E1. f_equal; [by apply fullname_comps|]. by rewrite (fullname_comps j' j).
Qed.

Lemma jid_zap_spec l j : Forall coherent l → coherent j →
  ∃ l' j', jid_zap l (Some j) = (l', Some j') ∧ names l' = remove_first (fullname j) (names l) ∧
    Forall coherent l' ∧ coherent j' ∧ comps j' = comps j.
Proof.
  intros Hl Hj. destruct Hl as [|c l Hc Hl]; [by eexists _, _|]. cbn [jid_zap].
  pose proof (compare_full_spec j c Hj Hc) as Hcmp. destruct (jid_compare_full j c) as [[j' c'] r].
  destruct Hcmp as (-> & Hj' & Hc' & Ej & Ec). rewrite names_cons. cbn [remove_first].
  case_bool_decide as Eq; [by eexists _, _|].
  pose proof (zap_next_spec l j' Hl Hj') as Hz. destruct (zap_next l j') as [l' j''].
  destruct Hz as (E1 & H2 & H3 & E4). eexists _, _. split; [done|].
  split_and!; [|by constructor|done|congruence].
  rewrite names_cons, E1. f_equal; [by apply fullname_comps|]. by rewrite (fullname_comps j' j).
Qed.

Lemma jid_append_spec l j : Forall coherent l → coherent j →
  let '(l', j') := jid_append l j in
  names l' = (if bool_decide (fullname j ∈ names l) then names l else names l ++ [fullname j]) ∧
  Forall coherent l' ∧ coherent j' ∧ comps j' = comps j.
Proof.
  intros Hl. revert j. induction Hl as [|c l Hc Hl IH]; intros j Hj; cbn [jid_append].
  { destruct (jid_dup_spec j Hj) as (H1 & H2 & H3 & H4). destruct (jid_dup j) as [j1 j2].
    rewrite bool_decide_false by set_solver. split_and!; try done; [|by constructor].
    csimpl. f_equal. by apply fullname_comps. }
  pose proof (compare_full_spec c j Hc Hj) as Hcmp. destruct (jid_compare_full c j) as [[c' j'] r].
  destruct Hcmp as (-> & Hc' & Hj' & Ec & Ej).
  assert (fullname c' = fullname c) as Fc by by apply fullname_comps.
  assert (fullname j' = fullname j) as Fj by by apply fullname_comps.
  case_bool_decide as Eq.
  - rewrite bool_decide_true by (csimpl; rewrite Eq; set_solver). split_and!; try done; [|by constructor].
    csimpl. by rewrite Fc.
  - destruct l as [|d l].
    + destruct (jid_dup_spec j' Hj') as (H1 & H2 & H3 & H4). destruct (jid_dup j') as [j1 j2].
      rewrite bool_decide_false by (csimpl; set_solver). split_and!; [|by rewrite Forall_cons, Forall_singleton|done|simpl in *; congruence].
      csimpl. simpl in H4. rewrite Fc, (fullname_comps j2 j') by done. by rewrite Fj.
    + specialize (IH j' Hj'). destruct (jid_append (d :: l) j') as [l' j'']. destruct IH as (E1 & H2 & H3 & E4).
      split_and!; [|by constructor|done|congruence]. rewrite (names_cons c' l'), (names_cons c (d :: l)), E1, Fj, Fc.
      assert (fullname j ∈ fullname c :: names (d :: l) ↔ fullname j ∈ names (d :: l)) as Hm.
      { rewrite (elem_of_cons _ _ (fullname c)). naive_solver. }
      rewrite (bool_decide_ext _ _ Hm). repeat case_bool_decide; done.
Qed.

(** ** A list of jids as a set of names *)

Inductive list_op := LAppend (j : jid) | LZap (j : jid) | LSearch (j : jid).
Definition op_jid (o : list_op) : jid := match o with LAppend j | LZap j | LSearch j => j end.

Fixpoint run_list (l : list jid) (ops : list list_op) : list bool * list jid :=
  match ops with
  | [] => ([], l)
  | LAppend j :: ops => run_list (jid_append l j).1 ops
  | LZap j :: ops => run_list (jid_zap l (Some j)).1 ops
  | LSearch j :: ops =>
    let '(l, _, b) := jid_search l j in let '(bs, l) := run_list l ops in (b :: bs, l)
  end.

Fixpoint run_set (X : gset string) (ops : list list_op) : list bool * gset string :=
  match ops with
  | [] => ([], X)
  | LAppend j :: ops => run_set ({[fullname j]} ∪ X) ops
  | LZap j :: ops => run_set (X ∖ {[fullname j]}) ops
  | LSearch j :: ops =>
    let '(bs, X') := run_set X ops in (bool_decide (fullname j ∈ X) :: bs, X')
  end.

Lemma remove_first_set x l : NoDup l →
  NoDup (remove_first x l) ∧ ∀ y, y ∈ remove_first x l ↔ y ∈ l ∧ y ≠ x.
Proof.
  induction 1 as [|z l Hz Hl [IH1 IH2]]; simpl; [split; [constructor|set_solver]|].
  case_bool_decide; subst; [split; [done|set_solver]|].
  split; [apply NoDup_cons; split; [by rewrite IH2; tauto|done]|]. intros y. rewrite !elem_of_cons, IH2. naive_solver.
Qed.

Lemma run_list_set ops l X :
  Forall coherent l → Forall (λ o, coherent (op_jid o)) ops → NoDup (names l) → (∀ x, x ∈ names l ↔ x ∈ X) →
  (run_list l ops).1 = (run_set X ops).1 ∧ NoDup (names (run_list l ops).2) ∧
  ∀ x, x ∈ names (run_list l ops).2 ↔ x ∈ (run_set X ops).2.
Proof.
  intros Hl Ho. revert l X Hl. induction Ho as [|o ops Hj Ho IH]; intros l X Hl Hnd HX; [done|].
  destruct o as [j|j|j]; cbn [run_list run_set op_jid] in Hj |- *.
  - pose proof (jid_append_spec l j Hl Hj) as Ha. destruct (jid_append l j) as [l' j']. destruct Ha as (E & Hl' & _). cbn [fst].
    apply IH; [done|..].
    + rewrite E. case_bool_decide; [done|].
      apply NoDup_app. split_and!; [done|set_solver|apply NoDup_singleton].
    + intros x. rewrite E. case_bool_decide; set_solver.
  - destruct (jid_zap_spec l j Hl Hj) as (l' & j' & -> & E & Hl' & _). cbn [fst].
    destruct (remove_first_set (fullname j) (names l) Hnd) as [R1 R2].
    apply IH; [done|by rewrite E|]. intros x. rewrite E, R2, HX. set_solver.
  - pose proof (jid_search_spec l j Hl Hj) as Hs. destruct (jid_search l j) as [[l' j'] b].
    destruct Hs as (Hsm & _ & _ & ->). pose proof (same_names _ _ Hsm) as En. destruct Hsm as [_ Hl'].
    destruct (IH l' X) as (H1 & H2 & H3); [done|by rewrite En|by setoid_rewrite En|].
    destruct (run_list l' ops), (run_set X ops). simpl in *. split_and!; [|done|done].
    f_equal; [|done]. apply bool_decide_ext, HX.
Qed.

(** ** Lemmas: resetting *)

Section reset_lemmas.
Context (nodeprep nameprep resourceprep : string → option string).
Notation jid_reset := (jid_reset nodeprep nameprep resourceprep).
Notation jid_prep_pieces := (jid_prep_pieces nodeprep nameprep resourceprep).

Lemma stake_idem n s : stake n (stake n s) = stake n s.
Proof. apply stake_ge. rewrite stake_length. lia. Qed.

Lemma reset_buf_idem d len len' : match reset_buf d len with Some b => is_Some (reset_buf b len') | None => True end.
Proof.
  destruct d as [|s l]; simpl; [destruct (_ =? 0)%Z; eauto|]. destruct (l =? 0)%Z; simpl; [eauto|].
  destruct s; simpl; [done|]. destruct (_ =? 0)%Z; eauto.
Qed.

(** What a reset with a text ends in. *)
Lemma jid_reset_cases j id len :
  let len' := if (len <? 0)%Z then strlen id else len in
  free_ok (jid_data j) ∨ jid_data j = JBuf true 0 →
  match (if ((len' =? 0) || (MAXLEN_JID <? len'))%Z then None
         else '(n, d, r) ← split_id (stake (Z.to_nat len') id);
              jid_prep_pieces (stake MAXLEN_JID_COMP n) (stake MAXLEN_JID_COMP d) (stake MAXLEN_JID_COMP r)) with
  | Some (n, d, r) => ∃ buf, jid_reset j (Some id) len =
      JOk (Jid (stake MAXLEN_JID_COMP n) (stake MAXLEN_JID_COMP d) (stake MAXLEN_JID_COMP r) buf None None true)
  | None => ∃ j', jid_reset j (Some id) len = JFail j'
  end.
Proof.
  intros len' Hd. unfold Jid.jid_reset. fold len'.
  assert (∃ b, reset_buf (jid_data j) len' = Some b) as [b Eb].
  { destruct (jid_data j) as [|s l]; simpl in *; [by eexists|]. destruct (Z.eqb_spec l 0); [by eexists|].
    destruct s; [naive_solver|by eexists]. }
  rewrite Eb. destruct (_ || _); [by eexists|].
  destruct (split_id (stake (Z.to_nat len') id)) as [[[n d] r]|]; simpl; [|by eexists].
  unfold jid_prep. simpl. destruct (jid_prep_pieces _ _ _) as [[[n' d'] r']|]; [|by eexists].
  unfold reset_components_raw. cbn [Jid.jid_data].
  match goal with |- context [reset_buf b ?l] =>
    pose proof (reset_buf_idem (jid_data j) len' l) as Hb; rewrite Eb in Hb; destruct Hb as [b' Hb']; rewrite Hb'
  end.
  by eexists.
Qed.
End reset_lemmas.

(** ** Properties *)

Section properties.
Context (nodeprep nameprep resourceprep : string → option string).
Notation jid_reset := (jid_reset nodeprep nameprep resourceprep).

(** Components that the profiles leave as they are, within their length. *)
Record prepared (n d r : string) : Prop := {
  prep_node : n = EmptyString ∨ nodeprep n = Some n;
  prep_domain : nameprep d = Some d;
  prep_resource : r = EmptyString ∨ resourceprep r = Some r;
  prep_lengths : String.length n ≤ 1023 ∧ String.length d ≤ 1023 ∧ String.length r ≤ 1023
}.

Lemma prep_pieces_prepared n d r : prepared n d r →
  jid_prep_pieces nodeprep nameprep resourceprep n d r = Some (n, d, r).
Proof.
  intros [Hn Hd Hr _]. unfold jid_prep_pieces.
  case_bool_decide as En; destruct Hn as [|Hn]; try done; rewrite ?Hn; simpl; rewrite Hd; simpl;
  case_bool_decide as Er; destruct Hr as [|Hr]; try done; by rewrite Hr.
Qed.

Lemma render_length n d r : clean n d r →
  (0 < strlen (render n d r) <= 1 + 1 + strlen n + strlen d + strlen r)%Z.
Proof.
  intros [_ [Hd _] _]. unfold render, full_str, user_str. rewrite !strlen_0.
  destruct d as [|c d]; [done|]. do 2 case_bool_decide; unfold strlen; rewrite ?sapp_length; simpl; rewrite ?sapp_length; simpl; lia.
Qed.

(** An identifier written out from components that the profiles accept is parsed back to
    those components, and expands to the text it was parsed from. *)
Theorem jid_roundtrip j n d r :
  free_ok (jid_data j) ∨ jid_data j = JBuf true 0 → clean n d r → prepared n d r →
  ∃ j', jid_reset j (Some (render n d r)) (-1) = JOk j' ∧ comps j' = (n, d, r) ∧
    (jid_full j').2 = Some (render n d r) ∧ (jid_user j').2 = Some (user_str n d).
Proof.
  intros Hj Hc Hp. pose proof (render_length n d r Hc) as Hlen. pose proof Hp as [_ _ _ (L1 & L2 & L3)].
  pose proof (jid_reset_cases nodeprep nameprep resourceprep j (render n d r) (-1)) as Hcs. cbv zeta in Hcs.
  change (-1 <? 0)%Z with true in Hcs. cbv iota in Hcs. specialize (Hcs Hj).
  destruct (Z.eqb_spec (strlen (render n d r)) 0); [lia|].
  destruct (Z.ltb_spec MAXLEN_JID (strlen (render n d r))); [unfold MAXLEN_JID, strlen in *; lia|].
  cbn [orb] in Hcs. unfold strlen in Hcs. rewrite Nat2Z.id, stake_all, split_id_clean in Hcs by done.
  assert (∀ s, String.length s ≤ 1023 → stake MAXLEN_JID_COMP s = s) as Hst by (intros; by apply stake_ge).
  cbn [mbind option_bind] in Hcs. rewrite (Hst n L1), (Hst d L2), (Hst r L3), prep_pieces_prepared in Hcs by done.
  rewrite (Hst n L1), (Hst d L2), (Hst r L3) in Hcs. destruct Hcs as [buf ->].
  exists (Jid n d r buf None None true). split; [done|]. split; [done|].
  destruct Hc as [_ [Hd _] _]. unfold jid_full, jid_user, jid_expand. simpl. by rewrite bool_decide_false.
Qed.

(** An identifier is accepted only when it has the shape [node@domain/resource], node and
    resource being optional, is at most 3071 characters long and its pieces pass their profiles;
    the jid then holds the prepared pieces, each cut to 1023 characters. *)
Theorem jid_reset_sound j id j' :
  free_ok (jid_data j) ∨ jid_data j = JBuf true 0 → jid_reset j (Some id) (-1) = JOk j' →
  (0 < strlen id <= MAXLEN_JID)%Z ∧
  ∃ n d r n' d' r', id = render n d r ∧ d ≠ EmptyString ∧
    jid_prep_pieces nodeprep nameprep resourceprep
      (stake MAXLEN_JID_COMP n) (stake MAXLEN_JID_COMP d) (stake MAXLEN_JID_COMP r) = Some (n', d', r') ∧
    comps j' = (stake MAXLEN_JID_COMP n', stake MAXLEN_JID_COMP d', stake MAXLEN_JID_COMP r').
Proof.
  intros Hj E. pose proof (jid_reset_cases nodeprep nameprep resourceprep j id (-1) Hj) as Hcs. cbv zeta in Hcs.
  change (-1 <? 0)%Z with true in Hcs. cbv iota in Hcs. pose proof (strlen_nonneg id).
  destruct (Z.eqb_spec (strlen id) 0) as [|Hne]; [destruct Hcs; congruence|].
  destruct (Z.ltb_spec MAXLEN_JID (strlen id)); [destruct Hcs; congruence|]. cbn [orb] in Hcs.
  split; [lia|]. unfold strlen in Hcs. rewrite Nat2Z.id, stake_all in Hcs.
  destruct (split_id id) as [[[n d] r]|] eqn:Es; cbn [mbind option_bind] in Hcs; [|destruct Hcs; congruence].
  destruct (split_id_render _ _ _ _ Es) as [Eid Hd].
  destruct (jid_prep_pieces _ _ _ _ _ _) as [[[n' d'] r']|] eqn:Ep; [|destruct Hcs; congruence].
  destruct Hcs as [buf Hcs]. rewrite Hcs in E. injection E as <-.
  exists n, d, r, n', d', r'. split_and!; try done. apply Hd. intros ->. by apply Hne.
Qed.
End properties.

(** The profiles that change nothing. *)
Definition prep_id (s : string) : option string := Some s.

Lemma jid_roundtrip_witness :
  ∃ j', jid_reset prep_id prep_id prep_id jid_static (Some "romeo@montague.net/orchard") (-1) = JOk j' ∧
    comps j' = ("romeo", "montague.net", "orchard") ∧
    (jid_full j').2 = Some "romeo@montague.net/orchard" ∧ (jid_user j').2 = Some "romeo@montague.net".
Proof.
  apply (jid_roundtrip prep_id prep_id prep_id jid_static "romeo" "montague.net" "orchard").
  - by right.
  - split; [done|done|done].
  - split; [by right|done|by right|simpl; lia].
Defined.

Lemma jid_reset_sound_witness :
  (0 < strlen "a@b" <= MAXLEN_JID)%Z ∧
  ∃ n d r n' d' r', "a@b" = render n d r ∧ d ≠ EmptyString ∧
    jid_prep_pieces prep_id prep_id prep_id
      (stake MAXLEN_JID_COMP n) (stake MAXLEN_JID_COMP d) (stake MAXLEN_JID_COMP r) = Some (n', d', r') ∧
    ("a", "b", EmptyString) = (stake MAXLEN_JID_COMP n', stake MAXLEN_JID_COMP d', stake MAXLEN_JID_COMP r').
Proof.
  exact (jid_reset_sound prep_id prep_id prep_id jid_static "a@b" (Jid "a" "b" "" (JBuf true 0) None None true)
    (or_intror eq_refl) eq_refl).
Defined.

(** Two jids with clean components compare equal exactly when their components are equal. *)
Theorem jid_compare_full_eq a b :
  coherent a → coherent b →
  clean (jid_node a) (jid_domain a) (jid_resource a) → clean (jid_node b) (jid_domain b) (jid_resource b) →
  (jid_compare_full a b).2 = Some 0%Z ↔ comps a = comps b.
Proof.
  intros Ha Hb Ca Cb. pose proof (compare_full_spec a b Ha Hb) as Hs.
  destruct (jid_compare_full a b) as [[a' b'] r]. destruct Hs as [Hs _]. simpl. unfold full_eq in Hs.
  assert (r = Some 0%Z ↔ fullname a = fullname b) as ->.
  { destruct (decide (r = Some 0%Z)), (decide (fullname a = fullname b)); try done; exfalso;
    revert Hs; repeat case_bool_decide; done. }
  split; [|apply fullname_comps]. unfold fullname.
  rewrite !bool_decide_false by (by destruct Ca as [_ [? _] _], Cb as [_ [? _] _]).
  intros E. pose proof (split_id_clean _ _ _ Ca) as Ea. rewrite E, split_id_clean in Ea by done.
  unfold comps. congruence.
Qed.

Definition jid_of (n d r : string) : jid := Jid n d r JNull None None true.

Lemma jid_compare_full_eq_witness :
  (jid_compare_full (jid_of "a" "b" "c") (jid_of "a" "b" "d")).2 = Some 0%Z ↔
  comps (jid_of "a" "b" "c") = comps (jid_of "a" "b" "d").
Proof. by apply (jid_compare_full_eq (jid_of "a" "b" "c") (jid_of "a" "b" "d")). Defined.

(** Lists of jids are sets of full names: after any sequence of [jid_append] and [jid_zap]
    from the empty list, [jid_search] answers membership, and the list has no duplicates. *)
Theorem jid_list_refines_set ops :
  Forall (λ o, coherent (op_jid o)) ops →
  (run_list [] ops).1 = (run_set ∅ ops).1 ∧ NoDup (names (run_list [] ops).2) ∧
  ∀ x, x ∈ names (run_list [] ops).2 ↔ x ∈ (run_set ∅ ops).2.
Proof. intros Ho. apply run_list_set; try done; [apply NoDup_nil_2|set_solver]. Qed.

Lemma jid_list_refines_set_witness :
  let a := jid_of "a" "b" "c" in let b := jid_of "a" "b" "d" in
  (run_list [] [LAppend a; LAppend b; LAppend a; LZap a; LSearch a; LSearch b]).1 =
  (run_set ∅ [LAppend a; LAppend b; LAppend a; LZap a; LSearch a; LSearch b]).1 ∧
  NoDup (names (run_list [] [LAppend a; LAppend b; LAppend a; LZap a; LSearch a; LSearch b]).2) ∧
  ∀ x, x ∈ names (run_list [] [LAppend a; LAppend b; LAppend a; LZap a; LSearch a; LSearch b]).2 ↔
       x ∈ (run_set ∅ [LAppend a; LAppend b; LAppend a; LZap a; LSearch a; LSearch b]).2.
Proof. apply jid_list_refines_set. by repeat constructor. Defined.

(** Copying a jid that uses a static buffer marks the original's buffer as allocated, so the
    next reset of the original frees memory that was never allocated. *)
Theorem jid_dup_frees_static nodeprep nameprep resourceprep n d r u f dirty id len :
  let j := Jid n d r (JBuf true 0) u f dirty in
  jid_reset nodeprep nameprep resourceprep (jid_dup j).1 id len = JBadFree.
Proof. destruct id; reflexivity. Qed.

(** A node longer than 1023 characters is not refused but cut, so two different identifiers
    name the same user. *)
Theorem jid_long_node_truncated :
  let long c := String.string_of_list_ascii (replicate 1023 "a"%char ++ [c]) +:+ "@example.org" in
  (long "b"%char ≠ long "c"%char) ∧
  comps <$> jid_new prep_id prep_id prep_id (Some (long "b"%char)) (-1) =
    comps <$> jid_new prep_id prep_id prep_id (Some (long "c"%char)) (-1) ∧
  is_Some (jid_new prep_id prep_id prep_id (Some (long "b"%char)) (-1)).
Proof. vm_compute. split; [discriminate|]. split; [reflexivity|eauto]. Qed.
