(* ===== verification/Nad.v ===== *)
(** * Not-a-DOM: util/nad.c

    A nad keeps an XML document in arrays: elements in document order with
    their depth and the index of their parent, attributes and namespaces in
    chains linked by index, and all text in one growing buffer.  The arrays
    are lists, their [..cur] counters the lengths; indices are integers, -1
    ending a chain as in the code.  The byte capacities ([elen], [alen],
    [nlen], [clen], [dlen]) only say when to call realloc and are not kept.
    The [depths] array, which the appending operations use, is a map from
    depths to elements: realloc leaves its other entries indeterminate. *)
From S2P Require Import Prelude.
From S2P Require Import CStr.
From S2P Require Import Codec.

Notation text := (list ascii) (only parsing).
Definition tx (s : string) : text := String.list_ascii_of_string s.

(** ** State *)

(** [struct nad_elem_st] *)
Record nelem := Elem {
  e_parent : Z; e_iname : Z; e_lname : Z;
  e_icdata : Z; e_lcdata : Z; e_itail : Z; e_ltail : Z;
  e_attr : Z; e_ns : Z; e_my_ns : Z; e_depth : Z
}.
(** [struct nad_attr_st] *)
Record nattr := Attr { a_iname : Z; a_lname : Z; a_ival : Z; a_lval : Z; a_my_ns : Z; a_next : Z }.
(** [struct nad_ns_st] *)
Record nns := Ns { n_iuri : Z; n_luri : Z; n_iprefix : Z; n_lprefix : Z; n_next : Z }.

(** [struct nad_st] *)
Record nad := Nad {
  elems : list nelem;
  attrs : list nattr;
  nss : list nns;
  cdata : text;
  depths : gmap Z Z;
  scope : Z
}.

Definition ecur (n : nad) : Z := Z.of_nat (length (elems n)).
Definition acur (n : nad) : Z := Z.of_nat (length (attrs n)).
Definition ncur (n : nad) : Z := Z.of_nat (length (nss n)).
Definition ccur (n : nad) : Z := Z.of_nat (length (cdata n)).

(** Reading an array; what an index out of range reads is never used. *)
Definition elem0 : nelem := Elem (-1) 0 0 0 0 0 0 (-1) (-1) (-1) 0.
Definition attr0 : nattr := Attr 0 0 0 0 (-1) (-1).
Definition ns0 : nns := Ns 0 0 (-1) 0 (-1).
Definition elem_at (n : nad) (i : Z) : nelem := nth (Z.to_nat i) (elems n) elem0.
Definition attr_at (n : nad) (i : Z) : nattr := nth (Z.to_nat i) (attrs n) attr0.
Definition ns_at (n : nad) (i : Z) : nns := nth (Z.to_nat i) (nss n) ns0.

Definition slice (c : text) (i l : Z) : text := take (Z.to_nat l) (drop (Z.to_nat i) c).

(** The macros of nad.h. *)
Definition nad_ename (n : nad) (e : Z) : text := slice (cdata n) (e_iname (elem_at n e)) (e_lname (elem_at n e)).
Definition nad_cdata (n : nad) (e : Z) : text := slice (cdata n) (e_icdata (elem_at n e)) (e_lcdata (elem_at n e)).
Definition nad_tail (n : nad) (e : Z) : text := slice (cdata n) (e_itail (elem_at n e)) (e_ltail (elem_at n e)).
Definition nad_aname (n : nad) (a : Z) : text := slice (cdata n) (a_iname (attr_at n a)) (a_lname (attr_at n a)).
Definition nad_aval (n : nad) (a : Z) : text := slice (cdata n) (a_ival (attr_at n a)) (a_lval (attr_at n a)).
Definition nad_nuri (n : nad) (s : Z) : text := slice (cdata n) (n_iuri (ns_at n s)) (n_luri (ns_at n s)).
Definition nad_nprefix (n : nad) (s : Z) : text := slice (cdata n) (n_iprefix (ns_at n s)) (n_lprefix (ns_at n s)).
Definition nad_ens (n : nad) (e : Z) : Z := e_my_ns (elem_at n e).

(** Lengths equal and [strncmp] zero over that length. *)
Definition same_text (l : Z) (t : text) (s : text) : bool :=
  (l =? Z.of_nat (length s))%Z && bool_decide (t = s).

(** ** Building *)

Definition nad_new : nad := Nad [] [] [] [] ∅ (-1).

(** The depths array is not copied. *)
Definition nad_copy (n : nad) : nad := Nad (elems n) (attrs n) (nss n) (cdata n) ∅ (scope n).

Definition _nad_cdata (n : nad) (t : text) : nad * Z :=
  (Nad (elems n) (attrs n) (nss n) (cdata n ++ t) (depths n) (scope n), ccur n).

Definition set_elems (n : nad) (es : list nelem) : nad := Nad es (attrs n) (nss n) (cdata n) (depths n) (scope n).
Definition set_scope (n : nad) (s : Z) : nad := Nad (elems n) (attrs n) (nss n) (cdata n) (depths n) s.
Definition upd_elem (n : nad) (i : Z) (f : nelem → nelem) : nad := set_elems n (alter f (Z.to_nat i) (elems n)).
Definition upd_attr (n : nad) (i : Z) (f : nattr → nattr) : nad :=
  Nad (elems n) (alter f (Z.to_nat i) (attrs n)) (nss n) (cdata n) (depths n) (scope n).
Definition push_attr (n : nad) (a : nattr) : nad :=
  Nad (elems n) (attrs n ++ [a]) (nss n) (cdata n) (depths n) (scope n).
Definition push_ns (n : nad) (s : nns) : nad :=
  Nad (elems n) (attrs n) (nss n ++ [s]) (cdata n) (depths n) (scope n).

Definition set_attr_head (a : Z) (e : nelem) : nelem :=
  Elem (e_parent e) (e_iname e) (e_lname e) (e_icdata e) (e_lcdata e) (e_itail e) (e_ltail e) a (e_ns e) (e_my_ns e) (e_depth e).
Definition set_ns_head (s : Z) (e : nelem) : nelem :=
  Elem (e_parent e) (e_iname e) (e_lname e) (e_icdata e) (e_lcdata e) (e_itail e) (e_ltail e) (e_attr e) s (e_my_ns e) (e_depth e).
Definition set_parent (p : Z) (e : nelem) : nelem :=
  Elem p (e_iname e) (e_lname e) (e_icdata e) (e_lcdata e) (e_itail e) (e_ltail e) (e_attr e) (e_ns e) (e_my_ns e) (e_depth e).
Definition set_depth (d : Z) (e : nelem) : nelem :=
  Elem (e_parent e) (e_iname e) (e_lname e) (e_icdata e) (e_lcdata e) (e_itail e) (e_ltail e) (e_attr e) (e_ns e) (e_my_ns e) d.
Definition set_cdata_at (i l : Z) (e : nelem) : nelem :=
  Elem (e_parent e) (e_iname e) (e_lname e) i l (e_itail e) (e_ltail e) (e_attr e) (e_ns e) (e_my_ns e) (e_depth e).
Definition set_tail_at (i l : Z) (e : nelem) : nelem :=
  Elem (e_parent e) (e_iname e) (e_lname e) (e_icdata e) (e_lcdata e) i l (e_attr e) (e_ns e) (e_my_ns e) (e_depth e).

(** [val] and [vallen]: the part of [val] that is stored. *)
Definition val_text (val : string) (vallen : Z) : text :=
  if (0 <? vallen)%Z then take (Z.to_nat vallen) (tx val) else tx val.

Definition _nad_attr (n : nad) (elem ns : Z) (name val : string) (vallen : Z) : nad * Z :=
  let attr := acur n in
  let next := e_attr (elem_at n elem) in
  let n := upd_elem n elem (set_attr_head attr) in
  let '(n, iname) := _nad_cdata n (tx name) in
  let '(n, ival) := _nad_cdata n (val_text val vallen) in
  (push_attr n (Attr iname (Z.of_nat (length (tx name))) ival (Z.of_nat (length (val_text val vallen))) ns next), attr).

(** ** Searching *)

(** The namespace test of [nad_find_elem] and [nad_find_attr]. *)
Definition ns_match (n : nad) (ns my_ns : Z) : bool :=
  (ns <? 0)%Z || ((0 <=? my_ns)%Z && same_text (n_luri (ns_at n my_ns)) (nad_nuri n my_ns) (nad_nuri n ns)).

Definition name_match (n : nad) (e : nelem) (name : option string) : bool :=
  match name with
  | None => true
  | Some s => (strlen s <=? 0)%Z || same_text (e_lname e) (slice (cdata n) (e_iname e) (e_lname e)) (tx s)
  end.

(** [for(elem++; elem < ecur; elem++)], on what follows the element. *)
Fixpoint find_elem_loop (n : nad) (es : list nelem) (i : Z) (ns : Z) (name : option string) (depth : Z) : Z :=
  match es with
  | [] => -1
  | e :: es =>
    if (e_depth e <? depth)%Z then -1
    else if (e_depth e =? depth)%Z && name_match n e name && ns_match n ns (e_my_ns e) then i
    else find_elem_loop n es (i + 1) ns name depth
  end%Z.

Definition nad_find_elem (n : nad) (elem ns : Z) (name : option string) (depth : Z) : Z :=
  if ((elem <? 0) || (ecur n <=? elem))%Z then -1
  else find_elem_loop n (drop (Z.to_nat elem + 1) (elems n)) (elem + 1) ns name (e_depth (elem_at n elem) + depth).

(** A chain of attributes or namespaces is as long as its array at most. *)
Fixpoint find_attr_loop (fuel : nat) (n : nad) (attr ns : Z) (name : string) (val : option string) : Z :=
  match fuel with
  | O => -1
  | S f =>
    if (attr <? 0)%Z then -1 else
    let a := attr_at n attr in
    if same_text (a_lname a) (slice (cdata n) (a_iname a) (a_lname a)) (tx name) &&
       match val with
       | None => true
       | Some v => (strlen v <=? 0)%Z || same_text (a_lval a) (slice (cdata n) (a_ival a) (a_lval a)) (tx v)
       end && ns_match n ns (a_my_ns a)
    then attr
    else find_attr_loop f n (a_next a) ns name val
  end%Z.

Definition nad_find_attr (n : nad) (elem ns : Z) (name : string) (val : option string) : Z :=
  if ((elem <? 0) || (ecur n <=? elem))%Z then -1
  else find_attr_loop (S (length (attrs n))) n (e_attr (elem_at n elem)) ns name val.

(** The test of the two namespace searches: the URI, and the prefix when one is given. *)
Definition uri_match (n : nad) (s : Z) (uri : string) (prefix : option string) : bool :=
  same_text (n_luri (ns_at n s)) (nad_nuri n s) (tx uri) &&
  match prefix with
  | None => true
  | Some p => (0 <=? n_iprefix (ns_at n s))%Z && same_text (n_lprefix (ns_at n s)) (nad_nprefix n s) (tx p)
  end.

Fixpoint ns_chain_loop (fuel : nat) (n : nad) (s : Z) (uri : string) (prefix : option string) : Z :=
  match fuel with
  | O => -1
  | S f =>
    if (s <? 0)%Z then -1
    else if uri_match n s uri prefix then s
    else ns_chain_loop f n (n_next (ns_at n s)) uri prefix
  end%Z.

(** From the element up through its parents. *)
Fixpoint find_namespace_loop (fuel : nat) (n : nad) (check : Z) (uri : string) (prefix : option string) : Z :=
  match fuel with
  | O => -1
  | S f =>
    if (check <? 0)%Z then -1
    else
      let s := ns_chain_loop (S (length (nss n))) n (e_ns (elem_at n check)) uri prefix in
      if (0 <=? s)%Z then s else find_namespace_loop f n (e_parent (elem_at n check)) uri prefix
  end%Z.

Definition nad_find_namespace (n : nad) (elem : Z) (uri : option string) (prefix : option string) : Z :=
  match uri with
  | None => -1
  | Some uri =>
    if ((elem <? 0) || (ecur n <=? elem))%Z then -1
    else find_namespace_loop (S (length (elems n))) n elem uri prefix
  end%Z.

Fixpoint find_scoped_loop (n : nad) (k : nat) (s : Z) (uri : string) (prefix : option string) : Z :=
  match k with
  | O => -1
  | S k => if uri_match n s uri prefix then s else find_scoped_loop n k (s + 1) uri prefix
  end%Z.

Definition nad_find_scoped_namespace (n : nad) (uri : string) (prefix : option string) : Z :=
  find_scoped_loop n (length (nss n)) 0 uri prefix.

(** The offset of a character. *)
Fixpoint index_of (c : ascii) (s : text) : option nat :=
  match s with
  | [] => None
  | d :: s => if bool_decide (d = c) then Some 0 else S <$> index_of c s
  end.

(** The C string at an offset of a buffer, and storing a NUL there. *)
Definition str_at (p : nat) (s : text) : string := cstr_of (drop p s).
Definition put_nul (p : option nat) (s : text) : text := match p with None => s | Some p => <[p := nul]> s end.

(** [slash == NULL || p < slash] *)
Definition before_slash (p slash : option nat) : option nat :=
  p ← p;
  match slash with None => Some p | Some s => if decide (p < s) then Some p else None end.

(** The children of an element with a name, from the first that passes a test. *)
Fixpoint sibling_loop (fuel : nat) (n : nad) (ns : Z) (name : string) (test : Z → bool) (el : Z) : Z :=
  match fuel with
  | O => el
  | S f =>
    if (el <? 0)%Z then el
    else if test el then el
    else sibling_loop f n ns name test (nad_find_elem n el ns (Some name) 0)
  end.

Definition attr_test (n : nad) (ns : Z) (attr : string) (value : option string) (el : Z) : bool :=
  if String.eqb attr "xmlns" then (0 <=? nad_find_namespace n el value None)%Z
  else (0 <=? nad_find_attr n el ns attr value)%Z.

(** [fuel] bounds the depth of the recursion on the rest of the path. *)
Fixpoint find_elem_path (fuel : nat) (n : nad) (elem ns : Z) (name : string) : Z :=
  match fuel with
  | O => -1
  | S f =>
    if ((elem <? 0) || (ecur n <=? elem))%Z then -1 else
    let str := tx name in
    let slash := index_of "/" str in
    let qmark := index_of "?" str in
    let excl := index_of "!" str in
    let equals := index_of "=" str in
    match slash, qmark, excl with
    | None, None, None => nad_find_elem n elem ns (Some name) 1
    | _, _, _ =>
      match before_slash qmark slash with
      | Some q =>
        let str := put_nul equals (put_nul (Some q) (str ++ [nul])) in
        let value := (λ e, str_at (S e) str) <$> equals in
        sibling_loop (S (length (elems n))) n ns (str_at 0 str) (attr_test n ns (str_at (S q) str) value)
          (nad_find_elem n elem ns (Some (str_at 0 str)) 1)
      | None =>
        match before_slash excl slash with
        | Some x =>
          let str := put_nul equals (put_nul (Some x) (str ++ [nul])) in
          let value := (λ e, str_at (S e) str) <$> equals in
          sibling_loop (S (length (elems n))) n ns (str_at 0 str)
            (λ el, negb (attr_test n ns (str_at (S x) str) value el))
            (nad_find_elem n elem ns (Some (str_at 0 str)) 1)
        | None =>
          match slash with
          | Some s =>
            let str := put_nul (Some s) (str ++ [nul]) in
            let el := nad_find_elem n elem ns (Some (str_at 0 str)) 1 in
            if (el <? 0)%Z then el
            else
              (* [el] becomes the result: a failure leaves no sibling to go on with *)
              let el := find_elem_path f n el ns (str_at (S s) str) in
              if (0 <=? el)%Z then el
              else nad_find_elem n el ns (Some (str_at 0 str)) 0
          | None => -1
          end
        end
      end
    end
  end%Z.

Definition nad_find_elem_path (n : nad) (elem ns : Z) (name : option string) : Z :=
  match name with
  | None => -1
  | Some s => find_elem_path (S (String.length s)) n elem ns s
  end%Z.

(** ** Changing *)

Definition nad_set_attr (n : nad) (elem ns : Z) (name : string) (val : option string) (vallen : Z) : nad :=
  let attr := nad_find_attr n elem ns name None in
  if (attr <? 0)%Z then
    match val with
    | Some v => (_nad_attr n elem ns name v vallen).1
    | None => n
    end
  else
    match val with
    | None =>
      upd_attr n attr (λ a, Attr (a_iname a) 0 (a_ival a) 0 (a_my_ns a) (a_next a))
    | Some v =>
      let t := val_text v vallen in
      let '(n, ival) := _nad_cdata n t in
      upd_attr n attr (λ a, Attr (a_iname a) (a_lname a) ival (Z.of_nat (length t)) (a_my_ns a) (a_next a))
    end.

Definition nad_insert_elem (n : nad) (parent ns : Z) (name : string) (cd : option string) : nad * Z :=
  let parent := if (ecur n <=? parent)%Z then (if (0 <? ecur n)%Z then ecur n - 1 else 0)%Z else parent in
  let elem := (parent + 1)%Z in
  let k := Z.to_nat elem in
  let pdepth := e_depth (elem_at n parent) in
  let es := elems n in
  let sc := scope n in
  let '(n, iname) := _nad_cdata n (tx name) in
  let '(n, icd, lcd) :=
    match cd with
    | Some c => let '(n, i) := _nad_cdata n (tx c) in (n, i, Z.of_nat (length (tx c)))
    | None => (n, 0, 0)%Z
    end in
  let e := Elem parent iname (Z.of_nat (length (tx name))) icd lcd 0 0 (-1) sc ns (pdepth + 1) in
  (set_scope (set_elems n (take k es ++ e :: drop k es)) (-1), elem).

(** [while(next < ecur && depth > ...) next++] *)
Fixpoint subtree_len (es : list nelem) (d : Z) : nat :=
  match es with
  | e :: es => if (d <? e_depth e)%Z then S (subtree_len es d) else 0
  | [] => 0
  end.

Definition nad_drop_elem (n : nad) (elem : Z) : nad :=
  if ((elem <? 0) || (ecur n <=? elem))%Z then n else
  let k := Z.to_nat elem in
  let next := S k + subtree_len (drop (S k) (elems n)) (e_depth (elem_at n elem)) in
  let relink e :=
    if (Z.of_nat next <? e_parent e)%Z then set_parent (e_parent e - (Z.of_nat next - elem)) e else e in
  set_elems n (take k (elems n) ++ (relink <$> drop next (elems n))).

Definition nad_wrap_elem (n : nad) (elem ns : Z) (name : string) : nad :=
  if ((elem <? 0) || (ecur n <=? elem))%Z then n else
  let k := Z.to_nat elem in
  let old := elem_at n elem in
  let sc := scope n in
  let es := elems n in
  let '(n, iname) := _nad_cdata n (tx name) in
  let e := Elem (e_parent old) iname (Z.of_nat (length (tx name))) 0 0 0 0 (-1) sc ns (e_depth old) in
  let relink e := if (elem <=? e_parent e)%Z then set_parent (e_parent e + 1) e else e in
  let moved := relink <$> drop k es in
  let sub := S (subtree_len (tail moved) (e_depth old)) in
  let raise e := set_depth (e_depth e + 1) e in
  set_scope (set_elems n (take k es ++ e :: (raise <$> take sub moved) ++ drop sub moved)) (-1).

Definition nad_append_elem (n : nad) (ns : Z) (name : string) (depth : Z) : nad * Z :=
  let elem := ecur n in
  let sc := scope n in
  let es := elems n in
  let '(n, iname) := _nad_cdata n (tx name) in
  let dp := <[depth := elem]> (depths n) in
  let parent := if (depth <=? 0)%Z then (-1)%Z else default 0%Z (dp !! (depth - 1)%Z) in
  let e := Elem parent iname (Z.of_nat (length (tx name))) 0 0 0 0 (-1) sc ns depth in
  (Nad (es ++ [e]) (attrs n) (nss n) (cdata n) dp (-1), elem).

Definition nad_append_attr (n : nad) (ns : Z) (name val : string) : nad * Z :=
  _nad_attr n (ecur n - 1) ns name val 0.

Definition nad_append_cdata (n : nad) (t : text) (depth : Z) : nad :=
  let elem := (ecur n - 1)%Z in
  let e := elem_at n elem in
  let l := Z.of_nat (length t) in
  let at_cur i := if (i =? 0)%Z then ccur n else i in
  if (e_depth e =? depth - 1)%Z then
    upd_elem (_nad_cdata n t).1 elem (set_cdata_at (at_cur (e_icdata e)) (e_lcdata e + l))
  else
    let elem := default 0%Z (depths n !! depth) in
    let e := elem_at n elem in
    upd_elem (_nad_cdata n t).1 elem (set_tail_at (at_cur (e_itail e)) (e_ltail e + l)).

(** The texts of a new namespace. *)
Definition new_ns (n : nad) (uri : string) (prefix : option string) (next : Z) : nad :=
  let '(n, iuri) := _nad_cdata n (tx uri) in
  let '(n, ip, lp) :=
    match prefix with
    | Some p => let '(n, i) := _nad_cdata n (tx p) in (n, i, Z.of_nat (length (tx p)))
    | None => (n, -1, 0)%Z
    end in
  push_ns n (Ns iuri (Z.of_nat (length (tx uri))) ip lp next).

Definition nad_add_namespace (n : nad) (uri : string) (prefix : option string) : nad * Z :=
  let s := nad_find_scoped_namespace n uri None in
  if (0 <=? s)%Z then (n, s)
  else (set_scope (new_ns n uri prefix (scope n)) (ncur n), ncur n).

Definition nad_append_namespace (n : nad) (elem : Z) (uri : string) (prefix : option string) : nad * Z :=
  let s := nad_find_namespace n elem (Some uri) None in
  if (0 <=? s)%Z then (n, s)
  else (upd_elem (new_ns n uri prefix (e_ns (elem_at n elem))) elem (set_ns_head (ncur n)), ncur n).

(** ** Inserting part of one nad into another *)

Definition string_of (t : text) : string := String.string_of_list_ascii t.

(** [for(j = 0; j < dest->ncur; j++)] over the URIs; [None] when [j] reaches the end. *)
Fixpoint find_uri_loop (d : nad) (k : nat) (j : Z) (uri : text) : option Z :=
  match k with
  | O => None
  | S k => if same_text (n_luri (ns_at d j)) (nad_nuri d j) uri then Some j else find_uri_loop d k (j + 1) uri
  end%Z.
Definition find_uri (d : nad) (uri : text) : option Z := find_uri_loop d (length (nss d)) 0 uri.

(** The namespace [ns] of [src] in [dest], added when it is not there. *)
Definition import_ns (d src : nad) (ns : Z) : nad * Z :=
  match find_uri d (nad_nuri src ns) with
  | Some j => (d, j)
  | None =>
    nad_add_namespace d (string_of (nad_nuri src ns))
      (if (0 <? n_lprefix (ns_at src ns))%Z then Some (string_of (nad_nprefix src ns)) else None)
  end.

Fixpoint import_ns_chain (fuel : nat) (d src : nad) (ns : Z) : nad :=
  match fuel with
  | O => d
  | S f => if (ns <? 0)%Z then d
           else import_ns_chain f (import_ns d src ns).1 src (n_next (ns_at src ns))
  end.

Fixpoint copy_attrs (fuel : nat) (d src : nad) (slot attr : Z) : nad :=
  match fuel with
  | O => d
  | S f =>
    if (attr <? 0)%Z then d else
    let a := attr_at src attr in
    let '(d, iname) := _nad_cdata d (nad_aname src attr) in
    let '(d, ival) := _nad_cdata d (nad_aval src attr) in
    let my_ns := if (0 <=? a_my_ns a)%Z then default (-1)%Z (find_uri d (nad_nuri src (a_my_ns a))) else (-1)%Z in
    let next := e_attr (elem_at d slot) in
    let d := upd_elem d slot (set_attr_head (acur d)) in
    copy_attrs f (push_attr d (Attr iname (a_lname a) ival (a_lval a) my_ns next)) src slot (a_next a)
  end.

(** One element of the copy. *)
Definition copy_elem (d src : nad) (delem selem i : Z) : nad :=
  let slot := (delem + 1 + i)%Z in
  let e := elem_at src (selem + i) in
  let parent := (delem + (e_parent e - e_parent (elem_at src selem)))%Z in
  let depth := (e_depth (elem_at d delem) + (e_depth e - e_depth (elem_at src selem)) + 1)%Z in
  let '(d, iname) := _nad_cdata d (nad_ename src (selem + i)) in
  let '(d, icd) := _nad_cdata d (nad_cdata src (selem + i)) in
  let '(d, itl) := _nad_cdata d (nad_tail src (selem + i)) in
  let d := set_scope d (-1) in
  let '(d, my_ns) := if (0 <=? e_my_ns e)%Z then import_ns d src (e_my_ns e) else (d, (-1)%Z) in
  let d := import_ns_chain (S (length (nss src))) d src (e_ns e) in
  let ne := Elem parent iname (e_lname e) icd (e_lcdata e) itl (e_ltail e) (-1) (scope d) my_ns depth in
  let d := set_scope (upd_elem d slot (λ _, ne)) (-1) in
  copy_attrs (S (length (attrs src))) d src slot (e_attr e).

Fixpoint copy_elems (k : nat) (d src : nad) (delem selem i : Z) : nad :=
  match k with
  | O => d
  | S k => copy_elems k (copy_elem d src delem selem i) src delem selem (i + 1)
  end.

Definition nad_insert_nad (dest : nad) (delem : Z) (src : nad) (selem : Z) : nad * Z :=
  if ((ecur src <=? selem) || (ecur dest <=? delem))%Z then (dest, (-1)%Z) else
  let nelem := S (subtree_len (drop (S (Z.to_nat selem)) (elems src)) (e_depth (elem_at src selem))) in
  let k := S (Z.to_nat delem) in
  let relink e := if (delem <? e_parent e)%Z then set_parent (e_parent e + Z.of_nat nelem) e else e in
  let dest := set_elems dest (take k (elems dest) ++ replicate nelem elem0 ++ (relink <$> drop k (elems dest))) in
  (copy_elems nelem dest src delem selem 0, (delem + 1)%Z).

(** ** Printing *)

(** The pieces of a text around a character ([memchr]). *)
Fixpoint split_text (c : ascii) (t : text) : option (text * text) :=
  match t with
  | [] => None
  | d :: t => if bool_decide (d = c) then Some ([], t) else '(a, b) ← split_text c t; Some (d :: a, b)
  end.

(** One of the loops of [_nad_escape]: what it writes, and what it leaves. *)
Fixpoint escape_split (fuel : nat) (c : ascii) (ent : text) (inner : text → text) (t : text) : text * text :=
  match fuel with
  | O => ([], t)
  | S f =>
    match split_text c t with
    | None => ([], t)
    | Some (a, b) => let '(o, r) := escape_split f c ent inner b in (inner a ++ ent ++ o, r)
    end
  end.

(** The character and the entity of the loop of each flag. *)
Definition flag_char (flag : nat) : ascii :=
  match flag with 4 => ascii_of_nat 34 | 3 => "'" | 2 => "<" | 1 => ">" | _ => "&" end%char.
Definition flag_entity (flag : nat) : text :=
  tx (match flag with 4 => "&quot;" | 3 => "&apos;" | 2 => "&lt;" | 1 => "&gt;" | _ => "&amp;" end).

(** The loop of the flag, then those of the lower flags on what it leaves. *)
Fixpoint _nad_escape (t : text) (flag : nat) : text :=
  let '(o, r) := escape_split (length t) (flag_char flag) (flag_entity flag)
                   (match flag with O => λ a, a | S k => λ a, _nad_escape a k end) t in
  o ++ match flag with O => r | S k => _nad_escape r k end.

Definition uri_XML : string := "http://www.w3.org/XML/1998/namespace".

(** A prefix and a colon, for a namespace that has one. *)
Definition prefix_text (n : nad) (ns : Z) : text :=
  if (0 <=? ns)%Z && (0 <=? n_iprefix (ns_at n ns))%Z then nad_nprefix n ns ++ tx ":" else [].

Definition xmlns_text (n : nad) (ns : Z) : text :=
  tx " xmlns" ++ (if (0 <=? n_iprefix (ns_at n ns))%Z then tx ":" ++ nad_nprefix n ns else []) ++
  tx "='" ++ nad_nuri n ns ++ tx "'".

Fixpoint print_nss (fuel : nat) (n : nad) (elem_ns ns : Z) : text :=
  match fuel with
  | O => []
  | S f =>
    if (ns <? 0)%Z then []
    else (if same_text (n_luri (ns_at n ns)) (nad_nuri n ns) (tx uri_XML) then []
          else if (ns =? elem_ns)%Z then []
          else xmlns_text n ns) ++ print_nss f n elem_ns (n_next (ns_at n ns))
  end.

Fixpoint print_attrs (fuel : nat) (n : nad) (attr : Z) : text :=
  match fuel with
  | O => []
  | S f =>
    if (attr <? 0)%Z then []
    else (if (a_lname (attr_at n attr) <=? 0)%Z then []
          else tx " " ++ prefix_text n (a_my_ns (attr_at n attr)) ++ nad_aname n attr ++ tx "='" ++
               _nad_escape (nad_aval n attr) 4 ++ tx "'")
         ++ print_attrs f n (a_next (attr_at n attr))
  end.

(** The opening tag, up to its end. *)
Definition open_tag (n : nad) (elem : Z) : text :=
  let my := e_my_ns (elem_at n elem) in
  let prefixed := (0 <=? my)%Z && (0 <=? n_iprefix (ns_at n my))%Z in
  tx "<" ++ prefix_text n my ++ nad_ename n elem ++
  (if prefixed then xmlns_text n my else []) ++
  print_nss (S (length (nss n))) n (if prefixed then my else -1)%Z (e_ns (elem_at n elem)) ++
  print_attrs (S (length (attrs n))) n (e_attr (elem_at n elem)).

Definition close_tag (n : nad) (elem : Z) : text :=
  tx "</" ++ prefix_text n (e_my_ns (elem_at n elem)) ++ nad_ename n elem ++ tx ">".

(** An [int] compared with an [unsigned int]. *)
Definition uint32 (z : Z) : Z := (z `mod` 2 ^ 32)%Z.

(** What is written for an element and its later siblings, and the element that follows.
    Every call is for a later element, so [ecur] of them at most. *)
Fixpoint _nad_lp0 (fuel : nat) (n : nad) (elem : Z) : text * Z :=
  match fuel with
  | O => ([], elem)
  | S f =>
    if (elem =? ecur n)%Z then ([], elem) else
    let depth := e_depth (elem_at n elem) in
    let ndepth := if (elem + 1 =? ecur n)%Z then (-1)%Z else e_depth (elem_at n (elem + 1)) in
    if (uint32 ndepth <=? depth)%Z then
      let out := open_tag n elem ++
        (if (e_lcdata (elem_at n elem) =? 0)%Z then tx "/>"
         else tx ">" ++ _nad_escape (nad_cdata n elem) 4 ++ close_tag n elem) ++
        _nad_escape (nad_tail n elem) 4 in
      if (uint32 ndepth <? depth)%Z then (out, (elem + 1)%Z)
      else let '(t, r) := _nad_lp0 f n (elem + 1) in (out ++ t, r)
    else
      let '(children, nelem) := _nad_lp0 f n (elem + 1) in
      let out := open_tag n elem ++ tx ">" ++ _nad_escape (nad_cdata n elem) 4 ++ children ++
        close_tag n elem ++ _nad_escape (nad_tail n elem) 4 in
      if (nelem <? ecur n)%Z && (e_depth (elem_at n nelem) <? depth)%Z then (out, nelem)
      else let '(t, r) := _nad_lp0 f n nelem in (out ++ t, r)
  end.

(** The document goes to the end of the text buffer. *)
Definition nad_print (n : nad) (elem : Z) : nad * text :=
  let xml := (_nad_lp0 (S (length (elems n))) n elem).1 in
  ((_nad_cdata n xml).1, xml).

(** ** Serialisation *)

Definition ints (l : list Z) : text := l ≫= int_bytes.

Definition elem_ints (e : nelem) : list Z :=
  [e_parent e; e_iname e; e_lname e; e_icdata e; e_lcdata e; e_itail e; e_ltail e; e_attr e; e_ns e; e_my_ns e; e_depth e].
Definition attr_ints (a : nattr) : list Z := [a_iname a; a_lname a; a_ival a; a_lval a; a_my_ns a; a_next a].
Definition ns_ints (s : nns) : list Z := [n_iuri s; n_luri s; n_iprefix s; n_lprefix s; n_next s].

Definition nad_serialize (n : nad) : text :=
  let len := (4 * 5 + 44 * ecur n + 24 * acur n + 20 * ncur n + ccur n)%Z in
  ints [len; ecur n; acur n; ncur n; ccur n] ++
  ints (elems n ≫= elem_ints) ++ ints (attrs n ≫= attr_ints) ++ ints (nss n ≫= ns_ints) ++ cdata n.

(** The [int] at a position of a buffer. *)
Definition int_at (buf : text) (pos : nat) : Z := int_of_bytes (take 4 (drop pos buf)).

Definition read_elem (buf : text) (p : nat) : nelem :=
  Elem (int_at buf p) (int_at buf (p + 4)) (int_at buf (p + 8)) (int_at buf (p + 12)) (int_at buf (p + 16))
       (int_at buf (p + 20)) (int_at buf (p + 24)) (int_at buf (p + 28)) (int_at buf (p + 32)) (int_at buf (p + 36))
       (uint32 (int_at buf (p + 40))).
Definition read_attr (buf : text) (p : nat) : nattr :=
  Attr (int_at buf p) (int_at buf (p + 4)) (int_at buf (p + 8)) (int_at buf (p + 12)) (int_at buf (p + 16)) (int_at buf (p + 20)).
Definition read_ns (buf : text) (p : nat) : nns :=
  Ns (int_at buf p) (int_at buf (p + 4)) (int_at buf (p + 8)) (int_at buf (p + 12)) (int_at buf (p + 16)).

Definition nad_deserialize (buf : text) : nad :=
  let ne := Z.to_nat (int_at buf 4) in
  let na := Z.to_nat (int_at buf 8) in
  let nn := Z.to_nat (int_at buf 12) in
  let nc := Z.to_nat (int_at buf 16) in
  let pa := 20 + 44 * ne in
  let pn := pa + 24 * na in
  let pc := pn + 20 * nn in
  Nad ((λ i, read_elem buf (20 + 44 * i)) <$> seq 0 ne)
      ((λ i, read_attr buf (pa + 24 * i)) <$> seq 0 na)
      ((λ i, read_ns buf (pn + 20 * i)) <$> seq 0 nn)
      (take nc (drop pc buf)) ∅ (-1).

(** ** Parsing: the handlers that Expat drives *)

(** Names are [uri|elem|prefix], [uri|elem] or [elem]; a NULL URI unsets the default namespace. *)
Inductive xml_event :=
  | XStart (name : string) (atts : list (string * string))
  | XEnd
  | XCdata (t : text)
  | XNamespace (prefix : option string) (uri : option string).

Record build_data := BuildData { bd_nad : nad; bd_depth : Z }.

(** The bits of a name: URI and prefix, if any, and the local name. *)
Definition name_bits (name : string) : option (string * option string) * string :=
  let buf := stake 1023 name in
  match split_at "|" buf with
  | None => (None, buf)
  | Some (uri, rest) =>
    match split_at "|" rest with
    | None => (Some (uri, None), rest)
    | Some (elem, prefix) => (Some (uri, Some prefix), elem)
    end
  end.

Definition _nad_parse_attr (n : nad) (el : Z) (att : string * string) : nad :=
  let '(u, elem) := name_bits att.1 in
  let '(n, ns) := match u with
                  | Some (uri, prefix) => nad_append_namespace n el uri prefix
                  | None => (n, (-1)%Z)
                  end in
  (nad_append_attr n ns elem att.2).1.

Definition _nad_parse_element_start (bd : build_data) (name : string) (atts : list (string * string)) : build_data :=
  let '(u, elem) := name_bits name in
  let '(n, ns) := match u with
                  | Some (uri, prefix) => nad_add_namespace (bd_nad bd) uri prefix
                  | None => (bd_nad bd, (-1)%Z)
                  end in
  let '(n, el) := nad_append_elem n ns elem (bd_depth bd) in
  BuildData (foldl (λ n att, _nad_parse_attr n el att) n atts) (bd_depth bd + 1).

Definition _nad_parse_element_end (bd : build_data) : build_data := BuildData (bd_nad bd) (bd_depth bd - 1).

Definition _nad_parse_cdata (bd : build_data) (t : text) : build_data :=
  BuildData (nad_append_cdata (bd_nad bd) t (bd_depth bd)) (bd_depth bd).

(** [None]: [strlen] of the NULL URI. *)
Definition _nad_parse_namespace_start (bd : build_data) (prefix uri : option string) : option build_data :=
  match uri with
  | None => None
  | Some uri =>
    let '(n, ns) := nad_add_namespace (bd_nad bd) uri prefix in
    (* always set the namespace *)
    Some (BuildData (set_scope n ns) (bd_depth bd))
  end.

Definition handle_event (bd : build_data) (ev : xml_event) : option build_data :=
  match ev with
  | XStart name atts => Some (_nad_parse_element_start bd name atts)
  | XEnd => Some (_nad_parse_element_end bd)
  | XCdata t => Some (_nad_parse_cdata bd t)
  | XNamespace prefix uri => _nad_parse_namespace_start bd prefix uri
  end.

Fixpoint handle_events (bd : build_data) (evs : list xml_event) : option build_data :=
  match evs with
  | [] => Some bd
  | ev :: evs => bd ← handle_event bd ev; handle_events bd evs
  end.

Inductive parse_result := PNad (n : nad) | PNull | PCrash.

(** [xml_parse] is Expat: the events of a well-formed document, [None] for another text. *)
Definition nad_parse (xml_parse : text → option (list xml_event)) (buf : text) : parse_result :=
  match xml_parse buf with
  | None => PNull
  | Some evs =>
    match handle_events (BuildData nad_new 0) evs with
    | None => PCrash
    | Some bd => if (bd_depth bd =? 0)%Z then PNad (bd_nad bd) else PNull
    end
  end.
