(* ===== verification/NadThms.v ===== *)
(** * Properties of nads

    The invariant of the arrays (indices in range, chains that go down, texts
    inside the buffer) and that building keeps it; the document structure that
    a parse leaves; searching, attributes, escaping and serialisation. *)
From S2P Require Import Prelude.
From S2P Require Import CStr.
From S2P Require Import Codec.
From S2P Require Import Nad.

(** ** The arrays *)

Definition idx (z m : Z) : Prop := (-1 <= z < m)%Z.
Definition text_in (len i l : Z) : Prop := (0 <= i ∧ 0 <= l ∧ i + l <= len)%Z.

Record elem_ok (n : nad) (e : nelem) : Prop := {
  eo_name : text_in (ccur n) (e_iname e) (e_lname e);
  eo_cdata : text_in (ccur n) (e_icdata e) (e_lcdata e);
  eo_tail : text_in (ccur n) (e_itail e) (e_ltail e);
  eo_attr : idx (e_attr e) (acur n);
  eo_ns : idx (e_ns e) (ncur n);
  eo_my_ns : idx (e_my_ns e) (ncur n);
  (* no text yet: the mark that [nad_append_cdata] looks for *)
  eo_cdata0 : e_icdata e = 0%Z → e_lcdata e = 0%Z;
  eo_tail0 : e_itail e = 0%Z → e_ltail e = 0%Z
}.

Record attr_ok (n : nad) (i : nat) (a : nattr) : Prop := {
  ao_name : text_in (ccur n) (a_iname a) (a_lname a);
  ao_val : text_in (ccur n) (a_ival a) (a_lval a);
  ao_my_ns : idx (a_my_ns a) (ncur n);
  ao_next : idx (a_next a) (Z.of_nat i)
}.

Record ns_ok (n : nad) (i : nat) (s : nns) : Prop := {
  so_uri : text_in (ccur n) (n_iuri s) (n_luri s);
  so_prefix : (n_iprefix s = (-1)%Z ∧ n_lprefix s = 0%Z) ∨ text_in (ccur n) (n_iprefix s) (n_lprefix s);
  so_next : idx (n_next s) (Z.of_nat i)
}.

Record nad_ok (n : nad) : Prop := {
  no_elems : ∀ i e, elems n !! i = Some e → elem_ok n e;
  no_attrs : ∀ i a, attrs n !! i = Some a → attr_ok n i a;
  no_nss : ∀ i s, nss n !! i = Some s → ns_ok n i s;
  no_scope : idx (scope n) (ncur n)
}.

(** The counters do not go down. *)
Record grows (n n' : nad) : Prop := {
  gr_attrs : (acur n <= acur n')%Z;
  gr_nss : (ncur n <= ncur n')%Z;
  gr_cdata : (ccur n <= ccur n')%Z
}.

Lemma idx_mono z m m' : idx z m → (m <= m')%Z → idx z m'.
Proof. unfold idx. lia. Qed.
Lemma text_in_mono len len' i l : text_in len i l → (len <= len')%Z → text_in len' i l.
Proof. unfold text_in. lia. Qed.
#[local] Hint Resolve idx_mono text_in_mono : jabberd.

Lemma elem_ok_grows n n' e : grows n n' → elem_ok n e → elem_ok n' e.
Proof. intros [] []. split; eauto with jabberd. Qed.
Lemma attr_ok_grows n n' i a : grows n n' → attr_ok n i a → attr_ok n' i a.
Proof. intros [] []. split; eauto with jabberd. Qed.
Lemma ns_ok_grows n n' i s : grows n n' → ns_ok n i s → ns_ok n' i s.
Proof. intros [] [? [?|?] ?]. all: split; eauto with jabberd. Qed.

(** A nad with more text and the same arrays. *)
Lemma nad_ok_cdata n t : nad_ok n → nad_ok (_nad_cdata n t).1 ∧ grows n (_nad_cdata n t).1.
Proof.
  intros [He Ha Hs Hsc].
  assert (grows n (_nad_cdata n t).1) as Hg.
  { split; unfold acur, ncur, ccur; simpl; [lia|lia|]. rewrite length_app. lia. }
  split; [|done]. split; simpl.
  - intros i e H. eapply elem_ok_grows; eauto.
  - intros i a H. eapply attr_ok_grows; eauto.
  - intros i s H. eapply ns_ok_grows; eauto.
  - done.
Qed.

Lemma cdata_text n t : text_in (ccur (_nad_cdata n t).1) (_nad_cdata n t).2 (Z.of_nat (length t)).
Proof. unfold text_in. simpl. unfold ccur. simpl. rewrite length_app. lia. Qed.

(** Changing one element. *)
Lemma nad_ok_upd_elem n i f : nad_ok n → (∀ e, elem_ok n e → elem_ok n (f e)) → nad_ok (upd_elem n i f).
Proof.
  intros [He Ha Hs Hsc] Hf. split; simpl.
  - intros j e H. rewrite list_lookup_alter in H. destruct (decide (Z.to_nat i = j)) as [Hij|Hij].
    + apply fmap_Some in H as (e0 & H & ->). destruct (Hf e0 (He _ _ H)). by split.
    + destruct (He _ _ H). by split.
  - intros j a H. destruct (Ha _ _ H). by split.
  - intros j s H. destruct (Hs _ _ H). by split.
  - done.
Qed.

Lemma nad_ok_push_elem n e dp sc : nad_ok n → elem_ok n e → idx sc (ncur n) →
  nad_ok (Nad (elems n ++ [e]) (attrs n) (nss n) (cdata n) dp sc).
Proof.
  intros [He Ha Hs Hsc] Hok Hi. split; simpl.
  - intros i e' [H|[_ [= <-]]]%lookup_snoc_Some.
    + destruct (He i e'); [by destruct H|]. by split.
    + by destruct Hok.
  - intros j a H. destruct (Ha _ _ H). by split.
  - intros j s H. destruct (Hs _ _ H). by split.
  - done.
Qed.

Lemma nth_lookup_eq {A} (l : list A) i d x : l !! i = Some x → nth i l d = x.
Proof. intros H. by rewrite nth_lookup, H. Qed.

Lemma elem_at_lookup n i e : elems n !! i = Some e → elem_at n (Z.of_nat i) = e.
Proof. intros H. unfold elem_at. rewrite Nat2Z.id. by apply nth_lookup_eq. Qed.

Lemma elem_at_ok n i : nad_ok n → elem_ok n (elem_at n i).
Proof.
  intros Hn. unfold elem_at. rewrite nth_lookup. destruct (elems n !! Z.to_nat i) eqn:E; simpl.
  - by eapply no_elems.
  - split; unfold text_in, idx, ccur, acur, ncur; simpl; lia.
Qed.

Lemma attr_at_next n i : nad_ok n → (0 <= i)%Z → idx (a_next (attr_at n i)) i.
Proof.
  intros Hn Hi. unfold attr_at. rewrite nth_lookup. destruct (attrs n !! Z.to_nat i) eqn:E; simpl.
  - pose proof (ao_next _ _ _ (no_attrs _ Hn _ _ E)). by rewrite Z2Nat.id in H.
  - unfold idx. simpl. lia.
Qed.

Lemma ns_at_next n i : nad_ok n → (0 <= i)%Z → idx (n_next (ns_at n i)) i.
Proof.
  intros Hn Hi. unfold ns_at. rewrite nth_lookup. destruct (nss n !! Z.to_nat i) eqn:E; simpl.
  - pose proof (so_next _ _ _ (no_nss _ Hn _ _ E)). by rewrite Z2Nat.id in H.
  - unfold idx. simpl. lia.
Qed.

(** ** Building keeps the invariant *)

Lemma nad_new_ok : nad_ok nad_new.
Proof. split; simpl; [done..|]. unfold idx, ncur. simpl. lia. Qed.

Lemma nad_ok_set_scope n s : nad_ok n → idx s (ncur n) → nad_ok (set_scope n s).
Proof.
  intros [He Ha Hs Hsc] Hi. split; simpl; [| | |done].
  - intros i e H. destruct (He _ _ H). by split.
  - intros i e H. destruct (Ha _ _ H). by split.
  - intros i e H. destruct (Hs _ _ H). by split.
Qed.

Lemma nad_ok_push_attr n a : nad_ok n → attr_ok n (length (attrs n)) a → nad_ok (push_attr n a).
Proof.
  intros Hn Hok. pose proof Hn as [He Ha Hs Hsc].
  assert (grows n (push_attr n a)) as Hg by (split; unfold acur, ncur, ccur; simpl; rewrite ?length_app; lia).
  split; simpl.
  - intros i e H. eapply elem_ok_grows; eauto.
  - intros i a' [H|[-> [= <-]]]%lookup_snoc_Some; eapply attr_ok_grows; eauto. by eapply Ha, H.
  - intros i s H. eapply ns_ok_grows; eauto.
  - done.
Qed.

Lemma nad_ok_push_ns n s : nad_ok n → ns_ok n (length (nss n)) s → nad_ok (push_ns n s).
Proof.
  intros Hn Hok. pose proof Hn as [He Ha Hs Hsc].
  assert (grows n (push_ns n s)) as Hg by (split; unfold acur, ncur, ccur; simpl; rewrite ?length_app; lia).
  split; simpl.
  - intros i e H. eapply elem_ok_grows; eauto.
  - intros i a' H. eapply attr_ok_grows; eauto.
  - intros i s' [H|[-> [= <-]]]%lookup_snoc_Some; eapply ns_ok_grows; eauto. by eapply Hs, H.
  - eapply idx_mono; [done|]. by destruct Hg.
Qed.

Lemma _nad_attr_ok n elem ns name val vallen : nad_ok n → idx ns (ncur n) →
  nad_ok (_nad_attr n elem ns name val vallen).1.
Proof.
  intros Hn Hns. unfold _nad_attr. cbn [_nad_cdata fst].
  (* the attribute first, then the head that refers to it *)
  set (nm := tx name). set (vt := val_text val vallen).
  destruct (nad_ok_cdata n nm Hn) as [Hn1 Hg1].
  destruct (nad_ok_cdata _ vt Hn1) as [Hn2 Hg2].
  set (n2 := (_nad_cdata (_nad_cdata n nm).1 vt).1) in *.
  assert (grows n n2) as Hg by (destruct Hg1, Hg2; split; lia).
  set (a := Attr (ccur n) (Z.of_nat (length nm)) (ccur n + Z.of_nat (length nm)) (Z.of_nat (length vt)) ns (e_attr (elem_at n elem))).
  assert (nad_ok (push_attr n2 a)) as Hp.
  { apply nad_ok_push_attr; [done|]. unfold n2. split; simpl.
    - unfold text_in, ccur. simpl. rewrite !length_app. lia.
    - unfold text_in, ccur. simpl. rewrite !length_app. lia.
    - eapply idx_mono; [done|]. by destruct Hg.
    - pose proof (eo_attr _ _ (elem_at_ok n elem Hn)). unfold acur in *. done. }
  assert (nad_ok (upd_elem (push_attr n2 a) elem (set_attr_head (acur n)))) as Hu.
  { apply nad_ok_upd_elem; [done|]. intros e []. split; try done. simpl. unfold idx, acur. simpl. rewrite length_app. simpl. lia. }
  eapply eq_ind; [exact Hu|]. unfold upd_elem, set_elems, push_attr, n2, a, _nad_cdata, ccur. simpl.
  do 3 f_equal. rewrite length_app. repeat f_equal. lia.
Qed.

Lemma nad_ok_upd_attr n i f : nad_ok n → (∀ k a, attr_ok n k a → attr_ok n k (f a)) → nad_ok (upd_attr n i f).
Proof.
  intros [He Ha Hs Hsc] Hf.
  assert (acur (upd_attr n i f) = acur n) as Hac by (unfold acur; simpl; by rewrite length_alter).
  split; simpl.
  - intros j e H. destruct (He _ _ H). split; rewrite ?Hac; done.
  - intros j a H. rewrite list_lookup_alter in H. destruct (decide (Z.to_nat i = j)) as [Hij|Hij].
    + apply fmap_Some in H as (a0 & H & ->). rewrite Hij in H. destruct (Hf j a0 (Ha _ _ H)). by split.
    + destruct (Ha _ _ H). by split.
  - intros j s H. destruct (Hs _ _ H). by split.
  - done.
Qed.

Lemma nad_set_attr_ok n elem ns name val vallen : nad_ok n → idx ns (ncur n) →
  nad_ok (nad_set_attr n elem ns name val vallen).
Proof.
  intros Hn Hns. unfold nad_set_attr. destruct (_ <? 0)%Z.
  - destruct val; [by apply _nad_attr_ok|done].
  - destruct val as [v|]; [cbn [_nad_cdata]|].
    + destruct (nad_ok_cdata n (val_text v vallen) Hn) as [Hn1 Hg1].
      apply (nad_ok_upd_attr (_nad_cdata n (val_text v vallen)).1); [done|].
      intros k a []. split; try done. apply (cdata_text n).
    + apply nad_ok_upd_attr; [done|]. intros k a [H1 H2 ? ?]. split; try done; unfold text_in in *; simpl; lia.
Qed.

Lemma nad_append_elem_ok n ns name depth : nad_ok n → idx ns (ncur n) → nad_ok (nad_append_elem n ns name depth).1.
Proof.
  intros Hn Hns. unfold nad_append_elem. cbn [_nad_cdata fst].
  destruct (nad_ok_cdata n (tx name) Hn) as [Hn1 Hg1]. pose proof (no_scope _ Hn) as Hsc.
  apply (nad_ok_push_elem (_nad_cdata n (tx name)).1); [done|..].
  - split; simpl; try done.
    + apply (cdata_text n).
    + unfold text_in, ccur. simpl. lia.
    + unfold text_in, ccur. simpl. lia.
    + unfold idx, acur. simpl. lia.
  - unfold idx, ncur. simpl. lia.
Qed.

Lemma at_cur_text n t i l : text_in (ccur n) i l → (i = 0 → l = 0)%Z → (0 < ccur n)%Z →
  let i' := (if (i =? 0)%Z then ccur n else i) in
  text_in (ccur (_nad_cdata n t).1) i' (l + Z.of_nat (length t)) ∧ i' ≠ 0%Z.
Proof.
  unfold text_in, ccur. simpl. rewrite length_app. intros. destruct (Z.eqb_spec i 0); lia.
Qed.

Lemma nad_append_cdata_ok n t depth : nad_ok n → (0 < ccur n)%Z → nad_ok (nad_append_cdata n t depth).
Proof.
  intros Hn Hc. unfold nad_append_cdata. destruct (nad_ok_cdata n t Hn) as [Hn1 Hg1].
  destruct (_ =? depth - 1)%Z; (apply nad_ok_upd_elem; [done|]);
  match goal with |- context [elem_at n ?k] => pose proof (elem_at_ok n k Hn) as He end;
  destruct He as [_ Hcd Htl _ _ _ Hcd0 Htl0]; intros e [].
  - destruct (at_cur_text n t _ _ Hcd Hcd0 Hc) as [H1 H2]. by split.
  - destruct (at_cur_text n t _ _ Htl Htl0 Hc) as [H1 H2]. by split.
Qed.

Lemma new_ns_ok n uri prefix next : nad_ok n → idx next (ncur n) →
  nad_ok (new_ns n uri prefix next) ∧ ncur (new_ns n uri prefix next) = (ncur n + 1)%Z ∧
  elems (new_ns n uri prefix next) = elems n ∧ depths (new_ns n uri prefix next) = depths n ∧
  (ccur n <= ccur (new_ns n uri prefix next))%Z.
Proof.
  intros Hn Hi. unfold new_ns. cbn [_nad_cdata].
  destruct (nad_ok_cdata n (tx uri) Hn) as [Hn1 Hg1].
  destruct prefix as [p|]; cbn [_nad_cdata].
  - destruct (nad_ok_cdata _ (tx p) Hn1) as [Hn2 Hg2].
    split_and!; [|unfold ncur; simpl; rewrite length_app; simpl; lia|done|done|
      unfold ccur; simpl; rewrite !length_app; lia].
    apply (nad_ok_push_ns (_nad_cdata (_nad_cdata n (tx uri)).1 (tx p)).1); [done|]. split; simpl.
    + unfold text_in, ccur. simpl. rewrite !length_app. lia.
    + right. unfold text_in, ccur. simpl. rewrite !length_app. lia.
    + done.
  - split_and!; [|unfold ncur; simpl; rewrite length_app; simpl; lia|done|done|
      unfold ccur; simpl; rewrite !length_app; lia].
    apply (nad_ok_push_ns (_nad_cdata n (tx uri)).1); [done|]. split; simpl.
    + apply (cdata_text n).
    + by left.
    + done.
Qed.

Lemma find_scoped_range n k s uri prefix : (0 <= s)%Z → (s + Z.of_nat k <= ncur n)%Z →
  idx (find_scoped_loop n k s uri prefix) (ncur n).
Proof.
  revert s. induction k as [|k IH]; intros s Hs Hk; simpl; [unfold idx, ncur; lia|].
  destruct (uri_match n s uri prefix); [unfold idx; lia|]. apply IH; lia.
Qed.

Lemma nad_add_namespace_ok n uri prefix : nad_ok n →
  nad_ok (nad_add_namespace n uri prefix).1 ∧
  (0 <= (nad_add_namespace n uri prefix).2 < ncur (nad_add_namespace n uri prefix).1)%Z ∧
  elems (nad_add_namespace n uri prefix).1 = elems n ∧ depths (nad_add_namespace n uri prefix).1 = depths n ∧
  (ccur n <= ccur (nad_add_namespace n uri prefix).1)%Z.
Proof.
  intros Hn. unfold nad_add_namespace.
  pose proof (find_scoped_range n (length (nss n)) 0 uri None ltac:(done) ltac:(unfold ncur; lia)) as Hr.
  fold (nad_find_scoped_namespace n uri None) in Hr.
  destruct (Z.leb_spec 0 (nad_find_scoped_namespace n uri None)); simpl.
  - unfold idx in Hr. split_and!; try done; lia.
  - destruct (new_ns_ok n uri prefix (scope n) Hn (no_scope _ Hn)) as (H1 & H2 & H3 & H4 & H5).
    assert (0 <= ncur n)%Z by (unfold ncur; lia).
    split_and!; [|done|change (ncur n < ncur (new_ns n uri prefix (scope n)))%Z; lia|done|done|done].
    apply nad_ok_set_scope; [done|]. rewrite H2. unfold idx. lia.
Qed.

Lemma ns_chain_range fuel n s uri prefix : nad_ok n → idx s (ncur n) → idx (ns_chain_loop fuel n s uri prefix) (ncur n).
Proof.
  intros Hn. revert s. induction fuel as [|f IH]; intros s Hs; simpl; [unfold idx, ncur; lia|].
  destruct (Z.ltb_spec s 0); [unfold idx, ncur; lia|]. destruct (uri_match n s uri prefix); [done|].
  apply IH. eapply idx_mono; [by apply ns_at_next|]. unfold idx in Hs. lia.
Qed.

Lemma find_namespace_range fuel n c uri prefix : nad_ok n → idx (find_namespace_loop fuel n c uri prefix) (ncur n).
Proof.
  intros Hn. revert c. induction fuel as [|f IH]; intros c; cbn [find_namespace_loop]; [unfold idx, ncur; lia|].
  destruct (c <? 0)%Z; [unfold idx, ncur; lia|].
  pose proof (ns_chain_range (S (length (nss n))) n (e_ns (elem_at n c)) uri prefix Hn (eo_ns _ _ (elem_at_ok n c Hn))) as Hr.
  destruct (0 <=? _)%Z; [exact Hr|apply IH].
Qed.

Lemma nad_append_namespace_ok n el uri prefix : nad_ok n →
  nad_ok (nad_append_namespace n el uri prefix).1 ∧
  (0 <= (nad_append_namespace n el uri prefix).2 < ncur (nad_append_namespace n el uri prefix).1)%Z ∧
  (ccur n <= ccur (nad_append_namespace n el uri prefix).1)%Z.
Proof.
  intros Hn. unfold nad_append_namespace.
  assert (idx (nad_find_namespace n el (Some uri) None) (ncur n)) as Hr.
  { unfold nad_find_namespace. destruct (_ || _); [unfold idx, ncur; lia|]. by apply find_namespace_range. }
  destruct (Z.leb_spec 0 (nad_find_namespace n el (Some uri) None)); cbn [fst snd].
  - unfold idx in Hr. split_and!; try done; lia.
  - destruct (new_ns_ok n uri prefix (e_ns (elem_at n el)) Hn (eo_ns _ _ (elem_at_ok n el Hn))) as (H1 & H2 & H3 & H4 & H5).
    assert (0 <= ncur n)%Z by (unfold ncur; lia).
    split_and!; [|done|change (ncur n < ncur (new_ns n uri prefix (e_ns (elem_at n el))))%Z; lia|done].
    apply nad_ok_upd_elem; [done|]. intros e []. split; try done. simpl. rewrite H2. unfold idx. lia.
Qed.

(** ** The document *)

(** Parents and depths. *)
Definition skel (n : nad) : list (Z * Z) := (λ e, (e_parent e, e_depth e)) <$> elems n.

(** Element [p] is an ancestor, or the parent, of what follows up to [i]: depth [d], then deeper ones. *)
Definition opens (sk : list (Z * Z)) (d : Z) (p i : nat) : Prop :=
  (p < i)%nat ∧ (∃ pp, sk !! p = Some (pp, d)) ∧
  ∀ k x, (p < k < i)%nat → sk !! k = Some x → (d < x.2)%Z.

(** Elements in document order: roots at depth 0, every other one deeper by one than its parent,
    which comes before it with nothing but deeper elements between. *)
Definition doc_ok (sk : list (Z * Z)) : Prop :=
  ∀ i p d, sk !! i = Some (p, d) → (0 <= d)%Z ∧
    if (d =? 0)%Z then p = (-1)%Z else (0 <= p)%Z ∧ opens sk (d - 1) (Z.to_nat p) i.

(** The depths array knows the elements that are still open, and no element came after at their depth. *)
Definition depths_ok (sk : list (Z * Z)) (dp : gmap Z Z) (D : Z) : Prop :=
  ∀ d, (0 <= d < D)%Z → ∃ p, dp !! d = Some p ∧ (0 <= p)%Z ∧ opens sk d (Z.to_nat p) (length sk).

Record bd_ok (bd : build_data) : Prop := {
  bo_nad : nad_ok (bd_nad bd);
  bo_text : elems (bd_nad bd) ≠ [] → (0 < ccur (bd_nad bd))%Z;
  bo_nss : nss (bd_nad bd) ≠ [] → (0 < ccur (bd_nad bd))%Z;
  bo_doc : doc_ok (skel (bd_nad bd));
  bo_depths : depths_ok (skel (bd_nad bd)) (depths (bd_nad bd)) (bd_depth bd);
  bo_depth : (0 <= bd_depth bd)%Z
}.

Lemma opens_snoc sk x d p i : opens sk d p i → (i ≤ length sk)%nat → opens (sk ++ [x]) d p i.
Proof.
  intros (H1 & (pp & H2) & H3) Hi. split_and!; [done| |].
  - exists pp. by apply lookup_app_l_Some.
  - intros k y Hk Hy. eapply H3; [done|]. rewrite lookup_app_l in Hy by lia. done.
Qed.

Lemma opens_extend sk x d p : opens sk d p (length sk) → (d < x.2)%Z → opens (sk ++ [x]) d p (length (sk ++ [x])).
Proof.
  intros (H1 & (pp & H2) & H3) Hx. rewrite length_app. simpl. split_and!; [lia| |].
  - exists pp. by apply lookup_app_l_Some.
  - intros k y Hk [Hy|[-> [= <-]]]%lookup_snoc_Some; [|done]. eapply H3; [|apply Hy]. destruct Hy. lia.
Qed.

Lemma doc_append sk dp D : doc_ok sk → depths_ok sk dp D → (0 <= D)%Z →
  let p := if (D <=? 0)%Z then (-1)%Z else default 0%Z (<[D := Z.of_nat (length sk)]> dp !! (D - 1)%Z) in
  doc_ok (sk ++ [(p, D)]) ∧ depths_ok (sk ++ [(p, D)]) (<[D := Z.of_nat (length sk)]> dp) (D + 1).
Proof.
  intros Hd Hdp HD p. split.
  - intros i q d [Hi|[Hi [= <- <-]]]%lookup_snoc_Some.
    + destruct Hi as [Hi Hl]. destruct (Hd _ _ _ Hl) as [H0 H1]. split; [done|].
      destruct (d =? 0)%Z; [done|]. destruct H1. split; [done|]. apply opens_snoc; [done|lia].
    + split; [done|]. subst i. unfold p. destruct (Z.leb_spec D 0), (Z.eqb_spec D 0); try lia.
      rewrite lookup_insert_ne by lia. destruct (Hdp (D - 1)%Z ltac:(lia)) as (v & -> & Hv & Ho). simpl.
      split; [done|]. by apply opens_snoc.
  - intros d Hd'. destruct (decide (d = D)) as [->|Hne].
    + exists (Z.of_nat (length sk)). rewrite lookup_insert_eq. split_and!; [done|lia|].
      rewrite Nat2Z.id, length_app. simpl. split_and!; [lia| |intros; lia].
      exists p. apply lookup_snoc_Some. by right.
    + rewrite lookup_insert_ne by done. destruct (Hdp d ltac:(lia)) as (v & -> & Hv & Ho).
      exists v. split_and!; [done|done|]. apply opens_extend; [done|simpl; lia].
Qed.

Lemma depths_ok_less sk dp D D' : depths_ok sk dp D → (D' <= D)%Z → depths_ok sk dp D'.
Proof. intros H ? d ?. apply H. lia. Qed.

Lemma skel_upd_elem n i f : (∀ e, e_parent (f e) = e_parent e ∧ e_depth (f e) = e_depth e) →
  skel (upd_elem n i f) = skel n.
Proof.
  intros Hf. unfold skel. simpl. apply list_eq. intros k. rewrite !list_lookup_fmap, list_lookup_alter.
  case_decide; [|done]. subst. destruct (elems n !! _) as [e|]; simpl; [|done]. destruct (Hf e) as [-> ->]. done.
Qed.

Lemma skel_nad_attr n el ns name val vl :
  skel (_nad_attr n el ns name val vl).1 = skel n ∧ depths (_nad_attr n el ns name val vl).1 = depths n ∧
  (ccur n <= ccur (_nad_attr n el ns name val vl).1)%Z ∧ (elems (_nad_attr n el ns name val vl).1 ≠ [] → elems n ≠ []).
Proof.
  split_and!; [|done| |].
  - exact (skel_upd_elem n el (set_attr_head (acur n)) ltac:(done)).
  - unfold _nad_attr, ccur. simpl. rewrite !length_app. lia.
  - simpl. by destruct (elems n).
Qed.

Lemma skel_append_namespace n el uri prefix :
  skel (nad_append_namespace n el uri prefix).1 = skel n ∧
  depths (nad_append_namespace n el uri prefix).1 = depths n ∧
  (elems (nad_append_namespace n el uri prefix).1 ≠ [] → elems n ≠ []).
Proof.
  unfold nad_append_namespace. destruct (0 <=? _)%Z; [done|]. cbn [fst].
  assert (elems (new_ns n uri prefix (e_ns (elem_at n el))) = elems n ∧
          depths (new_ns n uri prefix (e_ns (elem_at n el))) = depths n) as [E1 E2] by by destruct prefix.
  split_and!; [|done|].
  - rewrite skel_upd_elem by done. unfold skel. by rewrite E1.
  - simpl. rewrite E1. by destruct (elems n).
Qed.

(** What a handler needs to know about the nad between two changes of its skeleton. *)
Record same_doc (n n' : nad) : Prop := {
  sd_ok : nad_ok n';
  sd_skel : skel n' = skel n;
  sd_depths : depths n' = depths n;
  sd_text : (ccur n <= ccur n')%Z
}.

Lemma parse_attr_same n el att : nad_ok n → same_doc n (_nad_parse_attr n el att).
Proof.
  intros Hn. unfold _nad_parse_attr. destruct (name_bits att.1) as [[[uri prefix]|] elem].
  - destruct (nad_append_namespace_ok n el uri prefix Hn) as (H1 & H2 & H3).
    destruct (skel_append_namespace n el uri prefix) as (S1 & S2 & _).
    destruct (nad_append_namespace n el uri prefix) as [n' ns]; cbn [fst snd] in *.
    unfold nad_append_attr. destruct (skel_nad_attr n' (ecur n' - 1) ns elem att.2 0) as (T1 & T2 & T3 & _).
    split; [|congruence|congruence|lia]. apply _nad_attr_ok; [done|]. unfold idx. lia.
  - unfold nad_append_attr. destruct (skel_nad_attr n (ecur n - 1) (-1) elem att.2 0) as (T1 & T2 & T3 & _).
    split; [|congruence|congruence|lia]. apply _nad_attr_ok; [done|]. unfold idx, ncur. lia.
Qed.

Lemma parse_attrs_same n el atts : nad_ok n → same_doc n (foldl (λ n att, _nad_parse_attr n el att) n atts).
Proof.
  revert n. induction atts as [|att atts IH]; intros n Hn; simpl; [by split|].
  destruct (parse_attr_same n el att Hn) as [H1 H2 H3 H4]. destruct (IH _ H1) as [K1 K2 K3 K4].
  split; [done|congruence|congruence|lia].
Qed.

Lemma skel_nil n : skel n = [] ↔ elems n = [].
Proof. unfold skel. split; [|by intros ->]. apply fmap_nil_inv. Qed.

(** ** What Expat promises of names

    A name is that of an element, which is not empty and holds no separator, with the URI
    before it and the prefix after it, if it has them: it is not made of separators only. *)
Definition named (name : string) : bool := bool_decide (Exists (λ c, c ≠ "|"%char) (tx name)).

Lemma name_bits_text name : named name → let '(u, elem) := name_bits name in
  match u with
  | None => elem ≠ ""
  | Some (uri, prefix) => uri ≠ "" ∨ (∃ p, prefix = Some p ∧ p ≠ "") ∨ elem ≠ ""
  end.
Proof.
  unfold named. rewrite bool_decide_spec. intros Hn. unfold name_bits.
  assert (∀ t, stake 1023 name = t → String.length t < 1023 → name = t) as Hshort.
  { intros t <- Hl. rewrite stake_length in Hl. symmetry. apply stake_ge. lia. }
  assert (∀ t, stake 1023 name = t → String.length t < 1023 → ¬ Forall (λ c, c = "|"%char) (tx t)) as Hbars.
  { intros t Ht Hl Hall. rewrite (Hshort _ Ht Hl) in Hn. apply Exists_exists in Hn as (c & Hc & Hne).
    rewrite Forall_forall in Hall. by destruct Hne, (Hall c). }
  destruct (split_at "|" (stake 1023 name)) as [[uri rest]|] eqn:E1.
  2: { intros E. by apply (Hbars "" E); [cbn; lia|constructor]. }
  apply split_at_Some in E1. destruct (split_at "|" rest) as [[elem p]|] eqn:E2.
  - apply split_at_Some in E2. subst rest. destruct uri; [|by left]. right. destruct elem; [|by right]. left.
    exists p. split; [done|]. intros ->. apply (Hbars _ E1); [cbn; lia|by repeat constructor].
  - destruct uri; [|by left]. right. right. intros ->. apply (Hbars _ E1); [cbn; lia|by repeat constructor].
Qed.

Lemma add_namespace_text n uri prefix : (nss n ≠ [] → (0 < ccur n)%Z) → uri ≠ "" ∨ (∃ p, prefix = Some p ∧ p ≠ "") →
  (0 < ccur (nad_add_namespace n uri prefix).1)%Z.
Proof.
  intros Hns Ht. unfold nad_add_namespace.
  destruct (Z.leb_spec 0 (nad_find_scoped_namespace n uri None)) as [H|H]; cbn [fst].
  - apply Hns. intros E. unfold nad_find_scoped_namespace in H. rewrite E in H. cbn in H. lia.
  - assert (∀ t, t ≠ "" → 0 < length (tx t)) as Hl by by intros [|? t]; [|cbn; lia].
    destruct prefix as [p|]; unfold ccur; cbn; rewrite ?length_app.
    + destruct Ht as [Hu|(q & [= <-] & Hq)]; [pose proof (Hl _ Hu)|pose proof (Hl _ Hq)]; lia.
    + destruct Ht as [Hu|(q & ? & _)]; [pose proof (Hl _ Hu); lia|done].
Qed.
Lemma add_namespace_nss n uri prefix : nss n ≠ [] → nss (nad_add_namespace n uri prefix).1 ≠ [].
Proof.
  intros Hn. unfold nad_add_namespace. destruct (0 <=? _)%Z; [done|]. destruct prefix; cbn; by destruct (nss n).
Qed.

Lemma element_start_ok bd name atts : bd_ok bd → named name → bd_ok (_nad_parse_element_start bd name atts).
Proof.
  intros [Hn Ht Hs Hdoc Hdp HD] Hne%name_bits_text. unfold _nad_parse_element_start.
  destruct (name_bits name) as [u elem].
  assert (∃ n ns, (match u with
      | Some (uri, prefix) => nad_add_namespace (bd_nad bd) uri prefix
      | None => (bd_nad bd, (-1)%Z) end) = (n, ns) ∧ nad_ok n ∧ idx ns (ncur n) ∧
      elems n = elems (bd_nad bd) ∧ depths n = depths (bd_nad bd) ∧ ((0 < ccur n)%Z ∨ elem ≠ ""))
    as (n & ns & -> & Hn' & Hns & He & Hd & Hc).
  { destruct u as [[uri prefix]|].
    - destruct (nad_add_namespace_ok (bd_nad bd) uri prefix Hn) as (H1 & H2 & H3 & H4 & H5).
      assert ((0 < ccur (nad_add_namespace (bd_nad bd) uri prefix).1)%Z ∨ elem ≠ "") as Hc.
      { destruct Hne as [H|[H|H]]; [left; apply add_namespace_text; by auto..|by right]. }
      destruct (nad_add_namespace (bd_nad bd) uri prefix) as [n ns]; simpl in *.
      eexists n, ns. split_and!; try done; unfold idx; lia.
    - eexists _, _. split_and!; try done; [unfold idx, ncur; lia|by right]. }
  pose proof (nad_append_elem_ok n ns elem (bd_depth bd) Hn' Hns) as Hae.
  destruct (doc_append (skel (bd_nad bd)) (depths (bd_nad bd)) (bd_depth bd) Hdoc Hdp HD) as [D1 D2].
  assert (skel n = skel (bd_nad bd)) as Hsk by (unfold skel; by rewrite He).
  assert (ecur n = Z.of_nat (length (skel (bd_nad bd)))) as Hec by (unfold ecur; rewrite <- Hsk; unfold skel; by rewrite length_fmap).
  destruct (nad_append_elem n ns elem (bd_depth bd)) as [n1 el] eqn:En1. simpl in Hae.
  assert (skel n1 = skel (bd_nad bd) ++ [(if (bd_depth bd <=? 0)%Z then (-1)%Z else default 0%Z
     (<[bd_depth bd := Z.of_nat (length (skel (bd_nad bd)))]> (depths (bd_nad bd)) !! (bd_depth bd - 1)%Z), bd_depth bd)] ∧
     depths n1 = <[bd_depth bd := Z.of_nat (length (skel (bd_nad bd)))]> (depths (bd_nad bd)) ∧ (0 < ccur n1)%Z) as (S1 & S2 & S3).
  { unfold nad_append_elem in En1. cbn [_nad_cdata] in En1. injection En1 as <- <-. split_and!.
    - unfold skel at 1. simpl. rewrite fmap_app. fold (skel n). rewrite Hsk. simpl. by rewrite Hd, Hec.
    - simpl. by rewrite Hd, Hec.
    - unfold ccur in *. simpl. rewrite length_app. destruct elem; simpl; [|lia]. destruct Hc; [lia|done]. }
  destruct (parse_attrs_same n1 el atts Hae) as [P1 P2 P3 P4]. split; cbn [bd_nad bd_depth].
  - done.
  - intros _. lia.
  - intros _. lia.
  - by rewrite P2, S1.
  - by rewrite P2, P3, S1, S2.
  - lia.
Qed.

(** The events of a well-formed document: names are names, ends match starts, text is inside,
    and an empty URI is no namespace (Expat gives NULL there). *)
Fixpoint nested (D : Z) (evs : list xml_event) : Prop :=
  match evs with
  | [] => True
  | XStart name _ :: evs => named name ∧ nested (D + 1) evs
  | XEnd :: evs => (0 < D)%Z ∧ nested (D - 1) evs
  | XCdata _ :: evs => (0 < D)%Z ∧ nested D evs
  | XNamespace _ uri :: evs => uri ≠ Some "" ∧ nested D evs
  end.

Lemma nss_append_cdata n t d : nss (nad_append_cdata n t d) = nss n.
Proof. unfold nad_append_cdata. by destruct (_ =? _)%Z. Qed.

Lemma handle_events_ok bd evs bd' : bd_ok bd → nested (bd_depth bd) evs → handle_events bd evs = Some bd' → bd_ok bd'.
Proof.
  revert bd. induction evs as [|ev evs IH]; intros bd Hb Hne; simpl; [by intros [= <-]|].
  destruct ev as [name atts| |t|prefix [uri|]]; simpl in *; try done.
  - destruct Hne as [Hname Hne]. intros E.
    pose proof (element_start_ok bd name atts Hb Hname) as Hb1. apply (IH _ Hb1); [|done].
    unfold _nad_parse_element_start. destruct (name_bits name), (match _ with Some _ => _ | None => _ end) as [n ns].
    by destruct (nad_append_elem n ns _ _).
  - destruct Hne as [HD Hne]. apply IH; [|done]. destruct Hb. split; cbn [_nad_parse_element_end bd_nad bd_depth]; try done; [|lia].
    eapply depths_ok_less; [done|lia].
  - destruct Hne as [HD Hne]. apply IH; [|done]. destruct Hb as [Hn Ht Hs Hdoc Hdp HD0].
    assert (elems (bd_nad bd) ≠ []) as Hel.
    { destruct (Hdp 0%Z ltac:(lia)) as (p & _ & _ & (Hlt & _)). rewrite <- skel_nil. by destruct (skel (bd_nad bd)); [simpl in Hlt; lia|]. }
    specialize (Ht Hel).
    assert (skel (nad_append_cdata (bd_nad bd) t (bd_depth bd)) = skel (bd_nad bd) ∧
      depths (nad_append_cdata (bd_nad bd) t (bd_depth bd)) = depths (bd_nad bd) ∧
      (ccur (bd_nad bd) <= ccur (nad_append_cdata (bd_nad bd) t (bd_depth bd)))%Z) as (S1 & S2 & S3).
    { unfold nad_append_cdata. destruct (_ =? _)%Z; (split_and!; [by rewrite skel_upd_elem|done|unfold ccur; simpl; rewrite length_app; lia]). }
    split; cbn [_nad_parse_cdata bd_nad bd_depth].
    + by apply nad_append_cdata_ok.
    + intros _. lia.
    + intros _. lia.
    + by rewrite S1.
    + by rewrite S1, S2.
    + done.
  - destruct Hne as [Hu Hne]. destruct Hb as [Hn Ht Hs Hdoc Hdp HD0].
    assert (uri ≠ "") as Hu' by congruence.
    pose proof (add_namespace_text (bd_nad bd) uri prefix Hs (or_introl Hu')) as Hpos.
    destruct (nad_add_namespace_ok (bd_nad bd) uri prefix Hn) as (H1 & H2 & H3 & H4 & H5).
    destruct (nad_add_namespace (bd_nad bd) uri prefix) as [n ns]; simpl in *. apply IH; [|done].
    assert (skel (set_scope n ns) = skel (bd_nad bd)) as Hsk by (unfold skel; simpl; by rewrite H3).
    split; cbn [bd_nad bd_depth].
    + apply nad_ok_set_scope; [done|]. unfold idx. lia.
    + done.
    + done.
    + by rewrite Hsk.
    + rewrite Hsk. simpl. by rewrite H4.
    + done.
Qed.

(** ** Searching by depth is searching by parent *)

Definition elem_match (n : nad) (ns : Z) (name : option string) (e : nelem) : bool :=
  name_match n e name && ns_match n ns (e_my_ns e).

Lemma find_elem_loop_spec n es i ns name depth :
  let r := find_elem_loop n es i ns name depth in
  (r = (-1)%Z ∧ ∀ k e, es !! k = Some e → (∀ j e', (j < k)%nat → es !! j = Some e' → (depth <= e_depth e')%Z) →
     e_depth e = depth → elem_match n ns name e = false) ∨
  (∃ k e, r = (i + Z.of_nat k)%Z ∧ es !! k = Some e ∧ e_depth e = depth ∧ elem_match n ns name e = true ∧
     (∀ j e', (j < k)%nat → es !! j = Some e' → (depth <= e_depth e')%Z ∧
        (e_depth e' = depth → elem_match n ns name e' = false))).
Proof.
  revert i. induction es as [|e es IH]; intros i; cbn [find_elem_loop]; [by left|].
  destruct (Z.ltb_spec (e_depth e) depth) as [Hlt|Hge].
  { left. split; [done|]. intros [|k] e' Hk Hj Hd; simplify_eq/=; [lia|]. specialize (Hj 0 e ltac:(lia) eq_refl). lia. }
  fold (elem_match n ns name e).
  destruct ((e_depth e =? depth)%Z && name_match n e name && ns_match n ns (e_my_ns e)) eqn:Em.
  - rewrite <- andb_assoc, andb_true_iff, Z.eqb_eq in Em. destruct Em as [Hd Hm].
    right. exists 0, e. split_and!; [lia|done|done|done|]. intros. lia.
  - rewrite <- andb_assoc, andb_false_iff, Z.eqb_neq in Em. fold (elem_match n ns name e) in Em.
    destruct (IH (i + 1)%Z) as [[Hr Hno]|(k & e' & Hr & Hk & Hd & Hm & Hj)]; [left|right].
    + split; [done|]. intros [|k] e' Hk Hj Hd; simplify_eq/=.
      * destruct Em; [done|done].
      * apply (Hno k e' Hk); [|done]. intros j e'' Hjk Hj'. apply (Hj (S j)); [lia|done].
    + exists (S k), e'. split_and!; [rewrite Hr; lia|done|done|done|].
      intros [|j] e'' Hjk Hj'; simplify_eq/=; [|apply (Hj j); [lia|done]].
      split; [lia|]. intros. destruct Em; done.
Qed.

Lemma skel_lookup n i e : elems n !! i = Some e → skel n !! i = Some (e_parent e, e_depth e).
Proof. intros H. unfold skel. by rewrite list_lookup_fmap, H. Qed.

Lemma skel_lookup_inv n i p d : skel n !! i = Some (p, d) → ∃ e, elems n !! i = Some e ∧ e_parent e = p ∧ e_depth e = d.
Proof. unfold skel. rewrite list_lookup_fmap. intros (e & ? & ?)%fmap_Some. simplify_eq. eauto. Qed.

(** The elements after [a] up to [b] are all at depth [D] at least. *)
Definition inside (sk : list (Z * Z)) (D : Z) (a b : nat) : Prop :=
  ∀ j x, (a < j < b)%nat → sk !! j = Some x → (D <= x.2)%Z.

Lemma child_iff sk a i pa da p d : doc_ok sk → sk !! a = Some (pa, da) → sk !! i = Some (p, d) → (a < i)%nat →
  (d = da + 1 ∧ inside sk (da + 1) a i)%Z ↔ p = Z.of_nat a.
Proof.
  intros Hd Ha Hi Hai. destruct (Hd _ _ _ Hi) as [H0 H1], (Hd _ _ _ Ha) as [Ha0 _]. split.
  - intros [-> Hin]. destruct (Z.eqb_spec (da + 1) 0); [lia|]. destruct H1 as [Hp (Hlt & (pp & Hpp) & Hop)].
    replace (da + 1 - 1)%Z with da in * by lia.
    destruct (lt_eq_lt_dec (Z.to_nat p) a) as [[Hl|He]|Hl]; [exfalso| lia|exfalso].
    + specialize (Hop a _ ltac:(lia) Ha). simpl in Hop. lia.
    + specialize (Hin (Z.to_nat p) _ ltac:(lia) Hpp). simpl in Hin. lia.
  - intros ->. destruct (Z.eqb_spec d 0); [lia|]. destruct H1 as [Hp (Hlt & (pp & Hpp) & Hop)].
    rewrite Nat2Z.id, Ha in Hpp. simplify_eq. split; [lia|]. intros j x Hj Hx.
    rewrite Nat2Z.id in Hop. specialize (Hop j x Hj Hx). lia.
Qed.

Lemma sibling_iff sk a i pa da p d : doc_ok sk → sk !! a = Some (pa, da) → sk !! i = Some (p, d) → (a < i)%nat →
  (d = da ∧ inside sk da a i)%Z ↔ p = pa.
Proof.
  intros Hd Ha Hi Hai. destruct (Hd _ _ _ Hi) as [H0 H1], (Hd _ _ _ Ha) as [Ha0 Ha1]. split.
  - intros [-> Hin]. destruct (Z.eqb_spec da 0); [congruence|].
    destruct H1 as [Hp (Hlt & (pp & Hpp) & Hop)], Ha1 as [Hq (Hqlt & (qq & Hqq) & Hoq)].
    assert (Z.to_nat p < a) as Hpa.
    { destruct (lt_eq_lt_dec (Z.to_nat p) a) as [[Hl|He]|Hl]; [done|exfalso..].
      - rewrite He, Ha in Hpp. simplify_eq. lia.
      - specialize (Hin (Z.to_nat p) _ ltac:(lia) Hpp). simpl in Hin. lia. }
    destruct (lt_eq_lt_dec (Z.to_nat p) (Z.to_nat pa)) as [[Hl|He]|Hl]; [exfalso|lia|exfalso].
    + specialize (Hop (Z.to_nat pa) _ ltac:(lia) Hqq). simpl in Hop. lia.
    + specialize (Hoq (Z.to_nat p) _ ltac:(lia) Hpp). simpl in Hoq. lia.
  - intros ->. destruct (Z.eqb_spec d 0), (Z.eqb_spec da 0); subst; try lia.
    + split; [done|]. intros j [q dq] Hj Hx. by destruct (Hd _ _ _ Hx).
    + destruct H1 as [Hp (Hlt & (pp & Hpp) & Hop)], Ha1 as [Hq (Hqlt & (qq & Hqq) & Hoq)].
      rewrite Hpp in Hqq. simplify_eq. assert (d = da) as -> by lia. split; [done|]. intros j x Hj Hx.
      specialize (Hop j x ltac:(lia) Hx). lia.
Qed.

(** The first element after [a] with a parent and a property. *)
Definition first_after (n : nad) (a : Z) (parent : Z) (P : nelem → bool) (r : Z) : Prop :=
  (r = (-1)%Z ∧ ∀ i e, elems n !! i = Some e → (a < Z.of_nat i)%Z → e_parent e = parent → P e = false) ∨
  (∃ k e, r = Z.of_nat k ∧ elems n !! k = Some e ∧ (a < Z.of_nat k)%Z ∧ e_parent e = parent ∧ P e = true ∧
     ∀ i e', elems n !! i = Some e' → (a < Z.of_nat i < Z.of_nat k)%Z → e_parent e' = parent → P e' = false).

Lemma find_elem_first n el ns name D parent :
  (0 <= el < ecur n)%Z →
  (∀ i e, elems n !! i = Some e → (Z.to_nat el < i)%nat →
     (e_depth e = D ∧ inside (skel n) D (Z.to_nat el) i) ↔ e_parent e = parent) →
  first_after n el parent (elem_match n ns name)
    (find_elem_loop n (drop (Z.to_nat el + 1) (elems n)) (el + 1) ns name D).
Proof.
  intros Hel Hiff.
  assert (∀ k, drop (Z.to_nat el + 1) (elems n) !! k = elems n !! (Z.to_nat el + 1 + k)) as Hdr by (intros; apply lookup_drop).
  assert (∀ i j, (∀ k e', k < j → drop (Z.to_nat el + 1) (elems n) !! k = Some e' → (D <= e_depth e')%Z) →
    i = Z.to_nat el + 1 + j → inside (skel n) D (Z.to_nat el) i) as Hin.
  { intros i j Hj -> k [p d] Hk Hx. apply skel_lookup_inv in Hx as (e & He & _ & <-). simpl.
    apply (Hj (k - Z.to_nat el - 1)); [lia|]. rewrite Hdr. replace (Z.to_nat el + 1 + (k - Z.to_nat el - 1)) with k by lia. done. }
  assert (∀ i e, elems n !! i = Some e → (el < Z.of_nat i)%Z →
    ∃ k, i = Z.to_nat el + 1 + k ∧ drop (Z.to_nat el + 1) (elems n) !! k = Some e) as Hafter.
  { intros i e He Hi. exists (i - Z.to_nat el - 1). split; [lia|]. rewrite Hdr. rewrite <- He. f_equal. lia. }
  destruct (find_elem_loop_spec n (drop (Z.to_nat el + 1) (elems n)) (el + 1) ns name D)
    as [[-> Hno]|(k & e & -> & Hk & Hd & Hm & Hj)].
  - left. split; [done|]. intros i e He Hi Hp. destruct (Hafter i e He Hi) as (k & -> & Hk).
    destruct (proj2 (Hiff _ _ He ltac:(lia)) Hp) as [Hd Hins]. apply (Hno k e Hk); [|done].
    intros j e' Hjk Hj. rewrite Hdr in Hj. apply skel_lookup in Hj as Hj'.
    apply (Hins (Z.to_nat el + 1 + j) _ ltac:(lia) Hj').
  - right. exists (Z.to_nat el + 1 + k), e. pose proof Hk as Hk'. rewrite Hdr in Hk'.
    split_and!; [lia|done|lia| |done|].
    + apply (Hiff _ _ Hk' ltac:(lia)). split; [done|]. apply (Hin _ k); [|done]. intros j e' Hjk Hj'. by apply (Hj j e').
    + intros i e' He Hi Hp. destruct (Hafter i e' He ltac:(lia)) as (j & -> & Hjj).
      destruct (proj2 (Hiff _ _ He ltac:(lia)) Hp) as [Hd' _]. apply (Hj j e'); [lia|done|done].
Qed.

(** ** Properties: parsing and searching *)

(** C37: when Expat reports a document (each end after its start, text inside an element, names that
    are more than separators, no empty URI), the nad that the handlers build is well formed, also where
    a handler cuts a name to 1023 bytes: every index is in range, every chain goes down, every text
    lies in the buffer, and the elements are in document order, each one deeper than its parent by
    one. *)
Theorem nad_parse_wf xml_parse buf n :
  (∀ evs, xml_parse buf = Some evs → nested 0 evs) →
  nad_parse xml_parse buf = PNad n → nad_ok n ∧ doc_ok (skel n).
Proof.
  intros Hx. unfold nad_parse. destruct (xml_parse buf) as [evs|]; [|done].
  destruct (handle_events (BuildData nad_new 0) evs) as [bd|] eqn:E; [|done].
  destruct (bd_depth bd =? 0)%Z; [|done]. intros [= <-].
  assert (bd_ok (BuildData nad_new 0)) as H0.
  { split; simpl; [apply nad_new_ok|done|done|by intros [|i] ? ? H|intros d Hd; lia|done]. }
  destruct (handle_events_ok _ _ _ H0 (Hx _ eq_refl) E). done.
Qed.

(** [nad_find_elem] with depth 1 gives the first child with the name and namespace asked
    for, and with depth 0 the next sibling. *)
Theorem nad_find_elem_children n el ns name :
  doc_ok (skel n) → (0 <= el < ecur n)%Z →
  first_after n el el (elem_match n ns name) (nad_find_elem n el ns name 1) ∧
  first_after n el (e_parent (elem_at n el)) (elem_match n ns name) (nad_find_elem n el ns name 0).
Proof.
  intros Hd Hel. unfold nad_find_elem.
  destruct (Z.ltb_spec el 0), (Z.leb_spec (ecur n) el); try lia. simpl.
  assert (∃ e, elems n !! Z.to_nat el = Some e) as [e He] by (apply lookup_lt_is_Some; unfold ecur in Hel; lia).
  assert (elem_at n el = e) as -> by (rewrite <- (Z2Nat.id el) by lia; by apply elem_at_lookup).
  pose proof (skel_lookup _ _ _ He) as Hs. split; apply find_elem_first; try done.
  - intros i e' He' Hi. rewrite (child_iff _ _ _ _ _ _ _ Hd Hs (skel_lookup _ _ _ He') Hi). lia.
  - intros i e' He' Hi. rewrite Z.add_0_r. apply (sibling_iff _ _ _ _ _ _ _ Hd Hs (skel_lookup _ _ _ He') Hi).
Qed.

(** A document with a sibling and a nested element: [<a><b k='v'>x</b><c/><b/></a>]. *)
Definition sample_events : list xml_event :=
  [XStart "a" []; XStart "b" [("k", "v")]; XCdata (tx "x"); XEnd; XStart "c" []; XEnd; XStart "b" []; XEnd; XEnd].
Definition sample_parse (buf : text) : option (list xml_event) := Some sample_events.
Definition sample_nad : nad :=
  match nad_parse sample_parse [] with PNad n => n | _ => nad_new end.

(** A document whose namespace is so long that nothing is left of the element's name. *)
Definition long_uri : string := String.string_of_list_ascii (replicate 1022 "u"%char).
Definition cut_events : list xml_event :=
  [XNamespace None (Some long_uri); XStart (long_uri +:+ "|a") []; XCdata (tx "x"); XStart (long_uri +:+ "|b") []; XEnd; XEnd].
Definition cut_parse (buf : text) : option (list xml_event) := Some cut_events.
Definition cut_nad : nad :=
  match nad_parse cut_parse [] with PNad n => n | _ => nad_new end.

Lemma nad_parse_wf_witness : (nad_ok sample_nad ∧ doc_ok (skel sample_nad)) ∧ (nad_ok cut_nad ∧ doc_ok (skel cut_nad)) ∧
  nad_ename cut_nad 0 = [] ∧ ecur cut_nad = 2%Z.
Proof.
  split_and!.
  1, 2: apply (nad_parse_wf sample_parse []); [|vm_compute; reflexivity]; intros evs [= <-]; vm_compute; repeat split; discriminate.
  1, 2: apply (nad_parse_wf cut_parse []); [|vm_compute; reflexivity]; intros evs [= <-]; vm_compute; repeat split; discriminate.
  - vm_compute. reflexivity.
  - vm_compute. reflexivity.
Defined.

Lemma sample_wf : nad_ok sample_nad ∧ doc_ok (skel sample_nad).
Proof.
  assert (nested 0 sample_events) as Hn by (vm_compute; repeat split; discriminate).
  assert (bd_ok (BuildData nad_new 0)) as H0.
  { split; simpl; [apply nad_new_ok|done|done|by intros [|i] ? ? H|intros d Hd; lia|done]. }
  destruct (handle_events (BuildData nad_new 0) sample_events) as [bd|] eqn:E; [|by vm_compute in E].
  assert (bd_nad bd = sample_nad) as <- by (vm_compute in E; injection E as <-; by vm_compute).
  by destruct (handle_events_ok _ _ _ H0 Hn E).
Qed.
Lemma sample_ok : nad_ok sample_nad.
Proof. apply sample_wf. Qed.
Lemma sample_doc_ok : doc_ok (skel sample_nad).
Proof. apply sample_wf. Qed.

Lemma nad_find_elem_children_witness :
  first_after sample_nad 1 1 (elem_match sample_nad (-1) (Some "b")) (nad_find_elem sample_nad 1 (-1) (Some "b") 1) ∧
  first_after sample_nad 1 (e_parent (elem_at sample_nad 1)) (elem_match sample_nad (-1) (Some "b"))
    (nad_find_elem sample_nad 1 (-1) (Some "b") 0).
Proof.
  apply (nad_find_elem_children sample_nad 1 (-1) (Some "b") sample_doc_ok). vm_compute. split; [discriminate|reflexivity].
Defined.
