(* ===== verification/NadOps.v ===== *)
(** * Operations on nads: attributes, escaping, serialisation, and editing

    The attributes of an element as an association list, escaping as a
    character map, the round trip through the serialised form, and what the
    editing operations do to parents. *)
From S2P Require Import Prelude.
From S2P Require Import CStr.
From S2P Require Import Codec.
From S2P Require Import Nad.
From S2P Require Import NadThms.

(** ** Escaping is a map on characters *)

(** The entity of a character among those that a flag covers. *)
Fixpoint esc1 (flag : nat) (c : ascii) : text :=
  if bool_decide (c = flag_char flag) then flag_entity flag
  else match flag with O => [c] | S k => esc1 k c end.

Definition esc_ref (flag : nat) (t : text) : text := t ≫= esc1 flag.

Lemma split_text_spec c t :
  match split_text c t with
  | None => c ∉ t
  | Some (a, b) => t = a ++ c :: b ∧ c ∉ a
  end.
Proof.
  induction t as [|d t IH]; simpl; [set_solver|]. case_bool_decide; subst; [set_solver|].
  destruct (split_text c t) as [[a b]|]; simpl; [|set_solver]. destruct IH as [-> Ha]. set_solver.
Qed.

Lemma esc_ref_app flag a b : esc_ref flag (a ++ b) = esc_ref flag a ++ esc_ref flag b.
Proof. unfold esc_ref. apply bind_app. Qed.

Lemma esc1_S k c : esc1 (S k) c = if bool_decide (c = flag_char (S k)) then flag_entity (S k) else esc1 k c.
Proof. done. Qed.
Lemma esc1_O c : esc1 0 c = if bool_decide (c = flag_char 0) then flag_entity 0 else [c].
Proof. done. Qed.

Lemma esc_ref_clean k t : flag_char (S k) ∉ t → esc_ref (S k) t = esc_ref k t.
Proof.
  unfold esc_ref. induction t as [|c t IH]; [done|]. intros [Hc Ht]%not_elem_of_cons.
  rewrite !bind_cons, esc1_S, bool_decide_false by congruence. by rewrite IH.
Qed.

Lemma esc_ref_0_clean t : flag_char 0 ∉ t → esc_ref 0 t = t.
Proof.
  unfold esc_ref. induction t as [|c t IH]; [done|]. intros [Hc Ht]%not_elem_of_cons.
  rewrite !bind_cons, esc1_O, bool_decide_false by congruence. by rewrite IH.
Qed.

Lemma escape_split_spec fuel flag inner post t :
  length t ≤ fuel →
  (∀ a, flag_char flag ∉ a → inner a = esc_ref flag a) → (∀ a, flag_char flag ∉ a → post a = esc_ref flag a) →
  (escape_split fuel (flag_char flag) (flag_entity flag) inner t).1 ++
    post (escape_split fuel (flag_char flag) (flag_entity flag) inner t).2 = esc_ref flag t.
Proof.
  intros Hf Hi Hp. revert t Hf. induction fuel as [|f IH]; intros t Hf; cbn [escape_split].
  { destruct t; [|simpl in Hf; lia]. apply Hp. set_solver. }
  pose proof (split_text_spec (flag_char flag) t) as Hs.
  destruct (split_text (flag_char flag) t) as [[a b]|]; [|by apply Hp].
  destruct Hs as [-> Ha]. rewrite length_app in Hf. simpl in Hf. specialize (IH b ltac:(lia)).
  destruct (escape_split f (flag_char flag) (flag_entity flag) inner b) as [o r]. simpl in IH |- *.
  rewrite esc_ref_app, <- !app_assoc, IH, Hi by done. f_equal. unfold esc_ref. rewrite bind_cons. f_equal.
  destruct flag; [rewrite esc1_O|rewrite esc1_S]; by rewrite bool_decide_true.
Qed.

Lemma nad_escape_eq t flag : _nad_escape t flag = esc_ref flag t.
Proof.
  revert t. induction flag as [|k IH]; intros t; cbn [_nad_escape].
  - pose proof (escape_split_spec (length t) 0 (λ a, a) (λ a, a) t ltac:(lia)
      (λ a H, eq_sym (esc_ref_0_clean a H)) (λ a H, eq_sym (esc_ref_0_clean a H))) as H.
    by destruct (escape_split _ _ _ _ t).
  - assert (∀ a, flag_char (S k) ∉ a → _nad_escape a k = esc_ref (S k) a) as Hk.
    { intros a Ha. by rewrite IH, esc_ref_clean. }
    pose proof (escape_split_spec (length t) (S k) (λ a, _nad_escape a k) (λ a, _nad_escape a k) t ltac:(lia) Hk Hk) as H.
    by destruct (escape_split _ _ _ _ t).
Qed.

(** ** Attributes as an association list *)

(** The indices of a chain. *)
Fixpoint chain (fuel : nat) (n : nad) (a : Z) : list Z :=
  match fuel with
  | O => []
  | S f => if (a <? 0)%Z then [] else a :: chain f n (a_next (attr_at n a))
  end.

Definition attr_chain (n : nad) (el : Z) : list Z := chain (S (length (attrs n))) n (e_attr (elem_at n el)).

(** Names and values, in the order of the chain. *)
Definition attr_list (n : nad) (el : Z) : list (text * text) :=
  (λ a, (nad_aname n a, nad_aval n a)) <$> attr_chain n el.

Fixpoint al_get (name : text) (l : list (text * text)) : option text :=
  match l with
  | [] => None
  | (k, v) :: l => if bool_decide (k = name) then Some v else al_get name l
  end.

(** Set the first attribute of the name, or add one in front. *)
Fixpoint al_upd (name : text) (kv : text * text) (l : list (text * text)) : list (text * text) :=
  match l with
  | [] => []
  | (k, v) :: l => if bool_decide (k = name) then kv :: l else (k, v) :: al_upd name kv l
  end.

(** [None] blanks the name and the value of the attribute. *)
Definition al_set (name : text) (val : option text) (l : list (text * text)) : list (text * text) :=
  match al_get name l, val with
  | None, Some v => (name, v) :: l
  | None, None => l
  | Some _, Some v => al_upd name (name, v) l
  | Some _, None => al_upd name ([], []) l
  end.

Lemma slice_length len c i l : len = Z.of_nat (length c) → text_in len i l → Z.of_nat (length (slice c i l)) = l.
Proof. unfold text_in, slice. intros -> ?. rewrite length_take, length_drop. lia. Qed.

Lemma slice_app c d i l : text_in (Z.of_nat (length c)) i l → slice (c ++ d) i l = slice c i l.
Proof.
  unfold text_in, slice. intros. rewrite drop_app_le by lia. apply take_app_le. rewrite length_drop. lia.
Qed.

Lemma slice_new c d e : slice (c ++ d ++ e) (Z.of_nat (length c)) (Z.of_nat (length d)) = d.
Proof. unfold slice. rewrite !Nat2Z.id, drop_app_length, take_app_length. done. Qed.

Lemma same_text_eq len i l c s : len = Z.of_nat (length c) → text_in len i l →
  same_text l (slice c i l) s = bool_decide (slice c i l = s).
Proof.
  intros Hl Hi. unfold same_text. pose proof (slice_length len c i l Hl Hi) as E.
  case_bool_decide; [|by rewrite andb_false_r]. subst s. rewrite E, Z.eqb_refl. done.
Qed.

(** Indices of a chain are below its head, so enough fuel is enough. *)
Lemma chain_fuel n f g a : nad_ok n → (a < Z.of_nat f)%Z → (a < Z.of_nat g)%Z → chain f n a = chain g n a.
Proof.
  intros Hn. revert g a. induction f as [|f IH]; intros [|g] a Hf Hg; cbn [chain]; try done.
  - destruct (Z.ltb_spec a 0); [done|lia].
  - destruct (Z.ltb_spec a 0); [done|lia].
  - destruct (Z.ltb_spec a 0) as [|Ha]; [done|]. f_equal. pose proof (attr_at_next n a Hn Ha) as Hx.
    unfold idx in Hx. apply IH; lia.
Qed.

Lemma chain_range n f a i : nad_ok n → (a < acur n)%Z → i ∈ chain f n a → (0 <= i <= a)%Z ∧ (i < acur n)%Z.
Proof.
  intros Hn. revert a. induction f as [|f IH]; intros a Ha; cbn [chain]; [set_solver|].
  destruct (Z.ltb_spec a 0) as [|H0]; [set_solver|]. intros [->|Hi]%elem_of_cons; [lia|].
  pose proof (attr_at_next n a Hn H0) as Hx. unfold idx in Hx. destruct (IH (a_next (attr_at n a)) ltac:(lia) Hi). lia.
Qed.

Lemma attr_at_ok n a : nad_ok n → (0 <= a < acur n)%Z → attr_ok n (Z.to_nat a) (attr_at n a).
Proof.
  intros Hn Ha. unfold attr_at. rewrite nth_lookup.
  destruct (attrs n !! Z.to_nat a) eqn:E; simpl; [by eapply no_attrs|].
  apply lookup_ge_None in E. unfold acur in Ha. lia.
Qed.

(** The search finds the first index of the chain with the name. *)
Lemma find_attr_chain n f a name : nad_ok n → (a < acur n)%Z →
  find_attr_loop f n a (-1) name None =
    default (-1)%Z (head (filter (λ i, nad_aname n i = tx name) (chain f n a))).
Proof.
  intros Hn. revert a. induction f as [|f IH]; intros a Ha; cbn [find_attr_loop chain]; [done|].
  destruct (Z.ltb_spec a 0) as [|H0]; [done|].
  pose proof (attr_at_ok n a Hn ltac:(lia)) as Hok.
  rewrite (same_text_eq (ccur n)) by (done || apply Hok). rewrite filter_cons.
  unfold ns_match. change (-1 <? 0)%Z with true. cbn [orb]. rewrite !andb_true_r.
  change (slice (cdata n) (a_iname (attr_at n a)) (a_lname (attr_at n a))) with (nad_aname n a).
  case_bool_decide as E.
  - rewrite decide_True by done. done.
  - rewrite decide_False by done. apply IH. pose proof (ao_next _ _ _ Hok). unfold idx in *. lia.
Qed.

Lemma al_get_chain n (l : list Z) name :
  al_get name ((λ a, (nad_aname n a, nad_aval n a)) <$> l) =
    nad_aval n <$> head (filter (λ i, nad_aname n i = name) l).
Proof.
  induction l as [|a l IH]; [done|]. csimpl. rewrite filter_cons. case_bool_decide as E.
  - by rewrite decide_True.
  - by rewrite decide_False.
Qed.

Lemma chain_NoDup n f a : nad_ok n → (a < acur n)%Z → NoDup (chain f n a).
Proof.
  intros Hn. revert a. induction f as [|f IH]; intros a Ha; cbn [chain]; [constructor|].
  destruct (Z.ltb_spec a 0) as [|H0]; [constructor|].
  pose proof (attr_at_next n a Hn H0) as Hx. unfold idx in Hx. constructor; [|apply IH; lia].
  intros Hi. destruct (chain_range n f (a_next (attr_at n a)) a Hn ltac:(lia) Hi). lia.
Qed.

Lemma chain_ext n n' f a : nad_ok n → (a < acur n)%Z →
  (∀ i, (0 <= i < acur n)%Z → a_next (attr_at n' i) = a_next (attr_at n i)) → chain f n' a = chain f n a.
Proof.
  intros Hn Ha Hx. revert a Ha. induction f as [|f IH]; intros a Ha; cbn [chain]; [done|].
  destruct (Z.ltb_spec a 0) as [|H0]; [done|]. rewrite Hx by lia. f_equal. apply IH.
  pose proof (attr_at_next n a Hn H0) as Hy. unfold idx in Hy. lia.
Qed.

(** Names and values survive when the text only grows. *)
Lemma aname_grow n n' i t : nad_ok n → (0 <= i < acur n)%Z → cdata n' = cdata n ++ t →
  attr_at n' i = attr_at n i → nad_aname n' i = nad_aname n i ∧ nad_aval n' i = nad_aval n i.
Proof.
  intros Hn Hi Hc Ha. destruct (attr_at_ok n i Hn Hi) as [H1 H2 _ _]. unfold nad_aname, nad_aval.
  rewrite Ha, Hc. unfold ccur in *. by rewrite !slice_app.
Qed.

Lemma al_upd_chain (g g' : Z → text * text) l name kv a :
  NoDup l → head (filter (λ i, (g i).1 = name) l) = Some a → g' a = kv → (∀ i, i ∈ l → i ≠ a → g' i = g i) →
  al_upd name kv (g <$> l) = g' <$> l.
Proof.
  intros Hnd. revert a. induction Hnd as [|x l Hx Hnd IH]; intros a Hh Ha Hg; [done|]. csimpl.
  destruct (g x) as [k v] eqn:Eg. rewrite filter_cons, Eg in Hh. simpl in Hh. case_bool_decide as Ek.
  - rewrite decide_True in Hh by done. injection Hh as <-. rewrite Ha. f_equal.
    apply list_fmap_ext. intros i y Hy. symmetry. apply Hg; [apply list_elem_of_lookup_2 in Hy; set_solver|].
    intros ->. apply Hx. by eapply list_elem_of_lookup_2.
  - rewrite decide_False in Hh by done.
    assert (x ≠ a) as Hxa.
    { intros ->. destruct (filter _ l) as [|y l'] eqn:Ef; [done|]. injection Hh as ->.
      apply Hx. assert (a ∈ filter (λ i, (g i).1 = name) l) as H by (rewrite Ef; set_solver).
      by apply list_elem_of_filter in H as [_ H]. }
    rewrite (Hg x) by set_solver. rewrite Eg. f_equal. apply (IH a); [done|done|]. set_solver.
Qed.

Lemma head_filter (P : Z → Prop) `{!∀ x, Decision (P x)} l a : head (filter P l) = Some a → a ∈ l ∧ P a.
Proof.
  intros Hh. assert (a ∈ filter P l) as Hin by (destruct (filter P l); simplify_eq/=; set_solver).
  by apply list_elem_of_filter in Hin as [? ?].
Qed.

Lemma chain_head n el : nad_ok n → (e_attr (elem_at n el) < acur n)%Z.
Proof. intros Hn. pose proof (eo_attr _ _ (elem_at_ok n el Hn)) as H. unfold idx in H. lia. Qed.

Lemma attr_chain_range n el i : nad_ok n → i ∈ attr_chain n el → (0 <= i < acur n)%Z.
Proof.
  intros Hn Hi. destruct (chain_range n _ (e_attr (elem_at n el)) i Hn (chain_head n el Hn) Hi). lia.
Qed.

(** Changing the name and value of one attribute of the chain. *)
Lemma attr_list_update n n' el name a f t kv :
  nad_ok n → head (filter (λ i, nad_aname n i = tx name) (attr_chain n el)) = Some a →
  elems n' = elems n → attrs n' = alter f (Z.to_nat a) (attrs n) → (∀ x, a_next (f x) = a_next x) →
  cdata n' = cdata n ++ t → (nad_aname n' a, nad_aval n' a) = kv →
  attr_list n' el = al_upd (tx name) kv (attr_list n el).
Proof.
  intros Hn Hh He Hat Hf Hc Hkv. destruct (head_filter _ _ _ Hh) as [Hin Hnm].
  pose proof (attr_chain_range n el a Hn Hin) as Ha.
  assert (∀ i, (0 <= i)%Z → i ≠ a → attr_at n' i = attr_at n i) as Hother.
  { intros i Hi Hne. unfold attr_at. rewrite !nth_lookup, Hat, list_lookup_alter_ne by lia. done. }
  assert (attr_at n' a = f (attr_at n a)) as Hsame.
  { unfold attr_at. rewrite !nth_lookup, Hat, list_lookup_alter_eq.
    destruct (attrs n !! Z.to_nat a) eqn:E; [done|]. apply lookup_ge_None in E. unfold acur in Ha. lia. }
  assert (attr_chain n' el = attr_chain n el) as Hch.
  { unfold attr_chain. rewrite Hat, length_alter. unfold elem_at. rewrite He. fold (elem_at n el).
    apply chain_ext; [done|by apply chain_head|]. intros i Hi.
    destruct (decide (i = a)) as [->|]; [by rewrite Hsame, Hf|by rewrite Hother by lia]. }
  unfold attr_list. rewrite Hch. symmetry. apply (al_upd_chain _ _ _ _ _ a).
  - apply chain_NoDup; [done|by apply chain_head].
  - done.
  - done.
  - intros i Hi Hne. pose proof (attr_chain_range n el i Hn Hi) as Hir.
    destruct (aname_grow n n' i t Hn Hir Hc (Hother i ltac:(lia) Hne)) as [-> ->]. done.
Qed.

(** A new attribute at the head of the chain. *)
Lemma attr_list_create n el ns name val vallen : nad_ok n → (0 <= el < ecur n)%Z →
  attr_list (_nad_attr n el ns name val vallen).1 el = (tx name, val_text val vallen) :: attr_list n el.
Proof.
  intros Hn Hel. set (n2 := (_nad_attr n el ns name val vallen).1).
  set (a := Attr (ccur n) (Z.of_nat (length (tx name))) (ccur n + Z.of_nat (length (tx name)))
        (Z.of_nat (length (val_text val vallen))) ns (e_attr (elem_at n el))).
  assert (attrs n2 = attrs n ++ [a]) as Hat.
  { unfold n2, a, _nad_attr. cbn [_nad_cdata fst push_attr attrs upd_elem set_elems].
    do 3 f_equal. unfold ccur. cbn [cdata]. rewrite length_app. simpl. lia. }
  assert (cdata n2 = cdata n ++ tx name ++ val_text val vallen) as Hcd by (unfold n2; simpl; by rewrite <- app_assoc).
  assert (e_attr (elem_at n2 el) = acur n) as He.
  { unfold n2, elem_at. simpl. rewrite nth_lookup, list_lookup_alter_eq.
    destruct (elems n !! Z.to_nat el) eqn:E; [done|]. apply lookup_ge_None in E. unfold ecur in Hel. lia. }
  assert (∀ i, (0 <= i < acur n)%Z → attr_at n2 i = attr_at n i) as Hoth.
  { intros i Hi. unfold attr_at. rewrite Hat, app_nth1 by (unfold acur in Hi; lia). done. }
  assert (attr_at n2 (acur n) = a) as Hnew.
  { unfold attr_at. rewrite Hat, app_nth2 by (unfold acur; lia). unfold acur. by rewrite Nat2Z.id, Nat.sub_diag. }
  assert (attr_chain n2 el = acur n :: attr_chain n el) as Hch.
  { unfold attr_chain. rewrite He, Hat, length_app, Nat.add_1_r. cbn [chain].
    destruct (Z.ltb_spec (acur n) 0); [unfold acur in *; lia|]. f_equal. rewrite Hnew.
    apply (chain_ext n n2 (S (length (attrs n)))); [done|by apply chain_head|]. intros i Hi. by rewrite Hoth. }
  unfold attr_list. rewrite Hch, fmap_cons. f_equal.
  - unfold nad_aname, nad_aval. rewrite Hnew, Hcd. cbn [a a_iname a_lname a_ival a_lval]. unfold ccur. rewrite slice_new. f_equal.
    rewrite app_assoc, <- Nat2Z.inj_add, <- length_app.
    pose proof (slice_new (cdata n ++ tx name) (val_text val vallen) []) as Hsl. by rewrite app_nil_r in Hsl.
  - apply list_fmap_ext. intros k i Hi%list_elem_of_lookup_2.
    pose proof (attr_chain_range n el i Hn Hi) as Hir.
    destruct (aname_grow n n2 i (tx name ++ val_text val vallen) Hn Hir Hcd (Hoth i Hir)) as [-> ->]. done.
Qed.

Lemma attr_list_set n el name val vallen :
  nad_ok n → (0 <= el < ecur n)%Z →
  attr_list (nad_set_attr n el (-1) name val vallen) el =
    al_set (tx name) ((λ v, val_text v vallen) <$> val) (attr_list n el).
Proof.
  intros Hn Hel. unfold nad_set_attr, nad_find_attr.
  destruct (Z.ltb_spec el 0), (Z.leb_spec (ecur n) el); try lia. cbn [orb].
  rewrite find_attr_chain by (done || by apply chain_head). fold (attr_chain n el).
  unfold al_set. unfold attr_list at 2. rewrite al_get_chain.
  destruct (head (filter (λ i, nad_aname n i = tx name) (attr_chain n el))) as [a|] eqn:Eh.
  - destruct (head_filter _ _ _ Eh) as [Hin Hnm]. pose proof (attr_chain_range n el a Hn Hin) as Ha.
    destruct (attr_at_ok n a Hn Ha) as [Htx _ _ _]. unfold ccur in Htx.
    change (default (-1)%Z (Some a)) with a. destruct (Z.ltb_spec a 0); [lia|].
    assert (∀ n' f, attrs n' = alter f (Z.to_nat a) (attrs n) → attr_at n' a = f (attr_at n a)) as Hat.
    { intros n' f E. unfold attr_at. rewrite !nth_lookup, E, list_lookup_alter_eq.
      destruct (attrs n !! Z.to_nat a) eqn:E'; [done|]. apply lookup_ge_None in E'. unfold acur in Ha. lia. }
    destruct val as [v|]; cbn [fmap option_fmap option_map _nad_cdata].
    + eapply attr_list_update; try done.
      unfold nad_aname at 1, nad_aval. erewrite Hat by done. cbn [a_iname a_lname a_ival a_lval cdata upd_attr].
      rewrite slice_app by done. f_equal; [exact Hnm|].
      pose proof (slice_new (cdata n) (val_text v vallen) []) as Hsl. by rewrite app_nil_r in Hsl.
    + eapply (attr_list_update _ _ _ _ _ _ []); try done; [by rewrite app_nil_r|].
      unfold nad_aname at 1, nad_aval. erewrite Hat by done. unfold slice. simpl. done.
  - change (default (-1)%Z None) with (-1)%Z. cbn. destruct val as [v|]; [|done].
    by apply attr_list_create.
Qed.

(** ** Serialisation *)

Definition is_int (z : Z) : Prop := (- 2 ^ 31 <= z < 2 ^ 31)%Z.

Lemma ints_app a b : ints (a ++ b) = ints a ++ ints b.
Proof. apply bind_app. Qed.

Lemma ints_length l : length (ints l) = 4 * length l.
Proof.
  unfold ints. induction l as [|z l IH]; [done|]. rewrite bind_cons, length_app, IH. simpl. lia.
Qed.

Lemma int_at_spec buf pre a z b post pos : buf = pre ++ ints (a ++ z :: b) ++ post → pos = length pre + 4 * length a →
  is_int z → int_at buf pos = z.
Proof.
  intros -> -> Hz. unfold int_at. rewrite ints_app.
  change (ints (z :: b)) with (int_bytes z ++ ints b). rewrite <- !app_assoc, app_assoc.
  replace (length pre + 4 * length a) with (length (pre ++ ints a)) by (rewrite length_app, ints_length; done).
  rewrite drop_app_length. change 4 with (length (int_bytes z)). rewrite take_app_length. by apply int_of_bytes_int.
Qed.

(** Reading records of [w] integers each, one after the other. *)
Lemma read_list {A} (read : text → nat → A) (enc : A → list Z) (w : nat) (P : A → Prop) pre l post :
  (∀ x, length (enc x) = w) → (∀ buf pre x post, P x → buf = pre ++ ints (enc x) ++ post → read buf (length pre) = x) →
  Forall P l →
  (λ i, read (pre ++ ints (l ≫= enc) ++ post) (length pre + 4 * w * i)) <$> seq 0 (length l) = l.
Proof.
  intros Hw Hr HP. apply list_eq. intros i. rewrite list_lookup_fmap.
  destruct (l !! i) as [x|] eqn:Ex.
  - rewrite lookup_seq_lt by (by eapply lookup_lt_Some). cbn [fmap option_fmap option_map]. f_equal.
    rewrite Nat.add_0_l.
    assert (P x) by (rewrite Forall_lookup in HP; eauto).
    rewrite <- (take_drop_middle l i x Ex) at 1. rewrite bind_app, bind_cons, !ints_app.
    assert (length (ints (take i l ≫= enc)) = 4 * w * i) as Hlen.
    { rewrite ints_length. assert (length (take i l) = i) as Hl.
      { rewrite length_take. apply lookup_lt_Some in Ex. lia. }
      revert Hl. generalize (take i l). intros k <-. clear -Hw. induction k as [|y k IH]; [simpl; lia|].
      rewrite bind_cons, length_app, Hw. cbn [length]. nia. }
    rewrite <- Hlen, <- length_app. eapply Hr; [done|]. by rewrite <- !app_assoc.
  - rewrite lookup_seq_ge by (by apply lookup_ge_None in Ex). done.
Qed.

(** Reads the integers [todo] one after the other, [pre] being those read before. *)
Ltac read_ints E pre todo :=
  lazymatch todo with
  | [] => idtac
  | ?z :: ?rest =>
    rewrite (int_at_spec _ _ pre z rest _ _ E) by (done || simpl; lia);
    let pre' := eval simpl in (pre ++ [z]) in read_ints E pre' rest
  end.

Ltac split_ints := repeat match goal with H : Forall _ (_ :: _) |- _ => apply Forall_cons in H as [? H] end.

Lemma read_elem_spec buf pre e post : Forall is_int (elem_ints e) ∧ (0 <= e_depth e)%Z →
  buf = pre ++ ints (elem_ints e) ++ post → read_elem buf (length pre) = e.
Proof.
  intros [Hi Hd] E. destruct e as [z0 z1 z2 z3 z4 z5 z6 z7 z8 z9 z10]. unfold elem_ints in *.
  cbn [e_parent e_iname e_lname e_icdata e_lcdata e_itail e_ltail e_attr e_ns e_my_ns e_depth] in *. split_ints.
  unfold read_elem. rewrite <- (Nat.add_0_r (length pre)) at 1.
  read_ints E (@nil Z) [z0; z1; z2; z3; z4; z5; z6; z7; z8; z9; z10].
  unfold is_int, uint32 in *. by rewrite Z.mod_small by lia.
Qed.

Lemma read_attr_spec buf pre a post : Forall is_int (attr_ints a) →
  buf = pre ++ ints (attr_ints a) ++ post → read_attr buf (length pre) = a.
Proof.
  intros Hi E. destruct a as [z0 z1 z2 z3 z4 z5]. unfold attr_ints in *.
  cbn [a_iname a_lname a_ival a_lval a_my_ns a_next] in *. split_ints.
  unfold read_attr. rewrite <- (Nat.add_0_r (length pre)) at 1.
  by read_ints E (@nil Z) [z0; z1; z2; z3; z4; z5].
Qed.

Lemma read_ns_spec buf pre s post : Forall is_int (ns_ints s) →
  buf = pre ++ ints (ns_ints s) ++ post → read_ns buf (length pre) = s.
Proof.
  intros Hi E. destruct s as [z0 z1 z2 z3 z4]. unfold ns_ints in *.
  cbn [n_iuri n_luri n_iprefix n_lprefix n_next] in *. split_ints.
  unfold read_ns. rewrite <- (Nat.add_0_r (length pre)) at 1.
  by read_ints E (@nil Z) [z0; z1; z2; z3; z4].
Qed.

(** Depths are below the positions, so everything written is an [int]. *)
Lemma doc_depth_le sk i p d : doc_ok sk → sk !! i = Some (p, d) → (d <= Z.of_nat i)%Z ∧ (-1 <= p < Z.of_nat i)%Z.
Proof.
  intros Hd. revert p d. induction i as [i IH] using lt_wf_ind. intros p d Hi.
  destruct (Hd _ _ _ Hi) as [H0 H1]. destruct (Z.eqb_spec d 0); [lia|].
  destruct H1 as [Hp (Hlt & (pp & Hpp) & _)]. destruct (IH _ Hlt _ _ Hpp). lia.
Qed.

Definition serial_size (n : nad) : Z := (4 * 5 + 44 * ecur n + 24 * acur n + 20 * ncur n + ccur n)%Z.

Lemma nad_ints_ok n : nad_ok n → doc_ok (skel n) → (serial_size n < 2 ^ 31)%Z →
  Forall (λ e, Forall is_int (elem_ints e) ∧ (0 <= e_depth e)%Z) (elems n) ∧
  Forall (λ a, Forall is_int (attr_ints a)) (attrs n) ∧ Forall (λ s, Forall is_int (ns_ints s)) (nss n).
Proof.
  intros Hn Hd Hs. assert (0 <= ecur n ∧ 0 <= acur n ∧ 0 <= ncur n ∧ 0 <= ccur n)%Z as (?&?&?&?)
    by (unfold ecur, acur, ncur, ccur; lia).
  unfold serial_size in Hs. split_and!; apply Forall_lookup.
  - intros i e He. destruct (no_elems _ Hn _ _ He). pose proof (skel_lookup _ _ _ He) as Hsk.
    destruct (doc_depth_le _ _ _ _ Hd Hsk) as [D1 D2]. destruct (Hd _ _ _ Hsk) as [D0 _].
    assert (Z.of_nat i < ecur n)%Z by (apply lookup_lt_Some in He; unfold ecur; lia).
    unfold text_in, idx, is_int in *. split; [|done]. unfold elem_ints. repeat (constructor; [lia|]). constructor.
  - intros i a Ha. destruct (no_attrs _ Hn _ _ Ha).
    assert (Z.of_nat i < acur n)%Z by (apply lookup_lt_Some in Ha; unfold acur; lia).
    unfold text_in, idx, is_int in *. unfold attr_ints. repeat (constructor; [lia|]). constructor.
  - intros i s Hs'. destruct (no_nss _ Hn _ _ Hs') as [? [[??]|?] ?];
    assert (Z.of_nat i < ncur n)%Z by (apply lookup_lt_Some in Hs'; unfold ncur; lia);
    unfold text_in, idx, is_int in *; unfold ns_ints; repeat (constructor; [lia|]); constructor.
Qed.

Lemma bind_length {A} (f : A → list Z) w l : (∀ x, length (f x) = w) → length (l ≫= f) = w * length l.
Proof.
  intros Hf. induction l as [|x l IH]; [simpl; lia|]. rewrite bind_cons, length_app, Hf, IH. simpl. lia.
Qed.

Lemma nad_serialize_deserialize n : nad_ok n → doc_ok (skel n) → (serial_size n < 2 ^ 31)%Z →
  nad_deserialize (nad_serialize n) = Nad (elems n) (attrs n) (nss n) (cdata n) ∅ (-1).
Proof.
  intros Hn Hd Hs. destruct (nad_ints_ok n Hn Hd Hs) as (He & Ha & Hns).
  assert (0 <= ecur n ∧ 0 <= acur n ∧ 0 <= ncur n ∧ 0 <= ccur n)%Z as (?&?&?&?)
    by (unfold ecur, acur, ncur, ccur; lia).
  unfold serial_size in Hs. unfold nad_serialize.
  set (hd := [_; _; _; _; _]). set (be := ints (elems n ≫= elem_ints)). set (ba := ints (attrs n ≫= attr_ints)).
  set (bn := ints (nss n ≫= ns_ints)). set (buf := ints hd ++ _).
  assert (buf = [] ++ ints hd ++ (be ++ ba ++ bn ++ cdata n)) as E by done.
  assert (Forall is_int hd) as Hh by (unfold hd, is_int; repeat (constructor; [lia|]); constructor).
  unfold hd in Hh. split_ints.
  unfold nad_deserialize.
  rewrite (int_at_spec buf [] [_] (ecur n) _ _ 4 E) by (done || simpl; lia).
  rewrite (int_at_spec buf [] [_; _] (acur n) _ _ 8 E) by (done || simpl; lia).
  rewrite (int_at_spec buf [] [_; _; _] (ncur n) _ _ 12 E) by (done || simpl; lia).
  rewrite (int_at_spec buf [] [_; _; _; _] (ccur n) _ _ 16 E) by (done || simpl; lia).
  unfold ecur, acur, ncur, ccur. rewrite !Nat2Z.id.
  assert (length be = 44 * length (elems n)) as Lbe by (unfold be; rewrite ints_length, (bind_length _ 11) by done; lia).
  assert (length ba = 24 * length (attrs n)) as Lba by (unfold ba; rewrite ints_length, (bind_length _ 6) by done; lia).
  assert (length bn = 20 * length (nss n)) as Lbn by (unfold bn; rewrite ints_length, (bind_length _ 5) by done; lia).
  assert (length (ints hd) = 20) as Lhd by done.
  f_equal.
  - rewrite <- (read_list read_elem elem_ints 11 _ (ints hd) (elems n) (ba ++ bn ++ cdata n)
      ltac:(done) read_elem_spec He) at 2. by rewrite Lhd.
  - rewrite <- (read_list read_attr attr_ints 6 _ (ints hd ++ be) (attrs n) (bn ++ cdata n)
      ltac:(done) read_attr_spec Ha) at 2. rewrite length_app, Lhd, Lbe, <- app_assoc. done.
  - rewrite <- (read_list read_ns ns_ints 5 _ (ints hd ++ be ++ ba) (nss n) (cdata n)
      ltac:(done) read_ns_spec Hns) at 2. rewrite !length_app, Lhd, Lbe, Lba, <- !app_assoc.
    by rewrite Nat.add_assoc.
  - replace (20 + 44 * length (elems n) + 24 * length (attrs n) + 20 * length (nss n))
      with (length (ints hd ++ be ++ ba ++ bn)) by (rewrite !length_app; lia).
    unfold buf. rewrite !app_assoc, drop_app_length, firstn_all. done.
Qed.

(** ** Properties *)

(** The five specials of XML and their entities. *)
Definition xml_entity (c : ascii) : text :=
  if bool_decide (c = "&"%char) then tx "&amp;"
  else if bool_decide (c = "<"%char) then tx "&lt;"
  else if bool_decide (c = ">"%char) then tx "&gt;"
  else if bool_decide (c = "'"%char) then tx "&apos;"
  else if bool_decide (c = ascii_of_nat 34) then tx "&quot;"
  else [c].

(** The nested scans of [_nad_escape] write what escaping each character on its own writes:
    nothing is escaped twice and no special is left. *)
Theorem nad_escape_map t : _nad_escape t 4 = t ≫= xml_entity.
Proof.
  rewrite nad_escape_eq. unfold esc_ref. induction t as [|c t IH]; [done|]. rewrite !bind_cons, IH. f_equal.
  unfold xml_entity. cbn [esc1 flag_char flag_entity].
  repeat (case_bool_decide; [by subst|]). done.
Qed.

(** For a well-formed nad, [nad_set_attr] and [nad_find_attr] act on the attributes of an
    element as on an association list: setting replaces the value of the first attribute of the
    name or adds one in front, NULL blanks it, every other attribute keeps its value, and a search
    finds the value of the first one of the name; the nad stays well formed. *)
Theorem nad_set_attr_spec n el name val vallen :
  nad_ok n → (0 <= el < ecur n)%Z →
  let n' := nad_set_attr n el (-1) name val vallen in
  nad_ok n' ∧ attr_list n' el = al_set (tx name) ((λ v, val_text v vallen) <$> val) (attr_list n el) ∧
  ∀ key, al_get (tx key) (attr_list n' el) =
    if (0 <=? nad_find_attr n' el (-1) key None)%Z then Some (nad_aval n' (nad_find_attr n' el (-1) key None)) else None.
Proof.
  intros Hn Hel n'.
  assert (nad_ok n') as Hn' by (apply nad_set_attr_ok; [done|]; unfold idx, ncur; lia).
  split; [done|]. split; [by apply attr_list_set|]. intros key.
  assert (ecur n' = ecur n) as He.
  { unfold n', nad_set_attr, ecur. destruct (_ <? 0)%Z, val; simpl; by rewrite ?length_alter. }
  unfold nad_find_attr. rewrite He.
  destruct (Z.ltb_spec el 0), (Z.leb_spec (ecur n) el); try lia. cbn [orb].
  rewrite find_attr_chain by (done || by apply chain_head). fold (attr_chain n' el).
  unfold attr_list. rewrite al_get_chain.
  destruct (head (filter (λ i, nad_aname n' i = tx key) (attr_chain n' el))) as [a|] eqn:Eh; simpl; [|done].
  destruct (head_filter _ _ _ Eh) as [Hin _]. pose proof (attr_chain_range n' el a Hn' Hin).
  destruct (Z.leb_spec 0 a); [done|lia].
Qed.

Lemma nad_set_attr_spec_witness :
  let n' := nad_set_attr sample_nad 1 (-1) "k" (Some "w") 0 in
  nad_ok n' ∧ attr_list n' 1 = al_set (tx "k") (Some (tx "w")) (attr_list sample_nad 1) ∧
  ∀ key, al_get (tx key) (attr_list n' 1) =
    if (0 <=? nad_find_attr n' 1 (-1) key None)%Z then Some (nad_aval n' (nad_find_attr n' 1 (-1) key None)) else None.
Proof.
  apply (nad_set_attr_spec sample_nad 1 "k" (Some "w") 0); [apply sample_ok|vm_compute; split; [discriminate|reflexivity]].
Defined.

(** C39: deserialising a serialised nad gives its elements, attributes, namespaces and text back,
    whenever the serialised form fits the [int] that holds its length. *)
Theorem nad_serialize_roundtrip n :
  nad_ok n → doc_ok (skel n) → (Z.of_nat (length (nad_serialize n)) < 2 ^ 31)%Z →
  nad_deserialize (nad_serialize n) = Nad (elems n) (attrs n) (nss n) (cdata n) ∅ (-1).
Proof.
  intros Hn Hd Hs. apply nad_serialize_deserialize; [done|done|]. revert Hs. unfold nad_serialize, serial_size.
  rewrite !length_app, !ints_length, (bind_length _ 11), (bind_length _ 6), (bind_length _ 5) by done.
  unfold ecur, acur, ncur, ccur. cbn [length]. lia.
Qed.

Lemma nad_serialize_roundtrip_witness :
  nad_deserialize (nad_serialize sample_nad) =
    Nad (elems sample_nad) (attrs sample_nad) (nss sample_nad) (cdata sample_nad) ∅ (-1).
Proof.
  apply (nad_serialize_roundtrip sample_nad); [apply sample_ok|apply sample_doc_ok|vm_compute; reflexivity].
Defined.

Definition built (evs : list xml_event) : nad :=
  match handle_events (BuildData nad_new 0) evs with Some bd => bd_nad bd | None => nad_new end.

(** The path search does not come back from a branch without the rest of the path: in
    [<a><b/><b><c/></b></a>] the path b/c is not found, although its element is there. *)
Theorem nad_find_elem_path_no_backtrack :
  let n := built [XStart "a" []; XStart "b" []; XEnd; XStart "b" []; XStart "c" []; XEnd; XEnd; XEnd] in
  nad_find_elem_path n 0 (-1) (Some "b/c") = (-1)%Z ∧
  nad_ename n 3 = tx "c" ∧ e_parent (elem_at n 3) = 2%Z ∧ nad_ename n 2 = tx "b" ∧ e_parent (elem_at n 2) = 0%Z.
Proof. vm_compute. done. Qed.

(** Dropping an element leaves the children of the element after it with their old parent:
    in [<a><b/><c><d/></c></a>] without b, the element d becomes its own parent, and a search for
    a namespace that is not declared goes round for ever: no number of steps ends it. *)
Theorem nad_drop_elem_parent_cycle :
  let n := nad_drop_elem (built [XStart "a" []; XStart "b" []; XEnd; XStart "c" []; XStart "d" []; XEnd; XEnd; XEnd]) 1 in
  nad_ename n 2 = tx "d" ∧ e_parent (elem_at n 2) = 2%Z ∧ ¬ doc_ok (skel n).
Proof.
  split; [reflexivity|]. split; [reflexivity|]. intros Hd.
  destruct (doc_depth_le _ 2 2 2 Hd eq_refl). lia.
Qed.

(** Inserting an element leaves the children of the elements moved with their old parent: in
    [<a><b><c/></b></a>] with x inserted below a, the parent of c is x instead of b. *)
Theorem nad_insert_elem_stale_parent :
  let n := (nad_insert_elem (built [XStart "a" []; XStart "b" []; XStart "c" []; XEnd; XEnd; XEnd]) 0 (-1) "x" None).1 in
  nad_ename n 3 = tx "c" ∧ nad_ename n 2 = tx "b" ∧ e_parent (elem_at n 3) = 1%Z ∧ nad_ename n 1 = tx "x".
Proof. vm_compute. done. Qed.

(** The element that is wrapped does not get the new element as its parent, it keeps the one
    that the new element has, so what is declared on the wrapper is out of its sight. *)
Theorem nad_wrap_elem_parent n el ns name :
  (0 <= el < ecur n)%Z → (e_parent (elem_at n el) < el)%Z →
  let n' := nad_wrap_elem n el ns name in
  nad_ename n' el = tx name ∧ e_depth (elem_at n' (el + 1)) = (e_depth (elem_at n' el) + 1)%Z ∧
  e_parent (elem_at n' (el + 1)) = e_parent (elem_at n' el).
Proof.
  intros Hel Hp. unfold nad_wrap_elem. destruct (Z.ltb_spec el 0), (Z.leb_spec (ecur n) el); try lia. cbn [orb _nad_cdata].
  destruct (elems n !! Z.to_nat el) as [e|] eqn:E; [|apply lookup_ge_None in E; unfold ecur in Hel; lia].
  assert (elem_at n el = e) as Hat by (rewrite <- (Z2Nat.id el) by lia; by apply elem_at_lookup).
  rewrite Hat in *. rewrite (drop_S _ _ _ E).
  assert (length (take (Z.to_nat el) (elems n)) = Z.to_nat el) as Hl.
  { rewrite length_take. apply lookup_lt_Some in E. lia. }
  cbv zeta. unfold nad_ename, elem_at. cbn [set_scope set_elems elems cdata].
  rewrite !app_nth2 by lia. rewrite Hl.
  replace (Z.to_nat (el + 1) - Z.to_nat el) with 1 by lia. rewrite Nat.sub_diag. simpl.
  destruct (Z.leb_spec el (e_parent e)); [lia|]. split_and!; [|done|done].
  pose proof (slice_new (cdata n) (tx name) []) as Hsl. by rewrite app_nil_r in Hsl.
Qed.

Lemma nad_wrap_elem_parent_witness :
  let n' := nad_wrap_elem sample_nad 0 (-1) "route" in
  nad_ename n' 0 = tx "route" ∧ e_depth (elem_at n' 1) = (e_depth (elem_at n' 0) + 1)%Z ∧
  e_parent (elem_at n' 1) = e_parent (elem_at n' 0).
Proof.
  apply (nad_wrap_elem_parent sample_nad 0 (-1) "route"); vm_compute; [split; [discriminate|reflexivity]|reflexivity].
Defined.

(** A document that unsets its default namespace, [xmlns=''], makes Expat give a NULL URI,
    and the handler takes its length: the parse crashes. *)
Theorem nad_parse_null_uri xml_parse buf evs prefix evs' :
  xml_parse buf = Some (evs ++ XNamespace prefix None :: evs') → nad_parse xml_parse buf = PCrash.
Proof.
  intros Hx. unfold nad_parse. rewrite Hx. clear Hx. generalize (BuildData nad_new 0).
  induction evs as [|ev evs IH]; intros bd; simpl; [done|].
  destruct (handle_event bd ev) as [bd'|]; simpl; [apply IH|done].
Qed.

Definition unset_parse (buf : text) : option (list xml_event) :=
  Some [XNamespace None (Some "u"); XStart "u|a" []; XNamespace None None; XStart "b" []; XEnd; XEnd].

Lemma nad_parse_null_uri_witness : nad_parse unset_parse (tx "<a xmlns='u'><b xmlns=''/></a>") = PCrash.
Proof.
  exact (nad_parse_null_uri unset_parse (tx "<a xmlns='u'><b xmlns=''/></a>")
    [XNamespace None (Some "u"); XStart "u|a" []] None [XStart "b" []; XEnd; XEnd] eq_refl).
Defined.
