(* ===== verification/Stanza.v ===== *)
(** * Stanza errors and addresses: util/stanza.c

    The table of stanza errors, [stanza_error], which turns a packet into an
    error, and [stanza_tofrom], which swaps its addresses through two buffers
    of 3072 bytes.  The attributes of an element are seen as the association
    list [attr_list] of NadOps. *)
From S2P Require Import Prelude.
From S2P Require Import CStr.
From S2P Require Import Codec.
From S2P Require Import Nad.
From S2P Require Import NadThms.
From S2P Require Import NadOps.

(** ** The table *)

Definition stanza_err_BAD_REQUEST : Z := 100.
Definition stanza_err_FEATURE_NOT_IMPLEMENTED : Z := 102.
Definition stanza_err_FORBIDDEN : Z := 103.
Definition stanza_err_INTERNAL_SERVER_ERROR : Z := 105.
Definition stanza_err_ITEM_NOT_FOUND : Z := 106.
Definition stanza_err_JID_MALFORMED : Z := 107.
Definition stanza_err_NOT_ALLOWED : Z := 109.
Definition stanza_err_REDIRECT : Z := 112.
Definition stanza_err_REMOTE_SERVER_NOT_FOUND : Z := 114.
Definition stanza_err_SERVICE_UNAVAILABLE : Z := 117.
Definition stanza_err_UNKNOWN_SENDER : Z := 122.
Definition stanza_err_LAST : Z := 123.

(** [struct _stanza_error_st] *)
Record stanza_error_st := StanzaErr { se_name : option string; se_type : option string; se_code : option string }.

Definition _stanza_errors : list stanza_error_st := [
  StanzaErr (Some "bad-request") (Some "modify") (Some "400");
  StanzaErr (Some "conflict") (Some "cancel") (Some "409");
  StanzaErr (Some "feature-not-implemented") (Some "cancel") (Some "501");
  StanzaErr (Some "forbidden") (Some "auth") (Some "403");
  StanzaErr (Some "gone") (Some "modify") (Some "302");
  StanzaErr (Some "internal-server-error") (Some "wait") (Some "500");
  StanzaErr (Some "item-not-found") (Some "cancel") (Some "404");
  StanzaErr (Some "jid-malformed") (Some "modify") (Some "400");
  StanzaErr (Some "not-acceptable") (Some "cancel") (Some "406");
  StanzaErr (Some "not-allowed") (Some "cancel") (Some "405");
  StanzaErr (Some "payment-required") (Some "auth") (Some "402");
  StanzaErr (Some "recipient-unavailable") (Some "wait") (Some "404");
  StanzaErr (Some "redirect") (Some "modify") (Some "302");
  StanzaErr (Some "registration-required") (Some "auth") (Some "407");
  StanzaErr (Some "remote-server-not-found") (Some "cancel") (Some "404");
  StanzaErr (Some "remote-server-timeout") (Some "wait") (Some "502");
  StanzaErr (Some "resource-constraint") (Some "wait") (Some "500");
  StanzaErr (Some "service-unavailable") (Some "cancel") (Some "503");
  StanzaErr (Some "subscription-required") (Some "auth") (Some "407");
  StanzaErr (Some "undefined-condition") None (Some "500");
  StanzaErr (Some "unexpected-request") (Some "wait") (Some "400");
  StanzaErr None None (Some "401");
  StanzaErr (Some "unknown-sender") (Some "modify") (Some "400");
  StanzaErr None None None
].

Definition stanza_err (err : Z) : stanza_error_st :=
  nth (Z.to_nat (err - stanza_err_BAD_REQUEST)) _stanza_errors (StanzaErr None None None).

Definition uri_STANZA_ERR : string := "urn:ietf:params:xml:ns:xmpp-stanzas".

(** ** Operations *)

(** [None]: an assertion fails. *)
Definition stanza_error (n : nad) (elem err : Z) : option nad :=
  if ((0 <=? elem) && (stanza_err_BAD_REQUEST <=? err) && (err <? stanza_err_LAST))%Z then
    let e := stanza_err err in
    let n := nad_set_attr n elem (-1) "type" (Some "error") 5 in
    let '(n, elem) := nad_insert_elem n elem 0 "error" None in
    let n := match se_code e with Some c => nad_set_attr n elem (-1) "code" (Some c) 0 | None => n end in
    let n := match se_type e with Some t => nad_set_attr n elem (-1) "type" (Some t) 0 | None => n end in
    Some (match se_name e with
          | Some name =>
            let '(n, ns) := nad_add_namespace n uri_STANZA_ERR None in
            (nad_insert_elem n elem ns name None).1
          | None => n
          end)
  else None.

(** [snprintf(buf, size, "%.*s", ...)] of a text. *)
Definition sprint (size : nat) (t : text) : string := cstr_of (take (size - 1) t).

(** The value of an attribute as a string of 3071 characters at most; empty
    when there is none. *)
Definition attr_buf (n : nad) (elem : Z) (name : string) : string :=
  let attr := nad_find_attr n elem (-1) name None in
  if (0 <=? attr)%Z then sprint 3072 (nad_aval n attr) else EmptyString.

Definition not_empty (s : string) : option string := if bool_decide (s = EmptyString) then None else Some s.

Definition stanza_tofrom (n : nad) (elem : Z) : nad :=
  let to := attr_buf n elem "to" in
  let from := attr_buf n elem "from" in
  let n := nad_set_attr n elem (-1) "to" (not_empty from) 0 in
  nad_set_attr n elem (-1) "from" (not_empty to) 0.

(** ** Lemmas *)

Lemma tx_inj a b : tx a = tx b → a = b.
Proof. unfold tx. intros E. rewrite <- (String.string_of_list_ascii_of_string a), E. apply String.string_of_list_ascii_of_string. Qed.

Lemma cstr_of_tx t : nul ∉ t → tx (cstr_of t) = t.
Proof.
  induction t as [|c t IH]; intros Hn; cbn; [done|]. apply not_elem_of_cons in Hn as [Hc Hn].
  rewrite bool_decide_false by done. cbn. f_equal. by apply IH.
Qed.

(** The value of an attribute when it is there and not empty. *)
Definition al_val (name : text) (l : list (text * text)) : option text :=
  match al_get name l with Some [] | None => None | Some v => Some v end.

Lemma al_val_idem name l :
  match al_val name l with Some [] | None => None | Some v => Some v end = al_val name l.
Proof. unfold al_val. by destruct (al_get name l) as [[|c t]|]. Qed.

(** The name occurs once at most. *)
Definition al_once (name : text) (l : list (text * text)) : Prop :=
  length (filter (λ kv, kv.1 = name) l) ≤ 1.

Lemma al_get_None name l : al_get name l = None ↔ filter (λ kv, kv.1 = name) l = [].
Proof.
  induction l as [|[k v] l IH]; [done|]. cbn [al_get]. rewrite filter_cons. case_bool_decide as E.
  - by rewrite decide_True.
  - by rewrite decide_False.
Qed.

Lemma al_upd_other name name' kv l :
  name ≠ name' → kv.1 ≠ name' →
  al_get name' (al_upd name kv l) = al_get name' l ∧ (al_once name' l → al_once name' (al_upd name kv l)).
Proof.
  intros Hne Hkv. unfold al_once. induction l as [|[k v] l [IH1 IH2]]; [done|]. cbn [al_upd]. case_bool_decide as E.
  - subst k. destruct kv as [k' v']. cbn [al_get fst] in *. rewrite !filter_cons. cbn [fst].
    rewrite !bool_decide_false, !decide_False by done. done.
  - cbn [al_get]. rewrite !filter_cons. cbn [fst]. case_bool_decide as E'.
    + rewrite !decide_True by done. split; [done|]. cbn [length]. intros Hl.
      assert (filter (λ kv, kv.1 = name') (al_upd name kv l) = []) as ->; [|cbn; lia].
      apply al_get_None. rewrite IH1. apply al_get_None. destruct (filter _ l); [done|cbn in Hl; lia].
    + by rewrite !decide_False.
Qed.

Lemma al_set_other name name' v l :
  name ≠ name' → name' ≠ [] →
  al_get name' (al_set name v l) = al_get name' l ∧ (al_once name' l → al_once name' (al_set name v l)).
Proof.
  intros Hne Hn. unfold al_set. destruct (al_get name l), v; try by apply al_upd_other.
  - split; [cbn; by rewrite bool_decide_false|]. unfold al_once. rewrite filter_cons. cbn [fst].
    by rewrite decide_False.
  - done.
Qed.

Lemma al_set_same name v l :
  name ≠ [] → al_once name l → al_get name (al_set name v l) = v.
Proof.
  intros Hn Ho. unfold al_set. destruct (al_get name l) as [w|] eqn:E, v as [v|]; [..|done].
  - clear Ho. induction l as [|[k u] l IH]; [done|]. cbn [al_get al_upd] in *. case_bool_decide as Ek.
    + cbn. by rewrite bool_decide_true.
    + cbn. rewrite bool_decide_false by done. by apply IH.
  - revert Ho. unfold al_once. induction l as [|[k u] l IH]; [done|]. cbn [al_get al_upd] in *.
    rewrite filter_cons. cbn [fst]. case_bool_decide as Ek.
    + rewrite decide_True by done. cbn [length]. intros Hl. cbn. rewrite bool_decide_false by congruence.
      apply al_get_None. destruct (filter _ l); [done|cbn in Hl; lia].
    + rewrite decide_False by done. intros Hl. cbn. rewrite bool_decide_false by done. by apply IH.
  - cbn. by rewrite bool_decide_true.
Qed.

Lemma find_attr_al n el name : nad_ok n → (0 <= el < ecur n)%Z →
  al_get (tx name) (attr_list n el) =
    if (0 <=? nad_find_attr n el (-1) name None)%Z then Some (nad_aval n (nad_find_attr n el (-1) name None)) else None.
Proof.
  intros Hn Hel. unfold nad_find_attr. destruct (Z.ltb_spec el 0), (Z.leb_spec (ecur n) el); try lia. cbn [orb].
  rewrite find_attr_chain by (done || by apply chain_head). fold (attr_chain n el).
  unfold attr_list. rewrite al_get_chain.
  destruct (head (filter (λ i, nad_aname n i = tx name) (attr_chain n el))) as [a|] eqn:Eh; cbn; [|done].
  destruct (head_filter _ _ _ Eh) as [Hin _]. pose proof (attr_chain_range n el a Hn Hin).
  destruct (Z.leb_spec 0 a); [done|lia].
Qed.

Lemma set_attr_ecur n el ns name val vl : ecur (nad_set_attr n el ns name val vl) = ecur n.
Proof. unfold nad_set_attr, ecur. destruct (_ <? 0)%Z, val; simpl; by rewrite ?length_alter. Qed.

(** An address that the buffers hold: at most 3071 bytes, no NUL. *)
Definition fits (v : option text) : Prop := ∀ t, v = Some t → length t ≤ 3071 ∧ nul ∉ t.

Lemma attr_buf_val n el name : nad_ok n → (0 <= el < ecur n)%Z → fits (al_get (tx name) (attr_list n el)) →
  tx <$> not_empty (attr_buf n el name) = al_val (tx name) (attr_list n el).
Proof.
  intros Hn Hel. unfold attr_buf, al_val. rewrite (find_attr_al n el name Hn Hel).
  destruct (0 <=? _)%Z; [|done]. set (t := nad_aval n _). intros Hf. destruct (Hf t eq_refl) as [Hl Hz].
  unfold sprint, not_empty. rewrite take_ge by (cbn; lia).
  pose proof (cstr_of_tx t Hz) as E. case_bool_decide as He.
  - rewrite He in E. by rewrite <- E.
  - cbn. rewrite E. destruct t; [|done]. by destruct He.
Qed.

(** ** The property *)

(** [stanza_tofrom] swaps the two addresses of an element and leaves every other attribute as
    it was; an address that was missing or empty makes the other one disappear.  It needs
    addresses of at most 3071 bytes, the size of its buffers. *)
Theorem stanza_tofrom_swaps n el :
  nad_ok n → (0 <= el < ecur n)%Z →
  let l := attr_list n el in let l' := attr_list (stanza_tofrom n el) el in
  al_once (tx "to") l → al_once (tx "from") l → fits (al_get (tx "to") l) → fits (al_get (tx "from") l) →
  nad_ok (stanza_tofrom n el) ∧
  al_val (tx "to") l' = al_val (tx "from") l ∧ al_val (tx "from") l' = al_val (tx "to") l ∧
  ∀ name, name ≠ [] → name ≠ tx "to" → name ≠ tx "from" → al_get name l' = al_get name l.
Proof.
  intros Hn Hel l l' Hto Hfrom Fto Ffrom.
  pose proof (attr_buf_val n el "to" Hn Hel Fto) as Eto. pose proof (attr_buf_val n el "from" Hn Hel Ffrom) as Efrom.
  fold l in Eto, Efrom. set (v1 := not_empty (attr_buf n el "from")) in *. set (v2 := not_empty (attr_buf n el "to")) in *.
  set (n1 := nad_set_attr n el (-1) "to" v1 0).
  assert (nad_ok n1) as Hn1 by (apply nad_set_attr_ok; [done|]; unfold idx, ncur; lia).
  assert (0 <= el < ecur n1)%Z as Hel1 by (unfold n1; by rewrite set_attr_ecur).
  assert (l' = al_set (tx "from") (tx <$> v2) (al_set (tx "to") (tx <$> v1) l)) as El.
  { unfold l', stanza_tofrom. fold v1 v2 n1. rewrite (attr_list_set n1 el "from" v2 0 Hn1 Hel1).
    unfold n1. rewrite (attr_list_set n el "to" v1 0 Hn Hel). by destruct v1, v2. }
  split; [apply nad_set_attr_ok; [done|]; unfold idx, ncur; lia|].
  destruct (al_set_other (tx "to") (tx "from") (tx <$> v1) l) as [_ Ho]; [done..|].
  destruct (al_set_other (tx "from") (tx "to") (tx <$> v2) (al_set (tx "to") (tx <$> v1) l)) as [Ht _]; [done..|].
  rewrite El. split_and!.
  - unfold al_val at 1. rewrite Ht, al_set_same, Efrom by done. apply al_val_idem.
  - unfold al_val at 1. rewrite al_set_same, Eto by auto. apply al_val_idem.
  - intros name H1 H2 H3. rewrite (proj1 (al_set_other (tx "from") name _ _ ltac:(done) H1)).
    by apply al_set_other.
Qed.

Definition addressed : nad :=
  let '(n, el) := nad_append_elem nad_new (-1) "message" 0 in
  let n := (nad_append_attr n (-1) "to" "juliet@capulet.example").1 in
  (nad_append_attr n (-1) "from" "romeo@montague.example/orchard").1.

Lemma addressed_ok : nad_ok addressed.
Proof.
  unfold addressed, nad_append_attr. pose proof (nad_append_elem_ok nad_new (-1) "message" 0 nad_new_ok) as H.
  destruct (nad_append_elem _ _ _ _) as [n el].
  do 2 (apply _nad_attr_ok; [|unfold idx, ncur; lia]). apply H. unfold idx, ncur. lia.
Qed.

Lemma stanza_tofrom_swaps_witness :
  al_val (tx "to") (attr_list (stanza_tofrom addressed 0) 0) = Some (tx "romeo@montague.example/orchard") ∧
  al_val (tx "from") (attr_list (stanza_tofrom addressed 0) 0) = Some (tx "juliet@capulet.example").
Proof.
  destruct (stanza_tofrom_swaps addressed 0) as (_ & E1 & E2 & _).
  - apply addressed_ok.
  - vm_compute. split; [discriminate|reflexivity].
  - vm_compute. lia.
  - vm_compute. lia.
  - intros t E. vm_compute in E. injection E as <-. split; [vm_compute; lia|refine (bool_decide_unpack _ _); vm_compute; exact I].
  - intros t E. vm_compute in E. injection E as <-. split; [vm_compute; lia|refine (bool_decide_unpack _ _); vm_compute; exact I].
  - rewrite E1, E2. split; vm_compute; reflexivity.
Defined.

(** ** What the applications see of a stream: sx/sx.h

    The states of a stream in their order, the stream errors and the flags. *)

Inductive sx_state :=
  | state_NONE | state_STREAM_RECEIVED | state_STREAM_SENT | state_STREAM
  | state_OPEN | state_CLOSING | state_CLOSED.
#[global] Instance sx_state_eq_dec : EqDecision sx_state.
Proof. solve_decision. Defined.

Definition state_index (st : sx_state) : Z :=
  match st with
  | state_NONE => 0 | state_STREAM_RECEIVED => 1 | state_STREAM_SENT => 2 | state_STREAM => 3
  | state_OPEN => 4 | state_CLOSING => 5 | state_CLOSED => 6
  end.
(** [st >= bound] *)
Definition state_ge (st bound : sx_state) : bool := (state_index bound <=? state_index st)%Z.

Definition stream_err_CONFLICT : Z := 2.
Definition stream_err_HOST_GONE : Z := 4.
Definition stream_err_HOST_UNKNOWN : Z := 5.
Definition stream_err_INTERNAL_SERVER_ERROR : Z := 7.
Definition stream_err_INVALID_NAMESPACE : Z := 10.
Definition stream_err_NOT_AUTHORIZED : Z := 12.
Definition stream_err_POLICY_VIOLATION : Z := 13.
Definition stream_err_SEE_OTHER_HOST : Z := 17.

Definition SX_SSL_WRAPPER : Z := Z.shiftl 1 0.
Definition SX_SSL_STARTTLS_OFFER : Z := Z.shiftl 1 1.
Definition SX_SSL_STARTTLS_REQUIRE : Z := Z.shiftl 1 2.
Definition SX_SASL_OFFER : Z := Z.shiftl 1 3.
Definition SX_COMPRESS_OFFER : Z := Z.shiftl 1 5.
Definition SX_WEBSOCKET_WRAPPER : Z := Z.shiftl 1 6.

(** What [recv] and [send] give: a length, that it would block, or an error. *)
Inductive recv_result := RLen (len : Z) | RWouldBlock | RError.
