(* ===== verification/NadScan.v ===== *)
(** * Loops over the children of an element

    The loops
    [for(el = nad_find_elem(nad, p, -1, name, 1); el >= 0; el = nad_find_elem(nad, el, -1, name, 0))]
    that read the configuration, the rosters and the queries all over the
    servers, and what they visit: the child elements with the name, each once,
    in document order. *)
From S2P Require Import Prelude.
From S2P Require Import CStr.
From S2P Require Import Codec.
From S2P Require Import Nad.
From S2P Require Import NadThms.
From S2P Require Import NadOps.
From S2P Require Import Stanza.

Fixpoint scan (fuel : nat) (n : nad) (ns : Z) (name : string) (el : Z) : list Z :=
  match fuel with
  | O => []
  | S f => if (el <? 0)%Z then [] else el :: scan f n ns name (nad_find_elem n el ns (Some name) 0)
  end.

(** The elements that the loop visits; no more turns than there are elements. *)
Definition children (n : nad) (el ns : Z) (name : string) : list Z :=
  scan (length (elems n)) n ns name (nad_find_elem n el ns (Some name) 1).

(** The child elements of [p] with the name and namespace, from element [a] on. *)
Definition child_of (n : nad) (p ns : Z) (name : string) (i : nat) : bool :=
  match elems n !! i with
  | Some e => (e_parent e =? p)%Z && elem_match n ns (Some name) e
  | None => false
  end.

Lemma filter_false {A} (P : A → bool) (l : list A) : (∀ x, x ∈ l → P x = false) → filter (λ x, P x = true) l = [].
Proof.
  induction l as [|x l IH]; intros Hx; [done|]. rewrite filter_cons, Hx by set_solver. cbn.
  apply IH. set_solver.
Qed.

Lemma scan_spec n ns name p f a r :
  doc_ok (skel n) → (-1 <= a)%Z → (Z.of_nat (length (elems n)) <= Z.of_nat f + a + 1)%Z →
  first_after n a p (elem_match n ns (Some name)) r →
  scan f n ns name r =
    Z.of_nat <$> filter (λ i, child_of n p ns name i = true)
      (seq (Z.to_nat (a + 1)) (length (elems n) - Z.to_nat (a + 1))).
Proof.
  intros Hd. revert a r. induction f as [|f IH]; intros a r Ha Hf Hr.
  { replace (length (elems n) - Z.to_nat (a + 1)) with 0 by lia. done. }
  cbn [scan]. destruct Hr as [[-> Hno]|(k & e & -> & He & Hk & Hp & HP & Hbefore)].
  - cbn. rewrite filter_false; [done|]. intros i Hi%elem_of_seq. unfold child_of.
    destruct (elems n !! i) as [e|] eqn:He; [|done].
    destruct (Z.eqb_spec (e_parent e) p) as [Hp|]; [|done]. cbn. apply (Hno i e He); [lia|done].
  - pose proof (lookup_lt_Some _ _ _ He) as Hlt. destruct (Z.ltb_spec (Z.of_nat k) 0); [lia|].
    replace (length (elems n) - Z.to_nat (a + 1))
      with ((k - Z.to_nat (a + 1)) + (1 + (length (elems n) - Z.to_nat (Z.of_nat k + 1)))) by lia.
    rewrite seq_app, filter_app, filter_false.
    2: { intros i Hi%elem_of_seq. unfold child_of. destruct (elems n !! i) as [e'|] eqn:He'; [|done].
      destruct (Z.eqb_spec (e_parent e') p) as [Hp'|]; [|done]. cbn. apply (Hbefore i e' He'); [lia|done]. }
    replace (Z.to_nat (a + 1) + (k - Z.to_nat (a + 1))) with k by lia.
    cbn [seq app Nat.add]. rewrite filter_cons, decide_True.
    2: { unfold child_of. by rewrite He, HP, (proj2 (Z.eqb_eq _ _) Hp). }
    rewrite fmap_cons. f_equal.
    replace (S k) with (Z.to_nat (Z.of_nat k + 1)) by lia.
    apply IH; [lia|lia|].
    destruct (nad_find_elem_children n (Z.of_nat k) ns (Some name) Hd) as [_ Hs]; [unfold ecur; lia|].
    rewrite (elem_at_lookup _ _ _ He), Hp in Hs. done.
Qed.

(** The loop visits the children with the name, in document order. *)
Lemma children_spec n el ns name :
  doc_ok (skel n) → (0 <= el < ecur n)%Z →
  children n el ns name =
    Z.of_nat <$> filter (λ i, child_of n el ns name i = true)
      (seq (Z.to_nat (el + 1)) (length (elems n) - Z.to_nat (el + 1))).
Proof.
  intros Hd Hel. unfold children. apply scan_spec; [done|lia|unfold ecur in Hel; lia|].
  by apply nad_find_elem_children.
Qed.

(** ** The outline of a document

    The depth, the name and the attributes of each element, in document order:
    what the operations that build a document do to it.  [doc n k o] says that
    [n] is well formed, that its attributes have no namespace, that it has [k]
    namespaces at least and that its outline is [o]. *)

Definition line : Type := Z * text * list (text * text).
Implicit Types (n : nad) (o : list line) (l : list (text * text)).

Definition line_of n (i : nat) (e : nelem) : line :=
  (e_depth e, slice (cdata n) (e_iname e) (e_lname e), attr_list n (Z.of_nat i)).
Definition outline n : list line := imap (line_of n) (elems n).

Record doc n (k : Z) o : Prop := {
  doc_nad : nad_ok n;
  doc_plain : ∀ i a, attrs n !! i = Some a → a_my_ns a = (-1)%Z;
  doc_nss : (k <= ncur n)%Z;
  doc_outline : outline n = o
}.

Lemma outline_length n : length (outline n) = length (elems n).
Proof. apply length_imap. Qed.
Lemma outline_lookup n i : outline n !! i = line_of n i <$> elems n !! i.
Proof. apply list_lookup_imap. Qed.

(** ** Text that is added *)

Lemma attr_list_same n n' i j : elem_at n' i = elem_at n j → attrs n' = attrs n →
  nad_ok n → (∃ t, cdata n' = cdata n ++ t) → attr_list n' i = attr_list n j.
Proof.
  intros He Ha Hn [t Hc]. unfold attr_list.
  assert (attr_chain n' i = attr_chain n j) as ->.
  { unfold attr_chain. rewrite He, Ha. apply chain_ext; [done|by apply chain_head|]. intros k _. unfold attr_at. by rewrite Ha. }
  apply list_fmap_ext. intros k a Hk%list_elem_of_lookup_2. pose proof (attr_chain_range n j a Hn Hk) as Hr.
  destruct (aname_grow n n' a t Hn Hr Hc) as [-> ->]; [unfold attr_at; by rewrite Ha|done].
Qed.

Lemma name_grow n n' i e t : nad_ok n → elems n !! i = Some e → cdata n' = cdata n ++ t →
  slice (cdata n') (e_iname e) (e_lname e) = slice (cdata n) (e_iname e) (e_lname e).
Proof. intros Hn He ->. apply slice_app. apply (eo_name n e (no_elems _ Hn _ _ He)). Qed.

(** What the outline is made of. *)
Definition head_of (e : nelem) : Z * Z * Z * Z := (e_depth e, e_iname e, e_lname e, e_attr e).

Lemma outline_grow n n' t : nad_ok n → head_of <$> elems n' = head_of <$> elems n → attrs n' = attrs n →
  cdata n' = cdata n ++ t → outline n' = outline n.
Proof.
  intros Hn He Ha Hc. apply list_eq. intros i. rewrite !outline_lookup.
  pose proof (f_equal (λ x, x !! i) He) as Hi. cbn in Hi. rewrite !list_lookup_fmap in Hi.
  destruct (elems n !! i) as [e|] eqn:E, (elems n' !! i) as [e'|] eqn:E'; cbn in Hi |- *; try done.
  injection Hi as H1 H2 H3 H4. f_equal. unfold line_of. rewrite H1, H2, H3. rewrite (name_grow n n' i e t Hn E Hc). f_equal.
  unfold attr_list.
  assert (attr_chain n' (Z.of_nat i) = attr_chain n (Z.of_nat i)) as ->.
  { unfold attr_chain. rewrite (elem_at_lookup _ _ _ E), (elem_at_lookup _ _ _ E'), H4, Ha.
    apply chain_ext; [done| |intros k _; unfold attr_at; by rewrite Ha].
    rewrite <- (elem_at_lookup _ _ _ E). by apply chain_head. }
  apply list_fmap_ext. intros k a Hk%list_elem_of_lookup_2. pose proof (attr_chain_range n _ a Hn Hk) as Hr.
  destruct (aname_grow n n' a t Hn Hr Hc) as [-> ->]; [unfold attr_at; by rewrite Ha|done].
Qed.

Lemma outline_same n n' : nad_ok n → head_of <$> elems n' = head_of <$> elems n → attrs n' = attrs n →
  cdata n' = cdata n → outline n' = outline n.
Proof. intros ? ? ? Hc. apply (outline_grow n n' []); [done..|]. by rewrite app_nil_r. Qed.

Lemma head_upd_elem (es : list nelem) i f : (∀ e, head_of (f e) = head_of e) → head_of <$> alter f i es = head_of <$> es.
Proof.
  intros Hf. apply list_eq. intros j. rewrite !list_lookup_fmap, list_lookup_alter.
  case_decide as E; [subst j|done]. rewrite <- option_fmap_compose. destruct (es !! i); [|done]. cbn. by rewrite Hf.
Qed.

(** ** Elements *)

Lemma doc_append_elem n k o ns name depth : doc n k o → (-1 <= ns < k)%Z →
  doc (nad_append_elem n ns name depth).1 k (o ++ [(depth, tx name, [])]).
Proof.
  intros [Hn Hp Hk Ho] Hns. set (n' := (nad_append_elem n ns name depth).1).
  split; [apply nad_append_elem_ok; [done|unfold idx; lia]|done|done|]. subst o.
  apply list_eq. intros i. rewrite outline_lookup. unfold n', nad_append_elem. cbn [_nad_cdata fst elems].
  destruct (decide (i < length (elems n))) as [Hi|Hi].
  - rewrite !lookup_app_l by (rewrite ?outline_length; done). rewrite outline_lookup.
    destruct (elems n !! i) as [e|] eqn:E; [|done]. cbn. f_equal. unfold line_of. cbn [cdata].
    rewrite slice_app by apply (no_elems _ Hn _ _ E). f_equal.
    apply attr_list_same; [|done|done|by eexists].
    unfold elem_at. cbn [elems]. rewrite app_nth1 by lia. done.
  - rewrite !lookup_app_r by (rewrite ?outline_length; lia). rewrite outline_length.
    destruct (i - length (elems n)) as [|r] eqn:Er; [|done]. cbn. f_equal. unfold line_of. cbn [cdata e_iname e_lname e_depth].
    replace (slice (cdata n ++ tx name) (ccur n) (Z.of_nat (length (tx name)))) with (tx name).
    2: { symmetry. unfold ccur. pose proof (slice_new (cdata n) (tx name) []) as Hs. by rewrite app_nil_r in Hs. }
    f_equal. unfold attr_list, attr_chain, elem_at. cbn [elems]. replace i with (length (elems n)) by lia.
    rewrite Nat2Z.id, app_nth2, Nat.sub_diag by lia. done.
Qed.

(** ** Attributes *)

Definition add_attr (kv : text * text) (x : line) : line := (x.1, kv :: x.2).

Lemma attr_list_other n el ns name v vl j : nad_ok n → el ≠ j → (0 <= el)%Z → (0 <= j)%Z →
  attr_list (_nad_attr n el ns name v vl).1 j = attr_list n j.
Proof.
  intros Hn Hne H0 H1. set (n2 := (_nad_attr n el ns name v vl).1).
  assert (elem_at n2 j = elem_at n j) as He.
  { unfold n2, elem_at. cbn [_nad_attr _nad_cdata fst push_attr elems upd_elem set_elems].
    rewrite !nth_lookup, list_lookup_alter_ne by lia. done. }
  assert (∀ i, (0 <= i < acur n)%Z → attr_at n2 i = attr_at n i) as Hat.
  { intros i Hi. unfold attr_at, n2. cbn [_nad_attr _nad_cdata fst push_attr attrs upd_elem set_elems].
    rewrite app_nth1 by (unfold acur in Hi; lia). done. }
  assert (attr_chain n2 j = attr_chain n j) as Hch.
  { unfold attr_chain. rewrite He. unfold n2. cbn [_nad_attr _nad_cdata fst push_attr attrs upd_elem set_elems]. fold n2.
    rewrite length_app. cbn [length].
    pose proof (chain_head n j Hn) as Hh.
    rewrite (chain_ext n n2 (S (length (attrs n) + 1))) by (done || (intros; by rewrite Hat)).
    apply chain_fuel; [done|unfold acur in Hh; lia..]. }
  unfold attr_list. rewrite Hch. apply list_fmap_ext. intros k a Hk%list_elem_of_lookup_2.
  pose proof (attr_chain_range n j a Hn Hk) as Hr.
  destruct (aname_grow n n2 a (tx name ++ val_text v vl) Hn Hr) as [-> ->]; [|by apply Hat|done].
  unfold n2. cbn. by rewrite <- app_assoc.
Qed.

Lemma doc_attr n k o el name v vl : doc n k o → (0 <= el < ecur n)%Z →
  doc (_nad_attr n el (-1) name v vl).1 k (alter (add_attr (tx name, val_text v vl)) (Z.to_nat el) o).
Proof.
  intros [Hn Hp Hk Ho] Hel. split; [apply _nad_attr_ok; [done|unfold idx; unfold ncur; lia]| |done|].
  - intros i a. cbn [_nad_attr _nad_cdata fst push_attr attrs upd_elem set_elems].
    intros [[_ Hl]|[_ [= <-]]]%lookup_snoc_Some; [exact (Hp i a Hl)|done].
  - subst o. set (n2 := (_nad_attr n el (-1) name v vl).1).
    assert (elems n2 = alter (set_attr_head (acur n)) (Z.to_nat el) (elems n)) as He by done.
    assert (cdata n2 = cdata n ++ tx name ++ val_text v vl) as Hc by (unfold n2; cbn; by rewrite <- app_assoc).
    apply list_eq. intros i. rewrite list_lookup_alter, !outline_lookup, He, list_lookup_alter.
    case_decide as Ei.
    + subst i. destruct (elems n !! Z.to_nat el) as [e|] eqn:E; [|done]. cbn [fmap option_fmap option_map]. f_equal.
      unfold line_of, add_attr. cbn [e_iname e_lname e_depth set_attr_head fst snd].
      rewrite Z2Nat.id by lia. unfold n2 at 2. rewrite (attr_list_create n el (-1) name v vl Hn Hel).
      by rewrite (name_grow n n2 _ e _ Hn E Hc).
    + destruct (elems n !! i) as [e|] eqn:E; [|done]. cbn [fmap option_fmap option_map]. f_equal.
      unfold line_of. rewrite (name_grow n n2 _ e _ Hn E Hc). unfold n2. by rewrite attr_list_other by (done || lia).
Qed.

(** To the last element. *)
Lemma doc_append_attr n k o x name v : doc n k (o ++ [x]) →
  doc (nad_append_attr n (-1) name v).1 k (o ++ [add_attr (tx name, tx v) x]).
Proof.
  intros Hd. pose proof (f_equal length (doc_outline _ _ _ Hd)) as Hl. rewrite outline_length, length_app in Hl. cbn in Hl.
  unfold nad_append_attr.
  assert (alter (add_attr (tx name, val_text v 0)) (Z.to_nat (ecur n - 1)) (o ++ [x]) = o ++ [add_attr (tx name, tx v) x]) as <-.
  { replace (Z.to_nat (ecur n - 1)) with (length o + 0) by (unfold ecur; lia). by rewrite alter_app_r. }
  apply doc_attr; [done|unfold ecur; lia].
Qed.

(** Setting one that is not there. *)
Lemma doc_set_attr n k o i d nm l name v vl : doc n k o → o !! i = Some (d, nm, l) → al_get (tx name) l = None →
  doc (nad_set_attr n (Z.of_nat i) (-1) name (Some v) vl) k (<[i := (d, nm, (tx name, val_text v vl) :: l)]> o).
Proof.
  intros Hd Hi Hg. pose proof Hd as [Hn _ _ <-]. rewrite outline_lookup in Hi.
  destruct (elems n !! i) as [e|] eqn:E; [|done]. injection Hi as <- <- <-.
  pose proof (lookup_lt_Some _ _ _ E) as Hlt. unfold nad_set_attr, nad_find_attr.
  destruct (Z.ltb_spec (Z.of_nat i) 0), (Z.leb_spec (ecur n) (Z.of_nat i)); try (unfold ecur in *; lia). cbn [orb].
  rewrite find_attr_chain by (done || by apply chain_head). fold (attr_chain n (Z.of_nat i)).
  unfold attr_list in Hg. rewrite al_get_chain in Hg. destruct (head _) as [a|]; [done|].
  change (default (-1)%Z None) with (-1)%Z. cbn [Z.ltb Z.compare].
  assert (<[i := (e_depth e, slice (cdata n) (e_iname e) (e_lname e), (tx name, val_text v vl) :: attr_list n (Z.of_nat i))]> (outline n) =
    alter (add_attr (tx name, val_text v vl)) (Z.to_nat (Z.of_nat i)) (outline n)) as ->.
  { rewrite Nat2Z.id. apply list_eq. intros j. rewrite list_lookup_alter, list_lookup_insert, outline_length.
    destruct (decide (i = j)) as [<-|Hne].
    - rewrite decide_True by done. by rewrite outline_lookup, E.
    - rewrite decide_False by tauto. done. }
  apply doc_attr; [done|unfold ecur; lia].
Qed.
Lemma nad_set_none n k o i d nm l name vl : doc n k o → o !! i = Some (d, nm, l) → al_get (tx name) l = None →
  nad_set_attr n (Z.of_nat i) (-1) name None vl = n.
Proof.
  intros Hd Hi Hg. pose proof Hd as [Hn _ _ <-]. rewrite outline_lookup in Hi.
  destruct (elems n !! i) as [e|] eqn:E; [|done]. injection Hi as <- <- <-.
  pose proof (lookup_lt_Some _ _ _ E) as Hlt. unfold nad_set_attr, nad_find_attr.
  destruct (Z.ltb_spec (Z.of_nat i) 0), (Z.leb_spec (ecur n) (Z.of_nat i)); try (unfold ecur in *; lia). cbn [orb].
  rewrite find_attr_chain by (done || by apply chain_head). fold (attr_chain n (Z.of_nat i)).
  unfold attr_list in Hg. rewrite al_get_chain in Hg. by destruct (head _) as [a|].
Qed.

(** ** Namespaces, and what does not show *)

Lemma doc_scope n k o s : doc n k o → (-1 <= s < k)%Z → doc (set_scope n s) k o.
Proof. intros [Hn Hp Hk Ho] Hs. split; [apply nad_ok_set_scope; [done|unfold idx; lia]|exact Hp|exact Hk|]. by rewrite <- Ho, (outline_same n). Qed.

Lemma doc_copy n k o : doc n k o → doc (nad_copy n) k o.
Proof.
  intros [Hn Hp Hk Ho]. split; [|exact Hp|exact Hk|by rewrite <- Ho, (outline_same n)]. destruct Hn as [Ha Hb Hc Hs].
  split; [intros i x Hx; destruct (Ha _ _ Hx)|intros i x Hx; destruct (Hb _ _ Hx)|intros i x Hx; destruct (Hc _ _ Hx)|done]; by split. Qed.

Lemma new_ns_outline n uri prefix next : nad_ok n → outline (new_ns n uri prefix next) = outline n.
Proof.
  intros Hn. unfold new_ns. destruct prefix as [p|]; cbn [_nad_cdata].
  - apply (outline_grow n _ (tx uri ++ tx p)); [done|done|done|]. cbn. by rewrite <- app_assoc.
  - by apply (outline_grow n _ (tx uri)).
Qed.

Lemma doc_add_namespace n k o uri prefix : doc n k o → (0 <= k)%Z →
  let '(n', ns) := nad_add_namespace n uri prefix in (0 <= ns < ncur n')%Z ∧ doc n' (ncur n') o ∧ (k <= ncur n')%Z.
Proof.
  intros [Hn Hp Hk Ho] Hk0. destruct (nad_add_namespace_ok n uri prefix Hn) as (Hn' & Hs & _).
  destruct (nad_add_namespace n uri prefix) as [n' ns] eqn:E. cbn [fst snd] in *.
  split; [done|]. unfold nad_add_namespace in E. destruct (_ <=? _)%Z.
  - injection E as -> <-. by split.
  - injection E as <- <-. destruct (new_ns_ok n uri prefix (scope n) Hn (no_scope _ Hn)) as (_ & Hc & _).
    split; [|change (ncur (set_scope ?a ?b)) with (ncur a); lia].
    split; [done| |done|].
    + intros i a. unfold new_ns. destruct prefix; cbn; apply Hp.
    + rewrite <- Ho. destruct (new_ns_ok n uri prefix (scope n) Hn (no_scope _ Hn)) as (Hn2 & _).
      rewrite <- (new_ns_outline n uri prefix (scope n) Hn). by apply outline_same.
Qed.

Lemma doc_weaken n k k' o : doc n k o → (k' <= k)%Z → doc n k' o.
Proof. intros [] ?. split; try done. lia. Qed.

Lemma doc_new : doc nad_new 0 [].
Proof. split; [apply nad_new_ok|done..]. Qed.

(** ** What the session manager strips *)

(** No attribute of a namespace is found. *)
Lemma find_attr_plain n k o el ns name val : doc n k o → (0 <= ns)%Z → nad_find_attr n el ns name val = (-1)%Z.
Proof.
  intros [Hn Hp _ _] Hns. unfold nad_find_attr. destruct (_ || _); [done|].
  generalize (e_attr (elem_at n el)) (chain_head n el Hn). generalize (S (length (attrs n))). intros f.
  induction f as [|f IH]; intros a Ha; [done|]. cbn [find_attr_loop].
  destruct (Z.ltb_spec a 0); [done|].
  assert (a_my_ns (attr_at n a) = (-1)%Z) as Em.
  { unfold attr_at. rewrite nth_lookup. unfold acur in Ha. destruct (attrs n !! Z.to_nat a) as [x|] eqn:E; [by apply (Hp _ _ E)|].
    apply lookup_ge_None in E. lia. }
  unfold ns_match. rewrite Em. destruct (Z.ltb_spec ns 0); [lia|]. cbn [orb andb]. rewrite ?andb_false_r. cbn.
  apply IH. pose proof (attr_at_next n a Hn ltac:(lia)) as Hx. unfold idx in Hx. lia.
Qed.
