(* ===== verification/Filter.v ===== *)
(** * What the router lets through: router/aci.c and router/filter.c

    [aci_load] reads the access lists of the configuration into a table of user
    lists and [aci_check] looks a user up; [filter_load] builds the rules of the
    packet filter and [filter_packet] applies the first that matches.  fnmatch
    of the C library is a parameter, and so is whether a dump file opens. *)
From S2P Require Import Prelude.
From S2P Require Import CStr.
From S2P Require Import Str.
From S2P Require Import Codec.
From S2P Require Import Nad.
From S2P Require Import NadThms.
From S2P Require Import NadOps.
From S2P Require Import NadScan.
From S2P Require Import Stanza.
From S2P Require Import NadThms.
From S2P Require Import NadOps.
From S2P Require Import XHash.
From S2P Require Import Table.

(** The value of an attribute; an index below 0 stands for none. *)
Definition attr_value (n : nad) (elem : Z) (name : string) : option text :=
  let attr := nad_find_attr n elem (-1) name None in
  if (0 <=? attr)%Z then Some (nad_aval n attr) else None.

(** ** Access lists *)

Section aci.
Context {T : Type → Type} `{TableLaws T}.

(** The users of an acl element, the empty ones left out. *)
Definition acl_users (cfg : nad) (aelem : Z) : list string :=
  cstr_of <$> filter (λ t, t ≠ []) (nad_cdata cfg <$> children cfg aelem (-1) "user").

Definition load_acl (cfg : nad) (aci : T (list string)) (aelem : Z) : T (list string) :=
  match attr_value cfg aelem "type" with
  | None => aci
  | Some v =>
    match acl_users cfg aelem with
    | [] => aci
    | users => tput aci (sprint 33 v) users
    end
  end.

Definition aci_load (cfg : nad) : T (list string) :=
  let aelem := nad_find_elem cfg 0 (-1) (Some "aci") 1 in
  if (aelem <? 0)%Z then tnew 51
  else foldl (load_acl cfg) (tnew 51) (children cfg aelem (-1) "acl").

Definition in_list (list_ : option (list string)) (name : string) : bool :=
  existsb (λ u, (strcmp u name =? 0)%Z) (default [] list_).

Definition aci_check (aci : T (list string)) (type : option string) (name : string) : bool :=
  in_list (tget aci "all") name ||
  match type with Some type => in_list (tget aci type) name | None => false end.

(** *** Specification: the last list of a type counts *)

Definition acl_entry (cfg : nad) (aelem : Z) : option (string * list string) :=
  v ← attr_value cfg aelem "type";
  match acl_users cfg aelem with [] => None | users => Some (sprint 33 v, users) end.

Definition acl_entries (cfg : nad) : list (string * list string) :=
  let aelem := nad_find_elem cfg 0 (-1) (Some "aci") 1 in
  if (aelem <? 0)%Z then [] else omap (acl_entry cfg) (children cfg aelem (-1) "acl").

Definition last_list (type : string) (es : list (string * list string)) : list string :=
  default [] (snd <$> last (filter (λ e, e.1 = type) es)).

Lemma cstr_of_no_nul t : no_nul (cstr_of t).
Proof.
  induction t as [|c t IH]; cbn; [done|]. case_bool_decide as E; cbn; [done|].
  rewrite bool_decide_false by done. exact IH.
Qed.

Lemma load_acls cfg (l : list Z) (aci : T (list string)) (es : list (string * list string)) :
  tok aci → (∀ ty, good_key ty → default [] (tget aci ty) = last_list ty es) →
  tok (foldl (load_acl cfg) aci l) ∧
  ∀ ty, good_key ty → default [] (tget (foldl (load_acl cfg) aci l) ty) = last_list ty (es ++ omap (acl_entry cfg) l).
Proof.
  revert aci es. induction l as [|a l IH]; intros aci es Hok Hes; cbn [foldl omap list_omap]; [by rewrite app_nil_r|].
  unfold load_acl at 2 4, acl_entry at 1.
  destruct (attr_value cfg a "type") as [v|]; cbn [mbind option_bind]; [|by apply IH].
  destruct (acl_users cfg a) as [|u us]; [by apply IH|].
  destruct (tput_ok aci (sprint 33 v) (u :: us) Hok (cstr_of_no_nul _)) as [Hok' _].
  destruct (IH (tput aci (sprint 33 v) (u :: us)) (es ++ [(sprint 33 v, u :: us)])) as [Hf Hl]; [done| |].
  - intros ty Hty. rewrite tget_put by (done || apply cstr_of_no_nul). unfold last_list. rewrite filter_app, filter_cons.
    cbn [fst]. change (filter _ []) with (@nil (string * list string)).
    case_decide; [by rewrite last_snoc|]. by rewrite app_nil_r, Hes.
  - split; [done|]. intros ty Hty. rewrite Hl by done. by rewrite <- app_assoc.
Qed.

Lemma in_list_spec l name : no_nul name → Forall (λ u, no_nul u = true) (default [] l) →
  in_list l name = true ↔ name ∈ default [] l.
Proof.
  intros Hn Hl. unfold in_list. rewrite existsb_exists. rewrite Forall_forall in Hl. split.
  - intros (u & Hu & E). apply list_elem_of_In in Hu. specialize (Hl _ Hu).
    apply Z.eqb_eq, (strcmp_eq u name) in E; [by subst|by rewrite Hl|done].
  - intros Hin. exists name. split; [by apply list_elem_of_In|]. by rewrite strcmp_refl.
Qed.

Lemma acl_entries_no_nul cfg e : e ∈ acl_entries cfg → Forall (λ u, no_nul u = true) e.2.
Proof.
  unfold acl_entries. destruct (_ <? 0)%Z; [by intros ?%elem_of_nil|].
  intros (a & _ & E)%list_elem_of_omap. unfold acl_entry in E.
  destruct (attr_value cfg a "type"); [|done]. cbn in E.
  destruct (acl_users cfg a) as [|u us] eqn:Eu; [done|]. injection E as <-. cbn. rewrite <- Eu.
  unfold acl_users. apply Forall_fmap, Forall_forall. intros t _. cbn.
  pose proof (cstr_of_no_nul t). by destruct (no_nul (cstr_of t)).
Qed.

Lemma last_list_no_nul cfg ty : Forall (λ u, no_nul u = true) (last_list ty (acl_entries cfg)).
Proof.
  unfold last_list. destruct (last (filter _ _)) as [e|] eqn:E; cbn; [|constructor].
  apply last_Some_elem_of, list_elem_of_filter in E as [_ E]. by eapply acl_entries_no_nul.
Qed.
End aci.

(** Access control: after [aci_load], [aci_check] grants a user exactly when the last acl
    element of the type, or the last one of the type [all], has a user element with the name. *)
Theorem aci_check_spec {T} `{TableLaws T} cfg type name :
  good_key type → no_nul name →
  aci_check (aci_load cfg : T (list string)) (Some type) name = true ↔
    name ∈ last_list "all" (acl_entries cfg) ∨ name ∈ last_list type (acl_entries cfg).
Proof.
  intros Hty Hn. set (aci := aci_load cfg : T (list string)).
  assert (∀ ty, good_key ty → default [] (tget aci ty) = last_list ty (acl_entries cfg)) as Hl.
  { unfold aci, aci_load, acl_entries.
    destruct (tnew_ok (V:=list string) 51) as [Hok Em]; [done|].
    assert (∀ ty, good_key ty → default [] (tget (tnew 51 : T (list string)) ty) = last_list ty []) as Hnil.
    { intros ty Hg. by rewrite tget_ok, Em, lookup_empty. }
    destruct (_ <? 0)%Z; [done|]. destruct (load_acls cfg (children cfg (nad_find_elem cfg 0 (-1) (Some "aci") 1) (-1) "acl") _ _ Hok Hnil) as [_ Hl].
    exact Hl. }
  assert (good_key "all") as Hall by done.
  unfold aci_check. rewrite orb_true_iff, !in_list_spec by (done || rewrite Hl by done; apply last_list_no_nul).
  by rewrite !Hl.
Qed.

Definition acl_sample : nad :=
  built [XStart "router" []; XStart "aci" []; XStart "acl" [("type", "bind")]; XStart "user" []; XCdata (tx "msn"); XEnd; XEnd; XEnd; XEnd].

Lemma aci_check_spec_witness :
  aci_check (aci_load acl_sample : xht (list string)) (Some "bind") "msn" = true ↔
    "msn" ∈ last_list "all" (acl_entries acl_sample) ∨ "msn" ∈ last_list "bind" (acl_entries acl_sample).
Proof. apply aci_check_spec; [done|done]. Defined.

(** ** The packet filter *)

(** [struct acl_s]; an [error] of 0 lets the packet through. *)
Record acl := Acl {
  acl_error : Z;
  acl_redirect : option text;
  acl_what : option string;
  acl_from : option string;
  acl_to : option string;
  acl_dump : option string;
  acl_log : bool
}.

Definition lower (c : ascii) : ascii :=
  if ((65 <=? uchar c) && (uchar c <=? 90))%Z then char_of (uchar c + 32) else c.
Fixpoint lowercase (s : string) : string :=
  match s with EmptyString => EmptyString | String c s => String (lower c) (lowercase s) end.
Definition strncasecmp_eq (n : nat) (a b : string) : bool := strncmp_eq n (lowercase a) (lowercase b).

(** The index of the first error whose name starts with the text. *)
Fixpoint error_index (es : list stanza_error_st) (i : Z) (t : text) : option Z :=
  match es with
  | [] => None
  | e :: es =>
    match se_code e with
    | None => None
    | Some _ =>
      if match se_name e with Some name => strncmp_eq (length t) name (string_of t) | None => false end
      then Some i else error_index es (i + 1) t
    end
  end%Z.

Definition pattern (v : option text) : option string :=
  match v with None | Some [] => None | Some t => Some (cstr_of t) end.

(** A rule element. *)
Definition load_rule (n : nad) (filter : Z) : acl :=
  let value := attr_value n filter in
  let what := match value "what" with
              | Some t => if strncmp_eq (length t) (string_of t) "*" then None else pattern (Some t)
              | None => None
              end in
  let redirect := match value "redirect" with None | Some [] => None | Some t => Some t end in
  let err := match redirect with Some _ => stanza_err_REDIRECT | None => 0%Z end in
  let err := match value "error" with
             | None => err
             | Some t => match error_index _stanza_errors 0 t with
                         | Some i => (stanza_err_BAD_REQUEST + i)%Z
                         | None => stanza_err_NOT_ALLOWED
                         end
             end in
  let log := match value "log" with
             | None => false
             | Some t => strncasecmp_eq (length t) (string_of t) "YES" || strncasecmp_eq (length t) (string_of t) "ON"
             end in
  Acl err redirect what (pattern (value "from")) (pattern (value "to")) (pattern (value "dump")) log.

(** The filter file: not there, unreadable or empty, or its text. *)
Inductive filter_file := FMissing | FBad | FText (t : text).

(** The rules and the value returned; [None]: the parser crashes. *)
Definition filter_load (xml_parse : text → option (list xml_event)) (f : filter_file) : option (list acl * Z) :=
  match f with
  | FMissing => Some ([], 0%Z)
  | FBad => Some ([], 1%Z)
  | FText buf =>
    match nad_parse xml_parse buf with
    | PNull => Some ([], 1%Z)
    | PCrash => None
    | PNad n => Some (load_rule n <$> children n 0 (-1) "rule", 0%Z)
    end
  end.

(** An address without its resource: what follows the first slash after the node is cut. *)
Definition before (c : ascii) (s : string) : string :=
  match split_at c s with Some (a, _) => a | None => s end.
Definition bare (s : string) : string :=
  match split_at "@" s with
  | Some (a, b) => a +:+ String "@" (before "/" b)
  | None => before "/" s
  end.

Section filter.
Context (fnmatch : string → string → bool) (can_open : string → bool).

Definition pat_match (pat addr : option string) : bool :=
  match pat, addr with
  | None, None => true
  | Some p, Some a => fnmatch p a
  | _, _ => false
  end.

Definition packet_addr (n : nad) (name : string) : option string := bare <$> pattern (attr_value n 1 name).

Definition rule_match (n : nad) (from to : option string) (a : acl) : bool :=
  pat_match (acl_from a) from && pat_match (acl_to a) to &&
  match acl_what a with Some w => (0 <=? nad_find_elem_path n 0 (-1) (Some w))%Z | None => true end.

(** What a matching rule does: dump, which is turned off when the file does not
    open, and redirect; the text dumped comes with the result. *)
Definition apply_rule (a : acl) (n : nad) : acl * nad * list (string * text) :=
  let '(a, n, d) :=
    match acl_dump a with
    | None => (a, n, [])
    | Some file =>
      if can_open file then
        let '(n, out) := nad_print n 1 in (a, n, [(file, out ++ tx (String (char_of 10) ""))])
      else (Acl (acl_error a) (acl_redirect a) (acl_what a) (acl_from a) (acl_to a) None (acl_log a), n, [])
    end in
  (a, match acl_redirect a with
      | Some r => nad_set_attr n 0 (-1) "to" (Some (string_of r)) (Z.of_nat (length r))
      | None => n
      end, d).

Fixpoint filter_loop (rules : list acl) (n : nad) (from to : option string) : list acl * nad * Z * list (string * text) :=
  match rules with
  | [] => ([], n, 0%Z, [])
  | a :: rules =>
    if rule_match n from to a then
      let '(a, n, d) := apply_rule a n in (a :: rules, n, acl_error a, d)
    else let '(rs, n, e, d) := filter_loop rules n from to in (a :: rs, n, e, d)
  end.

(** The rules as they are left, the packet, the error and what was dumped. *)
Definition filter_packet (rules : list acl) (n : nad) : list acl * nad * Z * list (string * text) :=
  filter_loop rules n (packet_addr n "from") (packet_addr n "to").
End filter.

(** ** Properties *)

(** The rule without its dump file. *)
Definition no_dump (a : acl) : acl :=
  Acl (acl_error a) (acl_redirect a) (acl_what a) (acl_from a) (acl_to a) None (acl_log a).

(** The packet filter: the first rule whose [from] and [to] patterns match the bare addresses
    of the packet (an absent address matches only an absent pattern) and whose [what] path is in
    the packet decides: its error is the result, and its redirection the new [to] of the
    envelope; without such a rule the packet passes unchanged.  The rules stay the same but for
    dumps that could not be written. *)
Theorem filter_packet_first fnmatch can_open rules n :
  let '(rules', n', err, _) := filter_packet fnmatch can_open rules n in
  no_dump <$> rules' = no_dump <$> rules ∧
  match find (rule_match fnmatch n (packet_addr n "from") (packet_addr n "to")) rules with
  | None => n' = n ∧ err = 0%Z ∧ rules' = rules
  | Some a => err = acl_error a ∧ n' = (apply_rule can_open a n).1.2
  end.
Proof.
  unfold filter_packet. generalize (packet_addr n "from") (packet_addr n "to"). intros from to.
  induction rules as [|a rules IH]; cbn [filter_loop find]; [done|].
  destruct (rule_match fnmatch n from to a).
  - destruct (apply_rule can_open a n) as [[a' n'] d] eqn:E.
    assert (no_dump a' = no_dump a ∧ acl_error a' = acl_error a) as [E1 E2].
    { unfold apply_rule in E. destruct (acl_dump a) as [f|]; [destruct (can_open f); [destruct (nad_print n 1)|]|];
        by injection E as <- _ _. }
    split; [cbn; by rewrite E1|]. split; [done|done].
  - destruct (filter_loop fnmatch can_open rules n from to) as [[[rs n'] e] d]. destruct IH as [IH1 IH2].
    split; [cbn; by rewrite IH1|]. destruct (find _ rules); [done|]. destruct IH2 as (-> & -> & ->). done.
Qed.
