(* ===== verification/Lines.v ===== *)
(** * Text files read line by line

    [fgets] with a buffer of its size, and the line that is left when the
    newline and what follows a carriage return are cut off. *)
From S2P Require Import Prelude.
From S2P Require Import CStr.
From S2P Require Import Codec.
From S2P Require Import Nad.
From S2P Require Import Filter.

Definition newline : ascii := char_of 10.
Definition carriage_return : ascii := char_of 13.
Definition tab : ascii := char_of 9.

(** ** Reading lines *)

(** At most [n] characters, up to and with a newline; and the rest. *)
Fixpoint read_line (n : nat) (t : text) : text * text :=
  match n, t with
  | S n, c :: t =>
    if bool_decide (c = newline) then ([c], t)
    else let '(l, r) := read_line n t in (c :: l, r)
  | _, _ => ([], t)
  end.

(** The buffers that a loop of [fgets] with [size] bytes reads. *)
Fixpoint fgets_loop (fuel size : nat) (t : text) : list text :=
  match fuel, t with
  | S f, _ :: _ => let '(l, r) := read_line (size - 1) t in l :: fgets_loop f size r
  | _, _ => []
  end.
Definition fgets_lines (size : nat) (t : text) : list text := fgets_loop (length t) size t.

(** The line in the buffer: up to a newline, then up to a carriage return. *)
Definition chomp (line : text) : string := before carriage_return (before newline (cstr_of line)).

