(* ===== verification/Router.v ===== *)
(** * The router: router/router.c

    The components attached to the router, the names bound to them and the
    handlers of their packets.  [component] and [router] are
    [struct component_st] and [struct router_st]; [r_comps], [r_rts] and
    [r_rates] are the heap: components, routes and rates are shared by pointer
    between the tables, so an address that is no longer in them is a dangling
    pointer.  A handler takes the state to the next one, with what it sent
    appended to [r_out]; [None] is a NULL or dangling pointer followed.  The
    stream library is seen through [sx], the fields of a stream that the router
    reads, and its calls are outputs; writing the log is left out. *)
From S2P Require Import Prelude.
From S2P Require Import CStr.
From S2P Require Import DList.
From S2P Require Import JQueue.
From S2P Require Import Rate.
From S2P Require Import Codec.
From S2P Require Import Access.
From S2P Require Import Jid.
From S2P Require Import Nad.
From S2P Require Import Table.
From S2P Require Import Stanza.
From S2P Require Import Filter.

Definition uri_COMPONENT : string := "http://jabberd.jabberstudio.org/ns/component/1.0".
Definition uri_CLIENT : string := "jabber:client".
Definition uri_ACCEPT : string := "jabber:component:accept".

(** ** Data *)

(** What the router reads of [comp->s]. *)
Record sx := Sx {
  s_ns : option string;
  s_req_to : option string;
  s_id : string;
  s_auth_id : string;
  s_state : sx_state
}.

(** [route_type_t] *)
Inductive route_type := route_SINGLE | route_MULTI_TO | route_MULTI_FROM.
#[global] Instance route_type_eq_dec : EqDecision route_type.
Proof. solve_decision. Defined.

(** [struct routes_st]; [ncomp] is the length of [rt_comp]. *)
Record routes_st := Routes { rt_name : string; rt_rtype : route_type; rt_comp : list loc }.

(** [struct alias_st] *)
Record alias_st := Alias { al_name : string; al_target : string }.

(** What the router asks of its streams and files. *)
Inductive out :=
  | OWrite (c : loc) (n : nad)                     (* sx_nad_write *)
  | OWriteElem (c : loc) (n : nad) (elem : Z)      (* sx_nad_write_elem *)
  | OError (c : loc) (err : Z)            (* sx_error *)
  | OClose (c : loc)                               (* sx_close *)
  | OKill (c : loc)                                (* sx_kill *)
  | OAuth (c : loc) (id : option string)           (* sx_auth *)
  | OInit (c : loc)                                (* sx_server_init *)
  | ODump (file : string) (t : text)               (* the filter's dump *)
  | OMessage (file from to : string) (body : text). (* message_log *)

Section router.
Context {T : Type → Type} `{Table T}.
Context (nodeprep nameprep resourceprep : string → option string).
(** The 20 bytes of SHA-1. *)
Context (shahash_raw : string → list Z).
Context (fnmatch : string → string → bool) (can_open : string → bool).
Context (inet_pton4 : string → option Z) (inet_pton6 : string → option (list Z)).

(** The part of [struct router_st] that the configuration sets. *)
Record rconf := RConf {
  local_secret : option string;
  aliases : list alias_st;
  aci : T (list string);
  raccess : access;
  conn_rate_total : Z; conn_rate_seconds : Z; conn_rate_wait : Z;
  byte_rate_total : Z; byte_rate_seconds : Z; byte_rate_wait : Z;
  message_logging_enabled : bool;
  message_logging_file : option string
}.

(** [struct component_st] *)
Record component := Comp {
  c_ip : string;
  c_port : Z;
  c_ipport : string;
  c_fd : Z;
  c_s : sx;
  c_rate : option rate;
  c_rate_log : bool;
  c_routes : T loc;
  c_legacy : bool;
  c_tq : option (@jqueue nad);
  c_last_activity : Z
}.

Definition with_c_s (x : sx) (c : component) : component :=
  Comp (c_ip c) (c_port c) (c_ipport c) (c_fd c) x (c_rate c) (c_rate_log c) (c_routes c) (c_legacy c) (c_tq c) (c_last_activity c).
Definition with_c_rate (x : option rate) (c : component) : component :=
  Comp (c_ip c) (c_port c) (c_ipport c) (c_fd c) (c_s c) x (c_rate_log c) (c_routes c) (c_legacy c) (c_tq c) (c_last_activity c).
Definition with_c_rate_log (x : bool) (c : component) : component :=
  Comp (c_ip c) (c_port c) (c_ipport c) (c_fd c) (c_s c) (c_rate c) x (c_routes c) (c_legacy c) (c_tq c) (c_last_activity c).
Definition with_c_routes (x : T loc) (c : component) : component :=
  Comp (c_ip c) (c_port c) (c_ipport c) (c_fd c) (c_s c) (c_rate c) (c_rate_log c) x (c_legacy c) (c_tq c) (c_last_activity c).
Definition with_c_legacy (x : bool) (c : component) : component :=
  Comp (c_ip c) (c_port c) (c_ipport c) (c_fd c) (c_s c) (c_rate c) (c_rate_log c) (c_routes c) x (c_tq c) (c_last_activity c).
Definition with_c_tq (x : option (@jqueue nad)) (c : component) : component :=
  Comp (c_ip c) (c_port c) (c_ipport c) (c_fd c) (c_s c) (c_rate c) (c_rate_log c) (c_routes c) (c_legacy c) x (c_last_activity c).
Definition with_c_last_activity (x : Z) (c : component) : component :=
  Comp (c_ip c) (c_port c) (c_ipport c) (c_fd c) (c_s c) (c_rate c) (c_rate_log c) (c_routes c) (c_legacy c) (c_tq c) x.

(** [struct router_st]; [r_fresh] is the next address that malloc gives. *)
Record router := Router {
  r_conf : rconf;
  r_comps : gmap loc component;
  r_rts : gmap loc routes_st;
  r_rates : gmap loc rate;
  r_fresh : loc;
  r_components : T loc;
  r_routes : T loc;
  r_log_sinks : T loc;
  r_conn_rates : T loc;
  r_default_route : option string;
  r_filter : list acl;
  r_dead : @jqueue loc;
  r_closefd : @jqueue Z;
  r_deadroutes : @jqueue loc;
  r_out : list out
}.

Definition set_comps (x : gmap loc component) (r : router) : router :=
  Router (r_conf r) x (r_rts r) (r_rates r) (r_fresh r) (r_components r) (r_routes r) (r_log_sinks r) (r_conn_rates r) (r_default_route r) (r_filter r) (r_dead r) (r_closefd r) (r_deadroutes r) (r_out r).
Definition set_rts (x : gmap loc routes_st) (r : router) : router :=
  Router (r_conf r) (r_comps r) x (r_rates r) (r_fresh r) (r_components r) (r_routes r) (r_log_sinks r) (r_conn_rates r) (r_default_route r) (r_filter r) (r_dead r) (r_closefd r) (r_deadroutes r) (r_out r).
Definition set_rates (x : gmap loc rate) (r : router) : router :=
  Router (r_conf r) (r_comps r) (r_rts r) x (r_fresh r) (r_components r) (r_routes r) (r_log_sinks r) (r_conn_rates r) (r_default_route r) (r_filter r) (r_dead r) (r_closefd r) (r_deadroutes r) (r_out r).
Definition set_fresh (x : loc) (r : router) : router :=
  Router (r_conf r) (r_comps r) (r_rts r) (r_rates r) x (r_components r) (r_routes r) (r_log_sinks r) (r_conn_rates r) (r_default_route r) (r_filter r) (r_dead r) (r_closefd r) (r_deadroutes r) (r_out r).
Definition set_components (x : T loc) (r : router) : router :=
  Router (r_conf r) (r_comps r) (r_rts r) (r_rates r) (r_fresh r) x (r_routes r) (r_log_sinks r) (r_conn_rates r) (r_default_route r) (r_filter r) (r_dead r) (r_closefd r) (r_deadroutes r) (r_out r).
Definition set_routes (x : T loc) (r : router) : router :=
  Router (r_conf r) (r_comps r) (r_rts r) (r_rates r) (r_fresh r) (r_components r) x (r_log_sinks r) (r_conn_rates r) (r_default_route r) (r_filter r) (r_dead r) (r_closefd r) (r_deadroutes r) (r_out r).
Definition set_log_sinks (x : T loc) (r : router) : router :=
  Router (r_conf r) (r_comps r) (r_rts r) (r_rates r) (r_fresh r) (r_components r) (r_routes r) x (r_conn_rates r) (r_default_route r) (r_filter r) (r_dead r) (r_closefd r) (r_deadroutes r) (r_out r).
Definition set_conn_rates (x : T loc) (r : router) : router :=
  Router (r_conf r) (r_comps r) (r_rts r) (r_rates r) (r_fresh r) (r_components r) (r_routes r) (r_log_sinks r) x (r_default_route r) (r_filter r) (r_dead r) (r_closefd r) (r_deadroutes r) (r_out r).
Definition set_default_route (x : option string) (r : router) : router :=
  Router (r_conf r) (r_comps r) (r_rts r) (r_rates r) (r_fresh r) (r_components r) (r_routes r) (r_log_sinks r) (r_conn_rates r) x (r_filter r) (r_dead r) (r_closefd r) (r_deadroutes r) (r_out r).
Definition set_filter (x : list acl) (r : router) : router :=
  Router (r_conf r) (r_comps r) (r_rts r) (r_rates r) (r_fresh r) (r_components r) (r_routes r) (r_log_sinks r) (r_conn_rates r) (r_default_route r) x (r_dead r) (r_closefd r) (r_deadroutes r) (r_out r).
Definition set_dead (x : @jqueue loc) (r : router) : router :=
  Router (r_conf r) (r_comps r) (r_rts r) (r_rates r) (r_fresh r) (r_components r) (r_routes r) (r_log_sinks r) (r_conn_rates r) (r_default_route r) (r_filter r) x (r_closefd r) (r_deadroutes r) (r_out r).
Definition set_closefd (x : @jqueue Z) (r : router) : router :=
  Router (r_conf r) (r_comps r) (r_rts r) (r_rates r) (r_fresh r) (r_components r) (r_routes r) (r_log_sinks r) (r_conn_rates r) (r_default_route r) (r_filter r) (r_dead r) x (r_deadroutes r) (r_out r).
Definition set_deadroutes (x : @jqueue loc) (r : router) : router :=
  Router (r_conf r) (r_comps r) (r_rts r) (r_rates r) (r_fresh r) (r_components r) (r_routes r) (r_log_sinks r) (r_conn_rates r) (r_default_route r) (r_filter r) (r_dead r) (r_closefd r) x (r_out r).
Definition set_out (x : list out) (r : router) : router :=
  Router (r_conf r) (r_comps r) (r_rts r) (r_rates r) (r_fresh r) (r_components r) (r_routes r) (r_log_sinks r) (r_conn_rates r) (r_default_route r) (r_filter r) (r_dead r) (r_closefd r) (r_deadroutes r) x.

(** What [main] sets up before it runs. *)
Definition router_start (conf : rconf) (rules : list acl) (now : Z) : router :=
  Router conf ∅ ∅ ∅ 0 (tnew 101) (tnew 101) (tnew 101) (tnew 101) None rules
    (jqueue_new now) (jqueue_new now) (jqueue_new now) [].

(** ** Pointers *)

Definition get_comp (r : router) (c : loc) : option component := r_comps r !! c.
Definition upd_comp (c : loc) (f : component → component) (r : router) : router :=
  set_comps (alter f c (r_comps r)) r.
Definition emit (o : out) (r : router) : router := set_out (r_out r ++ [o]) r.
Definition alloc (r : router) : loc * router := (r_fresh r, set_fresh (S (r_fresh r)) r).

(** A jid in a static buffer, from the value of an attribute. *)
Definition reset_jid (t : text) : option jid :=
  match jid_reset nodeprep nameprep resourceprep jid_static (Some (string_of t)) (Z.of_nat (length t)) with
  | JOk j => Some j
  | _ => None
  end.
Definition new_jid (t : text) : option jid :=
  jid_new nodeprep nameprep resourceprep (Some (string_of t)) (Z.of_nat (length t)).

(** Run over a list, stopping at a crash. *)
Definition foldlM {A} (f : router → A → option router) (r : router) (l : list A) : option router :=
  foldl (λ r a, r ← r; f r a) (Some r) l.

(** ** Advertisements *)

Definition _router_broadcast (r : router) (routes : loc) (src : loc) (n : nad) : option router :=
  rt ← r_rts r !! routes;
  foldlM (λ r c,
    if bool_decide (c = src) then Some r
    else comp ← get_comp r c;
      if c_legacy comp then Some r else Some (emit (OWrite c (nad_copy n)) r)) r (rt_comp rt).

Definition presence (from : string) (unavail : bool) : nad :=
  let '(n, ns) := nad_add_namespace nad_new uri_COMPONENT None in
  let '(n, _) := nad_append_elem n ns "presence" 0 in
  let n := (nad_append_attr n (-1) "from" from).1 in
  if unavail then (nad_append_attr n (-1) "type" "unavailable").1 else n.

Definition _router_advertise (r : router) (domain : string) (src : loc) (unavail : bool) : option router :=
  foldlM (λ r kv, _router_broadcast r kv.2 src (presence domain unavail)) r (twalk (r_routes r)).

Definition _router_advertise_reverse (r : router) (key : string) (routes : loc) (dest : loc) : option router :=
  rt ← r_rts r !! routes;
  (* assert: name and comp are set, ncomp is not 0 *)
  match rt_comp rt with
  | [] => None
  | _ =>
    (* don't tell me about myself *)
    if bool_decide (dest ∈ rt_comp rt) then Some r
    else
      let '(n, ns) := nad_add_namespace nad_new uri_COMPONENT None in
      let '(n, el) := nad_append_elem n ns "presence" 0 in
      let n := nad_set_attr n el (-1) "from" (Some key) (strlen key) in
      Some (emit (OWrite dest n) r)
  end.

(** ** Authentication of old components *)

Definition shahash_r (s : string) : string := hex_from_raw (shahash_raw s).

Definition clear_elem0 (n : nad) : nad :=
  upd_elem n 0 (λ e, Elem (e_parent e) (e_iname e) (e_lname e) (-1) 0 (-1) 0 (e_attr e) (e_ns e) (e_my_ns e) (e_depth e)).

Definition _router_process_handshake (r : router) (c : loc) (n : nad) : option router :=
  comp ← get_comp r c;
  let fail := emit (OClose c) (emit (OError c stream_err_NOT_AUTHORIZED) r) in
  if negb (e_lcdata (elem_at n 0) =? 40)%Z then Some fail
  else
    secret ← local_secret (r_conf r);
    let hash := shahash_r (s_id (c_s comp) +:+ secret) in
    if strncmp_eq 40 hash (string_of (nad_cdata n 0)) then
      Some (emit (OAuth c (s_req_to (c_s comp))) (emit (OWrite c (clear_elem0 n)) r))
    else Some fail.

(** ** Routes *)

(** The number of components of the name. *)
Definition _route_add (r : router) (name : string) (c : loc) (rtype : route_type) : option (router * nat) :=
  '(p, rt, r) ←
    match tget (r_routes r) name with
    | Some p => rt ← r_rts r !! p; Some (p, rt, r)
    | None => let '(p, r) := alloc r in Some (p, Routes name rtype [], r)
    end;
  let rt := Routes (rt_name rt) (rt_rtype rt) (rt_comp rt ++ [c]) in
  let r := set_rts (<[p := rt]> (r_rts r)) r in
  let r := set_routes (tput (r_routes r) (rt_name rt) p) r in
  Some (r, length (rt_comp rt)).

(** [for(i = 0; i < ncomp; i++)]: the last component takes the place of the one
    removed, and is not looked at itself. *)
Fixpoint remove_loop (fuel i : nat) (c : loc) (l : list loc) : list loc :=
  match fuel with
  | O => l
  | S f =>
    if decide (i < length l) then
      if bool_decide (l !! i = Some c) then
        let l := match last l with Some x => <[i := x]> l | None => l end in
        remove_loop f (S i) c (take (length l - 1) l)
      else remove_loop f (S i) c l
    else l
  end.

Definition _route_remove (r : router) (name : string) (c : loc) : option router :=
  match tget (r_routes r) name with
  | None => Some r
  | Some p =>
    rt ← r_rts r !! p;
    if decide (1 < length (rt_comp rt)) then
      let l := remove_loop (length (rt_comp rt)) 0 c (rt_comp rt) in
      Some (set_rts (<[p := Routes (rt_name rt) (rt_rtype rt) l]> (r_rts r)) r)
    else
      let r := set_deadroutes (jqueue_push (r_deadroutes r) p 0) r in
      Some (set_routes (tzap (r_routes r) name) r)
  end.

(** ** Binding *)

(** Send the packet back with an error, and without the name. *)
Definition bounce (r : router) (c : loc) (n : nad) (code : string) : router :=
  let n := nad_set_attr n 0 (-1) "name" None 0 in
  emit (OWrite c (nad_set_attr n 0 (-1) "error" (Some code) 3)) r.

Definition name_of (n : nad) : option jid := v ← attr_value n 0 "name"; new_jid v.

Definition has_child (n : nad) (name : string) : bool := (0 <=? nad_find_elem n 0 (nad_ens n 0) (Some name) 1)%Z.

(** The user name: what comes before the at sign. *)
Definition user_of (auth_id : string) : string := before "@" auth_id.

(** Binding the name also binds the aliases that have it as their target. *)
Definition bind_alias (c : loc) (name : string) (r : router) (a : alias_st) : option router :=
  if (strcmp (al_target a) name =? 0)%Z then
    '(r, _) ← _route_add r name c route_MULTI_TO;
    let r := upd_comp c (λ comp, with_c_routes (tput (c_routes comp) (al_name a) c) comp) r in
    _router_advertise r (al_name a) c false
  else Some r.

(** The refusals of a default route or a log sink; else the state with it set. *)
Definition bind_default (r : router) (c : loc) (n : nad) (name user : string) : router + router :=
  if has_child n "default" then
    if negb (aci_check (aci (r_conf r)) (Some "default-route") user) then inl (bounce r c n "403")
    else match r_default_route r with
         | Some _ => inl (bounce r c n "409")
         | None => inr (set_default_route (Some name) r)
         end
  else inr r.
Definition bind_log (r : router) (c : loc) (n : nad) (name user : string) : router + router :=
  if has_child n "log" then
    if negb (aci_check (aci (r_conf r)) (Some "log") user) then inl (bounce r c n "403")
    else inr (set_log_sinks (tput (r_log_sinks r) name c) r)
  else inr r.

Definition _router_process_bind (r : router) (c : loc) (n : nad) : option router :=
  comp ← get_comp r c;
  match name_of n with
  | None => Some (emit (OWrite c (nad_set_attr n 0 (-1) "error" (Some "400") 3)) r)
  | Some name =>
    let name := jid_domain name in
    let user := user_of (s_auth_id (c_s comp)) in
    if negb (strcmp user name =? 0)%Z && negb (aci_check (aci (r_conf r)) (Some "bind") user) then
      Some (bounce r c n "403")
    else
      let multi := (0 <=? nad_find_attr n 0 (-1) "multi" None)%Z in
      if bool_decide (is_Some (tget (r_routes r) name)) && negb multi then Some (bounce r c n "409")
      else if existsb (λ a, strcmp (al_name a) name =? 0)%Z (aliases (r_conf r)) then Some (bounce r c n "409")
      else
        match bind_default r c n name user with
        | inl r => Some r
        | inr r =>
          match bind_log r c n name user with
          | inl r => Some r
          | inr r =>
            '(r, _) ← _route_add r name c (if multi then route_MULTI_TO else route_SINGLE);
            let r := upd_comp c (λ comp, with_c_routes (tput (c_routes comp) name c) comp) r in
            let r := emit (OWrite c (nad_set_attr n 0 (-1) "name" None 0)) r in
            r ← _router_advertise r name c false;
            r ← foldlM (λ r kv, _router_advertise_reverse r kv.1 kv.2 c) r (twalk (r_routes r));
            foldlM (bind_alias c name) r (aliases (r_conf r))
          end
        end
  end.

(** What unbinding a name does to the tables; the packet is answered between
    this and the advertisement, the component's own table is zapped by the caller. *)
Definition drop_default (r : router) (name : string) : router :=
  match r_default_route r with
  | Some d => if (strcmp d name =? 0)%Z then set_default_route None r else r
  | None => r
  end.

Definition _router_process_unbind (r : router) (c : loc) (n : nad) : option router :=
  comp ← get_comp r c;
  match name_of n with
  | None => Some (emit (OWrite c (nad_set_attr n 0 (-1) "error" (Some "400") 3)) r)
  | Some name =>
    let name := jid_domain name in
    match tget (c_routes comp) name with
    | None => Some (bounce r c n "404")
    | Some _ =>
      let r := set_log_sinks (tzap (r_log_sinks r) name) r in
      r ← _route_remove r name c;
      let r := upd_comp c (λ comp, with_c_routes (tzap (c_routes comp) name) comp) r in
      let r := drop_default r name in
      let r := emit (OWrite c (nad_set_attr n 0 (-1) "name" None 0)) r in
      (* deadvertise name *)
      match tget (r_routes r) name with
      | None => _router_advertise r name c true
      | Some _ => Some r
      end
    end
  end.

(** ** Writing to a component *)

Definition _router_comp_write (r : router) (c : loc) (n : nad) : option router :=
  comp ← get_comp r c;
  match c_tq comp with
  | Some tq => Some (upd_comp c (with_c_tq (Some (jqueue_push tq n 0))) r)
  | None =>
    if negb (c_legacy comp) then Some (emit (OWrite c n) r)
    else
      n ← match attr_value n 0 "error" with
          | Some v =>
            stanza_error n 1 (if bool_decide (v = tx "400") then stanza_err_BAD_REQUEST
                              else stanza_err_SERVICE_UNAVAILABLE)
          | None => Some n
          end;
      Some (emit (OWriteElem c n 1) r)
  end.

Definition _router_route_log_sink (r : router) (c : loc) (n : nad) : option router :=
  _router_comp_write r c (nad_set_attr (nad_copy n) 0 (-1) "type" (Some "log") 3).

(** ** Routing *)

(** The four-byte words of a hash. *)
Definition word (h : list Z) (i : nat) : Z :=
  let b k := nth (4 * i + k)%nat h 0%Z in (b 0%nat + 256 * b 1%nat + 65536 * b 2%nat + 16777216 * b 3%nat)%Z.

(** [val] is advanced after it was used: the first word goes in twice, the last not at all. *)
Definition jid_hash (user : string) : Z :=
  let h := shahash_raw user in
  let dest := foldl (λ d i, Z.lxor d (word h i)) (word h 0) (seq 0 4) in
  Z.shiftr dest 2.

(** The address by which one of several components is chosen; [None]: it is NULL. *)
Definition route_key (n : nad) (rtype : route_type) (to : jid) : option jid * nad :=
  match rtype with
  | route_MULTI_TO =>
    match attr_value n 1 "to" with
    | Some v => (reset_jid v, n)
    | None =>
      match attr_value n 1 "target" with
      | Some v => (reset_jid v, n)
      | None => (Some to, (nad_print n 0).1)
      end
    end
  | route_MULTI_FROM =>
    match attr_value n 1 "from" with
    | Some v => (reset_jid v, n)
    | None => (Some to, (nad_print n 0).1)
    end
  | route_SINGLE => (Some to, n)
  end.

(** The component that gets the packet; [rand] is what [rand()] gives. *)
Definition route_dest (n : nad) (rt : routes_st) (to : jid) (rand : Z) : option (nat * nad) :=
  if bool_decide (length (rt_comp rt) = 1) then Some (0, n)
  else
    let '(to, n) := route_key n (rt_rtype rt) to in
    to ← to;
    dest ← (if bool_decide (jid_node to = EmptyString) then Some rand
            else u ← (jid_user to).2; Some (jid_hash u));
    Some (Z.to_nat (dest `mod` Z.of_nat (length (rt_comp rt))), n).

(** [message_log]: newlines are replaced while the line is written, and stay so
    when the file does not open. *)
Definition newline : ascii := char_of 10.
Definition soh : ascii := char_of 1.
Definition replace (a b : ascii) (t : text) : text := (λ c, if bool_decide (c = a) then b else c) <$> t.
Definition upd_cdata (n : nad) (i l : Z) (f : text → text) : nad :=
  let c := cdata n in
  Nad (elems n) (attrs n) (nss n)
    (take (Z.to_nat i) c ++ f (slice c i l) ++ drop (Z.to_nat i + Z.to_nat l) c) (depths n) (scope n).

Definition message_log (r : router) (n : nad) (from to : string) : router * nad :=
  let elem := nad_find_elem n 0 (-1) (Some "message") 1 in
  let elem := if (0 <=? elem)%Z then nad_find_elem n elem (-1) (Some "body") 1 else elem in
  if (elem =? -1)%Z then (r, n)
  else
    let e := elem_at n elem in
    let n := upd_cdata n (e_icdata e) (e_lcdata e) (replace newline soh) in
    match message_logging_file (r_conf r) with
    | Some file =>
      if can_open file then
        (emit (OMessage file from to (slice (cdata n) (e_icdata e) (e_lcdata e))) r,
         upd_cdata n (e_icdata e) (e_lcdata e) (replace soh newline))
      else (r, n)
    | None => (r, n)
    end.

(** Is the packet one whose message is logged?  The jids to log. *)
Definition message_addrs (n : nad) : option (string * string) :=
  if bool_decide (nad_ename n 1 = tx "message") then
    rfrom ← attr_value n 0 "from"; rto ← attr_value n 0 "to";
    if strncmp_eq 3 (string_of (drop (Z.to_nat (a_ival (attr_at n (nad_find_attr n 0 (-1) "to" None)))) (cdata n))) "c2s"
    then None
    else
      _ ← new_jid rfrom; _ ← new_jid rto;
      mfrom ← attr_value n 1 "from"; mto ← attr_value n 1 "to";
      jfrom ← new_jid mfrom; jto ← new_jid mto;
      from ← (jid_full jfrom).2; to ← (jid_full jto).2; Some (from, to)
  else None.

Definition log_message (r : router) (n : nad) : router * nad :=
  if message_logging_enabled (r_conf r) && bool_decide (is_Some (message_logging_file (r_conf r))) then
    match message_addrs n with
    | Some (from, to) => message_log r n from to
    | None => (r, n)
    end
  else (r, n).

(** Send the packet back through [_router_comp_write], with an error. *)
Definition reply_error (r : router) (c : loc) (n : nad) (code : string) : option router :=
  _router_comp_write r c (nad_set_attr n 0 (-1) "error" (Some code) 3).

(** The filter: refused, or the packet and its destination as they are now. *)
Definition route_filter (r : router) (n : nad) (to : jid) : router * nad * (Z + option jid) :=
  match r_filter r with
  | [] => (r, n, inr (Some to))
  | rules =>
    let '(rules, n, ret, dump) := filter_packet fnmatch can_open rules n in
    let r := set_out (r_out r ++ ((λ d, ODump d.1 d.2) <$> dump)) (set_filter rules r) in
    if (ret =? stanza_err_REDIRECT)%Z then
      (r, n, inr (match attr_value n 0 "to" with Some v => reset_jid v | None => Some to end))
    else if (0 <? ret)%Z then (r, n, inl ret)
    else (r, n, inr (Some to))
  end.

(** The routes of the destination, of the default route, or an answer 404. *)
Definition find_targets (r : router) (from to : jid) : option loc :=
  match tget (r_routes r) (jid_domain to) with
  | Some p => Some p
  | None =>
    match r_default_route r with
    | Some d => if (strcmp (jid_domain from) d =? 0)%Z then None else tget (r_routes r) d
    | None => None
    end
  end.

Definition route_unicast (r : router) (c : loc) (n : nad) (from to : option jid) (rand : Z) : option router :=
  comp ← get_comp r c;
  match to, from with
  | Some to, Some from =>
    (* check the from *)
    match tget (c_routes comp) (jid_domain from) with
    | None => reply_error r c n "401"
    | Some _ =>
      (* filter it *)
      let '(r, n, f) := route_filter r n to in
      match f with
      | inl ret => code ← se_code (stanza_err ret); reply_error r c n code
      | inr None => None
      | inr (Some to) =>
        match find_targets r from to with
        | None => reply_error r c n "404"
        | Some p =>
          targets ← r_rts r !! p;
          (* copy to any log sinks *)
          r ← foldlM (λ r kv, _router_route_log_sink r kv.2 n) r (twalk (r_log_sinks r));
          '(dest, n) ← route_dest n targets to rand;
          target ← rt_comp targets !! dest;
          let '(r, n) := log_message r n in
          _router_comp_write r target n
        end
      end
    end
  | _, _ => reply_error r c n "400"
  end.

Definition route_broadcast (r : router) (c : loc) (n : nad) (from : option jid) : option router :=
  comp ← get_comp r c;
  match from with
  | None => reply_error r c n "400"
  | Some from =>
    match tget (c_routes comp) (jid_domain from) with
    | None => reply_error r c n "401"
    | Some _ =>
      let '(t, l) := titer (r_components r) in
      foldlM (λ r kv, if bool_decide (kv.2 = c) then Some r else _router_comp_write r kv.2 (nad_copy n))
        (set_components t r) l
    end
  end.

Definition _router_process_route (r : router) (c : loc) (n : nad) (rand : Z) : option router :=
  match attr_value n 0 "error" with
  | Some _ => Some r
  | None =>
    let to := v ← attr_value n 0 "to"; reset_jid v in
    let from := v ← attr_value n 0 "from"; reset_jid v in
    match attr_value n 0 "type" with
    | None => route_unicast r c n from to rand
    | Some t => if bool_decide (t = tx "broadcast") then route_broadcast r c n from else Some r
    end
  end.

(** ** Throttling *)

Definition _router_process_throttle (r : router) (c : loc) (n : nad) (now : Z) : option router :=
  comp ← get_comp r c;
  match c_tq comp with
  | None =>
    r ← _router_comp_write r c n;
    Some (upd_comp c (with_c_tq (Some (jqueue_new now))) r)
  | Some tq =>
    let r := upd_comp c (with_c_tq None) r in
    r ← _router_comp_write r c n;
    foldlM (λ r n, _router_comp_write r c n) r (drain (S (size (q_heap tq))) tq)
  end.

(** ** Stream events *)

(** [event_READ]; the length read is the value returned. *)
Definition sx_event_read (r : router) (c : loc) (buflen now : Z) (recv : Z → recv_result) : option (router * Z) :=
  comp ← get_comp r c;
  let do_read comp rlen :=
    match recv rlen with
    | RLen len =>
      let comp := match c_rate comp with
                  | Some rt => if (0 <? len)%Z then with_c_rate (Some (rate_add rt len now)) (with_c_rate_log false comp) else comp
                  | None => comp
                  end in
      let r := upd_comp c (λ _, comp) r in
      if (len =? 0)%Z then (emit (OKill c) r, -1)%Z else (r, len)
    | RWouldBlock => (upd_comp c (λ _, comp) r, 0%Z)
    | RError => (emit (OKill c) (upd_comp c (λ _, comp) r), -1)%Z
    end in
  match c_rate comp with
  | None => Some (do_read comp buflen)
  | Some rt =>
    let '(rt, ok) := rate_check rt now in
    let comp := with_c_rate (Some rt) comp in
    if ok then Some (do_read comp (Z.min (rate_left rt) buflen))
    else Some (upd_comp c (λ _, with_c_rate_log true comp) r, 0%Z)
  end.

Definition sx_event_stream (r : router) (c : loc) : option router :=
  comp ← get_comp r c;
  if bool_decide (s_ns (c_s comp) = Some uri_ACCEPT) then
    let r := upd_comp c (with_c_legacy true) r in
    match local_secret (r_conf r) with
    | None => Some (emit (OClose c) (emit (OError c stream_err_INVALID_NAMESPACE) r))
    | Some _ =>
      match s_req_to (c_s comp) with
      | None => Some (emit (OClose c) (emit (OError c stream_err_HOST_UNKNOWN) r))
      | Some _ => Some r
      end
    end
  else Some r.

Definition open_alias (c : loc) (req_to : string) (r : router) (a : alias_st) : option router :=
  if (strcmp (al_target a) req_to =? 0)%Z then
    '(r, _) ← _route_add r (al_name a) c route_MULTI_FROM;
    let r := upd_comp c (λ comp, with_c_routes (tput (c_routes comp) (al_name a) c) comp) r in
    _router_advertise r (al_name a) c false
  else Some r.

Definition sx_event_open (r : router) (c : loc) : option router :=
  comp ← get_comp r c;
  if c_legacy comp then
    req_to ← s_req_to (c_s comp);
    if existsb (λ a, strcmp (al_name a) req_to =? 0)%Z (aliases (r_conf r)) then
      Some (emit (OClose c) (emit (OError c stream_err_HOST_UNKNOWN) r))
    else
      '(r, _) ← _route_add r req_to c route_MULTI_FROM;
      let r := upd_comp c (λ comp, with_c_routes (tput (c_routes comp) req_to c) comp) r in
      r ← _router_advertise r req_to c false;
      foldlM (open_alias c req_to) r (aliases (r_conf r))
  else Some r.

(** *** Packets of old components *)

Definition set_ns_next (s next : Z) (n : nad) : nad :=
  Nad (elems n) (attrs n)
    (alter (λ x, Ns (n_iuri x) (n_luri x) (n_iprefix x) (n_lprefix x) next) (Z.to_nat s) (nss n))
    (cdata n) (depths n) (scope n).
Definition set_my_ns (s : Z) (e : nelem) : nelem :=
  Elem (e_parent e) (e_iname e) (e_lname e) (e_icdata e) (e_lcdata e) (e_itail e) (e_ltail e) (e_attr e) (e_ns e) s (e_depth e).

(** [for(sns = elems[0].ns; sns >= 0 && nss[sns].next != ns; sns = nss[sns].next)] *)
Fixpoint ns_before (fuel : nat) (n : nad) (sns ns : Z) : Z :=
  match fuel with
  | O => -1
  | S f =>
    if (sns <? 0)%Z then sns
    else if (n_next (ns_at n sns) =? ns)%Z then sns
    else ns_before f n (n_next (ns_at n sns)) ns
  end%Z.

(** Take the namespace of the stream out of the packet; [None]: a write out of bounds. *)
Definition drop_accept_ns (n : nad) : option nad :=
  let ns := nad_find_namespace n 0 (Some uri_ACCEPT) None in
  if (0 <=? ns)%Z then
    let head := e_ns (elem_at n 0) in
    if (head =? ns)%Z then Some (upd_elem n 0 (set_ns_head (n_next (ns_at n head))))
    else
      let sns := ns_before (S (length (nss n))) n head ns in
      if (sns <? 0)%Z then None
      else Some (set_ns_next sns (n_next (ns_at n (n_next (ns_at n sns)))) n)
  else Some n.

Definition legacy_packet (n : nad) (from to : jid) : option nad :=
  n ← drop_accept_ns n;
  let ns := nad_find_namespace n 0 (Some uri_CLIENT) None in
  let '(n, ns) :=
    if (ns <? 0)%Z then
      let '(n, ns) := nad_add_namespace n uri_CLIENT None in
      let n := set_scope n (-1) in
      let n := set_ns_next ns (e_ns (elem_at n 0)) n in
      (upd_elem n 0 (set_ns_head ns), ns)
    else (n, ns) in
  let n := upd_elem n 0 (set_my_ns ns) in
  (* wrap up the packet *)
  let '(n, ns) := nad_add_namespace n uri_COMPONENT None in
  let n := nad_wrap_elem n 0 ns "route" in
  let n := nad_set_attr n 0 (-1) "to" (Some (jid_domain to)) 0 in
  Some (nad_set_attr n 0 (-1) "from" (Some (jid_domain from)) 0).

(** [event_PACKET] *)
Definition router_scoped (n : nad) : bool :=
  let ns := nad_ens n 0 in
  (0 <=? ns)%Z && bool_decide (nad_nuri n ns = tx uri_COMPONENT).

Definition dispatch (r : router) (c : loc) (n : nad) (rand now : Z) : option router :=
  if router_scoped n then
    if bool_decide (nad_ename n 0 = tx "bind") then _router_process_bind r c n
    else if bool_decide (nad_ename n 0 = tx "unbind") then _router_process_unbind r c n
    else if bool_decide (nad_ename n 0 = tx "route") then _router_process_route r c n rand
    else if bool_decide (nad_ename n 0 = tx "throttle") then _router_process_throttle r c n now
    else Some r
  else Some r.

Definition sx_event_packet (r : router) (c : loc) (n : nad) (rand now : Z) : option router :=
  comp ← get_comp r c;
  (* preauth *)
  if bool_decide (s_state (c_s comp) = state_STREAM) then
    if negb (c_legacy comp) then Some r
    else if bool_decide (nad_ename n 0 = tx "handshake") then _router_process_handshake r c n
    else Some r
  else if c_legacy comp then
    match (v ← attr_value n 0 "to"; reset_jid v), (v ← attr_value n 0 "from"; reset_jid v) with
    | Some to, Some from => n ← legacy_packet n from to; dispatch r c n rand now
    | _, _ => Some r
    end
  else dispatch r c n rand now.

(** [event_CLOSED]: queue the descriptor once. *)
Fixpoint queued (fuel : nat) (q : @jqueue Z) (n : option loc) (fd : Z) : bool :=
  match fuel, n with
  | S f, Some a =>
    match q_heap q !! a with
    | Some x => if (jn_data x =? fd)%Z then true else queued f q (jn_prev x) fd
    | None => false
    end
  | _, _ => false
  end.
Definition sx_event_closed (r : router) (c : loc) : option router :=
  comp ← get_comp r c;
  let q := r_closefd r in
  if queued (S (size (q_heap q))) q (q_front q) (c_fd comp) then Some r
  else Some (set_closefd (jqueue_push q (c_fd comp) 0) r).

(** ** Connections *)

(** The rate of an address, made at its first connection; [None]: access denied. *)
Definition _router_accept_check (r : router) (ip : string) (now : Z) : option (router * bool) :=
  ok ← access_check inet_pton4 inet_pton6 (raccess (r_conf r)) ip;
  if (ok =? 0)%Z then Some (r, false)
  else if (conn_rate_total (r_conf r) =? 0)%Z then Some (r, true)
  else
    let conf := r_conf r in
    let '(p, r) :=
      match tget (r_conn_rates r) ip with
      | Some p => (p, r)
      | None =>
        let '(p, r) := alloc r in
        let r := set_rates (<[p := rate_new (conn_rate_total conf) (conn_rate_seconds conf) (conn_rate_wait conf)]> (r_rates r)) r in
        (p, set_conn_rates (tput (r_conn_rates r) ip p) r)
      end in
    rt ← r_rates r !! p;
    let '(rt, ok) := rate_check rt now in
    let rt := if ok then rate_add rt 1 now else rt in
    Some (set_rates (<[p := rt]> (r_rates r)) r, ok).

(** [action_ACCEPT]; [ipport] is what [snprintf("%s:%d")] gives. *)
Definition mio_accept (r : router) (fd : Z) (ip : string) (port : Z) (ipport : string) (now : Z) : option (router * Z) :=
  '(r, ok) ← _router_accept_check r ip now;
  if negb ok then Some (r, 1%Z)
  else
    let conf := r_conf r in
    let '(c, r) := alloc r in
    let rate := if (byte_rate_total conf =? 0)%Z then None
                else Some (rate_new (byte_rate_total conf) (byte_rate_seconds conf) (byte_rate_wait conf)) in
    let comp := Comp ip port ipport fd (Sx None None EmptyString EmptyString state_NONE) rate false (tnew 51) false None 0 in
    let r := set_comps (<[c := comp]> (r_comps r)) r in
    let r := set_components (tput (r_components r) ipport c) r in
    Some (emit (OInit c) r, 0%Z).

(** One name of a component that went away. *)
Definition _router_route_unbind_walker (c : loc) (r : router) (key : string) : option router :=
  let r := set_log_sinks (tzap (r_log_sinks r) key) r in
  r ← _route_remove r key c;
  let r := upd_comp c (λ comp, with_c_routes (tzap (c_routes comp) key) comp) r in
  let r := drop_default r key in
  match tget (r_routes r) key with
  | None => _router_advertise r key c true
  | Some _ => Some r
  end.

(** [action_CLOSE]: the walker runs on the keys that [xhash_walk] reaches while
    they are zapped under it, which need not be all of them. *)
Definition mio_close (r : router) (c : loc) : option router :=
  comp ← get_comp r c;
  (* unbind names *)
  r ← foldlM (_router_route_unbind_walker c) r (twalk_zap (c_routes comp)).2;
  (* deregister component *)
  let r := set_components (tzap (r_components r) (c_ipport comp)) r in
  let r := set_dead (jqueue_push (r_dead r) c 0) r in
  Some (set_comps (delete c (r_comps r)) r).

(** [action_READ] and [action_WRITE] note the time; [nbytes] is what is there to read. *)
Definition mio_read (r : router) (c : loc) (nbytes now : Z) : router :=
  let r := upd_comp c (with_c_last_activity now) r in
  if (nbytes =? 0)%Z then emit (OKill c) r else r.
Definition mio_write (r : router) (c : loc) (now : Z) : router := upd_comp c (with_c_last_activity now) r.

(** *** The main loop's cleanup of routes that went away *)
Definition free_routes (r : router) : router :=
  let '(q, dead) := pull_all (S (size (q_heap (r_deadroutes r)))) (r_deadroutes r) in
  set_deadroutes q (set_rts (foldr delete (r_rts r) dead) r).
End router.
