(* ===== verification/RouterInv.v ===== *)
(** * The router's tables

    The invariant of the router's state and the lemmas about the operations
    that keep it: the route table and the components' own tables agree, no
    table leads to a component or a route that was freed, and the routes of
    a name are never empty.  [comps_of] is the abstract view: the components
    bound to a name. *)
From S2P Require Import Prelude.
From S2P Require Import CStr.
From S2P Require Import DList.
From S2P Require Import JQueue.
From S2P Require Import Rate.
From S2P Require Import Codec.
From S2P Require Import Access.
From S2P Require Import Jid.
From S2P Require Import Nad.
From S2P Require Import Table.
From S2P Require Import Stanza.
From S2P Require Import Filter.
From S2P Require Import Router.

Arguments foldlM : simpl never.
Arguments presence : simpl never.

Section inv.
Context {T : Type → Type} `{TableLaws T}.
Implicit Types (r : @router T) (c : loc) (name : string).

(** ** Running over lists *)

Lemma foldlM_nil {A} (f : @router T → A → option router) r : foldlM f r [] = Some r.
Proof. done. Qed.
Lemma foldlM_cons {A} (f : @router T → A → option router) r a l :
  foldlM f r (a :: l) = f r a ≫= λ r', foldlM f r' l.
Proof.
  unfold foldlM. cbn [foldl]. change (mbind (λ r0, f r0 a) (Some r)) with (f r a).
  destruct (f r a) as [r'|]; [done|]. cbn. induction l; done.
Qed.

(** ** The state and its abstract view *)

Definition route_of r name : option routes_st := tmap (r_routes r) !! name ≫= λ p, r_rts r !! p.
Definition comps_of r name : list loc := default [] (rt_comp <$> route_of r name).

(** The component has the name in its own table. *)
Definition bound r c name : Prop :=
  ∃ comp, r_comps r !! c = Some comp ∧ is_Some (tmap (c_routes comp) !! name).

(** Only the outputs differ. *)
Definition only_out r r' : Prop := ∃ l, r' = set_out (r_out r ++ l) r.

Record routes_ok r : Prop := {
  ro_tok : tok (r_routes r);
  ro_rt : ∀ name p, tmap (r_routes r) !! name = Some p →
    name ≠ "" ∧ ∃ rt, r_rts r !! p = Some rt ∧ rt_name rt = name ∧ NoDup (rt_comp rt) ∧ rt_comp rt ≠ [];
  ro_fresh : ∀ p rt, r_rts r !! p = Some rt → p < r_fresh r;
  (* routes that wait to be freed are in no table *)
  ro_dead : ∃ l, fifo_rep (r_deadroutes r) l ∧
    ∀ p, p ∈ l → p < r_fresh r ∧ ∀ name, tmap (r_routes r) !! name ≠ Some p
}.

(** What only accepting a connection or routing a packet changes. *)
Definition kept r : rconf * list acl * T loc * gmap loc rate := (r_conf r, r_filter r, r_conn_rates r, r_rates r).

(** The filter refuses with one of the errors of the table. *)
Definition filter_codes r : Prop :=
  Forall (λ a, acl_error a = 0 ∨ stanza_err_BAD_REQUEST <= acl_error a < stanza_err_LAST)%Z (r_filter r).

(** The throttled packets of a component are a queue. *)
Definition queue_ok (comp : @component T) : Prop := ∀ q, c_tq comp = Some q → ∃ l, fifo_rep q l.

Record router_ok r : Prop := {
  ok_routes : routes_ok r;
  ok_sinks : tok (r_log_sinks r);
  ok_components : tok (r_components r);
  ok_ctab : ∀ c comp, r_comps r !! c = Some comp → tok (c_routes comp);
  ok_bound : ∀ name c, c ∈ comps_of r name ↔ bound r c name;
  ok_sink : ∀ name c, tmap (r_log_sinks r) !! name = Some c → bound r c name;
  ok_live : ∀ k c, tmap (r_components r) !! k = Some c →
    ∃ comp, r_comps r !! c = Some comp ∧ c_ipport comp = k;
  ok_cfresh : ∀ c comp, r_comps r !! c = Some comp → c < r_fresh r;
  ok_ip : ∀ c comp, r_comps r !! c = Some comp → no_nul (c_ipport comp);
  ok_queue : ∀ c comp, r_comps r !! c = Some comp → queue_ok comp;
  ok_rates : tok (r_conn_rates r) ∧ ∀ ip p, tmap (r_conn_rates r) !! ip = Some p → is_Some (r_rates r !! p);
  ok_filter : filter_codes r;
  ok_default : ∀ d, r_default_route r = Some d → no_nul d
}.

Lemma set_out_twice x y r : set_out x (set_out y r) = set_out x r.
Proof. done. Qed.
Lemma only_out_refl r : only_out r r.
Proof. exists []. rewrite app_nil_r. by destruct r. Qed.
Lemma only_out_trans r1 r2 r3 : only_out r1 r2 → only_out r2 r3 → only_out r1 r3.
Proof. intros [l1 ->] [l2 ->]. exists (l1 ++ l2). cbn. by rewrite app_assoc. Qed.
Lemma only_out_emit o r : only_out r (emit o r).
Proof. by exists [o]. Qed.

Lemma set_out_ok o r : router_ok r → router_ok (set_out o r).
Proof. intros []. split; try done. by destruct ok_routes0. Qed.
Lemma only_out_ok r r' : only_out r r' → router_ok r → router_ok r'.
Proof. intros [l ->]. apply set_out_ok. Qed.
Lemma only_out_comps r r' name : only_out r r' → comps_of r' name = comps_of r name.
Proof. by intros [l ->]. Qed.
Lemma only_out_bound r r' c name : only_out r r' → bound r' c name ↔ bound r c name.
Proof. by intros [l ->]. Qed.

(** A name that is in the route table is found by [xhash_get]. *)
Lemma route_good r name p : routes_ok r → tmap (r_routes r) !! name = Some p → good_key name.
Proof.
  intros Hr Hp. split; [eapply (tmap_no_nul (r_routes r)); [apply Hr|done]|]. by destruct (ro_rt _ Hr _ _ Hp).
Qed.

Lemma tget_route r name : routes_ok r → no_nul name → tget (r_routes r) name = tmap (r_routes r) !! name.
Proof.
  intros Hr Hn. destruct (decide (name = "")) as [->|Hne].
  - rewrite tget_empty. destruct (tmap (r_routes r) !! "") as [p|] eqn:E; [|done].
    by destruct (ro_rt _ Hr _ _ E).
  - apply tget_ok; [apply Hr|done].
Qed.

Lemma comps_of_route r name p rt :
  tmap (r_routes r) !! name = Some p → r_rts r !! p = Some rt → comps_of r name = rt_comp rt.
Proof. intros Hp Hrt. unfold comps_of, route_of. by rewrite Hp; cbn; rewrite Hrt. Qed.

Lemma comps_of_None r name : tmap (r_routes r) !! name = None → comps_of r name = [].
Proof. intros Hp. unfold comps_of, route_of. by rewrite Hp. Qed.

Lemma comps_of_nonempty r name p : routes_ok r → tmap (r_routes r) !! name = Some p → comps_of r name ≠ [].
Proof.
  intros Hr Hp. destruct (ro_rt _ Hr _ _ Hp) as (_ & rt & Hrt & _ & _ & Hne). by rewrite (comps_of_route _ _ _ _ Hp Hrt).
Qed.

(** Two names do not share their routes. *)
Lemma route_inj r name name' p : routes_ok r →
  tmap (r_routes r) !! name = Some p → tmap (r_routes r) !! name' = Some p → name = name'.
Proof.
  intros Hr Hp Hp'. destruct (ro_rt _ Hr _ _ Hp) as (_ & rt & Hrt & <- & _).
  destruct (ro_rt _ Hr _ _ Hp') as (_ & rt' & Hrt' & <- & _). by simplify_eq.
Qed.

(** ** Adding a component to a name *)

(** What [_route_add] finds or makes: the address and the routes of the name. *)
Lemma route_slot r name ty : routes_ok r → no_nul name →
  ∃ p rt f,
    match tget (r_routes r) name with
    | Some p => rt ← r_rts r !! p; Some (p, rt, r)
    | None => let '(p, r) := alloc r in Some (p, Routes name ty [], r)
    end = Some (p, rt, set_fresh f r) ∧
    rt_name rt = name ∧ rt_comp rt = comps_of r name ∧ NoDup (rt_comp rt) ∧ p < f ∧ r_fresh r ≤ f ∧
    (∀ x, tmap (r_routes r) !! x = Some p → x = name) ∧ (tmap (r_routes r) !! name = Some p ∨ r_fresh r ≤ p).
Proof.
  intros Hr Hn. rewrite tget_route by done. destruct (tmap (r_routes r) !! name) as [p|] eqn:Hp.
  - destruct (ro_rt _ Hr _ _ Hp) as (_ & rt & Hrt & Hnm & Hnd & Hne). exists p, rt, (r_fresh r).
    rewrite Hrt. cbn. split_and!; auto.
    + by destruct r.
    + symmetry. by eapply comps_of_route.
    + by eapply (ro_fresh _ Hr).
    + intros x Hx. by eapply route_inj.
  - exists (r_fresh r), (Routes name ty []), (S (r_fresh r)). cbn. split_and!; auto.
    + by rewrite comps_of_None.
    + constructor.
    + intros x Hx. destruct (ro_rt _ Hr _ _ Hx) as (_ & rt & Hrt & _).
      pose proof (ro_fresh _ Hr _ _ Hrt). lia.
Qed.

Lemma route_add_spec r name c ty :
  routes_ok r → good_key name → c ∉ comps_of r name →
  ∃ m t f, let r' := set_routes t (set_rts m (set_fresh f r)) in
    _route_add r name c ty = Some (r', length (comps_of r name ++ [c])) ∧ r_fresh r ≤ f ∧ routes_ok r' ∧
    ∀ x, comps_of r' x = if decide (x = name) then comps_of r name ++ [c] else comps_of r x.
Proof.
  intros Hr Hg Hc. destruct (route_slot r name ty Hr (proj1 Hg)) as (p & rt & f & Hs & Hnm & Hcs & Hnd & Hpf & Hf & Hinj & Hor).
  unfold _route_add. rewrite Hs. cbn [mbind option_bind]. set (rt' := Routes _ _ _).
  destruct (tput_ok (r_routes r) name p) as [Ht Hm]; [apply Hr|apply Hg|].
  exists (<[p := rt']> (r_rts r)), (tput (r_routes r) name p), f. cbv zeta.
  assert (∀ x q, tmap (r_routes r) !! x = Some q → x ≠ name → q ≠ p) as Hqp.
  { intros x q Hq Hx ->. by apply Hx, Hinj. }
  split_and!; [|done| |].
  - unfold rt'. cbn [rt_name rt_comp r_routes set_rts set_fresh]. by rewrite Hnm, Hcs.
  - split; cbn [r_routes r_rts r_fresh set_routes set_rts set_fresh]; [done|..].
    + intros x q. rewrite Hm, lookup_insert. case_decide as Hx.
      * intros [= <-]. subst x. split; [apply Hg|]. exists rt'. rewrite lookup_insert_eq. unfold rt'. cbn.
        split_and!; [done|done| |by destruct (rt_comp rt)]. rewrite <- Hcs in Hc.
        apply NoDup_app. split_and!; [done| |apply NoDup_singleton]. by intros y Hy ->%list_elem_of_singleton.
      * intros Hq. destruct (ro_rt _ Hr _ _ Hq) as (Hx' & rq & Hrq & Hrest). split; [done|].
        exists rq. rewrite lookup_insert_ne; [done|]. intros ->. by apply (Hqp x q).
    + intros q x. rewrite lookup_insert. case_decide; [subst; lia|]. intros Hq.
      pose proof (ro_fresh _ Hr _ _ Hq). lia.
    + destruct (ro_dead _ Hr) as (l & Hl & Hd). exists l. split; [exact Hl|]. intros q Hq. destruct (Hd q Hq) as [Hlt Hno].
      split; [lia|]. intros x. rewrite Hm, lookup_insert. case_decide; [|done]. intros [= ->].
      destruct Hor as [E|E]; [by apply (Hno name)|lia].
  - intros x. unfold comps_of, route_of. cbn [r_routes r_rts set_routes set_rts]. rewrite Hm, lookup_insert.
    destruct (decide (name = x)) as [->|Hx]; cbn.
    + rewrite decide_True, lookup_insert_eq by done. cbn. by rewrite Hcs.
    + rewrite decide_False by done. destruct (tmap (r_routes r) !! x) as [q|] eqn:Hq; [|done]. cbn.
      rewrite lookup_insert_ne; [done|]. intros <-. by eapply Hqp.
Qed.

(** ** Removing it *)

(** The swap loop takes out a component that is there once. *)
Lemma remove_loop_none f i c l : (∀ j, i ≤ j → l !! j ≠ Some c) → remove_loop f i c l = l.
Proof.
  revert i l. induction f as [|f IH]; intros i l Hj; cbn [remove_loop]; [done|].
  case_decide; [|done]. rewrite bool_decide_false by (apply Hj; lia). apply IH. intros j ?. apply Hj. lia.
Qed.

Lemma remove_loop_once f i c l : NoDup l → (∀ j, j < i → l !! j ≠ Some c) → length l ≤ f + i →
  c ∈ l → c :: remove_loop f i c l ≡ₚ l.
Proof.
  revert i. induction f as [|f IH]; intros i Hnd Hj Hf Hc.
  { apply list_elem_of_lookup in Hc as [j Hjc]. pose proof (lookup_lt_Some _ _ _ Hjc).
    destruct (Hj j); [lia|done]. }
  cbn [remove_loop]. case_decide as Hi.
  2: { apply list_elem_of_lookup in Hc as [j Hjc]. pose proof (lookup_lt_Some _ _ _ Hjc). destruct (Hj j); [lia|done]. }
  case_bool_decide as Hic.
  - destruct l as [|x l _] using rev_ind; [done|]. rewrite last_snoc, length_insert, length_app.
    cbn [length]. replace (length l + 1 - 1) with (length l) by lia.
    rewrite length_app in Hi. cbn in Hi.
    destruct (decide (i = length l)) as [->|Hne].
    + rewrite list_lookup_middle in Hic by done. injection Hic as ->.
      rewrite list_insert_id by (by rewrite list_lookup_middle).
      rewrite take_app_length, remove_loop_none by (intros j Hj' Hjc; apply lookup_lt_Some in Hjc; lia).
      by rewrite Permutation_cons_append.
    + rewrite insert_app_l, take_app_le by (rewrite ?length_insert; lia).
      rewrite take_ge by (rewrite length_insert; lia).
      rewrite lookup_app_l in Hic by lia. apply NoDup_app in Hnd as (Hnd & Hx & _).
      rewrite remove_loop_none.
      * apply list_elem_of_split_length in Hic as (l1 & l2 & -> & ->).
        rewrite insert_app_r_alt, Nat.sub_diag by done. cbn.
        rewrite <- app_assoc. cbn. rewrite <- (Permutation_middle l1 (l2 ++ [x]) c).
        apply perm_skip, Permutation_app_head, Permutation_cons_append.
      * intros j Hij Hjc. destruct (decide (j = i)) as [->|Hji].
        -- rewrite list_lookup_insert_eq in Hjc by lia. injection Hjc as ->.
           apply (Hx c); [by eapply list_elem_of_lookup_2|left].
        -- rewrite list_lookup_insert_ne in Hjc by done. apply Hji. by eapply NoDup_lookup.
  - apply IH; [done| |lia|done]. intros j Hji. destruct (decide (j = i)) as [->|]; [done|]. apply Hj. lia.
Qed.

Lemma remove_loop_spec c l : NoDup l → c ∈ l → c :: remove_loop (length l) 0 c l ≡ₚ l.
Proof. intros Hnd Hc. apply remove_loop_once; [done|lia|lia|done]. Qed.

Lemma route_remove_spec r name c :
  routes_ok r → no_nul name → c ∈ comps_of r name →
  ∃ m t d l, let r' := set_routes t (set_deadroutes d (set_rts m r)) in
    _route_remove r name c = Some r' ∧ routes_ok r' ∧ c :: l ≡ₚ comps_of r name ∧
    ∀ x, comps_of r' x = if decide (x = name) then l else comps_of r x.
Proof.
  intros Hr Hn Hc. unfold _route_remove. rewrite tget_route by done.
  destruct (tmap (r_routes r) !! name) as [p|] eqn:Hp; [|rewrite comps_of_None in Hc by done; by apply elem_of_nil in Hc].
  destruct (ro_rt _ Hr _ _ Hp) as (Hne & rt & Hrt & Hnm & Hnd & Hcs). rewrite Hrt. cbn [mbind option_bind].
  rewrite (comps_of_route _ _ _ _ Hp Hrt) in *. case_decide as Hl.
  - set (l := remove_loop _ _ _ _). set (rt' := Routes _ _ _).
    pose proof (remove_loop_spec c (rt_comp rt) Hnd Hc) as Hp'. fold l in Hp'.
    exists (<[p := rt']> (r_rts r)), (r_routes r), (r_deadroutes r), l. cbv zeta.
    split_and!; [by destruct r| |done|].
    + split; cbn [r_routes r_rts r_fresh set_routes set_rts set_deadroutes]; [apply Hr|..].
      * intros x q Hq. destruct (ro_rt _ Hr _ _ Hq) as (Hx & rq & Hrq & Hnq & Hrest). split; [done|].
        destruct (decide (q = p)) as [->|Hqp]; [|exists rq; by rewrite lookup_insert_ne].
        exists rt'. rewrite lookup_insert_eq. simplify_eq. split_and!; [done|done|..]; unfold rt'; cbn.
        -- rewrite <- Hp' in Hnd. by apply NoDup_cons in Hnd as [_ ?].
        -- intros E. rewrite E in Hp'. apply Permutation_length in Hp'. cbn in Hp'. lia.
      * intros q x. rewrite lookup_insert. case_decide; [subst; intros _; by eapply (ro_fresh _ Hr)|apply Hr].
      * apply Hr.
    + intros x. unfold comps_of, route_of. cbn [r_routes r_rts set_routes set_rts set_deadroutes].
      case_decide as Hx; [subst x; rewrite Hp; cbn; by rewrite lookup_insert_eq|].
      destruct (tmap (r_routes r) !! x) as [q|] eqn:Hq; [|done]. cbn. rewrite lookup_insert_ne; [done|].
      intros <-. apply Hx. by eapply route_inj.
  - destruct (tzap_ok (r_routes r) name) as [Ht Hm]; [apply Hr|done|].
    exists (r_rts r), (tzap (r_routes r) name), (jqueue_push (r_deadroutes r) p 0), []. cbv zeta. split_and!.
    + by destruct r.
    + split; cbn [r_routes r_rts r_fresh r_deadroutes set_routes set_rts set_deadroutes]; [done| |apply Hr|].
      { intros x q. rewrite Hm. intros [_ Hq]%lookup_delete_Some. by apply Hr. }
      destruct (ro_dead _ Hr) as (l & Hld & Hd). exists (l ++ [p]). split; [by apply fifo_push|].
      intros q. rewrite elem_of_app, list_elem_of_singleton. intros Hq. split.
      * destruct Hq as [Hq| ->]; [by apply Hd|by eapply (ro_fresh _ Hr)].
      * intros x. rewrite Hm. intros [Hx Hxq]%lookup_delete_Some. destruct Hq as [Hq| ->]; [by apply (Hd q Hq) in Hxq|].
        apply Hx. by eapply route_inj.
    + destruct (rt_comp rt) as [|y [|]]; cbn in Hl; [done| |lia]. apply list_elem_of_singleton in Hc. by subst.
    + intros x. unfold comps_of, route_of. cbn [r_routes r_rts set_routes set_rts set_deadroutes]. rewrite Hm.
      case_decide as Hx; [by subst; rewrite lookup_delete_eq|]. by rewrite lookup_delete_ne.
Qed.
(** ** The component's own table *)

Lemma bound_upd r c0 f c name :
  bound (upd_comp c0 f r) c name ↔
    ∃ comp, r_comps r !! c = Some comp ∧
      is_Some (tmap (c_routes (if decide (c = c0) then f comp else comp)) !! name).
Proof.
  unfold bound, upd_comp. cbn [r_comps set_comps]. setoid_rewrite lookup_alter. split.
  - intros (comp & Hc & Hb). case_decide as E.
    + subst c0. destruct (r_comps r !! c) as [comp0|]; [|done]. cbn in Hc. injection Hc as <-.
      exists comp0. by rewrite decide_True.
    + exists comp. by rewrite decide_False by done.
  - intros (comp & Hc & Hb). destruct (decide (c0 = c)) as [->|E].
    + rewrite decide_True in Hb by done. exists (f comp). by rewrite Hc.
    + rewrite decide_False in Hb by done. by exists comp.
Qed.

(** The state in which [c] has got the name, in both tables. *)
Lemma bound_ok r r' c name :
  router_ok r → routes_ok r' → is_Some (r_comps r !! c) → no_nul name →
  r_comps r' = alter (λ comp, with_c_routes (tput (c_routes comp) name c) comp) c (r_comps r) →
  kept r' = kept r → (∀ d, r_default_route r' = Some d → r_default_route r = Some d ∨ d = name) →
  r_log_sinks r' = r_log_sinks r ∨ r_log_sinks r' = tput (r_log_sinks r) name c →
  r_components r' = r_components r → r_fresh r ≤ r_fresh r' →
  (∀ x, comps_of r' x = if decide (x = name) then comps_of r name ++ [c] else comps_of r x) →
  router_ok r'.
Proof.
  intros Hr Hrt [comp Hc] Hn Ec Ek Ed Es Ecs Ef Hco.
  set (f := λ comp : component, with_c_routes (tput (c_routes comp) name c) comp) in *.
  assert (∀ d x, bound r' d x ↔ bound r d x ∨ d = c ∧ x = name) as Hb.
  { intros d x. assert (bound r' d x ↔ bound (upd_comp c f r) d x) as -> by (unfold bound; by rewrite Ec).
    rewrite bound_upd. unfold bound. split.
    - intros (cd & Hd & Hx). case_decide as E; [|left; by exists cd]. subst d. cbn in Hx.
      destruct (tput_ok (c_routes cd) name c) as [_ Em]; [eapply (ok_ctab r Hr); eassumption|done|].
      rewrite Em, lookup_insert in Hx. case_decide; [by right|left; by exists cd].
    - intros [(cd & Hd & Hx)|[-> ->]].
      + exists cd. split; [done|]. case_decide as E; [|done]. subst d. cbn.
        destruct (tput_ok (c_routes cd) name c) as [_ Em]; [eapply (ok_ctab r Hr); eassumption|done|].
        rewrite Em, lookup_insert. by case_decide.
      + exists comp. split; [done|]. rewrite decide_True by done. cbn.
        destruct (tput_ok (c_routes comp) name c) as [_ Em]; [eapply (ok_ctab r Hr); eassumption|done|].
        rewrite Em, lookup_insert_eq. by eexists. }
  assert (∀ d, is_Some (r_comps r' !! d) → is_Some (r_comps r !! d)) as Hdom.
  { intros d. rewrite Ec, lookup_alter_is_Some. done. }
  split; [done|..].
  - destruct Es as [-> | ->]; [by apply ok_sinks|]. apply tput_ok; [by apply ok_sinks|done].
  - rewrite Ecs. by apply ok_components.
  - intros d cd. rewrite Ec, lookup_alter. case_decide as E; [|by apply ok_ctab]. subst d. rewrite Hc.
    intros [= <-]. apply tput_ok; [eapply (ok_ctab r Hr); eassumption|done].
  - intros x d. rewrite Hco, Hb, <- (ok_bound _ Hr). case_decide as Ex; [subst x|naive_solver].
    rewrite elem_of_app, list_elem_of_singleton. naive_solver.
  - intros x d Hx. rewrite Hb. destruct Es as [Es|Es]; rewrite Es in Hx; [left; by apply ok_sink|].
    destruct (tput_ok (r_log_sinks r) name c) as [_ Em]; [by apply ok_sinks|done|].
    rewrite Em, lookup_insert in Hx. case_decide; [right; by simplify_eq|left; by apply ok_sink].
  - intros k d. rewrite Ecs. intros Hk. destruct (ok_live _ Hr _ _ Hk) as (cd & Hd & Hip).
    rewrite Ec, lookup_alter. case_decide; [subst d|]; rewrite Hd; eexists; (split; [reflexivity|exact Hip]).
  - intros d cd Hd. destruct (Hdom d) as [cd' Hd']; [by eexists|]. pose proof (ok_cfresh _ Hr _ _ Hd'). lia.
  - intros d cd. rewrite Ec, lookup_alter. case_decide as E; [|by apply ok_ip]. subst d. rewrite Hc.
    intros [= <-]. exact (ok_ip _ Hr _ _ Hc).
  - intros d cd. rewrite Ec, lookup_alter. case_decide as E; [|by apply ok_queue]. subst d.
    destruct (r_comps r !! c) as [cd'|] eqn:Hcd; [|done]. intros [= <-]. exact (ok_queue _ Hr _ _ Hcd).
  - injection Ek as _ _ -> ->. apply Hr.
  - unfold filter_codes. injection Ek as _ -> _ _. apply Hr.
  - intros d [Hd| ->]%Ed; [by apply (ok_default _ Hr)|done].
Qed.

(** The state in which it has lost it. *)
Lemma unbound_ok r r' c name l :
  router_ok r → routes_ok r' → no_nul name →
  r_comps r' = alter (λ comp, with_c_routes (tzap (c_routes comp) name) comp) c (r_comps r) →
  kept r' = kept r → (∀ d, r_default_route r' = Some d → r_default_route r = Some d) →
  r_log_sinks r' = tzap (r_log_sinks r) name →
  r_components r' = r_components r → r_fresh r' = r_fresh r →
  c :: l ≡ₚ comps_of r name → c ∉ l →
  (∀ x, comps_of r' x = if decide (x = name) then l else comps_of r x) →
  router_ok r'.
Proof.
  intros Hr Hrt Hn Ec Ek Ed Es Ecs Ef Hl Hcl Hco.
  set (f := λ comp : component, with_c_routes (tzap (c_routes comp) name) comp) in *.
  assert (∀ d x, bound r' d x ↔ bound r d x ∧ ¬ (d = c ∧ x = name)) as Hb.
  { intros d x. assert (bound r' d x ↔ bound (upd_comp c f r) d x) as -> by (unfold bound; by rewrite Ec).
    rewrite bound_upd. unfold bound. split.
    - intros (cd & Hd & Hx). case_decide as E; [|naive_solver]. subst d. cbn in Hx.
      destruct (tzap_ok (c_routes cd) name) as [_ Em]; [eapply (ok_ctab r Hr); eassumption|done|].
      rewrite Em, lookup_delete in Hx. case_decide; [by destruct Hx|]. split; [by exists cd|naive_solver].
    - intros [(cd & Hd & Hx) Hne]. exists cd. split; [done|]. case_decide as E; [|done]. subst d. cbn.
      destruct (tzap_ok (c_routes cd) name) as [_ Em]; [eapply (ok_ctab r Hr); eassumption|done|].
      rewrite Em, lookup_delete. case_decide; [|done]. naive_solver. }
  destruct (tzap_ok (r_log_sinks r) name (ok_sinks _ Hr) Hn) as [Hst Hsm].
  split; [done|..].
  - by rewrite Es.
  - rewrite Ecs. by apply ok_components.
  - intros d cd. rewrite Ec, lookup_alter. case_decide as E; [|by apply ok_ctab]. subst d.
    destruct (r_comps r !! c) as [cd'|] eqn:Hd; [|done]. intros [= <-]. apply tzap_ok; [eapply (ok_ctab r Hr); eassumption|done].
  - intros x d. rewrite Hco, Hb, <- (ok_bound _ Hr). case_decide as Ex; [subst x|naive_solver].
    rewrite <- Hl, elem_of_cons. naive_solver.
  - intros x d. rewrite Es, Hsm. intros [Hne Hx]%lookup_delete_Some. rewrite Hb. split; [by apply ok_sink|naive_solver].
  - intros k d. rewrite Ecs. intros Hk. destruct (ok_live _ Hr _ _ Hk) as (cd & Hd & Hip).
    rewrite Ec, lookup_alter. case_decide; [subst d|]; rewrite Hd; eexists; (split; [reflexivity|exact Hip]).
  - intros d cd. rewrite Ec, Ef. intros Hd.
    assert (is_Some (r_comps r !! d)) as [cd' Hd'] by (apply (lookup_alter_is_Some f _ c d); by eexists).
    by eapply (ok_cfresh _ Hr).
  - intros d cd. rewrite Ec, lookup_alter. case_decide as E; [|by apply ok_ip]. subst d.
    destruct (r_comps r !! c) as [cd'|] eqn:Hd; [|done]. intros [= <-]. exact (ok_ip _ Hr _ _ Hd).
  - intros d cd. rewrite Ec, lookup_alter. case_decide as E; [|by apply ok_queue]. subst d.
    destruct (r_comps r !! c) as [cd'|] eqn:Hcd; [|done]. intros [= <-]. exact (ok_queue _ Hr _ _ Hcd).
  - injection Ek as _ _ -> ->. apply Hr.
  - unfold filter_codes. injection Ek as _ -> _ _. apply Hr.
  - intros d Hd. by apply (ok_default _ Hr), Ed.
Qed.

(** ** Outputs *)

Lemma foldlM_out {A} (f : @router T → A → option router) (g : A → list out) r l :
  (∀ a r1, a ∈ l → only_out r r1 → f r1 a = Some (set_out (r_out r1 ++ g a) r1)) →
  foldlM f r l = Some (set_out (r_out r ++ (l ≫= g)) r).
Proof.
  intros Hf. assert (∀ r1, only_out r r1 → foldlM f r1 l = Some (set_out (r_out r1 ++ (l ≫= g)) r1)) as Hgen;
    [|apply Hgen, only_out_refl].
  induction l as [|a l IH]; intros r1 H1.
  - rewrite foldlM_nil. cbn. rewrite app_nil_r. by destruct r1.
  - rewrite foldlM_cons, Hf; [|by left|done]. cbn [mbind option_bind]. rewrite IH.
    + rewrite bind_cons. cbn. by rewrite app_assoc.
    + intros b r2 Hb. apply Hf. by right.
    + eapply only_out_trans; [exact H1|]. by eexists.
Qed.

(** Who hears an advertisement of [src]. *)
Definition hears r (src c : loc) : bool :=
  negb (bool_decide (c = src)) && match r_comps r !! c with Some comp => negb (c_legacy comp) | None => false end.

Definition live r c : Prop := is_Some (r_comps r !! c).

Lemma broadcast_spec r p src n rt :
  r_rts r !! p = Some rt → (∀ c, c ∈ rt_comp rt → live r c) →
  _router_broadcast r p src n =
    Some (set_out (r_out r ++ ((λ c, OWrite c (nad_copy n)) <$> filter (λ c, hears r src c = true) (rt_comp rt))) r).
Proof.
  intros Hrt Hl. unfold _router_broadcast. rewrite Hrt. cbn [mbind option_bind].
  rewrite (foldlM_out _ (λ c, if hears r src c then [OWrite c (nad_copy n)] else [])).
  - do 3 f_equal. clear. induction (rt_comp rt) as [|c l IH]; [done|].
    rewrite bind_cons, filter_cons. destruct (hears r src c); cbn; by rewrite IH.
  - intros c r1 Hc [l ->]. unfold hears. case_bool_decide; cbn; [by rewrite app_nil_r|].
    unfold get_comp. cbn. destruct (Hl c Hc) as [comp ->]. cbn. destruct (c_legacy comp); cbn; [|done].
    by rewrite app_nil_r.
Qed.

(** The advertisement reaches every component of every name but [src] and the old ones. *)
Definition adverts r (src : loc) (n : nad) : list out :=
  twalk (r_routes r) ≫= λ kv,
    (λ c, OWrite c (nad_copy n)) <$> filter (λ c, hears r src c = true) (comps_of r kv.1).

Lemma ok_live_bound r name c : router_ok r → c ∈ comps_of r name → live r c.
Proof. intros Hr Hc. apply (ok_bound _ Hr) in Hc as (comp & Hc & _). by eexists. Qed.

Lemma advertise_spec r domain src unavail :
  router_ok r →
  _router_advertise r domain src unavail = Some (set_out (r_out r ++ adverts r src (presence domain unavail)) r).
Proof.
  intros Hr. unfold _router_advertise, adverts. apply foldlM_out. intros [k p] r1 Hkp [l ->]. cbn [fst snd].
  apply elem_of_twalk in Hkp; [|apply Hr].
  destruct (ro_rt _ (ok_routes _ Hr) _ _ Hkp) as (_ & rt & Hrt & _).
  pose proof (comps_of_route _ _ _ _ Hkp Hrt) as Ec.
  rewrite (broadcast_spec _ _ _ _ rt); [|done|].
  - rewrite Ec. done.
  - intros c Hc. rewrite <- Ec in Hc. exact (ok_live_bound r k c Hr Hc).
Qed.

(** What a new component is told of a name. *)
Definition reverse_adverts r (c : loc) (name : string) : list out :=
  if bool_decide (c ∈ comps_of r name) then []
  else let '(n, ns) := nad_add_namespace nad_new uri_COMPONENT None in
       let '(n, el) := nad_append_elem n ns "presence" 0 in
       [OWrite c (nad_set_attr n el (-1) "from" (Some name) (strlen name))].

Lemma advertise_reverse_spec r c :
  router_ok r →
  foldlM (λ r kv, _router_advertise_reverse r kv.1 kv.2 c) r (twalk (r_routes r)) =
    Some (set_out (r_out r ++ (twalk (r_routes r) ≫= λ kv, reverse_adverts r c kv.1)) r).
Proof.
  intros Hr. apply (foldlM_out _ (λ kv, reverse_adverts r c kv.1)). intros [k p] r1 Hkp [l ->]. cbn [fst snd].
  apply elem_of_twalk in Hkp; [|apply Hr].
  destruct (ro_rt _ (ok_routes _ Hr) _ _ Hkp) as (_ & rt & Hrt & _ & _ & Hne).
  unfold _router_advertise_reverse, reverse_adverts. cbn [r_rts set_out]. rewrite Hrt. cbn [mbind option_bind].
  rewrite (comps_of_route _ _ _ _ Hkp Hrt). destruct (rt_comp rt); [done|].
  case_bool_decide; [by rewrite app_nil_r|]. by destruct (nad_add_namespace _ _ _), (nad_append_elem _ _ _ _).
Qed.
End inv.

Arguments adverts : simpl never.
Arguments reverse_adverts : simpl never.
