(* ===== verification/RouterBind.v ===== *)
(** * Binding and unbinding names

    What the handlers of bind and unbind packets, of old components' openings
    and of closed connections do to the router's tables: [bind_refusal] is the
    decision on a request as a function of its conditions, and the lemmas
    [bind_spec], [unbind_spec], [open_spec] and [close_spec] say that each
    handler runs, answers and keeps the invariant. *)
From S2P Require Import Prelude.
From S2P Require Import CStr.
From S2P Require Import DList.
From S2P Require Import JQueue.
From S2P Require Import Rate.
From S2P Require Import Codec.
From S2P Require Import Access.
From S2P Require Import Jid.
From S2P Require Import Nad.
From S2P Require Import Table.
From S2P Require Import Stanza.
From S2P Require Import Filter.
From S2P Require Import Router.
From S2P Require Import RouterInv.

Section bind.
Context {T : Type → Type} `{TableLaws T}.
Context (nodeprep nameprep resourceprep : string → option string).
(** A prepared domain is a C string. *)
Context (nameprep_cstr : ∀ s d, nameprep s = Some d → no_nul d).
Implicit Types (r : @router T) (c : loc) (n : nad).

Notation name_of := (name_of nodeprep nameprep resourceprep).
Notation process_bind := (_router_process_bind nodeprep nameprep resourceprep).
Notation process_unbind := (_router_process_unbind nodeprep nameprep resourceprep).

(** ** Names *)

Lemma reset_domain j id len j' :
  jid_reset nodeprep nameprep resourceprep j id len = JOk j' → jid_domain j' = "" ∨ no_nul (jid_domain j').
Proof.
  unfold jid_reset. destruct id as [id|]; [|destruct (reset_buf _ _); [intros [= <-]; by left|done]].
  destruct (reset_buf _ _) as [buf|]; [|done]. destruct (_ || _); [done|].
  destruct (split_id _) as [[[a b] d]|]; [|done].
  destruct (jid_prep _ _ _ _) as [jp| |] eqn:Ep; [|done|done]. intros [= <-]. right.
  unfold jid_prep in Ep. cbn [jid_node jid_domain jid_resource] in Ep.
  destruct (jid_prep_pieces _ _ _ _ _ _) as [[[n' d'] r']|] eqn:Es; [|done].
  unfold jid_prep_pieces in Es.
  apply bind_Some in Es as (n1 & _ & Es). apply bind_Some in Es as (d1 & Ed & Es).
  apply bind_Some in Es as (r1 & _ & Es). injection Es as -> -> ->.
  unfold reset_components_raw in Ep. destruct (reset_buf _ _); [|done].
  apply (f_equal (λ q : jres, match q with JOk j => jid_domain j | _ => "" end)) in Ep. cbn [jid_domain] in Ep. rewrite <- Ep.
  apply no_nul_stake. by eapply nameprep_cstr.
Qed.

Lemma new_jid_domain t j : new_jid nodeprep nameprep resourceprep t = Some j → no_nul (jid_domain j).
Proof.
  unfold new_jid, jid_new. destruct (jid_reset _ _ _ _ _ _) as [j'| |] eqn:E; [|done..]. intros [= ->].
  by destruct (reset_domain _ _ _ _ E) as [-> |].
Qed.
Lemma reset_jid_domain t j : reset_jid nodeprep nameprep resourceprep t = Some j → no_nul (jid_domain j).
Proof.
  unfold reset_jid. destruct (jid_reset _ _ _ _ _ _) as [j'| |] eqn:E; [|done..]. intros [= ->].
  by destruct (reset_domain _ _ _ _ E) as [-> |].
Qed.

Lemma name_of_no_nul n j : name_of n = Some j → no_nul (jid_domain j).
Proof.
  unfold Router.name_of. destruct (attr_value n 0 "name") as [v|]; [|done]. apply new_jid_domain.
Qed.

(** ** Bind requests *)

Definition is_multi n : bool := (0 <=? nad_find_attr n 0 (-1) "multi" None)%Z.

(** The code of the refusal of a request, if it is refused. *)
Definition bind_refusal r (comp : @component T) n (name : string) : option string :=
  let user := user_of (s_auth_id (c_s comp)) in
  let may := aci_check (aci (r_conf r)) in
  if negb (strcmp user name =? 0)%Z && negb (may (Some "bind") user) then Some "403"
  else if bool_decide (comps_of r name ≠ []) && negb (is_multi n) then Some "409"
  else if existsb (λ a, strcmp (al_name a) name =? 0)%Z (aliases (r_conf r)) then Some "409"
  else if has_child n "default" && negb (may (Some "default-route") user) then Some "403"
  else if has_child n "default" && bool_decide (is_Some (r_default_route r)) then Some "409"
  else if has_child n "log" && negb (may (Some "log") user) then Some "403"
  else None.

(** No alias is bound along with the name. *)
Definition no_alias r (name : string) : Prop :=
  Forall (λ a, (strcmp (al_target a) name =? 0)%Z = false) (aliases (r_conf r)).

(** What [_router_process_bind] does to the state apart from the outputs. *)
Definition default_after r n (name : string) : option string :=
  if has_child n "default" then Some name else r_default_route r.

Lemma bind_default_cases r c n name user :
  match bind_default r c n name user with
  | inl r' => (∃ code, r' = bounce r c n code ∧
      ((has_child n "default" && negb (aci_check (aci (r_conf r)) (Some "default-route") user) = true ∧ code = "403") ∨
       (has_child n "default" && negb (aci_check (aci (r_conf r)) (Some "default-route") user) = false ∧
        has_child n "default" && bool_decide (is_Some (r_default_route r)) = true ∧ code = "409")))
  | inr r' => r' = set_default_route (default_after r n name) r ∧
      has_child n "default" && negb (aci_check (aci (r_conf r)) (Some "default-route") user) = false ∧
      has_child n "default" && bool_decide (is_Some (r_default_route r)) = false
  end.
Proof.
  unfold bind_default, default_after. destruct (has_child n "default"); cbn [andb]; [|by destruct r].
  destruct (aci_check _ _ _); cbn [negb]; [|by exists "403"; auto].
  destruct (r_default_route r) eqn:E; [exists "409"; auto|done].
Qed.

Lemma tput_existing r name : routes_ok r → no_nul name →
  bool_decide (is_Some (tget (r_routes r) name)) = bool_decide (comps_of r name ≠ []).
Proof.
  intros Hr Hn. apply bool_decide_ext. rewrite tget_route by done. split.
  - intros [p Hp]. by eapply comps_of_nonempty.
  - destruct (tmap (r_routes r) !! name) eqn:E; [by eexists|]. intros Hne. by rewrite comps_of_None in Hne.
Qed.

(** The outputs of an accepted request: the answer, then the advertisement of
    the name to the others, then what the component is told of theirs. *)
Definition bind_outs r c n (name : string) : list out :=
  OWrite c (nad_set_attr n 0 (-1) "name" None 0) :: adverts r c (presence name false) ++
    (twalk (r_routes r) ≫= λ kv, reverse_adverts r c kv.1).

Lemma foldlM_no_alias r c name : no_alias r name → foldlM (bind_alias c name) r (aliases (r_conf r)) = Some r.
Proof.
  unfold no_alias. intros Hal. induction Hal as [|a l Ha _ IH]; [done|].
  rewrite foldlM_cons. assert (bind_alias c name r a = Some r) as -> by (unfold bind_alias; by rewrite Ha). exact IH.
Qed.

Lemma bind_spec r c n comp j :
  let name := jid_domain j in
  router_ok r → r_comps r !! c = Some comp → name_of n = Some j → name ≠ "" →
  no_alias r name → c ∉ comps_of r name →
  match bind_refusal r comp n name with
  | Some code => ∃ d, (d = r_default_route r ∨ d = default_after r n name) ∧
      process_bind r c n = Some (bounce (set_default_route d r) c n code)
  | None =>
    ∃ r1, process_bind r c n = Some (set_out (r_out r ++ bind_outs r1 c n name) r1) ∧
      router_ok r1 ∧ r_out r1 = r_out r ∧ kept r1 = kept r ∧
      r_comps r1 = alter (λ comp, with_c_routes (tput (c_routes comp) name c) comp) c (r_comps r) ∧
      r_default_route r1 = default_after r n name ∧
      ∀ x, comps_of r1 x = if decide (x = name) then comps_of r name ++ [c] else comps_of r x
  end.
Proof.
  intros name Hr Hc Hj Hne Hal Hnew. pose proof (name_of_no_nul _ _ Hj) as Hn. fold name in Hn.
  unfold bind_refusal, _router_process_bind. unfold get_comp. rewrite Hc. cbn [mbind option_bind]. rewrite Hj. fold name.
  set (user := user_of _). fold (is_multi n). rewrite tput_existing by (done || apply Hr).
  assert (r = set_default_route (r_default_route r) r) as Er by by destruct r.
  destruct (negb _ && negb _); [exists (r_default_route r); rewrite <- Er; auto|].
  destruct (bool_decide _ && negb _); [exists (r_default_route r); rewrite <- Er; auto|].
  destruct (existsb _ _); [exists (r_default_route r); rewrite <- Er; auto|].
  pose proof (bind_default_cases r c n name user) as Hd.
  destruct (bind_default r c n name user) as [r'|r'].
  { destruct Hd as (code & -> & [[-> ->]|(-> & -> & ->)]); exists (r_default_route r); rewrite <- Er; auto. }
  destruct Hd as (-> & -> & ->). unfold bind_log. cbn [r_conf set_default_route].
  set (r0 := set_default_route _ r).
  destruct (has_child n "log" && negb (aci_check (aci (r_conf r)) (Some "log") user)) eqn:El.
  { apply andb_true_iff in El as [-> ->]. eexists. split; [by right|done]. }
  assert (∃ s, (s = r_log_sinks r ∨ s = tput (r_log_sinks r) name c) ∧
    (if has_child n "log" then if negb (aci_check (aci (r_conf r)) (Some "log") user) then inl (bounce r0 c n "403")
       else inr (set_log_sinks (tput (r_log_sinks r0) name c) r0) else inr r0) = inr (set_log_sinks s r0)) as (s & Hs & ->).
  { destruct (has_child n "log"); [|exists (r_log_sinks r); split; [by left|by destruct r]].
    cbn in El. rewrite El. eexists. split; [by right|done]. }
  assert (routes_ok (set_log_sinks s r0)) as Hro by (destruct Hr as [[]]; by split).
  destruct (route_add_spec (set_log_sinks s r0) name c (if is_multi n then route_MULTI_TO else route_SINGLE) Hro)
    as (m & t & f & -> & Hf & Hro' & Hco); [done|done|]. cbn [mbind option_bind]. cbv zeta in Hro', Hco.
  set (r1 := set_routes t _) in *. set (r2 := upd_comp c _ r1).
  assert (router_ok r2) as Hr2.
  { apply (bound_ok r r2 c name); try done; first [by eexists | by destruct Hro'; split | idtac].
    cbn. unfold default_after. intros d. destruct (has_child n "default"); [intros [= ->]; by right|by left]. }
  set (w := OWrite c (nad_set_attr n 0 (-1) "name" None 0)).
  assert (router_ok (emit w r2)) as Hr3 by (eapply only_out_ok; [apply only_out_emit|done]).
  rewrite (advertise_spec _ _ _ _ Hr3). cbn [mbind option_bind].
  set (r4 := set_out _ (emit w r2)).
  assert (router_ok r4) as Hr4 by (eapply only_out_ok; [|exact Hr3]; by eexists).
  rewrite (advertise_reverse_spec _ _ Hr4). cbn [mbind option_bind].
  set (r5 := set_out _ r4). rewrite (foldlM_no_alias r5 c name Hal). exists r2. split_and!; try done.
  unfold r5, r4, emit. rewrite !set_out_twice. do 2 f_equal. cbn. by rewrite <- !app_assoc.
Qed.

(** ** Unbind requests *)

Lemma drop_default_fields r name : ∃ d, drop_default r name = set_default_route d r ∧
  ∀ x, d = Some x → r_default_route r = Some x.
Proof.
  unfold drop_default. destruct (r_default_route r) as [d|] eqn:E; [|exists None; split; [|done]; rewrite <- E; by destruct r].
  destruct (_ =? 0)%Z; [by eexists|]. exists (Some d). split; [|done]. rewrite <- E. by destruct r.
Qed.

(** The tables of the router after [c] left a name, before what follows. *)
Lemma leave_spec r c name :
  router_ok r → no_nul name → c ∈ comps_of r name →
  ∃ r1 l, _route_remove (set_log_sinks (tzap (r_log_sinks r) name) r) name c = Some r1 ∧
    c :: l ≡ₚ comps_of r name ∧ r_out r1 = r_out r ∧ kept r1 = kept r ∧ r_comps r1 = r_comps r ∧
    r_components r1 = r_components r ∧ r_default_route r1 = r_default_route r ∧ r_dead r1 = r_dead r ∧
    (∀ x, comps_of r1 x = if decide (x = name) then l else comps_of r x) ∧
    ∀ f d o, f = (λ comp : component, with_c_routes (tzap (c_routes comp) name) comp) →
      (∀ x, d = Some x → r_default_route r = Some x) →
      router_ok (set_out o (set_default_route d (upd_comp c f r1))).
Proof.
  intros Hr Hn Hc. set (r0 := set_log_sinks _ r).
  assert (routes_ok r0) as Hro by (destruct Hr as [[]]; by split).
  destruct (route_remove_spec r0 name c Hro Hn Hc) as (m & t & d & l & -> & Hro' & Hl & Hco). cbv zeta in *.
  eexists _, l. split_and!; try done. intros f d' o -> Hd'.
  eapply (unbound_ok r _ c name l); try done.
  - destruct Hro'; by split.
  - assert (NoDup (c :: l)) as Hnd.
    { rewrite Hl. change (comps_of r0 name) with (comps_of r name) in *.
      destruct (tmap (r_routes r) !! name) as [p|] eqn:Hp; [|rewrite comps_of_None in Hc by done; by apply elem_of_nil in Hc].
      destruct (ro_rt _ (ok_routes _ Hr) _ _ Hp) as (_ & rt & Hrt & _ & Hnd & _).
      by rewrite (comps_of_route _ _ _ _ Hp Hrt). }
    by apply NoDup_cons in Hnd as [? _].
Qed.

Definition unbind_outs r c n (name : string) : list out :=
  OWrite c (nad_set_attr n 0 (-1) "name" None 0) ::
    (if bool_decide (comps_of r name = []) then adverts r c (presence name true) else []).

Lemma unbind_spec r c n comp j :
  let name := jid_domain j in
  router_ok r → r_comps r !! c = Some comp → name_of n = Some j → name ≠ "" →
  if bool_decide (c ∈ comps_of r name) then
    ∃ r1 l, process_unbind r c n = Some (set_out (r_out r ++ unbind_outs r1 c n name) r1) ∧
      router_ok r1 ∧ r_out r1 = r_out r ∧ kept r1 = kept r ∧ c :: l ≡ₚ comps_of r name ∧
      r_comps r1 = alter (λ comp, with_c_routes (tzap (c_routes comp) name) comp) c (r_comps r) ∧
      ∀ x, comps_of r1 x = if decide (x = name) then l else comps_of r x
  else process_unbind r c n = Some (bounce r c n "404").
Proof.
  intros name Hr Hc Hj Hne. pose proof (name_of_no_nul _ _ Hj) as Hn. fold name in Hn.
  unfold _router_process_unbind. unfold get_comp. rewrite Hc. cbn [mbind option_bind]. rewrite Hj. fold name.
  rewrite tget_ok by (done || by eapply (ok_ctab r)).
  case_bool_decide as Hb.
  2: { destruct (tmap (c_routes comp) !! name) eqn:E; [|done]. destruct Hb. apply (ok_bound r Hr). exists comp. by rewrite E. }
  pose proof (proj1 (ok_bound r Hr name c) Hb) as (comp' & Hc' & [v Hv]). simplify_eq. rewrite Hv.
  destruct (leave_spec r c name Hr Hn Hb) as (r1 & l & -> & Hl & Eo & Ecf & Ec & _ & Edf & _ & Hco & Hok).
  cbn [mbind option_bind]. set (f := λ comp : component, _). set (r2 := upd_comp c f r1).
  destruct (drop_default_fields r2 name) as (d & -> & Hd). set (r3 := set_default_route d r2).
  assert (router_ok r3) as Hr3.
  { pose proof (Hok f d (r_out r3) eq_refl) as Hk. rewrite <- Edf in Hk. specialize (Hk Hd). by destruct r1. }
  set (w := OWrite c _). rewrite tget_route by (done || (eapply ok_routes; eapply only_out_ok; [apply only_out_emit|exact Hr3])).
  assert (tmap (r_routes (emit w r3)) !! name = None ↔ comps_of r3 name = []) as Hnone.
  { split; [apply (comps_of_None r3)|]. intros E. destruct (tmap (r_routes (emit w r3)) !! name) as [p|] eqn:Hp; [|done].
    by destruct (comps_of_nonempty r3 name p (ok_routes _ Hr3) Hp). }
  exists r3, l. split_and!; try done; [|by unfold r3, r2; cbn; rewrite Ec].
  unfold unbind_outs. fold w. change (r_out r) with (r_out r). rewrite <- Eo.
  destruct (tmap (r_routes (emit w r3)) !! name) as [p|] eqn:Hp.
  - rewrite bool_decide_false by (by rewrite <- Hnone). done.
  - rewrite bool_decide_true by (by apply Hnone).
    rewrite advertise_spec by (eapply only_out_ok; [apply only_out_emit|exact Hr3]).
    unfold emit. rewrite set_out_twice. do 2 f_equal. cbn. by rewrite <- app_assoc.
Qed.

(** ** Openings of old components *)

Definition open_refused r (req_to : string) : bool :=
  existsb (λ a, strcmp (al_name a) req_to =? 0)%Z (aliases (r_conf r)).

Lemma foldlM_no_open_alias r c name : no_alias r name → foldlM (open_alias c name) r (aliases (r_conf r)) = Some r.
Proof.
  unfold no_alias. intros Hal. induction Hal as [|a l Ha _ IH]; [done|].
  rewrite foldlM_cons. assert (open_alias c name r a = Some r) as -> by (unfold open_alias; by rewrite Ha). exact IH.
Qed.

Lemma open_spec r c comp name :
  router_ok r → r_comps r !! c = Some comp → c_legacy comp = true → s_req_to (c_s comp) = Some name →
  good_key name → no_alias r name → c ∉ comps_of r name →
  if open_refused r name
  then sx_event_open r c = Some (emit (OClose c) (emit (OError c stream_err_HOST_UNKNOWN) r))
  else ∃ r1, sx_event_open r c = Some (set_out (r_out r ++ adverts r1 c (presence name false)) r1) ∧
    router_ok r1 ∧ r_out r1 = r_out r ∧ kept r1 = kept r ∧
    r_comps r1 = alter (λ comp, with_c_routes (tput (c_routes comp) name c) comp) c (r_comps r) ∧
    ∀ x, comps_of r1 x = if decide (x = name) then comps_of r name ++ [c] else comps_of r x.
Proof.
  intros Hr Hc Hl Hq Hg Hal Hnew. unfold sx_event_open, get_comp. rewrite Hc. cbn [mbind option_bind].
  rewrite Hl, Hq. cbn [mbind option_bind]. fold (open_refused r name).
  destruct (open_refused r name); [done|].
  destruct (route_add_spec r name c route_MULTI_FROM (ok_routes _ Hr) Hg Hnew) as (m & t & f & -> & Hf & Hro & Hco).
  cbn [mbind option_bind]. cbv zeta in Hro, Hco. set (r1 := set_routes t _) in *. set (r2 := upd_comp c _ r1).
  assert (router_ok r2) as Hr2.
  { apply (bound_ok r r2 c name); try done; try apply Hg; first [by eexists|by left|by destruct Hro; split|auto]. }
  rewrite (advertise_spec _ _ _ _ Hr2). cbn [mbind option_bind].
  set (r3 := set_out _ r2). rewrite (foldlM_no_open_alias r3 c name Hal). by exists r2.
Qed.

(** ** Closed connections *)

Lemma walker_spec r c name :
  router_ok r → no_nul name → c ∈ comps_of r name →
  ∃ r1 l, _router_route_unbind_walker c r name = Some r1 ∧ router_ok r1 ∧ c :: l ≡ₚ comps_of r name ∧
    kept r1 = kept r ∧ r_components r1 = r_components r ∧ r_dead r1 = r_dead r ∧
    r_comps r1 = alter (λ comp, with_c_routes (tzap (c_routes comp) name) comp) c (r_comps r) ∧
    ∀ x, comps_of r1 x = if decide (x = name) then l else comps_of r x.
Proof.
  intros Hr Hn Hb. unfold _router_route_unbind_walker.
  destruct (leave_spec r c name Hr Hn Hb) as (r1 & l & -> & Hl & Eo & Ecf & Ec & Ecs & Edf & Edd & Hco & Hok).
  cbn [mbind option_bind]. set (f := λ comp : component, _). set (r2 := upd_comp c f r1).
  destruct (drop_default_fields r2 name) as (d & -> & Hd). set (r3 := set_default_route d r2).
  assert (router_ok r3) as Hr3.
  { pose proof (Hok f d (r_out r3) eq_refl) as Hk. rewrite <- Edf in Hk. specialize (Hk Hd). by destruct r1. }
  destruct (tget (r_routes r3) name).
  - exists r3, l. split_and!; try done. unfold r3, r2; cbn; by rewrite Ec.
  - rewrite advertise_spec by done. eexists _, l. split_and!; try done.
    + eapply only_out_ok; [|exact Hr3]. by eexists.
    + unfold r3, r2; cbn; by rewrite Ec.
Qed.

Lemma walkers_spec r c names :
  router_ok r → NoDup names → (∀ x, x ∈ names → no_nul x ∧ bound r c x) →
  ∃ r1, foldlM (_router_route_unbind_walker c) r names = Some r1 ∧ router_ok r1 ∧
    kept r1 = kept r ∧ r_components r1 = r_components r ∧
    (∀ d, d ≠ c → r_comps r1 !! d = r_comps r !! d) ∧
    (∀ x, bound r1 c x ↔ bound r c x ∧ x ∉ names) ∧
    (∀ comp1, r_comps r1 !! c = Some comp1 → ∃ comp, r_comps r !! c = Some comp ∧ c_ipport comp1 = c_ipport comp) ∧
    ∀ x d, d ≠ c → d ∈ comps_of r1 x ↔ d ∈ comps_of r x.
Proof.
  clear nodeprep nameprep resourceprep nameprep_cstr.
  intros Hr Hnd. revert r Hr. induction Hnd as [|name names Hni Hnd IH]; intros r Hr Hx.
  { exists r. rewrite foldlM_nil. split_and!; try done; [|by intros ? ->; eexists].
    intros x. split; [intros; split; [done|apply not_elem_of_nil]|by intros [? _]]. }
  destruct (Hx name) as [Hn Hb]; [left|]. apply (ok_bound _ Hr) in Hb.
  destruct (walker_spec r c name Hr Hn Hb) as (r1 & l & E1 & Hr1 & Hl & Ecf & Ecs & _ & Ec & Hco).
  assert (∀ x, bound r1 c x ↔ bound r c x ∧ x ≠ name) as Hb1.
  { intros x. rewrite <- (ok_bound _ Hr1), Hco, <- (ok_bound _ Hr). case_decide as E; [subst x|naive_solver].
    assert (c ∉ l) as Hcl; [|naive_solver].
    assert (NoDup (comps_of r name)) as Hndc.
    { unfold comps_of, route_of. destruct (tmap (r_routes r) !! name) as [p|] eqn:Hp; [|constructor].
      destruct (ro_rt _ (ok_routes _ Hr) _ _ Hp) as (_ & rt & Hrt & _ & Hndr & _). cbn. by rewrite Hrt. }
    rewrite <- Hl in Hndc. by apply NoDup_cons in Hndc as [? _]. }
  destruct (IH r1 Hr1) as (r2 & E2 & Hr2 & Ecf2 & Ecs2 & Ed2 & Hb2 & Hip2 & Hco2).
  { intros x Hxn. split; [apply Hx; by right|]. apply Hb1. split; [apply Hx; by right|]. by intros ->. }
  exists r2. rewrite foldlM_cons, E1. cbn [mbind option_bind]. split_and!; try done; try congruence.
  - intros d Hd. by rewrite Ed2, Ec, lookup_alter_ne by done.
  - intros x. rewrite Hb2, Hb1, not_elem_of_cons. naive_solver.
  - intros comp1 H1. destruct (Hip2 _ H1) as (comp & Hc & ->). rewrite Ec, lookup_alter_eq in Hc.
    destruct (r_comps r !! c) as [comp0|]; [|done]. exists comp0. by injection Hc as <-.
  - intros x d Hd. rewrite Hco2, Hco by done. case_decide as E; [subst x|done].
    rewrite <- Hl, elem_of_cons. naive_solver.
Qed.

(** The walk reached every name of the component. *)
Definition walk_complete (comp : @component T) : Prop :=
  ∀ x, is_Some (tmap (c_routes comp) !! x) → x ∈ (twalk_zap (c_routes comp)).2.

Lemma close_spec r c comp :
  router_ok r → r_comps r !! c = Some comp → walk_complete comp →
  ∃ r1, mio_close r c = Some r1 ∧ router_ok r1 ∧ kept r1 = kept r ∧
    r_comps r1 !! c = None ∧ (∀ d, d ≠ c → r_comps r1 !! d = r_comps r !! d) ∧
    ∀ x d, d ∈ comps_of r1 x ↔ d ∈ comps_of r x ∧ d ≠ c.
Proof.
  clear nodeprep nameprep resourceprep nameprep_cstr. intros Hr Hc Hw. unfold mio_close, get_comp. rewrite Hc. cbn [mbind option_bind].
  destruct (twalk_zap_ok (c_routes comp)) as (_ & Hnd & Hks & _); [by eapply (ok_ctab r)|].
  destruct (walkers_spec r c _ Hr Hnd) as (r1 & -> & Hr1 & Ecf & Ecs & Ed & Hb & Hip & Hco).
  { intros x [Hn Hx]%Hks. split; [done|]. by exists comp. }
  cbn [mbind option_bind]. set (r2 := set_comps _ _).
  assert (∀ x, ¬ bound r1 c x) as Hnb.
  { intros x [(cd & Hcd & Hx) Hni]%Hb. simplify_eq. by apply Hni, Hw. }
  assert (∀ d x, bound r2 d x ↔ bound r1 d x) as Hb2.
  { intros d x. unfold bound, r2. cbn. setoid_rewrite lookup_delete. split; [intros (cd & Hd & Hx)|intros (cd & Hd & Hx)].
    - case_decide; [done|]. by exists cd.
    - case_decide; [|by exists cd]. subst d. destruct (Hnb x). by exists cd. }
  destruct (tzap_ok (r_components r1) (c_ipport comp)) as [Htz Hmz]; [apply ok_components, Hr1|by eapply (ok_ip r)|].
  exists r2. split_and!; try done.
  - split; try apply Hr1; [by destruct (ok_routes _ Hr1); split|done|..].
    + intros d cd. unfold r2. cbn. intros [_ Hd]%lookup_delete_Some. by eapply (ok_ctab _ Hr1).
    + intros x d. rewrite Hb2. apply (ok_bound _ Hr1).
    + intros x d Hx. rewrite Hb2. by apply (ok_sink _ Hr1).
    + intros k d. unfold r2. cbn. rewrite Hmz. intros [Hk Hkd]%lookup_delete_Some.
      destruct (ok_live _ Hr1 _ _ Hkd) as (cd & Hd & Hipd). exists cd. split; [|done].
      rewrite lookup_delete_ne; [done|]. intros <-. destruct (Hip _ Hd) as (comp' & Hc' & E). simplify_eq.
    + intros d cd. unfold r2. cbn. intros [_ Hd]%lookup_delete_Some. by eapply (ok_cfresh _ Hr1).
    + intros d cd. unfold r2. cbn. intros [_ Hd]%lookup_delete_Some. by eapply (ok_ip _ Hr1).
    + intros d cd. unfold r2. cbn. intros [_ Hd]%lookup_delete_Some. by eapply (ok_queue _ Hr1).
  - unfold r2. cbn. by rewrite lookup_delete_eq.
  - intros d Hd. unfold r2. cbn. rewrite lookup_delete_ne by done. by apply Ed.
  - intros x d. change (comps_of r2 x) with (comps_of r1 x). destruct (decide (d = c)) as [->|Hd].
    + rewrite (ok_bound _ Hr1). naive_solver.
    + rewrite Hco by done. naive_solver.
Qed.
End bind.
