(* ===== verification/RouterRoute.v ===== *)
(** * Routing packets

    Delivery to a component, routes to one and to all, and throttling.
    [quiet] relates two states that differ only in what is sent or queued, in
    the filter's dumps and in the position of an iterator: routing leaves the
    tables alone.  The lemmas say that routing never follows a dangling pointer
    and where a packet goes. *)
From S2P Require Import Prelude.
From S2P Require Import CStr.
From S2P Require Import DList.
From S2P Require Import JQueue.
From S2P Require Import Rate.
From S2P Require Import Codec.
From S2P Require Import Access.
From S2P Require Import Jid.
From S2P Require Import Nad.
From S2P Require Import Table.
From S2P Require Import Stanza.
From S2P Require Import Filter.
From S2P Require Import Router.
From S2P Require Import RouterInv.
From S2P Require Import RouterBind.

Section route.
Context {T : Type → Type} `{TableLaws T}.
Context (nodeprep nameprep resourceprep : string → option string).
Context (nameprep_cstr : ∀ s d, nameprep s = Some d → no_nul d).
Context (shahash_raw : string → list Z).
Context (fnmatch : string → string → bool) (can_open : string → bool).
Implicit Types (r : @router T) (c : loc) (n : nad).

Notation reset_jid := (reset_jid nodeprep nameprep resourceprep).
Notation route_dest := (route_dest nodeprep nameprep resourceprep shahash_raw).
Notation route_key := (route_key nodeprep nameprep resourceprep).
Notation log_message := (log_message nodeprep nameprep resourceprep can_open).
Notation route_filter := (route_filter nodeprep nameprep resourceprep fnmatch can_open).
Notation route_unicast := (route_unicast nodeprep nameprep resourceprep shahash_raw fnmatch can_open).

(** ** Quiet changes *)

(** A component apart from its queue of throttled packets. *)
Definition core (comp : @component T) : component := with_c_tq None comp.

Definition queues_ok r : Prop := ∀ c comp, r_comps r !! c = Some comp → queue_ok comp.

Record quiet r r' : Prop := {
  qu_conf : r_conf r' = r_conf r;
  qu_comps : ∀ c, core <$> r_comps r' !! c = core <$> r_comps r !! c;
  qu_rts : r_rts r' = r_rts r;
  qu_fresh : r_fresh r' = r_fresh r;
  qu_components : tok (r_components r) → tok (r_components r') ∧ tmap (r_components r') = tmap (r_components r);
  qu_routes : r_routes r' = r_routes r;
  qu_sinks : r_log_sinks r' = r_log_sinks r;
  qu_default : r_default_route r' = r_default_route r;
  qu_dead : r_deadroutes r' = r_deadroutes r;
  qu_rates : r_conn_rates r' = r_conn_rates r ∧ r_rates r' = r_rates r;
  qu_filter : filter_codes r → filter_codes r';
  qu_queues : queues_ok r → queues_ok r'
}.

Lemma quiet_refl r : quiet r r.
Proof. by split. Qed.
Lemma quiet_trans r1 r2 r3 : quiet r1 r2 → quiet r2 r3 → quiet r1 r3.
Proof.
  intros [] []. split; try congruence; try (intros; by auto).
  2: { destruct qu_rates0, qu_rates1. split; congruence. }
  intros Ht. destruct qu_components0 as [? E1]; [done|]. destruct qu_components1 as [? E2]; [done|].
  split; [done|congruence].
Qed.
Lemma only_out_quiet r r' : only_out r r' → quiet r r'.
Proof. intros [l ->]. by split. Qed.

Lemma core_routes comp comp' : core comp' = core comp → c_routes comp' = c_routes comp.
Proof. intros E. exact (f_equal c_routes E). Qed.

Lemma quiet_lookup r r' c comp : quiet r r' → r_comps r !! c = Some comp →
  ∃ comp', r_comps r' !! c = Some comp' ∧ core comp' = core comp.
Proof.
  intros Q Hc. pose proof (qu_comps _ _ Q c) as E. rewrite Hc in E.
  destruct (r_comps r' !! c) as [comp'|]; [|done]. exists comp'. split; [done|]. exact (inj Some _ _ E).
Qed.
Lemma quiet_live r r' c : quiet r r' → live r c → live r' c.
Proof. intros Q [comp Hc]. destruct (quiet_lookup _ _ _ _ Q Hc) as (comp' & Hc' & _). by exists comp'. Qed.
Lemma quiet_sym_lookup r r' c comp' : quiet r r' → r_comps r' !! c = Some comp' →
  ∃ comp, r_comps r !! c = Some comp ∧ core comp' = core comp.
Proof.
  intros Q Hc. pose proof (qu_comps _ _ Q c) as E. rewrite Hc in E.
  destruct (r_comps r !! c) as [comp|]; [|done]. exists comp. split; [done|]. exact (inj Some _ _ E).
Qed.

Lemma quiet_comps_of r r' x : quiet r r' → comps_of r' x = comps_of r x.
Proof. intros Q. unfold comps_of, route_of. by rewrite (qu_routes _ _ Q), (qu_rts _ _ Q). Qed.

Lemma quiet_bound r r' c x : quiet r r' → bound r' c x ↔ bound r c x.
Proof.
  intros Q. split; intros (comp & Hc & Hx).
  - destruct (quiet_sym_lookup _ _ _ _ Q Hc) as (comp0 & Hc0 & E). exists comp0.
    by rewrite <- (core_routes _ _ E).
  - destruct (quiet_lookup _ _ _ _ Q Hc) as (comp0 & Hc0 & E). exists comp0. by rewrite (core_routes _ _ E).
Qed.

Lemma quiet_ok r r' : quiet r r' → router_ok r → router_ok r'.
Proof.
  intros Q Hr. pose proof (ok_routes _ Hr) as [R1 R2 R3 R4].
  destruct (qu_components _ _ Q (ok_components _ Hr)) as [Ht Hm]. split.
  - split; rewrite ?(qu_routes _ _ Q), ?(qu_rts _ _ Q), ?(qu_fresh _ _ Q), ?(qu_dead _ _ Q); done.
  - rewrite (qu_sinks _ _ Q). apply Hr.
  - done.
  - intros c comp Hc. destruct (quiet_sym_lookup _ _ _ _ Q Hc) as (comp0 & Hc0 & E).
    rewrite (core_routes _ _ E). by eapply (ok_ctab r).
  - intros x c. rewrite (quiet_comps_of _ _ _ Q), (quiet_bound _ _ _ _ Q). apply Hr.
  - intros x c. rewrite (qu_sinks _ _ Q), (quiet_bound _ _ _ _ Q). apply Hr.
  - intros k c. rewrite Hm. intros (comp & Hc & E)%(ok_live _ Hr).
    destruct (quiet_lookup _ _ _ _ Q Hc) as (comp0 & Hc0 & Ec). exists comp0. split; [done|].
    rewrite <- E. exact (f_equal c_ipport Ec).
  - intros c comp Hc. rewrite (qu_fresh _ _ Q). destruct (quiet_sym_lookup _ _ _ _ Q Hc) as (comp0 & Hc0 & _).
    by eapply (ok_cfresh r).
  - intros c comp Hc. destruct (quiet_sym_lookup _ _ _ _ Q Hc) as (comp0 & Hc0 & E).
    change (no_nul (c_ipport (core comp))). rewrite E. exact (ok_ip r Hr _ _ Hc0).
  - apply (qu_queues _ _ Q). exact (ok_queue _ Hr).
  - destruct (qu_rates _ _ Q) as [-> ->]. apply Hr.
  - apply (qu_filter _ _ Q), Hr.
  - rewrite (qu_default _ _ Q). apply Hr.
Qed.

(** ** Delivery *)

Lemma stanza_error_some n err : (stanza_err_BAD_REQUEST <= err < stanza_err_LAST)%Z → is_Some (stanza_error n 1 err).
Proof.
  intros [H1 H2]. unfold stanza_error.
  rewrite (proj2 (Z.leb_le _ _) H1), (proj2 (Z.ltb_lt _ _) H2). cbn [andb].
  change (0 <=? 1)%Z with true. cbn [andb]. destruct (nad_insert_elem _ _ _ _ _) as [n1 e]. by eexists.
Qed.

Lemma quiet_tq r c q :
  (queues_ok r → ∀ q', q = Some q' → ∃ l, fifo_rep q' l) → quiet r (upd_comp c (with_c_tq q) r).
Proof.
  intros Hq. split; try done.
  - intros d. cbn. rewrite lookup_alter. case_decide; [|done]. subst d. by destruct (r_comps r !! c).
  - intros Hok d cd. cbn. rewrite lookup_alter. case_decide; [|by apply Hok]. subst d.
    destruct (r_comps r !! c) as [comp|]; [|done]. intros [= <-] q' E. by apply Hq.
Qed.

Lemma comp_write_spec r c n : live r c → ∃ r', _router_comp_write r c n = Some r' ∧ quiet r r'.
Proof.
  intros [comp Hc]. unfold _router_comp_write, get_comp. rewrite Hc. cbn [mbind option_bind].
  destruct (c_tq comp) as [tq|] eqn:Eq.
  - eexists. split; [done|]. apply quiet_tq. intros Hok q' [= <-]. destruct (Hok _ _ Hc tq Eq) as [l Hl].
    eexists. by apply fifo_push.
  - destruct (c_legacy comp); cbn [negb]; [|eexists; split; [done|apply only_out_quiet, only_out_emit]].
    destruct (attr_value n 0 "error") as [v|]; cbn [mbind option_bind].
    + destruct (stanza_error_some n (if bool_decide (v = tx "400") then stanza_err_BAD_REQUEST else stanza_err_SERVICE_UNAVAILABLE)) as [n' En'].
      { case_bool_decide; done. }
      rewrite En'. cbn. eexists. split; [done|apply only_out_quiet, only_out_emit].
    + eexists. split; [done|apply only_out_quiet, only_out_emit].
Qed.

Lemma foldlM_quiet {A} (f : @router T → A → option router) r l :
  (∀ a r1, a ∈ l → quiet r r1 → ∃ r2, f r1 a = Some r2 ∧ quiet r1 r2) →
  ∃ r', foldlM f r l = Some r' ∧ quiet r r'.
Proof.
  intros Hf. assert (∀ r1, quiet r r1 → ∃ r', foldlM f r1 l = Some r' ∧ quiet r1 r') as Hgen;
    [|apply Hgen, quiet_refl].
  induction l as [|a l IH]; intros r1 Q1; [exists r1; split; [done|apply quiet_refl]|].
  destruct (Hf a r1) as (r2 & E & Q2); [by left|done|]. rewrite foldlM_cons, E. cbn [mbind option_bind].
  destruct (IH) with (r1 := r2) as (r3 & E3 & Q3).
  - intros b r4 Hb. apply Hf. by right.
  - by eapply quiet_trans.
  - exists r3. split; [done|by eapply quiet_trans].
Qed.

Lemma reply_error_spec r c n code : live r c → ∃ r', reply_error r c n code = Some r' ∧ quiet r r'.
Proof. intros Hl. by apply comp_write_spec. Qed.

Lemma log_sinks_spec r n : router_ok r →
  ∃ r', foldlM (λ r kv, _router_route_log_sink r kv.2 n) r (twalk (r_log_sinks r)) = Some r' ∧ quiet r r'.
Proof.
  intros Hr. apply foldlM_quiet. intros [k c] r1 Hk Q. cbn [snd]. apply comp_write_spec.
  apply (quiet_live r); [done|]. apply elem_of_twalk in Hk; [|apply Hr].
  destruct (ok_sink _ Hr _ _ Hk) as (comp & Hc & _). by eexists.
Qed.

Lemma log_message_quiet r n : quiet r (log_message r n).1.
Proof.
  unfold Router.log_message. destruct (_ && _); [|apply quiet_refl].
  destruct (message_addrs _ _ _ n) as [[from to]|]; [|apply quiet_refl]. unfold message_log.
  destruct (_ =? -1)%Z; [apply quiet_refl|]. destruct (message_logging_file _); [|apply quiet_refl].
  destruct (can_open _); [|apply quiet_refl]. apply only_out_quiet, only_out_emit.
Qed.

(** ** Choosing a component *)

(** A jid whose hash can be taken: [jid_user] gives NULL without a domain. *)
Definition hashable (j : jid) : Prop := jid_node j = "" ∨ is_Some (jid_user j).2.

Lemma reset_jid_hashable t j : reset_jid t = Some j → jid_domain j ≠ "" → hashable j.
Proof.
  unfold Router.reset_jid. intros E Hd. right.
  assert (jid_dirty j = true) as Hdirty.
  { destruct (jid_reset _ _ _ _ _ _) as [j'| |] eqn:Er; [|done..]. injection E as ->.
    unfold jid_reset in Er. destruct (reset_buf _ _) as [buf|]; [|done]. destruct (_ || _); [done|].
    destruct (split_id _) as [[[a b] d]|]; [|done].
    destruct (jid_prep _ _ _ _) as [jp| |] eqn:Ep; [|done|done].
    apply (f_equal (λ q : jres, match q with JOk j => jid_dirty j | _ => true end)) in Er. rewrite <- Er.
    unfold jid_prep in Ep. destruct (jid_prep_pieces _ _ _ _ _ _) as [[[n' d'] r']|]; [|done].
    unfold reset_components_raw in Ep. destruct (reset_buf _ _); [|done].
    by apply (f_equal (λ q : jres, match q with JOk j => jid_dirty j | _ => true end)) in Ep as <-. }
  unfold jid_user, jid_expand. rewrite Hdirty. cbn [negb andb]. rewrite bool_decide_false by done. by eexists.
Qed.

(** One component, or an address that is not NULL. *)
Lemma route_dest_some n rt to rand :
  length (rt_comp rt) = 1 ∨ (∃ k, (route_key n (rt_rtype rt) to).1 = Some k ∧ hashable k) →
  is_Some (route_dest n rt to rand).
Proof.
  unfold Router.route_dest. intros [E|(k & E & Hk)]; [by rewrite bool_decide_true by done|].
  case_bool_decide; [done|]. destruct (Router.route_key _ _ _ n (rt_rtype rt) to) as [to' n1]. cbn in E. subst to'.
  cbn [mbind option_bind]. destruct Hk as [Hk|[u Hu]]; [by rewrite bool_decide_true by done|].
  case_bool_decide; [done|]. rewrite Hu. done.
Qed.

(** The index chosen is in range, whatever the hash or the random number. *)
Lemma route_dest_range n rt to rand dest n' :
  rt_comp rt ≠ [] → route_dest n rt to rand = Some (dest, n') → dest < length (rt_comp rt).
Proof.
  intros Hne. unfold Router.route_dest. case_bool_decide as E; [intros [= <- _]; lia|].
  destruct (Router.route_key _ _ _ n (rt_rtype rt) to) as [[to'|] n1]; [|done]. cbn [mbind option_bind].
  intros Hd. apply bind_Some in Hd as (d & _ & Hd). injection Hd as <- _.
  assert (0 < length (rt_comp rt)) by (destruct (rt_comp rt); [done|cbn; lia]).
  pose proof (Z.mod_pos_bound d (Z.of_nat (length (rt_comp rt)))). lia.
Qed.

(** ** Routes to one component *)

Lemma filter_loop_errors rules n from to :
  acl_error <$> (filter_loop fnmatch can_open rules n from to).1.1.1 = acl_error <$> rules.
Proof.
  induction rules as [|a rules IH]; cbn [filter_loop]; [done|]. destruct (rule_match _ n from to a).
  - assert (acl_error (apply_rule can_open a n).1.1 = acl_error a) as Ha.
    { unfold apply_rule. destruct (acl_dump a) as [f|]; [destruct (can_open f); [destruct (nad_print n 1)|]|]; done. }
    destruct (apply_rule can_open a n) as [[a' n'] d]. cbn in *. by rewrite Ha.
  - destruct (filter_loop _ _ rules n from to) as [[[rs n'] e'] d]. cbn in *. by rewrite IH.
Qed.

Lemma route_filter_quiet r n to : quiet r (route_filter r n to).1.1.
Proof.
  unfold Router.route_filter. destruct (r_filter r) as [|a l] eqn:Er; [apply quiet_refl|].
  pose proof (filter_loop_errors (a :: l) n (packet_addr n "from") (packet_addr n "to")) as He. unfold filter_packet.
  destruct (filter_loop _ _ _ _ _ _) as [[[rules n1] ret] dump] eqn:Ef. cbn [fst] in He.
  assert (∀ o, quiet r (set_out o (set_filter rules r))) as Q; [|destruct (ret =? _)%Z; [|destruct (0 <? ret)%Z]; apply Q].
  intros o. split; try done. intros Hf. unfold filter_codes in *. cbn.
  set (P := λ e, (e = 0 ∨ stanza_err_BAD_REQUEST <= e < stanza_err_LAST)%Z).
  apply (Forall_fmap acl_error P). rewrite He, <- Er. by apply (Forall_fmap acl_error P).
Qed.

Lemma filter_loop_error rules n from to e :
  (filter_loop fnmatch can_open rules n from to).1.2 = e →
  e = 0%Z ∨ ∃ a, a ∈ rules ∧ acl_error a = e.
Proof.
  revert e. induction rules as [|a rules IH]; cbn [filter_loop]; intros e He; [by left|].
  destruct (rule_match _ n from to a).
  - assert (∀ x, acl_error (apply_rule can_open a x).1.1 = acl_error a) as Hap.
    { intros x. unfold apply_rule. destruct (acl_dump a) as [f|]; [destruct (can_open f); [destruct (nad_print x 1)|]|]; done. }
    specialize (Hap n). destruct (apply_rule can_open a n) as [[a' n'] d]. cbn in *. right. exists a.
    split; [by left|congruence].
  - destruct (filter_loop _ _ rules n from to) as [[[rs n'] e'] d]. cbn in *.
    destruct (IH e He) as [->|(b & Hb & <-)]; [by left|]. right. exists b. split; [by right|done].
Qed.

Lemma stanza_err_code e : (stanza_err_BAD_REQUEST <= e < stanza_err_LAST)%Z → is_Some (se_code (stanza_err e)).
Proof.
  unfold stanza_err, stanza_err_BAD_REQUEST, stanza_err_LAST. intros He.
  assert (Z.to_nat (e - 100) < 23) as Hk by lia.
  assert (∀ k, k < 23 → is_Some (se_code (nth k _stanza_errors (StanzaErr None None None)))) as Hall; [|by apply Hall].
  intros k Hlt. do 23 (destruct k as [|k]; [by eexists|]). lia.
Qed.

(** The error of a packet that the filter refuses has a code. *)
Lemma route_filter_code r n to ret : filter_codes r → (route_filter r n to).2 = inl ret → is_Some (se_code (stanza_err ret)).
Proof.
  intros Hcodes. unfold Router.route_filter. unfold filter_codes in Hcodes. rewrite Forall_forall in Hcodes.
  destruct (r_filter r) as [|a l]; [done|]. pose proof (filter_loop_error (a :: l) n (packet_addr n "from") (packet_addr n "to")) as He.
  unfold filter_packet. destruct (filter_loop _ _ _ _ _ _) as [[[rules n1] e] dump]. cbn [fst snd] in He.
  destruct (e =? _)%Z; [done|]. destruct (Z.ltb_spec 0 e); [|done]. intros [= <-].
  apply stanza_err_code. destruct (He e eq_refl) as [->|(b & Hb' & <-)]; [lia|].
  destruct (Hcodes b Hb') as [E|E]; [lia|done].
Qed.

(** Where a packet that is delivered may go: the name it is addressed to, or
    the default route when nobody has that name. *)
Definition route_name r (from to : jid) (name : string) : Prop :=
  name = jid_domain to ∨
  (comps_of r (jid_domain to) = [] ∧ r_default_route r = Some name ∧ jid_domain from ≠ name).

Lemma find_targets_spec r from to :
  router_ok r → no_nul (jid_domain to) → no_nul (jid_domain from) →
  (∀ d, r_default_route r = Some d → no_nul d) →
  match find_targets r from to with
  | Some p => ∃ name rt, tmap (r_routes r) !! name = Some p ∧ r_rts r !! p = Some rt ∧ route_name r from to name
  | None => comps_of r (jid_domain to) = [] ∧
      ∀ d, r_default_route r = Some d → jid_domain from = d ∨ comps_of r d = []
  end.
Proof.
  intros Hr Hto Hfrom Hdef. unfold find_targets. rewrite tget_route by (done || apply Hr).
  destruct (tmap (r_routes r) !! jid_domain to) as [p|] eqn:Hp.
  - destruct (ro_rt _ (ok_routes _ Hr) _ _ Hp) as (_ & rt & Hrt & _). exists (jid_domain to), rt.
    split_and!; [done|done|by left].
  - pose proof (comps_of_None _ _ Hp) as Hnone. destruct (r_default_route r) as [d|] eqn:Ed; [|by split].
    specialize (Hdef d eq_refl). destruct (Z.eqb_spec (strcmp (jid_domain from) d) 0) as [Es|Es].
    + apply strcmp_eq in Es; [|done..]. split; [done|]. intros d' [= <-]. by left.
    + rewrite tget_route by (done || apply Hr). destruct (tmap (r_routes r) !! d) as [p|] eqn:Hpd.
      * destruct (ro_rt _ (ok_routes _ Hr) _ _ Hpd) as (_ & rt & Hrt & _). exists d, rt.
        split_and!; [done|done|]. right. split_and!; [done|done|]. intros E. apply Es. by apply strcmp_eq.
      * split; [done|]. intros d' [= <-]. right. by apply comps_of_None.
Qed.

(** What a unicast packet that the router took does: an error back to its
    sender, or a delivery on behalf of a name bound to the sender. *)
Inductive outcome r c (from to : jid) (r' : router) : Prop :=
  | out_reply r1 n1 code : quiet r r1 → reply_error r1 c n1 code = Some r' → outcome r c from to r'
  | out_sent r1 n1 to' name target :
      bound r c (jid_domain from) → quiet r r1 →
      (r_filter r = [] → to' = to) → route_name r from to' name → target ∈ comps_of r name →
      _router_comp_write r1 target n1 = Some r' → outcome r c from to r'.

(** The packet has a usable address once the filter let it through. *)
Definition addressable r n (from to : jid) (rand : Z) : Prop :=
  let '(r1, n1, f) := route_filter r n to in
  match f with
  | inl _ => True
  | inr None => False
  | inr (Some to1) =>
    no_nul (jid_domain to1) ∧
    ∀ p rt, find_targets r1 from to1 = Some p → r_rts r1 !! p = Some rt → is_Some (route_dest n1 rt to1 rand)
  end.

Lemma route_unicast_spec r c n from to rand :
  router_ok r → live r c → filter_codes r → no_nul (jid_domain from) →
  (∀ d, r_default_route r = Some d → no_nul d) → addressable r n from to rand →
  ∃ r', route_unicast r c n (Some from) (Some to) rand = Some r' ∧ quiet r r' ∧ outcome r c from to r'.
Proof.
  intros Hr [comp Hc] Hcodes Hfrom Hdef Ha. unfold Router.route_unicast, get_comp. rewrite Hc. cbn [mbind option_bind].
  destruct (tget (c_routes comp) (jid_domain from)) as [v|] eqn:Ev.
  2: { destruct (reply_error_spec r c n "401") as (r' & E & Q); [by eexists|]. exists r'. split_and!; [done|done|].
    eapply out_reply; [apply quiet_refl|exact E]. }
  assert (bound r c (jid_domain from)) as Hb.
  { exists comp. split; [done|]. destruct (decide (jid_domain from = "")) as [E0|E0]; [by rewrite E0, tget_empty in Ev|].
    rewrite tget_ok in Ev by (done || by eapply (ok_ctab r)). by eexists. }
  pose proof (route_filter_quiet r n to) as Qf. unfold addressable in Ha.
  assert (r_filter r = [] → route_filter r n to = (r, n, inr (Some to))) as Hnf.
  { intros E. unfold Router.route_filter. by rewrite E. }
  pose proof (route_filter_code r n to) as Hret.
  destruct (route_filter r n to) as [[r1 n1] [ret|[to1|]]] eqn:Ef; [| |done]; cbn [fst snd] in Qf, Hret.
  { destruct (Hret ret Hcodes eq_refl) as [code ->]. cbn [mbind option_bind].
    destruct (reply_error_spec r1 c n1 code) as (r' & E & Q); [eapply quiet_live; [done|by eexists]|].
    exists r'. split_and!; [done|by eapply quiet_trans|]. by eapply out_reply. }
  destruct Ha as [Hto Hdest]. pose proof (quiet_ok _ _ Qf Hr) as Hr1.
  pose proof (find_targets_spec r1 from to1 Hr1 Hto Hfrom) as Hft. rewrite (qu_default _ _ Qf) in Hft. specialize (Hft Hdef).
  destruct (find_targets r1 from to1) as [p|].
  2: { destruct (reply_error_spec r1 c n1 "404") as (r' & E & Q); [eapply quiet_live; [done|by eexists]|].
    exists r'. split_and!; [done|by eapply quiet_trans|]. by eapply out_reply. }
  destruct Hft as (name & rt & Hp & Hrt & Hname). rewrite Hrt. cbn [mbind option_bind].
  destruct (log_sinks_spec r1 n1 Hr1) as (r2 & -> & Q2). cbn [mbind option_bind].
  destruct (Hdest p rt eq_refl Hrt) as [[dest n2] Ed]. rewrite Ed. cbn [mbind option_bind].
  destruct (ro_rt _ (ok_routes _ Hr1) _ _ Hp) as (_ & rt' & Hrt' & _ & _ & Hne). simplify_eq.
  destruct (lookup_lt_is_Some_2 _ _ (route_dest_range _ _ _ _ _ _ Hne Ed)) as [target Htg]. rewrite Htg. cbn [mbind option_bind].
  assert (target ∈ comps_of r1 name) as Hin.
  { rewrite (comps_of_route _ _ _ _ Hp Hrt). by eapply list_elem_of_lookup_2. }
  pose proof (log_message_quiet r2 n2) as Q3. destruct (log_message r2 n2) as [r3 n3]. cbn [fst] in Q3.
  pose proof (quiet_trans _ _ _ Qf (quiet_trans _ _ _ Q2 Q3)) as Q13.
  destruct (comp_write_spec r3 target n3) as (r' & E & Q4).
  { eapply quiet_live; [exact (quiet_trans _ _ _ Q2 Q3)|]. by eapply ok_live_bound. }
  exists r'. split_and!; [done|by eapply quiet_trans|].
  rewrite (quiet_comps_of _ _ _ Qf) in Hin.
  apply (out_sent r c from to r' r3 n3 to1 name target); try done.
  - intros E0. specialize (Hnf E0). by injection Hnf.
  - destruct Hname as [->|(E1 & E2 & E3)]; [by left|right].
    rewrite (quiet_comps_of _ _ _ Qf) in E1. rewrite (qu_default _ _ Qf) in E2. done.
Qed.

(** ** Routes to all *)

Lemma route_broadcast_spec r c n from :
  router_ok r → live r c →
  ∃ r', route_broadcast r c n from = Some r' ∧ quiet r r'.
Proof.
  intros Hr [comp Hc]. unfold route_broadcast, get_comp. rewrite Hc. cbn [mbind option_bind].
  assert (live r c) as Hl by by eexists.
  destruct from as [from|]; [|by apply reply_error_spec].
  destruct (tget (c_routes comp) (jid_domain from)); [|by apply reply_error_spec].
  destruct (titer_ok (r_components r)) as (Ht & Hm & Hp); [apply Hr|].
  destruct (titer (r_components r)) as [t l] eqn:Et. cbn [fst snd] in *.
  assert (quiet r (set_components t r)) as Q by by split.
  destruct (foldlM_quiet (λ r kv, if bool_decide (kv.2 = c) then Some r else _router_comp_write r kv.2 (nad_copy n))
    (set_components t r) l) as (r' & E & Q').
  { intros [k d] r1 Hk Q1. cbn [snd]. case_bool_decide; [exists r1; split; [done|apply quiet_refl]|].
    apply comp_write_spec. apply (quiet_live r); [by eapply quiet_trans|].
    rewrite Hp in Hk. apply elem_of_twalk in Hk; [|apply Hr].
    destruct (ok_live _ Hr _ _ Hk) as (cd & Hd & _). by eexists. }
  exists r'. split; [exact E|by eapply quiet_trans].
Qed.

Lemma throttle_spec r c n now :
  live r c → ∃ r', _router_process_throttle r c n now = Some r' ∧ quiet r r'.
Proof.
  intros [comp Hc]. unfold _router_process_throttle, get_comp. rewrite Hc. cbn [mbind option_bind].
  destruct (c_tq comp) as [tq|].
  - set (r1 := upd_comp c _ r). assert (quiet r r1) as Q1 by by apply quiet_tq.
    assert (live r1 c) as Hl1 by (eapply quiet_live; [done|by eexists]).
    destruct (comp_write_spec r1 c n Hl1) as (r2 & -> & Q2). cbn [mbind option_bind].
    destruct (foldlM_quiet (λ r n, _router_comp_write r c n) r2 (drain (S (size (q_heap tq))) tq)) as (r3 & E3 & Q3).
    { intros m r4 _ Q4. apply comp_write_spec. eapply quiet_live; [done|]. by eapply quiet_live. }
    exists r3. split; [done|]. eapply quiet_trans; [exact Q1|]. by eapply quiet_trans.
  - destruct (comp_write_spec r c n) as (r2 & -> & Q2); [by eexists|]. cbn [mbind option_bind].
    eexists. split; [done|]. eapply quiet_trans; [exact Q2|]. apply quiet_tq. intros _ q' [= <-].
    exists []. apply fifo_new.
Qed.
End route.

(** ** What a component gets *)

Section inbox.
Context {T : Type → Type} `{TableLaws T}.
Implicit Types (r : @router T) (c : loc) (n : nad).

(** The packets written to the stream of a component, and those it waits for. *)
Definition written r c : list nad :=
  omap (λ o, match o with
             | OWrite d n | OWriteElem d n _ => if bool_decide (d = c) then Some n else None
             | _ => None end) (r_out r).
Definition pending r c : list nad :=
  match r_comps r !! c ≫= c_tq with Some q => drain (S (size (q_heap q))) q | None => [] end.
(** All it got or will get when it unthrottles, in order. *)
Definition inbox r c : list nad := written r c ++ pending r c.

(** The component is there, and gets the packet as it is: an old component is
    sent a stanza error in the place of a packet that came back. *)
Definition takes r c n : Prop :=
  ∃ comp, r_comps r !! c = Some comp ∧ (c_legacy comp = false ∨ attr_value n 0 "error" = None).

Lemma quiet_takes r r' c n : quiet r r' → takes r c n → takes r' c n.
Proof.
  intros Q (comp & Hc & Hl). destruct (quiet_lookup _ _ _ _ Q Hc) as (comp' & Hc' & E). exists comp'. split; [done|].
  by rewrite (f_equal c_legacy E : c_legacy comp' = c_legacy comp).
Qed.
Lemma takes_live r c n : takes r c n → live r c.
Proof. intros (comp & Hc & _). by eexists. Qed.

Lemma pending_rep r c comp q l : r_comps r !! c = Some comp → c_tq comp = Some q → fifo_rep q l → pending r c = l.
Proof.
  intros Hc Hq Hl. unfold pending. rewrite Hc. cbn [mbind option_bind]. rewrite Hq.
  apply (fifo_drain q l); [done|by apply fifo_fuel].
Qed.

Lemma written_emit r c o : written (emit o r) c =
  written r c ++ match o with OWrite d n | OWriteElem d n _ => if bool_decide (d = c) then [n] else [] | _ => [] end.
Proof. unfold written. cbn. rewrite omap_app. f_equal. destruct o; cbn; try done; by case_bool_decide. Qed.

(** A packet for a component reaches its inbox, at the end, and nobody else's. *)
Lemma comp_write_inbox r c n :
  queues_ok r → takes r c n →
  ∃ r', _router_comp_write r c n = Some r' ∧ quiet r r' ∧
    ∀ d, inbox r' d = inbox r d ++ (if bool_decide (c = d) then [n] else []).
Proof.
  intros Hq Ht. destruct (comp_write_spec r c n (takes_live _ _ _ Ht)) as (r' & E & Q). exists r'. split_and!; [done|done|].
  destruct Ht as (comp & Hc & Hl). revert E. unfold _router_comp_write, get_comp. rewrite Hc. cbn [mbind option_bind].
  destruct (c_tq comp) as [tq|] eqn:Eq.
  - intros [= <-]. destruct (Hq c comp Hc tq Eq) as [l Hrep]. pose proof (fifo_push tq l n Hrep) as Hrep'.
    set (r1 := upd_comp _ _ r). assert (r_comps r1 !! c = Some (with_c_tq (Some (jqueue_push tq n 0)) comp)) as Hc1.
    { cbn. by rewrite lookup_alter_eq, Hc. }
    intros d. unfold inbox. change (written r1 d) with (written r d). rewrite <- app_assoc. f_equal.
    case_bool_decide as Ed; [subst d|unfold pending; unfold r1; cbn; by rewrite lookup_alter_ne, app_nil_r].
    rewrite (pending_rep _ _ _ _ _ Hc1 eq_refl Hrep'). by rewrite (pending_rep _ _ _ _ _ Hc Eq Hrep).
  - assert (∀ o, (∃ k, o = OWriteElem c n k) ∨ o = OWrite c n → ∀ d, inbox (emit o r) d = inbox r d ++ (if bool_decide (c = d) then [n] else [])) as Hout.
    { intros o Ho d. unfold inbox. rewrite written_emit. change (pending (emit _ r) d) with (pending r d).
      assert (match o with OWrite d' n | OWriteElem d' n _ => if bool_decide (d' = d) then [n] else [] | _ => [] end =
        if bool_decide (c = d) then [n] else []) as -> by (by destruct Ho as [[k ->]| ->]).
      rewrite <- !app_assoc. f_equal. case_bool_decide as Ed; [|by rewrite app_nil_r].
      subst d. unfold pending. rewrite Hc. cbn [mbind option_bind]. by rewrite Eq. }
    destruct (c_legacy comp); cbn [negb]; [|intros [= <-]; apply Hout; by right].
    destruct Hl as [?|Hl]; [done|]. rewrite Hl. cbn [mbind option_bind]. intros [= <-]. apply Hout. left. by exists 1%Z.
Qed.

(** A run of deliveries. *)
Lemma writes_inbox {A} (g : A → option (loc * nad)) (f : @router T → A → option router) r (l : list A) :
  (∀ r a, f r a = match g a with Some p => _router_comp_write r p.1 p.2 | None => Some r end) →
  queues_ok r → (∀ a p, a ∈ l → g a = Some p → takes r p.1 p.2) →
  ∃ r', foldlM f r l = Some r' ∧ quiet r r' ∧
    ∀ d, inbox r' d = inbox r d ++ omap (λ a, p ← g a; if bool_decide (p.1 = d) then Some p.2 else None) l.
Proof.
  intros Hf. revert r. induction l as [|a l IH]; intros r Hq Ht.
  { exists r. rewrite foldlM_nil. split_and!; [done|apply quiet_refl|]. intros d. cbn. by rewrite app_nil_r. }
  assert (∃ r1, f r a = Some r1 ∧ quiet r r1 ∧
    ∀ d, inbox r1 d = inbox r d ++ omap (λ a, p ← g a; if bool_decide (p.1 = d) then Some p.2 else None) [a]) as (r1 & E & Q & Hi).
  { rewrite Hf. destruct (g a) as [[c n]|] eqn:Eg.
    - destruct (comp_write_inbox r c n Hq) as (r1 & E & Q & Hi); [by apply (Ht a (c, n)); [left|]|].
      exists r1. split_and!; [done|done|]. intros d. rewrite Hi. cbn. rewrite Eg. cbn. by case_bool_decide.
    - exists r. split_and!; [done|apply quiet_refl|]. intros d. cbn. by rewrite Eg, app_nil_r. }
  rewrite foldlM_cons, E. cbn [mbind option_bind].
  destruct (IH r1) as (r2 & E2 & Q2 & Hi2).
  - by apply (qu_queues _ _ Q).
  - intros b p Hb Hg. eapply quiet_takes; [exact Q|]. apply (Ht b p); [by right|done].
  - exists r2. split_and!; [done|by eapply quiet_trans|]. intros d.
    rewrite Hi2, Hi, <- app_assoc, <- omap_app. done.
Qed.
End inbox.
