(* ===== verification/RouterThms.v ===== *)
(** * What the router guarantees

    [handle] takes the router through the calls it gets from the stream
    library and from the socket layer; [allowed] are the conditions under which
    a call is safe, and each of the findings of RouterCases shows that one of
    them is needed.  The theorems: every reachable state has consistent tables
    and no dangling pointer, the names bound are authorised, and what bind,
    route, broadcast and throttle packets do. *)
From S2P Require Import Prelude.
From S2P Require Import CStr.
From S2P Require Import DList.
From S2P Require Import JQueue.
From S2P Require Import Rate.
From S2P Require Import Codec.
From S2P Require Import Access.
From S2P Require Import Jid.
From S2P Require Import Nad.
From S2P Require Import Table.
From S2P Require Import Stanza.
From S2P Require Import Filter.
From S2P Require Import Router.
From S2P Require Import RouterInv.
From S2P Require Import RouterBind.
From S2P Require Import RouterRoute.

Inductive revent :=
  | EvAccept (fd : Z) (ip : string) (port : Z) (ipport : string) (now : Z)
  | EvSx (c : loc) (s : sx)                        (* the stream has changed *)
  | EvRead (c : loc) (buflen now : Z) (recv : Z → recv_result)
  | EvStream (c : loc)
  | EvOpen (c : loc)
  | EvPacket (c : loc) (n : nad) (rand now : Z)
  | EvClosed (c : loc)
  | EvMioRead (c : loc) (nbytes now : Z)
  | EvMioWrite (c : loc) (now : Z)
  | EvClose (c : loc)
  | EvClean.                                       (* the main loop frees routes *)

Section thms.
Context {T : Type → Type} `{TableLaws T}.
Context (nodeprep nameprep resourceprep : string → option string).
Context (nameprep_cstr : ∀ s d, nameprep s = Some d → no_nul d).
Context (shahash_raw : string → list Z).
Context (fnmatch : string → string → bool) (can_open : string → bool).
Context (inet_pton4 : string → option Z) (inet_pton6 : string → option (list Z)).
Implicit Types (r : @router T) (c : loc) (n : nad).

Notation name_of := (name_of nodeprep nameprep resourceprep).
Notation reset_jid := (reset_jid nodeprep nameprep resourceprep).
Notation process_bind := (_router_process_bind nodeprep nameprep resourceprep).
Notation process_unbind := (_router_process_unbind nodeprep nameprep resourceprep).
Notation process_route := (_router_process_route nodeprep nameprep resourceprep shahash_raw fnmatch can_open).
Notation dispatch := (dispatch nodeprep nameprep resourceprep shahash_raw fnmatch can_open).
Notation sx_event_packet := (sx_event_packet nodeprep nameprep resourceprep shahash_raw fnmatch can_open).
Notation mio_accept := (mio_accept inet_pton4 inet_pton6).
Notation accept_check := (_router_accept_check inet_pton4 inet_pton6).
Notation addressable := (addressable nodeprep nameprep resourceprep shahash_raw fnmatch can_open).

Definition handle r (e : revent) : option router :=
  match e with
  | EvAccept fd ip port ipport now => fst <$> mio_accept r fd ip port ipport now
  | EvSx c s => Some (upd_comp c (with_c_s s) r)
  | EvRead c buflen now recv => fst <$> sx_event_read r c buflen now recv
  | EvStream c => sx_event_stream r c
  | EvOpen c => sx_event_open r c
  | EvPacket c n rand now => sx_event_packet r c n rand now
  | EvClosed c => sx_event_closed r c
  | EvMioRead c nbytes now => Some (mio_read r c nbytes now)
  | EvMioWrite c now => Some (mio_write r c now)
  | EvClose c => mio_close r c
  | EvClean => Some (free_routes r)
  end.

(** ** When a call is safe *)

Definition attr_jid n (name : string) : option jid := v ← attr_value n 0 name; reset_jid v.

Definition dispatch_ok r c n (rand : Z) : Prop :=
  (nad_ename n 0 = tx "bind" → ∀ j, name_of n = Some j →
    jid_domain j ≠ "" ∧ no_alias r (jid_domain j) ∧ c ∉ comps_of r (jid_domain j)) ∧
  (nad_ename n 0 = tx "unbind" → ∀ j, name_of n = Some j → jid_domain j ≠ "") ∧
  (nad_ename n 0 = tx "route" → ∀ from to, attr_jid n "from" = Some from → attr_jid n "to" = Some to →
    addressable r n from to rand).

Definition packet_ok r c n (rand : Z) : Prop :=
  ∃ comp, r_comps r !! c = Some comp ∧
  if bool_decide (s_state (c_s comp) = state_STREAM) then c_legacy comp = true → is_Some (local_secret (r_conf r))
  else if c_legacy comp then
    (e_parent (elem_at n 0) < 0)%Z ∧
    ∀ from to n', legacy_packet n from to = Some n' → dispatch_ok r c n' rand
  else dispatch_ok r c n rand.

Definition allowed r (e : revent) : Prop :=
  match e with
  | EvAccept fd ip port ipport now =>
    good_key ip ∧ no_nul ipport ∧ is_Some (access_check inet_pton4 inet_pton6 (raccess (r_conf r)) ip)
  | EvSx c s => ∀ comp, r_comps r !! c = Some comp →
      s_auth_id s = s_auth_id (c_s comp) ∨ ∀ x, tmap (c_routes comp) !! x = None
  | EvOpen c => ∃ comp, r_comps r !! c = Some comp ∧ (c_legacy comp = true → ∃ name,
      s_req_to (c_s comp) = Some name ∧ good_key name ∧ no_alias r name ∧ c ∉ comps_of r name)
  | EvPacket c n rand _ => packet_ok r c n rand
  | EvClose c => ∃ comp, r_comps r !! c = Some comp ∧ walk_complete comp
  | EvRead c _ _ _ | EvStream c | EvClosed c => live r c
  | EvMioRead _ _ _ | EvMioWrite _ _ | EvClean => True
  end.

(** ** The invariant *)

(** The guard that a bind request passed. *)
Definition authorised (conf : @rconf T) (comp : @component T) (name : string) : bool :=
  let user := user_of (s_auth_id (c_s comp)) in
  (strcmp user name =? 0)%Z || aci_check (aci conf) (Some "bind") user.

Definition comp_auth (conf : @rconf T) (comp : @component T) : Prop :=
  c_legacy comp = true ∨ ∀ x, is_Some (tmap (c_routes comp) !! x) → authorised conf comp x = true.

Record inv (conf : @rconf T) r : Prop := {
  inv_ok : router_ok r;
  inv_conf : r_conf r = conf;
  inv_auth : ∀ c comp, r_comps r !! c = Some comp → comp_auth conf comp
}.

Lemma core_auth conf comp comp' : core comp' = core comp → comp_auth conf comp → comp_auth conf comp'.
Proof.
  intros E. unfold comp_auth, authorised. rewrite (core_routes _ _ E).
  rewrite (f_equal c_legacy E : c_legacy comp' = c_legacy comp).
  rewrite (f_equal (λ x, s_auth_id (c_s x)) E : s_auth_id (c_s comp') = s_auth_id (c_s comp)). done.
Qed.

Lemma quiet_inv conf r r' : quiet r r' → inv conf r → inv conf r'.
Proof.
  intros Q [Hr Hcf Ha]. split.
  - by eapply quiet_ok.
  - by rewrite (qu_conf _ _ Q).
  - intros c comp Hc. destruct (quiet_sym_lookup _ _ _ _ Q Hc) as (comp0 & Hc0 & E). eapply core_auth; [exact E|by eapply Ha].
Qed.

(** A change of a component that leaves its names and its queue alone. *)
Lemma upd_comp_ok c f r :
  (∀ comp, r_comps r !! c = Some comp →
    c_routes (f comp) = c_routes comp ∧ c_ipport (f comp) = c_ipport comp ∧ c_tq (f comp) = c_tq comp) →
  router_ok r → router_ok (upd_comp c f r).
Proof.
  intros Hf Hr.
  assert (∀ d comp', r_comps (upd_comp c f r) !! d = Some comp' → ∃ comp, r_comps r !! d = Some comp ∧
    c_routes comp' = c_routes comp ∧ c_ipport comp' = c_ipport comp ∧ c_tq comp' = c_tq comp) as Hb.
  { intros d comp'. cbn. rewrite lookup_alter. case_decide as E; [|by exists comp']. subst d.
    destruct (r_comps r !! c) as [comp|]; [|done]. intros [= <-]. exists comp. split; [done|by apply Hf]. }
  assert (∀ d comp, r_comps r !! d = Some comp → ∃ comp', r_comps (upd_comp c f r) !! d = Some comp' ∧
    c_routes comp' = c_routes comp ∧ c_ipport comp' = c_ipport comp) as Hb'.
  { intros d comp Hd. cbn. rewrite lookup_alter. case_decide as E; [|by exists comp]. subst d.
    rewrite Hd. exists (f comp). split; [done|]. destruct (Hf _ Hd) as (? & ? & _). done. }
  assert (∀ d x, bound (upd_comp c f r) d x ↔ bound r d x) as Hbd.
  { intros d x. split; intros (comp & Hd & Hx).
    - destruct (Hb _ _ Hd) as (comp0 & ? & E & _). exists comp0. by rewrite <- E.
    - destruct (Hb' _ _ Hd) as (comp0 & ? & E & _). exists comp0. by rewrite E. }
  split; try apply Hr.
  - by destruct (ok_routes _ Hr); split.
  - intros d comp (comp0 & ? & -> & _)%Hb. by eapply (ok_ctab _ Hr).
  - intros x d. rewrite Hbd. apply (ok_bound _ Hr).
  - intros x d Hx. rewrite Hbd. by apply (ok_sink _ Hr).
  - intros k d Hk. destruct (ok_live _ Hr _ _ Hk) as (comp & Hd & <-).
    destruct (Hb' _ _ Hd) as (comp' & ? & _ & ?). by exists comp'.
  - intros d comp (comp0 & ? & _)%Hb. by eapply (ok_cfresh _ Hr).
  - intros d comp (comp0 & ? & _ & -> & _)%Hb. by eapply (ok_ip _ Hr).
  - intros d comp (comp0 & ? & _ & _ & E)%Hb. unfold queue_ok. rewrite E. by eapply (ok_queue _ Hr).
Qed.

Lemma upd_comp_inv conf c f r :
  (∀ comp, r_comps r !! c = Some comp →
    c_routes (f comp) = c_routes comp ∧ c_ipport (f comp) = c_ipport comp ∧ c_tq (f comp) = c_tq comp) →
  (∀ comp, r_comps r !! c = Some comp → comp_auth conf comp → comp_auth conf (f comp)) →
  inv conf r → inv conf (upd_comp c f r).
Proof.
  intros Hf Ha [Hr Hcf Hau]. split; [by apply upd_comp_ok|done|].
  intros d comp'. cbn. rewrite lookup_alter. case_decide as E; [|by apply Hau]. subst d.
  destruct (r_comps r !! c) as [comp|] eqn:Hc; [|done]. intros [= <-]. apply Ha; [done|by eapply Hau].
Qed.

Lemma emit_inv conf o r : inv conf r → inv conf (emit o r).
Proof. apply quiet_inv, only_out_quiet, only_out_emit. Qed.

(** ** Bind, unbind and open *)

Lemma rebound_auth conf r r1 c f :
  r_comps r1 = alter f c (r_comps r) →
  (∀ comp, r_comps r !! c = Some comp → comp_auth conf comp → comp_auth conf (f comp)) →
  (∀ d comp, r_comps r !! d = Some comp → comp_auth conf comp) →
  ∀ d comp, r_comps r1 !! d = Some comp → comp_auth conf comp.
Proof.
  intros -> Hf Ha d comp. rewrite lookup_alter. case_decide as E; [|by apply Ha]. subst d.
  destruct (r_comps r !! c) as [comp0|] eqn:Hc; [|done]. intros [= <-]. apply Hf; [done|by eapply Ha].
Qed.

Lemma kept_conf r r1 : kept r1 = kept r → r_conf r1 = r_conf r.
Proof. by intros [= -> _ _ _]. Qed.

Lemma out_inv conf r l : inv conf r → inv conf (set_out (r_out r ++ l) r).
Proof. apply quiet_inv, only_out_quiet. by exists l. Qed.

Lemma default_ok r d :
  (∀ x, d = Some x → r_default_route r = Some x ∨ no_nul x) → router_ok r → router_ok (set_default_route d r).
Proof.
  intros Hd Hr. split; try apply Hr; [by destruct (ok_routes _ Hr); split|].
  intros x E. destruct (Hd x E); [by apply (ok_default _ Hr)|done].
Qed.

Lemma bind_inv conf r c n :
  inv conf r → live r c →
  (∀ j, name_of n = Some j → jid_domain j ≠ "" ∧ no_alias r (jid_domain j) ∧ c ∉ comps_of r (jid_domain j)) →
  ∃ r', process_bind r c n = Some r' ∧ inv conf r'.
Proof.
  intros Hi [comp Hc] Hall. destruct (name_of n) as [j|] eqn:Hj.
  2: { unfold _router_process_bind, get_comp. rewrite Hc, Hj. cbn [mbind option_bind]. eexists. split; [done|by apply emit_inv]. }
  destruct (Hall j eq_refl) as (Hne & Hal & Hnew). pose proof Hi as [Hr Hcf Ha].
  pose proof (bind_spec _ _ _ nameprep_cstr r c n comp j Hr Hc Hj Hne Hal Hnew) as Hb.
  destruct (bind_refusal r comp n (jid_domain j)) as [code|] eqn:Er.
  - destruct Hb as (d & Hd & ->). eexists. split; [done|]. apply emit_inv. split; [|done|done].
    apply default_ok; [|done]. intros x ->. unfold default_after in Hd.
    destruct Hd as [?|Hd]; [by left|]. destruct (has_child n "default"); [|by left]. injection Hd as ->.
    right. by eapply name_of_no_nul.
  - destruct Hb as (r1 & -> & Hr1 & Eo & Ek & Ec & Ed & Hco). eexists. split; [done|].
    rewrite <- Eo. apply out_inv. pose proof (kept_conf _ _ Ek) as Ecf. split; [done|by rewrite Ecf|].
    eapply (rebound_auth conf r r1 c _ Ec); [|exact Ha]. intros comp0 Hc0 [Hl|Hau]; [by left|right].
    assert (comp0 = comp) as -> by congruence. intros x. cbn. destruct (tput_ok (c_routes comp) (jid_domain j) c) as [_ Em].
    { exact (ok_ctab _ Hr _ _ Hc). } { by eapply name_of_no_nul. }
    rewrite Em, lookup_insert. case_decide as Ex; [|apply Hau]. subst x. intros _.
    revert Er. unfold bind_refusal, authorised. cbn [c_s with_c_routes].
    rewrite <- Hcf. destruct (_ =? 0)%Z; [done|]. cbn [negb andb orb]. by destruct (aci_check _ (Some "bind") _).
Qed.

Lemma unbind_inv conf r c n :
  inv conf r → live r c → (∀ j, name_of n = Some j → jid_domain j ≠ "") →
  ∃ r', process_unbind r c n = Some r' ∧ inv conf r'.
Proof.
  intros Hi [comp Hc] Hall. destruct (name_of n) as [j|] eqn:Hj.
  2: { unfold _router_process_unbind, get_comp. rewrite Hc, Hj. cbn [mbind option_bind]. eexists. split; [done|by apply emit_inv]. }
  pose proof (Hall j eq_refl) as Hne. pose proof Hi as [Hr Hcf Ha].
  pose proof (unbind_spec _ _ _ nameprep_cstr r c n comp j Hr Hc Hj Hne) as Hb.
  case_bool_decide; [|rewrite Hb; eexists; split; [done|by apply emit_inv]].
  destruct Hb as (r1 & l & -> & Hr1 & Eo & Ek & Hl & Ec & Hco). eexists. split; [done|].
  rewrite <- Eo. apply out_inv. pose proof (kept_conf _ _ Ek) as Ecf. split; [done|by rewrite Ecf|].
  eapply (rebound_auth conf r r1 c _ Ec); [|exact Ha]. intros comp0 Hc0 [Hlg|Hau]; [by left|right].
  intros x. cbn. destruct (tzap_ok (c_routes comp0) (jid_domain j)) as [_ Em].
  { exact (ok_ctab _ Hr _ _ Hc0). } { by eapply name_of_no_nul. }
  rewrite Em, lookup_delete. case_decide; [by intros []|]. apply Hau.
Qed.

Lemma open_inv conf r c comp :
  inv conf r → r_comps r !! c = Some comp →
  (c_legacy comp = true → ∃ name, s_req_to (c_s comp) = Some name ∧ good_key name ∧ no_alias r name ∧ c ∉ comps_of r name) →
  ∃ r', sx_event_open r c = Some r' ∧ inv conf r'.
Proof.
  intros Hi Hc Hl. destruct (c_legacy comp) eqn:El.
  2: { unfold sx_event_open, get_comp. rewrite Hc. cbn [mbind option_bind]. rewrite El. by exists r. }
  destruct (Hl eq_refl) as (name & Hq & Hg & Hal & Hnew). pose proof Hi as [Hr Hcf Ha].
  pose proof (open_spec r c comp name Hr Hc El Hq Hg Hal Hnew) as Hb.
  destruct (open_refused r name); [rewrite Hb; eexists; split; [done|by do 2 apply emit_inv]|].
  destruct Hb as (r1 & -> & Hr1 & Eo & Ek & Ec & Hco). eexists. split; [done|].
  rewrite <- Eo. apply out_inv. pose proof (kept_conf _ _ Ek) as Ecf. split; [done|by rewrite Ecf|].
  eapply (rebound_auth conf r r1 c _ Ec); [|exact Ha]. intros comp0 Hc0 _. left. assert (comp0 = comp) as -> by congruence. exact El.
Qed.

(** ** Packets *)

Lemma route_quiet r c n rand :
  router_ok r → live r c →
  (∀ from to, attr_jid n "from" = Some from → attr_jid n "to" = Some to → addressable r n from to rand) →
  ∃ r', process_route r c n rand = Some r' ∧ quiet r r'.
Proof.
  intros Hr Hl Ha. unfold _router_process_route. destruct (attr_value n 0 "error"); [exists r; split; [done|apply quiet_refl]|].
  fold (attr_jid n "to") (attr_jid n "from").
  destruct (attr_value n 0 "type") as [t|].
  { case_bool_decide; [by apply route_broadcast_spec|exists r; split; [done|apply quiet_refl]]. }
  assert (∃ r', reply_error r c n "400" = Some r' ∧ quiet r r') as Hbad by by apply reply_error_spec.
  destruct (attr_jid n "from") as [from|] eqn:Ef, (attr_jid n "to") as [to|] eqn:Et.
  - destruct (route_unicast_spec nodeprep nameprep resourceprep shahash_raw fnmatch can_open r c n from to rand)
      as (r' & E & Q & _); try done.
    + apply (ok_filter _ Hr).
    + unfold attr_jid in Ef. destruct (attr_value n 0 "from") as [v|]; [|done]. by eapply reset_jid_domain.
    + apply (ok_default _ Hr).
    + by apply Ha.
    + by exists r'.
  - destruct Hl as [comp Hc]. unfold route_unicast, get_comp. rewrite Hc. exact Hbad.
  - destruct Hl as [comp Hc]. unfold route_unicast, get_comp. rewrite Hc. exact Hbad.
  - destruct Hl as [comp Hc]. unfold route_unicast, get_comp. rewrite Hc. exact Hbad.
Qed.

Lemma dispatch_inv conf r c n rand now :
  inv conf r → live r c → dispatch_ok r c n rand → ∃ r', dispatch r c n rand now = Some r' ∧ inv conf r'.
Proof.
  intros Hi Hl (Hb & Hu & Hr). unfold Router.dispatch. destruct (router_scoped n); [|by exists r].
  case_bool_decide; [by apply bind_inv; auto|]. case_bool_decide; [by apply unbind_inv; auto|].
  case_bool_decide.
  { destruct (route_quiet r c n rand) as (r' & E & Q); [apply Hi|done|by apply Hr|]. exists r'. split; [done|]. by eapply quiet_inv. }
  case_bool_decide; [|by exists r]. destruct (throttle_spec r c n now Hl) as (r' & E & Q). exists r'. split; [done|].
  by eapply quiet_inv.
Qed.

(** The namespace of the stream is found again on the chain of the first element. *)
Lemma ns_before_found f n s uri ns :
  ns_chain_loop f n s uri None = ns → (0 <= ns)%Z → s ≠ ns → (0 <= ns_before f n s ns)%Z.
Proof.
  revert s. induction f as [|f IH]; intros s; cbn [ns_chain_loop ns_before]; [lia|].
  destruct (Z.ltb_spec s 0); [lia|]. destruct (uri_match n s uri None); [done|]. intros E Hns Hne.
  destruct (Z.eqb_spec (n_next (ns_at n s)) ns); [done|]. by apply IH.
Qed.

Lemma drop_accept_ns_total n : (e_parent (elem_at n 0) < 0)%Z → is_Some (drop_accept_ns n).
Proof.
  intros Hp. unfold drop_accept_ns, nad_find_namespace. destruct (_ || _); [by eexists|]. cbn [find_namespace_loop].
  change (0 <? 0)%Z with false. cbv iota. set (s := ns_chain_loop _ _ _ _ _).
  assert (∀ f, find_namespace_loop f n (e_parent (elem_at n 0)) uri_ACCEPT None = -1)%Z as Hup.
  { intros [|f]; [done|]. cbn [find_namespace_loop]. by rewrite (proj2 (Z.ltb_lt _ _) Hp). }
  destruct (Z.leb_spec 0 s) as [Hs|Hs]; [|rewrite Hup; by eexists].
  rewrite (proj2 (Z.leb_le _ _) Hs). destruct (Z.eqb_spec (e_ns (elem_at n 0)) s); [by eexists|].
  rewrite (proj2 (Z.ltb_ge _ _)); [by eexists|]. eapply (ns_before_found _ n _ uri_ACCEPT); [reflexivity|done|done].
Qed.

Lemma legacy_packet_total n from to : (e_parent (elem_at n 0) < 0)%Z → is_Some (legacy_packet n from to).
Proof.
  intros Hp. unfold legacy_packet. destruct (drop_accept_ns_total n Hp) as [n1 ->]. cbn [mbind option_bind].
  destruct (_ <? 0)%Z; [destruct (nad_add_namespace n1 _ _) as [n2 s2]|]; destruct (nad_add_namespace _ _ _); by eexists.
Qed.

Lemma packet_inv conf r c n rand now :
  inv conf r → packet_ok r c n rand → ∃ r', sx_event_packet r c n rand now = Some r' ∧ inv conf r'.
Proof.
  intros Hi (comp & Hc & Hp). assert (live r c) as Hl by by eexists.
  unfold Router.sx_event_packet, get_comp. rewrite Hc. cbn [mbind option_bind]. case_bool_decide.
  - destruct (c_legacy comp) eqn:El; cbn [negb]; [|by exists r]. case_bool_decide; [|by exists r].
    unfold _router_process_handshake, get_comp. rewrite Hc. destruct (Hp eq_refl) as [sec Es]. rewrite Es. cbn [mbind option_bind].
    destruct (negb _); [|destruct (strncmp_eq _ _ _)]; eexists; (split; [done|by do 2 apply emit_inv]).
  - destruct (c_legacy comp); [|by apply dispatch_inv]. destruct Hp as [Hpar Hp].
    destruct (v ← attr_value n 0 "to"; reset_jid v) as [to|]; [|by exists r].
    destruct (v ← attr_value n 0 "from"; reset_jid v) as [from|]; [|by exists r].
    destruct (legacy_packet_total n from to Hpar) as [n' En]. rewrite En. cbn [mbind option_bind].
    apply dispatch_inv; [done|done|]. by eapply Hp.
Qed.

(** ** Connections *)

Lemma fresh_ok r f : r_fresh r ≤ f → router_ok r → router_ok (set_fresh f r).
Proof.
  intros Hf Hr. split; try apply Hr.
  - destruct (ok_routes _ Hr) as [R1 R2 R3 R4]. split; try done; cbn.
    + intros p rt Hp. specialize (R3 _ _ Hp). lia.
    + destruct R4 as (l & Hl & Hd). exists l. split; [done|]. intros p Hp. destruct (Hd p Hp). split; [lia|done].
  - intros c comp Hc. pose proof (ok_cfresh _ Hr _ _ Hc). cbn. lia.
Qed.

Lemma rates_ok r t m :
  tok t ∧ (∀ ip p, tmap t !! ip = Some p → is_Some (m !! p)) → router_ok r → router_ok (set_conn_rates t (set_rates m r)).
Proof. intros Ht Hr. split; try apply Hr; [by destruct (ok_routes _ Hr); split|done]. Qed.

(** The check leaves everything but the rates alone, and never follows a bad pointer. *)
Lemma accept_check_spec r ip now :
  router_ok r → good_key ip → is_Some (access_check inet_pton4 inet_pton6 (raccess (r_conf r)) ip) →
  ∃ t m f b, let r' := set_fresh f (set_conn_rates t (set_rates m r)) in
    accept_check r ip now = Some (r', b) ∧ r_fresh r ≤ f ∧ router_ok r'.
Proof.
  intros Hr Hip [ok Hok]. unfold Router._router_accept_check. rewrite Hok. cbn [mbind option_bind].
  assert (r = set_fresh (r_fresh r) (set_conn_rates (r_conn_rates r) (set_rates (r_rates r) r))) as Er by by destruct r.
  destruct (ok =? 0)%Z; [eexists _, _, _, _; cbv zeta; rewrite <- Er; by split_and!|].
  destruct (conn_rate_total (r_conf r) =? 0)%Z; [eexists _, _, _, _; cbv zeta; rewrite <- Er; by split_and!|].
  destruct (ok_rates _ Hr) as [Ht Hm]. rewrite tget_ok by (done || apply Hip).
  destruct (tmap (r_conn_rates r) !! ip) as [p|] eqn:Hp.
  - destruct (Hm _ _ Hp) as [rt Hrt]. rewrite Hrt. cbn [mbind option_bind]. destruct (rate_check rt now) as [rt' b].
    exists (r_conn_rates r), (<[p := if b then rate_add rt' 1 now else rt']> (r_rates r)), (r_fresh r), b. cbv zeta. split_and!; [reflexivity|done|].
    apply fresh_ok; [done|]. apply rates_ok; [|done]. split; [done|]. intros x q Hx. rewrite lookup_insert.
    case_decide; [done|by eapply Hm].
  - cbn [alloc set_fresh r_fresh r_rates set_rates set_conn_rates]. rewrite lookup_insert_eq. cbn [mbind option_bind].
    set (rt0 := rate_new _ _ _).
    destruct (rate_check rt0 now) as [rt' b].
    exists (tput (r_conn_rates r) ip (r_fresh r)),
      (<[r_fresh r := if b then rate_add rt' 1 now else rt']> (<[r_fresh r := rt0]> (r_rates r))), (S (r_fresh r)), b.
    cbv zeta. split_and!; [reflexivity|lia|].
    apply fresh_ok; [cbn; lia|]. apply rates_ok; [|done].
    destruct (tput_ok (r_conn_rates r) ip (r_fresh r)) as [Ht' Em]; [done|apply Hip|].
    split; [exact Ht'|]. cbn [r_conn_rates set_fresh]. intros x q. rewrite Em, !lookup_insert.
    case_decide; [intros [= <-]; by rewrite decide_True|]. intros Hx. case_decide; [done|].
    by eapply Hm.
Qed.

Lemma register_ok r c comp :
  router_ok r → r_fresh r = c → c_routes comp = tnew 51 → c_tq comp = None → no_nul (c_ipport comp) →
  let r' := set_components (tput (r_components r) (c_ipport comp) c) (set_comps (<[c := comp]> (r_comps r)) (set_fresh (S c) r)) in
  router_ok r' ∧ ∀ x, comps_of r' x = comps_of r x.
Proof.
  intros Hr Hf Hrt Htq Hn r'. destruct (tnew_ok (T:=T) (V:=loc) 51) as [Ht0 Hm0]; [done..|].
  assert (r_comps r !! c = None) as Hnone.
  { destruct (r_comps r !! c) eqn:E; [|done]. pose proof (ok_cfresh _ Hr _ _ E). lia. }
  assert (∀ d x, bound r' d x ↔ bound r d x) as Hb.
  { intros d x. unfold bound, r'. cbn. setoid_rewrite lookup_insert. split; intros (cd & Hd & Hx).
    - case_decide; [|by exists cd]. injection Hd as <-. rewrite Hrt, Hm0, lookup_empty in Hx. by destruct Hx.
    - exists cd. split; [|done]. rewrite decide_False; [done|]. intros <-. congruence. }
  split; [|done]. destruct (tput_ok (r_components r) (c_ipport comp) c) as [Htc Hmc]; [apply Hr|done|].
  pose proof (fresh_ok r (S c) ltac:(lia) Hr) as Hr'. split; try apply Hr'; try done.
  - by destruct (ok_routes _ Hr'); split.
  - intros d cd. unfold r'. cbn. rewrite lookup_insert. case_decide; [intros [= <-]; by rewrite Hrt|apply (ok_ctab _ Hr)].
  - intros x d. rewrite Hb. apply (ok_bound _ Hr).
  - intros x d Hx. rewrite Hb. by apply (ok_sink _ Hr).
  - intros k d. unfold r'. cbn. rewrite Hmc, !lookup_insert. case_decide as Ek.
    + intros [= <-]. exists comp. by rewrite decide_True.
    + intros Hk. destruct (ok_live _ Hr _ _ Hk) as (cd & Hd & Hi). exists cd.
      rewrite decide_False; [done|]. intros <-. congruence.
  - intros d cd. unfold r'. cbn. rewrite lookup_insert. case_decide; [lia|]. intros Hd.
    pose proof (ok_cfresh _ Hr _ _ Hd). lia.
  - intros d cd. unfold r'. cbn. rewrite lookup_insert. case_decide; [by intros [= <-]|apply (ok_ip _ Hr)].
  - intros d cd. unfold r'. cbn. rewrite lookup_insert. case_decide; [|apply (ok_queue _ Hr)].
    intros [= <-] q Hq. congruence.
Qed.

Lemma accept_inv conf r fd ip port ipport now :
  inv conf r → good_key ip → no_nul ipport → is_Some (access_check inet_pton4 inet_pton6 (raccess (r_conf r)) ip) →
  ∃ r' k, mio_accept r fd ip port ipport now = Some (r', k) ∧ inv conf r'.
Proof.
  intros [Hr Hcf Ha] Hip Hpp Hok. unfold Router.mio_accept.
  destruct (accept_check_spec r ip now Hr Hip Hok) as (t & m & f & b & -> & Hf & Hr1). cbn [mbind option_bind].
  set (r1 := set_fresh f _) in *. destruct b; cbn [negb]; [|eexists _, _; split; [done|by split]].
  cbn [alloc]. eexists _, _. split; [done|]. apply emit_inv.
  set (comp := Comp _ _ _ _ _ _ _ _ _ _ _).
  destruct (register_ok r1 f comp Hr1) as [Hr2 _]; try done. split; [exact Hr2|done|].
  intros d cd. cbn. rewrite lookup_insert. case_decide; [|apply Ha]. intros [= <-]. right.
  intros x. cbn. destruct (tnew_ok (T:=T) (V:=loc) 51) as [_ Hm0]; [done..|]. rewrite Hm0, lookup_empty. by intros [].
Qed.

Lemma read_inv conf r c buflen now recv :
  inv conf r → live r c → ∃ r' k, sx_event_read r c buflen now recv = Some (r', k) ∧ inv conf r'.
Proof.
  intros Hi [comp Hc]. unfold sx_event_read, get_comp. rewrite Hc. cbn [mbind option_bind].
  assert (∀ cm, core cm = core (with_c_rate (c_rate cm) (with_c_rate_log (c_rate_log cm) comp)) → c_tq cm = c_tq comp →
    inv conf (upd_comp c (λ _, cm) r)) as Hupd.
  { intros cm Ec Eq. apply upd_comp_inv; [|intros comp0 Hc0|done].
    - intros comp0 Hc0. assert (comp0 = comp) as -> by congruence.
      split_and!; [exact (f_equal c_routes Ec)|exact (f_equal c_ipport Ec)|done].
    - assert (comp0 = comp) as -> by congruence. unfold comp_auth, authorised.
      rewrite (f_equal c_routes Ec : c_routes cm = c_routes comp), (f_equal c_legacy Ec : c_legacy cm = c_legacy comp).
      by rewrite (f_equal c_s Ec : c_s cm = c_s comp). }
  destruct (c_rate comp) as [rt|].
  - destruct (rate_check rt now) as [rt' []]; [|eexists _, _; split; [done|by apply Hupd]].
    destruct (recv _) as [len| |]; cbn [c_rate with_c_rate].
    + destruct (0 <? len)%Z, (len =? 0)%Z; eexists _, _; (split; [done|]); try apply emit_inv; by apply Hupd.
    + eexists _, _. split; [done|by apply Hupd].
    + eexists _, _. split; [done|]. apply emit_inv. by apply Hupd.
  - destruct (recv _) as [len| |].
    + destruct (len =? 0)%Z; eexists _, _; (split; [done|]); try apply emit_inv; by apply Hupd.
    + eexists _, _. split; [done|by apply Hupd].
    + eexists _, _. split; [done|]. apply emit_inv. by apply Hupd.
Qed.

Lemma stream_inv conf r c : inv conf r → live r c → ∃ r', sx_event_stream r c = Some r' ∧ inv conf r'.
Proof.
  intros Hi [comp Hc]. unfold sx_event_stream, get_comp. rewrite Hc. cbn [mbind option_bind].
  case_bool_decide; [|by exists r].
  assert (inv conf (upd_comp c (with_c_legacy true) r)) as Hi'.
  { apply upd_comp_inv; [done| |done]. intros. by left. }
  destruct (local_secret _); [destruct (s_req_to _)|]; eexists; (split; [done|]); by do 2 try apply emit_inv.
Qed.

Lemma closed_inv conf r c : inv conf r → live r c → ∃ r', sx_event_closed r c = Some r' ∧ inv conf r'.
Proof.
  intros Hi [comp Hc]. unfold sx_event_closed, get_comp. rewrite Hc. cbn [mbind option_bind].
  destruct (queued _ _ _ _); eexists; (split; [done|]); [done|]. destruct Hi as [Hr Hcf Ha]. split; [|done|done].
  split; try apply Hr. by destruct (ok_routes _ Hr); split.
Qed.

Lemma close_inv conf r c comp :
  inv conf r → r_comps r !! c = Some comp → walk_complete comp → ∃ r', mio_close r c = Some r' ∧ inv conf r'.
Proof.
  intros [Hr Hcf Ha] Hc Hw. destruct (close_spec r c comp Hr Hc Hw) as (r1 & E & Hr1 & Ek & En & Ed & _).
  exists r1. split; [done|]. pose proof (kept_conf _ _ Ek) as Ecf. split; [done|by rewrite Ecf|].
  intros d cd Hd. destruct (decide (d = c)) as [->|Hne]; [congruence|]. rewrite Ed in Hd by done. by eapply Ha.
Qed.

(** The routes that the main loop frees are in no table. *)
Lemma clean_ok r : router_ok r → router_ok (free_routes r) ∧ ∀ x, comps_of (free_routes r) x = comps_of r x.
Proof.
  intros Hr. destruct (ok_routes _ Hr) as [R1 R2 R3 (l & Hl & Hd)]. unfold free_routes.
  destruct (fifo_pull_all (S (size (q_heap (r_deadroutes r)))) _ _ Hl) as (l2 & E & Hl2).
  destruct (pull_all _ _) as [q dead]. cbn [fst snd] in *. subst l. set (m := foldr delete _ _).
  assert (∀ x p, tmap (r_routes r) !! x = Some p → m !! p = r_rts r !! p) as Hm.
  { intros x p Hx. apply foldr_delete_ne. intros Hp. apply (proj2 (Hd p (proj2 (elem_of_app _ _ _) (or_introl Hp))) x Hx). }
  assert (∀ x, comps_of (set_deadroutes q (set_rts m r)) x = comps_of r x) as Hco.
  { intros x. unfold comps_of, route_of. cbn. destruct (tmap (r_routes r) !! x) as [p|] eqn:Ex; [|done]. cbn.
    by rewrite (Hm x p). }
  split; [|exact Hco]. split; try apply Hr.
  - split; cbn; [done|..].
    + intros x p Hx. destruct (R2 _ _ Hx) as (Hne & rt & Hrt & Hrest). split; [done|]. exists rt. by rewrite (Hm x p).
    + intros p rt Hp. apply foldr_delete_Some in Hp. by eapply R3.
    + exists l2. split; [done|]. intros p Hp. apply Hd. apply elem_of_app. by right.
  - intros x c. rewrite Hco. apply (ok_bound _ Hr).
Qed.

Lemma handle_inv conf r e : inv conf r → allowed r e → ∃ r', handle r e = Some r' ∧ inv conf r'.
Proof.
  intros Hi. destruct e as [fd ip port ipport now|c s|c buflen now recv|c|c|c n rand now|c|c nbytes now|c now|c|]; cbn [allowed handle].
  - intros (Hip & Hpp & Hok). destruct (accept_inv conf r fd ip port ipport now Hi Hip Hpp Hok) as (r' & k & -> & ?). by exists r'.
  - intros Ha. eexists. split; [done|]. apply upd_comp_inv; [done| |done]. intros comp Hc [Hl|Hau]; [by left|right].
    intros x Hx. cbn in Hx. destruct (Ha comp Hc) as [Es|Hno]; [|by rewrite Hno in Hx; destruct Hx].
    unfold authorised. cbn. rewrite Es. by apply Hau.
  - intros Hl. destruct (read_inv conf r c buflen now recv Hi Hl) as (r' & k & -> & ?). by exists r'.
  - by apply stream_inv.
  - intros (comp & Hc & Hl). by eapply open_inv.
  - by apply packet_inv.
  - by apply closed_inv.
  - intros _. unfold mio_read. eexists. split; [done|].
    assert (inv conf (upd_comp c (with_c_last_activity now) r)) by (by apply upd_comp_inv).
    destruct (_ =? 0)%Z; [by apply emit_inv|done].
  - intros _. eexists. split; [done|]. by apply upd_comp_inv.
  - intros (comp & Hc & Hw). by eapply close_inv.
  - intros _. eexists. split; [done|]. destruct Hi as [Hr Hcf Ha]. split; [by apply clean_ok| |];
      unfold free_routes; by destruct (pull_all _ _).
Qed.

(** ** Reachable states *)

(** The rules have the errors that [filter_load] gives them. *)
Definition rules_ok (rules : list acl) : Prop :=
  Forall (λ a, acl_error a = 0 ∨ stanza_err_BAD_REQUEST <= acl_error a < stanza_err_LAST)%Z rules.

Inductive reach (conf : @rconf T) : @router T → Prop :=
  | reach_start rules now : rules_ok rules → reach conf (router_start conf rules now)
  | reach_step r e r' : reach conf r → allowed r e → handle r e = Some r' → reach conf r'.

Lemma start_inv conf rules now : rules_ok rules → inv conf (router_start conf rules now).
Proof.
  intros Hru. destruct (tnew_ok (T:=T) (V:=loc) 101) as [Ht Hm]; [done|].
  assert (∀ x, comps_of (router_start conf rules now) x = []) as Hco.
  { intros x. unfold comps_of, route_of, router_start. cbn [r_routes]. by rewrite Hm, lookup_empty. }
  split; [|done|by intros c comp; cbn; rewrite lookup_empty].
  split; cbn [r_routes r_log_sinks r_components r_conn_rates r_comps r_rts r_rates r_default_route router_start]; try done;
    try (by intros c comp; rewrite lookup_empty).
  - split; cbn; [done|by intros x p; rewrite Hm, lookup_empty|by intros p rt; rewrite lookup_empty|].
    exists []. split; [apply fifo_new|]. intros p Hp. by apply elem_of_nil in Hp.
  - intros x c. rewrite Hco, elem_of_nil. split; [done|]. intros (comp & Hc & _). cbn in Hc. by rewrite lookup_empty in Hc.
  - intros x c. by rewrite Hm, lookup_empty.
  - intros k c. by rewrite Hm, lookup_empty.
  - split; [done|]. intros ip p. by rewrite Hm, lookup_empty.
Qed.

Lemma reach_inv conf r : reach conf r → inv conf r.
Proof.
  induction 1 as [rules now Hru|r e r' _ IH Ha Hh]; [by apply start_inv|].
  destruct (handle_inv conf r e IH Ha) as (r1 & E & Hi). congruence.
Qed.
End thms.
