(* ===== verification/RouterSpec.v ===== *)
(** * The router's contract

    The theorems about reachable states and about each kind of packet, and an
    example router on which they are evaluated. *)
From S2P Require Import Prelude.
From S2P Require Import CStr.
From S2P Require Import DList.
From S2P Require Import JQueue.
From S2P Require Import Rate.
From S2P Require Import Codec.
From S2P Require Import Access.
From S2P Require Import Jid.
From S2P Require Import Nad.
From S2P Require Import NadOps.
From S2P Require Import XHash.
From S2P Require Import Table.
From S2P Require Import NadThms.
From S2P Require Import Stanza.
From S2P Require Import Filter.
From S2P Require Import Router.
From S2P Require Import RouterInv.
From S2P Require Import RouterBind.
From S2P Require Import RouterRoute.
From S2P Require Import RouterThms.

Section spec.
Context {T : Type → Type} `{TableLaws T}.
Context (nodeprep nameprep resourceprep : string → option string).
Context (nameprep_cstr : ∀ s d, nameprep s = Some d → no_nul d).
Context (shahash_raw : string → list Z).
Context (fnmatch : string → string → bool) (can_open : string → bool).
Implicit Types (r : @router T) (c : loc) (n : nad).

Notation process_route := (_router_process_route nodeprep nameprep resourceprep shahash_raw fnmatch can_open).
Notation route_dest := (route_dest nodeprep nameprep resourceprep shahash_raw).
Notation route_unicast := (route_unicast nodeprep nameprep resourceprep shahash_raw fnmatch can_open).
Notation log_message := (log_message nodeprep nameprep resourceprep can_open).
Notation attr_jid := (attr_jid nodeprep nameprep resourceprep).
Notation route_filter := (route_filter nodeprep nameprep resourceprep fnmatch can_open).
Notation addressable := (addressable nodeprep nameprep resourceprep shahash_raw fnmatch can_open).

Context (inet_pton4 : string → option Z) (inet_pton6 : string → option (list Z)).

Notation handle := (handle nodeprep nameprep resourceprep shahash_raw fnmatch can_open inet_pton4 inet_pton6).
Notation allowed := (allowed nodeprep nameprep resourceprep shahash_raw fnmatch can_open inet_pton4 inet_pton6).
Notation reach := (reach nodeprep nameprep resourceprep shahash_raw fnmatch can_open inet_pton4 inet_pton6).

(** ** Reachable states *)

(** C1: whatever the components do, as long as the calls are safe ones ([allowed]), the router never
    follows a pointer to a component, a route or a rate that is gone, and never reads past a packet:
    every handler runs from every state that safe calls lead to. *)
Theorem router_never_crashes conf r e : reach conf r → allowed r e → is_Some (handle r e).
Proof.
  intros Hr Ha. pose proof (reach_inv _ _ _ nameprep_cstr _ _ _ _ _ conf r Hr) as Hi.
  destruct (handle_inv _ _ _ nameprep_cstr _ _ _ _ _ conf r e Hi Ha) as (r' & -> & _). by eexists.
Qed.

(** C16: in every state that safe calls ([allowed]) lead to, the router's table and the components'
    own tables agree: a component is among those of a name exactly when it has the name itself, once; a
    name that is in the table has a component; every log sink is bound to its name; every component that
    is attached is there under its own address; and the throttled packets are in proper queues.  The
    calls that are left out do what the code is not protected against: a bind of an empty name, of one
    that an alias stands for or of one the component has already, the closing of a component whose walk over its names
    misses one, a change of the authenticated name of a component with names, a packet that cannot be
    addressed on its way.  RouterCases shows that after some of them the tables disagree. *)
Theorem router_tables_agree conf r :
  reach conf r →
  (∀ name c, c ∈ comps_of r name ↔ bound r c name) ∧
  (∀ name, NoDup (comps_of r name)) ∧
  (∀ name, is_Some (tmap (r_routes r) !! name) ↔ comps_of r name ≠ []) ∧
  (∀ name c, tmap (r_log_sinks r) !! name = Some c → bound r c name) ∧
  (∀ k c, tmap (r_components r) !! k = Some c → ∃ comp, r_comps r !! c = Some comp ∧ c_ipport comp = k) ∧
  ∀ c comp, r_comps r !! c = Some comp → queue_ok comp.
Proof.
  intros Hr. destruct (inv_ok _ _ (reach_inv _ _ _ nameprep_cstr _ _ _ _ _ conf r Hr)) as [Hro]. split_and!; try done.
  - intros name. destruct (tmap (r_routes r) !! name) as [p|] eqn:E; [|rewrite comps_of_None by done; constructor].
    destruct (ro_rt _ Hro _ _ E) as (_ & rt & Hrt & _ & Hnd & _). by rewrite (comps_of_route _ _ _ _ E Hrt).
  - intros name. split; [intros [p Hp]; by eapply comps_of_nonempty|].
    destruct (tmap (r_routes r) !! name) eqn:E; [by eexists|]. intros Hne. by rewrite comps_of_None in Hne.
Qed.

(** C18: in every reachable state a component of the present protocol has only names that it may
    have: its user's own, or any when the access list lets its user bind. *)
Theorem router_names_authorised conf r c name comp :
  reach conf r → c ∈ comps_of r name → r_comps r !! c = Some comp → c_legacy comp = false →
  authorised conf comp name = true.
Proof.
  intros Hr Hin Hc Hl. pose proof (reach_inv _ _ _ nameprep_cstr _ _ _ _ _ conf r Hr) as [Hok _ Ha].
  apply (ok_bound _ Hok) in Hin as (comp' & Hc' & Hx). assert (comp' = comp) as -> by congruence.
  destruct (Ha _ _ Hc) as [?|Hau]; [congruence|by apply Hau].
Qed.

(** Steps that need no result: a safe call from a reachable state. *)
Lemma reach_next conf r e : reach conf r → allowed r e → reach conf (default r (handle r e)).
Proof.
  intros Hr Ha. pose proof (reach_inv _ _ _ nameprep_cstr _ _ _ _ _ conf r Hr) as Hi.
  destruct (handle_inv _ _ _ nameprep_cstr _ _ _ _ _ conf r e Hi Ha) as (r' & E & _).
  rewrite E. by eapply reach_step.
Qed.

(** Tests that a change of the stream and a bind packet are safe calls. *)
Definition sx_check r c : bool :=
  match r_comps r !! c with Some comp => bool_decide (tmap (c_routes comp) = ∅) | None => true end.

Lemma sx_check_allowed r c s : sx_check r c = true → allowed r (EvSx c s).
Proof.
  unfold sx_check. cbn [RouterThms.allowed]. intros Hb comp Hc. rewrite Hc in Hb. apply bool_decide_eq_true in Hb.
  right. intros x. by rewrite Hb, lookup_empty.
Qed.

Definition bind_check r c n : bool :=
  match r_comps r !! c with
  | Some comp =>
    negb (bool_decide (s_state (c_s comp) = state_STREAM)) && negb (c_legacy comp) && bool_decide (nad_ename n 0 = tx "bind") &&
    match name_of nodeprep nameprep resourceprep n with
    | Some j => bool_decide (jid_domain j ≠ "") && forallb (λ a, negb (strcmp (al_target a) (jid_domain j) =? 0)%Z) (aliases (r_conf r)) &&
        bool_decide (c ∉ comps_of r (jid_domain j))
    | None => true
    end
  | None => false
  end.

Lemma bind_check_allowed r c n rand now : bind_check r c n = true → allowed r (EvPacket c n rand now).
Proof.
  unfold bind_check. cbn [RouterThms.allowed]. intros Hb. destruct (r_comps r !! c) as [comp|] eqn:Hc; [|done].
  apply andb_true_iff in Hb as [Hb Hn]. apply andb_true_iff in Hb as [Hb He]. apply andb_true_iff in Hb as [Hs Hl].
  apply bool_decide_eq_true in He. apply negb_true_iff in Hs, Hl.
  exists comp. split; [done|]. rewrite Hs, Hl. split_and!; [|by rewrite He; intros ?|by rewrite He; intros ?].
  intros _ j Hj. rewrite Hj in Hn. apply andb_true_iff in Hn as [Hn Hc']. apply andb_true_iff in Hn as [Hn Ha].
  apply bool_decide_eq_true in Hn, Hc'. split_and!; [done| |done].
  unfold no_alias. rewrite Forall_forall. intros a Hin. rewrite forallb_forall in Ha.
  specialize (Ha a). rewrite <- list_elem_of_In in Ha. by apply negb_true_iff, Ha.
Qed.

(** ** Deliveries *)



Lemma tget_bound r c comp name : router_ok r → r_comps r !! c = Some comp → no_nul name →
  is_Some (tget (c_routes comp) name) ↔ c ∈ comps_of r name ∧ name ≠ "".
Proof.
  intros Hr Hc Hn. rewrite (ok_bound _ Hr). destruct (decide (name = "")) as [->|Hne].
  - rewrite tget_empty. split; [by intros []|by intros []].
  - rewrite tget_ok by (done || by eapply (ok_ctab r)). unfold bound. split.
    + intros Hx. split; [by exists comp|done].
    + intros [(comp' & Hc' & Hx) _]. by simplify_eq.
Qed.

Lemma comps_of_empty r : router_ok r → comps_of r "" = [].
Proof.
  intros Hr. destruct (tmap (r_routes r) !! "") as [p|] eqn:E; [|by apply comps_of_None].
  by destruct (ro_rt _ (ok_routes _ Hr) _ _ E).
Qed.









(** ** Broadcasts *)

(** The components in the table of those attached. *)
Definition registered r (d : loc) : Prop := ∃ k, tmap (r_components r) !! k = Some d.

Lemma omap_single {A} (x : A) (d : loc) (k0 : string) (l : list (string * loc)) :
  NoDup l.*1 → (∀ k, (k, d) ∈ l → k = k0) →
  omap (λ kv : string * loc, if bool_decide (kv.2 = d) then Some x else None) l =
    if bool_decide ((k0, d) ∈ l) then [x] else [].
Proof.
  induction l as [|[k e] l IH]; intros Hnd Hk; [done|]. cbn in Hnd. apply NoDup_cons in Hnd as [Hni Hnd].
  cbn. rewrite IH by (done || intros k' Hk'; apply Hk; by right). destruct (bool_decide_reflect (e = d)) as [Ee|Ee].
  - subst e. assert (k = k0) as -> by (apply Hk; left). rewrite (bool_decide_true ((k0, d) ∈ (k0, d) :: l)) by left.
    rewrite bool_decide_false; [done|]. intros Hin. apply Hni. by apply (list_elem_of_fmap_2' fst _ (k0, d)).
  - rewrite (bool_decide_ext ((k0, d) ∈ (k, e) :: l) ((k0, d) ∈ l)); [done|].
    rewrite elem_of_cons. split; [intros [[= -> ->]|?]; done|by right].
Qed.

Lemma attr_value_copy n i name : attr_value (nad_copy n) i name = attr_value n i name.
Proof.
  unfold attr_value. assert (nad_find_attr (nad_copy n) i (-1) name None = nad_find_attr n i (-1) name None) as ->; [|done].
  unfold nad_find_attr. change (ecur (nad_copy n)) with (ecur n). destruct (_ || _); [done|].
  change (attrs (nad_copy n)) with (attrs n). change (elem_at (nad_copy n) i) with (elem_at n i).
  generalize (S (length (attrs n))) (e_attr (elem_at n i)). induction n0 as [|f IH]; intros a; [done|].
  cbn [find_attr_loop]. rewrite IH. done.
Qed.

(** A broadcast from a component that has bound the domain it claims: every component that is
    attached, the sender excepted, gets exactly one copy of the packet, and nobody else gets
    anything. *)
Theorem router_broadcast r c n from :
  router_ok r → live r c →
  attr_value n 0 "error" = None → attr_value n 0 "type" = Some (tx "broadcast") →
  attr_jid n "from" = Some from → c ∈ comps_of r (jid_domain from) →
  ∃ r', process_route r c n 0 = Some r' ∧ quiet r r' ∧
    ∀ d, ∃ l, inbox r' d = inbox r d ++ l ∧
      (registered r d ∧ d ≠ c → l = [nad_copy n]) ∧ (¬ registered r d ∨ d = c → l = []).
Proof.
  intros Hr [comp Hc] He Ht Hf Hin. unfold _router_process_route. rewrite He, Ht, bool_decide_true by done.
  fold (attr_jid n "from"). rewrite Hf. unfold route_broadcast, get_comp. rewrite Hc. cbn [mbind option_bind].
  assert (no_nul (jid_domain from)) as Hfn.
  { unfold RouterThms.attr_jid in Hf. destruct (attr_value n 0 "from") as [v|]; [|done]. by eapply reset_jid_domain. }
  destruct (proj2 (tget_bound r c comp _ Hr Hc Hfn)) as [v ->].
  { split; [done|]. intros E. rewrite E, comps_of_empty in Hin by done. by apply elem_of_nil in Hin. }
  destruct (titer_ok (r_components r)) as (Htk & Hm & Hp); [apply Hr|].
  destruct (titer (r_components r)) as [t l] eqn:Et. cbn [fst snd] in *.
  assert (∀ k d, (k, d) ∈ l ↔ tmap (r_components r) !! k = Some d) as Hl.
  { intros k d. rewrite Hp. apply elem_of_twalk. apply Hr. }
  destruct (writes_inbox (λ kv : string * loc, if bool_decide (kv.2 = c) then None else Some (kv.2, nad_copy n))
    (λ r kv, if bool_decide (kv.2 = c) then Some r else _router_comp_write r kv.2 (nad_copy n)) (set_components t r) l)
    as (r' & E & Q & Hi).
  - intros r1 kv. by case_bool_decide.
  - exact (ok_queue _ Hr).
  - intros [k d] p Hk. cbn [snd]. case_bool_decide; [done|]. intros [= <-].
    apply Hl in Hk. destruct (ok_live _ Hr _ _ Hk) as (cd & Hd & _). exists cd. split; [exact Hd|right; cbn [snd]; by rewrite attr_value_copy].
  - exists r'. split_and!; [exact E|eapply quiet_trans; [|exact Q]; by split|]. intros d.
    eexists. split; [apply (Hi d)|].
    assert (omap (λ a : string * loc, p ← (if bool_decide (a.2 = c) then None else Some (a.2, nad_copy n)); if bool_decide (p.1 = d) then Some p.2 else None) l =
      if bool_decide (d = c) then [] else omap (λ kv : string * loc, if bool_decide (kv.2 = d) then Some (nad_copy n) else None) l) as ->.
    { clear. induction l as [|[k e] l IH]; [by case_bool_decide|]. cbn. rewrite IH.
      repeat (case_bool_decide; cbn; subst); congruence. }
    split.
    + intros [[k Hk] Hdc]. rewrite bool_decide_false by done. rewrite (omap_single _ d k).
      * rewrite bool_decide_true; [done|by apply Hl].
      * rewrite Hp. by apply twalk_nodup, Hr.
      * intros k' Hk'%Hl. destruct (ok_live _ Hr _ _ Hk) as (cd & Hd & <-).
        destruct (ok_live _ Hr _ _ Hk') as (cd' & Hd' & <-). by simplify_eq.
    + intros Hno. case_bool_decide as Ed; [done|]. destruct Hno as [Hno|?]; [|done].
      clear -Hno Hl. assert (∀ k, (k, d) ∉ l) as Hnl by (intros k Hk%Hl; apply Hno; by exists k). clear Hl.
      induction l as [|[k e] l IH]; [done|]. cbn. case_bool_decide as Ee.
      * subst. destruct (Hnl k). left.
      * apply IH. intros k' Hk'. apply (Hnl k'). by right.
Qed.

(** ** Throttling *)

Lemma written_quiet_upd r c q d : written (upd_comp c (with_c_tq q) r) d = written r d.
Proof. done. Qed.

(** A component that is not throttled gets its packets at once, in order. *)
Lemma writes_direct c comp (l : list nad) r :
  r_comps r !! c = Some comp → c_tq comp = None → c_legacy comp = false →
  foldlM (λ r n, _router_comp_write r c n) r l = Some (set_out (r_out r ++ (OWrite c <$> l)) r).
Proof.
  revert r. induction l as [|n l IH]; intros r Hc Hq Hl.
  { rewrite foldlM_nil. cbn. rewrite app_nil_r. by destruct r. }
  rewrite foldlM_cons. assert (_router_comp_write r c n = Some (emit (OWrite c n) r)) as ->.
  { unfold _router_comp_write, get_comp. rewrite Hc. cbn [mbind option_bind]. by rewrite Hq, Hl. }
  cbn [mbind option_bind]. rewrite IH by done. cbn. by rewrite <- app_assoc.
Qed.

Lemma written_writes c (l : list nad) d : omap (λ o, match o with
    | OWrite e n | OWriteElem e n _ => if bool_decide (e = d) then Some n else None | _ => None end) (OWrite c <$> l) =
  if bool_decide (c = d) then l else [].
Proof. induction l as [|n l IH]; cbn; [by case_bool_decide|]. rewrite IH. by case_bool_decide. Qed.

(** Throttle packets suspend and resume the delivery to their sender, and nothing is lost,
    doubled or reordered: the first is echoed and from then on packets wait; the next is echoed
    and followed by all that waited, in order of arrival; nobody else is concerned. *)
Theorem router_throttle r c n now comp :
  router_ok r → r_comps r !! c = Some comp → c_legacy comp = false →
  ∃ r' comp', _router_process_throttle r c n now = Some r' ∧ r_comps r' !! c = Some comp' ∧
    (∀ d, d ≠ c → inbox r' d = inbox r d) ∧ pending r' c = [] ∧
    match c_tq comp with
    | None => is_Some (c_tq comp') ∧ written r' c = written r c ++ [n]
    | Some _ => c_tq comp' = None ∧ written r' c = written r c ++ n :: pending r c
    end.
Proof.
  intros Hr Hc Hl. unfold _router_process_throttle, get_comp. rewrite Hc. cbn [mbind option_bind].
  destruct (c_tq comp) as [tq|] eqn:Eq.
  - set (r1 := upd_comp c (with_c_tq None) r).
    assert (r_comps r1 !! c = Some (with_c_tq None comp)) as Hc1 by
      (unfold r1, upd_comp; cbn [r_comps set_comps]; rewrite lookup_alter_eq, Hc; done).
    destruct (ok_queue _ Hr _ _ Hc tq Eq) as [l Hrep]. rewrite (pending_rep _ _ _ _ _ Hc Eq Hrep).
    rewrite (fifo_drain tq l) by (done || by apply fifo_fuel).
    pose proof (writes_direct c _ (n :: l) r1 Hc1 eq_refl Hl) as E. rewrite foldlM_cons in E.
    destruct (_router_comp_write r1 c n) as [r2|]; [|done]. cbn [mbind option_bind] in E |- *. rewrite E.
    eexists _, _. split_and!; [done|exact Hc1|..]; try done.
    + intros d Hd. unfold inbox, written, pending, r1, upd_comp. cbn [r_out r_comps set_out set_comps].
      rewrite lookup_alter_ne by done. rewrite omap_app, written_writes, bool_decide_false by done. by rewrite app_nil_r.
    + unfold pending. cbn [r_comps set_out]. by rewrite Hc1.
    + unfold written. cbn [r_out set_out]. by rewrite omap_app, written_writes, bool_decide_true.
  - pose proof (writes_direct c _ [n] r Hc Eq Hl) as E. rewrite foldlM_cons in E.
    destruct (_router_comp_write r c n) as [r2|]; [|done]. cbn [mbind option_bind] in E |- *.
    rewrite foldlM_nil in E. injection E as ->. set (r1 := set_out _ r).
    assert (r_comps (upd_comp c (with_c_tq (Some (jqueue_new now))) r1) !! c = Some (with_c_tq (Some (jqueue_new now)) comp)) as Hc1.
    { cbn. by rewrite lookup_alter_eq, Hc. }
    eexists _, _. split_and!; [done|exact Hc1|..]; try done.
    + intros d Hd. unfold inbox, written, pending, upd_comp, r1. cbn [r_out r_comps set_out set_comps].
      rewrite lookup_alter_ne by done. rewrite omap_app. cbn. rewrite bool_decide_false by done. by rewrite app_nil_r.
    + apply (pending_rep _ _ _ _ _ Hc1 eq_refl). apply fifo_new.
    + unfold written, upd_comp, r1. cbn [r_out set_out set_comps]. rewrite omap_app. cbn. by rewrite bool_decide_true.
Qed.

(** ** Names *)

Notation process_bind := (_router_process_bind nodeprep nameprep resourceprep).
Notation process_unbind := (_router_process_unbind nodeprep nameprep resourceprep).
Notation name_of := (name_of nodeprep nameprep resourceprep).

(** A request to bind a name is refused exactly for the reasons of [bind_refusal], in their
    order (the user may not bind, the name is taken and the request is not for a shared one, the
    name is an alias, the user may not have the default route, there is one, the user may not log),
    with its code and without touching the names; otherwise the component is added to those of the
    name, its own table and the router's agree, the answer comes first, the other components are
    told of the name and the component of the names it does not serve. *)
Theorem router_bind r c n comp j :
  let name := jid_domain j in
  router_ok r → r_comps r !! c = Some comp → name_of n = Some j → name ≠ "" →
  no_alias r name → c ∉ comps_of r name →
  match bind_refusal r comp n name with
  | Some code => ∃ d, (d = r_default_route r ∨ d = default_after r n name) ∧
      process_bind r c n = Some (bounce (set_default_route d r) c n code)
  | None => ∃ r1, process_bind r c n = Some (set_out (r_out r ++ bind_outs r1 c n name) r1) ∧
      router_ok r1 ∧ r_conf r1 = r_conf r ∧ r_default_route r1 = default_after r n name ∧
      ∀ x, comps_of r1 x = if decide (x = name) then comps_of r name ++ [c] else comps_of r x
  end.
Proof.
  intros name Hr Hc Hj Hne Hal Hnew.
  pose proof (bind_spec _ _ _ nameprep_cstr r c n comp j Hr Hc Hj Hne Hal Hnew) as Hb. fold name in Hb.
  destruct (bind_refusal r comp n name); [done|].
  destruct Hb as (r1 & E & Hr1 & _ & Ek & _ & Ed & Hco). exists r1. split_and!; try done. by apply kept_conf.
Qed.

(** Binding a name and unbinding it leaves every name with the components it had before. *)
Theorem router_bind_unbind r c n n' comp j j' r1 :
  let name := jid_domain j in
  router_ok r → r_comps r !! c = Some comp → name_of n = Some j → name ≠ "" →
  no_alias r name → c ∉ comps_of r name → bind_refusal r comp n name = None →
  name_of n' = Some j' → jid_domain j' = name → process_bind r c n = Some r1 →
  ∃ r2, process_unbind r1 c n' = Some r2 ∧ router_ok r2 ∧
    (∀ x, comps_of r2 x ≡ₚ comps_of r x) ∧ ∀ d x, bound r2 d x ↔ bound r d x.
Proof.
  intros name Hr Hc Hj Hne Hal Hnew Href Hj' En E1.
  pose proof (bind_spec _ _ _ nameprep_cstr r c n comp j Hr Hc Hj Hne Hal Hnew) as Hb. fold name in Hb.
  rewrite Href in Hb. destruct Hb as (ra & Ea & Hra & _ & _ & Ec & _ & Hco).
  rewrite Ea in E1. injection E1 as <-. set (r1 := set_out _ ra).
  assert (router_ok r1) as Hr1 by by apply set_out_ok.
  destruct (r_comps r1 !! c) as [comp1|] eqn:Hc1.
  2: { change (r_comps ra !! c = None) in Hc1. by rewrite Ec, lookup_alter_eq, Hc in Hc1. }
  assert (c ∈ comps_of r1 name) as Hin.
  { change (comps_of r1 name) with (comps_of ra name). rewrite Hco, decide_True by done. apply elem_of_app. right. by left. }
  assert (jid_domain j' ≠ "") as Hne' by (by rewrite En).
  pose proof (unbind_spec _ _ _ nameprep_cstr r1 c n' comp1 j' Hr1 Hc1 Hj' Hne') as Hu.
  rewrite En, bool_decide_true in Hu by done.
  destruct Hu as (r2 & l & -> & Hr2 & _ & _ & Hl & _ & Hco2). eexists. split; [done|].
  assert (router_ok (set_out (r_out r1 ++ unbind_outs r2 c n' name) r2)) as Hr3.
  { by apply set_out_ok. }
  assert (∀ x, comps_of r2 x ≡ₚ comps_of r x) as Hp.
  { intros x. rewrite Hco2. change (comps_of r1 x) with (comps_of ra x). rewrite Hco. case_decide as Ex; [|done]. subst x.
    change (comps_of r1 name) with (comps_of ra name) in Hl. rewrite Hco, decide_True in Hl by done.
    rewrite <- Permutation_cons_append in Hl. by apply Permutation_cons_inv in Hl. }
  split_and!; [done|exact Hp|].
  intros d x. rewrite <- (ok_bound _ Hr3), <- (ok_bound _ Hr).
  change (comps_of (set_out (r_out r1 ++ unbind_outs r2 c n' name) r2) x) with (comps_of r2 x). by rewrite Hp.
Qed.

(** When a connection closes and the walk of its names reaches all of them, its component is
    gone from every name, and every other component keeps the names it had. *)
Theorem router_close r c comp :
  router_ok r → r_comps r !! c = Some comp → walk_complete comp →
  ∃ r1, mio_close r c = Some r1 ∧ router_ok r1 ∧ r_comps r1 !! c = None ∧
    (∀ d, d ≠ c → r_comps r1 !! d = r_comps r !! d) ∧
    ∀ x d, d ∈ comps_of r1 x ↔ d ∈ comps_of r x ∧ d ≠ c.
Proof.
  intros Hr Hc Hw. destruct (close_spec r c comp Hr Hc Hw) as (r1 & E & Hr1 & _ & Hn & Hd & Hx). by exists r1.
Qed.
End spec.

(** ** An example *)

(** Profiles that change nothing and refuse what is not a C string. *)
Definition prep_cstr (s : string) : option string := if no_nul s then Some s else None.
Lemma prep_cstr_ok s d : prep_cstr s = Some d → no_nul d.
Proof. unfold prep_cstr. destruct (no_nul s) eqn:E; [|done]. intros [= <-]. by rewrite E. Qed.

Definition ex_hash (s : string) : list Z := (λ a, Z.of_nat (nat_of_ascii a)) <$> String.list_ascii_of_string s.
Definition ex_pton4 (s : string) : option Z := Some 0%Z.
Definition ex_pton6 (s : string) : option (list Z) := None.

(** The users of router.xml: everything for jabberd. *)
Definition ex_config : nad :=
  built [XStart "router" []; XStart "aci" []; XStart "acl" [("type", "all")]; XStart "user" []; XCdata (tx "jabberd"); XEnd; XEnd;
         XStart "acl" [("type", "bind")]; XStart "user" []; XCdata (tx "msn"); XEnd; XEnd; XEnd; XEnd].

Definition ex_conf : @rconf xht :=
  RConf (Some "secret") [] (aci_load ex_config) (access_new 0) 0 0 0 0 0 0 false None.

Definition ex_packet (name : string) (atts : list (string * string)) (child : list xml_event) : nad :=
  built ([XStart (uri_COMPONENT +:+ "|" +:+ name) atts] ++ child ++ [XEnd]).
Definition ex_bind (name : string) : nad := ex_packet "bind" [("name", name)] [].

Notation ex_handle := (handle prep_cstr prep_cstr prep_cstr ex_hash (λ a b, bool_decide (a = b)) (λ _, false) ex_pton4 ex_pton6).
Notation ex_allowed := (allowed prep_cstr prep_cstr prep_cstr ex_hash (λ a b, bool_decide (a = b)) (λ _, false) ex_pton4 ex_pton6).
Notation ex_reach := (reach prep_cstr prep_cstr prep_cstr ex_hash (λ a b, bool_decide (a = b)) (λ _, false) ex_pton4 ex_pton6).

Definition ex_run (r : @router xht) (es : list revent) : @router xht := foldl (λ r e, default r (ex_handle r e)) r es.

(** Two components connect, authenticate, and bind a name each. *)
Definition ex_events : list revent :=
  [EvAccept 5 "10.0.0.1" 1000 "10.0.0.1:1000" 0; EvSx 0 (Sx None None "" "jabberd" state_OPEN);
   EvAccept 6 "10.0.0.2" 1000 "10.0.0.2:1000" 0; EvSx 1 (Sx None None "" "b.org@router" state_OPEN);
   EvPacket 0 (ex_bind "a.org") 0 0; EvPacket 1 (ex_bind "b.org") 0 0].
Definition ex_state (k : nat) : @router xht := ex_run (router_start ex_conf [] 0) (take k ex_events).

Example ex_names : (comps_of (ex_state 6) "a.org", comps_of (ex_state 6) "b.org") = ([0], [1]).
Proof. vm_compute. reflexivity. Qed.

Lemma ex_run_snoc r es e : ex_run r (es ++ [e]) = default (ex_run r es) (ex_handle (ex_run r es) e).
Proof. unfold ex_run. by rewrite foldl_app. Qed.

Lemma ex_next k e : ex_events !! k = Some e → ex_reach ex_conf (ex_state k) → ex_allowed (ex_state k) e → ex_reach ex_conf (ex_state (S k)).
Proof.
  intros He Hr Ha. unfold ex_state at 1. rewrite (take_S_r _ _ _ He), ex_run_snoc.
  apply (reach_next _ _ _ prep_cstr_ok); done.
Qed.

Lemma ex_reached : ex_reach ex_conf (ex_state 4) ∧ ex_reach ex_conf (ex_state 5) ∧ ex_reach ex_conf (ex_state 6).
Proof.
  assert (ex_reach ex_conf (ex_state 4)) as H4.
  { eapply ex_next; [done|eapply ex_next; [done|eapply ex_next; [done|eapply ex_next; [done| |]|]|]|].
    - apply reach_start. by constructor.
    - split; [done|split; [done|vm_compute; by eexists]].
    - apply sx_check_allowed. vm_compute. reflexivity.
    - split; [done|split; [done|vm_compute; by eexists]].
    - apply sx_check_allowed. vm_compute. reflexivity. }
  assert (ex_reach ex_conf (ex_state 5)) as H5.
  { eapply ex_next; [done|done|]. apply bind_check_allowed. vm_compute. reflexivity. }
  split_and!; [done|done|]. eapply ex_next; [done|done|]. apply bind_check_allowed. vm_compute. reflexivity.
Qed.

Lemma ex_ok k : k = 5 ∨ k = 6 → router_ok (ex_state k).
Proof.
  intros Hk. assert (ex_reach ex_conf (ex_state k)) as Hr by (destruct Hk as [-> | ->]; apply ex_reached).
  exact (inv_ok _ _ (reach_inv _ _ _ prep_cstr_ok _ _ _ _ _ _ _ Hr)).
Qed.

Definition ex_comp (k : nat) (c : loc) : @component xht :=
  default (Comp "" 0 "" 0 (Sx None None "" "" state_NONE) None false (tnew 1) false None 0) (r_comps (ex_state k) !! c).
Definition ex_jid (o : option jid) : jid := default jid_static o.
Definition ex_name (n : nad) : jid := ex_jid (name_of prep_cstr prep_cstr prep_cstr n).
Definition ex_attr (n : nad) (a : string) : jid := ex_jid (attr_jid prep_cstr prep_cstr prep_cstr n a).

Lemma router_never_crashes_witness : is_Some (ex_handle (ex_state 6) (EvPacket 0 (ex_bind "c.org") 0 0)).
Proof.
  apply (router_never_crashes _ _ _ prep_cstr_ok _ _ _ _ _ ex_conf).
  - apply ex_reached.
  - apply bind_check_allowed. vm_compute. reflexivity.
Defined.

Lemma router_tables_agree_witness :
  (∀ name c, c ∈ comps_of (ex_state 6) name ↔ bound (ex_state 6) c name) ∧
  (∀ name, NoDup (comps_of (ex_state 6) name)) ∧
  (∀ name, is_Some (tmap (r_routes (ex_state 6)) !! name) ↔ comps_of (ex_state 6) name ≠ []) ∧
  (∀ name c, tmap (r_log_sinks (ex_state 6)) !! name = Some c → bound (ex_state 6) c name) ∧
  (∀ k c, tmap (r_components (ex_state 6)) !! k = Some c → ∃ comp, r_comps (ex_state 6) !! c = Some comp ∧ c_ipport comp = k) ∧
  ∀ c comp, r_comps (ex_state 6) !! c = Some comp → queue_ok comp.
Proof. apply (router_tables_agree prep_cstr prep_cstr prep_cstr prep_cstr_ok ex_hash (λ a b, bool_decide (a = b)) (λ _, false) ex_pton4 ex_pton6 ex_conf).
  apply ex_reached. Defined.

Lemma router_names_authorised_witness : authorised ex_conf (ex_comp 6 1) "b.org" = true.
Proof.
  apply (router_names_authorised prep_cstr prep_cstr prep_cstr prep_cstr_ok ex_hash (λ a b, bool_decide (a = b)) (λ _, false) ex_pton4 ex_pton6
    ex_conf (ex_state 6) 1).
  - apply ex_reached.
  - apply (bool_decide_eq_true_1 _). vm_compute. reflexivity.
  - vm_compute. reflexivity.
  - vm_compute. reflexivity.
Defined.

Definition ex_route (from to : string) (type : list (string * string)) : nad :=
  ex_packet "route" ([("from", from); ("to", to)] ++ type) [XStart "message" []; XEnd].


Lemma router_broadcast_witness :
  let r := ex_state 6 in let n := ex_route "b.org" "a.org" [("type", "broadcast")] in
  ∃ r', _router_process_route prep_cstr prep_cstr prep_cstr ex_hash (λ a b, bool_decide (a = b)) (λ _, false) r 1 n 0 = Some r' ∧ quiet r r' ∧
    ∀ d, ∃ l, inbox r' d = inbox r d ++ l ∧
      (registered r d ∧ d ≠ 1 → l = [nad_copy n]) ∧ (¬ registered r d ∨ d = 1 → l = []).
Proof.
  intros r n. apply (router_broadcast _ _ _ prep_cstr_ok _ _ _ r 1 n (ex_attr n "from")).
  - apply ex_ok. by right.
  - exists (ex_comp 6 1). vm_compute. reflexivity.
  - vm_compute. reflexivity.
  - vm_compute. reflexivity.
  - vm_compute. reflexivity.
  - apply (bool_decide_eq_true_1 _). vm_compute. reflexivity.
Defined.

Lemma router_throttle_witness :
  let r := ex_state 6 in let n := ex_packet "throttle" [] [] in
  ∃ r' comp', _router_process_throttle r 1 n 7 = Some r' ∧ r_comps r' !! 1 = Some comp' ∧
    (∀ d, d ≠ 1 → inbox r' d = inbox r d) ∧ pending r' 1 = [] ∧
    match c_tq (ex_comp 6 1) with
    | None => is_Some (c_tq comp') ∧ written r' 1 = written r 1 ++ [n]
    | Some _ => c_tq comp' = None ∧ written r' 1 = written r 1 ++ n :: pending r 1
    end.
Proof.
  intros r n. apply (router_throttle r 1 n 7 (ex_comp 6 1)).
  - apply ex_ok. by right.
  - vm_compute. reflexivity.
  - vm_compute. reflexivity.
Defined.

Lemma router_bind_witness :
  let r := ex_state 5 in let n := ex_bind "b.org" in
  match bind_refusal r (ex_comp 5 1) n (jid_domain (ex_name n)) with
  | Some code => ∃ d, (d = r_default_route r ∨ d = default_after r n (jid_domain (ex_name n))) ∧
      _router_process_bind prep_cstr prep_cstr prep_cstr r 1 n = Some (bounce (set_default_route d r) 1 n code)
  | None => ∃ r1, _router_process_bind prep_cstr prep_cstr prep_cstr r 1 n = Some (set_out (r_out r ++ bind_outs r1 1 n (jid_domain (ex_name n))) r1) ∧
      router_ok r1 ∧ r_conf r1 = r_conf r ∧ r_default_route r1 = default_after r n (jid_domain (ex_name n)) ∧
      ∀ x, comps_of r1 x = if decide (x = jid_domain (ex_name n)) then comps_of r (jid_domain (ex_name n)) ++ [1] else comps_of r x
  end.
Proof.
  intros r n. apply (router_bind _ _ _ prep_cstr_ok r 1 n (ex_comp 5 1) (ex_name n)).
  - apply ex_ok. by left.
  - vm_compute. reflexivity.
  - vm_compute. reflexivity.
  - vm_compute. discriminate.
  - constructor.
  - apply (bool_decide_eq_true_1 _). vm_compute. reflexivity.
Defined.

Lemma router_bind_unbind_witness :
  let r := ex_state 5 in
  ∃ r2, _router_process_unbind prep_cstr prep_cstr prep_cstr (ex_state 6) 1 (ex_packet "unbind" [("name", "b.org")] []) = Some r2 ∧ router_ok r2 ∧
    (∀ x, comps_of r2 x ≡ₚ comps_of r x) ∧ ∀ d x, bound r2 d x ↔ bound r d x.
Proof.
  intros r. apply (router_bind_unbind _ _ _ prep_cstr_ok r 1 (ex_bind "b.org") (ex_packet "unbind" [("name", "b.org")] [])
    (ex_comp 5 1) (ex_name (ex_bind "b.org")) (ex_name (ex_packet "unbind" [("name", "b.org")] [])) (ex_state 6)).
  - apply ex_ok. by left.
  - vm_compute. reflexivity.
  - vm_compute. reflexivity.
  - vm_compute. discriminate.
  - constructor.
  - apply (bool_decide_eq_true_1 _). vm_compute. reflexivity.
  - vm_compute. reflexivity.
  - vm_compute. reflexivity.
  - vm_compute. reflexivity.
  - vm_compute. reflexivity.
Defined.

Lemma router_close_witness :
  let r := ex_state 6 in
  ∃ r1, mio_close r 1 = Some r1 ∧ router_ok r1 ∧ r_comps r1 !! 1 = None ∧
    (∀ d, d ≠ 1 → r_comps r1 !! d = r_comps r !! d) ∧
    ∀ x d, d ∈ comps_of r1 x ↔ d ∈ comps_of r x ∧ d ≠ 1.
Proof.
  intros r. apply (router_close r 1 (ex_comp 6 1)).
  - apply ex_ok. by right.
  - vm_compute. reflexivity.
  - intros x [v Hv]. assert (tmap (c_routes (ex_comp 6 1)) = {["b.org" := 1]}) as E.
    { apply (bool_decide_eq_true_1 _). vm_compute. reflexivity. }
    rewrite E in Hv. apply lookup_singleton_Some in Hv as [<- _].
    apply (bool_decide_eq_true_1 _). vm_compute. reflexivity.
Defined.
