(* ===== verification/RouterCases.v ===== *)
(** * Where the router goes wrong

    Closed runs of the model on small inputs: the cases that the side conditions
    of [allowed] exclude, and some answers that are not what they were meant to
    be. *)
From S2P Require Import Prelude.
From S2P Require Import CStr.
From S2P Require Import DList.
From S2P Require Import JQueue.
From S2P Require Import Rate.
From S2P Require Import Codec.
From S2P Require Import Access.
From S2P Require Import Jid.
From S2P Require Import Nad.
From S2P Require Import NadThms.
From S2P Require Import NadOps.
From S2P Require Import XHash.
From S2P Require Import Table.
From S2P Require Import Stanza.
From S2P Require Import Filter.
From S2P Require Import Router.
From S2P Require Import RouterInv.
From S2P Require Import RouterBind.
From S2P Require Import RouterRoute.
From S2P Require Import RouterThms.
From S2P Require Import RouterSpec.

Definition case_conf (al : list alias_st) (log : bool) : @rconf xht :=
  RConf (Some "secret") al (aci_load ex_config) (access_new 0) 0 0 0 0 0 0 log (Some "messages.log").

(** Two components are attached as users [u] and [v], and then the packets come. *)
Definition case_run (conf : rconf) (u v : string) (es : list revent) : option (@router xht) :=
  foldl (λ r e, r ← r; handle prep_cstr prep_cstr prep_cstr ex_hash (λ a b, bool_decide (a = b)) (λ _, false) ex_pton4 ex_pton6 r e)
    (Some (router_start conf [] 0))
    ([EvAccept 5 "10.0.0.1" 1000 "10.0.0.1:1000" 0; EvSx 0 (Sx None None "" u state_OPEN);
      EvAccept 6 "10.0.0.2" 1000 "10.0.0.2:1000" 0; EvSx 1 (Sx None None "" v state_OPEN)] ++ es).
Definition case_comps (r : option (@router xht)) (name : string) : list loc := default [] ((λ r, comps_of r name) <$> r).
Definition case_alive (r : option (@router xht)) (c : loc) : bool :=
  match r with Some r => bool_decide (is_Some (r_comps r !! c)) | None => false end.

(** An alias is bound under the name it stands for: with an alias alias.org of a.org, the
    binding of a.org puts the component twice under a.org and leaves alias.org without a route, and
    when the component is gone a.org still leads to it: the next packet for it follows a pointer
    that was freed. *)
Theorem router_alias_dangling :
  let conf := case_conf [Alias "alias.org" "a.org"] false in
  let r := case_run conf "jabberd" "b.org" [EvPacket 0 (ex_bind "a.org") 0 0; EvPacket 1 (ex_bind "b.org") 0 0] in
  let r' := case_run conf "jabberd" "b.org" [EvPacket 0 (ex_bind "a.org") 0 0; EvPacket 1 (ex_bind "b.org") 0 0; EvClose 0] in
  case_comps r "a.org" = [0; 0] ∧ case_comps r "alias.org" = [] ∧
  case_comps r' "a.org" = [0] ∧ case_alive r' 0 = false ∧ case_alive r' 1 = true ∧
  case_run conf "jabberd" "b.org" [EvPacket 0 (ex_bind "a.org") 0 0; EvPacket 1 (ex_bind "b.org") 0 0; EvClose 0;
    EvPacket 1 (ex_route "b.org" "a.org" []) 0 0] = None.
Proof. vm_compute. done. Qed.

(** A component that binds a shared name twice is in the list twice and leaves it once. *)
Theorem router_double_bind_dangling :
  let bind := ex_packet "bind" [("name", "a.org"); ("multi", "1")] [] in
  let r := case_run (case_conf [] false) "jabberd" "b.org" [EvPacket 0 bind 0 0; EvPacket 0 bind 0 0; EvClose 0] in
  case_comps r "a.org" = [0] ∧ case_alive r 0 = false ∧ case_alive r 1 = true.
Proof. vm_compute. done. Qed.

(** A request for the default route and for the log that is refused for the log has set the
    default route all the same: its name is not bound, and nobody else can take the default route. *)
Theorem router_refused_default_route :
  let child := [XStart (uri_COMPONENT +:+ "|default") []; XEnd; XStart (uri_COMPONENT +:+ "|log") []; XEnd] in
  let conf := RConf (Some "secret") []
    (aci_load (built [XStart "router" []; XStart "aci" []; XStart "acl" [("type", "default-route")]; XStart "user" []; XCdata (tx "msn"); XEnd; XEnd; XEnd; XEnd]))
    (access_new 0) 0 0 0 0 0 0 false None in
  let r := case_run conf "msn" "b.org" [EvPacket 0 (ex_packet "bind" [("name", "msn")] child) 0 0] in
  case_comps r "msn" = [] ∧ (r_default_route <$> r) = Some (Some "msn").
Proof. vm_compute. done. Qed.

(** The walk that unbinds the names of a closed connection zaps the entries it stands on and so
    skips some: with these three names, which share a bucket, rooms.example.org still leads to the
    component that was freed, and a packet for it follows the pointer. *)
Theorem router_close_skips_names :
  let binds := [EvPacket 0 (ex_bind "irc.example.org") 0 0; EvPacket 0 (ex_bind "rooms.example.org") 0 0;
                EvPacket 0 (ex_bind "proxy.example.org") 0 0; EvPacket 1 (ex_bind "b.org") 0 0; EvClose 0] in
  let r := case_run (case_conf [] false) "jabberd" "b.org" binds in
  case_comps r "irc.example.org" = [] ∧ case_comps r "rooms.example.org" = [0] ∧
  case_alive r 0 = false ∧ case_alive r 1 = true ∧
  case_run (case_conf [] false) "jabberd" "b.org" (binds ++ [EvPacket 1 (ex_route "b.org" "rooms.example.org" []) 0 0]) = None.
Proof. vm_compute. done. Qed.

(** A packet for a name that several components share, whose stanza is addressed to what is not
    a jid, crashes the router: the address by which a component is chosen is NULL. *)
Theorem router_shared_name_crash :
  let bind := ex_packet "bind" [("name", "a.org"); ("multi", "1")] [] in
  let binds := [EvPacket 0 bind 0 0; EvPacket 1 bind 0 0; EvPacket 1 (ex_bind "jabberd") 0 0] in
  case_alive (case_run (case_conf [] false) "jabberd" "jabberd" binds) 1 = true ∧
  case_run (case_conf [] false) "jabberd" "jabberd" (binds ++
    [EvPacket 1 (ex_packet "route" [("from", "jabberd"); ("to", "a.org")] [XStart "message" [("to", "@")]; XEnd]) 0 0]) = None.
Proof. vm_compute. done. Qed.

(** When the log file does not open, the message goes on to its destination with every newline
    of its body replaced by the control character 1. *)
Theorem message_log_spoils_newlines :
  let n := built [XStart "route" []; XStart "message" []; XStart "body" []; XCdata [char_of 104; char_of 10; char_of 105]; XEnd; XEnd; XEnd] in
  let r := router_start (case_conf [] true) [] 0 in
  nad_cdata (message_log (λ _, false) r n "a" "b").2 2 = [char_of 104; char_of 1; char_of 105] ∧
  nad_cdata (message_log (λ _, true) r n "a" "b").2 2 = [char_of 104; char_of 10; char_of 105].
Proof. vm_compute. done. Qed.

