(* ===== verification/Datetime.v ===== *)
(** * Dates: util/datetime.c

    [datetime_out] with the [gmtime] of the C library and the conversions of
    [snprintf] that it uses.  The year is printed as it is: years past 9999
    make the text longer than its buffer, which cuts it. *)
From S2P Require Import Prelude.
From S2P Require Import CStr.
From S2P Require Import Str.
From S2P Require Import Codec.
From S2P Require Import Nad.
From S2P Require Import Stanza.
From stdpp Require Import pretty.

(** ** printf *)

(** [%d] *)
Definition fmt_d (z : Z) : string := pretty z.

Fixpoint zeros (n : nat) : string := match n with O => "" | S n => String "0" (zeros n) end.

(** [%0wd]: zeros between the sign and the digits, up to the width. *)
Definition fmt_0d (w : nat) (z : Z) : string :=
  let digits := fmt_d (Z.abs z) in
  let sign := if (z <? 0)%Z then "-" else "" in
  sign +:+ zeros (w - String.length digits - String.length sign) +:+ digits.

(** [snprintf(buf, size, "%s", s)] *)
Definition snprintf (size : nat) (s : string) : string := sprint size (tx s).

(** ** gmtime *)

(** The fields of [struct tm] that are used, as the C library counts them. *)
Record tm := Tm { tm_year : Z; tm_mon : Z; tm_mday : Z; tm_hour : Z; tm_min : Z; tm_sec : Z }.

(** The day of a four hundred year cycle that starts on the first of March. *)
Definition civil_of_day (doe : Z) : Z * Z * Z :=
  let yoe := ((doe - doe / 1460 + doe / 36524 - doe / 146096) / 365)%Z in
  let doy := (doe - (365 * yoe + yoe / 4 - yoe / 100))%Z in
  let mp := ((5 * doy + 2) / 153)%Z in
  let d := (doy - (153 * mp + 2) / 5 + 1)%Z in
  let m := (if mp <? 10 then mp + 3 else mp - 9)%Z in
  ((if m <=? 2 then yoe + 1 else yoe)%Z, m, d).

Definition gmtime (t : Z) : tm :=
  let days := (t / 86400 + 719468)%Z in
  let '(y, m, d) := civil_of_day (days `mod` 146097) in
  let s := (t `mod` 86400)%Z in
  Tm (y + days / 146097 * 400 - 1900) (m - 1) d (s / 3600) (s `mod` 3600 / 60) (s `mod` 60).

(** ** datetime_out *)

Inductive datetime_t := dt_DATE | dt_TIME | dt_DATETIME | dt_LEGACY.

Definition datetime_text (gmt : tm) (type : datetime_t) : string :=
  let year := fmt_0d 4 (tm_year gmt + 1900) in
  let mon := fmt_0d 2 (tm_mon gmt + 1) in
  let mday := fmt_0d 2 (tm_mday gmt) in
  let clock := fmt_0d 2 (tm_hour gmt) +:+ ":" +:+ fmt_0d 2 (tm_min gmt) +:+ ":" +:+ fmt_0d 2 (tm_sec gmt) in
  match type with
  | dt_DATE => year +:+ "-" +:+ mon +:+ "-" +:+ mday
  | dt_TIME => clock +:+ "Z"
  | dt_DATETIME => year +:+ "-" +:+ mon +:+ "-" +:+ mday +:+ "T" +:+ clock +:+ "Z"
  | dt_LEGACY => year +:+ mon +:+ mday +:+ "T" +:+ clock
  end.

Definition datetime_out (t : Z) (type : datetime_t) (datelen : nat) : string :=
  snprintf datelen (datetime_text (gmtime t) type).

(** ** Lemmas *)

(** The days before a date, counted from 1970: what [gmtime] inverts. *)
Definition days_from_civil (y m d : Z) : Z :=
  let y := (if m <=? 2 then y - 1 else y)%Z in
  let yoe := (y `mod` 400)%Z in
  let doy := ((153 * (if 2 <? m then m - 3 else m + 9) + 2) / 5 + d - 1)%Z in
  (y / 400 * 146097 + (yoe * 365 + yoe / 4 - yoe / 100 + doy) - 719468)%Z.

Definition timegm (x : tm) : Z :=
  (days_from_civil (tm_year x + 1900) (tm_mon x + 1) (tm_mday x) * 86400 + tm_hour x * 3600 + tm_min x * 60 + tm_sec x)%Z.

Definition leap (y : Z) : bool := ((y `mod` 4 =? 0) && (negb (y `mod` 100 =? 0) || (y `mod` 400 =? 0)))%Z.
Definition month_days (y m : Z) : Z :=
  (if m =? 2 then if leap y then 29 else 28
   else if (m =? 4) || (m =? 6) || (m =? 9) || (m =? 11) then 30 else 31)%Z.

Fixpoint check_range (f : Z → bool) (k : nat) (z : Z) : bool :=
  match k with O => true | S k => f z && check_range f k (z + 1) end.

Lemma check_range_ok f k z i : check_range f k z = true → (z <= i < z + Z.of_nat k)%Z → f i = true.
Proof.
  revert z. induction k as [|k IH]; intros z Hc Hi; [lia|]. cbn in Hc. apply andb_true_iff in Hc as [Hz Hc].
  destruct (decide (i = z)) as [->|]; [done|]. apply (IH (z + 1)%Z Hc). lia.
Qed.

(** The years of a cycle: the first and the last day of each. *)
Definition first_day (y : Z) : Z := (365 * y + y / 4 - y / 100)%Z.
Definition last_day (y : Z) : Z := (if y =? 399 then 146096 else first_day (y + 1) - 1)%Z.
Definition year_of_day (doe : Z) : Z := ((doe - doe / 1460 + doe / 36524 - doe / 146096) / 365)%Z.

Definition year_check (y : Z) : bool :=
  ((year_of_day (first_day y) =? y) && (year_of_day (last_day y) =? y) &&
   (last_day y - first_day y =? if leap (y + 1) then 365 else 364))%Z.

Lemma years_checked y : (0 <= y < 400)%Z → year_check y = true.
Proof.
  assert (check_range year_check 400 0 = true) as Hc by (vm_compute; reflexivity).
  intros. apply (check_range_ok _ _ _ _ Hc). lia.
Qed.

Lemma year_of_day_mono a b : (0 <= a <= b)%Z → (year_of_day a <= year_of_day b)%Z.
Proof.
  intros [Ha Hab]. replace b with (a + Z.of_nat (Z.to_nat (b - a)))%Z by lia.
  induction (Z.to_nat (b - a)) as [|n IH]; [by rewrite Z.add_0_r|].
  etrans; [exact IH|]. unfold year_of_day. apply Z.div_le_mono; [lia|]. clear IH.
  replace (a + Z.of_nat (S n))%Z with (a + Z.of_nat n + 1)%Z by lia.
  set (c := (a + Z.of_nat n)%Z). assert (0 <= c)%Z by lia. clearbody c. Z.div_mod_to_equations. lia.
Qed.

Lemma year_of_day_spec doe : (0 <= doe < 146097)%Z →
  let y := year_of_day doe in (0 <= y < 400 ∧ first_day y <= doe <= last_day y)%Z.
Proof.
  intros Hd y.
  assert (0 <= y < 400)%Z as Hy.
  { pose proof (year_of_day_mono 0 doe ltac:(lia)) as H0. pose proof (year_of_day_mono doe 146096 ltac:(lia)) as H1.
    change (year_of_day 0) with 0%Z in H0. change (year_of_day 146096) with 399%Z in H1. fold y in H0, H1. lia. }
  pose proof (years_checked y Hy) as Hc. unfold year_check in Hc. rewrite !andb_true_iff, !Z.eqb_eq in Hc.
  split; [done|]. split.
  - destruct (decide (first_day y <= doe)%Z); [done|]. assert (y ≠ 0)%Z.
    { intros E. rewrite E in *. change (first_day 0) with 0%Z in *. lia. }
    pose proof (years_checked (y - 1) ltac:(lia)) as Hp. unfold year_check in Hp. rewrite !andb_true_iff, !Z.eqb_eq in Hp.
    unfold last_day in Hp. replace (y - 1 + 1)%Z with y in Hp by lia. destruct (Z.eqb_spec (y - 1) 399); [lia|].
    pose proof (year_of_day_mono doe (first_day y - 1) ltac:(lia)) as Hm. fold y in Hm. lia.
  - destruct (decide (doe <= last_day y)%Z); [done|]. unfold last_day in *.
    destruct (Z.eqb_spec y 399); [lia|].
    pose proof (years_checked (y + 1) ltac:(lia)) as Hp. unfold year_check in Hp. rewrite !andb_true_iff, !Z.eqb_eq in Hp.
    pose proof (year_of_day_mono (first_day (y + 1)) doe) as Hm.
    assert (0 <= first_day (y + 1))%Z by (unfold first_day; Z.div_mod_to_equations; lia).
    specialize (Hm ltac:(lia)). fold y in Hm. lia.
Qed.

(** The days of a year that starts in March: the last one is the 29th of February. *)
Definition day_check (doy : Z) : bool :=
  let mp := ((5 * doy + 2) / 153)%Z in
  let d := (doy - (153 * mp + 2) / 5 + 1)%Z in
  let m := (if mp <? 10 then mp + 3 else mp - 9)%Z in
  ((1 <=? m) && (m <=? 12) && (1 <=? d) &&
   ((d <=? month_days 1 m) || ((m =? 2) && (d =? 29) && (doy =? 365))) &&
   ((153 * (if 2 <? m then m - 3 else m + 9) + 2) / 5 + d - 1 =? doy))%Z.

Lemma days_checked doy : (0 <= doy <= 365)%Z → day_check doy = true.
Proof.
  assert (check_range day_check 366 0 = true) as Hc by (vm_compute; reflexivity).
  intros. apply (check_range_ok _ _ _ _ Hc). lia.
Qed.

(** Every day of a cycle has a date of the calendar, and its number is the day's. *)
Lemma civil_of_day_spec doe : (0 <= doe < 146097)%Z →
  let '(y, m, d) := civil_of_day doe in
  (1 <= m <= 12 ∧ 1 <= d <= month_days y m)%Z ∧ days_from_civil y m d = (doe - 719468)%Z.
Proof.
  intros Hd. destruct (year_of_day_spec doe Hd) as [Hy Hr]. unfold civil_of_day. fold (year_of_day doe).
  set (y := year_of_day doe) in *. cbv zeta. fold (first_day y). set (doy := (doe - first_day y)%Z).
  pose proof (years_checked y Hy) as Hc. unfold year_check in Hc. rewrite !andb_true_iff, !Z.eqb_eq in Hc. destruct Hc as [_ Hl].
  assert (0 <= doy <= 365)%Z as Hdoy by (destruct (leap (y + 1)); lia).
  pose proof (days_checked doy Hdoy) as Hk. unfold day_check in Hk. cbv zeta in Hk.
  set (mp := ((5 * doy + 2) / 153)%Z) in *. set (d := (doy - (153 * mp + 2) / 5 + 1)%Z) in *.
  set (m := (if (mp <? 10)%Z then (mp + 3)%Z else (mp - 9)%Z)) in *. clearbody m d.
  rewrite !andb_true_iff, orb_true_iff, !andb_true_iff, !Z.leb_le, !Z.eqb_eq in Hk.
  destruct Hk as [[[[Hm1 Hm2] Hd1] Hd2] Hdd]. split_and!; [done..| |].
  - unfold month_days in *. destruct Hd2 as [Hd2|[[Em Ed] Ey]].
    + assert (leap 1 = false) as E1 by done. rewrite E1 in Hd2. destruct (m =? 2)%Z; [|done]. set (b := leap _). clearbody b. destruct b; lia.
    + rewrite Em, Ed. assert (leap (y + 1) = true) as E by (destruct (leap (y + 1)); [done|lia]).
      change (2 <=? 2)%Z with true. change (2 =? 2)%Z with true. cbv iota. by rewrite E.
  - unfold days_from_civil. rewrite Hdd. destruct (m <=? 2)%Z.
    + replace (y + 1 - 1)%Z with y by lia. rewrite Z.mod_small, Z.div_small by lia. unfold doy, first_day. lia.
    + rewrite Z.mod_small, Z.div_small by lia. unfold doy, first_day. lia.
Qed.

Lemma leap_cycle y k : leap (y + k * 400) = leap y.
Proof.
  unfold leap. replace (k * 400)%Z with (k * 100 * 4)%Z by lia. rewrite Z.mod_add by lia.
  replace (k * 100 * 4)%Z with (k * 4 * 100)%Z by lia. rewrite Z.mod_add by lia.
  replace (k * 4 * 100)%Z with (k * 400)%Z by lia. by rewrite Z.mod_add by lia.
Qed.

Lemma days_cycle y m d k :
  days_from_civil (y + k * 400) m d = (days_from_civil y m d + k * 146097)%Z.
Proof.
  unfold days_from_civil. destruct (m <=? 2)%Z.
  - replace (y + k * 400 - 1)%Z with (y - 1 + k * 400)%Z by lia. rewrite Z.mod_add, Z.div_add by lia. lia.
  - rewrite Z.mod_add, Z.div_add by lia. lia.
Qed.

Lemma gmtime_fields t :
  let x := gmtime t in
  (1 <= tm_mon x + 1 <= 12 ∧ 1 <= tm_mday x <= month_days (tm_year x + 1900) (tm_mon x + 1) ∧
   0 <= tm_hour x < 24 ∧ 0 <= tm_min x < 60 ∧ 0 <= tm_sec x < 60)%Z ∧ timegm x = t.
Proof.
  unfold gmtime, timegm. cbv zeta. set (days := (t / 86400 + 719468)%Z).
  pose proof (Z.mod_pos_bound days 146097) as Hd. specialize (Hd ltac:(lia)).
  pose proof (civil_of_day_spec (days `mod` 146097) Hd) as Hc.
  destruct (civil_of_day _) as [[y m] d]. cbn [tm_year tm_mon tm_mday tm_hour tm_min tm_sec].
  pose proof (Z.mod_pos_bound t 86400 ltac:(lia)) as Hs. pose proof (Z.div_mod t 86400 ltac:(lia)).
  pose proof (Z.div_mod days 146097 ltac:(lia)).
  destruct Hc as [(Hm & Hmd) Hday].
  replace (y + days / 146097 * 400 - 1900 + 1900)%Z with (y + days / 146097 * 400)%Z by lia.
  replace (m - 1 + 1)%Z with m by lia. rewrite days_cycle, Hday.
  assert (month_days (y + days / 146097 * 400) m = month_days y m) as -> by (unfold month_days; by rewrite leap_cycle).
  set (s := (t `mod` 86400)%Z) in *. clear Hday.
  pose proof (Z.div_mod s 3600 ltac:(lia)). pose proof (Z.mod_pos_bound s 3600 ltac:(lia)).
  pose proof (Z.div_mod (s `mod` 3600) 60 ltac:(lia)). pose proof (Z.mod_pos_bound (s `mod` 3600) 60 ltac:(lia)).
  assert ((s `mod` 60) = (s `mod` 3600) `mod` 60)%Z as ->.
  { replace 3600%Z with (60 * 60)%Z by lia. rewrite Z.rem_mul_r by lia.
    replace (s `mod` 60 + 60 * ((s / 60) `mod` 60))%Z with (s `mod` 60 + ((s / 60) `mod` 60) * 60)%Z by lia.
    by rewrite Z.mod_add, Z.mod_mod by lia. }
  split_and!; try lia; try (apply Z.div_pos; lia); apply Z.div_lt_upper_bound; lia.
Qed.

(** A number that fits its field is printed in that many characters, none of
    them NUL, and is read back. *)
Definition field_check (w : nat) (z : Z) : bool :=
  let s := fmt_0d w z in bool_decide (String.length s = w) && no_nul s && (atoi s =? z)%Z.

Lemma field_ok w z : (w = 2%nat ∧ 0 <= z < 100 ∨ w = 4%nat ∧ 0 <= z < 10000)%Z →
  String.length (fmt_0d w z) = w ∧ no_nul (fmt_0d w z) ∧ atoi (fmt_0d w z) = z.
Proof.
  intros Hz. assert (field_check w z = true) as Hc.
  { assert (check_range (field_check 2) 100 0 = true) as H2 by (vm_compute; reflexivity).
    assert (check_range (field_check 4) (Z.to_nat 10000) 0 = true) as H4 by (vm_compute; reflexivity).
    destruct Hz as [[-> ?]|[-> ?]]; [apply (check_range_ok _ _ _ _ H2)|apply (check_range_ok _ _ _ _ H4)]; lia. }
  unfold field_check in Hc. rewrite !andb_true_iff, bool_decide_eq_true, Z.eqb_eq in Hc.
  destruct Hc as [[? ?] ?]. split_and!; [done|by apply Is_true_true|done].
Qed.

(** Days grow with the year. *)
Lemma days_from_year y m d : (1 <= m <= 12)%Z → (1 <= d <= 31)%Z →
  (0 <= y ↔ -719528 <= days_from_civil y m d)%Z ∧ (y < 10000 ↔ days_from_civil y m d < 2932897)%Z.
Proof.
  intros Hm Hd. unfold days_from_civil.
  assert (∀ a, 0 <= a < 400 → 0 <= a / 4 - a / 100 <= 96 ∧ (a = 399 → a / 4 - a / 100 = 96))%Z as Ha.
  { intros a Ha. Z.div_mod_to_equations. lia. }
  destruct (Z.leb_spec m 2).
  - destruct (Z.ltb_spec 2 m); [lia|].
    assert (((153 * (m + 9) + 2) / 5 = 306 + 31 * (m - 1))%Z) as -> by (assert (m = 1 ∨ m = 2)%Z as [-> | ->] by lia; done).
    pose proof (Z.div_mod (y - 1) 400 ltac:(lia)). pose proof (Z.mod_pos_bound (y - 1) 400 ltac:(lia)).
    destruct (Ha ((y - 1) `mod` 400)%Z ltac:(lia)) as [? ?]. generalize dependent ((y - 1) `mod` 400)%Z. intros r.
    generalize (r / 4)%Z (r / 100)%Z ((y - 1) / 400)%Z. intros. clear Ha. split; split; lia.
  - destruct (Z.ltb_spec 2 m); [|lia].
    assert (0 <= (153 * (m - 3) + 2) / 5 <= 275)%Z.
    { split; [apply Z.div_pos; lia|]. apply Z.lt_succ_r, Z.div_lt_upper_bound; lia. }
    pose proof (Z.div_mod y 400 ltac:(lia)). pose proof (Z.mod_pos_bound y 400 ltac:(lia)).
    destruct (Ha (y `mod` 400)%Z ltac:(lia)) as [? ?]. generalize dependent (y `mod` 400)%Z. intros r.
    generalize dependent ((153 * (m - 3) + 2) / 5)%Z. intros doy.
    generalize (r / 4)%Z (r / 100)%Z (y / 400)%Z. intros. clear Ha. split; split; lia.
Qed.

Lemma gmtime_year t : (-62167219200 <= t < 253402300800)%Z → (0 <= tm_year (gmtime t) + 1900 < 10000)%Z.
Proof.
  intros Ht. generalize (gmtime_fields t). cbv zeta. generalize (gmtime t). intros x [(Hm & Hd & Hh & Hmi & Hs) Hg].
  unfold timegm in Hg.
  assert (month_days (tm_year x + 1900) (tm_mon x + 1) <= 31)%Z by (unfold month_days; repeat case_match; lia).
  destruct (days_from_year (tm_year x + 1900) _ (tm_mday x) Hm ltac:(lia)) as [H0 H1].
  split; [apply H0|apply H1]; lia.
Qed.

Lemma append_inj a b c d : String.length a = String.length c → a +:+ b = c +:+ d → a = c ∧ b = d.
Proof.
  revert c. induction a as [|x a IH]; intros [|y c]; try done. intros [= Hl] [= -> E].
  destruct (IH c Hl E) as [-> ->]. done.
Qed.

(** The fields of a date in the range, as they are printed. *)
Lemma gmtime_printed t : (-62167219200 <= t < 253402300800)%Z → let x := gmtime t in
  Forall (λ wz, (String.length (fmt_0d wz.1 wz.2) = wz.1 ∧ no_nul (fmt_0d wz.1 wz.2) ∧ atoi (fmt_0d wz.1 wz.2) = wz.2))
    [(4%nat, tm_year x + 1900)%Z; (2%nat, tm_mon x + 1)%Z; (2%nat, tm_mday x); (2%nat, tm_hour x); (2%nat, tm_min x); (2%nat, tm_sec x)].
Proof.
  intros Ht x. pose proof (gmtime_year t Ht) as Hy. destruct (gmtime_fields t) as [(Hm & Hd & Hh & Hmi & Hs) _]. fold x in Hy, Hm, Hd, Hh, Hmi, Hs.
  assert (month_days (tm_year x + 1900) (tm_mon x + 1) <= 31)%Z by (unfold month_days; repeat case_match; lia).
  repeat constructor; cbn [fst snd]; apply field_ok; lia.
Qed.

(** Such a time prints as 20 characters, which a buffer of 21 holds. *)
Lemma datetime_out_fits u : (-62167219200 <= u < 253402300800)%Z →
  datetime_out u dt_DATETIME 21 = datetime_text (gmtime u) dt_DATETIME ∧
  String.length (datetime_text (gmtime u) dt_DATETIME) = 20%nat.
Proof.
  intros Hu. pose proof (gmtime_printed u Hu) as Hp. cbv zeta in Hp. rewrite !Forall_cons in Hp. cbn [fst snd] in Hp.
  destruct Hp as ((Ey & Ny & _) & (Em & Nm & _) & (Ed & Nd & _) & (Eh & Nh & _) & (Ei & Ni & _) & (Es & Ns & _) & _).
  assert (String.length (datetime_text (gmtime u) dt_DATETIME) = 20%nat) as El.
  { unfold datetime_text. rewrite !sapp_length. cbn [String.length]. lia. }
  split; [|done]. unfold datetime_out, snprintf, sprint. rewrite take_ge.
  - apply tx_inj, cstr_of_tx. apply chars_no_nul. unfold datetime_text. rewrite !no_nul_app. by repeat (apply andb_True; split).
  - unfold tx. rewrite chars_length. lia.
Qed.
Lemma datetime_out_text u : (-62167219200 <= u < 253402300800)%Z →
  datetime_out u dt_DATETIME 21 = datetime_text (gmtime u) dt_DATETIME.
Proof. intros Hu. by apply datetime_out_fits. Qed.

(** A time of the years 0 to 9999 prints as 20 characters, which a buffer of 21 holds, and no
    two times print the same: the identifiers and stamps made of it tell the seconds apart. *)
Theorem datetime_out_injective t t' :
  (-62167219200 <= t < 253402300800)%Z → (-62167219200 <= t' < 253402300800)%Z →
  strlen (datetime_out t dt_DATETIME 21) = 20%Z ∧
  (datetime_out t dt_DATETIME 21 = datetime_out t' dt_DATETIME 21 → t = t').
Proof.
  intros Ht Ht'. destruct (datetime_out_fits t Ht) as [-> El], (datetime_out_fits t' Ht') as [-> El']. split; [unfold strlen; lia|].
  pose proof (gmtime_printed t Ht) as Hp. pose proof (gmtime_printed t' Ht') as Hp'. cbv zeta in Hp, Hp'.
  rewrite !Forall_cons in Hp, Hp'. cbn [fst snd] in Hp, Hp'.
  destruct Hp as ((Ey & _ & Ay) & (Em & _ & Am) & (Ed & _ & Ad) & (Eh & _ & Ah) & (Ei & _ & Ai) & (Es & _ & As) & _).
  destruct Hp' as ((Ey' & _ & Ay') & (Em' & _ & Am') & (Ed' & _ & Ad') & (Eh' & _ & Ah') & (Ei' & _ & Ai') & (Es' & _ & As') & _).
  unfold datetime_text. intros E.
  apply append_inj in E as [E1 E]; [|congruence]. apply append_inj in E as [_ E]; [|done].
  apply append_inj in E as [E2 E]; [|congruence]. apply append_inj in E as [_ E]; [|done].
  apply append_inj in E as [E3 E]; [|congruence]. apply append_inj in E as [_ E]; [|done].
  rewrite <- !sapp_assoc in E.
  apply append_inj in E as [E4 E]; [|congruence]. apply append_inj in E as [_ E]; [|done].
  apply append_inj in E as [E5 E]; [|congruence]. apply append_inj in E as [_ E]; [|done].
  apply append_inj in E as [E6 E]; [|congruence].
  rewrite <- (proj2 (gmtime_fields t)), <- (proj2 (gmtime_fields t')). unfold timegm. congruence.
Qed.

Lemma datetime_out_injective_witness :
  datetime_out 951782400 dt_DATETIME 21 = "2000-02-29T00:00:00Z" ∧ strlen (datetime_out 951782400 dt_DATETIME 21) = 20%Z.
Proof. split; [vm_compute; reflexivity|]. apply (datetime_out_injective 951782400 951782400); lia. Defined.

(** ** Dates read back: [datetime_in] of util/datetime.c

    The formats of [sscanf] as lists of directives, each of which assigns to a
    field: what an attempt that fails has assigned stays.  The conversion [%lf],
    [mktime] and the time zone of [gettimeofday] are of the C library. *)

(** The integer part of the number that [%lf] reads, and what follows it; [mktime] of a time of which it is not known
    whether it is daylight saving time; [tz_minuteswest]. *)
Class Libc := {
  lc_strtod : string → option (Z * string);
  lc_mktime : tm → Z;
  lc_minuteswest : Z
}.

(** ** sscanf *)

Inductive dt_field := F_year | F_mon | F_mday | F_hour | F_min | F_off_hour | F_off_min.
Inductive directive := D_int (width : nat) (f : dt_field) | D_sec | D_lit (c : ascii).

(** The variables [gmt], [off] and [sec]. *)
Record dt_vars := DtVars { v_gmt : tm; v_off_hour : Z; v_off_min : Z; v_sec : Z }.

Definition put_field (f : dt_field) (z : Z) (v : dt_vars) : dt_vars :=
  let '(Tm y mo d h mi s) := v_gmt v in
  match f with
  | F_year => DtVars (Tm z mo d h mi s) (v_off_hour v) (v_off_min v) (v_sec v)
  | F_mon => DtVars (Tm y z d h mi s) (v_off_hour v) (v_off_min v) (v_sec v)
  | F_mday => DtVars (Tm y mo z h mi s) (v_off_hour v) (v_off_min v) (v_sec v)
  | F_hour => DtVars (Tm y mo d z mi s) (v_off_hour v) (v_off_min v) (v_sec v)
  | F_min => DtVars (Tm y mo d h z s) (v_off_hour v) (v_off_min v) (v_sec v)
  | F_off_hour => DtVars (v_gmt v) z (v_off_min v) (v_sec v)
  | F_off_min => DtVars (v_gmt v) (v_off_hour v) z (v_sec v)
  end.
Definition put_sec (z : Z) (v : dt_vars) : dt_vars := DtVars (v_gmt v) (v_off_hour v) (v_off_min v) z.

(** At most [w] digits: how many, their value, and what follows. *)
Fixpoint scan_digits (w : nat) (acc : Z) (s : string) : nat * Z * string :=
  match w, s with
  | S w, String c s' =>
    if isdigit c then let '(k, z, r) := scan_digits w (acc * 10 + (uchar c - 48)) s' in (S k, z, r) else (0, acc, s)
  | _, _ => (0, acc, s)
  end.

(** [%0wd]: the sign is part of the width. *)
Definition scan_int (w : nat) (s : string) : option (Z * string) :=
  let s := skip_spaces s in
  let '(neg, w, s) := match s with
                      | String c s' => if bool_decide (c = "-"%char) then (true, w - 1, s')
                                       else if bool_decide (c = "+"%char) then (false, w - 1, s') else (false, w, s)
                      | EmptyString => (false, w, s)
                      end in
  match scan_digits w 0 s with
  | (O, _, _) => None
  | (_, z, r) => Some ((if neg : bool then - z else z)%Z, r)
  end.

Section scan.
Context `{Libc}.

(** The variables, and how many were assigned. *)
Fixpoint sscanf (ds : list directive) (k : nat) (v : dt_vars) (s : string) : dt_vars * nat :=
  match ds with
  | [] => (v, k)
  | D_int w f :: ds => match scan_int w s with Some (z, r) => sscanf ds (S k) (put_field f z v) r | None => (v, k) end
  | D_sec :: ds => match lc_strtod s with Some (z, r) => sscanf ds (S k) (put_sec z v) r | None => (v, k) end
  | D_lit c :: ds => match s with String d r => if bool_decide (c = d) then sscanf ds k v r else (v, k) | EmptyString => (v, k) end
  end.

(** ** The formats *)

Definition dt_clock : list directive := [D_int 2 F_hour; D_lit ":"; D_int 2 F_min; D_lit ":"; D_sec].
Definition dt_day : list directive := [D_int 4 F_year; D_lit "-"; D_int 2 F_mon; D_lit "-"; D_int 2 F_mday; D_lit "T"].
Definition dt_offset (sign : ascii) : list directive := [D_lit sign; D_int 2 F_off_hour; D_lit ":"; D_int 2 F_off_min].
Definition DT_DATETIME_P : list directive := dt_day ++ dt_clock ++ dt_offset "+".
Definition DT_DATETIME_M : list directive := dt_day ++ dt_clock ++ dt_offset "-".
Definition DT_DATETIME_Z : list directive := dt_day ++ dt_clock ++ [D_lit "Z"].
Definition DT_TIME_P : list directive := dt_clock ++ dt_offset "+".
Definition DT_TIME_M : list directive := dt_clock ++ dt_offset "-".
Definition DT_TIME_Z : list directive := dt_clock ++ [D_lit "Z"].
Definition DT_LEGACY : list directive := [D_int 4 F_year; D_int 2 F_mon; D_int 2 F_mday; D_lit "T"] ++ dt_clock.

(** ** datetime_in *)

(** The seconds; and the year and the month as [struct tm] counts them. *)
Definition set_sec (v : dt_vars) : tm :=
  let '(Tm y mo d h mi _) := v_gmt v in Tm y mo d h mi (v_sec v).
Definition set_date (v : dt_vars) : tm :=
  let '(Tm y mo d h mi s) := set_sec v in Tm (y - 1900) (mo - 1) d h mi s.

Definition offset_of (v : dt_vars) : Z := (v_off_hour v * 3600 + v_off_min v * 60)%Z.
Definition to_time (gmt : tm) (fix_ : Z) : Z := (lc_mktime gmt + fix_ - lc_minuteswest * 60)%Z.

Definition datetime_in (date : string) : Z :=
  let v := DtVars (Tm 0 0 0 0 0 0) 0 0 0 in
  let '(v, k) := sscanf DT_DATETIME_P 0 v date in
  if k =? 8 then to_time (set_date v) (offset_of v) else
  let '(v, k) := sscanf DT_DATETIME_M 0 v date in
  if k =? 8 then to_time (set_date v) (- v_off_hour v * 3600 - v_off_min v * 60)%Z else
  let '(v, k) := sscanf DT_DATETIME_Z 0 v date in
  if k =? 6 then to_time (set_date v) 0 else
  let '(v, k) := sscanf DT_TIME_P 0 v date in
  if k =? 5 then to_time (set_sec v) (offset_of v) else
  let '(v, k) := sscanf DT_TIME_M 0 v date in
  if k =? 5 then to_time (set_sec v) (- v_off_hour v * 3600 - v_off_min v * 60)%Z else
  let '(v, k) := sscanf DT_TIME_Z 0 v date in
  if k =? 3 then to_time (set_sec v) (- v_off_hour v * 3600 - v_off_min v * 60)%Z else
  let '(v, k) := sscanf DT_LEGACY 0 v date in
  if k =? 6 then to_time (set_date v) 0 else to_time (v_gmt v) 0.
End scan.

(** ** Reading what was printed *)

Fixpoint all_digits (s : string) : bool :=
  match s with EmptyString => true | String c s => isdigit c && all_digits s end.

Lemma isdigit_plain c : isdigit c = true → isspace c = false ∧ c ≠ "-"%char ∧ c ≠ "+"%char.
Proof.
  unfold isdigit, isspace. rewrite andb_true_iff, !Z.leb_le. intros Hc. split_and!.
  - apply orb_false_iff. split; [apply Z.eqb_neq; lia|]. apply andb_false_iff. right. apply Z.leb_gt. lia.
  - intros ->. change (uchar "-") with 45%Z in Hc. lia.
  - intros ->. change (uchar "+") with 43%Z in Hc. lia.
Qed.

Lemma scan_digits_all s r acc : all_digits s = true →
  scan_digits (String.length s) acc (s +:+ r) = (String.length s, digits acc s, r).
Proof.
  revert acc. induction s as [|c s IH]; intros acc Hs; [done|]. cbn in Hs. apply andb_true_iff in Hs as [Hc Hs].
  cbn [String.length scan_digits String.append digits]. rewrite Hc. by rewrite (IH _ Hs).
Qed.

Lemma scan_int_all s r : s ≠ "" → all_digits s = true → scan_int (String.length s) (s +:+ r) = Some (digits 0 s, r).
Proof.
  destruct s as [|c s]; [done|]. intros _ Hs. pose proof Hs as Hd. cbn in Hd. apply andb_true_iff in Hd as [Hc _].
  destruct (isdigit_plain c Hc) as (Hsp & Hm & Hp). unfold scan_int. cbn [String.append skip_spaces].
  rewrite Hsp, !bool_decide_false by done.
  change (String c (s +:+ r)) with (String c s +:+ r). rewrite (scan_digits_all _ _ _ Hs). done.
Qed.

Definition digits_check (w : nat) (z : Z) : bool :=
  let s := fmt_0d w z in bool_decide (String.length s = w) && all_digits s && (digits 0 s =? z)%Z.

Lemma printed_digits w z : (w = 2%nat ∧ 0 <= z < 100 ∨ w = 4%nat ∧ 0 <= z < 10000)%Z →
  String.length (fmt_0d w z) = w ∧ all_digits (fmt_0d w z) = true ∧ digits 0 (fmt_0d w z) = z.
Proof.
  intros Hz. assert (digits_check w z = true) as Hc.
  { assert (check_range (digits_check 2) 100 0 = true) as H2 by (vm_compute; reflexivity).
    assert (check_range (digits_check 4) (Z.to_nat 10000) 0 = true) as H4 by (vm_compute; reflexivity).
    destruct Hz as [[-> ?]|[-> ?]]; [apply (check_range_ok _ _ _ _ H2)|apply (check_range_ok _ _ _ _ H4)]; lia. }
  unfold digits_check in Hc. rewrite !andb_true_iff, bool_decide_eq_true, Z.eqb_eq in Hc. tauto.
Qed.

Lemma scan_printed w z r : (w = 2%nat ∧ 0 <= z < 100 ∨ w = 4%nat ∧ 0 <= z < 10000)%Z →
  scan_int w (fmt_0d w z +:+ r) = Some (z, r).
Proof.
  intros Hz. destruct (printed_digits w z Hz) as (El & Ha & Ed). pose proof (scan_int_all (fmt_0d w z) r) as Hs. rewrite El, Ed in Hs. apply Hs; [|done].
  intros E. rewrite E in El. cbn in El. lia.
Qed.

(** What is relied on of the C library where the local time is UTC. *)
Class LibcUtc `{Libc} := {
  utc_west : lc_minuteswest = 0%Z;
  utc_mktime x : (1 <= tm_mon x + 1 <= 12)%Z → (1 <= tm_mday x <= month_days (tm_year x + 1900) (tm_mon x + 1))%Z →
    (0 <= tm_hour x < 24)%Z → (0 <= tm_min x < 60)%Z → (0 <= tm_sec x < 60)%Z → lc_mktime x = timegm x;
  (** A number of so few digits that a double holds it, before a letter that is in no number, or a sign. *)
  strtod_digits s r : s ≠ "" → String.length s ≤ 15 → all_digits s = true → r = "Z" ∨ (∃ r', r = String "+" r') →
    lc_strtod (s +:+ r) = Some (digits 0 s, r)
}.

Section roundtrip.
Context `{LibcUtc}.

(** The date and the clock of a time, without what says the zone. *)
Definition local_text (x : tm) : string :=
  fmt_0d 4 (tm_year x + 1900) +:+ "-" +:+ fmt_0d 2 (tm_mon x + 1) +:+ "-" +:+ fmt_0d 2 (tm_mday x) +:+ "T" +:+
  fmt_0d 2 (tm_hour x) +:+ ":" +:+ fmt_0d 2 (tm_min x) +:+ ":" +:+ fmt_0d 2 (tm_sec x).

Definition in_fields (x : tm) : Prop :=
  (0 <= tm_year x + 1900 < 10000 ∧ 0 <= tm_mon x + 1 < 100 ∧ 0 <= tm_mday x < 100 ∧ 0 <= tm_hour x < 100 ∧ 0 <= tm_min x < 100 ∧
   0 <= tm_sec x < 100)%Z.

(** The fields, as they are read. *)
Definition read_vars (x : tm) (v : dt_vars) : dt_vars :=
  DtVars (Tm (tm_year x + 1900) (tm_mon x + 1) (tm_mday x) (tm_hour x) (tm_min x) (tm_sec (v_gmt v))) (v_off_hour v) (v_off_min v) (tm_sec x).

Lemma local_scanned x ds v r : in_fields x → r = "Z" ∨ (∃ r', r = String "+" r') →
  sscanf ((dt_day ++ dt_clock) ++ ds) 0 v (local_text x +:+ r) = sscanf ds 6 (read_vars x v) r.
Proof.
  intros (Hy & Hm & Hd & Hh & Hi & Hs) Hr. unfold local_text. rewrite <- !sapp_assoc. cbn [dt_day dt_clock app sscanf].
  rewrite (scan_printed 4) by lia. cbn [String.append sscanf]. rewrite bool_decide_true by done.
  rewrite (scan_printed 2) by lia. cbn [String.append sscanf]. rewrite bool_decide_true by done.
  rewrite (scan_printed 2) by lia. cbn [String.append sscanf]. rewrite bool_decide_true by done.
  rewrite (scan_printed 2) by lia. cbn [String.append sscanf]. rewrite bool_decide_true by done.
  rewrite (scan_printed 2) by lia. cbn [String.append sscanf]. rewrite bool_decide_true by done.
  destruct (printed_digits 2 (tm_sec x) ltac:(lia)) as (El & Ha & Ed).
  rewrite strtod_digits; [|intros E; rewrite E in El; cbn in El; lia|cbn in El; lia|done|done]. rewrite Ed.
  unfold read_vars. by destruct v as [[] ? ? ?].
Qed.

Lemma gmtime_in_fields t : (-62167219200 <= t < 253402300800)%Z → in_fields (gmtime t).
Proof.
  intros Ht. pose proof (gmtime_year t Ht) as Hy. destruct (gmtime_fields t) as [(Hm & Hd & Hh & Hmi & Hs) _].
  assert (month_days (tm_year (gmtime t) + 1900) (tm_mon (gmtime t) + 1) <= 31)%Z by (unfold month_days; repeat case_match; lia).
  unfold in_fields. lia.
Qed.

Lemma read_back t v fix_ : to_time (set_date (read_vars (gmtime t) v)) fix_ = (t + fix_)%Z.
Proof.
  destruct (gmtime_fields t) as [(Hm & Hd & Hh & Hmi & Hs) Hg]. unfold to_time. rewrite utc_west.
  assert (set_date (read_vars (gmtime t) v) = gmtime t) as ->.
  { unfold set_date, set_sec, read_vars. cbn. destruct (gmtime t). cbn. f_equal; lia. }
  rewrite utc_mktime by done. rewrite Hg. lia.
Qed.

(** C38: where the local time is UTC, the stamp that the servers put on a packet is read back as the
    time it was made of, for every time of the years 0 to 9999. *)
Theorem datetime_roundtrip t : (-62167219200 <= t < 253402300800)%Z →
  datetime_in (datetime_out t dt_DATETIME 21) = t.
Proof.
  intros Ht. rewrite datetime_out_text by done.
  assert (datetime_text (gmtime t) dt_DATETIME = local_text (gmtime t) +:+ "Z") as ->.
  { unfold datetime_text, local_text. by rewrite <- !sapp_assoc. }
  pose proof (gmtime_in_fields t Ht) as Hf. unfold datetime_in.
  unfold DT_DATETIME_P. rewrite app_assoc, local_scanned by (done || by left). cbn [dt_offset sscanf]. rewrite bool_decide_false by done.
  cbn [Nat.eqb]. unfold DT_DATETIME_M. rewrite app_assoc, local_scanned by (done || by left). cbn [dt_offset sscanf].
  rewrite bool_decide_false by done. cbn [Nat.eqb].
  unfold DT_DATETIME_Z. rewrite app_assoc, local_scanned by (done || by left). cbn [sscanf]. rewrite bool_decide_true by done.
  cbn [Nat.eqb]. rewrite read_back. lia.
Qed.

(** A stamp with an offset to the east is read as a time that is later than its clock by the offset,
    where it should be earlier: the error is twice the offset. *)
Theorem datetime_offset_added t h m : (-62167219200 <= t < 253402300800)%Z → (0 <= h < 100)%Z → (0 <= m < 100)%Z →
  datetime_in (local_text (gmtime t) +:+ "+" +:+ fmt_0d 2 h +:+ ":" +:+ fmt_0d 2 m) = (t + (h * 3600 + m * 60))%Z.
Proof.
  intros Ht Hh Hm. pose proof (gmtime_in_fields t Ht) as Hf. unfold datetime_in.
  unfold DT_DATETIME_P. rewrite app_assoc, local_scanned; [|done|right; by eexists]. cbn [dt_offset sscanf String.append].
  rewrite bool_decide_true by done. rewrite (scan_printed 2) by lia. cbn [String.append sscanf]. rewrite bool_decide_true by done.
  rewrite <- (sapp_nil_r (fmt_0d 2 m)), (scan_printed 2) by lia. cbn [sscanf Nat.eqb].
  match goal with |- to_time (set_date ?v) (offset_of ?v) = _ => assert (set_date v = set_date (read_vars (gmtime t) (DtVars (Tm 0 0 0 0 0 0) 0 0 0))) as -> by done end.
  rewrite read_back. unfold offset_of. cbn. lia.
Qed.
End roundtrip.

(** ** An example *)

Lemma scan_digits_stop s r acc w : all_digits s = true → match r with String c _ => isdigit c = false | EmptyString => True end →
  String.length s <= w → scan_digits w acc (s +:+ r) = (String.length s, digits acc s, r).
Proof.
  revert acc w. induction s as [|c s IH]; intros acc w Hs Hr Hw.
  - cbn. destruct w, r as [|c r]; try done. cbn. by rewrite Hr.
  - cbn in Hs. apply andb_true_iff in Hs as [Hc Hs]. cbn in Hw. destruct w as [|w]; [lia|].
    cbn [String.append scan_digits String.length digits]. rewrite Hc, IH by (done || lia). done.
Qed.

(** A library in UTC whose [%lf] takes digits only. *)
#[local] Instance utc_libc : Libc := {|
  lc_strtod s := match scan_digits (String.length s) 0 s with (O, _, _) => None | (_, z, r) => Some (z, r) end;
  lc_mktime := timegm; lc_minuteswest := 0
|}.
#[local] Instance utc_laws : LibcUtc.
Proof.
  split; [done|done|]. intros s r Hs _ Hd Hr. unfold lc_strtod, utc_libc. rewrite scan_digits_stop; [|done| |].
  - destruct s; [done|]. done.
  - by destruct Hr as [->|[r' ->]].
  - rewrite sapp_length. lia.
Qed.

Lemma datetime_roundtrip_witness : datetime_in (datetime_out 951782400 dt_DATETIME 21) = 951782400%Z.
Proof. apply (datetime_roundtrip 951782400). lia. Defined.

(** Midnight in Berlin is read as two hours later than it is. *)
Lemma datetime_offset_added_witness : datetime_in "2000-02-29T00:00:00+01:00" = (951782400 + 3600)%Z.
Proof. pose proof (datetime_offset_added 951782400 1 0 ltac:(lia) ltac:(lia) ltac:(lia)) as E. vm_compute in E |- *. exact E. Defined.

(** A text that is no date at all is a time of the year 1900, or of the year that its first digits make. *)
Example datetime_in_text : datetime_in "hello" = timegm (Tm 0 0 0 0 0 0).
Proof. vm_compute. reflexivity. Qed.
Example datetime_in_digits : datetime_in "2004" = timegm (Tm 2004 0 0 20 0 0).
Proof. vm_compute. reflexivity. Qed.
