(* ===== verification/Pkt.v ===== *)
(** * Packets of the session manager: sm/pkt.c

    A packet is its document with what [pkt_new] reads off it: the addresses
    of the route and of the stanza, the kind of route, the kind of stanza.
    What the functions here need of the environment is in [Env].  [None] in
    the result of an operation is a NULL pointer followed, an assertion that
    fails, or an element written to that is not there; a NULL packet is [None]
    one level further in. *)
From S2P Require Import Prelude.
From S2P Require Import CStr.
From S2P Require Import DList.
From S2P Require Import Codec.
From S2P Require Import Jid.
From S2P Require Import Str.
From S2P Require Import Nad.
From S2P Require Import Table.
From S2P Require Import Stanza.
From S2P Require Import Datetime.

Definition uri_CLIENT : string := "jabber:client".
Definition uri_COMPONENT : string := "http://jabberd.jabberstudio.org/ns/component/1.0".
Definition uri_XSESSION : string := "urn:ietf:params:xml:ns:xmpp-session".
Definition uri_STREAMS : string := "http://etherx.jabber.org/streams".
Definition uri_SESSION : string := "http://jabberd.jabberstudio.org/ns/session/1.0".
Definition uri_URN_DELAY : string := "urn:xmpp:delay".

(** What the session manager takes from outside: the profiles of stringprep,
    the twenty bytes of SHA-1, the clock and the random numbers, in the order
    in which they are asked for, and whether the spool files can be written
    and removed. *)
Class Env := {
  env_nodeprep : string → option string;
  env_nameprep : string → option string;
  env_resourceprep : string → option string;
  env_sha1 : string → list Z;
  env_time : nat → Z;
  env_rand : nat → Z;
  env_rand_max : Z;
  env_can_append : string → bool;
  env_can_unlink : string → bool
}.

(** ** Kinds of packets and routes *)

Definition pkt_NONE : Z := 0x00.
Definition pkt_MESSAGE : Z := 0x10.
Definition pkt_MESSAGE_CHAT : Z := 0x11.
Definition pkt_MESSAGE_HEADLINE : Z := 0x12.
Definition pkt_MESSAGE_GROUPCHAT : Z := 0x14.
Definition pkt_PRESENCE : Z := 0x20.
Definition pkt_PRESENCE_UN : Z := 0x21.
Definition pkt_PRESENCE_PROBE : Z := 0x24.
Definition pkt_S10N : Z := 0x40.
Definition pkt_S10N_ED : Z := 0x41.
Definition pkt_S10N_UN : Z := 0x42.
Definition pkt_S10N_UNED : Z := 0x44.
Definition pkt_IQ : Z := 0x80.
Definition pkt_IQ_SET : Z := 0x81.
Definition pkt_IQ_RESULT : Z := 0x82.
Definition pkt_SESS : Z := 0x100.
Definition pkt_SESS_END : Z := 0x101.
Definition pkt_SESS_FAILED : Z := 0x08.
Definition pkt_ERROR : Z := 0x200.

Definition route_NONE : Z := 0x00.
Definition route_UNICAST : Z := 0x10.
Definition route_BROADCAST : Z := 0x11.
Definition route_ADV : Z := 0x20.
Definition route_ADV_UN : Z := 0x21.
Definition route_ERROR : Z := 0x40.

(** [x & mask], as a condition. *)
Definition has (x mask : Z) : bool := negb (Z.land x mask =? 0)%Z.

(** [struct pkt_st]; the pointer to the session manager is left out. *)
Record pkt := Pkt {
  p_source : option loc;
  p_rto : option jid; p_rfrom : option jid;
  p_rtype : Z;
  p_type : Z;
  p_to : option jid; p_from : option jid;
  p_ns : Z;
  p_pri : Z;
  p_nad : nad
}.

Definition with_source (x : option loc) (p : pkt) : pkt :=
  Pkt x (p_rto p) (p_rfrom p) (p_rtype p) (p_type p) (p_to p) (p_from p) (p_ns p) (p_pri p) (p_nad p).
Definition with_route (rto rfrom : option jid) (p : pkt) : pkt :=
  Pkt (p_source p) rto rfrom (p_rtype p) (p_type p) (p_to p) (p_from p) (p_ns p) (p_pri p) (p_nad p).
Definition with_type (x : Z) (p : pkt) : pkt :=
  Pkt (p_source p) (p_rto p) (p_rfrom p) (p_rtype p) x (p_to p) (p_from p) (p_ns p) (p_pri p) (p_nad p).
Definition with_to (x : option jid) (p : pkt) : pkt :=
  Pkt (p_source p) (p_rto p) (p_rfrom p) (p_rtype p) (p_type p) x (p_from p) (p_ns p) (p_pri p) (p_nad p).
Definition with_from (x : option jid) (p : pkt) : pkt :=
  Pkt (p_source p) (p_rto p) (p_rfrom p) (p_rtype p) (p_type p) (p_to p) x (p_ns p) (p_pri p) (p_nad p).
Definition with_nad (x : nad) (p : pkt) : pkt :=
  Pkt (p_source p) (p_rto p) (p_rfrom p) (p_rtype p) (p_type p) (p_to p) (p_from p) (p_ns p) (p_pri p) x.

(** [nad_set_attr] without a namespace, of a string or of NULL. *)
Definition set_attr (el : Z) (name : string) (val : option string) (n : nad) : nad := nad_set_attr n el (-1) name val 0.

(** ** Jids *)

Definition jfull (j : jid) : string := default "" (jid_full j).2.
(** [None] is NULL: there is no domain. *)
Definition juser (j : jid) : option string := (jid_user j).2.
(** Are they equal?  [None]: [strcmp] of NULL. *)
Definition same_user (a b : jid) : option bool := r ← (jid_compare_user a b).2; Some (r =? 0)%Z.
Definition same_full (a b : jid) : option bool := r ← (jid_compare_full a b).2; Some (r =? 0)%Z.
Definition dup (j : jid) : jid := (jid_dup j).2.

(** [strncmp], with its sign. *)
Fixpoint strncmp (n : nat) (a b : string) : Z :=
  match n with
  | O => 0
  | S n =>
    match a, b with
    | EmptyString, EmptyString => 0
    | EmptyString, String d _ => - uchar d
    | String c _, EmptyString => uchar c
    | String c a, String d b => if Ascii.eqb c d then strncmp n a b else uchar c - uchar d
    end
  end%Z.

Section pkt.
Context {T : Type → Type} `{Table T} `{Env}.

(** [jid_new(s, -1)], and of the value of an attribute. *)
Definition new_jid (s : string) : option jid := jid_new env_nodeprep env_nameprep env_resourceprep (Some s) (-1).
Definition text_jid (t : text) : option jid :=
  jid_new env_nodeprep env_nameprep env_resourceprep (Some (string_of t)) (Z.of_nat (length t)).

(** ** Building packets *)

(** The value of an attribute, if it is there. *)
Definition attr_of (n : nad) (el : Z) (name : string) : option text :=
  let a := nad_find_attr n el (-1) name None in
  if (0 <=? a)%Z then Some (nad_aval n a) else None.

Definition is_text (v : option text) (s : string) : bool := bool_decide (v = Some (tx s)).

Definition message_type (type : option text) : Z :=
  if is_text type "chat" then pkt_MESSAGE_CHAT
  else if is_text type "headline" then pkt_MESSAGE_HEADLINE
  else if is_text type "groupchat" then pkt_MESSAGE_GROUPCHAT
  else if is_text type "error" then Z.lor pkt_MESSAGE pkt_ERROR
  else pkt_MESSAGE.

Definition presence_type (type : option text) : Z :=
  if is_text type "unavailable" then pkt_PRESENCE_UN
  else if is_text type "probe" then pkt_PRESENCE_PROBE
  else if is_text type "subscribe" then pkt_S10N
  else if is_text type "subscribed" then pkt_S10N_ED
  else if is_text type "unsubscribe" then pkt_S10N_UN
  else if is_text type "unsubscribed" then pkt_S10N_UNED
  else if is_text type "error" then Z.lor pkt_PRESENCE pkt_ERROR
  else pkt_PRESENCE.

(** [None]: the packet is dropped. *)
Definition iq_type (type : option text) : option Z :=
  match type with
  | None => None
  | Some _ =>
    if is_text type "result" then Some pkt_IQ_RESULT
    else if is_text type "error" then Some (Z.lor pkt_IQ pkt_ERROR)
    else if is_text type "set" then Some pkt_IQ_SET
    else if is_text type "get" then Some pkt_IQ
    else None
  end.

(** [strncmp(...) >= 0]: any text of the length that is not greater. *)
Definition not_above (s : string) (v : text) : bool :=
  bool_decide (length v = String.length s) && (0 <=? strncmp (String.length s) s (string_of v))%Z.

Definition session_type (action : text) : Z :=
  if not_above "start" action then pkt_SESS
  else if not_above "end" action then pkt_SESS_END
  else if not_above "started" action then Z.lor pkt_SESS pkt_SESS_FAILED
  else if not_above "ended" action then Z.lor pkt_SESS_END pkt_SESS_FAILED
  else pkt_NONE.

Definition presence_pri (n : nad) : Z :=
  let elem := nad_find_elem n 1 (nad_ens n 1) (Some "priority") 1 in
  if (elem <? 0)%Z then 0%Z
  else
    let l := e_lcdata (elem_at n elem) in
    if ((l <=? 0) || (19 <? l))%Z then 0%Z
    else let pri := atoi (cstr_of (nad_cdata n elem)) in
         let pri := (if 127 <? pri then 127 else pri)%Z in
         (if pri <? -128 then -128 else pri)%Z.

(** An address of a stanza: an empty one is no address. *)
Definition stanza_jid (n : nad) (name : string) : option jid :=
  v ← attr_of n 1 name; if bool_decide (v = []) then None else text_jid v.

Definition route_type_of (n : nad) : Z :=
  let rtype := match attr_of n 0 "type" with
               | None => route_UNICAST
               | Some v => if is_text (Some v) "broadcast" then route_BROADCAST else route_NONE
               end in
  match attr_of n 0 "error" with Some _ => Z.lor rtype route_ERROR | None => rtype end.

(** The part of [pkt_new] for a route. *)
Definition pkt_new_route (xmlns : T Z) (n : nad) : option pkt :=
  let rto := v ← attr_of n 0 "to"; text_jid v in
  let rfrom := v ← attr_of n 0 "from"; text_jid v in
  let rtype := route_type_of n in
  let name := nad_ename n 1 in
  if (0 <=? nad_find_namespace n 1 (Some uri_CLIENT) None)%Z then
    let p type ns pri := Pkt None rto rfrom rtype type (stanza_jid n "to") (stanza_jid n "from") ns pri n in
    let type := attr_of n 1 "type" in
    if bool_decide (name = tx "message") then Some (p (message_type type) 0 0)%Z
    else if bool_decide (name = tx "presence") then Some (p (presence_type type) 0 (presence_pri n))%Z
    else if bool_decide (name = tx "iq") then
      type ← iq_type type;
      let ns := nad_ens n 2 in
      let ns := if ((2 <? ecur n) && (0 <=? ns))%Z then default 0%Z (tget xmlns (string_of (nad_nuri n ns))) else 0%Z in
      Some (p type ns 0)%Z
    else Some (p pkt_NONE 0 0)%Z
  else
    let p type := Pkt None rto rfrom rtype type None None 0 0 n in
    if (0 <=? nad_find_namespace n 1 (Some uri_SESSION) None)%Z && bool_decide (name = tx "session") then
      Some (p (match attr_of n 1 "action" with Some v => session_type v | None => pkt_NONE end))
    else Some (p pkt_NONE).

Definition pkt_new (xmlns : T Z) (n : nad) : option pkt :=
  if (nad_find_namespace n 0 (Some uri_COMPONENT) None <? 0)%Z then None
  else if bool_decide (nad_ename n 0 = tx "route") then pkt_new_route xmlns n
  else if bool_decide (nad_ename n 0 = tx "presence") then
    let rtype := if (0 <=? nad_find_attr n 0 (-1) "type" (Some "unavailable"))%Z then route_ADV_UN else route_ADV in
    Some (Pkt None None None rtype pkt_NONE None (v ← attr_of n 0 "from"; text_jid v) 0 0 n)
  else None.

Definition append_opt (name : string) (v : option string) (n : nad) : nad :=
  match v with Some v => (nad_append_attr n (-1) name v).1 | None => n end.

(** The document that [pkt_create] builds. *)
Definition create_nad (elem : string) (type to from : option string) : nad :=
  let '(n, ns) := nad_add_namespace nad_new uri_COMPONENT None in
  let n := (nad_append_elem n ns "route" 0).1 in
  let n := (nad_add_namespace n uri_SESSION (Some "sm")).1 in
  let '(n, ns) := nad_add_namespace n uri_CLIENT None in
  let n := (nad_append_elem n ns elem 1).1 in
  append_opt "from" from (append_opt "to" to (append_opt "type" type n)).

Definition pkt_create (xmlns : T Z) (elem : string) (type to from : option string) : option pkt :=
  pkt_new xmlns (create_nad elem type to from).

(** ** Changing packets *)

(** [nad_set_attr] of a jid that is there. *)
Definition set_jid (el : Z) (name : string) (j : option jid) (n : nad) : nad :=
  match j with Some j => set_attr el name (Some (jfull j)) n | None => n end.

Definition pkt_tofrom (p : pkt) : pkt :=
  let n := set_jid 1 "to" (p_from p) (p_nad p) in
  let n := set_jid 1 "from" (p_to p) n in
  let n := set_jid 0 "to" (p_rfrom p) n in
  let n := set_jid 0 "from" (p_rto p) n in
  Pkt (p_source p) (p_rfrom p) (p_rto p) (p_rtype p) (p_type p) (p_from p) (p_to p) (p_ns p) (p_pri p) n.

(** An error is dropped: NULL.  A document that is only a route has no element
    to write the error to. *)
Definition pkt_error (p : pkt) (err : Z) : option (option pkt) :=
  if has (p_type p) pkt_ERROR then Some None
  else if (ecur (p_nad p) <=? 1)%Z then None
  else
    n ← stanza_error (p_nad p) 1 err;
    let p := pkt_tofrom (with_nad n p) in
    let p := with_type (Z.lor (p_type p) pkt_ERROR) p in
    Some (Some (match p_to p, p_rto p with None, Some rto => with_to (Some (dup rto)) p | _, _ => p end)).

(** One address of a copy: the one given, or the packet's own. *)
Definition dup_addr (name : string) (given : option string) (own : option jid) (n : nad) : option (option jid * nad) :=
  match given with
  | Some s => j ← new_jid s; Some (Some j, set_attr 1 name (Some (jfull j)) n)
  | None => Some (dup <$> own, n)
  end.

Definition pkt_dup (p : pkt) (to from : option string) : option pkt :=
  '(jto, n) ← dup_addr "to" to (p_to p) (nad_copy (p_nad p));
  '(jfrom, n) ← dup_addr "from" from (p_from p) n;
  Some (Pkt None None None route_NONE (p_type p) jto jfrom 0 0 n).

(** [NAD_AVAL] as a C string with [NAD_AVAL_L]: what is after the value in the
    buffer is part of it, which [nad_set_attr] copies when the length is 0. *)
Definition attr_ptr (n : nad) (el : Z) (name : string) : option (string * Z) :=
  let a := nad_find_attr n el (-1) name None in
  if (0 <=? a)%Z then Some (string_of (drop (Z.to_nat (a_ival (attr_at n a))) (cdata n)), a_lval (attr_at n a)) else None.

Definition pkt_id (src dest : pkt) : pkt :=
  with_nad (match attr_ptr (p_nad src) 1 "id" with
            | Some (v, l) => nad_set_attr (p_nad dest) 1 (-1) "id" (Some v) l
            | None => set_attr 1 "id" None (p_nad dest)
            end) dest.

(** The forty characters of an identifier, from the random numbers at [k]. *)
Definition id_char (r : Z) : ascii :=
  let r := (36 * r / env_rand_max)%Z in char_of (if (0 <=? r) && (r <=? 9) then r + 48 else r + 87)%Z.
Definition pkt_id_new (k : nat) (p : pkt) : pkt :=
  with_nad (nad_set_attr (p_nad p) 1 (-1) "id" (Some (string_of ((λ i, id_char (env_rand i)) <$> seq k 40))) 40) p.

Definition pkt_delay (p : pkt) (t : Z) (from : option string) : pkt :=
  let timestamp := datetime_out t dt_DATETIME 21 in
  let '(n, ns) := nad_add_namespace (p_nad p) uri_URN_DELAY None in
  let '(n, elem) := nad_insert_elem n 1 ns "delay" None in
  let n := set_attr elem "stamp" (Some timestamp) n in
  with_nad (match from with Some f => set_attr elem "from" (Some f) n | None => n end) p.
End pkt.
