(* ===== verification/Sm.v ===== *)
(** * The session manager's state: sm/sm.h, sm/sm.c, sm/sess.c, sm/feature.c

    Users and sessions are shared by pointer between the tables and each
    other: [s_uheap] and [s_eheap] are the heap, and an address that is no
    longer in them is a dangling pointer.  A packet has one owner: a handler
    that takes it gives it back or not.  An operation takes the state to the
    next one, with the documents written to the router appended to [s_out];
    [None] is a NULL or dangling pointer followed, or memory read that is not
    there.  What the modules do is in the files that follow; this one has what
    they share: writing to the router and to a session, control messages, the
    registries of namespaces and features, and the loop over a chain. *)
From S2P Require Import Prelude.
From S2P Require Import CStr.
From S2P Require Import DList.
From S2P Require Import Codec.
From S2P Require Import Jid.
From S2P Require Import Nad.
From S2P Require Import Table.
From S2P Require Import Stanza.
From S2P Require Import Datetime.
From S2P Require Import Pkt.

Definition ns_ROSTER : Z := 3.
Definition ns_DISCO_INFO : Z := 13.
Definition uri_PUBSUB : string := "http://jabber.org/protocol/pubsub".

(** ** Data *)

(** The modules of sm/mod_*.c that are modelled. *)
Inductive smodule :=
  | m_validate | m_roster | m_pep | m_iq_ping | m_offline | m_presence | m_deliver
  | m_session | m_iq_time | m_iq_version | m_help | m_echo.
#[global] Instance smodule_eq_dec : EqDecision smodule.
Proof. solve_decision. Defined.

(** The chains of [struct mm_st], a module for each instance. *)
Record chains := Chains {
  ch_sess_start : list smodule;
  ch_sess_end : list smodule;
  ch_in_sess : list smodule;
  ch_in_router : list smodule;
  ch_out_sess : list smodule;
  ch_out_router : list smodule;
  ch_pkt_sm : list smodule;
  ch_pkt_user : list smodule;
  ch_pkt_router : list smodule;
  ch_user_load : list smodule;
  ch_user_unload : list smodule;
  ch_disco_extend : list smodule
}.

(** [struct _mod_offline_st] *)
Record mod_offline := ModOffline {
  o_dropmessages : bool; o_storeheadlines : bool; o_dropsubscriptions : bool; o_spooldir : string
}.

(** What the modules keep: the namespaces they registered, and their settings. *)
Record mods := Mods {
  ns_PING : Z; ns_PUBSUB : Z; ns_URN_TIME : Z; ns_VERSION : Z;
  mo_offline : mod_offline;
  mo_roster_file : string
}.

(** [struct item_st]; [ngroups] is the length of [it_groups]. *)
Record item := Item { it_jid : jid; it_name : option string; it_groups : list string; it_ver : Z }.

Section sm.
Context {T : Type → Type} `{Table T} `{Env}.

(** What the configuration and the build set. *)
Record sconf := SConf {
  sc_id : string;
  sc_hosts : T unit;
  sc_acls : T (list jid);
  sc_package : string; sc_version : string;
  sc_os : option (string * option string);
  sc_timezone : Z
}.

(** [struct user_st]; the list [sessions] is linked by [next]. *)
Record user := User {
  u_jid : jid;
  u_roster : option (T item);
  u_sessions : list loc;
  u_top : option loc;
  u_available : bool
}.

Definition with_roster (x : option (T item)) (u : user) : user :=
  User (u_jid u) x (u_sessions u) (u_top u) (u_available u).
Definition with_sessions (x : list loc) (u : user) : user :=
  User (u_jid u) (u_roster u) x (u_top u) (u_available u).
Definition with_top (x : option loc) (u : user) : user :=
  User (u_jid u) (u_roster u) (u_sessions u) x (u_available u).
Definition with_u_available (x : bool) (u : user) : user :=
  User (u_jid u) (u_roster u) (u_sessions u) (u_top u) x.
(** [struct sess_st]; [e_pres] is the last presence. *)
Record sess := Sess {
  e_user : loc;
  e_jid : jid;
  e_c2s : string;
  e_sm_id : string;
  e_c2s_id : string;
  e_pres : option pkt;
  e_available : bool;
  e_pri : Z;
  e_A : list jid;
  e_E : list jid
}.

Definition with_c2s (x : string) (e : sess) : sess :=
  Sess (e_user e) (e_jid e) x (e_sm_id e) (e_c2s_id e) (e_pres e) (e_available e) (e_pri e) (e_A e) (e_E e).
Definition with_sm_id (x : string) (e : sess) : sess :=
  Sess (e_user e) (e_jid e) (e_c2s e) x (e_c2s_id e) (e_pres e) (e_available e) (e_pri e) (e_A e) (e_E e).
Definition with_c2s_id (x : string) (e : sess) : sess :=
  Sess (e_user e) (e_jid e) (e_c2s e) (e_sm_id e) x (e_pres e) (e_available e) (e_pri e) (e_A e) (e_E e).
Definition with_pres (x : option pkt) (e : sess) : sess :=
  Sess (e_user e) (e_jid e) (e_c2s e) (e_sm_id e) (e_c2s_id e) x (e_available e) (e_pri e) (e_A e) (e_E e).
Definition with_available (x : bool) (e : sess) : sess :=
  Sess (e_user e) (e_jid e) (e_c2s e) (e_sm_id e) (e_c2s_id e) (e_pres e) x (e_pri e) (e_A e) (e_E e).
Definition with_pri (x : Z) (e : sess) : sess :=
  Sess (e_user e) (e_jid e) (e_c2s e) (e_sm_id e) (e_c2s_id e) (e_pres e) (e_available e) x (e_A e) (e_E e).
Definition with_A (x : list jid) (e : sess) : sess :=
  Sess (e_user e) (e_jid e) (e_c2s e) (e_sm_id e) (e_c2s_id e) (e_pres e) (e_available e) (e_pri e) x (e_E e).
Definition with_E (x : list jid) (e : sess) : sess :=
  Sess (e_user e) (e_jid e) (e_c2s e) (e_sm_id e) (e_c2s_id e) (e_pres e) (e_available e) (e_pri e) (e_A e) x.
(** [struct sm_st], with the module manager; [s_fresh] is the next address that
    malloc gives, [s_files] the files, [s_asked_time] and [s_asked_rand] count the
    times and random numbers asked for. *)
Record sm := Sm {
  s_conf : sconf;
  s_uheap : gmap loc user;
  s_eheap : gmap loc sess;
  s_fresh : loc;
  s_users : T loc;
  s_sessions : T loc;
  s_xmlns : T Z;
  s_xmlns_refcount : T Z;
  s_features : T Z;
  s_mods : mods;
  s_chains : chains;
  s_files : gmap string text;
  s_online : bool;
  s_started : bool;
  s_asked_time : nat;
  s_asked_rand : nat;
  s_out : list nad
}.

Definition set_uheap (x : gmap loc user) (s : sm) : sm :=
  Sm (s_conf s) x (s_eheap s) (s_fresh s) (s_users s) (s_sessions s) (s_xmlns s) (s_xmlns_refcount s) (s_features s) (s_mods s) (s_chains s) (s_files s) (s_online s) (s_started s) (s_asked_time s) (s_asked_rand s) (s_out s).
Definition set_eheap (x : gmap loc sess) (s : sm) : sm :=
  Sm (s_conf s) (s_uheap s) x (s_fresh s) (s_users s) (s_sessions s) (s_xmlns s) (s_xmlns_refcount s) (s_features s) (s_mods s) (s_chains s) (s_files s) (s_online s) (s_started s) (s_asked_time s) (s_asked_rand s) (s_out s).
Definition set_fresh (x : loc) (s : sm) : sm :=
  Sm (s_conf s) (s_uheap s) (s_eheap s) x (s_users s) (s_sessions s) (s_xmlns s) (s_xmlns_refcount s) (s_features s) (s_mods s) (s_chains s) (s_files s) (s_online s) (s_started s) (s_asked_time s) (s_asked_rand s) (s_out s).
Definition set_users (x : T loc) (s : sm) : sm :=
  Sm (s_conf s) (s_uheap s) (s_eheap s) (s_fresh s) x (s_sessions s) (s_xmlns s) (s_xmlns_refcount s) (s_features s) (s_mods s) (s_chains s) (s_files s) (s_online s) (s_started s) (s_asked_time s) (s_asked_rand s) (s_out s).
Definition set_sessions (x : T loc) (s : sm) : sm :=
  Sm (s_conf s) (s_uheap s) (s_eheap s) (s_fresh s) (s_users s) x (s_xmlns s) (s_xmlns_refcount s) (s_features s) (s_mods s) (s_chains s) (s_files s) (s_online s) (s_started s) (s_asked_time s) (s_asked_rand s) (s_out s).
Definition set_xmlns (x : T Z) (s : sm) : sm :=
  Sm (s_conf s) (s_uheap s) (s_eheap s) (s_fresh s) (s_users s) (s_sessions s) x (s_xmlns_refcount s) (s_features s) (s_mods s) (s_chains s) (s_files s) (s_online s) (s_started s) (s_asked_time s) (s_asked_rand s) (s_out s).
Definition set_xmlns_refcount (x : T Z) (s : sm) : sm :=
  Sm (s_conf s) (s_uheap s) (s_eheap s) (s_fresh s) (s_users s) (s_sessions s) (s_xmlns s) x (s_features s) (s_mods s) (s_chains s) (s_files s) (s_online s) (s_started s) (s_asked_time s) (s_asked_rand s) (s_out s).
Definition set_features (x : T Z) (s : sm) : sm :=
  Sm (s_conf s) (s_uheap s) (s_eheap s) (s_fresh s) (s_users s) (s_sessions s) (s_xmlns s) (s_xmlns_refcount s) x (s_mods s) (s_chains s) (s_files s) (s_online s) (s_started s) (s_asked_time s) (s_asked_rand s) (s_out s).
Definition set_mods (x : mods) (s : sm) : sm :=
  Sm (s_conf s) (s_uheap s) (s_eheap s) (s_fresh s) (s_users s) (s_sessions s) (s_xmlns s) (s_xmlns_refcount s) (s_features s) x (s_chains s) (s_files s) (s_online s) (s_started s) (s_asked_time s) (s_asked_rand s) (s_out s).
Definition set_chains (x : chains) (s : sm) : sm :=
  Sm (s_conf s) (s_uheap s) (s_eheap s) (s_fresh s) (s_users s) (s_sessions s) (s_xmlns s) (s_xmlns_refcount s) (s_features s) (s_mods s) x (s_files s) (s_online s) (s_started s) (s_asked_time s) (s_asked_rand s) (s_out s).
Definition set_files (x : gmap string text) (s : sm) : sm :=
  Sm (s_conf s) (s_uheap s) (s_eheap s) (s_fresh s) (s_users s) (s_sessions s) (s_xmlns s) (s_xmlns_refcount s) (s_features s) (s_mods s) (s_chains s) x (s_online s) (s_started s) (s_asked_time s) (s_asked_rand s) (s_out s).
Definition set_online (x : bool) (s : sm) : sm :=
  Sm (s_conf s) (s_uheap s) (s_eheap s) (s_fresh s) (s_users s) (s_sessions s) (s_xmlns s) (s_xmlns_refcount s) (s_features s) (s_mods s) (s_chains s) (s_files s) x (s_started s) (s_asked_time s) (s_asked_rand s) (s_out s).
Definition set_started (x : bool) (s : sm) : sm :=
  Sm (s_conf s) (s_uheap s) (s_eheap s) (s_fresh s) (s_users s) (s_sessions s) (s_xmlns s) (s_xmlns_refcount s) (s_features s) (s_mods s) (s_chains s) (s_files s) (s_online s) x (s_asked_time s) (s_asked_rand s) (s_out s).
Definition set_asked_time (x : nat) (s : sm) : sm :=
  Sm (s_conf s) (s_uheap s) (s_eheap s) (s_fresh s) (s_users s) (s_sessions s) (s_xmlns s) (s_xmlns_refcount s) (s_features s) (s_mods s) (s_chains s) (s_files s) (s_online s) (s_started s) x (s_asked_rand s) (s_out s).
Definition set_asked_rand (x : nat) (s : sm) : sm :=
  Sm (s_conf s) (s_uheap s) (s_eheap s) (s_fresh s) (s_users s) (s_sessions s) (s_xmlns s) (s_xmlns_refcount s) (s_features s) (s_mods s) (s_chains s) (s_files s) (s_online s) (s_started s) (s_asked_time s) x (s_out s).
Definition set_out (x : list nad) (s : sm) : sm :=
  Sm (s_conf s) (s_uheap s) (s_eheap s) (s_fresh s) (s_users s) (s_sessions s) (s_xmlns s) (s_xmlns_refcount s) (s_features s) (s_mods s) (s_chains s) (s_files s) (s_online s) (s_started s) (s_asked_time s) (s_asked_rand s) x.
(** ** Pointers and output *)

Definition get_user (s : sm) (u : loc) : option user := s_uheap s !! u.
Definition get_sess (s : sm) (e : loc) : option sess := s_eheap s !! e.
Definition upd_user (u : loc) (f : user → user) (s : sm) : sm := set_uheap (alter f u (s_uheap s)) s.
Definition upd_sess (e : loc) (f : sess → sess) (s : sm) : sm := set_eheap (alter f e (s_eheap s)) s.
Definition sm_alloc (s : sm) : loc * sm := (s_fresh s, set_fresh (S (s_fresh s)) s).

(** [sx_nad_write(sm->router, nad)] *)
Definition write (n : nad) (s : sm) : sm := set_out (s_out s ++ [n]) s.

(** [time(NULL)]; and the first of [k] calls of [rand()]. *)
Definition ask_time (s : sm) : Z * sm := (env_time (s_asked_time s), set_asked_time (S (s_asked_time s)) s).
Definition ask_rand (k : nat) (s : sm) : nat * sm := (s_asked_rand s, set_asked_rand (k + s_asked_rand s) s).

Definition create (s : sm) : string → option string → option string → option string → option pkt := pkt_create (s_xmlns s).

(** Run over a list, stopping at a crash. *)
Fixpoint foldM {A} (f : sm → A → option sm) (s : sm) (l : list A) : option sm :=
  match l with [] => Some s | a :: l => s ← f s a; foldM f s l end.

(** ** Chains: sm/mm.c *)

(** [mod_ret_t]: a packet handled is gone; the other results leave it. *)
Inductive mod_ret := mod_HANDLED | mod_PASS (p : pkt) | mod_ERR (p : pkt) (err : Z).

Definition handler := sm → pkt → option (sm * mod_ret).

(** The loop of the [mm_*] functions: the modules without a handler are left
    out, the first result that is not [mod_PASS] is the chain's. *)
Fixpoint mm_loop (hs : list handler) (s : sm) (p : pkt) : option (sm * mod_ret) :=
  match hs with
  | [] => Some (s, mod_PASS p)
  | h :: hs =>
    '(s, ret) ← h s p;
    match ret with
    | mod_PASS p => mm_loop hs s p
    | _ => Some (s, ret)
    end
  end.

(** No module of the tree sets [out_router], [sess_start], [sess_end] or [user_unload]. *)
Definition out_router_handler (m : smodule) : option handler := None.
Definition mm_out_router (s : sm) (p : pkt) : option (sm * mod_ret) :=
  mm_loop (omap out_router_handler (ch_out_router (s_chains s))) s p.

(** ** To the router *)

Definition upd_ns (n : nad) (i : Z) (f : nns → nns) : nad :=
  Nad (elems n) (attrs n) (alter f (Z.to_nat i) (nss n)) (cdata n) (depths n) (scope n).
Definition set_n_next (x : Z) (a : nns) : nns := Ns (n_iuri a) (n_luri a) (n_iprefix a) (n_lprefix a) x.

(** The namespace whose [next] is [ns], or the last of the chain. *)
Fixpoint ns_before (fuel : nat) (n : nad) (ns scan : Z) : Z :=
  match fuel with
  | O => scan
  | S f =>
    let next := n_next (ns_at n scan) in
    if ((next =? -1) || (next =? ns))%Z then scan else ns_before f n ns next
  end.

(** Our namespace and its attributes are not for the others. *)
Definition strip_session (n : nad) : option nad :=
  let ns := nad_find_namespace n 1 (Some uri_SESSION) None in
  if ((0 <=? ns) && (nad_find_elem n 0 ns None 1 <? 0))%Z then
    let n := nad_set_attr n 1 ns "c2s" None 0 in
    let n := nad_set_attr n 1 ns "sm" None 0 in
    let first := e_ns (elem_at n 1) in
    let next := n_next (ns_at n ns) in
    if (first =? ns)%Z then Some (upd_elem n 1 (set_ns_head next))
    else if (first <? 0)%Z then None
    else
      let scan := ns_before (length (nss n)) n ns first in
      if (n_next (ns_at n scan) =? -1)%Z then Some n else Some (upd_ns n scan (set_n_next next))
  else Some n.

(** The packet with the addresses of its route set. *)
Definition address_route (s : sm) (to : string) (p : pkt) : option pkt :=
  rto ← new_jid to;
  let p := with_nad (set_attr 0 "to" (Some (jid_domain rto)) (p_nad p)) p in
  rfrom ← new_jid (sc_id (s_conf s));
  Some (with_route (Some rto) (Some rfrom)
    (with_nad (set_attr 0 "from" (Some (jid_domain rfrom)) (p_nad p)) p)).

(** The call on the error of the packet has the packet as an error, which it
    cannot turn into another: it is the last. *)
Fixpoint pkt_router_n (fuel : nat) (s : sm) (p : option pkt) : option sm :=
  match p with
  | None => Some s
  | Some p =>
    match fuel with
    | O => None
    | S fuel =>
      match to ← p_to p; address_route s (jid_domain to) p with
      | None => Some s
      | Some p =>
        '(s, ret) ← mm_out_router s p;
        match ret with
        | mod_HANDLED => Some s
        | mod_PASS p => n ← strip_session (p_nad p); Some (write n s)
        | mod_ERR p err => p ← pkt_error p err; pkt_router_n fuel s p
        end
      end
    end
  end.
Definition pkt_router : sm → option pkt → option sm := pkt_router_n 2.

(** [pkt_router(pkt_error(pkt, err))] *)
Definition bounce (s : sm) (p : pkt) (err : Z) : option sm := p ← pkt_error p err; pkt_router s p.

(** ** To a session *)

Definition sess_route (s : sm) (c : loc) (p : pkt) : option sm :=
  e ← get_sess s c;
  u ← get_user s (e_user e);
  let '(n, ns) := nad_append_namespace (p_nad p) 1 uri_SESSION (Some "sm") in
  let n := nad_set_attr n 1 ns "c2s" (Some (e_c2s_id e)) 0 in
  let n := nad_set_attr n 1 ns "sm" (Some (e_sm_id e)) 0 in
  let n := set_attr 0 "to" (Some (e_c2s e)) n in
  let n := set_attr 0 "from" (Some (jid_domain (u_jid u))) n in
  let n := set_attr 0 "error" None n in
  Some (write n s).

Definition pep_feature (var : string) (n : nad) : nad :=
  (nad_append_attr (nad_append_elem n (-1) "feature" 3).1 (-1) "var" (uri_PUBSUB +:+ var)).1.

Definition _pep_out_sess (c : loc) (s : sm) (p : pkt) : option (sm * mod_ret) :=
  e ← get_sess s c;
  if negb (has (p_type p) pkt_IQ) || negb (p_ns p =? ns_DISCO_INFO)%Z then Some (s, mod_PASS p)
  else
    own ← match p_from p with None => Some true | Some from => u ← juser (e_jid e); Some (bool_decide (u = jfull from)) end;
    if negb own then Some (s, mod_PASS p)
    else
      let n := (nad_append_elem (p_nad p) (-1) "identity" 3).1 in
      let n := (nad_append_attr n (-1) "category" "pubsub").1 in
      let n := (nad_append_attr n (-1) "type" "pep").1 in
      let n := foldl (λ n v, pep_feature v n) n
        ["#access-presence"; "#auto-create"; "#auto-subscribe"; "#filtered-notifications"; "#publish"] in
      Some (s, mod_PASS (with_nad n p)).

Definition out_sess_handler (c : loc) (m : smodule) : option handler :=
  match m with m_pep => Some (_pep_out_sess c) | _ => None end.
Definition mm_out_sess (s : sm) (c : loc) (p : pkt) : option (sm * mod_ret) :=
  mm_loop (omap (out_sess_handler c) (ch_out_sess (s_chains s))) s p.

Definition pkt_sess (s : sm) (p : option pkt) (c : loc) : option sm :=
  match p with
  | None => Some s
  | Some p =>
    e ← get_sess s c;
    match address_route s (e_c2s e) p with
    | None => Some s
    | Some p =>
      '(s, ret) ← mm_out_sess s c p;
      match ret with
      | mod_HANDLED => Some s
      | mod_PASS p => sess_route s c p
      | mod_ERR p err => bounce s p err
      end
    end
  end.

(** ** Control messages to the c2s *)

Definition append_nonempty (ns : Z) (name v : string) (n : nad) : nad :=
  if bool_decide (v = "") then n else (nad_append_attr n ns name v).1.

(** The route with the action, from the component [id]. *)
Definition action_nad (id : string) (dest : sess) (action : string) (target : option string) : nad :=
  let '(n, rns) := nad_add_namespace nad_new uri_COMPONENT None in
  let n := (nad_append_elem n rns "route" 0).1 in
  let n := (nad_append_attr n (-1) "to" (e_c2s dest)).1 in
  let n := (nad_append_attr n (-1) "from" id).1 in
  let '(n, sns) := nad_add_namespace n uri_SESSION (Some "sc") in
  let n := (nad_append_elem n sns "session" 1).1 in
  let n := append_nonempty sns "sm" (e_sm_id dest) (append_nonempty sns "c2s" (e_c2s_id dest) n) in
  append_opt "target" target (nad_append_attr n (-1) "action" action).1.

Definition sm_c2s_action (s : sm) (c : loc) (action : string) (target : option string) : option sm :=
  e ← get_sess s c;
  _ ← get_user s (e_user e);
  Some (write (action_nad (sc_id (s_conf s)) e action target) s).

(** ** Registries *)

Definition counted (t : T Z) (k : string) : Z := default 0%Z (tget t k).

(** The index is the number of namespaces known, plus two. *)
Definition sm_register_ns (s : sm) (uri : string) : Z * sm :=
  let idx := counted (s_xmlns s) uri in
  let '(idx, s) :=
    if (idx =? 0)%Z then
      let idx := (tcount (s_xmlns s) + 2)%Z in (idx, set_xmlns (tput (s_xmlns s) uri idx) s)
    else (idx, s) in
  (idx, set_xmlns_refcount (tput (s_xmlns_refcount s) uri (counted (s_xmlns_refcount s) uri + 1)%Z) s).

Definition sm_unregister_ns (s : sm) (uri : string) : sm :=
  let refcount := counted (s_xmlns_refcount s) uri in
  if (refcount =? 1)%Z then
    set_xmlns_refcount (tzap (s_xmlns_refcount s) uri) (set_xmlns (tzap (s_xmlns s) uri) s)
  else if (1 <? refcount)%Z then set_xmlns_refcount (tput (s_xmlns_refcount s) uri (refcount - 1)%Z) s
  else s.

Definition sm_get_ns (s : sm) (uri : string) : Z := counted (s_xmlns s) uri.

Definition feature_register (s : sm) (feature : string) : sm :=
  set_features (tput (s_features s) feature (counted (s_features s) feature + 1)%Z) s.

Definition feature_unregister (s : sm) (feature : string) : sm :=
  let refcount := counted (s_features s) feature in
  if (refcount =? 1)%Z then set_features (tzap (s_features s) feature) s
  else if (1 <? refcount)%Z then set_features (tput (s_features s) feature (refcount - 1)%Z) s
  else s.
End sm.
