(* ===== verification/Pres.v ===== *)
(** * The presence tracker: sm/pres.c

    For each session the tracker keeps whether it is available, its priority,
    the jids that got directed presence from it (A) and those that bounced its
    presence (E); the trusted jids (T) are those of the user's roster, and the
    user himself.  [_pres_top] chooses the session that messages go to. *)
From S2P Require Import Prelude.
From S2P Require Import CStr.
From S2P Require Import DList.
From S2P Require Import Jid.
From S2P Require Import Nad.
From S2P Require Import Table.
From S2P Require Import Stanza.
From S2P Require Import Pkt.
From S2P Require Import Sm.

Section pres.
Context {T : Type → Type} `{Table T} `{Env}.
Notation sm := (sm (T := T)).
Notation user := (user (T := T)).
Implicit Types (s : sm) (c u : loc) (p : pkt).

(** The list operations of util/jid.c, without the strings that they cache. *)
Definition in_list (l : list jid) (j : jid) : bool := (jid_search l j).2.
Definition append_to (l : list jid) (j : jid) : list jid := (jid_append l j).1.
Definition zap_from (l : list jid) (j : jid) : list jid := (jid_zap l (Some j)).1.

(** ** The top session *)

(** One session of the loop: what is known of [user->top] and [user->available]. *)
Definition top_step (s : sm) (acc : option (option (loc * Z) * bool)) (c : loc) : option (option (loc * Z) * bool) :=
  '(top, av) ← acc;
  e ← get_sess s c;
  let av := av || e_available e in
  if negb (e_available e) || (e_pri e <? 0)%Z then Some (top, av)
  else match top with
       | Some (_, pri) => Some (if (pri <=? e_pri e)%Z then Some (c, e_pri e) else top, av)
       | None => Some (Some (c, e_pri e), av)
       end.

Definition _pres_top (s : sm) (u : loc) : option sm :=
  usr ← get_user s u;
  '(top, av) ← foldl (top_step s) (Some (None, false)) (u_sessions usr);
  Some (upd_user u (λ usr, with_u_available av (with_top (fst <$> top) usr)) s).

(** ** Trust *)

Definition roster_get (usr : user) (key : option string) : option item :=
  match u_roster usr, key with Some r, Some k => tget r k | _, _ => None end.

Definition pres_trust (usr : user) (j : jid) : option bool :=
  match roster_get usr (juser j), roster_get usr (Some (jfull j)) with
  | Some _, _ | _, Some _ => Some true
  | None, None => same_user (u_jid usr) j
  end.

(** The items of the roster in the order of the iterator, which it moves. *)
Definition roster_items (s : sm) (u : loc) : option (sm * list item) :=
  usr ← get_user s u;
  match u_roster usr with
  | None => Some (s, [])
  | Some r => let '(r, l) := titer r in Some (upd_user u (with_roster (Some r)) s, l.*2)
  end.

(** ** Sending *)

(** [pkt_router(pkt_dup(pkt, to, from))] *)
Definition send_dup (s : sm) (p : option pkt) (to from : string) : option sm :=
  match p with
  | None => Some s
  | Some p => p ← pkt_dup p (Some to) (Some from); pkt_router s (Some p)
  end.

Definition send_presence (s : sm) (type to from : option string) : option sm :=
  pkt_router s (create s "presence" type to from).

(** ** Presence from a remote jid *)

(** One session in the loop of [pres_in]. *)
Definition pres_in_sess (p : pkt) (s : sm) (c : loc) : option sm :=
  e ← get_sess s c;
  if negb (e_available e) then Some s
  else
    from ← p_from p;
    self ← same_full from (e_jid e);
    if (self : bool) then Some s
    else if (p_type p =? pkt_PRESENCE_PROBE)%Z then
      to ← p_to p;
      let answered s := Some (upd_sess c (λ e, with_E (zap_from (e_E e) from) e) s) in
      if bool_decide (jid_resource to = "") then
        s ← send_dup s (e_pres e) (jfull from) (jfull (e_jid e)); answered s
      else
        direct ← same_full to (e_jid e);
        if (direct : bool) then s ← send_presence s None (Some (jfull from)) (Some (jfull to)); answered s
        else Some s
    else
      p ← pkt_dup p (Some (jfull (e_jid e))) (Some (jfull from));
      pkt_sess s (Some p) c.

Definition pres_in (s : sm) (u : loc) (p : pkt) : option sm :=
  usr ← get_user s u;
  if (p_type p =? pkt_PRESENCE_PROBE)%Z then
    from ← p_from p;
    trusted ← pres_trust usr from;
    if negb trusted then
      to ← p_to p; send_presence s (Some "unsubscribed") (Some (jfull from)) (Some (jfull to))
    else if negb (u_available usr) then Some s
    else foldM (pres_in_sess p) s (u_sessions usr)
  else foldM (pres_in_sess p) s (u_sessions usr).

(** ** Presence from a session *)

(** One roster item when a session is available: whether it was probed as ourselves. *)
Definition available_item (e : sess) (p : pkt) (st : bool * sm) (it : item) : option (bool * sm) :=
  let '(self, s) := st in
  let to := jfull (it_jid it) in
  '(self, s) ←
    (if e_available e then Some (self, s)
     else s ← send_presence s (Some "probe") (Some to) (juser (e_jid e));
          us ← juser (e_jid e);
          Some (self || bool_decide (us = to), s));
  s ← (if in_list (e_E e) (it_jid it) then Some s else send_dup s (Some p) to (jfull (e_jid e)));
  Some (self, s).

Fixpoint available_items (e : sess) (p : pkt) (st : bool * sm) (l : list item) : option (bool * sm) :=
  match l with [] => Some st | it :: l => st ← available_item e p st it; available_items e p st l end.

Definition unavailable_item (e : sess) (p : pkt) (s : sm) (it : item) : option sm :=
  if in_list (e_E e) (it_jid it) then Some s else send_dup s (Some p) (jfull (it_jid it)) (jfull (e_jid e)).

(** An entry of A, forwarded unless it is trusted. *)
Definition unavailable_jid (e : sess) (p : pkt) (s : sm) (j : jid) : option sm :=
  usr ← get_user s (e_user e);
  trusted ← pres_trust usr j;
  if (trusted : bool) then Some s else send_dup s (Some p) (jfull j) (jfull (e_jid e)).

(** Another session of the user. *)
Definition own_session (c : loc) (e : sess) (p : pkt) (s : sm) (c' : loc) : option sm :=
  if bool_decide (c' = c) then Some s
  else
    e' ← get_sess s c';
    if e_available e' then send_dup s (Some p) (jfull (e_jid e')) (jfull (e_jid e)) else Some s.

Definition pres_available (s : sm) (c : loc) (p : pkt) : option sm :=
  e ← get_sess s c;
  let s := upd_sess c (with_pres (Some p)) s in
  '(s, items) ← roster_items s (e_user e);
  '(self, s) ← available_items e p (false, s) items;
  s ← (if negb self && negb (e_available e) then send_presence s (Some "probe") (juser (e_jid e)) (juser (e_jid e))
       else Some s);
  usr ← get_user s (e_user e);
  s ← foldM (own_session c e p) s (u_sessions usr);
  let '(t, s) := ask_time s in
  from ← p_from p;
  let stamped := pkt_delay p t (Some (jfull from)) in
  Some (upd_sess c (λ e, with_pres (Some stamped) (with_pri (p_pri p) (with_available true e))) s).

Definition pres_unavailable (s : sm) (c : loc) (p : pkt) : option sm :=
  e ← get_sess s c;
  let s := upd_sess c (with_pres None) s in
  '(s, items) ← roster_items s (e_user e);
  s ← foldM (unavailable_item e p) s items;
  s ← foldM (unavailable_jid e p) s (e_A e);
  usr ← get_user s (e_user e);
  s ← foldM (own_session c e p) s (u_sessions usr);
  Some (upd_sess c (λ e, with_available false (with_E [] (with_A [] e))) s).

(** [jid_reset] of a jid that is there; a failure leaves it empty. *)
Definition reset_from (p : pkt) (id : string) : option pkt :=
  from ← p_from p;
  match jid_reset env_nodeprep env_nameprep env_resourceprep from (Some id) (-1) with
  | JOk j | JFail j => Some (with_from (Some j) p)
  | JBadFree => None
  end.

Definition pres_update (s : sm) (c : loc) (p : pkt) : option sm :=
  e ← get_sess s c;
  if (p_type p =? pkt_PRESENCE)%Z then s ← pres_available s c p; _pres_top s (e_user e)
  else if (p_type p =? pkt_PRESENCE_UN)%Z then s ← pres_unavailable s c p; _pres_top s (e_user e)
  else if (p_type p =? pkt_PRESENCE_PROBE)%Z then
    p ← reset_from p (jfull (e_jid e));
    let to := jid_new env_nodeprep env_nameprep env_resourceprep (juser (e_jid e)) (-1) in
    pres_in s (e_user e) (with_to to p)
  else Some s.

(** ** Errors and directed presence *)

Definition pres_error (s : sm) (c : loc) (j : jid) : sm :=
  upd_sess c (λ e, with_A (zap_from (e_A e) j) (with_E (append_to (e_E e) j) e)) s.

Definition pres_deliver (s : sm) (c : loc) (p : pkt) : option sm :=
  e ← get_sess s c;
  usr ← get_user s (e_user e);
  to ← p_to p;
  self ← same_user to (e_jid e);
  if (self : bool) then p ← reset_from p (jfull (e_jid e)); pres_in s (e_user e) p
  else if (p_type p =? pkt_PRESENCE)%Z then
    trusted ← pres_trust usr to;
    let s := if (trusted : bool) then s else upd_sess c (λ e, with_A (append_to (e_A e) to) e) s in
    pkt_router (upd_sess c (λ e, with_E (zap_from (e_E e) to) e) s) (Some p)
  else if (p_type p =? pkt_PRESENCE_UN)%Z then
    pkt_router (upd_sess c (λ e, with_E (zap_from (e_E e) to) (with_A (zap_from (e_A e) to) e)) s) (Some p)
  else Some s.

(** ** Changes of the roster *)

Definition pres_roster (s : sm) (c : loc) (it : item) : option sm :=
  e ← get_sess s c;
  if negb (e_available e) then Some s
  else if in_list (e_A e) (it_jid it) || in_list (e_E e) (it_jid it) then Some s
  else send_dup s (e_pres e) (jfull (it_jid it)) (jfull (e_jid e)).

Definition pres_probe (s : sm) (u : loc) : option sm :=
  usr ← get_user s u;
  '(s, items) ← roster_items s u;
  foldM (λ s it, send_presence s (Some "probe") (Some (jfull (it_jid it))) (juser (u_jid usr))) s items.
End pres.
