(* ===== verification/Roster.v ===== *)
(** * Rosters: sm/mod_roster.c

    A user's roster is read from the file of all users each time the user is
    loaded: lines of a login, a tab and what follows are contacts, lines
    without a tab are groups, nested by the tabs in front of them.  A session
    asks for the roster with an iq. *)
From S2P Require Import Prelude.
From S2P Require Import CStr.
From S2P Require Import DList.
From S2P Require Import Codec.
From S2P Require Import Jid.
From S2P Require Import Str.
From S2P Require Import Nad.
From S2P Require Import Table.
From S2P Require Import Stanza.
From S2P Require Import Filter.
From S2P Require Import Lines.
From S2P Require Import Datetime.
From S2P Require Import Pkt.
From S2P Require Import Sm.

Definition ROSTER_MAX_INDENT : nat := 64.
Definition ROSTER_LINE_LEN : nat := 4096.
Definition uri_ROSTER : string := "jabber:iq:roster".

(** ** The groups *)

(** [_roster_stack_trim] *)
Definition stack_trim (stack : list string) (indent : nat) : list string := take indent stack.

(** [_roster_join_groups] with [n] the length of [out].  [None]: a delimiter
    takes the place of the terminator, and none follows. *)
Fixpoint join_groups (outlen : nat) (first : bool) (stack : list string) (out : string) : option string :=
  match stack with
  | [] => Some out
  | g :: stack =>
    let n := String.length out in
    if negb first && bool_decide (outlen < n + 3) then Some out
    else
      let out := if first then out else out +:+ "::" in
      let n := String.length out in
      if bool_decide (outlen < n + String.length g + 1) then
        if bool_decide (outlen ≤ n + 1) then (if first then Some out else None)
        else join_groups outlen false stack (out +:+ stake (outlen - n - 1) g)
      else join_groups outlen false stack (out +:+ g)
  end.
Definition _roster_join_groups (stack : list string) (outlen : nat) : option string := join_groups outlen true stack "".

(** The tabs in front, as many as are counted, and what follows them. *)
Fixpoint count_indent (indent : nat) (p : string) : nat * string :=
  match p with
  | String c p' =>
    if bool_decide (c = tab) then
      count_indent (if bool_decide (indent < ROSTER_MAX_INDENT - 1) then S indent else indent) p'
    else (indent, p)
  | EmptyString => (indent, p)
  end.

Section roster.
Context {T : Type → Type} `{Table T} `{Env}.
Notation sm := (sm (T := T)).
Implicit Types (s : sm) (c u : loc) (p : pkt).

(** The contact of a line: what the roster is after it. *)
Definition load_contact (me : jid) (stack : list string) (login : string) (r : T item) : option (T item) :=
  let jidbuf := snprintf 3072 (login +:+ "@" +:+ jid_domain me) in
  match new_jid jidbuf with
  | None => Some r
  | Some j =>
    self ← same_user j me;
    if (self : bool) then Some r
    else match tget r (jfull j) with
         | Some _ => Some r
         | None =>
           path ← (match stack with [] => Some "" | _ => _roster_join_groups stack 4096 end);
           let groups := if bool_decide (path = "") then [] else [path] in
           Some (tput r (jfull j) (Item j (Some login) groups 0))
         end
  end.

(** One line: the stack of groups and the roster. *)
Definition load_line (me : jid) (st : list string * T item) (line : text) : option (list string * T item) :=
  let '(stack, r) := st in
  let '(indent, p) := count_indent 0 (chomp line) in
  if bool_decide (p = "") then Some st
  else
    match split_at tab p with
    | None =>
      let stack := stack_trim stack (indent `min` length stack) in
      Some (if bool_decide (ROSTER_MAX_INDENT ≤ length stack) then stack else stack ++ [p], r)
    | Some (login, _) =>
      if bool_decide (login = "") then Some st
      else
        let stack := stack_trim stack indent in
        r ← load_contact me stack login r; Some (stack, r)
    end.

Fixpoint load_lines (me : jid) (st : list string * T item) (lines : list text) : option (list string * T item) :=
  match lines with [] => Some st | l :: lines => st ← load_line me st l; load_lines me st lines end.

Definition _roster_load_from_file (me : jid) (file : option text) (r : T item) : option (T item) :=
  if bool_decide (jid_domain me = "") then Some r
  else match file with
       | None => Some r
       | Some t => '(_, r) ← load_lines me ([], r) (fgets_lines ROSTER_LINE_LEN t); Some r
       end.

Definition _roster_user_load (s : sm) (u : loc) : option (sm * Z) :=
  usr ← get_user s u;
  r ← _roster_load_from_file (u_jid usr) (s_files s !! mo_roster_file (s_mods s)) (tnew 101);
  Some (upd_user u (with_roster (Some r)) s, 0%Z).

(** ** Requests *)

Definition insert_group (elem : Z) (n : nad) (g : string) : nad :=
  (nad_insert_elem n elem (nad_ens n elem) "group" (Some g)).1.

Definition _roster_insert_item (n : nad) (it : item) (elem : Z) : nad :=
  let '(n, ns) := nad_add_namespace n uri_CLIENT None in
  let '(n, elem) := nad_insert_elem n elem ns "item" None in
  let n := set_attr elem "jid" (Some (jfull (it_jid it))) n in
  let n := set_attr elem "subscription" (Some "both") n in
  let n := match it_name it with Some name => set_attr elem "name" (Some name) n | None => n end in
  foldl (insert_group elem) n (it_groups it).

(** [_roster_get_walker]: the document and the largest version. *)
Definition _roster_get_walker (st : nad * Z) (it : item) : nad * Z :=
  (_roster_insert_item st.1 it 2, if (st.2 <? it_ver it)%Z then it_ver it else st.2).

Definition _roster_update_walker (c : loc) (req_ver : Z) (s : sm) (it : item) : option sm :=
  if (it_ver it <=? req_ver)%Z then Some s
  else
    push ← create s "iq" (Some "set") None None;
    let '(k, s) := ask_rand 40 s in
    let push := pkt_id_new k push in
    let '(n, ns) := nad_add_namespace (p_nad push) uri_ROSTER None in
    let '(n, elem) := nad_append_elem n ns "query" 3 in
    let n := set_attr elem "ver" (Some (fmt_d (it_ver it))) n in
    pkt_sess s (Some (with_nad (_roster_insert_item n it elem) push)) c.

(** What [xhash_walk] visits of a roster that may not be there. *)
Definition roster_walk (r : option (T item)) : list item :=
  match r with Some r => (twalk r).*2 | None => [] end.

Definition _roster_in_sess (c : loc) (s : sm) (p : pkt) : option (sm * mod_ret) :=
  if negb (p_ns p =? ns_ROSTER)%Z then Some (s, mod_PASS p)
  else if (p_type p =? pkt_IQ_RESULT)%Z then Some (s, mod_HANDLED)
  else if negb (p_type p =? pkt_IQ)%Z then Some (s, mod_PASS p)
  else
    e ← get_sess s c;
    usr ← get_user s (e_user e);
    let elem := nad_find_elem (p_nad p) 1 (-1) (Some "query") 1 in
    let attr := if (0 <=? elem)%Z then nad_find_attr (p_nad p) elem (-1) "ver" None else (-1)%Z in
    let ver := if (0 <=? attr)%Z && (0 <? a_lval (attr_at (p_nad p) attr))%Z
               then atoi (cstr_of (nad_aval (p_nad p) attr)) else 0%Z in
    let n := nad_set_attr (p_nad p) 1 (-1) "type" (Some "result") 6 in
    let items := roster_walk (u_roster usr) in
    if (0 <? ver)%Z then
      s ← pkt_sess s (Some (pkt_tofrom (with_nad (nad_drop_elem n elem) p))) c;
      s ← foldM (_roster_update_walker c ver) s items;
      Some (s, mod_HANDLED)
    else
      let '(n, rver) := foldl _roster_get_walker (n, 0%Z) items in
      let n := if (0 <=? elem)%Z && (0 <=? attr)%Z then set_attr elem "ver" (Some (fmt_d rver)) n else n in
      s ← pkt_sess s (Some (pkt_tofrom (with_nad n p))) c;
      Some (s, mod_HANDLED).
End roster.
