(* ===== verification/Offline.v ===== *)
(** * Offline messages: sm/mod_offline.c

    Messages to the top sessions of a user; messages for a user without one
    go to a spool file, a line of the sender, a tab and the escaped body for
    each, which is sent to the first session that becomes available. *)
From S2P Require Import Prelude.
From S2P Require Import CStr.
From S2P Require Import DList.
From S2P Require Import Codec.
From S2P Require Import Jid.
From S2P Require Import Nad.
From S2P Require Import Table.
From S2P Require Import Stanza.
From S2P Require Import Datetime.
From S2P Require Import Lines.
From S2P Require Import Pkt.
From S2P Require Import Sm.
From S2P Require Import Pres.
From S2P Require Import Roster.

Definition OFFLINE_PATH_MAX : nat := 1024.
Definition OFFLINE_LINE_MAX : nat := 65536.
Definition uri_EVENT : string := "jabber:x:event".
Definition backslash : ascii := "\"%char.

(** ** The lines of a spool file *)

Definition escape_char (c : ascii) : text :=
  if bool_decide (c = backslash) then [backslash; backslash]
  else if bool_decide (c = newline) || bool_decide (c = carriage_return) then [backslash; "n"%char]
  else [c].
Definition _offline_escape (t : text) : text := t ≫= escape_char.

Fixpoint _offline_unescape (t : text) : text :=
  match t with
  | c :: ((d :: t) as rest) =>
    if bool_decide (c = backslash) then (if bool_decide (d = "n"%char) then newline else d) :: _offline_unescape t
    else c :: _offline_unescape rest
  | t => t
  end.

Definition spool_line (from : string) (body : text) : text :=
  tx from ++ [tab] ++ tx (cstr_of (_offline_escape body)) ++ [newline].

(** The sender and the body of a line; [None]: it is skipped. *)
Definition read_spool_line (line : text) : option (string * text) :=
  let line := chomp line in
  if bool_decide (line = "") then None
  else '(from, rest) ← split_at tab line; Some (from, _offline_unescape (tx rest)).

Section offline.
Context {T : Type → Type} `{Table T} `{Env}.
Notation sm := (sm (T := T)).
Implicit Types (s : sm) (c u : loc) (p : pkt).

Definition spool_path (s : sm) (j : jid) : string :=
  snprintf OFFLINE_PATH_MAX (o_spooldir (mo_offline (s_mods s)) +:+ "/" +:+ jid_node j).

(** ** Saving *)

(** The body that is saved, if there is one. *)
Definition saved_body (p : pkt) : option text :=
  if has (p_type p) pkt_MESSAGE then
    let elem := nad_find_elem (p_nad p) 1 (-1) (Some "body") 1 in
    if ((elem <? 0) || (e_lcdata (elem_at (p_nad p) elem) <=? 0))%Z then None else Some (nad_cdata (p_nad p) elem)
  else None.

(** The state, and whether it went well. *)
Definition _offline_save_to_file (s : sm) (me : jid) (p : pkt) : sm * bool :=
  match saved_body p with
  | None => (s, true)
  | Some body =>
    let path := spool_path s me in
    if env_can_append path then
      let from := match p_from p with Some j => jfull j | None => "" end in
      (set_files (<[path := default [] (s_files s !! path) ++ spool_line from body]> (s_files s)) s, true)
    else (s, false)
  end.

(** ** Delivering *)

Definition queued_pkt (s : sm) (me : jid) (from : string) (body : text) : option pkt :=
  p ← create s "message" (Some "chat") (Some (jfull me)) (Some from);
  let n := (nad_append_elem (p_nad p) (-1) "body" 2).1 in
  Some (with_nad (match body with [] => n | _ => nad_append_cdata n body 3 end) p).

Definition deliver_line (c : loc) (me : jid) (s : sm) (line : text) : option sm :=
  match read_spool_line line with
  | None => Some s
  | Some (from, body) => pkt_sess s (queued_pkt s me from body) c
  end.

Definition _offline_deliver_from_file (s : sm) (c : loc) : option sm :=
  e ← get_sess s c;
  let path := spool_path s (e_jid e) in
  match s_files s !! path with
  | None => Some s
  | Some t =>
    s ← foldM (deliver_line c (e_jid e)) s (fgets_lines OFFLINE_LINE_MAX t);
    Some (if env_can_unlink path then set_files (delete path (s_files s)) s else s)
  end.

Definition _offline_in_sess (c : loc) (s : sm) (p : pkt) : option (sm * mod_ret) :=
  e ← get_sess s c;
  usr ← get_user s (e_user e);
  s ← (if (p_type p =? pkt_PRESENCE)%Z && (0 <=? e_pri e)%Z && bool_decide (p_to p = None) && bool_decide (u_top usr = None)
       then _offline_deliver_from_file s c else Some s);
  Some (s, mod_PASS p).

(** ** Packets to a user *)

(** One session in the loop over the sessions of a user with a top session. *)
Definition deliver_top (p : pkt) (top : loc) (s : sm) (c : loc) : option sm :=
  e ← get_sess s c;
  if negb (e_available e) || (e_pri e <? 0)%Z then Some s
  else
    skip ← (if (p_type p =? pkt_MESSAGE_HEADLINE)%Z then Some false
            else t ← get_sess s top; Some (e_pri e <? e_pri t)%Z);
    if (skip : bool) then Some s
    else
      from ← p_from p;
      p ← pkt_dup p (Some (jfull (e_jid e))) (Some (jfull from));
      pkt_sess s (Some p) c.

(** Does the sender want to know that the message is stored? *)
Definition wants_offline_event (n : nad) : bool :=
  let ns := nad_find_scoped_namespace n uri_EVENT None in
  let elem := nad_find_elem n 1 ns (Some "x") 1 in
  ((0 <=? ns) && (0 <=? elem) && (0 <=? nad_find_elem n elem ns (Some "offline") 1) &&
   (nad_find_elem n elem ns (Some "id") 1 <? 0))%Z.

Definition offline_event (s : sm) (p : pkt) : option pkt :=
  from ← p_from p; to ← p_to p;
  event ← create s "message" None (Some (jfull from)) (Some (jfull to));
  let n := p_nad event in
  let n := match attr_ptr (p_nad p) 1 "type" with Some (v, l) => nad_set_attr n 1 (-1) "type" (Some v) l | None => n end in
  let '(n, ns) := nad_add_namespace n uri_EVENT None in
  let n := (nad_append_elem n ns "x" 2).1 in
  let n := (nad_append_elem n ns "offline" 3).1 in
  let n := (nad_append_elem n ns "id" 3).1 in
  Some (with_nad (match attr_of (p_nad p) 1 "id" with Some v => nad_append_cdata n v 4 | None => n end) event).

Definition _offline_pkt_user (u : loc) (s : sm) (p : pkt) : option (sm * mod_ret) :=
  usr ← get_user s u;
  let o := mo_offline (s_mods s) in
  let message := has (p_type p) pkt_MESSAGE in
  let s10n := has (p_type p) pkt_S10N in
  match u_top usr with
  | Some top =>
    if message || s10n then s ← foldM (deliver_top p top) s (u_sessions usr); Some (s, mod_HANDLED)
    else Some (s, mod_PASS p)
  | None =>
    if (message && negb (o_dropmessages o)) || (s10n && negb (o_dropsubscriptions o)) then
      if ((Z.land (p_type p) pkt_MESSAGE_HEADLINE =? pkt_MESSAGE_HEADLINE)%Z && negb (o_storeheadlines o)) ||
         (Z.land (p_type p) pkt_MESSAGE_GROUPCHAT =? pkt_MESSAGE_GROUPCHAT)%Z then Some (s, mod_HANDLED)
      else
        let '(t, s) := ask_time s in
        let p := pkt_delay p t (Some (jid_domain (u_jid usr))) in
        let '(s, ok) := _offline_save_to_file s (u_jid usr) p in
        if negb ok then Some (s, mod_ERR p stanza_err_INTERNAL_SERVER_ERROR)
        else if wants_offline_event (p_nad p) then
          event ← offline_event s p; s ← pkt_router s (Some event); Some (s, mod_HANDLED)
        else Some (s, mod_HANDLED)
    else Some (s, mod_PASS p)
  end.
End offline.
