(* ===== verification/SmMods.v ===== *)
(** * The small modules: sm/mod_validate.c, mod_deliver.c, mod_presence.c,
      mod_iq_ping.c, mod_iq_time.c, mod_iq_version.c, mod_echo.c, mod_help.c, mod_pep.c

    Their handlers; the chains they are on are in Mm. *)
From S2P Require Import Prelude.
From S2P Require Import CStr.
From S2P Require Import DList.
From S2P Require Import Codec.
From S2P Require Import Jid.
From S2P Require Import Nad.
From S2P Require Import Table.
From S2P Require Import Stanza.
From S2P Require Import Datetime.
From S2P Require Import Lines.
From S2P Require Import Pkt.
From S2P Require Import Sm.
From S2P Require Import Pres.

Definition urn_PING : string := "urn:xmpp:ping".
Definition urn_TIME : string := "urn:xmpp:time".
Definition uri_VERSION : string := "jabber:iq:version".

Section mods.
Context {T : Type → Type} `{Table T} `{Env}.
Notation sm := (sm (T := T)).
Notation user := (user (T := T)).
Implicit Types (s : sm) (c u : loc) (p : pkt).

(** [jid_new(jid_user(jid), -1)] *)
Definition bare_jid (j : jid) : option jid := jid_new env_nodeprep env_nameprep env_resourceprep (juser j) (-1).

(** [sess_match]: the first session with the resource. *)
Fixpoint match_resource s (l : list loc) (resource : string) : option (option loc) :=
  match l with
  | [] => Some None
  | c :: l =>
    e ← get_sess s c;
    if (strcmp (jid_resource (e_jid e)) resource =? 0)%Z then Some (Some c) else match_resource s l resource
  end.
Definition sess_match s (usr : user) (resource : string) : option (option loc) := match_resource s (u_sessions usr) resource.

(** ** mod_validate *)

Definition _validate_in_sess s p : option (sm * mod_ret) :=
  if has (p_type p) pkt_MESSAGE || has (p_type p) pkt_PRESENCE || has (p_type p) pkt_IQ || has (p_type p) pkt_S10N
  then Some (s, mod_PASS p)
  else Some (s, mod_ERR p stanza_err_BAD_REQUEST).
Definition _validate_in_router s p : option (sm * mod_ret) := _validate_in_sess s p.

(** ** mod_deliver *)

(** The packet with the session's jid as its sender. *)
Definition sender_set (e : sess) p : pkt :=
  with_nad (set_attr 1 "from" (Some (jfull (dup (e_jid e)))) (p_nad p)) (with_from (Some (dup (e_jid e))) p).

(** Is the sender that the client gave to be replaced? *)
Definition wrong_sender (e : sess) p : option bool :=
  match p_from p with
  | None => Some true
  | Some from =>
    user ← same_user from (e_jid e);
    if negb user then Some true
    else if negb (has (p_type p) pkt_PRESENCE) && negb (has (p_type p) pkt_S10N) then
      full ← same_full from (e_jid e); Some (negb full)
    else Some false
  end.

Definition _deliver_in_sess c s p : option (sm * mod_ret) :=
  e ← get_sess s c;
  wrong ← wrong_sender e p;
  let p := if (wrong : bool) then sender_set e p else p in
  match p_to p with
  | Some _ => s ← pkt_router s (Some p); Some (s, mod_HANDLED)
  | None =>
    if (p_type p =? pkt_IQ_RESULT)%Z then Some (s, mod_HANDLED)
    else if has (p_type p) pkt_IQ then Some (s, mod_ERR p stanza_err_FEATURE_NOT_IMPLEMENTED)
    else
      let p := with_nad (set_attr 1 "to" (Some (jfull (dup (e_jid e)))) (p_nad p)) (with_to (Some (dup (e_jid e))) p) in
      s ← pkt_router s (Some p); Some (s, mod_HANDLED)
  end.

Definition _deliver_pkt_user u s p : option (sm * mod_ret) :=
  usr ← get_user s u;
  to ← p_to p;
  if bool_decide (jid_resource to = "") then Some (s, mod_PASS p)
  else
    m ← sess_match s usr (jid_resource to);
    match m with
    | Some c => s ← pkt_sess s (Some p) c; Some (s, mod_HANDLED)
    | None =>
      if has (p_type p) pkt_PRESENCE then Some (s, mod_HANDLED)
      else if has (p_type p) pkt_IQ then Some (s, mod_ERR p stanza_err_SERVICE_UNAVAILABLE)
      else Some (s, mod_PASS p)
    end.

(** ** mod_presence *)

Definition _presence_in_sess c s p : option (sm * mod_ret) :=
  if negb (has (p_type p) pkt_PRESENCE) then Some (s, mod_PASS p)
  else
    e ← get_sess s c;
    own ← match p_from p with None => Some false | Some from => same_user from (e_jid e) end;
    let p := if (own : bool) then p else sender_set e p in
    s ← match p_to p with None => pres_update s c p | Some _ => pres_deliver s c p end;
    Some (s, mod_HANDLED).

(** Is one of the sessions available? *)
Fixpoint any_available s (l : list loc) : option bool :=
  match l with
  | [] => Some false
  | c :: l => e ← get_sess s c; if e_available e then Some true else any_available s l
  end.

Definition _presence_in_router s p : option (sm * mod_ret) :=
  if negb (has (p_type p) pkt_PRESENCE) then Some (s, mod_PASS p)
  else
    to ← p_to p;
    if bool_decide (jid_node to = "") || (p_type p =? pkt_PRESENCE_PROBE)%Z then Some (s, mod_PASS p)
    else
      match match juser to with Some k => tget (s_users s) k | None => None end with
      | None => Some (s, mod_HANDLED)
      | Some u =>
        usr ← get_user s u;
        av ← any_available s (u_sessions usr);
        Some (s, if (av : bool) then mod_PASS p else mod_HANDLED)
      end.

Definition _presence_pkt_user u s p : option (sm * mod_ret) :=
  if negb (has (p_type p) pkt_PRESENCE) then Some (s, mod_PASS p)
  else
    usr ← get_user s u;
    to ← p_to p;
    (* an error is noted, and still delivered *)
    noted ← (if has (p_type p) pkt_ERROR then
               m ← sess_match s usr (jid_resource to);
               match m with
               | None => Some None
               | Some c =>
                 from ← p_from p;
                 let s := pres_error s c from in
                 Some (if (Z.land (p_type p) pkt_PRESENCE_PROBE =? pkt_PRESENCE_PROBE)%Z then None else Some s)
               end
             else Some (Some s));
    match noted with
    | None => Some (s, mod_HANDLED)
    | Some s =>
      if bool_decide (jid_resource to = "") then s ← pres_in s u p; Some (s, mod_HANDLED)
      else
        m ← sess_match s usr (jid_resource to);
        match m with
        | None => Some (s, mod_HANDLED)
        | Some c => s ← pkt_sess s (Some p) c; Some (s, mod_HANDLED)
        end
    end.

Definition _presence_pkt_sm s p : option (sm * mod_ret) :=
  if negb (has (p_type p) pkt_PRESENCE || has (p_type p) pkt_S10N) then Some (s, mod_PASS p)
  else
    to ← p_to p;
    from ← p_from p;
    smjid ← bare_jid to;
    let answer s type := send_presence s (Some type) (juser from) (juser smjid) in
    if (p_type p =? pkt_S10N)%Z then
      s ← answer s "subscribed"; s ← answer s "subscribe"; Some (s, mod_HANDLED)
    else if (p_type p =? pkt_S10N_UN)%Z then s ← answer s "unsubscribed"; Some (s, mod_HANDLED)
    else Some (s, mod_HANDLED).

(** ** mod_iq_ping *)

Definition _iq_ping_reply (n : nad) : nad :=
  let ns := nad_find_scoped_namespace n urn_PING None in
  let elem := nad_find_elem n 1 ns (Some "ping") 1 in
  let n := if (0 <=? elem)%Z then nad_drop_elem n elem else n in
  nad_set_attr n 1 (-1) "type" (Some "result") 6.

Definition _iq_ping_in_sess c s p : option (sm * mod_ret) :=
  if bool_decide (p_to p = None) && (p_type p =? pkt_IQ)%Z && (p_ns p =? ns_PING (s_mods s))%Z then
    s ← pkt_sess s (Some (with_nad (_iq_ping_reply (p_nad p)) p)) c; Some (s, mod_HANDLED)
  else Some (s, mod_PASS p).

Definition _iq_ping_pkt_sm s p : option (sm * mod_ret) :=
  if (p_type p =? pkt_IQ)%Z && (p_ns p =? ns_PING (s_mods s))%Z then
    s ← pkt_router s (Some (pkt_tofrom (with_nad (_iq_ping_reply (p_nad p)) p))); Some (s, mod_HANDLED)
  else Some (s, mod_PASS p).

(** ** mod_iq_time, mod_iq_version *)

(** [%+03d] *)
Definition fmt_plus_03d (z : Z) : string := if (0 <=? z)%Z then "+" +:+ fmt_0d 2 z else fmt_0d 3 z.

(** The offset of the time zone: what is left of the hours is in seconds. *)
Definition tzo (timezone : Z) : string :=
  snprintf 64 (fmt_plus_03d (Z.quot (- timezone) 3600) +:+ ":" +:+ fmt_0d 2 (Z.rem (- timezone) 3600)).

(** [nad_insert_elem(pkt->nad, 2, NAD_ENS(pkt->nad, 1), name, text)] *)
Definition insert_result (n : nad) (name text : string) : nad := (nad_insert_elem n 2 (nad_ens n 1) name (Some text)).1.

Definition result_to_sender s p (n : nad) : option (sm * mod_ret) :=
  s ← pkt_router s (Some (pkt_tofrom (with_nad (nad_set_attr n 1 (-1) "type" (Some "result") 6) p)));
  Some (s, mod_HANDLED).

Definition _iq_time_pkt_sm s p : option (sm * mod_ret) :=
  if (p_type p =? pkt_IQ)%Z && (p_ns p =? ns_URN_TIME (s_mods s))%Z then
    let '(t, s) := ask_time s in
    let n := insert_result (p_nad p) "utc" (datetime_out t dt_DATETIME 64) in
    result_to_sender s p (insert_result n "tzo" (tzo (sc_timezone (s_conf s))))
  else Some (s, mod_PASS p).

Definition _iq_version_pkt_sm s p : option (sm * mod_ret) :=
  if (p_type p =? pkt_IQ)%Z && (p_ns p =? ns_VERSION (s_mods s))%Z then
    let n := insert_result (p_nad p) "name" (sc_package (s_conf s)) in
    let n := insert_result n "version" (sc_version (s_conf s)) in
    let n := match sc_os (s_conf s) with
             | Some (name, Some release) => insert_result n "os" (snprintf 256 (name +:+ " " +:+ release))
             | Some (name, None) => insert_result n "os" (snprintf 256 name)
             | None => n
             end in
    result_to_sender s p n
  else Some (s, mod_PASS p).

(** ** mod_echo, mod_help *)

(** The server's jid with a resource of the module's. *)
Definition server_jid (to : jid) (resource : string) : option jid :=
  j ← bare_jid to;
  match jid_reset_components env_nodeprep env_nameprep env_resourceprep j (jid_node j) (jid_domain j) resource with
  | JOk j | JFail j => Some j
  | JBadFree => None
  end.

Definition probed p : bool := (p_type p =? pkt_PRESENCE_PROBE)%Z || (p_type p =? pkt_S10N)%Z.

Definition _echo_pkt_sm s p : option (sm * mod_ret) :=
  to ← p_to p;
  from ← p_from p;
  s ← (if probed p then j ← server_jid to "echo"; send_presence s None (juser from) (Some (jfull j)) else Some s);
  if negb (has (p_type p) pkt_MESSAGE) || negb (strcmp (jid_resource to) "echo" =? 0)%Z then Some (s, mod_PASS p)
  else s ← pkt_router s (Some (pkt_tofrom p)); Some (s, mod_HANDLED).

(** The message as the administrators get it. *)
Definition help_message (from : jid) (n : nad) : nad :=
  let n := set_attr 1 "type" None n in
  let subj := nad_find_elem n 1 (nad_ens n 1) (Some "subject") 1 in
  let given := ((0 <=? subj) && (0 <? e_lcdata (elem_at n subj)))%Z in
  let org_subject := if given then cstr_of (nad_cdata n subj) else "(none)" in
  let n := if given then nad_drop_elem n subj else n in
  (nad_insert_elem n 1 (nad_ens n 1) "subject" (Some ("Fwd[" +:+ jfull from +:+ "]: " +:+ org_subject))).1.

Definition resend p (to : jid) s (j : jid) : option sm :=
  p ← pkt_dup p (Some (jfull j)) (juser to); pkt_router s (Some p).

(** An administrator of the list [all], but for the sender. *)
Definition help_all p (to from : jid) s (j : jid) : option sm :=
  self ← same_full from j; if (self : bool) then Some s else resend p to s j.
(** One of the list [messages] who is not in [all] too. *)
Definition help_messages (all : list jid) p (to : jid) s (j : jid) : option sm :=
  if in_list all j then Some s else resend p to s j.

Definition _help_pkt_sm s p : option (sm * mod_ret) :=
  to ← p_to p;
  from ← p_from p;
  smjid ← server_jid to "help";
  s ← (if probed p then send_presence s None (juser from) (Some (jfull smjid)) else Some s);
  if negb (has (p_type p) pkt_MESSAGE) ||
     (negb (bool_decide (jid_resource to = "")) && negb (strcmp (jid_resource to) "help" =? 0)%Z)
  then Some (s, mod_PASS p)
  else
    let acl name := default [] (tget (sc_acls (s_conf s)) name) in
    let p := with_nad (help_message from (p_nad p)) p in
    s ← foldM (help_all p to from) s (acl "all");
    s ← foldM (help_messages (acl "all") p to) s (acl "messages");
    Some (s, mod_HANDLED).

(** ** mod_pep *)

Definition _pep_in_sess c s p : option (sm * mod_ret) :=
  if negb ((p_type p =? pkt_IQ)%Z || (p_type p =? pkt_IQ_SET)%Z) || negb (p_ns p =? ns_PUBSUB (s_mods s))%Z
  then Some (s, mod_PASS p)
  else
    e ← get_sess s c;
    _ ← match p_to p with
        | None => Some tt
        | Some to => own ← same_user (e_jid e) to; if (own : bool) then Some tt else _ ← juser to; Some tt
        end;
    Some (s, mod_PASS p).
End mods.
