(* ===== verification/Mm.v ===== *)
(** * Sessions, users and the dispatcher: sm/mm.c, sm/user.c, sm/sess.c, sm/mod_session.c, sm/dispatch.c, sm/sm.c

    The chains of the modules, starting and ending sessions, loading and
    freeing users, the session module, and the way of a packet from the router
    through the chains. *)
From S2P Require Import Prelude.
From S2P Require Import CStr.
From S2P Require Import DList.
From S2P Require Import Codec.
From S2P Require Import Jid.
From S2P Require Import Nad.
From S2P Require Import Table.
From S2P Require Import Stanza.
From S2P Require Import Datetime.
From S2P Require Import Lines.
From S2P Require Import Pkt.
From S2P Require Import Sm.
From S2P Require Import Pres.
From S2P Require Import Roster.
From S2P Require Import Offline.
From S2P Require Import SmMods.


Section mm.
Context {T : Type → Type} `{Table T} `{Env}.
Notation sm := (sm (T := T)).
Notation handler := (handler (T := T)).
Implicit Types (s : sm) (c u : loc) (p : pkt).

(** ** Chains *)

Definition in_sess_handler (c : loc) (m : smodule) : option handler :=
  match m with
  | m_validate => Some _validate_in_sess
  | m_roster => Some (_roster_in_sess c)
  | m_pep => Some (_pep_in_sess c)
  | m_iq_ping => Some (_iq_ping_in_sess c)
  | m_offline => Some (_offline_in_sess c)
  | m_presence => Some (_presence_in_sess c)
  | m_deliver => Some (_deliver_in_sess c)
  | _ => None
  end.
Definition mm_in_sess s c p : option (sm * mod_ret) :=
  mm_loop (omap (in_sess_handler c) (ch_in_sess (s_chains s))) s p.

Definition pkt_sm_handler (m : smodule) : option handler :=
  match m with
  | m_iq_ping => Some _iq_ping_pkt_sm
  | m_iq_time => Some _iq_time_pkt_sm
  | m_iq_version => Some _iq_version_pkt_sm
  | m_help => Some _help_pkt_sm
  | m_echo => Some _echo_pkt_sm
  | m_presence => Some _presence_pkt_sm
  | _ => None
  end.
(** Its result starts as 0, which is [mod_HANDLED]. *)
Definition mm_pkt_sm s p : option (sm * mod_ret) :=
  match omap pkt_sm_handler (ch_pkt_sm (s_chains s)) with
  | [] => Some (s, mod_HANDLED)
  | hs => mm_loop hs s p
  end.

Definition pkt_user_handler (u : loc) (m : smodule) : option handler :=
  match m with
  | m_presence => Some (_presence_pkt_user u)
  | m_deliver => Some (_deliver_pkt_user u)
  | m_offline => Some (_offline_pkt_user u)
  | _ => None
  end.
Definition mm_pkt_user s u p : option (sm * mod_ret) :=
  mm_loop (omap (pkt_user_handler u) (ch_pkt_user (s_chains s))) s p.

(** The first result that is not 0 ends the chain. *)
Definition user_load_handler (m : smodule) : option (sm → loc → option (sm * Z)) :=
  match m with m_roster => Some _roster_user_load | _ => None end.
Fixpoint user_load_loop (hs : list (sm → loc → option (sm * Z))) s u : option (sm * Z) :=
  match hs with
  | [] => Some (s, 0%Z)
  | h :: hs => '(s, ret) ← h s u; if (ret =? 0)%Z then user_load_loop hs s u else Some (s, ret)
  end.
Definition mm_user_load s u : option (sm * Z) :=
  user_load_loop (omap user_load_handler (ch_user_load (s_chains s))) s u.

(** ** Users: sm/user.c *)

Definition users_get s (j : jid) : option loc :=
  match juser j with Some k => tget (s_users s) k | None => None end.

Definition user_load s (j : jid) : option (sm * option loc) :=
  match users_get s j with
  | Some u => Some (s, Some u)
  | None =>
    let '(u, s) := sm_alloc s in
    let s := set_uheap (<[u := User (dup j) None [] None false]> (s_uheap s)) s in
    '(s, ret) ← mm_user_load s u;
    if (ret =? 0)%Z then
      Some (match juser (dup j) with Some k => set_users (tput (s_users s) k u) s | None => s end, Some u)
    else Some (set_uheap (delete u (s_uheap s)) s, None)
  end.

Definition user_free s u : option sm :=
  usr ← get_user s u;
  let s := match juser (u_jid usr) with Some k => set_users (tzap (s_users s) k) s | None => s end in
  Some (set_uheap (delete u (s_uheap s)) s).

(** ** Sessions: sm/sess.c *)

(** The list without the session. *)
Fixpoint unlink (c : loc) (l : list loc) : list loc :=
  match l with [] => [] | d :: l => if bool_decide (d = c) then l else d :: unlink c l end.

Definition _sess_end_guts s c : option sm :=
  e ← get_sess s c;
  s ← (if e_available e || negb (bool_decide (e_A e = [])) then
         p ← create s "presence" (Some "unavailable") None None;
         '(s, _) ← mm_in_sess s c p; Some s
       else Some s);
  e ← get_sess s c;
  usr ← get_user s (e_user e);
  let s := upd_user (e_user e) (λ usr, with_sessions (unlink c (u_sessions usr)) usr) s in
  Some (set_sessions (tzap (s_sessions s) (e_sm_id e)) s).

Definition sess_free s c : sm := set_eheap (delete c (s_eheap s)) s.

Definition sess_end s c : option sm :=
  s ← _sess_end_guts s c;
  e ← get_sess s c;
  usr ← get_user s (e_user e);
  s ← (if bool_decide (u_sessions usr = []) then user_free s (e_user e) else Some s);
  Some (sess_free s c).

(** The first session of the user with the same jid. *)
Fixpoint find_session s (l : list loc) (j : jid) : option (option loc) :=
  match l with
  | [] => Some None
  | c :: l => e ← get_sess s c; same ← same_full (e_jid e) j; if (same : bool) then Some (Some c) else find_session s l j
  end.

(** [sm_id]: the hash of the time and the jid. *)
Definition new_sm_id (t : Z) (j : jid) : string :=
  hex_from_raw (env_sha1 (datetime_out t dt_DATETIME 41 +:+ jfull j)).

Definition sess_start s (j : jid) : option (sm * option loc) :=
  match tget (sc_hosts (s_conf s)) (jid_domain j) with
  | None => Some (s, None)
  | Some _ =>
    '(s, u) ← user_load s j;
    match u with
    | None => Some (s, None)
    | Some u =>
      usr ← get_user s u;
      old ← find_session s (u_sessions usr) j;
      s ← match old with
          | Some c => s ← sm_c2s_action s c "replaced" None; s ← _sess_end_guts s c; Some (sess_free s c)
          | None => Some s
          end;
      let '(c, s) := sm_alloc s in
      let '(t, s) := ask_time s in
      let sm_id := new_sm_id t (dup j) in
      let s := set_eheap (<[c := Sess u (dup j) "" sm_id "" None false 0 [] []]> (s_eheap s)) s in
      let s := upd_user u (λ usr, with_sessions (c :: u_sessions usr) usr) s in
      Some (set_sessions (tput (s_sessions s) sm_id c) s, Some c)
    end
  end.

(** ** mod_session *)

(** The packet goes back as it came, marked as failed. *)
Definition session_failed s p (ns : Z) : sm :=
  write (stanza_tofrom (nad_set_attr (p_nad p) 1 ns "failed" (Some "1") 1) 0) s.

(** The value of an attribute in a namespace. *)
Definition attr_ns (n : nad) (el ns : Z) (name : string) : option text :=
  let a := nad_find_attr n el ns name None in
  if (0 <=? a)%Z then Some (nad_aval n a) else None.

Definition session_start s p (ns : Z) (target : text) : option sm :=
  match text_jid target with
  | None => Some (session_failed s p ns)
  | Some j =>
    '(s, c) ← sess_start s j;
    match c with
    | None => Some (session_failed s p ns)
    | Some c =>
      rfrom ← p_rfrom p;
      (* without the attribute the name is read from before the array *)
      c2s_id ← attr_ns (p_nad p) 1 ns "c2s";
      let s := upd_sess c (λ e, with_c2s_id (sprint 44 c2s_id) (with_c2s (jid_domain rfrom) e)) s in
      e ← get_sess s c;
      let n := nad_set_attr (p_nad p) 1 ns "sm" (Some (e_sm_id e)) 0 in
      let n := nad_set_attr n 1 (-1) "action" (Some "started") 7 in
      let n := set_attr 0 "to" (Some (sc_id (s_conf s))) n in
      Some (write (stanza_tofrom n 0) s)
    end
  end.

(** Is the packet from the c2s that has the session?  A packet that does not say is. *)
Definition from_c2s (e : sess) (n : nad) (ns : Z) : bool :=
  match attr_ns n 1 ns "c2s" with Some v => bool_decide (v = tx (e_c2s_id e)) | None => true end.

(** The session of the attribute [sm]. *)
Definition session_of s (id : text) : option loc := tget (s_sessions s) (string_of id).

Definition session_command s p : option sm :=
  let ns := nad_find_namespace (p_nad p) 1 (Some uri_SESSION) None in
  match attr_of (p_nad p) 1 "target", (p_type p =? pkt_SESS_END)%Z, (p_type p =? pkt_SESS)%Z with
  | None, false, _ => Some (session_failed s p ns)
  | Some target, _, true => session_start s p ns target
  | _, is_end, _ =>
    match attr_ns (p_nad p) 1 ns "sm" with
    | None => Some (session_failed s p ns)
    | Some id =>
      match session_of s id with
      | None => Some (session_failed s p ns)
      | Some c =>
        e ← get_sess s c;
        if negb (from_c2s e (p_nad p) ns) then Some s
        else if (is_end : bool) then s ← sm_c2s_action s c "ended" None; sess_end s c
        else Some s
      end
    end
  end.

(** The request of RFC 3920 to start the session that is there already. *)
Definition session_request (n : nad) : option nad :=
  let ns := nad_find_scoped_namespace n uri_XSESSION None in
  let iq := nad_find_elem n 0 (-1) (Some "iq") 1 in
  let elem := nad_find_elem n iq ns (Some "session") 1 in
  if ((0 <=? ns) && (0 <=? iq) && (0 <=? elem))%Z then
    Some (stanza_tofrom (nad_set_attr (nad_drop_elem n elem) iq (-1) "type" (Some "result") 6) 0)
  else None.

(** A packet of a client. *)
Definition session_packet s p : option sm :=
  match session_request (p_nad p) with
  | Some n => Some (write n s)
  | None =>
    (* the search for the request leaves its namespace in [ns] *)
    let ns := nad_find_scoped_namespace (p_nad p) uri_XSESSION None in
    match attr_ns (p_nad p) 1 ns "sm" with
    | None => Some (session_failed s p ns)
    | Some id =>
      match session_of s id with
      | None => Some (session_failed s p ns)
      | Some c =>
        e ← get_sess s c;
        if negb (from_c2s e (p_nad p) ns) then Some s
        else
          '(s, ret) ← mm_in_sess s c (with_source (Some c) p);
          let fail p err := p ← pkt_error p err; pkt_sess s p c in
          match ret with
          | mod_HANDLED => Some s
          | mod_PASS p => if (p_type p =? pkt_IQ_RESULT)%Z then Some s else fail p stanza_err_FEATURE_NOT_IMPLEMENTED
          | mod_ERR p err => fail p err
          end
      end
    end
  end.

Definition _session_in_router s p : option (sm * mod_ret) :=
  if (ecur (p_nad p) <=? 1)%Z || (nad_find_namespace (p_nad p) 1 (Some uri_SESSION) None <? 0)%Z then Some (s, mod_PASS p)
  else if has (p_type p) pkt_SESS_FAILED then Some (s, mod_HANDLED)
  else
    s ← (if has (p_type p) pkt_SESS then session_command s p else session_packet s p);
    Some (s, mod_HANDLED).

(** The sessions of a c2s that went away end.  The iterator visits each entry
    once, whatever the loop zaps. *)
Definition _session_pkt_router s p : option (sm * mod_ret) :=
  match p_from p with
  | None => Some (s, mod_PASS p)
  | Some from =>
    if negb (p_rtype p =? route_ADV_UN)%Z then Some (s, mod_PASS p)
    else
      let '(t, l) := titer (s_sessions s) in
      s ← foldM (λ s c, e ← get_sess s c;
                        if (strcmp (e_c2s e) (jid_domain from) =? 0)%Z then sess_end s c else Some s)
                (set_sessions t s) l.*2;
      Some (s, mod_PASS p)
  end.

(** ** The dispatcher *)

Definition in_router_handler (m : smodule) : option handler :=
  match m with
  | m_session => Some _session_in_router
  | m_validate => Some _validate_in_router
  | m_presence => Some _presence_in_router
  | _ => None
  end.
Definition mm_in_router s p : option (sm * mod_ret) :=
  mm_loop (omap in_router_handler (ch_in_router (s_chains s))) s p.

Definition pkt_router_handler (m : smodule) : option handler :=
  match m with m_session => Some _session_pkt_router | _ => None end.
Definition mm_pkt_router s p : option (sm * mod_ret) :=
  mm_loop (omap pkt_router_handler (ch_pkt_router (s_chains s))) s p.

(** The error of a route: the first one whose code starts with the attribute. *)
Fixpoint code_index (es : list stanza_error_st) (i : Z) (t : text) : option Z :=
  match es with
  | [] => None
  | e :: es =>
    match se_code e with
    | None => None
    | Some c => if strncmp_eq (length t) c (string_of t) then Some i else code_index es (i + 1) t
    end
  end.
Definition route_error (n : nad) : Z :=
  match attr_of n 0 "error" with
  | Some t => stanza_err_BAD_REQUEST + default (stanza_err_REMOTE_SERVER_NOT_FOUND - stanza_err_BAD_REQUEST) (code_index _stanza_errors 0 t)
  | None => stanza_err_REMOTE_SERVER_NOT_FOUND
  end%Z.

(** What is left of a packet that the last chain did not take. *)
Definition chain_end s (ret : mod_ret) : option sm :=
  match ret with
  | mod_HANDLED => Some s
  | mod_PASS p => if (p_type p =? pkt_IQ_RESULT)%Z then Some s else bounce s p stanza_err_FEATURE_NOT_IMPLEMENTED
  | mod_ERR p err => bounce s p err
  end.

(** A packet to a user who is not known. *)
Definition no_user s p (to from : jid) : option sm :=
  if has (p_type p) pkt_PRESENCE && negb (p_type p =? pkt_PRESENCE_PROBE)%Z then Some s
  else if (p_type p =? pkt_PRESENCE_PROBE)%Z then
    send_presence s (Some "unsubscribed") (Some (jfull from)) (Some (jfull to))
  else bounce s p stanza_err_SERVICE_UNAVAILABLE.

Definition dispatch_user s p (to from : jid) : option sm :=
  '(s, u) ← user_load s to;
  match u with
  | None => no_user s p to from
  | Some u =>
    '(s, ret) ← mm_pkt_user s u p;
    s ← chain_end s ret;
    usr ← get_user s u;
    if bool_decide (u_sessions usr = []) then user_free s u else Some s
  end.

Definition dispatch_route s p : option sm :=
  '(s, ret) ← mm_in_router s p;
  match ret with
  | mod_HANDLED => Some s
  | mod_ERR p err => bounce s p err
  | mod_PASS p =>
    match p_from p, p_to p with
    | Some from, Some to =>
      if bool_decide (jid_node to = "") then '(s, ret) ← mm_pkt_sm s p; chain_end s ret
      else dispatch_user s p to from
    | _, _ => bounce s p stanza_err_BAD_REQUEST
    end
  end.

Definition dispatch s p : option sm :=
  if (p_rtype p =? route_BROADCAST)%Z then Some s
  else
    p ← (if has (p_rtype p) route_ERROR then pkt_error p (route_error (p_nad p)) else Some (Some p));
    match p with
    | None => Some s
    | Some p =>
      if has (p_rtype p) route_UNICAST then dispatch_route s p
      else '(s, _) ← mm_pkt_router s p; Some s
    end.

(** ** The stream to the router: sm/sm.c *)

Definition bind_nad (name : string) (multi : bool) : nad :=
  let '(n, ns) := nad_add_namespace nad_new uri_COMPONENT None in
  let '(n, elem) := nad_append_elem n ns "bind" 0 in
  if multi then (nad_append_attr (set_attr elem "name" (Some name) n) (-1) "multi" "to").1
  else (nad_append_attr n (-1) "name" name).1.

(** [event_OPEN] of [sm_sx_callback] *)
Definition sm_event_open s : sm :=
  let id := sc_id (s_conf s) in
  foldl (λ s kv, if bool_decide (kv.1 = id) then s else write (bind_nad kv.1 true) s)
    (write (bind_nad id false) s) (titer (sc_hosts (s_conf s))).2.

(** [event_PACKET]: [stream] and [open] say in which state the stream is.  The
    second result is false when the process ends. *)
Definition sm_event_packet s (stream open : bool) (n : nad) : option (sm * bool) :=
  if (nad_ens n 0 <? 0)%Z then Some (s, true)
  else if stream then Some (s, true)
  else if open && negb (s_online s) then
    if bool_decide (nad_nuri n (nad_ens n 0) = tx uri_COMPONENT) && bool_decide (nad_ename n 0 = tx "bind") then
      if (0 <=? nad_find_attr n 0 (-1) "error" None)%Z then Some (s, false)
      else Some (set_started true (set_online true s), true)
    else Some (s, true)
  else
    match pkt_new (s_xmlns s) n with
    | None => Some (s, true)
    | Some p => s ← dispatch s p; Some (s, true)
    end.

(** [action_CLOSE] of [sm_mio_callback] *)
Definition sm_event_close s : sm := set_online false s.
End mm.
