(* ===== verification/SmInv.v ===== *)
(** * What the session manager's state promises

    The heap and the tables of users and sessions agree: [sm_ok].  Most
    operations change nothing that it speaks of, which is the equality of
    [core]s. *)
From S2P Require Import Prelude.
From S2P Require Import CStr.
From S2P Require Import DList.
From S2P Require Import Table.
From S2P Require Import Codec.
From S2P Require Import Jid.
From S2P Require Import Nad.
From S2P Require Import Stanza.
From S2P Require Import Lines.
From S2P Require Import Datetime.
From S2P Require Import Pkt.
From S2P Require Import Sm.
From S2P Require Import Pres.
From S2P Require Import Roster.
From S2P Require Import Offline.
From S2P Require Import SmMods.
From S2P Require Import Mm.

(** The profiles give C strings. *)
Class EnvLaws `{Env} := {
  env_node_cstr s d : env_nodeprep s = Some d → no_nul d;
  env_name_cstr s d : env_nameprep s = Some d → no_nul d;
  env_resource_cstr s d : env_resourceprep s = Some d → no_nul d
}.

Section inv.
Context {T : Type → Type} `{TableLaws T} `{Env}.
Notation sm := (sm (T := T)).
Notation user := (user (T := T)).
Notation handler := (handler (T := T)).
Implicit Types (s : sm) (c u : loc) (p : pkt) (e : sess).

(** ** The parts of the state that the invariant speaks of *)

Definition ushape (usr : user) : jid * list loc := (u_jid usr, u_sessions usr).
Definition eshape e : loc * jid * string := (e_user e, e_jid e, e_sm_id e).

(** What only sessions that start and end, and users that come and go, change. *)
Definition shape s : sconf (T := T) * chains * loc * T loc * T loc * gmap loc (jid * list loc) * gmap loc (loc * jid * string) :=
  (s_conf s, s_chains s, s_fresh s, s_users s, s_sessions s, ushape <$> s_uheap s, eshape <$> s_eheap s).

(** What presence from a session changes too: who is available, and the top sessions. *)
Definition tops_of s : gmap loc (option loc * bool) * gmap loc (bool * Z) :=
  ((λ usr : user, (u_top usr, u_available usr)) <$> s_uheap s, (λ e, (e_available e, e_pri e)) <$> s_eheap s).

(** Nothing that the invariant speaks of is changed. *)
Definition quiet s s' : Prop := shape s' = shape s ∧ tops_of s' = tops_of s.

(** ** The top session *)

(** The sessions of a list that may get messages, with their priorities. *)
Definition candidates s (l : list loc) : list (loc * Z) :=
  omap (λ c, e ← get_sess s c; if e_available e && (0 <=? e_pri e)%Z then Some (c, e_pri e) else None) l.

(** [c] is the last of the candidates with the highest priority. *)
Definition is_top (l : list (loc * Z)) (top : option loc) : Prop :=
  match top with
  | None => l = []
  | Some c => ∃ a pri b, l = a ++ (c, pri) :: b ∧ Forall (λ x, x.2 <= pri)%Z a ∧ Forall (λ x, x.2 < pri)%Z b
  end.

Definition some_available s (l : list loc) : bool :=
  existsb (λ c, match get_sess s c with Some e => e_available e | None => false end) l.

Definition live s (l : list loc) : Prop := Forall (λ c, is_Some (get_sess s c)) l.

(** ** The invariant *)

Record sm_wf s : Prop := {
  wf_users_tab : tok (s_users s);
  wf_sessions_tab : tok (s_sessions s);
  wf_ufresh u usr : s_uheap s !! u = Some usr → u < s_fresh s;
  wf_efresh c e : s_eheap s !! c = Some e → c < s_fresh s;
  (** The tables hold no dangling pointers, and each key is the entry's own. *)
  wf_users k u : tmap (s_users s) !! k = Some u → ∃ usr, s_uheap s !! u = Some usr ∧ juser (u_jid usr) = Some k;
  wf_sessions k c : tmap (s_sessions s) !! k = Some c → ∃ e, s_eheap s !! c = Some e ∧ e_sm_id e = k;
  (** Users and sessions point to each other. *)
  wf_own u usr c : s_uheap s !! u = Some usr → c ∈ u_sessions usr → ∃ e, s_eheap s !! c = Some e ∧ e_user e = u;
  wf_back c e : s_eheap s !! c = Some e → ∃ usr, s_uheap s !! e_user e = Some usr ∧ c ∈ u_sessions usr;
  wf_nodup u usr : s_uheap s !! u = Some usr → NoDup (u_sessions usr);
  (** The keys are C strings. *)
  wf_ujid u usr k : s_uheap s !! u = Some usr → juser (u_jid usr) = Some k → no_nul k;
  wf_sm_id c e : s_eheap s !! c = Some e → no_nul (e_sm_id e)
}.

(** The top session of a user is one of his, and the right one. *)
Definition top_ok s (usr : user) : Prop :=
  is_top (candidates s (u_sessions usr)) (u_top usr) ∧ u_available usr = some_available s (u_sessions usr).

Record sm_ok s : Prop := {
  ok_wf : sm_wf s;
  ok_tops u usr : s_uheap s !! u = Some usr → top_ok s usr
}.

(** Between packets: the users that are loaded are those in the table, and each has a session. *)
Definition settled s : Prop :=
  ∀ u usr, s_uheap s !! u = Some usr →
    u_sessions usr ≠ [] ∧ ∃ k, juser (u_jid usr) = Some k ∧ tmap (s_users s) !! k = Some u.

(** ** Operations that are quiet *)

Lemma sm_quiet_refl s : quiet s s.
Proof. done. Qed.
Lemma sm_quiet_trans s1 s2 s3 : quiet s1 s2 → quiet s2 s3 → quiet s1 s3.
Proof. intros [A1 B1] [A2 B2]. split; congruence. Qed.

Lemma fmap_alter_id {A B} (g : A → B) (f : A → A) (m : gmap loc A) i :
  (∀ x, g (f x) = g x) → g <$> alter f i m = g <$> m.
Proof.
  intros Hg. apply map_eq. intros j. rewrite !lookup_fmap. destruct (decide (i = j)) as [<-|].
  - rewrite lookup_alter_eq. destruct (m !! i); cbn; [by rewrite Hg|done].
  - by rewrite lookup_alter_ne.
Qed.

Lemma quiet_upd_sess s c f :
  (∀ e, eshape (f e) = eshape e ∧ e_available (f e) = e_available e ∧ e_pri (f e) = e_pri e) →
  quiet s (upd_sess c f s).
Proof.
  intros Hf. unfold quiet, shape, tops_of, upd_sess. cbn. rewrite !fmap_alter_id; [done|..]; intros e; [|apply Hf].
  by destruct (Hf e) as (_ & -> & ->).
Qed.
Lemma quiet_upd_user s u f :
  (∀ usr, ushape (f usr) = ushape usr ∧ u_top (f usr) = u_top usr ∧ u_available (f usr) = u_available usr) →
  quiet s (upd_user u f s).
Proof.
  intros Hf. unfold quiet, shape, tops_of, upd_user. cbn. rewrite !fmap_alter_id; [done|..]; intros e; [|apply Hf].
  by destruct (Hf e) as (_ & -> & ->).
Qed.
Lemma quiet_write s n : quiet s (write n s).
Proof. done. Qed.

(** Nothing of the rest of the state matters. *)
Lemma quiet_asked s k : quiet s (set_asked_time k s) ∧ quiet s (set_asked_rand k s).
Proof. done. Qed.
Lemma quiet_files s f : quiet s (set_files f s).
Proof. done. Qed.

Lemma quiet_write_r s s' n : quiet s s' → quiet s (write n s').
Proof. done. Qed.
Lemma quiet_upd_sess_r s s' c f :
  (∀ e, eshape (f e) = eshape e ∧ e_available (f e) = e_available e ∧ e_pri (f e) = e_pri e) →
  quiet s s' → quiet s (upd_sess c f s').
Proof. intros Hf Hq. eapply sm_quiet_trans; [done|by apply quiet_upd_sess]. Qed.
Lemma quiet_upd_user_r s s' u f :
  (∀ usr, ushape (f usr) = ushape usr ∧ u_top (f usr) = u_top usr ∧ u_available (f usr) = u_available usr) →
  quiet s s' → quiet s (upd_user u f s').
Proof. intros Hf Hq. eapply sm_quiet_trans; [done|by apply quiet_upd_user]. Qed.
Lemma quiet_asked_r s s' k : quiet s s' → quiet s (set_asked_time k s') ∧ quiet s (set_asked_rand k s').
Proof. done. Qed.
Lemma quiet_files_r s s' f : quiet s s' → quiet s (set_files f s').
Proof. done. Qed.

(** Anything that runs over a list, or along a chain, and is so on each step. *)
Lemma foldM_post {A} (f : sm → A → option sm) l s (I : sm → Prop) :
  I s → (∀ s a, I s → post (f s a) I) → post (foldM f s l) I.
Proof.
  revert s. induction l as [|a l IH]; intros s Hs Hf; cbn [foldM]; [by apply post_ret|].
  apply post_bind. eapply post_mono; [by apply Hf|]. intros s' Hs'. by apply IH.
Qed.

Lemma mm_loop_post hs s p (I : sm → Prop) :
  I s → Forall (λ h : handler, ∀ s p, I s → post (h s p) (λ r, I r.1)) hs → post (mm_loop hs s p) (λ r, I r.1).
Proof.
  intros Hs Hh. revert s p Hs. induction Hh as [|h hs Hh _ IH]; intros s p Hs; cbn [mm_loop]; [by apply post_ret|].
  apply post_bind. eapply post_mono; [by apply Hh|]. intros [s' r] Hs'. destruct r; try by apply post_ret. by apply IH.
Qed.

Lemma Forall_omap {A B} (P : B → Prop) (f : A → option B) l : (∀ a b, f a = Some b → P b) → Forall P (omap f l).
Proof. intros Hf. apply Forall_forall. intros b (a & _ & Hb)%list_elem_of_omap. by eapply Hf. Qed.

Lemma mm_out_router_pass s p : mm_out_router s p = Some (s, mod_PASS p).
Proof. unfold mm_out_router. by induction (ch_out_router (s_chains s)). Qed.
End inv.

(** ** Handlers that leave users and sessions as they are

    Everything but presence from a session, and the handling of sessions
    themselves, is quiet. *)

(** The chain of facts back from the last state. *)
Ltac quiet_chain :=
  repeat first
    [ exact (sm_quiet_refl _)
    | match goal with Q : quiet ?a ?b |- quiet _ ?b => apply (sm_quiet_trans _ a b); [|exact Q]; clear Q end
    | apply quiet_write_r
    | apply quiet_upd_sess_r; [intros; done|]
    | apply quiet_upd_user_r; [intros; done|]
    | apply quiet_asked_r
    | apply quiet_files_r
    | match goal with |- quiet _ (match ?x with _ => _ end) => destruct x end ].
Ltac quiet_tac :=
  intros; lazymatch goal with |- Spec _ _ => red | _ => idtac end;
  unfold ask_rand, ask_time; cbv beta iota; repeat post_step; cbn [fst snd] in *; quiet_chain.

Section quiet.
Context {T : Type → Type} `{TableLaws T} `{Env}.
Notation sm := (sm (T := T)).
Notation handler := (handler (T := T)).
Implicit Types (s : sm) (c u : loc) (p : pkt) (e : sess).

(** A handler that leaves users and sessions as they are. *)
Definition quiet_handler (h : handler) : Prop := ∀ s p, post (h s p) (λ r, quiet s r.1).

Lemma quiet_loop hs s p : Forall quiet_handler hs → post (mm_loop hs s p) (λ r, quiet s r.1).
Proof.
  intros Hh. apply mm_loop_post; [apply sm_quiet_refl|]. eapply Forall_impl; [exact Hh|].
  intros h Hq s1 p1 Hs. eapply post_mono; [apply Hq|]. intros. by eapply sm_quiet_trans.
Qed.

#[global] Instance foldM_q {A} (f : sm → A → option sm) l s :
  (∀ s a, Spec (f s a) (quiet s)) → Spec (foldM f s l) (quiet s).
Proof.
  intros Hf. apply foldM_post; [apply sm_quiet_refl|]. intros s1 a Hs. eapply post_mono; [apply Hf|].
  intros. by eapply sm_quiet_trans.
Qed.

(** ** Output *)

#[global] Instance pkt_router_q s (p : option pkt) : Spec (pkt_router s p) (quiet s).
Proof.
  unfold pkt_router. generalize 2. intros k. destruct k, p as [p|]; cbn [pkt_router_n]; try (quiet_tac; fail).
  red. post_step; [|by apply post_ret].
  rewrite mm_out_router_pass. cbn [mbind option_bind]. repeat post_step. quiet_chain.
Qed.
#[global] Instance bounce_q s p err : Spec (bounce s p err) (quiet s).
Proof. unfold bounce. quiet_tac. Qed.
#[global] Instance sess_route_q s c p : Spec (sess_route s c p) (quiet s).
Proof. unfold sess_route. quiet_tac. Qed.
Lemma pep_out_sess_q c : quiet_handler (_pep_out_sess c).
Proof. intros s p. unfold _pep_out_sess. quiet_tac. Qed.
#[global] Instance mm_out_sess_q s c p : Spec (mm_out_sess s c p) (λ r, quiet s r.1).
Proof. apply quiet_loop, Forall_omap. intros [] h; try done. intros [= <-]. apply pep_out_sess_q. Qed.
#[global] Instance pkt_sess_q s (p : option pkt) c : Spec (pkt_sess s p c) (quiet s).
Proof. unfold pkt_sess. quiet_tac. Qed.
#[global] Instance sm_c2s_action_q s c a t : Spec (sm_c2s_action s c a t) (quiet s).
Proof. unfold sm_c2s_action. quiet_tac. Qed.
#[global] Typeclasses Opaque pkt_router bounce sess_route mm_out_sess pkt_sess sm_c2s_action foldM mm_loop.

(** ** Presence *)

#[global] Instance send_dup_q s (p : option pkt) to from : Spec (send_dup s p to from) (quiet s).
Proof. unfold send_dup. quiet_tac. Qed.
#[global] Instance send_presence_q s type to from : Spec (send_presence s type to from) (quiet s).
Proof. apply pkt_router_q. Qed.
#[global] Typeclasses Opaque send_dup send_presence.
#[global] Instance pres_in_sess_q p s c : Spec (pres_in_sess p s c) (quiet s).
Proof. unfold pres_in_sess. quiet_tac. Qed.
#[global] Typeclasses Opaque pres_in_sess.
#[global] Instance pres_in_q s u p : Spec (pres_in s u p) (quiet s).
Proof. unfold pres_in. quiet_tac. Qed.
#[global] Typeclasses Opaque pres_in.
#[global] Instance pres_deliver_q s c p : Spec (pres_deliver s c p) (quiet s).
Proof. unfold pres_deliver. quiet_tac. Qed.
#[global] Typeclasses Opaque pres_deliver.
Lemma pres_error_q s c j : quiet s (pres_error s c j).
Proof. by apply quiet_upd_sess. Qed.

(** ** Rosters, offline messages *)

#[global] Instance update_walker_q c v s it : Spec (_roster_update_walker c v s it) (quiet s).
Proof. unfold _roster_update_walker. quiet_tac. Qed.
#[global] Typeclasses Opaque _roster_update_walker.
Lemma roster_in_sess_q c : quiet_handler (_roster_in_sess c).
Proof. intros s p. unfold _roster_in_sess. quiet_tac. Qed.

#[global] Instance deliver_line_q c j s l : Spec (deliver_line c j s l) (quiet s).
Proof. unfold deliver_line. quiet_tac. Qed.
#[global] Typeclasses Opaque deliver_line.
#[global] Instance deliver_from_file_q s c : Spec (_offline_deliver_from_file s c) (quiet s).
Proof. unfold _offline_deliver_from_file. quiet_tac. Qed.
#[global] Typeclasses Opaque _offline_deliver_from_file.
Lemma offline_in_sess_q c : quiet_handler (_offline_in_sess c).
Proof. intros s p. unfold _offline_in_sess. quiet_tac. Qed.
#[global] Instance deliver_top_q p top s c : Spec (deliver_top p top s c) (quiet s).
Proof. unfold deliver_top. quiet_tac. Qed.
#[global] Typeclasses Opaque deliver_top.
Lemma offline_save_q s j p : quiet s (_offline_save_to_file s j p).1.
Proof. unfold _offline_save_to_file. repeat case_match; cbn; quiet_chain. Qed.
Lemma offline_pkt_user_q u : quiet_handler (_offline_pkt_user u).
Proof.
  intros s p. unfold _offline_pkt_user.
  assert (∀ s j p s1 b, quiet s (_offline_save_to_file s j p).1 → _offline_save_to_file s j p = (s1, b) → quiet s s1) as Hs.
  { intros s0 j p0 s1 b Hq E. by rewrite E in Hq. }
  quiet_tac; try (eapply sm_quiet_trans; [|eapply Hs; [apply offline_save_q|eassumption]]; quiet_chain).
Qed.

(** ** The other modules *)

Lemma validate_in_sess_q : quiet_handler _validate_in_sess.
Proof. intros s p. unfold _validate_in_sess. quiet_tac. Qed.
Lemma deliver_in_sess_q c : quiet_handler (_deliver_in_sess c).
Proof. intros s p. unfold _deliver_in_sess. quiet_tac. Qed.
Lemma deliver_pkt_user_q u : quiet_handler (_deliver_pkt_user u).
Proof. intros s p. unfold _deliver_pkt_user. quiet_tac. Qed.
Lemma presence_in_router_q : quiet_handler _presence_in_router.
Proof. intros s p. unfold _presence_in_router. quiet_tac. Qed.
Lemma presence_pkt_user_q u : quiet_handler (_presence_pkt_user u).
Proof. intros s p. unfold _presence_pkt_user. quiet_tac. Qed.
Lemma presence_pkt_sm_q : quiet_handler _presence_pkt_sm.
Proof. intros s p. unfold _presence_pkt_sm. quiet_tac. Qed.
Lemma iq_ping_in_sess_q c : quiet_handler (_iq_ping_in_sess c).
Proof. intros s p. unfold _iq_ping_in_sess. quiet_tac. Qed.
Lemma iq_ping_pkt_sm_q : quiet_handler _iq_ping_pkt_sm.
Proof. intros s p. unfold _iq_ping_pkt_sm. quiet_tac. Qed.
Lemma iq_time_pkt_sm_q : quiet_handler _iq_time_pkt_sm.
Proof. intros s p. unfold _iq_time_pkt_sm, result_to_sender. quiet_tac. Qed.
Lemma iq_version_pkt_sm_q : quiet_handler _iq_version_pkt_sm.
Proof. intros s p. unfold _iq_version_pkt_sm, result_to_sender. quiet_tac. Qed.
Lemma echo_pkt_sm_q : quiet_handler _echo_pkt_sm.
Proof. intros s p. unfold _echo_pkt_sm. quiet_tac. Qed.
#[global] Instance resend_q p to s j : Spec (resend p to s j) (quiet s).
Proof. unfold resend. quiet_tac. Qed.
#[global] Instance help_all_q p to from s j : Spec (help_all p to from s j) (quiet s).
Proof. unfold help_all. quiet_tac. Qed.
#[global] Instance help_messages_q l p to s j : Spec (help_messages l p to s j) (quiet s).
Proof. unfold help_messages. quiet_tac. Qed.
#[global] Typeclasses Opaque resend help_all help_messages.
Lemma help_pkt_sm_q : quiet_handler _help_pkt_sm.
Proof. intros s p. unfold _help_pkt_sm. quiet_tac. Qed.
Lemma pep_in_sess_q c : quiet_handler (_pep_in_sess c).
Proof. intros s p. unfold _pep_in_sess. quiet_tac. Qed.
End quiet.
