(* ===== verification/SmTop.v ===== *)
(** * The top session

    [_pres_top] finds the right session, and the presence of a session keeps
    the tops of all users right. *)
From S2P Require Import Prelude.
From S2P Require Import CStr.
From S2P Require Import DList.
From S2P Require Import Table.
From S2P Require Import Codec.
From S2P Require Import Jid.
From S2P Require Import Nad.
From S2P Require Import Stanza.
From S2P Require Import Lines.
From S2P Require Import Datetime.
From S2P Require Import Pkt.
From S2P Require Import Sm.
From S2P Require Import Pres.
From S2P Require Import Roster.
From S2P Require Import Offline.
From S2P Require Import SmMods.
From S2P Require Import Mm.
From S2P Require Import SmInv.

Section top.
Context {T : Type → Type} `{TableLaws T} `{Env}.
Notation sm := (sm (T := T)).
Notation user := (user (T := T)).
Notation handler := (handler (T := T)).
Implicit Types (s : sm) (c u : loc) (p : pkt) (e : sess).

(** ** Reading equal shapes *)

Lemma fmap_eq_lookup {A B} (g : A → B) (m m' : gmap loc A) i x' :
  g <$> m' = g <$> m → m' !! i = Some x' → ∃ x, m !! i = Some x ∧ g x = g x'.
Proof.
  intros E Hx. assert ((g <$> m) !! i = Some (g x')) as Hg by (by rewrite <- E, lookup_fmap, Hx).
  rewrite lookup_fmap in Hg. by apply fmap_Some in Hg as (x & -> & ->); eexists.
Qed.

Lemma shape_user s s' u usr' : shape s' = shape s → s_uheap s' !! u = Some usr' →
  ∃ usr, s_uheap s !! u = Some usr ∧ u_jid usr = u_jid usr' ∧ u_sessions usr = u_sessions usr'.
Proof.
  intros Hs Hu. injection Hs as _ _ _ _ _ Eu _. destruct (fmap_eq_lookup _ _ _ _ _ Eu Hu) as (usr & ? & [= ? ?]).
  by exists usr.
Qed.
Lemma shape_sess s s' c e' : shape s' = shape s → s_eheap s' !! c = Some e' →
  ∃ e, s_eheap s !! c = Some e ∧ e_user e = e_user e' ∧ e_jid e = e_jid e' ∧ e_sm_id e = e_sm_id e'.
Proof.
  intros Hs He. injection Hs as _ _ _ _ _ _ Ee. destruct (fmap_eq_lookup _ _ _ _ _ Ee He) as (e & ? & [= ? ? ?]).
  by exists e.
Qed.

Lemma wf_shape s s' : shape s' = shape s → sm_wf s → sm_wf s'.
Proof.
  intros Hs [W1 W2 W3 W4 W5 W6 W7 W8 W9 W10 W11]. pose proof Hs as Hs'. injection Hs' as _ _ Ef Eu Es _ _. split.
  - by rewrite Eu.
  - by rewrite Es.
  - intros u usr' Hu. destruct (shape_user _ _ _ _ Hs Hu) as (usr & Hu' & _). rewrite Ef. by eapply W3.
  - intros c e' He. destruct (shape_sess _ _ _ _ Hs He) as (e & He' & _). rewrite Ef. by eapply W4.
  - intros k u Hk. rewrite Eu in Hk. destruct (W5 _ _ Hk) as (usr & Hu & Hj).
    destruct (shape_user _ _ _ _ (eq_sym Hs) Hu) as (usr' & ? & E & _). exists usr'. by rewrite E.
  - intros k c Hk. rewrite Es in Hk. destruct (W6 _ _ Hk) as (e & He & Hj).
    destruct (shape_sess _ _ _ _ (eq_sym Hs) He) as (e' & ? & _ & _ & E). exists e'. by rewrite E.
  - intros u usr' c Hu Hc. destruct (shape_user _ _ _ _ Hs Hu) as (usr & Hu' & _ & E). rewrite <- E in Hc.
    destruct (W7 _ _ _ Hu' Hc) as (e & He & Hj). destruct (shape_sess _ _ _ _ (eq_sym Hs) He) as (e' & ? & E' & _).
    exists e'. by rewrite E'.
  - intros c e' He. destruct (shape_sess _ _ _ _ Hs He) as (e & He' & E & _). destruct (W8 _ _ He') as (usr & Hu & Hc).
    destruct (shape_user _ _ _ _ (eq_sym Hs) Hu) as (usr' & ? & _ & E'). exists usr'. by rewrite <- E, E'.
  - intros u usr' Hu. destruct (shape_user _ _ _ _ Hs Hu) as (usr & Hu' & _ & E). rewrite <- E. by eapply W9.
  - intros u usr' k Hu Hk. destruct (shape_user _ _ _ _ Hs Hu) as (usr & Hu' & E & _). rewrite <- E in Hk. by eapply W10.
  - intros c e' He. destruct (shape_sess _ _ _ _ Hs He) as (e & He' & _ & _ & E). rewrite <- E. by eapply W11.
Qed.

(** What the top session depends on. *)
Definition avail s c : option (bool * Z) := (λ e, (e_available e, e_pri e)) <$> get_sess s c.

Lemma candidates_cons s c l :
  candidates s (c :: l) =
    match avail s c with
    | Some (av, pri) => if av && (0 <=? pri)%Z then (c, pri) :: candidates s l else candidates s l
    | None => candidates s l
    end.
Proof. unfold candidates, avail. cbn. destruct (get_sess s c) as [e|]; cbn; [|done]. by destruct (_ && _). Qed.
Lemma some_available_cons s c l :
  some_available s (c :: l) = match avail s c with Some (av, _) => av | None => false end || some_available s l.
Proof. unfold some_available, avail. cbn. by destruct (get_sess s c). Qed.

Lemma candidates_ext s s' l : (∀ c, c ∈ l → avail s' c = avail s c) →
  candidates s' l = candidates s l ∧ some_available s' l = some_available s l.
Proof.
  induction l as [|c l IH]; intros Hl; [done|].
  destruct IH as [IH1 IH2]; [intros; apply Hl; by right|].
  by rewrite !candidates_cons, !some_available_cons, IH1, IH2, Hl by left.
Qed.

Lemma top_ok_ext s s' usr usr' :
  u_sessions usr' = u_sessions usr → u_top usr' = u_top usr → u_available usr' = u_available usr →
  (∀ c, c ∈ u_sessions usr → avail s' c = avail s c) → top_ok s usr → top_ok s' usr'.
Proof.
  unfold top_ok. intros -> -> -> Ha. destruct (candidates_ext s s' (u_sessions usr) Ha) as [-> ->]. done.
Qed.

Lemma tops_avail s s' c : tops_of s' = tops_of s → avail s' c = avail s c.
Proof. intros [= _ Ee]. unfold avail, get_sess. rewrite <- !lookup_fmap. by rewrite Ee. Qed.

Lemma quiet_sm_ok s s' : quiet s s' → sm_ok s → sm_ok s'.
Proof.
  intros [Hs Ht] [Hw Ho]. split; [by eapply wf_shape|]. intros u usr' Hu. pose proof Ht as [= Eu _].
  destruct (shape_user _ _ _ _ Hs Hu) as (usr & Hu' & _ & E).
  assert ((u_top usr, u_available usr) = (u_top usr', u_available usr')) as [= E1 E2].
  { assert ((λ usr : user, (u_top usr, u_available usr)) <$> s_uheap s' !! u = (λ usr, (u_top usr, u_available usr)) <$> s_uheap s !! u) as Ex.
    { rewrite <- !lookup_fmap. by rewrite Eu. }
    rewrite Hu, Hu' in Ex. cbn in Ex. congruence. }
  apply (top_ok_ext s s' usr usr'); [done..| |by eapply Ho]. intros c _. by apply tops_avail.
Qed.

(** ** The loop of [_pres_top] *)

(** What the loop has found after the candidates seen. *)
Definition found (l : list (loc * Z)) (top : option (loc * Z)) : Prop :=
  is_top l (fst <$> top) ∧ match top with None => True | Some cp => cp ∈ l ∧ Forall (λ x, x.2 <= cp.2)%Z l end.

Lemma found_next l top c pri : found l top →
  found (l ++ [(c, pri)]) (match top with Some (_, p) => if (p <=? pri)%Z then Some (c, pri) else top | None => Some (c, pri) end).
Proof.
  intros [Ht Hm]. destruct top as [[d p]|].
  - destruct Hm as [Hin Hall]. cbn [snd fst fmap option_fmap option_map] in *. destruct (Z.leb_spec p pri); split.
    + exists l, pri, []. split_and!; [done| |constructor]. eapply Forall_impl; [exact Hall|]. intros [? ?] ?; cbn in *; lia.
    + split; [apply elem_of_app; right; by left|]. apply Forall_app. split; [|repeat constructor; cbn; lia].
      eapply Forall_impl; [exact Hall|]. intros [? ?] ?; cbn in *; lia.
    + destruct Ht as (a & q & b & -> & Ha & Hb). exists a, q, (b ++ [(c, pri)]). rewrite <- app_assoc. split_and!; [done..|].
      apply Forall_app. split; [done|]. repeat constructor. cbn. rewrite Forall_forall in Ha, Hb.
      apply elem_of_app in Hin as [Hin|[Hin|Hin]%elem_of_cons]; [apply Ha in Hin|injection Hin|apply Hb in Hin]; cbn in *; lia.
    + split; [set_solver|]. apply Forall_app. split; [done|]. repeat constructor. cbn. lia.
  - cbn in Ht. subst l. split; [by exists [], pri, []|]. split; [by left|]. repeat constructor. cbn. lia.
Qed.

Lemma top_loop s l : live s l → ∀ seen top av, found seen top → ∃ top',
  foldl (top_step s) (Some (top, av)) l = Some (top', av || some_available s l) ∧ found (seen ++ candidates s l) top'.
Proof.
  induction 1 as [|c l [e He] _ IH]; intros seen top av Hf; cbn [foldl].
  { exists top. by rewrite orb_false_r, app_nil_r. }
  rewrite candidates_cons, some_available_cons. unfold avail. rewrite He. cbn [fmap option_fmap option_map].
  unfold top_step at 2. cbn [mbind option_bind]. rewrite He. cbn [mbind option_bind]. rewrite orb_assoc.
  assert (negb (e_available e) || (e_pri e <? 0)%Z = negb (e_available e && (0 <=? e_pri e)%Z)) as ->.
  { destruct (e_available e); [|done]. cbn. destruct (Z.ltb_spec (e_pri e) 0), (Z.leb_spec 0 (e_pri e)); lia || done. }
  destruct (e_available e && (0 <=? e_pri e)%Z); cbn [negb]; [|by apply IH].
  rewrite cons_middle, app_assoc.
  destruct top as [[d p]|]; apply IH; apply (found_next _ (Some (d, p))) || apply (found_next _ None); done.
Qed.

Lemma pres_top_result s u usr : get_user s u = Some usr → live s (u_sessions usr) →
  ∃ top, is_top (candidates s (u_sessions usr)) top ∧
    _pres_top s u = Some (upd_user u (λ usr', with_u_available (some_available s (u_sessions usr)) (with_top top usr')) s).
Proof.
  intros Hu Hl. destruct (top_loop s (u_sessions usr) Hl [] None false) as (top & E & Hf & _); [done|].
  exists (fst <$> top). split; [done|]. unfold _pres_top. rewrite Hu. cbn [mbind option_bind]. by rewrite E.
Qed.

Lemma wf_live s u usr : sm_wf s → get_user s u = Some usr → live s (u_sessions usr).
Proof.
  intros Hw Hu. apply Forall_forall. intros c Hc. destruct (wf_own _ Hw u usr c) as (e & He & _); [done..|]. by exists e.
Qed.

Lemma shape_upd_sess s c f : (∀ e, eshape (f e) = eshape e) → shape (upd_sess c f s) = shape s.
Proof. intros Hf. unfold shape, upd_sess. cbn. by rewrite fmap_alter_id. Qed.
Lemma shape_upd_user s u f : (∀ usr : user, ushape (f usr) = ushape usr) → shape (upd_user u f s) = shape s.
Proof. intros Hf. unfold shape, upd_user. cbn. by rewrite fmap_alter_id. Qed.

Lemma upd_user_lookup s u f u' : s_uheap (upd_user u f s) !! u' = if decide (u = u') then f <$> s_uheap s !! u' else s_uheap s !! u'.
Proof. unfold upd_user. cbn. case_decide; subst; [by rewrite lookup_alter_eq|by rewrite lookup_alter_ne]. Qed.
Lemma upd_sess_lookup s c f c' : s_eheap (upd_sess c f s) !! c' = if decide (c = c') then f <$> s_eheap s !! c' else s_eheap s !! c'.
Proof. unfold upd_sess. cbn. case_decide; subst; [by rewrite lookup_alter_eq|by rewrite lookup_alter_ne]. Qed.

(** The tops of the other users are right, and [_pres_top] sees to this one. *)
Lemma pres_top_restores s u :
  sm_wf s → (∀ u' usr, u' ≠ u → s_uheap s !! u' = Some usr → top_ok s usr) →
  post (_pres_top s u) (λ s', sm_ok s' ∧ shape s' = shape s ∧ s_eheap s' = s_eheap s).
Proof.
  intros Hw Ho s' E. destruct (get_user s u) as [usr|] eqn:Hu; [|unfold _pres_top in E; by rewrite Hu in E].
  destruct (pres_top_result s u usr Hu (wf_live s u usr Hw Hu)) as (top & Ht & E'). rewrite E' in E. injection E as <-.
  assert (shape (upd_user u (λ usr', with_u_available (some_available s (u_sessions usr)) (with_top top usr')) s) = shape s) as Hs
    by by apply shape_upd_user.
  split_and!; [|done..]. split; [by eapply wf_shape|]. intros u' usr' Hu'. rewrite upd_user_lookup in Hu'.
  case_decide as Eu; [subst u'|].
  - unfold get_user in Hu. rewrite Hu in Hu'. injection Hu' as <-. done.
  - eapply (top_ok_ext s); [done..|]. by apply (Ho u').
Qed.

(** A session changes, then the top of its user is chosen. *)
Lemma change_then_top s s1 c e f :
  sm_ok s → quiet s s1 → get_sess s c = Some e → (∀ e, eshape (f e) = eshape e) →
  post (_pres_top (upd_sess c f s1) (e_user e))
    (λ s', sm_ok s' ∧ shape s' = shape s ∧ s_eheap s' = s_eheap (upd_sess c f s1)).
Proof.
  intros Hok Hq He Hf. pose proof (quiet_sm_ok _ _ Hq Hok) as Hok1. pose proof (proj1 Hq) as Hs1.
  assert (shape (upd_sess c f s1) = shape s1) as Hs by by apply shape_upd_sess.
  destruct (shape_sess _ _ c e (eq_sym Hs1) He) as (e1 & He1 & Eu & _).
  eapply post_mono; [apply pres_top_restores; [by eapply wf_shape, ok_wf|]|].
  - intros u' usr Hne Hu. eapply (top_ok_ext s1); [done..| |by eapply (ok_tops _ Hok1 u')].
    intros d Hd. unfold avail, get_sess. rewrite upd_sess_lookup. rewrite decide_False; [done|]. intros <-.
    destruct (wf_own _ (ok_wf _ Hok1) u' usr c Hu Hd) as (e2 & He2 & Eu2). congruence.
  - intros s' (? & E & ?). split_and!; [done| |done]. congruence.
Qed.

(** ** Presence from a session *)

#[global] Instance available_item_q e p st it : Spec (available_item e p st it) (λ r, quiet st.2 r.2).
Proof. destruct st as [self s]. unfold available_item. quiet_tac. Qed.
#[global] Instance available_items_q e p st l : Spec (available_items e p st l) (λ r, quiet st.2 r.2).
Proof.
  revert st. induction l as [|it l IH]; intros st; cbn [available_items]; [by apply post_ret|].
  apply post_bind. eapply post_mono; [apply available_item_q|]. intros st' Hq. eapply post_mono; [apply IH|].
  intros r Hr. exact (sm_quiet_trans _ _ _ Hq Hr).
Qed.
#[global] Instance unavailable_item_q e p s it : Spec (unavailable_item e p s it) (quiet s).
Proof. unfold unavailable_item. quiet_tac. Qed.
#[global] Instance unavailable_jid_q e p s j : Spec (unavailable_jid e p s j) (quiet s).
Proof. unfold unavailable_jid. quiet_tac. Qed.
#[global] Instance own_session_q c e p s c' : Spec (own_session c e p s c') (quiet s).
Proof. unfold own_session. quiet_tac. Qed.
#[global] Instance roster_items_q s u : Spec (roster_items s u) (λ r, quiet s r.1).
Proof. unfold roster_items. quiet_tac. Qed.
#[global] Typeclasses Opaque available_items unavailable_item unavailable_jid own_session roster_items.

(** Only the session's own fields change, at the end. *)
Lemma pres_available_post s c p :
  post (pres_available s c p) (λ s', ∃ s1 q, quiet s s1 ∧
    s' = upd_sess c (λ e, with_pres (Some q) (with_pri (p_pri p) (with_available true e))) s1).
Proof. unfold pres_available, ask_time. repeat post_step; cbn [fst snd] in *; (eexists _, _; split; [|reflexivity]); quiet_chain. Qed.
Lemma pres_unavailable_post s c p :
  post (pres_unavailable s c p) (λ s', ∃ s1, quiet s s1 ∧
    s' = upd_sess c (λ e, with_available false (with_E [] (with_A [] e))) s1).
Proof. unfold pres_unavailable. repeat post_step; cbn [fst snd] in *; (eexists _; split; [|reflexivity]); quiet_chain. Qed.

(** Where an update leaves the session. *)
Definition updated p s c s' : Prop :=
  (p_type p = pkt_PRESENCE_UN → ∃ e, get_sess s' c = Some e ∧ e_available e = false ∧ e_A e = [] ∧ e_E e = []) ∧
  (p_type p = pkt_PRESENCE → ∃ e, get_sess s' c = Some e ∧ e_available e = true ∧ e_pri e = p_pri p).

Lemma pres_update_post s c p : sm_ok s →
  post (pres_update s c p) (λ s', sm_ok s' ∧ shape s' = shape s ∧ updated p s c s').
Proof.
  intros Hok. unfold pres_update. apply post_bind. intros e He.
  assert (∀ s1, quiet s s1 → is_Some (get_sess s1 c)) as Hlive.
  { intros s1 [Hs _]. destruct (shape_sess _ _ c e (eq_sym Hs) He) as (e' & ? & _). by exists e'. }
  destruct (Z.eqb_spec (p_type p) pkt_PRESENCE) as [Ep|Ep];
    [|destruct (Z.eqb_spec (p_type p) pkt_PRESENCE_UN) as [Eu|Eu]; [|destruct (_ =? _)%Z]].
  - apply post_bind. eapply post_mono; [apply pres_available_post|]. intros s' (s1 & q & Hq & ->).
    eapply post_mono; [by eapply (change_then_top s s1 c e)|]. intros s2 (? & ? & Eh). split_and!; [done..|].
    split; [intros E; rewrite E in Ep; done|]. intros _. destruct (Hlive _ Hq) as [e1 He1].
    unfold get_sess. rewrite Eh, upd_sess_lookup, decide_True by done. unfold get_sess in He1. rewrite He1. by eexists.
  - apply post_bind. eapply post_mono; [apply pres_unavailable_post|]. intros s' (s1 & Hq & ->).
    eapply post_mono; [by eapply (change_then_top s s1 c e)|]. intros s2 (? & ? & Eh). split_and!; [done..|].
    split; [|done]. intros _. destruct (Hlive _ Hq) as [e1 He1].
    unfold get_sess. rewrite Eh, upd_sess_lookup, decide_True by done. unfold get_sess in He1. rewrite He1. by eexists.
  - apply post_bind. intros p1 _. cbv zeta. eapply post_mono; [apply pres_in_q|]. intros s' Hq.
    split_and!; [by eapply quiet_sm_ok|by apply Hq|]. by split.
  - apply post_ret. split_and!; [done..|]. by split.
Qed.

Lemma presence_in_sess_post c s p : sm_ok s →
  post (_presence_in_sess c s p) (λ r, sm_ok r.1 ∧ shape r.1 = shape s ∧
    (has (p_type p) pkt_PRESENCE = true → p_to p = None → r.2 = mod_HANDLED ∧ updated p s c r.1)).
Proof.
  intros Hok. unfold _presence_in_sess. destruct (has (p_type p) pkt_PRESENCE); cbn [negb]; [|by apply post_ret].
  apply post_bind. intros e He. apply post_bind. intros own _. cbv zeta. set (q := if own then p else sender_set e p).
  assert (p_to q = p_to p ∧ p_type q = p_type p ∧ p_pri q = p_pri p) as (Et & Ety & Epr) by (unfold q; by destruct own).
  apply post_bind. destruct (p_to q) as [to|] eqn:Eq.
  - eapply post_mono; [apply pres_deliver_q|]. intros s' Hq. apply post_ret. cbn [fst snd].
    split_and!; [by eapply quiet_sm_ok|by apply Hq|]. intros _ Hn. congruence.
  - eapply post_mono; [by apply pres_update_post|]. intros s' (? & ? & Hu). apply post_ret. cbn [fst snd].
    split_and!; [done..|]. intros _ _. split; [done|]. unfold updated in *. by rewrite <- Ety, <- Epr.
Qed.
End top.

(** ** Addresses as keys

    The jids that packets are read with have names that are keys of tables, or
    no name; the packets that [pkt_new] makes and [pkt_error] turns round have
    such addresses. *)

(** The name of a jid is a key of tables, if there is a domain. *)
Definition good_jid (j : jid) : Prop :=
  match juser j with Some k => good_key k | None => jid_domain j = "" end.

Lemma good_jid_key j k : good_jid j → juser j = Some k → good_key k.
Proof. unfold good_jid. intros Hj E. by rewrite E in Hj. Qed.
Definition opt_good (o : option jid) : Prop := ∀ j, o = Some j → good_jid j.
Record good_pkt (p : pkt) : Prop := {
  good_to : opt_good (p_to p); good_from : opt_good (p_from p);
  good_rto : opt_good (p_rto p); good_rfrom : opt_good (p_rfrom p)
}.

Lemma juser_dup j : juser (dup j) = juser j.
Proof.
  destruct j as [n d r [|st len] us fu di]; [done|]. unfold juser, dup, jid_dup, jid_user, jid_expand. cbn.
  destruct di, fu; cbn; try done; by case_bool_decide.
Qed.

Lemma dup_good j : good_jid j → good_jid (dup j).
Proof. unfold good_jid. rewrite juser_dup. destruct j as [n d r [] us fu di]; by destruct (juser _). Qed.

Section jids.
Context `{EnvLaws}.

Lemma fresh_good n d r buf : no_nul n → no_nul d → good_jid (Jid n d r buf None None true).
Proof.
  intros Hn Hd. unfold good_jid, juser, jid_user, jid_expand. cbn.
  case_bool_decide as Ed; cbn; [done|]. unfold user_str. rewrite strlen_0.
  destruct n as [|c n]; [by split|]. rewrite bool_decide_false by done. split; [|done].
  rewrite no_nul_app. apply andb_True. split; [exact Hn|].
  apply Is_true_eq_left, no_nul_cons. split; [done|]. by apply Is_true_eq_true.
Qed.

(** What a reset that goes well leaves: prepared parts, and no strings kept. *)
Definition fresh_jid (j : jid) : Prop :=
  ∃ n d r buf, j = Jid n d r buf None None true ∧ no_nul n ∧ no_nul d ∧ no_nul r.

Lemma reset_fresh j id len j' :
  jid_reset env_nodeprep env_nameprep env_resourceprep j (Some id) len = JOk j' → fresh_jid j'.
Proof.
  unfold jid_reset. destruct (reset_buf _ _) as [buf|]; [|done]. destruct (_ || _); [done|].
  destruct (split_id _) as [[[a b] d]|]; [|done].
  destruct (jid_prep _ _ _ _) as [jp| |] eqn:Ep; [|done|done]. intros [= <-].
  unfold jid_prep in Ep. cbn [jid_node jid_domain jid_resource] in Ep.
  destruct (jid_prep_pieces _ _ _ _ _ _) as [[[n' d'] r']|] eqn:Es; [|done].
  assert (no_nul n' ∧ no_nul d' ∧ no_nul r') as (Hn & Hd & Hr).
  { unfold jid_prep_pieces in Es. apply bind_Some in Es as (n1 & En & Es). apply bind_Some in Es as (d1 & Ed & Es).
    apply bind_Some in Es as (r1 & Er & Es). injection Es as -> -> ->.
    split_and!; [|by eapply env_name_cstr|].
    - clear Er. case_bool_decide as Eb; [rewrite Eb in En; by injection En as <-|by eapply env_node_cstr].
    - clear En. case_bool_decide as Eb; [rewrite Eb in Er; by injection Er as <-|by eapply env_resource_cstr]. }
  unfold reset_components_raw in Ep. destruct (reset_buf _ _) as [buf'|]; [|done].
  apply (f_equal (λ q : jres, match q with JOk j => j | _ => jp end)) in Ep. cbv beta iota in Ep. rewrite <- Ep.
  eexists _, _, _, _. split; [reflexivity|]. by split_and!; apply no_nul_stake.
Qed.

Lemma reset_good j id len j' :
  jid_reset env_nodeprep env_nameprep env_resourceprep j (Some id) len = JOk j' → good_jid j'.
Proof. intros (n & d & r & buf & -> & Hn & Hd & _)%reset_fresh. by apply fresh_good. Qed.

Lemma new_jid_fresh s j : new_jid s = Some j → fresh_jid j.
Proof. unfold new_jid, jid_new. destruct (jid_reset _ _ _ _ _ _) eqn:E; [|done..]. intros [= ->]. by eapply reset_fresh. Qed.

Lemma new_jid_good s : opt_good (new_jid s).
Proof. intros j. unfold new_jid, jid_new. destruct (jid_reset _ _ _ _ _ _) eqn:E; [|done..]. intros [= ->]. by eapply reset_good. Qed.
Lemma text_jid_good t : opt_good (text_jid t).
Proof. intros j. unfold text_jid, jid_new. destruct (jid_reset _ _ _ _ _ _) eqn:E; [|done..]. intros [= ->]. by eapply reset_good. Qed.

(** ** Packets *)

Context {T : Type → Type} `{Table T}.

Lemma opt_good_none : opt_good None.
Proof. done. Qed.
Lemma attr_jid_good (v : option text) (f : text → option jid) : (∀ t, opt_good (f t)) → opt_good (v ≫= f).
Proof. intros Hf. destruct v; [apply Hf|done]. Qed.
Lemma stanza_jid_good n name : opt_good (stanza_jid n name).
Proof. apply attr_jid_good. intros t. case_bool_decide; [done|]. apply text_jid_good. Qed.

Lemma pkt_new_good (xmlns : T Z) n : post (pkt_new xmlns n) good_pkt.
Proof.
  unfold pkt_new, pkt_new_route. repeat post_step; split; cbn [p_to p_from p_rto p_rfrom];
    first [apply opt_good_none | apply stanza_jid_good | apply attr_jid_good, text_jid_good].
Qed.

Lemma pkt_tofrom_good p : good_pkt p → good_pkt (pkt_tofrom p).
Proof. by intros [? ? ? ?]. Qed.
Lemma with_nad_good n p : good_pkt p → good_pkt (with_nad n p).
Proof. by intros [? ? ? ?]. Qed.
Lemma with_type_good x p : good_pkt p → good_pkt (with_type x p).
Proof. by intros [? ? ? ?]. Qed.
Lemma with_source_good x p : good_pkt p → good_pkt (with_source x p).
Proof. by intros [? ? ? ?]. Qed.

Lemma addressed_good p : good_pkt p →
  good_pkt (match p_to p, p_rto p with None, Some rto => with_to (Some (dup rto)) p | _, _ => p end).
Proof.
  intros Hp. destruct (p_to p); [exact Hp|]. destruct (p_rto p) as [rto|] eqn:Er; [|exact Hp].
  destruct Hp as [G1 G2 G3 G4]. split; [|exact G2|exact G3|exact G4]. intros j [= <-]. by apply dup_good, G3.
Qed.

Lemma pkt_error_good p err : good_pkt p → post (pkt_error p err) (λ o, ∀ q, o = Some q → good_pkt q).
Proof.
  intros Hp. unfold pkt_error. destruct (has _ _); [by apply post_ret|]. destruct (_ <=? _)%Z; [by apply post_none|].
  apply post_bind. intros n _. cbv zeta. apply post_ret. intros q [= <-].
  apply (addressed_good (with_type (Z.lor (p_type p) pkt_ERROR) (pkt_tofrom (with_nad n p)))).
  by apply with_type_good, pkt_tofrom_good, with_nad_good.
Qed.
End jids.
