(* ===== verification/SmLife.v ===== *)
(** * Users and sessions come and go

    Loading and freeing users, starting and ending sessions keep the tables of
    users and sessions and the heap in agreement: [user_load_post],
    [user_free_post], [sess_end_post], [sess_start_post]. *)
From S2P Require Import Prelude.
From S2P Require Import CStr.
From S2P Require Import DList.
From S2P Require Import Codec.
From S2P Require Import Jid.
From S2P Require Import Nad.
From S2P Require Import Table.
From S2P Require Import Stanza.
From S2P Require Import Datetime.
From S2P Require Import Lines.
From S2P Require Import Pkt.
From S2P Require Import Sm.
From S2P Require Import Pres.
From S2P Require Import Roster.
From S2P Require Import Offline.
From S2P Require Import SmMods.
From S2P Require Import Mm.
From S2P Require Import SmInv.
From S2P Require Import SmTop.

(** A presence of a session comes to mod_presence, past no mod_deliver. *)
Fixpoint reaches_presence (l : list smodule) : bool :=
  match l with
  | [] => false
  | m_presence :: _ => true
  | m_deliver :: _ => false
  | _ :: l => reaches_presence l
  end.

Section life.
Context {T : Type → Type} `{TableLaws T} `{EnvLaws}.
Notation sm := (sm (T := T)).
Notation user := (user (T := T)).
Notation handler := (handler (T := T)).
Implicit Types (s : sm) (c u : loc) (p : pkt) (e : sess) (usr : user).

(** ** Users in the table *)

Definition registered s u usr : Prop := ∀ k, juser (u_jid usr) = Some k → tmap (s_users s) !! k = Some u.

(** Only the user [o], who is loaded for one packet, may be without sessions. *)
Definition settled_but (o : option loc) s : Prop :=
  ∀ u usr, s_uheap s !! u = Some usr →
    registered s u usr ∧ (u_sessions usr = [] ∨ juser (u_jid usr) = None → o = Some u).

Lemma settled_but_none s : settled_but None s ↔ settled s.
Proof.
  split; intros Hs u usr Hu; destruct (Hs u usr Hu) as [G1 G2].
  - destruct (juser (u_jid usr)) as [k|] eqn:Ek; [|by discriminate G2; right].
    split; [intros E; by discriminate G2; left|]. exists k. split; [done|by apply G1].
  - destruct G2 as (k & Ek & Hk). split; [intros k' Ek'; congruence|]. intros [|]; congruence.
Qed.
Lemma settled_weaken o s : settled_but None s → settled_but o s.
Proof. intros Hs u usr Hu. destruct (Hs u usr Hu) as [? Hn]. split; [done|]. intros E. by discriminate (Hn E). Qed.
Lemma settled_shape o s s' : shape s' = shape s → settled_but o s → settled_but o s'.
Proof.
  intros Hsh Hs u usr' Hu'. destruct (shape_user _ _ _ _ Hsh Hu') as (usr & Hu & Ej & Es).
  destruct (Hs u usr Hu) as [G1 G2]. unfold registered. rewrite <- Ej, <- Es. split; [|done].
  injection Hsh as _ _ _ -> _ _ _. done.
Qed.

(** ** Loading users *)

Lemma user_load_loop_post hs s u :
  Forall (λ h : sm → loc → option (sm * Z), ∀ s, post (h s u) (λ r, quiet s r.1 ∧ r.2 = 0%Z)) hs →
  post (user_load_loop hs s u) (λ r, quiet s r.1 ∧ r.2 = 0%Z).
Proof.
  intros Hh. revert s. induction Hh as [|h hs Hh _ IH]; intros s; cbn [user_load_loop]; [by apply post_ret|].
  apply post_bind. eapply post_mono; [apply Hh|]. intros [s' r] [Hq Hr]. cbn [fst snd] in *. subst r. cbn.
  eapply post_mono; [apply IH|]. intros r [? ?]. split; [by eapply sm_quiet_trans|done].
Qed.
Lemma mm_user_load_post s u : post (mm_user_load s u) (λ r, quiet s r.1 ∧ r.2 = 0%Z).
Proof.
  apply user_load_loop_post, Forall_omap. intros [] h; try done. intros [= <-] s1. unfold _roster_user_load.
  repeat post_step. split; [|done]. cbn [fst]. by apply quiet_upd_user.
Qed.

(** A user at a new address. *)
Definition with_user s u (j : jid) : sm := set_uheap (<[u := User j None [] None false]> (s_uheap s)) (set_fresh (S u) s).

Lemma with_user_ok s j : sm_ok s → good_jid j → sm_ok (with_user s (s_fresh s) j).
Proof.
  intros [[W1 W2 W3 W4 W5 W6 W7 W8 W9 W10 W11] Ho] Hj.
  assert (∀ u usr, s_uheap (with_user s (s_fresh s) j) !! u = Some usr →
    u = s_fresh s ∧ usr = User j None [] None false ∨ u ≠ s_fresh s ∧ s_uheap s !! u = Some usr) as Hin.
  { intros u usr. unfold with_user. cbn. intros [[<- <-]|[? ?]]%lookup_insert_Some; [by left|right; by split]. }
  assert (∀ u usr, s_uheap s !! u = Some usr → s_uheap (with_user s (s_fresh s) j) !! u = Some usr) as Hout.
  { intros u usr Hu. unfold with_user. cbn. rewrite lookup_insert_ne; [done|]. intros <-. apply W3 in Hu. lia. }
  split; [split|].
  - done.
  - done.
  - intros u usr [[-> _]|[_ Hu]]%Hin; cbn; [lia|apply W3 in Hu; lia].
  - intros c e He. apply W4 in He. cbn. lia.
  - intros k u Hk. destruct (W5 k u Hk) as (usr & Hu & E). exists usr. split; [by apply Hout|done].
  - exact W6.
  - intros u usr c [[-> ->]|[_ Hu]]%Hin Hc; [by apply not_elem_of_nil in Hc|]. by eapply W7.
  - intros c e He. destruct (W8 c e He) as (usr & Hu & Hc). exists usr. split; [by apply Hout|done].
  - intros u usr [[-> ->]|[_ Hu]]%Hin; [constructor|by eapply W9].
  - intros u usr k [[-> ->]|[_ Hu]]%Hin Hk; [|by eapply W10]. by apply (good_jid_key j).
  - exact W11.
  - intros u usr [[-> ->]|[_ Hu]]%Hin; [done|]. exact (Ho u usr Hu).
Qed.

(** The user is entered in the table. *)
Lemma sm_register_ok s u usr k : sm_ok s → s_uheap s !! u = Some usr → juser (u_jid usr) = Some k →
  sm_ok (set_users (tput (s_users s) k u) s).
Proof.
  intros [[W1 W2 W3 W4 W5 W6 W7 W8 W9 W10 W11] Ho] Hu Hk.
  destruct (tput_ok (s_users s) k u W1) as [Ht Em]; [by eapply W10|]. split; [split|]; try done.
  intros k' u'. cbn. rewrite Em. intros [[<- <-]|[_ Hk']]%lookup_insert_Some; [by exists usr|by apply W5].
Qed.

Definition loaded s (j : jid) (r : sm * option loc) : Prop :=
  sm_ok r.1 ∧ s_conf r.1 = s_conf s ∧ s_chains r.1 = s_chains s ∧
  ∃ u usr, r.2 = Some u ∧ s_uheap r.1 !! u = Some usr ∧ juser (u_jid usr) = juser j ∧ settled_but (Some u) r.1 ∧
    (u_sessions usr = [] ∨ juser (u_jid usr) ≠ None).

Lemma users_get_some s j u : sm_ok s → good_jid j → users_get s j = Some u →
  ∃ usr, s_uheap s !! u = Some usr ∧ juser (u_jid usr) = juser j.
Proof.
  intros Hok Hj. unfold users_get. destruct (juser j) as [k|] eqn:Ek; [|done]. intros Eg.
  rewrite tget_ok in Eg; [|by apply (wf_users_tab _ (ok_wf _ Hok))|by apply (good_jid_key j)]. by apply (wf_users _ (ok_wf _ Hok)).
Qed.
Lemma users_get_none s j k : sm_ok s → good_jid j → users_get s j = None → juser j = Some k → tmap (s_users s) !! k = None.
Proof.
  intros Hok Hj. unfold users_get. intros Eg Ek. rewrite Ek in Eg.
  rewrite tget_ok in Eg; [done|by apply (wf_users_tab _ (ok_wf _ Hok))|by apply (good_jid_key j)].
Qed.

(** The new user, and the others, when the modules have loaded him. *)
Lemma with_user_new s j s2 : quiet (with_user s (s_fresh s) j) s2 →
  ∃ usr, s_uheap s2 !! s_fresh s = Some usr ∧ u_jid usr = j ∧ u_sessions usr = [].
Proof.
  intros [Hsh _]. assert (s_uheap (with_user s (s_fresh s) j) !! s_fresh s = Some (User j None [] None false)) as Hnew
    by apply lookup_insert_eq.
  destruct (shape_user _ _ _ _ (eq_sym Hsh) Hnew) as (usr & Hu & Ej & Es). by exists usr.
Qed.
Lemma with_user_old s j s2 u usr : settled_but None s → quiet (with_user s (s_fresh s) j) s2 →
  s_uheap s2 !! u = Some usr → u ≠ s_fresh s →
  registered s u usr ∧ ¬ (u_sessions usr = [] ∨ juser (u_jid usr) = None).
Proof.
  intros Hset [Hsh _] Hu Hne. destruct (shape_user _ _ _ _ Hsh Hu) as (usr0 & Hu0 & Ej & Es).
  unfold with_user in Hu0. cbn in Hu0. rewrite lookup_insert_ne in Hu0 by done.
  destruct (Hset u usr0 Hu0) as [Hr Hn]. unfold registered. rewrite <- Ej, <- Es. split; [done|].
  intros E. by discriminate (Hn E).
Qed.

(** A new user entered under his name. *)
Lemma enter_user s j s2 k : sm_ok s → settled_but None s → good_jid j → juser j = Some k → tmap (s_users s) !! k = None →
  quiet (with_user s (s_fresh s) j) s2 → settled_but (Some (s_fresh s)) (set_users (tput (s_users s2) k (s_fresh s)) s2).
Proof.
  intros Hok Hset Hj Ek Hnone Hq u usr Hu. cbn in Hu. destruct (with_user_new _ _ _ Hq) as (usr0 & Hu0 & Ej & _).
  assert (s_users s2 = s_users s) as Eus by (destruct Hq as [[= _ _ _ -> _ _ _] _]; done).
  destruct (tput_ok (s_users s) k (s_fresh s) (wf_users_tab _ (ok_wf _ Hok))) as [_ Em]; [by apply (good_jid_key j)|].
  unfold registered. cbn [s_users set_users]. rewrite Eus, Em. destruct (decide (u = s_fresh s)) as [->|Hne].
  - split; [|done]. intros k' Hk'. rewrite Hu0 in Hu. injection Hu as <-. rewrite Ej, Ek in Hk'. injection Hk' as <-.
    by apply lookup_insert_eq.
  - destruct (with_user_old _ _ _ _ _ Hset Hq Hu Hne) as (Hr & Hn). split; [|done]. intros k' Hk'.
    apply Hr in Hk'. rewrite lookup_insert_ne; [done|congruence].
Qed.
Lemma enter_nameless s j s2 : settled_but None s → juser j = None →
  quiet (with_user s (s_fresh s) j) s2 → settled_but (Some (s_fresh s)) s2.
Proof.
  intros Hset Ek Hq u usr Hu. destruct (with_user_new _ _ _ Hq) as (usr0 & Hu0 & Ej & _).
  assert (s_users s2 = s_users s) as Eus by (destruct Hq as [[= _ _ _ -> _ _ _] _]; done).
  unfold registered. rewrite Eus. destruct (decide (u = s_fresh s)) as [->|Hne].
  - split; [|done]. intros k' Hk'. congruence.
  - destruct (with_user_old _ _ _ _ _ Hset Hq Hu Hne) as (Hr & Hn). by split.
Qed.

Lemma user_load_post s j : sm_ok s → settled s → good_jid j → post (user_load s j) (loaded s j).
Proof.
  intros Hok Hset Hj. apply settled_but_none in Hset. unfold user_load, loaded.
  destruct (users_get s j) as [u|] eqn:Eg.
  - apply post_ret. destruct (users_get_some _ _ _ Hok Hj Eg) as (usr & Hu & Ek).
    split_and!; [done..|]. exists u, usr. split_and!; [done..|by apply settled_weaken|]. right. intros En.
    destruct (Hset u usr Hu) as [_ Hn]. by discriminate Hn; right.
  - cbv beta zeta delta [sm_alloc]. apply post_bind.
    change (mm_user_load _ (s_fresh s)) with (mm_user_load (with_user s (s_fresh s) (dup j)) (s_fresh s)).
    pose proof (with_user_ok s (dup j) Hok (dup_good j Hj)) as Hok1.
    eapply post_mono; [apply mm_user_load_post|]. intros [s2 ret] [Hq Hr]. cbn [fst snd] in *. subst ret. cbn [Z.eqb].
    apply post_ret. pose proof (quiet_sm_ok _ _ Hq Hok1) as Hok2. destruct (with_user_new _ _ _ Hq) as (usr & Hu & Ej & Es).
    pose proof (proj1 Hq) as Hsh. injection Hsh as Ec Ech _ _ _ _ _.
    rewrite juser_dup. destruct (juser j) as [k|] eqn:Ek; cbn [fst snd].
    + split_and!; [|done..|]. { apply (sm_register_ok s2 (s_fresh s) usr k); [done..|]. by rewrite Ej, juser_dup. }
      exists (s_fresh s), usr. split_and!; [done..|by rewrite Ej, juser_dup| |by left].
      apply (enter_user s (dup j)); [done..|by apply dup_good|by rewrite juser_dup| |done].
      by eapply users_get_none.
    + split_and!; [done..|]. exists (s_fresh s), usr. split_and!; [done..|by rewrite Ej, juser_dup| |by left].
      apply (enter_nameless s (dup j)); [done|by rewrite juser_dup|done].
Qed.
(** ** Freeing users *)

Lemma user_free_ok s u usr : sm_ok s → s_uheap s !! u = Some usr → u_sessions usr = [] → settled_but (Some u) s →
  post (user_free s u) (λ s', sm_ok s' ∧ settled s' ∧ s_chains s' = s_chains s).
Proof.
  intros Hok Hu Hnil Hset. pose proof (ok_wf _ Hok) as Hw.
  assert (∃ t, user_free s u = Some (set_uheap (delete u (s_uheap s)) (set_users t s)) ∧ tok t ∧
    ∀ k u', tmap t !! k = Some u' ↔ tmap (s_users s) !! k = Some u' ∧ u' ≠ u) as (t & E & Ht & Hm).
  { unfold user_free, get_user. rewrite Hu. cbn [mbind option_bind].
    assert (∀ k u', tmap (s_users s) !! k = Some u' → juser (u_jid usr) ≠ Some k → u' ≠ u) as Hother.
    { intros k u' Hk Hne ->. destruct (wf_users _ Hw k u Hk) as (usr0 & Hu0 & E0). congruence. }
    destruct (juser (u_jid usr)) as [k0|] eqn:Ek.
    - exists (tzap (s_users s) k0). destruct (tzap_ok (s_users s) k0 (wf_users_tab _ Hw)) as [Ht Em].
      { by eapply (wf_ujid _ Hw). } split_and!; [done..|]. intros k u'. rewrite Em, lookup_delete_Some. split.
      + intros [Hne Hk]. split; [done|]. apply (Hother k); [done|congruence].
      + intros [Hk Hne]. split; [|done]. intros <-. destruct (Hset u usr Hu) as [Hr _]. specialize (Hr k0 Ek). congruence.
    - exists (s_users s). split_and!; [by destruct s|apply Hw|]. intros k u'. split; [|by intros [? _]].
      intros Hk. split; [done|]. by apply (Hother k). }
  rewrite E. clear E. apply post_ret. destruct Hw as [W1 W2 W3 W4 W5 W6 W7 W8 W9 W10 W11].
  assert (∀ u' usr', s_uheap (set_uheap (delete u (s_uheap s)) (set_users t s)) !! u' = Some usr' → u ≠ u' ∧ s_uheap s !! u' = Some usr') as Hin
    by (intros u' usr'; cbn; by rewrite lookup_delete_Some).
  split_and!; [split; [split|]|..|done]; cbn [s_users s_sessions s_eheap s_fresh set_uheap set_users].
  - done.
  - done.
  - intros u' usr' [_ ?]%Hin. by eapply W3.
  - done.
  - intros k u' [Hk Hne]%Hm. destruct (W5 k u' Hk) as (usr' & ? & ?). exists usr'. cbn. by rewrite lookup_delete_ne.
  - done.
  - intros u' usr' c [_ ?]%Hin. by apply W7.
  - intros c e He. destruct (W8 c e He) as (usr' & Hu' & Hc). exists usr'. cbn. rewrite lookup_delete_ne; [done|].
    intros E. rewrite <- E, Hu in Hu'. injection Hu' as <-. rewrite Hnil in Hc. by apply not_elem_of_nil in Hc.
  - intros u' usr' [_ ?]%Hin. by eapply W9.
  - intros u' usr' k [_ ?]%Hin. by eapply W10.
  - done.
  - intros u' usr' [_ Hu']%Hin. exact (ok_tops _ Hok u' usr' Hu').
  - apply settled_but_none. intros u' usr' [Hne Hu']%Hin. destruct (Hset u' usr' Hu') as [Hr Hn]. split.
    + intros k Hk. apply Hm. split; [by apply Hr|done].
    + intros E. apply Hn in E. congruence.
Qed.
(** ** Ending sessions *)

Lemma elem_of_unlink c l d : NoDup l → d ∈ unlink c l ↔ d ∈ l ∧ d ≠ c.
Proof.
  induction 1 as [|x l Hx _ IH]; cbn [unlink]; [split; [by intros ?%not_elem_of_nil|by intros [?%not_elem_of_nil _]]|].
  case_bool_decide as E; [subst x|].
  - split; [intros Hd; split; [by right|by intros ->]|]. by intros [[->|?]%elem_of_cons ?].
  - rewrite !elem_of_cons, IH. split; [|tauto]. intros [->|[? ?]]; [split; [by left|done]|tauto].
Qed.
Lemma unlink_notin c l : c ∉ l → unlink c l = l.
Proof.
  induction l as [|x l IH]; [done|]. intros [Hx Hl]%not_elem_of_cons. cbn [unlink]. rewrite bool_decide_false by done.
  by rewrite IH.
Qed.
Lemma unlink_nodup c l : NoDup l → NoDup (unlink c l).
Proof.
  induction 1 as [|x l Hx Hn IH]; cbn [unlink]; [constructor|]. case_bool_decide; [done|].
  constructor; [|done]. rewrite elem_of_unlink by done. tauto.
Qed.

(** A session that is not available counts for nothing. *)
Lemma candidates_unlink s s' c l pri : avail s c = Some (false, pri) → NoDup l → (∀ d, d ≠ c → avail s' d = avail s d) →
  candidates s' (unlink c l) = candidates s l ∧ some_available s' (unlink c l) = some_available s l.
Proof.
  intros Hc Hn Ha. induction Hn as [|x l Hx _ IH]; [done|]. cbn [unlink].
  case_bool_decide as E; [subst x|].
  - rewrite (candidates_cons s), (some_available_cons s), Hc. cbn. apply candidates_ext. intros d Hd. apply Ha. by intros ->.
  - rewrite !candidates_cons, !some_available_cons, Ha by done. by destruct IH as [-> ->].
Qed.

(** The session is off the list of its user, out of the table and freed. *)
Definition without s c e : sm :=
  sess_free (set_sessions (tzap (s_sessions s) (e_sm_id e))
    (upd_user (e_user e) (λ usr, with_sessions (unlink c (u_sessions usr)) usr) s)) c.

Definition kept c usr usr' : Prop :=
  u_jid usr' = u_jid usr ∧ u_sessions usr' = unlink c (u_sessions usr) ∧ u_top usr' = u_top usr ∧ u_available usr' = u_available usr.

Lemma without_users s c e u : sm_ok s → get_sess s c = Some e →
  match s_uheap (without s c e) !! u, s_uheap s !! u with
  | Some usr', Some usr => kept c usr usr'
  | None, None => True
  | _, _ => False
  end.
Proof.
  intros Hok He. change (s_uheap (without s c e)) with (s_uheap (upd_user (e_user e) (λ usr, with_sessions (unlink c (u_sessions usr)) usr) s)).
  rewrite upd_user_lookup. case_decide as E; destruct (s_uheap s !! u) as [usr|] eqn:Hu; try done.
  split_and!; try done. rewrite unlink_notin; [done|]. intros Hc.
  destruct (wf_own _ (ok_wf _ Hok) u usr c Hu Hc) as (e' & He' & <-). unfold get_sess in He. congruence.
Qed.
Lemma without_in s c e u usr' : sm_ok s → get_sess s c = Some e → s_uheap (without s c e) !! u = Some usr' →
  ∃ usr, s_uheap s !! u = Some usr ∧ kept c usr usr'.
Proof.
  intros Hok He Hu. pose proof (without_users s c e u Hok He) as Hk. rewrite Hu in Hk.
  destruct (s_uheap s !! u) as [usr|]; [by exists usr|done].
Qed.
Lemma without_out s c e u usr : sm_ok s → get_sess s c = Some e → s_uheap s !! u = Some usr →
  ∃ usr', s_uheap (without s c e) !! u = Some usr' ∧ kept c usr usr'.
Proof.
  intros Hok He Hu. pose proof (without_users s c e u Hok He) as Hk. rewrite Hu in Hk.
  destruct (s_uheap (without s c e) !! u) as [usr'|]; [by exists usr'|done].
Qed.

Lemma without_sess s c e d e' : s_eheap (without s c e) !! d = Some e' ↔ c ≠ d ∧ s_eheap s !! d = Some e'.
Proof. apply lookup_delete_Some. Qed.

Lemma without_wf s c e : sm_ok s → get_sess s c = Some e → sm_wf (without s c e).
Proof.
  intros Hok He. pose proof (ok_wf _ Hok) as [W1 W2 W3 W4 W5 W6 W7 W8 W9 W10 W11].
  destruct (tzap_ok (s_sessions s) (e_sm_id e) W2) as [Ht Em]; [by eapply W11|].
  pose proof (λ u usr', without_in s c e u usr' Hok He) as Hin. pose proof (λ u usr, without_out s c e u usr Hok He) as Hout.
  split.
  - done.
  - done.
  - intros u usr' (usr & Hu & _)%Hin. by eapply W3.
  - intros d e' [_ He']%without_sess. by eapply W4.
  - intros k u Hk. destruct (W5 k u Hk) as (usr & Hu & Hj). destruct (Hout u usr Hu) as (usr' & Hu' & Ej & _).
    exists usr'. by rewrite Ej.
  - intros k d. cbn. rewrite Em. intros [Hne Hk]%lookup_delete_Some. destruct (W6 k d Hk) as (e' & He' & Ek). exists e'.
    split; [|done]. apply lookup_delete_Some. split; [|done]. intros <-. unfold get_sess in He. congruence.
  - intros u usr' d (usr & Hu & _ & Es & _)%Hin Hd. rewrite Es in Hd. apply elem_of_unlink in Hd as [Hd Hne]; [|by eapply W9].
    destruct (W7 u usr d Hu Hd) as (e' & He' & Eu). exists e'. split; [|done]. by apply without_sess.
  - intros d e' [Hne He']%without_sess. destruct (W8 d e' He') as (usr & Hu & Hd). destruct (Hout _ usr Hu) as (usr' & Hu' & _ & Es & _).
    exists usr'. split; [done|]. rewrite Es. apply elem_of_unlink; [by eapply W9|done].
  - intros u usr' (usr & Hu & _ & Es & _)%Hin. rewrite Es. eapply unlink_nodup, W9, Hu.
  - intros u usr' k (usr & Hu & Ej & _)%Hin. rewrite Ej. by eapply W10.
  - intros d e' [_ He']%without_sess. by eapply W11.
Qed.

Lemma without_ok s c e : sm_ok s → get_sess s c = Some e → e_available e = false → sm_ok (without s c e).
Proof.
  intros Hok He Hav. split; [by apply without_wf|]. intros u usr' Hu'.
  destruct (without_in s c e u usr' Hok He Hu') as (usr & Hu & _ & Es & Et & Ea). unfold top_ok. rewrite Es, Et, Ea.
  destruct (candidates_unlink s (without s c e) c (u_sessions usr) (e_pri e)) as [-> ->].
  - unfold avail. by rewrite He; cbn; rewrite Hav.
  - by eapply (wf_nodup _ (ok_wf _ Hok)).
  - intros d Hd. unfold avail, get_sess, without, sess_free. cbn. by rewrite lookup_delete_ne.
  - by apply (ok_tops _ Hok u).
Qed.

Lemma without_settled s c e : sm_ok s → get_sess s c = Some e →
  settled_but (Some (e_user e)) s → settled_but (Some (e_user e)) (without s c e).
Proof.
  intros Hok He Hset u usr' Hu'. destruct (without_in s c e u usr' Hok He Hu') as (usr & Hu & Ej & Es & _).
  destruct (Hset u usr Hu) as [Hr Hn]. unfold registered. rewrite Ej. split; [done|]. intros [E|E]; [|by apply Hn; right].
  destruct (decide (e_user e = u)) as [->|Hne]; [done|]. apply Hn. left. rewrite <- E, Es. symmetry. apply unlink_notin.
  intros Hc. destruct (wf_own _ (ok_wf _ Hok) u usr c Hu Hc) as (e' & He' & <-). unfold get_sess in He. congruence.
Qed.
(** ** Presence for a session that ends *)

Definition is_unavailable p : Prop := p_type p = pkt_PRESENCE_UN ∧ p_to p = None ∧ p_ns p = 0%Z.

Lemma create_unavailable s : post (create s "presence" (Some "unavailable") None None) is_unavailable.
Proof.
  intros p Ep. assert (create s "presence" (Some "unavailable") None None =
    Some (Pkt None None None route_UNICAST pkt_PRESENCE_UN None None 0 0 (create_nad "presence" (Some "unavailable") None None))) as E
    by (vm_compute; reflexivity).
  rewrite E in Ep. injection Ep as <-. done.
Qed.

Lemma in_sess_pass m c h s p : in_sess_handler c m = Some h → m ≠ m_presence → m ≠ m_deliver → is_unavailable p →
  post (h s p) (λ r, r = (s, mod_PASS p)).
Proof.
  intros Em Hp Hd (Et & Eto & En). destruct m; try done; injection Em as <-.
  - unfold _validate_in_sess. rewrite Et. by apply post_ret.
  - unfold _roster_in_sess. rewrite En. by apply post_ret.
  - unfold _pep_in_sess. rewrite Et. by apply post_ret.
  - unfold _iq_ping_in_sess. rewrite Et, Eto. by apply post_ret.
  - unfold _offline_in_sess. rewrite Et. apply post_bind. intros e _. apply post_bind. intros usr _. cbn. by apply post_ret.
Qed.

Lemma unavailable_in_sess l s c p : sm_ok s → reaches_presence l = true → is_unavailable p →
  post (mm_loop (omap (in_sess_handler c) l) s p)
    (λ r, sm_ok r.1 ∧ shape r.1 = shape s ∧ ∃ e, get_sess r.1 c = Some e ∧ e_available e = false).
Proof.
  intros Hok Hl Hp. induction l as [|m l IH]; [done|]. cbn [omap list_omap].
  destruct (in_sess_handler c m) as [h|] eqn:Em; [|by apply IH; destruct m].
  cbn [mm_loop]. apply post_bind. destruct (decide (m = m_presence)) as [->|Hne].
  - injection Em as <-. eapply post_mono; [by apply presence_in_sess_post|]. intros [s' r] (Hok' & Hs & Hu). cbn [fst snd] in *.
    destruct Hp as (Et & Eto & En). rewrite Et in Hu. destruct Hu as [-> [Hu _]]; [done..|]. apply post_ret. cbn [fst].
    split_and!; [done..|]. destruct (Hu Et) as (e & ? & ? & _). by exists e.
  - eapply post_mono; [eapply in_sess_pass; [done..| |done]; by destruct m|]. intros r ->. apply IH. by destruct m.
Qed.

Lemma guts_post s c e : sm_ok s → reaches_presence (ch_in_sess (s_chains s)) = true → get_sess s c = Some e →
  post (_sess_end_guts s c) (λ s', ∃ s1 e1, sm_ok s1 ∧ shape s1 = shape s ∧ get_sess s1 c = Some e1 ∧
    e_available e1 = false ∧ e_user e1 = e_user e ∧ get_sess s' c = Some e1 ∧ sess_free s' c = without s1 c e1).
Proof.
  intros Hok Hch He. unfold _sess_end_guts. rewrite He. cbn [mbind option_bind]. apply post_bind.
  apply (post_mono _ (λ s1, sm_ok s1 ∧ shape s1 = shape s ∧ ∃ e1, get_sess s1 c = Some e1 ∧ e_available e1 = false)).
  - destruct (e_available e || _) eqn:Ea.
    + apply post_bind. eapply post_mono; [apply create_unavailable|]. intros p Hp.
      apply post_bind. eapply post_mono; [by apply unavailable_in_sess|]. intros [s1 r] ?. by apply post_ret.
    + apply post_ret. apply orb_false_iff in Ea as [Ea _]. split_and!; [done..|]. by exists e.
  - intros s1 (Hok1 & Hs & e1 & He1 & Ea1). rewrite He1. cbn [mbind option_bind]. apply post_bind. intros usr _.
    apply post_ret. destruct (shape_sess _ _ c e1 Hs He1) as (e0 & He0 & Eu & _). unfold get_sess in He.
    exists s1, e1. split_and!; [done..|congruence|done|done].
Qed.

Lemma user_free_sess_free s c u : user_free (sess_free s c) u = (λ s', sess_free s' c) <$> user_free s u.
Proof.
  unfold user_free, get_user. change (s_uheap (sess_free s c)) with (s_uheap s).
  destruct (s_uheap s !! u) as [usr|]; [|done]. cbn [mbind option_bind fmap option_fmap option_map].
  by destruct (juser (u_jid usr)).
Qed.

(** The user of the session that ended, if he has others. *)
Lemma settled_with_sessions s u usr : settled_but (Some u) s → s_uheap s !! u = Some usr →
  u_sessions usr ≠ [] → juser (u_jid usr) ≠ None → settled s.
Proof.
  intros Hset Hu Hs Hj. apply settled_but_none. intros u' usr' Hu'. destruct (Hset u' usr' Hu') as [Hr Hn].
  split; [done|]. intros E. pose proof (Hn E) as Eq. injection Eq as <-. rewrite Hu in Hu'. injection Hu' as <-.
  by destruct E.
Qed.

(** What is left of a settled state after [_sess_end_guts] and [sess_free]. *)
Definition ended u (j : jid) s s' : Prop :=
  sm_ok s' ∧ s_chains s' = s_chains s ∧ s_conf s' = s_conf s ∧ settled_but (Some u) s' ∧
  ∃ usr, s_uheap s' !! u = Some usr ∧ u_jid usr = j.

Lemma without_ended s s1 c e1 usr : sm_ok s1 → shape s1 = shape s → get_sess s1 c = Some e1 → e_available e1 = false →
  settled_but (Some (e_user e1)) s → s_uheap s !! e_user e1 = Some usr → ended (e_user e1) (u_jid usr) s (without s1 c e1).
Proof.
  intros Hok Hs He Ha Hset Hu. split_and!.
  - by apply without_ok.
  - injection Hs as _ E _ _ _ _ _. exact E.
  - injection Hs as E _ _ _ _ _ _. exact E.
  - apply without_settled; [done..|]. by apply (settled_shape _ s).
  - destruct (shape_user _ _ _ _ (eq_sym Hs) Hu) as (usr1 & Hu1 & Ej & _).
    destruct (without_out s1 c e1 _ usr1 Hok He Hu1) as (usr2 & Hu2 & Ej2 & _). exists usr2. split; [done|congruence].
Qed.

Lemma sess_end_post s c : sm_ok s → settled s → reaches_presence (ch_in_sess (s_chains s)) = true → is_Some (get_sess s c) →
  post (sess_end s c) (λ s', sm_ok s' ∧ settled s' ∧ s_chains s' = s_chains s).
Proof.
  intros Hok Hset Hch [e He]. unfold sess_end. apply post_bind. eapply post_mono; [by eapply guts_post|].
  intros s2 (s1 & e1 & Hok1 & Hs & He1 & Ea & Eu & He2 & Ew). rewrite He2. cbn [mbind option_bind].
  destruct (wf_back _ (ok_wf _ Hok) c e He) as (usr0 & Hu0 & _). rewrite <- Eu in Hu0.
  destruct (Hset _ usr0 Hu0) as (_ & k & Hk & _).
  destruct (without_ended s s1 c e1 usr0) as (Hok3 & Hch3 & _ & Hset3 & usr & Hu & Ej); [done..| |done|].
  { by apply settled_weaken, settled_but_none. }
  rewrite <- Ew in *. assert (get_user s2 (e_user e1) = Some usr) as -> by exact Hu. cbn [mbind option_bind].
  case_bool_decide as En.
  - apply post_bind. intros s3 E3. apply post_ret.
    assert (user_free (sess_free s2 c) (e_user e1) = Some (sess_free s3 c)) as E4 by by rewrite user_free_sess_free, E3.
    destruct (user_free_ok _ _ _ Hok3 Hu En Hset3 _ E4) as (? & ? & ?). split_and!; [done..|congruence].
  - apply post_ret. split_and!; [done| |done]. eapply settled_with_sessions; [done..|]. congruence.
Qed.

(** ** Starting sessions *)

(** A new session in front of the others of its user. *)
Definition with_session s u (j : jid) (sm_id : string) : sm :=
  let c := s_fresh s in
  set_sessions (tput (s_sessions s) sm_id c)
    (upd_user u (λ usr, with_sessions (c :: u_sessions usr) usr)
      (set_eheap (<[c := Sess u j "" sm_id "" None false 0 [] []]> (s_eheap s)) (set_fresh (S c) s))).

Lemma with_session_users s u j sm_id u' : s_uheap (with_session s u j sm_id) !! u' =
  if decide (u = u') then (λ usr, with_sessions (s_fresh s :: u_sessions usr) usr) <$> s_uheap s !! u' else s_uheap s !! u'.
Proof. exact (upd_user_lookup s u _ u'). Qed.
Lemma with_session_sess s u j sm_id c' e' : s_eheap (with_session s u j sm_id) !! c' = Some e' ↔
  s_fresh s = c' ∧ Sess u j "" sm_id "" None false 0 [] [] = e' ∨ s_fresh s ≠ c' ∧ s_eheap s !! c' = Some e'.
Proof. apply lookup_insert_Some. Qed.

Lemma with_session_in s u j sm_id u' usr' : s_uheap (with_session s u j sm_id) !! u' = Some usr' → ∃ usr,
  s_uheap s !! u' = Some usr ∧ u_jid usr' = u_jid usr ∧ u_top usr' = u_top usr ∧ u_available usr' = u_available usr ∧
  (u = u' ∧ u_sessions usr' = s_fresh s :: u_sessions usr ∨ u ≠ u' ∧ u_sessions usr' = u_sessions usr).
Proof.
  rewrite with_session_users. case_decide as E; intros Hu; [|by exists usr'; eauto 8].
  apply fmap_Some in Hu as (usr & Hu & ->). exists usr. eauto 8.
Qed.
Lemma with_session_out s u j sm_id u' usr : s_uheap s !! u' = Some usr → ∃ usr',
  s_uheap (with_session s u j sm_id) !! u' = Some usr' ∧ u_jid usr' = u_jid usr ∧
  (u = u' → s_fresh s ∈ u_sessions usr') ∧ ∀ c, c ∈ u_sessions usr → c ∈ u_sessions usr'.
Proof.
  intros Hu. rewrite with_session_users, Hu. case_decide; cbn; eexists; split_and!; try done; [by left|by right].
Qed.

Lemma with_session_wf s u j sm_id : sm_wf s → is_Some (s_uheap s !! u) → no_nul sm_id → sm_wf (with_session s u j sm_id).
Proof.
  intros [W1 W2 W3 W4 W5 W6 W7 W8 W9 W10 W11] [usr0 Hu0] Hid.
  destruct (tput_ok (s_sessions s) sm_id (s_fresh s) W2 Hid) as [Ht Em].
  assert (∀ u usr c, s_uheap s !! u = Some usr → c ∈ u_sessions usr → c ≠ s_fresh s) as Hfresh.
  { intros u' usr c Hu Hc ->. destruct (W7 u' usr _ Hu Hc) as (e & He & _). apply W4 in He. lia. }
  pose proof (λ u' usr', with_session_in s u j sm_id u' usr') as Hin.
  pose proof (λ u' usr, with_session_out s u j sm_id u' usr) as Hout.
  split.
  - done.
  - done.
  - intros u' usr' (usr & Hu & _)%Hin. apply W3 in Hu. cbn. lia.
  - intros c e [[<- _]|[_ He]]%with_session_sess; cbn; [lia|apply W4 in He; lia].
  - intros k u' Hk. destruct (W5 k u' Hk) as (usr & Hu & E). destruct (Hout _ _ Hu) as (usr' & Hu' & Ej & _).
    exists usr'. by rewrite Ej.
  - intros k c. change (tmap (s_sessions (with_session s u j sm_id))) with (tmap (tput (s_sessions s) sm_id (s_fresh s))).
    rewrite Em. intros [[<- <-]|[_ Hk]]%lookup_insert_Some.
    + eexists. split; [apply with_session_sess; by left|done].
    + destruct (W6 k c Hk) as (e & He & E). exists e. split; [|done]. apply with_session_sess. right. split; [|done].
      apply W4 in He. lia.
  - intros u' usr' c (usr & Hu & _ & _ & _ & [[<- Es]|[_ Es]])%Hin; rewrite Es.
    + intros [->|Hc]%elem_of_cons; [eexists; split; [apply with_session_sess; by left|done]|].
      destruct (W7 _ _ _ Hu Hc) as (e & He & E). exists e. split; [|done]. apply with_session_sess. right. split; [|done].
      apply W4 in He. lia.
    + intros Hc. destruct (W7 _ _ _ Hu Hc) as (e & He & E). exists e. split; [|done]. apply with_session_sess. right.
      split; [|done]. apply W4 in He. lia.
  - intros c e [[<- <-]|[_ He]]%with_session_sess; cbn [e_user].
    + destruct (Hout u usr0 Hu0) as (usr' & ? & _ & Hc & _). exists usr'. split; [done|by apply Hc].
    + destruct (W8 c e He) as (usr & Hu & Hc). destruct (Hout _ usr Hu) as (usr' & ? & _ & _ & Hc'). exists usr'. split; [done|by apply Hc'].
  - intros u' usr' (usr & Hu & _ & _ & _ & [[<- ->]|[_ ->]])%Hin; [|by eapply W9].
    constructor; [|by eapply W9]. intros Hc. by apply (Hfresh u usr (s_fresh s) Hu).
  - intros u' usr' k (usr & Hu & -> & _)%Hin. by eapply W10.
  - intros c e [[_ <-]|[_ He]]%with_session_sess; [done|by eapply W11].
Qed.

Lemma with_session_ok s u j sm_id : sm_ok s → is_Some (s_uheap s !! u) → no_nul sm_id → sm_ok (with_session s u j sm_id).
Proof.
  intros [Hw Ho] Hu Hid. split; [by apply with_session_wf|]. intros u' usr' Hu'.
  destruct (with_session_in _ _ _ _ _ _ Hu') as (usr & Hu0 & _ & Et & Ea & Es).
  assert (∀ c, c ∈ u_sessions usr → avail (with_session s u j sm_id) c = avail s c) as Hav.
  { intros c Hc. destruct (wf_own _ Hw u' usr c Hu0 Hc) as (e & He & _). apply (wf_efresh _ Hw) in He.
    unfold avail, get_sess. change (s_eheap (with_session s u j sm_id)) with
      (<[s_fresh s := Sess u j "" sm_id "" None false 0 [] []]> (s_eheap s)). rewrite lookup_insert_ne; [done|lia]. }
  assert (avail (with_session s u j sm_id) (s_fresh s) = Some (false, 0%Z)) as Hnew.
  { unfold avail, get_sess. change (s_eheap (with_session s u j sm_id)) with
      (<[s_fresh s := Sess u j "" sm_id "" None false 0 [] []]> (s_eheap s)). by rewrite lookup_insert_eq. }
  destruct (candidates_ext s (with_session s u j sm_id) (u_sessions usr) Hav) as [E1 E2].
  destruct (Ho u' usr Hu0) as [Ht Hs]. unfold top_ok. rewrite Et, Ea.
  destruct Es as [[_ ->]|[_ ->]]; rewrite ?candidates_cons, ?some_available_cons, ?Hnew, E1, E2; done.
Qed.

Lemma with_session_settled s u usr j sm_id : settled_but (Some u) s → s_uheap s !! u = Some usr → juser (u_jid usr) ≠ None →
  settled (with_session s u j sm_id).
Proof.
  intros Hset Hu Hj. apply settled_but_none. intros u' usr' Hu'.
  destruct (with_session_in _ _ _ _ _ _ Hu') as (usr0 & Hu0 & Ej & _ & _ & Es).
  destruct (Hset u' usr0 Hu0) as [Hr Hn]. unfold registered. rewrite Ej. split; [exact Hr|].
  intros E. exfalso. destruct Es as [[<- Es]|[Hne Es]].
  - rewrite Es in E. rewrite Hu in Hu0. injection Hu0 as ->. by destruct E.
  - rewrite Es in E. apply Hn in E. congruence.
Qed.

Lemma find_session_in s l j : post (find_session s l j) (λ o, ∀ c, o = Some c → c ∈ l).
Proof.
  induction l as [|d l IH]; cbn [find_session]; [by apply post_ret|]. apply post_bind. intros e _. apply post_bind.
  intros same _. destruct (same : bool); [apply post_ret; intros c [= <-]; by left|].
  eapply post_mono; [exact IH|]. intros o Ho c Hc. right. by apply Ho.
Qed.

Lemma sess_start_post s j : sm_ok s → settled s → reaches_presence (ch_in_sess (s_chains s)) = true → good_jid j →
  post (sess_start s j) (λ r, sm_ok r.1 ∧ settled r.1 ∧ s_chains r.1 = s_chains s).
Proof.
  intros Hok Hset Hch Hj. unfold sess_start. destruct (tget _ _) as [[]|] eqn:Eh; [|by apply post_ret].
  assert (juser j ≠ None) as Hname.
  { intros En. unfold good_jid in Hj. rewrite En in Hj. by rewrite Hj, tget_empty in Eh. }
  apply post_bind. eapply post_mono; [by apply user_load_post|]. intros [s1 o] (Hok1 & _ & Hch1 & u & usr & Eo & Hu & Ej & Hset1 & _).
  cbn [fst snd] in *. subst o. unfold get_user. rewrite Hu. cbn [mbind option_bind]. apply post_bind.
  eapply post_mono; [apply find_session_in|]. intros old Hold. apply post_bind.
  apply (post_mono _ (ended u (u_jid usr) s1)).
  - destruct old as [c|]; [|by apply post_ret; split_and!; [..|by exists usr]]. apply post_bind.
    eapply post_mono; [apply sm_c2s_action_q|]. intros s2 Hq. apply post_bind.
    destruct (wf_own _ (ok_wf _ Hok1) u usr c Hu (Hold c eq_refl)) as (e & He & Eu).
    destruct (shape_sess _ _ c e (eq_sym (proj1 Hq)) He) as (e2 & He2 & Eu2 & _).
    destruct (shape_user _ _ u usr (eq_sym (proj1 Hq)) Hu) as (usr2 & Hu2 & Ej2 & _).
    assert (s_chains s2 = s_chains s1 ∧ s_conf s2 = s_conf s1) as [E1 E2]
      by (destruct Hq as [[= Ec Ech _ _ _ _ _] _]; done).
    eapply post_mono; [eapply (guts_post s2 c e2); [by eapply quiet_sm_ok|congruence|done]|].
    intros s3 (s4 & e4 & Hok4 & Hs4 & He4 & Ea4 & Eu4 & _ & ->). apply post_ret.
    destruct (without_ended s2 s4 c e4 usr2) as (? & ? & ? & Hset4 & usr4 & Hu4 & Ej4); [done..| |congruence|].
    { replace (e_user e4) with u by congruence. by apply (settled_shape _ s1); [apply Hq|]. }
    replace (e_user e4) with u in * by congruence. split_and!; [done|congruence..|done|]. exists usr4. split; [done|congruence].
  - intros s2 (Hok2 & Hch2 & _ & Hset2 & usr2 & Hu2 & Ej2). cbv beta zeta delta [sm_alloc ask_time]. cbv iota.
    apply post_ret. cbn [fst].
    match goal with |- context [tput (s_sessions ?st) ?id ?c] =>
      change (set_sessions (tput (s_sessions st) id c) _) with (with_session (set_asked_time (S (s_asked_time s2)) s2) u (dup j) id) end.
    split_and!.
    + apply with_session_ok; [by eapply quiet_sm_ok; [apply quiet_asked|]|by exists usr2|]. apply hex_no_nul.
    + eapply with_session_settled; [exact Hset2|exact Hu2|]. by rewrite Ej2, Ej.
    + cbn. congruence.
Qed.
End life.
