(* ===== verification/SmDispatch.v ===== *)
(** * Every packet keeps the invariant

    The chains of modules, the session module and [dispatch] take a state in
    which users, sessions and their tables agree to another: [sm_dispatch_inv]. *)
From S2P Require Import Prelude.
From S2P Require Import CStr.
From S2P Require Import DList.
From S2P Require Import Codec.
From S2P Require Import Jid.
From S2P Require Import Nad.
From S2P Require Import Table.
From S2P Require Import Stanza.
From S2P Require Import Datetime.
From S2P Require Import Lines.
From S2P Require Import Pkt.
From S2P Require Import Sm.
From S2P Require Import Pres.
From S2P Require Import Roster.
From S2P Require Import Offline.
From S2P Require Import SmMods.
From S2P Require Import Mm.
From S2P Require Import SmInv.
From S2P Require Import SmTop.
From S2P Require Import SmLife.

Section dispatch.
Context {T : Type → Type} `{TableLaws T} `{EnvLaws}.
Notation sm := (sm (T := T)).
Notation user := (user (T := T)).
Notation handler := (handler (T := T)).
Implicit Types (s : sm) (c u : loc) (p : pkt) (e : sess) (usr : user).

Record sm_inv s : Prop := {
  inv_ok : sm_ok s;
  inv_settled : settled s;
  inv_reaches : reaches_presence (ch_in_sess (s_chains s)) = true
}.

Lemma inv_shape s s' : sm_inv s → sm_ok s' → shape s' = shape s → sm_inv s'.
Proof.
  intros [_ Hs Hr] Hok Hsh. split; [done|by apply settled_but_none, (settled_shape _ s), settled_but_none|].
  injection Hsh as _ -> _ _ _ _ _. done.
Qed.
Lemma inv_quiet s s' : sm_inv s → quiet s s' → sm_inv s'.
Proof. intros Hi Hq. apply (inv_shape s); [done| |apply Hq]. eapply quiet_sm_ok; [done|by apply inv_ok]. Qed.

(** ** Chains *)

Lemma quiet_chain_inv hs s p : Forall quiet_handler hs → sm_inv s → post (mm_loop hs s p) (λ r, sm_inv r.1).
Proof. intros Hh Hi. eapply post_mono; [by apply quiet_loop|]. intros. by eapply inv_quiet. Qed.

Lemma mm_in_sess_inv s c p : sm_inv s → post (mm_in_sess s c p) (λ r, sm_inv r.1).
Proof.
  intros Hi. apply mm_loop_post; [done|]. apply Forall_omap. intros m h Em s1 p1 Hi1.
  destruct m; try done; injection Em as <-;
    try (eapply post_mono; [first [apply validate_in_sess_q | apply roster_in_sess_q | apply pep_in_sess_q
      | apply iq_ping_in_sess_q | apply offline_in_sess_q | apply deliver_in_sess_q]|]; intros r Hq; by eapply inv_quiet).
  eapply post_mono; [by apply presence_in_sess_post, inv_ok|]. intros r (? & ? & _). by eapply inv_shape.
Qed.

Lemma mm_pkt_sm_inv s p : sm_inv s → post (mm_pkt_sm s p) (λ r, sm_inv r.1).
Proof.
  intros Hi. assert (Forall quiet_handler (omap (pkt_sm_handler (T := T)) (ch_pkt_sm (s_chains s)))) as Hh.
  { apply Forall_omap. intros m h Em. destruct m; try done; injection Em as <-;
      first [apply iq_ping_pkt_sm_q | apply iq_time_pkt_sm_q | apply iq_version_pkt_sm_q | apply help_pkt_sm_q
        | apply echo_pkt_sm_q | apply presence_pkt_sm_q]. }
  unfold mm_pkt_sm. destruct (omap _ _); [by apply post_ret|by apply quiet_chain_inv].
Qed.

Lemma mm_pkt_user_q s u p : post (mm_pkt_user s u p) (λ r, quiet s r.1).
Proof.
  apply quiet_loop, Forall_omap. intros m h Em. destruct m; try done; injection Em as <-;
    first [apply presence_pkt_user_q | apply deliver_pkt_user_q | apply offline_pkt_user_q].
Qed.

(** ** The session module *)

Lemma session_failed_inv s p ns : sm_inv s → sm_inv (session_failed s p ns).
Proof. intros Hi. by apply (inv_quiet s). Qed.

Lemma session_start_inv s p ns target : sm_inv s → post (session_start s p ns target) sm_inv.
Proof.
  intros Hi. unfold session_start. destruct (text_jid target) as [j|] eqn:Ej; [|by apply post_ret, session_failed_inv].
  apply post_bind. eapply post_mono.
  { eapply sess_start_post; [apply Hi..|]. by eapply text_jid_good. }
  intros [s1 o] (Hok & Hset & Hch). cbn [fst] in *. assert (sm_inv s1) as Hi1 by (split; [done..|]; rewrite Hch; apply Hi).
  destruct o as [c|]; [|by apply post_ret, session_failed_inv].
  apply post_bind. intros rfrom _. apply post_bind. intros v _. cbv zeta. apply post_bind. intros e _.
  apply post_ret, (inv_quiet s1); [done|]. quiet_chain.
Qed.

Lemma session_of_live s id c : sm_inv s → session_of s id = Some c → is_Some (get_sess s c).
Proof.
  unfold session_of. intros Hi Hg. pose proof (ok_wf _ (inv_ok _ Hi)) as Hw.
  destruct (tget_in _ _ _ (wf_sessions_tab _ Hw) Hg) as [k Hk].
  destruct (wf_sessions _ Hw k c Hk) as (e & He & _). by exists e.
Qed.

Lemma session_command_inv s p : sm_inv s → post (session_command s p) sm_inv.
Proof.
  intros Hi. unfold session_command. cbv zeta.
  assert (∀ b : bool, post
    (match attr_ns (p_nad p) 1 (nad_find_namespace (p_nad p) 1 (Some uri_SESSION) None) "sm" with
     | None => Some (session_failed s p (nad_find_namespace (p_nad p) 1 (Some uri_SESSION) None))
     | Some id => match session_of s id with
       | None => Some (session_failed s p (nad_find_namespace (p_nad p) 1 (Some uri_SESSION) None))
       | Some c => e ← get_sess s c;
         if negb (from_c2s e (p_nad p) (nad_find_namespace (p_nad p) 1 (Some uri_SESSION) None)) then Some s
         else if b then s ← sm_c2s_action s c "ended" None; sess_end s c else Some s
       end
     end) sm_inv) as Hrest.
  { intros b. destruct (attr_ns _ _ _ _) as [id|]; [|by apply post_ret, session_failed_inv].
    destruct (session_of s id) as [c|] eqn:Ec; [|by apply post_ret, session_failed_inv].
    apply post_bind. intros e He. destruct (negb _); [by apply post_ret|]. destruct b; [|by apply post_ret].
    apply post_bind. eapply post_mono; [apply sm_c2s_action_q|]. intros s1 Hq. pose proof (inv_quiet _ _ Hi Hq) as Hi1.
    destruct (shape_sess _ _ c e (eq_sym (proj1 Hq)) He) as (e1 & He1 & _).
    eapply post_mono; [eapply sess_end_post; [apply Hi1..|by exists e1]|].
    intros s2 (? & ? & Hch). split; [done..|]. rewrite Hch. apply Hi1. }
  destruct (attr_of _ _ _) as [target|], (p_type p =? pkt_SESS_END)%Z, (p_type p =? pkt_SESS)%Z;
    first [by apply session_start_inv | by apply post_ret, session_failed_inv | apply (Hrest true) | apply (Hrest false)].
Qed.

Lemma session_packet_inv s p : sm_inv s → post (session_packet s p) sm_inv.
Proof.
  intros Hi. unfold session_packet. destruct (session_request _); [by apply post_ret, (inv_quiet s)|]. cbv zeta.
  destruct (attr_ns _ _ _ _) as [id|]; [|by apply post_ret, session_failed_inv].
  destruct (session_of s id) as [c|]; [|by apply post_ret, session_failed_inv].
  apply post_bind. intros e _. destruct (negb _); [by apply post_ret|]. apply post_bind.
  eapply post_mono; [by apply mm_in_sess_inv|]. intros [s1 r] Hi1. cbn [fst] in Hi1.
  assert (∀ q err, post (p ← pkt_error q err; pkt_sess s1 p c) sm_inv) as Hfail.
  { intros q err. apply post_bind. intros p' _. eapply post_mono; [apply pkt_sess_q|]. intros. by eapply inv_quiet. }
  destruct r as [|q|q err]; [by apply post_ret| |apply Hfail]. destruct (_ =? _)%Z; [by apply post_ret|apply Hfail].
Qed.

(** A packet that a chain gives back is the one that it was given. *)
Definition same_pkt p (ret : mod_ret) : Prop := match ret with mod_HANDLED => True | mod_PASS q | mod_ERR q _ => q = p end.
Definition same_handler (h : handler) : Prop :=
  ∀ s p, sm_inv s → post (h s p) (λ r, sm_inv r.1 ∧ same_pkt p r.2).

Lemma same_loop hs s p : Forall same_handler hs → sm_inv s → post (mm_loop hs s p) (λ r, sm_inv r.1 ∧ same_pkt p r.2).
Proof.
  intros Hh. revert s p. induction Hh as [|h hs Hh _ IH]; intros s p Hi; cbn [mm_loop]; [by apply post_ret|].
  apply post_bind. eapply post_mono; [by apply Hh|]. intros [s1 r] [Hi1 Hr]. cbn [fst snd] in *.
  destruct r as [|q|q err]; [by apply post_ret| |by apply post_ret]. cbn in Hr. subst q. by apply IH.
Qed.

Lemma session_in_router_same : same_handler _session_in_router.
Proof.
  intros s p Hi. unfold _session_in_router. destruct (_ || _); [by apply post_ret|].
  destruct (has _ _); [by apply post_ret|]. apply post_bind.
  destruct (has _ _); (eapply post_mono; [by first [apply session_command_inv|apply session_packet_inv]|]); intros s1 Hi1; by apply post_ret.
Qed.
Lemma presence_in_router_same : same_handler _presence_in_router.
Proof.
  intros s p Hi. unfold _presence_in_router. destruct (negb _); [by apply post_ret|]. apply post_bind. intros to _.
  destruct (_ || _); [by apply post_ret|]. destruct (match juser to with Some k => tget (s_users s) k | None => None end) as [u|]; [|by apply post_ret].
  apply post_bind. intros usr _. apply post_bind. intros av _. apply post_ret. by destruct (av : bool).
Qed.
Lemma validate_in_router_same : same_handler _validate_in_router.
Proof. intros s p Hi. unfold _validate_in_router, _validate_in_sess. by destruct (_ || _); apply post_ret. Qed.

Lemma mm_in_router_post s p : sm_inv s → post (mm_in_router s p) (λ r, sm_inv r.1 ∧ same_pkt p r.2).
Proof.
  apply same_loop, Forall_omap. intros m h Em. destruct m; try done; injection Em as <-;
    first [apply session_in_router_same | apply presence_in_router_same | apply validate_in_router_same].
Qed.

(** ** Sessions of a c2s that went away *)

Lemma inv_iterated s : sm_inv s → sm_inv (set_sessions (titer (s_sessions s)).1 s).
Proof.
  intros [[Hw Ho] Hset Hr]. destruct (titer_ok (s_sessions s) (wf_sessions_tab _ Hw)) as (Ht & Em & _).
  destruct Hw as [W1 W2 W3 W4 W5 W6 W7 W8 W9 W10 W11]. split; [split; [split|]|..]; try done.
  intros k c. cbn. rewrite Em. apply W6.
Qed.

Lemma pkt_router_inv s p : sm_inv s → post (_session_pkt_router s p) (λ r, sm_inv r.1).
Proof.
  intros Hi. unfold _session_pkt_router. destruct (p_from p) as [from|]; [|by apply post_ret].
  destruct (negb _); [by apply post_ret|]. destruct (titer (s_sessions s)) as [t l] eqn:Et.
  apply post_bind. eapply post_mono.
  - apply foldM_post with (I := sm_inv).
    + change t with (t, l).1. rewrite <- Et. by apply inv_iterated.
    + intros s1 c Hi1. apply post_bind. intros e He. destruct (_ =? _)%Z; [|by apply post_ret].
      eapply post_mono; [eapply sess_end_post; [apply Hi1..|by exists e]|].
      intros s2 (? & ? & Hch). split; [done..|]. rewrite Hch. apply Hi1.
  - intros s1 Hi1. by apply post_ret.
Qed.
Lemma mm_pkt_router_inv s p : sm_inv s → post (mm_pkt_router s p) (λ r, sm_inv r.1).
Proof.
  intros Hi. apply mm_loop_post; [done|]. apply Forall_omap. intros m h Em s1 p1 Hi1.
  destruct m; try done; injection Em as <-. by apply pkt_router_inv.
Qed.

(** ** The dispatcher *)

#[global] Instance chain_end_q s ret : Spec (chain_end s ret) (quiet s).
Proof. unfold chain_end. quiet_tac. Qed.
#[global] Instance no_user_q s p to from : Spec (no_user s p to from) (quiet s).
Proof. unfold no_user. quiet_tac. Qed.

Lemma dispatch_user_inv s p to from : sm_inv s → good_jid to → post (dispatch_user s p to from) sm_inv.
Proof.
  intros Hi Hto. unfold dispatch_user. apply post_bind.
  eapply post_mono; [by apply user_load_post; [apply Hi..|]|].
  intros [s1 o] (Hok1 & _ & Hch1 & u & usr & Eo & Hu & Ej & Hset1 & Hnamed). cbn [fst snd] in *. subst o.
  apply post_bind. eapply post_mono; [apply mm_pkt_user_q|]. intros [s2 ret] Hq2. cbn [fst] in Hq2.
  apply post_bind. eapply post_mono; [apply chain_end_q|]. intros s3 Hq3. pose proof (sm_quiet_trans _ _ _ Hq2 Hq3) as Hq.
  pose proof (quiet_sm_ok _ _ Hq Hok1) as Hok3. pose proof (settled_shape _ _ _ (proj1 Hq) Hset1) as Hset3.
  destruct (shape_user _ _ _ _ (eq_sym (proj1 Hq)) Hu) as (usr3 & Hu3 & Ej3 & Es3).
  assert (s_chains s3 = s_chains s1) as Hch3 by (destruct Hq as [[= _ Ech _ _ _ _ _] _]; done).
  unfold get_user. rewrite Hu3. cbn [mbind option_bind]. case_bool_decide as En.
  - eapply post_mono; [by apply (user_free_ok s3 u usr3)|]. intros s4 (? & ? & Hch4). split; [done..|].
    rewrite Hch4, Hch3, Hch1. apply Hi.
  - apply post_ret. split; [done| |rewrite Hch3, Hch1; apply Hi]. eapply settled_with_sessions; [done..|].
    rewrite Ej3. rewrite Es3 in En. by destruct Hnamed.
Qed.

Lemma dispatch_route_inv s p : sm_inv s → good_pkt p → post (dispatch_route s p) sm_inv.
Proof.
  intros Hi Hp. unfold dispatch_route. apply post_bind. eapply post_mono; [by apply mm_in_router_post|].
  intros [s1 ret] [Hi1 Hret]. cbn [fst snd] in *.
  assert (∀ q err, post (bounce s1 q err) sm_inv) as Hb.
  { intros q err. eapply post_mono; [apply bounce_q|]. intros. by eapply inv_quiet. }
  destruct ret as [|q|q err]; [by apply post_ret| |apply Hb]. cbn in Hret. subst q.
  destruct (p_from p) as [from|]; [|apply Hb]. destruct (p_to p) as [to|] eqn:Et; [|apply Hb].
  case_bool_decide.
  - apply post_bind. eapply post_mono; [by apply mm_pkt_sm_inv|]. intros [s2 ret] Hi2. cbn [fst] in Hi2.
    eapply post_mono; [apply chain_end_q|]. intros. by eapply inv_quiet.
  - apply dispatch_user_inv; [done|]. by apply (good_to p Hp).
Qed.

Lemma sm_dispatch_inv s p : sm_inv s → good_pkt p → post (dispatch s p) sm_inv.
Proof.
  intros Hi Hp. unfold dispatch. destruct (_ =? _)%Z; [by apply post_ret|]. apply post_bind.
  apply (post_mono _ (λ o, ∀ q, o = Some q → good_pkt q)).
  { destruct (has _ _); [by apply pkt_error_good|]. by apply post_ret; intros q [= <-]. }
  intros [q|] Hq; [|by apply post_ret]. specialize (Hq q eq_refl). destruct (has _ _); [by apply dispatch_route_inv|].
  apply post_bind. eapply post_mono; [by apply mm_pkt_router_inv|]. intros [s1 ret] Hi1. by apply post_ret.
Qed.
End dispatch.
