(* ===== verification/SmRun.v ===== *)
(** * The session manager as a state machine

    The events of the stream to the router take the state that [main] sets up
    from one to the next: [sm_run].  In every state that is reached the tables
    agree with the heap and each user's top session is the right one. *)
From S2P Require Import Prelude.
From S2P Require Import CStr.
From S2P Require Import DList.
From S2P Require Import Table.
From S2P Require Import Alist.
From S2P Require Import Codec.
From S2P Require Import Jid.
From S2P Require Import Nad.
From S2P Require Import Stanza.
From S2P Require Import Lines.
From S2P Require Import Datetime.
From S2P Require Import Pkt.
From S2P Require Import Sm.
From S2P Require Import Pres.
From S2P Require Import Roster.
From S2P Require Import Offline.
From S2P Require Import SmMods.
From S2P Require Import Mm.
From S2P Require Import SmInv.
From S2P Require Import SmTop.
From S2P Require Import SmLife.
From S2P Require Import SmDispatch.

(** ** A session manager to try

    A concrete environment, a configuration with every module on its chains,
    and packets of a c2s and of another server, on which the theorems about
    the session manager are evaluated. *)

Definition prep_cstr (s : string) : option string := if no_nul s then Some s else None.

(** The hash is the text itself, the clock counts minutes. *)
#[local] Instance ex_env : Env := {|
  env_nodeprep := prep_cstr; env_nameprep := prep_cstr; env_resourceprep := prep_cstr;
  env_sha1 s := take 20 (uchar <$> tx s);
  env_time k := (60 * Z.of_nat k)%Z; env_rand k := Z.of_nat k; env_rand_max := 2147483647;
  env_can_append _ := true; env_can_unlink _ := true
|}.

Lemma sm_prep_cstr_ok s d : prep_cstr s = Some d → no_nul d.
Proof. unfold prep_cstr. destruct (no_nul s) eqn:E; [|done]. intros [= <-]. by rewrite E. Qed.
#[local] Instance ex_laws : EnvLaws.
Proof. split; apply sm_prep_cstr_ok. Qed.

Definition ex_sm_conf : sconf (T := alist) :=
  SConf "example.com" (tput (tnew 11) "example.com" tt) (tnew 51) "jabberd" "2" None 0.
Definition ex_chains : chains := {|
  ch_sess_start := []; ch_sess_end := [];
  ch_in_sess := [m_validate; m_roster; m_pep; m_iq_ping; m_offline; m_presence; m_deliver];
  ch_in_router := [m_session; m_validate; m_presence];
  ch_out_sess := [m_pep]; ch_out_router := [];
  ch_pkt_sm := [m_iq_ping; m_iq_time; m_iq_version; m_help; m_echo; m_presence];
  ch_pkt_user := [m_presence; m_deliver; m_offline];
  ch_pkt_router := [m_session];
  ch_user_load := [m_roster]; ch_user_unload := []; ch_disco_extend := []
|}.
Definition ex_mods : mods := Mods 15 16 17 18 (ModOffline false false false "/spool") "/users".
Definition ex_files : gmap string text := {[ "/users" := tx ("ann" +:+ String tab "x") ++ [newline] ++ tx ("bob" +:+ String tab "y") ]}.

(** From the c2s [c2s1]: to start the session of [target]. *)
Definition ex_route (from : string) : nad * Z :=
  let '(n, ns) := nad_add_namespace nad_new uri_COMPONENT None in
  let n := (nad_append_elem n ns "route" 0).1 in
  let n := (nad_append_attr n (-1) "to" "example.com").1 in
  let n := (nad_append_attr n (-1) "from" from).1 in
  nad_add_namespace n uri_SESSION (Some "sc").
Definition ex_session (action target c2s_id : string) (sm_id : option string) : nad :=
  let '(n, sns) := ex_route "c2s1" in
  let n := (nad_append_elem n sns "session" 1).1 in
  let n := (nad_append_attr n sns "c2s" c2s_id).1 in
  let n := match sm_id with Some id => (nad_append_attr n sns "sm" id).1 | None => n end in
  let n := (nad_append_attr n (-1) "target" target).1 in
  (nad_append_attr n (-1) "action" action).1.
(** A presence of the session [sm_id], with its priority. *)
Definition ex_presence (c2s_id sm_id pri : string) : nad :=
  let '(n, sns) := ex_route "c2s1" in
  let '(n, ns) := nad_add_namespace n uri_CLIENT None in
  let n := (nad_append_elem n ns "presence" 1).1 in
  let n := (nad_append_attr n sns "c2s" c2s_id).1 in
  let n := (nad_append_attr n sns "sm" sm_id).1 in
  let n := (nad_append_elem n ns "priority" 2).1 in
  nad_append_cdata n (tx pri) 3.
(** A message from another server. *)
Definition ex_message (to from body : string) : nad :=
  let '(n, _) := ex_route "s2s" in
  let '(n, ns) := nad_add_namespace n uri_CLIENT None in
  let n := (nad_append_elem n ns "message" 1).1 in
  let n := (nad_append_attr n (-1) "to" to).1 in
  let n := (nad_append_attr n (-1) "from" from).1 in
  let n := (nad_append_elem n ns "body" 2).1 in
  nad_append_cdata n (tx body) 3.

(** ** The machine *)

(** What the router's stream does to the session manager. *)
Inductive sm_event :=
  | EvOpen
  | EvPacket (stream open : bool) (n : nad)
  | EvClose.

Section run.
Context {T : Type → Type} `{Table T} `{Env}.
Notation sm := (sm (T := T)).
Implicit Types (s : sm).

(** The state before the stream opens: [main] has made the tables. *)
Definition sm_start (conf : sconf (T := T)) (ch : chains) (m : mods) (xmlns refs features : T Z)
    (files : gmap string text) : sm :=
  Sm conf ∅ ∅ 0 (tnew 401) (tnew 401) xmlns refs features m ch files false false 0 0 [].

Definition sm_step s (ev : sm_event) : option sm :=
  match ev with
  | EvOpen => Some (sm_event_open s)
  | EvPacket stream open n => fst <$> sm_event_packet s stream open n
  | EvClose => Some (sm_event_close s)
  end.
Fixpoint sm_run s (evs : list sm_event) : option sm :=
  match evs with [] => Some s | ev :: evs => s ← sm_step s ev; sm_run s evs end.

(** The end of [main]: every session is told, and ends. *)
Definition sm_shutdown s : option sm :=
  let '(t, l) := titer (s_sessions s) in
  foldM (λ s c, s ← sm_c2s_action s c "ended" None; sess_end s c) (set_sessions t s) l.*2.
End run.

Section invariant.
Context {T : Type → Type} `{TableLaws T} `{EnvLaws}.
Notation sm := (sm (T := T)).
Implicit Types (s : sm).

Lemma sm_start_inv conf ch m xmlns refs features files : reaches_presence (ch_in_sess ch) = true →
  sm_inv (sm_start (T := T) conf ch m xmlns refs features files).
Proof.
  intros Hr. destruct (tnew_ok (T := T) (V := loc) 401) as [Ht Em]; [lia|].
  split; [split; [split|]|..]; cbn [sm_start s_users s_sessions s_uheap s_eheap]; try done; try (intros k u; by rewrite Em).
Qed.

Lemma event_open_q s : quiet s (sm_event_open s).
Proof.
  unfold sm_event_open. set (id := sc_id (s_conf s)).
  assert (∀ l s1, quiet s s1 → quiet s (foldl (λ s (kv : string * unit), if bool_decide (kv.1 = id) then s else write (bind_nad kv.1 true) s) s1 l)) as Hl.
  { induction l as [|kv l IH]; intros s1 Hq; [done|]. cbn [foldl]. apply IH. by case_bool_decide. }
  by apply Hl.
Qed.

Lemma step_inv s ev : sm_inv s → post (sm_step s ev) sm_inv.
Proof.
  intros Hi. destruct ev as [|stream open n|]; cbn [sm_step].
  - apply post_ret, (inv_quiet s); [done|]. apply event_open_q.
  - intros s' E. apply fmap_Some in E as ([s1 b] & E & ->). revert E. cbn [fst].
    assert (post (sm_event_packet s stream open n) (λ r, sm_inv r.1)) as Hp; [|apply Hp].
    unfold sm_event_packet. destruct (_ <? _)%Z; [by apply post_ret|]. destruct stream; [by apply post_ret|].
    destruct (open && _).
    { destruct (_ && _); [|by apply post_ret]. destruct (_ <=? _)%Z; apply post_ret; [done|]. by apply (inv_quiet s). }
    destruct (pkt_new (s_xmlns s) n) as [p|] eqn:Ep; [|by apply post_ret].
    apply post_bind. eapply post_mono; [apply sm_dispatch_inv; [done|by eapply pkt_new_good]|].
    intros s2 Hi2. by apply post_ret.
  - apply post_ret. by apply (inv_quiet s).
Qed.
Lemma run_inv s evs : sm_inv s → post (sm_run s evs) sm_inv.
Proof.
  revert s. induction evs as [|ev evs IH]; intros s Hi; cbn [sm_run]; [by apply post_ret|].
  apply post_bind. eapply post_mono; [by apply step_inv|]. intros s1 Hi1. by apply IH.
Qed.

(** ** The claim *)

(** C3: whatever the router sends, in every state that the session manager reaches the tables agree
    with the heap, and each user's top session is the right one.
    A user who is loaded is in the table under his name and has a session; an entry of the table of
    users or of sessions is no dangling pointer and has the key of what it points to; a session is on
    its user's list and on no other, once; and the top session of a user is the last of those that are
    available with the highest priority that is not negative, if there is one. *)
Theorem sm_tables_agree conf ch m xmlns refs features files evs s :
  reaches_presence (ch_in_sess ch) = true →
  sm_run (sm_start (T := T) conf ch m xmlns refs features files) evs = Some s →
  sm_ok s ∧ settled s.
Proof. intros Hr E. by destruct (run_inv _ evs (sm_start_inv conf ch m xmlns refs features files Hr) s E). Qed.
End invariant.

(** ** An example *)

#[local] Existing Instance ex_env.
#[local] Existing Instance ex_laws.

Definition ex_start : sm (T := alist) := sm_start ex_sm_conf ex_chains ex_mods (tput (tnew 101) uri_ROSTER 3%Z) (tnew 101) (tnew 101) ex_files.
Definition ex_bound : nad := (nad_append_elem (nad_add_namespace nad_new uri_COMPONENT None).1 0 "bind" 0).1.

(** The sessions [home] and [work] of ann, with priorities 5 and 3, and a message for her. *)
Definition ex_id1 : string := "313937302d30312d30315430303a30303a30305a".
Definition ex_id2 : string := "313937302d30312d30315430303a30313a30305a".
Definition ex_events : list sm_event :=
  [EvOpen; EvPacket false true ex_bound;
   EvPacket false true (ex_session "start" "ann@example.com/home" "1" None);
   EvPacket false true (ex_session "start" "ann@example.com/work" "2" None);
   EvPacket false true (ex_presence "1" ex_id1 "5"); EvPacket false true (ex_presence "2" ex_id2 "3")].
Definition ex_state (k : nat) : sm (T := alist) := default ex_start (sm_run ex_start (take k ex_events)).

Lemma sm_ex_reached k : match sm_run ex_start (take k ex_events) with Some _ => true | None => false end = true →
  sm_run ex_start (take k ex_events) = Some (ex_state k).
Proof. unfold ex_state. by destruct (sm_run _ _). Qed.

Lemma sm_tables_agree_witness : sm_ok (ex_state 6) ∧ settled (ex_state 6).
Proof.
  apply (sm_tables_agree ex_sm_conf ex_chains ex_mods (tput (tnew 101) uri_ROSTER 3%Z) (tnew 101) (tnew 101) ex_files (take 6 ex_events)).
  - reflexivity.
  - apply sm_ex_reached. vm_compute. reflexivity.
Defined.

Lemma ex_inv : sm_inv (ex_state 6).
Proof.
  eapply run_inv; [apply (sm_start_inv ex_sm_conf ex_chains ex_mods); reflexivity|].
  apply sm_ex_reached. vm_compute. reflexivity.
Qed.

Example ex_top : u_top <$> get_user (ex_state 6) 0 = Some (Some 1).
Proof. vm_compute. reflexivity. Qed.
