(* ===== verification/SmSpec.v ===== *)
(** * What the session manager does with a message

    The choice of the top session, the copies of a message that a user's
    sessions get, and packets that claim the session of another c2s. *)
From S2P Require Import Prelude.
From S2P Require Import CStr.
From S2P Require Import DList.
From S2P Require Import Codec.
From S2P Require Import Jid.
From S2P Require Import Nad.
From S2P Require Import Table.
From S2P Require Import Alist.
From S2P Require Import Stanza.
From S2P Require Import Datetime.
From S2P Require Import Lines.
From S2P Require Import Pkt.
From S2P Require Import Sm.
From S2P Require Import Pres.
From S2P Require Import Roster.
From S2P Require Import Offline.
From S2P Require Import SmMods.
From S2P Require Import Mm.
From S2P Require Import SmInv.
From S2P Require Import SmTop.
From S2P Require Import SmLife.
From S2P Require Import SmDispatch.
From S2P Require Import SmRun.

Section spec.
Context {T : Type → Type} `{TableLaws T} `{Env}.
Notation sm := (sm (T := T)).
Notation user := (user (T := T)).
Implicit Types (s : sm) (c u : loc) (p : pkt) (e : sess) (usr : user).

(** ** The top session *)

Lemma is_top_unique l top top' : is_top l top → is_top l top' → top = top'.
Proof.
  destruct top as [c|], top' as [c'|]; cbn; try done; try (intros -> (? & ? & ? & E & _); by destruct x);
    try (intros (? & ? & ? & E & _) ->; by destruct x).
  - intros (a & m & b & -> & Ha & Hb) (a' & m' & b' & E & Ha' & Hb').
    apply app_eq_app in E as (k & [[-> E]|[-> E]]).
    + destruct k as [|x k]; cbn in E; [by injection E as <- _ _|]. injection E as <- ->.
      apply Forall_app in Ha as [_ Ha]. apply Forall_cons in Ha as [Ha _]. apply Forall_app in Hb' as [_ Hb'].
      apply Forall_cons in Hb' as [Hb' _]. cbn in *. lia.
    + destruct k as [|x k]; cbn in E; [by injection E as <- _ _|]. injection E as <- ->.
      apply Forall_app in Ha' as [_ Ha']. apply Forall_cons in Ha' as [Ha' _]. apply Forall_app in Hb as [_ Hb].
      apply Forall_cons in Hb as [Hb _]. cbn in *. lia.
Qed.

(** [_pres_top] returns for a user whose sessions are there, and sets his top session to the last
    of the available sessions with the highest priority, if one of them has a priority that is not
    negative, and to none otherwise; it sets the flag that tells whether a session is available, and
    changes nothing else.  The choice is unique. *)
Theorem pres_top_chooses s u usr :
  get_user s u = Some usr → Forall (λ c, is_Some (get_sess s c)) (u_sessions usr) →
  ∃ top, _pres_top s u = Some (upd_user u (λ usr', with_u_available (some_available s (u_sessions usr)) (with_top top usr')) s) ∧
    is_top (candidates s (u_sessions usr)) top ∧ ∀ top', is_top (candidates s (u_sessions usr)) top' → top' = top.
Proof.
  intros Hu Hl. destruct (pres_top_result s u usr Hu Hl) as (top & Ht & E). exists top. split_and!; [done..|].
  intros top' Ht'. by eapply is_top_unique.
Qed.

(** ** Messages to a user's sessions *)

(** Does the session get the message?  The top session decides, but for headlines. *)
Definition receives s top p c : bool :=
  match get_sess s c, get_sess s top with
  | Some e, Some t => e_available e && (0 <=? e_pri e)%Z && ((p_type p =? pkt_MESSAGE_HEADLINE) || (e_pri t <=? e_pri e))%Z
  | _, _ => false
  end.

(** What the c2s gets for the session: the copy with the sender as it was, if
    the name of the c2s is a jid. *)
Definition session_nad s e usr p : list nad :=
  match address_route s (e_c2s e) p with
  | None => []
  | Some p =>
    let '(n, ns) := nad_append_namespace (p_nad p) 1 uri_SESSION (Some "sm") in
    let n := nad_set_attr n 1 ns "c2s" (Some (e_c2s_id e)) 0 in
    let n := nad_set_attr n 1 ns "sm" (Some (e_sm_id e)) 0 in
    let n := set_attr 0 "to" (Some (e_c2s e)) n in
    let n := set_attr 0 "from" (Some (jid_domain (u_jid usr))) n in
    [set_attr 0 "error" None n]
  end.
Definition copy_for s p (from : jid) c : list nad :=
  match get_sess s c with
  | None => []
  | Some e =>
    match get_user s (e_user e), pkt_dup p (Some (jfull (e_jid e))) (Some (jfull from)) with
    | Some usr, Some q => session_nad s e usr q
    | _, _ => []
    end
  end.

Definition more_out (l : list nad) s : sm := set_out (s_out s ++ l) s.

Lemma more_out_nil s : more_out [] s = s.
Proof. unfold more_out. rewrite app_nil_r. by destruct s. Qed.
Lemma more_out_app l l' s : more_out l' (more_out l s) = more_out (l ++ l') s.
Proof. unfold more_out. cbn. by rewrite app_assoc. Qed.

Lemma mm_out_sess_pass s c p : is_Some (get_sess s c) → has (p_type p) pkt_IQ = false → mm_out_sess s c p = Some (s, mod_PASS p).
Proof.
  intros [e He] Hp. unfold mm_out_sess. induction (ch_out_sess (s_chains s)) as [|m l IH]; [done|].
  destruct m; try exact IH. cbn [omap list_omap out_sess_handler mm_loop]. unfold _pep_out_sess at 1.
  rewrite He. cbn [mbind option_bind]. rewrite Hp. exact IH.
Qed.

Lemma pkt_sess_out s c e usr p : get_sess s c = Some e → get_user s (e_user e) = Some usr → has (p_type p) pkt_IQ = false →
  pkt_sess s (Some p) c = Some (more_out (session_nad s e usr p) s).
Proof.
  intros He Hu Hp. unfold pkt_sess, session_nad. rewrite He. cbn [mbind option_bind].
  destruct (address_route s (e_c2s e) p) as [q|] eqn:Eq; [|by rewrite more_out_nil].
  assert (p_type q = p_type p) as Et.
  { unfold address_route in Eq. apply bind_Some in Eq as (j & _ & Eq). apply bind_Some in Eq as (j' & _ & Eq).
    injection Eq as <-. done. }
  rewrite mm_out_sess_pass by (by exists e || by rewrite Et). cbn [mbind option_bind]. unfold sess_route. rewrite He.
  cbn [mbind option_bind]. rewrite Hu. cbn [mbind option_bind]. by destruct (nad_append_namespace _ _ _ _).
Qed.

Lemma pkt_dup_type p to from q : pkt_dup p to from = Some q → p_type q = p_type p.
Proof. unfold pkt_dup. intros ([jto n] & _ & E)%bind_Some. apply bind_Some in E as ([jf n'] & _ & E). by injection E as <-. Qed.

Lemma deliver_top_out s top t p from c e usr : get_sess s top = Some t → get_sess s c = Some e → get_user s (e_user e) = Some usr →
  p_from p = Some from → has (p_type p) pkt_IQ = false →
  is_Some (pkt_dup p (Some (jfull (e_jid e))) (Some (jfull from))) →
  deliver_top p top s c = Some (more_out (if receives s top p c then copy_for s p from c else []) s).
Proof.
  intros Ht He Hu Hf Hp [q Hq]. unfold deliver_top, receives, copy_for. rewrite He, Ht, Hu, Hq. cbn [mbind option_bind].
  rewrite Hf. cbn [mbind option_bind]. rewrite Hq. cbn [mbind option_bind].
  rewrite (pkt_sess_out s c e usr q) by (done || by rewrite (pkt_dup_type _ _ _ _ Hq)).
  destruct (e_available e); cbn [negb orb andb]; [|by rewrite more_out_nil].
  rewrite Z.ltb_antisym. destruct (0 <=? e_pri e)%Z; cbn [negb andb]; [|by rewrite more_out_nil].
  destruct (_ =? pkt_MESSAGE_HEADLINE)%Z; cbn [mbind option_bind orb]; [done|].
  rewrite Z.ltb_antisym. destruct (e_pri t <=? e_pri e)%Z; [done|by rewrite more_out_nil].
Qed.

Lemma deliver_all s top p (g : loc → list nad) l :
  (∀ acc c, c ∈ l → deliver_top p top (more_out acc s) c = Some (more_out (g c) (more_out acc s))) →
  ∀ acc, foldM (deliver_top p top) (more_out acc s) l = Some (more_out (acc ++ (l ≫= g)) s).
Proof.
  induction l as [|c l IH]; intros Hl acc; cbn [foldM]; [by rewrite app_nil_r|].
  rewrite Hl by (by left). cbn [mbind option_bind]. rewrite more_out_app, IH by (intros; apply Hl; by right).
  cbn. by rewrite app_assoc.
Qed.

Lemma bind_filter {A B} (b : A → bool) (g : A → list B) l :
  (l ≫= λ x, if b x then g x else []) = filter (λ x, b x = true) l ≫= g.
Proof.
  induction l as [|x l IH]; [done|]. rewrite filter_cons. cbn. rewrite IH. by destruct (b x).
Qed.

Lemma top_is_candidate s l c : is_top (candidates s l) (Some c) → c ∈ l ∧ ∃ e, get_sess s c = Some e ∧ e_available e = true ∧ (0 <= e_pri e)%Z.
Proof.
  intros (a & pri & b & E & _). assert ((c, pri) ∈ candidates s l) as Hc by (rewrite E; apply elem_of_app; right; by left).
  unfold candidates in Hc. apply list_elem_of_omap in Hc as (d & Hd & Hb). apply bind_Some in Hb as (e & He & Hb).
  destruct (e_available e && (0 <=? e_pri e)%Z) eqn:Eb; [|done]. injection Hb as <- _.
  apply andb_true_iff in Eb as [Ea Ep%Z.leb_le]. split; [done|]. by exists e.
Qed.

(** C26: a message or subscription packet for a user with a top session is handled: each of his sessions
    that is available with a priority that is not negative and not below that of the top session, or
    any that is not negative when it is a headline, gets one copy, with the sender as it was, in the
    order of the list, and nothing else is written or changed; the top session itself is one of them.
    That the copies can be made is a hypothesis: the addresses parse. *)
Theorem message_to_top_sessions s u usr top p from :
  sm_ok s → get_user s u = Some usr → u_top usr = Some top → p_from p = Some from →
  has (p_type p) pkt_MESSAGE || has (p_type p) pkt_S10N = true → has (p_type p) pkt_IQ = false →
  (∀ c e, c ∈ u_sessions usr → get_sess s c = Some e → is_Some (pkt_dup p (Some (jfull (e_jid e))) (Some (jfull from)))) →
  let rs := filter (λ c, receives s top p c = true) (u_sessions usr) in
  _offline_pkt_user u s p = Some (more_out (rs ≫= copy_for s p from) s, mod_HANDLED) ∧ top ∈ rs.
Proof.
  intros Hok Hu Htop Hf Hp Hiq Hdup rs. destruct (ok_tops _ Hok u usr Hu) as [Ht _]. rewrite Htop in Ht.
  destruct (top_is_candidate _ _ _ Ht) as (Hin & t & Het & Hav & Hpri). split.
  - unfold _offline_pkt_user. rewrite Hu. cbn [mbind option_bind]. rewrite Htop, Hp.
    rewrite <- (more_out_nil s) at 1. rewrite (deliver_all s top p (λ c, if receives s top p c then copy_for s p from c else [])).
    + cbn [mbind option_bind]. by rewrite app_nil_l, bind_filter.
    + intros acc c Hc. destruct (wf_own _ (ok_wf _ Hok) u usr c Hu Hc) as (e & He & Eu).
      apply (deliver_top_out (more_out acc s) top t p from c e usr); try done; [by rewrite Eu|by eapply Hdup].
  - apply list_elem_of_filter. split; [|done]. unfold receives. rewrite Het, Hav. cbn [andb].
    destruct (Z.leb_spec 0 (e_pri t)); [|lia]. rewrite Z.leb_refl. by rewrite orb_true_r.
Qed.

(** ** The session of another c2s *)

(** The packet names a session in the namespace, and says another c2s
    identifier than the one that started it. *)
Definition foreign s p (ns : Z) : Prop := ∃ id c e v,
  attr_ns (p_nad p) 1 ns "sm" = Some id ∧ session_of s id = Some c ∧ get_sess s c = Some e ∧
  attr_ns (p_nad p) 1 ns "c2s" = Some v ∧ v ≠ tx (e_c2s_id e).

(** The packet has the namespace that only a c2s uses. *)
Definition of_c2s p : Prop := (1 < ecur (p_nad p))%Z ∧ (0 <= nad_find_namespace (p_nad p) 1 (Some uri_SESSION) None)%Z.

(** C27: what a c2s sends for a session under another c2s identifier than the one that started it.  A
    request to end the session is dropped: no state changes and nothing is written.  So is a stanza,
    unless it is a session request of RFC 3920, which is answered whoever sends it, without the session
    being touched.  The attributes of a stanza are looked up in the namespace of that request, or, where
    the stanza does not declare it, in any; a stanza that declares it, is not the request and has no
    attribute sm in that namespace counts as naming no session, and goes back as failed. *)
Theorem foreign_c2s_dropped s p : of_c2s p →
  let ns := nad_find_namespace (p_nad p) 1 (Some uri_SESSION) None in
  let xs := nad_find_scoped_namespace (p_nad p) uri_XSESSION None in
  let stanza := has (p_type p) pkt_SESS_FAILED = false ∧ has (p_type p) pkt_SESS = false in
  (foreign s p ns → p_type p = pkt_SESS_END → _session_in_router s p = Some (s, mod_HANDLED)) ∧
  (foreign s p xs → stanza →
    _session_in_router s p = Some (match session_request (p_nad p) with Some n => write n s | None => s end, mod_HANDLED)) ∧
  (attr_ns (p_nad p) 1 xs "sm" = None → stanza → session_request (p_nad p) = None →
    _session_in_router s p = Some (session_failed s p xs, mod_HANDLED)).
Proof.
  intros [He1 Hns] ns xs stanza.
  assert (∀ ns e v, attr_ns (p_nad p) 1 ns "c2s" = Some v → v ≠ tx (e_c2s_id e) → from_c2s e (p_nad p) ns = false) as Hfrom.
  { intros n e v Hv Hne. unfold from_c2s. rewrite Hv. by apply bool_decide_eq_false. }
  unfold _session_in_router. fold ns in Hns |- *. destruct (Z.leb_spec (ecur (p_nad p)) 1); [lia|]. destruct (Z.ltb_spec ns 0); [lia|]. cbn [orb].
  split_and!.
  - intros (id & c & e & v & Hid & Hc & He & Hv & Hne) Ht. rewrite Ht. change (has pkt_SESS_END pkt_SESS_FAILED) with false.
    change (has pkt_SESS_END pkt_SESS) with true. cbv iota. unfold session_command. fold ns. rewrite Ht, Hid, Hc.
    cbn -[nad_find_namespace ns]. rewrite He. cbn [mbind option_bind]. rewrite (Hfrom _ e v Hv Hne). by destruct (attr_of _ _ _).
  - intros (id & c & e & v & Hid & Hc & He & Hv & Hne) [-> ->]. unfold session_packet. fold xs.
    destruct (session_request (p_nad p)); [done|]. rewrite Hid, Hc, He. cbn [mbind option_bind]. by rewrite (Hfrom _ e v Hv Hne).
  - intros Hid [-> ->] Hr. unfold session_packet. fold xs. by rewrite Hr, Hid.
Qed.
End spec.

(** ** Examples *)

#[local] Existing Instance ex_env.
#[local] Existing Instance ex_laws.

Definition ex_user : user (T := alist) := default (User jid_static None [] None false) (get_user (ex_state 6) 0).

Lemma pres_top_chooses_witness :
  ∃ top, is_top (candidates (ex_state 6) (u_sessions ex_user)) top ∧ top = Some 1.
Proof.
  destruct (pres_top_chooses (ex_state 6) 0 ex_user) as (top & _ & Ht & Hu).
  - vm_compute. reflexivity.
  - apply (bool_decide_eq_true_1 _). vm_compute. reflexivity.
  - exists top. split; [exact Ht|]. symmetry. apply Hu. exists [(2, 3%Z)], 5%Z, []. split; [vm_compute; reflexivity|].
    split; repeat constructor. cbn. lia.
Defined.

Definition ex_pkt (n : nad) : pkt := default (Pkt None None None 0 0 None None 0 0 n) (pkt_new (s_xmlns ex_start) n).
Definition ex_from (p : pkt) : jid := default jid_static (p_from p).

Definition dup_check (s : sm (T := alist)) (l : list loc) (p : pkt) (from : jid) : bool :=
  forallb (λ c, match get_sess s c with
                | Some e => match pkt_dup p (Some (jfull (e_jid e))) (Some (jfull from)) with Some _ => true | None => false end
                | None => true
                end) l.
Lemma dup_check_ok s l p from : dup_check s l p from = true → ∀ c e, c ∈ l → get_sess s c = Some e →
  is_Some (pkt_dup p (Some (jfull (e_jid e))) (Some (jfull from))).
Proof.
  unfold dup_check. rewrite forallb_forall. intros Hl c e Hc%list_elem_of_In He. specialize (Hl c Hc). rewrite He in Hl.
  by destruct (pkt_dup _ _ _).
Qed.

(** Only the session with priority 5 gets it; a c2s that is named gets one document. *)
Lemma message_to_top_sessions_witness :
  let p := ex_pkt (ex_message "ann@example.com" "eve@other.org" "hi") in
  filter (λ c, receives (ex_state 6) 1 p c = true) (u_sessions ex_user) = [1] ∧
  _offline_pkt_user 0 (ex_state 6) p = Some (more_out (copy_for (ex_state 6) p (ex_from p) 1 ++ []) (ex_state 6), mod_HANDLED).
Proof.
  intros p.
  assert (filter (λ c, receives (ex_state 6) 1 p c = true) (u_sessions ex_user) = [1]) as E by (vm_compute; reflexivity).
  split; [exact E|].
  destruct (message_to_top_sessions (ex_state 6) 0 ex_user 1 p (ex_from p)) as [Em _].
  - apply ex_inv.
  - vm_compute. reflexivity.
  - vm_compute. reflexivity.
  - vm_compute. reflexivity.
  - vm_compute. reflexivity.
  - vm_compute. reflexivity.
  - apply dup_check_ok. vm_compute. reflexivity.
  - rewrite Em, E. reflexivity.
Defined.

(** The c2s says it has the session as 9, but it started it as 1. *)
Definition ex_foreign : pkt := ex_pkt (ex_session "end" "ann@example.com/home" "9" (Some ex_id1)).
Definition ex_sess : sess := default (Sess 0 jid_static "" "" "" None false 0 [] []) (get_sess (ex_state 6) 1).

(** A message of the client of that other c2s. *)
Definition ex_foreign_message : pkt :=
  let '(n, _) := ex_route "c2s" in
  let '(n, ns) := nad_add_namespace n uri_SESSION (Some "sc") in
  let n := (nad_add_namespace n uri_CLIENT None).1 in
  let n := (nad_append_elem n (ns + 1) "message" 1).1 in
  let n := (nad_append_attr n ns "c2s" "9").1 in
  ex_pkt (nad_append_attr n ns "sm" ex_id1).1.

Lemma foreign_c2s_dropped_witness :
  _session_in_router (ex_state 6) ex_foreign = Some (ex_state 6, mod_HANDLED) ∧
  _session_in_router (ex_state 6) ex_foreign_message = Some (ex_state 6, mod_HANDLED).
Proof.
  assert (tx "9" ≠ tx (e_c2s_id ex_sess)) as Hne by (assert (e_c2s_id ex_sess = "1") as -> by (vm_compute; reflexivity); discriminate).
  split.
  - destruct (foreign_c2s_dropped (ex_state 6) ex_foreign) as [Hc _]; [split; vm_compute; [reflexivity|discriminate]|]. apply Hc.
    + exists (tx ex_id1), 1, ex_sess, (tx "9"). split; [vm_compute; reflexivity|]. split; [vm_compute; reflexivity|].
      split; [vm_compute; reflexivity|]. split; [vm_compute; reflexivity|exact Hne].
    + vm_compute. reflexivity.
  - destruct (foreign_c2s_dropped (ex_state 6) ex_foreign_message) as (_ & Hc & _); [split; vm_compute; [reflexivity|discriminate]|].
    replace (session_request (p_nad ex_foreign_message)) with (@None nad) in Hc by (vm_compute; reflexivity). apply Hc.
    + exists (tx ex_id1), 1, ex_sess, (tx "9"). split; [vm_compute; reflexivity|]. split; [vm_compute; reflexivity|].
      split; [vm_compute; reflexivity|]. split; [vm_compute; reflexivity|exact Hne].
    + split; vm_compute; reflexivity.
Defined.
