(* ===== verification/Spool.v ===== *)
(** * The spool of offline messages is read back

    Escaping and unescaping of bodies, the lines of a spool file, and
    [_offline_save_to_file] followed by the loop of
    [_offline_deliver_from_file]. *)
From S2P Require Import Prelude.
From S2P Require Import CStr.
From S2P Require Import DList.
From S2P Require Import Table.
From S2P Require Import Alist.
From S2P Require Import Codec.
From S2P Require Import Jid.
From S2P Require Import Nad.
From S2P Require Import Stanza.
From S2P Require Import Filter.
From S2P Require Import Lines.
From S2P Require Import Datetime.
From S2P Require Import Pkt.
From S2P Require Import Sm.
From S2P Require Import Pres.
From S2P Require Import Roster.
From S2P Require Import Offline.
From S2P Require Import SmMods.
From S2P Require Import Mm.
From S2P Require Import SmInv.
From S2P Require Import SmTop.
From S2P Require Import SmRun.
From S2P Require Import SmSpec.

(** ** Bodies *)

Definition plain_body (t : text) : Prop := Forall (λ c, c ≠ carriage_return ∧ c ≠ nul) t.

Lemma unescape_plain c t : c ≠ backslash → _offline_unescape (c :: t) = c :: _offline_unescape t.
Proof.
  intros Hc. destruct t as [|d t]; [done|].
  change (_offline_unescape (c :: d :: t)) with
    (if bool_decide (c = backslash) then (if bool_decide (d = "n"%char) then newline else d) :: _offline_unescape t
     else c :: _offline_unescape (d :: t)).
  by rewrite bool_decide_false.
Qed.

Lemma unescape_escape t : plain_body t → _offline_unescape (_offline_escape t) = t.
Proof.
  induction 1 as [|c t [Hcr _] _ IH]; [done|]. unfold _offline_escape in *. cbn [mbind list_bind]. unfold escape_char at 1.
  case_bool_decide as Eb; [subst c|].
  { cbn [app _offline_unescape]. rewrite bool_decide_true by done. rewrite bool_decide_false by done. by rewrite IH. }
  case_bool_decide as En; [subst c|rewrite (bool_decide_false (c = carriage_return)) by done].
  - cbn [orb app _offline_unescape]. by rewrite !bool_decide_true, IH.
  - cbn [orb app]. by rewrite unescape_plain, IH.
Qed.

Lemma escape_clean t : plain_body t → Forall (λ c, c ≠ newline ∧ c ≠ carriage_return ∧ c ≠ nul) (_offline_escape t).
Proof.
  intros Ht. apply Forall_forall. intros d (c & Hd & Hc)%list_elem_of_bind. unfold plain_body in Ht. rewrite Forall_forall in Ht.
  apply Ht in Hc as [Hcr Hnul]. unfold escape_char in Hd. case_bool_decide as Eb; [|destruct (_ || _) eqn:En].
  - repeat (apply elem_of_cons in Hd as [->|Hd]; [split_and!; discriminate|]). by apply not_elem_of_nil in Hd.
  - repeat (apply elem_of_cons in Hd as [->|Hd]; [split_and!; discriminate|]). by apply not_elem_of_nil in Hd.
  - apply list_elem_of_singleton in Hd as ->. apply orb_false_iff in En as [En%bool_decide_eq_false _]. done.
Qed.

(** ** Lines *)

(** What the line of a message can hold. *)
Record spoolable (from : string) (body : text) : Prop := {
  sp_body : plain_body body;
  sp_from : Forall (λ c, c ≠ tab ∧ c ≠ newline ∧ c ≠ carriage_return ∧ c ≠ nul) (tx from);
  sp_short : length (spool_line from body) < OFFLINE_LINE_MAX
}.

Lemma tx_app a b : tx (a +:+ b) = tx a ++ tx b.
Proof. unfold tx. induction a as [|c a IH]; cbn; [done|]. by rewrite IH. Qed.

Lemma free_of_tx c s : c ∉ tx s → free_of c s.
Proof.
  unfold tx. induction s as [|d s IH]; cbn; [done|]. intros [Hd Hs]%not_elem_of_cons. apply andb_True.
  split; [|by apply IH]. by rewrite bool_decide_false.
Qed.

Lemma before_end c s r : free_of c s → before c (s +:+ String c r) = s.
Proof. intros Hs. unfold before. by rewrite split_at_app. Qed.
Lemma before_free c s : free_of c s → before c s = s.
Proof. intros Hs. unfold before. by rewrite split_at_free. Qed.

(** The line without its newline. *)
Definition spool_text (from : string) (body : text) : string := from +:+ String tab (cstr_of (_offline_escape body)).

Lemma spool_line_text from body : spool_line from body = tx (spool_text from body) ++ [newline].
Proof. unfold spool_line, spool_text. rewrite tx_app. cbn. by rewrite <- app_assoc. Qed.

Lemma escape_tx body : plain_body body → tx (cstr_of (_offline_escape body)) = _offline_escape body.
Proof.
  intros Hb. apply cstr_of_tx. intros Hn. pose proof (escape_clean body Hb) as Hc. rewrite Forall_forall in Hc.
  by destruct (Hc nul Hn) as (_ & _ & ?).
Qed.

Lemma spool_text_clean from body c : spoolable from body → c = newline ∨ c = carriage_return ∨ c = nul →
  c ∉ tx (spool_text from body).
Proof.
  intros [Hb Hf _] Hc. unfold spool_text. rewrite tx_app. change (tx (String tab ?x)) with (tab :: tx x).
  rewrite elem_of_app, elem_of_cons, escape_tx by done. pose proof (escape_clean body Hb) as He.
  rewrite Forall_forall in Hf, He. intros [Hin|[->|Hin]].
  - apply Hf in Hin. naive_solver.
  - destruct Hc as [|[|]]; discriminate.
  - apply He in Hin. naive_solver.
Qed.

Lemma chomp_line from body : spoolable from body → chomp (spool_line from body) = spool_text from body.
Proof.
  intros Hs. unfold chomp. rewrite spool_line_text.
  assert (cstr_of (tx (spool_text from body) ++ [newline]) = spool_text from body +:+ String newline "") as ->.
  { apply tx_inj. rewrite cstr_of_tx, tx_app; [done|]. rewrite elem_of_app. intros [Hn|Hn].
    - by apply (spool_text_clean from body nul) in Hn; [|done|by right; right].
    - apply list_elem_of_singleton in Hn. discriminate. }
  rewrite before_end by (apply free_of_tx, spool_text_clean; [done|by left]).
  apply before_free, free_of_tx, spool_text_clean; [done|by right; left].
Qed.

Lemma read_line_back from body : spoolable from body → read_spool_line (spool_line from body) = Some (from, body).
Proof.
  intros Hs. unfold read_spool_line. rewrite chomp_line by done. unfold spool_text.
  rewrite bool_decide_false by by destruct from.
  rewrite split_at_app.
  - cbn [mbind option_bind]. rewrite escape_tx by apply Hs. by rewrite unescape_escape by apply Hs.
  - apply free_of_tx. intros Ht. destruct Hs as [_ Hf _]. rewrite Forall_forall in Hf. by destruct (Hf _ Ht).
Qed.

(** ** Files *)

Lemma read_line_first n l rest : newline ∉ l → length l < n → read_line n (l ++ newline :: rest) = (l ++ [newline], rest).
Proof.
  revert n. induction l as [|c l IH]; intros [|n] Hl Hn; cbn in Hn |- *; try lia.
  - done.
  - apply not_elem_of_cons in Hl as [Hc Hl]. rewrite bool_decide_false by done. by rewrite IH by (done || lia).
Qed.

Lemma fgets_lines_spool ms : Forall (λ m, spoolable m.1 m.2) ms → ∀ fuel, length (ms ≫= λ m, spool_line m.1 m.2) ≤ fuel →
  fgets_loop fuel OFFLINE_LINE_MAX (ms ≫= λ m, spool_line m.1 m.2) = (λ m, spool_line m.1 m.2) <$> ms.
Proof.
  induction 1 as [|[from body] ms Hs _ IH]; intros fuel Hf; [by destruct fuel|].
  rewrite bind_cons in Hf |- *. cbn [fst snd] in *. rewrite fmap_cons. rewrite length_app in Hf.
  pose proof (spool_line_text from body) as El. pose proof (sp_short _ _ Hs) as Hsh.
  assert (0 < length (spool_line from body)) as Hpos by (rewrite El, length_app; cbn; lia).
  destruct fuel as [|fuel]; [lia|].
  assert (spool_line from body ++ (ms ≫= λ m, spool_line m.1 m.2) =
    tx (spool_text from body) ++ newline :: (ms ≫= λ m, spool_line m.1 m.2)) as E by by rewrite El, <- app_assoc.
  assert (fgets_loop (S fuel) OFFLINE_LINE_MAX (spool_line from body ++ (ms ≫= λ m, spool_line m.1 m.2)) =
    let '(l, r) := read_line (OFFLINE_LINE_MAX - 1) (spool_line from body ++ (ms ≫= λ m, spool_line m.1 m.2)) in
    l :: fgets_loop fuel OFFLINE_LINE_MAX r) as ->.
  { rewrite E. by destruct (tx (spool_text from body)). }
  rewrite E, read_line_first.
  - rewrite <- El. cbn [fst snd]. f_equal. apply IH. lia.
  - apply spool_text_clean; [done|by left].
  - rewrite El, length_app in Hsh. cbn [length] in Hsh. lia.
Qed.

(** ** Saving, then delivering *)

Section spool.
Context {T : Type → Type} `{Table T} `{Env}.
Notation sm := (sm (T := T)).
Implicit Types (s : sm) (c : loc) (p : pkt).

Definition sender p : string := match p_from p with Some j => jfull j | None => "" end.
(** What is kept of a packet: the sender and the body, if there is one. *)
Definition kept_message p : option (string * text) := body ← saved_body p; Some (sender p, body).

Definition save_all s (me : jid) (ps : list pkt) : sm := foldl (λ s p, (_offline_save_to_file s me p).1) s ps.

Lemma save_files s me p : env_can_append (spool_path s me) = true →
  (_offline_save_to_file s me p).1 = match kept_message p with
    | None => s
    | Some (from, body) => set_files (<[spool_path s me := default [] (s_files s !! spool_path s me) ++ spool_line from body]> (s_files s)) s
    end.
Proof.
  intros Ha. unfold _offline_save_to_file, kept_message, sender. destruct (saved_body p) as [body|]; [|done].
  cbn [mbind option_bind]. by rewrite Ha.
Qed.

(** Only the file changes, and it grows by the lines of the messages. *)
Lemma save_all_files s me ps : env_can_append (spool_path s me) = true →
  ∃ f, save_all s me ps = set_files f s ∧
    default [] (f !! spool_path s me) = default [] (s_files s !! spool_path s me) ++ (omap kept_message ps ≫= λ m, spool_line m.1 m.2) ∧
    (omap kept_message ps ≠ [] → is_Some (f !! spool_path s me)).
Proof.
  unfold save_all. revert s. induction ps as [|p ps IH]; intros s Ha; cbn [foldl omap list_omap].
  { exists (s_files s). split_and!; [by destruct s|by rewrite app_nil_r|done]. }
  rewrite save_files by done. destruct (kept_message p) as [[from body]|]; [|by apply IH].
  set (s1 := set_files _ s). assert (spool_path s1 me = spool_path s me) as Ep by done.
  destruct (IH s1) as (f & -> & Ef & Hf); [done|]. exists f. split; [done|]. rewrite Ep in Ef, Hf.
  unfold s1 in Ef. cbn [s_files set_files] in Ef. rewrite lookup_insert_eq in Ef. cbn [from_option id] in Ef.
  cbn [mbind list_bind fst snd]. split; [by rewrite Ef, <- app_assoc|]. intros _.
  destruct (f !! spool_path s me) as [t|]; [by exists t|]. cbn in Ef. apply (f_equal length) in Ef.
  rewrite spool_line_text, !length_app in Ef. cbn in Ef. lia.
Qed.

(** The messages that are queued for a session, one after the other. *)
Definition deliver_kept s c (me : jid) (ms : list (string * text)) : option sm :=
  foldM (λ s m, pkt_sess s (queued_pkt s me m.1 m.2) c) s ms.

Lemma deliver_lines c me ms s : Forall (λ m, spoolable m.1 m.2) ms →
  foldM (deliver_line c me) s ((λ m, spool_line m.1 m.2) <$> ms) = deliver_kept s c me ms.
Proof.
  intros Hs. revert s. induction Hs as [|[from body] ms Hm _ IH]; intros s; [done|]. rewrite fmap_cons.
  unfold deliver_kept. cbn [foldM fst snd] in *.
  assert (deliver_line c me s (spool_line from body) = pkt_sess s (queued_pkt s me from body) c) as ->
    by (unfold deliver_line; by rewrite read_line_back).
  destruct (pkt_sess _ _ _) as [s1|]; [|done]. cbn [mbind option_bind]. apply IH.
Qed.

(** *** What the session gets *)

Lemma message_name to from : nad_ename (create_nad "message" (Some "chat") (Some to) (Some from)) 1 = tx "message".
Proof. vm_compute. reflexivity. Qed.
Lemma message_no_iq type : has (message_type type) pkt_IQ = false.
Proof. unfold message_type. by repeat case_match. Qed.
Lemma pkt_new_no_iq (xmlns : T Z) n : nad_ename n 1 = tx "message" → post (pkt_new xmlns n) (λ p, has (p_type p) pkt_IQ = false).
Proof.
  intros E. unfold pkt_new, pkt_new_route. rewrite E, (bool_decide_true (tx "message" = tx "message")) by done.
  repeat post_step; cbn [p_type]; try done; [apply message_no_iq|].
  destruct (attr_of n 1 "action"); [|done]. unfold session_type. by repeat case_match.
Qed.
Lemma queued_no_iq s me from body : post (queued_pkt s me from body) (λ q, has (p_type q) pkt_IQ = false).
Proof.
  unfold queued_pkt, create, pkt_create. apply post_bind.
  eapply post_mono; [apply pkt_new_no_iq, message_name|]. intros p Hp. by apply post_ret.
Qed.

(** The document that brings a message to the session. *)
Definition queued_nads s e usr (m : string * text) : list nad :=
  match queued_pkt s (e_jid e) m.1 m.2 with Some q => session_nad s e usr q | None => [] end.

Lemma queued_more acc s me from body : queued_pkt (more_out acc s) me from body = queued_pkt s me from body.
Proof. unfold queued_pkt, create. change (s_xmlns (more_out acc s)) with (s_xmlns s). reflexivity. Qed.
Lemma deliver_kept_out s c e usr ms : get_sess s c = Some e → get_user s (e_user e) = Some usr →
  deliver_kept s c (e_jid e) ms = Some (more_out (ms ≫= queued_nads s e usr) s).
Proof.
  intros He Hu. unfold deliver_kept. rewrite <- (more_out_nil s) at 1.
  enough (∀ acc, foldM (λ s m, pkt_sess s (queued_pkt s (e_jid e) m.1 m.2) c) (more_out acc s) ms =
    Some (more_out (acc ++ (ms ≫= queued_nads s e usr)) s)) as Hx by (by rewrite Hx).
  induction ms as [|m ms IH]; intros acc; cbn [foldM]; [by rewrite app_nil_r|].
  assert (pkt_sess (more_out acc s) (queued_pkt (more_out acc s) (e_jid e) m.1 m.2) c =
    Some (more_out (queued_nads s e usr m) (more_out acc s))) as ->.
  { rewrite queued_more. unfold queued_nads. destruct (queued_pkt s _ _ _) as [q|] eqn:Eq.
    - rewrite (pkt_sess_out (more_out acc s) c e usr q); [done..|]. by apply (queued_no_iq _ _ _ _ _ Eq).
    - by rewrite more_out_nil. }
  cbn [mbind option_bind list_bind]. rewrite more_out_app, IH. by rewrite app_assoc.
Qed.

Lemma queued_files f s e usr m : queued_nads (set_files f s) e usr m = queued_nads s e usr m.
Proof.
  unfold queued_nads, queued_pkt, create, session_nad, address_route. change (s_xmlns (set_files f s)) with (s_xmlns s).
  change (s_conf (set_files f s)) with (s_conf s). reflexivity.
Qed.

(** C29: messages are saved for a user, under a spool path that can be written to and with no spool
    before; their senders have no control characters that the line uses, their bodies no carriage return
    and no NUL, and each line fits the buffer of 64K.  When a presence without a recipient then comes from
    a session with the same name, whose user has no top session and whose priority so far is not negative,
    the session is sent, in the order they were saved, one chat message for each message with a body,
    from its sender and with that body; then the spool is removed, if it can be, and nothing else
    changes. *)
Theorem offline_spool_roundtrip s me ps c e usr p :
  Forall (λ p, ∀ m, kept_message p = Some m → spoolable m.1 m.2) ps →
  env_can_append (spool_path s me) = true → s_files s !! spool_path s me = None → omap kept_message ps ≠ [] →
  get_sess s c = Some e → jid_node (e_jid e) = jid_node me → get_user s (e_user e) = Some usr → u_top usr = None → (0 <= e_pri e)%Z →
  p_type p = pkt_PRESENCE → p_to p = None →
  let f := s_files (save_all s me ps) in
  is_Some (f !! spool_path s me) ∧
  _offline_in_sess c (save_all s me ps) p =
    Some (set_files (if env_can_unlink (spool_path s me) then delete (spool_path s me) f else f)
            (more_out (omap kept_message ps ≫= queued_nads s e usr) s), mod_PASS p).
Proof.
  intros Hps Ha Hnone Hne He Hnode Hu Htop Hpri Hty Hto. destruct (save_all_files s me ps Ha) as (f & -> & Ef & Hf).
  destruct (Hf Hne) as [t Ht]. rewrite Ht, Hnone in Ef. cbn in Ef. subst t.
  cbn [s_files set_files] in *. split; [by eexists|].
  assert (get_sess (set_files f s) c = Some e) as He' by done. assert (get_user (set_files f s) (e_user e) = Some usr) as Hu' by done.
  unfold _offline_in_sess. rewrite He'. cbn [mbind option_bind]. rewrite Hu'. cbn [mbind option_bind].
  rewrite Hty, Hto, Htop. rewrite !bool_decide_true by done. destruct (Z.leb_spec 0 (e_pri e)); [|lia].
  change (pkt_PRESENCE =? pkt_PRESENCE)%Z with true. cbn [andb].
  unfold _offline_deliver_from_file. rewrite He'. cbn [mbind option_bind].
  assert (spool_path (set_files f s) (e_jid e) = spool_path s me) as -> by (unfold spool_path; cbn; by rewrite Hnode).
  cbn [s_files set_files]. rewrite Ht.
  assert (Forall (λ m, spoolable m.1 m.2) (omap kept_message ps)) as Hs.
  { apply Forall_forall. intros m (q & Hq & Hm)%list_elem_of_omap. rewrite Forall_forall in Hps. by apply (Hps q). }
  unfold fgets_lines. rewrite fgets_lines_spool, deliver_lines by done.
  rewrite (deliver_kept_out _ c e usr) by done. cbn [mbind option_bind].
  rewrite (list_bind_ext _ (queued_nads s e usr) _ (omap kept_message ps)); [|intros; apply queued_files|done].
  generalize (omap kept_message ps ≫= queued_nads s e usr). intros out. by destruct (env_can_unlink _).
Qed.
End spool.

(** ** An example *)

#[local] Existing Instance ex_env.

(** Two messages; the second has two lines and a backslash. *)
Definition ex_kept : list pkt :=
  [ex_pkt (ex_message "ann@example.com" "eve@other.org" "hi");
   ex_pkt (ex_message "ann@example.com" "bob@other.org" ("a\b" +:+ String newline "c"))].
Definition ex_me : jid := default jid_static (new_jid "ann@example.com").

Definition spoolableb (m : string * text) : bool :=
  forallb (λ c, negb (Ascii.eqb c carriage_return) && negb (Ascii.eqb c nul)) m.2 &&
  forallb (λ c, negb (Ascii.eqb c tab) && negb (Ascii.eqb c newline) && negb (Ascii.eqb c carriage_return) && negb (Ascii.eqb c nul)) (tx m.1) &&
  (Z.of_nat (length (spool_line m.1 m.2)) <? 65536)%Z.
Lemma spoolableb_ok m : spoolableb m = true → spoolable m.1 m.2.
Proof.
  unfold spoolableb. intros [[Hb Hf]%andb_true_iff Hl]%andb_true_iff. rewrite forallb_forall in Hb, Hf. split.
  - apply Forall_forall. intros c Hc%list_elem_of_In. apply Hb, andb_true_iff in Hc as [H1 H2].
    by split; intros ->.
  - apply Forall_forall. intros c Hc%list_elem_of_In. apply Hf in Hc.
    apply andb_true_iff in Hc as [[[H1 H2]%andb_true_iff H3]%andb_true_iff H4]. by split_and!; intros ->.
  - apply Z.ltb_lt in Hl. change OFFLINE_LINE_MAX with (Z.to_nat 65536). lia.
Qed.

Lemma spoolable_all ps : forallb (λ p, match kept_message p with Some m => spoolableb m | None => true end) ps = true →
  Forall (λ p, ∀ m, kept_message p = Some m → spoolable m.1 m.2) ps.
Proof.
  rewrite forallb_forall. intros Hps. apply Forall_forall. intros p Hp%list_elem_of_In m Hm. apply Hps in Hp.
  rewrite Hm in Hp. by apply spoolableb_ok.
Qed.

(** The sessions of ann are there, but not available yet; then comes her presence. *)
Definition ex_late : sm (T := alist) := ex_state 4.
Definition ex_late_sess : sess := default ex_sess (get_sess ex_late 1).
Definition ex_late_user : user (T := alist) := default ex_user (get_user ex_late 0).
Definition ex_available : pkt := ex_pkt (ex_presence "1" ex_id1 "5").

Lemma delivered_view (s : sm (T := alist)) f path l x r : env_can_unlink path = true →
  r = Some (set_files (if env_can_unlink path then delete path f else f) (more_out l s), x) →
  (λ y : sm (T := alist) * mod_ret, (s_out y.1, s_files y.1 !! path)) <$> r = Some (s_out s ++ l, None).
Proof. intros -> ->. cbn. by rewrite lookup_delete_eq. Qed.

Lemma offline_spool_roundtrip_witness :
  omap kept_message ex_kept = [("eve@other.org", tx "hi"); ("bob@other.org", tx ("a\b" +:+ String newline "c"))] ∧
  length (omap kept_message ex_kept ≫= queued_nads ex_late ex_late_sess ex_late_user) = 2 ∧
  (λ r : sm (T := alist) * mod_ret, (s_out r.1, s_files r.1 !! spool_path ex_late ex_me)) <$>
      _offline_in_sess 1 (save_all ex_late ex_me ex_kept) ex_available =
    Some (s_out ex_late ++ (omap kept_message ex_kept ≫= queued_nads ex_late ex_late_sess ex_late_user), None).
Proof.
  split; [vm_compute; reflexivity|]. split; [vm_compute; reflexivity|].
  eapply delivered_view; [|apply (offline_spool_roundtrip ex_late ex_me ex_kept 1 ex_late_sess ex_late_user ex_available)].
  - vm_compute. reflexivity.
  - apply spoolable_all. vm_compute. reflexivity.
  - vm_compute. reflexivity.
  - vm_compute. reflexivity.
  - vm_compute. discriminate.
  - vm_compute. reflexivity.
  - vm_compute. reflexivity.
  - vm_compute. reflexivity.
  - vm_compute. reflexivity.
  - vm_compute. discriminate.
  - vm_compute. reflexivity.
  - vm_compute. reflexivity.
Defined.

(** ** The roster that is read

    The contacts of a user's roster are those that the lines of the file name:
    [roster_load_contacts]. *)

(** The login of a line that is a contact. *)
Definition contact_of (line : text) : option string :=
  let p := (count_indent 0 (chomp line)).2 in
  if bool_decide (p = "") then None
  else '(login, _) ← split_at tab p; if bool_decide (login = "") then None else Some login.

Section roster.
Context {T : Type → Type} `{TableLaws T} `{EnvLaws}.
Implicit Types (r : T item) (k login : string) (me : jid).

(** The jid of a contact who is not the user. *)
Definition contact_jid me login : option jid :=
  j ← new_jid (snprintf 3072 (login +:+ "@" +:+ jid_domain me));
  match same_user j me with Some false => Some j | _ => None end.

(** What an item of the roster is. *)
Definition item_ok me k (it : item) : Prop :=
  k = jfull (it_jid it) ∧ it_ver it = 0%Z ∧ length (it_groups it) ≤ 1 ∧
  ∃ login, it_name it = Some login ∧ contact_jid me login = Some (it_jid it).

Definition loaded_from me (logins : list string) r : Prop :=
  tok r ∧ (∀ k it, tmap r !! k = Some it → item_ok me k it) ∧
  ∀ k, is_Some (tmap r !! k) ↔ ∃ login j, login ∈ logins ∧ contact_jid me login = Some j ∧ jfull j = k.

(** The full name of a jid that has a name is a key. *)
Lemma fresh_full j k : fresh_jid j → juser j = Some k → good_key (jfull j).
Proof.
  intros (n & d & rs & buf & -> & Hn & Hd & Hr). unfold jfull, juser, jid_full, jid_user, jid_expand. cbn.
  case_bool_decide as Ed; [done|]. cbn. intros _. unfold full_str, user_str. rewrite !strlen_0.
  assert (∀ a b c, no_nul a → no_nul b → c ≠ nul → no_nul (a +:+ String c b)) as Hcat.
  { intros a b c Ha Hb Hc. rewrite no_nul_app. apply andb_True. split; [done|].
    apply Is_true_true, no_nul_cons. split; [done|by apply Is_true_true]. }
  destruct n as [|a n], rs as [|b rs]; cbn [bool_decide decide_rel]; repeat case_bool_decide; split; auto; by destruct d.
Qed.

Lemma contact_key me login j : contact_jid me login = Some j → good_key (jfull j).
Proof.
  unfold contact_jid. intros (j' & Hj & E)%bind_Some. destruct (same_user j' me) as [[]|] eqn:Es; try done.
  injection E as ->. unfold same_user in Es. apply bind_Some in Es as (z & Ez & _).
  destruct (juser j) as [k|] eqn:Ek; [by eapply fresh_full; [eapply new_jid_fresh|]|].
  unfold juser, jid_user in Ek. cbn in Ek. unfold jid_compare_user in Ez. cbn in Ez. by rewrite Ek in Ez.
Qed.

Lemma load_contact_ok me stack login logins r :
  loaded_from me logins r → post (load_contact me stack login r) (loaded_from me (logins ++ [login])).
Proof.
  intros (Ht & Hit & Hk). unfold load_contact.
  assert (contact_jid me login = None → loaded_from me (logins ++ [login]) r) as Hskip.
  { intros En. split_and!; [done..|]. intros k. rewrite Hk. split.
    - intros (l & j & Hl & ?). exists l, j. split; [apply elem_of_app; by left|done].
    - intros (l & j & [Hl| ->%list_elem_of_singleton]%elem_of_app & Ej & ?); [by exists l, j|congruence]. }
  unfold contact_jid in Hskip. destruct (new_jid _) as [j|] eqn:Ej; [|by apply post_ret, Hskip].
  apply post_bind. intros self Es. destruct self; [apply post_ret, Hskip; change (match same_user j me with Some false => Some j | _ => None end = None); by rewrite Es|].
  assert (contact_jid me login = Some j) as Ec by (unfold contact_jid; rewrite Ej; change (match same_user j me with Some false => Some j | _ => None end = Some j); by rewrite Es).
  pose proof (contact_key me login j Ec) as Hg. clear Hskip.
  destruct (tget r (jfull j)) as [it|] eqn:Eg.
  - apply post_ret. rewrite tget_ok in Eg by done. split_and!; [done..|]. intros k. rewrite Hk. split.
    + intros (l & j' & Hl & ?). exists l, j'. split; [apply elem_of_app; by left|done].
    + intros (l & j' & [Hl| ->%list_elem_of_singleton]%elem_of_app & Ej' & <-); [by exists l, j'|].
      rewrite Ec in Ej'. injection Ej' as <-. apply Hk. by exists it.
  - apply post_bind. intros path _. apply post_ret. destruct (tput_ok r (jfull j) (Item j (Some login)
      (if bool_decide (path = "") then [] else [path]) 0) Ht) as [Ht' Em]; [by apply Hg|].
    split_and!; [done| |].
    + intros k it. rewrite Em. intros [[<- <-]|[_ ?]]%lookup_insert_Some; [|by apply Hit].
      split_and!; [done..|by case_bool_decide; cbn; lia|]. by exists login.
    + intros k. rewrite Em, lookup_insert_is_Some, Hk. split.
      * intros [<-|[_ (l & j' & Hl & ?)]]; [exists login, j; split; [apply elem_of_app; right; by left|done]|].
        exists l, j'. split; [apply elem_of_app; by left|done].
      * intros (l & j' & [Hl| ->%list_elem_of_singleton]%elem_of_app & Ej' & <-).
        -- destruct (decide (jfull j = jfull j')); [by left|right]. split; [done|]. by exists l, j'.
        -- rewrite Ec in Ej'. injection Ej' as <-. by left.
Qed.

Lemma load_line_ok me logins stack r line : loaded_from me logins r →
  post (load_line me (stack, r) line) (λ st, loaded_from me (logins ++ option_list (contact_of line)) st.2).
Proof.
  intros Hr. unfold load_line, contact_of. destruct (count_indent 0 (chomp line)) as [indent p]. cbn [snd].
  case_bool_decide; [apply post_ret; cbn [option_list]; by rewrite app_nil_r|].
  destruct (split_at tab p) as [[login rest]|]; cbn [mbind option_bind]; [|apply post_ret; cbn [option_list]; by rewrite app_nil_r].
  case_bool_decide; [apply post_ret; cbn [option_list]; by rewrite app_nil_r|].
  apply post_bind. eapply post_mono; [by apply load_contact_ok|]. intros r' Hr'. by apply post_ret.
Qed.

Lemma load_lines_ok me lines logins stack r : loaded_from me logins r →
  post (load_lines me (stack, r) lines) (λ st, loaded_from me (logins ++ omap contact_of lines) st.2).
Proof.
  revert logins stack r. induction lines as [|line lines IH]; intros logins stack r Hr; cbn [load_lines].
  { apply post_ret. cbn. by rewrite app_nil_r. }
  apply post_bind. eapply post_mono; [by apply load_line_ok|]. intros [stack' r'] Hr'. cbn [snd] in Hr'.
  eapply post_mono; [by apply IH|]. intros st Hst. cbn [omap list_omap].
  destruct (contact_of line); cbn [option_list] in Hst; rewrite <- app_assoc in Hst; exact Hst.
Qed.

(** C33: the roster that is read from the file of all users has exactly the contacts that its lines name:
    a key is in it when some line is the login of a contact, not nested under the tab that ends it, whose
    jid at the user's domain is valid, is not the user's own and has that full name; the item of a key
    has that jid and the login as its name, one group at most and version 0. *)
Theorem roster_load_contacts me file r :
  jid_domain me ≠ "" → _roster_load_from_file me (Some file) (tnew 101) = Some r →
  (∀ k, is_Some (tmap r !! k) ↔
     ∃ login j, login ∈ omap contact_of (fgets_lines ROSTER_LINE_LEN file) ∧ contact_jid me login = Some j ∧ jfull j = k) ∧
  ∀ k it, tmap r !! k = Some it → item_ok me k it.
Proof.
  intros Hd E. unfold _roster_load_from_file in E. rewrite bool_decide_false in E by done.
  destruct (tnew_ok (T := T) (V := item) 101) as [Ht Em]; [lia|].
  assert (loaded_from me [] (tnew 101)) as H0'.
  { split_and!; [done|..]; intros k; rewrite Em; [done|]. rewrite lookup_empty. split; [by intros [? ?]|].
    by intros (? & ? & ?%not_elem_of_nil & _). }
  pose proof (load_lines_ok me (fgets_lines ROSTER_LINE_LEN file) [] [] (tnew 101) H0') as Hl.
  destruct (load_lines _ _ _) as [[stack r']|]; [|done]. cbn in E. injection E as <-.
  by destruct (Hl _ eq_refl) as (_ & Hit & Hk).
Qed.
End roster.

#[local] Existing Instance ex_env.
#[local] Existing Instance ex_laws.

(** For ann, the lines of ann and bob give bob. *)
Lemma roster_load_contacts_witness :
  let me := default jid_static (new_jid "ann@example.com") in
  let r := default (tnew 101) (_roster_load_from_file me (ex_files !! "/users") (tnew 101)) in
  omap contact_of (fgets_lines ROSTER_LINE_LEN (default [] (ex_files !! "/users"))) = ["ann"; "bob"] ∧
  (twalk (T := alist) r).*1 = ["bob@example.com"] ∧ is_Some (tmap r !! "bob@example.com").
Proof.
  intros me r. split; [vm_compute; reflexivity|]. split; [vm_compute; reflexivity|].
  destruct (roster_load_contacts (T := alist) me (default [] (ex_files !! "/users")) r) as [Hk _].
  - vm_compute. discriminate.
  - vm_compute. reflexivity.
  - apply Hk. exists "bob", (default jid_static (new_jid "bob@example.com")). split_and!.
    + apply (bool_decide_eq_true_1 _). vm_compute. reflexivity.
    + vm_compute. reflexivity.
    + vm_compute. reflexivity.
Defined.
