(* ===== verification/Broadcast.v ===== *)
(** * Who is told of a session's presence

    [pres_available] and [pres_unavailable] against the lists of what they are
    to send: [available_plan] and [unavailable_plan]. *)
From S2P Require Import Prelude.
From S2P Require Import CStr.
From S2P Require Import DList.
From S2P Require Import Codec.
From S2P Require Import Jid.
From S2P Require Import Nad.
From S2P Require Import Table.
From S2P Require Import Alist.
From S2P Require Import Stanza.
From S2P Require Import Datetime.
From S2P Require Import Lines.
From S2P Require Import Pkt.
From S2P Require Import Sm.
From S2P Require Import Pres.
From S2P Require Import Roster.
From S2P Require Import Offline.
From S2P Require Import SmMods.
From S2P Require Import Mm.
From S2P Require Import SmInv.
From S2P Require Import SmTop.
From S2P Require Import SmRun.
From S2P Require Import SmSpec.

(** What is sent: a probe, or the presence itself. *)
Inductive send := Probe (to : option string) | Forward (to : string).

Section broadcast.
Context {T : Type → Type} `{Table T} `{Env}.
Notation sm := (sm (T := T)).
Notation user := (user (T := T)).
Implicit Types (s : sm) (c u : loc) (p : pkt) (e : sess) (usr : user).

(** ** One document *)

(** What [pkt_router] writes; [None]: the document cannot be stripped. *)
Definition routed s p : option (list nad) :=
  match to ← p_to p; address_route s (jid_domain to) p with
  | None => Some []
  | Some q => n ← strip_session (p_nad q); Some [n]
  end.
Definition send_out s e p (x : send) : option (list nad) :=
  match x with
  | Probe to => match create s "presence" (Some "probe") to (juser (e_jid e)) with Some q => routed s q | None => Some [] end
  | Forward to => q ← pkt_dup p (Some to) (Some (jfull (e_jid e))); routed s q
  end.

Lemma pkt_router_out s p : pkt_router s (Some p) = l ← routed s p; Some (more_out l s).
Proof.
  unfold pkt_router, routed. cbn [pkt_router_n]. destruct (to ← p_to p; _) as [q|]; [|by rewrite <- (more_out_nil s) at 1].
  rewrite mm_out_router_pass. cbn [mbind option_bind]. by destruct (strip_session _).
Qed.
Lemma send_dup_out s e p to : send_dup s (Some p) to (jfull (e_jid e)) = l ← send_out s e p (Forward to); Some (more_out l s).
Proof. unfold send_dup, send_out. destruct (pkt_dup _ _ _) as [q|]; [|done]. cbn [mbind option_bind]. apply pkt_router_out. Qed.
Lemma probe_out s e p to : send_presence s (Some "probe") to (juser (e_jid e)) = l ← send_out s e p (Probe to); Some (more_out l s).
Proof.
  unfold send_presence, send_out. destruct (create _ _ _ _ _) as [q|]; [apply pkt_router_out|].
  cbn [mbind option_bind]. by rewrite more_out_nil.
Qed.

(** ** A list of them *)

Fixpoint run_plan s e p (l : list send) : option (list nad) :=
  match l with [] => Some [] | x :: l => a ← send_out s e p x; b ← run_plan s e p l; Some (a ++ b) end.

Lemma run_plan_app s e p l l' : run_plan s e p (l ++ l') = a ← run_plan s e p l; b ← run_plan s e p l'; Some (a ++ b).
Proof.
  induction l as [|x l IH]; cbn [run_plan app mbind option_bind]; [by destruct (run_plan _ _ _ l')|].
  destruct (send_out _ _ _ _) as [a|]; [|done]. cbn [mbind option_bind]. rewrite IH.
  destruct (run_plan s e p l) as [b|]; [|done]. cbn [mbind option_bind].
  destruct (run_plan s e p l'); [|done]. cbn [mbind option_bind]. by rewrite app_assoc.
Qed.

(** The plan does not see what is written, nor the heap. *)
Lemma send_out_ext s s' e p x : s_conf s' = s_conf s → s_xmlns s' = s_xmlns s → send_out s' e p x = send_out s e p x.
Proof. intros Hc Hx. unfold send_out, routed, create, address_route. by rewrite Hc, Hx. Qed.
Lemma send_out_more acc s e p x : send_out (more_out acc s) e p x = send_out s e p x.
Proof. by apply send_out_ext. Qed.
Lemma run_plan_ext s s' e p l : s_conf s' = s_conf s → s_xmlns s' = s_xmlns s → run_plan s' e p l = run_plan s e p l.
Proof.
  intros Hc Hx. induction l as [|x l IH]; [done|]. cbn [run_plan]. by rewrite IH, (send_out_ext s s').
Qed.

(** Steps that each write what their part of the plan says. *)
Lemma foldM_plan {A} (f : sm → A → option sm) (g : A → list send) s e p l :
  (∀ acc a, a ∈ l → f (more_out acc s) a = ls ← run_plan s e p (g a); Some (more_out ls (more_out acc s))) →
  ∀ acc, foldM f (more_out acc s) l = ls ← run_plan s e p (l ≫= g); Some (more_out ls (more_out acc s)).
Proof.
  induction l as [|a l IH]; intros Hf acc; cbn [foldM].
  { change ([] ≫= g) with (@nil send). cbn [run_plan mbind option_bind]. by rewrite more_out_nil. }
  rewrite bind_cons, run_plan_app, Hf by (by left).
  destruct (run_plan s e p (g a)) as [la|]; [|done]. cbn [mbind option_bind]. rewrite more_out_app, IH by (intros; apply Hf; by right).
  destruct (run_plan s e p (l ≫= g)) as [lb|]; [|done]. cbn [mbind option_bind]. by rewrite !more_out_app, app_assoc.
Qed.

Lemma run_one s e p x : run_plan s e p [x] = send_out s e p x.
Proof. cbn [run_plan]. destruct (send_out s e p x); [|done]. cbn [mbind option_bind]. by rewrite app_nil_r. Qed.

(** ** The plans *)

Definition own_plan s c usr : list send :=
  u_sessions usr ≫= λ c', if bool_decide (c' = c) then []
    else match get_sess s c' with Some e' => if e_available e' then [Forward (jfull (e_jid e'))] else [] | None => [] end.
Definition forward_item e (it : item) : list send :=
  if in_list (e_E e) (it_jid it) then [] else [Forward (jfull (it_jid it))].
Definition item_plan e (it : item) : list send :=
  (if e_available e then [] else [Probe (Some (jfull (it_jid it)))]) ++ forward_item e it.
Definition items_of usr : list item := match u_roster usr with Some r => (titer r).2.*2 | None => [] end.
Definition self_plan (us : string) e (items : list item) : list send :=
  if negb (existsb (λ it, bool_decide (us = jfull (it_jid it))) items) && negb (e_available e) then [Probe (Some us)] else [].

(** Available: a session that was not probes the roster and itself; the
    roster, but for those who bounced it, and the user's own sessions are told. *)
Definition available_plan s c e (us : string) usr : list send :=
  (items_of usr ≫= item_plan e) ++ self_plan us e (items_of usr) ++ own_plan s c usr.

(** The iterator of the roster moves. *)
Definition iterated usr : user :=
  match u_roster usr with Some r => with_roster (Some (titer r).1) usr | None => usr end.

(** Unavailable: the roster, but for those who bounced it, those who got
    directed presence and are not trusted, and the user's own sessions. *)
Definition unavailable_plan s c e usr : list send :=
  (items_of usr ≫= forward_item e) ++
  (e_A e ≫= λ j, match pres_trust (iterated usr) j with Some true => [] | _ => [Forward (jfull j)] end) ++
  own_plan s c usr.

Definition roster_moved s u usr : sm :=
  match u_roster usr with Some r => upd_user u (with_roster (Some (titer r).1)) s | None => s end.

Lemma roster_items_eq s u usr : get_user s u = Some usr → roster_items s u = Some (roster_moved s u usr, items_of usr).
Proof.
  intros Hu. unfold roster_items, roster_moved, items_of. rewrite Hu. cbn [mbind option_bind].
  destruct (u_roster usr) as [r|]; [|done]. by destruct (titer r).
Qed.
Lemma roster_moved_user s u usr : get_user s u = Some usr → get_user (roster_moved s u usr) u = Some (iterated usr).
Proof.
  intros Hu. unfold roster_moved, iterated. destruct (u_roster usr); [|done].
  unfold get_user in *. rewrite upd_user_lookup, decide_True by done. by rewrite Hu.
Qed.

Lemma available_items_out e p us l s : juser (e_jid e) = Some us → ∀ self acc,
  available_items e p (self, more_out acc s) l = ls ← run_plan s e p (l ≫= item_plan e);
    Some (self || (negb (e_available e) && existsb (λ it, bool_decide (us = jfull (it_jid it))) l), more_out ls (more_out acc s)).
Proof.
  intros Hus. induction l as [|it l IH]; intros self acc; cbn [available_items].
  { change ([] ≫= item_plan e) with (@nil send). cbn [run_plan mbind option_bind existsb].
    by rewrite andb_false_r, orb_false_r, more_out_nil. }
  rewrite bind_cons, run_plan_app.
  assert (available_item e p (self, more_out acc s) it = ls ← run_plan s e p (item_plan e it);
    Some (self || (negb (e_available e) && bool_decide (us = jfull (it_jid it))), more_out ls (more_out acc s))) as ->.
  { unfold available_item, item_plan. rewrite run_plan_app.
    assert (∀ acc, (if in_list (e_E e) (it_jid it) then Some (more_out acc s)
        else send_dup (more_out acc s) (Some p) (jfull (it_jid it)) (jfull (e_jid e))) =
      ls ← run_plan s e p (forward_item e it); Some (more_out ls (more_out acc s))) as Hfw.
    { intros a. unfold forward_item. destruct (in_list _ _); [by cbn [run_plan mbind option_bind]; rewrite more_out_nil|].
      by rewrite run_one, (send_dup_out (more_out a s)), send_out_more. }
    destruct (e_available e); cbn [negb andb].
    - cbn [run_plan mbind option_bind]. rewrite Hfw, orb_false_r. by destruct (run_plan s e p (forward_item e it)).
    - rewrite Hus, <- Hus, run_one, (probe_out (more_out acc s) e p).
      rewrite send_out_more. destruct (send_out s e p _) as [la|]; [|done]. cbn [mbind option_bind]. rewrite Hus. cbn [mbind option_bind].
      rewrite more_out_app, Hfw. destruct (run_plan s e p (forward_item e it)); [|done]. cbn [mbind option_bind].
      by rewrite !more_out_app, app_assoc. }
  destruct (run_plan s e p (item_plan e it)) as [la|]; [|done]. cbn [mbind option_bind]. rewrite more_out_app, IH.
  destruct (run_plan s e p (l ≫= item_plan e)) as [lb|]; [|done]. cbn [mbind option_bind existsb].
  by rewrite !more_out_app, app_assoc, andb_orb_distrib_r, orb_assoc.
Qed.

(** ** The two operations *)

(** The roster has been walked, and the cached presence replaced. *)
Definition prepared s c e (pres : option pkt) usr : sm := roster_moved (upd_sess c (with_pres pres) s) (e_user e) usr.

Lemma prepared_conf s c e pres usr : s_conf (prepared s c e pres usr) = s_conf s ∧ s_xmlns (prepared s c e pres usr) = s_xmlns s ∧
  s_asked_time (prepared s c e pres usr) = s_asked_time s.
Proof. unfold prepared, roster_moved. by destruct (u_roster usr). Qed.
Lemma prepared_sess s c e pres usr c' : c' ≠ c → get_sess (prepared s c e pres usr) c' = get_sess s c'.
Proof.
  intros Hne. assert (get_sess (prepared s c e pres usr) c' = get_sess (upd_sess c (with_pres pres) s) c') as ->.
  { unfold prepared, roster_moved. by destruct (u_roster usr). }
  unfold get_sess. by rewrite upd_sess_lookup, decide_False.
Qed.
Lemma prepared_user s c e pres usr : get_user s (e_user e) = Some usr → get_user (prepared s c e pres usr) (e_user e) = Some (iterated usr).
Proof. intros Hu. by apply roster_moved_user. Qed.
Lemma iterated_sessions usr : u_sessions (iterated usr) = u_sessions usr.
Proof. unfold iterated. by destruct (u_roster usr). Qed.
Lemma prepared_plan s c e pres usr p l : run_plan (prepared s c e pres usr) e p l = run_plan s e p l.
Proof. apply run_plan_ext; apply prepared_conf. Qed.

Lemma own_sessions_out s c e p pres usr acc : Forall (λ c', is_Some (get_sess s c')) (u_sessions usr) →
  foldM (own_session c e p) (more_out acc (prepared s c e pres usr)) (u_sessions usr) =
    ls ← run_plan s e p (own_plan s c usr); Some (more_out ls (more_out acc (prepared s c e pres usr))).
Proof.
  intros Hl. rewrite <- (prepared_plan s c e pres usr). apply foldM_plan. intros acc' c' Hc'. unfold own_session.
  case_bool_decide as Ec; [by cbn [run_plan mbind option_bind]; rewrite more_out_nil|].
  change (get_sess (more_out acc' (prepared s c e pres usr)) c') with (get_sess (prepared s c e pres usr) c').
  rewrite prepared_sess by done. rewrite Forall_forall in Hl. destruct (Hl c' Hc') as [e' ->]. cbn [mbind option_bind].
  destruct (e_available e'); [|by cbn [run_plan mbind option_bind]; rewrite more_out_nil].
  by rewrite run_one, (send_dup_out _ e), send_out_more.
Qed.

(** C28: a session that says it is available sends what the plan says and nothing else, in its order: when
    it was not available before, a probe to each contact of the roster and to the user himself unless he
    is one of them; its presence to each contact that has not bounced it; and its presence to each other
    available session of the user.  Then it is available with the priority of the packet, and keeps the
    packet, stamped with the time.  It returns if each document that is sent can be built. *)
Theorem available_broadcast s c p e usr us from :
  get_sess s c = Some e → get_user s (e_user e) = Some usr → Forall (λ c', is_Some (get_sess s c')) (u_sessions usr) →
  juser (e_jid e) = Some us → p_from p = Some from →
  pres_available s c p =
    ls ← run_plan s e p (available_plan s c e us usr);
    Some (upd_sess c (λ e, with_pres (Some (pkt_delay p (env_time (s_asked_time s)) (Some (jfull from))))
                             (with_pri (p_pri p) (with_available true e)))
            (set_asked_time (S (s_asked_time s)) (more_out ls (prepared s c e (Some p) usr)))).
Proof.
  intros He Hu Hl Hus Hf. unfold pres_available, available_plan. rewrite He. cbn [mbind option_bind].
  rewrite (roster_items_eq _ _ usr) by done. fold (prepared s c e (Some p) usr). cbn [mbind option_bind].
  rewrite <- (more_out_nil (prepared s c e (Some p) usr)) at 1.
  rewrite (available_items_out e p us) by done. rewrite prepared_plan, !run_plan_app.
  destruct (run_plan s e p (items_of usr ≫= item_plan e)) as [la|]; [|done]. cbn [mbind option_bind].
  rewrite more_out_app, app_nil_l.
  assert ((if negb (false || negb (e_available e) && existsb (λ it, bool_decide (us = jfull (it_jid it))) (items_of usr)) && negb (e_available e)
    then send_presence (more_out la (prepared s c e (Some p) usr)) (Some "probe") (juser (e_jid e)) (juser (e_jid e))
    else Some (more_out la (prepared s c e (Some p) usr))) =
    ls ← run_plan s e p (self_plan us e (items_of usr)); Some (more_out ls (more_out la (prepared s c e (Some p) usr)))) as ->.
  { unfold self_plan. destruct (e_available e); cbn [negb andb orb]; rewrite ?andb_false_r;
      [by cbn [run_plan mbind option_bind]; rewrite more_out_nil|].
    destruct (existsb _ _); cbn [negb andb]; [by cbn [run_plan mbind option_bind]; rewrite more_out_nil|].
    rewrite (probe_out _ e p), run_one, send_out_more, Hus.
    by rewrite (send_out_ext s) by apply prepared_conf. }
  destruct (run_plan s e p (self_plan us e (items_of usr))) as [lb|]; [|done]. cbn [mbind option_bind].
  rewrite more_out_app.
  change (get_user (more_out (la ++ lb) (prepared s c e (Some p) usr)) (e_user e)) with (get_user (prepared s c e (Some p) usr) (e_user e)).
  rewrite prepared_user by done. cbn [mbind option_bind]. rewrite iterated_sessions, own_sessions_out by done.
  destruct (run_plan s e p (own_plan s c usr)) as [lc|]; [|done]. cbn [mbind option_bind]. rewrite Hf. cbn [mbind option_bind].
  unfold ask_time. cbn [s_asked_time more_out set_out]. destruct (prepared_conf s c e (Some p) usr) as (_ & _ & ->).
  by rewrite more_out_app, app_assoc.
Qed.

Lemma unavailable_jids_out s c e p usr l acc : Forall (λ j, is_Some (pres_trust (iterated usr) j)) l →
  get_user s (e_user e) = Some usr →
  foldM (unavailable_jid e p) (more_out acc (prepared s c e None usr)) l =
    ls ← run_plan s e p (l ≫= λ j, match pres_trust (iterated usr) j with Some true => [] | _ => [Forward (jfull j)] end);
    Some (more_out ls (more_out acc (prepared s c e None usr))).
Proof.
  intros Hl Hu. rewrite <- (prepared_plan s c e None usr). apply foldM_plan. intros acc' j Hj. unfold unavailable_jid.
  change (get_user (more_out acc' (prepared s c e None usr)) (e_user e)) with (get_user (prepared s c e None usr) (e_user e)).
  rewrite prepared_user by done. cbn [mbind option_bind]. rewrite Forall_forall in Hl. destruct (Hl j Hj) as [b ->].
  cbn [mbind option_bind]. destruct b; [by cbn [run_plan mbind option_bind]; rewrite more_out_nil|].
  by rewrite run_one, (send_dup_out _ e), send_out_more.
Qed.

(** A session that says it is not available sends what the plan says and nothing else, in its order:
    to each contact of the roster that has not bounced it, to each jid that it sent directed presence to
    and that is not trusted, and to each other available session of the user.  Then it is not available
    and has forgotten both lists and the packet.  It returns if each document that is sent can be built
    and the trust of the jids can be told. *)
Theorem unavailable_broadcast s c p e usr :
  get_sess s c = Some e → get_user s (e_user e) = Some usr → Forall (λ c', is_Some (get_sess s c')) (u_sessions usr) →
  Forall (λ j, is_Some (pres_trust (iterated usr) j)) (e_A e) →
  pres_unavailable s c p =
    ls ← run_plan s e p (unavailable_plan s c e usr);
    Some (upd_sess c (λ e, with_available false (with_E [] (with_A [] e))) (more_out ls (prepared s c e None usr))).
Proof.
  intros He Hu Hl Ha. unfold pres_unavailable, unavailable_plan. rewrite He. cbn [mbind option_bind].
  rewrite (roster_items_eq _ _ usr) by done. fold (prepared s c e None usr). cbn [mbind option_bind].
  rewrite <- (more_out_nil (prepared s c e None usr)) at 1.
  rewrite (foldM_plan _ (forward_item e) (prepared s c e None usr) e p).
  2: { intros acc it _. unfold unavailable_item, forward_item.
    destruct (in_list _ _); [by cbn [run_plan mbind option_bind]; rewrite more_out_nil|].
    by rewrite run_one, (send_dup_out _ e), send_out_more. }
  rewrite prepared_plan, !run_plan_app.
  destruct (run_plan s e p (items_of usr ≫= forward_item e)) as [la|]; [|done]. cbn [mbind option_bind].
  rewrite more_out_app, app_nil_l, unavailable_jids_out by done.
  destruct (run_plan s e p (e_A e ≫= _)) as [lb|]; [|done]. cbn [mbind option_bind]. rewrite more_out_app.
  change (get_user (more_out (la ++ lb) (prepared s c e None usr)) (e_user e)) with (get_user (prepared s c e None usr) (e_user e)).
  rewrite prepared_user by done. cbn [mbind option_bind]. rewrite iterated_sessions, own_sessions_out by done.
  destruct (run_plan s e p (own_plan s c usr)) as [lc|]; [|done]. cbn [mbind option_bind].
  by rewrite more_out_app, app_assoc.
Qed.
End broadcast.


(** ** Examples *)

#[local] Existing Instance ex_env.
#[local] Existing Instance ex_laws.

Definition ex_sess_at (k : nat) (c : loc) : sess :=
  default (Sess 0 jid_static "" "" "" None false 0 [] []) (get_sess (ex_state k) c).
Definition ex_user_at (k : nat) : user (T := alist) := default (User jid_static None [] None false) (get_user (ex_state k) 0).
(** The presence of the first session as mod_presence gives it on. *)
Definition ex_pres : pkt := with_from (Some (e_jid (ex_sess_at 4 1))) (ex_pkt (ex_presence "1" ex_id1 "5")).

(** The first session becomes available: bob is probed and told, ann is probed. *)
Lemma available_broadcast_witness :
  available_plan (ex_state 4) 1 (ex_sess_at 4 1) "ann@example.com" (ex_user_at 4) =
    [Probe (Some "bob@example.com"); Forward "bob@example.com"; Probe (Some "ann@example.com")] ∧
  match pres_available (ex_state 4) 1 ex_pres with Some s => length (s_out s) | None => 0 end = 3 + length (s_out (ex_state 4)).
Proof.
  split; [vm_compute; reflexivity|].
  rewrite (available_broadcast (ex_state 4) 1 ex_pres (ex_sess_at 4 1) (ex_user_at 4) "ann@example.com" (e_jid (ex_sess_at 4 1))).
  - vm_compute. reflexivity.
  - vm_compute. reflexivity.
  - vm_compute. reflexivity.
  - apply (bool_decide_eq_true_1 _). vm_compute. reflexivity.
  - vm_compute. reflexivity.
  - reflexivity.
Defined.

(** Both are available, the first one goes: bob and the second are told. *)
Lemma unavailable_broadcast_witness :
  unavailable_plan (ex_state 6) 1 (ex_sess_at 6 1) (ex_user_at 6) = [Forward "bob@example.com"; Forward "ann@example.com/work"] ∧
  match pres_unavailable (ex_state 6) 1 ex_pres with Some s => length (s_out s) | None => 0 end = 2 + length (s_out (ex_state 6)).
Proof.
  split; [vm_compute; reflexivity|].
  rewrite (unavailable_broadcast (ex_state 6) 1 ex_pres (ex_sess_at 6 1) (ex_user_at 6)).
  - vm_compute. reflexivity.
  - vm_compute. reflexivity.
  - vm_compute. reflexivity.
  - apply (bool_decide_eq_true_1 _). vm_compute. reflexivity.
  - assert (e_A (ex_sess_at 6 1) = []) as -> by (vm_compute; reflexivity). constructor.
Defined.
