(* ===== verification/Config.v ===== *)
(** * The configuration: util/config.c

    A file is parsed into a document whose elements are then put in a hash table
    under the path of their names; values may refer to earlier ones as
    [${name}].  What Expat calls for the file is a parameter of the load. *)
From S2P Require Import Prelude.
From S2P Require Import CStr.
From S2P Require Import Table.
From S2P Require Import Alist.
From S2P Require Import Str.
From S2P Require Import Codec.
From S2P Require Import Nad.

(** [struct config_elem_st]; [nvalues] is the length of [ce_values].  Of [attrs] what was set: [[]] is NULL, and a
    place that was never set is [None]. *)
Record config_elem := ConfigElem { ce_values : list string; ce_attrs : list (option (list (string * string))) }.

(** [strstr(s, "${")]: what is before the first one, and what follows it. *)
Fixpoint find_var (s : string) : option (string * string) :=
  match s with
  | EmptyString => None
  | String c s' =>
    match s' with
    | String d rest =>
      if bool_decide (c = "$"%char ∧ d = "{"%char) then Some ("", rest)
      else '(a, b) ← find_var s'; Some (String c a, b)
    | EmptyString => None
    end
  end.

(** The events of Expat without namespaces: [_config_startElement], [_config_endElement], [_config_charData]. *)
Definition config_event (bd : build_data) (ev : xml_event) : build_data :=
  match ev with
  | XStart name atts =>
    let n := (nad_append_elem (bd_nad bd) (-1) name (bd_depth bd)).1 in
    BuildData (foldl (λ n att, (nad_append_attr n (-1) att.1 att.2).1) n atts) (bd_depth bd + 1)
  | XEnd => BuildData (bd_nad bd) (bd_depth bd - 1)
  | XCdata t => BuildData (nad_append_cdata (bd_nad bd) t (bd_depth bd)) (bd_depth bd)
  | XNamespace _ _ => bd
  end.

(** ** Paths *)

(** [path[depth] = elem], after making room; a place that was never set is [None]. *)
Definition set_path {A} (path : list (option A)) (depth : nat) (a : A) : list (option A) :=
  if depth <? length path then <[depth := Some a]> path
  else path ++ replicate (depth - length path) None ++ [Some a].

(** The names joined by dots, in a buffer of 1024 bytes; [None] writes outside it.  Without a
    name the dot that is taken back is before the buffer. *)
Fixpoint dotted (l : list string) : string :=
  match l with [] => "" | [x] => x | x :: l => x +:+ "." +:+ dotted l end.
Definition config_key (names : list string) : option string :=
  if bool_decide (names = []) then None
  else if (1024 <? foldr (λ x k, strlen x + 1 + k) 0 names)%Z then None
  else Some (dotted names).

Section config.
Context {T : Type → Type} `{Table T}.

(** [struct config_st] *)
Record config := Config { c_hash : T config_elem; c_nad : option nad }.
Definition config_new : config := Config (tnew 501) None.

(** ** Reading *)

Definition config_get (c : config) (key : string) : option config_elem := tget (c_hash c) key.
Definition config_get_one (c : config) (key : string) (num : Z) : option string :=
  e ← config_get c key;
  if (Z.of_nat (length (ce_values e)) <=? num)%Z then None else ce_values e !! Z.to_nat num.
Definition config_get_one_default (c : config) (key : string) (num : Z) (default_value : option string) : option string :=
  match config_get_one c key num with Some v => Some v | None => default_value end.
Definition config_count (c : config) (key : string) : Z :=
  match config_get c key with Some e => Z.of_nat (length (ce_values e)) | None => 0 end.
Definition atts_array (l : list (string * string)) : list (option string) := l ≫= λ a, [Some a.1; Some a.2].
(** [None]: a pointer that was never set. *)
Definition config_get_attr (c : config) (key : string) (num : Z) (attr : string) : option (option string) :=
  match config_get c key with
  | None => Some None
  | Some e =>
    if (Z.of_nat (length (ce_values e)) <=? num)%Z || bool_decide (ce_attrs e = []) then Some None
    else '(atts) ← mjoin (ce_attrs e !! Z.to_nat num); Some (j_attr (atts_array atts ++ [None; None]) (Some attr))
  end.

(** ** Expanding *)

(** Turns of the loop; [None]: it goes on, [Some None]: NULL. *)
Fixpoint expand_loop (fuel : nat) (c : config) (s : string) : option (option string) :=
  match fuel with
  | O => None
  | S fuel =>
    match find_var s with
    | None => Some (Some s)
    | Some (before, rest) =>
      match split_at "}" rest with
      | None => Some None
      | Some (var, tail) =>
        match config_get_one c var 0 with
        | None => Some None
        | Some v => expand_loop fuel c (before +:+ v +:+ tail)
        end
      end
    end
  end.
Definition _config_expandx (fuel : nat) (c : config) (value : text) : option (option string) :=
  expand_loop fuel c (cstr_of value).
Definition config_expand (fuel : nat) (c : config) (value : string) : option (option string) :=
  _config_expandx fuel c (tx value).

(** ** Loading *)

(** A value more for the key. *)
Definition add_value (c : config) (key : string) (v : string) (atts : list (string * string)) : config :=
  let e := default (ConfigElem [] []) (config_get c key) in
  Config (tput (c_hash c) key (ConfigElem (ce_values e ++ [v]) (ce_attrs e ++ replicate (length (ce_values e) - length (ce_attrs e)) None ++ [Some atts]))) (c_nad c).
(** The element that a key has before it has a value. *)
Definition touch (c : config) (key : string) : config :=
  match config_get c key with
  | Some _ => c
  | None => Config (tput (c_hash c) key (ConfigElem [] [])) (c_nad c)
  end.

(** The chain of the attributes; [fuel] is the size of the array. *)
Fixpoint elem_atts (fuel : nat) (n : nad) (a : Z) : list (string * string) :=
  match fuel with
  | O => []
  | S fuel =>
    if (a <? 0)%Z then []
    else (cstr_of (nad_aname n a), cstr_of (nad_aval n a)) :: elem_atts fuel n (a_next (attr_at n a))
  end.

(** The elements from [i] on.  [None]: memory that is not there, or no end; otherwise the
    configuration and whether it went well. *)
Fixpoint load_elems (fuel : nat) (n : nad) (k : nat) (i : Z) (path : list (option string)) (c : config) : option (config * bool) :=
  match k with
  | O => Some (c, true)
  | S k =>
    let depth := Z.to_nat (e_depth (elem_at n i)) in
    let path := set_path path depth (cstr_of (nad_ename n i)) in
    names ← mapM id (drop 1 (take (S depth) path));
    key ← config_key names;
    let c := touch c key in
    v ← (if (0 <? e_lcdata (elem_at n i))%Z then _config_expandx fuel c (nad_cdata n i) else Some (Some "1"));
    match v with
    | None => Some (c, false)
    | Some v => load_elems fuel n k (i + 1) path (add_value c key v (elem_atts (length (attrs n)) n (e_attr (elem_at n i))))
    end
  end.

(** What the file holds: [None] cannot be opened or read; the events of the parser and whether it
    took it all. *)
Definition config_load_with_id (fuel : nat) (c : config) (file : option (list xml_event * bool)) (cid : option string) :
    option (config * Z) :=
  match file with
  | Some (evs, true) =>
    let n := bd_nad (foldl config_event (BuildData nad_new 0) evs) in
    let c := match cid with Some v => Config (tput (c_hash c) "id" (ConfigElem [v] [])) (c_nad c) | None => c end in
    '(c, ok) ← load_elems fuel n (length (elems n) - 1) 1 [] c;
    Some (Config (c_hash c) (Some n), if ok : bool then 0%Z else 1%Z)
  | _ => Some (c, 1%Z)
  end.
Definition config_load (fuel : nat) (c : config) (file : option (list xml_event * bool)) : option (config * Z) :=
  config_load_with_id fuel c file None.
End config.

(** ** What the configuration holds: theorems about Config *)

(** ** Variables in a text *)

Fixpoint dollars (s : string) : nat :=
  match s with EmptyString => 0 | String c s => (if bool_decide (c = "$"%char) then 1 else 0) + dollars s end.
Lemma dollars_app a b : dollars (a +:+ b) = dollars a + dollars b.
Proof. induction a as [|c a IH]; cbn; [done|]. rewrite IH. lia. Qed.
Lemma dollars_free s : free_of "$" s → dollars s = 0.
Proof.
  induction s as [|c s IH]; [done|]. cbn [free_of dollars]. intros [H1 H2]%andb_prop_elim.
  rewrite IH by done. case_bool_decide; [subst|done]. done.
Qed.

Lemma find_var_step c d s :
  find_var (String c (String d s)) =
    if bool_decide (c = "$"%char ∧ d = "{"%char) then Some ("", s) else '(a, b) ← find_var (String d s); Some (String c a, b).
Proof. done. Qed.
Lemma find_var_Some s a b : find_var s = Some (a, b) → s = a +:+ "${" +:+ b ∧ find_var a = None.
Proof.
  revert a b. induction s as [|c [|d s] IH]; intros a b; [done..|]. rewrite find_var_step.
  case_bool_decide as Hc; [destruct Hc as [-> ->]; by intros [= <- <-]|].
  destruct (find_var (String d s)) as [[a' b']|] eqn:E; [|done]. cbn. intros [= <- <-].
  destruct (IH _ _ eq_refl) as [E1 E2]. split; [cbn; by rewrite E1|].
  destruct a' as [|e a']; [done|]. rewrite find_var_step, E2. cbn in E1. injection E1 as -> _.
  rewrite bool_decide_eq_false_2 by done. done.
Qed.

Section expand.
Context {T : Type → Type} `{Table T}.

(** C32: where no value holds a dollar sign, expanding a text ends after at most as many turns as
    the text has dollar signs, and what it gives has no variable left in it. *)
Theorem config_expand_ends (c : config (T := T)) (s : string) :
  (∀ key v, config_get_one c key 0 = Some v → free_of "$" v) →
  ∃ r, expand_loop (S (dollars s)) c s = Some r ∧ ∀ t, r = Some t → find_var t = None.
Proof.
  intros Hc. remember (dollars s) as k eqn:Hk. assert (dollars s ≤ k) as Hle by lia. clear Hk.
  revert s Hle. induction k as [|k IH]; intros s Hle; cbn [expand_loop];
    destruct (find_var s) as [[before rest]|] eqn:E; try (exists (Some s); split; [done|by intros t [= <-]]).
  - apply find_var_Some in E as [-> _]. rewrite !dollars_app in Hle. change (dollars "${") with 1 in Hle. lia.
  - apply find_var_Some in E as [-> _]. rewrite !dollars_app in Hle. change (dollars "${") with 1 in Hle.
    destruct (split_at "}" rest) as [[var tail]|] eqn:Es; [|by exists None].
    destruct (config_get_one c var 0) as [v|] eqn:Ev; [|by exists None].
    apply IH. apply split_at_Some in Es as ->. cbn [dollars] in Hle. rewrite !dollars_app in *. cbn [dollars] in Hle. rewrite (dollars_free v) by eauto. lia.
Qed.

(** The text [{v}] repeated. *)
Fixpoint braces (k : nat) : string := match k with O => "" | S k => "{v}" +:+ braces k end.
Lemma braces_snoc k : braces k +:+ "{v}" = braces (S k).
Proof. induction k as [|k IH]; [done|]. cbn. cbn in IH. by rewrite IH. Qed.
Lemma find_var_braces k s : find_var (braces k +:+ "${" +:+ s) = Some (braces k, s).
Proof. induction k as [|k IH]; [done|]. cbn [braces]. cbn. cbn in IH. rewrite IH. by destruct k. Qed.
Lemma find_var_braces_dollar k s : find_var (braces k +:+ "$${" +:+ s) = Some (braces k +:+ "$", s).
Proof. induction k as [|k IH]; [done|]. cbn [braces]. cbn. cbn in IH. rewrite IH. by destruct k. Qed.

Definition greedy : string := "{v}{v}$$".
Lemma expand_greedy fuel c k y : config_get_one c "v" 0 = Some greedy →
  expand_loop fuel c (braces k +:+ "$${v}" +:+ y) = None.
Proof.
  intros Hv. revert k y. induction fuel as [fuel IH] using lt_wf_ind. intros k y.
  destruct fuel as [|fuel]; [done|]. cbn [expand_loop].
  change ("$${v}" +:+ y) with ("$${" +:+ ("v}" +:+ y)). rewrite find_var_braces_dollar. cbv iota beta.
  change (split_at "}" ("v}" +:+ y)) with (Some ("v", y)). cbv iota beta. rewrite Hv.
  destruct fuel as [|fuel]; [reflexivity|].
  cbn [expand_loop].
  assert ((braces k +:+ "$") +:+ greedy +:+ y = braces k +:+ "${" +:+ ("v}" +:+ ("{v}$$" +:+ y))) as ->.
  { rewrite <- (sapp_assoc (braces k) "$"). reflexivity. }
  rewrite find_var_braces. cbv iota beta. change (split_at "}" ("v}" +:+ ("{v}$$" +:+ y))) with (Some ("v", "{v}$$" +:+ y)). cbv iota beta. rewrite Hv.
  assert (braces k +:+ greedy +:+ ("{v}$$" +:+ y) = braces (S (S k)) +:+ "$${v}" +:+ ("$$" +:+ y)) as ->.
  { rewrite <- !braces_snoc, <- !sapp_assoc. reflexivity. }
  apply IH. lia.
Qed.

(** A text that refers to a value which is well-formed, and has no variable in it, can be
    expanded for ever: the dollar signs and braces of the value meet those of the text. *)
Theorem config_expand_diverges (c : config (T := T)) (fuel : nat) :
  config_get_one c "v" 0 = Some "{v}{v}$$" → find_var "{v}{v}$$" = None ∧ expand_loop fuel c "${v}{v}" = None.
Proof.
  intros Hv. split; [done|]. destruct fuel as [|fuel]; [done|]. cbn [expand_loop].
  change (find_var "${v}{v}") with (Some ("", "v}{v}")). cbv iota beta. change (split_at "}" "v}{v}") with (Some ("v", "{v}")). cbv iota beta. rewrite Hv.
  exact (expand_greedy fuel c 2 "" Hv).
Qed.
End expand.

(** ** Loading *)

Lemma cstr_no_nul t : no_nul (cstr_of t).
Proof. induction t as [|c t IH]; [done|]. cbn. case_bool_decide; [done|]. apply Is_true_true, no_nul_cons. split; [done|]. by apply Is_true_true. Qed.
Lemma dotted_no_nul l : Forall no_nul l → no_nul (dotted l).
Proof.
  induction 1 as [|x [|y l] Hx Hl IH]; [done|done|]. cbn [dotted]. rewrite !no_nul_app. cbn [dotted] in IH.
  apply andb_prop_intro. split; [done|]. apply andb_prop_intro. split; [done|]. exact IH.
Qed.

(** The name of the last element up to [i] at a depth; the root is not counted. *)
Definition last_at (n : nad) (i d : nat) : option string :=
  last (omap (λ j, if Z.to_nat (e_depth (elem_at n (Z.of_nat j))) =? d then Some (cstr_of (nad_ename n (Z.of_nat j))) else None) (seq 1 i)).

Lemma set_path_lookup {A} (path : list (option A)) d a d' :
  set_path path d a !! d' = Some (Some a) ∧ d' = d ∨
  d' ≠ d ∧ (set_path path d a !! d' = path !! d' ∨ length path ≤ d' ∧ (set_path path d a !! d' = Some None ∨ set_path path d a !! d' = None)).
Proof.
  unfold set_path. destruct (Nat.ltb_spec d (length path)) as [Hd|Hd].
  - destruct (decide (d' = d)) as [->|Hne]; [left; by rewrite list_lookup_insert_eq|right]. split; [done|]. left. by apply list_lookup_insert_ne.
  - destruct (decide (d' = d)) as [->|Hne].
    + left. rewrite lookup_app_r by done. rewrite lookup_app_r by (rewrite length_replicate; lia). rewrite length_replicate.
      by replace (d - length path - (d - length path)) with 0 by lia.
    + right. split; [done|]. destruct (decide (d' < length path)); [left; by rewrite lookup_app_l|]. right. split; [lia|].
      rewrite lookup_app_r by lia. destruct (decide (d' < d)).
      * left. rewrite lookup_app_l by (rewrite length_replicate; lia). apply lookup_replicate. split; [done|lia].
      * right. apply lookup_ge_None. rewrite length_app, length_replicate. cbn. lia.
Qed.

(** The path holds the names of the last elements. *)
Definition path_ok (n : nad) (i : nat) (path : list (option string)) : Prop :=
  ∀ d x, path !! d = Some (Some x) → last_at n i d = Some x.
Lemma path_ok_step n i path : path_ok n i path →
  path_ok n (S i) (set_path path (Z.to_nat (e_depth (elem_at n (Z.of_nat (S i))))) (cstr_of (nad_ename n (Z.of_nat (S i))))).
Proof.
  intros Hp d x. unfold last_at. rewrite seq_S, omap_app. cbn [omap list_omap Nat.add]. change (1 + i) with (S i).
  destruct (set_path_lookup path (Z.to_nat (e_depth (elem_at n (Z.of_nat (S i))))) (cstr_of (nad_ename n (Z.of_nat (S i)))) d)
    as [[E ->]|[Hne Hr]].
  - rewrite E, Nat.eqb_refl. intros [= <-]. by rewrite last_snoc.
  - rewrite (proj2 (Nat.eqb_neq _ _)) by done. rewrite app_nil_r. destruct Hr as [->|[_ [->| ->]]]; [apply Hp|done..].
Qed.

Notation entry := (string * string * list (string * string))%type.

Section load.
Context {T : Type → Type} `{TableLaws T}.

(** What the entries say of a key. *)
Definition group (l : list entry) (key : string) : option config_elem :=
  match filter (λ e : entry, e.1.1 = key) l with
  | [] => None
  | l => Some (ConfigElem ((λ e, e.1.2) <$> l) ((λ e, Some e.2) <$> l))
  end.
Definition grouped (c : config (T := T)) (l : list entry) : Prop :=
  tok (c_hash c) ∧ ∀ key, good_key key → config_get c key = group l key.

Lemma group_snoc_ne l key e : e.1.1 ≠ key → group (l ++ [e]) key = group l key.
Proof. intros Hne. unfold group. rewrite filter_app, filter_cons_False, filter_nil, app_nil_r by done. done. Qed.
Lemma group_snoc_eq l key v atts :
  group (l ++ [(key, v, atts)]) key =
    Some (ConfigElem (ce_values (default (ConfigElem [] []) (group l key)) ++ [v])
      (ce_attrs (default (ConfigElem [] []) (group l key)) ++ [Some atts])).
Proof.
  unfold group. rewrite filter_app, filter_cons_True, filter_nil by done. destruct (filter _ l) as [|e l']; [done|].
  cbn [app default ce_values ce_attrs id from_option]. rewrite app_comm_cons, !fmap_app. done.
Qed.
Lemma group_lengths l key : length (ce_values (default (ConfigElem [] []) (group l key))) = length (ce_attrs (default (ConfigElem [] []) (group l key))).
Proof. unfold group. destruct (filter _ l); [done|]. cbn. by rewrite !length_fmap. Qed.

Lemma add_grouped c l key v atts : grouped c l → no_nul key → grouped (add_value (touch c key) key v atts) (l ++ [(key, v, atts)]).
Proof.
  intros [Hok Hg] Hk.
  assert (tok (c_hash (touch c key)) ∧ (∀ key', good_key key' → config_get (touch c key) key' =
    if decide (key = key') then Some (default (ConfigElem [] []) (group l key)) else group l key')) as [Hok1 Hg1].
  { unfold touch. destruct (config_get c key) as [e|] eqn:E.
    - split; [done|]. intros key' Hk'. rewrite Hg by done. case_decide as Heq; [subst|done]. rewrite <- Hg, E by done. done.
    - split; [by apply tput_ok|]. intros key' Hk'. unfold config_get. cbn [c_hash]. rewrite tget_put by done.
      case_decide as Heq; [subst|by apply Hg]. by rewrite <- Hg, E by done. }
  unfold add_value. split; [by apply tput_ok|]. intros key' Hk'. unfold config_get at 1. cbn [c_hash]. rewrite tget_put by done.
  case_decide as Heq.
  - subst key'. rewrite group_snoc_eq, Hg1, decide_True by done. cbn [default from_option id].
    rewrite group_lengths, Nat.sub_diag. done.
  - change (tget (c_hash (touch c key)) key') with (config_get (touch c key) key').
    rewrite Hg1, decide_False, group_snoc_ne by done. done.
Qed.

(** An entry and the element that it is of. *)
Definition entry_of (n : nad) (i : nat) (e : entry) : Prop :=
  (∃ names, config_key names = Some e.1.1 ∧ ∀ d x, names !! d = Some x → last_at n i (S d) = Some x) ∧
  e.2 = elem_atts (length (attrs n)) n (e_attr (elem_at n (Z.of_nat i))) ∧
  ((e_lcdata (elem_at n (Z.of_nat i)) <= 0)%Z → e.1.2 = "1").

Lemma load_elems_grouped fuel n k i path c c' l : path_ok n i path → grouped c l →
  load_elems fuel n k (Z.of_nat (S i)) path c = Some (c', true) →
  ∃ l', length l' = k ∧ grouped c' (l ++ l') ∧ ∀ j e, l' !! j = Some e → entry_of n (S i + j) e.
Proof.
  revert i path c l. induction k as [|k IH]; intros i path c l Hp Hg; cbn [load_elems].
  { intros [= <-]. exists []. by rewrite app_nil_r. }
  set (depth := Z.to_nat _). pose proof (path_ok_step n i path Hp) as Hp'. fold depth in Hp'.
  destruct (mapM id _) as [names|] eqn:En; [|done]. cbn [mbind option_bind].
  destruct (config_key names) as [key|] eqn:Ek; [|done]. cbn [mbind option_bind].
  set (v0 := if (_ <? _)%Z then _ else _). destruct v0 as [[v|]|] eqn:Ev; [|done..]. cbn [mbind option_bind].
  replace (Z.of_nat (S i) + 1)%Z with (Z.of_nat (S (S i))) by lia. intros Hl.
  apply mapM_Some_1 in En. 
  assert (∀ d x, names !! d = Some x → last_at n (S i) (S d) = Some x) as Hn.
  { intros d x Hx. destruct (Forall2_lookup_r _ _ _ _ _ En Hx) as (o & Ho & Hox). cbn in Hox. subst o.
    rewrite lookup_drop in Ho. apply lookup_take_Some in Ho as [Ho _]. by apply Hp'. }
  assert (no_nul key) as Hkey.
  { unfold config_key in Ek. case_bool_decide; [done|]. destruct (_ <? _)%Z; [done|]. injection Ek as <-.
    apply dotted_no_nul, Forall_lookup_2. intros d x Hx. specialize (Hn d x Hx). unfold last_at in Hn.
    apply last_Some_elem_of, list_elem_of_omap in Hn as (j & _ & Hj). destruct (_ =? _); [|done]. injection Hj as <-. apply cstr_no_nul. }
  destruct (IH (S i) _ _ _ Hp' (add_grouped _ _ _ v (elem_atts (length (attrs n)) n (e_attr (elem_at n (Z.of_nat (S i))))) Hg Hkey) Hl)
    as (l' & Hlen & Hg' & He).
  eexists (_ :: l'). split; [cbn; by rewrite Hlen|]. split; [by rewrite <- app_assoc in Hg'|].
  intros [|j] e; cbn [lookup list_lookup].
  - intros [= <-]. replace (S i + 0) with (S i) by lia. split; [by exists names|]. split; [done|]. intros Hc.
    unfold v0 in Ev. rewrite (proj2 (Z.ltb_ge _ _) Hc) in Ev. by injection Ev.
  - intros Hj. replace (S i + S j) with (S (S i) + j) by lia. by apply He.
Qed.

(** A file that loads into an empty configuration gives each key the values of the elements with
    that path, in the order of the file, and with each value its attributes; no other key has any. *)
Theorem config_load_groups (fuel : nat) (evs : list xml_event) (c : config (T := T)) :
  config_load fuel config_new (Some (evs, true)) = Some (c, 0%Z) →
  let n := bd_nad (foldl config_event (BuildData nad_new 0) evs) in
  ∃ l : list entry, length l = length (elems n) - 1 ∧ (∀ i e, l !! i = Some e → entry_of n (S i) e) ∧
    ∀ key, good_key key → config_get c key = group l key.
Proof.
  intros Hc n. unfold config_load, config_load_with_id in Hc. fold n in Hc.
  destruct (load_elems fuel n _ _ _ _) as [[c1 ok]|] eqn:E; [|done]. cbn in Hc. destruct ok; [|done]. injection Hc as <-.
  assert (grouped config_new []) as Hg.
  { destruct (tnew_ok (V := config_elem) 501) as [Hok Hm]; [lia|]. split; [done|]. intros key Hk. unfold config_get, config_new.
    cbn [c_hash]. rewrite tget_ok by done. by rewrite Hm. }
  destruct (load_elems_grouped fuel n _ 0 [] _ _ [] (λ d x, ltac:(by rewrite lookup_nil)) Hg E) as (l & Hlen & [_ Hg'] & He).
  exists l. split; [done|]. split; [|exact Hg']. intros i e Hi. exact (He i e Hi).
Qed.
End load.

(** ** A file *)

Definition sample : list xml_event :=
  [XStart "c2s" []; XStart "id" []; XCdata (tx "c2s"); XEnd;
   XStart "local" []; XStart "id" [("realm", "r"); ("pemfile", "")]; XCdata (tx "${id}.example.org"); XEnd;
   XStart "id" []; XCdata (tx "two"); XEnd; XEnd; XEnd].

Lemma config_load_groups_witness :
  ∃ c : config (T := alist), config_load 9 config_new (Some (sample, true)) = Some (c, 0%Z) ∧
    config_get_one c "local.id" 0 = Some "c2s.example.org" ∧ config_get_attr c "local.id" 0 "pemfile" = Some (Some "") ∧
    ∃ l, length l = 4 ∧ ∀ key, good_key key → config_get c key = group l key.
Proof.
  destruct (config_load (T := alist) 9 config_new (Some (sample, true))) as [[c r]|] eqn:E; [|by vm_compute in E].
  assert (r = 0%Z) as -> by (by vm_compute in E; injection E as _ <-).
  exists c. split; [done|]. destruct (config_load_groups 9 sample c E) as (l & Hl & _ & Hg).
  split; [by vm_compute in E; injection E as <-|]. split; [by vm_compute in E; injection E as <-|].
  exists l. split; [|exact Hg]. rewrite Hl. vm_compute. reflexivity.
Defined.

(** A configuration with a value, and a text with two references to it and one to nothing else. *)
Definition ex_config : config (T := alist) :=
  match config_load 9 config_new (Some ([XStart "c" []; XStart "v" []; XCdata (tx "jabber"); XEnd; XStart "w" []; XCdata (tx "d"); XEnd; XEnd], true)) with
  | Some (c, _) => c
  | None => config_new
  end.
Lemma ex_config_values key v : config_get_one ex_config key 0 = Some v → v = "jabber" ∨ v = "d".
Proof.
  unfold config_get_one, config_get.
  replace (c_hash ex_config) with [("v", ConfigElem ["jabber"] [Some []]); ("w", ConfigElem ["d"] [Some []])] by (vm_compute; reflexivity).
  cbn [tget alist_table aget]. destruct (String.eqb key ""); [done|].
  destruct (String.eqb "v" key); [intros [= <-]; by left|]. destruct (String.eqb "w" key); [intros [= <-]; by right|done].
Qed.

Lemma config_expand_ends_witness :
  expand_loop (S (dollars "/etc/${v}$/${w}/${v}")) ex_config "/etc/${v}$/${w}/${v}" = Some (Some "/etc/jabber$/d/jabber") ∧
  expand_loop 3 ex_config "/etc/${v}$/${w}/${v}" = None.
Proof.
  split; [|vm_compute; reflexivity].
  destruct (config_expand_ends ex_config "/etc/${v}$/${w}/${v}") as (r & Hr & _).
  - intros key v [-> | ->]%ex_config_values; vm_compute; done.
  - assert (r = Some "/etc/jabber$/d/jabber") as ->; [|exact Hr]. vm_compute in Hr. by injection Hr.
Defined.

Lemma config_expand_diverges_witness :
  ∃ c : config (T := alist), config_load 9 config_new (Some ([XStart "c" []; XStart "v" []; XCdata (tx "{v}{v}$$"); XEnd; XEnd], true)) = Some (c, 0%Z) ∧
    ∀ fuel, expand_loop fuel c "${v}{v}" = None.
Proof.
  eexists. split; [vm_compute; reflexivity|]. intros fuel. apply (config_expand_diverges _ fuel). vm_compute. reflexivity.
Defined.
