(* ===== verification/SmAci.v ===== *)
(** * Access control lists of the session manager: sm/aci.c

    Lists of jids under the names of what they allow, read from the
    configuration; the list [all] allows everything.  [sm_aci_check_spec] says who
    is allowed. *)
From S2P Require Import Prelude.
From S2P Require Import CStr.
From S2P Require Import DList.
From S2P Require Import Codec.
From S2P Require Import Jid.
From S2P Require Import Nad.
From S2P Require Import NadScan.
From S2P Require Import Filter.
From S2P Require Import Table.
From S2P Require Import Stanza.
From S2P Require Import Datetime.
From S2P Require Import Pkt.
From S2P Require Import Sm.
From S2P Require Import Pres.
From S2P Require Import SmInv.
From S2P Require Import SmTop.

Section aci.
Context {T : Type → Type} `{Table T} `{Env}.

(** The jids of a list; [None]: one is not a jid, and NULL is copied. *)
Fixpoint load_jids (n : nad) (jelems : list Z) (l : list jid) : option (list jid) :=
  match jelems with
  | [] => Some l
  | jelem :: jelems =>
    if (0 <? e_lcdata (elem_at n jelem))%Z then
      j ← text_jid (nad_cdata n jelem); load_jids n jelems (append_to l j)
    else load_jids n jelems l
  end.

Fixpoint load_acls (n : nad) (aelems : list Z) (acls : T (list jid)) : option (T (list jid)) :=
  match aelems with
  | [] => Some acls
  | aelem :: aelems =>
    match attr_of n aelem "type" with
    | None => load_acls n aelems acls
    | Some v =>
      l ← load_jids n (children n aelem (-1) "jid") [];
      load_acls n aelems (if bool_decide (l = []) then acls else tput acls (sprint 33 v) l)
    end
  end.

Definition aci_load (n : nad) : option (T (list jid)) :=
  let aelem := nad_find_elem n 0 (-1) (Some "aci") 1 in
  if (aelem <? 0)%Z then Some (tnew 51) else load_acls n (children n aelem (-1) "acl") (tnew 51).

(** The copy without the resource. *)
Definition without_resource (j : jid) : jid :=
  let d := dup j in
  if bool_decide (jid_resource d = "") then d
  else Jid (jid_node d) (jid_domain d) "" (jid_data d) (jid__user d) (jid__full d) true.

Definition aci_check (acls : T (list jid)) (type : option string) (j : jid) : bool :=
  let d := without_resource j in
  let l := default [] (tget acls "all") in
  if in_list l j then true
  else if in_list l d then true
  else match type with
       | None => false
       | Some type => let l := default [] (tget acls type) in if in_list l j then true else in_list l d
       end.
End aci.

(** ** Who is allowed *)

Section thms.
Context {T : Type → Type} `{TableLaws T} `{EnvLaws}.
Implicit Types (acls : T (list jid)) (j : jid) (l : list jid).

Definition acl_of acls (name : string) : list jid := default [] (tget acls name).

Lemma in_list_names l j : Forall coherent l → coherent j → in_list l j = bool_decide (fullname j ∈ names l).
Proof.
  intros Hl Hj. unfold in_list. pose proof (jid_search_spec l j Hl Hj) as Hs.
  destruct (jid_search l j) as [[? ?] b]. by destruct Hs as (_ & _ & _ & ->).
Qed.

Lemma without_resource_spec j : coherent j →
  coherent (without_resource j) ∧ comps (without_resource j) = (jid_node j, jid_domain j, "").
Proof.
  intros Hj. destruct (jid_dup_spec j Hj) as (_ & Hd & _ & Ed). unfold without_resource.
  change (dup j) with (jid_dup j).2. set (d := (jid_dup j).2) in *. unfold comps in *. injection Ed as E1 E2 E3.
  case_bool_decide as Er; [split; [done|congruence]|]. cbn. split; [|congruence].
  destruct Hd as [(Hn & Hm & _) _]. split; [by split_and!|]. intros; done.
Qed.

Lemma sm_aci_check_spec acls type j : (∀ name, Forall coherent (acl_of acls name)) → coherent j →
  aci_check acls type j = true ↔
  ∃ name, (name = "all" ∨ type = Some name) ∧
    (fullname j ∈ names (acl_of acls name) ∨ fullname (without_resource j) ∈ names (acl_of acls name)).
Proof.
  intros Hl Hj. destruct (without_resource_spec j Hj) as [Hw _]. unfold aci_check. cbv zeta.
  fold (acl_of acls "all"). rewrite !in_list_names by done.
  case_bool_decide as Ha1; [split; [intros _|done]; exists "all"; auto|].
  case_bool_decide as Ha2; [split; [intros _|done]; exists "all"; auto|].
  destruct type as [type|].
  - fold (acl_of acls type). rewrite !in_list_names by done.
    case_bool_decide as Ha3; [split; [intros _|done]; exists type; auto|]. rewrite bool_decide_eq_true.
    split; [intros Ha4; exists type; auto|]. intros (name & [->|[= <-]] & [Hx|Hx]); done.
  - split; [done|]. intros (name & [->|?] & [Hx|Hx]); done.
Qed.

(** The lists that are loaded can be searched. *)
Definition acls_ok acls : Prop := tok acls ∧ ∀ k l, tmap acls !! k = Some l → Forall coherent l.

Lemma acls_ok_of acls name : acls_ok acls → Forall coherent (acl_of acls name).
Proof.
  intros [Ht Hl]. unfold acl_of. destruct (tget acls name) as [l|] eqn:E; [|constructor].
  destruct (tget_in _ _ _ Ht E) as [k Hk]. by eapply Hl.
Qed.

Lemma sprint_no_nul k t : no_nul (sprint k t).
Proof. apply cstr_of_no_nul. Qed.

Lemma text_jid_coherent t j : text_jid t = Some j → coherent j.
Proof.
  unfold text_jid, jid_new. destruct (jid_reset _ _ _ _ _ _) as [j'| |] eqn:E; [|done..]. intros [= ->].
  destruct (reset_fresh _ _ _ _ E) as (n & d & r & buf & -> & ? & ? & ?). by split.
Qed.

Lemma load_jids_ok n jelems l : Forall coherent l → post (load_jids n jelems l) (Forall coherent).
Proof.
  revert l. induction jelems as [|el jelems IH]; intros l Hl; cbn [load_jids]; [by apply post_ret|].
  destruct (_ <? _)%Z; [|by apply IH]. apply post_bind. intros j Hj. apply IH.
  pose proof (jid_append_spec l j Hl (text_jid_coherent _ _ Hj)) as Ha. unfold append_to.
  destruct (jid_append l j) as [l' j']. apply Ha.
Qed.

Lemma load_acls_ok n aelems acls : acls_ok acls → post (load_acls n aelems acls) acls_ok.
Proof.
  revert acls. induction aelems as [|el aelems IH]; intros acls Hok; cbn [load_acls]; [by apply post_ret|].
  destruct (attr_of _ _ _) as [v|]; [|by apply IH]. apply post_bind.
  eapply post_mono; [apply load_jids_ok; constructor|]. intros l Hl. apply IH. case_bool_decide; [done|].
  destruct Hok as [Ht Ho]. destruct (tput_ok acls (sprint 33 v) l Ht (sprint_no_nul _ _)) as [Ht' E].
  split; [done|]. intros k l'. rewrite E. intros [[_ <-]|[_ Hk]]%lookup_insert_Some; [done|by eapply Ho].
Qed.

Lemma aci_load_ok n : post (aci_load n) acls_ok.
Proof.
  assert (acls_ok (tnew 51)) as Hnew.
  { destruct (tnew_ok (T := T) (V := list jid) 51) as [Ht E]; [done|]. split; [done|]. intros k l. by rewrite E, lookup_empty. }
  unfold aci_load. destruct (_ <? _)%Z; [by apply post_ret|by apply load_acls_ok].
Qed.
End thms.
