(* ===== verification/SmDisco.v ===== *)
(** * Service discovery: sm/mod_disco.c, and what sm/mod_iq_version.c and sm/mod_help.c add to it

    The services known are records shared by pointer between three tables:
    those that answered ([d_dyn]), those of the configuration ([d_stat]) and
    both ([d_un]).  The answers are packets made in advance and kept.  The
    state of the module is beside the session manager's: a handler takes both.
    [None] is a pointer that is NULL or dangling followed. *)
From S2P Require Import Prelude.
From S2P Require Import CStr.
From S2P Require Import DList.
From S2P Require Import Codec.
From S2P Require Import Jid.
From S2P Require Import Nad.
From S2P Require Import NadScan.
From S2P Require Import Table.
From S2P Require Import Stanza.
From S2P Require Import Datetime.
From S2P Require Import Pkt.
From S2P Require Import Sm.
From S2P Require Import Pres.
From S2P Require Import Config.
From S2P Require Import SmAci.

Definition ns_AGENTS : Z := 4.
Definition ns_DISCO_ITEMS : Z := 12.
Definition uri_DISCO_ITEMS : string := "http://jabber.org/protocol/disco#items".
Definition uri_DISCO_INFO : string := "http://jabber.org/protocol/disco#info".
Definition uri_AGENTS : string := "jabber:iq:agents".
Definition uri_REGISTER : string := "jabber:iq:register".
Definition uri_SEARCH : string := "jabber:iq:search".
Definition uri_GATEWAY : string := "jabber:iq:gateway".
Definition uri_XDATA : string := "jabber:x:data".
Definition uri_SERVERINFO : string := "http://jabber.org/network/serverinfo".
Definition urn_SOFTWAREINFO : string := "urn:xmpp:dataforms:softwareinfo".
Definition ACTIVE_SESSIONS_NAME : string := "Active sessions".

Section disco.
Context {T : Type → Type} `{Table T} `{Env}.
Notation sm := (sm (T := T)).
Notation user := (user (T := T)).
Notation config := (config (T := T)).
Implicit Types (s : sm) (c u : loc) (p : pkt).

(** ** Data *)

(** [struct service_st] *)
Record service := Service { v_jid : jid; v_name : string; v_category : string; v_type : string; v_features : T unit }.

(** [struct disco_st]; [d_heap] holds the services, [d_next] is the next address that malloc gives. *)
Record disco := Disco {
  d_category : string; d_type : string; d_name : string;
  d_agents : bool;
  d_heap : gmap loc service; d_next : loc;
  d_dyn : T loc; d_stat : T loc; d_un : option (T loc);
  disco_info_result : option pkt; disco_items_result : option pkt; agents_result : option pkt
}.
Implicit Types (d : disco).

Definition set_heap (h : gmap loc service) d : disco :=
  Disco (d_category d) (d_type d) (d_name d) (d_agents d) h (d_next d) (d_dyn d) (d_stat d) (d_un d)
    (disco_info_result d) (disco_items_result d) (agents_result d).
Definition set_next (x : loc) d : disco :=
  Disco (d_category d) (d_type d) (d_name d) (d_agents d) (d_heap d) x (d_dyn d) (d_stat d) (d_un d)
    (disco_info_result d) (disco_items_result d) (agents_result d).
Definition set_dyn (t : T loc) d : disco :=
  Disco (d_category d) (d_type d) (d_name d) (d_agents d) (d_heap d) (d_next d) t (d_stat d) (d_un d)
    (disco_info_result d) (disco_items_result d) (agents_result d).
Definition set_stat (t : T loc) d : disco :=
  Disco (d_category d) (d_type d) (d_name d) (d_agents d) (d_heap d) (d_next d) (d_dyn d) t (d_un d)
    (disco_info_result d) (disco_items_result d) (agents_result d).
Definition set_un (t : option (T loc)) d : disco :=
  Disco (d_category d) (d_type d) (d_name d) (d_agents d) (d_heap d) (d_next d) (d_dyn d) (d_stat d) t
    (disco_info_result d) (disco_items_result d) (agents_result d).
Definition set_results (info items agents : option pkt) d : disco :=
  Disco (d_category d) (d_type d) (d_name d) (d_agents d) (d_heap d) (d_next d) (d_dyn d) (d_stat d) (d_un d)
    info items agents.

(** ** The unified list *)

(** If it is already there, this one is skipped. *)
Definition _disco_unify_walker (h : gmap loc service) (dest : option (T loc)) (v : loc) : option (T loc) :=
  dest ← dest;
  svc ← h !! v;
  match tget dest (jfull (v_jid svc)) with
  | Some _ => Some dest
  | None => Some (tput dest (jfull (v_jid svc)) v)
  end.

Definition _disco_unify_lists d : option disco :=
  un ← foldl (_disco_unify_walker (d_heap d)) (Some (tnew 101)) ((twalk (d_dyn d)).*2 ++ (twalk (d_stat d)).*2);
  Some (set_un (Some un) d).

(** The services of the list, in the order of the iterator. *)
Definition un_services d : option (disco * list service) :=
  match d_un d with
  | None => Some (d, [])
  | Some un =>
    let '(un, l) := titer un in
    svcs ← mapM (λ kv, d_heap d !! kv.2) l;
    Some (set_un (Some un) d, svcs)
  end.

(** ** The answers *)

(** A packet with the query of the namespace, and the index of the namespace. *)
Definition query_of (p : pkt) (uri : string) : nad * Z :=
  let '(n, ns) := nad_add_namespace (p_nad p) uri None in ((nad_append_elem n ns "query" 2).1, ns).

Definition items_item (ns : Z) (n : nad) (svc : service) : nad :=
  let n := (nad_append_elem n ns "item" 3).1 in
  let n := (nad_append_attr n (-1) "jid" (jfull (v_jid svc))).1 in
  append_nonempty (-1) "name" (v_name svc) n.

Definition _disco_items_result s d : option (disco * pkt) :=
  p ← create s "iq" (Some "result") None None;
  let '(n, ns) := query_of p uri_DISCO_ITEMS in
  '(d, svcs) ← un_services d;
  Some (d, with_nad (foldl (items_item ns) n svcs) p).

(** A field of a form, with its values. *)
Definition form_values (n : nad) (values : list string) : nad :=
  foldl (λ n v, nad_append_cdata (nad_append_elem n (-1) "value" 5).1 (tx v) 6) n values.
Definition form_field (n : nad) (var : string) (values : list string) : nad :=
  form_values (nad_append_attr (nad_append_elem n (-1) "field" 4).1 (-1) "var" var).1 values.
(** The form, up to the field with its type. *)
Definition form_of (n : nad) (form_type : string) : nad :=
  let '(n, ns) := nad_add_namespace n uri_XDATA None in
  let n := set_scope n ns in
  let n := (nad_append_elem n ns "x" 3).1 in
  let n := (nad_append_attr n (-1) "type" "result").1 in
  let n := (nad_append_elem n (-1) "field" 4).1 in
  let n := (nad_append_attr n (-1) "var" "FORM_TYPE").1 in
  let n := (nad_append_attr n (-1) "type" "hidden").1 in
  form_values n [form_type].

Definition _iq_version_disco_extend s (n : nad) : nad :=
  let n := form_of n urn_SOFTWAREINFO in
  let n := form_field n "software" [sc_package (s_conf s)] in
  let n := form_field n "software_version" [sc_version (s_conf s)] in
  match sc_os (s_conf s) with
  | Some (name, release) =>
    let n := form_field n "os" [name] in
    match release with Some release => form_field n "os_version" [release] | None => n end
  | None => n
  end.

Definition _serverinfo_fields : list string :=
  ["abuse-addresses"; "admin-addresses"; "feedback-addresses"; "sales-addresses"; "security-addresses"; "support-addresses"].

Definition _help_disco_extend (cf : config) (n : nad) : nad :=
  match config_get cf "discovery.serverinfo" with
  | None => n
  | Some _ =>
    foldl (λ n field,
      match config_get cf (snprintf 64 ("discovery.serverinfo." +:+ field +:+ ".value")) with
      | Some elem => form_field n field (ce_values elem)
      | None => n
      end) (form_of n uri_SERVERINFO) _serverinfo_fields
  end.

(** The chain: sm/mm.c. *)
Definition disco_extend_handler (cf : config) s (m : smodule) : option (nad → nad) :=
  match m with
  | m_iq_version => Some (_iq_version_disco_extend s)
  | m_help => Some (_help_disco_extend cf)
  | _ => None
  end.
Definition mm_disco_extend (cf : config) s (n : nad) : nad :=
  foldl (λ n h, h n) n (omap (disco_extend_handler cf s) (ch_disco_extend (s_chains s))).

Definition info_feature (ns : Z) (n : nad) (key : string) : nad :=
  let '(n, el) := nad_append_elem n ns "feature" 3 in nad_set_attr n el (-1) "var" (Some key) (strlen key).

Definition _disco_info_result (cf : config) s d : option (sm * pkt) :=
  p ← create s "iq" (Some "result") None None;
  let '(n, ns) := query_of p uri_DISCO_INFO in
  let n := (nad_append_elem n ns "identity" 3).1 in
  let n := (nad_append_attr n (-1) "category" (d_category d)).1 in
  let n := (nad_append_attr n (-1) "type" (d_type d)).1 in
  let n := (nad_append_attr n (-1) "name" (d_name d)).1 in
  let '(features, l) := titer (s_features s) in
  let s := set_features features s in
  let n := foldl (info_feature ns) n l.*1 in
  Some (s, with_nad (mm_disco_extend cf s n) p).

Definition agent_flag (ns : Z) (b : bool) (name : string) (n : nad) : nad :=
  if b then (nad_append_elem n ns name 4).1 else n.
Definition agents_item (ns : Z) (n : nad) (svc : service) : nad :=
  let n := (nad_append_elem n ns "agent" 3).1 in
  let n := (nad_append_attr n (-1) "jid" (jfull (v_jid svc))).1 in
  let n := if bool_decide (v_name svc = "") then n
           else nad_append_cdata (nad_append_elem n ns "name" 4).1 (tx (v_name svc)) 5 in
  let n := nad_append_cdata (nad_append_elem n ns "service" 4).1 (tx (v_type svc)) 5 in
  let has_feature uri := bool_decide (is_Some (tget (v_features svc) uri)) in
  let n := agent_flag ns (has_feature uri_REGISTER) "register" n in
  let n := agent_flag ns (has_feature uri_SEARCH) "search" n in
  let n := agent_flag ns (has_feature uri_GATEWAY) "transport" n in
  agent_flag ns (strcmp (v_category svc) "conference" =? 0)%Z "groupchat" n.

Definition _disco_agents_result s d : option (disco * pkt) :=
  p ← create s "iq" (Some "result") None None;
  let '(n, ns) := query_of p uri_AGENTS in
  '(d, svcs) ← un_services d;
  Some (d, with_nad (foldl (agents_item ns) n svcs) p).

Definition _disco_generate_packets (cf : config) s d : option (disco * sm) :=
  '(d, items) ← _disco_items_result s d;
  '(s, info) ← _disco_info_result cf s d;
  if d_agents d then
    '(d, agents) ← _disco_agents_result s d;
    Some (set_results (Some info) (Some items) (Some agents) d, s)
  else Some (set_results (Some info) (Some items) (agents_result d) d, s).

(** If there are none yet. *)
Definition generate_once (cf : config) s d : option (disco * sm) :=
  match disco_info_result d with Some _ => Some (d, s) | None => _disco_generate_packets cf s d end.

(** ** Answers of components *)

Definition dret : Type := option (disco * sm * mod_ret).

Definition alloc_service (svc : service) d : loc * disco :=
  (d_next d, set_next (S (d_next d)) (set_heap (<[d_next d := svc]> (d_heap d)) d)).

(** The service of the jid, made if there is none. *)
Definition known_service (from : jid) d : option (loc * disco) :=
  match tget (d_dyn d) (jfull from) with
  | Some v => Some (v, d)
  | None =>
    let '(v, d) := alloc_service (Service (dup from) "" "" "" (tnew 11)) d in
    d ← _disco_unify_lists (set_dyn (tput (d_dyn d) (jfull (dup from)) v) d);
    Some (v, d)
  end.

Definition put_feature (n : nad) (t : T unit) (elem : Z) : T unit :=
  match attr_of n elem "var" with Some v => tput t (string_of v) tt | None => t end.

(** What the identity and the features of the answer say of a service. *)
Definition filled (n : nad) (query identity : Z) (svc : service) : service :=
  Service (v_jid svc)
    match attr_of n identity "name" with Some v => sprint 257 v | None => "" end
    match attr_of n identity "category" with Some v => sprint 257 v | None => "unknown" end
    match attr_of n identity "type" with Some v => sprint 257 v | None => "unknown" end
    (foldl (put_feature n) (v_features svc) (children n query (-1) "feature")).

Definition has_attr (n : nad) (el : Z) (name val : string) : bool := (0 <=? nad_find_attr n el (-1) name (Some val))%Z.

Definition _disco_pkt_sm_populate (cf : config) d s p : dret :=
  from ← p_from p;
  if negb (bool_decide (jid_node from = "")) || negb (bool_decide (jid_resource from = ""))
  then Some (d, s, mod_ERR p stanza_err_NOT_ALLOWED)
  else
    let n := p_nad p in
    let ns := nad_find_scoped_namespace n uri_DISCO_INFO None in
    let query := nad_find_elem n 1 ns (Some "query") 1 in
    if (query <? 0)%Z then Some (d, s, mod_ERR p stanza_err_BAD_REQUEST)
    else
      let elem := nad_find_elem n query ns (Some "identity") 1 in
      if (elem <? 0)%Z then Some (d, s, mod_ERR p stanza_err_BAD_REQUEST)
      else if has_attr n elem "category" "server" && has_attr n elem "type" "im" then Some (d, s, mod_HANDLED)
      else
        '(v, d) ← known_service from d;
        svc ← d_heap d !! v;
        let d := set_heap (<[v := filled n query elem svc]> (d_heap d)) d in
        '(d, s) ← _disco_generate_packets cf s d;
        Some (d, s, mod_HANDLED).

(** ** Requests to the server *)

Definition sessions_item s (ns : Z) (n : nad) (c : loc) : option nad :=
  e ← get_sess s c;
  let n := (nad_append_elem n ns "item" 3).1 in
  let n := (nad_append_attr n (-1) "jid" (jfull (e_jid e))).1 in
  Some (nad_append_attr n (-1) "name" "Active session").1.
Fixpoint sessions_items s (ns : Z) (n : nad) (l : list loc) : option nad :=
  match l with [] => Some n | c :: l => n ← sessions_item s ns n c; sessions_items s ns n l end.

Definition _disco_sessions_result s p : option (sm * pkt) :=
  let '(n, ns) := query_of p uri_DISCO_ITEMS in
  let n := (nad_append_attr n (-1) "node" "sessions").1 in
  let '(t, l) := titer (s_sessions s) in
  n ← sessions_items s ns n l.*2;
  Some (set_sessions t s, with_nad n p).

(** The node that is only for those of the list [disco]. *)
Definition is_sessions (node : option text) : bool := is_text node "sessions".
Definition may_disco s (j : jid) : bool := aci_check (sc_acls (s_conf s)) (Some "disco") j.

(** Off it goes. *)
Definition reply d s (p : pkt) : dret := s ← pkt_router s (Some p); Some (d, s, mod_HANDLED).

(** A copy of an answer for the sender of [p]. *)
Definition answer_copy (cached : option pkt) p (to from : option string) : option pkt :=
  q ← cached; q ← pkt_dup q to from; Some (pkt_id p q).

Definition sessions_info (p : pkt) : nad :=
  let '(n, ns) := query_of p uri_DISCO_INFO in
  let n := (nad_append_elem n ns "identity" 3).1 in
  let n := (nad_append_attr n (-1) "category" "hierarchy").1 in
  let n := (nad_append_attr n (-1) "type" "branch").1 in
  let n := (nad_append_attr n (-1) "name" ACTIVE_SESSIONS_NAME).1 in
  let n := (nad_append_elem n (-1) "feature" 3).1 in
  let n := (nad_append_attr n (-1) "var" uri_DISCO_INFO).1 in
  let n := (nad_append_elem n (-1) "feature" 3).1 in
  (nad_append_attr n (-1) "var" uri_DISCO_ITEMS).1.

Definition sessions_link (q : pkt) : option pkt :=
  from ← p_from q;
  let n := p_nad q in
  let n := (nad_append_elem n (nad_ens n 2) "item" 3).1 in
  let n := (nad_append_attr n (-1) "jid" (jfull from)).1 in
  let n := (nad_append_attr n (-1) "node" "sessions").1 in
  Some (with_nad (nad_append_attr n (-1) "name" ACTIVE_SESSIONS_NAME).1 q).

Definition info_get d s p (to from : jid) (node : option text) : dret :=
  match node with
  | None => q ← answer_copy (disco_info_result d) p (Some (jfull from)) (Some (jfull to)); reply d s q
  | Some _ =>
    if is_sessions node then
      if negb (may_disco s from) then Some (d, s, mod_ERR p stanza_err_ITEM_NOT_FOUND)
      else
        q ← create s "iq" (Some "result") (Some (jfull from)) (Some (jfull to));
        let q := pkt_id p q in
        reply d s (with_nad (sessions_info q) q)
    else Some (d, s, mod_ERR p stanza_err_ITEM_NOT_FOUND)
  end.

Definition agents_get d s p (to from : jid) : dret :=
  if negb (d_agents d) then Some (d, s, mod_ERR p stanza_err_NOT_ALLOWED)
  else q ← answer_copy (agents_result d) p (Some (jfull from)) (Some (jfull to)); reply d s q.

Definition items_get d s p (to from : jid) (node : option text) : dret :=
  match node with
  | None =>
    q ← answer_copy (disco_items_result d) p (Some (jfull from)) (Some (jfull to));
    qto ← p_to q;
    q ← (if may_disco s qto then sessions_link q else Some q);
    reply d s q
  | Some _ =>
    if is_sessions node then
      if negb (may_disco s from) then Some (d, s, mod_ERR p stanza_err_ITEM_NOT_FOUND)
      else
        q ← create s "iq" (Some "result") (Some (jfull from)) (Some (jfull to));
        '(s, q) ← _disco_sessions_result s (pkt_id p q);
        reply d s q
    else Some (d, s, mod_ERR p stanza_err_ITEM_NOT_FOUND)
  end.

Definition _disco_pkt_sm (cf : config) d s p : dret :=
  if (p_type p =? pkt_IQ_RESULT)%Z && (p_ns p =? ns_DISCO_INFO)%Z then _disco_pkt_sm_populate cf d s p
  else
    to ← p_to p;
    match tget (sc_hosts (s_conf s)) (jid_domain to) with
    | None => Some (d, s, mod_ERR p stanza_err_ITEM_NOT_FOUND)
    | Some _ =>
      if negb (p_type p =? pkt_IQ)%Z ||
         negb ((p_ns p =? ns_DISCO_INFO)%Z || (p_ns p =? ns_DISCO_ITEMS)%Z || (p_ns p =? ns_AGENTS)%Z)
      then Some (d, s, mod_PASS p)
      else
        '(d, s) ← generate_once cf s d;
        from ← p_from p;
        let node := attr_of (p_nad p) 2 "node" in
        if (p_ns p =? ns_DISCO_INFO)%Z then info_get d s p to from node
        else if (p_ns p =? ns_AGENTS)%Z then agents_get d s p to from
        else items_get d s p to from node
    end.

(** ** Requests to users, and from sessions *)

(** [user->active]: [_user_alloc] clears the struct, and nothing sets it. *)
Definition user_active (usr : user) : Z := 0.

Definition _disco_user_result p (usr : user) : pkt :=
  let n := (nad_append_elem (p_nad p) (-1) "identity" 3).1 in
  let n := (nad_append_attr n (-1) "category" "account").1 in
  let type := if negb (bool_decide (u_sessions usr = [])) && (user_active usr =? 0)%Z then "anonymous" else "registered" in
  let n := (nad_append_attr n (-1) "type" type).1 in
  with_nad (nad_set_attr n 1 (-1) "type" (Some "result") 6) p.

Definition _disco_in_sess (cf : config) (c : loc) d s p : dret :=
  if (p_type p =? pkt_IQ)%Z && (p_ns p =? ns_DISCO_INFO)%Z then
    e ← get_sess s c;
    own ← match p_to p with None => Some true | Some to => k ← juser (e_jid e); Some (strcmp k (jfull to) =? 0)%Z end;
    if negb (own : bool) then Some (d, s, mod_PASS p)
    else
      usr ← get_user s (e_user e);
      s ← pkt_sess s (Some (pkt_tofrom (_disco_user_result p usr))) c;
      Some (d, s, mod_HANDLED)
  else if negb (p_type p =? pkt_IQ)%Z || negb (p_ns p =? ns_AGENTS)%Z || negb (bool_decide (p_to p = None))
  then Some (d, s, mod_PASS p)
  else if negb (d_agents d) then Some (d, s, mod_ERR p stanza_err_NOT_ALLOWED)
  else
    '(d, s) ← generate_once cf s d;
    q ← answer_copy (agents_result d) p None None;
    s ← pkt_sess s (Some q) c;
    Some (d, s, mod_HANDLED).

Definition _disco_pkt_user (u : loc) d s p : dret :=
  if (p_type p =? pkt_IQ)%Z && (p_ns p =? ns_DISCO_INFO)%Z then
    if match p_to p with Some to => negb (bool_decide (jid_resource to = "")) | None => false end
    then Some (d, s, mod_PASS p)
    else
      usr ← get_user s u;
      reply d s (pkt_tofrom (_disco_user_result p usr))
  else Some (d, s, mod_PASS p).

(** ** Components that come and go *)

Definition _disco_pkt_router (cf : config) d s p : dret :=
  match p_from p with
  | None => Some (d, s, mod_PASS p)
  | Some from =>
    if negb (has (p_rtype p) route_ADV) then Some (d, s, mod_PASS p)
    else if (p_rtype p =? route_ADV)%Z then
      q ← create s "iq" (Some "get") (Some (jfull from)) (Some (sc_id (s_conf s)));
      let '(k, s) := ask_rand 40 s in
      let q := pkt_id_new k q in
      reply d s (with_nad (query_of q uri_DISCO_INFO).1 q)
    else
      match tget (d_dyn d) (jfull from) with
      | None => Some (d, s, mod_HANDLED)
      | Some v =>
        d ← _disco_unify_lists (set_heap (delete v (d_heap d)) (set_dyn (tzap (d_dyn d) (jfull from)) d));
        '(d, s) ← _disco_generate_packets cf s d;
        Some (d, s, mod_HANDLED)
      end
  end.

(** ** Start *)

Definition put_ns (n : nad) (t : T unit) (ns : Z) : T unit :=
  if (0 <? e_lcdata (elem_at n ns))%Z then tput t (string_of (nad_cdata n ns)) tt else t.

(** The service that an [item] of the configuration gives, once its jid is read. *)
Definition item_service (n : nad) (item : Z) (j : jid) : service :=
  Service j
    match attr_of n item "name" with Some v => sprint 257 v | None => "" end
    match attr_of n item "category" with Some v => sprint 257 v | None => "unknown" end
    match attr_of n item "type" with Some v => sprint 257 v | None => "unknown" end
    (foldl (put_ns n) (tnew 13) (children n item (-1) "ns")).

(** [None]: what is given as a jid is none, and NULL is followed. *)
Fixpoint load_items (n : nad) (items : list Z) d : option disco :=
  match items with
  | [] => Some d
  | item :: items =>
    match attr_of n item "jid" with
    | None => load_items n items d
    | Some v =>
      j ← text_jid v;
      let '(v, d) := alloc_service (item_service n item j) d in
      load_items n items (set_stat (tput (d_stat d) (jfull j) v) d)
    end
  end.

Definition module_init (cf : config) s : option (disco * sm) :=
  let get key def := default def (config_get_one cf key 0) in
  let agents := bool_decide (is_Some (config_get cf "discovery.agents")) in
  let d := Disco (get "discovery.identity.category" "server") (get "discovery.identity.type" "im")
             (get "discovery.identity.name" "Jabber IM server") agents ∅ 0 (tnew 51) (tnew 51) None None None None in
  n ← c_nad cf;
  let s := feature_register s uri_DISCO_INFO in
  let s := feature_register s uri_DISCO_ITEMS in
  let s := if agents then feature_register s uri_AGENTS else s in
  let discovery := nad_find_elem n 0 (-1) (Some "discovery") 1 in
  if (discovery <? 0)%Z then Some (d, s)
  else
    let items := nad_find_elem n discovery (-1) (Some "items") 1 in
    if (items <? 0)%Z then Some (d, s)
    else
      d ← load_items n (children n items (-1) "item") d;
      d ← _disco_unify_lists d;
      Some (d, s).
End disco.
