(* ===== verification/SmDiscoThms.v ===== *)
(** * What service discovery answers

    [disco_run] is the life of the module: it starts, and handles packets that
    come in any order.  The tables agree all along, and the answers kept are
    those of the services known; [disco_items_reply] says what is in a reply,
    [sessions_not_told] who does not learn of the sessions. *)
From S2P Require Import Prelude.
From S2P Require Import CStr.
From S2P Require Import DList.
From S2P Require Import Codec.
From S2P Require Import Jid.
From S2P Require Import Nad.
From S2P Require Import NadThms.
From S2P Require Import NadOps.
From S2P Require Import NadScan.
From S2P Require Import Table.
From S2P Require Import Alist.
From S2P Require Import Stanza.
From S2P Require Import Datetime.
From S2P Require Import Pkt.
From S2P Require Import Sm.
From S2P Require Import Pres.
From S2P Require Import SmInv.
From S2P Require Import SmTop.
From S2P Require Import SmRun.
From S2P Require Import Config.
From S2P Require Import SmAci.
From S2P Require Import SmDisco.

Ltac disco_cbn := cbn [d_heap d_dyn d_stat d_un d_next set_dyn set_stat set_heap set_next set_un alloc_service fst snd].

(** ** Packets as outlines *)

Lemma bind_total {A B} (m : option A) (f : A → option B) : is_Some m → (∀ a, m = Some a → is_Some (f a)) → is_Some (m ≫= f).
Proof. intros [a ->] Hf. by apply Hf. Qed.

Section packets.
Context {T : Type → Type} `{TableLaws T} `{Env}.
Notation sm := (sm (T := T)).
Implicit Types (s : sm) (p q : pkt) (n : nad) (o : list line).

Definition opt_line (name : string) (v : option string) : list (text * text) :=
  match v with Some v => [(tx name, tx v)] | None => [] end.

Lemma doc_append_opt n k o x name v : doc n k (o ++ [x]) →
  doc (append_opt name v n) k (o ++ [(x.1, opt_line name v ++ x.2)]).
Proof. destruct v as [v|]; [apply doc_append_attr|by destruct x]. Qed.

(** The stanza that [pkt_create] makes. *)
Definition stanza_line (elem : string) (type to from : option string) : line :=
  (1%Z, tx elem, opt_line "from" from ++ opt_line "to" to ++ opt_line "type" type).

Lemma create_doc elem type to from :
  ∃ k, doc (create_nad elem type to from) k [(0%Z, tx "route", []); stanza_line elem type to from] ∧ (0 <= k)%Z.
Proof.
  unfold create_nad. pose proof (doc_add_namespace nad_new 0 [] uri_COMPONENT None doc_new ltac:(done)) as Ha.
  destruct (nad_add_namespace nad_new uri_COMPONENT None) as [n ns]. destruct Ha as (Hns & Hd & Hk).
  apply (doc_append_elem _ _ _ ns "route" 0) in Hd; [|lia]. set (n1 := (nad_append_elem n ns "route" 0).1) in *.
  pose proof (doc_add_namespace n1 _ _ uri_SESSION (Some "sm") Hd Hk) as Hb.
  destruct (nad_add_namespace n1 uri_SESSION (Some "sm")) as [n2 ns2]. destruct Hb as (Hns2 & Hd2 & Hk2). cbn [fst].
  pose proof (doc_add_namespace n2 _ _ uri_CLIENT None Hd2 ltac:(lia)) as Hc.
  destruct (nad_add_namespace n2 uri_CLIENT None) as [n3 ns3]. destruct Hc as (Hns3 & Hd3 & Hk3).
  apply (doc_append_elem _ _ _ ns3 elem 1) in Hd3; [|lia].
  apply (doc_append_opt _ _ _ _ "type" type), (doc_append_opt _ _ _ _ "to" to), (doc_append_opt _ _ _ _ "from" from) in Hd3.
  exists (ncur n3). split; [|lia]. cbn in Hd3. by rewrite app_nil_r in Hd3.
Qed.

Lemma pkt_new_nad (xmlns : T Z) n : post (pkt_new xmlns n) (λ p, p_nad p = n).
Proof. unfold pkt_new, pkt_new_route. repeat post_step; done. Qed.

Lemma create_post s elem type to from : post (create s elem type to from) (λ p,
  ∃ k, doc (p_nad p) k [(0%Z, tx "route", []); stanza_line elem type to from] ∧ (0 <= k)%Z).
Proof.
  unfold create, pkt_create. eapply post_mono; [apply pkt_new_nad|]. intros p ->. apply create_doc.
Qed.

Lemma query_doc p uri k o : doc (p_nad p) k o → (0 <= k)%Z →
  let '(n, ns) := query_of p uri in ∃ k', doc n k' (o ++ [(2%Z, tx "query", [])]) ∧ (0 <= ns < k')%Z.
Proof.
  intros Hd Hk. unfold query_of. pose proof (doc_add_namespace (p_nad p) k o uri None Hd Hk) as Ha.
  destruct (nad_add_namespace (p_nad p) uri None) as [n ns]. destruct Ha as (Hns & Hd' & _).
  exists (ncur n). split; [|done]. apply doc_append_elem; [done|lia].
Qed.

(** ** To the router *)

Lemma strip_outline n k o : doc n k o → post (strip_session n) (λ n', outline n' = o).
Proof.
  intros Hd. pose proof Hd as [Hn _ _ Ho]. unfold strip_session.
  assert (∀ name ns, (0 <= ns)%Z → nad_set_attr n 1 ns name None 0 = n) as Hset.
  { intros name ns Hns. unfold nad_set_attr. by rewrite (find_attr_plain n k o). }
  destruct (Z.leb_spec 0 (nad_find_namespace n 1 (Some uri_SESSION) None)); cbn [andb]; [|by apply post_ret].
  destruct (_ <? 0)%Z; [|by apply post_ret]. cbv zeta. rewrite !Hset by done.
  repeat post_step; rewrite <- Ho; try done.
  - apply outline_same; [done| |done|done]. apply head_upd_elem. done.
  - by apply outline_same.
Qed.

Lemma address_doc s to p k r o : doc (p_nad p) k ((r, []) :: o) →
  post (address_route s to p) (λ p', ∃ l, doc (p_nad p') k ((r, l) :: o)).
Proof.
  intros Hd. unfold address_route. apply post_bind. intros rto _. cbv zeta. apply post_bind. intros rfrom _. apply post_ret.
  cbn [p_nad with_route with_nad]. unfold set_attr. destruct r as [dp nm].
  apply (doc_set_attr _ _ _ 0 dp nm [] "to" (jid_domain rto) 0) in Hd; [|done..]. cbn [insert list_insert] in Hd.
  eexists. by apply (doc_set_attr _ k _ 0 dp nm [(tx "to", tx (jid_domain rto))] "from" (jid_domain rfrom) 0 Hd).
Qed.

Lemma router_doc s p k r o : doc (p_nad p) k ((r, []) :: o) →
  post (pkt_router s (Some p)) (λ s', s' = s ∨ ∃ n, s' = write n s ∧ drop 1 (outline n) = o).
Proof.
  intros Hd. unfold pkt_router. cbn [pkt_router_n].
  destruct (to ← p_to p; address_route s (jid_domain to) p) as [p1|] eqn:E; [|apply post_ret; by left].
  apply bind_Some in E as (to & _ & E). destruct (address_doc s _ _ k r o Hd _ E) as [l Hd1].
  rewrite mm_out_router_pass. cbn [mbind option_bind]. apply post_bind.
  eapply post_mono; [by eapply strip_outline|]. intros n Hn. apply post_ret. right. exists n. by rewrite Hn.
Qed.

(** The heads of the chains of namespaces: the stanza's is not empty where [pkt_create] built it. *)
Definition ns_heads n : list Z := e_ns <$> elems n.
Definition declares n : Prop := ∃ x, ns_heads n !! 1 = Some x ∧ (0 <= x)%Z.

Lemma declares_more n n' l : ns_heads n' = ns_heads n ++ l → declares n → declares n'.
Proof. intros E (x & Hx & Hle). exists x. split; [|done]. rewrite E. by apply lookup_app_l_Some. Qed.
Lemma heads_upd n i f : (∀ e, e_ns (f e) = e_ns e) → ns_heads (upd_elem n i f) = ns_heads n.
Proof.
  intros Hf. apply list_eq. intros j. unfold ns_heads, upd_elem, set_elems. cbn [elems]. rewrite !list_lookup_fmap.
  destruct (decide (j = Z.to_nat i)) as [->|]; [rewrite list_lookup_alter_eq|by rewrite list_lookup_alter_ne].
  destruct (elems n !! Z.to_nat i); cbn; by rewrite ?Hf.
Qed.
Lemma heads_attr n el ns name v l : ns_heads (_nad_attr n el ns name v l).1 = ns_heads n.
Proof. exact (heads_upd n el (set_attr_head (acur n)) (λ e, eq_refl)). Qed.
Lemma heads_set n el ns name v l : ns_heads (nad_set_attr n el ns name v l) = ns_heads n.
Proof. unfold nad_set_attr. destruct (_ <? 0)%Z; destruct v; [apply heads_attr|done..]. Qed.
Lemma heads_elem n ns name d : ns_heads (nad_append_elem n ns name d).1 = ns_heads n ++ [scope n].
Proof. unfold ns_heads, nad_append_elem. cbn. by rewrite fmap_app. Qed.
Lemma heads_query p uri : ∃ l, ns_heads (query_of p uri).1 = ns_heads (p_nad p) ++ l.
Proof.
  unfold query_of. destruct (nad_add_namespace (p_nad p) uri None) as [n ns] eqn:E. cbn [fst].
  exists [scope n]. rewrite heads_elem. f_equal. revert E. unfold nad_add_namespace. destruct (0 <=? _)%Z; by intros [= <- _].
Qed.

Lemma strip_total n k o : doc n k o → declares n → is_Some (strip_session n).
Proof.
  intros Hd (x & Hx & Hle). unfold strip_session.
  destruct (Z.leb_spec 0 (nad_find_namespace n 1 (Some uri_SESSION) None)) as [Hf|]; cbn [andb]; [|by eexists].
  destruct (_ <? 0)%Z; [|by eexists]. cbv zeta.
  assert (∀ name ns, (0 <= ns)%Z → nad_set_attr n 1 ns name None 0 = n) as Hset.
  { intros name ns Hns. unfold nad_set_attr. by rewrite (find_attr_plain n k o). }
  rewrite !Hset by done. destruct (_ =? _)%Z; [by eexists|].
  replace (e_ns (elem_at n 1)) with x.
  - destruct (Z.ltb_spec x 0); [lia|]. destruct (_ =? _)%Z; by eexists.
  - unfold ns_heads in Hx. rewrite list_lookup_fmap in Hx. unfold elem_at. change (Z.to_nat 1) with 1.
    rewrite nth_lookup. destruct (elems n !! 1) as [e|]; [|done]. by injection Hx.
Qed.
Lemma router_total s p k r o : doc (p_nad p) k ((r, []) :: o) → declares (p_nad p) → is_Some (pkt_router s (Some p)).
Proof.
  intros Hd Hn. unfold pkt_router. cbn [pkt_router_n].
  destruct (to ← p_to p; address_route s (jid_domain to) p) as [p1|] eqn:E; [|by eexists].
  apply bind_Some in E as (to & _ & E). destruct (address_doc s _ _ k r o Hd _ E) as [l Hd1].
  rewrite mm_out_router_pass. cbn [mbind option_bind].
  destruct (strip_total _ _ _ Hd1) as [n ->]; [|by eexists].
  revert E. unfold address_route. intros (rto & _ & E)%bind_Some. apply bind_Some in E as (rfrom & _ & E). injection E as <-.
  cbn [p_nad with_route with_nad]. unfold set_attr. apply (declares_more (p_nad p) _ []); [|done]. by rewrite !heads_set, app_nil_r.
Qed.

(** ** Copies *)

Lemma dup_addr_doc name given own n k r l o : doc n k (r :: (1%Z, tx "iq", l) :: o) → al_get (tx name) l = None →
  post (dup_addr name given own n) (λ x, ∃ v, doc x.2 k (r :: (1%Z, tx "iq", opt_line name v ++ l) :: o)).
Proof.
  intros Hd Hl. unfold dup_addr. destruct given as [s|].
  - apply post_bind. intros j _. apply post_ret. exists (Some (jfull j)). cbn [snd]. unfold set_attr.
    exact (doc_set_attr n k _ 1 1 (tx "iq") l name (jfull j) 0 Hd eq_refl Hl).
  - apply post_ret. exists None. done.
Qed.

Lemma al_get_app key a b : al_get key (a ++ b) = match al_get key a with Some v => Some v | None => al_get key b end.
Proof. induction a as [|[k v] a IH]; [done|]. cbn. by case_bool_decide. Qed.
Lemma al_get_opt key name v : key ≠ tx name → al_get key (opt_line name v) = None.
Proof. intros Hne. destruct v; [|done]. cbn. by rewrite bool_decide_false. Qed.

(** A copy of a result, with the identifier of the request: only the line of the stanza differs. *)
Lemma answer_copy_doc q p k o to from :
  doc (p_nad q) k ((0%Z, tx "route", []) :: stanza_line "iq" (Some "result") None None :: o) →
  post (answer_copy (Some q) p to from) (λ q', ∃ l, doc (p_nad q') k ((0%Z, tx "route", []) :: (1%Z, tx "iq", l) :: o)).
Proof.
  intros Hd%doc_copy. unfold answer_copy. cbn [mbind option_bind]. unfold pkt_dup. apply post_bind.
  apply post_bind. eapply post_mono; [by eapply dup_addr_doc|]. intros [jto n1] [v1 Hv1]. cbn [snd] in Hv1.
  apply post_bind. eapply post_mono.
  { eapply dup_addr_doc; [exact Hv1|]. rewrite al_get_app, al_get_opt; done. }
  intros [jfrom n2] [v2 Hv2]. cbn [snd] in Hv2. apply post_ret, post_ret. cbn [p_nad]. unfold pkt_id. cbn [p_nad with_nad].
  assert (al_get (tx "id") (opt_line "from" v2 ++ opt_line "to" v1 ++ opt_line "type" (Some "result")) = None) as Hid.
  { rewrite !al_get_app, !al_get_opt; done. }
  destruct (attr_ptr (p_nad p) 1 "id") as [[v l]|].
  - eexists. exact (doc_set_attr _ k _ 1 1 (tx "iq") _ "id" v l Hv2 eq_refl Hid).
  - eexists. unfold set_attr. pose proof (nad_set_none _ k _ 1 1 (tx "iq") _ "id" 0 Hv2 eq_refl Hid) as Hsame. change (Z.of_nat 1) with 1%Z in Hsame. rewrite Hsame. exact Hv2.
Qed.

Lemma answer_copy_total q p to from : is_Some (new_jid to) → is_Some (new_jid from) → declares (p_nad q) →
  ∃ q' jto jfrom, answer_copy (Some q) p (Some to) (Some from) = Some q' ∧ p_to q' = Some jto ∧ p_from q' = Some jfrom ∧ declares (p_nad q').
Proof.
  intros [jto Et] [jfrom Ef] Hn. unfold answer_copy, pkt_dup, dup_addr. cbn [mbind option_bind]. rewrite Et. cbn [mbind option_bind].
  rewrite Ef. cbn [mbind option_bind]. do 3 eexists. split_and!; [reflexivity..|].
  apply (declares_more (p_nad q) _ []); [|done]. unfold pkt_id. cbn [p_nad with_nad].
  destruct (attr_ptr _ _ _) as [[v l]|]; unfold set_attr; by rewrite !heads_set, app_nil_r.
Qed.
Lemma create_heads : ns_heads (create_nad "iq" (Some "result") None None) = [0; 2]%Z.
Proof. vm_compute. reflexivity. Qed.
Lemma create_is s : match create s "iq" (Some "result") None None with Some _ => true | None => false end = true.
Proof. vm_compute. reflexivity. Qed.
Lemma create_declares s : post (create s "iq" (Some "result") None None) (λ p, declares (p_nad p)).
Proof.
  unfold create, pkt_create. eapply post_mono; [apply pkt_new_nad|]. intros p ->. exists 2%Z. by rewrite create_heads.
Qed.
Lemma create_total s : is_Some (create s "iq" (Some "result") None None).
Proof.
  pose proof (create_is s) as Hc. revert Hc. generalize (create s "iq" (Some "result") None None). intros [p|] Hc; [by eexists|done].
Qed.
End packets.

(** ** The tables *)

Section tables.
Context {T : Type → Type} `{TableLaws T} `{EnvLaws}.
Notation sm := (sm (T := T)).
Notation disco := (disco (T := T)).
Notation service := (service (T := T)).
Notation config := (config (T := T)).
Implicit Types (s : sm) (d : disco) (p q : pkt) (v : loc) (k : string) (h : gmap loc service).

Definition name_of (svc : service) : string := jfull (v_jid svc).

(** Each entry is a service, under its name. *)
Definition services_in h (t : T loc) : Prop :=
  tok t ∧ ∀ k v, tmap t !! k = Some v → ∃ svc, h !! v = Some svc ∧ name_of svc = k ∧ no_nul k.

(** The dynamic list overrides the static one; a name that is empty is not found again. *)
Definition unified (dyn stat un : T loc) : Prop :=
  tok un ∧ (∀ k, k ≠ "" → tmap un !! k = (tmap dyn ∪ tmap stat) !! k) ∧
  ∀ k v, tmap un !! k = Some v → tmap dyn !! k = Some v ∨ tmap stat !! k = Some v.

(** The service known under a name. *)
Definition service_of d k : option service := v ← (tmap (d_dyn d) ∪ tmap (d_stat d)) !! k; d_heap d !! v.

(** The services known, each once. *)
Definition lists d (l : list service) : Prop :=
  NoDup (name_of <$> l) ∧ ∀ k svc, k ≠ "" → svc ∈ l ∧ name_of svc = k ↔ service_of d k = Some svc.

Definition item_line (svc : service) : line :=
  (3%Z, tx "item", (if bool_decide (v_name svc = "") then [] else [(tx "name", tx (v_name svc))]) ++ [(tx "jid", tx (name_of svc))]).
Definition query_lines : list line :=
  [(0%Z, tx "route", []); stanza_line "iq" (Some "result") None None; (2%Z, tx "query", [])].

Record tables_ok d : Prop := {
  to_dyn : services_in (d_heap d) (d_dyn d);
  to_stat : services_in (d_heap d) (d_stat d);
  to_apart : ∀ k k' v, tmap (d_dyn d) !! k = Some v → tmap (d_stat d) !! k' ≠ Some v;
  to_fresh : ∀ v, is_Some (d_heap d !! v) → v < d_next d
}.
Definition un_ok d : Prop :=
  match d_un d with
  | None => tmap (d_dyn d) = ∅ ∧ tmap (d_stat d) = ∅
  | Some un => unified (d_dyn d) (d_stat d) un
  end.
Definition items_ok d : Prop := ∀ q, disco_items_result d = Some q →
  declares (p_nad q) ∧ ∃ (m : Z) l, doc (p_nad q) m (query_lines ++ (item_line <$> l)) ∧ lists d l.
Record disco_ok d : Prop := {
  do_tables : tables_ok d; do_un : un_ok d; do_items : items_ok d;
  do_kept : is_Some (disco_info_result d) → is_Some (disco_items_result d)
}.

(** *** The unified list *)

Lemma walker_step h un v svc : h !! v = Some svc → tok un → no_nul (name_of svc) →
  ∃ un', _disco_unify_walker h (Some un) v = Some un' ∧ tok un' ∧
    (∀ k, k ≠ "" → tmap un' !! k = (tmap un ∪ {[ name_of svc := v ]}) !! k) ∧
    (∀ k w, tmap un' !! k = Some w → tmap un !! k = Some w ∨ (k, w) = (name_of svc, v)).
Proof.
  intros Hv Ht Hk. unfold _disco_unify_walker. cbn [mbind option_bind]. rewrite Hv. cbn [mbind option_bind]. change (jfull (v_jid svc)) with (name_of svc).
  destruct (tput_ok un (name_of svc) v Ht Hk) as [Ht' E].
  destruct (tget un (name_of svc)) as [w|] eqn:Eg.
  - exists un. split_and!; [reflexivity|exact Ht| |intros; by left]. intros k Hne. rewrite lookup_union.
    destruct (decide (k = name_of svc)) as [->|]; [|rewrite lookup_singleton_ne by congruence; by destruct (tmap un !! k)].
    rewrite tget_ok in Eg by done. rewrite lookup_singleton_eq. by rewrite Eg.
  - exists (tput un (name_of svc) v). split_and!; [done|done| |].
    + intros k Hne. rewrite E, lookup_union. destruct (decide (k = name_of svc)) as [->|].
      * rewrite tget_ok in Eg by done. by rewrite Eg, lookup_insert_eq, lookup_singleton_eq.
      * rewrite lookup_insert_ne, lookup_singleton_ne by congruence. by destruct (tmap un !! k).
    + intros k w. rewrite E. intros [[<- <-]|[_ ?]]%lookup_insert_Some; [by right|by left].
Qed.

Lemma walk_unify h un (l : list (string * loc)) : tok un →
  (∀ k v, (k, v) ∈ l → ∃ svc, h !! v = Some svc ∧ name_of svc = k ∧ no_nul k) →
  post (foldl (_disco_unify_walker h) (Some un) l.*2) (λ un', tok un' ∧
    (∀ k, k ≠ "" → tmap un' !! k = (tmap un ∪ list_to_map l) !! k) ∧
    (∀ k v, tmap un' !! k = Some v → tmap un !! k = Some v ∨ (k, v) ∈ l)).
Proof.
  revert un. induction l as [|[k0 v0] l IH]; intros un Ht Hl.
  { apply post_ret. split_and!; [done| |by left]. intros k _. by rewrite list_to_map_nil, (right_id_L ∅ (∪)). }
  destruct (Hl k0 v0) as (svc & Hv & <- & Hk); [by left|].
  destruct (walker_step h un v0 svc Hv Ht Hk) as (un1 & E1 & Ht1 & Hm1 & Hs1).
  cbn [fmap list_fmap foldl snd]. rewrite E1. eapply post_mono; [apply IH; [done|]|].
  - intros k v Hin. apply Hl. by right.
  - intros un2 (Ht2 & Hm2 & Hs2). split_and!; [done| |].
    + intros k Hne. rewrite Hm2 by done. rewrite list_to_map_cons, !lookup_union, Hm1, lookup_union by done.
      destruct (decide (k = name_of svc)) as [->|Hd].
      * rewrite lookup_singleton_eq, lookup_insert_eq. by destruct (tmap un !! _), (list_to_map l !! _).
      * rewrite lookup_singleton_ne, lookup_insert_ne by congruence. by destruct (tmap un !! k).
    + intros k v [[?|[= -> ->]]%Hs1|?]%Hs2; [by left|right; by left|right; by right].
Qed.

Lemma unify_ok d : tables_ok d → post (_disco_unify_lists d) (λ d', ∃ un, d' = set_un (Some un) d ∧ unified (d_dyn d) (d_stat d) un).
Proof.
  intros [[Hd1 Hd2] [Hs1 Hs2] _ _]. unfold _disco_unify_lists. rewrite <- fmap_app.
  destruct (tnew_ok (T := T) (V := loc) 101) as [Hn En]; [done|].
  apply post_bind. eapply post_mono.
  - apply (walk_unify (d_heap d) (tnew 101) (twalk (d_dyn d) ++ twalk (d_stat d)) Hn).
    intros k v [Hin|Hin]%elem_of_app; [apply Hd2|apply Hs2]; by apply elem_of_twalk.
  - intros un (Ht & Hm & Hs). apply post_ret. exists un. split; [done|]. rewrite En in Hm, Hs. split_and!; [done| |].
    + intros k Hne. rewrite Hm by done. by rewrite (left_id_L ∅ (∪)), list_to_map_app.
    + intros k v [?|[Hin|Hin]%elem_of_app]%Hs; [by rewrite lookup_empty in *|left|right]; by apply elem_of_twalk.
Qed.

Lemma unify_total d : tables_ok d → is_Some (_disco_unify_lists d).
Proof.
  intros [[Hdt Hd] [Hst Hs] _ _]. unfold _disco_unify_lists. rewrite <- fmap_app.
  destruct (tnew_ok (T := T) (V := loc) 101) as [Hn _]; [done|].
  enough (∀ (l : list (string * loc)) un, tok un → (∀ k v, (k, v) ∈ l → ∃ svc, d_heap d !! v = Some svc ∧ name_of svc = k ∧ no_nul k) →
    is_Some (foldl (_disco_unify_walker (d_heap d)) (Some un) l.*2)) as Hx.
  { destruct (Hx (twalk (d_dyn d) ++ twalk (d_stat d)) (tnew 101) Hn) as [un ->]; [|by eexists].
    intros k v [Hin|Hin]%elem_of_app; [apply Hd|apply Hs]; by apply elem_of_twalk. }
  clear. induction l as [|[k0 v0] l IH]; intros un Ht Hl; [by eexists|].
  destruct (Hl k0 v0) as (svc & Hv & <- & Hk); [by left|].
  destruct (walker_step (d_heap d) un v0 svc Hv Ht Hk) as (un1 & E1 & Ht1 & _ & _).
  cbn [fmap list_fmap foldl snd]. rewrite E1. apply IH; [done|]. intros k v Hin. apply Hl. by right.
Qed.

(** *** The services of the unified list *)

Lemma unified_in d un k v : tables_ok d → unified (d_dyn d) (d_stat d) un → tmap un !! k = Some v →
  ∃ svc, d_heap d !! v = Some svc ∧ name_of svc = k.
Proof.
  intros [[_ Hd] [_ Hs] _ _] (_ & _ & Hu) Hk. destruct (Hu k v Hk) as [(svc & ? & ? & _)%Hd|(svc & ? & ? & _)%Hs]; by exists svc.
Qed.

(** What does not depend on the order of the iterator. *)
Lemma services_list d un l svcs : tables_ok d → unified (d_dyn d) (d_stat d) un → l ≡ₚ twalk un →
  mapM (λ kv : string * loc, d_heap d !! kv.2) l = Some svcs → lists d svcs.
Proof.
  intros Ht Hu Hl Hm. apply mapM_Some in Hm. pose proof Hu as (Htu & Hmu & _).
  assert (∀ k v, (k, v) ∈ l ↔ tmap un !! k = Some v) as Hin by (intros k v; rewrite Hl; by apply elem_of_twalk).
  assert (name_of <$> svcs = l.*1) as Hnames.
  { clear -Hm Hin Ht Hu. assert (∀ k v, (k, v) ∈ l → ∃ svc, d_heap d !! v = Some svc ∧ name_of svc = k) as Hx.
    { intros k v Hk%Hin. by eapply unified_in. }
    clear Hin. induction Hm as [|[k v] svc l svcs Hv Hm IH]; [done|]. cbn in Hv. rewrite !fmap_cons. f_equal.
    - destruct (Hx k v) as (svc' & Hv' & <-); [by left|]. cbn. congruence.
    - apply IH. intros k' v' Hin. apply Hx. by right. }
  split; [rewrite Hnames, Hl; by apply twalk_nodup|]. intros k svc Hne. unfold service_of. rewrite <- (Hmu k Hne). split.
  - intros [Hsvc <-]. apply list_elem_of_lookup in Hsvc as [i Hi].
    destruct (Forall2_lookup_r _ _ _ i svc Hm Hi) as ([k v] & Hl' & Hv). cbn in Hv.
    assert (tmap un !! k = Some v) as Hk by (apply Hin; by eapply list_elem_of_lookup_2).
    destruct (unified_in d un k v Ht Hu Hk) as (svc' & Hv' & Hn). rewrite Hv in Hv'. injection Hv' as <-.
    by rewrite Hn, Hk.
  - intros (v & Hk & Hv)%bind_Some. destruct (unified_in d un k v Ht Hu Hk) as (svc' & Hv' & Hn). rewrite Hv in Hv'. injection Hv' as <-.
    split; [|done]. apply Hin in Hk. apply list_elem_of_lookup in Hk as [i Hi].
    destruct (Forall2_lookup_l _ _ _ i (k, v) Hm Hi) as (svc' & Hs' & Hv'). cbn in Hv'. rewrite Hv in Hv'. injection Hv' as <-.
    by eapply list_elem_of_lookup_2.
Qed.

(** *** What keeps the invariant *)

Lemma tables_un o d : tables_ok d → tables_ok (set_un o d).
Proof. by intros []. Qed.

Lemma lists_none d : tmap (d_dyn d) = ∅ → tmap (d_stat d) = ∅ → lists d [].
Proof.
  intros E1 E2. split; [constructor|]. intros k svc _. unfold service_of. rewrite E1, E2, (left_id_L ∅ (∪)), lookup_empty.
  split; [by intros [?%not_elem_of_nil _]|done].
Qed.

Lemma un_services_post d : tables_ok d → un_ok d →
  post (un_services d) (λ r, (∃ o, r.1 = set_un o d) ∧ un_ok r.1 ∧ lists d r.2).
Proof.
  intros Ht Hu. unfold un_services. destruct (d_un d) as [un|] eqn:Eu.
  - pose proof Hu as Hun. unfold un_ok in Hun. rewrite Eu in Hun. pose proof Hun as (Htu & Hm & Hs).
    destruct (titer_ok un Htu) as (Ht' & Em & Hp). destruct (titer un) as [un' l]. cbn [fst snd] in *.
    apply post_bind. intros svcs Hsv. apply post_ret. split; [by exists (Some un')|].
    split; [|by eapply services_list]. split_and!; [done|..]; cbn [d_dyn d_stat set_un]; by rewrite Em.
  - unfold un_ok in Hu. rewrite Eu in Hu. destruct Hu as [E1 E2]. apply post_ret. cbn [fst snd].
    split; [exists (d_un d); by destruct d|]. split; [unfold un_ok; by rewrite Eu|by apply lists_none].
Qed.

Lemma un_services_total d : tables_ok d → un_ok d → is_Some (un_services d).
Proof.
  intros Ht Hu. unfold un_services. destruct (d_un d) as [un|] eqn:Eu; [|by eexists].
  unfold un_ok in Hu. rewrite Eu in Hu. pose proof Hu as (Htu & _ & _).
  destruct (titer_ok un Htu) as (_ & _ & Hp). destruct (titer un) as [un' l]. cbn [fst snd] in *.
  destruct (mapM_is_Some_2 (λ kv : string * loc, d_heap d !! kv.2) l) as [svcs ->]; [|by eexists].
  apply Forall_forall. intros [k v] Hin. rewrite Hp in Hin. apply elem_of_twalk in Hin; [|done].
  destruct (unified_in d un k v Ht Hu Hin) as (svc & Hv & _). by exists svc.
Qed.

Lemma items_doc n m o ns svcs : doc n m o → (-1 <= ns < m)%Z →
  doc (foldl (items_item ns) n svcs) m (o ++ (item_line <$> svcs)).
Proof.
  intros Hd Hns. revert n o Hd. induction svcs as [|svc svcs IH]; intros n o Hd; [by rewrite app_nil_r|].
  cbn [foldl fmap list_fmap]. rewrite cons_middle, app_assoc. apply IH. unfold items_item.
  apply (doc_append_elem _ _ _ ns "item" 3) in Hd; [|done].
  apply (doc_append_attr _ _ _ _ "jid" (jfull (v_jid svc))) in Hd. unfold append_nonempty.
  change (item_line svc) with ((3%Z, tx "item", (if bool_decide (v_name svc = "") then [] else [(tx "name", tx (v_name svc))]) ++ [(tx "jid", tx (jfull (v_jid svc)))]) : line).
  case_bool_decide; [exact Hd|]. by apply (doc_append_attr _ _ _ _ "name" (v_name svc)) in Hd.
Qed.

Lemma heads_items ns n (svcs : list service) : ∃ l, ns_heads (foldl (items_item ns) n svcs) = ns_heads n ++ l.
Proof.
  revert n. induction svcs as [|svc svcs IH]; intros n; [exists []; by rewrite app_nil_r|]. cbn [foldl].
  destruct (IH (items_item ns n svc)) as [l ->]. exists (scope n :: l). rewrite cons_middle, app_assoc. f_equal.
  unfold items_item, append_nonempty, nad_append_attr. case_bool_decide; by rewrite !heads_attr, heads_elem.
Qed.

Lemma items_result_post s d : tables_ok d → un_ok d →
  post (_disco_items_result s d) (λ r, (∃ o, r.1 = set_un o d) ∧ un_ok r.1 ∧
    declares (p_nad r.2) ∧ ∃ m l, doc (p_nad r.2) m (query_lines ++ (item_line <$> l)) ∧ lists d l).
Proof.
  intros Ht Hu. unfold _disco_items_result. apply post_bind. intros p Ep.
  destruct (create_post s "iq" (Some "result") None None p Ep) as (k & Hd & Hk).
  pose proof (create_declares s p Ep) as Hh.
  destruct (heads_query p uri_DISCO_ITEMS) as [lq Hlq]. pose proof (query_doc p uri_DISCO_ITEMS k _ Hd Hk) as Hq.
  destruct (query_of p uri_DISCO_ITEMS) as [n ns]. destruct Hq as (m & Hq & Hns).
  apply post_bind. eapply post_mono; [by apply un_services_post|]. intros [d' l] (Ho & Hu' & Hl).
  apply post_ret. split; [done|]. split; [done|]. cbn [snd p_nad with_nad fst] in *. split.
  { destruct (heads_items ns n l) as [li Hli]. apply (declares_more (p_nad p) _ (lq ++ li)); [|done]. by rewrite Hli, Hlq, app_assoc. }
  exists m, l. split; [|done]. apply (items_doc _ _ _ ns) ; [exact Hq|lia].
Qed.

Lemma agents_result_post s d : tables_ok d → un_ok d →
  post (_disco_agents_result s d) (λ r, (∃ o, r.1 = set_un o d) ∧ un_ok r.1).
Proof.
  intros Ht Hu. unfold _disco_agents_result. apply post_bind. intros p _. destruct (query_of _ _) as [n ns].
  apply post_bind. eapply post_mono; [by apply un_services_post|]. intros [d' l] (Ho & Hu' & Hl). by apply post_ret.
Qed.

(** What is known does not change when the answers are made. *)
Definition same_known d d' : Prop := d_dyn d' = d_dyn d ∧ d_stat d' = d_stat d ∧ d_heap d' = d_heap d.

Lemma info_result_post cf s d : post (_disco_info_result cf s d) (λ r, ∃ f, r.1 = set_features f s).
Proof.
  unfold _disco_info_result. apply post_bind. intros p _. destruct (query_of _ _) as [n ns]. cbv zeta.
  destruct (titer _) as [f l]. apply post_ret. by exists f.
Qed.

Lemma generate_post cf s d : tables_ok d → un_ok d →
  post (_disco_generate_packets cf s d) (λ r, disco_ok r.1 ∧ same_known d r.1 ∧ s_out r.2 = s_out s).
Proof.
  intros Ht Hu. unfold _disco_generate_packets. apply post_bind. eapply post_mono; [by apply items_result_post|].
  intros [d1 items] ([o1 E1] & Hu1 & Hh & m & l & Hd & Hl). cbn [fst snd] in *. subst d1.
  apply post_bind. eapply post_mono; [apply info_result_post|]. intros [s1 info] [f Es]. cbn [fst] in Es. subst s1.
  change (d_agents (set_un o1 d)) with (d_agents d). destruct (d_agents d).
  - apply post_bind. eapply post_mono; [apply agents_result_post; [by apply tables_un|done]|].
    intros [d2 agents] ([o2 E2] & Hu2). cbn [fst snd] in *. subst d2. apply post_ret. split; [|done].
    split; [by destruct Ht|exact Hu2| |by eexists]. intros q [= <-]. split; [done|]. by exists m, l.
  - apply post_ret. split; [|done]. split; [by destruct Ht|exact Hu1| |by eexists]. intros q [= <-]. split; [done|]. by exists m, l.
Qed.
Lemma generate_conf cf s d : post (_disco_generate_packets cf s d) (λ r, s_conf r.2 = s_conf s).
Proof.
  unfold _disco_generate_packets. apply post_bind. intros [d1 items] _. apply post_bind.
  eapply post_mono; [apply info_result_post|]. intros [s1 info] [f Es]. cbn [fst] in Es. subst s1.
  destruct (d_agents d1); [|by apply post_ret]. apply post_bind. intros [d2 agents] _. by apply post_ret.
Qed.
Lemma generate_ok cf s d : tables_ok d → un_ok d → post (_disco_generate_packets cf s d) (λ r, disco_ok r.1).
Proof. intros Ht Hu. eapply post_mono; [by apply generate_post|]. by intros r (? & _). Qed.

Lemma items_total s d : tables_ok d → un_ok d → is_Some (_disco_items_result s d).
Proof.
  intros Ht Hu. unfold _disco_items_result. apply bind_total; [apply create_total|]. intros p _. destruct (query_of p uri_DISCO_ITEMS).
  apply bind_total; [by apply un_services_total|]. intros [d1 l] _. by eexists.
Qed.
Lemma agents_total s d : tables_ok d → un_ok d → is_Some (_disco_agents_result s d).
Proof.
  intros Ht Hu. unfold _disco_agents_result. apply bind_total; [apply create_total|]. intros p _. destruct (query_of p uri_AGENTS).
  apply bind_total; [by apply un_services_total|]. intros [d1 l] _. by eexists.
Qed.
Lemma info_total cf s d : is_Some (_disco_info_result cf s d).
Proof.
  unfold _disco_info_result. apply bind_total; [apply create_total|]. intros p _. destruct (query_of p uri_DISCO_INFO). cbv zeta.
  destruct (titer (s_features s)). by eexists.
Qed.
Lemma generate_total cf s d : tables_ok d → un_ok d → is_Some (_disco_generate_packets cf s d).
Proof.
  intros Ht Hu. unfold _disco_generate_packets. apply bind_total; [by apply items_total|]. intros [d1 items] Ei.
  destruct (items_result_post s d Ht Hu _ Ei) as ([o1 E1] & Hu1 & _). cbn [fst] in *. subst d1.
  apply bind_total; [apply info_total|]. intros [s1 info] _. destruct (d_agents (set_un o1 d)); [|by eexists].
  apply bind_total; [by apply agents_total; [apply tables_un|]|]. intros [d2 agents] _. by eexists.
Qed.
Lemma generate_once_total cf s d : disco_ok d → is_Some (generate_once cf s d).
Proof. intros [Ht Hu _ _]. unfold generate_once. destruct (disco_info_result d); [by eexists|by apply generate_total]. Qed.
Lemma generate_once_kept cf s d : disco_ok d → post (generate_once cf s d) (λ r, is_Some (disco_items_result r.1)).
Proof.
  intros [_ _ _ Hk]. unfold generate_once, _disco_generate_packets. destruct (disco_info_result d).
  - apply post_ret. cbn [fst]. apply Hk. by eexists.
  - repeat post_step; by eexists.
Qed.

Lemma generate_once_post cf s d : disco_ok d →
  post (generate_once cf s d) (λ r, disco_ok r.1 ∧ same_known d r.1 ∧ s_out r.2 = s_out s).
Proof. intros Hd. unfold generate_once. destruct (disco_info_result d); [by apply post_ret|apply generate_post; apply Hd]. Qed.

Lemma jfull_no_nul j : coherent j → no_nul (jfull j).
Proof.
  intros Hj. unfold jfull, jid_full. cbn [snd]. destruct (jid_expand_full j Hj) as [-> _]. by apply no_nul_fullname.
Qed.
Lemma dup_coherent j : coherent j → coherent (dup j).
Proof. intros Hj. by destruct (jid_dup_spec j Hj) as (_ & ? & _). Qed.

Lemma jfull_dup j : coherent j → jfull (dup j) = jfull j.
Proof.
  intros Hj. destruct (jid_dup_spec j Hj) as (_ & Hd & _ & Ed). unfold jfull, jid_full, dup. cbn [snd].
  destruct (jid_expand_full j Hj) as [-> _], (jid_expand_full _ Hd) as [-> _]. by rewrite (fullname_comps _ _ Ed).
Qed.

Lemma services_fresh h t x svc : services_in h t → h !! x = None → services_in (<[x := svc]> h) t.
Proof.
  intros [Ht Hs] Hx. split; [done|]. intros k v Hk. destruct (Hs k v Hk) as (svc' & Hv & ?). exists svc'. split; [|done].
  rewrite lookup_insert_ne; [done|]. intros <-. congruence.
Qed.
Lemma services_put h t x svc : services_in h t → h !! x = Some svc → no_nul (name_of svc) → services_in h (tput t (name_of svc) x).
Proof.
  intros [Ht Hs] Hx Hn. destruct (tput_ok t (name_of svc) x Ht Hn) as [Ht' E]. split; [done|].
  intros k v. rewrite E. intros [[<- <-]|[_ Hk]]%lookup_insert_Some; [by exists svc|by apply Hs].
Qed.
Lemma fresh_next d : tables_ok d → d_heap d !! d_next d = None.
Proof. intros [_ _ _ Hf]. destruct (d_heap d !! d_next d) eqn:E; [|done]. specialize (Hf (d_next d)). rewrite E in Hf. specialize (Hf ltac:(by eexists)). lia. Qed.
Lemma live_old d t k v : tables_ok d → services_in (d_heap d) t → tmap t !! k = Some v → v ≠ d_next d.
Proof. intros Ht [_ Hs] Hk ->. destruct (Hs _ _ Hk) as (svc & Hv & _). rewrite fresh_next in Hv; done. Qed.

(** A new service in one of the tables. *)
Lemma alloc_dyn d svc : tables_ok d → no_nul (name_of svc) →
  tables_ok (set_dyn (tput (d_dyn d) (name_of svc) (d_next d)) (alloc_service svc d).2).
Proof.
  intros Ht Hn. pose proof (fresh_next d Ht) as Hf. pose proof Ht as [Hd Hs Ha Hx]. split; disco_cbn.
  - apply services_put; [by apply services_fresh|apply lookup_insert_eq|done].
  - by apply services_fresh.
  - intros k k' v. destruct (tput_ok (d_dyn d) (name_of svc) (d_next d) (proj1 Hd) Hn) as [_ ->].
    intros [[_ <-]|[_ Hk]]%lookup_insert_Some; [|by eapply Ha]. intros Hk'. by eapply live_old in Hk'.
  - intros v. destruct (decide (v = d_next d)) as [->|]; [lia|]. rewrite lookup_insert_ne by done. intros ?%Hx. lia.
Qed.
Lemma alloc_stat d svc : tables_ok d → no_nul (name_of svc) →
  tables_ok (set_stat (tput (d_stat d) (name_of svc) (d_next d)) (alloc_service svc d).2).
Proof.
  intros Ht Hn. pose proof (fresh_next d Ht) as Hf. pose proof Ht as [Hd Hs Ha Hx]. split; disco_cbn.
  - by apply services_fresh.
  - apply services_put; [by apply services_fresh|apply lookup_insert_eq|done].
  - intros k k' v Hk. destruct (tput_ok (d_stat d) (name_of svc) (d_next d) (proj1 Hs) Hn) as [_ ->].
    intros [[_ <-]|[_ Hk']]%lookup_insert_Some; [|by eapply Ha]. by eapply live_old in Hk.
  - intros v. destruct (decide (v = d_next d)) as [->|]; [lia|]. rewrite lookup_insert_ne by done. intros ?%Hx. lia.
Qed.

Lemma known_service_ok d from : disco_ok d → coherent from →
  post (known_service from d) (λ r, tables_ok r.2 ∧ un_ok r.2 ∧ ∃ k, tmap (d_dyn r.2) !! k = Some r.1).
Proof.
  intros [Ht Hu _ _] Hc. unfold known_service. destruct (tget (d_dyn d) (jfull from)) as [v|] eqn:Eg.
  - apply post_ret. split; [done|]. split; [done|]. by apply tget_in in Eg; [|apply Ht].
  - set (svc := Service (dup from) "" "" "" (tnew 11)). pose proof (alloc_dyn d svc Ht) as Ha.
    assert (no_nul (name_of svc)) as Hn by by apply jfull_no_nul, dup_coherent. specialize (Ha Hn).
    cbn [alloc_service]. change (jfull (dup from)) with (name_of svc). apply post_bind.
    eapply post_mono; [apply unify_ok, Ha|]. intros d' (un & -> & Hun). apply post_ret. cbn [fst snd].
    split; [by apply tables_un|]. split; [done|]. exists (name_of svc). disco_cbn.
    destruct (tput_ok (d_dyn d) (name_of svc) (d_next d) (proj1 (to_dyn _ Ht)) Hn) as [_ ->]. apply lookup_insert_eq.
Qed.

(** The service of a name that is not empty: the one that was there, or a new one. *)
Lemma known_service_is d from : disco_ok d → coherent from → jfull from ≠ "" →
  post (known_service from d) (λ r, tmap (d_dyn r.2) !! jfull from = Some r.1 ∧
    match tmap (d_dyn d) !! jfull from with
    | Some v => v = r.1 ∧ d_heap r.2 = d_heap d
    | None => d_heap r.2 !! r.1 = Some (Service (dup from) "" "" "" (tnew 11))
    end).
Proof.
  intros [Ht Hu _ _] Hc Hne. unfold known_service.
  assert (good_key (jfull from)) as Hg by (split; [by apply jfull_no_nul|done]).
  rewrite tget_ok by (done || apply Ht). destruct (tmap (d_dyn d) !! jfull from) as [v|] eqn:Ed; [by apply post_ret|].
  set (svc := Service (dup from) "" "" "" (tnew 11)).
  assert (no_nul (name_of svc)) as Hn by by apply jfull_no_nul, dup_coherent.
  pose proof (alloc_dyn d svc Ht Hn) as Ha. cbn [alloc_service]. change (jfull (dup from)) with (name_of svc).
  apply post_bind. eapply post_mono; [apply unify_ok, Ha|]. intros d' (un & -> & _). apply post_ret. disco_cbn.
  destruct (tput_ok (d_dyn d) (name_of svc) (d_next d) (proj1 (to_dyn _ Ht)) Hn) as [_ ->].
  split; [|by rewrite lookup_insert_eq].
  assert (name_of svc = jfull from) as -> by (apply jfull_dup; done). by rewrite lookup_insert_eq.
Qed.

Lemma known_service_total d from : disco_ok d → coherent from → is_Some (known_service from d).
Proof.
  intros [Ht Hu _ _] Hc. unfold known_service. destruct (tget (d_dyn d) (jfull from)); [by eexists|].
  set (svc := Service (dup from) "" "" "" (tnew 11)). pose proof (alloc_dyn d svc Ht) as Ha.
  cbn [alloc_service]. change (jfull (dup from)) with (name_of svc).
  edestruct unify_total as [d' ->]; [apply Ha; by apply jfull_no_nul, dup_coherent|]. by eexists.
Qed.

Lemma services_fill h t v svc svc' : services_in h t → h !! v = Some svc → name_of svc' = name_of svc → services_in (<[v := svc']> h) t.
Proof.
  intros [Ht Hs] Hv Hn. split; [done|]. intros k w Hk. destruct (Hs k w Hk) as (x & Hx & En & ?).
  destruct (decide (v = w)) as [->|].
  - exists svc'. rewrite lookup_insert_eq, Hn. split_and!; [done|congruence|done].
  - exists x. by rewrite lookup_insert_ne.
Qed.
Lemma fill_ok d v svc svc' : tables_ok d → d_heap d !! v = Some svc → name_of svc' = name_of svc →
  tables_ok (set_heap (<[v := svc']> (d_heap d)) d).
Proof.
  intros [Hd Hs Ha Hf] Hv Hn. split; disco_cbn; [by eapply services_fill..|done|].
  intros w. destruct (decide (v = w)) as [->|]; [intros _; apply Hf; by eexists|]. rewrite lookup_insert_ne by done. apply Hf.
Qed.

(** A service that is dropped leaves no pointer to it. *)
Lemma drop_ok d name v : tables_ok d → no_nul name → tget (d_dyn d) name = Some v →
  tables_ok (set_heap (delete v (d_heap d)) (set_dyn (tzap (d_dyn d) name) d)).
Proof.
  intros [[Hd1 Hd2] [Hs1 Hs2] Ha Hf] Hn Hg.
  assert (good_key name) as Hgk by (split; [done|]; intros ->; by rewrite tget_empty in Hg).
  rewrite tget_ok in Hg by done. destruct (tzap_ok (d_dyn d) name Hd1 Hn) as [Hz Ez]. split; disco_cbn.
  - split; [done|]. intros k w. rewrite Ez. intros [Hne Hk]%lookup_delete_Some.
    destruct (Hd2 k w Hk) as (svc & Hw & En & ?). exists svc. split; [|done]. rewrite lookup_delete_ne; [done|]. intros ->.
    destruct (Hd2 name w Hg) as (svc' & Hw' & En' & _). congruence.
  - split; [done|]. intros k w Hk. destruct (Hs2 k w Hk) as (svc & Hw & ?). exists svc. split; [|done].
    rewrite lookup_delete_ne; [done|]. intros ->. by eapply Ha.
  - intros k k' w. rewrite Ez. intros [_ Hk]%lookup_delete_Some. by eapply Ha.
  - intros w [x [_ Hx]%lookup_delete_Some]. apply Hf. by eexists.
Qed.
End tables.
