(* ===== verification/SmDiscoSpec.v ===== *)
(** * Service discovery as its users see it

    The life of the module, and what is in the replies of [_disco_pkt_sm]. *)
From S2P Require Import Prelude.
From S2P Require Import CStr.
From S2P Require Import DList.
From S2P Require Import Codec.
From S2P Require Import Jid.
From S2P Require Import Nad.
From S2P Require Import NadThms.
From S2P Require Import NadOps.
From S2P Require Import NadScan.
From S2P Require Import Table.
From S2P Require Import Alist.
From S2P Require Import Stanza.
From S2P Require Import Datetime.
From S2P Require Import Pkt.
From S2P Require Import Sm.
From S2P Require Import Pres.
From S2P Require Import SmInv.
From S2P Require Import SmTop.
From S2P Require Import SmLife.
From S2P Require Import SmDispatch.
From S2P Require Import SmRun.
From S2P Require Import SmSpec.
From S2P Require Import Config.
From S2P Require Import SmAci.
From S2P Require Import SmDisco.
From S2P Require Import SmDiscoThms.

Section spec.
Context {T : Type → Type} `{TableLaws T} `{EnvLaws}.
Notation sm := (sm (T := T)).
Notation disco := (disco (T := T)).
Notation config := (config (T := T)).
Implicit Types (s : sm) (d : disco) (p q : pkt) (k : string) (cf : config).

Definition sent_by_jid p : Prop := ∀ from, p_from p = Some from → coherent from.

Lemma stanza_jid_coherent n name j : stanza_jid n name = Some j → coherent j.
Proof. unfold stanza_jid. intros (v & _ & E)%bind_Some. case_bool_decide; [done|]. by eapply text_jid_coherent. Qed.
Lemma pkt_new_sent (xmlns : T Z) n : post (pkt_new xmlns n) sent_by_jid.
Proof.
  unfold pkt_new, pkt_new_route, sent_by_jid. repeat post_step; cbn [p_from]; intros from Hf; try done;
    first [by eapply stanza_jid_coherent | apply bind_Some in Hf as (v & _ & Hv); by eapply text_jid_coherent].
Qed.

Lemma populate_ok cf d s p : disco_ok d → sent_by_jid p → post (_disco_pkt_sm_populate cf d s p) (λ r, disco_ok r.1.1).
Proof.
  intros Hd Hp. unfold _disco_pkt_sm_populate. apply post_bind. intros from Hf.
  destruct (_ || _); [by apply post_ret|]. cbv zeta. destruct (_ <? 0)%Z; [by apply post_ret|].
  destruct (_ <? 0)%Z; [by apply post_ret|]. destruct (_ && _); [by apply post_ret|].
  apply post_bind. eapply post_mono; [apply known_service_ok; [done|by apply Hp]|].
  intros [v d1] (Ht & Hu & _). cbn [fst snd] in *. apply post_bind. intros svc Hv.
  apply post_bind. eapply post_mono; [apply generate_ok|].
  - by eapply fill_ok.
  - exact Hu.
  - intros [d2 s2] Hok. by apply post_ret.
Qed.

Lemma reply_same d s q : post (reply d s q) (λ r, r.1.1 = d).
Proof. unfold reply. apply post_bind. intros s' _. by apply post_ret. Qed.
Ltac same_disco := repeat first [apply reply_same | post_step | apply post_ret]; try done.

Lemma info_get_same d s p to from node : post (info_get d s p to from node) (λ r, r.1.1 = d).
Proof. unfold info_get. same_disco. Qed.
Lemma agents_get_same d s p to from : post (agents_get d s p to from) (λ r, r.1.1 = d).
Proof. unfold agents_get. same_disco. Qed.
Lemma items_get_same d s p to from node : post (items_get d s p to from node) (λ r, r.1.1 = d).
Proof. unfold items_get. same_disco. Qed.

Lemma pkt_sm_ok cf d s p : disco_ok d → sent_by_jid p → post (_disco_pkt_sm cf d s p) (λ r, disco_ok r.1.1).
Proof.
  intros Hd Hp. unfold _disco_pkt_sm. destruct (_ && _); [by apply populate_ok|]. apply post_bind. intros to _.
  destruct (tget _ _); [|by apply post_ret]. destruct (_ || _); [by apply post_ret|].
  apply post_bind. eapply post_mono; [by apply generate_once_post|]. intros [d1 s1] (Hd1 & _ & _). apply post_bind. intros from _. cbv zeta.
  assert (∀ m : dret (T := T), post m (λ r, r.1.1 = d1) → post m (λ r, disco_ok r.1.1)) as Hm.
  { intros m Hm. eapply post_mono; [exact Hm|]. by intros [[d2 s2] r] ->. }
  destruct (_ =? _)%Z; [apply Hm, info_get_same|]. destruct (_ =? _)%Z; [apply Hm, agents_get_same|apply Hm, items_get_same].
Qed.

Lemma in_sess_ok cf c d s p : disco_ok d → post (_disco_in_sess cf c d s p) (λ r, disco_ok r.1.1).
Proof.
  intros Hd. unfold _disco_in_sess. destruct (_ && _); [by repeat first [post_step | apply post_ret]|].
  destruct (_ || _); [by apply post_ret|]. destruct (negb _); [by apply post_ret|].
  apply post_bind. eapply post_mono; [by apply generate_once_post|]. intros [d1 s1] (Hd1 & _ & _).
  apply post_bind. intros q _. apply post_bind. intros s2 _. by apply post_ret.
Qed.

Lemma pkt_router_disco_ok cf d s p : disco_ok d → sent_by_jid p → post (_disco_pkt_router cf d s p) (λ r, disco_ok r.1.1).
Proof.
  intros Hd Hp. unfold _disco_pkt_router. destruct (p_from p) as [from|] eqn:Ef; [|by apply post_ret].
  destruct (negb _); [by apply post_ret|]. destruct (_ =? _)%Z.
  { apply post_bind. intros q _. destruct (ask_rand 40 s) as [k s1]. eapply post_mono; [apply reply_same|]. by intros r ->. }
  destruct (tget (d_dyn d) (jfull from)) as [v|] eqn:Eg; [|by apply post_ret].
  pose proof (drop_ok d (jfull from) v (do_tables _ Hd) (jfull_no_nul _ (Hp _ Ef)) Eg) as Ht.
  apply post_bind. eapply post_mono; [apply unify_ok, Ht|]. intros d1 (un & -> & Hun).
  apply post_bind. eapply post_mono; [apply generate_ok; [by apply tables_un|exact Hun]|].
  intros [d2 s2] Hok. by apply post_ret.
Qed.

Lemma load_items_ok n items d : tables_ok d → tmap (d_dyn d) = ∅ → disco_items_result d = None → disco_info_result d = None →
  post (load_items n items d) (λ d', tables_ok d' ∧ disco_items_result d' = None ∧ disco_info_result d' = None).
Proof.
  revert d. induction items as [|item items IH]; intros d Ht He Hi Hf; cbn [load_items]; [by apply post_ret|].
  destruct (attr_of n item "jid") as [v|]; [|by apply IH]. apply post_bind. intros j Hj.
  apply (IH (set_stat (tput (d_stat d) (jfull j) (d_next d)) (alloc_service (item_service n item j) d).2)); [|done|done|done].
  apply (alloc_stat d (item_service n item j)); [done|]. by apply jfull_no_nul, (text_jid_coherent v).
Qed.

Lemma module_init_ok cf s : post (module_init cf s) (λ r, disco_ok r.1).
Proof.
  unfold module_init. cbv zeta. apply post_bind. intros n _.
  match goal with |- context [Disco ?a ?b ?c ?e ?h ?x ?t1 ?t2 None None None None] => set (d := Disco a b c e h x t1 t2 None None None None) end.
  destruct (tnew_ok (T := T) (V := loc) 51) as [Hn En]; [done|].
  assert (services_in (∅ : gmap loc (service (T := T))) (tnew 51 : T loc)) as Hs by (split; [done|intros k v; by rewrite En, lookup_empty]).
  assert (tables_ok d) as Ht.
  { split; [done..| |]; cbn; [intros k k' v; by rewrite En, lookup_empty|intros v; rewrite lookup_empty; by intros [? ?]]. }
  assert (disco_ok d) as Hd by (split; [done|by split|done|by intros [? ?]]).
  destruct (_ <? 0)%Z; [by apply post_ret|]. destruct (_ <? 0)%Z; [by apply post_ret|].
  apply post_bind. eapply post_mono; [apply (load_items_ok n _ d Ht); done|]. intros d1 (Ht1 & Hi1 & Hf1).
  apply post_bind. eapply post_mono; [by apply unify_ok|]. intros d2 (un & -> & Hun). apply post_ret.
  split; [by apply tables_un|exact Hun|intros q Hq; cbn in Hq; congruence|].
  intros [q Hq]. cbn in Hq. congruence.
Qed.

(** ** The life of the module *)

(** Packets come in any order, and between them the session manager may go on in any way. *)
Inductive disco_run cf : disco → Prop :=
  | run_init s d s' : module_init cf s = Some (d, s') → disco_run cf d
  | run_pkt_sm d s (xmlns : T Z) n p d' s' r : disco_run cf d →
      pkt_new xmlns n = Some p → _disco_pkt_sm cf d s p = Some (d', s', r) → disco_run cf d'
  | run_in_sess d c s p d' s' r : disco_run cf d → _disco_in_sess cf c d s p = Some (d', s', r) → disco_run cf d'
  | run_pkt_user d u s p d' s' r : disco_run cf d → _disco_pkt_user u d s p = Some (d', s', r) → disco_run cf d'
  | run_pkt_router d s (xmlns : T Z) n p d' s' r : disco_run cf d →
      pkt_new xmlns n = Some p → _disco_pkt_router cf d s p = Some (d', s', r) → disco_run cf d'.

Lemma disco_run_ok cf d : disco_run cf d → disco_ok d.
Proof.
  induction 1 as [s d s' E|d s xmlns n p d' s' r _ IH En E|d c s p d' s' r _ IH E|d u s p d' s' r _ IH E|d s xmlns n p d' s' r _ IH En E].
  - exact (module_init_ok cf s _ E).
  - exact (pkt_sm_ok cf d s p IH (pkt_new_sent _ _ _ En) _ E).
  - exact (in_sess_ok cf c d s p IH _ E).
  - assert (post (_disco_pkt_user u d s p) (λ r, r.1.1 = d)) as Hu.
    { unfold _disco_pkt_user. same_disco. }
    by rewrite <- (Hu _ E) in IH.
  - exact (pkt_router_disco_ok cf d s p IH (pkt_new_sent _ _ _ En) _ E).
Qed.

(** ** Replies *)

Lemma lists_known d d' l : same_known d d' → lists d' l → lists d l.
Proof. intros (E1 & E2 & E3) [Hn Hl]. split; [done|]. intros k svc Hne. rewrite Hl by done. unfold service_of. by rewrite E1, E2, E3. Qed.

(** The link to the sessions, for those who may see them. *)
Definition sessions_line (from : jid) : line :=
  (3%Z, tx "item", [(tx "name", tx ACTIVE_SESSIONS_NAME); (tx "node", tx "sessions"); (tx "jid", tx (jfull from))]).

Lemma sessions_link_doc q m o : doc (p_nad q) m o →
  post (sessions_link q) (λ q', ∃ from, doc (p_nad q') m (o ++ [sessions_line from])).
Proof.
  intros Hd. unfold sessions_link. apply post_bind. intros from _. cbv zeta. apply post_ret. exists from. cbn [p_nad with_nad].
  assert (doc (p_nad q) (ncur (p_nad q)) o) as Hd1 by (destruct Hd; split; done).
  apply (doc_append_elem _ _ _ (nad_ens (p_nad q) 2) "item" 3) in Hd1.
  2: { apply (eo_my_ns _ _ (elem_at_ok (p_nad q) 2 (doc_nad _ _ _ Hd))). }
  apply (doc_append_attr _ _ _ _ "jid" (jfull from)), (doc_append_attr _ _ _ _ "node" "sessions"),
    (doc_append_attr _ _ _ _ "name" ACTIVE_SESSIONS_NAME) in Hd1.
  eapply doc_weaken; [exact Hd1|apply Hd].
Qed.

Lemma reply_doc d s q m r o : doc (p_nad q) m ((r, []) :: o) →
  post (reply d s q) (λ x, x.1.1 = d ∧ x.2 = mod_HANDLED ∧ ∃ out, s_out x.1.2 = s_out s ++ out ∧ length out ≤ 1 ∧
    ∀ n, n ∈ out → drop 1 (outline n) = o).
Proof.
  intros Hd. unfold reply. apply post_bind. eapply post_mono; [by eapply router_doc|]. intros s' [->|(n & -> & Hn)]; apply post_ret.
  - split; [done|]. split; [done|]. exists []. rewrite app_nil_r. split_and!; [done|cbn; lia|]. by intros n ?%not_elem_of_nil.
  - split; [done|]. split; [done|]. exists [n]. split_and!; [done|done|]. by intros n' ->%list_elem_of_singleton.
Qed.

Definition items_replied d s s' : Prop :=
  ∃ out, s_out s' = s_out s ++ out ∧ length out ≤ 1 ∧
    ∀ n, n ∈ out → ∃ l extra, lists d l ∧ (extra = [] ∨ ∃ from, extra = [sessions_line from]) ∧
      drop 2 (outline n) = (2%Z, tx "query", []) :: (item_line <$> l) ++ extra.

Lemma sessions_link_total q from : p_from q = Some from → is_Some (sessions_link q).
Proof. intros E. unfold sessions_link. rewrite E. by eexists. Qed.
Lemma sessions_link_declares q : declares (p_nad q) → post (sessions_link q) (λ q', declares (p_nad q')).
Proof.
  intros Hn. unfold sessions_link. apply post_bind. intros from _. cbv zeta. apply post_ret. cbn [p_nad with_nad].
  unfold nad_append_attr. eapply declares_more; [|exact Hn]. rewrite !heads_attr. apply heads_elem.
Qed.

(** The reply from the answer that is kept: it is made and sent, whatever the answer lists. *)
Lemma items_get_reply d s p to from : disco_ok d → is_Some (disco_items_result d) →
  is_Some (new_jid (jfull from)) → is_Some (new_jid (jfull to)) →
  ∃ s', items_get d s p to from None = Some (d, s', mod_HANDLED) ∧ items_replied d s s'.
Proof.
  intros Hok [q0 E0] Hf Ht. unfold items_get. rewrite E0. destruct (do_items _ Hok q0 E0) as (Hn0 & m & l & Hd & Hl).
  destruct (answer_copy_total q0 p _ _ Hf Ht Hn0) as (q & qto & qfrom & Eq & Eqto & Eqfrom & Hnq).
  destruct (answer_copy_doc q0 p m _ (Some (jfull from)) (Some (jfull to)) Hd q Eq) as [la Hq].
  rewrite Eq. cbn [mbind option_bind]. rewrite Eqto. cbn [mbind option_bind].
  assert (∃ q2 extra lb, (if may_disco s qto then sessions_link q else Some q) = Some q2 ∧ declares (p_nad q2) ∧
    (extra = [] ∨ ∃ from, extra = [sessions_line from]) ∧
    doc (p_nad q2) m ((0%Z, tx "route", []) :: (1%Z, tx "iq", lb) :: ((2%Z, tx "query", []) :: (item_line <$> l)) ++ extra))
    as (q2 & extra & lb & -> & Hn2 & Hex & Hq2).
  { destruct (may_disco s qto).
    - destruct (sessions_link_total q _ Eqfrom) as [q2 Eq2]. destruct (sessions_link_doc q m _ Hq q2 Eq2) as [from' Hd2].
      exists q2, [sessions_line from'], la. split_and!; [done|by apply (sessions_link_declares q Hnq)|right; by eexists|done].
    - exists q, [], la. split_and!; [done|done|by left|by rewrite app_nil_r]. }
  cbn [mbind option_bind]. destruct (router_total s q2 m (0%Z, tx "route") _ Hq2 Hn2) as [s' Er].
  assert (reply d s q2 = Some (d, s', mod_HANDLED)) as Ey by (unfold reply; by rewrite Er). rewrite Ey.
  destruct (reply_doc d s q2 m (0%Z, tx "route") _ Hq2 _ Ey) as (_ & _ & out & Ho & Hlen & Hall). cbn [fst snd] in *.
  exists s'. split; [done|]. exists out. split_and!; [done|done|]. intros n Hn. exists l, extra. split_and!; [done|done|].
  rewrite <- (skipn_skipn 1 1), (Hall n Hn). done.
Qed.

(** ** The module goes on *)

Lemma populate_total cf d s p from : disco_ok d → sent_by_jid p → p_from p = Some from → is_Some (_disco_pkt_sm_populate cf d s p).
Proof.
  intros Hd Hp Ef. unfold _disco_pkt_sm_populate. rewrite Ef. apply bind_total; [by eexists|]. intros from' [= <-].
  destruct (_ || _); [by eexists|]. cbv zeta. destruct (_ <? 0)%Z; [by eexists|].
  destruct (_ <? 0)%Z; [by eexists|]. destruct (_ && _); [by eexists|].
  apply bind_total; [by apply known_service_total; [|apply Hp]|]. intros [v d1] E1.
  destruct (known_service_ok d from Hd (Hp _ Ef) _ E1) as (Ht & Hu & k & Hk). cbn [fst snd] in *.
  destruct (to_dyn _ Ht) as [_ Hin]. destruct (Hin k v Hk) as (svc & Hv & _). rewrite Hv.
  apply bind_total; [by eexists|]. intros svc' [= <-].
  apply bind_total; [|intros [d2 s2] _; by eexists]. apply generate_total; [|exact Hu]. by eapply fill_ok.
Qed.
Lemma departure_total cf d s p : disco_ok d → sent_by_jid p → p_rtype p ≠ route_ADV → is_Some (_disco_pkt_router cf d s p).
Proof.
  intros Hd Hp Hr. unfold _disco_pkt_router. destruct (p_from p) as [from|] eqn:Ef; [|by eexists].
  destruct (negb _); [by eexists|]. destruct (Z.eqb_spec (p_rtype p) route_ADV); [done|].
  destruct (tget (d_dyn d) (jfull from)) as [v|] eqn:Eg; [|by eexists].
  pose proof (drop_ok d (jfull from) v (do_tables _ Hd) (jfull_no_nul _ (Hp _ Ef)) Eg) as Ht.
  apply bind_total; [by apply unify_total|]. intros d1 E1. destruct (unify_ok _ Ht _ E1) as (un & -> & Hun).
  apply bind_total; [apply generate_total; [by apply tables_un|exact Hun]|]. intros [d2 s2] _. by eexists.
Qed.

(** No pointer to a service that was freed is followed, whichever answer or departure comes next. *)
Definition keeps_going cf d : Prop :=
  ∀ s (xmlns : T Z) n p, pkt_new xmlns n = Some p →
    (p_rtype p ≠ route_ADV → is_Some (_disco_pkt_router cf d s p)) ∧
    (p_type p = pkt_IQ_RESULT → p_ns p = ns_DISCO_INFO → is_Some (p_from p) → is_Some (_disco_pkt_sm cf d s p)).

Lemma reached_keeps_going cf d : disco_ok d → keeps_going cf d.
Proof.
  intros Hd s xmlns n p Ep. pose proof (pkt_new_sent _ _ _ Ep) as Hp. split.
  - by apply departure_total.
  - intros Ety Ens [from Ef]. unfold _disco_pkt_sm. rewrite Ety, Ens. by eapply populate_total.
Qed.

(** C23: whatever answers, requests, arrivals and departures came before, a request for the items of
    the server itself is handled and answered with one document at most, and its query has an item for
    each service that is known, one that answered overriding one of the configuration, each once and
    with its name as it is now: the answer that is kept is never out of date.  After them comes at most
    the link to the sessions.  No service that was freed is read: neither then, nor when the next answer
    or departure is handled.  The condition is that the request has a sender and a recipient, and that
    both can be read again as jids, since the reply is made with their texts. *)
Theorem disco_items_reply cf d s p to from :
  disco_run cf d → p_type p = pkt_IQ → p_ns p = ns_DISCO_ITEMS → p_to p = Some to → p_from p = Some from →
  is_Some (new_jid (jfull from)) → is_Some (new_jid (jfull to)) →
  is_Some (tget (sc_hosts (s_conf s)) (jid_domain to)) → attr_of (p_nad p) 2 "node" = None →
  keeps_going cf d ∧
  ∃ d' s', _disco_pkt_sm cf d s p = Some (d', s', mod_HANDLED) ∧ items_replied d s s'.
Proof.
  intros Hrun Ety Ens Eto Efrom Hf Ht [[] Hhost] Hnode. apply disco_run_ok in Hrun. split; [by apply reached_keeps_going|].
  unfold _disco_pkt_sm. rewrite Ety, Ens, Eto, Efrom, Hnode. cbn [andb Z.eqb mbind option_bind]. rewrite Hhost. cbn -[generate_once].
  destruct (generate_once_total cf s d Hrun) as [[d1 s1] Eg]. rewrite Eg. cbn [mbind option_bind].
  destruct (generate_once_post cf s d Hrun _ Eg) as (Hok & Hknown & Hout). pose proof (generate_once_kept cf s d Hrun _ Eg) as Hkept.
  cbn [fst snd] in *. destruct (items_get_reply d1 s1 p to from Hok Hkept Hf Ht) as (s' & Er & out & Ho & Hlen & Hall).
  exists d1, s'. split; [exact Er|]. exists out. rewrite Ho, Hout. split_and!; [done|done|].
  intros n Hn. destruct (Hall n Hn) as (l & extra & Hl & ?). exists l, extra. split; [by eapply lists_known|done].
Qed.

(** ** Who does not learn of the sessions *)

(** The session manager with other users and sessions. *)
Definition with_people (uh : gmap loc (user (T := T))) (eh : gmap loc sess) (us ss : T loc) s : sm :=
  set_sessions ss (set_users us (set_eheap eh (set_uheap uh s))).

Section people.
Context (uh : gmap loc (user (T := T))) (eh : gmap loc sess) (us ss : T loc).
Notation W := (with_people uh eh us ss).
Definition with_ret (x : disco * sm * mod_ret) : disco * sm * mod_ret := (x.1.1, W x.1.2, x.2).

Lemma pkt_router_people s (q : option pkt) : pkt_router (W s) q = W <$> pkt_router s q.
Proof.
  destruct q as [q|]; [|done]. unfold pkt_router. cbn [pkt_router_n]. change (s_conf (W s)) with (s_conf s).
  change (address_route (W s)) with (address_route s).
  destruct (to ← p_to q; address_route s (jid_domain to) q) as [q1|]; [|done].
  rewrite !mm_out_router_pass. cbn [mbind option_bind]. by destruct (strip_session _).
Qed.
Lemma reply_people d s q : reply d (W s) q = with_ret <$> reply d s q.
Proof. unfold reply. rewrite pkt_router_people. by destruct (pkt_router s (Some q)). Qed.

Lemma create_people s : create (W s) = create s.
Proof. unfold create. change (s_xmlns (W s)) with (s_xmlns s). reflexivity. Qed.
Lemma items_result_people s d : _disco_items_result (W s) d = _disco_items_result s d.
Proof. unfold _disco_items_result. by rewrite create_people. Qed.
Lemma agents_result_people s d : _disco_agents_result (W s) d = _disco_agents_result s d.
Proof. unfold _disco_agents_result. by rewrite create_people. Qed.

Lemma features_people f s : set_features f (W s) = W (set_features f s).
Proof. reflexivity. Qed.
Lemma extend_people cf s n : mm_disco_extend cf (W s) n = mm_disco_extend cf s n.
Proof.
  unfold mm_disco_extend. change (s_chains (W s)) with (s_chains s).
  assert (disco_extend_handler cf (W s) = disco_extend_handler cf s) as ->; [|reflexivity].
  unfold disco_extend_handler, _iq_version_disco_extend. change (s_conf (W s)) with (s_conf s). reflexivity.
Qed.

Definition with_sm (x : disco * sm) : disco * sm := (x.1, W x.2).
Lemma info_result_people cf s d : _disco_info_result cf (W s) d = (λ x, (W x.1, x.2)) <$> _disco_info_result cf s d.
Proof.
  unfold _disco_info_result. rewrite create_people. change (s_features (W s)) with (s_features s).
  destruct (create s "iq" (Some "result") None None) as [q|]; [|reflexivity]. cbn [mbind option_bind].
  destruct (query_of q uri_DISCO_INFO) as [n ns]. destruct (titer (s_features s)) as [f l].
  rewrite features_people, extend_people. reflexivity.
Qed.
(** Steps of the monad as equations: the terms are too large to be compared by evaluation. *)
Lemma bind_some {A B} (a : A) (f : A → option B) : Some a ≫= f = f a.
Proof. reflexivity. Qed.
Lemma fmap_bind {A B C} (o : option A) (f : A → option B) (g : B → C) : g <$> (o ≫= f) = o ≫= (λ a, g <$> f a).
Proof. by destruct o. Qed.
Lemma bind_fmap {A B C} (o : option A) (f : A → B) (g : B → option C) : (f <$> o) ≫= g = o ≫= (λ a, g (f a)).
Proof. by destruct o. Qed.
Lemma bind_eq {A B} (o : option A) (f g : A → option B) : (∀ a, f a = g a) → o ≫= f = o ≫= g.
Proof. intros Hf. destruct o; [apply Hf|reflexivity]. Qed.

Lemma generate_people cf d s : _disco_generate_packets cf (W s) d = with_sm <$> _disco_generate_packets cf s d.
Proof.
  unfold _disco_generate_packets. rewrite items_result_people, fmap_bind. apply bind_eq. intros [d1 items].
  rewrite info_result_people, bind_fmap, fmap_bind. apply bind_eq. intros [s1 info]. cbv beta iota.
  destruct (d_agents d1); [|reflexivity]. change ((s1, info).1) with s1. rewrite agents_result_people, fmap_bind. apply bind_eq. by intros [d2 agents].
Qed.
Lemma generate_once_people cf d s : generate_once cf (W s) d = with_sm <$> generate_once cf s d.
Proof. unfold generate_once. destruct (disco_info_result d); [done|apply generate_people]. Qed.
Lemma populate_people cf d s p : _disco_pkt_sm_populate cf d (W s) p = with_ret <$> _disco_pkt_sm_populate cf d s p.
Proof.
  unfold _disco_pkt_sm_populate. rewrite fmap_bind. apply bind_eq. intros from.
  destruct (_ || _); [reflexivity|]. cbv zeta. destruct (_ <? 0)%Z; [reflexivity|]. destruct (_ <? 0)%Z; [reflexivity|].
  destruct (_ && _); [reflexivity|]. rewrite fmap_bind. apply bind_eq. intros [v d1].
  rewrite fmap_bind. apply bind_eq. intros svc. rewrite generate_people, bind_fmap, fmap_bind. apply bind_eq. by intros [d2 s2].
Qed.

Lemma may_people s : may_disco (W s) = may_disco s.
Proof. unfold may_disco. change (s_conf (W s)) with (s_conf s). reflexivity. Qed.
Lemma info_get_people d s p to from node : may_disco s from = false →
  info_get d (W s) p to from node = with_ret <$> info_get d s p to from node.
Proof.
  intros Hno. unfold info_get. rewrite may_people, Hno. cbn [negb]. destruct node; [by destruct (is_sessions _)|].
  rewrite fmap_bind. apply bind_eq. intros q. apply reply_people.
Qed.
Lemma agents_get_people d s p to from : agents_get d (W s) p to from = with_ret <$> agents_get d s p to from.
Proof.
  unfold agents_get. destruct (negb _); [reflexivity|]. rewrite fmap_bind. apply bind_eq. intros q. apply reply_people.
Qed.
Lemma items_get_people d s p to from node : may_disco s from = false →
  items_get d (W s) p to from node = with_ret <$> items_get d s p to from node.
Proof.
  intros Hno. unfold items_get. rewrite may_people, Hno. cbn [negb]. destruct node; [by destruct (is_sessions _)|].
  rewrite fmap_bind. apply bind_eq. intros q. rewrite fmap_bind. apply bind_eq. intros qto.
  rewrite fmap_bind. apply bind_eq. intros q2. apply reply_people.
Qed.
End people.

(** C24: a packet for the server itself that comes from nobody on the lists [all] and [disco] is
    handled in the same way whoever is online: with any other users and sessions the server does the
    same and sends the same documents, whatever the packet asks for.  This is [_disco_pkt_sm] only: what
    is asked of the address of a user is answered by [_disco_pkt_user], whose answer shows anybody
    whether that user has sessions ([registered_is_anonymous]). *)
Theorem sessions_not_told cf d s p uh eh us ss :
  (∀ from, p_from p = Some from → may_disco s from = false) →
  _disco_pkt_sm cf d (with_people uh eh us ss s) p = with_ret uh eh us ss <$> _disco_pkt_sm cf d s p.
Proof.
  intros Hno. unfold _disco_pkt_sm. destruct (_ && _); [apply populate_people|]. rewrite fmap_bind. apply bind_eq. intros to.
  change (s_conf (with_people uh eh us ss s)) with (s_conf s). destruct (tget _ _); [|reflexivity].
  destruct (_ || _); [reflexivity|]. rewrite generate_once_people, bind_fmap, fmap_bind.
  destruct (generate_once cf s d) as [[d1 s1]|] eqn:Eg; [|reflexivity]. rewrite !bind_some.
  change (with_sm uh eh us ss (d1, s1)) with (d1, with_people uh eh us ss s1). cbv beta iota.
  rewrite fmap_bind. destruct (p_from p) as [from|]; [|reflexivity]. rewrite !bind_some. cbv zeta.
  assert (may_disco s1 from = false) as Hno1.
  { unfold may_disco. replace (s_conf s1) with (s_conf s); [by apply Hno|]. symmetry.
    revert Eg. unfold generate_once. destruct (disco_info_result d); [by intros [= _ ->]|]. intros Eg.
    exact (generate_conf cf s d _ Eg). }
  destruct (_ =? _)%Z; [by apply info_get_people|]. destruct (_ =? _)%Z; [apply agents_get_people|by apply items_get_people].
Qed.

(** ** Who becomes known *)

Lemma populate_enters cf d s p from d' s' r query elem :
  disco_ok d → p_from p = Some from → coherent from → jid_node from = "" → jid_resource from = "" → jfull from ≠ "" →
  query = nad_find_elem (p_nad p) 1 (nad_find_scoped_namespace (p_nad p) uri_DISCO_INFO None) (Some "query") 1 → (0 <= query)%Z →
  elem = nad_find_elem (p_nad p) query (nad_find_scoped_namespace (p_nad p) uri_DISCO_INFO None) (Some "identity") 1 → (0 <= elem)%Z →
  has_attr (p_nad p) elem "category" "server" && has_attr (p_nad p) elem "type" "im" = false →
  _disco_pkt_sm_populate cf d s p = Some (d', s', r) →
  r = mod_HANDLED ∧ ∃ old, service_of d' (jfull from) = Some (filled (p_nad p) query elem old) ∧
    match tmap (d_dyn d) !! jfull from with
    | Some v => d_heap d !! v = Some old
    | None => old = Service (dup from) "" "" "" (tnew 11)
    end.
Proof.
  intros Hd Ef Hc En Er Hne Eq Hq Ee He Him. unfold _disco_pkt_sm_populate. rewrite Ef, bind_some, En, Er.
  rewrite !bool_decide_true by done. cbn [negb orb]. cbv zeta. rewrite <- Eq. destruct (Z.ltb_spec query 0); [lia|].
  rewrite <- Ee. destruct (Z.ltb_spec elem 0); [lia|]. rewrite Him.
  intros ([v d1] & Ek & E1)%bind_Some. apply bind_Some in E1 as (svc & Hv & E1). apply bind_Some in E1 as ([d2 s2] & Eg & E1).
  injection E1 as <- <- <-. split; [done|]. exists svc.
  destruct (known_service_ok d from Hd Hc _ Ek) as (Ht1 & Hu1 & _). cbn [fst snd] in *.
  destruct (known_service_is d from Hd Hc Hne _ Ek) as (Hk & Hold). cbn [fst snd] in *.
  set (d1' := set_heap (<[v := filled (p_nad p) query elem svc]> (d_heap d1)) d1) in *.
  assert (tables_ok d1') as Ht2 by (apply (fill_ok d1 v svc); done).
  destruct (generate_post cf s d1' Ht2 Hu1 _ Eg) as (_ & (E1 & E2 & E3) & _). cbn [fst snd] in *.
  split.
  - unfold service_of. rewrite E1, E2, E3. change (d_dyn d1') with (d_dyn d1). rewrite lookup_union, Hk, union_Some_l.
    cbn. by rewrite lookup_insert_eq.
  - destruct (tmap (d_dyn d) !! jfull from) as [w|].
    + destruct Hold as [-> <-]. done.
    + rewrite Hold in Hv. by injection Hv.
Qed.

(** A result of [disco#info] from any address that is a domain makes the sender a known service,
    or replaces what is known of it: nobody need have asked, and the sender need not be a component.
    Only its features are kept and added to, and an instant messaging server is left out. *)
Theorem disco_result_enters cf d s (xmlns : T Z) n p from d' s' r query elem :
  disco_run cf d → pkt_new xmlns n = Some p → p_type p = pkt_IQ_RESULT → p_ns p = ns_DISCO_INFO →
  p_from p = Some from → jid_node from = "" → jid_resource from = "" → jfull from ≠ "" →
  query = nad_find_elem n 1 (nad_find_scoped_namespace n uri_DISCO_INFO None) (Some "query") 1 → (0 <= query)%Z →
  elem = nad_find_elem n query (nad_find_scoped_namespace n uri_DISCO_INFO None) (Some "identity") 1 → (0 <= elem)%Z →
  has_attr n elem "category" "server" && has_attr n elem "type" "im" = false →
  _disco_pkt_sm cf d s p = Some (d', s', r) →
  r = mod_HANDLED ∧ ∃ old, service_of d' (jfull from) = Some (filled n query elem old) ∧
    match tmap (d_dyn d) !! jfull from with
    | Some v => d_heap d !! v = Some old
    | None => old = Service (dup from) "" "" "" (tnew 11)
    end.
Proof.
  intros Hrun Hp Ety Ens Ef En Er Hne Eq Hq Ee He Him. unfold _disco_pkt_sm. rewrite Ety, Ens. cbn [andb Z.eqb].
  pose proof (pkt_new_nad xmlns n p Hp) as <-.
  eapply populate_enters; try done; [by eapply disco_run_ok|]. by eapply (pkt_new_sent xmlns).
Qed.
End spec.

(** ** An example *)

#[local] Existing Instance ex_env.
#[local] Existing Instance ex_laws.

(** One service in the configuration. *)
Definition ex_disco_nad : nad :=
  let n := (nad_append_elem nad_new (-1) "sm" 0).1 in
  let n := (nad_append_elem n (-1) "discovery" 1).1 in
  let n := (nad_append_elem n (-1) "items" 2).1 in
  let n := (nad_append_elem n (-1) "item" 3).1 in
  let n := (nad_append_attr n (-1) "jid" "rooms.example.com").1 in
  (nad_append_attr n (-1) "name" "Rooms").1.
Definition ex_disco_config : config (T := alist) := Config (tnew 501) (Some ex_disco_nad).
Definition ex_disco_xmlns : alist Z := tput (tput (tnew 101) uri_DISCO_INFO 13%Z) uri_DISCO_ITEMS 12%Z.
Definition ex_disco_sm : sm (T := alist) := set_xmlns ex_disco_xmlns (ex_state 6).

Definition no_disco : disco (T := alist) := Disco "" "" "" false ∅ 0 [] [] None None None None.
Definition ex_disco0 : disco (T := alist) * sm (T := alist) := default (no_disco, ex_disco_sm) (module_init ex_disco_config ex_disco_sm).

Definition ex_iq (type from to uri : string) (f : nad → nad) : nad :=
  let '(n, _) := ex_route "s2s" in
  let '(n, ns) := nad_add_namespace n uri_CLIENT None in
  let n := (nad_append_elem n ns "iq" 1).1 in
  let n := (nad_append_attr n (-1) "type" type).1 in
  let n := (nad_append_attr n (-1) "from" from).1 in
  let n := (nad_append_attr n (-1) "to" to).1 in
  let '(n, ns) := nad_add_namespace n uri None in
  f (nad_append_elem n ns "query" 2).1.
Definition ex_identity (n : nad) : nad :=
  let n := (nad_append_elem n (nad_ens n 2) "identity" 3).1 in
  let n := (nad_append_attr n (-1) "category" "conference").1 in
  let n := (nad_append_attr n (-1) "type" "text").1 in
  (nad_append_attr n (-1) "name" "Mine").1.

(** Nobody asked [evil.org]. *)
Definition ex_disco_result : nad := ex_iq "result" "evil.org" "example.com" uri_DISCO_INFO ex_identity.
Definition ex_disco_get : nad := ex_iq "get" "eve@other.org/x" "example.com" uri_DISCO_ITEMS id.
Definition ex_disco_pkt (n : nad) : pkt := default (Pkt None None None 0 0 None None 0 0 n) (pkt_new ex_disco_xmlns n).
Definition ex_disco1 : disco (T := alist) * sm (T := alist) * mod_ret :=
  default (ex_disco0, mod_HANDLED) (_disco_pkt_sm ex_disco_config ex_disco0.1 ex_disco0.2 (ex_disco_pkt ex_disco_result)).
Definition ex_disco2 : disco (T := alist) * sm (T := alist) * mod_ret :=
  default ex_disco1 (_disco_pkt_sm ex_disco_config ex_disco1.1.1 ex_disco1.1.2 (ex_disco_pkt ex_disco_get)).

Lemma default_some {A} (o : option A) (x : A) : match o with Some _ => true | None => false end = true → o = Some (default x o).
Proof. by destruct o. Qed.

Lemma ex_disco0_run : disco_run ex_disco_config ex_disco0.1.
Proof.
  eapply (run_init _ ex_disco_sm _ ex_disco0.2). unfold ex_disco0.
  rewrite (default_some (module_init ex_disco_config ex_disco_sm) (no_disco, ex_disco_sm)) at 1; [|vm_compute; reflexivity].
  by destruct (default _ _).
Qed.
Lemma ex_disco1_step :
  _disco_pkt_sm ex_disco_config ex_disco0.1 ex_disco0.2 (ex_disco_pkt ex_disco_result) = Some (ex_disco1.1.1, ex_disco1.1.2, ex_disco1.2).
Proof.
  unfold ex_disco1. rewrite (default_some (_disco_pkt_sm _ _ _ _) (ex_disco0, mod_HANDLED)) at 1; [|vm_compute; reflexivity].
  by destruct (default _ _) as [[d s] r].
Qed.
Lemma ex_disco2_step :
  _disco_pkt_sm ex_disco_config ex_disco1.1.1 ex_disco1.1.2 (ex_disco_pkt ex_disco_get) = Some (ex_disco2.1.1, ex_disco2.1.2, ex_disco2.2).
Proof.
  unfold ex_disco2. rewrite (default_some (_disco_pkt_sm _ _ _ _) ex_disco1) at 1; [|vm_compute; reflexivity].
  by destruct (default _ _) as [[d s] r].
Qed.
Lemma ex_disco_pkt_new n : match pkt_new ex_disco_xmlns n with Some _ => true | None => false end = true →
  pkt_new ex_disco_xmlns n = Some (ex_disco_pkt n).
Proof. unfold ex_disco_pkt. by destruct (pkt_new _ _). Qed.
Lemma ex_disco1_run : disco_run ex_disco_config ex_disco1.1.1.
Proof.
  eapply run_pkt_sm; [exact ex_disco0_run|apply (ex_disco_pkt_new ex_disco_result); vm_compute; reflexivity|exact ex_disco1_step].
Qed.

Lemma disco_result_enters_witness :
  service_of ex_disco1.1.1 "evil.org" = Some (Service (dup (ex_from (ex_disco_pkt ex_disco_result))) "Mine" "conference" "text" []).
Proof.
  destruct (disco_result_enters ex_disco_config ex_disco0.1 ex_disco0.2 ex_disco_xmlns ex_disco_result (ex_disco_pkt ex_disco_result)
    (ex_from (ex_disco_pkt ex_disco_result)) ex_disco1.1.1 ex_disco1.1.2 ex_disco1.2 2 3) as (_ & old & Hs & Hold).
  - exact ex_disco0_run.
  - apply ex_disco_pkt_new. vm_compute. reflexivity.
  - vm_compute. reflexivity.
  - vm_compute. reflexivity.
  - vm_compute. reflexivity.
  - vm_compute. reflexivity.
  - vm_compute. reflexivity.
  - vm_compute. discriminate.
  - vm_compute. reflexivity.
  - lia.
  - vm_compute. reflexivity.
  - lia.
  - vm_compute. reflexivity.
  - exact ex_disco1_step.
  - revert Hold. replace (tmap (d_dyn ex_disco0.1) !! jfull (ex_from (ex_disco_pkt ex_disco_result))) with (None : option loc) by (vm_compute; reflexivity).
    intros ->. revert Hs. replace (jfull (ex_from (ex_disco_pkt ex_disco_result))) with "evil.org" by (vm_compute; reflexivity).
    intros ->. vm_compute. reflexivity.
Defined.

(** The reply has the service of the configuration and the one that nobody asked. *)
Lemma disco_items_reply_witness :
  keeps_going ex_disco_config ex_disco1.1.1 ∧
  (∃ d' s', _disco_pkt_sm ex_disco_config ex_disco1.1.1 ex_disco1.1.2 (ex_disco_pkt ex_disco_get) = Some (d', s', mod_HANDLED)) ∧
  (λ n, drop 2 (outline n)) <$> drop (length (s_out ex_disco1.1.2)) (s_out ex_disco2.1.2) =
    [[(2%Z, tx "query", []); (3%Z, tx "item", [(tx "name", tx "Mine"); (tx "jid", tx "evil.org")]);
      (3%Z, tx "item", [(tx "name", tx "Rooms"); (tx "jid", tx "rooms.example.com")])]].
Proof.
  destruct (disco_items_reply ex_disco_config ex_disco1.1.1 ex_disco1.1.2 (ex_disco_pkt ex_disco_get)
    (default jid_static (p_to (ex_disco_pkt ex_disco_get))) (ex_from (ex_disco_pkt ex_disco_get))) as (Hk & d' & s' & E & _).
  - exact ex_disco1_run.
  - vm_compute. reflexivity.
  - vm_compute. reflexivity.
  - vm_compute. reflexivity.
  - vm_compute. reflexivity.
  - eexists. vm_compute. reflexivity.
  - eexists. vm_compute. reflexivity.
  - exists tt. vm_compute. reflexivity.
  - vm_compute. reflexivity.
  - split; [exact Hk|]. split; [by exists d', s'|]. vm_compute. reflexivity.
Defined.

Lemma sessions_not_told_witness :
  _disco_pkt_sm ex_disco_config ex_disco1.1.1 (with_people ∅ ∅ (tnew 401) (tnew 401) ex_disco1.1.2) (ex_disco_pkt ex_disco_get) =
    Some (with_ret ∅ ∅ (tnew 401) (tnew 401) (ex_disco2.1.1, ex_disco2.1.2, ex_disco2.2)).
Proof.
  rewrite (sessions_not_told ex_disco_config ex_disco1.1.1 ex_disco1.1.2 (ex_disco_pkt ex_disco_get) ∅ ∅ (tnew 401) (tnew 401)).
  - rewrite ex_disco2_step. reflexivity.
  - intros from Hf. apply (f_equal (default jid_static)) in Hf. change (default jid_static (Some from)) with from in Hf. rewrite <- Hf. vm_compute. reflexivity.
Defined.

(** A user with a roster and two sessions is called anonymous: nothing sets the time of his first login. *)
Definition ex_who : nad := ex_iq "get" "eve@other.org/x" "ann@example.com" uri_DISCO_INFO id.
Example registered_is_anonymous :
  (λ x : disco * sm * mod_ret, drop 3 (outline (List.last (s_out x.1.2) nad_new))) <$> _disco_pkt_user 0 ex_disco0.1 ex_disco0.2 (ex_disco_pkt ex_who) =
  Some [(3%Z, tx "identity", [(tx "type", tx "anonymous"); (tx "category", tx "account")])].
Proof. vm_compute. reflexivity. Qed.
