(* ===== verification/SmAmp.v ===== *)
(** * Advanced message processing: sm/mod_amp.c

    A message may carry rules, each a condition and an action; the first rule
    whose condition holds has its action done.  [None] is a NULL pointer
    followed: an action that was never set is compared as a string. *)
From S2P Require Import Prelude.
From S2P Require Import CStr.
From S2P Require Import DList.
From S2P Require Import Table.
From S2P Require Import Alist.
From S2P Require Import Codec.
From S2P Require Import Jid.
From S2P Require Import Nad.
From S2P Require Import Stanza.
From S2P Require Import NadScan.
From S2P Require Import Datetime.
From S2P Require Import Pkt.
From S2P Require Import Sm.
From S2P Require Import SmMods.
From S2P Require Import SmLife.
From S2P Require Import SmRun.
From S2P Require Import SmSpec.
From S2P Require Import Config.
From S2P Require Import SmDisco.

Definition uri_AMP : string := "http://jabber.org/protocol/amp".

Definition AMP_TRIGGERED : Z := 1.
Definition AMP_INVALID_RULE : Z := 2.
Definition AMP_INVALID_CONDITION : Z := 3.
Definition AMP_INVALID_ACTION : Z := 4.
Definition AMP_INVALID_VALUE : Z := 5.

(** [struct _mod_amp_config_st] *)
Record amp_config := AmpConfig {
  disableActionDrop : bool; disableActionError : bool; disableActionAlert : bool; disableActionNotify : bool;
  disableConditionDeliver : bool; disableConditionExpireAt : bool; disableConditionMatchResource : bool;
  offlinestorageDisabled : bool
}.

(** [struct amp_rule_st]; what was not set is NULL. *)
Record amp_rule := AmpRule { r_result : Z; r_condition : option string; r_value : option string; r_action : option string }.

(** [strndup] of the value of an attribute, if it is there. *)
Definition attr_dup (n : nad) (el : Z) (name : string) : option string := cstr_of <$> attr_of n el name.

Section amp.
Context {T : Type → Type} `{Table T} `{Env} `{Libc}.
Notation sm := (sm (T := T)).
Notation user := (user (T := T)).
Notation config := (config (T := T)).
Implicit Types (s : sm) (c u : loc) (p : pkt) (cf : amp_config) (usr : user).

(** ** Answers *)

(** [Some None] is NULL. *)
Definition amp_build_response_pkt s p (rule : amp_rule) : option (option pkt) :=
  if (r_result rule =? AMP_TRIGGERED)%Z then
    from ← p_from p;
    to ← p_to p;
    res ← create s "message" None (Some (jfull from)) (Some (jfull to));
    let res := pkt_id p res in
    let '(n, ns) := nad_add_namespace (p_nad res) uri_AMP None in
    action ← r_action rule;
    condition ← r_condition rule;
    value ← r_value rule;
    let n := (nad_append_elem n ns "amp" 2).1 in
    let n := (nad_append_attr n (-1) "status" action).1 in
    let n := (nad_append_attr n (-1) "from" (jfull from)).1 in
    let n := (nad_append_attr n (-1) "to" (jfull to)).1 in
    let n := (nad_append_elem n ns "rule" 3).1 in
    let n := (nad_append_attr n (-1) "condition" condition).1 in
    let n := (nad_append_attr n (-1) "value" value).1 in
    let n := (nad_append_attr n (-1) "action" action).1 in
    Some (Some (with_nad n res))
  else Some None.

Definition _amp_in_sess c s p : option (sm * mod_ret) :=
  if negb (has (p_type p) pkt_MESSAGE) then Some (s, mod_PASS p)
  else
    e ← get_sess s c;
    (* who it is for is looked at, and nothing is done *)
    _ ← match p_to p with
        | None => Some tt
        | Some to =>
          own ← same_user (e_jid e) to;
          if (own : bool) then Some tt else _ ← juser to; Some tt
        end;
    Some (s, mod_PASS p).

(** ** One rule *)

(** The action, and the result so far. *)
Definition rule_action cf (n : nad) (elem : Z) : option string * Z :=
  if has_attr n elem "action" "drop" && negb (disableActionDrop cf) then (Some "drop", 0%Z)
  else if has_attr n elem "action" "alert" && negb (disableActionAlert cf) then (Some "alert", 0%Z)
  else if has_attr n elem "action" "error" && negb (disableActionError cf) then (Some "error", 0%Z)
  else if has_attr n elem "action" "notify" && negb (disableActionNotify cf) then (Some "notify", 0%Z)
  else (attr_dup n elem "action", AMP_INVALID_ACTION).

Definition triggered_if (b : bool) (result : Z) : Z := if b then AMP_TRIGGERED else result.

(** The value, and the result. *)
Definition rule_deliver cf usr (n : nad) (elem : Z) (result : Z) : option string * Z :=
  let top := bool_decide (is_Some (u_top usr)) in
  if has_attr n elem "value" "direct" then (Some "direct", triggered_if top result)
  else if has_attr n elem "value" "stored" then
    (Some "none", triggered_if (negb (offlinestorageDisabled cf) && negb top) result)
  else if has_attr n elem "value" "none" then (Some "none", triggered_if (offlinestorageDisabled cf && negb top) result)
  else (attr_dup n elem "value", AMP_INVALID_VALUE).

Definition rule_match_resource s usr p (n : nad) (elem : Z) (result : Z) : option (option string * Z) :=
  let found := to ← p_to p; m ← sess_match s usr (jid_resource to); Some (bool_decide (is_Some m)) in
  if has_attr n elem "value" "exact" then m ← found; Some (Some "exact", triggered_if m result)
  else if has_attr n elem "value" "any" then
    Some (Some "any", triggered_if (negb (bool_decide (is_Some (u_top usr)))) result)
  else if has_attr n elem "value" "other" then m ← found; Some (Some "other", triggered_if (negb m) result)
  else Some (attr_dup n elem "value", AMP_INVALID_VALUE).

Definition rule_expire_at s (n : nad) (elem : Z) (result : Z) : sm * option string * Z :=
  match attr_dup n elem "value" with
  | None => (s, None, AMP_INVALID_VALUE)
  | Some v =>
    let stamp := datetime_in v in
    if (stamp <? 0)%Z then (s, Some v, AMP_INVALID_VALUE)
    else let '(now, s) := ask_time s in (s, Some v, triggered_if (stamp <? now)%Z result)
  end.

Definition amp_load_rule cf usr p s (elem : Z) : option (sm * amp_rule) :=
  let n := p_nad p in
  let '(action, result) := rule_action cf n elem in
  if has_attr n elem "condition" "deliver" && negb (disableConditionDeliver cf) then
    let '(value, result) := rule_deliver cf usr n elem result in
    Some (s, AmpRule result (Some "deliver") value action)
  else if has_attr n elem "condition" "match-resource" && negb (disableConditionMatchResource cf) then
    '(value, result) ← rule_match_resource s usr p n elem result;
    Some (s, AmpRule result (Some "match-resource") value action)
  else if has_attr n elem "condition" "expire-at" && negb (disableConditionExpireAt cf) then
    let '(s, value, result) := rule_expire_at s n elem result in
    Some (s, AmpRule result (Some "expire-at") value action)
  else Some (s, AmpRule AMP_INVALID_CONDITION (attr_dup n elem "condition") None action).

(** ** The rules *)

(** The rules up to the first that is triggered before any that is wrong, and whether one was wrong. *)
Fixpoint amp_load_rules cf usr p s (elems : list Z) (errormode : bool) : option (sm * list amp_rule * bool) :=
  match elems with
  | [] => Some (s, [], errormode)
  | elem :: elems =>
    '(s, rule) ← amp_load_rule cf usr p s elem;
    let errormode := errormode || (AMP_TRIGGERED <? r_result rule)%Z in
    if (r_result rule =? AMP_TRIGGERED)%Z && negb errormode then Some (s, [rule], errormode)
    else
      '(s, rules, errormode) ← amp_load_rules cf usr p s elems errormode;
      Some (s, rule :: rules, errormode)
  end.

Definition amp_respond s p (rule : amp_rule) : option sm :=
  res ← amp_build_response_pkt s p rule; pkt_router s res.

(** The actions, from a rule on. *)
Fixpoint amp_act (errormode : bool) s p (rules : list amp_rule) : option (sm * mod_ret) :=
  match rules with
  | [] => Some (s, mod_PASS p)
  | rule :: rules =>
    if (0 <? r_result rule)%Z then
      action ← r_action rule;
      if (strcmp action "drop" =? 0)%Z && negb errormode then Some (s, mod_HANDLED)
      else if ((strcmp action "alert" =? 0)%Z || (strcmp action "error" =? 0)%Z) && negb errormode then
        s ← amp_respond s p rule; Some (s, mod_HANDLED)
      else if (strcmp action "notify" =? 0)%Z && negb errormode then
        s ← amp_respond s p rule; Some (s, mod_PASS p)
      else amp_act errormode s p rules
    else amp_act errormode s p rules
  end.

(** The last rule, if it was triggered and none was wrong; else all of them. *)
Definition amp_from (errormode : bool) (rules : list amp_rule) : list amp_rule :=
  match last rules with
  | Some rule => if negb (r_result rule =? AMP_TRIGGERED)%Z || errormode then rules else [rule]
  | None => rules
  end.

Definition _amp_pkt_user cf u s p : option (sm * mod_ret) :=
  if negb (has (p_type p) pkt_MESSAGE) then Some (s, mod_PASS p)
  else
    let n := p_nad p in
    let ns := nad_find_scoped_namespace n uri_AMP None in
    let amp := nad_find_elem n 1 ns (Some "amp") 1 in
    if (amp <? 0)%Z then Some (s, mod_PASS p)
    else if (0 <=? nad_find_attr n amp (-1) "status" None)%Z then Some (s, mod_PASS p)
    else
      let elems := children n amp ns "rule" in
      if bool_decide (elems = []) then Some (s, mod_PASS p)
      else
        usr ← get_user s u;
        '(s, rules, errormode) ← amp_load_rules cf usr p s elems false;
        amp_act errormode s p (amp_from errormode rules).

(** ** What is supported *)

Definition amp_feature (ns : Z) (n : nad) (f : string * bool) : nad :=
  if f.2 then (nad_append_attr (nad_append_elem n ns "feature" 3).1 (-1) "var" f.1).1 else n.

(** A node that is the beginning of the name will do. *)
Definition amp_node (v : text) : bool := (strncmp (length v) (string_of v) uri_AMP =? 0)%Z.

Definition _amp_pkt_sm cf s p : option (sm * mod_ret) :=
  if negb (p_type p =? pkt_IQ)%Z || negb (p_ns p =? ns_DISCO_INFO)%Z then Some (s, mod_PASS p)
  else
    match attr_of (p_nad p) 2 "node" with
    | None => Some (s, mod_PASS p)
    | Some v =>
      if negb (amp_node v) then Some (s, mod_PASS p)
      else
        from ← p_from p;
        to ← p_to p;
        res ← create s "iq" (Some "result") (Some (jfull from)) (Some (jfull to));
        let res := pkt_id p res in
        let '(n, ns) := nad_add_namespace (p_nad res) uri_DISCO_INFO None in
        let n := (nad_append_elem n ns "query" 2).1 in
        let n := (nad_append_attr n (-1) "node" uri_AMP).1 in
        let n := (nad_append_elem n ns "identity" 3).1 in
        let n := (nad_append_attr n (-1) "name" "Advanced Message Processing support").1 in
        let n := (nad_append_attr n (-1) "category" "im").1 in
        let n := (nad_append_attr n (-1) "type" "server").1 in
        let n := foldl (amp_feature ns) n
          [(uri_AMP, true);
           (uri_AMP +:+ "?action=drop", negb (disableActionDrop cf));
           (uri_AMP +:+ "?action=error", negb (disableActionError cf));
           (uri_AMP +:+ "?action=notify", negb (disableActionNotify cf));
           (uri_AMP +:+ "?condition=deliver", negb (disableConditionDeliver cf));
           (uri_AMP +:+ "?condition=expire-at", negb (disableConditionExpireAt cf));
           (uri_AMP +:+ "?condition=match-resource", negb (disableConditionMatchResource cf))] in
        s ← pkt_router s (Some (with_nad n res));
        Some (s, mod_HANDLED)
    end.

(** ** Start *)

Definition amp_module_init (conf : config) s : amp_config * sm :=
  let set key := bool_decide (is_Some (config_get_one conf key 0)) in
  (AmpConfig (set "amp.disableactions.drop") (set "amp.disableactions.error") (set "amp.disableactions.alert")
     (set "amp.disableactions.notify") (set "amp.disableconditions.deliver") (set "amp.disableconditions.expireat")
     (set "amp.disableconditions.matchresource") (set "amp.offlinestoragedisabled" || set "offline.dropmessages"),
   feature_register s uri_AMP).
End amp.

(** ** What the rules of a message do

    The first rule that is not passed over decides, if every rule has an
    action; a rule without one is the end of the server. *)

Section thms.
Context {T : Type → Type} `{Table T} `{Env} `{Libc}.
Notation sm := (sm (T := T)).
Notation user := (user (T := T)).
Implicit Types (s : sm) (u : loc) (p : pkt) (cf : amp_config) (usr : user) (rule : amp_rule).

(** ** One rule *)

Lemma load_rule_action cf usr p s elem : post (amp_load_rule cf usr p s elem) (λ r, r_action r.2 = (rule_action cf (p_nad p) elem).1).
Proof.
  unfold amp_load_rule. cbv zeta. destruct (rule_action cf (p_nad p) elem) as [action result].
  destruct (_ && _); [destruct (rule_deliver _ _ _ _ _); by apply post_ret|].
  destruct (_ && _); [apply post_bind; intros [v r] _; by apply post_ret|].
  destruct (_ && _); [destruct (rule_expire_at _ _ _ _) as [[s' v] r]; by apply post_ret|by apply post_ret].
Qed.

(** Without an action the result is never 0. *)
Lemma load_rule_wrong cf usr p s elem : (rule_action cf (p_nad p) elem).2 = AMP_INVALID_ACTION →
  post (amp_load_rule cf usr p s elem) (λ r, (0 <? r_result r.2)%Z = true).
Proof.
  unfold amp_load_rule. cbv zeta. destruct (rule_action cf (p_nad p) elem) as [action result]. cbn [snd]. intros ->.
  assert (∀ b, (0 <? triggered_if b AMP_INVALID_ACTION)%Z = true) as Ht by by intros [].
  destruct (_ && _).
  { destruct (rule_deliver _ _ _ _ _) as [v r] eqn:Er. apply post_ret. cbn [snd r_result]. unfold rule_deliver in Er.
    repeat case_match; injection Er as _ <-; first [apply Ht|done]. }
  destruct (_ && _).
  { apply post_bind. intros [v r] Er. apply post_ret. cbn [snd r_result]. unfold rule_match_resource in Er.
    repeat case_match; try (apply bind_Some in Er as (? & _ & Er)); injection Er as _ <-; first [apply Ht|done]. }
  destruct (_ && _); [|by apply post_ret].
  unfold rule_expire_at. destruct (attr_dup _ _ _); [|by apply post_ret]. cbv zeta. destruct (_ <? 0)%Z; [by apply post_ret|].
  unfold ask_time. apply post_ret. apply Ht.
Qed.

(** What is not there with any value is not there with one. *)
Lemma find_attr_any n elem ns name v : (nad_find_attr n elem ns name None < 0)%Z → (nad_find_attr n elem ns name (Some v) < 0)%Z.
Proof.
  unfold nad_find_attr. destruct (_ || _); [done|]. generalize (e_attr (elem_at n elem)). generalize (S (length (attrs n))). intros f.
  induction f as [|f IH]; intros a; [done|]. cbn [find_attr_loop]. destruct (Z.ltb_spec a 0); [done|].
  set (b1 := same_text _ _ _). set (b2 := ns_match _ _ _). clearbody b1 b2.
  destruct b1, b2; cbn [andb]; rewrite ?andb_false_r; try (intros; apply IH; done); try lia. 
Qed.

Lemma no_action cf n elem : attr_of n elem "action" = None → rule_action cf n elem = (None, AMP_INVALID_ACTION).
Proof.
  intros Ha. assert (∀ v, has_attr n elem "action" v = false) as Hv.
  { intros v. unfold has_attr. apply Z.leb_gt. unfold attr_of in Ha.
    destruct (Z.leb_spec 0 (nad_find_attr n elem (-1) "action" None)) as [|Hn]; [done|]. by apply find_attr_any. }
  unfold rule_action, attr_dup. by rewrite !Hv, Ha.
Qed.

(** ** The rules *)

Lemma load_rules_first cf usr p s elem elems : post (amp_load_rules cf usr p s (elem :: elems) false) (λ r,
  ∃ rule s' rest, amp_load_rule cf usr p s elem = Some (s', rule) ∧ r.1.2 = rule :: rest).
Proof.
  cbn [amp_load_rules]. apply post_bind. intros [s1 rule] E1. cbv zeta. destruct (_ && _).
  - apply post_ret. by exists rule, s1, [].
  - apply post_bind. intros [[s2 rules] e] _. apply post_ret. by exists rule, s1, rules.
Qed.

Lemma load_rules_mode cf usr p s elems : post (amp_load_rules cf usr p s elems true) (λ r, r.2 = true).
Proof.
  revert s. induction elems as [|elem elems IH]; intros s; cbn [amp_load_rules]; [by apply post_ret|].
  apply post_bind. intros [s1 rule] _. cbn [orb]. cbv zeta. rewrite andb_false_r. apply post_bind.
  eapply post_mono; [apply IH|]. intros [[s2 rules] e] He. by apply post_ret.
Qed.

(** C25: a message for a user whose first rule has no action ends the session manager: the action that
    was never set is compared with [drop], whether the rule's condition holds or is wrong, and whatever
    is disabled. *)
Theorem rule_without_action_crashes cf u s p ns amp elem elems :
  has (p_type p) pkt_MESSAGE = true →
  ns = nad_find_scoped_namespace (p_nad p) uri_AMP None → amp = nad_find_elem (p_nad p) 1 ns (Some "amp") 1 → (0 <= amp)%Z →
  (nad_find_attr (p_nad p) amp (-1) "status" None < 0)%Z →
  children (p_nad p) amp ns "rule" = elem :: elems → attr_of (p_nad p) elem "action" = None →
  _amp_pkt_user cf u s p = None.
Proof.
  intros Hm Ens Eamp Hamp Hst Hch Ha. unfold _amp_pkt_user. rewrite Hm. cbn [negb]. cbv zeta. rewrite <- Ens, <- Eamp.
  destruct (Z.ltb_spec amp 0); [lia|]. destruct (Z.leb_spec 0 (nad_find_attr (p_nad p) amp (-1) "status" None)); [lia|].
  rewrite Hch, bool_decide_false by done. destruct (get_user s u) as [usr|]; [|done]. cbn [mbind option_bind].
  destruct (amp_load_rule cf usr p s elem) as [[s1 rule]|] eqn:E1.
  2: { cbn [amp_load_rules]. by rewrite E1. }
  pose proof (load_rule_action cf usr p s elem _ E1) as Er. rewrite (no_action cf _ _ Ha) in Er. cbn [fst snd] in Er.
  pose proof (load_rule_wrong cf usr p s elem ltac:(by rewrite no_action) _ E1) as Hw. cbn [snd] in Hw.
  assert (∀ e s' rest, amp_act e s' p (rule :: rest) = None) as Hact.
  { intros e s' rest. cbn [amp_act]. by rewrite Hw, Er. }
  cbn [amp_load_rules]. rewrite E1. cbn [mbind option_bind orb]. destruct (Z.eqb_spec (r_result rule) AMP_TRIGGERED) as [Et|Et].
  - rewrite Et. change (AMP_TRIGGERED <? AMP_TRIGGERED)%Z with false. cbn [andb negb mbind option_bind]. unfold amp_from. cbn [last].
    match goal with |- context [if ?b then _ else _] => destruct b end; apply Hact.
  - cbn [andb]. assert ((AMP_TRIGGERED <? r_result rule)%Z = true) as -> by (unfold AMP_TRIGGERED in *; lia).
    destruct (amp_load_rules cf usr p s1 elems true) as [[[s2 rules] e]|] eqn:E2; [|done].
    pose proof (load_rules_mode cf usr p s1 elems _ E2) as He. cbn [snd] in He. subst e. cbn [mbind option_bind].
    unfold amp_from. destruct (last (rule :: rules)); [rewrite orb_true_r|]; apply Hact.
Qed.

(** ** The first rule that counts *)

(** What is done for a rule that is triggered. *)
Definition amp_do s p rule (action : string) : option (sm * mod_ret) :=
  if (strcmp action "drop" =? 0)%Z then Some (s, mod_HANDLED)
  else if (strcmp action "alert" =? 0)%Z || (strcmp action "error" =? 0)%Z then s ← amp_respond s p rule; Some (s, mod_HANDLED)
  else if (strcmp action "notify" =? 0)%Z then s ← amp_respond s p rule; Some (s, mod_PASS p)
  else Some (s, mod_PASS p).

(** The verdict: the first rule whose result is not 0, if it was triggered. *)
Fixpoint amp_verdict (rules : list amp_rule) : option amp_rule :=
  match rules with
  | [] => None
  | rule :: rules =>
    if (r_result rule =? 0)%Z then amp_verdict rules else if (r_result rule =? AMP_TRIGGERED)%Z then Some rule else None
  end.

Lemma load_rule_result cf usr p s elem : post (amp_load_rule cf usr p s elem) (λ r, (0 <= r_result r.2)%Z).
Proof.
  unfold amp_load_rule. cbv zeta. destruct (rule_action cf (p_nad p) elem) as [action result] eqn:Ea.
  assert (0 <= result)%Z as Hr by (unfold rule_action in Ea; repeat case_match; by injection Ea as _ <-).
  assert (∀ b, (0 <= triggered_if b result)%Z) as Ht by by intros [].
  destruct (_ && _).
  { destruct (rule_deliver _ _ _ _ _) as [v r] eqn:Er. apply post_ret. cbn [snd r_result]. unfold rule_deliver in Er.
    repeat case_match; injection Er as _ <-; first [apply Ht|done]. }
  destruct (_ && _).
  { apply post_bind. intros [v r] Er. apply post_ret. cbn [snd r_result]. unfold rule_match_resource in Er.
    repeat case_match; try (apply bind_Some in Er as (? & _ & Er)); injection Er as _ <-; first [apply Ht|done]. }
  destruct (_ && _); [|by apply post_ret].
  unfold rule_expire_at. destruct (attr_dup _ _ _); [|by apply post_ret]. cbv zeta. destruct (_ <? 0)%Z; [by apply post_ret|].
  unfold ask_time. apply post_ret. apply Ht.
Qed.

(** In error mode nothing is done, but that the actions are looked at. *)
Lemma amp_act_error s p rules : Forall (λ rule, is_Some (r_action rule)) rules → amp_act true s p rules = Some (s, mod_PASS p).
Proof.
  induction 1 as [|rule rules [action Ha] _ IH]; [done|]. cbn [amp_act]. rewrite Ha. cbn [mbind option_bind].
  rewrite !andb_false_r. by destruct (_ <? _)%Z.
Qed.

Lemma load_rules_results cf usr p s elems e :
  post (amp_load_rules cf usr p s elems e) (λ r, Forall (λ rule, 0 <= r_result rule)%Z r.1.2).
Proof.
  revert s e. induction elems as [|elem elems IH]; intros s e; cbn [amp_load_rules]; [apply post_ret; constructor|].
  apply post_bind. eapply post_mono; [apply load_rule_result|]. intros [s1 rule] Hr. cbv zeta.
  destruct (_ && _); [apply post_ret; by constructor|]. apply post_bind. eapply post_mono; [apply IH|].
  intros [[s2 rules] e'] Hall. apply post_ret. by constructor.
Qed.

Lemma load_rules_verdict cf usr p s elems : post (amp_load_rules cf usr p s elems false) (λ r,
  let '(s', rules, e) := r in Forall (λ rule, 0 <= r_result rule)%Z rules ∧
  (e = true ∧ amp_verdict rules = None ∨
   e = false ∧ Forall (λ rule, r_result rule = 0%Z) rules ∧ amp_verdict rules = None ∨
   e = false ∧ ∃ rule, last rules = Some rule ∧ r_result rule = AMP_TRIGGERED ∧ amp_verdict rules = Some rule)).
Proof.
  revert s. induction elems as [|elem elems IH]; intros s; cbn [amp_load_rules].
  { apply post_ret. split; [constructor|]. right. left. by split_and!. }
  apply post_bind. eapply post_mono; [apply load_rule_result|]. intros [s1 rule] Hr. cbn [snd] in Hr. cbn [orb]. cbv zeta.
  destruct (Z.eqb_spec (r_result rule) AMP_TRIGGERED) as [Et|Et].
  { rewrite Et. cbn. apply post_ret. split; [by constructor|]. right. right. split; [done|]. exists rule. cbn. by rewrite Et. }
  cbn [andb]. destruct (Z.ltb_spec AMP_TRIGGERED (r_result rule)) as [Hw|Hw].
  - apply post_bind. intros [[s2 rules] e] E2. pose proof (load_rules_mode cf usr p s1 elems _ E2) as He. cbn [snd] in He. subst e.
    pose proof (load_rules_results cf usr p s1 elems true _ E2) as Hall. cbn [fst snd] in Hall.
    apply post_ret. split; [by constructor|]. left. split; [done|]. cbn [amp_verdict]. unfold AMP_TRIGGERED in *.
    destruct (Z.eqb_spec (r_result rule) 0); [lia|]. by destruct (Z.eqb_spec (r_result rule) 1).
  - assert (r_result rule = 0)%Z as E0 by (unfold AMP_TRIGGERED in *; lia).
    apply post_bind. eapply post_mono; [apply IH|]. intros [[s2 rules] e] [Hall Hcase]. apply post_ret.
    split; [by constructor|]. cbn [amp_verdict]. rewrite E0. cbn [Z.eqb].
    destruct Hcase as [?|[(? & ? & ?)|(? & r & Hl & ? & ?)]]; [by left|right; left; split_and!; [done|by constructor|done]|].
    right. right. split; [done|]. exists r. split_and!; [|done..]. destruct rules; [done|exact Hl].
Qed.

(** C31: when every rule that is read has an action, the first that is not passed over decides: if its
    condition holds its action is done, and if it is wrong nothing is, with no word to the sender, and
    the message goes on. *)
Theorem amp_first_rule_decides cf u usr s p ns amp s' rules e :
  has (p_type p) pkt_MESSAGE = true →
  ns = nad_find_scoped_namespace (p_nad p) uri_AMP None → amp = nad_find_elem (p_nad p) 1 ns (Some "amp") 1 → (0 <= amp)%Z →
  (nad_find_attr (p_nad p) amp (-1) "status" None < 0)%Z →
  children (p_nad p) amp ns "rule" ≠ [] → get_user s u = Some usr →
  amp_load_rules cf usr p s (children (p_nad p) amp ns "rule") false = Some (s', rules, e) →
  Forall (λ rule, is_Some (r_action rule)) rules →
  _amp_pkt_user cf u s p =
    match amp_verdict rules with
    | Some rule => amp_do s' p rule (default "" (r_action rule))
    | None => Some (s', mod_PASS p)
    end.
Proof.
  intros Hm Ens Eamp Hamp Hst Hch Hu El Hact. unfold _amp_pkt_user. rewrite Hm. cbn [negb]. cbv zeta. rewrite <- Ens, <- Eamp.
  destruct (Z.ltb_spec amp 0); [lia|]. destruct (Z.leb_spec 0 (nad_find_attr (p_nad p) amp (-1) "status" None)); [lia|].
  rewrite bool_decide_false, Hu by done. cbn [mbind option_bind]. rewrite El. cbn [mbind option_bind].
  destruct (load_rules_verdict cf usr p s _ _ El) as [Hpos [[-> Hv]|[(-> & Hzero & Hv)|(-> & rule & Hl & Ht & Hv)]]]; rewrite Hv.
  - unfold amp_from. destruct (last rules); [rewrite orb_true_r|]; by apply amp_act_error.
  - assert (amp_from false rules = rules) as ->.
    { unfold amp_from. destruct (last rules) as [r|] eqn:El'; [|done]. apply last_Some_elem_of in El'.
      rewrite Forall_forall in Hzero. by rewrite (Hzero _ El'). }
    clear -Hzero. induction Hzero as [|r rules E _ IH]; [done|]. cbn [amp_act]. by rewrite E.
  - unfold amp_from. rewrite Hl, Ht. cbn [negb orb Z.eqb]. change (AMP_TRIGGERED =? AMP_TRIGGERED)%Z with true. cbn [negb orb].
    assert (is_Some (r_action rule)) as [action Ha].
    { rewrite Forall_forall in Hact. by apply Hact, last_Some_elem_of. }
    cbn [amp_act]. rewrite Ht, Ha. cbn [mbind option_bind]. change (0 <? AMP_TRIGGERED)%Z with true. cbv iota.
    unfold amp_do. cbn [default]. rewrite !andb_true_r. cbn. done.
Qed.
End thms.

(** ** Examples *)

#[local] Existing Instance ex_env.
#[local] Existing Instance ex_laws.
#[local] Existing Instance utc_libc.

(** A message for ann with the rules, each a list of attributes. *)
Definition ex_amp (rules : list (list (string * string))) : nad :=
  let n := ex_message "ann@example.com" "eve@other.org/x" "hi" in
  let '(n, ns) := nad_add_namespace n uri_AMP None in
  let n := (nad_append_elem n ns "amp" 2).1 in
  foldl (λ n atts, foldl (λ n a, (nad_append_attr n (-1) a.1 a.2).1) (nad_append_elem n ns "rule" 3).1 atts) n rules.
Definition ex_rule (action : option string) (condition value : string) : list (string * string) :=
  match action with Some a => [("action", a)] | None => [] end ++ [("condition", condition); ("value", value)].

Definition amp_enabled : amp_config := AmpConfig false false false false false false false false.
Definition amp_disabled : amp_config := AmpConfig true true true true false false false false.

Lemma rule_without_action_crashes_witness :
  _amp_pkt_user amp_disabled 0 (ex_state 6) (ex_pkt (ex_amp [ex_rule None "deliver" "direct"])) = None.
Proof.
  eapply (rule_without_action_crashes amp_disabled 0 (ex_state 6) (ex_pkt (ex_amp [ex_rule None "deliver" "direct"])) _ _ 4 []).
  - vm_compute. reflexivity.
  - reflexivity.
  - reflexivity.
  - apply (bool_decide_eq_true_1 _). vm_compute. reflexivity.
  - apply (bool_decide_eq_true_1 _). vm_compute. reflexivity.
  - vm_compute. reflexivity.
  - vm_compute. reflexivity.
Defined.

(** Ann is there: the first rule is passed over, the second one drops the message, and the third is not read. *)
Definition ex_amp_drop : pkt :=
  ex_pkt (ex_amp [ex_rule (Some "notify") "deliver" "stored"; ex_rule (Some "drop") "deliver" "direct"; ex_rule None "deliver" "none"]).
Definition ex_amp_loaded : sm (T := alist) * list amp_rule * bool :=
  default (ex_state 6, [], false) (amp_load_rules amp_enabled ex_user ex_amp_drop (ex_state 6) [4; 5; 6]%Z false).

Lemma amp_first_rule_decides_witness :
  _amp_pkt_user amp_enabled 0 (ex_state 6) ex_amp_drop = Some (ex_amp_loaded.1.1, mod_HANDLED).
Proof.
  rewrite (amp_first_rule_decides amp_enabled 0 ex_user (ex_state 6) ex_amp_drop
    (nad_find_scoped_namespace (p_nad ex_amp_drop) uri_AMP None) 3 ex_amp_loaded.1.1 ex_amp_loaded.1.2 ex_amp_loaded.2).
  - vm_compute. reflexivity.
  - vm_compute. reflexivity.
  - reflexivity.
  - vm_compute. reflexivity.
  - lia.
  - apply (bool_decide_eq_true_1 _). vm_compute. reflexivity.
  - vm_compute. discriminate.
  - vm_compute. reflexivity.
  - vm_compute. reflexivity.
  - replace ex_amp_loaded.1.2 with [AmpRule 0 (Some "deliver") (Some "none") (Some "notify"); AmpRule 1 (Some "deliver") (Some "direct") (Some "drop")] by (vm_compute; reflexivity).
    repeat constructor; by eexists.
Defined.

(** An action that is disabled is done all the same when its condition holds: the result of the
    condition replaces the mark of the wrong action. *)
Example disabled_drop_drops :
  snd <$> _amp_pkt_user amp_disabled 0 (ex_state 6) (ex_pkt (ex_amp [ex_rule (Some "drop") "deliver" "direct"])) = Some mod_HANDLED.
Proof. vm_compute. reflexivity. Qed.
(** A node that is empty is the module's. *)
Example amp_node_empty : amp_node [] = true.
Proof. reflexivity. Qed.
