(* ===== verification/C2s.v ===== *)
(** * Client connections: c2s/c2s.h, c2s/sm.c and the calls into sx

    The state of the c2s process: the sessions on a heap, shared by pointer
    between the table, the queues of the dead and the callbacks; a session's
    bound resources and its stream are its own.  An operation takes the state
    to the next one, with what it sends appended to [c_out]; [None] is a NULL or
    dangling pointer followed, or an assertion that fails.  Of a stream the
    fields that c2s reads are kept; closing one follows sx/io.c, as it calls
    back into c2s.  Plugins of the streams, logs and TLS contexts are left out. *)
From S2P Require Import Prelude.
From S2P Require Import CStr.
From S2P Require Import DList.
From S2P Require Import JQueue.
From S2P Require Import Rate.
From S2P Require Import Codec.
From S2P Require Import Access.
From S2P Require Import Jid.
From S2P Require Import Nad.
From S2P Require Import Table.
From S2P Require Import Stanza.
From S2P Require Import Datetime.
From S2P Require Import Pkt.

Definition uri_BIND : string := "urn:ietf:params:xml:ns:xmpp-bind".

(** What c2s takes from outside besides [Env]: [crypt], MD5, the address
    parsers of the C library, and the files. *)
Class AuthEnv := {
  ae_crypt : string → string → option string;
  ae_md5 : string → list Z;
  ae_pton4 : string → option Z;
  ae_pton6 : string → option (list Z);
  ae_file : string → option (list ascii)
}.

(** ** Data *)

(** [struct host_st], without what the TLS library alone reads. *)
Record host := Host { ho_realm : option string; ho_pemfile : option string; ho_require_starttls : bool }.

(** [enum pws_crypt] *)
Inductive pws_crypt := MPC_PLAIN | MPC_CRYPT | MPC_A1HASH.

(** What c2s reads of a stream. *)
Record stream := Stream {
  x_tag : Z;
  x_state : sx_state;
  x_req_to : option string;
  x_id : string;
  x_auth_method : option string;
  x_auth_id : option string;
  x_ssf : Z;
  x_flags : Z
}.

Definition with_x_tag (x : Z) (s : stream) : stream :=
  Stream x (x_state s) (x_req_to s) (x_id s) (x_auth_method s) (x_auth_id s) (x_ssf s) (x_flags s).
Definition with_x_state (x : sx_state) (s : stream) : stream :=
  Stream (x_tag s) x (x_req_to s) (x_id s) (x_auth_method s) (x_auth_id s) (x_ssf s) (x_flags s).
Definition with_x_req_to (x : option string) (s : stream) : stream :=
  Stream (x_tag s) (x_state s) x (x_id s) (x_auth_method s) (x_auth_id s) (x_ssf s) (x_flags s).
Definition with_x_id (x : string) (s : stream) : stream :=
  Stream (x_tag s) (x_state s) (x_req_to s) x (x_auth_method s) (x_auth_id s) (x_ssf s) (x_flags s).
Definition with_x_auth_method (x : option string) (s : stream) : stream :=
  Stream (x_tag s) (x_state s) (x_req_to s) (x_id s) x (x_auth_id s) (x_ssf s) (x_flags s).
Definition with_x_auth_id (x : option string) (s : stream) : stream :=
  Stream (x_tag s) (x_state s) (x_req_to s) (x_id s) (x_auth_method s) x (x_ssf s) (x_flags s).
Definition with_x_ssf (x : Z) (s : stream) : stream :=
  Stream (x_tag s) (x_state s) (x_req_to s) (x_id s) (x_auth_method s) (x_auth_id s) x (x_flags s).
Definition with_x_flags (x : Z) (s : stream) : stream :=
  Stream (x_tag s) (x_state s) (x_req_to s) (x_id s) (x_auth_method s) (x_auth_id s) (x_ssf s) x.

(** [struct bres_st]; the list [resources] is linked by [next]. *)
Record bres := Bres {
  b_jid : option jid;
  b_c2s_id : string;
  b_sm_id : string;
  b_sm_request : string
}.

Definition with_b_jid (x : option jid) (b : bres) : bres :=
  Bres x (b_c2s_id b) (b_sm_id b) (b_sm_request b).
Definition with_b_c2s_id (x : string) (b : bres) : bres :=
  Bres (b_jid b) x (b_sm_id b) (b_sm_request b).
Definition with_b_sm_id (x : string) (b : bres) : bres :=
  Bres (b_jid b) (b_c2s_id b) x (b_sm_request b).
Definition with_b_sm_request (x : string) (b : bres) : bres :=
  Bres (b_jid b) (b_c2s_id b) (b_sm_id b) x.

(** [struct sess_st]; [e_s] is NULL in the sessions that are made up to end a
    session at the session manager. *)
Record sess := Sess {
  e_fd : option Z;
  e_skey : string;
  e_smcomp : option string;
  e_ip : string;
  e_port : Z;
  e_s : option stream;
  e_host : option host;
  e_rate : option rate;
  e_rate_log : bool;
  e_stanza_rate : option rate;
  e_stanza_rate_log : bool;
  e_last_activity : Z;
  e_packet_count : Z;
  e_bound : Z;
  e_resources : list bres;
  e_active : bool;
  e_result : option nad;
  e_sasl_authd : bool
}.

Definition with_e_fd (x : option Z) (e : sess) : sess :=
  Sess x (e_skey e) (e_smcomp e) (e_ip e) (e_port e) (e_s e) (e_host e) (e_rate e) (e_rate_log e) (e_stanza_rate e) (e_stanza_rate_log e) (e_last_activity e) (e_packet_count e) (e_bound e) (e_resources e) (e_active e) (e_result e) (e_sasl_authd e).
Definition with_e_skey (x : string) (e : sess) : sess :=
  Sess (e_fd e) x (e_smcomp e) (e_ip e) (e_port e) (e_s e) (e_host e) (e_rate e) (e_rate_log e) (e_stanza_rate e) (e_stanza_rate_log e) (e_last_activity e) (e_packet_count e) (e_bound e) (e_resources e) (e_active e) (e_result e) (e_sasl_authd e).
Definition with_e_smcomp (x : option string) (e : sess) : sess :=
  Sess (e_fd e) (e_skey e) x (e_ip e) (e_port e) (e_s e) (e_host e) (e_rate e) (e_rate_log e) (e_stanza_rate e) (e_stanza_rate_log e) (e_last_activity e) (e_packet_count e) (e_bound e) (e_resources e) (e_active e) (e_result e) (e_sasl_authd e).
Definition with_e_ip (x : string) (e : sess) : sess :=
  Sess (e_fd e) (e_skey e) (e_smcomp e) x (e_port e) (e_s e) (e_host e) (e_rate e) (e_rate_log e) (e_stanza_rate e) (e_stanza_rate_log e) (e_last_activity e) (e_packet_count e) (e_bound e) (e_resources e) (e_active e) (e_result e) (e_sasl_authd e).
Definition with_e_port (x : Z) (e : sess) : sess :=
  Sess (e_fd e) (e_skey e) (e_smcomp e) (e_ip e) x (e_s e) (e_host e) (e_rate e) (e_rate_log e) (e_stanza_rate e) (e_stanza_rate_log e) (e_last_activity e) (e_packet_count e) (e_bound e) (e_resources e) (e_active e) (e_result e) (e_sasl_authd e).
Definition with_e_s (x : option stream) (e : sess) : sess :=
  Sess (e_fd e) (e_skey e) (e_smcomp e) (e_ip e) (e_port e) x (e_host e) (e_rate e) (e_rate_log e) (e_stanza_rate e) (e_stanza_rate_log e) (e_last_activity e) (e_packet_count e) (e_bound e) (e_resources e) (e_active e) (e_result e) (e_sasl_authd e).
Definition with_e_host (x : option host) (e : sess) : sess :=
  Sess (e_fd e) (e_skey e) (e_smcomp e) (e_ip e) (e_port e) (e_s e) x (e_rate e) (e_rate_log e) (e_stanza_rate e) (e_stanza_rate_log e) (e_last_activity e) (e_packet_count e) (e_bound e) (e_resources e) (e_active e) (e_result e) (e_sasl_authd e).
Definition with_e_rate (x : option rate) (e : sess) : sess :=
  Sess (e_fd e) (e_skey e) (e_smcomp e) (e_ip e) (e_port e) (e_s e) (e_host e) x (e_rate_log e) (e_stanza_rate e) (e_stanza_rate_log e) (e_last_activity e) (e_packet_count e) (e_bound e) (e_resources e) (e_active e) (e_result e) (e_sasl_authd e).
Definition with_e_rate_log (x : bool) (e : sess) : sess :=
  Sess (e_fd e) (e_skey e) (e_smcomp e) (e_ip e) (e_port e) (e_s e) (e_host e) (e_rate e) x (e_stanza_rate e) (e_stanza_rate_log e) (e_last_activity e) (e_packet_count e) (e_bound e) (e_resources e) (e_active e) (e_result e) (e_sasl_authd e).
Definition with_e_stanza_rate (x : option rate) (e : sess) : sess :=
  Sess (e_fd e) (e_skey e) (e_smcomp e) (e_ip e) (e_port e) (e_s e) (e_host e) (e_rate e) (e_rate_log e) x (e_stanza_rate_log e) (e_last_activity e) (e_packet_count e) (e_bound e) (e_resources e) (e_active e) (e_result e) (e_sasl_authd e).
Definition with_e_stanza_rate_log (x : bool) (e : sess) : sess :=
  Sess (e_fd e) (e_skey e) (e_smcomp e) (e_ip e) (e_port e) (e_s e) (e_host e) (e_rate e) (e_rate_log e) (e_stanza_rate e) x (e_last_activity e) (e_packet_count e) (e_bound e) (e_resources e) (e_active e) (e_result e) (e_sasl_authd e).
Definition with_e_last_activity (x : Z) (e : sess) : sess :=
  Sess (e_fd e) (e_skey e) (e_smcomp e) (e_ip e) (e_port e) (e_s e) (e_host e) (e_rate e) (e_rate_log e) (e_stanza_rate e) (e_stanza_rate_log e) x (e_packet_count e) (e_bound e) (e_resources e) (e_active e) (e_result e) (e_sasl_authd e).
Definition with_e_packet_count (x : Z) (e : sess) : sess :=
  Sess (e_fd e) (e_skey e) (e_smcomp e) (e_ip e) (e_port e) (e_s e) (e_host e) (e_rate e) (e_rate_log e) (e_stanza_rate e) (e_stanza_rate_log e) (e_last_activity e) x (e_bound e) (e_resources e) (e_active e) (e_result e) (e_sasl_authd e).
Definition with_e_bound (x : Z) (e : sess) : sess :=
  Sess (e_fd e) (e_skey e) (e_smcomp e) (e_ip e) (e_port e) (e_s e) (e_host e) (e_rate e) (e_rate_log e) (e_stanza_rate e) (e_stanza_rate_log e) (e_last_activity e) (e_packet_count e) x (e_resources e) (e_active e) (e_result e) (e_sasl_authd e).
Definition with_e_resources (x : list bres) (e : sess) : sess :=
  Sess (e_fd e) (e_skey e) (e_smcomp e) (e_ip e) (e_port e) (e_s e) (e_host e) (e_rate e) (e_rate_log e) (e_stanza_rate e) (e_stanza_rate_log e) (e_last_activity e) (e_packet_count e) (e_bound e) x (e_active e) (e_result e) (e_sasl_authd e).
Definition with_e_active (x : bool) (e : sess) : sess :=
  Sess (e_fd e) (e_skey e) (e_smcomp e) (e_ip e) (e_port e) (e_s e) (e_host e) (e_rate e) (e_rate_log e) (e_stanza_rate e) (e_stanza_rate_log e) (e_last_activity e) (e_packet_count e) (e_bound e) (e_resources e) x (e_result e) (e_sasl_authd e).
Definition with_e_result (x : option nad) (e : sess) : sess :=
  Sess (e_fd e) (e_skey e) (e_smcomp e) (e_ip e) (e_port e) (e_s e) (e_host e) (e_rate e) (e_rate_log e) (e_stanza_rate e) (e_stanza_rate_log e) (e_last_activity e) (e_packet_count e) (e_bound e) (e_resources e) (e_active e) x (e_sasl_authd e).
Definition with_e_sasl_authd (x : bool) (e : sess) : sess :=
  Sess (e_fd e) (e_skey e) (e_smcomp e) (e_ip e) (e_port e) (e_s e) (e_host e) (e_rate e) (e_rate_log e) (e_stanza_rate e) (e_stanza_rate_log e) (e_last_activity e) (e_packet_count e) (e_bound e) (e_resources e) (e_active e) (e_result e) x.

(** The pointer to the router's stream: none yet, freed, or a stream in a state. *)
Inductive router_ptr := RNull | RFreed | RStream (st : sx_state).
Definition router_state (r : router_ptr) : option sx_state := match r with RStream st => Some st | _ => None end.

(** What the router and the clients get, and what is asked of the system. *)
Inductive out :=
  | ORouter (n : nad)                                    (* sx_nad_write to the router *)
  | ORouterError (err : Z) (text : option string)        (* sx_error on the router's stream *)
  | ORouterClose                                         (* its end of stream *)
  | ORouterClosed                                        (* mio_close of it *)
  | ORouterAuth                                          (* sx_sasl_auth *)
  | OWrite (e : loc) (n : nad)                           (* sx_nad_write *)
  | OWriteElem (e : loc) (n : nad) (elem : Z)            (* sx_nad_write_elem *)
  | ORaw (e : loc) (s : string)                          (* sx_raw_write *)
  | OError (e : loc) (err : Z) (text : option string)    (* sx_error, sx_error_extended *)
  | OClose (e : loc)                                     (* the end of the stream *)
  | OClosed (e : loc)                                    (* mio_close *)
  | OInit (e : loc) (flags : Z)                          (* sx_server_init *)
  | OExit.                                               (* exit(1) *)

Section c2s.
Context {T : Type → Type} `{Table T} `{Env}.

(** The part of [struct c2s_st] that the configuration sets. *)
Record cconf := CConf {
  cf_vhost : option host;
  cf_stream_redirects : T (string * string);
  cf_access : access;
  cf_conn_rate_total : Z; cf_conn_rate_seconds : Z; cf_conn_rate_wait : Z;
  cf_byte_rate_total : Z; cf_byte_rate_seconds : Z; cf_byte_rate_wait : Z;
  cf_stanza_rate_total : Z; cf_stanza_rate_seconds : Z; cf_stanza_rate_wait : Z;
  cf_ar_mechanisms : Z; cf_ar_ssl_mechanisms : Z;
  cf_local_port : Z; cf_local_ssl_port : Z; cf_local_pemfile : option string;
  cf_compression : bool;
  cf_io_check_idle : Z; cf_io_check_keepalive : Z;
  cf_retry_lost : Z;
  cf_authreg_filename : option string;
  cf_password_type : pws_crypt;
  cf_config : T unit
}.

(** [struct c2s_st].  [c_fd] whether there is a
    connection to it; [c_listening] whether a listening socket is open;
    [c_fresh] the next address that malloc gives. *)
Record c2s := C2s {
  c_conf : cconf;
  c_heap : gmap loc sess;
  c_fresh : loc;
  c_sessions : T loc;
  c_hosts : T host;
  c_sm_avail : T unit;
  c_conn_rates : T rate;
  c_router : router_ptr;
  c_fd : bool;
  c_online : bool;
  c_started : bool;
  c_listening : bool;
  c_lost_router : bool;
  c_retry_left : Z;
  c_dead : @jqueue loc;
  c_dead_sess : @jqueue loc;
  c_packet_count : Z;
  c_asked_rand : nat;
  c_out : list out
}.

Definition set_c_conf (x : cconf) (c : c2s) : c2s :=
  C2s x (c_heap c) (c_fresh c) (c_sessions c) (c_hosts c) (c_sm_avail c) (c_conn_rates c) (c_router c) (c_fd c) (c_online c) (c_started c) (c_listening c) (c_lost_router c) (c_retry_left c) (c_dead c) (c_dead_sess c) (c_packet_count c) (c_asked_rand c) (c_out c).
Definition set_c_heap (x : gmap loc sess) (c : c2s) : c2s :=
  C2s (c_conf c) x (c_fresh c) (c_sessions c) (c_hosts c) (c_sm_avail c) (c_conn_rates c) (c_router c) (c_fd c) (c_online c) (c_started c) (c_listening c) (c_lost_router c) (c_retry_left c) (c_dead c) (c_dead_sess c) (c_packet_count c) (c_asked_rand c) (c_out c).
Definition set_c_fresh (x : loc) (c : c2s) : c2s :=
  C2s (c_conf c) (c_heap c) x (c_sessions c) (c_hosts c) (c_sm_avail c) (c_conn_rates c) (c_router c) (c_fd c) (c_online c) (c_started c) (c_listening c) (c_lost_router c) (c_retry_left c) (c_dead c) (c_dead_sess c) (c_packet_count c) (c_asked_rand c) (c_out c).
Definition set_c_sessions (x : T loc) (c : c2s) : c2s :=
  C2s (c_conf c) (c_heap c) (c_fresh c) x (c_hosts c) (c_sm_avail c) (c_conn_rates c) (c_router c) (c_fd c) (c_online c) (c_started c) (c_listening c) (c_lost_router c) (c_retry_left c) (c_dead c) (c_dead_sess c) (c_packet_count c) (c_asked_rand c) (c_out c).
Definition set_c_hosts (x : T host) (c : c2s) : c2s :=
  C2s (c_conf c) (c_heap c) (c_fresh c) (c_sessions c) x (c_sm_avail c) (c_conn_rates c) (c_router c) (c_fd c) (c_online c) (c_started c) (c_listening c) (c_lost_router c) (c_retry_left c) (c_dead c) (c_dead_sess c) (c_packet_count c) (c_asked_rand c) (c_out c).
Definition set_c_sm_avail (x : T unit) (c : c2s) : c2s :=
  C2s (c_conf c) (c_heap c) (c_fresh c) (c_sessions c) (c_hosts c) x (c_conn_rates c) (c_router c) (c_fd c) (c_online c) (c_started c) (c_listening c) (c_lost_router c) (c_retry_left c) (c_dead c) (c_dead_sess c) (c_packet_count c) (c_asked_rand c) (c_out c).
Definition set_c_conn_rates (x : T rate) (c : c2s) : c2s :=
  C2s (c_conf c) (c_heap c) (c_fresh c) (c_sessions c) (c_hosts c) (c_sm_avail c) x (c_router c) (c_fd c) (c_online c) (c_started c) (c_listening c) (c_lost_router c) (c_retry_left c) (c_dead c) (c_dead_sess c) (c_packet_count c) (c_asked_rand c) (c_out c).
Definition set_c_router (x : router_ptr) (c : c2s) : c2s :=
  C2s (c_conf c) (c_heap c) (c_fresh c) (c_sessions c) (c_hosts c) (c_sm_avail c) (c_conn_rates c) x (c_fd c) (c_online c) (c_started c) (c_listening c) (c_lost_router c) (c_retry_left c) (c_dead c) (c_dead_sess c) (c_packet_count c) (c_asked_rand c) (c_out c).
Definition set_c_fd (x : bool) (c : c2s) : c2s :=
  C2s (c_conf c) (c_heap c) (c_fresh c) (c_sessions c) (c_hosts c) (c_sm_avail c) (c_conn_rates c) (c_router c) x (c_online c) (c_started c) (c_listening c) (c_lost_router c) (c_retry_left c) (c_dead c) (c_dead_sess c) (c_packet_count c) (c_asked_rand c) (c_out c).
Definition set_c_online (x : bool) (c : c2s) : c2s :=
  C2s (c_conf c) (c_heap c) (c_fresh c) (c_sessions c) (c_hosts c) (c_sm_avail c) (c_conn_rates c) (c_router c) (c_fd c) x (c_started c) (c_listening c) (c_lost_router c) (c_retry_left c) (c_dead c) (c_dead_sess c) (c_packet_count c) (c_asked_rand c) (c_out c).
Definition set_c_started (x : bool) (c : c2s) : c2s :=
  C2s (c_conf c) (c_heap c) (c_fresh c) (c_sessions c) (c_hosts c) (c_sm_avail c) (c_conn_rates c) (c_router c) (c_fd c) (c_online c) x (c_listening c) (c_lost_router c) (c_retry_left c) (c_dead c) (c_dead_sess c) (c_packet_count c) (c_asked_rand c) (c_out c).
Definition set_c_listening (x : bool) (c : c2s) : c2s :=
  C2s (c_conf c) (c_heap c) (c_fresh c) (c_sessions c) (c_hosts c) (c_sm_avail c) (c_conn_rates c) (c_router c) (c_fd c) (c_online c) (c_started c) x (c_lost_router c) (c_retry_left c) (c_dead c) (c_dead_sess c) (c_packet_count c) (c_asked_rand c) (c_out c).
Definition set_c_lost_router (x : bool) (c : c2s) : c2s :=
  C2s (c_conf c) (c_heap c) (c_fresh c) (c_sessions c) (c_hosts c) (c_sm_avail c) (c_conn_rates c) (c_router c) (c_fd c) (c_online c) (c_started c) (c_listening c) x (c_retry_left c) (c_dead c) (c_dead_sess c) (c_packet_count c) (c_asked_rand c) (c_out c).
Definition set_c_retry_left (x : Z) (c : c2s) : c2s :=
  C2s (c_conf c) (c_heap c) (c_fresh c) (c_sessions c) (c_hosts c) (c_sm_avail c) (c_conn_rates c) (c_router c) (c_fd c) (c_online c) (c_started c) (c_listening c) (c_lost_router c) x (c_dead c) (c_dead_sess c) (c_packet_count c) (c_asked_rand c) (c_out c).
Definition set_c_dead (x : @jqueue loc) (c : c2s) : c2s :=
  C2s (c_conf c) (c_heap c) (c_fresh c) (c_sessions c) (c_hosts c) (c_sm_avail c) (c_conn_rates c) (c_router c) (c_fd c) (c_online c) (c_started c) (c_listening c) (c_lost_router c) (c_retry_left c) x (c_dead_sess c) (c_packet_count c) (c_asked_rand c) (c_out c).
Definition set_c_dead_sess (x : @jqueue loc) (c : c2s) : c2s :=
  C2s (c_conf c) (c_heap c) (c_fresh c) (c_sessions c) (c_hosts c) (c_sm_avail c) (c_conn_rates c) (c_router c) (c_fd c) (c_online c) (c_started c) (c_listening c) (c_lost_router c) (c_retry_left c) (c_dead c) x (c_packet_count c) (c_asked_rand c) (c_out c).
Definition set_c_packet_count (x : Z) (c : c2s) : c2s :=
  C2s (c_conf c) (c_heap c) (c_fresh c) (c_sessions c) (c_hosts c) (c_sm_avail c) (c_conn_rates c) (c_router c) (c_fd c) (c_online c) (c_started c) (c_listening c) (c_lost_router c) (c_retry_left c) (c_dead c) (c_dead_sess c) x (c_asked_rand c) (c_out c).
Definition set_c_asked_rand (x : nat) (c : c2s) : c2s :=
  C2s (c_conf c) (c_heap c) (c_fresh c) (c_sessions c) (c_hosts c) (c_sm_avail c) (c_conn_rates c) (c_router c) (c_fd c) (c_online c) (c_started c) (c_listening c) (c_lost_router c) (c_retry_left c) (c_dead c) (c_dead_sess c) (c_packet_count c) x (c_out c).
Definition set_c_out (x : list out) (c : c2s) : c2s :=
  C2s (c_conf c) (c_heap c) (c_fresh c) (c_sessions c) (c_hosts c) (c_sm_avail c) (c_conn_rates c) (c_router c) (c_fd c) (c_online c) (c_started c) (c_listening c) (c_lost_router c) (c_retry_left c) (c_dead c) (c_dead_sess c) (c_packet_count c) (c_asked_rand c) x.

(** ** Pointers, output *)

Definition get_sess (c : c2s) (e : loc) : option sess := c_heap c !! e.
Definition upd_sess (e : loc) (f : sess → sess) (c : c2s) : c2s := set_c_heap (alter f e (c_heap c)) c.
Definition emit (o : out) (c : c2s) : c2s := set_c_out (c_out c ++ [o]) c.
Definition c2s_alloc (c : c2s) : loc * c2s := (c_fresh c, set_c_fresh (S (c_fresh c)) c).
Definition ask_rand (k : nat) (c : c2s) : nat * c2s := (c_asked_rand c, set_c_asked_rand (k + c_asked_rand c) c).
Definition get_stream (c : c2s) (e : loc) : option stream := x ← get_sess c e; e_s x.
Definition upd_stream (e : loc) (f : stream → stream) : c2s → c2s := upd_sess e (λ x, with_e_s (f <$> e_s x) x).

Fixpoint foldM {A} (f : c2s → A → option c2s) (c : c2s) (l : list A) : option c2s :=
  match l with [] => Some c | a :: l => c ← f c a; foldM f c l end.

(** ** Writing *)

(** [sx_nad_write]: dropped when the stream is closing. *)
Definition sx_nad_write (c : c2s) (e : loc) (n : nad) : option c2s :=
  s ← get_stream c e;
  Some (if state_ge (x_state s) state_CLOSING then c else emit (OWrite e n) c).
Definition sx_nad_write_elem (c : c2s) (e : loc) (n : nad) (elem : Z) : option c2s :=
  s ← get_stream c e;
  Some (if state_ge (x_state s) state_CLOSING then c else emit (OWriteElem e n elem) c).
Definition sx_raw_write (c : c2s) (e : loc) (t : string) : option c2s :=
  s ← get_stream c e;
  Some (if state_ge (x_state s) state_CLOSING then c else emit (ORaw e t) c).
Definition sx_error (c : c2s) (e : loc) (err : Z) (t : option string) : option c2s :=
  _ ← get_stream c e; Some (emit (OError e err t) c).

Definition router_write (c : c2s) (n : nad) : option c2s :=
  st ← router_state (c_router c);
  Some (if state_ge st state_CLOSING then c else emit (ORouter n) c).

(** ** Session control: c2s/sm.c *)

(** A string where [printf] is given NULL. *)
Definition pct_s (s : option string) : string := default "(null)" s.

Definition shahash_r (s : string) : string := hex_from_raw (env_sha1 s).

Definition snprint (size : nat) (s : string) : string := stake (size - 1) s.

Definition _sm_generate_id (b : bres) (type : string) (now : Z) : option bres :=
  j ← b_jid b;
  Some (with_b_sm_request (shahash_r (snprint 3094 (type +:+ fmt_d (int32 now) +:+ pct_s (jid_full j).2))) b).

Definition _sm_build_route (smcomp : option string) (b : bres) (action : string) (target id : option string) : option nad :=
  let '(n, ns) := nad_add_namespace nad_new uri_COMPONENT None in
  let '(n, _) := nad_append_elem n ns "route" 0 in
  to ← match smcomp with Some s => Some s | None => j ← b_jid b; Some (jid_domain j) end;
  let '(n, _) := nad_append_attr n (-1) "to" to in
  let '(n, _) := nad_append_attr n (-1) "from" "c2s" in
  let '(n, ans) := nad_add_namespace n uri_SESSION (Some "sc") in
  let '(n, _) := nad_append_elem n ans "session" 1 in
  let n := if bool_decide (b_c2s_id b = "") then n else (nad_append_attr n ans "c2s" (b_c2s_id b)).1 in
  let n := if bool_decide (b_sm_id b = "") then n else (nad_append_attr n ans "sm" (b_sm_id b)).1 in
  let '(n, _) := nad_append_attr n (-1) "action" action in
  Some (append_opt "id" id (append_opt "target" target n)).

(** The request id that [sm_start] stores is part of the resource it gives back. *)
Definition sm_start (c : c2s) (smcomp : option string) (b : bres) (now : Z) : option (c2s * bres) :=
  b ← _sm_generate_id b "start" now;
  j ← b_jid b;
  n ← _sm_build_route smcomp b "start" (jid_full j).2 (Some (b_sm_request b));
  c ← router_write c n; Some (c, b).
Definition sm_end (c : c2s) (smcomp : option string) (b : bres) : option c2s :=
  n ← _sm_build_route smcomp b "end" None None; router_write c n.
Definition sm_create (c : c2s) (smcomp : option string) (b : bres) (now : Z) : option (c2s * bres) :=
  b ← _sm_generate_id b "create" now;
  j ← b_jid b;
  n ← _sm_build_route smcomp b "create" (jid_user j).2 (Some (b_sm_request b));
  c ← router_write c n; Some (c, b).
Definition sm_delete (c : c2s) (smcomp : option string) (b : bres) : option c2s :=
  j ← b_jid b;
  n ← _sm_build_route smcomp b "delete" (jid_user j).2 None; router_write c n.

Definition packet_route (smcomp : option string) (b : bres) (n : nad) : option nad :=
  let '(n, ns) := nad_add_namespace n uri_COMPONENT None in
  let n := nad_wrap_elem n 0 ns "route" in
  to ← match smcomp with Some s => Some s | None => j ← b_jid b; Some (jid_domain j) end;
  let n := nad_set_attr n 0 (-1) "to" (Some to) 0 in
  let n := nad_set_attr n 0 (-1) "from" (Some "c2s") 0 in
  let '(n, ns) := nad_append_namespace n 1 uri_SESSION (Some "sc") in
  let n := nad_set_attr n 1 ns "c2s" (Some (b_c2s_id b)) 0 in
  Some (if bool_decide (b_c2s_id b = "") then n else nad_set_attr n 1 ns "sm" (Some (b_sm_id b)) 0).
Definition sm_packet (c : c2s) (smcomp : option string) (b : bres) (n : nad) : option c2s :=
  n ← packet_route smcomp b n; router_write c n.

(** ** Closing *)

(** [action_CLOSE] of [_c2s_client_mio_callback] *)
Definition client_action_close (c : c2s) (e : loc) : option c2s :=
  x ← get_sess c e;
  _ ← e_s x;
  (* tell the sm to close their session *)
  c ← (if e_active x then foldM (λ c b, sm_end c (e_smcomp x) b) c (e_resources x) else Some c);
  let c := set_c_dead (jqueue_push (c_dead c) e 0) c in
  let c := set_c_sessions (tzap (c_sessions c) (e_skey x)) c in
  Some (set_c_dead_sess (jqueue_push (c_dead_sess c) e 0) c).

(** [event_CLOSED] of the client's callback *)
Definition client_event_closed (c : c2s) (e : loc) : option c2s :=
  x ← get_sess c e;
  _ ← e_fd x;
  c ← client_action_close c e;
  Some (upd_sess e (with_e_fd None) (emit (OClosed e) c)).

Definition sx_close (c : c2s) (e : loc) : option c2s :=
  s ← get_stream c e;
  if state_ge (x_state s) state_CLOSING then Some c
  else if state_ge (x_state s) state_STREAM_SENT then
    Some (upd_stream e (with_x_state state_CLOSING) (emit (OClose e) c))
  else client_event_closed (upd_stream e (with_x_state state_CLOSED) c) e.

Definition sx_kill (c : c2s) (e : loc) : option c2s :=
  _ ← get_stream c e;
  client_event_closed (upd_stream e (with_x_state state_CLOSED) c) e.

(** [action_CLOSE] and [event_CLOSED] of the callbacks of the router's connection *)
Definition router_action_close (c : c2s) : c2s := set_c_online false (set_c_lost_router true c).
Definition router_event_closed (c : c2s) : option c2s :=
  if c_fd c then Some (set_c_fd false (emit ORouterClosed (router_action_close c))) else None.

(** [sx_error] and [sx_close] on the router's stream. *)
Definition router_error (c : c2s) (err : Z) (t : option string) : option c2s :=
  _ ← router_state (c_router c); Some (emit (ORouterError err t) c).
Definition router_close (c : c2s) : option c2s :=
  st ← router_state (c_router c);
  if state_ge st state_CLOSING then Some c
  else if state_ge st state_STREAM_SENT then Some (set_c_router (RStream state_CLOSING) (emit ORouterClose c))
  else router_event_closed (set_c_router (RStream state_CLOSED) c).
End c2s.
#[global] Arguments cconf T : clear implicits.
#[global] Arguments c2s T : clear implicits.
