(* ===== verification/Authreg.v ===== *)
(** * Passwords and iq:auth: c2s/authreg.c

    The users are the lines of a file, a login and a password each, in the
    tree of groups that the session manager reads as the roster.  A client
    that does not use SASL authenticates with an iq. *)
From S2P Require Import Prelude.
From S2P Require Import CStr.
From S2P Require Import DList.
From S2P Require Import Codec.
From S2P Require Import Jid.
From S2P Require Import Nad.
From S2P Require Import Table.
From S2P Require Import Stanza.
From S2P Require Import Filter.
From S2P Require Import Datetime.
From S2P Require Import Lines.
From S2P Require Import Pkt.
From S2P Require Import C2s.

Definition uri_AUTH : string := "jabber:iq:auth".
Definition uri_REGISTER : string := "jabber:iq:register".

Definition AR_MECH_TRAD_PLAIN : Z := Z.shiftl 1 0.
Definition AR_MECH_TRAD_DIGEST : Z := Z.shiftl 1 1.
Definition AR_MECH_TRAD_CRAMMD5 : Z := Z.shiftl 1 2.

Definition PLAIN_LU : nat := 1024.
Definition PLAIN_LR : nat := 256.
Definition PLAIN_LP : nat := 256.
Definition PLAIN_MAX_INDENT : nat := 64.

Definition stanza_err_OLD_UNAUTH : Z := 121.

(** ** The file of passwords *)

Fixpoint skip_tabs (p : string) : string :=
  match p with String c q => if bool_decide (c = tab) then skip_tabs q else p | EmptyString => p end.

(** A line's login and password. *)
Definition user_line (line : list ascii) : option (string * string) :=
  '(login, rest) ← split_at tab (skip_tabs (chomp line));
  if bool_decide (login = "") then None else Some (login, stake 256 rest).

Fixpoint find_user (username : string) (lines : list (list ascii)) : option string :=
  match lines with
  | [] => None
  | line :: lines =>
    match user_line line with
    | Some (login, password) => if bool_decide (login = username) then Some password else find_user username lines
    | None => find_user username lines
    end
  end.

Section authreg.
Context {T : Type → Type} `{Table T} `{Env} `{AuthEnv}.
Notation c2s := (c2s T).

(** [_ar_plain_lookup], with the password found. *)
Definition _ar_plain_lookup (conf : cconf T) (username : string) : option string :=
  filename ← cf_authreg_filename conf;
  file ← ae_file filename;
  find_user username (fgets_lines (PLAIN_MAX_INDENT + PLAIN_LU + 1 + PLAIN_LP + 8) file).
Definition authreg_user_exists (conf : cconf T) (username : string) : bool :=
  bool_decide (is_Some (_ar_plain_lookup conf username)).
Definition authreg_get_password (conf : cconf T) (username : string) : option string := _ar_plain_lookup conf username.

(** The type of the passwords; the file must be there. *)
Definition authreg_init (filename : option string) (set : string → bool) : option (string * pws_crypt) :=
  filename ← filename;
  _ ← ae_file filename;
  Some (filename,
    if set "authreg.password_type.plaintext" then MPC_PLAIN
    else if set "authreg.password_type.crypt" then MPC_CRYPT
    else if set "authreg.password_type.a1hash" then MPC_A1HASH
    else MPC_PLAIN).

Definition calc_a1hash (username realm password : string) : string :=
  hex_from_raw (ae_md5 (snprint (PLAIN_LU + 1 + PLAIN_LR + 1 + PLAIN_LP + 1)
    (stake PLAIN_LU username +:+ ":" +:+ stake PLAIN_LR realm +:+ ":" +:+ stake PLAIN_LP password))).

Definition has_colon (s : string) : bool := bool_decide (is_Some (split_at ":" s)).

(** [None]: [crypt] gives NULL, or there is no realm. *)
Definition authreg_check_password (conf : cconf T) (username : string) (realm : option string) (password : string) : option bool :=
  match authreg_get_password conf username with
  | None => Some false
  | Some db =>
    match cf_password_type conf with
    | MPC_PLAIN => Some (strcmp password db =? 0)%Z
    | MPC_CRYPT => crypted ← ae_crypt password db; Some (strcmp crypted db =? 0)%Z
    | MPC_A1HASH =>
      if has_colon username then Some false
      else
        realm ← realm;
        if has_colon realm then Some false
        else Some (strncmp_eq 32 (calc_a1hash username realm password) db)
    end
  end.

(** ** iq:auth *)

(** [sx_nad_write(sess->s, stanza_tofrom(stanza_error(nad, 0, err), 0))] *)
Definition auth_error (c : c2s) (e : loc) (n : nad) (err : Z) : option c2s :=
  n ← stanza_error n 0 err; sx_nad_write c e (stanza_tofrom n 0).

(** The text of a child of the query, cut to a buffer. *)
Definition child_elem (n : nad) (el ns : Z) (name : string) : option Z :=
  let elem := nad_find_elem n el ns (Some name) 1 in if (0 <=? elem)%Z then Some elem else None.
Definition cdata_buf (size : nat) (n : nad) (elem : Z) : string := sprint size (nad_cdata n elem).

Definition mechanisms (conf : cconf T) (s : stream) : Z :=
  if (0 <? x_ssf s)%Z then Z.lor (cf_ar_mechanisms conf) (cf_ar_ssl_mechanisms conf) else cf_ar_mechanisms conf.
Definition trad_mechanisms : Z := Z.lor AR_MECH_TRAD_PLAIN (Z.lor AR_MECH_TRAD_DIGEST AR_MECH_TRAD_CRAMMD5).

(** The answer to a get: what there is to fill in. *)
Definition auth_fields (mechs : Z) (username : string) (id : option string) : nad :=
  let '(n, ns) := nad_add_namespace nad_new uri_CLIENT None in
  let '(n, _) := nad_append_elem n ns "iq" 0 in
  let '(n, _) := nad_append_attr n (-1) "type" "result" in
  let n := append_opt "id" id n in
  let '(n, ns) := nad_add_namespace n uri_AUTH None in
  let '(n, _) := nad_append_elem n ns "query" 1 in
  let '(n, _) := nad_append_elem n ns "username" 2 in
  let n := nad_append_cdata n (tx username) 3 in
  let '(n, _) := nad_append_elem n ns "resource" 2 in
  let n := if has mechs AR_MECH_TRAD_PLAIN then (nad_append_elem n ns "password" 2).1 else n in
  if has mechs AR_MECH_TRAD_DIGEST then (nad_append_elem n ns "digest" 2).1 else n.

Definition _authreg_auth_get (c : c2s) (e : loc) (n : nad) : option c2s :=
  x ← get_sess c e;
  if e_active x then auth_error c e n stanza_err_NOT_ALLOWED
  else
    let ns := nad_find_scoped_namespace n uri_AUTH None in
    match child_elem n 1 ns "username" with
    | None => auth_error c e n stanza_err_BAD_REQUEST
    | Some elem =>
      match env_nodeprep (cdata_buf 1024 n elem) with
      | None => auth_error c e n stanza_err_JID_MALFORMED
      | Some username =>
        s ← e_s x;
        let mechs := mechanisms (c_conf c) s in
        if negb (has mechs trad_mechanisms) then auth_error c e n stanza_err_FORBIDDEN
        else if negb (authreg_user_exists (c_conf c) username) then auth_error c e n stanza_err_OLD_UNAUTH
        else sx_nad_write c e (auth_fields mechs username (sprint 128 <$> attr_of n 0 "id"))
      end
    end.

(** *** Checking a password *)

(** [strlen(s) == NAD_CDATA_L && strncmp(...) == 0] *)
Definition cdata_is (n : nad) (elem : Z) (s : string) : bool := bool_decide (nad_cdata n elem = tx s).

(** [_authreg_auth_log] reads the realm of the session's host. *)
Definition _authreg_auth_log (x : sess) (success : bool) : option bool := _ ← e_host x; Some success.

Definition digest_auth (conf : cconf T) (x : sess) (s : stream) (mechs : Z) (n : nad) (ns : Z) (username : string) : option bool :=
  if negb (has mechs AR_MECH_TRAD_DIGEST) then Some false
  else match child_elem n 1 ns "digest" with
       | None => Some false
       | Some elem =>
         match authreg_get_password conf username with
         | None => Some false
         | Some pw => _authreg_auth_log x (cdata_is n elem (shahash_r (snprint 280 (x_id s +:+ pw))))
         end
       end.
Definition plain_compare (conf : cconf T) (x : sess) (mechs : Z) (n : nad) (ns : Z) (username : string) : option bool :=
  if negb (has mechs AR_MECH_TRAD_PLAIN) then Some false
  else match child_elem n 1 ns "password" with
       | None => Some false
       | Some elem =>
         _authreg_auth_log x (match authreg_get_password conf username with
                              | Some pw => cdata_is n elem pw
                              | None => false
                              end)
       end.
Definition plain_check (conf : cconf T) (x : sess) (mechs : Z) (n : nad) (ns : Z) (username : string) : option bool :=
  if negb (has mechs AR_MECH_TRAD_PLAIN) then Some false
  else match child_elem n 1 ns "password" with
       | None => Some false
       | Some elem =>
         h ← e_host x;
         ok ← authreg_check_password conf username (ho_realm h) (cdata_buf 1024 n elem);
         _authreg_auth_log x ok
       end.

(** [if(!authd && ...)] *)
Definition or_else (a b : option bool) : option bool := x ← a; if (x : bool) then Some true else b.

Definition authenticated (conf : cconf T) (x : sess) (s : stream) (mechs : Z) (n : nad) (ns : Z) (username : string) : option bool :=
  or_else (digest_auth conf x s mechs n ns username)
    (or_else (plain_compare conf x mechs n ns username) (plain_check conf x mechs n ns username)).

(** The answer that waits for the session manager. *)
Definition iq_result (n : nad) : nad :=
  let '(r, ns) := nad_add_namespace nad_new uri_CLIENT None in
  let '(r, _) := nad_append_elem r ns "iq" 0 in
  let r := nad_set_attr r 0 (-1) "type" (Some "result") 6 in
  match attr_of n 0 "id" with
  | Some v => nad_set_attr r 0 (-1) "id" (Some (string_of v)) (Z.of_nat (length v))
  | None => r
  end.

(** [jid_reset_components], the jid kept also when it is refused. *)
Definition reset_components (j : jid) (node domain resource : string) : option jid :=
  match jid_reset_components env_nodeprep env_nameprep env_resourceprep j node domain resource with
  | JOk j | JFail j => Some j
  | JBadFree => None
  end.

(** The session that the session manager is asked for. *)
Definition auth_session (c : c2s) (e : loc) (x : sess) (s : stream) (n : nad) (username resource : string) (now : Z) : option c2s :=
  let '(b, bs) := match e_resources x with b :: bs => (b, bs) | [] => (Bres None "" "" "", []) end in
  let b := with_b_c2s_id (fmt_d (x_tag s)) b in
  j ← jid_new env_nodeprep env_nameprep env_resourceprep (x_req_to s) (-1);
  j ← reset_components j username (jid_domain j) resource;
  let b := with_b_jid (Some j) b in
  '(c, b) ← sm_start c (e_smcomp x) b now;
  Some (upd_sess e (λ x, with_e_result (Some (iq_result n)) (with_e_resources (b :: bs) x)) c).

Definition _authreg_auth_set (c : c2s) (e : loc) (n : nad) (now : Z) : option c2s :=
  x ← get_sess c e;
  if e_active x then auth_error c e n stanza_err_NOT_ALLOWED
  else
    let ns := nad_find_scoped_namespace n uri_AUTH None in
    match child_elem n 1 ns "username" with
    | None => auth_error c e n stanza_err_BAD_REQUEST
    | Some elem =>
      match env_nodeprep (cdata_buf 1024 n elem) with
      | None => auth_error c e n stanza_err_JID_MALFORMED
      | Some username =>
        match child_elem n 1 ns "resource" with
        | None => auth_error c e n stanza_err_BAD_REQUEST
        | Some elem =>
          match env_resourceprep (cdata_buf 1024 n elem) with
          | None => auth_error c e n stanza_err_JID_MALFORMED
          | Some resource =>
            s ← e_s x;
            let mechs := mechanisms (c_conf c) s in
            if negb (has mechs trad_mechanisms) then auth_error c e n stanza_err_FORBIDDEN
            else if negb (authreg_user_exists (c_conf c) username) then auth_error c e n stanza_err_OLD_UNAUTH
            else
              authd ← authenticated (c_conf c) x s mechs n ns username;
              if (authd : bool) then auth_session c e x s n username resource now
              else
                _ ← _authreg_auth_log x false;
                auth_error c e n stanza_err_OLD_UNAUTH
          end
        end
      end
    end.

(** A query in a namespace below the first element. *)
Definition has_query (n : nad) (uri : string) : bool :=
  let ns := nad_find_scoped_namespace n uri None in
  (0 <=? ns)%Z && (0 <=? nad_find_elem n 0 ns (Some "query") 1)%Z.

(** The flag tells whether the packet was handled. *)
Definition authreg_process (c : c2s) (e : loc) (n : nad) (now : Z) : option (c2s * bool) :=
  let handled (r : option c2s) := c ← r; Some (c, true) in
  let pass := Some (c, false) in
  if negb (bool_decide (nad_ename n 0 = tx "iq")) then pass
  else if negb (has_query n uri_AUTH || has_query n uri_REGISTER) then pass
  else
    s ← get_stream c e;
    let to_us := match x_req_to s with
                 | Some to => (0 <=? nad_find_attr n 0 (-1) "to" (Some to))%Z
                 | None => (0 <=? nad_find_attr n 0 (-1) "to" None)%Z
                 end in
    if (0 <=? nad_find_attr n 0 (-1) "to" None)%Z && negb to_us then pass
    else
      let type := attr_of n 0 "type" in
      if negb (is_text type "get" || is_text type "set") then handled (auth_error c e n stanza_err_BAD_REQUEST)
      else if has_query n uri_AUTH then
        x ← get_sess c e;
        if e_sasl_authd x then handled (auth_error c e n stanza_err_NOT_ALLOWED)
        else if is_text type "get" then handled (_authreg_auth_get c e n)
        else handled (_authreg_auth_set c e n now)
      else handled (auth_error c e n stanza_err_NOT_ALLOWED).
End authreg.
