(* ===== verification/C2sClient.v ===== *)
(** * The clients' connections: c2s/c2s.c

    The callback of a client's stream, an operation for each event, and of its
    connection.  What a client is told to wait for is in [e_result] until the
    session manager answers. *)
From S2P Require Import Prelude.
From S2P Require Import CStr.
From S2P Require Import DList.
From S2P Require Import JQueue.
From S2P Require Import Rate.
From S2P Require Import Codec.
From S2P Require Import Access.
From S2P Require Import Jid.
From S2P Require Import Nad.
From S2P Require Import Table.
From S2P Require Import Stanza.
From S2P Require Import Datetime.
From S2P Require Import Pkt.
From S2P Require Import C2s.
From S2P Require Import Authreg.

Definition uri_IQAUTH : string := "http://jabber.org/features/iq-auth".
Definition uri_ROSTERVER : string := "urn:xmpp:features:rosterver".
Definition uri_ADDRESS_FEATURE : string := "http://affinix.com/jabber/address".

Section client.
Context {T : Type → Type} `{Table T} `{Env} `{AuthEnv}.
Notation c2s := (c2s T).
Implicit Types (c : c2s).

(** ** Reading and writing *)

(** [event_READ] into a buffer of [buflen] bytes; the value returned is the length read. *)
Definition client_event_read c (e : loc) (buflen now : Z) (recv : Z → recv_result) : option (c2s * Z) :=
  x ← get_sess c e;
  _ ← e_fd x;
  let do_read c rlen :=
    let add len c := upd_sess e (λ x, with_e_rate ((λ rt, rate_add rt len now) <$> e_rate x) x) c in
    match recv rlen with
    | RLen len =>
      let c := add len c in
      if (len =? 0)%Z then c ← sx_kill c e; Some (c, -1)%Z else Some (c, len)
    | RWouldBlock => Some (add (-1)%Z c, 0%Z)
    | RError => c ← sx_kill (add (-1)%Z c) e; Some (c, -1)%Z
    end in
  match e_rate x with
  | None => do_read c buflen
  | Some rt =>
    let '(rt, ok) := rate_check rt now in
    let c := upd_sess e (with_e_rate (Some rt)) c in
    if ok then do_read c (Z.min (rate_left rt) buflen)
    else Some (upd_sess e (with_e_rate_log true) c, -1)%Z
  end.

(** [event_WRITE] *)
Definition client_event_write c (e : loc) (buflen : Z) (send : Z → recv_result) : option (c2s * Z) :=
  x ← get_sess c e;
  _ ← e_fd x;
  match send buflen with
  | RLen len => Some (c, len)
  | RWouldBlock => Some (c, 0%Z)
  | RError => c ← sx_kill c e; Some (c, -1)%Z
  end.

(** ** The stream opens *)

Definition starttls_flags (h : host) (flags : Z) : Z :=
  let flags := match ho_pemfile h with Some _ => Z.lor flags SX_SSL_STARTTLS_OFFER | None => flags end in
  if ho_require_starttls h then Z.lor flags SX_SSL_STARTTLS_REQUIRE else flags.

Definition set_host c (e : loc) (h : host) : c2s :=
  upd_stream e (λ s, with_x_flags (starttls_flags h (x_flags s)) s) (upd_sess e (with_e_host (Some h)) c).

(** [event_STREAM] *)
Definition client_event_stream c (e : loc) : option c2s :=
  s ← get_stream c e;
  match x_req_to s with
  | None => c ← sx_error c e stream_err_HOST_UNKNOWN (Some "no 'to' attribute on stream header"); sx_close c e
  | Some to =>
    match tget (cf_stream_redirects (c_conf c)) to with
    | Some (address, port) =>
      c ← sx_error c e stream_err_SEE_OTHER_HOST (Some (address +:+ ":" +:+ port)); sx_close c e
    | None =>
      let h := tget (c_hosts c) to in
      let c := upd_sess e (with_e_host h) c in
      match h, cf_vhost (c_conf c) with
      | None, None => c ← sx_error c e stream_err_HOST_UNKNOWN (Some "service requested for unknown domain"); sx_close c e
      | _, vhost =>
        if negb (bool_decide (is_Some (tget (c_sm_avail c) to))) then
          c ← sx_error c e stream_err_HOST_GONE (Some "session manager for requested domain is not available"); sx_close c e
        else
          match h with
          | Some h => Some (set_host c e h)
          | None =>
            (* create host on-fly *)
            v ← vhost;
            let h := Host (Some to) (ho_pemfile v) (ho_require_starttls v) in
            Some (set_host (set_c_hosts (tput (c_hosts c) to h) c) e h)
          end
      end
    end
  end.

(** [event_OPEN] *)
Definition is_sasl (auth_method : string) : bool := (4 <=? strlen auth_method)%Z && strncmp_eq 4 "SASL" auth_method.
Definition client_event_open c (e : loc) : option c2s :=
  x ← get_sess c e;
  s ← e_s x;
  m ← x_auth_method s;
  if is_sasl m then Some (upd_sess e (with_e_sasl_authd true) c)
  else match e_result x with
       | Some r => c ← sx_nad_write c e r; Some (upd_sess e (λ x, with_e_active true (with_e_result None x)) c)
       | None => Some c
       end.

(** [sx_auth], with what it calls *)
Definition sx_auth c (e : loc) (auth_method auth_id : option string) : option c2s :=
  _ ← get_stream c e;
  let set_auth s :=
    let s := match auth_method with Some m => with_x_auth_method (Some m) s | None => s end in
    let s := match auth_id with Some i => with_x_auth_id (Some i) s | None => s end in
    with_x_state state_OPEN s in
  client_event_open (upd_stream e set_auth c) e.

(** *** Features: c2s/bind.c, c2s/address.c *)

Definition with_scope (ns : Z) (n : nad) : nad := Nad (elems n) (attrs n) (nss n) (cdata n) (depths n) ns.
(** [superseded]: compiled with the handlers of superseded protocols. *)
Definition _bind_features (superseded : bool) (s : stream) (n : nad) : nad :=
  match x_auth_id s with
  | None =>
    let '(n, ns) := nad_add_namespace n uri_IQAUTH None in
    (nad_append_elem n ns "auth" 1).1
  | Some _ =>
    let '(n, ns) := nad_add_namespace n uri_BIND None in
    let '(n, _) := nad_append_elem n ns "bind" 1 in
    let '(n, _) := nad_append_elem n (-1) "required" 2 in
    let '(n, _) := nad_append_elem (with_scope ns n) ns "unbind" 1 in
    let n := if superseded then
               let '(n, ns) := nad_add_namespace n uri_XSESSION None in (nad_append_elem n ns "session" 1).1
             else n in
    let '(n, ns) := nad_add_namespace n uri_ROSTERVER None in
    (nad_append_elem n ns "ver" 1).1
  end.
Definition _address_features (s : stream) (ip : string) (n : nad) : nad :=
  if state_ge (x_state s) state_OPEN then n
  else
    let '(n, ns) := nad_add_namespace n uri_ADDRESS_FEATURE None in
    let '(n, _) := nad_append_elem n ns "address" 1 in
    nad_append_cdata n (tx ip) 2.

(** ** Binding resources *)

(** The random characters are scaled as [jid_random_part] does it. *)
Definition random_resource c (j : jid) : option (c2s * jid) :=
  let '(k, c) := ask_rand 256 c in
  match jid_random_part env_nodeprep env_nameprep env_resourceprep shahash_r j PRESOURCE
          ((λ i, 36 * env_rand i / env_rand_max)%Z <$> seq k 256) with
  | JOk j => Some (c, j)
  | _ => None
  end.

(** A resource that the session has already is replaced. *)
Definition distinct_resource (st : c2s * jid) (b : bres) : option (c2s * jid) :=
  let '(c, j) := st in
  j' ← b_jid b;
  if (strcmp (jid_resource j') (jid_resource j) =? 0)%Z then random_resource c j else Some (c, j).
Fixpoint distinct_resources (st : c2s * jid) (bs : list bres) : option (c2s * jid) :=
  match bs with [] => Some st | b :: bs => st ← distinct_resource st b; distinct_resources st bs end.

(** The jid to bind; [inl] when the request is refused. *)
Definition bind_jid c (x : sess) (s : stream) (n : nad) (ns elem : Z) : option (c2s + c2s * jid) :=
  let j := jid_new env_nodeprep env_nameprep env_resourceprep (x_auth_id s) (-1) in
  let elem := nad_find_elem n elem ns (Some "resource") 1 in
  if (0 <=? elem)%Z then
    if (e_lcdata (elem_at n elem) =? 0)%Z then Some (inl c)
    else match j with
         | None => Some (inl c)
         | Some j =>
           match jid_reset_components env_nodeprep env_nameprep env_resourceprep j (jid_node j) (jid_domain j)
                   (cdata_buf 1024 n elem) with
           | JOk j => st ← distinct_resources (c, j) (e_resources x); Some (inr st)
           | JFail _ => Some (inl c)
           | JBadFree => None
           end
         end
  else j ← j; st ← random_resource c j; Some (inr st).

(** The answer that waits: the jid that is bound. *)
Definition bind_result (n : nad) (j : jid) : nad :=
  let r := iq_result n in
  let '(r, ns) := nad_add_namespace r uri_BIND None in
  let '(r, _) := nad_append_elem r ns "bind" 1 in
  let '(r, _) := nad_append_elem r ns "jid" 2 in
  nad_append_cdata r (tx (jfull j)) 3.

(** [sx_nad_write(sess->s, stanza_error(nad, 0, err))] *)
Definition client_refuse c (e : loc) (n : nad) (err : Z) : option c2s := n ← stanza_error n 0 err; sx_nad_write c e n.

Definition client_bind c (e : loc) (n : nad) (ns elem now : Z) : option c2s :=
  x ← get_sess c e;
  s ← e_s x;
  r ← bind_jid c x s n ns elem;
  match r with
  | inl c => client_refuse c e n stanza_err_BAD_REQUEST
  | inr (c, j) =>
    _ ← (jid_full j).2;
    let b := Bres (Some j) (fmt_d (x_tag s)) "" "" in
    '(c, b) ← sm_start c (e_smcomp x) b now;
    Some (upd_sess e (λ x, with_e_result (Some (bind_result n j))
                             (with_e_bound (e_bound x + 1) (with_e_resources (e_resources x ++ [b]) x))) c)
  end.

(** The bound resource of a name. *)
Fixpoint bound_resource (r : string) (bs : list bres) : option (option bres) :=
  match bs with
  | [] => Some None
  | b :: bs => j ← b_jid b; if (strcmp (jid_resource j) r =? 0)%Z then Some (Some b) else bound_resource r bs
  end.

Definition client_unbind c (e : loc) (n : nad) (ns elem : Z) : option c2s :=
  x ← get_sess c e;
  let elem := nad_find_elem n elem ns (Some "resource") 1 in
  if (elem <? 0)%Z || (e_lcdata (elem_at n elem) =? 0)%Z then client_refuse c e n stanza_err_BAD_REQUEST
  else match env_resourceprep (cdata_buf 1024 n elem) with
       | None => client_refuse c e n stanza_err_BAD_REQUEST
       | Some r =>
         b ← bound_resource r (e_resources x);
         match b with
         | None => client_refuse c e n stanza_err_ITEM_NOT_FOUND
         | Some b =>
           c ← sm_end c (e_smcomp x) b;
           Some (upd_sess e (with_e_result (Some (iq_result n))) c)
         end
       end.

(** ** Packets *)

Definition is_set (n : nad) : bool := (0 <=? nad_find_attr n 0 (-1) "type" (Some "set"))%Z.

(** A request in the namespace of resource binding. *)
Definition bind_request (n : nad) (name : string) : option (Z * Z) :=
  let ns := nad_find_scoped_namespace n uri_BIND None in
  let elem := nad_find_elem n 0 ns (Some name) 1 in
  if (0 <=? ns)%Z && (0 <=? elem)%Z && is_set n then Some (ns, elem) else None.

(** The first resource whose full jid starts with the text. *)
Fixpoint sender_resource (v : list ascii) (bs : list bres) : option (option bres) :=
  match bs with
  | [] => Some None
  | b :: bs =>
    j ← b_jid b;
    full ← (jid_full j).2;
    if strncmp_eq (length v) full (string_of v) then Some (Some b) else sender_resource v bs
  end.
(** The resource that a stanza comes from. *)
Definition validate_from (x : sess) (n : nad) : option (option bres) :=
  match e_resources x with
  | [] => None
  | b :: _ =>
    if (1 <? e_bound x)%Z then
      match attr_of n 0 "from" with
      | Some v => sender_resource v (e_resources x)
      | None => Some None
      end
    else Some (Some b)
  end.

(** A stanza for the session manager. *)
Definition client_stanza c (e : loc) (n : nad) : option c2s :=
  x ← get_sess c e;
  if negb (e_active x) then
    c ← sx_error c e stream_err_NOT_AUTHORIZED (Some "stanza sent before session start"); sx_close c e
  else
    b ← validate_from x n;
    match b with
    | None => client_refuse c e n stanza_err_UNKNOWN_SENDER
    | Some b => sm_packet c (e_smcomp x) b n
    end.

Definition count_packet c (e : loc) : c2s :=
  set_c_packet_count (c_packet_count c + 1) (upd_sess e (λ x, with_e_packet_count ((e_packet_count x + 1) `mod` 2 ^ 32) x) c).

(** The limit is noted in the log only. *)
Definition stanza_rate_check c (e : loc) (now : Z) : c2s :=
  upd_sess e (λ x, match e_stanza_rate x with
                   | Some rt =>
                     let '(rt, ok) := rate_check rt now in
                     with_e_stanza_rate (Some (rate_add rt 1 now)) (if ok then x else with_e_stanza_rate_log true x)
                   | None => x
                   end) c.

(** The name of the first element, in a buffer of 9 bytes. *)
Definition root_name (n : nad) : string := sprint 9 (nad_ename n 0).
Definition is_stanza (n : nad) : bool :=
  (nad_ens n 0 =? nad_find_namespace n 0 (Some uri_CLIENT) None)%Z &&
  bool_decide (root_name n ∈ ["message"; "presence"; "iq"]).

(** [event_PACKET] *)
Definition client_event_packet c (e : loc) (n : nad) (now : Z) : option c2s :=
  _ ← get_sess c e;
  let c := stanza_rate_check (count_packet c e) e now in
  if negb (is_stanza n) then Some c
  else match bind_request n "bind" with
  | Some (ns, elem) => client_bind c e n ns elem now
  | None =>
    match bind_request n "unbind" with
    | Some (ns, elem) => client_unbind c e n ns elem
    | None =>
      x ← get_sess c e;
      if negb (e_active x) && e_sasl_authd x && bool_decide (e_result x = None)
         && bool_decide (root_name n = "iq") && is_set n then
        c ← sx_error c e stream_err_NOT_AUTHORIZED (Some "unrecognized pre-session stanza"); sx_close c e
      else
        s ← e_s x;
        if has (x_flags s) SX_SSL_STARTTLS_REQUIRE && (x_ssf s =? 0)%Z then
          sx_error c e stream_err_POLICY_VIOLATION (Some "STARTTLS is required for this stream")
        else
          '(c, handled) ← authreg_process c e n now;
          if (handled : bool) then Some c else client_stanza c e n
    end
  end.

(** ** Connections *)

(** Is the connection let in? *)
Definition _c2s_client_accept_check c (ip : string) (now : Z) : option (c2s * bool) :=
  let conf := c_conf c in
  ok ← access_check ae_pton4 ae_pton6 (cf_access conf) ip;
  if (ok =? 0)%Z then Some (c, false)
  else if (cf_conn_rate_total conf =? 0)%Z then Some (c, true)
  else
    let rt := default (rate_new (cf_conn_rate_total conf) (cf_conn_rate_seconds conf) (cf_conn_rate_wait conf))
                      (tget (c_conn_rates c) ip) in
    let '(rt, ok) := rate_check rt now in
    let rt := if ok then rate_add rt 1 now else rt in
    Some (set_c_conn_rates (tput (c_conn_rates c) ip rt) c, ok).

Definition new_rate (total seconds wait : Z) : option rate :=
  if (total =? 0)%Z then None else Some (rate_new total seconds wait).

(** [action_ACCEPT]; [peer] and [sock] are the ports that the system gives, if it does. *)
Definition client_action_accept c (fd : Z) (ip : string) (peer sock : option Z) (now : Z) : option (c2s * Z) :=
  match peer with
  | None => Some (c, 1%Z)
  | Some port =>
    '(c, ok) ← _c2s_client_accept_check c ip now;
    if negb ok then Some (c, 1%Z)
    else
      let conf := c_conf c in
      let '(e, c) := c2s_alloc c in
      let x := Sess (Some fd) "" None ip port (Some (Stream fd state_NONE None "" None None 0 0)) None
                 (new_rate (cf_byte_rate_total conf) (cf_byte_rate_seconds conf) (cf_byte_rate_wait conf)) false
                 (new_rate (cf_stanza_rate_total conf) (cf_stanza_rate_seconds conf) (cf_stanza_rate_wait conf)) false
                 now 0 0 [] false None false in
      let c := set_c_heap (<[e := x]> (c_heap c)) c in
      match sock with
      | None => Some (c, 1%Z)
      | Some sock =>
        let skey := fmt_d fd in
        let c := upd_sess e (with_e_skey skey) c in
        let c := set_c_sessions (tput (c_sessions c) skey e) c in
        let flags := SX_SASL_OFFER in
        let flags := if (sock =? cf_local_ssl_port conf)%Z then Z.lor flags SX_SSL_WRAPPER else flags in
        let flags := if cf_compression conf then Z.lor flags SX_COMPRESS_OFFER else flags in
        Some (emit (OInit e flags) (upd_stream e (with_x_flags flags) c), 0%Z)
      end
  end.

(** [action_READ] notes the time; [nbytes] is what is there to read. *)
Definition client_action_read c (e : loc) (nbytes now : Z) : option c2s :=
  _ ← get_sess c e;
  let c := upd_sess e (with_e_last_activity now) c in
  if (nbytes =? 0)%Z then sx_kill c e else Some c.
End client.
