(* ===== verification/C2sRouter.v ===== *)
(** * The connection to the router: c2s/c2s.c

    The callback of the router's stream: what the session managers answer to
    the sessions of clients, and which session managers there are. *)
From S2P Require Import Prelude.
From S2P Require Import CStr.
From S2P Require Import DList.
From S2P Require Import JQueue.
From S2P Require Import Rate.
From S2P Require Import Codec.
From S2P Require Import Jid.
From S2P Require Import Nad.
From S2P Require Import Table.
From S2P Require Import Stanza.
From S2P Require Import Datetime.
From S2P Require Import Pkt.
From S2P Require Import C2s.
From S2P Require Import Authreg.
From S2P Require Import C2sClient.

(** Does the first element have this namespace? *)
Definition in_uri (n : nad) (uri : string) : bool := bool_decide (nad_nuri n (nad_ens n 0) = tx uri).

(** The attribute of an element in a namespace. *)
Definition attr_in (n : nad) (el ns : Z) (name : string) : option (list ascii) :=
  let a := nad_find_attr n el ns name None in if (0 <=? a)%Z then Some (nad_aval n a) else None.

Section c2s_router.
Context {T : Type → Type} `{Table T} `{Env} `{AuthEnv}.
Notation c2s := (c2s T).
Implicit Types (c : c2s).

(** ** Which session managers there are *)

(** A session at a domain whose session manager went away. *)
Definition kill_session (from : string) c (e : loc) : option c2s :=
  x ← get_sess c e;
  match e_resources x with
  | [] => Some c
  | b :: _ =>
    j ← b_jid b;
    if (strcmp (jid_domain j) from =? 0)%Z then
      let c := upd_sess e (with_e_active false) c in
      match e_s x with Some _ => sx_close c e | None => Some c end
    else Some c
  end.

(** [None]: an address that does not fit its buffer. *)
Definition _c2s_component_presence c (n : nad) : option c2s :=
  match attr_of n 0 "from" with
  | None => Some c
  | Some v =>
    if bool_decide (1024 ≤ length v) then None
    else
      let from := cstr_of v in
      if (nad_find_attr n 0 (-1) "type" None <? 0)%Z then Some (set_c_sm_avail (tput (c_sm_avail c) from tt) c)
      else if (nad_find_attr n 0 (-1) "type" (Some "unavailable") <? 0)%Z then Some c
      else match tget (c_sm_avail c) from with
           | None => Some c
           | Some _ =>
             let '(t, l) := titer (c_sessions c) in
             c ← foldM (kill_session from) (set_c_sessions t c) l.*2;
             Some (set_c_sm_avail (tzap (c_sm_avail c) from) c)
           end
  end.

(** ** Coming online *)

(** [event_OPEN] *)
Definition c2s_bind_nad : nad :=
  let '(n, ns) := nad_add_namespace nad_new uri_COMPONENT None in
  let '(n, _) := nad_append_elem n ns "bind" 0 in
  (nad_append_attr n (-1) "name" "c2s").1.
Definition c2s_event_open c : option c2s :=
  router_write (set_c_retry_left (cf_retry_lost (c_conf c)) c) c2s_bind_nad.

(** The answer to the bind request; the flags tell whether the two ports can be listened on. *)
Definition bind_response c (n : nad) (can_listen can_listen_ssl : bool) : c2s :=
  if negb (in_uri n uri_COMPONENT && bool_decide (nad_ename n 0 = tx "bind")) then c
  else match attr_of n 0 "error" with
       | Some _ => emit OExit c
       | None =>
         let conf := c_conf c in
         let listening :=
           if c_listening c then true
           else (negb (cf_local_port conf =? 0)%Z && can_listen)
                || (negb (cf_local_ssl_port conf =? 0)%Z && bool_decide (is_Some (cf_local_pemfile conf)) && can_listen_ssl) in
         if listening then set_c_started true (set_c_online true (set_c_listening true c)) else emit OExit c
       end.

(** ** Routes *)

(** A session that is not there any more was started: tell the session manager. *)
Definition end_unknown c (n : nad) (ns : Z) (skey : string) : option c2s :=
  if is_text (attr_of n 1 "action") "started" then
    match attr_of n 1 "target", attr_in n 1 ns "sm" with
    | Some target, Some smid => sm_end c None (Bres (text_jid target) skey (sprint 41 smid) "")
    | _, _ => Some c
    end
  else Some c.

(** [sm_id[0] == '\0' || (strlen(sm_id) == ... && strncmp(...) == 0)] *)
Definition resource_for (smid : list ascii) (b : bres) : bool :=
  bool_decide (b_sm_id b = "") || bool_decide (tx (b_sm_id b) = smid).

(** A packet from a session that is none of ours: end it, on a resource that is made up. *)
Definition end_stray c (e : loc) (x : sess) (n : nad) (ns : Z) (smid : list ascii) : option c2s :=
  match attr_in n 1 ns "failed" with
  | Some _ => Some c
  | None =>
    match e_s x with
    | Some s =>
      sm_end c (e_smcomp x) (Bres (jid_new env_nodeprep env_nameprep env_resourceprep (x_auth_id s) (-1))
        (fmt_d (x_tag s)) (sprint 41 smid) "")
    | None =>
      match attr_in n 1 ns "c2s", attr_of n 1 "target" with
      | Some c2sid, Some target =>
        sm_end c (e_smcomp x) (Bres (text_jid target) (sprint 44 c2sid) (sprint 41 smid) "")
      | _, _ => Some c
      end
    end
  end.

Definition upd_bres (i : nat) (f : bres → bres) (x : sess) : sess := with_e_resources (alter f i (e_resources x)) x.
Definition drop_bres (i : nat) (x : sess) : sess := with_e_resources (delete i (e_resources x)) x.

(** The result that waits, to the client. *)
Definition send_result c (e : loc) : option c2s :=
  x ← get_sess c e;
  match e_result x with
  | Some r => c ← sx_nad_write c e r; Some (upd_sess e (with_e_result None) c)
  | None => Some c
  end.

(** A session ended, or was replaced. *)
Definition session_ended c (e : loc) (i : nat) (replaced : bool) : option c2s :=
  let c := upd_sess e (λ x, with_e_bound (e_bound x - 1) x) c in
  x ← get_sess c e;
  if (e_bound x <? 1)%Z then
    let c := upd_sess e (with_e_active false) c in
    match e_s x with
    | Some _ =>
      c ← send_result c e;
      c ← (if replaced then sx_error c e stream_err_CONFLICT None else Some c);
      sx_close c e
    | None => Some (upd_sess e (with_e_result None) c)
    end
  else
    _ ← e_s x;
    send_result (upd_sess e (drop_bres i) c) e.

(** A request failed. *)
Definition session_failed c (e : loc) (i : nat) (action : list ascii) : option c2s :=
  let c := upd_sess e (upd_bres i (with_b_sm_request "")) c in
  if bool_decide (action = tx "start") || bool_decide (action = tx "create") then
    x ← get_sess c e;
    r ← e_result x;
    r ← stanza_error r 0 stanza_err_INTERNAL_SERVER_ERROR;
    c ← sx_nad_write c e r;
    Some (upd_sess e (λ x, drop_bres i (with_e_result None x)) c)
  else Some c.

Definition session_started c (e : loc) (i : nat) (n : nad) (smid : list ascii) : option c2s :=
  let c := upd_sess e (upd_bres i (λ b, with_b_sm_id (sprint 41 smid) (with_b_sm_request "" b))) c in
  from ← attr_of n 0 "from";
  let c := upd_sess e (with_e_smcomp (Some (cstr_of from))) c in
  x ← get_sess c e;
  b ← e_resources x !! i;
  match e_s x with
  | Some s =>
    if negb (e_sasl_authd x) then
      j ← b_jid b;
      sx_auth c e (Some "traditional") (jid_full j).2
    else
      c ← send_result c e;
      Some (upd_sess e (with_e_active true) c)
  | None =>
    c ← match e_result x with Some r => sm_packet c (e_smcomp x) b r | None => Some c end;
    Some (upd_sess e (λ x, with_e_active true (with_e_result None x)) c)
  end.

(** An answer of the session manager about the session of a resource. *)
Definition session_control c (e : loc) (x : sess) (i : nat) (b : bres) (n : nad) (ns : Z) (smid action : list ascii) : option c2s :=
  let replaced := bool_decide (action = tx "replaced") in
  if e_active x && (replaced || bool_decide (action = tx "ended")) then session_ended c e i replaced
  else
    (* make sure the id matches *)
    if bool_decide (b_sm_request b = "") || negb (is_text (attr_of n 1 "id") (b_sm_request b)) then Some c
    else match attr_in n 1 ns "failed" with
         | Some _ => session_failed c e i action
         | None =>
           if bool_decide (action = tx "started") then session_started c e i n smid
           else Some (upd_sess e (upd_bres i (with_b_sm_request "")) c)
         end.

(** What follows the namespace in the chain is found by the loop; [None]: it is not in the chain. *)
Fixpoint chain_before (fuel : nat) (n : nad) (ns scan : Z) : option Z :=
  match fuel with
  | O => None
  | S f =>
    if (scan <? 0)%Z then None
    else
      let next := n_next (ns_at n scan) in
      if (next =? -1)%Z || (next =? ns)%Z then Some scan else chain_before f n ns next
  end.
Definition set_next (s next : Z) (n : nad) : nad :=
  Nad (elems n) (attrs n) (alter (λ x, Ns (n_iuri x) (n_luri x) (n_iprefix x) (n_lprefix x) next) (Z.to_nat s) (nss n))
    (cdata n) (depths n) (scope n).

(** The stanza as the client gets it: without what the session manager added. *)
Definition strip_sm (n : nad) (ns : Z) : option nad :=
  let n := nad_set_attr n 1 ns "c2s" None 0 in
  let n := nad_set_attr n 1 ns "sm" None 0 in
  let head := e_ns (elem_at n 1) in
  if (head =? ns)%Z then Some (upd_elem n 1 (set_ns_head (n_next (ns_at n ns))))
  else
    scan ← chain_before (S (length (nss n))) n ns head;
    Some (if (n_next (ns_at n scan) =? -1)%Z then n else set_next scan (n_next (ns_at n ns)) n).

(** A stanza for the client. *)
Definition client_packet c (e : loc) (x : sess) (n : nad) (ns : Z) : option c2s :=
  match e_s x with
  | None => Some c
  | Some _ =>
    if negb (e_active x) then Some c
    else match attr_in n 1 ns "failed" with
         | Some _ =>
           c ← router_error c stream_err_INTERNAL_SERVER_ERROR (Some "session manager failed control action");
           router_close c
         | None =>
           let c := count_packet c e in
           n ← strip_sm n ns;
           sx_nad_write_elem c e n 1
         end
  end.

(** The first resource that a session id is for, and its place. *)
Definition find_resource (smid : list ascii) (bs : list bres) : option (nat * bres) := list_find (resource_for smid) bs.

(** A route to a session. *)
Definition session_route c (e : loc) (n : nad) (ns : Z) : option c2s :=
  x ← get_sess c e;
  (* if they're pre-stream, then this is leftovers from a previous session *)
  if match e_s x with Some s => negb (state_ge (x_state s) state_STREAM) | None => false end then Some c
  else if is_text (attr_of n 1 "action") "created" then
    match e_result x with Some _ => send_result c e | None => Some c end
  else match attr_of n 0 "error" with
  | Some _ =>
    match e_s x with
    | Some _ => c ← sx_error c e stream_err_INTERNAL_SERVER_ERROR (Some "internal server error"); sx_close c e
    | None => Some c
    end
  | None =>
    match attr_in n 1 ns "sm" with
    | None => Some c
    | Some smid =>
      match find_resource smid (e_resources x) with
      | None => end_stray c e x n ns smid
      | Some (i, b) =>
        match attr_of n 1 "action" with
        | Some action =>
          if (nad_ens n 1 =? ns)%Z then session_control c e x i b n ns smid action
          else if bool_decide (nad_nuri n (nad_ens n 1) = tx uri_CLIENT) then client_packet c e x n ns
          else Some c
        | None =>
          if bool_decide (nad_nuri n (nad_ens n 1) = tx uri_CLIENT) then client_packet c e x n ns else Some c
        end
      end
    end
  end.

Definition c2s_route c (n : nad) : option c2s :=
  if (0 <=? nad_find_attr n 0 (-1) "type" None)%Z then Some c
  else if (ecur n =? 1)%Z then Some c
  else
    let ns := nad_find_namespace n 1 (Some uri_SESSION) None in
    if (ns <? 0)%Z then Some c
    else match attr_in n 1 ns "c2s" with
         | None => Some c
         | Some c2sid =>
           let skey := sprint 44 c2sid in
           match tget (c_sessions c) skey with
           | None => end_unknown c n ns skey
           | Some e => session_route c e n ns
           end
         end.

(** [event_PACKET] *)
Definition c2s_event_packet c (n : nad) (can_listen can_listen_ssl : bool) : option c2s :=
  st ← router_state (c_router c);
  if (nad_ens n 0 <? 0)%Z then Some c
  else if bool_decide (st = state_STREAM) then
    if in_uri n uri_STREAMS && bool_decide (nad_ename n 0 = tx "features") then Some (emit ORouterAuth c) else Some c
  else if bool_decide (st = state_OPEN) && negb (c_online c) then Some (bind_response c n can_listen can_listen_ssl)
  else if negb (in_uri n uri_COMPONENT) then Some c
  else if bool_decide (nad_ename n 0 = tx "presence") then _c2s_component_presence c n
  else if bool_decide (nad_ename n 0 = tx "route") then c2s_route c n
  else Some c.

(** [event_READ] and [event_WRITE]: only the end of the connection is seen. *)
Definition c2s_sx_kill c : option c2s := _ ← router_state (c_router c); router_event_closed (set_c_router (RStream state_CLOSED) c).
Definition c2s_event_read c (buflen : Z) (recv : Z → recv_result) : option (c2s * Z) :=
  if negb (c_fd c) then None
  else match recv buflen with
       | RLen len => if (len =? 0)%Z then c ← c2s_sx_kill c; Some (c, -1)%Z else Some (c, len)
       | RWouldBlock => Some (c, 0%Z)
       | RError => c ← c2s_sx_kill c; Some (c, -1)%Z
       end.
Definition c2s_event_write c (buflen : Z) (send : Z → recv_result) : option (c2s * Z) :=
  if negb (c_fd c) then None
  else match send buflen with
       | RLen len => Some (c, len)
       | RWouldBlock => Some (c, 0%Z)
       | RError => c ← c2s_sx_kill c; Some (c, -1)%Z
       end.

(** [event_ERROR]; the flag tells whether authentication failed. *)
Definition c2s_event_error c (auth_failed : bool) : option c2s := if auth_failed then router_close c else Some c.
End c2s_router.
