(* ===== verification/C2sRun.v ===== *)
(** * The c2s process: c2s/main.c

    Connecting to the router and again when it is lost, the checks of time,
    what SASL asks for, freeing what is dead, and the process as a machine over
    the events of its connections: [c2s_run]. *)
From S2P Require Import Prelude.
From S2P Require Import CStr.
From S2P Require Import DList.
From S2P Require Import JQueue.
From S2P Require Import Rate.
From S2P Require Import Codec.
From S2P Require Import Jid.
From S2P Require Import Nad.
From S2P Require Import Table.
From S2P Require Import Stanza.
From S2P Require Import Filter.
From S2P Require Import Datetime.
From S2P Require Import Pkt.
From S2P Require Import C2s.
From S2P Require Import Authreg.
From S2P Require Import C2sClient.
From S2P Require Import C2sRouter.

(** ** What SASL asks for *)

(** [sx_sasl_creds_t] *)
Record sasl_creds := Creds { sc_authnid : string; sc_realm : option string; sc_authzid : option string; sc_pass : string }.

Section run.
Context {T : Type → Type} `{Table T} `{Env} `{AuthEnv}.
Notation c2s := (c2s T).
Implicit Types (c : c2s).

(** [_c2s_sx_sasl_callback], an operation for each request; [None] in the
    result is [sx_sasl_ret_FAIL], the outer one a crash. *)
Definition sasl_get_realm c (s : stream) : option string :=
  match x_req_to s with
  | None => Some ""
  | Some to => h ← tget (c_hosts c) to; Some (stake 256 (default to (ho_realm h)))
  end.
Definition sasl_get_pass c (s : stream) (cr : sasl_creds) : option (option string) :=
  _ ← tget (c_sessions c) (fmt_d (x_tag s));
  Some (authreg_get_password (c_conf c) (sc_authnid cr)).
Definition sasl_check_pass c (s : stream) (cr : sasl_creds) : option bool :=
  _ ← tget (c_sessions c) (fmt_d (x_tag s));
  authreg_check_password (c_conf c) (sc_authnid cr) (Some (default "" (sc_realm cr))) (sc_pass cr).
Definition sasl_check_authzid c (s : stream) (cr : sasl_creds) : option bool :=
  _ ← tget (c_sessions c) (fmt_d (x_tag s));
  match sc_authzid cr with
  | None => Some false
  | Some authzid =>
    if bool_decide (authzid = "") then Some false
    else match jid_reset env_nodeprep env_nameprep env_resourceprep jid_static (Some authzid) (-1) with
         | JOk j =>
           Some (bool_decide (Some (jid_domain j) = x_req_to s) && bool_decide (jid_resource j = "")
                 && bool_decide (sc_authnid cr = jid_node j) && authreg_user_exists (c_conf c) (jid_node j))
         | _ => Some false
         end
  end.
(** The node for SASL ANONYMOUS; a stream without a domain gives an empty jid. *)
Definition sasl_gen_authzid c (s : stream) : option (c2s * string) :=
  match jid_reset env_nodeprep env_nameprep env_resourceprep jid_static (x_req_to s) (-1) with
  | JOk j | JFail j =>
    let '(k, c) := ask_rand 256 c in
    match jid_random_part env_nodeprep env_nameprep env_resourceprep shahash_r j PNODE
            ((λ i, 36 * env_rand i / env_rand_max)%Z <$> seq k 256) with
    | JOk j => Some (c, jid_node j)
    | _ => None
    end
  | JBadFree => None
  end.
(** Is the mechanism allowed by the configuration? *)
Definition sasl_check_mech c (s : stream) (mech : string) : bool :=
  let mech := lowercase (stake 255 mech) in
  let allowed key := bool_decide (is_Some (tget (cf_config (c_conf c)) (key +:+ mech))) in
  match x_req_to s with
  | None => false
  | Some to =>
    bool_decide (is_Some (tget (c_hosts c) to)) &&
    (((0 <? x_ssf s)%Z && allowed "authreg.ssl-mechanisms.sasl.") || allowed "authreg.mechanisms.sasl.")
  end.

(** ** The main loop *)

(** What [mio_connect] gives: a connection, a refusal, or another error. *)
Inductive connect_result := Connected | Refused | NotConnected.
Definition _c2s_router_connect c (r : connect_result) : c2s :=
  match r with
  | Connected => set_c_router (RStream state_NONE) (set_c_fd true c)
  | Refused => set_c_lost_router true (set_c_fd false c)
  | NotConnected => set_c_fd false c
  end.

(** The router was lost: connect again.  The stream is freed, and its pointer
    kept until there is another.  [inr] ends the loop; [None]: it is freed twice. *)
Definition c2s_reconnect c (r : connect_result) : option (c2s + c2s) :=
  if c_lost_router c then
    let again c :=
      let c := set_c_lost_router false c in
      c ← match c_router c with
          | RNull => Some c
          | RFreed => None
          | RStream _ => Some (set_c_router RFreed c)
          end;
      Some (inl (_c2s_router_connect c r)) in
    if (c_retry_left c <? 0)%Z then again c
    else if (c_retry_left c =? 0)%Z then Some (inr c)
    else again (set_c_retry_left (c_retry_left c - 1) c)
  else Some (inl c).

(** The sessions in the queue are freed. *)
Definition c2s_reap c : c2s :=
  let '(q, dead) := pull_all (S (size (q_heap (c_dead_sess c)))) (c_dead_sess c) in
  let '(q', _) := pull_all (S (size (q_heap (c_dead c)))) (c_dead c) in
  set_c_dead q' (set_c_dead_sess q (set_c_heap (foldr delete (c_heap c) dead) c)).

(** A session that was silent for long is closed or gets a space.  What a throttled
    session has waiting is read by an event of its own. *)
Definition time_check (now : Z) c (e : loc) : option c2s :=
  x ← get_sess c e;
  match e_s x with
  | None => Some c
  | Some s =>
    let conf := c_conf c in
    if (0 <? cf_io_check_idle conf)%Z && (e_last_activity x + cf_io_check_idle conf <? now)%Z then
      c ← sx_error c e stream_err_HOST_GONE (Some "connection timed out"); sx_close c e
    else
      c ← (if (0 <? cf_io_check_keepalive conf)%Z && (e_last_activity x + cf_io_check_keepalive conf <? now)%Z
              && state_ge (x_state s) state_STREAM
           then sx_raw_write c e " " else Some c);
      match e_rate x with
      | Some rt => if negb (rt_bad rt =? 0)%Z then Some (upd_sess e (with_e_rate (Some (rate_check rt now).1)) c) else Some c
      | None => Some c
      end
  end.
Definition _c2s_time_checks c (now : Z) : option c2s :=
  let '(t, l) := titer (c_sessions c) in foldM (time_check now) (set_c_sessions t c) l.*2.

(** The end of [main]. *)
Definition close_active c (e : loc) : option c2s :=
  x ← get_sess c e;
  match e_s x with Some _ => if e_active x then sx_close c e else Some c | None => Some c end.
Definition c2s_shutdown c : option c2s :=
  let '(t, l) := titer (c_sessions c) in
  c ← foldM close_active (set_c_sessions t c) l.*2;
  let c := c2s_reap c in
  Some (if c_fd c then set_c_fd false (emit ORouterClosed (router_action_close c)) else c).

(** ** Events *)

(** What the connections, the streams and the main loop do.  The first of the
    stream events come with what the library has set before it calls back. *)
Inductive c2s_event :=
  | EvAccept (fd : Z) (ip : string) (peer sock : option Z)
  | EvReady (e : loc) (nbytes : Z)                        (* there is something to read, or the end *)
  | EvRead (e : loc) (buflen : Z) (r : recv_result)
  | EvWrite (e : loc) (buflen : Z) (r : recv_result)
  | EvTls (e : loc) (ssf : Z)
  | EvStream (e : loc) (to : option string) (id : string)
  | EvSasl (e : loc) (method id : string)                 (* authenticated, and the stream restarted *)
  | EvPacket (e : loc) (n : nad)
  | EvFlushed (e : loc)                                   (* a closing stream has written everything *)
  | EvRouterState (st : sx_state)
  | EvRouterOpen
  | EvRouterPacket (n : nad) (can_listen can_listen_ssl : bool)
  | EvRouterClosed
  | EvTick (r : connect_result)                           (* once around the main loop *)
  | EvChecks.                                             (* when it is time for the checks *)

(** The stream library sets fields of a stream. *)
Definition lib_set (e : loc) (f : stream → stream) c : option c2s := _ ← get_stream c e; Some (upd_stream e f c).

Definition c2s_step c (now : Z) (ev : c2s_event) : option c2s :=
  match ev with
  | EvAccept fd ip peer sock => fst <$> client_action_accept c fd ip peer sock now
  | EvReady e nbytes => client_action_read c e nbytes now
  | EvRead e buflen r => fst <$> client_event_read c e buflen now (λ _, r)
  | EvWrite e buflen r => fst <$> client_event_write c e buflen (λ _, r)
  | EvTls e ssf => lib_set e (with_x_ssf ssf) c
  | EvStream e to id =>
    c ← lib_set e (λ s, with_x_state state_STREAM (with_x_req_to to (with_x_id id s))) c; client_event_stream c e
  | EvSasl e method id =>
    c ← lib_set e (λ s, with_x_state state_OPEN (with_x_auth_method (Some method) (with_x_auth_id (Some id) s))) c;
    client_event_open c e
  | EvPacket e n => client_event_packet c e n now
  | EvFlushed e => c ← lib_set e (with_x_state state_CLOSED) c; client_event_closed c e
  | EvRouterState st => _ ← router_state (c_router c); Some (set_c_router (RStream st) c)
  | EvRouterOpen => _ ← router_state (c_router c); c2s_event_open (set_c_router (RStream state_OPEN) c)
  | EvRouterPacket n l l' => c2s_event_packet c n l l'
  | EvRouterClosed => c2s_sx_kill c
  | EvTick r =>
    r ← c2s_reconnect c r;
    Some (match r with inl c => c2s_reap c | inr c => c2s_reap c end)
  | EvChecks => _c2s_time_checks c now
  end.

Fixpoint c2s_run c (evs : list (Z * c2s_event)) : option c2s :=
  match evs with [] => Some c | (now, ev) :: evs => c ← c2s_step c now ev; c2s_run c evs end.

(** The state that [main] sets up. *)
Definition c2s_new (conf : cconf T) (hosts : T host) (retry_init now : Z) (r : connect_result) : c2s :=
  _c2s_router_connect
    (C2s conf ∅ 0 (tnew 1023) hosts (tnew 1021) (tnew 101) RNull false false false false false retry_init
       (jqueue_new now) (jqueue_new now) 0 0 []) r.
End run.
