(* ===== verification/C2sInv.v ===== *)
(** * The tables of c2s

    The table of sessions, the heap and the queues of the dead agree, and the
    bound resources of a session carry its key: [c2s_ok].  Most operations
    leave what this speaks of as it is, [keeps]; connections that come, close
    and are freed keep it true. *)
From S2P Require Import Prelude.
From S2P Require Import CStr.
From S2P Require Import DList.
From S2P Require Import Table.
From S2P Require Import JQueue.
From S2P Require Import Rate.
From S2P Require Import Codec.
From S2P Require Import Jid.
From S2P Require Import Nad.
From S2P Require Import Stanza.
From S2P Require Import Datetime.
From S2P Require Import Pkt.
From S2P Require Import C2s.
From S2P Require Import Authreg.
From S2P Require Import C2sClient.
From S2P Require Import C2sRouter.
From S2P Require Import C2sRun.
From stdpp Require Import pretty.

(** ** Decimal numbers as keys *)

Lemma pretty_N_go_no_nul n s : no_nul s → no_nul (pretty_N_go n s).
Proof.
  revert s. induction (N.lt_wf_0 n) as [n _ IH]. intros s Hs. destruct (decide (0 < n)%N) as [Hn|].
  - rewrite pretty_N_go_step by done. apply IH; [by apply N.div_lt|].
    cbn [no_nul]. apply andb_prop_intro. split; [|done]. unfold pretty_N_char. by repeat case_match.
  - by replace n with 0%N by lia.
Qed.
Lemma pretty_N_no_nul (n : N) : no_nul (pretty n).
Proof. unfold pretty, pretty_N. case_decide; [done|]. by apply pretty_N_go_no_nul. Qed.
Lemma fmt_d_no_nul z : no_nul (fmt_d z).
Proof.
  unfold fmt_d. destruct z; [done|apply pretty_N_no_nul|]. change (pretty (Z.neg p)) with ("-" +:+ pretty (N.pos p)).
  rewrite no_nul_app. apply andb_prop_intro. split; [done|apply pretty_N_no_nul].
Qed.
Lemma pretty_N_go_length n s : String.length s ≤ String.length (pretty_N_go n s).
Proof.
  revert s. induction (N.lt_wf_0 n) as [n _ IH]. intros s. destruct (decide (0 < n)%N) as [Hn|].
  - rewrite pretty_N_go_step by done. etrans; [|apply IH; by apply N.div_lt]. cbn. lia.
  - by replace n with 0%N by lia.
Qed.
Lemma pretty_N_ne (n : N) : pretty n ≠ "".
Proof.
  unfold pretty, pretty_N. case_decide as E; [done|]. rewrite pretty_N_go_step by lia.
  intros F. pose proof (pretty_N_go_length (n `div` 10) (String (pretty_N_char (n `mod` 10)) "")) as Hl. rewrite F in Hl. cbn in Hl. lia.
Qed.
Lemma fmt_d_ne z : fmt_d z ≠ "".
Proof. unfold fmt_d. destruct z; [done|apply pretty_N_ne|done]. Qed.
Lemma fmt_d_inj a b : fmt_d a = fmt_d b → a = b.
Proof. apply pretty_Z_inj. Qed.
Lemma fmt_d_good z : good_key (fmt_d z).
Proof. split; [apply fmt_d_no_nul|apply fmt_d_ne]. Qed.

Section inv.
Context {T : Type → Type} `{TableLaws T} `{Env} `{AuthEnv}.
Notation c2s := (c2s T).
Implicit Types (c : c2s) (e : loc) (x : sess).

(** ** The invariant *)

Definition x_tags x : option Z := x_tag <$> e_s x.
Definition bres_ok (tag : Z) (b : bres) : Prop := b_c2s_id b = fmt_d tag ∧ is_Some (b_jid b).

(** A session has a stream, whose tag is its descriptor and gives its key and that of its resources. *)
Definition sess_ok x : Prop :=
  ∃ tag, x_tags x = Some tag ∧ (e_fd x = None ∨ e_fd x = Some tag) ∧
    (e_skey x = "" ∨ e_skey x = fmt_d tag) ∧ Forall (bres_ok tag) (e_resources x).

Record c2s_ok c : Prop := {
  ok_tab : tok (c_sessions c);
  ok_fresh e x : c_heap c !! e = Some x → e < c_fresh c;
  ok_sess e x : c_heap c !! e = Some x → sess_ok x;
  (** An entry of the table is an open session under its own key; *)
  ok_entry k e : tmap (c_sessions c) !! k = Some e → ∃ x, c_heap c !! e = Some x ∧ is_Some (e_fd x) ∧ e_skey x = k ∧ k ≠ "";
  (** an open session that has a key is in the table; *)
  ok_open e x : c_heap c !! e = Some x → is_Some (e_fd x) → e_skey x ≠ "" → tmap (c_sessions c) !! e_skey x = Some e;
  (** the queue of the dead has each closed session once. *)
  ok_dead : ∃ l, fifo_rep (c_dead_sess c) l ∧ NoDup l ∧ ∀ e, e ∈ l ↔ ∃ x, c_heap c !! e = Some x ∧ e_fd x = None;
  ok_dead_sx : ∃ l, fifo_rep (c_dead c) l
}.

(** ** What most operations do *)

Definition sess_le x x' : Prop :=
  e_skey x' = e_skey x ∧ e_fd x' = e_fd x ∧ x_tags x' = x_tags x ∧
  (∀ tag, x_tags x = Some tag → Forall (bres_ok tag) (e_resources x) → Forall (bres_ok tag) (e_resources x')).

Record keeps c c' : Prop := {
  k_fresh : c_fresh c' = c_fresh c;
  k_tab : tok (c_sessions c) → tok (c_sessions c') ∧ tmap (c_sessions c') = tmap (c_sessions c);
  k_dead : c_dead c' = c_dead c;
  k_dead_sess : c_dead_sess c' = c_dead_sess c;
  k_heap e : option_Forall2 sess_le (c_heap c !! e) (c_heap c' !! e)
}.

Lemma sess_le_refl x : sess_le x x.
Proof. by split_and!. Qed.
Lemma sess_le_trans x y z : sess_le x y → sess_le y z → sess_le x z.
Proof.
  intros (A & B & C & D) (A' & B' & C' & D'). split_and!; [congruence..|].
  intros tag Ht Hr. apply D'; [congruence|]. by apply D.
Qed.
Lemma keeps_refl c : keeps c c.
Proof. split; try done. intros e. destruct (c_heap c !! e); constructor. apply sess_le_refl. Qed.
Lemma keeps_trans a b c : keeps a b → keeps b c → keeps a c.
Proof.
  intros [F1 T1 D1 S1 P1] [F2 T2 D2 S2 P2]. split; [congruence| |congruence..|].
  - intros Ht. destruct (T1 Ht) as [Ht' E]. destruct (T2 Ht') as [? E']. split; [done|congruence].
  - intros e. specialize (P1 e). specialize (P2 e).
    destruct P1 as [x y Hxy|]; inversion P2; subst; constructor; [|done..]. by eapply sess_le_trans.
Qed.
Lemma keeps_same c c' : c_fresh c' = c_fresh c → c_sessions c' = c_sessions c → c_dead c' = c_dead c →
  c_dead_sess c' = c_dead_sess c → c_heap c' = c_heap c → keeps c c'.
Proof.
  intros E1 E2 E3 E4 E5. split; [done|by rewrite E2|done..|].
  intros e. rewrite E5. destruct (c_heap c !! e); constructor. apply sess_le_refl.
Qed.
Lemma keeps_upd c e f : (∀ x, c_heap c !! e = Some x → sess_le x (f x)) → keeps c (upd_sess e f c).
Proof.
  intros Hf. split; [done..|]. intros e'. cbn. destruct (decide (e = e')) as [<-|Hne].
  - rewrite lookup_alter_eq. destruct (c_heap c !! e) eqn:E; constructor. by apply Hf.
  - rewrite lookup_alter_ne by done. destruct (c_heap c !! e'); constructor. apply sess_le_refl.
Qed.
Lemma keeps_lookup c c' e x' : keeps c c' → c_heap c' !! e = Some x' → ∃ x, c_heap c !! e = Some x ∧ sess_le x x'.
Proof. intros K Hx. pose proof (k_heap _ _ K e) as Hh. rewrite Hx in Hh. inversion Hh; subst. eauto. Qed.
Lemma keeps_lookup_l c c' e x : keeps c c' → c_heap c !! e = Some x → ∃ x', c_heap c' !! e = Some x' ∧ sess_le x x'.
Proof. intros K Hx. pose proof (k_heap _ _ K e) as Hh. rewrite Hx in Hh. inversion Hh; subst. eauto. Qed.

Lemma sess_le_ok x x' : sess_le x x' → sess_ok x → sess_ok x'.
Proof.
  intros (E1 & E2 & E3 & Hr) (tag & Ht & Hfd & Hk & Hb). exists tag. rewrite E1, E2, E3. split_and!; [done..|]. by apply Hr.
Qed.
Lemma keeps_ok c c' : keeps c c' → c2s_ok c → c2s_ok c'.
Proof.
  intros K [Ht Hf Hs He Ho (l & Hq & Hnd & Hl) Hd]. destruct (k_tab _ _ K Ht) as [Ht' Em]. split.
  - done.
  - intros e x' Hx. destruct (keeps_lookup _ _ _ _ K Hx) as (x & Hx0 & _). rewrite (k_fresh _ _ K). by eapply Hf.
  - intros e x' Hx. destruct (keeps_lookup _ _ _ _ K Hx) as (x & Hx0 & Hle). eapply sess_le_ok, Hs; done.
  - intros k e Hk. rewrite Em in Hk. destruct (He _ _ Hk) as (x & Hx & Hfd & Hsk & Hne).
    destruct (keeps_lookup_l _ _ _ _ K Hx) as (x' & Hx' & E1 & E2 & _). exists x'. by rewrite E1, E2.
  - intros e x' Hx. destruct (keeps_lookup _ _ _ _ K Hx) as (x & Hx0 & E1 & E2 & _). rewrite Em, E1, E2. by eapply Ho.
  - exists l. rewrite (k_dead_sess _ _ K). split_and!; [done..|]. intros e. rewrite Hl. split.
    + intros (x & Hx & Hfd). destruct (keeps_lookup_l _ _ _ _ K Hx) as (x' & Hx' & _ & E2 & _). exists x'. by rewrite E2.
    + intros (x' & Hx & Hfd). destruct (keeps_lookup _ _ _ _ K Hx) as (x & Hx' & _ & E2 & _). exists x. by rewrite <- E2.
  - by rewrite (k_dead _ _ K).
Qed.

(** What an operation that may close a session does. *)
Definition safe c c' : Prop := c2s_ok c → c2s_ok c'.
Lemma safe_refl c : safe c c.
Proof. by intros ?. Qed.
Lemma safe_trans a b c : safe a b → safe b c → safe a c.
Proof. unfold safe. auto. Qed.
Lemma keeps_safe c c' : keeps c c' → safe c c'.
Proof. intros K Hc. by apply (keeps_ok c). Qed.

Lemma safe_by a c c' : safe a c → keeps c c' → safe a c'.
Proof. intros S K Hc. by apply (keeps_ok c), S. Qed.
Lemma keeps_same_r a c c' : keeps a c → c_fresh c' = c_fresh c → c_sessions c' = c_sessions c → c_dead c' = c_dead c →
  c_dead_sess c' = c_dead_sess c → c_heap c' = c_heap c → keeps a c'.
Proof. intros K ?????. eapply keeps_trans; [exact K|]. by apply keeps_same. Qed.
(** A change to a session that keeps its key, descriptor, stream tag and resources. *)
Lemma keeps_upd_r a c e f : (∀ x, e_skey (f x) = e_skey x ∧ e_fd (f x) = e_fd x ∧ x_tags (f x) = x_tags x ∧ e_resources (f x) = e_resources x) →
  keeps a c → keeps a (upd_sess e f c).
Proof.
  intros Hf K. eapply keeps_trans; [exact K|]. apply keeps_upd. intros x _. destruct (Hf x) as (E1 & E2 & E3 & E4).
  split_and!; [done..|]. by rewrite E4.
Qed.
Lemma keeps_stream_r a c e f : (∀ s, x_tag (f s) = x_tag s) → keeps a c → keeps a (upd_stream e f c).
Proof. intros Hf. apply keeps_upd_r. intros x. split_and!; [done..| |done]. unfold x_tags. cbn. by destruct (e_s x); cbn; rewrite ?Hf. Qed.
(** A change to the resources alone. *)
Lemma keeps_bres_r a c e f : (∀ x, e_skey (f x) = e_skey x ∧ e_fd (f x) = e_fd x ∧ x_tags (f x) = x_tags x) →
  (∀ tag x, c_heap c !! e = Some x → x_tags x = Some tag → Forall (bres_ok tag) (e_resources x) → Forall (bres_ok tag) (e_resources (f x))) →
  keeps a c → keeps a (upd_sess e f c).
Proof.
  intros Hf Hr K. eapply keeps_trans; [exact K|]. apply keeps_upd. intros x Hx. destruct (Hf x) as (E1 & E2 & E3).
  split_and!; [done..|]. intros tag. by apply Hr.
Qed.

(** The tag of a session stays. *)
Lemma keeps_tag c c' e x x' : keeps c c' → get_sess c e = Some x → c_heap c' !! e = Some x' → x_tags x' = x_tags x.
Proof.
  intros K Hx Hx'. destruct (keeps_lookup _ _ _ _ K Hx') as (x0 & E & _ & _ & Et & _). unfold get_sess in Hx. congruence.
Qed.
End inv.

(** The chain of facts back from the last state. *)
Ltac keeps_chain :=
  repeat first
    [ exact (keeps_refl _)
    | match goal with K : keeps ?a ?b |- keeps _ ?b => apply (keeps_trans _ a b); [|exact K]; clear K end
    | apply keeps_upd_r; [intros; by split_and!|]
    | apply keeps_stream_r; [intros; done|]
    | lazymatch goal with |- keeps _ (_ _ ?c) => apply (keeps_same_r _ c); [|reflexivity..] end
    | match goal with |- keeps _ (match ?x with _ => _ end) => destruct x end ].
Ltac keeps_tac :=
  intros; lazymatch goal with |- Spec _ _ => red | _ => idtac end;
  unfold ask_rand; cbv beta iota; repeat post_step; cbn [fst snd] in *; keeps_chain.
Ltac safe_chain :=
  repeat first
    [ exact (safe_refl _)
    | match goal with K : safe ?a ?b |- safe _ ?b => apply (safe_trans _ a b); [|exact K]; clear K end
    | match goal with K : keeps ?a ?b |- safe _ ?b => apply (safe_by _ a b); [|exact K]; clear K end
    | lazymatch goal with |- safe _ (upd_sess _ _ ?c) => apply (safe_by _ c); [|apply keeps_upd_r; [intros; by split_and!|apply keeps_refl]] end
    | lazymatch goal with |- safe _ (upd_stream _ _ ?c) => apply (safe_by _ c); [|apply keeps_stream_r; [intros; done|apply keeps_refl]] end
    | lazymatch goal with |- safe _ (_ _ ?c) => apply (safe_by _ c); [|by apply keeps_same] end
    | match goal with |- safe _ (match ?x with _ => _ end) => destruct x end ].
Ltac safe_tac :=
  intros; lazymatch goal with |- Spec _ _ => red | _ => idtac end;
  unfold ask_rand; cbv beta iota; repeat post_step; cbn [fst snd] in *; safe_chain.

(** ** What the operations of c2s do to its tables

    Writing, session control, the handling of requests and of the session
    managers' answers keep the tables; closing a connection takes its session
    out of the table and into the queue of the dead. *)

Section quiet.
Context {T : Type → Type} `{TableLaws T} `{Env} `{AuthEnv}.
Notation c2s := (c2s T).
Implicit Types (c : c2s) (e : loc) (x : sess) (n : nad).

(** ** Writing and session control *)

#[global] Instance nad_write_k c e n : Spec (sx_nad_write c e n) (keeps c).
Proof. unfold sx_nad_write. keeps_tac. Qed.
#[global] Instance nad_write_elem_k c e n i : Spec (sx_nad_write_elem c e n i) (keeps c).
Proof. unfold sx_nad_write_elem. keeps_tac. Qed.
#[global] Instance raw_write_k c e t : Spec (sx_raw_write c e t) (keeps c).
Proof. unfold sx_raw_write. keeps_tac. Qed.
#[global] Instance error_k c e err t : Spec (sx_error c e err t) (keeps c).
Proof. unfold sx_error. keeps_tac. Qed.
#[global] Instance router_write_k c n : Spec (router_write c n) (keeps c).
Proof. unfold router_write. keeps_tac. Qed.
#[global] Instance sm_end_k c sc b : Spec (sm_end c sc b) (keeps c).
Proof. unfold sm_end. keeps_tac. Qed.
#[global] Instance sm_packet_k c sc b n : Spec (sm_packet c sc b n) (keeps c).
Proof. unfold sm_packet. keeps_tac. Qed.
#[global] Instance sm_start_k c sc b now :
  Spec (sm_start c sc b now) (λ r, keeps c r.1 ∧ b_c2s_id r.2 = b_c2s_id b ∧ b_jid r.2 = b_jid b ∧ is_Some (b_jid b)).
Proof.
  unfold sm_start, _sm_generate_id. red. repeat post_step. cbn [fst snd]. split_and!; [keeps_chain|done..|].
  destruct (b_jid b); [by eexists|done].
Qed.
#[global] Instance router_event_closed_k c : Spec (router_event_closed c) (keeps c).
Proof. unfold router_event_closed, router_action_close. keeps_tac. Qed.
#[global] Instance router_error_k c err t : Spec (router_error c err t) (keeps c).
Proof. unfold router_error. keeps_tac. Qed.
#[global] Instance router_close_k c : Spec (router_close c) (keeps c).
Proof. unfold router_close. keeps_tac. Qed.

#[global] Instance foldM_k {A} (f : c2s → A → option c2s) l c : (∀ c a, Spec (f c a) (keeps c)) → Spec (foldM f c l) (keeps c).
Proof.
  unfold Spec. intros Hf. revert c. induction l as [|a l IH]; intros c; cbn [foldM]; [apply post_ret, keeps_refl|].
  apply post_bind. eapply post_mono; [apply Hf|]. intros c1 K1. eapply post_mono; [apply IH|]. intros c2 K2. by eapply keeps_trans.
Qed.
#[global] Instance foldM_safe {A} (f : c2s → A → option c2s) l c : (∀ c a, Spec (f c a) (safe c)) → Spec (foldM f c l) (safe c).
Proof.
  unfold Spec. intros Hf. revert c. induction l as [|a l IH]; intros c; cbn [foldM]; [apply post_ret, safe_refl|].
  apply post_bind. eapply post_mono; [apply Hf|]. intros c1 K1. eapply post_mono; [apply IH|]. intros c2 K2. by eapply safe_trans.
Qed.

(** ** Closing *)

(** A session that is open is closed, and nothing else happens to the tables. *)
Lemma closed_ok c c1 e x : c2s_ok c → keeps c c1 → c_heap c !! e = Some x → is_Some (e_fd x) →
  c2s_ok (upd_sess e (with_e_fd None) (emit (OClosed e)
    (set_c_dead_sess (jqueue_push (c_dead_sess c1) e 0)
      (set_c_sessions (tzap (c_sessions c1) (e_skey x)) (set_c_dead (jqueue_push (c_dead c1) e 0) c1))))).
Proof.
  intros Hc K Hx0 Hfd0. destruct (keeps_lookup_l _ _ _ _ K Hx0) as (x1 & Hx & Esk & Efd & _).
  rewrite <- Esk. rewrite <- Efd in Hfd0. clear Hx0 Esk Efd. rename Hfd0 into Hfd. clear x. rename x1 into x.
  apply (keeps_ok _ _ K) in Hc. destruct Hc as [Ht Hf Hs He Ho (l & Hq & Hnd & Hl) (l' & Hq')].
  destruct (Hs _ _ Hx) as (tag & Htag & Hfd' & Hk & Hb).
  assert (no_nul (e_skey x)) as Hnn by (destruct Hk as [-> | ->]; [done|apply fmt_d_no_nul]).
  destruct (tzap_ok (c_sessions c1) (e_skey x) Ht Hnn) as [Ht' Em].
  split; cbn [upd_sess emit c_heap c_fresh c_sessions c_dead c_dead_sess set_c_heap set_c_out set_c_dead set_c_dead_sess set_c_sessions].
  - done.
  - intros e' x'. destruct (decide (e = e')) as [<-|Hne]; [intros _; by eapply Hf|rewrite lookup_alter_ne by done; by eapply Hf].
  - intros e' x'. destruct (decide (e = e')) as [<-|Hne]; [|rewrite lookup_alter_ne by done; by eapply Hs].
    rewrite lookup_alter_eq, Hx. cbn. intros [= <-]. exists tag. split_and!; [done|by left|done..].
  - intros k e'. rewrite Em, lookup_delete_Some. intros [Hne Hk']. destruct (He _ _ Hk') as (y & Hy & Hyfd & Hyk & Hyne).
    destruct (decide (e = e')) as [<-|Hne']; [congruence|]. exists y. by rewrite lookup_alter_ne.
  - intros e' y. destruct (decide (e = e')) as [<-|Hne].
    + rewrite lookup_alter_eq, Hx. cbn. intros [= <-] [? [=]].
    + rewrite lookup_alter_ne by done. intros Hy Hyfd Hyk. rewrite Em, lookup_delete_ne; [by apply Ho|].
      intros E. assert (e_skey x ≠ "") as Hxk by congruence.
      pose proof (Ho _ _ Hx Hfd Hxk) as A. pose proof (Ho _ _ Hy Hyfd Hyk) as B. congruence.
  - exists (l ++ [e]). split; [by apply fifo_push|]. split.
    + apply NoDup_app. split; [done|]. split; [|apply NoDup_singleton].
      intros e' He' ->%list_elem_of_singleton. apply Hl in He' as (y & Hy & Hyfd). destruct Hfd as [? ?]. congruence.
    + intros e'. rewrite elem_of_app, list_elem_of_singleton, Hl. destruct (decide (e' = e)) as [->|Hne].
      * rewrite lookup_alter_eq, Hx. cbn. split; [by eauto|by right].
      * rewrite lookup_alter_ne by done. split; [by intros [?|?]|by left].
  - exists (l' ++ [e]). by apply fifo_push.
Qed.

#[global] Instance event_closed_s c e : Spec (client_event_closed c e) (safe c).
Proof.
  red. unfold client_event_closed, client_action_close. repeat post_step.
  all: intros Hc; rewrite E in E1; injection E1 as <-;
    lazymatch goal with |- context [set_c_dead _ ?c1] => eapply (closed_ok _ c1) end; [exact Hc|keeps_chain|exact E|by rewrite E0].
Qed.
#[global] Instance sx_close_s c e : Spec (sx_close c e) (safe c).
Proof.
  red. unfold sx_close. repeat post_step.
  - apply safe_refl.
  - apply keeps_safe. keeps_chain.
  - eapply safe_trans; [|eassumption]. apply keeps_safe. keeps_chain.
Qed.
#[global] Instance sx_kill_s c e : Spec (sx_kill c e) (safe c).
Proof. red. unfold sx_kill. repeat post_step. eapply safe_trans; [|eassumption]. apply keeps_safe. keeps_chain. Qed.

(** ** Requests of clients *)

#[global] Instance auth_error_k c e n err : Spec (auth_error c e n err) (keeps c).
Proof. unfold auth_error. keeps_tac. Qed.
#[global] Instance client_refuse_k c e n err : Spec (client_refuse c e n err) (keeps c).
Proof. unfold client_refuse. keeps_tac. Qed.
#[global] Instance auth_get_k c e n : Spec (_authreg_auth_get c e n) (keeps c).
Proof. unfold _authreg_auth_get. keeps_tac. Qed.

(** The tag of a session that was read earlier. *)
Lemma read_tag c c' e x s tag x' : keeps c c' → get_sess c e = Some x → e_s x = Some s →
  c_heap c' !! e = Some x' → x_tags x' = Some tag → tag = x_tag s.
Proof.
  intros K Hx Hs Hx' Ht. pose proof (keeps_tag _ _ _ _ _ K Hx Hx') as E. unfold x_tags in E at 2. rewrite Hs in E. cbn in E. congruence.
Qed.
(** The resources that a session had earlier are all right if it is all right now. *)
Lemma bres_of_ok c e x tag : c2s_ok c → get_sess c e = Some x → x_tags x = Some tag → Forall (bres_ok tag) (e_resources x).
Proof. intros Hc Hx Ht. destruct (ok_sess _ Hc _ _ Hx) as (t & Ht' & _ & _ & Hb). by simplify_eq. Qed.

(** A session that is asked for: its resource joins those that were there. *)
Lemma safe_request c c1 e x s b f :
  get_sess c e = Some x → e_s x = Some s → keeps c c1 → b_c2s_id b = fmt_d (x_tag s) → is_Some (b_jid b) →
  (∀ y, e_skey (f y) = e_skey y ∧ e_fd (f y) = e_fd y ∧ x_tags (f y) = x_tags y ∧
        e_resources (f y) ⊆ b :: e_resources x ++ e_resources y) →
  safe c (upd_sess e f c1).
Proof.
  intros Hx Hs K Hid Hj Hf Hc. refine (keeps_ok c _ _ Hc).
  apply keeps_bres_r; [intros y; by destruct (Hf y) as (?&?&?&?)| |done].
  intros tag y Hy Ht Hb. destruct (Hf y) as (_ & _ & _ & Hsub).
  assert (tag = x_tag s) as -> by (by eapply read_tag).
  assert (Forall (bres_ok (x_tag s)) (e_resources x)) as Hx' by (apply (bres_of_ok c e); [done..|]; unfold x_tags; by rewrite Hs).
  rewrite Forall_forall in Hx', Hb |- *. intros b' Hin. apply Hsub in Hin.
  apply elem_of_cons in Hin as [->|[Hin|Hin]%elem_of_app]; [done|by apply Hx'|by apply Hb].
Qed.

Lemma auth_session_s c e x s n u r now : get_sess c e = Some x → e_s x = Some s →
  post (auth_session c e x s n u r now) (safe c).
Proof.
  intros Hx Hs. unfold auth_session. destruct (e_resources x) as [|b bs] eqn:Er; repeat post_step;
    match goal with K : keeps _ _ ∧ _ |- _ => destruct K as (K & Hid & Hj & Hsome) end; cbn [fst snd] in *;
    (eapply (safe_request _ _ _ x s _); [done..|exact Hid|by rewrite Hj|]);
    intros y; (split; [reflexivity|split; [reflexivity|split; [reflexivity|]]]); cbn; rewrite Er; set_solver.
Qed.
#[global] Instance auth_set_s c e n now : Spec (_authreg_auth_set c e n now) (safe c).
Proof.
  red. unfold _authreg_auth_set. repeat post_step.
  all: try (apply keeps_safe; keeps_chain; fail).
  match goal with A : auth_session _ _ _ _ _ _ _ _ = Some _ |- _ => by apply auth_session_s in A end.
Qed.
#[global] Instance authreg_process_s c e n now : Spec (authreg_process c e n now) (λ r, safe c r.1).
Proof.
  red. unfold authreg_process. repeat post_step; cbn [fst]; try done; try (apply keeps_safe; keeps_chain; fail).
Qed.

(** *** Binding *)

#[global] Instance random_resource_k c j : Spec (random_resource c j) (λ r, keeps c r.1).
Proof. unfold random_resource. keeps_tac. Qed.
Lemma distinct_resources_k c j bs : post (distinct_resources (c, j) bs) (λ r, keeps c r.1).
Proof.
  revert c j. induction bs as [|b bs IH]; intros c j; cbn [distinct_resources]; [apply post_ret, keeps_refl|].
  apply post_bind. unfold distinct_resource. repeat post_step; cbn [fst] in *.
  - match goal with A : distinct_resources ?st _ = Some _ |- _ => destruct st as [c1 j1] end; cbn [fst] in *.
    match goal with A : distinct_resources _ _ = Some _ |- _ => apply IH in A end. keeps_chain.
  - match goal with A : distinct_resources _ _ = Some _ |- _ => by apply IH in A end.
Qed.
#[global] Instance bind_jid_k c x s n ns elem :
  Spec (bind_jid c x s n ns elem) (λ r, match r with inl c1 => keeps c c1 | inr (c1, j) => keeps c c1 end).
Proof.
  red. unfold bind_jid. repeat post_step; try apply keeps_refl.
  all: match goal with |- let (_, _) := ?st in _ => destruct st as [c1 j1] end; cbn [fst] in *; try assumption.
  match goal with A : distinct_resources _ _ = Some _ |- _ => by apply distinct_resources_k in A end.
Qed.
#[global] Instance client_bind_s c e n ns elem now : Spec (client_bind c e n ns elem now) (safe c).
Proof.
  red. unfold client_bind. repeat post_step; try (apply keeps_safe; keeps_chain; fail).
  match goal with K : keeps _ _ ∧ _ |- _ => destruct K as (K & Hid & Hj & Hsome) end; cbn [fst snd] in *.
  match goal with A : get_sess c e = Some ?x, B : e_s ?x = Some ?s |- _ =>
    eapply (safe_request c _ e x s _); [exact A|exact B| |exact Hid|by rewrite Hj|]
  end.
  - keeps_chain.
  - intros y. split; [reflexivity|split; [reflexivity|split; [reflexivity|]]]. cbn. set_solver.
Qed.
#[global] Instance client_unbind_k c e n ns elem : Spec (client_unbind c e n ns elem) (keeps c).
Proof. unfold client_unbind. keeps_tac. Qed.
#[global] Instance client_stanza_s c e n : Spec (client_stanza c e n) (safe c).
Proof.
  red. unfold client_stanza. repeat post_step; try (apply keeps_safe; keeps_chain; fail).
  eapply safe_trans; [|eassumption]. apply keeps_safe. keeps_chain.
Qed.

Lemma count_packet_k a c e : keeps a c → keeps a (count_packet c e).
Proof. intros K. unfold count_packet. keeps_chain. Qed.
Lemma stanza_rate_k a c e now : keeps a c → keeps a (stanza_rate_check c e now).
Proof.
  intros K. unfold stanza_rate_check. apply keeps_upd_r; [|done]. intros x. destruct (e_stanza_rate x) as [rt|]; [|done].
  destruct (rate_check rt now) as [rt' []]; by split_and!.
Qed.
#[global] Instance event_packet_s c e n now : Spec (client_event_packet c e n now) (safe c).
Proof.
  assert (keeps c (stanza_rate_check (count_packet c e) e now)) as K by (apply stanza_rate_k, count_packet_k, keeps_refl).
  red. unfold client_event_packet. generalize dependent (stanza_rate_check (count_packet c e) e now). intros c0 K.
  repeat post_step; cbn [fst snd] in *; safe_chain.
Qed.

(** ** The other events of a client *)

#[global] Instance event_read_s c e buflen now recv : Spec (client_event_read c e buflen now recv) (λ r, safe c r.1).
Proof.
  red. unfold client_event_read. repeat post_step; cbn [fst]; try (apply keeps_safe; keeps_chain; fail).
  all: eapply safe_trans; [|eassumption]; apply keeps_safe; keeps_chain.
Qed.
#[global] Instance event_write_s c e buflen send : Spec (client_event_write c e buflen send) (λ r, safe c r.1).
Proof. red. unfold client_event_write. repeat post_step; cbn [fst]; try done; apply keeps_safe; keeps_chain. Qed.
Lemma set_host_k a c e h : keeps a c → keeps a (set_host c e h).
Proof. intros K. unfold set_host. keeps_chain. Qed.
#[global] Instance event_stream_s c e : Spec (client_event_stream c e) (safe c).
Proof.
  red. unfold client_event_stream. repeat post_step; cbv zeta; repeat post_step.
  all: try (apply keeps_safe; try apply set_host_k; keeps_chain; fail).
  all: eapply safe_trans; [|eassumption]; apply keeps_safe; keeps_chain.
Qed.
#[global] Instance event_open_k c e : Spec (client_event_open c e) (keeps c).
Proof. unfold client_event_open. keeps_tac. Qed.
#[global] Instance sx_auth_k c e m i : Spec (sx_auth c e m i) (keeps c).
Proof.
  red. unfold sx_auth. repeat post_step. eapply keeps_trans; [|eassumption].
  apply keeps_stream_r; [|apply keeps_refl]. intros s. by destruct m, i.
Qed.
#[global] Instance action_read_s c e nbytes now : Spec (client_action_read c e nbytes now) (safe c).
Proof.
  red. unfold client_action_read. repeat post_step; [|apply keeps_safe; keeps_chain].
  eapply safe_trans; [|eassumption]. apply keeps_safe. keeps_chain.
Qed.

(** ** The answers of session managers *)

Lemma resources_k a c e f : (∀ x, e_skey (f x) = e_skey x ∧ e_fd (f x) = e_fd x ∧ x_tags (f x) = x_tags x) →
  (∀ x b', b' ∈ e_resources (f x) → ∃ b, b ∈ e_resources x ∧ b_c2s_id b' = b_c2s_id b ∧ b_jid b' = b_jid b) →
  keeps a c → keeps a (upd_sess e f c).
Proof.
  intros Hf Hr K. apply keeps_bres_r; [done| |done]. intros tag x _ _. rewrite !Forall_forall. intros Hb b' Hin.
  destruct (Hr _ _ Hin) as (b & Hb' & E1 & E2). specialize (Hb _ Hb'). unfold bres_ok. by rewrite E1, E2.
Qed.
Lemma drop_bres_in i x b : b ∈ e_resources (drop_bres i x) → b ∈ e_resources x.
Proof.
  cbn. rewrite delete_take_drop. intros Hb. rewrite <- (take_drop i (e_resources x)).
  rewrite elem_of_app in Hb |- *. destruct Hb as [Hb|Hb]; [by left|right].
  rewrite list_elem_of_lookup in Hb |- *. destruct Hb as [k Hk]. exists (S k).
  rewrite lookup_drop in Hk |- *. rewrite <- Hk. f_equal. lia.
Qed.
Lemma drop_bres_k a c e i f : (∀ x, e_skey (f x) = e_skey x ∧ e_fd (f x) = e_fd x ∧ x_tags (f x) = x_tags x ∧ e_resources (f x) = e_resources x) →
  keeps a c → keeps a (upd_sess e (λ x, drop_bres i (f x)) c).
Proof.
  intros Hf. apply resources_k.
  - intros x. by destruct (Hf x) as (?&?&?&?).
  - intros x b Hb%drop_bres_in. exists b. by destruct (Hf x) as (_&_&_&<-).
Qed.
Lemma upd_bres_k a c e i f : (∀ b, b_c2s_id (f b) = b_c2s_id b ∧ b_jid (f b) = b_jid b) → keeps a c → keeps a (upd_sess e (upd_bres i f) c).
Proof.
  intros Hf. apply resources_k; [done|]. intros x b. cbn. intros Hb.
  apply list_elem_of_lookup in Hb as [k Hk]. destruct (decide (i = k)) as [<-|Hne].
  - rewrite list_lookup_alter_eq in Hk. destruct (e_resources x !! i) as [b0|] eqn:E; [|done]. cbn in Hk. injection Hk as <-.
    exists b0. split; [by eapply list_elem_of_lookup_2|apply Hf].
  - rewrite list_lookup_alter_ne in Hk by done. exists b. split; [by eapply list_elem_of_lookup_2|done].
Qed.

#[global] Instance kill_session_s from c e : Spec (kill_session from c e) (safe c).
Proof. unfold kill_session. safe_tac. Qed.
Lemma titer_k c t l : titer (c_sessions c) = (t, l) → keeps c (set_c_sessions t c).
Proof.
  intros E. split; try done; [|intros e; apply (k_heap c c (keeps_refl c))].
  intros Ht. destruct (titer_ok _ Ht) as (A1 & A2 & _). rewrite E in A1, A2. done.
Qed.
#[global] Instance component_presence_s c n : Spec (_c2s_component_presence c n) (safe c).
Proof.
  red. unfold _c2s_component_presence. repeat post_step; safe_chain.
  apply keeps_safe. by eapply titer_k.
Qed.
#[global] Instance c2s_event_open_k c : Spec (c2s_event_open c) (keeps c).
Proof. unfold c2s_event_open. keeps_tac. Qed.
Lemma bind_response_k c n a b : keeps c (bind_response c n a b).
Proof. unfold bind_response. repeat (case_match || cbv zeta); try done; keeps_chain. Qed.
#[global] Instance end_unknown_k c n ns skey : Spec (end_unknown c n ns skey) (keeps c).
Proof. unfold end_unknown. keeps_tac. Qed.
#[global] Instance end_stray_k c e x n ns smid : Spec (end_stray c e x n ns smid) (keeps c).
Proof. unfold end_stray. keeps_tac. Qed.
#[global] Instance send_result_k c e : Spec (send_result c e) (keeps c).
Proof. unfold send_result. keeps_tac. Qed.
Ltac bres_chain :=
  repeat first
    [ progress safe_chain
    | lazymatch goal with |- safe _ (upd_sess _ (upd_bres _ _) ?c) => apply (safe_by _ c); [|apply upd_bres_k; [intros; by split_and!|apply keeps_refl]] end
    | lazymatch goal with |- safe _ (upd_sess _ (drop_bres _) ?c) => apply (safe_by _ c); [|apply (drop_bres_k _ _ _ _ (λ x, x)); [intros; by split_and!|apply keeps_refl]] end
    | lazymatch goal with |- safe _ (upd_sess _ (λ x, drop_bres _ (@?f x)) ?c) => apply (safe_by _ c); [|apply (drop_bres_k _ _ _ _ f); [intros; by split_and!|apply keeps_refl]] end ].
#[global] Instance session_ended_s c e i r : Spec (session_ended c e i r) (safe c).
Proof. red. unfold session_ended. repeat post_step; cbn [fst snd] in *; bres_chain. Qed.
#[global] Instance session_failed_s c e i a : Spec (session_failed c e i a) (safe c).
Proof. red. unfold session_failed. repeat post_step; cbn [fst snd] in *; bres_chain. Qed.
#[global] Instance session_started_s c e i n smid : Spec (session_started c e i n smid) (safe c).
Proof. red. unfold session_started. repeat post_step; cbn [fst snd] in *; bres_chain. Qed.
#[global] Instance session_control_s c e x i b n ns smid a : Spec (session_control c e x i b n ns smid a) (safe c).
Proof. red. unfold session_control. repeat post_step; cbn [fst snd] in *; bres_chain. Qed.
#[global] Instance client_packet_s c e x n ns : Spec (client_packet c e x n ns) (safe c).
Proof.
  red. unfold client_packet. repeat post_step; cbn [fst snd] in *; try (bres_chain; fail).
  eapply safe_by; [|eassumption]. apply keeps_safe, count_packet_k, keeps_refl.
Qed.
#[global] Instance session_route_s c e n ns : Spec (session_route c e n ns) (safe c).
Proof. red. unfold session_route. repeat post_step; cbn [fst snd] in *; bres_chain. Qed.
#[global] Instance c2s_route_s c n : Spec (c2s_route c n) (safe c).
Proof. red. unfold c2s_route. repeat post_step; cbn [fst snd] in *; bres_chain. Qed.
#[global] Instance c2s_event_packet_s c n a b : Spec (c2s_event_packet c n a b) (safe c).
Proof.
  red. unfold c2s_event_packet. repeat post_step; cbn [fst snd] in *; try (bres_chain; fail).
  apply keeps_safe, bind_response_k.
Qed.
End quiet.
