(* ===== verification/C2sTop.v ===== *)
(** * The c2s process keeps its tables

    Connections that come in, the freeing of the dead and the events of the
    main loop: whatever happens, [c2s_ok] stays true. *)
From S2P Require Import Prelude.
From S2P Require Import CStr.
From S2P Require Import DList.
From S2P Require Import Table.
From S2P Require Import JQueue.
From S2P Require Import Rate.
From S2P Require Import Codec.
From S2P Require Import Access.
From S2P Require Import Jid.
From S2P Require Import Nad.
From S2P Require Import Stanza.
From S2P Require Import Datetime.
From S2P Require Import Pkt.
From S2P Require Import C2s.
From S2P Require Import Authreg.
From S2P Require Import C2sClient.
From S2P Require Import C2sRouter.
From S2P Require Import C2sRun.
From S2P Require Import C2sInv.

Section top.
Context {T : Type → Type} `{TableLaws T} `{Env} `{AuthEnv}.
Notation c2s := (c2s T).
Implicit Types (c : c2s) (e : loc) (x : sess) (n : nad).

(** ** Connections that come in *)

(** No open session has the descriptor. *)
Definition fd_free c (fd : Z) : Prop := ∀ e x, c_heap c !! e = Some x → e_fd x ≠ Some fd.

Lemma fd_free_key c fd : c2s_ok c → fd_free c fd → tmap (c_sessions c) !! fmt_d fd = None.
Proof.
  intros Hc Hf. apply eq_None_not_Some. intros [e He]. destruct (ok_entry _ Hc _ _ He) as (x & Hx & Hfd & Hk & _).
  destruct (ok_sess _ Hc _ _ Hx) as (tag & _ & Hfd' & Hsk & _). destruct Hsk as [Hsk|Hsk]; [by destruct (fmt_d_ne fd); congruence|].
  assert (tag = fd) as -> by (apply fmt_d_inj; congruence). destruct Hfd' as [Hn|Hs]; [by rewrite Hn in Hfd; destruct Hfd|].
  by destruct (Hf _ _ Hx).
Qed.

(** A new open session, in the table when it has a key. *)
Lemma accept_ok c fd x k : c2s_ok c → fd_free c fd →
  x_tags x = Some fd → e_fd x = Some fd → e_resources x = [] → e_skey x = k → k = "" ∨ k = fmt_d fd →
  c2s_ok (set_c_sessions (if bool_decide (k = "") then c_sessions c else tput (c_sessions c) k (c_fresh c))
    (set_c_heap (<[c_fresh c := x]> (c_heap c)) (set_c_fresh (S (c_fresh c)) c))).
Proof.
  intros Hc Hfree Htag Hfd Hres Hk Hor. pose proof (fd_free_key c fd Hc Hfree) as Hnone.
  destruct Hc as [Ht Hf Hs He Ho (l & Hq & Hnd & Hl) Hd].
  set (t := if bool_decide (k = "") then _ else _).
  assert (no_nul k) as Hnn by (destruct Hor as [-> | ->]; [done|apply fmt_d_no_nul]).
  assert (tok t ∧ tmap t = if bool_decide (k = "") then tmap (c_sessions c) else <[k := c_fresh c]> (tmap (c_sessions c))) as [Htok Em].
  { unfold t. case_bool_decide; [done|]. by apply tput_ok. }
  assert (∀ e y, c_heap c !! e = Some y → c_fresh c ≠ e) as Hne by (intros e y Hy%Hf; lia).
  split; cbn [c_heap c_fresh c_sessions c_dead c_dead_sess set_c_heap set_c_fresh set_c_sessions].
  - done.
  - intros e y [[<- _]|[_ Hy]]%lookup_insert_Some; [lia|]. apply Hf in Hy. lia.
  - intros e y [[_ <-]|[_ Hy]]%lookup_insert_Some; [|by eapply Hs]. exists fd. rewrite Hres, Hk.
    split_and!; [done|by right|done|constructor].
  - intros k' e Hk'. rewrite Em in Hk'.
    assert (k' = k ∧ e = c_fresh c ∧ k ≠ "" ∨ tmap (c_sessions c) !! k' = Some e) as [(-> & -> & Hkne)|Hold].
    { case_bool_decide; [by right|]. apply lookup_insert_Some in Hk' as [[<- <-]|[_ ?]]; [by left|by right]. }
    + exists x. rewrite lookup_insert_eq, Hfd. by eauto.
    + destruct (He _ _ Hold) as (y & Hy & ?). exists y. by rewrite lookup_insert_ne by (by eapply Hne).
  - intros e y [[<- <-]|[Hne' Hy]]%lookup_insert_Some Hyfd Hyk; rewrite Em.
    + rewrite Hk in Hyk |- *. rewrite bool_decide_eq_false_2 by done. by rewrite lookup_insert_eq.
    + pose proof (Ho _ _ Hy Hyfd Hyk) as Hin. case_bool_decide; [done|]. rewrite lookup_insert_ne; [done|].
      intros E. destruct Hor as [->|Hor]; [done|]. congruence.
  - exists l. split_and!; [done..|]. intros e. rewrite Hl. split.
    + intros (y & Hy & Hyfd). exists y. by rewrite lookup_insert_ne by (by eapply Hne).
    + intros (y & [[_ <-]|[_ Hy]]%lookup_insert_Some & Hyfd); [congruence|by exists y].
  - done.
Qed.

#[global] Instance accept_check_k c ip now : Spec (_c2s_client_accept_check c ip now) (λ r, keeps c r.1).
Proof.
  red. unfold _c2s_client_accept_check. repeat post_step; cbn [fst]; cbv zeta; repeat post_step; cbn [fst]; keeps_chain.
Qed.
Lemma fd_free_keeps c c' fd : keeps c c' → fd_free c fd → fd_free c' fd.
Proof. intros K Hf e x' Hx. destruct (keeps_lookup _ _ _ _ K Hx) as (x & Hx' & _ & -> & _). by apply (Hf e). Qed.
Lemma upd_alloc c e x f m : upd_sess e f (set_c_heap (<[e := x]> m) c) = set_c_heap (<[e := f x]> m) c.
Proof. unfold upd_sess. cbn. by rewrite alter_insert_eq. Qed.
Lemma action_accept_ok c fd ip peer sock now : c2s_ok c → fd_free c fd →
  post (client_action_accept c fd ip peer sock now) (λ r, c2s_ok r.1).
Proof.
  intros Hc Hf. unfold client_action_accept, c2s_alloc. repeat post_step; cbn [fst snd] in *; [by apply (keeps_ok c)|..|done];
    match goal with K : keeps c ?c1 |- _ => assert (c2s_ok c1 ∧ fd_free c1 fd) as [Hc1 Hf1] by
      (split; [by apply (keeps_ok c)|by apply (fd_free_keeps c)]); clear Hc Hf K end.
  - rewrite upd_alloc. match goal with |- context [emit (OInit _ ?fl)] => generalize fl end. intros fl.
    match goal with |- c2s_ok (emit _ (upd_stream _ _ ?c1)) => apply (keeps_ok c1) end.
    { match goal with |- keeps _ (emit _ ?c1) => apply (keeps_same_r _ c1); [|reflexivity..] end.
      apply keeps_stream_r; [done|apply keeps_refl]. }
    match goal with |- c2s_ok (set_c_sessions _ (set_c_heap (<[_ := ?x]> _) _)) =>
      pose proof (accept_ok _ fd x (fmt_d fd) Hc1 Hf1 eq_refl eq_refl eq_refl eq_refl (or_intror eq_refl)) as A end.
    rewrite bool_decide_eq_false_2 in A by apply fmt_d_ne. exact A.
  - by apply (accept_ok c0 fd _ "" Hc1 Hf1); [..|left].
Qed.

(** ** Freeing the dead *)

Lemma reap_ok c : safe c (c2s_reap c).
Proof.
  intros [Ht Hf Hs He Ho (l & Hq & Hnd & Hl) (l' & Hq')]. unfold c2s_reap.
  destruct (fifo_pull_all (S (size (q_heap (c_dead_sess c)))) _ _ Hq) as (l2 & E & Hq2).
  destruct (fifo_pull_all (S (size (q_heap (c_dead c)))) _ _ Hq') as (l2' & _ & Hq2').
  destruct (pull_all _ (c_dead_sess c)) as [q dead]. destruct (pull_all _ (c_dead c)) as [q' dead'].
  cbn [fst snd] in *. subst l. apply NoDup_app in Hnd as (_ & Hdisj & Hnd2).
  assert (∀ e x, c_heap c !! e = Some x → is_Some (e_fd x) → e ∉ dead) as Hlive.
  { intros e x Hx [fd Hfd] Hin. destruct (proj1 (Hl e)) as (y & Hy & Hyfd); [apply elem_of_app; by left|]. congruence. }
  split; cbn [c_heap c_fresh c_sessions c_dead c_dead_sess set_c_heap set_c_dead set_c_dead_sess].
  - done.
  - intros e x Hx%foldr_delete_Some. by eapply Hf.
  - intros e x Hx%foldr_delete_Some. by eapply Hs.
  - intros k e Hk. destruct (He _ _ Hk) as (x & Hx & Hfd & Hrest). exists x.
    rewrite foldr_delete_ne by (by eapply Hlive). done.
  - intros e x Hx%foldr_delete_Some. by apply Ho.
  - exists l2. split_and!; [done..|]. intros e. split.
    + intros Hin. destruct (proj1 (Hl e)) as (x & Hx & Hfd); [apply elem_of_app; by right|]. exists x.
      rewrite foldr_delete_ne; [done|]. intros Hd. by apply (Hdisj _ Hd).
    + intros (x & Hx & Hfd). destruct (decide (e ∈ dead)) as [Hin|Hin]; [by rewrite foldr_delete_in in Hx|].
      rewrite foldr_delete_ne in Hx by done. assert (e ∈ dead ++ l2) as [?|?]%elem_of_app by (apply Hl; by exists x); done.
  - by exists l2'.
Qed.

(** ** Every event *)

#[global] Instance time_check_s now c e : Spec (time_check now c e) (safe c).
Proof. unfold time_check. safe_tac. Qed.
#[global] Instance close_active_s c e : Spec (close_active c e) (safe c).
Proof. unfold close_active. safe_tac. Qed.
#[global] Instance time_checks_s c now : Spec (_c2s_time_checks c now) (safe c).
Proof. red. unfold _c2s_time_checks. repeat post_step. safe_chain. apply keeps_safe. by eapply titer_k. Qed.
#[global] Instance lib_set_s e f c : Spec (lib_set e f c) (λ c', (∀ s, x_tag (f s) = x_tag s) → keeps c c').
Proof. red. unfold lib_set. repeat post_step. intros Hf. apply keeps_stream_r; [done|apply keeps_refl]. Qed.
#[global] Instance c2s_sx_kill_s c : Spec (c2s_sx_kill c) (keeps c).
Proof. unfold c2s_sx_kill. keeps_tac. Qed.
Lemma connect_k c r : keeps c (_c2s_router_connect c r).
Proof. destruct r; by apply keeps_same. Qed.
#[global] Instance c2s_reconnect_s c r : Spec (c2s_reconnect c r) (λ r', match r' with inl c1 | inr c1 => keeps c c1 end).
Proof.
  red. unfold c2s_reconnect. repeat post_step; try apply keeps_refl; try done.
  all: match goal with |- keeps _ (_c2s_router_connect ?c1 _) => apply (keeps_trans _ c1); [|apply connect_k] end.
  all: by apply keeps_same.
Qed.

(** The system gives a descriptor that no session has.  A session whose [getsockname] failed is never
    freed and keeps the number of a descriptor that mio closed: the reuse of such a number is left out. *)
Definition fair c (ev : c2s_event) : Prop := match ev with EvAccept fd _ _ _ => fd_free c fd | _ => True end.

Lemma post_fmap {A B} (f : A → B) (o : option A) (Q : B → Prop) : post o (λ a, Q (f a)) → post (f <$> o) Q.
Proof. intros Ho b E. apply fmap_Some in E as (a & E & ->). by apply Ho. Qed.
(** Finish with what is known of the steps before. *)
Ltac ok_by Hc := repeat post_step; cbn [fst snd] in *;
  lazymatch goal with |- c2s_ok ?c' => revert Hc; lazymatch goal with |- c2s_ok ?c → _ => change (safe c c') end end.
Lemma c2s_step_ok c now ev : c2s_ok c → fair c ev → post (c2s_step c now ev) c2s_ok.
Proof.
  intros Hc Hfair. destruct ev as [fd ip peer sock|e nb|e bl r|e bl r|e ssf|e to id|e m id|e n|e|st| |n l1 l2| |r|]; cbn [c2s_step fair] in *.
  1: by apply post_fmap, action_accept_ok.
  all: clear Hfair; try apply post_fmap; ok_by Hc; try safe_chain.
  1,2: apply keeps_safe; match goal with Hl : ?P → keeps ?a ?b |- _ => by apply Hl end.
  all: first [apply keeps_safe; match goal with Hl : _ |- _ => by apply Hl end|match goal with |- safe _ (c2s_reap ?c1) => apply (safe_trans _ c1); [by apply keeps_safe|apply reap_ok] end].
Qed.

(** ** Runs *)

Fixpoint fair_run c (evs : list (Z * c2s_event)) : Prop :=
  match evs with
  | [] => True
  | (now, ev) :: evs => fair c ev ∧ ∀ c', c2s_step c now ev = Some c' → fair_run c' evs
  end.
(** Deciding it. *)
Definition fairb c (ev : c2s_event) : bool :=
  match ev with EvAccept fd _ _ _ => bool_decide (map_Forall (λ _ x, e_fd x ≠ Some fd) (c_heap c)) | _ => true end.
Fixpoint fair_runb c (evs : list (Z * c2s_event)) : bool :=
  match evs with
  | [] => true
  | (now, ev) :: evs => fairb c ev && match c2s_step c now ev with Some c' => fair_runb c' evs | None => true end
  end.
Lemma fair_runb_ok c evs : fair_runb c evs = true → fair_run c evs.
Proof.
  revert c. induction evs as [|[now ev] evs IH]; intros c; cbn [fair_runb fair_run]; [done|].
  intros [Hev Hr]%andb_prop. split.
  - destruct ev; try done. cbn in Hev. apply bool_decide_eq_true in Hev. intros e x Hx. by apply (Hev e).
  - intros c' E. rewrite E in Hr. by apply IH.
Qed.
Lemma c2s_run_ok c evs : c2s_ok c → fair_run c evs → post (c2s_run c evs) c2s_ok.
Proof.
  revert c. induction evs as [|[now ev] evs IH]; intros c Hc Hf; cbn [c2s_run]; [by apply post_ret|].
  destruct Hf as [Hev Hf]. intros c' E. apply bind_Some in E as (c1 & E1 & E). revert E. apply IH; [|by apply Hf].
  by apply (c2s_step_ok c now ev Hc Hev).
Qed.
Lemma c2s_new_ok conf hosts retry now r : c2s_ok (c2s_new conf hosts retry now r).
Proof.
  unfold c2s_new. match goal with |- c2s_ok (_c2s_router_connect ?c0 _) => apply (keeps_ok c0); [apply connect_k|] end.
  destruct (tnew_ok (T := T) (V := loc) 1023) as [Ht Em]; [lia|]. split; cbn; try done.
  - intros k e. by rewrite Em.
  - exists []. split; [apply fifo_new|]. split; [constructor|]. intros e. split; [by intros ?%elem_of_nil|by intros (x & ? & _)].
  - exists []. apply fifo_new.
Qed.
End top.

(** ** Which operations of c2s make a session active

    None but the answer of a session manager to the request of the session:
    the others leave a session that is not active as it is, [calm]. *)

Section calm.
Context {T : Type → Type} `{Table T} `{Env} `{AuthEnv}.
Notation c2s := (c2s T).
Implicit Types (c : c2s) (e : loc) (x : sess) (n : nad).

Definition active_at c e : Prop := ∃ x, c_heap c !! e = Some x ∧ e_active x = true.
(** No session that was not active is, but perhaps those of [P]. *)
Definition calm_but (P : loc → Prop) c c' : Prop := ∀ e, active_at c' e → active_at c e ∨ P e.
Definition calm c c' : Prop := ∀ e, active_at c' e → active_at c e.

Lemma calm_refl c : calm c c.
Proof. by intros e. Qed.
Lemma calm_trans a b c : calm a b → calm b c → calm a c.
Proof. intros A B e He. by apply A, B. Qed.
Lemma calm_same_r a c c' : calm a c → c_heap c' = c_heap c → calm a c'.
Proof. intros A E e He. apply A. unfold active_at in *. by rewrite <- E. Qed.
Lemma calm_upd_r a c e f : (∀ x, e_active (f x) = true → e_active x = true) → calm a c → calm a (upd_sess e f c).
Proof.
  intros Hf A e' (x & Hx & Ha). apply A. cbn in Hx. destruct (decide (e = e')) as [<-|Hne].
  - rewrite lookup_alter_eq in Hx. apply fmap_Some in Hx as (y & Hy & ->). exists y. auto.
  - rewrite lookup_alter_ne in Hx by done. by exists x.
Qed.
Lemma calm_stream_r a c e f : calm a c → calm a (upd_stream e f c).
Proof. by apply calm_upd_r. Qed.
Lemma calm_alloc a c e x m : e_active x = false → m = c_heap c → calm a c → calm a (set_c_heap (<[e := x]> m) c).
Proof.
  intros Hx -> A e' (y & Hy & Ha). apply A. cbn in Hy. apply lookup_insert_Some in Hy as [[_ <-]|[_ Hy]]; [congruence|by exists y].
Qed.
Lemma calm_but_calm P a c : calm a c → calm_but P a c.
Proof. intros A e He. left. by apply A. Qed.
Lemma calm_but_l P a b c : calm a b → calm_but P b c → calm_but P a c.
Proof. intros A B e He. destruct (B e He); [left; by apply A|by right]. Qed.
Lemma calm_but_upd_r a c e f : calm a c → calm_but (eq e) a (upd_sess e f c).
Proof.
  intros A e' (x & Hx & Ha). destruct (decide (e = e')) as [<-|Hne]; [by right|left]. apply A.
  cbn in Hx. rewrite lookup_alter_ne in Hx by done. by exists x.
Qed.
End calm.

Ltac calm_chain :=
  repeat first
    [ exact (calm_refl _)
    | match goal with K : calm ?a ?b |- calm _ ?b => apply (calm_trans _ a b); [|exact K]; clear K end
    | apply calm_upd_r; [intros; by repeat case_match|]
    | apply calm_stream_r
    | lazymatch goal with |- calm _ (_ _ ?c) => apply (calm_same_r _ c); [|reflexivity] end
    | match goal with |- calm _ (match ?x with _ => _ end) => destruct x end ].
Ltac calm_tac :=
  intros; lazymatch goal with |- Spec _ _ => red | _ => idtac end;
  unfold ask_rand; cbv beta iota; repeat post_step; cbn [fst snd] in *; calm_chain.

Section quiet.
Context {T : Type → Type} `{Table T} `{Env} `{AuthEnv}.
Notation c2s := (c2s T).
Implicit Types (c : c2s) (e : loc) (x : sess) (n : nad).

#[global] Instance nad_write_q c e n : Spec (sx_nad_write c e n) (calm c).
Proof. unfold sx_nad_write. calm_tac. Qed.
#[global] Instance nad_write_elem_q c e n i : Spec (sx_nad_write_elem c e n i) (calm c).
Proof. unfold sx_nad_write_elem. calm_tac. Qed.
#[global] Instance raw_write_q c e t : Spec (sx_raw_write c e t) (calm c).
Proof. unfold sx_raw_write. calm_tac. Qed.
#[global] Instance error_q c e err t : Spec (sx_error c e err t) (calm c).
Proof. unfold sx_error. calm_tac. Qed.
#[global] Instance router_write_q c n : Spec (router_write c n) (calm c).
Proof. unfold router_write. calm_tac. Qed.
#[global] Instance sm_end_q c sc b : Spec (sm_end c sc b) (calm c).
Proof. unfold sm_end. calm_tac. Qed.
#[global] Instance sm_packet_q c sc b n : Spec (sm_packet c sc b n) (calm c).
Proof. unfold sm_packet. calm_tac. Qed.
#[global] Instance sm_start_q c sc b now : Spec (sm_start c sc b now) (λ r, calm c r.1).
Proof. unfold sm_start. calm_tac. Qed.
#[global] Instance router_event_closed_q c : Spec (router_event_closed c) (calm c).
Proof. unfold router_event_closed. calm_tac. Qed.
#[global] Instance router_error_q c err t : Spec (router_error c err t) (calm c).
Proof. unfold router_error. calm_tac. Qed.
#[global] Instance router_close_q c : Spec (router_close c) (calm c).
Proof. unfold router_close. calm_tac. Qed.
#[global] Instance foldM_q {A} (f : c2s → A → option c2s) l c : (∀ c a, Spec (f c a) (calm c)) → Spec (foldM f c l) (calm c).
Proof.
  unfold Spec. intros Hf. revert c. induction l as [|a l IH]; intros c; cbn [foldM]; [apply post_ret, calm_refl|].
  apply post_bind. eapply post_mono; [apply Hf|]. intros c1 K1. eapply post_mono; [apply IH|]. intros c2 K2. by eapply calm_trans.
Qed.
#[global] Instance action_close_q c e : Spec (client_action_close c e) (calm c).
Proof. unfold client_action_close. calm_tac. Qed.
#[global] Instance event_closed_q c e : Spec (client_event_closed c e) (calm c).
Proof. unfold client_event_closed. calm_tac. Qed.
#[global] Instance sx_close_q c e : Spec (sx_close c e) (calm c).
Proof. unfold sx_close. calm_tac. Qed.
#[global] Instance sx_kill_q c e : Spec (sx_kill c e) (calm c).
Proof. unfold sx_kill. calm_tac. Qed.
#[global] Instance auth_error_q c e n err : Spec (auth_error c e n err) (calm c).
Proof. unfold auth_error. calm_tac. Qed.
#[global] Instance client_refuse_q c e n err : Spec (client_refuse c e n err) (calm c).
Proof. unfold client_refuse. calm_tac. Qed.
#[global] Instance auth_get_q c e n : Spec (_authreg_auth_get c e n) (calm c).
Proof. unfold _authreg_auth_get. calm_tac. Qed.
#[global] Instance auth_session_q c e x s n u r now : Spec (auth_session c e x s n u r now) (calm c).
Proof. unfold auth_session. calm_tac. Qed.
#[global] Instance auth_set_q c e n now : Spec (_authreg_auth_set c e n now) (calm c).
Proof. unfold _authreg_auth_set. calm_tac. Qed.
#[global] Instance authreg_process_q c e n now : Spec (authreg_process c e n now) (λ r, calm c r.1).
Proof. unfold authreg_process. calm_tac. Qed.
#[global] Instance random_resource_q c j : Spec (random_resource c j) (λ r, calm c r.1).
Proof. unfold random_resource. calm_tac. Qed.
Lemma distinct_resources_q c j bs : post (distinct_resources (c, j) bs) (λ r, calm c r.1).
Proof.
  revert c j. induction bs as [|b bs IH]; intros c j; cbn [distinct_resources]; [apply post_ret, calm_refl|].
  apply post_bind. unfold distinct_resource. repeat post_step; cbn [fst] in *.
  - match goal with A : distinct_resources ?st _ = Some _ |- _ => destruct st as [c1 j1] end; cbn [fst] in *.
    match goal with A : distinct_resources _ _ = Some _ |- _ => apply IH in A end. calm_chain.
  - match goal with A : distinct_resources _ _ = Some _ |- _ => by apply IH in A end.
Qed.
#[global] Instance bind_jid_q c x s n ns elem :
  Spec (bind_jid c x s n ns elem) (λ r, match r with inl c1 => calm c c1 | inr (c1, j) => calm c c1 end).
Proof.
  red. unfold bind_jid. repeat post_step; try apply calm_refl.
  all: match goal with |- let (_, _) := ?st in _ => destruct st as [c1 j1] end; cbn [fst] in *; try assumption.
  match goal with A : distinct_resources _ _ = Some _ |- _ => by apply distinct_resources_q in A end.
Qed.
#[global] Instance client_bind_q c e n ns elem now : Spec (client_bind c e n ns elem now) (calm c).
Proof. unfold client_bind. calm_tac. Qed.
#[global] Instance client_unbind_q c e n ns elem : Spec (client_unbind c e n ns elem) (calm c).
Proof. unfold client_unbind. calm_tac. Qed.
#[global] Instance client_stanza_q c e n : Spec (client_stanza c e n) (calm c).
Proof. unfold client_stanza. calm_tac. Qed.
Lemma count_packet_q a c e : calm a c → calm a (count_packet c e).
Proof. intros K. unfold count_packet. calm_chain. Qed.
Lemma stanza_rate_q a c e now : calm a c → calm a (stanza_rate_check c e now).
Proof.
  intros K. unfold stanza_rate_check. apply calm_upd_r; [|done]. intros x. destruct (e_stanza_rate x) as [rt|]; [|done].
  by destruct (rate_check rt now) as [rt' []].
Qed.
#[global] Instance event_packet_q c e n now : Spec (client_event_packet c e n now) (calm c).
Proof.
  assert (calm c (stanza_rate_check (count_packet c e) e now)) as K by (apply stanza_rate_q, count_packet_q, calm_refl).
  red. unfold client_event_packet. generalize dependent (stanza_rate_check (count_packet c e) e now). intros c0 K.
  repeat post_step; cbn [fst snd] in *; calm_chain.
Qed.
#[global] Instance event_read_q c e buflen now recv : Spec (client_event_read c e buflen now recv) (λ r, calm c r.1).
Proof. unfold client_event_read. calm_tac. Qed.
#[global] Instance event_write_q c e buflen send : Spec (client_event_write c e buflen send) (λ r, calm c r.1).
Proof. unfold client_event_write. calm_tac. Qed.
Lemma set_host_q a c e h : calm a c → calm a (set_host c e h).
Proof. intros K. unfold set_host. calm_chain. Qed.
#[global] Instance event_stream_q c e : Spec (client_event_stream c e) (calm c).
Proof.
  red. unfold client_event_stream. repeat post_step; cbv zeta; repeat post_step.
  all: try (apply set_host_q). all: calm_chain.
Qed.
#[global] Instance action_read_q c e nbytes now : Spec (client_action_read c e nbytes now) (calm c).
Proof. unfold client_action_read. calm_tac. Qed.
#[global] Instance kill_session_q from c e : Spec (kill_session from c e) (calm c).
Proof. unfold kill_session. calm_tac. Qed.
#[global] Instance component_presence_q c n : Spec (_c2s_component_presence c n) (calm c).
Proof. unfold _c2s_component_presence. calm_tac. Qed.
#[global] Instance c2s_event_open_q c : Spec (c2s_event_open c) (calm c).
Proof. unfold c2s_event_open. calm_tac. Qed.
#[global] Instance end_unknown_q c n ns skey : Spec (end_unknown c n ns skey) (calm c).
Proof. unfold end_unknown. calm_tac. Qed.
#[global] Instance end_stray_q c e x n ns smid : Spec (end_stray c e x n ns smid) (calm c).
Proof. unfold end_stray. calm_tac. Qed.
#[global] Instance send_result_q c e : Spec (send_result c e) (calm c).
Proof. unfold send_result. calm_tac. Qed.
#[global] Instance session_ended_q c e i r : Spec (session_ended c e i r) (calm c).
Proof. unfold session_ended. calm_tac. Qed.
#[global] Instance session_failed_q c e i a : Spec (session_failed c e i a) (calm c).
Proof. unfold session_failed. calm_tac. Qed.
Lemma bind_response_q c n a b : calm c (bind_response c n a b).
Proof. unfold bind_response. repeat (case_match || cbv zeta); try done; calm_chain. Qed.
#[global] Instance client_packet_q c e x n ns : Spec (client_packet c e x n ns) (calm c).
Proof.
  red. unfold client_packet. repeat post_step; cbn [fst snd] in *; try (calm_chain; fail).
Qed.
#[global] Instance time_check_q now c e : Spec (time_check now c e) (calm c).
Proof. unfold time_check. calm_tac. Qed.
#[global] Instance time_checks_q c now : Spec (_c2s_time_checks c now) (calm c).
Proof. unfold _c2s_time_checks. calm_tac. Qed.
#[global] Instance lib_set_q e f c : Spec (lib_set e f c) (calm c).
Proof. unfold lib_set. calm_tac. Qed.
#[global] Instance c2s_sx_kill_q c : Spec (c2s_sx_kill c) (calm c).
Proof. unfold c2s_sx_kill. calm_tac. Qed.
#[global] Instance accept_check_q c ip now : Spec (_c2s_client_accept_check c ip now) (λ r, calm c r.1).
Proof. unfold _c2s_client_accept_check. calm_tac. Qed.
#[global] Instance action_accept_q c fd ip peer sock now : Spec (client_action_accept c fd ip peer sock now) (λ r, calm c r.1).
Proof.
  red. unfold client_action_accept, c2s_alloc. repeat post_step; cbn [fst snd] in *; try (calm_chain; fail).
  - repeat first [apply calm_alloc; [done|done|]|progress calm_chain].
  - repeat first [apply calm_alloc; [done|done|]|progress calm_chain].
Qed.
#[global] Instance reconnect_q c r : Spec (c2s_reconnect c r) (λ r', match r' with inl c1 | inr c1 => calm c c1 end).
Proof.
  red. unfold c2s_reconnect. repeat post_step; try apply calm_refl; try done.
  all: unfold _c2s_router_connect; calm_chain.
Qed.
Lemma reap_q c : calm c (c2s_reap c).
Proof.
  unfold c2s_reap. destruct (pull_all _ (c_dead_sess c)) as [q dead]. destruct (pull_all _ (c_dead c)) as [q' dead'].
  intros e (x & Hx%foldr_delete_Some & Ha). by exists x.
Qed.
End quiet.
