(* ===== verification/C2sExample.v ===== *)
(** * A c2s to try

    A concrete environment, a configuration and the packets of a router, of a
    session manager and of a client, on which the theorems about c2s are
    evaluated; and what becomes of c2s when a session that it asked for is
    refused. *)
From S2P Require Import Prelude.
From S2P Require Import CStr.
From S2P Require Import DList.
From S2P Require Import Table.
From S2P Require Import Alist.
From S2P Require Import JQueue.
From S2P Require Import Rate.
From S2P Require Import Codec.
From S2P Require Import Access.
From S2P Require Import Jid.
From S2P Require Import Nad.
From S2P Require Import Stanza.
From S2P Require Import Lines.
From S2P Require Import Datetime.
From S2P Require Import Pkt.
From S2P Require Import SmRun.
From S2P Require Import C2s.
From S2P Require Import Authreg.
From S2P Require Import C2sClient.
From S2P Require Import C2sRouter.
From S2P Require Import C2sRun.
From S2P Require Import C2sTop.

#[local] Existing Instance ex_env.

(** Two users and their passwords. *)
Definition ex_users : list ascii :=
  tx ("ann" +:+ String tab "secret") ++ [newline] ++ tx ("bob" +:+ String tab "hunter2") ++ [newline].
#[local] Instance ex_auth_env : AuthEnv := {|
  ae_crypt pw salt := Some (salt +:+ pw);
  ae_md5 s := take 16 (uchar <$> tx s);
  ae_pton4 := few_pton4; ae_pton6 := few_pton6;
  ae_file f := if bool_decide (f = "/c2s-users") then Some ex_users else None
|}.

Definition ex_conf : cconf alist :=
  CConf None (tnew 51) (access_new 0) 0 0 0 0 0 0 0 0 0 (Z.lor AR_MECH_TRAD_PLAIN AR_MECH_TRAD_DIGEST) 0
    5222 0 None false 0 0 3 (Some "/c2s-users") MPC_PLAIN (tnew 51).
Definition ex_hosts : alist host := tput (tnew 51) "example.com" (Host (Some "example.com") None false).

(** *** What the router sends *)

Definition exc_features : nad := (nad_append_elem (nad_add_namespace nad_new uri_STREAMS (Some "stream")).1 0 "features" 0).1.
Definition exc_bound : nad := (nad_append_elem (nad_add_namespace nad_new uri_COMPONENT None).1 0 "bind" 0).1.
Definition exc_presence (from : string) : nad :=
  (nad_append_attr (nad_append_elem (nad_add_namespace nad_new uri_COMPONENT None).1 0 "presence" 0).1 (-1) "from" from).1.
Definition exc_route : nad * Z :=
  let '(n, ns) := nad_add_namespace nad_new uri_COMPONENT None in
  let n := (nad_append_elem n ns "route" 0).1 in
  let n := (nad_append_attr n (-1) "to" "c2s").1 in
  let n := (nad_append_attr n (-1) "from" "example.com").1 in
  nad_add_namespace n uri_SESSION (Some "sc").
(** An action of the session manager on a session. *)
Definition exc_session (action c2s_id sm_id id : string) (failed : bool) : nad :=
  let '(n, sns) := exc_route in
  let n := (nad_append_elem n sns "session" 1).1 in
  let n := (nad_append_attr n sns "c2s" c2s_id).1 in
  let n := (nad_append_attr n sns "sm" sm_id).1 in
  let n := if failed then (nad_append_attr n sns "failed" "1").1 else n in
  let n := (nad_append_attr n (-1) "action" action).1 in
  (nad_append_attr n (-1) "id" id).1.
(** A message for a client. *)
Definition exc_message (c2s_id sm_id body : string) : nad :=
  let '(n, sns) := exc_route in
  let '(n, ns) := nad_add_namespace n uri_CLIENT None in
  let n := (nad_append_elem n ns "message" 1).1 in
  let n := (nad_append_attr n sns "c2s" c2s_id).1 in
  let n := (nad_append_attr n sns "sm" sm_id).1 in
  let n := (nad_append_elem n ns "body" 2).1 in
  nad_append_cdata n (tx body) 3.

(** *** What a client sends *)

Definition exc_bind (name resource : string) : nad :=
  let '(n, ns) := nad_add_namespace nad_new uri_CLIENT None in
  let n := (nad_append_elem n ns "iq" 0).1 in
  let n := (nad_append_attr n (-1) "type" "set").1 in
  let n := (nad_append_attr n (-1) "id" "b1").1 in
  let '(n, ns) := nad_add_namespace n uri_BIND None in
  let n := (nad_append_elem n ns name 1).1 in
  let n := (nad_append_elem n ns "resource" 2).1 in
  nad_append_cdata n (tx resource) 3.
Definition exc_chat (from : option string) : nad :=
  let '(n, ns) := nad_add_namespace nad_new uri_CLIENT None in
  let n := (nad_append_elem n ns "message" 0).1 in
  let n := append_opt "from" from n in
  (nad_append_attr n (-1) "to" "bob@example.com").1.
Definition exc_auth (type username password : string) : nad :=
  let '(n, ns) := nad_add_namespace nad_new uri_CLIENT None in
  let n := (nad_append_elem n ns "iq" 0).1 in
  let n := (nad_append_attr n (-1) "type" type).1 in
  let '(n, ns) := nad_add_namespace n uri_AUTH None in
  let n := (nad_append_elem n ns "query" 1).1 in
  let n := nad_append_cdata (nad_append_elem n ns "username" 2).1 (tx username) 3 in
  let n := nad_append_cdata (nad_append_elem n ns "password" 2).1 (tx password) 3 in
  nad_append_cdata (nad_append_elem n ns "resource" 2).1 (tx "home") 3.

(** *** Runs *)

Definition exc_start : c2s alist := c2s_new ex_conf ex_hosts 3 0 Connected.
Definition exc_online : list (Z * c2s_event) :=
  [(0%Z, EvRouterState state_STREAM); (0%Z, EvRouterPacket exc_features true true); (0%Z, EvRouterOpen);
   (0%Z, EvRouterPacket exc_bound true true); (0%Z, EvRouterPacket (exc_presence "example.com") true true)].
Definition exc_login : list (Z * c2s_event) :=
  [(1%Z, EvAccept 7 "10.1.2.3" (Some 4000%Z) (Some 5222%Z)); (1%Z, EvStream 0 (Some "example.com") "id1");
   (1%Z, EvSasl 0 "SASL/PLAIN" "ann@example.com")].
Definition exc_request (now : Z) (jid : string) : string := shahash_r ("start" +:+ fmt_d now +:+ jid).

Definition exc_asked : list (Z * c2s_event) := exc_online ++ exc_login ++ [(2%Z, EvPacket 0 (exc_bind "bind" "home"))].
Definition exc_started : list (Z * c2s_event) :=
  exc_asked ++ [(3%Z, EvRouterPacket (exc_session "started" "7" "s1" (exc_request 2 "ann@example.com/home") false) true true)].
Definition exc_state (evs : list (Z * c2s_event)) : c2s alist := default exc_start (c2s_run exc_start evs).

Lemma exc_reached evs : match c2s_run exc_start evs with Some _ => true | None => false end = true →
  c2s_run exc_start evs = Some (exc_state evs).
Proof. unfold exc_state. by destruct (c2s_run _ _). Qed.

(** The first request is refused, the second granted, and that session ended. *)
Definition exc_refused : list (Z * c2s_event) :=
  exc_asked ++
  [(3%Z, EvRouterPacket (exc_session "start" "7" "" (exc_request 2 "ann@example.com/home") true) true true);
   (4%Z, EvPacket 0 (exc_bind "bind" "work"));
   (5%Z, EvRouterPacket (exc_session "started" "7" "s2" (exc_request 4 "ann@example.com/work") false) true true)].
Definition exc_ended : list (Z * c2s_event) :=
  exc_refused ++ [(6%Z, EvRouterPacket (exc_session "ended" "7" "s2" "" false) true true)].
