(* ===== verification/C2sSpec.v ===== *)
(** * What c2s promises

    The claims about the clients' connections: the tables agree in every state
    that is reached, a session is active only when its session manager said
    so, what a client can make c2s tell the router, and how a session closes. *)
From S2P Require Import Prelude.
From S2P Require Import CStr.
From S2P Require Import DList.
From S2P Require Import Table.
From S2P Require Import Alist.
From S2P Require Import JQueue.
From S2P Require Import Rate.
From S2P Require Import Codec.
From S2P Require Import Access.
From S2P Require Import Jid.
From S2P Require Import Nad.
From S2P Require Import Stanza.
From S2P Require Import Lines.
From S2P Require Import Datetime.
From S2P Require Import Pkt.
From S2P Require Import SmRun.
From S2P Require Import C2s.
From S2P Require Import Authreg.
From S2P Require Import C2sClient.
From S2P Require Import C2sRouter.
From S2P Require Import C2sRun.
From S2P Require Import C2sInv.
From S2P Require Import C2sTop.
From S2P Require Import C2sExample.

(** ** The tables *)

(** C10: in every state that c2s reaches, whatever its clients, the router and the session managers
    send and whenever connections fail, the tables agree with the heap.  An entry of the table of
    sessions points to a session that is allocated, open, and has that key; an open session that has a
    key is in the table under it; every session has a stream whose tag gives its key and the [c2s] id
    of all its resources, and each resource has a jid; the queue of the dead has each session that was
    closed and not yet freed, once.  The system gives a new connection a descriptor that is not open. *)
Theorem c2s_tables_agree {T : Type → Type} `{TableLaws T} `{Env} `{AuthEnv} conf hosts retry now r evs (c : c2s T) :
  fair_run (c2s_new conf hosts retry now r) evs → c2s_run (c2s_new conf hosts retry now r) evs = Some c → c2s_ok c.
Proof. intros Hf. apply c2s_run_ok; [apply c2s_new_ok|done]. Qed.

(** ** Activity *)

Section active.
Context {T : Type → Type} `{Table T} `{Env} `{AuthEnv}.
Notation c2s := (c2s T).
Implicit Types (c : c2s) (e : loc) (x : sess) (n : nad).

(** The packet grants what a resource of the session asked for. *)
Definition granted c n e : Prop :=
  ∃ x b, get_sess c e = Some x ∧ b ∈ e_resources x ∧ b_sm_request b ≠ "" ∧
    is_text (attr_of n 1 "id") (b_sm_request b) = true ∧ is_text (attr_of n 1 "action") "started" = true.

#[global] Instance event_open_b c e : Spec (client_event_open c e) (calm_but (eq e) c).
Proof.
  red. unfold client_event_open. repeat post_step; cbn [fst snd] in *.
  - apply calm_but_calm. calm_chain.
  - apply calm_but_upd_r. calm_chain.
  - apply calm_but_calm. calm_chain.
Qed.
#[global] Instance session_started_b c e i n smid : Spec (session_started c e i n smid) (calm_but (eq e) c).
Proof.
  red. unfold session_started, sx_auth. repeat post_step; cbn [fst snd] in *.
  - eapply calm_but_l; [|eassumption]. calm_chain.
  - apply calm_but_upd_r. calm_chain.
  - apply calm_but_upd_r. calm_chain.
  - apply calm_but_upd_r. calm_chain.
Qed.
Lemma session_control_b c e x i b n ns smid a : attr_of n 1 "action" = Some a → get_sess c e = Some x → b ∈ e_resources x →
  post (session_control c e x i b n ns smid a) (λ c', calm c c' ∨ calm_but (eq e) c c' ∧ granted c n e).
Proof.
  intros Ha Hx Hb. unfold session_control. repeat post_step; cbn [fst snd] in *; try (left; calm_chain; fail).
  match goal with A : (_ || _) = false |- _ => apply orb_false_elim in A as [Hq%bool_decide_eq_false Hid%negb_false_iff] end.
  right. split; [done|]. exists x, b. split_and!; try done. rewrite Ha.
  match goal with A : bool_decide (a = _) = true |- _ => apply bool_decide_eq_true in A as -> end. by apply bool_decide_eq_true.
Qed.
Lemma session_route_b c e n ns : post (session_route c e n ns) (λ c', calm c c' ∨ calm_but (eq e) c c' ∧ granted c n e).
Proof.
  unfold session_route. repeat post_step; cbn [fst snd] in *; try (left; calm_chain; fail).
  all: match goal with A : find_resource _ _ = Some _, B : session_control _ _ _ _ _ _ _ _ _ = Some _ |- _ =>
    apply list_find_Some in A as (Hb%list_elem_of_lookup_2 & _ & _); eapply session_control_b in B; eauto end.
Qed.
Lemma c2s_route_b c n : post (c2s_route c n) (λ c', calm c c' ∨ ∃ e, calm_but (eq e) c c' ∧ granted c n e).
Proof.
  unfold c2s_route. repeat post_step; cbn [fst snd] in *; try (left; calm_chain; fail).
  match goal with A : session_route _ _ _ _ = Some _ |- _ => apply session_route_b in A as [?|[? ?]]; [by left|right; by eexists] end.
Qed.
Lemma c2s_event_packet_b c n a b : post (c2s_event_packet c n a b)
  (λ c', calm c c' ∨ nad_ename n 0 = tx "route" ∧ ∃ e, calm_but (eq e) c c' ∧ granted c n e).
Proof.
  unfold c2s_event_packet. repeat post_step; cbn [fst snd] in *; try (left; calm_chain; fail).
  - left. apply bind_response_q.
  - match goal with A : c2s_route _ _ = Some _ |- _ => apply c2s_route_b in A as [?|?]; [by left|right] end.
    split; [by eapply bool_decide_eq_true_1|done].
Qed.

(** SASL authenticates, it starts no session. *)
Lemma sasl_open_q c e m id : is_sasl m = true →
  post (c1 ← lib_set e (λ s, with_x_state state_OPEN (with_x_auth_method (Some m) (with_x_auth_id (Some id) s))) c; client_event_open c1 e) (calm c).
Proof.
  intros Hm c' Ec. apply bind_Some in Ec as (c1 & E1 & Ec). unfold lib_set, get_stream, get_sess in E1.
  apply bind_Some in E1 as (s & Es & [= <-]). apply bind_Some in Es as (x & Ex & Es). revert Ec.
  unfold client_event_open, get_sess. cbn. rewrite lookup_alter_eq, Ex. cbn. rewrite Es. cbn. rewrite Hm. intros [= <-]. calm_chain.
Qed.
Lemma c2s_step_b c now ev : (∀ e m id, ev = EvSasl e m id → is_sasl m = true) →
  post (c2s_step c now ev) (λ c', calm c c' ∨
    ∃ n l l' e, ev = EvRouterPacket n l l' ∧ nad_ename n 0 = tx "route" ∧ calm_but (eq e) c c' ∧ granted c n e).
Proof.
  intros Hs. destruct ev as [fd ip peer sock|e nb|e bl r|e bl r|e ssf|e to id|e m id|e n|e|st| |n l1 l2| |r|]; cbn [c2s_step] in *.
  all: try apply post_fmap.
  12: { eapply post_mono; [apply c2s_event_packet_b|]. intros c' [?|(? & e & ? & ?)]; [by left|right]. by exists n, l1, l2, e. }
  7: { eapply post_mono; [apply sasl_open_q; by eapply Hs|]. by left. }
  all: repeat post_step; cbn [fst snd] in *; left; repeat (calm_chain; try lazymatch goal with |- calm _ (c2s_reap ?c1) => apply (calm_trans _ c1); [|apply reap_q] end).
Qed.

(** C11: a client's session becomes active only by the word of its session manager: whatever happens
    to the process, if a session is active after the event that was not before, then the event is a
    [route] from the router with the action [started], and its [id] is the request that one of the
    session's resources is waiting for. *)
Theorem active_needs_started c now ev c' e :
  (∀ e0 m id, ev = EvSasl e0 m id → is_sasl m = true) →
  c2s_step c now ev = Some c' → active_at c' e → ¬ active_at c e →
  ∃ n l l', ev = EvRouterPacket n l l' ∧ nad_ename n 0 = tx "route" ∧ granted c n e.
Proof.
  intros Hs E Ha Hn. destruct (c2s_step_b c now ev Hs c' E) as [Hq|(n & l & l' & e0 & -> & Hr & Hb & Hg)].
  - by destruct (Hn (Hq e Ha)).
  - exists n, l, l'. split_and!; [done..|]. by destruct (Hb e Ha) as [?|<-].
Qed.
End active.

(** ** Closing *)

Section closing.
Context {T : Type → Type} `{TableLaws T} `{Env} `{AuthEnv}.
Notation c2s := (c2s T).
Implicit Types (c : c2s) (e : loc) (x : sess) (n m : nad).

Lemma build_route_some sc b action target id : is_Some (b_jid b) → is_Some (_sm_build_route sc b action target id).
Proof.
  intros [j Hj]. unfold _sm_build_route. rewrite Hj.
  assert (∃ to, (match sc with Some s => Some s | None => j ← Some j; Some (jid_domain j) end) = Some to) as [to ->] by (destruct sc; by eexists).
  repeat match goal with |- is_Some (match ?p with (_, _) => _ end) => destruct p | |- is_Some (_ ≫= _) => cbn [mbind option_bind] | |- is_Some (let _ := _ in _) => cbv zeta end.
  by eexists.
Qed.
(** The session manager is told the end of each resource. *)
Lemma ends_told c sc st bs : router_state (c_router c) = Some st → Forall (λ b, is_Some (b_jid b)) bs →
  ∃ ms, Forall2 (λ b m, _sm_build_route sc b "end" None None = Some m) bs ms ∧
    foldM (λ c b, sm_end c sc b) c bs =
      Some (set_c_out (c_out c ++ (if state_ge st state_CLOSING then [] else ORouter <$> ms)) c).
Proof.
  intros Hst. revert c Hst. induction bs as [|b bs IH]; intros c Hst Hb.
  { exists []. split; [constructor|]. cbn. destruct (state_ge _ _); rewrite app_nil_r; by destruct c. }
  apply Forall_cons in Hb as [[j Hj] Hb].
  assert (∃ m, _sm_build_route sc b "end" None None = Some m) as [m Hm].
  { apply build_route_some. by exists j. }
  destruct (IH (if state_ge st state_CLOSING then c else emit (ORouter m) c)) as (ms & Hms & E); [by destruct (state_ge _ _)|done|].
  exists (m :: ms). split; [by constructor|]. cbn [foldM]. cbv beta.
  assert (sm_end c sc b = Some (if state_ge st state_CLOSING then c else emit (ORouter m) c)) as ->.
  { unfold sm_end, router_write. rewrite Hm. cbn [mbind option_bind]. by rewrite Hst. }
  cbn [mbind option_bind]. rewrite E. f_equal.
  destruct (state_ge st state_CLOSING); [done|]. unfold set_c_out, emit. cbn. by rewrite <- app_assoc.
Qed.

(** The session that is closed is freed by the next turn of the main loop. *)
Lemma reap_frees c e x : c2s_ok c → (Z.of_nat (size (c_heap c)) < 2 ^ 31)%Z → get_sess c e = Some x → e_fd x = None →
  get_sess (c2s_reap c) e = None.
Proof.
  intros Hc Hsz Hx Hfd. destruct (ok_dead _ Hc) as (l & Hq & Hnd & Hl).
  assert (length l ≤ size (c_heap c)) as Hle.
  { rewrite <- size_dom, <- (size_list_to_set (C := gset loc) l) by done. apply subseteq_size. intros e' He'.
    apply elem_of_list_to_set, Hl in He' as (y & Hy & _). by apply elem_of_dom; eexists. }
  unfold c2s_reap. pose proof (fifo_pull_all_done _ _ _ Hq (fifo_fuel _ _ Hq) ltac:(lia)) as Ed.
  destruct (pull_all _ (c_dead_sess c)) as [q dead]. destruct (pull_all _ (c_dead c)) as [q' dead']. cbn [snd] in Ed. subst dead.
  apply foldr_delete_in, Hl. by exists x.
Qed.

(** C19: a connection that is lost is cleaned up.  In every state with the invariant [c2s_ok], as all
    that are reached have it, with fewer than 2^31 sessions and with a stream to the router that is there
    (after a refused reconnect it is not, and is used all the same), and whatever the session was doing,
    killing its stream succeeds: the session manager is told the end of each of the session's resources
    exactly if the session is active and the router's stream is not closing; the session leaves the
    table, so that no packet reaches it any more; the other sessions are left alone; and the next turn of
    the main loop frees it. *)
Theorem closing_releases c e x s fd st :
  c2s_ok c → (Z.of_nat (size (c_heap c)) < 2 ^ 31)%Z →
  get_sess c e = Some x → e_s x = Some s → e_fd x = Some fd → router_state (c_router c) = Some st →
  ∃ c' ms, sx_kill c e = Some c' ∧ c2s_ok c' ∧
    Forall2 (λ b m, _sm_build_route (e_smcomp x) b "end" None None = Some m) (e_resources x) ms ∧
    c_out c' = c_out c ++ (if e_active x && negb (state_ge st state_CLOSING) then ORouter <$> ms else []) ++ [OClosed e] ∧
    tmap (c_sessions c') = delete (e_skey x) (tmap (c_sessions c)) ∧
    (∀ e', e' ≠ e → get_sess c' e' = get_sess c e') ∧
    get_sess (c2s_reap c') e = None.
Proof.
  intros Hc Hsz Hx Hs Hfd Hst. set (c0 := upd_stream e (with_x_state state_CLOSED) c).
  set (x0 := with_e_s (Some (with_x_state state_CLOSED s)) x).
  assert (get_sess c0 e = Some x0) as Hx0.
  { unfold c0, get_sess, upd_stream, upd_sess. cbn. unfold get_sess in Hx. rewrite lookup_alter_eq, Hx. cbn. by rewrite Hs. }
  assert (Forall (λ b, is_Some (b_jid b)) (e_resources x)) as Hb.
  { destruct (ok_sess _ Hc _ _ Hx) as (tag & _ & _ & _ & Hb). eapply Forall_impl; [exact Hb|]. by intros b [_ ?]. }
  destruct (ends_told c0 (e_smcomp x) st (e_resources x) Hst Hb) as (ms & Hms & Eend).
  set (told := if e_active x then set_c_out (c_out c0 ++ (if state_ge st state_CLOSING then [] else ORouter <$> ms)) c0 else c0).
  assert (get_sess told e = Some x0 ∧ c_sessions told = c_sessions c ∧ c_heap told = c_heap c0) as (Htold & Et & Eh) by (unfold told; by destruct (e_active x)).
  assert (sx_kill c e = Some (upd_sess e (with_e_fd None) (emit (OClosed e)
    (set_c_dead_sess (jqueue_push (c_dead_sess told) e 0)
      (set_c_sessions (tzap (c_sessions told) (e_skey x)) (set_c_dead (jqueue_push (c_dead told) e 0) told)))))) as Ek.
  { unfold sx_kill, get_stream. rewrite Hx. cbn [mbind option_bind]. rewrite Hs. cbn [mbind option_bind].
    unfold client_event_closed, client_action_close. fold c0. rewrite Hx0. cbn [mbind option_bind x0 with_e_s e_fd e_s e_active e_resources e_smcomp e_skey].
    rewrite Hfd. cbn [mbind option_bind]. unfold told. destruct (e_active x); [rewrite Eend|]; done. }
  eexists _, ms. split; [exact Ek|].
  assert (c2s_ok told) as Hok.
  { apply (keeps_ok c); [|done]. unfold told, c0. destruct (e_active x); [apply (keeps_same_r _ (upd_stream e (with_x_state state_CLOSED) c)); [|done..]|];
      (apply keeps_stream_r; [done|apply keeps_refl]). }
  match goal with |- c2s_ok ?c' ∧ _ => assert (c2s_ok c') as Hok'; [apply (closed_ok told told e x0 Hok (keeps_refl _) Htold); by exists fd|] end.
  split; [exact Hok'|]. split; [done|]. split_and!.
  - cbn. unfold told. destruct (e_active x), (state_ge st state_CLOSING); cbn; by rewrite <- ?app_assoc, ?app_nil_r.
  - cbn. rewrite Et. apply tzap_ok; [apply Hc|].
    destruct (ok_sess _ Hc _ _ Hx) as (tag & _ & _ & [-> | ->] & _); [done|apply fmt_d_no_nul].
  - intros e' Hne. cbn. unfold get_sess. cbn. rewrite lookup_alter_ne by done. rewrite Eh. unfold c0. cbn. by rewrite lookup_alter_ne.
  - eapply (reap_frees _ e (with_e_fd None x0)); [exact Hok'| | |done].
    + cbn. assert (∀ (f : sess → sess) (m : gmap loc sess), size (alter f e m) = size m) as Hal.
      { intros f m. rewrite <- !size_dom. by rewrite dom_alter_L. }
      rewrite Hal, Eh. unfold c0. cbn. by rewrite Hal.
    + unfold get_sess. cbn. unfold get_sess in Htold. by rewrite lookup_alter_eq, Htold.
Qed.
End closing.

(** ** The claims on an example *)

#[local] Existing Instance ex_env.
#[local] Existing Instance ex_auth_env.

Lemma c2s_tables_agree_witness : c2s_ok (exc_state exc_started).
Proof.
  apply (c2s_tables_agree ex_conf ex_hosts 3 0 Connected exc_started).
  - apply fair_runb_ok. vm_compute. reflexivity.
  - apply exc_reached. vm_compute. reflexivity.
Defined.

Lemma exc_state_ok evs : fair_runb exc_start evs = true →
  match c2s_run exc_start evs with Some _ => true | None => false end = true → c2s_ok (exc_state evs).
Proof. intros Hf Hr. apply (c2s_run_ok exc_start evs (c2s_new_ok _ _ _ _ _) (fair_runb_ok _ _ Hf)). by apply exc_reached. Qed.

Definition exc_grant : c2s_event :=
  EvRouterPacket (exc_session "started" "7" "s1" (exc_request 2 "ann@example.com/home") false) true true.
Lemma exc_grant_step : c2s_step (exc_state exc_asked) 3 exc_grant = Some (exc_state exc_started).
Proof. vm_compute. reflexivity. Qed.

Lemma active_needs_started_witness :
  ∃ n l l', exc_grant = EvRouterPacket n l l' ∧ nad_ename n 0 = tx "route" ∧ granted (exc_state exc_asked) n 0.
Proof.
  apply (active_needs_started (exc_state exc_asked) 3 exc_grant (exc_state exc_started) 0).
  - by intros.
  - apply exc_grant_step.
  - eexists. split; vm_compute; reflexivity.
  - intros (x & Hx & Ha). vm_compute in Hx. injection Hx as <-. by vm_compute in Ha.
Defined.

Lemma closing_releases_witness : ∃ c' ms,
  sx_kill (exc_state exc_started) 0 = Some c' ∧ length ms = 1 ∧
  c_out c' = c_out (exc_state exc_started) ++ (ORouter <$> ms) ++ [OClosed 0] ∧
  tmap (c_sessions c') !! "7" = None ∧ get_sess (c2s_reap c') 0 = None.
Proof.
  assert (c2s_ok (exc_state exc_started)) as Hok by (apply exc_state_ok; vm_compute; reflexivity).
  destruct (get_sess (exc_state exc_started) 0) as [x|] eqn:Hx; [|by vm_compute in Hx].
  assert (e_s x = Some (Stream 7 state_OPEN (Some "example.com") "id1" (Some "SASL/PLAIN") (Some "ann@example.com") 0 SX_SASL_OFFER) ∧
    e_fd x = Some 7%Z ∧ e_active x = true ∧ e_skey x = "7" ∧ length (e_resources x) = 1) as (Hs & Hfd & Ha & Hk & Hr).
  { vm_compute in Hx. injection Hx as <-. by vm_compute. }
  destruct (closing_releases (exc_state exc_started) 0 x _ 7 state_OPEN Hok ltac:(vm_compute; reflexivity) Hx Hs Hfd ltac:(vm_compute; reflexivity))
    as (c' & ms & E & _ & Hms & Ho & Ht & _ & Hg).
  exists c', ms. rewrite Ha in Ho. apply Forall2_length in Hms. split_and!; [done|lia|exact Ho| |done].
  rewrite Ht, Hk. apply lookup_delete_eq.
Defined.

(** ** A refused session *)

(** A session that is refused is not taken off the count of those that are bound, so that c2s
    stops later: in the example the client's first request is refused, the second is granted and then
    ended; the session stays active although it has no resource left, and the next stanza of the client
    fails the assertion that there is one, which ends the process. *)
Theorem refused_start_crashes :
  ∃ c x, c2s_run exc_start exc_ended = Some c ∧ c2s_ok c ∧
    get_sess c 0 = Some x ∧ e_active x = true ∧ e_resources x = [] ∧ e_bound x = 1%Z ∧
    c2s_step c 7 (EvPacket 0 (exc_chat None)) = None.
Proof.
  exists (exc_state exc_ended). destruct (get_sess (exc_state exc_ended) 0) as [x|] eqn:Hx; [|by vm_compute in Hx].
  exists x. split; [apply exc_reached; vm_compute; reflexivity|].
  split; [apply exc_state_ok; vm_compute; reflexivity|]. split; [done|].
  vm_compute in Hx. injection Hx as <-. split; [reflexivity|]. split; [reflexivity|]. split; [reflexivity|]. vm_compute. reflexivity.
Qed.
