(* ===== verification/C2sSays.v ===== *)
(** * What a client can make c2s say

    Of what goes to the router when a packet of a client comes in:
    [client_says] lists it.  Binding a resource and iq:auth name the account
    that was authenticated; checking a password goes by the file of users. *)
From S2P Require Import Prelude.
From S2P Require Import CStr.
From S2P Require Import DList.
From S2P Require Import Table.
From S2P Require Import Alist.
From S2P Require Import JQueue.
From S2P Require Import Rate.
From S2P Require Import Codec.
From S2P Require Import Access.
From S2P Require Import Jid.
From S2P Require Import Nad.
From S2P Require Import Stanza.
From S2P Require Import Lines.
From S2P Require Import Datetime.
From S2P Require Import Pkt.
From S2P Require Import SmRun.
From S2P Require Import C2s.
From S2P Require Import Authreg.
From S2P Require Import C2sClient.
From S2P Require Import C2sRouter.
From S2P Require Import C2sRun.
From S2P Require Import C2sInv.
From S2P Require Import C2sTop.
From S2P Require Import C2sExample.

(** ** What goes to the router *)

Section says.
Context {T : Type → Type} `{Table T} `{Env} `{AuthEnv}.
Notation c2s := (c2s T).
Implicit Types (c : c2s) (e : loc) (x : sess) (n m : nad).
Notation jid_of_id := (jid_new env_nodeprep env_nameprep env_resourceprep).

(** What goes to the router satisfies [Q]. *)
Definition says (Q : nad → Prop) c c' : Prop := ∃ o, c_out c' = c_out c ++ o ∧ ∀ m, ORouter m ∈ o → Q m.

(** Nothing goes to the router. *)
Notation mute := (says (λ _, False)).
Lemma says_refl Q c : says Q c c.
Proof. exists []. rewrite app_nil_r. split; [done|]. by intros m ?%elem_of_nil. Qed.
Lemma says_trans Q a b c : says Q a b → says Q b c → says Q a c.
Proof.
  intros (o1 & E1 & H1') (o2 & E2 & H2'). exists (o1 ++ o2). rewrite E2, E1, app_assoc. split; [done|].
  intros m [?|?]%elem_of_app; auto.
Qed.
Lemma says_mono (Q Q' : nad → Prop) c c' : (∀ m, Q m → Q' m) → says Q c c' → says Q' c c'.
Proof. intros HQ (o & E & Ho). exists o. split; [done|]. auto. Qed.
Lemma mute_r Q a b c : says Q a b → mute b c → says Q a c.
Proof. intros A B. eapply says_trans; [exact A|]. eapply says_mono, B; by intros. Qed.
Lemma mute_l Q a b c : mute a b → says Q b c → says Q a c.
Proof. intros A B. eapply says_trans; [|exact B]. eapply says_mono, A; by intros. Qed.
Lemma says_same_r Q a c c' : says Q a c → c_out c' = c_out c → says Q a c'.
Proof. intros (o & E & Ho) E'. exists o. by rewrite E'. Qed.
Lemma mute_same_r a c c' : mute a c → c_out c' = c_out c → mute a c'.
Proof. intros (o & E & Ho) E'. exists o. by rewrite E'. Qed.
Lemma mute_emit_r a c o : match o with ORouter _ => False | _ => True end → mute a c → mute a (emit o c).
Proof.
  intros Ho A. eapply mute_r; [exact A|]. exists [o]. split; [done|].
  intros m Hm%list_elem_of_singleton. by subst o.
Qed.
End says.
Notation mute := (says (λ _, False)).

Ltac mute_chain :=
  repeat first
    [ exact (says_refl _ _)
    | match goal with K : mute ?a ?b |- mute _ ?b => apply (mute_r _ _ a b); [|exact K]; clear K end
    | apply mute_emit_r; [exact I|]
    | lazymatch goal with |- mute _ (upd_sess _ _ ?c) => apply (mute_same_r _ c); [|reflexivity] end
    | lazymatch goal with |- mute _ (upd_stream _ _ ?c) => apply (mute_same_r _ c); [|reflexivity] end
    | lazymatch goal with |- mute _ (_ _ ?c) => apply (mute_same_r _ c); [|reflexivity] end
    | match goal with |- mute _ (match ?x with _ => _ end) => destruct x end ].
Ltac mute_tac :=
  intros; lazymatch goal with |- Spec _ _ => red | _ => idtac end;
  unfold ask_rand; cbv beta iota; repeat post_step; cbn [fst snd] in *; mute_chain.

Section client_says.
Context {T : Type → Type} `{Table T} `{Env} `{AuthEnv}.
Notation c2s := (c2s T).
Implicit Types (c : c2s) (e : loc) (x : sess) (n m : nad).
Notation jid_of_id := (jid_new env_nodeprep env_nameprep env_resourceprep).
Notation prepared := (prepared env_nodeprep env_nameprep env_resourceprep).

#[global] Instance nad_write_mute c e n : Spec (sx_nad_write c e n) (mute c).
Proof. unfold sx_nad_write. mute_tac. Qed.
#[global] Instance error_mute c e err t : Spec (sx_error c e err t) (mute c).
Proof. unfold sx_error. mute_tac. Qed.
#[global] Instance router_write_says c n : Spec (router_write c n) (says (eq n) c).
Proof.
  red. unfold router_write. repeat post_step. case_match; [apply says_refl|]. exists [ORouter n]. split; [done|].
  by intros m [= ->]%list_elem_of_singleton.
Qed.
#[global] Instance auth_error_mute c e n err : Spec (auth_error c e n err) (mute c).
Proof. unfold auth_error. mute_tac. Qed.
#[global] Instance client_refuse_mute c e n err : Spec (client_refuse c e n err) (mute c).
Proof. unfold client_refuse. mute_tac. Qed.
#[global] Instance auth_get_mute c e n : Spec (_authreg_auth_get c e n) (mute c).
Proof. unfold _authreg_auth_get. mute_tac. Qed.
#[global] Instance random_resource_mute c j : Spec (random_resource c j) (λ r, mute c r.1).
Proof. unfold random_resource. mute_tac. Qed.
#[global] Instance sm_end_says c sc b : Spec (sm_end c sc b) (says (λ m, _sm_build_route sc b "end" None None = Some m) c).
Proof. red. unfold sm_end. repeat post_step. eapply says_mono; [|eassumption]. by intros m <-. Qed.
#[global] Instance sm_packet_says c sc b n : Spec (sm_packet c sc b n) (says (λ m, packet_route sc b n = Some m) c).
Proof. red. unfold sm_packet. repeat post_step. eapply says_mono; [|eassumption]. by intros m <-. Qed.

(** The request for the session of a resource. *)
Definition start_route (sc : option string) (b : bres) (m : nad) : Prop :=
  ∃ j, b_jid b = Some j ∧ _sm_build_route sc b "start" (jid_full j).2 (Some (b_sm_request b)) = Some m.
#[global] Instance sm_start_says c sc b now :
  Spec (sm_start c sc b now) (λ r, says (start_route sc r.2) c r.1 ∧ b_jid r.2 = b_jid b ∧ b_c2s_id r.2 = b_c2s_id b).
Proof.
  red. unfold sm_start, _sm_generate_id. repeat post_step. cbn [fst snd]. split_and!; [|done..].
  eapply says_mono; [|eassumption]. intros m <-. eexists. split; [eassumption|done].
Qed.

(** A session that is not active goes without a word. *)
Lemma sx_close_mute c e : (∀ x, get_sess c e = Some x → e_active x = false) → post (sx_close c e) (mute c).
Proof.
  intros Ha. unfold sx_close, client_event_closed, client_action_close. repeat post_step; try (mute_chain; fail).
  exfalso. match goal with A : get_sess (upd_stream _ _ c) _ = Some ?x, B : e_active ?x = true |- _ => revert A B end.
  unfold get_sess. cbn. rewrite lookup_alter_eq. intros (y & Hy & ->)%fmap_Some. cbn. by rewrite (Ha _ Hy).
Qed.

(** *** The account of a jid *)

Definition account (n d : string) (j : jid) : Prop := jid_node j = n ∧ jid_domain j = d.
Definition res_account (n d : string) (r : jres) : Prop := match r with JOk j | JFail j => account n d j | JBadFree => True end.
Lemma prep_account (n d : string) j : prepared n d "" → account n d j → res_account n d (jid_prep env_nodeprep env_nameprep env_resourceprep j).
Proof.
  intros [Hn Hd _ (L1 & L2 & _)] [En Ed]. unfold jid_prep, jid_prep_pieces, reset_components_raw.
  rewrite En, Ed, (stake_ge MAXLEN_JID_COMP n), (stake_ge MAXLEN_JID_COMP d) by done.
  assert ((if bool_decide (n = "") then Some n else env_nodeprep n) = Some n) as ->.
  { case_bool_decide; [done|]. by destruct Hn. }
  rewrite Hd. cbn [mbind option_bind]. destruct (if bool_decide _ then _ else _) as [r|]; cbn [mbind option_bind]; [|done].
  destruct (reset_buf _ _); [|done]. split; cbn [jid_node jid_domain]; by rewrite stake_ge.
Qed.
Lemma reset_account (n d : string) j r : prepared n d "" → res_account n d (jid_reset_components env_nodeprep env_nameprep env_resourceprep j n d r).
Proof.
  intros Hp. pose proof Hp as [_ _ _ (L1 & L2 & _)]. unfold jid_reset_components, reset_components_raw.
  destruct (reset_buf _ _) as [buf|]; [|done]. rewrite (stake_ge MAXLEN_JID_COMP n), (stake_ge MAXLEN_JID_COMP d) by done.
  match goal with |- context [jid_prep _ _ _ ?j0] => pose proof (prep_account n d j0 Hp) as A end.
  destruct (jid_prep _ _ _ _); try done; by apply A.
Qed.
Lemma random_account (n d : string) c j : prepared n d "" → account n d j → post (random_resource c j) (λ r, account n d r.2).
Proof.
  intros Hp [En Ed]. unfold random_resource, ask_rand, jid_random_part. rewrite En, Ed.
  match goal with |- context [jid_reset_components _ _ _ j n d ?r] => pose proof (reset_account n d j r Hp) as A;
    destruct (jid_reset_components _ _ _ j n d r) as [j1|j1|] end; [| |by apply post_none].
  all: pose proof (prep_account n d j1 Hp A) as B; destruct (jid_prep _ _ _ j1); by intros ? [= <-].
Qed.
Lemma distinct_account (n d : string) c j bs : prepared n d "" → account n d j →
  post (distinct_resources (c, j) bs) (λ r, mute c r.1 ∧ account n d r.2).
Proof.
  intros Hp. revert c j. induction bs as [|b bs IH]; intros c j Hj; cbn [distinct_resources].
  { apply post_ret. split; [apply says_refl|done]. }
  apply post_bind. unfold distinct_resource. apply post_bind. intros j' _. case_match; [|by apply post_ret, IH].
  intros [c1 j1] Hr. pose proof (random_account n d c j Hp Hj _ Hr) as Hj1. pose proof (random_resource_mute c j _ Hr) as Hm.
  cbn [fst snd] in *. eapply post_mono; [by apply IH|]. intros [c2 j2] [Hm2 Hj2]. cbn [fst snd] in *. split; [mute_chain|done].
Qed.
(** The jid that is bound is of the account that was authenticated. *)
Lemma bind_jid_account c x s n ns elem :
  (∀ j, jid_of_id (x_auth_id s) (-1) = Some j → prepared (jid_node j) (jid_domain j) "") →
  post (bind_jid c x s n ns elem) (λ r, match r with inl c1 => mute c c1 | inr (c1, j') => mute c c1 ∧
    ∃ j, jid_of_id (x_auth_id s) (-1) = Some j ∧ account (jid_node j) (jid_domain j) j' end).
Proof.
  intros Hp. unfold bind_jid. destruct (jid_of_id (x_auth_id s) (-1)) as [j|] eqn:Ej.
  2: { repeat case_match; cbn; repeat post_step; try apply says_refl. }
  specialize (Hp j eq_refl). destruct (0 <=? _)%Z.
  - destruct (_ =? 0)%Z; [apply post_ret, says_refl|].
    match goal with |- context [jid_reset_components _ _ _ j _ _ ?r] => pose proof (reset_account _ _ j r Hp) as A;
      destruct (jid_reset_components _ _ _ j _ _ r) as [j1|j1|] end; [|apply post_ret, says_refl|apply post_none].
    apply post_bind. eapply post_mono; [by apply (distinct_account _ _ c j1 _ Hp)|]. intros [c1 j'] [Hm Hj]. apply post_ret. eauto.
  - cbn. apply post_bind. intros [c1 j'] Hr. apply post_ret.
    pose proof (random_account _ _ c j Hp (conj eq_refl eq_refl) _ Hr) as Hj. pose proof (random_resource_mute c j _ Hr) as Hm. eauto.
Qed.

(** *** The claim *)

(** What a packet [n] of the session [x] can make c2s tell the router. *)
Inductive client_says (conf : cconf T) x n m : Prop :=
  | says_stanza b : e_active x = true → b ∈ e_resources x → packet_route (e_smcomp x) b n = Some m → client_says conf x n m
  | says_bind s id j j' b : e_s x = Some s → x_auth_id s = Some id → jid_of_id (Some id) (-1) = Some j →
      b_jid b = Some j' → account (jid_node j) (jid_domain j) j' → b_c2s_id b = fmt_d (x_tag s) →
      start_route (e_smcomp x) b m → client_says conf x n m
  | says_bind_nobody s j' b : e_s x = Some s → x_auth_id s = None →
      b_jid b = Some j' → account "" "" j' → b_c2s_id b = fmt_d (x_tag s) →
      start_route (e_smcomp x) b m → client_says conf x n m
  | says_unbind b : b ∈ e_resources x → _sm_build_route (e_smcomp x) b "end" None None = Some m → client_says conf x n m
  | says_auth s username resource j j' b : e_s x = Some s → e_active x = false → e_sasl_authd x = false →
      authenticated conf x s (mechanisms conf s) n (nad_find_scoped_namespace n uri_AUTH None) username = Some true →
      jid_of_id (x_req_to s) (-1) = Some j → reset_components j username (jid_domain j) resource = Some j' →
      b_jid b = Some j' → b_c2s_id b = fmt_d (x_tag s) →
      start_route (e_smcomp x) b m → client_says conf x n m.

Lemma client_bind_says c e n ns elem now x :
  get_sess c e = Some x →
  (∀ s j, e_s x = Some s → jid_of_id (x_auth_id s) (-1) = Some j → prepared (jid_node j) (jid_domain j) "") →
  post (client_bind c e n ns elem now) (says (client_says (c_conf c) x n) c).
Proof.
  intros Hx Hp. unfold client_bind. rewrite Hx. cbn [mbind option_bind].
  destruct (e_s x) as [s|] eqn:Es; cbn [mbind option_bind]; [|apply post_none].
  apply post_bind. eapply post_mono; [apply bind_jid_account; intros j; by apply Hp|]. intros [c1|[c1 j']].
  - intros Hm. repeat post_step. eapply mute_l; [exact Hm|]. eapply says_mono; [|eassumption]. by intros.
  - intros (Hm & j & Hj & Ha). repeat post_step. cbn [fst snd] in *.
    match goal with K : _ ∧ _ ∧ _ |- _ => destruct K as (K1 & Kj & Kid) end. cbn [b_jid b_c2s_id] in *.
    eapply says_same_r; [|reflexivity]. eapply mute_l; [exact Hm|]. eapply says_mono; [|exact K1].
    intros m Hst. destruct (x_auth_id s) as [id|] eqn:Eid; [by eapply says_bind|]. cbn in Hj. injection Hj as <-.
    by eapply says_bind_nobody.
Qed.
Lemma client_unbind_says c e n ns elem x : get_sess c e = Some x →
  post (client_unbind c e n ns elem) (says (client_says (c_conf c) x n) c).
Proof.
  intros Hx. unfold client_unbind. rewrite Hx. cbn [mbind option_bind]. repeat post_step.
  all: try (eapply says_mono; [|eassumption]; by intros).
  assert (b ∈ e_resources x) as Hb.
  { match goal with A : bound_resource _ _ = Some (Some b) |- _ => revert A end. clear.
    induction (e_resources x) as [|b0 bs IH]; cbn [bound_resource]; [done|]. intros (j & _ & E)%bind_Some.
    destruct (_ =? 0)%Z; [injection E as ->; by left|right; by apply IH]. }
  eapply says_same_r; [|reflexivity]. eapply says_mono; [|eassumption]. intros m Hm. by eapply says_unbind.
Qed.
Lemma sender_resource_in v bs b : sender_resource v bs = Some (Some b) → b ∈ bs.
Proof.
  induction bs as [|b0 bs IH]; cbn [sender_resource]; [done|]. intros (j & _ & E)%bind_Some. apply bind_Some in E as (full & _ & E).
  destruct (strncmp_eq _ _ _); [injection E as ->; by left|right; by apply IH].
Qed.
Lemma validate_from_in x n b : validate_from x n = Some (Some b) → b ∈ e_resources x.
Proof.
  unfold validate_from. destruct (e_resources x) as [|b0 bs]; [done|]. destruct (_ <? _)%Z; [|intros [= ->]; by left].
  destruct (attr_of n 0 "from"); [apply sender_resource_in|done].
Qed.
Lemma client_stanza_says c e n x : get_sess c e = Some x →
  post (client_stanza c e n) (says (client_says (c_conf c) x n) c).
Proof.
  intros Hx. unfold client_stanza. rewrite Hx. cbn [mbind option_bind]. destruct (e_active x) eqn:Ea; cbn [negb].
  - repeat post_step.
    + match goal with A : validate_from _ _ = _ |- _ => apply validate_from_in in A end.
      eapply says_mono; [|eassumption]. intros m Hm. by eapply says_stanza.
    + eapply says_mono; [|eassumption]. by intros.
  - apply post_bind. intros c1 E1. pose proof (error_mute _ _ _ _ _ E1) as Hm.
    assert (get_sess c1 e = Some x) as Hx1. { revert E1. unfold sx_error. intros (? & _ & [= <-])%bind_Some. done. }
    eapply post_mono; [apply sx_close_mute; intros y Hy; congruence|]. intros c2 Hm2.
    eapply mute_l; [exact Hm|]. eapply says_mono; [|exact Hm2]. by intros.
Qed.

Lemma auth_session_says c e x s n username resource now :
  e_s x = Some s → e_active x = false → e_sasl_authd x = false →
  authenticated (c_conf c) x s (mechanisms (c_conf c) s) n (nad_find_scoped_namespace n uri_AUTH None) username = Some true →
  post (auth_session c e x s n username resource now) (says (client_says (c_conf c) x n) c).
Proof.
  intros Hs Ha Hsa Hau. unfold auth_session. destruct (e_resources x) as [|b0 bs]; repeat post_step; cbn [fst snd] in *;
    match goal with K : _ ∧ _ ∧ _ |- _ => destruct K as (K1 & Kj & Kid) end; cbn [b_jid b_c2s_id with_b_jid with_b_c2s_id] in *;
    (eapply says_same_r; [|reflexivity]); (eapply says_mono; [|exact K1]); intros m Hst; by eapply says_auth.
Qed.
Lemma auth_set_says c e n now x : get_sess c e = Some x → e_sasl_authd x = false →
  post (_authreg_auth_set c e n now) (says (client_says (c_conf c) x n) c).
Proof.
  intros Hx Hsa. unfold _authreg_auth_set. rewrite Hx. cbn [mbind option_bind]. destruct (e_active x) eqn:Ea.
  { eapply post_mono; [apply spec|]. intros c1. apply says_mono. by intros. }
  repeat (match goal with |- post (auth_session _ _ _ _ _ _ _ _) _ => fail 1 | _ => post_step end).
  all: try (by eapply says_mono; [|eassumption]; intros).
  by apply auth_session_says.
Qed.
Lemma authreg_process_says c e n now x : get_sess c e = Some x →
  post (authreg_process c e n now) (λ r, says (client_says (c_conf c) x n) c r.1 ∧ (r.2 = false → r.1 = c)).
Proof.
  intros Hx. unfold authreg_process. rewrite Hx.
  repeat (match goal with |- post (_authreg_auth_set _ _ _ _) _ => fail 1 | _ => post_step end); cbn [fst snd].
  all: try (split; [apply says_refl|done]).
  all: try (split; [eapply says_mono; [|eassumption]; by intros|done]).
  eapply post_mono; [by apply (auth_set_says c e n now x)|]. intros c1 Hs. apply post_ret. by split.
Qed.

(** The counters and the limits change nothing that matters here. *)
Lemma counted_sess c e x now : get_sess c e = Some x →
  ∃ x', get_sess (stanza_rate_check (count_packet c e) e now) e = Some x' ∧
    e_active x' = e_active x ∧ e_resources x' = e_resources x ∧ e_smcomp x' = e_smcomp x ∧ e_s x' = e_s x ∧
    e_host x' = e_host x ∧ e_sasl_authd x' = e_sasl_authd x.
Proof.
  unfold get_sess. intros Hx. unfold stanza_rate_check, count_packet. cbn. rewrite lookup_alter_eq, lookup_alter_eq, Hx. cbn.
  eexists. split; [done|]. destruct (e_stanza_rate x) as [rt|]; [|done]. by destruct (rate_check rt now) as [rt' []].
Qed.
Lemma client_says_ext conf x x' n m :
  e_active x' = e_active x → e_resources x' = e_resources x → e_smcomp x' = e_smcomp x → e_s x' = e_s x →
  e_host x' = e_host x → e_sasl_authd x' = e_sasl_authd x → client_says conf x' n m → client_says conf x n m.
Proof.
  intros E1 E2 E3 E4 E5 E6 [b A B C|s id j j' b A B C D F G I|s j' b A B C D F G|b A B|s u r j j' b A B C D F G I J K].
  - apply (says_stanza _ _ _ _ b); congruence.
  - apply (says_bind _ _ _ _ s id j j' b); try congruence.
  - apply (says_bind_nobody _ _ _ _ s j' b); try congruence.
  - apply (says_unbind _ _ _ _ b); congruence.
  - apply (says_auth _ _ _ _ s u r j j' b); try congruence. rewrite <- D.
    unfold authenticated, digest_auth, plain_compare, plain_check, _authreg_auth_log. by rewrite E5.
Qed.

(** C9: what a packet of a client makes c2s tell the router is one of five things: the packet itself,
    when the session is active, under the ids of one of the session's own resources; the request for a
    session with the node and domain that SASL authenticated, whatever the client asks to bind, under the
    session's own id; the same for a client that nothing authenticated, with neither node nor domain (which
    the code lets through); the end of one of the session's own resources; or the request for a session
    of a user whose password was checked just now, the session not being active.  In particular no stanza that a
    client sends before its session is active is passed on.  The profiles leave the authenticated jid as
    it is when they are applied again. *)
Theorem client_speaks_for_itself c e n now c' x :
  get_sess c e = Some x →
  (∀ s j, e_s x = Some s → jid_of_id (x_auth_id s) (-1) = Some j → prepared (jid_node j) (jid_domain j) "") →
  client_event_packet c e n now = Some c' →
  ∃ o, c_out c' = c_out c ++ o ∧ ∀ m, ORouter m ∈ o → client_says (c_conf c) x n m.
Proof.
  intros Hx Hp. revert c'. change (post (client_event_packet c e n now) (says (client_says (c_conf c) x n) c)).
  destruct (counted_sess c e x now Hx) as (x' & Hx' & E1 & E2 & E3 & E4 & E5 & E6). unfold client_event_packet. rewrite Hx. cbn [mbind option_bind].
  assert (c_out (stanza_rate_check (count_packet c e) e now) = c_out c) as Eo by done.
  assert (c_conf (stanza_rate_check (count_packet c e) e now) = c_conf c) as Ec by done.
  generalize dependent (stanza_rate_check (count_packet c e) e now). intros c0 Hx' Eo Ec.
  assert (∀ r, post r (says (client_says (c_conf c0) x' n) c0) → post r (says (client_says (c_conf c) x n) c)) as Hext.
  { intros r Hr. eapply post_mono; [exact Hr|]. intros c1 (o & Eo1 & Ho). exists o. rewrite <- Eo, <- Ec. split; [done|].
    intros m Hm. apply (client_says_ext _ x x'); auto. }
  cbv zeta. apply Hext. clear Hext.
  destruct (negb (is_stanza n)); [apply post_ret, says_refl|].
  destruct (bind_request n "bind") as [[ns el]|].
  { apply (client_bind_says c0 e n ns el now x'); [done|]. intros s j. rewrite E4. apply Hp. }
  destruct (bind_request n "unbind") as [[ns el]|]; [by apply client_unbind_says|].
  rewrite Hx'. cbn [mbind option_bind]. match goal with |- post (if ?b then _ else _) _ => destruct b eqn:Eb end.
  { apply post_bind. intros c1 F1. pose proof (error_mute _ _ _ _ _ F1) as Hm.
    assert (get_sess c1 e = Some x') as Hx1. { revert F1. unfold sx_error. intros (? & _ & [= <-])%bind_Some. done. }
    eapply post_mono; [apply sx_close_mute|].
    - intros y Hy. assert (y = x') as -> by congruence. by destruct (e_active x').
    - intros c2 Hm2. eapply mute_l; [exact Hm|]. eapply says_mono; [|exact Hm2]. by intros. }
  apply post_bind. intros s _. match goal with |- post (if ?b then _ else _) _ => destruct b end.
  { eapply post_mono; [apply spec|]. intros c1. apply says_mono. by intros. }
  apply post_bind. eapply post_mono; [by apply (authreg_process_says c0 e n now x')|]. intros [c1 handled] [Hs He]. cbn [fst snd] in *.
  destruct handled; [by apply post_ret|]. rewrite He in Hs |- * by done. by apply client_stanza_says.
Qed.
End client_says.

(** ** Passwords *)

Lemma find_user_first u lines pw : find_user u lines = Some pw ↔
  ∃ before line after, lines = before ++ line :: after ∧ user_line line = Some (u, pw) ∧
    Forall (λ l, ∀ p, user_line l ≠ Some (u, p)) before.
Proof.
  induction lines as [|l lines IH]; cbn [find_user].
  { split; [done|]. by intros ([|] & ? & ? & ? & _). }
  destruct (user_line l) as [[login p]|] eqn:El; [case_bool_decide as Eu|].
  - subst login. split.
    + intros [= ->]. exists [], l, lines. split_and!; [done..|constructor].
    + intros ([|l' before] & line & after & E & Hl & Hb); [naive_solver|]. injection E as -> ->.
      apply Forall_cons in Hb as [Hb _]. by destruct (Hb p).
  - rewrite IH. split.
    + intros (before & line & after & -> & Hl & Hb). exists (l :: before), line, after. split_and!; [done..|].
      constructor; [|done]. rewrite El. intros p' [= ? ?]. done.
    + intros ([|l' before] & line & after & E & Hl & Hb); [naive_solver|]. injection E as -> ->.
      apply Forall_cons in Hb as [_ Hb]. eauto 10.
  - rewrite IH. split.
    + intros (before & line & after & -> & Hl & Hb). exists (l :: before), line, after. split_and!; [done..|].
      constructor; [|done]. by rewrite El.
    + intros ([|l' before] & line & after & E & Hl & Hb); [naive_solver|]. injection E as -> ->.
      apply Forall_cons in Hb as [_ Hb]. eauto 10.
Qed.

Section secrets.
Context {T : Type → Type} `{Table T} `{Env} `{AuthEnv}.
Implicit Types (x : sess) (n : nad) (conf : cconf T).

(** Does a password match what is stored? *)
Definition matches conf (username : string) (realm : option string) (password stored : string) : Prop :=
  match cf_password_type conf with
  | MPC_PLAIN => strcmp password stored = 0%Z
  | MPC_CRYPT => ∃ h, ae_crypt password stored = Some h ∧ strcmp h stored = 0%Z
  | MPC_A1HASH => ∃ r, realm = Some r ∧ has_colon username = false ∧ has_colon r = false ∧
      strncmp_eq 32 (calc_a1hash username r password) stored = true
  end.
Lemma check_password_matches conf username realm password :
  authreg_check_password conf username realm password = Some true →
  ∃ stored, authreg_get_password conf username = Some stored ∧ matches conf username realm password stored.
Proof.
  unfold authreg_check_password, matches. destruct (authreg_get_password conf username) as [stored|]; [|done]. intros E. exists stored. split; [done|].
  destruct (cf_password_type conf).
  - injection E as E. by apply Z.eqb_eq.
  - apply bind_Some in E as (h & Eh & [= E]). exists h. split; [done|]. by apply Z.eqb_eq.
  - destruct (has_colon username); [done|]. apply bind_Some in E as (r & Er & E). exists r.
    destruct (has_colon r); [done|]. by injection E as E.
Qed.

(** The secret in the request: a digest of the stream id and the password, or a password. *)
Definition secret_in conf x (s : stream) (mechs : Z) n (ns : Z) (username stored : string) : Prop :=
  (has mechs AR_MECH_TRAD_DIGEST = true ∧ ∃ el, child_elem n 1 ns "digest" = Some el ∧
     nad_cdata n el = tx (shahash_r (snprint 280 (x_id s +:+ stored)))) ∨
  (has mechs AR_MECH_TRAD_PLAIN = true ∧ ∃ el, child_elem n 1 ns "password" = Some el ∧
     (nad_cdata n el = tx stored ∨
      ∃ h, e_host x = Some h ∧ matches conf username (ho_realm h) (cdata_buf 1024 n el) stored)).

(** C15: no one gets in by iq:auth without the user's secret.  When the request is found good, there is
    a line in the file of users that is the first with the user's name, and the request holds, in a way
    that the configuration allows for the stream, the digest of the stream's id and that line's
    password, or a password that matches it by the type that is configured, or the very text of the
    line, whatever the type. *)
Theorem auth_needs_secret conf x (s : stream) mechs n ns username :
  authenticated conf x s mechs n ns username = Some true →
  ∃ filename file before line after stored,
    cf_authreg_filename conf = Some filename ∧ ae_file filename = Some file ∧
    fgets_lines (PLAIN_MAX_INDENT + PLAIN_LU + 1 + PLAIN_LP + 8) file = before ++ line :: after ∧
    user_line line = Some (username, stored) ∧ Forall (λ l, ∀ p, user_line l ≠ Some (username, p)) before ∧
    secret_in conf x s mechs n ns username stored.
Proof.
  intros E. assert (∃ stored, authreg_get_password conf username = Some stored ∧ secret_in conf x s mechs n ns username stored) as (stored & Hpw & Hs).
  { unfold authenticated, or_else in E. apply bind_Some in E as ([] & Ed & E).
    - unfold digest_auth in Ed. destruct (has mechs AR_MECH_TRAD_DIGEST) eqn:Hm; [cbn [negb] in Ed|done].
      destruct (child_elem n 1 ns "digest") as [el|] eqn:Eel; [|done]. destruct (authreg_get_password conf username) as [pw|]; [|done].
      apply bind_Some in Ed as (h & _ & [= Ed]). exists pw. split; [done|]. left. split; [done|]. exists el. split; [done|].
      by apply bool_decide_eq_true in Ed.
    - clear Ed. apply bind_Some in E as ([] & Ep & E).
      + unfold plain_compare in Ep. destruct (has mechs AR_MECH_TRAD_PLAIN) eqn:Hm; [cbn [negb] in Ep|done].
        destruct (child_elem n 1 ns "password") as [el|] eqn:Eel; [|done]. apply bind_Some in Ep as (h & _ & [= Ep]).
        destruct (authreg_get_password conf username) as [pw|]; [|done]. exists pw. split; [done|]. right. split; [done|].
        exists el. split; [done|]. left. by apply bool_decide_eq_true in Ep.
      + unfold plain_check in E. destruct (has mechs AR_MECH_TRAD_PLAIN) eqn:Hm; [cbn [negb] in E|done].
        destruct (child_elem n 1 ns "password") as [el|] eqn:Eel; [|done]. apply bind_Some in E as (h & Eh & E).
        apply bind_Some in E as (ok & Eok & E). apply bind_Some in E as (? & _ & [= ->]).
        apply check_password_matches in Eok as (pw & Epw & Hok). exists pw. split; [done|]. right. split; [done|].
        exists el. split; [done|]. right. by exists h. }
  unfold authreg_get_password, _ar_plain_lookup in Hpw. apply bind_Some in Hpw as (filename & Efn & Hpw).
  apply bind_Some in Hpw as (file & Efile & Hpw). apply find_user_first in Hpw as (before & line & after & El & Hl & Hb).
  by exists filename, file, before, line, after, stored.
Qed.
End secrets.

(** ** The claims on an example *)

#[local] Existing Instance ex_env.
#[local] Existing Instance ex_auth_env.

(** A stanza of ann, whose session has started. *)
Definition exc_sess : sess := match get_sess (exc_state exc_started) 0 with Some x => x | None => Sess None "" None "" 0 None None None false None false 0 0 0 [] false None false end.
Definition exc_said : c2s alist := default exc_start (client_event_packet (exc_state exc_started) 0 (exc_chat None) 4).
Lemma client_speaks_for_itself_witness :
  ∃ o, c_out exc_said = c_out (exc_state exc_started) ++ o ∧ length o = 1 ∧
    ∀ m, ORouter m ∈ o → client_says (c_conf (exc_state exc_started)) exc_sess (exc_chat None) m.
Proof.
  destruct (client_speaks_for_itself (exc_state exc_started) 0 (exc_chat None) 4 exc_said exc_sess) as (o & Eo & Ho).
  - vm_compute. reflexivity.
  - intros s j Hs Hj. vm_compute in Hs. injection Hs as <-. vm_compute in Hj. injection Hj as <-.
    split; [by right|done|by left|vm_compute; lia].
  - vm_compute. reflexivity.
  - exists o. split; [done|]. split; [|done].
    assert (o = drop (length (c_out (exc_state exc_started))) (c_out exc_said)) as -> by (by rewrite Eo, drop_app_length).
    vm_compute. reflexivity.
Defined.

Lemma auth_needs_secret_witness :
  ∃ before line after, ex_users = concat (before ++ line :: after) ∧ user_line line = Some ("bob", "hunter2").
Proof.
  set (x := with_e_host (Some (Host (Some "example.com") None false)) exc_sess).
  set (s := Stream 7 state_OPEN (Some "example.com") "id1" None None 0 0).
  destruct (auth_needs_secret ex_conf x s (mechanisms ex_conf s) (exc_auth "set" "bob" "hunter2")
    (nad_find_scoped_namespace (exc_auth "set" "bob" "hunter2") uri_AUTH None) "bob")
    as (fn & file & before & line & after & stored & Efn & Ef & El & Hl & Hb & Hs).
  - vm_compute. reflexivity.
  - exists before, line, after. injection Efn as <-. injection Ef as <-. rewrite <- El. split; [vm_compute; reflexivity|].
    assert (authreg_get_password ex_conf "bob" = Some stored) as Hpw.
    { unfold authreg_get_password, _ar_plain_lookup. cbn. apply find_user_first. by exists before, line, after. }
    rewrite Hl. vm_compute in Hpw. by injection Hpw as <-.
Defined.
