(* ===== verification/Websocket.v ===== *)
(** * WebSocket: sx/websocket.c

    The frames of RFC 6455 on a stream: reading them byte by byte with what is
    copied at once, writing them, and the HTTP handshake before.  The HTTP
    parser is a parameter: what it calls back and what it finds.  Bytes are
    numbers; what goes to the stream is in [w_out].  [None]: a write or a read
    outside a buffer, or an overflow of an [int]. *)
From S2P Require Import Prelude.
From S2P Require Import CStr.
From S2P Require Import Str.
From S2P Require Import Codec.
From S2P Require Import Nad.
From S2P Require Import Filter.
From S2P Require Import Stanza.
From S2P Require Import Table.
From S2P Require Import Datetime.
From S2P Require Import Pkt.

Definition MASK_LENGTH : nat := 4.
Definition FRAME_CHUNK_LENGTH : Z := 1024.
Definition WS_OPCODE_CONTINUE : Z := 0.
Definition WS_OPCODE_TEXT : Z := 1.
Definition WS_OPCODE_CLOSE : Z := 8.
Definition WS_OPCODE_PING : Z := 9.
Definition WS_OPCODE_PONG : Z := 10.
Definition WS_FRAGMENT_FIN : Z := 128.
Definition WS_CLOSE_NORMAL : Z := 1000.
Definition WS_CLOSE_PROTOCOL_ERROR : Z := 1002.
Definition WS_CLOSE_UNEXPECTED_ERROR : Z := 1011.

(** ** Data *)

(** [enum WS_FRAME_STATE] *)
Inductive ws_frame_state := sw_start | sw_got_two | sw_got_short_len | sw_got_full_len | sw_loaded_mask.

(** [libwebsock_frame]; [f_raw] is what is written of [rawdata], its length [rawdata_idx]. *)
Record ws_frame := WsFrame {
  f_fin : bool;
  f_opcode : Z;
  f_mask_offset : Z;
  f_payload_offset : Z;
  f_raw : list Z;
  f_rawdata_sz : Z;
  f_size : Z;
  f_len_short : Z;
  f_payload_len : Z;
  f_mask : list Z;
  f_state : ws_frame_state
}.
Definition frame_new : ws_frame := WsFrame false 0 0 0 [] FRAME_CHUNK_LENGTH 0 0 (2 ^ 32 - 1) [0; 0; 0; 0]%Z sw_start.
Definition with_raw (x : list Z) (f : ws_frame) : ws_frame :=
  WsFrame (f_fin f) (f_opcode f) (f_mask_offset f) (f_payload_offset f) x (f_rawdata_sz f) (f_size f) (f_len_short f) (f_payload_len f) (f_mask f) (f_state f).

(** [_sx_websocket_state_t] *)
Inductive ws_state := websocket_PRE | websocket_HEADERS | websocket_ACTIVE | websocket_CLOSING.

(** What is done to the stream. *)
Inductive ws_out :=
  | WsPush (data : list Z)                     (* a buffer in the write queue *)
  | WsWantWrite | WsWantRead
  | WsHttp (status headers : string)           (* an HTTP answer in the write queue *)
  | WsError (err : Z) (text : string)          (* sx_error *)
  | WsClose.                                   (* sx_close *)

(** ** The header of a frame *)

Definition raw_at (f : ws_frame) (i : nat) : Z := nth i (f_raw f) 0%Z.
Definition raw_idx (f : ws_frame) : Z := Z.of_nat (length (f_raw f)).
(** [ntohs] and [ntohl] of what is at an offset. *)
Definition be16 (f : ws_frame) (i : nat) : Z := (raw_at f i * 256 + raw_at f (i + 1))%Z.
Definition be32 (f : ws_frame) (i : nat) : Z := (be16 f i * 65536 + be16 f (i + 2))%Z.

(** The next power of two, computed in an [int]; [None] when it overflows or [realloc] is given 0. *)
Definition ws_round_up (size : Z) : option Z :=
  let n := int32 size in
  if (n =? - 2 ^ 31)%Z then None
  else
    let n := (n - 1)%Z in
    let n := Z.lor n (Z.shiftr n 1) in
    let n := Z.lor n (Z.shiftr n 2) in
    let n := Z.lor n (Z.shiftr n 4) in
    let n := Z.lor n (Z.shiftr n 8) in
    let n := Z.lor n (Z.shiftr n 16) in
    if (n =? 2 ^ 31 - 1)%Z then None else if (n + 1 <=? 0)%Z then None else Some (n + 1)%Z.

(** [libwebsock_read_header], from each of the states on; the flag is the value returned. *)
Definition read_full_len (f : ws_frame) : option (ws_frame * bool) :=
  let f := WsFrame (f_fin f) (f_opcode f) (f_mask_offset f) (f_payload_offset f) (f_raw f) (f_rawdata_sz f) (f_size f) (f_len_short f) (f_payload_len f) (f_mask f) sw_got_full_len in
  if (raw_idx f <? f_payload_offset f)%Z then Some (f, false)
  else
    let mask := (λ i, raw_at f (Z.to_nat (f_mask_offset f) + i)) <$> seq 0 MASK_LENGTH in
    let size := ((f_payload_offset f + f_payload_len f) `mod` 2 ^ 32)%Z in
    sz ← (if (f_rawdata_sz f <? size)%Z then ws_round_up size else Some (f_rawdata_sz f));
    Some (WsFrame (f_fin f) (f_opcode f) (f_mask_offset f) (f_payload_offset f) (f_raw f) sz size (f_len_short f) (f_payload_len f) mask sw_loaded_mask, true).
(** The length is known: the mask is [ext] bytes further. *)
Definition with_full_len (f : ws_frame) (ext len : Z) : ws_frame :=
  WsFrame (f_fin f) (f_opcode f) (f_mask_offset f + ext) (f_mask_offset f + ext + Z.of_nat MASK_LENGTH) (f_raw f) (f_rawdata_sz f) (f_size f) (f_len_short f) len (f_mask f) sw_got_full_len.
Definition read_short_len (f : ws_frame) : option (ws_frame * bool) :=
  if (f_len_short f =? 126)%Z then
    if (raw_idx f <? 4)%Z then Some (f, false) else read_full_len (with_full_len f 2 (be16 f 2))
  else if (f_len_short f =? 127)%Z then
    if (raw_idx f <? 10)%Z then Some (f, false) else read_full_len (with_full_len f 8 (be32 f 6))
  else read_full_len (with_full_len f 0 (f_len_short f)).
Definition read_two (f : ws_frame) : option (ws_frame * bool) :=
  read_short_len (WsFrame (Z.land (raw_at f 0) 128 =? 128)%Z (Z.land (raw_at f 0) 15) 2 (f_payload_offset f) (f_raw f) (f_rawdata_sz f) (f_size f)
    (Z.land (raw_at f 1) 127) (f_payload_len f) (f_mask f) sw_got_short_len).
Definition libwebsock_read_header (f : ws_frame) : option (ws_frame * bool) :=
  match f_state f with
  | sw_start => if (raw_idx f <? 2)%Z then Some (f, false) else read_two f
  | sw_got_two => read_two f
  | sw_got_short_len => read_short_len f
  | sw_got_full_len => read_full_len f
  | sw_loaded_mask => Some (f, true)
  end.

(** ** Writing frames *)

Definition bytes16 (z : Z) : list Z := [(z / 256) `mod` 256; z `mod` 256]%Z.
Definition bytes32 (z : Z) : list Z := bytes16 (z / 65536) ++ bytes16 z.

Definition libwebsock_fragment_buffer (data : list Z) (flags : Z) : option (list Z) :=
  let len := Z.of_nat (length data) in
  let first := Z.land flags 255 in
  if (len <=? 125)%Z then Some (first :: len :: data)
  else if (len <=? 65535)%Z then Some (first :: 126%Z :: bytes16 len ++ data)
  else if (len <=? 0xfffffff0)%Z then Some (first :: 127%Z :: bytes32 0 ++ bytes32 len ++ data)
  else None.

(** A connection, as far as the frames need it. *)
Record ws_conn := WsConn {
  w_state : ws_state;
  w_frame : option ws_frame;
  w_opcode : Z;
  w_buf : list Z;
  w_out : list ws_out
}.
Definition set_w_state (x : ws_state) (w : ws_conn) : ws_conn := WsConn x (w_frame w) (w_opcode w) (w_buf w) (w_out w).
Definition set_w_frame (x : option ws_frame) (w : ws_conn) : ws_conn := WsConn (w_state w) x (w_opcode w) (w_buf w) (w_out w).
Definition set_w_opcode (x : Z) (w : ws_conn) : ws_conn := WsConn (w_state w) (w_frame w) x (w_buf w) (w_out w).
Definition set_w_buf (x : list Z) (w : ws_conn) : ws_conn := WsConn (w_state w) (w_frame w) (w_opcode w) x (w_out w).
Definition ws_emit (o : list ws_out) (w : ws_conn) : ws_conn := WsConn (w_state w) (w_frame w) (w_opcode w) (w_buf w) (w_out w ++ o).

(** [libwebsock_close_with_reason]; its frame is short. *)
Definition libwebsock_close_with_reason (w : ws_conn) (code : Z) (reason : option string) : ws_conn :=
  let text := match reason with Some r => uchar <$> String.list_ascii_of_string (stake 123 r) | None => [] end in
  let w := set_w_state websocket_CLOSING w in
  match libwebsock_fragment_buffer (bytes16 code ++ text) (Z.lor WS_FRAGMENT_FIN WS_OPCODE_CLOSE) with
  | Some frame => ws_emit [WsPush frame; WsWantWrite; WsClose] w
  | None => w
  end.
Definition libwebsock_close (w : ws_conn) : ws_conn := libwebsock_close_with_reason w WS_CLOSE_NORMAL None.
Definition libwebsock_send_fragment (w : ws_conn) (data : list Z) (flags : Z) : ws_conn :=
  match libwebsock_fragment_buffer data flags with
  | Some frame => ws_emit [WsPush frame; WsWantWrite] w
  | None => libwebsock_close_with_reason w WS_CLOSE_UNEXPECTED_ERROR (Some "Internal server error")
  end.
(** The frame that is built is not put in the queue. *)
Definition libwebsock_fail_connection (w : ws_conn) : ws_conn :=
  ws_emit [WsWantWrite; WsClose] (set_w_state websocket_CLOSING w).

(** ** Reading frames *)

Definition push_byte (f : ws_frame) (b : Z) : option ws_frame :=
  if (raw_idx f <? f_rawdata_sz f)%Z then Some (with_raw (f_raw f ++ [b]) f) else None.
(** [memcpy] of what is there of the payload. *)
Definition append_raw (f : ws_frame) (l : list Z) : option ws_frame :=
  if (raw_idx f + Z.of_nat (length l) <=? f_rawdata_sz f)%Z then Some (with_raw (f_raw f ++ l) f) else None.

Definition payload (f : ws_frame) : option (list Z) :=
  if (f_payload_offset f + f_payload_len f <=? raw_idx f)%Z then
    Some (take (Z.to_nat (f_payload_len f)) (drop (Z.to_nat (f_payload_offset f)) (f_raw f)))
  else None.
Definition unmask (mask : list Z) (data : list Z) : list Z := imap (λ j b, Z.lxor b (nth (j mod 4) mask 0%Z)) data.

(** [strncpy] stops at a NUL and fills with NULs. *)
Fixpoint before_zero (l : list Z) : list Z := match l with [] => [] | b :: l => if (b =? 0)%Z then [] else b :: before_zero l end.
Definition strncpy_bytes (l : list Z) : list Z := before_zero l ++ replicate (length l - length (before_zero l)) 0%Z.

Definition codes (s : string) : list Z := uchar <$> String.list_ascii_of_string s.
(** What a text frame adds to the buffer: [<open ... />] is opened again. *)
Definition deliver_text (l : list Z) : list Z :=
  let l := strncpy_bytes l in
  let n := length l in
  if bool_decide (7 ≤ n) && bool_decide (take 5 l = codes "<open") && bool_decide (drop (n - 2) l = codes "/>") then
    take (n - 2) l ++ codes ">"
  else l.

(** A frame is complete. *)
Definition ws_dispatch (w : ws_conn) (f : ws_frame) : option ws_conn :=
  let opcode := if negb (f_opcode f =? WS_OPCODE_CONTINUE)%Z then f_opcode f else w_opcode w in
  let w := set_w_opcode opcode w in
  w ← (if (opcode =? WS_OPCODE_TEXT)%Z then
         p ← payload f; Some (set_w_buf (w_buf w ++ deliver_text (unmask (f_mask f) p)) w)
       else if (opcode =? WS_OPCODE_CLOSE)%Z then Some (libwebsock_close w)
       else if (opcode =? WS_OPCODE_PING)%Z then
         p ← payload f; Some (libwebsock_send_fragment w p (Z.lor WS_FRAGMENT_FIN WS_OPCODE_PONG))
       else if (opcode =? WS_OPCODE_PONG)%Z then Some (ws_emit [WsWantRead] w)
       else Some w);
  Some (set_w_frame None w).

Definition closing (w : ws_conn) : bool := match w_state w with websocket_CLOSING => true | _ => false end.

(** The loop over the bytes of a buffer. *)
Fixpoint ws_loop (fuel : nat) (w : ws_conn) (data : list Z) : option ws_conn :=
  match fuel, data with
  | S n, b :: data =>
    f ← push_byte (default frame_new (w_frame w)) b;
    '(f, loaded) ← (match f_state f with sw_loaded_mask => Some (f, true) | _ => libwebsock_read_header f end);
    if negb loaded then ws_loop n (set_w_frame (Some f) w) data
    else
      let full f data :=
        w ← ws_dispatch w f;
        if closing w then Some w else ws_loop n w data in
      if (raw_idx f <? f_size f)%Z then
        let need := Z.to_nat (f_size f - raw_idx f) in
        if bool_decide (need ≤ length data) then f ← append_raw f (take need data); full f (drop need data)
        else f ← append_raw f data; Some (set_w_frame (Some f) w)
      else full f data
  | _, _ => Some w
  end.

(** The active part of [_sx_websocket_rio]: what is passed on; nothing when the connection closes. *)
Definition ws_unwrap (w : ws_conn) (data : list Z) : option (ws_conn * list Z) :=
  w ← ws_loop (length data) w data;
  Some (if closing w then (w, []) else (set_w_buf [] w, w_buf w)).

(** [_sx_websocket_wio] *)
Definition _sx_websocket_wio (wrapper : bool) (w : ws_conn) (data : list Z) : ws_conn * option (list Z) :=
  if negb wrapper then (w, Some data)
  else if bool_decide (data = []) then (w, Some data)
  else match libwebsock_fragment_buffer data (Z.lor WS_FRAGMENT_FIN WS_OPCODE_TEXT) with
       | Some frame => (w, Some frame)
       | None => (libwebsock_close_with_reason w WS_CLOSE_UNEXPECTED_ERROR (Some "Internal server error"), None)
       end.

(** ** The handshake *)

Definition crlf : string := String (char_of 13) (String (char_of 10) "").
Definition websocket_guid : string := "258EAFA5-E914-47DA-95CA-C5AB0DC85B11".

(** What the HTTP parser calls back. *)
Inductive http_event := HttpField (chars : string) | HttpValue (chars : string) | HttpComplete.
(** What it finds: the calls, whether the request is an upgrade, whether it took all bytes, its error. *)
Record http_result := HttpResult { hr_events : list http_event; hr_upgrade : bool; hr_all : bool; hr_errno : string }.

(** [strcasestr(s, find) != NULL] for a [find] in lower case *)
Fixpoint casestr (find s : string) : bool :=
  String.prefix find (lowercase s) || match s with String _ s => casestr find s | EmptyString => false end.

Section http.
Context {T : Type → Type} `{Table T} `{Env}.

(** [_sx_websocket_conn_st], and the wrapper flag of the stream. *)
Record websocket := WebSocket {
  p_conn : ws_conn;
  p_header_value : bool;
  p_field : spool;
  p_value : spool;
  p_headers : T (option string);
  p_wrapper : bool
}.
Definition upd_conn (f : ws_conn → ws_conn) (p : websocket) : websocket :=
  WebSocket (f (p_conn p)) (p_header_value p) (p_field p) (p_value p) (p_headers p) (p_wrapper p).

(** [strunescape(sc->p, spool_print(s))]; [None]: a byte that was never written. *)
Definition spool_text (s : spool) : option (option string) :=
  match spool_print s with
  | None => Some None
  | Some t => match strunescape (Some t) with
              | Some l => l ← mapM id l; Some (Some (string_of l))
              | None => Some None
              end
  end.

Definition _sx_websocket_http_header_field (p : websocket) (chars : string) : option websocket :=
  p ← (if p_header_value p then
         k ← spool_text (p_field p);
         v ← spool_text (p_value p);
         Some (WebSocket (p_conn p) false spool_new (p_value p)
                 (match k with Some k => tput (p_headers p) k v | None => p_headers p end) (p_wrapper p))
       else Some p);
  Some (WebSocket (p_conn p) (p_header_value p) (spool_escape (p_field p) (Some chars) (strlen chars)) (p_value p) (p_headers p) (p_wrapper p)).
Definition _sx_websocket_http_header_value (p : websocket) (chars : string) : websocket :=
  let value := if p_header_value p then p_value p else spool_new in
  WebSocket (p_conn p) true (p_field p) (spool_escape value (Some chars) (strlen chars)) (p_headers p) (p_wrapper p).
Definition _sx_websocket_http_headers_complete (p : websocket) : option websocket :=
  if p_header_value p then _sx_websocket_http_header_field p "" else Some p.
Definition http_step (p : websocket) (ev : http_event) : option websocket :=
  match ev with
  | HttpField chars => _sx_websocket_http_header_field p chars
  | HttpValue chars => Some (_sx_websocket_http_header_value p chars)
  | HttpComplete => _sx_websocket_http_headers_complete p
  end.

Definition _sx_websocket_http_return (status headers : string) : list ws_out := [WsHttp status (stake 1023 headers); WsWantWrite].

Definition header (p : websocket) (name : string) : option string := default None (tget (p_headers p) name).
(** Are the headers those of an upgrade to XMPP? *)
Definition upgrade_ok (p : websocket) : bool :=
  negb (negb (j_strcmp (header p "Upgrade") (Some "websocket") =? 0)%Z
        || match header p "Connection" with None => true | Some connection => negb (casestr "upgrade" connection) end
        || negb (j_strcmp (header p "Sec-WebSocket-Protocol") (Some "xmpp") =? 0)%Z
        || negb (j_atoi (header p "Sec-WebSocket-Version") (-1) =? 13)%Z).
Definition ws_accept (p : websocket) : string :=
  b64_encode (env_sha1 (default "" (header p "Sec-WebSocket-Key") +:+ websocket_guid)).

(** [_sx_websocket_rio] before the stream is wrapped: the value returned, -2, -1, 0 or 1. *)
Definition ws_handshake (forward : option string) (p : websocket) (r : http_result) : option (websocket * Z) :=
  p ← foldl (λ p ev, p ← p; http_step p ev) (Some p) (hr_events r);
  let answer o := upd_conn (ws_emit o) p in
  Some (
    if hr_upgrade r then
      if negb (upgrade_ok p) then (answer (_sx_websocket_http_return "400 Bad Request" "" ++ [WsClose]), -2)%Z
      else
        let headers := "Upgrade: websocket" +:+ crlf +:+ "Connection: Upgrade" +:+ crlf +:+ "Sec-WebSocket-Accept: " +:+ ws_accept p +:+ crlf
                       +:+ "Sec-WebSocket-Protocol: xmpp" +:+ crlf in
        let p := answer (_sx_websocket_http_return "101 Switching Protocols" headers) in
        (WebSocket (set_w_state websocket_ACTIVE (p_conn p)) (p_header_value p) (p_field p) (p_value p) (p_headers p) true, 0)%Z
    else if negb (hr_all r) then (answer [WsError 0 (hr_errno r); WsClose], -2)%Z
    else match forward with
         | Some url => (answer (_sx_websocket_http_return "301 Found" ("Location: " +:+ url +:+ crlf +:+ "Connection: close" +:+ crlf) ++ [WsClose]), -1)%Z
         | None => (answer (_sx_websocket_http_return "403 Forbidden" ("Connection: close" +:+ crlf) ++ [WsClose]), -1)%Z
         end).

(** [_sx_websocket_rio]: the value returned and what is passed on. *)
Definition _sx_websocket_rio (st : sx_state) (forward : option string) (parse : list Z → http_result) (p : websocket) (data : list Z) :
    option (websocket * Z * list Z) :=
  let none := bool_decide (st = state_NONE) in
  let p := if negb (p_wrapper p) && none && match w_state (p_conn p) with websocket_PRE => true | _ => false end
              && bool_decide (take 5 data = codes "GET /")
           then upd_conn (set_w_state websocket_HEADERS) p else p in
  if negb (p_wrapper p) && none && match w_state (p_conn p) with websocket_HEADERS => true | _ => false end then
    if bool_decide (data = []) then Some (upd_conn (ws_emit [WsWantRead]) p, 0%Z, [])
    else '(p, ret) ← ws_handshake forward p (parse data); Some (p, ret, data)
  else if negb (p_wrapper p) || negb match w_state (p_conn p) with websocket_ACTIVE => true | _ => false end then Some (p, 1%Z, data)
  else
    '(w, passed) ← ws_unwrap (p_conn p) data;
    Some (upd_conn (λ _, w) p, if closing w then 0%Z else 1%Z, passed).

(** [_sx_websocket_new] *)
Definition _sx_websocket_new : websocket :=
  WebSocket (WsConn websocket_PRE None 0 [] []) false spool_new spool_new (tnew 11) false.
End http.
#[global] Arguments websocket T : clear implicits.
