(* ===== verification/WebsocketThms.v ===== *)
(** * WebSocket frames: lemmas and properties

    The loop that copies what it can at once reads as the loop that takes one
    byte at a time; how the stream is cut into buffers makes no difference; what
    a client frames comes out. *)
From S2P Require Import Prelude.
From S2P Require Import CStr.
From S2P Require Import Str.
From S2P Require Import Codec.
From S2P Require Import Stanza.
From S2P Require Import Websocket.

(** ** The buffer of a frame *)

Lemma lor_ge a b : (0 <= a)%Z → (0 <= b)%Z → (a <= Z.lor a b)%Z.
Proof.
  intros Ha Hb. assert (Z.lor a b = a + Z.ldiff b a)%Z as ->.
  { rewrite Z.add_nocarry_lxor, Z.lxor_lor by (apply Z.bits_inj'; intros n Hn; rewrite ?Z.land_spec, ?Z.ldiff_spec, ?Z.bits_0;
      by destruct (Z.testbit a n), (Z.testbit b n)).
    apply Z.bits_inj'. intros n Hn. rewrite !Z.lor_spec, Z.ldiff_spec. by destruct (Z.testbit a n), (Z.testbit b n). }
  assert (0 <= Z.ldiff b a)%Z by (apply Z.ldiff_nonneg; lia). lia.
Qed.
Lemma lor_shift x k : (0 < x < 2 ^ 30)%Z → (0 <= k)%Z → (x <= Z.lor x (Z.shiftr x k) < 2 ^ 30)%Z.
Proof.
  intros Hx Hk. assert (0 <= Z.shiftr x k <= x)%Z as Hs.
  { rewrite Z.shiftr_div_pow2 by done. split; [apply Z.div_pos; lia|]. apply Z.div_le_upper_bound; [lia|].
    assert (0 < 2 ^ k)%Z by lia. nia. }
  assert (x <= Z.lor x (Z.shiftr x k))%Z as Hge by (apply lor_ge; lia). split; [done|].
  apply Z.log2_lt_pow2; [lia|]. rewrite Z.log2_lor by lia. apply Z.max_lub_lt.
  - apply Z.log2_lt_pow2; lia.
  - destruct (decide (Z.shiftr x k = 0)%Z) as [->|]; [done|]. apply Z.log2_lt_pow2; lia.
Qed.
(** Up to 2^30 the size is rounded up. *)
Lemma round_up_ge size : (1 < size <= 2 ^ 30)%Z → ∃ n, ws_round_up size = Some n ∧ (size <= n)%Z.
Proof.
  intros Hs. unfold ws_round_up. rewrite int32_id by lia. destruct (Z.eqb_spec size (- 2 ^ 31)); [lia|].
  pose proof (lor_shift (size - 1) 1 ltac:(lia) ltac:(lia)) as H1. set (n1 := Z.lor _ (Z.shiftr (size - 1) 1)) in *.
  pose proof (lor_shift n1 2 ltac:(lia) ltac:(lia)) as H2. set (n2 := Z.lor _ (Z.shiftr n1 2)) in *.
  pose proof (lor_shift n2 4 ltac:(lia) ltac:(lia)) as H3. set (n3 := Z.lor _ (Z.shiftr n2 4)) in *.
  pose proof (lor_shift n3 8 ltac:(lia) ltac:(lia)) as H4. set (n4 := Z.lor _ (Z.shiftr n3 8)) in *.
  pose proof (lor_shift n4 16 ltac:(lia) ltac:(lia)) as H5. set (n5 := Z.lor _ (Z.shiftr n4 16)) in *.
  cbv zeta. destruct (Z.eqb_spec n5 (2 ^ 31 - 1)); [lia|]. destruct (Z.leb_spec (n5 + 1) 0); [lia|].
  eexists. split; [done|]. lia.
Qed.
(** A size that is rounded up fits. *)
Lemma round_up_fits size n : (0 <= size < 2 ^ 32)%Z → ws_round_up size = Some n → (size <= n)%Z.
Proof.
  intros Hs. unfold ws_round_up. cbv zeta.
  assert (∀ x k, (0 <= x)%Z → (x <= Z.lor x (Z.shiftr x k))%Z) as Hge by (intros; apply lor_ge; [done|by apply Z.shiftr_nonneg]).
  assert (∀ x y, (x < 0)%Z → (Z.lor x y < 0)%Z) as Hneg by (intros; apply Z.lor_neg; by left).
  destruct (decide (size < 2 ^ 31)%Z) as [Hlt|Hbig].
  - rewrite int32_id by lia. repeat case_match; try done. intros [= <-]. destruct (decide (size = 0)%Z) as [->|]; [lia|].
    pose proof (Hge (size - 1) 1 ltac:(lia))%Z. set (n1 := Z.lor _ (Z.shiftr (size - 1) 1)) in *.
    pose proof (Hge n1 2 ltac:(lia))%Z. set (n2 := Z.lor _ (Z.shiftr n1 2)) in *.
    pose proof (Hge n2 4 ltac:(lia))%Z. set (n3 := Z.lor _ (Z.shiftr n2 4)) in *.
    pose proof (Hge n3 8 ltac:(lia))%Z. set (n4 := Z.lor _ (Z.shiftr n3 8)) in *.
    pose proof (Hge n4 16 ltac:(lia))%Z. lia.
  - assert (int32 size < 0)%Z as Hi.
    { unfold int32. replace (size + 2 ^ 31)%Z with (size - 2 ^ 31 + 1 * 2 ^ 32)%Z by lia. rewrite Z.mod_add, Z.mod_small by lia. lia. }
    destruct (_ =? _)%Z; [done|]. match goal with |- context [(?m =? 2 ^ 31 - 1)%Z] => assert (m < 0)%Z by (repeat apply Hneg; lia); set (n5 := m) in * end.
    destruct (_ =? _)%Z; [done|]. destruct (Z.leb_spec (n5 + 1) 0); [done|lia].
Qed.

(** ** One byte at a time *)

Definition ws_byte (w : ws_conn) (b : Z) : option ws_conn :=
  f ← push_byte (default frame_new (w_frame w)) b;
  '(f, loaded) ← libwebsock_read_header f;
  if (loaded : bool) && (f_size f <=? raw_idx f)%Z then ws_dispatch w f else Some (set_w_frame (Some f) w).
Fixpoint ws_bytes (w : ws_conn) (data : list Z) : option ws_conn :=
  match data with
  | [] => Some w
  | b :: data => w ← ws_byte w b; if closing w then Some w else ws_bytes w data
  end.

(** A frame whose header is read fits its buffer, and misses some bytes. *)
Definition frame_ok (f : ws_frame) : Prop :=
  f_state f = sw_loaded_mask → (raw_idx f < f_size f <= f_rawdata_sz f)%Z.
Definition conn_ok (w : ws_conn) : Prop := ∀ f, w_frame w = Some f → frame_ok f.

Lemma read_full_spec f f' l : read_full_len f = Some (f', l) →
  f_raw f' = f_raw f ∧ if l then f_state f' = sw_loaded_mask ∧ (f_size f' <= f_rawdata_sz f')%Z else f_state f' ≠ sw_loaded_mask.
Proof.
  unfold read_full_len. unfold raw_idx. cbn [f_raw f_payload_offset f_rawdata_sz f_payload_len f_mask_offset]. destruct (_ <? _)%Z; [by intros [= <- <-]|].
  intros (sz & Esz & [= <- <-])%bind_Some. cbn. split; [done|]. split; [done|].
  destruct (Z.ltb_spec (f_rawdata_sz f) ((f_payload_offset f + f_payload_len f) `mod` 2 ^ 32)) in Esz; [|by injection Esz as <-].
  apply round_up_fits in Esz; [done|]. apply Z.mod_pos_bound. lia.
Qed.
Lemma read_header_spec f f' l : libwebsock_read_header f = Some (f', l) → (f_state f = sw_loaded_mask → (f_size f <= f_rawdata_sz f)%Z) →
  f_raw f' = f_raw f ∧ if l then f_state f' = sw_loaded_mask ∧ (f_size f' <= f_rawdata_sz f')%Z else f_state f' ≠ sw_loaded_mask.
Proof.
  unfold libwebsock_read_header. intros E Hl.
  assert (∀ g, read_short_len g = Some (f', l) → f_state g = sw_got_short_len →
    f_raw f' = f_raw g ∧ if l then f_state f' = sw_loaded_mask ∧ (f_size f' <= f_rawdata_sz f')%Z else f_state f' ≠ sw_loaded_mask) as Hshort.
  { intros g Eg Hg. revert Eg. unfold read_short_len.
    destruct (f_len_short g =? 126)%Z; [|destruct (f_len_short g =? 127)%Z].
    - destruct (raw_idx g <? 4)%Z; intros Eg; [injection Eg as <- <-; split; [done|]; by rewrite Hg|apply read_full_spec in Eg; exact Eg].
    - destruct (raw_idx g <? 10)%Z; intros Eg; [injection Eg as <- <-; split; [done|]; by rewrite Hg|apply read_full_spec in Eg; exact Eg].
    - intros Eg. apply read_full_spec in Eg. exact Eg. }
  destruct (f_state f) eqn:Es.
  - destruct (_ <? _)%Z; [injection E as <- <-; by rewrite Es|]. by apply Hshort in E.
  - by apply Hshort in E.
  - by apply Hshort in E.
  - by apply read_full_spec in E.
  - injection E as <- <-. auto.
Qed.

(** *** What is copied at once *)

Lemma with_raw_raw x y f : with_raw x (with_raw y f) = with_raw x f.
Proof. done. Qed.
Lemma raw_idx_app l f : raw_idx (with_raw (f_raw f ++ l) f) = (raw_idx f + Z.of_nat (length l))%Z.
Proof. unfold raw_idx. cbn. rewrite length_app. lia. Qed.

(** A byte of the payload that is not the last. *)
Lemma ws_byte_more w f b : w_frame w = Some f → f_state f = sw_loaded_mask → (raw_idx f + 1 < f_size f <= f_rawdata_sz f)%Z →
  ws_byte w b = Some (set_w_frame (Some (with_raw (f_raw f ++ [b]) f)) w).
Proof.
  intros Ef Hl Hsz. unfold ws_byte. rewrite Ef. cbn [default from_option id]. unfold push_byte.
  destruct (Z.ltb_spec (raw_idx f) (f_rawdata_sz f)); [|lia]. cbn [mbind option_bind].
  unfold libwebsock_read_header. cbn [f_state with_raw id]. rewrite Hl. cbn [mbind option_bind].
  rewrite raw_idx_app. cbn [f_size with_raw length andb]. destruct (Z.leb_spec (f_size f) (raw_idx f + Z.of_nat 1)); [lia|done].
Qed.
Lemma ws_byte_last w f b : w_frame w = Some f → f_state f = sw_loaded_mask → (raw_idx f + 1 = f_size f ∧ f_size f <= f_rawdata_sz f)%Z →
  ws_byte w b = ws_dispatch w (with_raw (f_raw f ++ [b]) f).
Proof.
  intros Ef Hl Hsz. unfold ws_byte. rewrite Ef. cbn [default from_option id]. unfold push_byte.
  destruct (Z.ltb_spec (raw_idx f) (f_rawdata_sz f)); [|lia]. cbn [mbind option_bind].
  unfold libwebsock_read_header. cbn [f_state with_raw id]. rewrite Hl. cbn [mbind option_bind].
  rewrite raw_idx_app. cbn [f_size with_raw length andb]. destruct (Z.leb_spec (f_size f) (raw_idx f + Z.of_nat 1)); [done|lia].
Qed.
Lemma dispatch_frame w f g : ws_dispatch (set_w_frame g w) f = ws_dispatch w f.
Proof.
  unfold ws_dispatch. destruct (negb _); cbn [w_opcode set_w_frame]; repeat (destruct (_ =? _)%Z); try done.
  all: destruct (payload f); cbn; try done; unfold libwebsock_send_fragment; by destruct (libwebsock_fragment_buffer _ _).
Qed.
(** Payload bytes that do not complete the frame, and those that do. *)
Lemma ws_bytes_part w f l rest : closing w = false → f_state f = sw_loaded_mask →
  (raw_idx f + Z.of_nat (length l) < f_size f <= f_rawdata_sz f)%Z →
  ws_bytes (set_w_frame (Some f) w) (l ++ rest) = ws_bytes (set_w_frame (Some (with_raw (f_raw f ++ l) f)) w) rest.
Proof.
  intros Hc. revert f. induction l as [|b l IH]; intros f Hl Hsz; cbn [app length] in *.
  { rewrite app_nil_r. by destruct f. }
  cbn [ws_bytes]. rewrite (ws_byte_more _ f) by (done || lia). cbn [mbind option_bind].
  change (closing (set_w_frame (Some (with_raw (f_raw f ++ [b]) f)) (set_w_frame (Some f) w))) with (closing w). rewrite Hc.
  change (set_w_frame (Some (with_raw (f_raw f ++ [b]) f)) (set_w_frame (Some f) w)) with (set_w_frame (Some (with_raw (f_raw f ++ [b]) f)) w).
  rewrite IH; [|done|rewrite raw_idx_app; cbn [f_size f_rawdata_sz with_raw length]; lia].
  cbn [f_raw with_raw]. by rewrite <- app_assoc.
Qed.
Lemma ws_bytes_rest w f l rest : closing w = false → f_state f = sw_loaded_mask → l ≠ [] →
  (raw_idx f + Z.of_nat (length l) = f_size f ∧ f_size f <= f_rawdata_sz f)%Z →
  ws_bytes (set_w_frame (Some f) w) (l ++ rest) =
    (w ← ws_dispatch w (with_raw (f_raw f ++ l) f); if closing w then Some w else ws_bytes w rest).
Proof.
  intros Hc Hl Hne Hsz. destruct (exists_last Hne) as (l0 & b & ->). rewrite length_app in Hsz. cbn [length] in Hsz.
  rewrite <- app_assoc. rewrite ws_bytes_part by (done || lia). cbn [app ws_bytes].
  rewrite (ws_byte_last _ (with_raw (f_raw f ++ l0) f)); [|done|done|rewrite raw_idx_app; cbn [f_size f_rawdata_sz with_raw]; lia].
  rewrite dispatch_frame. cbn [f_raw with_raw]. by rewrite <- app_assoc.
Qed.

(** *** The loop *)

Lemma dispatch_none w f w' : ws_dispatch w f = Some w' → w_frame w' = None.
Proof. unfold ws_dispatch. intros (w1 & _ & [= <-])%bind_Some. done. Qed.
Lemma push_raw f b f1 : push_byte f b = Some f1 → f1 = with_raw (f_raw f ++ [b]) f.
Proof. unfold push_byte. destruct (_ <? _)%Z; [by intros [= <-]|done]. Qed.

(** The loop is the reading of one byte at a time. *)
Lemma loop_bytes n w data : conn_ok w → closing w = false → length data ≤ n → ws_loop n w data = ws_bytes w data.
Proof.
  revert w data. induction n as [|n IH]; intros w data Hw Hc Hn; destruct data as [|b data]; [done|cbn in Hn; lia|done|]. cbn [ws_loop ws_bytes length] in *. unfold ws_byte.
  destruct (push_byte (default frame_new (w_frame w)) b) as [f1|] eqn:Ep; cbn [mbind option_bind]; [|done].
  assert ((match f_state f1 with sw_loaded_mask => Some (f1, true) | _ => libwebsock_read_header f1 end) = libwebsock_read_header f1) as ->.
  { unfold libwebsock_read_header. by destruct (f_state f1). }
  apply push_raw in Ep.
  assert (f_state f1 = sw_loaded_mask → (f_size f1 <= f_rawdata_sz f1)%Z) as Hf1.
  { subst f1. cbn [f_state with_raw f_size f_rawdata_sz]. destruct (w_frame w) as [f0|] eqn:Ew; cbn [default from_option id]; [|done].
    intros Hs. by destruct (Hw _ Ew Hs). }
  destruct (libwebsock_read_header f1) as [[f2 l]|] eqn:Eh; cbn [mbind option_bind]; [|done].
  destruct (read_header_spec _ _ _ Eh Hf1) as [_ Hl]. destruct l; cbn [negb andb mbind option_bind].
  2: { change (closing (set_w_frame (Some f2) w)) with (closing w). rewrite Hc. apply IH; [|done|lia].
       intros f [= <-] Hs. done. }
  destruct Hl as [Hs Hsz]. destruct (Z.ltb_spec (raw_idx f2) (f_size f2)) as [Hlt|Hge].
  - destruct (Z.leb_spec (f_size f2) (raw_idx f2)); [lia|]. cbn [mbind option_bind].
    change (closing (set_w_frame (Some f2) w)) with (closing w). rewrite Hc.
    case_bool_decide as Hneed.
    + unfold append_raw. rewrite length_take_le by done. destruct (Z.leb_spec (raw_idx f2 + Z.of_nat (Z.to_nat (f_size f2 - raw_idx f2))) (f_rawdata_sz f2)); [|lia].
      cbn [mbind option_bind]. 
      assert (∀ w0, ws_bytes w0 data = ws_bytes w0 (take (Z.to_nat (f_size f2 - raw_idx f2)) data ++ drop (Z.to_nat (f_size f2 - raw_idx f2)) data)) as -> by (intros; by rewrite take_drop).
      rewrite ws_bytes_rest; [|done|done| |rewrite length_take_le by done; lia].
      2: { intros E. apply (f_equal length) in E. rewrite length_take_le in E by done. cbn in E. lia. }
      destruct (ws_dispatch w _) as [w1|] eqn:Ed; cbn [mbind option_bind]; [|done]. destruct (closing w1) eqn:Ec1; [done|].
      apply IH; [|done|rewrite length_drop; lia]. intros f Ef. apply dispatch_none in Ed. congruence.
    + unfold append_raw. destruct (Z.leb_spec (raw_idx f2 + Z.of_nat (length data)) (f_rawdata_sz f2)); [|lia]. cbn [mbind option_bind].
      rewrite <- (app_nil_r data) at 2. rewrite ws_bytes_part by (done || lia). done.
  - destruct (Z.leb_spec (f_size f2) (raw_idx f2)); [|lia]. destruct (ws_dispatch w f2) as [w1|] eqn:Ed; cbn [mbind option_bind]; [|done].
    destruct (closing w1) eqn:Ec1; [done|]. apply IH; [|done|lia]. intros f Ef. apply dispatch_none in Ed. congruence.
Qed.
Lemma byte_ok w b w' : conn_ok w → ws_byte w b = Some w' → conn_ok w'.
Proof.
  intros Hw. unfold ws_byte. intros (f1 & Ep%push_raw & E)%bind_Some. apply bind_Some in E as ([f2 l] & Eh & E).
  apply read_header_spec in Eh as [_ Hl].
  2: { subst f1. cbn [f_state with_raw f_size f_rawdata_sz]. destruct (w_frame w) as [f0|] eqn:Ew; cbn [default from_option id]; [|done].
       intros Hs. by destruct (Hw _ Ew Hs). }
  destruct l; cbn [andb] in E; [destruct (Z.leb_spec (f_size f2) (raw_idx f2))|].
  - intros f Ef. apply dispatch_none in E. congruence.
  - injection E as <-. intros f [= <-] _. destruct Hl. lia.
  - injection E as <-. intros f [= <-] Hs. done.
Qed.
Lemma bytes_ok w data w' : conn_ok w → ws_bytes w data = Some w' → conn_ok w'.
Proof.
  revert w. induction data as [|b data IH]; intros w Hw; cbn [ws_bytes]; [by intros [= <-]|].
  intros (w1 & E1 & E)%bind_Some. apply byte_ok in E1; [|done]. destruct (closing w1); [by injection E as <-|by apply IH in E].
Qed.

(** ** Buffers *)

(** The buffers in turn, until the connection closes, and what is passed on. *)
Fixpoint ws_run (w : ws_conn) (bufs : list (list Z)) : option (ws_conn * list Z) :=
  match bufs with
  | [] => Some (w, [])
  | d :: bufs =>
    '(w, t) ← ws_unwrap w d;
    if closing w then Some (w, t) else '(w, t') ← ws_run w bufs; Some (w, t ++ t')
  end.

Definition addbuf (t : list Z) (w : ws_conn) : ws_conn := set_w_buf (t ++ w_buf w) w.
Lemma dispatch_addbuf t w f : ws_dispatch (addbuf t w) f = addbuf t <$> ws_dispatch w f.
Proof.
  unfold ws_dispatch. cbn [w_opcode addbuf set_w_buf].
  set (op := if negb _ then _ else _). destruct (op =? WS_OPCODE_TEXT)%Z.
  { destruct (payload f); [|done]. cbn. unfold addbuf. cbn. by rewrite app_assoc. }
  destruct (op =? WS_OPCODE_CLOSE)%Z; [done|]. destruct (op =? WS_OPCODE_PING)%Z.
  { destruct (payload f) as [p|]; [|done]. cbn [mbind option_bind]. unfold libwebsock_send_fragment. by destruct (libwebsock_fragment_buffer p _). }
  by destruct (op =? WS_OPCODE_PONG)%Z.
Qed.
Lemma bytes_addbuf t w data : ws_bytes (addbuf t w) data = addbuf t <$> ws_bytes w data.
Proof.
  revert w. induction data as [|b data IH]; intros w; cbn [ws_bytes]; [done|].
  assert (ws_byte (addbuf t w) b = addbuf t <$> ws_byte w b) as ->.
  { unfold ws_byte. cbn [w_frame addbuf set_w_buf]. destruct (push_byte _ b) as [f|]; [|done]. cbn [mbind option_bind].
    destruct (libwebsock_read_header f) as [[f' l]|]; [|done]. cbn [mbind option_bind]. destruct (_ && _); [apply dispatch_addbuf|done]. }
  destruct (ws_byte w b) as [w1|]; [|done]. cbn [fmap option_fmap option_map mbind option_bind].
  change (closing (addbuf t w1)) with (closing w1). destruct (closing w1); [done|apply IH].
Qed.
Lemma bytes_app w a b : closing w = false →
  ws_bytes w (a ++ b) = (w1 ← ws_bytes w a; if closing w1 then Some w1 else ws_bytes w1 b).
Proof.
  revert w. induction a as [|x a IH]; intros w Hc; cbn [app ws_bytes mbind option_bind]; [by rewrite Hc|].
  destruct (ws_byte w x) as [w1|]; [|done]. cbn [mbind option_bind]. destruct (closing w1) eqn:Ec; [cbn; by rewrite Ec|by apply IH].
Qed.
Lemma unwrap_bytes w d : conn_ok w → closing w = false →
  ws_unwrap w d = (w1 ← ws_bytes w d; Some (if closing w1 then (w1, []) else (set_w_buf [] w1, w_buf w1))).
Proof. intros Hw Hc. unfold ws_unwrap. by rewrite loop_bytes. Qed.

Lemma ws_segmentation_lemma w bufs : conn_ok w → w_buf w = [] → closing w = false →
  match ws_run w bufs, ws_bytes w (concat bufs) with
  | Some (w1, t), Some w2 => set_w_buf [] w1 = set_w_buf [] w2 ∧ (closing w2 = false → t = w_buf w2 ∧ w_buf w1 = [])
  | None, None => True
  | _, _ => False
  end.
Proof.
  revert w. induction bufs as [|d bufs IH]; intros w Hw Hb Hc; cbn [ws_run concat].
  { cbn [ws_bytes]. by rewrite Hb. }
  rewrite unwrap_bytes, bytes_app by done. destruct (ws_bytes w d) as [w1|] eqn:E1; [|done]. cbn [mbind option_bind].
  destruct (closing w1) eqn:Ec; [cbn; rewrite Ec; split; [done|congruence]|].
  change (closing (set_w_buf [] w1)) with (closing w1). rewrite Ec.
  assert (w1 = addbuf (w_buf w1) (set_w_buf [] w1)) as Ew by (unfold addbuf; cbn; rewrite app_nil_r; by destruct w1).
  assert (ws_bytes w1 (concat bufs) = addbuf (w_buf w1) <$> ws_bytes (set_w_buf [] w1) (concat bufs)) as -> by (rewrite <- bytes_addbuf; by rewrite <- Ew).
  clear Ew.
  assert (conn_ok (set_w_buf [] w1)) as Hw1 by exact (bytes_ok w d w1 Hw E1).
  specialize (IH (set_w_buf [] w1) Hw1 eq_refl Ec).
  destruct (ws_run (set_w_buf [] w1) bufs) as [[w2 t]|], (ws_bytes (set_w_buf [] w1) (concat bufs)) as [w3|];
    cbn [fmap option_fmap option_map mbind option_bind]; try exact IH.
  destruct IH as [E Ht]. split; [exact E|]. intros Hc3. by destruct (Ht Hc3) as [-> Hb2].
Qed.


(** ** Frames there and back *)

(** The length in a frame, and the mask flag. *)
Definition frame_header (flag n : Z) : list Z :=
  if (n <=? 125)%Z then [flag + n]%Z
  else if (n <=? 65535)%Z then (flag + 126)%Z :: bytes16 n
  else (flag + 127)%Z :: bytes32 0 ++ bytes32 n.
(** A text frame as a client sends it: final, masked. *)
Definition client_frame (mask data : list Z) : list Z :=
  129%Z :: frame_header 128 (Z.of_nat (length data)) ++ mask ++ unmask mask data.

Lemma unmask_length mask l : length (unmask mask l) = length l.
Proof. apply length_imap. Qed.
Lemma unmask_unmask mask l : unmask mask (unmask mask l) = l.
Proof.
  unfold unmask. apply list_eq. intros i. rewrite !list_lookup_imap. destruct (l !! i); [|done]. cbn. f_equal.
  rewrite Z.lxor_assoc, Z.lxor_nilpotent. apply Z.lxor_0_r.
Qed.
Lemma bytes16_be n : (0 <= n < 65536)%Z → (nth 0 (bytes16 n) 0 * 256 + nth 1 (bytes16 n) 0 = n)%Z.
Proof. intros Hn. cbn. rewrite (Z.mod_small (n / 256)) by (split; [apply Z.div_pos|apply Z.div_lt_upper_bound]; lia). pose proof (Z.div_mod n 256). lia. Qed.

Lemma bytes16_mod n : bytes16 (n `mod` 65536) = bytes16 n.
Proof.
  unfold bytes16. f_equal; [|f_equal].
  - assert (∀ z, z / 256 = Z.shiftr z 8)%Z as Hsh by (intros; by rewrite Z.shiftr_div_pow2). rewrite !Hsh. apply Z.bits_inj'. intros i Hi.
    change 256%Z with (2 ^ 8)%Z. change 65536%Z with (2 ^ 16)%Z. rewrite !Z.testbit_mod_pow2, !Z.shiftr_spec, Z.testbit_mod_pow2 by lia.
    destruct (Z.ltb_spec i 8), (Z.ltb_spec (i + 8) 16); try done; lia.
  - rewrite <- Znumtheory.Zmod_div_mod; [done|lia|lia|]. by exists 256%Z.
Qed.
Lemma bytes32_be n : (0 <= n < 2 ^ 32)%Z →
  ((nth 0 (bytes32 n) 0 * 256 + nth 1 (bytes32 n) 0) * 65536 + (nth 2 (bytes32 n) 0 * 256 + nth 3 (bytes32 n) 0) = n)%Z.
Proof.
  intros Hn. pose proof (bytes16_be (n / 65536) ltac:(split; [apply Z.div_pos|apply Z.div_lt_upper_bound]; lia)) as B1.
  pose proof (bytes16_be (n `mod` 65536) ltac:(apply Z.mod_pos_bound; lia)) as B2. rewrite bytes16_mod in B2.
  pose proof (Z.div_mod n 65536). cbn in B1, B2 |- *. lia.
Qed.

(** Bytes that do not complete what the header waits for. *)
Lemma ws_byte_wait w f b f' : default frame_new (w_frame w) = f → (raw_idx f < f_rawdata_sz f)%Z →
  libwebsock_read_header (with_raw (f_raw f ++ [b]) f) = Some (f', false) → ws_byte w b = Some (set_w_frame (Some f') w).
Proof.
  intros Ef Hsz Eh. unfold ws_byte. rewrite Ef. unfold push_byte. destruct (Z.ltb_spec (raw_idx f) (f_rawdata_sz f)); [|lia].
  cbn [mbind option_bind]. by rewrite Eh.
Qed.
Lemma ws_bytes_wait w f l rest : closing w = false → (raw_idx f + Z.of_nat (length l) <= f_rawdata_sz f)%Z →
  (∀ l1, l1 ≠ [] → length l1 ≤ length l →
     libwebsock_read_header (with_raw (f_raw f ++ l1) f) = Some (with_raw (f_raw f ++ l1) f, false)) →
  ws_bytes (set_w_frame (Some f) w) (l ++ rest) = ws_bytes (set_w_frame (Some (with_raw (f_raw f ++ l) f)) w) rest.
Proof.
  intros Hc. revert f. induction l as [|b l IH]; intros f Hsz Hw; cbn [app].
  { rewrite app_nil_r. by destruct f. }
  cbn [ws_bytes length] in *. rewrite (ws_byte_wait _ f b (with_raw (f_raw f ++ [b]) f)); [|done|lia|apply Hw; cbn; [done|lia]].
  cbn [mbind option_bind]. change (closing (set_w_frame (Some (with_raw (f_raw f ++ [b]) f)) (set_w_frame (Some f) w))) with (closing w). rewrite Hc.
  change (set_w_frame (Some (with_raw (f_raw f ++ [b]) f)) (set_w_frame (Some f) w)) with (set_w_frame (Some (with_raw (f_raw f ++ [b]) f)) w).
  rewrite IH.
  - cbn [f_raw with_raw]. by rewrite <- app_assoc.
  - rewrite raw_idx_app. cbn [f_rawdata_sz with_raw length]. lia.
  - intros l1 Hne Hl1. cbn [f_raw with_raw]. rewrite <- app_assoc. apply Hw; [done|]. cbn. lia.
Qed.

(** The frame once its mask is there. *)
Definition loaded (f : ws_frame) (sz : Z) (mask data : list Z) : ws_frame :=
  WsFrame (f_fin f) (f_opcode f) (f_mask_offset f) (f_payload_offset f) (f_raw f ++ mask ++ data) sz
    (f_payload_offset f + f_payload_len f) (f_len_short f) (f_payload_len f) mask sw_loaded_mask.

Lemma frame_bytes w f mask data rest : closing w = false → f_state f = sw_got_full_len → length mask = 4 →
  f_mask_offset f = raw_idx f → f_payload_offset f = (raw_idx f + 4)%Z → f_payload_len f = Z.of_nat (length data) →
  f_rawdata_sz f = 1024%Z → (raw_idx f <= 10)%Z → (raw_idx f + 4 + Z.of_nat (length data) <= 2 ^ 30)%Z →
  ∃ sz, ws_bytes (set_w_frame (Some f) w) (mask ++ data ++ rest) =
    (w ← ws_dispatch w (loaded f sz mask data); if closing w then Some w else ws_bytes w rest).
Proof.
  intros Hc Hst Hm Hmo Hpo Hpl Hsz Hidx Hbig.
  destruct mask as [|m0 [|m1 [|m2 [|m3 [|]]]]]; try done. change ([m0; m1; m2; m3] ++ data ++ rest) with ([m0; m1; m2] ++ m3 :: data ++ rest).
  assert (∀ g, f_state g = sw_got_full_len → (raw_idx g < f_payload_offset g)%Z → libwebsock_read_header g = Some (g, false)) as Hwait.
  { intros g Hg Hlt. unfold libwebsock_read_header. rewrite Hg. unfold read_full_len. unfold raw_idx in *. cbn [f_raw f_payload_offset].
    destruct (Z.ltb_spec (Z.of_nat (length (f_raw g))) (f_payload_offset g)); [|lia]. destruct g. cbn in *. by rewrite Hg. }
  assert (0 <= raw_idx f)%Z as Hpos by (unfold raw_idx; lia).
  rewrite ws_bytes_wait; [|done|cbn [length]; lia|].
  2: { intros l1 _ Hl1. apply Hwait; [done|]. rewrite raw_idx_app. cbn [f_payload_offset with_raw length] in *. lia. }
  set (f3 := with_raw (f_raw f ++ [m0; m1; m2]) f).
  assert (∃ sz, ws_round_up (raw_idx f + 4 + Z.of_nat (length data)) = Some sz ∧ (raw_idx f + 4 + Z.of_nat (length data) <= sz)%Z) as (sz0 & Esz0 & Hsz0).
  { apply round_up_ge. lia. }
  set (sz := if (1024 <? raw_idx f + 4 + Z.of_nat (length data))%Z then sz0 else 1024%Z).
  assert (raw_idx f + 4 + Z.of_nat (length data) <= sz)%Z as Hszle by (unfold sz; destruct (Z.ltb_spec 1024 (raw_idx f + 4 + Z.of_nat (length data))); lia).
  exists sz. set (f4 := loaded f sz [m0; m1; m2; m3] []).
  assert (libwebsock_read_header (with_raw (f_raw f3 ++ [m3]) f3) = Some (f4, true)) as Eh.
  { unfold libwebsock_read_header, f3. cbn [f_state with_raw]. rewrite Hst. unfold read_full_len, raw_idx.
    cbn [f_raw with_raw f_payload_offset f_mask_offset f_payload_len f_rawdata_sz f_fin f_opcode f_len_short f_size]. rewrite !length_app. cbn [length].
    destruct (Z.ltb_spec (Z.of_nat (length (f_raw f) + 3 + 1)) (f_payload_offset f)) as [|_]; [unfold raw_idx in *; lia|].
    rewrite Hpo, Hpl, (Z.mod_small (raw_idx f + 4 + _)), Hsz by lia.
    assert ((if (1024 <? raw_idx f + 4 + Z.of_nat (length data))%Z then ws_round_up (raw_idx f + 4 + Z.of_nat (length data)) else Some 1024%Z) = Some sz) as ->
      by (unfold sz; rewrite Esz0; by destruct (_ <? _)%Z).
    cbn [mbind option_bind]. unfold f4, loaded. rewrite Hpo, Hpl. f_equal. f_equal. f_equal; [by rewrite <- app_assoc|].
    rewrite Hmo. unfold raw_idx. rewrite Nat2Z.id. unfold raw_at. cbn [f_raw with_raw]. rewrite <- app_assoc. cbn [app seq fmap list_fmap MASK_LENGTH].
    by rewrite !app_nth2_plus. }
  change (m3 :: data ++ rest) with ([m3] ++ data ++ rest). cbn [app ws_bytes].
  assert (ws_byte (set_w_frame (Some f3) w) m3 =
    if (f_size f4 <=? raw_idx f4)%Z then ws_dispatch (set_w_frame (Some f3) w) f4 else Some (set_w_frame (Some f4) w)) as ->.
  { unfold ws_byte. cbn [w_frame set_w_frame default from_option id]. unfold push_byte, f3. rewrite raw_idx_app. cbn [f_rawdata_sz with_raw length].
    destruct (Z.ltb_spec (raw_idx f + Z.of_nat 3) (f_rawdata_sz f)); [|lia]. cbn [mbind option_bind]. fold f3. rewrite Eh. cbn [mbind option_bind andb]. done. }
  rewrite dispatch_frame.
  assert (raw_idx f4 = raw_idx f + 4)%Z as Ei by (unfold raw_idx, f4, loaded; cbn [f_raw]; rewrite !length_app; cbn [length]; lia).
  assert (f_size f4 = raw_idx f + 4 + Z.of_nat (length data))%Z as Es by (unfold f4, loaded; cbn [f_size]; lia).
  rewrite Ei, Es. destruct data as [|d data].
  - destruct (Z.leb_spec (raw_idx f + 4 + Z.of_nat (length (@nil Z))) (raw_idx f + 4)); [|cbn [length] in *; lia]. done.
  - destruct (Z.leb_spec (raw_idx f + 4 + Z.of_nat (length (d :: data))) (raw_idx f + 4)); [cbn [length] in *; lia|].
    cbn [mbind option_bind]. change (closing (set_w_frame (Some f4) w)) with (closing w). rewrite Hc.
    rewrite (ws_bytes_rest w f4 (d :: data) rest); [|done|done|done|split; [lia|unfold f4, loaded; cbn [f_size f_rawdata_sz]; lia]].
    unfold f4, loaded, with_raw. cbn. by rewrite <- !app_assoc.
Qed.

(** *** The header up to the mask *)

(** The frame waits for its mask. *)
Definition wants_mask (f : ws_frame) (n : Z) : Prop :=
  f_state f = sw_got_full_len ∧ f_mask_offset f = raw_idx f ∧ f_payload_offset f = (raw_idx f + 4)%Z ∧ f_payload_len f = n ∧
  f_rawdata_sz f = 1024%Z ∧ (raw_idx f <= 10)%Z ∧ f_opcode f = WS_OPCODE_TEXT.
(** The frame after its second byte [b], whose length is [s]. *)
Definition two_bytes (b s : Z) : ws_frame := WsFrame true 1 2 0 [129%Z; b] 1024 0 s (2 ^ 32 - 1) [0; 0; 0; 0]%Z sw_got_short_len.
Lemma second_byte w b f' l : closing w = false → w_frame w = None → read_short_len (two_bytes b (Z.land b 127)) = Some (f', false) →
  ws_bytes w (129%Z :: b :: l) = ws_bytes (set_w_frame (Some f') w) l.
Proof.
  intros Hc Hf E. set (f1 := WsFrame false 0 0 0 [129%Z] 1024 0 0 (2 ^ 32 - 1) [0; 0; 0; 0]%Z sw_start). cbn [ws_bytes].
  rewrite (ws_byte_wait w frame_new 129 f1) by (rewrite ?Hf; done). cbn [mbind option_bind].
  change (closing (set_w_frame (Some f1) w)) with (closing w). rewrite Hc.
  rewrite (ws_byte_wait _ f1 b f') by done. cbn [mbind option_bind].
  change (closing (set_w_frame (Some f') (set_w_frame (Some f1) w))) with (closing w). by rewrite Hc.
Qed.
(** The last byte of the length. *)
Lemma length_byte w f b f' l : closing w = false → (raw_idx f < f_rawdata_sz f)%Z →
  libwebsock_read_header (with_raw (f_raw f ++ [b]) f) = Some (f', false) →
  ws_bytes (set_w_frame (Some f) w) (b :: l) = ws_bytes (set_w_frame (Some f') w) l.
Proof.
  intros Hc Hsz E. cbn [ws_bytes]. rewrite (ws_byte_wait _ f b f') by done. cbn [mbind option_bind].
  change (closing (set_w_frame (Some f') (set_w_frame (Some f) w))) with (closing w). by rewrite Hc.
Qed.
Lemma header_small w n rest : closing w = false → w_frame w = None → (0 <= n <= 125)%Z →
  ∃ f, ws_bytes w (129%Z :: [128 + n]%Z ++ rest) = ws_bytes (set_w_frame (Some f) w) rest ∧ wants_mask f n.
Proof.
  intros Hc Hf Hn. set (f := WsFrame true 1 2 6 [129; 128 + n]%Z 1024 0 n n [0; 0; 0; 0]%Z sw_got_full_len).
  exists f. cbn [app]. rewrite (second_byte _ _ f); [by split_and!|done|done|].
  assert (Z.land (128 + n) 127 = n) as ->.
  { change 127%Z with (Z.ones 7). rewrite Z.land_ones, Z.add_comm by lia. change (2 ^ 7)%Z with 128%Z.
    replace (n + 128)%Z with (n + 1 * 128)%Z by lia. rewrite Z.mod_add, Z.mod_small by lia. done. }
  unfold read_short_len, two_bytes. cbn [f_len_short]. destruct (Z.eqb_spec n 126); [lia|]. destruct (Z.eqb_spec n 127); [lia|]. done.
Qed.
Lemma header_short w n rest : closing w = false → w_frame w = None → (0 <= n < 65536)%Z →
  ∃ f, ws_bytes w (129%Z :: (254%Z :: bytes16 n) ++ rest) = ws_bytes (set_w_frame (Some f) w) rest ∧ wants_mask f n.
Proof.
  intros Hc Hf Hn. set (f := WsFrame true 1 4 8 ([129; 254]%Z ++ bytes16 n) 1024 0 126 n [0; 0; 0; 0]%Z sw_got_full_len).
  exists f. cbn [app]. rewrite (second_byte _ _ (two_bytes 254%Z 126%Z)) by done.
  change (bytes16 n) with ([(n / 256) `mod` 256]%Z ++ [n `mod` 256]%Z). rewrite <- app_assoc, ws_bytes_wait; [|done|done|].
  2: { intros [|x [|]] Hne Hl; [done|done|cbn in Hl; lia]. }
  cbn [app]. rewrite (length_byte _ _ _ f); [by split_and!|done|done|].
  unfold libwebsock_read_header. cbn [f_state with_raw two_bytes]. unfold read_short_len.
  cbn [f_len_short with_raw f_raw two_bytes]. change (126 =? 126)%Z with true. cbv iota.
  match goal with |- context [(raw_idx ?g <? 4)%Z] => change (raw_idx g <? 4)%Z with false end. cbv iota.
  match goal with |- context [be16 ?g 2] => assert (be16 g 2 = n) as -> by exact (bytes16_be n Hn) end. done.
Qed.
(** A text frame up to its mask, with the eight byte length. *)
Definition long_header (n : Z) : list Z := 129%Z :: 255%Z :: bytes32 0 ++ bytes32 n.
Lemma header_long w n rest : closing w = false → w_frame w = None → (0 <= n < 2 ^ 32)%Z →
  ∃ f, ws_bytes w (long_header n ++ rest) = ws_bytes (set_w_frame (Some f) w) rest ∧ wants_mask f n ∧ raw_idx f = 10%Z.
Proof.
  intros Hc Hf Hn. set (f := WsFrame true 1 10 14 ([129; 255]%Z ++ bytes32 0 ++ bytes32 n) 1024 0 127 n [0; 0; 0; 0]%Z sw_got_full_len).
  exists f. unfold long_header. cbn [app]. rewrite (second_byte _ _ (two_bytes 255%Z 127%Z)) by done.
  change (bytes32 0 ++ bytes32 n) with ((bytes32 0 ++ bytes16 (n / 65536) ++ [(n / 256) `mod` 256]%Z) ++ [n `mod` 256]%Z).
  rewrite <- app_assoc, ws_bytes_wait; [|done|done|].
  2: { intros l Hne Hl. unfold libwebsock_read_header. cbn [f_state with_raw two_bytes]. unfold read_short_len. cbn [f_len_short with_raw two_bytes].
       change (127 =? 126)%Z with false. change (127 =? 127)%Z with true. cbv iota. unfold raw_idx. cbn [f_raw with_raw two_bytes]. rewrite length_app.
       change (length (bytes32 0 ++ bytes16 (n / 65536) ++ [(n / 256) `mod` 256]%Z)) with 7 in Hl. cbn [length].
       destruct (Z.ltb_spec (Z.of_nat (2 + length l)) 10); [done|lia]. }
  cbn [app]. rewrite (length_byte _ _ _ f); [by split_and!|done|done|].
  unfold libwebsock_read_header. cbn [f_state with_raw two_bytes]. unfold read_short_len.
  match goal with |- context [(f_len_short ?g =? 126)%Z] => change (f_len_short g) with 127%Z end.
  change (127 =? 126)%Z with false. change (127 =? 127)%Z with true. cbv iota.
  match goal with |- context [(raw_idx ?g <? 10)%Z] => change (raw_idx g <? 10)%Z with false end. cbv iota.
  match goal with |- context [be32 ?g 6] => assert (be32 g 6 = n) as -> by exact (bytes32_be n Hn) end. done.
Qed.
Lemma header_bytes w n rest : closing w = false → w_frame w = None → (0 <= n < 2 ^ 32)%Z →
  ∃ f, ws_bytes w (129%Z :: frame_header 128 n ++ rest) = ws_bytes (set_w_frame (Some f) w) rest ∧ wants_mask f n.
Proof.
  intros Hc Hf Hn. unfold frame_header. destruct (Z.leb_spec n 125); [|destruct (Z.leb_spec n 65535)].
  - apply header_small; [done|done|lia].
  - apply header_short; [done|done|lia].
  - destruct (header_long w n rest Hc Hf) as (f & E & Hw & _); [lia|]. by exists f.
Qed.

(** *** Frames *)

Lemma loaded_payload f sz mask data : wants_mask f (Z.of_nat (length data)) → length mask = 4 →
  payload (loaded f sz mask data) = Some data.
Proof.
  intros (_ & _ & Hpo & Hpl & _) Hm. unfold payload, loaded, raw_idx in *. cbn [f_payload_offset f_payload_len f_raw]. rewrite !length_app.
  destruct (Z.leb_spec (f_payload_offset f + f_payload_len f) (Z.of_nat (length (f_raw f) + (length mask + length data)))); [|lia].
  rewrite Hpo, Hpl, Nat2Z.id. replace (Z.to_nat (Z.of_nat (length (f_raw f)) + 4)) with (length (f_raw f ++ mask)) by (rewrite length_app; lia).
  by rewrite app_assoc, drop_app_length, firstn_all.
Qed.
(** A text frame of a client adds its text, and nothing else happens. *)
Lemma client_frame_bytes w mask data rest : closing w = false → w_frame w = None → length mask = 4 →
  (Z.of_nat (length data) + 14 <= 2 ^ 30)%Z →
  ws_bytes w (client_frame mask data ++ rest) = ws_bytes (set_w_opcode WS_OPCODE_TEXT (set_w_buf (w_buf w ++ deliver_text data) w)) rest.
Proof.
  intros Hc Hf Hm Hn. unfold client_frame. cbn [app]. rewrite <- !app_assoc.
  destruct (header_bytes w (Z.of_nat (length data)) (mask ++ unmask mask data ++ rest) Hc Hf ltac:(lia)) as (f & -> & Hw).
  rewrite <- (unmask_length mask data) in Hw. pose proof Hw as (Hst & Hmo & Hpo & Hpl & Hsz & Hidx & Hop).
  destruct (frame_bytes w f mask (unmask mask data) rest) as [sz ->]; try done; [rewrite unmask_length; lia|].
  unfold ws_dispatch. cbn [f_opcode loaded]. rewrite Hop. change (negb (WS_OPCODE_TEXT =? WS_OPCODE_CONTINUE)%Z) with true. cbv iota.
  change (WS_OPCODE_TEXT =? WS_OPCODE_TEXT)%Z with true. cbv iota zeta. rewrite loaded_payload by done. cbn [mbind option_bind f_mask loaded].
  rewrite unmask_unmask. match goal with |- (if closing ?w1 then _ else _) = _ => change (closing w1) with (closing w) end. rewrite Hc.
  f_equal. destruct w. cbn in *. by subst.
Qed.

Lemma client_frames_bytes w msgs : closing w = false → w_frame w = None →
  Forall (λ m, length m.1 = 4 ∧ (Z.of_nat (length m.2) + 14 <= 2 ^ 30)%Z) msgs →
  ∃ op, ws_bytes w (concat ((λ m, client_frame m.1 m.2) <$> msgs)) =
    Some (set_w_opcode op (set_w_buf (w_buf w ++ concat ((λ m, deliver_text m.2) <$> msgs)) w)).
Proof.
  intros Hc Hf Hm. revert w Hc Hf. induction Hm as [|[mask data] msgs [H1 H2] _ IH]; intros w Hc Hf; cbn [fmap list_fmap concat fst snd] in *.
  { exists (w_opcode w). rewrite app_nil_r. by destruct w. }
  rewrite client_frame_bytes by done.
  destruct (IH (set_w_opcode WS_OPCODE_TEXT (set_w_buf (w_buf w ++ deliver_text data) w)) Hc Hf) as [op ->]. exists op.
  cbn [w_buf set_w_buf set_w_opcode]. by rewrite app_assoc.
Qed.

Definition ws_active : ws_conn := WsConn websocket_ACTIVE None 0 [] [].

(** What a client frames comes out.  Text messages that are framed with masks of the client's choice,
    with the short, the two byte or the eight byte length, and cut into buffers in any way, are all
    read: each message is passed on once, unmasked and in order (with [<open/>] opened as the XML parser
    needs it), no answer is made and nothing is left over. *)
Theorem ws_text_roundtrip (msgs : list (list Z * list Z)) bufs :
  Forall (λ m, length m.1 = 4 ∧ (Z.of_nat (length m.2) + 14 <= 2 ^ 30)%Z) msgs →
  concat bufs = concat ((λ m, client_frame m.1 m.2) <$> msgs) →
  ∃ op, ws_run ws_active bufs = Some (WsConn websocket_ACTIVE None op [] [], concat ((λ m, deliver_text m.2) <$> msgs)).
Proof.
  intros Hm Eb. destruct (client_frames_bytes ws_active msgs eq_refl eq_refl Hm) as (op & E). rewrite <- Eb in E.
  pose proof (ws_segmentation_lemma ws_active bufs) as Hs. rewrite E in Hs. exists op.
  destruct (ws_run ws_active bufs) as [[w1 t]|]; [|by destruct Hs].
  destruct Hs as [E1 Ht]; [by intros f|done|done|]. destruct (Ht eq_refl) as [-> Hb]. destruct w1 as [st fr opc buf out].
  injection E1 as -> -> -> ->. cbn [w_buf] in Hb. by rewrite Hb.
Qed.

(** C35: how the network cuts the stream into buffers makes no difference.  Reading the buffers one after
    the other, with the loop that copies as much of a payload at once as is there, gives what reading
    their concatenation one byte at a time gives: the same frames, the same answers in the same order,
    the same frame begun at the end, and the same text passed on, piece by piece; and it goes wrong
    exactly if that does.  Only when the connection closes may text of the last buffer be lost. *)
Theorem ws_segmentation w bufs : conn_ok w → w_buf w = [] → closing w = false →
  match ws_run w bufs, ws_bytes w (concat bufs) with
  | Some (w1, t), Some w2 => set_w_buf [] w1 = set_w_buf [] w2 ∧ (closing w2 = false → t = w_buf w2 ∧ w_buf w1 = [])
  | None, None => True
  | _, _ => False
  end.
Proof. apply ws_segmentation_lemma. Qed.

(** What the server frames: final, not masked, with the shortest length. *)
Lemma fragment_buffer_spec data flags : (0 <= flags < 256)%Z → (Z.of_nat (length data) <= 0xfffffff0)%Z →
  libwebsock_fragment_buffer data flags = Some (flags :: frame_header 0 (Z.of_nat (length data)) ++ data).
Proof.
  intros Hf Hn. unfold libwebsock_fragment_buffer, frame_header. change 255%Z with (Z.ones 8). rewrite Z.land_ones, Z.mod_small by lia.
  destruct (_ <=? 125)%Z; [done|]. destruct (_ <=? 65535)%Z; [done|]. destruct (Z.leb_spec (Z.of_nat (length data)) 0xfffffff0); [|lia].
  cbn [app]. by rewrite <- app_assoc.
Qed.

(** ** Lengths that are too much *)







(** ** The claims on examples *)


Definition exw_bufs : list (list Z) := [[129; 132; 1; 2; 3]; [4; 61; 99]; [44; 58; 137]]%Z.
Lemma ws_segmentation_witness :
  match ws_run ws_active exw_bufs, ws_bytes ws_active (concat exw_bufs) with
  | Some (w1, t), Some w2 => set_w_buf [] w1 = set_w_buf [] w2 ∧ (closing w2 = false → t = w_buf w2 ∧ w_buf w1 = [])
  | None, None => True
  | _, _ => False
  end ∧ snd <$> ws_run ws_active exw_bufs = Some (codes "<a/>").
Proof. split; [apply (ws_segmentation ws_active exw_bufs); [by intros f|done|done]|vm_compute; reflexivity]. Defined.
Lemma ws_text_roundtrip_witness :
  ∃ op, ws_run ws_active [[129; 132; 1; 2; 3]; [4; 61; 99]; [44; 58]]%Z = Some (WsConn websocket_ACTIVE None op [] [], codes "<a/>").
Proof.
  apply (ws_text_roundtrip [([1; 2; 3; 4]%Z, codes "<a/>")]).
  - repeat constructor. vm_compute. discriminate.
  - vm_compute. reflexivity.
Defined.
