(* ===== verification/SxState.v ===== *)
(** * The state of a stream: sx/sx.h

    A stream and its buffers, the events that it gives the application, and the
    monad of its code.  A computation takes the world (what the application and
    the plugins keep) and the stream to the next ones, with a result; [None] is
    an assertion that fails, a buffer that overflows or a NULL pointer followed.
    The parser is a state of a type of its own: what Expat does with it is a
    parameter. *)
From S2P Require Import Prelude.
From S2P Require Import CStr.
From S2P Require Import JQueue.
From S2P Require Import Nad.
From S2P Require Import Stanza.

(** [_sx_type_t] *)
Inductive sx_type := type_NONE | type_CLIENT | type_SERVER.
#[global] Instance sx_type_eq_dec : EqDecision sx_type.
Proof. solve_decision. Defined.

(** The functions that a buffer can name in [notify]; those of the plugins have a number. *)
Inductive notify_fn := NotifyServerHeader | NotifyClientHeader | NotifyCompress | NotifyPlugin (k : nat).

(** [struct _sx_buf_st]: the bytes from [data] to [data + len]; SxBuf holds the block around them. *)
Record sx_buf := SxBuf { bf_data : text; bf_notify : option notify_fn }.
Definition bf_len (b : sx_buf) : Z := Z.of_nat (length (bf_data b)).

(** [sx_event_t], with the data of each. *)
Inductive sx_event :=
  | event_WANT_READ | event_WANT_WRITE
  | event_READ (len : Z)
  | event_WRITE (buf : sx_buf)
  | event_STREAM | event_OPEN
  | event_PACKET (n : nad)
  | event_CLOSED
  | event_ERROR (code : Z) (generic : string) (specific : option string).

Definition SX_ERR_STREAM : Z := 1.
Definition SX_ERR_XML_PARSE : Z := 3.

(** The functions that the parser has been given for elements and namespaces. *)
Inductive elem_handler := EHNone | EHServer | EHClient | EHStream.
Inductive ns_handler := NHNone | NHServer | NHStream.

(** What the parser calls: the handlers of Nad, or the declaration of an entity. *)
Inductive xml_call := XCall (ev : xml_event) | XEntity.
#[global] Instance xml_event_eq_dec : EqDecision xml_event.
Proof. solve_decision. Defined.
#[global] Instance xml_call_eq_dec : EqDecision xml_call.
Proof. solve_decision. Defined.

Section sx.
Context {P : Type}.

(** [struct _sx_st].  The chains hold indices of the plugins of [env]; of the
    pointer [env] only whether it is set; [x_helem], [x_hns] and [x_hcdata] are
    the handlers set in the parser [x_expat]. *)
Record sx := Sx {
  x_env : bool;
  x_tag : Z;
  x_type : sx_type;
  x_flags : Z;
  x_ns : option string;
  x_req_to : option string;
  x_req_from : option string;
  x_req_version : option string;
  x_res_to : option string;
  x_res_from : option string;
  x_res_version : option string;
  x_id : option string;
  x_wio : list nat;
  x_rio : list nat;
  x_wnad : list nat;
  x_rnad : list nat;
  x_wbufq : @jqueue sx_buf;
  x_wbufpending : option sx_buf;
  x_rnadq : @jqueue (option nad);
  x_want_read : Z;
  x_want_write : Z;
  x_rbytes : Z;
  x_pbytes : Z;
  x_tbytes : Z;
  x_rbytesmax : Z;
  x_state : sx_state;
  x_expat : P;
  x_helem : elem_handler;
  x_hns : ns_handler;
  x_hcdata : bool;
  x_depth : Z;
  x_fail : bool;
  x_nad : option nad;
  x_auth_method : option string;
  x_auth_id : option string;
  x_reentry : Z;
  x_has_reset : bool;
  x_ssf : Z
}.

Definition with_x_env (v : bool) (s : sx) : sx :=
  Sx v (x_tag s) (x_type s) (x_flags s) (x_ns s) (x_req_to s) (x_req_from s) (x_req_version s) (x_res_to s)
    (x_res_from s) (x_res_version s) (x_id s) (x_wio s) (x_rio s) (x_wnad s) (x_rnad s) (x_wbufq s)
    (x_wbufpending s) (x_rnadq s) (x_want_read s) (x_want_write s) (x_rbytes s) (x_pbytes s) (x_tbytes s)
    (x_rbytesmax s) (x_state s) (x_expat s) (x_helem s) (x_hns s) (x_hcdata s) (x_depth s) (x_fail s)
    (x_nad s) (x_auth_method s) (x_auth_id s) (x_reentry s) (x_has_reset s) (x_ssf s).
Definition with_x_tag (v : Z) (s : sx) : sx :=
  Sx (x_env s) v (x_type s) (x_flags s) (x_ns s) (x_req_to s) (x_req_from s) (x_req_version s) (x_res_to s)
    (x_res_from s) (x_res_version s) (x_id s) (x_wio s) (x_rio s) (x_wnad s) (x_rnad s) (x_wbufq s)
    (x_wbufpending s) (x_rnadq s) (x_want_read s) (x_want_write s) (x_rbytes s) (x_pbytes s) (x_tbytes s)
    (x_rbytesmax s) (x_state s) (x_expat s) (x_helem s) (x_hns s) (x_hcdata s) (x_depth s) (x_fail s)
    (x_nad s) (x_auth_method s) (x_auth_id s) (x_reentry s) (x_has_reset s) (x_ssf s).
Definition with_x_type (v : sx_type) (s : sx) : sx :=
  Sx (x_env s) (x_tag s) v (x_flags s) (x_ns s) (x_req_to s) (x_req_from s) (x_req_version s) (x_res_to s)
    (x_res_from s) (x_res_version s) (x_id s) (x_wio s) (x_rio s) (x_wnad s) (x_rnad s) (x_wbufq s)
    (x_wbufpending s) (x_rnadq s) (x_want_read s) (x_want_write s) (x_rbytes s) (x_pbytes s) (x_tbytes s)
    (x_rbytesmax s) (x_state s) (x_expat s) (x_helem s) (x_hns s) (x_hcdata s) (x_depth s) (x_fail s)
    (x_nad s) (x_auth_method s) (x_auth_id s) (x_reentry s) (x_has_reset s) (x_ssf s).
Definition with_x_flags (v : Z) (s : sx) : sx :=
  Sx (x_env s) (x_tag s) (x_type s) v (x_ns s) (x_req_to s) (x_req_from s) (x_req_version s) (x_res_to s)
    (x_res_from s) (x_res_version s) (x_id s) (x_wio s) (x_rio s) (x_wnad s) (x_rnad s) (x_wbufq s)
    (x_wbufpending s) (x_rnadq s) (x_want_read s) (x_want_write s) (x_rbytes s) (x_pbytes s) (x_tbytes s)
    (x_rbytesmax s) (x_state s) (x_expat s) (x_helem s) (x_hns s) (x_hcdata s) (x_depth s) (x_fail s)
    (x_nad s) (x_auth_method s) (x_auth_id s) (x_reentry s) (x_has_reset s) (x_ssf s).
Definition with_x_ns (v : option string) (s : sx) : sx :=
  Sx (x_env s) (x_tag s) (x_type s) (x_flags s) v (x_req_to s) (x_req_from s) (x_req_version s) (x_res_to s)
    (x_res_from s) (x_res_version s) (x_id s) (x_wio s) (x_rio s) (x_wnad s) (x_rnad s) (x_wbufq s)
    (x_wbufpending s) (x_rnadq s) (x_want_read s) (x_want_write s) (x_rbytes s) (x_pbytes s) (x_tbytes s)
    (x_rbytesmax s) (x_state s) (x_expat s) (x_helem s) (x_hns s) (x_hcdata s) (x_depth s) (x_fail s)
    (x_nad s) (x_auth_method s) (x_auth_id s) (x_reentry s) (x_has_reset s) (x_ssf s).
Definition with_x_req_to (v : option string) (s : sx) : sx :=
  Sx (x_env s) (x_tag s) (x_type s) (x_flags s) (x_ns s) v (x_req_from s) (x_req_version s) (x_res_to s)
    (x_res_from s) (x_res_version s) (x_id s) (x_wio s) (x_rio s) (x_wnad s) (x_rnad s) (x_wbufq s)
    (x_wbufpending s) (x_rnadq s) (x_want_read s) (x_want_write s) (x_rbytes s) (x_pbytes s) (x_tbytes s)
    (x_rbytesmax s) (x_state s) (x_expat s) (x_helem s) (x_hns s) (x_hcdata s) (x_depth s) (x_fail s)
    (x_nad s) (x_auth_method s) (x_auth_id s) (x_reentry s) (x_has_reset s) (x_ssf s).
Definition with_x_req_from (v : option string) (s : sx) : sx :=
  Sx (x_env s) (x_tag s) (x_type s) (x_flags s) (x_ns s) (x_req_to s) v (x_req_version s) (x_res_to s)
    (x_res_from s) (x_res_version s) (x_id s) (x_wio s) (x_rio s) (x_wnad s) (x_rnad s) (x_wbufq s)
    (x_wbufpending s) (x_rnadq s) (x_want_read s) (x_want_write s) (x_rbytes s) (x_pbytes s) (x_tbytes s)
    (x_rbytesmax s) (x_state s) (x_expat s) (x_helem s) (x_hns s) (x_hcdata s) (x_depth s) (x_fail s)
    (x_nad s) (x_auth_method s) (x_auth_id s) (x_reentry s) (x_has_reset s) (x_ssf s).
Definition with_x_req_version (v : option string) (s : sx) : sx :=
  Sx (x_env s) (x_tag s) (x_type s) (x_flags s) (x_ns s) (x_req_to s) (x_req_from s) v (x_res_to s)
    (x_res_from s) (x_res_version s) (x_id s) (x_wio s) (x_rio s) (x_wnad s) (x_rnad s) (x_wbufq s)
    (x_wbufpending s) (x_rnadq s) (x_want_read s) (x_want_write s) (x_rbytes s) (x_pbytes s) (x_tbytes s)
    (x_rbytesmax s) (x_state s) (x_expat s) (x_helem s) (x_hns s) (x_hcdata s) (x_depth s) (x_fail s)
    (x_nad s) (x_auth_method s) (x_auth_id s) (x_reentry s) (x_has_reset s) (x_ssf s).
Definition with_x_res_to (v : option string) (s : sx) : sx :=
  Sx (x_env s) (x_tag s) (x_type s) (x_flags s) (x_ns s) (x_req_to s) (x_req_from s) (x_req_version s) v
    (x_res_from s) (x_res_version s) (x_id s) (x_wio s) (x_rio s) (x_wnad s) (x_rnad s) (x_wbufq s)
    (x_wbufpending s) (x_rnadq s) (x_want_read s) (x_want_write s) (x_rbytes s) (x_pbytes s) (x_tbytes s)
    (x_rbytesmax s) (x_state s) (x_expat s) (x_helem s) (x_hns s) (x_hcdata s) (x_depth s) (x_fail s)
    (x_nad s) (x_auth_method s) (x_auth_id s) (x_reentry s) (x_has_reset s) (x_ssf s).
Definition with_x_res_from (v : option string) (s : sx) : sx :=
  Sx (x_env s) (x_tag s) (x_type s) (x_flags s) (x_ns s) (x_req_to s) (x_req_from s) (x_req_version s)
    (x_res_to s) v (x_res_version s) (x_id s) (x_wio s) (x_rio s) (x_wnad s) (x_rnad s) (x_wbufq s)
    (x_wbufpending s) (x_rnadq s) (x_want_read s) (x_want_write s) (x_rbytes s) (x_pbytes s) (x_tbytes s)
    (x_rbytesmax s) (x_state s) (x_expat s) (x_helem s) (x_hns s) (x_hcdata s) (x_depth s) (x_fail s)
    (x_nad s) (x_auth_method s) (x_auth_id s) (x_reentry s) (x_has_reset s) (x_ssf s).
Definition with_x_res_version (v : option string) (s : sx) : sx :=
  Sx (x_env s) (x_tag s) (x_type s) (x_flags s) (x_ns s) (x_req_to s) (x_req_from s) (x_req_version s)
    (x_res_to s) (x_res_from s) v (x_id s) (x_wio s) (x_rio s) (x_wnad s) (x_rnad s) (x_wbufq s)
    (x_wbufpending s) (x_rnadq s) (x_want_read s) (x_want_write s) (x_rbytes s) (x_pbytes s) (x_tbytes s)
    (x_rbytesmax s) (x_state s) (x_expat s) (x_helem s) (x_hns s) (x_hcdata s) (x_depth s) (x_fail s)
    (x_nad s) (x_auth_method s) (x_auth_id s) (x_reentry s) (x_has_reset s) (x_ssf s).
Definition with_x_id (v : option string) (s : sx) : sx :=
  Sx (x_env s) (x_tag s) (x_type s) (x_flags s) (x_ns s) (x_req_to s) (x_req_from s) (x_req_version s)
    (x_res_to s) (x_res_from s) (x_res_version s) v (x_wio s) (x_rio s) (x_wnad s) (x_rnad s) (x_wbufq s)
    (x_wbufpending s) (x_rnadq s) (x_want_read s) (x_want_write s) (x_rbytes s) (x_pbytes s) (x_tbytes s)
    (x_rbytesmax s) (x_state s) (x_expat s) (x_helem s) (x_hns s) (x_hcdata s) (x_depth s) (x_fail s)
    (x_nad s) (x_auth_method s) (x_auth_id s) (x_reentry s) (x_has_reset s) (x_ssf s).
Definition with_x_wio (v : list nat) (s : sx) : sx :=
  Sx (x_env s) (x_tag s) (x_type s) (x_flags s) (x_ns s) (x_req_to s) (x_req_from s) (x_req_version s)
    (x_res_to s) (x_res_from s) (x_res_version s) (x_id s) v (x_rio s) (x_wnad s) (x_rnad s) (x_wbufq s)
    (x_wbufpending s) (x_rnadq s) (x_want_read s) (x_want_write s) (x_rbytes s) (x_pbytes s) (x_tbytes s)
    (x_rbytesmax s) (x_state s) (x_expat s) (x_helem s) (x_hns s) (x_hcdata s) (x_depth s) (x_fail s)
    (x_nad s) (x_auth_method s) (x_auth_id s) (x_reentry s) (x_has_reset s) (x_ssf s).
Definition with_x_rio (v : list nat) (s : sx) : sx :=
  Sx (x_env s) (x_tag s) (x_type s) (x_flags s) (x_ns s) (x_req_to s) (x_req_from s) (x_req_version s)
    (x_res_to s) (x_res_from s) (x_res_version s) (x_id s) (x_wio s) v (x_wnad s) (x_rnad s) (x_wbufq s)
    (x_wbufpending s) (x_rnadq s) (x_want_read s) (x_want_write s) (x_rbytes s) (x_pbytes s) (x_tbytes s)
    (x_rbytesmax s) (x_state s) (x_expat s) (x_helem s) (x_hns s) (x_hcdata s) (x_depth s) (x_fail s)
    (x_nad s) (x_auth_method s) (x_auth_id s) (x_reentry s) (x_has_reset s) (x_ssf s).
Definition with_x_wnad (v : list nat) (s : sx) : sx :=
  Sx (x_env s) (x_tag s) (x_type s) (x_flags s) (x_ns s) (x_req_to s) (x_req_from s) (x_req_version s)
    (x_res_to s) (x_res_from s) (x_res_version s) (x_id s) (x_wio s) (x_rio s) v (x_rnad s) (x_wbufq s)
    (x_wbufpending s) (x_rnadq s) (x_want_read s) (x_want_write s) (x_rbytes s) (x_pbytes s) (x_tbytes s)
    (x_rbytesmax s) (x_state s) (x_expat s) (x_helem s) (x_hns s) (x_hcdata s) (x_depth s) (x_fail s)
    (x_nad s) (x_auth_method s) (x_auth_id s) (x_reentry s) (x_has_reset s) (x_ssf s).
Definition with_x_rnad (v : list nat) (s : sx) : sx :=
  Sx (x_env s) (x_tag s) (x_type s) (x_flags s) (x_ns s) (x_req_to s) (x_req_from s) (x_req_version s)
    (x_res_to s) (x_res_from s) (x_res_version s) (x_id s) (x_wio s) (x_rio s) (x_wnad s) v (x_wbufq s)
    (x_wbufpending s) (x_rnadq s) (x_want_read s) (x_want_write s) (x_rbytes s) (x_pbytes s) (x_tbytes s)
    (x_rbytesmax s) (x_state s) (x_expat s) (x_helem s) (x_hns s) (x_hcdata s) (x_depth s) (x_fail s)
    (x_nad s) (x_auth_method s) (x_auth_id s) (x_reentry s) (x_has_reset s) (x_ssf s).
Definition with_x_wbufq (v : @jqueue sx_buf) (s : sx) : sx :=
  Sx (x_env s) (x_tag s) (x_type s) (x_flags s) (x_ns s) (x_req_to s) (x_req_from s) (x_req_version s)
    (x_res_to s) (x_res_from s) (x_res_version s) (x_id s) (x_wio s) (x_rio s) (x_wnad s) (x_rnad s) v
    (x_wbufpending s) (x_rnadq s) (x_want_read s) (x_want_write s) (x_rbytes s) (x_pbytes s) (x_tbytes s)
    (x_rbytesmax s) (x_state s) (x_expat s) (x_helem s) (x_hns s) (x_hcdata s) (x_depth s) (x_fail s)
    (x_nad s) (x_auth_method s) (x_auth_id s) (x_reentry s) (x_has_reset s) (x_ssf s).
Definition with_x_wbufpending (v : option sx_buf) (s : sx) : sx :=
  Sx (x_env s) (x_tag s) (x_type s) (x_flags s) (x_ns s) (x_req_to s) (x_req_from s) (x_req_version s)
    (x_res_to s) (x_res_from s) (x_res_version s) (x_id s) (x_wio s) (x_rio s) (x_wnad s) (x_rnad s)
    (x_wbufq s) v (x_rnadq s) (x_want_read s) (x_want_write s) (x_rbytes s) (x_pbytes s) (x_tbytes s)
    (x_rbytesmax s) (x_state s) (x_expat s) (x_helem s) (x_hns s) (x_hcdata s) (x_depth s) (x_fail s)
    (x_nad s) (x_auth_method s) (x_auth_id s) (x_reentry s) (x_has_reset s) (x_ssf s).
Definition with_x_rnadq (v : @jqueue (option nad)) (s : sx) : sx :=
  Sx (x_env s) (x_tag s) (x_type s) (x_flags s) (x_ns s) (x_req_to s) (x_req_from s) (x_req_version s)
    (x_res_to s) (x_res_from s) (x_res_version s) (x_id s) (x_wio s) (x_rio s) (x_wnad s) (x_rnad s)
    (x_wbufq s) (x_wbufpending s) v (x_want_read s) (x_want_write s) (x_rbytes s) (x_pbytes s) (x_tbytes s)
    (x_rbytesmax s) (x_state s) (x_expat s) (x_helem s) (x_hns s) (x_hcdata s) (x_depth s) (x_fail s)
    (x_nad s) (x_auth_method s) (x_auth_id s) (x_reentry s) (x_has_reset s) (x_ssf s).
Definition with_x_want_read (v : Z) (s : sx) : sx :=
  Sx (x_env s) (x_tag s) (x_type s) (x_flags s) (x_ns s) (x_req_to s) (x_req_from s) (x_req_version s)
    (x_res_to s) (x_res_from s) (x_res_version s) (x_id s) (x_wio s) (x_rio s) (x_wnad s) (x_rnad s)
    (x_wbufq s) (x_wbufpending s) (x_rnadq s) v (x_want_write s) (x_rbytes s) (x_pbytes s) (x_tbytes s)
    (x_rbytesmax s) (x_state s) (x_expat s) (x_helem s) (x_hns s) (x_hcdata s) (x_depth s) (x_fail s)
    (x_nad s) (x_auth_method s) (x_auth_id s) (x_reentry s) (x_has_reset s) (x_ssf s).
Definition with_x_want_write (v : Z) (s : sx) : sx :=
  Sx (x_env s) (x_tag s) (x_type s) (x_flags s) (x_ns s) (x_req_to s) (x_req_from s) (x_req_version s)
    (x_res_to s) (x_res_from s) (x_res_version s) (x_id s) (x_wio s) (x_rio s) (x_wnad s) (x_rnad s)
    (x_wbufq s) (x_wbufpending s) (x_rnadq s) (x_want_read s) v (x_rbytes s) (x_pbytes s) (x_tbytes s)
    (x_rbytesmax s) (x_state s) (x_expat s) (x_helem s) (x_hns s) (x_hcdata s) (x_depth s) (x_fail s)
    (x_nad s) (x_auth_method s) (x_auth_id s) (x_reentry s) (x_has_reset s) (x_ssf s).
Definition with_x_rbytes (v : Z) (s : sx) : sx :=
  Sx (x_env s) (x_tag s) (x_type s) (x_flags s) (x_ns s) (x_req_to s) (x_req_from s) (x_req_version s)
    (x_res_to s) (x_res_from s) (x_res_version s) (x_id s) (x_wio s) (x_rio s) (x_wnad s) (x_rnad s)
    (x_wbufq s) (x_wbufpending s) (x_rnadq s) (x_want_read s) (x_want_write s) v (x_pbytes s) (x_tbytes s)
    (x_rbytesmax s) (x_state s) (x_expat s) (x_helem s) (x_hns s) (x_hcdata s) (x_depth s) (x_fail s)
    (x_nad s) (x_auth_method s) (x_auth_id s) (x_reentry s) (x_has_reset s) (x_ssf s).
Definition with_x_pbytes (v : Z) (s : sx) : sx :=
  Sx (x_env s) (x_tag s) (x_type s) (x_flags s) (x_ns s) (x_req_to s) (x_req_from s) (x_req_version s)
    (x_res_to s) (x_res_from s) (x_res_version s) (x_id s) (x_wio s) (x_rio s) (x_wnad s) (x_rnad s)
    (x_wbufq s) (x_wbufpending s) (x_rnadq s) (x_want_read s) (x_want_write s) (x_rbytes s) v (x_tbytes s)
    (x_rbytesmax s) (x_state s) (x_expat s) (x_helem s) (x_hns s) (x_hcdata s) (x_depth s) (x_fail s)
    (x_nad s) (x_auth_method s) (x_auth_id s) (x_reentry s) (x_has_reset s) (x_ssf s).
Definition with_x_tbytes (v : Z) (s : sx) : sx :=
  Sx (x_env s) (x_tag s) (x_type s) (x_flags s) (x_ns s) (x_req_to s) (x_req_from s) (x_req_version s)
    (x_res_to s) (x_res_from s) (x_res_version s) (x_id s) (x_wio s) (x_rio s) (x_wnad s) (x_rnad s)
    (x_wbufq s) (x_wbufpending s) (x_rnadq s) (x_want_read s) (x_want_write s) (x_rbytes s) (x_pbytes s) v
    (x_rbytesmax s) (x_state s) (x_expat s) (x_helem s) (x_hns s) (x_hcdata s) (x_depth s) (x_fail s)
    (x_nad s) (x_auth_method s) (x_auth_id s) (x_reentry s) (x_has_reset s) (x_ssf s).
Definition with_x_rbytesmax (v : Z) (s : sx) : sx :=
  Sx (x_env s) (x_tag s) (x_type s) (x_flags s) (x_ns s) (x_req_to s) (x_req_from s) (x_req_version s)
    (x_res_to s) (x_res_from s) (x_res_version s) (x_id s) (x_wio s) (x_rio s) (x_wnad s) (x_rnad s)
    (x_wbufq s) (x_wbufpending s) (x_rnadq s) (x_want_read s) (x_want_write s) (x_rbytes s) (x_pbytes s)
    (x_tbytes s) v (x_state s) (x_expat s) (x_helem s) (x_hns s) (x_hcdata s) (x_depth s) (x_fail s)
    (x_nad s) (x_auth_method s) (x_auth_id s) (x_reentry s) (x_has_reset s) (x_ssf s).
Definition with_x_state (v : sx_state) (s : sx) : sx :=
  Sx (x_env s) (x_tag s) (x_type s) (x_flags s) (x_ns s) (x_req_to s) (x_req_from s) (x_req_version s)
    (x_res_to s) (x_res_from s) (x_res_version s) (x_id s) (x_wio s) (x_rio s) (x_wnad s) (x_rnad s)
    (x_wbufq s) (x_wbufpending s) (x_rnadq s) (x_want_read s) (x_want_write s) (x_rbytes s) (x_pbytes s)
    (x_tbytes s) (x_rbytesmax s) v (x_expat s) (x_helem s) (x_hns s) (x_hcdata s) (x_depth s) (x_fail s)
    (x_nad s) (x_auth_method s) (x_auth_id s) (x_reentry s) (x_has_reset s) (x_ssf s).
Definition with_x_expat (v : P) (s : sx) : sx :=
  Sx (x_env s) (x_tag s) (x_type s) (x_flags s) (x_ns s) (x_req_to s) (x_req_from s) (x_req_version s)
    (x_res_to s) (x_res_from s) (x_res_version s) (x_id s) (x_wio s) (x_rio s) (x_wnad s) (x_rnad s)
    (x_wbufq s) (x_wbufpending s) (x_rnadq s) (x_want_read s) (x_want_write s) (x_rbytes s) (x_pbytes s)
    (x_tbytes s) (x_rbytesmax s) (x_state s) v (x_helem s) (x_hns s) (x_hcdata s) (x_depth s) (x_fail s)
    (x_nad s) (x_auth_method s) (x_auth_id s) (x_reentry s) (x_has_reset s) (x_ssf s).
Definition with_x_helem (v : elem_handler) (s : sx) : sx :=
  Sx (x_env s) (x_tag s) (x_type s) (x_flags s) (x_ns s) (x_req_to s) (x_req_from s) (x_req_version s)
    (x_res_to s) (x_res_from s) (x_res_version s) (x_id s) (x_wio s) (x_rio s) (x_wnad s) (x_rnad s)
    (x_wbufq s) (x_wbufpending s) (x_rnadq s) (x_want_read s) (x_want_write s) (x_rbytes s) (x_pbytes s)
    (x_tbytes s) (x_rbytesmax s) (x_state s) (x_expat s) v (x_hns s) (x_hcdata s) (x_depth s) (x_fail s)
    (x_nad s) (x_auth_method s) (x_auth_id s) (x_reentry s) (x_has_reset s) (x_ssf s).
Definition with_x_hns (v : ns_handler) (s : sx) : sx :=
  Sx (x_env s) (x_tag s) (x_type s) (x_flags s) (x_ns s) (x_req_to s) (x_req_from s) (x_req_version s)
    (x_res_to s) (x_res_from s) (x_res_version s) (x_id s) (x_wio s) (x_rio s) (x_wnad s) (x_rnad s)
    (x_wbufq s) (x_wbufpending s) (x_rnadq s) (x_want_read s) (x_want_write s) (x_rbytes s) (x_pbytes s)
    (x_tbytes s) (x_rbytesmax s) (x_state s) (x_expat s) (x_helem s) v (x_hcdata s) (x_depth s) (x_fail s)
    (x_nad s) (x_auth_method s) (x_auth_id s) (x_reentry s) (x_has_reset s) (x_ssf s).
Definition with_x_hcdata (v : bool) (s : sx) : sx :=
  Sx (x_env s) (x_tag s) (x_type s) (x_flags s) (x_ns s) (x_req_to s) (x_req_from s) (x_req_version s)
    (x_res_to s) (x_res_from s) (x_res_version s) (x_id s) (x_wio s) (x_rio s) (x_wnad s) (x_rnad s)
    (x_wbufq s) (x_wbufpending s) (x_rnadq s) (x_want_read s) (x_want_write s) (x_rbytes s) (x_pbytes s)
    (x_tbytes s) (x_rbytesmax s) (x_state s) (x_expat s) (x_helem s) (x_hns s) v (x_depth s) (x_fail s)
    (x_nad s) (x_auth_method s) (x_auth_id s) (x_reentry s) (x_has_reset s) (x_ssf s).
Definition with_x_depth (v : Z) (s : sx) : sx :=
  Sx (x_env s) (x_tag s) (x_type s) (x_flags s) (x_ns s) (x_req_to s) (x_req_from s) (x_req_version s)
    (x_res_to s) (x_res_from s) (x_res_version s) (x_id s) (x_wio s) (x_rio s) (x_wnad s) (x_rnad s)
    (x_wbufq s) (x_wbufpending s) (x_rnadq s) (x_want_read s) (x_want_write s) (x_rbytes s) (x_pbytes s)
    (x_tbytes s) (x_rbytesmax s) (x_state s) (x_expat s) (x_helem s) (x_hns s) (x_hcdata s) v (x_fail s)
    (x_nad s) (x_auth_method s) (x_auth_id s) (x_reentry s) (x_has_reset s) (x_ssf s).
Definition with_x_fail (v : bool) (s : sx) : sx :=
  Sx (x_env s) (x_tag s) (x_type s) (x_flags s) (x_ns s) (x_req_to s) (x_req_from s) (x_req_version s)
    (x_res_to s) (x_res_from s) (x_res_version s) (x_id s) (x_wio s) (x_rio s) (x_wnad s) (x_rnad s)
    (x_wbufq s) (x_wbufpending s) (x_rnadq s) (x_want_read s) (x_want_write s) (x_rbytes s) (x_pbytes s)
    (x_tbytes s) (x_rbytesmax s) (x_state s) (x_expat s) (x_helem s) (x_hns s) (x_hcdata s) (x_depth s) v
    (x_nad s) (x_auth_method s) (x_auth_id s) (x_reentry s) (x_has_reset s) (x_ssf s).
Definition with_x_nad (v : option nad) (s : sx) : sx :=
  Sx (x_env s) (x_tag s) (x_type s) (x_flags s) (x_ns s) (x_req_to s) (x_req_from s) (x_req_version s)
    (x_res_to s) (x_res_from s) (x_res_version s) (x_id s) (x_wio s) (x_rio s) (x_wnad s) (x_rnad s)
    (x_wbufq s) (x_wbufpending s) (x_rnadq s) (x_want_read s) (x_want_write s) (x_rbytes s) (x_pbytes s)
    (x_tbytes s) (x_rbytesmax s) (x_state s) (x_expat s) (x_helem s) (x_hns s) (x_hcdata s) (x_depth s)
    (x_fail s) v (x_auth_method s) (x_auth_id s) (x_reentry s) (x_has_reset s) (x_ssf s).
Definition with_x_auth_method (v : option string) (s : sx) : sx :=
  Sx (x_env s) (x_tag s) (x_type s) (x_flags s) (x_ns s) (x_req_to s) (x_req_from s) (x_req_version s)
    (x_res_to s) (x_res_from s) (x_res_version s) (x_id s) (x_wio s) (x_rio s) (x_wnad s) (x_rnad s)
    (x_wbufq s) (x_wbufpending s) (x_rnadq s) (x_want_read s) (x_want_write s) (x_rbytes s) (x_pbytes s)
    (x_tbytes s) (x_rbytesmax s) (x_state s) (x_expat s) (x_helem s) (x_hns s) (x_hcdata s) (x_depth s)
    (x_fail s) (x_nad s) v (x_auth_id s) (x_reentry s) (x_has_reset s) (x_ssf s).
Definition with_x_auth_id (v : option string) (s : sx) : sx :=
  Sx (x_env s) (x_tag s) (x_type s) (x_flags s) (x_ns s) (x_req_to s) (x_req_from s) (x_req_version s)
    (x_res_to s) (x_res_from s) (x_res_version s) (x_id s) (x_wio s) (x_rio s) (x_wnad s) (x_rnad s)
    (x_wbufq s) (x_wbufpending s) (x_rnadq s) (x_want_read s) (x_want_write s) (x_rbytes s) (x_pbytes s)
    (x_tbytes s) (x_rbytesmax s) (x_state s) (x_expat s) (x_helem s) (x_hns s) (x_hcdata s) (x_depth s)
    (x_fail s) (x_nad s) (x_auth_method s) v (x_reentry s) (x_has_reset s) (x_ssf s).
Definition with_x_reentry (v : Z) (s : sx) : sx :=
  Sx (x_env s) (x_tag s) (x_type s) (x_flags s) (x_ns s) (x_req_to s) (x_req_from s) (x_req_version s)
    (x_res_to s) (x_res_from s) (x_res_version s) (x_id s) (x_wio s) (x_rio s) (x_wnad s) (x_rnad s)
    (x_wbufq s) (x_wbufpending s) (x_rnadq s) (x_want_read s) (x_want_write s) (x_rbytes s) (x_pbytes s)
    (x_tbytes s) (x_rbytesmax s) (x_state s) (x_expat s) (x_helem s) (x_hns s) (x_hcdata s) (x_depth s)
    (x_fail s) (x_nad s) (x_auth_method s) (x_auth_id s) v (x_has_reset s) (x_ssf s).
Definition with_x_has_reset (v : bool) (s : sx) : sx :=
  Sx (x_env s) (x_tag s) (x_type s) (x_flags s) (x_ns s) (x_req_to s) (x_req_from s) (x_req_version s)
    (x_res_to s) (x_res_from s) (x_res_version s) (x_id s) (x_wio s) (x_rio s) (x_wnad s) (x_rnad s)
    (x_wbufq s) (x_wbufpending s) (x_rnadq s) (x_want_read s) (x_want_write s) (x_rbytes s) (x_pbytes s)
    (x_tbytes s) (x_rbytesmax s) (x_state s) (x_expat s) (x_helem s) (x_hns s) (x_hcdata s) (x_depth s)
    (x_fail s) (x_nad s) (x_auth_method s) (x_auth_id s) (x_reentry s) v (x_ssf s).
Definition with_x_ssf (v : Z) (s : sx) : sx :=
  Sx (x_env s) (x_tag s) (x_type s) (x_flags s) (x_ns s) (x_req_to s) (x_req_from s) (x_req_version s)
    (x_res_to s) (x_res_from s) (x_res_version s) (x_id s) (x_wio s) (x_rio s) (x_wnad s) (x_rnad s)
    (x_wbufq s) (x_wbufpending s) (x_rnadq s) (x_want_read s) (x_want_write s) (x_rbytes s) (x_pbytes s)
    (x_tbytes s) (x_rbytesmax s) (x_state s) (x_expat s) (x_helem s) (x_hns s) (x_hcdata s) (x_depth s)
    (x_fail s) (x_nad s) (x_auth_method s) (x_auth_id s) (x_reentry s) (x_has_reset s) v.
End sx.
Arguments sx : clear implicits.

(** ** The monad *)

Definition sxM (W P A : Type) : Type := W * sx P → option (W * sx P * A).

Section monad.
Context {W P : Type}.

#[global] Instance sxM_ret : MRet (sxM W P) := λ A a c, Some (c, a).
#[global] Instance sxM_bind : MBind (sxM W P) := λ A B f m c,
  match m c with Some (c', a) => f a c' | None => None end.

Definition gets {A} (f : sx P → A) : sxM W P A := λ c, Some (c, f c.2).
Definition upd (f : sx P → sx P) : sxM W P unit := λ c, Some ((c.1, f c.2), ()).
Definition crash {A} : sxM W P A := λ _, None.
Definition lift {A} (o : option A) : sxM W P A := λ c, a ← o; Some (c, a).
Definition world {A} (f : W → W * A) : sxM W P A := λ c, let '(w, a) := f c.1 in Some ((w, c.2), a).
Definition when (b : bool) (m : sxM W P unit) : sxM W P unit := if b then m else mret ().

(** A loop over a list, the first result that is not [None] ends it. *)
Fixpoint for_each {A} (f : A → sxM W P unit) (l : list A) : sxM W P unit :=
  match l with [] => mret () | a :: l => f a;; for_each f l end.
Fixpoint until {A B} (f : A → sxM W P (option B)) (d : B) (l : list A) : sxM W P B :=
  match l with
  | [] => mret d
  | a :: l => r ← f a; match r with Some b => mret b | None => until f d l end
  end.

(** What holds of the next state and the result, if there is one. *)
Definition runs {A} (m : sxM W P A) (c : W * sx P) (Q : W * sx P → A → Prop) : Prop :=
  ∃ c' a, m c = Some (c', a) ∧ Q c' a.
End monad.

(** What the stream takes from its application and libraries: the callback, the plugins' notify functions, the
    parser, [rand] and [RAND_MAX]. *)
Class SxEnv (W P : Type) := {
  sx_cb : sx_event → sxM W P (Z * text);
  sx_notify : nat → sxM W P unit;
  xml_new : P;
  xml_parse : P → text → P * list xml_call * bool;
  xml_stop : P → P;
  xml_error : P → option string;
  sx_rand : W → W * Z;
  RAND_MAX : Z
}.

(** [struct _sx_plugin_st]; [None] is a NULL pointer. *)
Record plugin {W P : Type} := Plugin {
  p_new : option (sxM W P unit);
  p_free : option (sxM W P unit);
  p_client : option (sxM W P unit);
  p_server : option (sxM W P unit);
  p_wio : option (sx_buf → sxM W P (sx_buf * Z));
  p_rio : option (sx_buf → sxM W P (sx_buf * Z));
  p_wnad : option (nad → Z → sxM W P (nad * bool));
  p_rnad : option (nad → sxM W P (nad * bool));
  p_header : option (sx_buf → sxM W P sx_buf);
  p_stream : option (sxM W P unit);
  p_features : option (nad → sxM W P nad);
  p_process : option (nad → sxM W P (nad * bool))
}.
Arguments plugin : clear implicits.
