(* ===== verification/Sx.v ===== *)
(** * Streams: sx/sx.c, sx/chain.c, sx/error.c, sx/callback.c, sx/client.c, sx/server.c, sx/io.c

    Each function is a computation on the stream (SxState); what the application
    does in its callback, the plugins, the parser and [rand] are parameters, and
    so is which plugins the environment holds.  Where the source builds text in
    a buffer of a size counted before, the definition keeps the count and the
    assertion after it. *)
From S2P Require Import Prelude.
From S2P Require Import CStr.
From S2P Require Import JQueue.
From S2P Require Import Nad.
From S2P Require Import Stanza.
From S2P Require Import Pkt.
From S2P Require Import SxState.

Definition uri_XFRAMING : string := "urn:ietf:params:xml:ns:xmpp-framing".
Definition uri_STREAM_ERR : string := "urn:ietf:params:xml:ns:xmpp-streams".
Definition SX_COMPRESS_WRAPPER : Z := Z.shiftl 1 4.

Definition flag (s : Z) (f : Z) : bool := negb (Z.land s f =? 0)%Z.
Definition is_websocket {P} (s : sx P) : bool := flag (x_flags s) SX_WEBSOCKET_WRAPPER.

(** ** Texts *)

(** [_stream_errors] *)
Definition _stream_errors : list string :=
  ["bad-format"; "bad-namespace-prefix"; "conflict"; "connection-timeout"; "host-gone"; "host-unknown";
   "improper-addressing"; "internal-server-error"; "invalid-from"; "invalid-id"; "invalid-namespace";
   "invalid-xml"; "not-authorized"; "policy-violation"; "remote-connection-failed"; "restricted-xml";
   "resource-constraint"; "see-other-host"; "system-shutdown"; "undefined-condition";
   "unsupported-encoding"; "unsupported-stanza-type"; "unsupported-version"; "xml-not-well-formed"].
Definition stream_err_BAD_FORMAT : Z := 0.
Definition stream_err_UNSUPPORTED_VERSION : Z := 22.
Definition stream_err_XML_NOT_WELL_FORMED : Z := 23.
Definition stream_err_LAST : Z := 24.

Definition close_text (ws : bool) : string :=
  if ws then "<close xmlns='" +:+ uri_XFRAMING +:+ "' />" else "</stream:stream>".
Definition error_open_text (ws : bool) : string :=
  if ws then "<open xmlns='" +:+ uri_XFRAMING +:+ "' version='1.0' />"
  else "<stream:stream xmlns:stream='" +:+ uri_STREAMS +:+ "' version='1.0'>".

(** The lengths that go with them: [sizeof] counts the NUL. *)
Definition close_len (ws : bool) : Z := if ws then (strlen uri_XFRAMING + 1) + 17 else 16.
Definition error_open_len (ws : bool) : Z :=
  if ws then (strlen uri_XFRAMING + 1) + 30 else (strlen uri_STREAMS + 1) + 44.

Definition error_text (err : string) (text : option string) : string :=
  match text with
  | None => "<stream:error xmlns:stream='" +:+ uri_STREAMS +:+ "'><" +:+ err +:+ " xmlns='" +:+ uri_STREAM_ERR
            +:+ "'/></stream:error>"
  | Some t => "<stream:error xmlns:stream='" +:+ uri_STREAMS +:+ "'><" +:+ err +:+ " xmlns='" +:+ uri_STREAM_ERR
            +:+ "'/><text xmlns='" +:+ uri_STREAM_ERR +:+ "'>" +:+ t +:+ "</text></stream:error>"
  end.
Definition error_extended_text (err : string) (content : option string) : string :=
  match content with
  | None => error_text err None
  | Some t => "<stream:error xmlns:stream='" +:+ uri_STREAMS +:+ "'><" +:+ err +:+ " xmlns='" +:+ uri_STREAM_ERR
            +:+ "'>" +:+ t +:+ "</" +:+ err +:+ "></stream:error>"
  end.

(** [strlen(s)], if the string is there, plus what the source adds for it. *)
Definition opt_len (k : Z) (s : option string) : Z := match s with Some s => (k + strlen s)%Z | None => 0 end.
Definition opt_attr (name : string) (s : option string) : string :=
  match s with Some s => " " +:+ name +:+ "='" +:+ s +:+ "'" | None => "" end.

(** The stream headers of a server and of a client. *)
Definition server_header (ws : bool) (ns to from version : option string) (id : string) : string :=
  (if ws then "<open" else "<?xml version='1.0'?><stream:stream xmlns:stream='" +:+ uri_STREAMS +:+ "'")
  +:+ opt_attr "xmlns" ns +:+ opt_attr "to" to +:+ opt_attr "from" from +:+ opt_attr "version" version
  +:+ " id='" +:+ id +:+ "'" +:+ (if ws then " />" else ">").
Definition server_header_len (ws : bool) (ns to from version : option string) : Z :=
  ((if ws then 55 else strlen uri_STREAMS + 99) + opt_len 9 ns + opt_len 6 to + opt_len 8 from + opt_len 11 version)%Z.
Definition client_header (ns to from version : option string) : string :=
  "<?xml version='1.0'?><stream:stream xmlns:stream='" +:+ uri_STREAMS +:+ "'"
  +:+ opt_attr "xmlns" ns +:+ opt_attr "to" to +:+ opt_attr "from" from +:+ opt_attr "version" version +:+ ">".
Definition client_header_len (ns to from version : option string) : Z :=
  (strlen uri_STREAMS + 52 + opt_len 9 ns + opt_len 6 to + opt_len 8 from + opt_len 11 version)%Z.

(** [strlen(name) < i || strncmp(name, pat, i) != 0 || (name[i] != '\0' && name[i] != '|')], negated. *)
Definition name_is (pat name : string) : bool :=
  let i := String.length pat in
  negb (strlen name <? strlen pat)%Z && strncmp_eq i name pat &&
  (match String.get i name with Some c => bool_decide (c = "|"%char) | None => true end).

(** The first of the attributes with the name; [old] where there is none. *)
Fixpoint header_attr (name : string) (atts : list (string * string)) (old : option string) : option string :=
  match atts with
  | [] => old
  | (n, v) :: atts => if bool_decide (n = name) then Some v else header_attr name atts old
  end.

Section sx.
Context {W P : Type} `{!SxEnv W P} (plugins : list (plugin W P)).

(** ** Events, queues *)

Definition _sx_event (e : sx_event) : sxM W P (Z * text) :=
  upd (λ s, with_x_reentry (x_reentry s + 1) s);;
  r ← sx_cb e;
  upd (λ s, with_x_reentry (x_reentry s - 1) s);;
  mret r.
Definition event (e : sx_event) : sxM W P unit := _sx_event e;; mret ().
Definition _sx_state (st : sx_state) : sxM W P unit := upd (with_x_state st).

(** [jqueue_push(s->wbufq, _sx_buffer_new(...), priority)] *)
Definition push_wbufq (b : sx_buf) (priority : Z) : sxM W P unit :=
  upd (λ s, with_x_wbufq (jqueue_push (x_wbufq s) b priority) s).
Definition push_text (t : string) : sxM W P unit := push_wbufq (SxBuf (tx t) None) 0.
(** The first [len] bytes of a string and its NUL; more is a read past its end. *)
Definition push_sized (t : string) (len : Z) : sxM W P unit :=
  if (len <=? strlen t + 1)%Z then push_wbufq (SxBuf (take (Z.to_nat len) (tx t ++ [nul])) None) 0 else crash.
Definition want_write (v : Z) : sxM W P unit := upd (with_x_want_write v).
Definition want_read (v : Z) : sxM W P unit := upd (with_x_want_read v).

(** ** Chains: sx/chain.c *)

(** The plugins of an environment that have the function; none without an environment. *)
Definition env_plugins : sxM W P (list (plugin W P)) := e ← gets x_env; mret (if e : bool then plugins else []).
Definition run_opt (o : option (sxM W P unit)) : sxM W P unit := default (mret ()) o.

Definition _sx_chain_io_plugin (p : nat) : sxM W P unit :=
  upd (λ s, with_x_rio (x_rio s ++ [p]) (with_x_wio (p :: x_wio s) s)).
Definition _sx_chain_nad_plugin (p : nat) : sxM W P unit :=
  upd (λ s, with_x_rnad (x_rnad s ++ [p]) (with_x_wnad (p :: x_wnad s) s)).

(** The loop of the io chains, which ends at the first result that is not positive. *)
Fixpoint chain_io (f : plugin W P → option (sx_buf → sxM W P (sx_buf * Z))) (scan : list nat) (buf : sx_buf) (ret : Z) :
    sxM W P (sx_buf * Z) :=
  match scan with
  | [] => mret (buf, ret)
  | i :: scan =>
    match plugins !! i with
    | None => crash
    | Some p =>
      match f p with
      | None => chain_io f scan buf ret
      | Some io => '(buf, ret) ← io buf; if (ret <=? 0)%Z then mret (buf, ret) else chain_io f scan buf ret
      end
    end
  end.
Definition _sx_chain_io_write (buf : sx_buf) : sxM W P (sx_buf * Z) :=
  l ← gets x_wio; chain_io p_wio l buf 1.
Definition _sx_chain_io_read (buf : sx_buf) : sxM W P (sx_buf * Z) :=
  l ← gets x_rio; chain_io p_rio l buf 1.

(** The nad, and whether it is still to be handled. *)
Fixpoint chain_nad (f : plugin W P → option (nad → sxM W P (nad * bool))) (scan : list nat) (n : nad) :
    sxM W P (nad * bool) :=
  match scan with
  | [] => mret (n, true)
  | i :: scan =>
    match plugins !! i with
    | None => crash
    | Some p =>
      match f p with
      | None => chain_nad f scan n
      | Some g => '(n, go) ← g n; if go : bool then chain_nad f scan n else mret (n, false)
      end
    end
  end.
Definition _sx_chain_nad_write (n : nad) (elem : Z) : sxM W P (nad * bool) :=
  l ← gets x_wnad; chain_nad (λ p, (λ f n, f n elem) <$> p_wnad p) l n.
Definition _sx_chain_nad_read (n : nad) : sxM W P (nad * bool) :=
  l ← gets x_rnad; chain_nad p_rnad l n.

(** ** Making and resetting: sx/sx.c *)

Definition sx_zero (tag : Z) : sx P :=
  Sx false tag type_NONE 0 None None None None None None None None [] [] [] []
    (jqueue_new 0) None (jqueue_new 0) 0 0 0 0 0 0 state_NONE xml_new EHNone NHNone false
    0 false None None None 0 false 0.
Definition sx_new (w : W) (env : bool) (tag : Z) : option (W * sx P) :=
  '(c, _) ← (ps ← env_plugins; for_each (λ p, run_opt (p_new p)) ps) (w, with_x_env env (sx_zero tag));
  Some c.

(** The world that is left; [None]: the assertion that the stream is not in use. *)
Definition sx_free (w : W) (s : sx P) : option W :=
  if bool_decide (x_reentry s = 0)%Z then
    '(c, _) ← (ps ← env_plugins; for_each (λ p, run_opt (p_free p)) ps) (w, s);
    Some c.1
  else None.

Definition sx_auth (auth_method auth_id : option string) : sxM W P unit :=
  when (bool_decide (is_Some auth_method)) (upd (with_x_auth_method auth_method));;
  when (bool_decide (is_Some auth_id)) (upd (with_x_auth_id auth_id));;
  _sx_state state_OPEN;;
  event event_OPEN.

Definition _sx_reset : sxM W P unit :=
  upd (λ s,
    let new := sx_zero (x_tag s) in
    Sx (x_env s) (x_tag s) (x_type new) (x_flags s) (x_ns new) (x_req_to new) (x_req_from new) (x_req_version new)
      (x_res_to new) (x_res_from new) (x_res_version new) (x_id new) (x_wio s) (x_rio s) (x_wnad s) (x_rnad s)
      (x_wbufq new) (x_wbufpending new) (x_rnadq new) (x_want_read new) (x_want_write new) (x_rbytes new) (x_pbytes new)
      (x_tbytes new) (x_rbytesmax s) (x_state new) (x_expat new) (x_helem new) (x_hns new) (x_hcdata new)
      (x_depth new) (x_fail new) (x_nad new) (x_auth_method new) (x_auth_id new) (x_reentry s) true (x_ssf s)).

(** ** Errors: sx/error.c *)

(** [buf->len--; assert(len == buf->len)]: the text fills the buffer and its NUL. *)
Definition push_counted (len : Z) (t : string) : sxM W P unit :=
  if (strlen t =? len - 1)%Z then push_text t else crash.
Definition error_len (err : string) (text : option string) : Z :=
  (strlen uri_STREAMS + strlen uri_STREAM_ERR + strlen err + 58
   + match text with Some t => strlen uri_STREAM_ERR + strlen t + 22 | None => 0 end)%Z.
Definition error_extended_len (ws_pre : bool) (err : string) (content : option string) : Z :=
  ((if ws_pre then strlen uri_STREAMS + 61 else 0) + (strlen uri_STREAMS + strlen uri_STREAM_ERR + strlen err + 58)
   + match content with Some t => strlen t + strlen err + 2 | None => 0 end)%Z.

Definition _sx_error (err : Z) (text : option string) : sxM W P unit :=
  s ← gets id;
  let before := negb (state_ge (x_state s) state_STREAM) in
  when before (push_sized (error_open_text (is_websocket s)) (error_open_len (is_websocket s)));;
  name ← lift (_stream_errors !! Z.to_nat err);
  push_counted (error_len name text) (error_text name text);;
  when before (push_sized (close_text (is_websocket s)) (close_len (is_websocket s)));;
  want_write 1.
Definition sx_error (err : Z) (text : option string) : sxM W P unit :=
  if ((0 <=? err) && (err <? stream_err_LAST))%Z then _sx_error err text;; event event_WANT_WRITE else crash.

Definition _sx_error_extended (err : Z) (content : option string) : sxM W P unit :=
  s ← gets id;
  let before := negb (state_ge (x_state s) state_STREAM) in
  name ← lift (_stream_errors !! Z.to_nat err);
  push_counted (error_extended_len before name content)
    ((if before then error_open_text false else "") +:+ error_extended_text name content
     +:+ (if before then close_text false else ""));;
  want_write 1.
Definition sx_error_extended (err : Z) (content : option string) : sxM W P unit :=
  if ((0 <=? err) && (err <? stream_err_LAST))%Z then _sx_error_extended err content;; event event_WANT_WRITE else crash.

(** ** Writing and closing: sx/io.c *)

Definition _sx_close : sxM W P unit :=
  s ← gets id;
  when (state_ge (x_state s) state_STREAM_SENT) (push_sized (close_text (is_websocket s)) (close_len (is_websocket s));; want_write 1);;
  _sx_state state_CLOSING.
Definition sx_kill : sxM W P unit := _sx_state state_CLOSED;; event event_CLOSED.
Definition sx_close : sxM W P unit :=
  st ← gets x_state;
  if state_ge st state_CLOSING then mret ()
  else if state_ge st state_STREAM_SENT && negb (state_ge st state_CLOSING) then _sx_close;; event event_WANT_WRITE
  else _sx_state state_CLOSED;; event event_CLOSED.

(** [true] where the source returns 1: nothing was queued. *)
Definition _sx_nad_write (n : nad) (elem : Z) : sxM W P bool :=
  st ← gets x_state;
  if state_ge st state_CLOSING then mret true
  else
    '(n, go) ← _sx_chain_nad_write n elem;
    if negb go then mret true
    else push_wbufq (SxBuf (nad_print n elem).2 None) 0;; want_write 1;; mret false.
(** The events after something was queued. *)
Definition ask_write : sxM W P unit :=
  want_write 1;;
  event event_WANT_WRITE;;
  wr ← gets x_want_read;
  when (negb (wr =? 0)%Z) (event event_WANT_READ).
Definition sx_nad_write_elem (n : nad) (elem : Z) : sxM W P unit :=
  r ← _sx_nad_write n elem; when (negb r) ask_write.
Definition sx_nad_write (n : nad) : sxM W P unit := sx_nad_write_elem n 0.
Definition _sx_raw_write (buf : text) : sxM W P bool :=
  st ← gets x_state;
  if state_ge st state_CLOSING then mret true
  else push_wbufq (SxBuf buf None) 0;; want_write 1;; mret false.
Definition sx_raw_write (buf : text) : sxM W P unit :=
  if bool_decide (buf = []) then crash else r ← _sx_raw_write buf; when (negb r) ask_write.
End sx.
