(* ===== verification/SxIo.v ===== *)
(** * Reading, the handshake and the loop of a stream: sx/callback.c, sx/client.c, sx/server.c, sx/io.c

    What the parser calls, the headers of both sides, and the two entry points
    of the application's loop, [sx_can_read] and [sx_can_write]. *)
From S2P Require Import Prelude.
From S2P Require Import CStr.
From S2P Require Import JQueue.
From S2P Require Import Codec.
From S2P Require Import Nad.
From S2P Require Import Stanza.
From S2P Require Import Pkt.
From S2P Require Import SxState.
From S2P Require Import Sx.

(** [r = (int) (36.0 * rand() / RAND_MAX)] as a character of the stream id. *)
Definition id_char (r : Z) : ascii := if ((0 <=? r) && (r <=? 9))%Z then char_of (r + 48) else char_of (r + 87).

(** [NAD_ENS(nad, 0) >= 0] and the namespace and name of the first element. *)
Definition root_is (n : nad) (uri name : string) : bool :=
  (0 <=? nad_ens n 0)%Z && same_text (n_luri (ns_at n (nad_ens n 0))) (nad_nuri n (nad_ens n 0)) (tx uri) &&
  same_text (e_lname (elem_at n 0)) (nad_ename n 0) (tx name).

Section sx.
Context {W P : Type} `{!SxEnv W P} (plugins : list (plugin W P)).

(** ** What the parser calls: sx/callback.c *)

Definition the_nad (s : sx P) : nad := default nad_new (x_nad s).

Definition _sx_element_start (name : string) (atts : list (string * string)) : sxM W P unit :=
  s ← gets id;
  if x_fail s : bool then mret ()
  else
    let '(u, elem) := name_bits name in
    let '(n, ns) := match u with
                    | Some (uri, prefix) => nad_add_namespace (the_nad s) uri prefix
                    | None => (the_nad s, (-1)%Z)
                    end in
    let '(n, el) := nad_append_elem n ns elem (x_depth s - 1) in
    let n := foldl (λ n att, _nad_parse_attr n el att) n atts in
    upd (λ s, with_x_depth (x_depth s + 1) (with_x_nad (Some n) s)).

Definition _sx_element_end : sxM W P unit :=
  fail ← gets x_fail;
  if fail : bool then mret ()
  else
    upd (λ s, with_x_depth (x_depth s - 1) s);;
    d ← gets x_depth;
    if (d =? 1)%Z then
      upd (λ s, with_x_nad None (with_x_rnadq (jqueue_push (x_rnadq s) (x_nad s) 0) s));;
      upd (λ s, with_x_pbytes 0 (with_x_rbytes 0 s))
    else when (d =? 0)%Z (upd (with_x_depth (-1))).

Definition _sx_cdata (t : text) : sxM W P unit :=
  s ← gets id;
  if x_fail s : bool then mret ()
  else match x_nad s with
       | None => mret ()
       | Some n => upd (with_x_nad (Some (nad_append_cdata n t (x_depth s - 1))))
       end.

Definition _sx_namespace_start (prefix uri : option string) : sxM W P unit :=
  s ← gets id;
  if x_fail s : bool then mret ()
  else match uri with
       | None => mret ()
       | Some uri =>
         let '(n, ns) := nad_add_namespace (the_nad s) uri prefix in
         upd (with_x_nad (Some (set_scope n ns)))
       end.

Definition set_stream_handlers : sxM W P unit :=
  upd (λ s, with_x_hns NHStream (with_x_hcdata true (with_x_helem EHStream s))).

(** A header that is no stream header. *)
Definition bad_header : sxM W P unit :=
  event (event_ERROR SX_ERR_STREAM "Stream error" (Some "Expected stream open"));;
  _sx_error stream_err_BAD_FORMAT None;;
  upd (with_x_fail true).

(** The plugins' part of a header that is going out, and its place in the queue. *)
Definition push_header (fn : notify_fn) (t : string) : sxM W P unit :=
  ps ← env_plugins plugins;
  buf ← (fix go ps buf := match ps with
                          | [] => mret buf
                          | p :: ps => buf ← match p_header p with Some h => h buf | None => mret buf end; go ps buf
                          end) ps (SxBuf (tx t) (Some fn));
  push_wbufq buf 0.

(** The [stream] functions of the plugins; the state, where none of them set it. *)
Definition established : sxM W P unit :=
  ps ← env_plugins plugins;
  for_each (λ p, run_opt (p_stream p)) ps;;
  st ← gets x_state;
  when (negb (state_ge st state_STREAM)) (_sx_state state_STREAM;; event event_STREAM).

(** ** The client: sx/client.c *)

Definition _sx_client_element_start (name : string) (atts : list (string * string)) : sxM W P unit :=
  s ← gets id;
  if x_fail s : bool then mret ()
  else if negb (name_is (uri_STREAMS +:+ "|stream") name) then bad_header
  else
    upd (λ s, with_x_id (header_attr "id" atts (x_id s)) (with_x_res_version (header_attr "version" atts (x_res_version s))
      (with_x_res_from (header_attr "from" atts (x_res_from s)) (with_x_res_to (header_attr "to" atts (x_res_to s)) s))));;
    upd (λ s, with_x_depth (x_depth s + 1) s);;
    set_stream_handlers;;
    established.

(** [_sx_client_element_end] and [_sx_server_element_end] *)
Definition header_element_end : sxM W P unit :=
  fail ← gets x_fail;
  when (negb fail) (upd (λ s, with_x_depth (x_depth s - 1) s)).

Definition _sx_client_notify_header : sxM W P unit :=
  upd (with_x_helem EHClient);;
  _sx_state state_STREAM_SENT;;
  want_read 1.

(** [assert(buf->len == strlen(buf->data) + 1)]: the text fills the buffer. *)
Definition push_counted_header (len : Z) (fn : notify_fn) (t : string) : sxM W P unit :=
  if (len =? strlen t + 1)%Z then push_header fn t else crash.

Definition sx_client_init (flags : Z) (ns to from version : option string) : sxM W P unit :=
  st ← gets x_state;
  if bool_decide (st ≠ state_NONE) then mret ()
  else
    upd (λ s, with_x_flags flags (with_x_type type_CLIENT s));;
    upd (λ s, with_x_req_version (if version then version else x_req_version s)
      (with_x_req_from (if from then from else x_req_from s) (with_x_req_to (if to then to else x_req_to s)
      (with_x_ns (if ns then ns else x_ns s) s))));;
    ps ← env_plugins plugins;
    for_each (λ p, run_opt (p_client p)) ps;;
    push_counted_header (client_header_len ns to from version + 1) NotifyClientHeader (client_header ns to from version);;
    want_write 1;;
    event event_WANT_WRITE.

(** ** The server: sx/server.c *)

(** The stream id: 40 times [rand]. *)
Fixpoint random_id (k : nat) (w : W) : W * string :=
  match k with
  | O => (w, "")
  | S k =>
    let '(w, r) := sx_rand w in
    let '(w, t) := random_id k w in
    (w, String (id_char (36 * r `div` RAND_MAX)) t)
  end.

Definition _sx_server_element_start (name : string) (atts : list (string * string)) : sxM W P unit :=
  s ← gets id;
  let ws := is_websocket s in
  if x_fail s : bool then mret ()
  else if negb (name_is (if ws then uri_XFRAMING +:+ "|open" else uri_STREAMS +:+ "|stream") name) then bad_header
  else
    upd (λ s, with_x_req_version (header_attr "version" atts (x_req_version s))
      (with_x_req_from (header_attr "from" atts (x_req_from s)) (with_x_req_to (header_attr "to" atts (x_req_to s)) s)));;
    s ← gets id;
    if match x_req_version s with Some v => bool_decide (v ≠ "1.0") | None => false end then
      event (event_ERROR SX_ERR_STREAM "Stream error" (Some "Unsupported version"));;
      _sx_error stream_err_UNSUPPORTED_VERSION None;;
      upd (with_x_fail true)
    else
      _sx_state state_STREAM_RECEIVED;;
      upd (λ s, with_x_res_version (if x_req_version s then Some "1.0" else x_res_version s)
        (with_x_res_to (if x_req_from s then x_req_from s else x_res_to s)
        (with_x_res_from (if x_req_to s then x_req_to s else x_res_from s) s)));;
      sid ← world (random_id 40);
      upd (with_x_id (Some sid));;
      s ← gets id;
      push_counted_header (server_header_len ws (x_ns s) (x_res_to s) (x_res_from s) (x_res_version s)) NotifyServerHeader
        (server_header ws (x_ns s) (x_res_to s) (x_res_from s) (x_res_version s) sid);;
      upd (λ s, with_x_depth (x_depth s + 1) s);;
      set_stream_handlers;;
      want_write 1.

Definition _sx_server_ns_start (prefix uri : option string) : sxM W P unit :=
  s ← gets id;
  match prefix, uri, x_ns s with
  | None, Some uri, None => upd (λ s, with_x_hns NHNone (with_x_ns (Some uri) s))
  | _, _, _ => mret ()
  end.

Definition sx_server_init (flags : Z) : sxM W P unit :=
  st ← gets x_state;
  if bool_decide (st ≠ state_NONE) then mret ()
  else
    upd (λ s, with_x_flags flags (with_x_type type_SERVER s));;
    ps ← env_plugins plugins;
    for_each (λ p, run_opt (p_server p)) ps;;
    upd (λ s, with_x_hns NHServer (with_x_helem EHServer s));;
    want_read 1;;
    event event_WANT_READ.

(** ** The parser *)

Definition call (ev : xml_event) : sxM W P unit :=
  s ← gets id;
  match ev with
  | XStart name atts =>
    match x_helem s with
    | EHNone => mret ()
    | EHServer => _sx_server_element_start name atts
    | EHClient => _sx_client_element_start name atts
    | EHStream => _sx_element_start name atts
    end
  | XEnd =>
    match x_helem s with
    | EHNone => mret ()
    | EHServer | EHClient => header_element_end
    | EHStream => _sx_element_end
    end
  | XCdata t => if x_hcdata s : bool then _sx_cdata t else mret ()
  | XNamespace prefix uri =>
    match x_hns s with
    | NHNone => mret ()
    | NHServer => _sx_server_ns_start prefix uri
    | NHStream => _sx_namespace_start prefix uri
    end
  end.

(** The calls in order; the declaration of an entity stops the parser
    ([_sx_entity_declaration]).  Whether it went to the end. *)
Fixpoint calls (l : list xml_call) : sxM W P bool :=
  match l with
  | [] => mret true
  | XCall ev :: l => call ev;; calls l
  | XEntity :: _ => upd (λ s, with_x_expat (xml_stop (x_expat s)) s);; mret false
  end.

(** [XML_Parse(s->expat, buf->data, buf->len, 0)], not zero. *)
Definition XML_Parse (buf : text) : sxM W P bool :=
  e ← gets x_expat;
  let '(e, l, ok) := xml_parse e buf in
  upd (with_x_expat e);;
  done ← calls l;
  mret (done && ok).

(** ** Reading: sx/io.c *)

(** What a stream error says: its text element, its own text, or all of it. *)
Definition stream_error_text (n : nad) : string :=
  let ns := nad_find_scoped_namespace n uri_STREAM_ERR None in
  let elem := if (0 <=? ns)%Z then nad_find_elem n 0 ns (Some "text") 1 else (-1)%Z in
  if (0 <=? elem)%Z && (0 <? e_lcdata (elem_at n elem))%Z then cstr_of (nad_cdata n elem)
  else if (0 <? e_lcdata (elem_at n 0))%Z then cstr_of (nad_cdata n 0)
  else cstr_of (nad_print n 0).2.

(** [process] of the plugins, until one has handled the packet. *)
Fixpoint process_plugins (ps : list (plugin W P)) (n : nad) : sxM W P (nad * bool) :=
  match ps with
  | [] => mret (n, true)
  | p :: ps =>
    match p_process p with
    | None => process_plugins ps n
    | Some g => '(n, go) ← g n; if go : bool then process_plugins ps n else mret (n, false)
    end
  end.

(** How the loop over the packets goes on: the next, the end of the loop, or the end of the function. *)
Inductive loop_end := LNext | LBreak | LReturn.

Definition process_nad (n : nad) : sxM W P loop_end :=
  s ← gets id;
  if root_is n uri_STREAMS "error" then
    when (negb (state_ge (x_state s) state_CLOSING))
      (event (event_ERROR SX_ERR_STREAM "Stream error" (Some (stream_error_text n)));;
       _sx_state state_CLOSING);;
    mret LBreak
  else if is_websocket s && root_is n uri_XFRAMING "close" then
    upd (with_x_fail true);; mret LBreak
  else
    '(n, go) ← _sx_chain_nad_read plugins n;
    if negb go then mret LReturn
    else
      ps ← env_plugins plugins;
      '(n, go) ← process_plugins ps n;
      st ← gets x_state;
      when (go && negb (state_ge st state_CLOSING)) (event (event_PACKET n));;
      mret LNext.

(** [while((nad = jqueue_pull(s->rnadq)) != NULL)]: [false] where the function returns.  With
    more turns left than there are packets the loop ends by itself. *)
Fixpoint process_nads (fuel : nat) : sxM W P bool :=
  match fuel with
  | O => crash
  | S fuel =>
    q ← gets x_rnadq;
    let '(q, n) := jqueue_pull q in
    upd (with_x_rnadq q);;
    match n with
    | Some (Some n) =>
      r ← process_nad n;
      match r with LNext => process_nads fuel | LBreak => mret true | LReturn => mret false end
    | _ => mret true
    end
  end.

(** [_sx_gen_error], [event_ERROR], [_sx_error], [_sx_close] of the two refusals. *)
Definition refuse (generic : string) (specific : option string) (err : Z) (errstring : option string) : sxM W P unit :=
  event (event_ERROR SX_ERR_XML_PARSE generic specific);;
  _sx_error err errstring;;
  _sx_close.

Definition _sx_process_read (buf : text) : sxM W P unit :=
  upd (λ s, with_x_pbytes (int32 (x_pbytes s + Z.of_nat (length buf))) s);;
  ok ← XML_Parse buf;
  s ← gets id;
  let errstring := xml_error (x_expat s) in
  if negb ok then
    when (negb (x_fail s)) (refuse "XML parse error" errstring stream_err_XML_NOT_WELL_FORMED errstring)
  else if negb (x_rbytesmax s =? 0)%Z && (x_rbytesmax s <? x_pbytes s)%Z then
    refuse "stream read error" (Some "Maximum stanza size exceeded") stream_err_POLICY_VIOLATION errstring
  else
    upd (λ s, with_x_tbytes (int32 (x_tbytes s + Z.of_nat (length buf))) s);;
    go ← (if state_ge (x_state s) state_STREAM then process_nads (S (size (q_heap (x_rnadq s)))) else mret true);
    if negb go then mret ()
    else
      s ← gets id;
      if x_fail s : bool then _sx_close
      else when ((x_depth s <? 0)%Z && negb (state_ge (x_state s) state_CLOSING)) _sx_close.

(** ** The loop of the application *)

(** The end of both functions: when everything is written and the stream is closing, the
    application is told; [None] where the function goes on. *)
Definition finish : sxM W P (option Z) :=
  s ← gets id;
  if (x_want_write s =? 0)%Z && bool_decide (x_state s = state_CLOSING) then
    _sx_state state_CLOSED;; event event_CLOSED;; mret (Some 0%Z)
  else if bool_decide (x_state s = state_CLOSED) then mret (Some 0%Z)
  else mret None.

(** The value of [want_read], after asking to write; of [want_write], after asking to read. *)
Definition then_write : sxM W P Z :=
  w ← gets x_want_write;
  when (negb (w =? 0)%Z) (event event_WANT_WRITE);;
  gets x_want_read.
Definition then_read : sxM W P Z :=
  r ← gets x_want_read;
  when (negb (r =? 0)%Z) (event event_WANT_READ);;
  gets x_want_write.

Definition sx_can_read : sxM W P Z :=
  s ← gets id;
  if (x_want_read s =? 0)%Z && negb (state_ge (x_state s) state_CLOSING) then mret 0%Z
  else
    '(read, buf) ← _sx_event (event_READ 1024);
    if (read <? 0)%Z then want_read 0;; want_write 0;; mret 0%Z
    else
      stop ← (if (read =? 0)%Z then mret false
              else
                upd (λ s, with_x_rbytes (int32 (x_rbytes s + Z.of_nat (length buf))) s);;
                '(out, ret) ← _sx_chain_io_read plugins (SxBuf buf None);
                s ← gets id;
                let ret := if negb (x_rbytesmax s =? 0)%Z && (x_rbytesmax s <? x_rbytes s)%Z then (-1)%Z else ret in
                if (ret <=? 0)%Z then
                  when (ret <? 0)%Z (want_read 0;; want_write 0);; mret true
                else _sx_process_read (bf_data out);; mret false);
      if stop : bool then then_write
      else
        r ← finish;
        match r with Some v => mret v | None => then_write end.

(** ** Writing: sx/server.c and sx/io.c *)

Definition append_features : sxM W P unit :=
  let '(n, ns) := nad_add_namespace nad_new uri_STREAMS (Some "stream") in
  let '(n, _) := nad_append_elem n ns "features" 0 in
  ps ← env_plugins plugins;
  n ← (fix go ps n := match ps with
                      | [] => mret n
                      | p :: ps => n ← match p_features p with Some f => f n | None => mret n end; go ps n
                      end) ps n;
  push_wbufq (SxBuf (nad_print n 0).2 None) 0;;
  want_write 1.

Definition _sx_server_notify_header : sxM W P unit :=
  established;;
  v ← gets x_req_version;
  when (bool_decide (v = Some "1.0")) append_features;;
  s ← gets id;
  when ((0 <? jqueue_size (x_rnadq s))%Z && bool_decide (x_state s = state_STREAM ∨ x_state s = state_OPEN))
    (_sx_process_read []).

(** [_sx_compress_notify_compress] *)
Definition _sx_compress_notify_compress : sxM W P unit :=
  _sx_reset;;
  f ← gets x_flags;
  sx_server_init (Z.lor f SX_COMPRESS_WRAPPER).

Definition notify (fn : notify_fn) : sxM W P unit :=
  match fn with
  | NotifyServerHeader => _sx_server_notify_header
  | NotifyClientHeader => _sx_client_notify_header
  | NotifyCompress => _sx_compress_notify_compress
  | NotifyPlugin k => sx_notify k
  end.

(** The priority of the node in front. *)
Definition front_priority (q : @jqueue sx_buf) : Z :=
  match q_front q ≫= (λ a, q_heap q !! a) with Some n => jn_priority n | None => 0 end.

Definition _sx_get_pending_write : sxM W P Z :=
  pend ← gets x_wbufpending;
  match pend with
  | Some _ => mret 0%Z
  | None =>
    q ← gets x_wbufq;
    let '(q, b) := jqueue_pull q in
    upd (with_x_wbufq q);;
    let inb := default (SxBuf [] None) b in
    want_write (jqueue_size q);;
    '(out, ret) ← _sx_chain_io_write plugins inb;
    if (ret <=? 0)%Z then
      when (ret =? -1)%Z (q ← gets x_wbufq; push_wbufq inb (front_priority q);; want_write 1);;
      if (ret =? -2)%Z then want_read 0;; want_write 0;; mret (-1)%Z else mret 0%Z
    else
      when (negb (bf_len out =? 0)%Z) (upd (with_x_wbufpending (Some out)));; mret 0%Z
  end.

Definition sx_can_write : sxM W P Z :=
  s ← gets id;
  if (x_want_write s =? 0)%Z && negb (state_ge (x_state s) state_CLOSING) then mret 0%Z
  else
    ret ← _sx_get_pending_write;
    if (ret <? 0)%Z then sx_kill;; mret 0%Z
    else
      pend ← gets x_wbufpending;
      match pend with
      | None => then_read
      | Some out =>
        upd (with_x_wbufpending None);;
        '(written, _) ← _sx_event (event_WRITE out);
        if (written <? 0)%Z then want_read 0;; want_write 0;; mret 0%Z
        else
          (if (written <? bf_len out)%Z then
             upd (with_x_wbufpending (Some (SxBuf (drop (Z.to_nat written) (bf_data out)) (bf_notify out))));;
             upd (λ s, with_x_want_write (x_want_write s + 1) s)
           else match bf_notify out with Some fn => notify fn | None => mret () end);;
          r ← finish;
          match r with Some v => mret v | None => then_read end
      end.

(** ** The application's loop as a machine *)

Inductive sx_op :=
  | OpRead | OpWrite
  | OpNad (n : nad) (elem : Z) | OpRaw (t : text)
  | OpError (err : Z) (t : option string) | OpErrorExtended (err : Z) (t : option string)
  | OpClose | OpKill | OpAuth (auth_method auth_id : option string).

Definition sx_do (o : sx_op) : sxM W P unit :=
  match o with
  | OpRead => sx_can_read;; mret ()
  | OpWrite => sx_can_write;; mret ()
  | OpNad n elem => sx_nad_write_elem plugins n elem
  | OpRaw t => sx_raw_write t
  | OpError err t => sx_error err t
  | OpErrorExtended err t => sx_error_extended err t
  | OpClose => sx_close
  | OpKill => sx_kill
  | OpAuth m i => sx_auth m i
  end.
Definition sx_run (l : list sx_op) : sxM W P unit := for_each sx_do l.
End sx.
