(* ===== verification/SxLogic.v ===== *)
(** * Reasoning about the computations of a stream

    [runs m c Q]: from [c] the computation ends, with what [Q] says of the next
    state and the result.  [keeps]: what is left alone of what is being read;
    [safe]: the invariant, which is all that an application keeps that writes from
    its callback; the laws that are asked of it, of the plugins and of the parser. *)
From S2P Require Import Prelude.
From S2P Require Import CStr.
From S2P Require Import DList.
From S2P Require Import JQueue.
From S2P Require Import Nad.
From S2P Require Import NadThms.
From S2P Require Import Stanza.
From S2P Require Import Pkt.
From S2P Require Import SxState.
From S2P Require Import Sx.
From S2P Require Import SxIo.

(** ** The calculus *)

Section calculus.
Context {W P : Type}.
Implicit Types (c : W * sx P).

Lemma runs_ret {A} (a : A) c (Q : W * sx P → A → Prop) : Q c a → runs (mret a) c Q.
Proof. intros H. by exists c, a. Qed.
Lemma runs_bind {A B} (m : sxM W P A) (f : A → sxM W P B) c Q :
  runs m c (λ c' a, runs (f a) c' Q) → runs (m ≫= f) c Q.
Proof.
  intros (c' & a & E & c2 & b & E2 & HQ). exists c2, b. split; [|done]. unfold mbind, sxM_bind. by rewrite E.
Qed.
Lemma runs_mono {A} (m : sxM W P A) c (Q Q' : W * sx P → A → Prop) :
  runs m c Q → (∀ c' a, Q c' a → Q' c' a) → runs m c Q'.
Proof. intros (c' & a & E & HQ) H. exists c', a. auto. Qed.
Lemma runs_gets {A} (f : sx P → A) c (Q : W * sx P → A → Prop) : Q c (f c.2) → runs (gets f) c Q.
Proof. intros H. by exists c, (f c.2). Qed.
Lemma runs_upd (f : sx P → sx P) c (Q : W * sx P → unit → Prop) : Q (c.1, f c.2) () → runs (upd f) c Q.
Proof. intros H. by exists (c.1, f c.2), (). Qed.
Lemma runs_world {A} (f : W → W * A) c (Q : W * sx P → A → Prop) :
  Q ((f c.1).1, c.2) (f c.1).2 → runs (world f) c Q.
Proof. intros H. unfold runs, world. destruct (f c.1) as [w a]. by exists (w, c.2), a. Qed.
Lemma runs_lift {A} (o : option A) (a : A) c (Q : W * sx P → A → Prop) : o = Some a → Q c a → runs (lift o) c Q.
Proof. intros -> H. by exists c, a. Qed.
Lemma runs_when (b : bool) (m : sxM W P unit) c (Q : W * sx P → unit → Prop) :
  (b = true → runs m c Q) → (b = false → Q c ()) → runs (when b m) c Q.
Proof. destruct b; cbn; intros H1 H2; [by apply H1|]. apply runs_ret. by apply H2. Qed.
Lemma runs_and {A} (m : sxM W P A) c Q Q' : runs m c Q → runs m c Q' → runs m c (λ c' a, Q c' a ∧ Q' c' a).
Proof. intros (c1 & a1 & E1 & H1) (c2 & a2 & E2 & H2). rewrite E1 in E2. simplify_eq. by exists c2, a2. Qed.
End calculus.

(** One step through a computation. *)
Ltac rstep :=
  lazymatch goal with
  | |- runs (mbind _ _) _ _ => apply runs_bind
  | |- runs (mret _) _ _ => apply runs_ret
  | |- runs (gets _) _ _ => apply runs_gets
  | |- runs (upd _) _ _ => apply runs_upd; cbn [fst snd]
  | |- runs (when _ _) _ _ => apply runs_when; intros ?
  | |- runs (if ?b then _ else _) _ _ => let E := fresh "E" in destruct b eqn:E
  | |- runs (match ?o with _ => _ end) _ _ => let E := fresh "E" in destruct o eqn:E
  | |- runs (let _ := _ in _) _ _ => cbv zeta
  end.

(** ** The document that the parser is in *)

Inductive phase := Prolog (ns : bool) | Inside (d : nat) (ns : bool) | Epilog | Stopped.

(** What may be called in each phase; [ns]: a namespace was declared, and an element follows. *)
Definition phase_step (ph : phase) (ev : xml_event) : option phase :=
  match ph, ev with
  | Prolog _, XNamespace _ uri => if bool_decide (uri = Some "") then None else Some (Prolog true)
  | Prolog _, XStart name _ => if named name then Some (Inside 0 false) else None
  | Inside d _, XNamespace _ uri => if bool_decide (uri = Some "") then None else Some (Inside d true)
  | Inside d _, XStart name _ => if named name then Some (Inside (S d) false) else None
  | Inside (S d) false, XEnd => Some (Inside d false)
  | Inside O false, XEnd => Some Epilog
  | Inside d false, XCdata _ => Some (Inside d false)
  | _, _ => None
  end.
(** The phase after the calls; what follows the declaration of an entity is not called. *)
Fixpoint phase_after (ph : phase) (l : list xml_call) : option phase :=
  match l with
  | [] => Some ph
  | XCall ev :: l => ph ← phase_step ph ev; phase_after ph l
  | XEntity :: _ => Some Stopped
  end.

Class XmlLaws (W P : Type) `{SxEnv W P} := {
  xml_phase : P → phase;
  xml_phase_new : xml_phase xml_new = Prolog false;
  xml_phase_stop p : xml_phase (xml_stop p) = Stopped;
  xml_phase_parse p t p' l ok : xml_parse p t = (p', l, ok) →
    ∃ ph, phase_after (xml_phase p) l = Some ph ∧ (XEntity ∉ l → xml_phase p' = ph ∨ ok = false ∧ xml_phase p' = Stopped)
}.

(** The packet that is being built, inside [d] open elements below the root. *)
Definition building (d : nat) (ns : bool) (o : option nad) : Prop :=
  match o with
  | None => d = 0
  | Some n => bd_ok (BuildData n (Z.of_nat d)) ∧ (d = 0 → ns = true ∧ elems n = []) ∧ (0 < d → elems n ≠ [])
  end.

(** ** What is kept *)

(** A packet as the application gets it: a well-formed nad of one document. *)
Definition packet_ok (n : nad) : Prop := nad_ok n ∧ doc_ok (skel n) ∧ elems n ≠ [].

Definition no_client (b : sx_buf) : Prop := bf_notify b ≠ Some NotifyClientHeader.

(** What a run promises from state to state ([J]), with what it says of the buffers that
    are queued, and their priorities ([E]): it holds of changes that leave the buffers to
    be written alone, and of a buffer that is added. *)
Record frame {W P : Type} := Frame {
  fr_J : W * sx P → W * sx P → Prop;
  fr_E : sx_buf * Z → Prop;
  fr_refl c : fr_J c c;
  fr_trans c1 c2 c3 : fr_J c1 c2 → fr_J c2 c3 → fr_J c1 c3;
  fr_same c s : x_wbufq s = x_wbufq c.2 → x_wbufpending s = x_wbufpending c.2 → fr_J c (c.1, s);
  fr_push c b bl cl l : jq_rep (x_wbufq c.2) bl cl l → Forall fr_E l → fr_E (b, 0%Z) →
    fr_J c (c.1, with_x_wbufq (jqueue_push (x_wbufq c.2) b 0) c.2);
  fr_text t : fr_E (SxBuf t None, 0%Z);
  fr_header t : fr_E (SxBuf t (Some NotifyServerHeader), 0%Z);
  fr_no_client x : fr_E x → no_client x.1;
  fr_requeue x y : fr_E x → fr_E y → fr_E (x.1, y.2)
}.
Arguments frame : clear implicits.

Section keeps.
Context {W P : Type} `{!SxEnv W P} (plugins : list (plugin W P)) (F : frame W P).
Implicit Types (s : sx P) (c : W * sx P).
Notation J := (fr_J F).
Notation E := (fr_E F).

(** The queue of a server's stream is a queue, its chains name plugins. *)
Record usable s : Prop := {
  us_wq : ∃ bl cl l, jq_rep (x_wbufq s) bl cl l ∧ Forall E l;
  us_pending : ∀ b, x_wbufpending s = Some b → E (b, 0%Z);
  us_chains : Forall (λ i, i < length plugins) (x_wio s ++ x_rio s ++ x_wnad s ++ x_rnad s)
}.

Record keeps s s' : Prop := {
  ks_usable : usable s';
  ks_nad : x_nad s' = x_nad s;
  ks_depth : x_depth s' = x_depth s;
  ks_fail : x_fail s' = x_fail s;
  ks_rnadq : x_rnadq s' = x_rnadq s;
  ks_helem : x_helem s' = x_helem s;
  ks_hns : x_hns s' = x_hns s;
  ks_hcdata : x_hcdata s' = x_hcdata s;
  ks_expat : x_expat s' = x_expat s;
  ks_none : x_state s' = state_NONE → x_state s = state_NONE
}.
Lemma sx_keeps_refl s : usable s → keeps s s.
Proof. by split. Qed.
Lemma sx_keeps_trans s1 s2 s3 : keeps s1 s2 → keeps s2 s3 → keeps s1 s3.
Proof. intros [] []. split; try congruence; auto. Qed.

(** ** Computations that leave alone what is read *)

Definition kept c c' : Prop := keeps c.2 c'.2 ∧ J c c'.
Definition ready c : Prop := usable c.2.
Definition respects {A} (m : sxM W P A) : Prop := ∀ c, ready c → runs m c (λ c' _, kept c c').

Lemma kept_refl c : ready c → kept c c.
Proof. intros H. split; [by apply sx_keeps_refl|apply fr_refl]. Qed.
Lemma kept_trans c1 c2 c3 : kept c1 c2 → kept c2 c3 → kept c1 c3.
Proof. intros [H1 H2] [H3 H4]. split; [by eapply sx_keeps_trans|by eapply fr_trans]. Qed.
Lemma kept_ready c c' : kept c c' → ready c'.
Proof. intros [H _]. apply (ks_usable _ _ H). Qed.

Lemma respects_ret {A} (a : A) : respects (mret a).
Proof. intros c Hc. apply runs_ret. by apply kept_refl. Qed.
Lemma respects_bind {A B} (m : sxM W P A) (f : A → sxM W P B) :
  respects m → (∀ a, respects (f a)) → respects (m ≫= f).
Proof.
  intros Hm Hf c Hc. apply runs_bind. eapply runs_mono; [by apply Hm|]. cbv beta. intros c1 a H1.
  eapply runs_mono; [by apply Hf, (kept_ready _ _ H1)|]. cbv beta. intros c2 b H2. by eapply kept_trans.
Qed.
Lemma respects_gets {A} (f : sx P → A) : respects (gets f).
Proof. intros c Hc. apply runs_gets. by apply kept_refl. Qed.
(** A change of a field that is not read, queued or pending. *)
Lemma respects_upd (f : sx P → sx P) :
  (∀ s, usable s → keeps s (f s) ∧ x_wbufq (f s) = x_wbufq s ∧ x_wbufpending (f s) = x_wbufpending s) → respects (upd f).
Proof. intros Hf c Hc. apply runs_upd. destruct (Hf _ Hc) as (H1 & H2 & H3). split; [done|by apply fr_same]. Qed.
Lemma respects_when (b : bool) (m : sxM W P unit) : respects m → respects (when b m).
Proof. destruct b; [done|]. intros _. apply respects_ret. Qed.
Lemma respects_if {A} (b : bool) (m1 m2 : sxM W P A) : respects m1 → respects m2 → respects (if b then m1 else m2).
Proof. by destruct b. Qed.
Lemma respects_for_each {A} (f : A → sxM W P unit) l : Forall (λ a, respects (f a)) l → respects (for_each f l).
Proof.
  induction 1 as [|a l Ha _ IH]; cbn; [apply respects_ret|]. by apply respects_bind.
Qed.

(** ** The invariant: what is read agrees with the phase of the parser *)

Definition read_at (ph : phase) s : Prop :=
  x_fail s = true ∨
  match ph with
  | Prolog _ => x_helem s = EHServer ∧ x_hcdata s = false ∧ x_hns s ≠ NHStream ∧ x_depth s = 0%Z ∧ x_nad s = None
  | Inside d ns => x_helem s = EHStream ∧ x_hcdata s = true ∧ x_hns s = NHStream ∧
      x_depth s = (Z.of_nat d + 1)%Z ∧ building d ns (x_nad s)
  | Epilog | Stopped => True
  end.
Definition whole (o : option nad) : Prop := ∃ n, o = Some n ∧ packet_ok n.
Record reads (ph : phase) c : Prop := {
  rd_ready : ready c;
  rd_rnadq : ∃ l, fifo_rep (x_rnadq c.2) l ∧ Forall whole l;
  rd_at : read_at ph c.2;
  rd_helem : x_helem c.2 = EHServer ∨ x_helem c.2 = EHStream
}.

(** There are no more packets to process than before. *)
Definition no_more c c' : Prop :=
  ∀ l, fifo_rep (x_rnadq c.2) l → ∃ l', fifo_rep (x_rnadq c'.2) l' ∧ length l' ≤ length l.

Lemma no_more_refl c : no_more c c.
Proof. intros l Hl. by exists l. Qed.
Lemma no_more_trans c1 c2 c3 : no_more c1 c2 → no_more c2 c3 → no_more c1 c3.
Proof. intros H1 H2 l (l1 & Hl1 & ?)%H1. destruct (H2 _ Hl1) as (l2 & ? & ?). exists l2. split; [done|lia]. Qed.
Lemma no_more_same c c' : x_rnadq c'.2 = x_rnadq c.2 → no_more c c'.
Proof. intros E l Hl. exists l. by rewrite E. Qed.

Lemma keeps_reads ph c c' : keeps c.2 c'.2 → reads ph c → reads ph c'.
Proof.
  intros [Hu Hn Hd Hf Hq He Hs Hc Hx H0] [R1 R2 R3 R4]. split.
  - done.
  - by rewrite Hq.
  - revert R3. unfold read_at. rewrite Hf, He, Hs, Hc, Hd, Hn. done.
  - by rewrite He.
Qed.
Lemma kept_reads ph c c' : kept c c' → reads ph c → reads ph c'.
Proof. intros [H _]. by apply keeps_reads. Qed.

Context `{!XmlLaws W P}.

Definition sx_ok c : Prop := reads (xml_phase (x_expat c.2)) c.

(** What a computation keeps; [b]: it gives the stream no more packets, either. *)
Definition safe (b : bool) c c' : Prop := sx_ok c' ∧ J c c' ∧ (b = true → no_more c c').
Definition saves (b : bool) {A} (m : sxM W P A) : Prop := ∀ c, sx_ok c → runs m c (λ c' _, safe b c c').

Lemma sx_keeps_ok c c' : keeps c.2 c'.2 → sx_ok c → sx_ok c'.
Proof. intros H H0. unfold sx_ok. rewrite (ks_expat _ _ H). by eapply keeps_reads. Qed.
Lemma kept_ok c c' : kept c c' → sx_ok c → sx_ok c'.
Proof. intros [H _]. by apply sx_keeps_ok. Qed.
Lemma ok_ready c : sx_ok c → ready c.
Proof. apply rd_ready. Qed.
Lemma sx_safe_refl b c : sx_ok c → safe b c c.
Proof. intros H. split_and!; [done|apply fr_refl|intros _; apply no_more_refl]. Qed.
Lemma sx_safe_trans b c1 c2 c3 : safe b c1 c2 → safe b c2 c3 → safe b c1 c3.
Proof. intros (_ & H1 & N1) (H2 & H3 & N2). split_and!; [done|by eapply fr_trans|]. intros Hb. eapply no_more_trans; auto. Qed.
Lemma safe_weak b c c' : safe true c c' → safe b c c'.
Proof. intros (H1 & H2 & H3). split_and!; auto. Qed.
Lemma kept_safe b c c' : kept c c' → sx_ok c → safe b c c'.
Proof.
  intros H Hc. split_and!; [by eapply kept_ok|by apply H|]. intros _. apply no_more_same. apply (ks_rnadq _ _ (proj1 H)).
Qed.

Lemma saves_weak b {A} (m : sxM W P A) : saves true m → saves b m.
Proof. intros H c Hc. eapply runs_mono; [by apply H|]. cbv beta. intros c' _. apply safe_weak. Qed.
Lemma respects_saves b {A} (m : sxM W P A) : respects m → saves b m.
Proof. intros H c Hc. eapply runs_mono; [by apply H, ok_ready|]. cbv beta. intros c' _ K. by apply kept_safe. Qed.
Lemma saves_ret b {A} (a : A) : saves b (mret a).
Proof. apply respects_saves, respects_ret. Qed.
Lemma saves_gets b {A} (f : sx P → A) : saves b (gets f).
Proof. apply respects_saves, respects_gets. Qed.
Lemma saves_bind b {A B} (m : sxM W P A) (f : A → sxM W P B) : saves b m → (∀ a, saves b (f a)) → saves b (m ≫= f).
Proof.
  intros Hm Hf c Hc. apply runs_bind. eapply runs_mono; [by apply Hm|]. cbv beta. intros c1 a H1.
  eapply runs_mono; [apply Hf, H1|]. cbv beta. intros c2 x H2. by eapply sx_safe_trans.
Qed.
Lemma saves_when b (t : bool) (m : sxM W P unit) : saves b m → saves b (when t m).
Proof. destruct t; [done|]. intros _. apply saves_ret. Qed.
Lemma saves_if b {A} (t : bool) (m1 m2 : sxM W P A) : saves b m1 → saves b m2 → saves b (if t then m1 else m2).
Proof. by destruct t. Qed.
Lemma saves_for_each b {A} (f : A → sxM W P unit) l : Forall (λ a, saves b (f a)) l → saves b (for_each f l).
Proof.
  induction 1 as [|a l Ha _ IH]; cbn; [apply saves_ret|]. by apply saves_bind.
Qed.

(** ** The laws *)

(** What a plugin promises.  What it does while the parser calls or a stream is made leaves alone
    what is read, the rest keeps the invariant; what it passes on of a packet is a packet. *)
Record plugin_ok (p : plugin W P) : Prop := {
  po_new : ∀ m, p_new p = Some m → respects m;
  po_server : ∀ m, p_server p = Some m → respects m;
  po_stream : ∀ m, p_stream p = Some m → saves true m;
  po_wio : ∀ f b c, p_wio p = Some f → sx_ok c → E (b, 0%Z) → runs (f b) c (λ c' r, safe true c c' ∧ E (r.1, 0%Z));
  po_rio : ∀ f b, p_rio p = Some f → saves true (f b);
  po_wnad : ∀ f n e, p_wnad p = Some f → saves true (f n e);
  po_rnad : ∀ f n c, p_rnad p = Some f → sx_ok c → packet_ok n → runs (f n) c (λ c' r, safe true c c' ∧ packet_ok r.1);
  po_header : ∀ f b c, p_header p = Some f → ready c → E (b, 0%Z) → runs (f b) c (λ c' b', kept c c' ∧ E (b', 0%Z));
  po_features : ∀ f n, p_features p = Some f → saves true (f n);
  po_process : ∀ f n c, p_process p = Some f → sx_ok c → packet_ok n → runs (f n) c (λ c' r, safe true c c' ∧ packet_ok r.1)
}.

(** What the application and its plugins promise: its callback, and with it whatever of the stream's
    functions it calls there, keeps the invariant and the frame.  Of an error it is told while the
    parser calls, and takes no part in the reading then.  The event that writes has laws of its own. *)
Class AppLaws : Prop := {
  law_error code g sp c : ready c → runs (sx_cb (event_ERROR code g sp)) c (λ c' _, kept c c');
  law_cb e c : sx_ok c → (∀ n, e = event_PACKET n → packet_ok n) → (∀ b, e ≠ event_WRITE b) →
    runs (sx_cb e) c (λ c' _, safe true c c');
  law_plugins : Forall plugin_ok plugins;
  law_rand c : J c ((sx_rand c.1).1, c.2)
}.
End keeps.

(** The promise of a change that leaves alone what is written. *)
Ltac frame := cbn [fst snd]; first [apply fr_refl | by apply fr_same | done | eapply fr_trans; [eassumption|by apply fr_same]].

(** ** What the functions of a stream leave alone

    The functions that write, close and give events do not touch what is being
    read ([respects]); the counted texts fill their buffers exactly. *)

(** ** Counted texts *)

Lemma strlen_append a b : strlen (a +:+ b) = (strlen a + strlen b)%Z.
Proof. unfold strlen. rewrite sapp_length. lia. Qed.
Lemma opt_attr_len name k s : (strlen name + 4 = k)%Z → strlen (opt_attr name s) = opt_len k s.
Proof.
  intros <-. destruct s as [v|]; cbn [opt_attr opt_len]; [|done]. rewrite !strlen_append. change (strlen " ") with 1%Z.
  change (strlen "='") with 2%Z. change (strlen "'") with 1%Z. lia.
Qed.

Ltac counted := rewrite ?strlen_append, ?(opt_attr_len "xmlns" 9), ?(opt_attr_len "to" 6), ?(opt_attr_len "from" 8),
    ?(opt_attr_len "version" 11) by done;
  repeat match goal with
  | |- context [strlen ?t] =>
    lazymatch t with uri_STREAMS => fail | uri_STREAM_ERR => fail | uri_XFRAMING => fail | String _ _ => idtac | EmptyString => idtac end;
    let v := eval vm_compute in (strlen t) in change (strlen t) with v
  end; try lia.

Lemma server_header_counted ws ns to from version id : strlen id = 40%Z →
  server_header_len ws ns to from version = (strlen (server_header ws ns to from version id) + 1)%Z.
Proof.
  intros Hid. unfold server_header, server_header_len. destruct ws; counted.
Qed.
Lemma client_header_counted ns to from version :
  (client_header_len ns to from version + 1)%Z = (strlen (client_header ns to from version) + 1)%Z.
Proof. unfold client_header, client_header_len. counted. Qed.
Lemma error_counted err text : strlen (error_text err text) = (error_len err text - 1)%Z.
Proof. unfold error_text, error_len. destruct text; counted. Qed.
Lemma error_extended_counted (before : bool) err content :
  strlen ((if before then error_open_text false else "") +:+ error_extended_text err content
     +:+ (if before then close_text false else "")) = (error_extended_len before err content - 1)%Z.
Proof.
  unfold error_extended_text, error_extended_len, error_text, error_open_text, close_text.
  destruct before, content; counted.
Qed.
Lemma close_counted ws : close_len ws = strlen (close_text ws).
Proof. by destruct ws. Qed.
Lemma error_open_counted ws : error_open_len ws = strlen (error_open_text ws).
Proof. by destruct ws. Qed.
Lemma take_counted t k : k = strlen t → take (Z.to_nat k) (tx t ++ [nul]) = tx t.
Proof.
  intros ->. unfold strlen, tx. rewrite Nat2Z.id. rewrite take_app_le.
  - apply take_ge. by rewrite chars_length.
  - by rewrite chars_length.
Qed.

Lemma Forall_bpush {D} (Q : D * Z → Prop) x c : Q x → Forall Q c → Forall Q (bpush x c).
Proof.
  intros Hx. induction 1 as [|y c Hy Hc IH]; cbn [bpush]; [by constructor|].
  destruct (_ <? _)%Z; constructor; auto.
Qed.

Section safe.
Context {W P : Type} `{!SxEnv W P} (plugins : list (plugin W P)) (F : frame W P).
Implicit Types (s : sx P) (c : W * sx P).
Notation E := (fr_E F).
Notation usable := (usable plugins F).
Notation keeps := (keeps plugins F).
Notation ready := (ready plugins F).
Notation kept := (kept plugins F).
Notation respects := (respects plugins F).
Notation plugin_ok := (plugin_ok plugins F).

(** ** Changes of single fields *)

(** A change that leaves the queue and the chains alone, and nothing of what is read. *)
Ltac field_kept := intros s [Hq Hp Hc]; split; [split; try done; try congruence|done].

Lemma respects_push b : E (b, 0%Z) → respects (push_wbufq b 0).
Proof.
  intros Hb c [(bl & cl & l & Hq & Hl) Hp Hc]. apply runs_upd. split; [|by eapply fr_push].
  split; try done. split; try done.
  destruct (jqueue_push_rep _ _ _ _ b 0 Hq) as (bl' & cl' & Hq'). exists bl', cl', (bpush (b, 0%Z) l).
  split; [done|]. by apply Forall_bpush.
Qed.
Lemma respects_push_text t : respects (push_text t).
Proof. apply respects_push, fr_text. Qed.
Lemma respects_push_sized t k : k = strlen t → respects (push_sized t k).
Proof.
  intros ->. unfold push_sized. destruct (Z.leb_spec (strlen t) (strlen t + 1)); [|lia]. apply respects_push, fr_text.
Qed.
Lemma respects_want_write v : respects (want_write v).
Proof. apply respects_upd. field_kept. Qed.
Lemma respects_want_read v : respects (want_read v).
Proof. apply respects_upd. field_kept. Qed.
Lemma respects_state st : st ≠ state_NONE → respects (_sx_state st).
Proof. intros Hst. apply respects_upd. field_kept. Qed.
Lemma respects_lift {A} (o : option A) : is_Some o → respects (lift o).
Proof. intros [a ->] c Hc. eapply runs_lift; [done|]. by apply kept_refl. Qed.
Lemma respects_env_plugins : respects (env_plugins plugins).
Proof. apply respects_bind; [apply respects_gets|intros e; apply respects_ret]. Qed.

Context `{!XmlLaws W P} `{!AppLaws plugins F}.
Notation sx_ok := (sx_ok plugins F).
Notation saves := (saves plugins F).

Lemma respects_error code g sp : respects (event (event_ERROR code g sp)).
Proof.
  unfold event, _sx_event. apply respects_bind; [|intros; apply respects_ret].
  apply respects_bind; [apply respects_upd; field_kept|intros []].
  apply respects_bind; [intros c Hc; by apply (law_error plugins F)|intros r].
  apply respects_bind; [apply respects_upd; field_kept|intros []]. apply respects_ret.
Qed.
Lemma saves_sx_event b e : (∀ n, e = event_PACKET n → packet_ok n) → (∀ t, e ≠ event_WRITE t) → saves b (_sx_event e).
Proof.
  intros He Hw. unfold _sx_event. apply saves_bind; [apply respects_saves, respects_upd; field_kept|intros []].
  apply saves_bind; [apply saves_weak; intros c Hc; by apply (law_cb plugins F)|intros r].
  apply saves_bind; [apply respects_saves, respects_upd; field_kept|intros []]. apply saves_ret.
Qed.
Lemma saves_event b e : (∀ n, e = event_PACKET n → packet_ok n) → (∀ t, e ≠ event_WRITE t) → saves b (event e).
Proof. intros He Hw. apply saves_bind; [by apply saves_sx_event|intros; apply saves_ret]. Qed.

Lemma env_plugins_runs c (Q : W * sx P → list (plugin W P) → Prop) :
  (∀ ps, Forall plugin_ok ps → Q c ps) → runs (env_plugins plugins) c Q.
Proof.
  intros H. apply runs_bind, runs_gets, runs_ret. apply H. destruct (x_env c.2); [exact (law_plugins plugins F)|constructor].
Qed.
Lemma respects_over (f : plugin W P → option (sxM W P unit)) :
  (∀ p, plugin_ok p → ∀ m, f p = Some m → respects m) →
  respects (ps ← env_plugins plugins; for_each (λ p, run_opt (f p)) ps).
Proof.
  intros Hf c Hc. apply runs_bind, env_plugins_runs. intros ps Hps. apply respects_for_each; [|done].
  eapply Forall_impl; [exact Hps|]. intros p Hp. cbv beta. unfold run_opt. destruct (f p) as [m|] eqn:E; [by apply (Hf p)|].
  apply respects_ret.
Qed.
End safe.

#[export] Hint Resolve respects_ret respects_gets respects_push respects_push_text respects_push_sized respects_want_write
  respects_want_read respects_state respects_lift respects_error respects_if respects_when : sx.
#[export] Hint Resolve fr_text fr_header : sx.

(** Through a computation of parts that respect, or that save. *)
Ltac resp :=
  repeat lazymatch goal with
  | |- respects _ _ (mbind _ _) => apply respects_bind; [|let r := fresh "r" in intros r; lazymatch type of r with prod _ _ => destruct r | _ => idtac end]
  | |- respects _ _ (mret _) => apply respects_ret
  | |- respects _ _ (gets _) => apply respects_gets
  | |- respects _ _ (when _ _) => apply respects_when
  | |- respects _ _ (if _ then _ else _) => apply respects_if
  | |- respects _ _ (let _ := _ in _) => cbv zeta
  end; try (solve [eauto with sx | (eauto using close_counted, error_open_counted with sx) | (apply respects_error; apply _) | (apply respects_state; done)]).
Ltac save :=
  repeat lazymatch goal with
  | |- saves _ _ _ (mbind _ _) => apply saves_bind; [|let r := fresh "r" in intros r; lazymatch type of r with prod _ _ => destruct r | _ => idtac end]
  | |- saves _ _ _ (mret _) => apply saves_ret
  | |- saves _ _ _ (gets _) => apply saves_gets
  | |- saves _ _ _ (when _ _) => apply saves_when
  | |- saves _ _ _ (if _ then _ else _) => apply saves_if
  | |- saves _ _ _ (let _ := _ in _) => cbv zeta
  | |- saves _ _ _ (event (event_ERROR _ _ _)) => apply respects_saves, respects_error; try apply _
  | |- saves _ _ _ (event _) => apply saves_event; [try apply _; done..]
  | |- saves _ _ _ (_sx_event _) => apply saves_sx_event; [try apply _; done..]
  | |- saves _ _ _ (_sx_state _) => apply respects_saves, respects_state; done
  | |- saves _ _ _ (want_write _) => apply respects_saves, respects_want_write
  | |- saves _ _ _ (want_read _) => apply respects_saves, respects_want_read
  | |- saves _ _ _ (push_wbufq _ 0) => apply respects_saves, respects_push
  | |- saves _ _ _ (upd _) => apply respects_saves, respects_upd; let s := fresh "s" in intros s [? ? ?]; by split
  end; try (solve [eauto with sx | (apply respects_saves; eauto with sx)]).

Section operations.
Context {W P : Type} `{!SxEnv W P} `{!XmlLaws W P} (plugins : list (plugin W P)) (F : frame W P) `{!AppLaws plugins F}.
Implicit Types (s : sx P) (c : W * sx P).
Notation E := (fr_E F).
Notation respects := (respects plugins F).
Notation plugin_ok := (plugin_ok plugins F).
Notation sx_ok := (sx_ok plugins F).
Notation safe := (safe plugins F).
Notation saves := (saves plugins F).

(** ** Chains *)

Lemma plugin_at i : i < length plugins → ∃ p, plugins !! i = Some p ∧ plugin_ok p.
Proof.
  intros [p Hp]%lookup_lt_is_Some_2. exists p. split; [done|].
  by eapply Forall_lookup_1; [exact (law_plugins plugins F)|].
Qed.

(** A chain, whatever holds of what goes along it: of the data [R], of the results [R']. *)
Lemma chain_io_runs (R : sx_buf → Prop) f scan b ret c :
  (∀ p, plugin_ok p → ∀ g b c, f p = Some g → sx_ok c → R b → runs (g b) c (λ c' r, safe true c c' ∧ R r.1)) →
  Forall (λ i, i < length plugins) scan → sx_ok c → R b →
  runs (chain_io plugins f scan b ret) c (λ c' r, safe true c c' ∧ R r.1).
Proof.
  intros Hf Hs. revert b ret c. induction Hs as [|i scan Hi _ IH]; intros b ret c Hc Hb; cbn [chain_io].
  { apply runs_ret. split; [by apply sx_safe_refl|done]. }
  destruct (plugin_at i Hi) as (p & -> & Hp). destruct (f p) as [g|] eqn:Eg; [|by apply IH].
  apply runs_bind. eapply runs_mono; [by eapply Hf|]. intros c1 [b1 r1] [H1 Hb1]. cbn in Hb1. cbv beta iota. rstep.
  - by apply runs_ret.
  - eapply runs_mono; [apply IH; [apply H1|done]|]. intros c2 r [H2 Hr]. split; [by eapply sx_safe_trans|done].
Qed.
Lemma chains_of c : ready plugins F c →
  Forall (λ i, i < length plugins) (x_wio c.2) ∧ Forall (λ i, i < length plugins) (x_rio c.2) ∧
  Forall (λ i, i < length plugins) (x_wnad c.2) ∧ Forall (λ i, i < length plugins) (x_rnad c.2).
Proof. intros [_ _ H]. by rewrite !Forall_app in H. Qed.
Lemma io_write_runs b c : sx_ok c → E (b, 0%Z) →
  runs (_sx_chain_io_write plugins b) c (λ c' r, safe true c c' ∧ E (r.1, 0%Z)).
Proof.
  intros Hc Hb. unfold _sx_chain_io_write. rstep. rstep. apply (chain_io_runs (λ b, E (b, 0%Z))); try done; [|by apply chains_of, (ok_ready plugins F)].
  intros p Hp g b' c'. apply (po_wio plugins F _ Hp).
Qed.
Lemma saves_io_read b t : saves b (_sx_chain_io_read plugins t).
Proof.
  apply saves_weak. intros c Hc. unfold _sx_chain_io_read. rstep. rstep.
  eapply runs_mono; [apply (chain_io_runs (λ _, True)); try done; [|by apply chains_of, (ok_ready plugins F)]|by intros c' r [H _]].
  intros p Hp g b' c' Hg Hc' _. eapply runs_mono; [by apply (po_rio plugins F _ Hp g b' Hg)|done].
Qed.
Lemma chain_nad_runs (R : nad → Prop) f scan n c :
  (∀ p, plugin_ok p → ∀ g n c, f p = Some g → sx_ok c → R n → runs (g n) c (λ c' r, safe true c c' ∧ R r.1)) →
  Forall (λ i, i < length plugins) scan → sx_ok c → R n →
  runs (chain_nad plugins f scan n) c (λ c' r, safe true c c' ∧ R r.1).
Proof.
  intros Hf Hs. revert n c. induction Hs as [|i scan Hi _ IH]; intros n c Hc Hn; cbn [chain_nad].
  { apply runs_ret. split; [by apply sx_safe_refl|done]. }
  destruct (plugin_at i Hi) as (p & -> & Hp). destruct (f p) as [g|] eqn:Eg; [|by apply IH].
  apply runs_bind. eapply runs_mono; [by eapply Hf|]. intros c1 [n1 go] [H1 Hn1]. cbn in Hn1. cbv beta iota. rstep.
  - eapply runs_mono; [apply IH; [apply H1|done]|]. intros c2 r [H2 Hr]. split; [by eapply sx_safe_trans|done].
  - by apply runs_ret.
Qed.
Lemma saves_nad_chain b n elem : saves b (_sx_chain_nad_write plugins n elem).
Proof.
  apply saves_weak. intros c Hc. unfold _sx_chain_nad_write. rstep. rstep.
  eapply runs_mono; [apply (chain_nad_runs (λ _, True)); try done; [|by apply chains_of, (ok_ready plugins F)]|by intros c' r [H _]].
  intros p Hp g n' c' Hg Hc' _. destruct (p_wnad p) as [h|] eqn:Eh; [|done]. cbn in Hg. injection Hg as <-.
  eapply runs_mono; [by apply (po_wnad plugins F _ Hp h n' elem Eh)|done].
Qed.
Lemma nad_read_runs n c : sx_ok c → packet_ok n →
  runs (_sx_chain_nad_read plugins n) c (λ c' r, safe true c c' ∧ packet_ok r.1).
Proof.
  intros Hc Hn. unfold _sx_chain_nad_read. rstep. rstep. apply chain_nad_runs; try done; [|by apply chains_of, (ok_ready plugins F)].
  intros p Hp g n' c'. apply (po_rnad plugins F _ Hp).
Qed.
Lemma process_runs ps n c : Forall plugin_ok ps → sx_ok c → packet_ok n →
  runs (process_plugins ps n) c (λ c' r, safe true c c' ∧ packet_ok r.1).
Proof.
  intros Hps. revert n c. induction Hps as [|p ps Hp _ IH]; intros n c Hc Hn; cbn [process_plugins].
  { apply runs_ret. split; [by apply sx_safe_refl|done]. }
  destruct (p_process p) as [g|] eqn:Eg; [|by apply IH].
  apply runs_bind. eapply runs_mono; [by apply (po_process plugins F _ Hp g n c Eg)|]. intros c1 [n1 go] [H1 Hn1]. cbv beta iota. rstep.
  - eapply runs_mono; [apply IH; [apply H1|done]|]. intros c2 r [H2 Hr]. split; [by eapply sx_safe_trans|done].
  - by apply runs_ret.
Qed.

(** ** The functions that tell the application nothing *)

Lemma respects_push_counted k t : strlen t = (k - 1)%Z → respects (push_counted k t).
Proof. intros H. unfold push_counted. rewrite H, Z.eqb_refl. apply respects_push_text. Qed.
Lemma respects__sx_error err text : (0 <= err < stream_err_LAST)%Z → respects (_sx_error err text).
Proof.
  intros Herr. unfold _sx_error. resp.
  - apply respects_lift. apply lookup_lt_is_Some. unfold stream_err_LAST in Herr. change (length _stream_errors) with 24. lia.
  - apply respects_push_counted, error_counted.
Qed.
Lemma respects__sx_error_extended err text : (0 <= err < stream_err_LAST)%Z → respects (_sx_error_extended err text).
Proof.
  intros Herr. unfold _sx_error_extended. resp.
  - apply respects_lift. apply lookup_lt_is_Some. unfold stream_err_LAST in Herr. change (length _stream_errors) with 24. lia.
  - apply respects_push_counted, error_extended_counted.
Qed.
Lemma respects__sx_close : respects _sx_close.
Proof. unfold _sx_close. resp. Qed.
Lemma respects_refuse g sp err text : (0 <= err < stream_err_LAST)%Z → respects (refuse g sp err text).
Proof. intros Herr. unfold refuse. resp; [by apply respects__sx_error|apply respects__sx_close]. Qed.
Lemma respects_push_header t : respects (push_header plugins NotifyServerHeader t).
Proof.
  intros c Hc. unfold push_header. apply runs_bind, (env_plugins_runs plugins F). intros ps Hps.
  assert (E (SxBuf (tx t) (Some NotifyServerHeader), 0%Z)) as Hb by apply fr_header. revert Hb.
  generalize (SxBuf (tx t) (Some NotifyServerHeader)) as b. intros b Hb. apply runs_bind. revert c Hc b Hb.
  induction Hps as [|p ps Hp _ IH]; intros c Hc b Hb.
  { apply runs_ret. eapply runs_mono; [by apply (respects_push plugins F)|]. done. }
  apply runs_bind. destruct (p_header p) as [h|] eqn:Eh.
  - eapply runs_mono; [by apply (po_header plugins F _ Hp h b c Eh)|]. cbv beta. intros c1 b1 [H1 Hb1].
    eapply runs_mono; [by apply (IH c1 (kept_ready _ _ _ _ H1) b1)|]. cbv beta. intros c2 b2 H2.
    eapply runs_mono; [exact H2|]. intros c3 [] H3. by eapply kept_trans.
  - apply runs_ret. by apply IH.
Qed.

(** ** The functions of the application *)

Context (b : bool).

Lemma saves_env_plugins {A} (f : list (plugin W P) → sxM W P A) :
  (∀ ps, Forall plugin_ok ps → saves b (f ps)) → saves b (ps ← env_plugins plugins; f ps).
Proof. intros H c Hc. apply runs_bind, (env_plugins_runs plugins F). intros ps Hps. by apply H. Qed.
Lemma saves_sx_error err text : (0 <= err < stream_err_LAST)%Z → saves b (sx_error err text).
Proof.
  intros Herr. unfold sx_error. destruct (Z.leb_spec 0 err), (Z.ltb_spec err stream_err_LAST); try lia. cbn [andb]. save.
  by apply respects_saves, respects__sx_error.
Qed.
Lemma saves_sx_error_extended err text : (0 <= err < stream_err_LAST)%Z → saves b (sx_error_extended err text).
Proof.
  intros Herr. unfold sx_error_extended. destruct (Z.leb_spec 0 err), (Z.ltb_spec err stream_err_LAST); try lia. cbn [andb]. save.
  by apply respects_saves, respects__sx_error_extended.
Qed.
Lemma saves_sx_close : saves b sx_close.
Proof. unfold sx_close. save. apply respects_saves, respects__sx_close. Qed.
Lemma saves_sx_kill : saves b sx_kill.
Proof. unfold sx_kill. save. Qed.
Lemma saves_sx_auth m i : saves b (sx_auth m i).
Proof. unfold sx_auth. save. Qed.
Lemma saves_ask_write : saves b ask_write.
Proof. unfold ask_write. save. Qed.
Lemma saves_nad_write n elem : saves b (_sx_nad_write plugins n elem).
Proof. unfold _sx_nad_write. save. apply saves_nad_chain. Qed.
Lemma saves_nad_write_elem n elem : saves b (sx_nad_write_elem plugins n elem).
Proof. unfold sx_nad_write_elem. save; [apply saves_nad_write|apply saves_ask_write]. Qed.
Lemma saves_raw_write t : t ≠ [] → saves b (sx_raw_write t).
Proof.
  intros Ht. unfold sx_raw_write. rewrite bool_decide_eq_false_2 by done. unfold _sx_raw_write. save. apply saves_ask_write.
Qed.
Lemma saves_finish : saves b finish.
Proof. unfold finish. save. Qed.
Lemma saves_then_read : saves b then_read.
Proof. unfold then_read. save. Qed.
Lemma saves_then_write : saves b then_write.
Proof. unfold then_write. save. Qed.
Lemma saves_established : saves b (established plugins).
Proof.
  unfold established. apply saves_env_plugins. intros ps Hps. save.
  apply saves_for_each. eapply Forall_impl; [exact Hps|]. intros p Hp. cbv beta. unfold run_opt.
  destruct (p_stream p) eqn:Es; [by apply saves_weak, (po_stream plugins F _ Hp)|apply saves_ret].
Qed.
Lemma saves_features : saves b (append_features plugins).
Proof.
  unfold append_features. destruct (nad_add_namespace _ _ _) as [n ns], (nad_append_elem n _ _ _) as [n' e]. clear n.
  apply saves_env_plugins. intros ps Hps. apply saves_bind; [|intros; save].
  revert n'. induction Hps as [|p ps Hp _ IH]; intros n; [apply saves_ret|]. apply saves_bind; [|apply IH].
  destruct (p_features p) as [f|] eqn:Ef; [by apply saves_weak, (po_features plugins F _ Hp)|apply saves_ret].
Qed.
End operations.

#[export] Hint Resolve respects__sx_close respects_push_header saves_ask_write saves_nad_write_elem saves_raw_write saves_sx_error
  saves_sx_error_extended saves_sx_close saves_sx_kill saves_sx_auth saves_finish
  saves_then_read saves_then_write saves_established saves_features : sx.
