(* ===== verification/SxRead.v ===== *)
(** * A stream that reads: the invariant and its preservation

    What the stream has built of the current packet agrees with the phase of the
    parser, whatever the parser calls; the queue holds whole packets only.  With
    that every operation of a server's stream runs to its end. *)
From S2P Require Import Prelude.
From S2P Require Import CStr.
From S2P Require Import DList.
From S2P Require Import JQueue.
From S2P Require Import Nad.
From S2P Require Import NadThms.
From S2P Require Import Stanza.
From S2P Require Import Pkt.
From S2P Require Import SxState.
From S2P Require Import Sx.
From S2P Require Import SxIo.
From S2P Require Import SxLogic.

Lemma building_nad d ns o : building d ns o → bd_ok (BuildData (default nad_new o) (Z.of_nat d)).
Proof.
  destruct o as [n|]; cbn; [by intros (? & _)|]. intros ->. split; simpl; [apply nad_new_ok|done|done|by intros [|i] ? ? H|intros k Hk; lia|done].
Qed.
Lemma building_start d ns o name atts : building d ns o → named name →
  building (S d) false (Some (bd_nad (_nad_parse_element_start (BuildData (default nad_new o) (Z.of_nat d)) name atts))).
Proof.
  intros Hb Hname. pose proof (element_start_ok _ name atts (building_nad _ _ _ Hb) Hname) as H.
  assert (bd_depth (_nad_parse_element_start (BuildData (default nad_new o) (Z.of_nat d)) name atts) = Z.of_nat (S d)) as Hd.
  { unfold _nad_parse_element_start. destruct (name_bits name), (match _ with Some _ => _ | None => _ end) as [n1 ns1].
    destruct (nad_append_elem n1 ns1 _ _). cbn. lia. }
  split_and!; [|lia|].
  - rewrite <- Hd. by destruct (_nad_parse_element_start _ _ _).
  - intros _. destruct (bo_depths _ H 0%Z ltac:(lia)) as (p & _ & _ & (Hlt & _)). rewrite <- skel_nil.
    by destruct (skel _); [simpl in Hlt; lia|].
Qed.
Lemma building_end d n : building (S d) false (Some n) → (d = 0 → packet_ok n) ∧ (0 < d → building d false (Some n)).
Proof.
  intros (H & _ & He). specialize (He ltac:(lia)). split.
  - intros _. destruct H. done.
  - intros Hd. split_and!; [|lia|done].
    pose proof (handle_events_ok _ [XEnd] _ H ltac:(cbn; lia) eq_refl) as H'.
    unfold _nad_parse_element_end in H'. cbn [bd_nad bd_depth] in H'. by replace (Z.of_nat (S d) - 1)%Z with (Z.of_nat d) in H' by lia.
Qed.
Lemma building_cdata d n t : building d false (Some n) → building d false (Some (nad_append_cdata n t (Z.of_nat d))).
Proof.
  intros (H & H0 & He). assert (0 < d) as Hd by (destruct d; [by destruct (H0 eq_refl)|lia]). specialize (He Hd).
  pose proof (handle_events_ok _ [XCdata t] _ H ltac:(cbn; lia) eq_refl) as H'. split_and!; [exact H'|lia|].
  intros _ Hn. apply He. apply (f_equal length) in Hn. revert Hn. unfold nad_append_cdata.
  destruct (_ =? _)%Z; cbn; rewrite ?length_alter; by destruct (elems n).
Qed.
Lemma building_ns d ns o prefix uri : uri ≠ "" → building d ns o →
  building d true (Some (let '(n, k) := nad_add_namespace (default nad_new o) uri prefix in set_scope n k)).
Proof.
  intros Hu Hb. pose proof (handle_events_ok _ [XNamespace prefix (Some uri)]
    (let '(n, k) := nad_add_namespace (default nad_new o) uri prefix in BuildData (set_scope n k) (Z.of_nat d))
    (building_nad _ _ _ Hb) ltac:(cbn; split; [congruence|done])) as H.
  pose proof (bo_nad _ (building_nad _ _ _ Hb)) as Hn. cbn [bd_nad] in Hn.
  destruct (nad_add_namespace_ok (default nad_new o) uri prefix Hn) as (_ & _ & He & _).
  cbn in H. destruct (nad_add_namespace (default nad_new o) uri prefix) as [n k]. specialize (H eq_refl). cbn in *.
  split_and!; [exact H| |].
  - intros ->. split; [done|]. rewrite He. destruct o as [n0|]; [|done]. by apply Hb.
  - intros Hd. rewrite He. destruct o as [n0|]; [by apply Hb|]. cbn in Hb. lia.
Qed.

Section read.
Context {W P : Type} `{!SxEnv W P} `{!XmlLaws W P} (plugins : list (plugin W P)) (F : frame W P) `{!AppLaws plugins F}.
Implicit Types (s : sx P) (c : W * sx P) (ph : phase).
Notation kept := (kept plugins F).
Notation respects := (respects plugins F).
Notation reads := (reads plugins F).

(** What a step of reading leaves: the invariant, the parser, the application's. *)
Definition reading ph c c' : Prop := reads ph c' ∧ x_expat c'.2 = x_expat c.2 ∧ fr_J F c c'.

Lemma kept_expat c c' : kept c c' → x_expat c'.2 = x_expat c.2.
Proof. by intros [[] _]. Qed.
Lemma kept_J c c' : kept c c' → fr_J F c c'.
Proof. by intros [_ H]. Qed.
Lemma kept_reading ph c c' : kept c c' → reads ph c → reading ph c c'.
Proof. intros H H0. split_and!; [by eapply kept_reads|by apply kept_expat|by apply kept_J]. Qed.
Lemma reading_trans ph1 ph c c1 c' : reading ph1 c c1 → reading ph c1 c' → reading ph c c'.
Proof. intros (_ & E1 & H1) (R & E2 & H2). split_and!; [done|congruence|by eapply fr_trans]. Qed.

(** A part that respects, and what comes after it. *)
Lemma runs_resp {A B} (m : sxM W P A) (f : A → sxM W P B) c (Q : W * sx P → B → Prop) :
  respects m → ready plugins F c → (∀ c' a, kept c c' → runs (f a) c' Q) → runs (m ≫= f) c Q.
Proof. intros Hm Hc Hf. apply runs_bind. eapply runs_mono; [by apply Hm|]. cbv beta. auto. Qed.
Lemma reading_resp {A} (m : sxM W P A) ph c : respects m → reads ph c → runs m c (λ c' _, reading ph c c').
Proof.
  intros Hm Hr. eapply runs_mono; [apply Hm, (rd_ready _ _ _ _ Hr)|]. cbv beta. intros c' _ H. by apply kept_reading.
Qed.

Lemma reading_refl ph c : reads ph c → reading ph c c.
Proof. intros H. split_and!; [done|done|apply fr_refl]. Qed.

(** ** What the parser calls *)

Ltac inside := right; split; [done|]; split; [done|]; split; [done|]; split; [cbn; lia|]; cbn [snd x_nad with_x_nad with_x_depth].
Lemma reads_fail ph ph' c : reads ph c → x_fail c.2 = true → reads ph' c.
Proof. intros [R1 R2 R3 R4] Hf. split; [done..| |done]. by left. Qed.

Lemma bad_header_runs ph ph' c : reads ph c → runs bad_header c (λ c' _, reading ph' c c').
Proof.
  intros Hr. unfold bad_header. eapply runs_resp; [by apply (respects_error plugins F)|by eapply rd_ready|]. intros c1 _ H1.
  eapply runs_resp; [by apply (respects__sx_error plugins F)|by eapply kept_ready|]. intros c2 _ H2. apply runs_upd.
  pose proof (kept_trans _ _ _ _ _ H1 H2) as H. destruct (kept_reading ph _ _ H Hr) as ([R1 R2 R3 R4] & E & HI).
  split_and!; [|done|frame]. split; [by destruct R1|done|by left|done].
Qed.
Lemma random_id_runs k c (Q : W * sx P → string → Prop) :
  (∀ w t, fr_J F c (w, c.2) → strlen t = Z.of_nat k → Q (w, c.2) t) → runs (world (random_id k)) c Q.
Proof.
  intros HQ. apply runs_world. destruct c as [w s]. cbn [fst snd] in *.
  assert (fr_J F (w, s) ((random_id k w).1, s) ∧ strlen (random_id k w).2 = Z.of_nat k) as [H1 H2].
  { clear HQ. revert w. induction k as [|k IH]; intros w; cbn [random_id]; [split; [apply fr_refl|done]|].
    pose proof (law_rand plugins F (w, s)) as Hw. cbn [fst snd] in Hw. destruct (sx_rand w) as [w1 r]. cbn in Hw.
    destruct (IH w1) as [H1 H2]. destruct (random_id k w1) as [w2 t]. cbn [fst snd] in *. split; [by eapply fr_trans|].
    unfold strlen in *. cbn. lia. }
  by apply HQ.
Qed.

Lemma element_start_reads d ns c name atts : named name → reads (Inside d ns) c →
  runs (_sx_element_start name atts) c (λ c' _, reading (Inside (S d) false) c c').
Proof.
  intros Hname Hr. unfold _sx_element_start. rstep. rstep. unfold id. destruct (x_fail c.2) eqn:Ef.
  { rstep. split_and!; [by eapply reads_fail|done|frame]. }
  pose proof Hr as [R1 R2 [|(H1 & H2 & H3 & H4 & H5)] R4]; [congruence|].
  pose proof (building_start _ _ _ name atts H5 Hname) as Hb. revert Hb. unfold _nad_parse_element_start, the_nad.
  destruct (name_bits name) as [u elem]. rewrite H4. replace (Z.of_nat d + 1 - 1)%Z with (Z.of_nat d) by lia. cbn [bd_nad bd_depth].
  destruct (match u with Some _ => _ | None => _ end) as [n1 ns1]. destruct (nad_append_elem n1 ns1 elem (Z.of_nat d)) as [n2 el].
  intros Hb. apply runs_upd. split_and!; [|done|frame]. split; [by destruct R1|done| |done].
  inside. exact Hb.
Qed.
Lemma element_end_reads d c : reads (Inside (S d) false) c →
  runs _sx_element_end c (λ c' _, reading (Inside d false) c c').
Proof.
  intros Hr. unfold _sx_element_end. rstep. rstep. destruct (x_fail c.2) eqn:Ef.
  { rstep. split_and!; [by eapply reads_fail|done|frame]. }
  pose proof Hr as [R1 (l & Hq & Hl) [|(H1 & H2 & H3 & H4 & H5)] R4]; [congruence|].
  destruct (x_nad c.2) as [n|] eqn:En; [|done]. destruct (building_end _ _ H5) as [B1 B2].
  rstep. apply runs_upd. rstep. apply runs_gets. cbn [snd with_x_depth x_depth]. rewrite H4.
  destruct (Z.eqb_spec (Z.of_nat (S d) + 1 - 1) 1).
  - rstep. apply runs_upd. apply runs_upd. split_and!; [|done|frame]. split; [by destruct R1| | |done].
    + exists (l ++ [Some n]). split; [cbn; rewrite En; by apply fifo_push|]. apply Forall_app. split; [done|].
      constructor; [|done]. exists n. split; [done|]. apply B1. lia.
    + inside. cbn. lia.
  - apply runs_when; intros Hz; [apply Z.eqb_eq in Hz; lia|]. split_and!; [|done|frame]. split; [by destruct R1|by exists l| |done].
    inside. rewrite En. apply B2. lia.
Qed.
Lemma root_end_reads c : reads (Inside 0 false) c → runs _sx_element_end c (λ c' _, reading Epilog c c').
Proof.
  intros Hr. unfold _sx_element_end. rstep. rstep. destruct (x_fail c.2) eqn:Ef.
  { rstep. split_and!; [by eapply reads_fail|done|frame]. }
  pose proof Hr as [R1 R2 [|(H1 & H2 & H3 & H4 & H5)] R4]; [congruence|].
  rstep. apply runs_upd. rstep. apply runs_gets. cbn [snd with_x_depth x_depth]. rewrite H4.
  change (Z.of_nat 0 + 1 - 1 =? 1)%Z with false. cbv iota. rstep; [|done]. apply runs_upd.
  split_and!; [|done|frame]. split; [by destruct R1|done|by right|done].
Qed.
Lemma cdata_reads d c t : reads (Inside d false) c → runs (_sx_cdata t) c (λ c' _, reading (Inside d false) c c').
Proof.
  intros Hr. unfold _sx_cdata. rstep. rstep. unfold id. destruct (x_fail c.2) eqn:Ef.
  { rstep. split_and!; [by eapply reads_fail|done|frame]. }
  pose proof Hr as [R1 R2 [|(H1 & H2 & H3 & H4 & H5)] R4]; [congruence|].
  destruct (x_nad c.2) as [n|] eqn:En; [|rstep; by apply reading_refl]. apply runs_upd. split_and!; [|done|frame].
  split; [by destruct R1|done| |done]. inside. rewrite H4.
  replace (Z.of_nat d + 1 - 1)%Z with (Z.of_nat d) by lia. by apply building_cdata.
Qed.
Lemma namespace_reads d ns c prefix uri : uri ≠ Some "" → reads (Inside d ns) c →
  runs (_sx_namespace_start prefix uri) c (λ c' _, reading (Inside d true) c c').
Proof.
  intros Hu Hr. unfold _sx_namespace_start. rstep. rstep. unfold id. destruct (x_fail c.2) eqn:Ef.
  { rstep. split_and!; [by eapply reads_fail|done|frame]. }
  pose proof Hr as [R1 R2 [|(H1 & H2 & H3 & H4 & H5)] R4]; [congruence|].
  destruct uri as [uri|].
  2: { rstep. split_and!; [|done|frame]. split; [done..| |done]. inside. destruct (x_nad c.2); [|done]. destruct H5 as (B1 & B2 & B3). split_and!; [done| |done]. intros ->. by destruct (B2 eq_refl). }
  pose proof (building_ns _ _ _ prefix uri ltac:(congruence) H5) as Hb. revert Hb. unfold the_nad.
  destruct (nad_add_namespace _ uri prefix) as [n k]. intros Hb.
  apply runs_upd. split_and!; [|done|frame]. split; [by destruct R1|done| |done]. inside. done.
Qed.

(** A header moves the stream into its root. *)
Lemma respects_fields (f : sx P → sx P) : (∀ s, usable plugins F s → keeps plugins F s (f s) ∧ x_wbufq (f s) = x_wbufq s ∧ x_wbufpending (f s) = x_wbufpending s) → respects (upd f).
Proof. apply respects_upd. Qed.
Ltac field := apply respects_fields; intros ? [? ? ?]; by split.

Lemma server_start_reads b c name atts : reads (Prolog b) c →
  runs (_sx_server_element_start plugins name atts) c (λ c' _, reading (Inside 0 false) c c').
Proof.
  intros Hr. unfold _sx_server_element_start. rstep. rstep. unfold id at 1 2 3.
  destruct (x_fail c.2) eqn:Ef. { rstep. split_and!; [by eapply reads_fail|done|frame]. }
  destruct (negb _); [by eapply bad_header_runs|].
  pose proof (rd_ready _ _ _ _ Hr) as Hc. eapply runs_resp; [field|done|]. intros c1 _ H1. rstep. rstep. unfold id.
  pose proof (kept_reading _ _ _ H1 Hr) as (R1 & E1 & I1).
  destruct (match x_req_version c1.2 with Some _ => _ | None => _ end).
  { eapply runs_resp; [by apply (respects_error plugins F)|by apply R1|]. intros c2 _ H2.
    eapply runs_resp; [by apply (respects__sx_error plugins F)|by eapply kept_ready|]. intros c3 _ H3.
    pose proof (kept_trans _ _ _ _ _ H2 H3) as H. destruct (kept_reading _ _ _ H R1) as ([S1 S2 S3 S4] & E3 & I3).
    apply runs_upd. split_and!; [|cbn; congruence|eapply fr_trans; [exact I1|frame]]. split; [by destruct S1|done|by left|done]. }
  eapply runs_resp; [by apply respects_state|by apply R1|]. intros c2 _ H2.
  eapply runs_resp; [field|by eapply kept_ready|]. intros c3 _ H3.
  apply runs_bind, random_id_runs. intros w t Hw Ht.
  apply runs_bind, runs_upd. apply runs_bind, runs_gets. unfold id. cbn [fst snd].
  pose proof (kept_trans _ _ _ _ _ H1 (kept_trans _ _ _ _ _ H2 H3)) as H13.
  assert (kept c (w, with_x_id (Some t) c3.2)) as H4.
  { destruct H13 as [K HI]. split.
    2: { eapply fr_trans; [exact HI|]. eapply fr_trans; [exact Hw|]. by apply (fr_same F (w, c3.2)). }
    eapply sx_keeps_trans; [exact K|]. destruct (ks_usable _ _ _ _ K). by split. }
  unfold push_counted_header. rewrite (server_header_counted _ _ _ _ _ t) by done. rewrite Z.eqb_refl.
  eapply runs_resp; [by apply respects_push_header|by eapply kept_ready|]. intros c5 _ H5.
  pose proof (kept_trans _ _ _ _ _ H4 H5) as H. destruct (kept_reading _ _ _ H Hr) as (R5 & E5 & I5).
  destruct R5 as [S1 S2 [|(T1 & T2 & T3 & T4 & T5)] S4].
  { destruct H as [[_ _ _ Kf _ _ _ _ _ _] _]. congruence. }
  apply runs_bind, runs_upd. apply runs_bind, runs_upd.
  match goal with |- runs _ ?d _ => assert (reading (Inside 0 false) c d) as (R6 & E6 & I6) end.
  { split_and!; [|done|frame]. split; [by destruct S1|done| |by right]. inside. change (building 0 false (x_nad c5.2)). by rewrite T5. }
  eapply runs_mono; [apply (respects_want_write plugins F), R6|]. cbv beta. intros c6 _ H6.
  eapply reading_trans; [split_and!; [exact R6|exact E6|exact I6]|]. by apply kept_reading.
Qed.
Lemma ns_start_reads b c prefix uri : reads (Prolog b) c →
  runs (_sx_server_ns_start prefix uri) c (λ c' _, reading (Prolog true) c c').
Proof.
  intros Hr. assert (reads (Prolog true) c) as Hr' by (destruct Hr; split; done).
  unfold _sx_server_ns_start. rstep. rstep. unfold id.
  destruct prefix, uri, (x_ns c.2); try (rstep; by apply reading_refl). apply runs_upd. split_and!; [|done|frame].
  destruct Hr' as [R1 R2 R3 R4]. split; [by destruct R1|done| |done]. destruct R3 as [|(H1 & H2 & H3 & H4 & H5)]; [by left|].
  right. by split_and!.
Qed.
Lemma ns_start_fail ph ph' c prefix uri : reads ph c → x_fail c.2 = true →
  runs (_sx_server_ns_start prefix uri) c (λ c' _, reading ph' c c').
Proof.
  intros Hr Hf. unfold _sx_server_ns_start. rstep. rstep. unfold id.
  destruct prefix, uri, (x_ns c.2); try (rstep; split_and!; [by eapply reads_fail|done|frame]).
  apply runs_upd. split_and!; [|done|frame]. destruct Hr as [R1 R2 R3 R4]. split; [by destruct R1|done|by left|done].
Qed.

(** A call that finds the stream failed. *)
Lemma call_fail ph ph' ev c : reads ph c → x_fail c.2 = true → runs (call plugins ev) c (λ c' _, reading ph' c c').
Proof.
  intros Hr Hf. assert (reading ph' c c) as Hd by (split_and!; [by eapply reads_fail|done|frame]).
  unfold call. rstep. rstep. unfold id. destruct ev as [name atts| |t|prefix uri].
  - destruct (rd_helem _ _ _ _ Hr) as [-> | ->].
    + unfold _sx_server_element_start. rstep. rstep. unfold id at 1 2 3. rewrite Hf. by rstep.
    + unfold _sx_element_start. rstep. rstep. unfold id. rewrite Hf. by rstep.
  - destruct (rd_helem _ _ _ _ Hr) as [-> | ->].
    + unfold header_element_end. rstep. rstep. rewrite Hf. by apply runs_ret.
    + unfold _sx_element_end. rstep. rstep. rewrite Hf. by rstep.
  - destruct (x_hcdata c.2); [|by rstep]. unfold _sx_cdata. rstep. rstep. unfold id. rewrite Hf. by rstep.
  - destruct (x_hns c.2); [by rstep|by eapply ns_start_fail|]. unfold _sx_namespace_start. rstep. rstep. unfold id.
    rewrite Hf. by rstep.
Qed.

Lemma call_reads ph ph' ev c : phase_step ph ev = Some ph' → reads ph c →
  runs (call plugins ev) c (λ c' _, reading ph' c c').
Proof.
  intros Hs Hr. destruct (x_fail c.2) eqn:Ef; [by eapply call_fail|].
  assert (∃ s', read_at ph s' ∧ s' = c.2) as (s' & [Hf|Hat] & Es) by (exists c.2; split; [apply Hr|done]); subst s'; [congruence|].
  unfold call. rstep. rstep. unfold id.
  destruct ph as [b|d ns| |], ev as [name atts| |t|prefix uri]; try done; cbn in Hs.
  - destruct (named name); [|done]. injection Hs as <-. destruct Hat as (-> & _). by eapply server_start_reads.
  - case_bool_decide; [done|]. injection Hs as <-. destruct Hat as (_ & _ & Hns & _). destruct (x_hns c.2); [|by eapply ns_start_reads|done].
    rstep. split_and!; [|done|frame]. destruct Hr. by split.
  - destruct (named name) eqn:Hn; [|by destruct d, ns]. destruct Hat as (-> & _). assert (ph' = Inside (S d) false) as ->.
    { destruct d, ns; by injection Hs. }
    eapply element_start_reads; [by rewrite Hn|done].
  - destruct Hat as (-> & _). destruct ns; [by destruct d|]. destruct d; injection Hs as <-; [by apply root_end_reads|by apply element_end_reads].
  - destruct Hat as (_ & -> & _). destruct ns; [by destruct d|]. assert (ph' = Inside d false) as -> by (destruct d; by injection Hs).
    by apply cdata_reads.
  - case_bool_decide; [by destruct d, ns|]. destruct Hat as (_ & _ & -> & _).
    assert (ph' = Inside d true) as -> by (destruct d, ns; by injection Hs). by eapply namespace_reads.
Qed.
End read.
