(* ===== verification/SxRun.v ===== *)
(** * A stream of a server, from its start through any operations

    Every function of the stream runs to its end and keeps the invariant; what
    the application is given are packets. *)
From S2P Require Import Prelude.
From S2P Require Import CStr.
From S2P Require Import DList.
From S2P Require Import JQueue.
From S2P Require Import Nad.
From S2P Require Import NadThms.
From S2P Require Import Stanza.
From S2P Require Import Pkt.
From S2P Require Import SxState.
From S2P Require Import Sx.
From S2P Require Import SxIo.
From S2P Require Import SxLogic.
From S2P Require Import SxRead.

Lemma fifo_unique {A} (q : @jqueue A) l l' : fifo_rep q l → fifo_rep q l' → l = l'.
Proof.
  intros H H'. pose proof (fifo_drain q l (S (length l + length l')) H ltac:(lia)) as E.
  pose proof (fifo_drain q l' (S (length l + length l')) H' ltac:(lia)) as E'. congruence.
Qed.

Section run.
Context {W P : Type} `{!SxEnv W P} `{!XmlLaws W P} (plugins : list (plugin W P)) (F : frame W P) `{!AppLaws plugins F}.
Implicit Types (s : sx P) (c : W * sx P) (ph : phase).
Notation kept := (kept plugins F).
Notation respects := (respects plugins F).
Notation reading := (reading plugins F).
Notation reads := (reads plugins F).
Notation sx_ok := (sx_ok plugins F).
Notation safe := (safe plugins F).
Notation saves := (saves plugins F).

(** A part that saves, and what comes after it, with the invariant at hand. *)
Lemma safe_next b {A B} (m : sxM W P A) (f : A → sxM W P B) c0 c :
  safe b c0 c → runs m c (λ c2 _, safe b c c2) → (∀ c' a, safe b c0 c' → runs (f a) c' (λ c2 _, safe b c0 c2)) →
  runs (m ≫= f) c (λ c2 _, safe b c0 c2).
Proof.
  intros H0 Hm Hf. apply runs_bind. eapply runs_mono; [done|]. cbv beta. intros c' a H. apply Hf. by eapply sx_safe_trans.
Qed.
Lemma safe_saves b {A B} (m : sxM W P A) (f : A → sxM W P B) c0 c :
  saves b m → safe b c0 c → (∀ c' a, safe b c0 c' → runs (f a) c' (λ c2 _, safe b c0 c2)) → runs (m ≫= f) c (λ c2 _, safe b c0 c2).
Proof. intros Hm Hc Hf. eapply safe_next; [done|by apply Hm, Hc|done]. Qed.
Lemma safe_resp b {A B} (m : sxM W P A) (f : A → sxM W P B) c0 c :
  respects m → safe b c0 c → (∀ c' a, safe b c0 c' → runs (f a) c' (λ c2 _, safe b c0 c2)) → runs (m ≫= f) c (λ c2 _, safe b c0 c2).
Proof. intros Hm. by apply safe_saves, respects_saves. Qed.
Lemma safe_from b {A} (m : sxM W P A) c0 c : safe b c0 c → runs m c (λ c2 _, safe b c c2) → runs m c (λ c2 _, safe b c0 c2).
Proof. intros H0 H. eapply runs_mono; [done|]. cbv beta. intros c2 _ H2. by eapply sx_safe_trans. Qed.
Lemma safe_last b {A} (m : sxM W P A) c0 c : saves b m → safe b c0 c → runs m c (λ c2 _, safe b c0 c2).
Proof. intros Hm Hc. eapply safe_from; [done|by apply Hm, Hc]. Qed.

(** ** Parsing

    What the parser calls may add packets; for a parser that calls nothing when it is given
    nothing, an empty text adds none. *)

Lemma calls_reads l ph ph' c : phase_after ph l = Some ph' → reads ph c →
  runs (calls plugins l) c (λ c' d, fr_J F c c' ∧ (l = [] → c' = c) ∧
    (XEntity ∉ l → reads ph' c' ∧ x_expat c'.2 = x_expat c.2) ∧ (XEntity ∈ l → sx_ok c')).
Proof.
  revert ph c. induction l as [|[ev|] l IH]; intros ph c Hph Hr; cbn [calls phase_after] in *.
  - injection Hph as <-. rstep. split_and!; [frame|done|done|]. intros H. by apply elem_of_nil in H.
  - destruct (phase_step ph ev) as [ph1|] eqn:Es; [|done]. rstep. eapply runs_mono; [by eapply call_reads|].
    cbv beta. intros c1 _ (R1 & E1 & I1). eapply runs_mono; [by eapply (IH ph1)|]. cbv beta. intros c2 d (I2 & _ & H2 & H3).
    split_and!; [by eapply fr_trans|done| |].
    + intros Hn. apply not_elem_of_cons in Hn as [_ Hn]. destruct (H2 Hn). split; [done|congruence].
    + intros Hi. apply H3. by inversion Hi.
  - rstep. apply runs_upd. rstep. split_and!; [frame|done| |].
    + intros Hn. destruct Hn. by left.
    + intros _. unfold SxLogic.sx_ok. cbn [snd with_x_expat x_expat]. rewrite xml_phase_stop.
      destruct Hr as [R1 R2 R3 R4]. split; [by destruct R1|done|by right|done].
Qed.

Lemma reads_stopped ph c : reads ph c → reads Stopped c.
Proof. intros [R1 R2 R3 R4]. split; [done..|by right|done]. Qed.

(** The parser calls nothing when it is given nothing. *)
Definition silent : Prop := ∀ p : P, (xml_parse (W := W) p []).1.2 = [].

Lemma XML_Parse_safe b t c : (b = true → t = [] ∧ silent) → sx_ok c → runs (XML_Parse plugins t) c (λ c' _, safe b c c').
Proof.
  intros Hb Hc. unfold XML_Parse. rstep. rstep. destruct (xml_parse (x_expat c.2) t) as [[p' l] ok] eqn:E.
  destruct (xml_phase_parse _ _ _ _ _ E) as (ph & Hph & Hp'). rstep. apply runs_upd. rstep.
  eapply runs_mono.
  { eapply calls_reads; [exact Hph|]. destruct Hc as [R1 R2 R3 R4]. split; [by destruct R1|done|exact R3|done]. }
  cbv beta. intros c1 d (I1 & Hl & H1 & H2). rstep. split_and!; [|eapply fr_trans; [|exact I1]; frame|].
  - destruct (decide (XEntity ∈ l)) as [Hi|Hn]; [by apply H2|]. destruct (H1 Hn) as [R E1]. cbn in E1.
    unfold SxLogic.sx_ok. rewrite E1. destruct (Hp' Hn) as [-> | [_ ->]]; [done|by eapply reads_stopped].
  - intros [-> Hs]%Hb. specialize (Hs (x_expat c.2)). rewrite E in Hs. cbn in Hs. rewrite (Hl Hs). by apply no_more_same.
Qed.

(** ** The packets *)

Lemma set_fail_safe b c0 c : safe b c0 c → safe b c0 (c.1, with_x_fail true c.2).
Proof.
  intros ([R1 R2 R3 R4] & HI & Hn). split_and!; [|frame|done]. split; [by destruct R1|done|by left|done].
Qed.

Lemma process_nad_safe n c : sx_ok c → packet_ok n → runs (process_nad plugins n) c (λ c' _, safe true c c').
Proof.
  intros Hc Hn. unfold process_nad. rstep. rstep. unfold id. rstep; [|rstep].
  - apply safe_last; [|by apply sx_safe_refl]. save.
  - rstep. apply runs_upd. rstep. by apply set_fail_safe, sx_safe_refl.
  - rstep. eapply runs_mono; [by apply (nad_read_runs plugins F)|]. cbv beta. intros c1 [n1 go] [H1 Hn1]. rstep; [by rstep|].
    apply runs_bind, (env_plugins_runs plugins F). intros ps Hps. rstep.
    eapply runs_mono; [apply (process_runs plugins F); [done|apply H1|done]|]. cbv beta. intros c2 [n2 go2] [H2 Hn2].
    pose proof (sx_safe_trans _ _ _ _ _ _ H1 H2) as H12. rstep. rstep. eapply safe_last; [|exact H12].
    apply saves_bind; [|intros; save]. apply saves_when, saves_event; [apply _| |done]. intros m [= <-]. exact Hn2.
Qed.

Lemma process_nads_safe fuel l c : sx_ok c → fifo_rep (x_rnadq c.2) l → length l < fuel →
  runs (process_nads plugins fuel) c (λ c' _, safe true c c').
Proof.
  revert l c. induction fuel as [|fuel IH]; intros l c Hc Hl Hf; [lia|]. cbn [process_nads]. rstep. rstep.
  destruct (fifo_pull _ _ Hl) as [Hl' Hd]. destruct (jqueue_pull (x_rnadq c.2)) as [q o]. cbn [fst snd] in *.
  apply runs_bind, runs_upd.
  pose proof Hc as [R1 (l0 & Hl0 & Hw) R3 R4].
  assert (l0 = l) as -> by (by eapply fifo_unique).
  assert (safe true c (c.1, with_x_rnadq q c.2)) as Hs1.
  { split_and!; [|frame|].
    - split; [by destruct R1| |exact R3|exact R4]. exists (tail l). split; [done|]. destruct l; [done|]. by inversion Hw.
    - intros _ k Hk. exists (tail l). split; [done|]. rewrite (fifo_unique _ _ _ Hk Hl). destruct l; cbn; lia. }
  destruct l as [|n l]; cbn in Hd; subst o; [by rstep|]. inversion Hw as [|? ? (m & -> & Hm) Hw']; subst.
  cbn [tail] in *. rstep. eapply runs_mono; [by apply process_nad_safe; [apply Hs1|]|]. cbv beta. intros c1 r H1.
  pose proof (sx_safe_trans _ _ _ _ _ _ Hs1 H1) as H01.
  destruct r; [|by rstep|by rstep]. eapply safe_from; [exact H01|].
  destruct H1 as (H1 & _ & Hn). destruct (Hn eq_refl l Hl') as (l1 & Hl1 & Hlen). apply (IH l1); [done|done|cbn in Hf; lia].
Qed.

(** ** Reading *)

Lemma process_read_safe b t c : (b = true → t = [] ∧ silent) → sx_ok c → runs (_sx_process_read plugins t) c (λ c' _, safe b c c').
Proof.
  intros Hb Hc. unfold _sx_process_read.
  eapply safe_resp; [apply respects_upd; intros s [? ? ?]; by split|by apply sx_safe_refl|]. intros c1 _ H1.
  eapply safe_next; [exact H1|by apply XML_Parse_safe, H1|]. intros c2 ok H2. rstep. rstep. unfold id. rstep; [|rstep].
  - apply safe_last; [|done]. apply respects_saves, respects_when. by apply (respects_refuse plugins F).
  - apply safe_last; [|done]. by apply respects_saves, (respects_refuse plugins F).
  - assert (safe b c (c2.1, with_x_tbytes (int32 (x_tbytes c2.2 + Z.of_nat (length t))) c2.2)) as H3.
    { destruct H2 as ([R1 R2 R3 R4] & HI & Hn). split_and!; [|frame|done]. by split; [destruct R1|..]. }
    apply runs_bind, runs_upd. destruct (rd_rnadq _ _ _ _ (proj1 H3)) as (l & Hl & _). eapply safe_next; [exact H3| |].
    { rstep; [|rstep; by apply sx_safe_refl, H3]. eapply runs_mono; [apply (process_nads_safe _ l); [by apply H3|done|by apply fifo_fuel]|].
      cbv beta. intros c4 _. apply safe_weak. }
    intros c4 go H4. rstep; [by rstep|]. rstep. rstep. unfold id. rstep; apply safe_last; try done; save.
Qed.

Lemma can_read_safe c : sx_ok c → runs (sx_can_read plugins) c (λ c' _, safe false c c').
Proof.
  intros Hc. unfold sx_can_read. pose proof (sx_safe_refl _ _ false _ Hc) as H0.
  rstep. rstep. unfold id. rstep; [by rstep|].
  eapply safe_saves; [by apply saves_sx_event; [apply _|..]|exact H0|]. intros c1 [read buf] H1. rstep.
  { apply safe_last; [save|done]. }
  eapply safe_next; [exact H1| |].
  - rstep; [rstep; by apply sx_safe_refl, H1|].
    eapply safe_resp; [apply respects_upd; intros s [? ? ?]; by split|apply sx_safe_refl, H1|]. intros c2 _ H2.
    eapply safe_saves; [apply (saves_io_read plugins F)|exact H2|]. intros c3 [out ret] H3. rstep. rstep. unfold id. cbv zeta.
    rstep.
    + apply safe_last; [save|done].
    + eapply safe_next; [exact H3|by apply process_read_safe; [|apply H3]|]. intros c4 _ H4. by rstep.
  - intros c2 stop H2. rstep; [by apply safe_last; [apply (saves_then_write plugins F)|]|].
    eapply safe_saves; [apply (saves_finish plugins F)|exact H2|]. intros c3 r H3. rstep; [by rstep|].
    by apply safe_last; [apply (saves_then_write plugins F)|].
Qed.

(** ** Starting and restarting *)

(** A stream that nothing was done with yet. *)
Record fresh c : Prop := {
  fr_ready : ready plugins F c;
  fr_state : x_state c.2 = state_NONE;
  fr_rnadq : fifo_rep (x_rnadq c.2) [];
  fr_read : x_fail c.2 = false ∧ x_hcdata c.2 = false ∧ x_depth c.2 = 0%Z ∧ x_nad c.2 = None;
  fr_phase : xml_phase (x_expat c.2) = Prolog false
}.
Lemma sx_zero_fresh w env tag : fresh (w, with_x_env env (sx_zero tag)).
Proof.
  split; [split|done|apply fifo_new|done|apply xml_phase_new]; cbn; [|done|done].
  exists [], [], []. split; [apply jqueue_new_rep|done].
Qed.

Lemma over_plugins (f : plugin W P → option (sxM W P unit)) :
  (∀ p, plugin_ok plugins F p → ∀ m, f p = Some m → respects m) →
  ∀ c, ready plugins F c → runs (env_plugins plugins) c (λ c' ps, c' = c ∧ respects (for_each (λ p, run_opt (f p)) ps)).
Proof.
  intros Hf c Hc. unfold env_plugins. rstep. rstep. rstep. split; [done|]. apply respects_for_each.
  assert (Forall (plugin_ok plugins F) (if x_env c.2 then plugins else [])) as Hps.
  { destruct (x_env c.2); [exact (law_plugins plugins F)|constructor]. }
  eapply Forall_impl; [exact Hps|]. intros p Hp. cbv beta. unfold run_opt. destruct (f p) as [m|] eqn:E; [by apply (Hf p)|].
  apply respects_ret.
Qed.

(** What a start leaves: the invariant, the application's, and no packets. *)
Definition started c c' : Prop := sx_ok c' ∧ fr_J F c c' ∧ fifo_rep (x_rnadq c'.2) [].

Lemma server_init_started flags c : fresh c → runs (sx_server_init plugins flags) c (λ c' _, started c c').
Proof.
  intros [Hc Hst Hq (F1 & F2 & F3 & F4) Hph]. unfold sx_server_init. rstep. rstep. rewrite bool_decide_eq_false_2 by (intros H; by apply H).
  apply runs_bind, runs_upd. cbn [fst snd]. rstep.
  eapply runs_mono; [apply (over_plugins p_server)|].
  { intros p Hp m. apply (po_server _ _ _ Hp). }
  { by destruct Hc. }
  cbv beta. intros c1 ps [-> Hps]. rstep. eapply runs_mono; [apply Hps; by destruct Hc|]. cbv beta. intros c2 _ H2.
  apply runs_bind, runs_upd.
  assert (started c (c2.1, with_x_hns NHServer (with_x_helem EHServer c2.2))) as (H3 & HJ & Hq3).
  { destruct H2 as [[Hu Hn Hd Hf Hrq He Hs Hcd Hx H0] HI]. cbn in *. split_and!.
    2: { eapply fr_trans; [|eapply fr_trans; [exact HI|frame]]. frame. }
    2: { cbn. by rewrite Hrq. }
    unfold SxLogic.sx_ok. cbn [snd with_x_hns with_x_helem x_expat]. rewrite Hx, Hph. split.
    - by destruct Hu.
    - exists []. split; [|done]. cbn. by rewrite Hrq.
    - right. cbn. split_and!; congruence.
    - by left. }
  set (c3 := (c2.1, with_x_hns NHServer (with_x_helem EHServer c2.2))) in *.
  assert (saves true (want_read (W := W) (P := P) 1;; event event_WANT_READ)) as Hm by save.
  eapply runs_mono; [by apply Hm|]. cbv beta. intros c4 _ (H4 & HJ4 & Hn4). split_and!; [done|by eapply fr_trans|].
  destruct (Hn4 eq_refl [] Hq3) as ([|x l] & Hl & Hlen); [done|cbn in Hlen; lia].
Qed.
Lemma started_safe b c c' : started c c' → safe b c c'.
Proof. intros (H1 & H2 & H3). split_and!; [done..|]. intros _ l _. exists []. split; [done|cbn; lia]. Qed.
Lemma server_init_safe flags c : fresh c → runs (sx_server_init plugins flags) c (λ c' _, safe true c c').
Proof. intros Hc. eapply runs_mono; [by apply server_init_started|]. cbv beta. intros c' _. apply started_safe. Qed.

(** ** The header *)

Lemma notify_header_safe b c : (b = true → silent) → sx_ok c → runs (_sx_server_notify_header plugins) c (λ c' _, safe b c c').
Proof.
  intros Hb Hc. unfold _sx_server_notify_header.
  eapply safe_saves; [apply (saves_established plugins F)|by apply sx_safe_refl|]. intros c1 _ H1.
  rstep. rstep. eapply safe_saves; [apply saves_when, (saves_features plugins F)|exact H1|]. intros c2 _ H2.
  rstep. rstep. unfold id. rstep; [|done]. eapply safe_from; [exact H2|]. apply process_read_safe, H2. auto.
Qed.

(** ** The machine *)

(** What the application must see to: some text in what it writes, an error there is. *)
Definition op_ok (o : sx_op) : Prop :=
  match o with
  | OpRaw t => t ≠ []
  | OpError err _ | OpErrorExtended err _ => (0 <= err < stream_err_LAST)%Z
  | _ => True
  end.

Context (can_write_safe : ∀ c, sx_ok c → runs (sx_can_write plugins) c (λ c' _, safe false c c')).

Lemma sx_do_safe o c : op_ok o → sx_ok c → runs (sx_do plugins o) c (λ c' _, safe false c c').
Proof.
  intros Ho Hc. pose proof (sx_safe_refl _ _ false _ Hc) as H0. destruct o; cbn [sx_do op_ok] in *; try solve [apply safe_last; [save|done]].
  eapply safe_next; [exact H0|by apply can_read_safe|]. intros c1 _ H1. by rstep.
Qed.
Lemma sx_run_safe l c : Forall op_ok l → sx_ok c → runs (sx_run plugins l) c (λ c' _, safe false c c').
Proof.
  intros Hl. revert c. induction Hl as [|o l Ho _ IH]; intros c Hc; cbn [sx_run for_each]; [rstep; by apply sx_safe_refl|].
  eapply safe_next; [by apply sx_safe_refl|by apply sx_do_safe|]. intros c1 _ H1.
  eapply safe_from; [exact H1|]. apply IH, H1.
Qed.
End run.
