(* ===== verification/SxTotal.v ===== *)
(** * A server's stream never fails

    The operations of a stream made by [sx_new] and [sx_server_init], in any order,
    with an application and plugins that keep to their laws: every function runs to
    its end, with no assertion that fails and no buffer that overflows, and the
    packets given to the application are well-formed documents. *)
From S2P Require Import Prelude.
From S2P Require Import CStr.
From S2P Require Import DList.
From S2P Require Import JQueue.
From S2P Require Import Nad.
From S2P Require Import NadThms.
From S2P Require Import Stanza.
From S2P Require Import Pkt.
From S2P Require Import SxState.
From S2P Require Import Sx.
From S2P Require Import SxIo.
From S2P Require Import SxLogic.
From S2P Require Import SxRead.
From S2P Require Import SxRun.

(** A property of what the application and the plugins keep; the buffers are those of a server. *)
Definition world_frame {W P : Type} (I : W → Prop) : frame W P.
Proof.
  refine (Frame W P (λ c c' : W * sx P, I c.1 → I c'.1) (λ x : sx_buf * Z, no_client x.1) _ _ _ _ _ _ _ _); try done.
  intros c1 c2 c3 H1 H2 H. by apply H2, H1.
Defined.

Section total.
Context {W P : Type} `{!SxEnv W P} `{!XmlLaws W P} (plugins : list (plugin W P)) (I : W → Prop).
Notation F := (world_frame I).
Context `{!AppLaws plugins F}.
Implicit Types (s : sx P) (c : W * sx P).
Notation kept := (kept plugins F).
Notation respects := (respects plugins F).
Notation sx_ok := (sx_ok plugins F).
Notation safe := (safe plugins F).
Notation saves := (saves plugins F).
Notation fresh := (fresh plugins F).

Lemma sx_reset_fresh c (Q : W * sx P → unit → Prop) : ready plugins F c →
  (∀ c', fresh c' → c'.1 = c.1 → Q c' ()) → runs _sx_reset c Q.
Proof.
  intros [Hq Hp Hc] HQ. unfold _sx_reset. apply runs_upd. apply HQ; [|done].
  split; [split|done|apply fifo_new|done|apply xml_phase_new]; cbn; [|done|done].
  exists [], [], []. split; [apply jqueue_new_rep|done].
Qed.

(** ** Writing *)

(** What is asked of the event that writes, and of the notify functions of the plugins: they leave
    the stream in order, by the reset for one, with no more packets. *)
Class WriteLaws : Prop := {
  law_write t c : sx_ok c → runs (sx_cb (event_WRITE t)) c (λ c' _, safe true c c');
  law_notify k c : sx_ok c → runs (sx_notify k) c (λ c' _, safe true c c')
}.
Context `{!WriteLaws} (b : bool) (Hb : b = true → silent (W := W) (P := P)).

Lemma restart_safe flags c : sx_ok c →
  runs (_sx_reset;; f ← gets x_flags; sx_server_init plugins (flags f)) c (λ c' _, safe b c c').
Proof.
  intros Hc. rstep. apply (sx_reset_fresh c); [by apply (ok_ready plugins F)|]. intros c1 H1 E1. rstep. rstep.
  eapply runs_mono; [by apply (server_init_started plugins F)|]. cbv beta. intros c2 _ (H2 & HI & Hq). apply (started_safe plugins F).
  split_and!; [done| |done]. intros Hi. apply HI. by rewrite E1.
Qed.
Lemma notify_safe fn c : sx_ok c → fn ≠ NotifyClientHeader → runs (notify plugins fn) c (λ c' _, safe b c c').
Proof.
  intros Hc Hfn. destruct fn as [| | |k]; [|done| |]; cbn [notify].
  - by apply (notify_header_safe plugins F).
  - by apply (restart_safe (λ f, Z.lor f SX_COMPRESS_WRAPPER)).
  - eapply runs_mono; [by apply law_notify|]. cbv beta. intros c' _. apply safe_weak.
Qed.

Lemma front_no_client bl cl l (q : @jqueue sx_buf) : jq_rep q bl cl l → Forall (λ x, no_client x.1) l →
  ∃ bl' cl' l', jq_rep (jqueue_pull q).1 bl' cl' l' ∧ Forall (λ x, no_client x.1) l' ∧
    no_client (default (SxBuf [] None) (jqueue_pull q).2).
Proof.
  intros Hq Hl. destruct (jqueue_pull_rep _ _ _ _ Hq) as (bl' & cl' & l' & Hq' & El & Ed). exists bl', cl', l'.
  split; [done|]. apply Forall_rev in Hl. split.
  - rewrite <- (rev_involutive l'), El. apply Forall_rev. by destruct Hl.
  - rewrite Ed. by destruct Hl.
Qed.

Lemma pending_kept o c : ready plugins F c → (∀ b', o = Some b' → no_client b') →
  kept c (c.1, with_x_wbufpending o c.2).
Proof. intros [H1 H2 H3] Ho. split; [by split|exact (λ H, H)]. Qed.
Lemma respects_push_any t p : no_client t → respects (push_wbufq t p).
Proof.
  intros Ht c [(bl & cl & l & Hq & Hl) Hp Hc]. apply runs_upd. split; [|exact (λ H, H)].
  split; try done. split; try done.
  destruct (jqueue_push_rep _ _ _ _ t p Hq) as (bl' & cl' & Hq'). exists bl', cl', (bpush (t, p) l).
  split; [done|]. by apply Forall_bpush.
Qed.
Lemma saves_write t : saves b (_sx_event (event_WRITE t)).
Proof.
  unfold _sx_event. save. apply saves_weak. intros c Hc. by apply law_write.
Qed.

Lemma get_pending_runs c : sx_ok c → runs (_sx_get_pending_write plugins) c (λ c' _, safe b c c').
Proof.
  intros Hc. unfold _sx_get_pending_write. rstep. rstep. destruct (x_wbufpending c.2) as [t|] eqn:Eb.
  { rstep. by apply sx_safe_refl. }
  rstep. rstep. destruct (ok_ready plugins F _ Hc) as [(bl & cl & l & Hq & Hl) Hp Hch].
  destruct (front_no_client _ _ _ _ Hq Hl) as (bl' & cl' & l' & Hq' & Hl' & Hn).
  destruct (jqueue_pull (x_wbufq c.2)) as [q o]. cbn [fst snd] in *. apply runs_bind, runs_upd.
  assert (safe b c (c.1, with_x_wbufq q c.2)) as H1.
  { apply kept_safe; [|done]. split; [|exact (λ H, H)]. split; try done. split; [by exists bl', cl', l'|done..]. }
  eapply safe_resp; [apply (respects_want_write plugins F)|exact H1|]. intros c2 _ H2. cbv zeta.
  rstep. eapply runs_mono; [by apply (io_write_runs plugins F); [apply H2|]|]. cbv beta. intros c3 [out ret] [H3 Hout].
  assert (safe b c c3) as H13 by (eapply sx_safe_trans; [exact H2|by apply safe_weak]). cbn [fst] in Hout. rstep.
  - apply safe_last; [|done]. save. by apply respects_saves, respects_push_any.
  - rstep. apply runs_when; intros _; [apply runs_upd|]; apply runs_ret; [|done].
    eapply sx_safe_trans; [exact H13|]. apply kept_safe; [|apply H13]. apply pending_kept; [apply (ok_ready plugins F), H13|]. by intros b' [= <-].
Qed.

Lemma can_write_safe c : sx_ok c → runs (sx_can_write plugins) c (λ c' _, safe b c c').
Proof.
  intros Hc. unfold sx_can_write. pose proof (sx_safe_refl _ _ b _ Hc) as H0. rstep. rstep. unfold id. rstep; [by rstep|].
  eapply safe_next; [exact H0|by apply get_pending_runs|]. intros c1 ret S1.
  rstep. { apply safe_last; [save|done]. }
  rstep. rstep. destruct (x_wbufpending c1.2) as [out|] eqn:Eo.
  2: { by apply safe_last; [apply (saves_then_read plugins F)|]. }
  assert (no_client out) as Hout by exact (us_pending _ _ _ (ok_ready plugins F _ (proj1 S1)) _ Eo).
  apply runs_bind, runs_upd.
  assert (safe b c (c1.1, with_x_wbufpending None c1.2)) as S2.
  { eapply sx_safe_trans; [exact S1|]. apply kept_safe; [|apply S1]. by apply pending_kept; [apply (ok_ready plugins F), S1|]. }
  eapply safe_saves; [apply saves_write|exact S2|]. intros c3 [written r3] S3. rstep; [by apply safe_last; [save|]|].
  eapply safe_next; [exact S3| |].
  - rstep.
    + apply runs_bind, runs_upd.
      match goal with |- runs _ ?d _ => assert (safe b c3 d) as S4 end.
      { apply kept_safe; [|by apply S3]. apply pending_kept; [apply (ok_ready plugins F), S3|]. by intros b' [= <-]. }
      apply safe_last; [save|done].
    + destruct (bf_notify out) as [fn|] eqn:En; [|rstep; by apply sx_safe_refl, S3].
      apply notify_safe; [apply S3|]. intros ->. by apply Hout.
  - intros c5 _ S5. eapply safe_saves; [apply (saves_finish plugins F)|exact S5|]. intros c6 r S6. rstep; [by rstep|].
    by apply safe_last; [apply (saves_then_read plugins F)|].
Qed.

End total.

(** ** What a stream writes

    With no plugin between the queue and the application, the bytes that the
    application has taken, those of the pending buffer and those of the queue are
    one text that only grows at its end. *)

(** The buffers of the queue, in the order in which they are pulled, and all the bytes that are to be written. *)
Definition q_bufs (q : @jqueue sx_buf) : list sx_buf := drain (S (size (q_heap q))) q.
Definition bytes_of (l : list sx_buf) : text := l ≫= bf_data.
Definition queued {P} (s : sx P) : text :=
  match x_wbufpending s with Some b => bf_data b | None => [] end ++ bytes_of (q_bufs (x_wbufq s)).

Lemma q_bufs_fifo q l : fifo_rep q l → q_bufs q = l.
Proof. intros H. eapply fifo_drain; [done|]. by apply fifo_fuel. Qed.

(** A buffer of a stream without plugins: its priority is 0, its notify function that of the header. *)
Definition plain (x : sx_buf * Z) : Prop := x.2 = 0%Z ∧ (bf_notify x.1 = None ∨ bf_notify x.1 = Some NotifyServerHeader).

Lemma plain_fifo q bl cl l : jq_rep q bl cl l → Forall plain l → fifo_rep q (fst <$> rev l).
Proof.
  intros H Hl. exists bl, cl, l. split; [done|]. rewrite <- list_fmap_compose. apply Forall_rev in Hl.
  revert Hl. induction (rev l) as [|[b p] k IH]; intros Hk; [done|]. inversion_clear Hk as [|? ? [Hp _] Hk']. cbn in *.
  rewrite Hp. f_equal. by apply IH.
Qed.

Section out.
Context {W P : Type} (taken : W → text).

Definition out (c : W * sx P) : text := taken c.1 ++ queued c.2.

Definition out_frame : frame W P.
Proof.
  refine (Frame W P (λ c c', out c `prefix_of` out c') plain _ _ _ _ _ _ _ _).
  - done.
  - intros c1 c2 c3 H1 H2. by etrans.
  - intros c s H1 H2. unfold out, queued. cbn [fst snd]. by rewrite H1, H2.
  - intros c b bl cl l Hq Hl _. pose proof (plain_fifo _ _ _ _ Hq Hl) as Hf.
    exists (bf_data b). unfold out, queued. cbn [fst snd with_x_wbufq x_wbufq x_wbufpending].
    rewrite (q_bufs_fifo _ _ Hf), (q_bufs_fifo _ _ (fifo_push _ _ b Hf)). unfold bytes_of.
    rewrite bind_app. cbn. by rewrite !app_nil_r, <- !app_assoc.
  - intros t. split; [done|by left].
  - intros t. split; [done|by right].
  - intros x [_ [H|H]]; unfold no_client; by rewrite H.
  - intros x y [_ H] [H' _]. by split.
Defined.
End out.

Section write.
Context {W P : Type} `{!SxEnv W P} `{!XmlLaws W P} (plugins : list (plugin W P)) (taken : W → text).
Notation F := (out_frame taken).
Context `{!AppLaws plugins F}.
Implicit Types (s : sx P) (c : W * sx P).
Notation kept := (kept plugins F).
Notation respects := (respects plugins F).
Notation sx_ok := (sx_ok plugins F).
Notation safe := (safe plugins F).
Notation saves := (saves plugins F).
Notation out := (out taken).

(** The application takes a part of the buffer from its start, all of it at most, and has
    no error; there are no plugins on the way. *)
Class OutLaws : Prop := {
  law_take b c : ready plugins F c → runs (sx_cb (event_WRITE b)) c (λ c' r,
    keeps plugins F c.2 c'.2 ∧ (0 <= r.1 <= bf_len b)%Z ∧ x_wbufpending c'.2 = x_wbufpending c.2 ∧
    ∃ ext, queued c'.2 = queued c.2 ++ ext ∧ taken c'.1 = taken c.1 ++ take (Z.to_nat r.1) (bf_data b));
  law_no_wio : Forall (λ p, p_wio p = None) plugins
}.
Context `{!OutLaws}.

Ltac parts := cbn [fr_J out_frame]; unfold SxTotal.out, queued;
  cbn [fst snd x_wbufpending x_wbufq with_x_wbufpending with_x_wbufq with_x_want_write with_x_reentry].

Lemma no_wio scan b c : Forall (λ i, i < length plugins) scan →
  chain_io plugins p_wio scan b 1 c = Some (c, (b, 1%Z)).
Proof.
  induction 1 as [|i scan Hi _ IH]; cbn [chain_io]; [done|]. apply lookup_lt_is_Some in Hi as [p Hp].
  pose proof (Forall_lookup_1 _ _ _ _ law_no_wio Hp) as Hw. cbn in Hw. by rewrite Hp, Hw.
Qed.

(** The next buffer becomes pending; an empty one is dropped. *)
Lemma get_pending_out c : ready plugins F c →
  runs (_sx_get_pending_write plugins) c (λ c' r, kept c c' ∧ r = 0%Z).
Proof.
  intros Hc. unfold _sx_get_pending_write. rstep. rstep. destruct (x_wbufpending c.2) as [b|] eqn:Eb.
  { rstep. split; [by apply kept_refl|done]. }
  rstep. rstep. destruct Hc as [(bl & cl & l & Hq & Hl) Hp Hch].
  pose proof (plain_fifo _ _ _ _ Hq Hl) as Hf. destruct (fifo_pull _ _ Hf) as [Hf' Hd].
  destruct (jqueue_pull_rep _ _ _ _ Hq) as (bl' & cl' & l' & Hq' & El & _).
  assert (Forall plain l') as Hl'.
  { rewrite <- (rev_involutive l'), El. apply Forall_rev. apply Forall_rev in Hl. by destruct Hl. }
  assert (∀ b, default (SxBuf [] None) (jqueue_pull (x_wbufq c.2)).2 = b → plain (b, 0%Z)) as Hb.
  { rewrite Hd. intros b <-. apply Forall_rev in Hl. destruct Hl as [|x ? Hx _]; cbn; [split; [done|by left]|].
    split; [done|apply Hx]. }
  assert (∀ b, default (SxBuf [] None) (jqueue_pull (x_wbufq c.2)).2 = b →
    bytes_of (q_bufs (x_wbufq c.2)) = bf_data b ++ bytes_of (q_bufs (jqueue_pull (x_wbufq c.2)).1)) as Hby.
  { intros b <-. rewrite Hd, (q_bufs_fifo _ _ Hf), (q_bufs_fifo _ _ Hf'). by destruct (fst <$> rev l). }
  destruct (jqueue_pull (x_wbufq c.2)) as [q o]. cbn [fst snd] in *. specialize (Hb _ eq_refl). specialize (Hby _ eq_refl).
  generalize dependent (default (SxBuf [] None) o). intros b Hb Hby.
  apply runs_bind, runs_upd. apply runs_bind, runs_upd. cbv zeta. rstep. unfold _sx_chain_io_write. rstep. rstep.
  unfold runs at 1. rewrite no_wio by (cbn; rewrite !Forall_app in Hch; apply Hch).
  eexists _, _. split; [reflexivity|]. cbn [Z.leb Z.compare]. rstep.
  apply runs_when; intros Hz; [apply runs_upd|]; apply runs_ret; (split; [|done]).
  - split; cbn [fst snd].
    + split; try done. split; [by exists bl', cl', l'| |done]. by intros b' [= <-].
    + parts. by rewrite Eb, Hby, !app_nil_l.
  - split; cbn [fst snd].
    + split; try done. split; [by exists bl', cl', l'| |done]. cbn. by rewrite Eb.
    + parts. rewrite Eb, Hby. apply negb_false_iff, Z.eqb_eq in Hz.
      unfold bf_len in Hz. by destruct (bf_data b).
Qed.

Lemma no_pending s : x_wbufpending s = None → with_x_wbufpending None s = s.
Proof. destruct s. cbn. by intros ->. Qed.

Lemma can_write_out b c : (b = true → silent (W := W) (P := P)) → sx_ok c → runs (sx_can_write plugins) c (λ c' _, safe b c c').
Proof.
  intros Hs Hc. unfold sx_can_write. pose proof (sx_safe_refl _ _ b _ Hc) as H0. rstep. rstep. unfold id. rstep; [by rstep|].
  rstep. eapply runs_mono; [by apply get_pending_out, (ok_ready plugins F)|]. cbv beta. intros c1 ret [H1 ->].
  assert (safe b c c1) as S1 by by apply kept_safe.
  cbn [Z.ltb Z.compare]. rstep. rstep. destruct (x_wbufpending c1.2) as [t|] eqn:Eo.
  2: { by apply safe_last; [apply (saves_then_read plugins F)|]. }
  pose proof (us_pending _ _ _ (ok_ready plugins F _ (proj1 S1)) _ Eo) as Ht. cbn in Ht.
  pose proof (proj1 S1) as [R1 R2 R3 R4].
  apply runs_bind, runs_upd. unfold _sx_event. apply runs_bind, runs_bind, runs_upd. cbn [fst snd].
  apply runs_bind. eapply runs_mono; [apply law_take; by destruct R1|]. cbv beta.
  intros c3 [written r] (K & Hw & Ep & ext & Eq & Et). cbn [fst snd] in *. apply runs_bind, runs_upd. apply runs_ret.
  cbv beta iota. destruct (Z.ltb_spec written 0); [lia|].
  assert (∀ o, (∀ b', o = Some b' → plain (b', 0%Z)) → taken c3.1 ++ (match o with Some b => bf_data b | None => [] end) =
     taken c1.1 ++ bf_data t → safe b c (c3.1, with_x_wbufpending o (with_x_reentry (x_reentry c3.2 - 1) c3.2))) as Hnext.
  { intros o Ho Hdata.
    assert (keeps plugins F c1.2 (with_x_wbufpending o (with_x_reentry (x_reentry c3.2 - 1) c3.2))) as K13.
    { eapply (sx_keeps_trans _ _ _ (with_x_reentry (x_reentry c1.2 + 1) (with_x_wbufpending None c1.2))).
      { destruct R1. by split; [split|..]. }
      eapply sx_keeps_trans; [exact K|]. destruct (ks_usable _ _ _ _ K). by split; [split|..]. }
    eapply sx_safe_trans; [exact S1|]. split_and!.
    - eapply sx_keeps_ok; [exact K13|exact (proj1 S1)].
    - revert Eq Ep. parts. rewrite Eo. intros Eq Ep. exists ext. rewrite Ep, !app_nil_l in Eq.
      rewrite Eq, !app_assoc. by rewrite Hdata.
    - intros _. apply no_more_same. apply (ks_rnadq _ _ _ _ K13). }
  assert (∀ fin, safe b c fin → runs (r ← finish; match r with Some v => mret v | None => then_read end) fin (λ c' _, safe b c c')) as Hend.
  { intros fin S5. eapply safe_saves; [apply (saves_finish plugins F)|exact S5|]. intros c6 r6 S6. rstep; [by rstep|].
    by apply safe_last; [apply (saves_then_read plugins F)|]. }
  apply runs_bind. destruct (Z.ltb_spec written (bf_len t)) as [Hlt|Hge].
  - apply runs_bind, runs_upd. eapply runs_mono.
    { apply (safe_last plugins F b _ c); [save|].
      apply (Hnext (Some (SxBuf (drop (Z.to_nat written) (bf_data t)) (bf_notify t)))).
      { intros b' [= <-]. by destruct Ht. }
      cbn. by rewrite Et, <- app_assoc, take_drop. }
    cbv beta. intros c5 _ S5. by apply Hend.
  - assert (safe b c (c3.1, with_x_reentry (x_reentry c3.2 - 1) c3.2)) as S4.
    { rewrite <- (no_pending (with_x_reentry (x_reentry c3.2 - 1) c3.2)) by exact Ep. apply Hnext; [done|].
      rewrite Et, app_nil_r, take_ge; [done|]. unfold bf_len in Hge. lia. }
    destruct (bf_notify t) as [fn|] eqn:En; [|rstep; by apply Hend]. destruct Ht as [_ [Ht|Ht]]; cbn in Ht; [congruence|].
    assert (fn = NotifyServerHeader) as -> by congruence. cbn [notify].
    eapply runs_mono; [by apply (notify_header_safe plugins F b), S4|]. cbv beta. intros c5 _ S5. apply Hend. by eapply sx_safe_trans.
Qed.
End write.
