(* ===== verification/SxSpec.v ===== *)
(** * What a stream promises, and an application for the examples

    The properties of sx: a stream of a server does not fail, gives its
    application well-formed packets and writes what was queued in order; where
    it keeps a connection waiting for ever. *)
From S2P Require Import Prelude.
From S2P Require Import CStr.
From S2P Require Import DList.
From S2P Require Import JQueue.
From S2P Require Import Codec.
From S2P Require Import Nad.
From S2P Require Import NadThms.
From S2P Require Import Stanza.
From S2P Require Import Pkt.
From S2P Require Import SxState.
From S2P Require Import Sx.
From S2P Require Import SxIo.
From S2P Require Import SxLogic.
From S2P Require Import SxRead.
From S2P Require Import SxRun.
From S2P Require Import SxTotal.

(** A stream that is made, started as a server's, and used. *)
Definition sx_session {W P} `{!SxEnv W P} (plugins : list (plugin W P)) (w : W) (env : bool) (tag flags : Z) (ops : list sx_op) :
    option (W * sx P) :=
  c ← sx_new plugins w env tag;
  '(c, _) ← sx_server_init plugins flags c;
  '(c, _) ← sx_run plugins ops c;
  Some c.

Section session.
Context {W P : Type} `{!SxEnv W P} `{!XmlLaws W P} (plugins : list (plugin W P)) (F : frame W P) `{!AppLaws plugins F}.
Context (can_write : ∀ c, sx_ok plugins F c → runs (sx_can_write plugins) c (λ c' _, safe plugins F false c c')).

Lemma new_kept w env tag : ∃ c1, sx_new plugins w env tag = Some c1 ∧ kept plugins F (w, with_x_env env (sx_zero tag)) c1.
Proof.
  assert (ready plugins F (w, with_x_env env (sx_zero tag))) as Hr by apply sx_zero_fresh.
  destruct (respects_over plugins F p_new (po_new plugins F) _ Hr) as (c1 & [] & E & K).
  exists c1. split; [|done]. unfold sx_new. by rewrite E.
Qed.
Lemma new_fresh w env tag c1 : sx_new plugins w env tag = Some c1 → x_state c1.2 = state_NONE →
  fresh plugins F c1 ∧ fr_J F (w, with_x_env env (sx_zero tag)) c1.
Proof.
  destruct (new_kept w env tag) as (c2 & -> & [[Hu Hn Hd Hf Hq He Hs Hc Hx H0] HJ]). intros [= <-] Hst.
  destruct (sx_zero_fresh plugins F w env tag) as [F1 F2 F3 F4 F5]. split; [|done].
  split; [done|done|by rewrite Hq| |by rewrite Hx]. by rewrite Hf, Hc, Hd, Hn.
Qed.

(** The plugins leave a new stream in its first state. *)
Definition new_is_none (w : W) (env : bool) (tag : Z) : Prop :=
  ∀ c1, sx_new plugins w env tag = Some c1 → x_state c1.2 = state_NONE.

Lemma session_safe w env tag flags ops : new_is_none w env tag → Forall op_ok ops →
  ∃ c, sx_session plugins w env tag flags ops = Some c ∧ sx_ok plugins F c ∧ fr_J F (w, with_x_env env (sx_zero tag)) c.
Proof.
  intros Hnone Hops. destruct (new_kept w env tag) as (c1 & E1 & _). destruct (new_fresh _ _ _ _ E1 (Hnone _ E1)) as [Hf HJ].
  destruct (server_init_safe plugins F flags c1 Hf) as (c2 & [] & E2 & S2).
  destruct (sx_run_safe plugins F can_write ops c2 Hops (proj1 S2)) as (c3 & [] & E3 & S3).
  exists c3. split_and!; [|by apply S3|].
  - unfold sx_session. rewrite E1. cbn [mbind option_bind]. rewrite E2. cbn [mbind option_bind]. by rewrite E3.
  - eapply fr_trans; [exact HJ|]. eapply fr_trans; [apply S2|apply S3].
Qed.

Lemma sx_run_app (l1 l2 : list sx_op) c :
  sx_run plugins (l1 ++ l2) c = '(c1, _) ← sx_run plugins l1 c; sx_run plugins l2 c1.
Proof.
  unfold sx_run. revert c. induction l1 as [|o l1 IH]; intros c; [done|]. cbn [app for_each].
  unfold mbind at 1 3, sxM_bind. destruct (sx_do plugins o c) as [[c1 []]|]; [apply IH|done].
Qed.
Lemma session_extends w env tag flags ops1 ops2 c1 c2 : new_is_none w env tag → Forall op_ok (ops1 ++ ops2) →
  sx_session plugins w env tag flags ops1 = Some c1 → sx_session plugins w env tag flags (ops1 ++ ops2) = Some c2 →
  fr_J F c1 c2.
Proof.
  intros Hnone [Ho1 Ho2]%Forall_app H1 H2. destruct (session_safe w env tag flags ops1 Hnone Ho1) as (c & E & Hc & _).
  rewrite H1 in E. injection E as <-. revert H1 H2. unfold sx_session. destruct (sx_new _ _ _ _) as [c0|]; [|done]. cbn [mbind option_bind].
  destruct (sx_server_init _ _ c0) as [[c00 []]|]; [|done]. cbn [mbind option_bind]. rewrite sx_run_app.
  destruct (sx_run plugins ops1 c00) as [[c' []]|]; [|done]. cbn [mbind option_bind]. intros [= ->].
  destruct (sx_run_safe plugins F can_write ops2 c1 Ho2 Hc) as (c3 & [] & E3 & S3). rewrite E3. cbn. intros [= <-]. apply S3.
Qed.
End session.

(** ** An application and a parser *)

(** What the socket has to read and how much of each write it takes; what was taken, the
    packets, and how often the end was told. *)
Record app := App { a_in : list text; a_take : list Z; a_taken : text; a_seen : list nad; a_closed : nat }.

(** A parser of a little language: [<] opens an element, [>] ends it, [!] declares an entity,
    other characters are text. *)
Definition toy_start (ph : phase) : list xml_call :=
  match ph with
  | Prolog _ => [XCall (XNamespace None (Some uri_CLIENT));
      XCall (XStart (uri_STREAMS +:+ "|stream|stream") [("to", "example.org"); ("version", "1.0")])]
  | _ => [XCall (XStart (uri_CLIENT +:+ "|message") [])]
  end.
Definition toy_char (ph : phase) (ch : ascii) : option (phase * list xml_call) :=
  match ph with
  | Prolog b =>
    if bool_decide (ch = "<"%char) then Some (Inside 0 false, toy_start ph)
    else if bool_decide (ch = "!"%char) then Some (Stopped, [XEntity]) else None
  | Inside d false =>
    if bool_decide (ch = "<"%char) then Some (Inside (S d) false, toy_start ph)
    else if bool_decide (ch = ">"%char) then Some (match d with O => Epilog | S d => Inside d false end, [XCall XEnd])
    else Some (ph, [XCall (XCdata [ch])])
  | _ => None
  end.
Fixpoint toy_parse (ph : phase) (t : text) : phase * list xml_call * bool :=
  match t with
  | [] => (ph, [], match ph with Stopped => false | _ => true end)
  | ch :: t =>
    match toy_char ph ch with
    | None => (Stopped, [], false)
    | Some (ph, l) => let '(ph, l', ok) := toy_parse ph t in (ph, l ++ l', ok)
    end
  end.

Definition toy_base (cb : sx_event → sxM app phase (Z * text)) : SxEnv app phase := {|
  sx_cb := cb;
  sx_notify _ := mret ();
  xml_new := Prolog false;
  xml_parse := toy_parse;
  xml_stop _ := Stopped;
  xml_error _ := Some "syntax error";
  sx_rand w := (w, 7%Z);
  RAND_MAX := 100
|}.
(** An application that does nothing. *)
Definition idle_env : SxEnv app phase := toy_base (λ _, mret (0%Z, [])).

(** The application: it reads and writes, answers each packet, and writes at once whenever the stream
    wants to write, as mio_write does; what it calls from its callback calls it back as [inner] says. *)
Definition toy_cb (inner : SxEnv app phase) (e : sx_event) : sxM app phase (Z * text) :=
  match e with
  | event_READ _ =>
    t ← world (λ w, match a_in w with
                    | [] => (w, None)
                    | t :: l => (App l (a_take w) (a_taken w) (a_seen w) (a_closed w), Some t)
                    end);
    mret (match t with Some t => (Z.of_nat (length t), t) | None => (0%Z, []) end)
  | event_WRITE b =>
    k ← world (λ w, let k := match a_take w with k :: _ => Z.min (Z.max 0 k) (bf_len b) | [] => bf_len b end in
                    (App (a_in w) (tail (a_take w)) (a_taken w ++ take (Z.to_nat k) (bf_data b)) (a_seen w) (a_closed w), k));
    mret (k, [])
  | event_WANT_WRITE => sx_can_write (SxEnv0 := inner) [];; mret (0%Z, [])
  | event_PACKET n =>
    world (λ w, (App (a_in w) (a_take w) (a_taken w) (a_seen w ++ [n]) (a_closed w), ()));;
    sx_raw_write (SxEnv0 := inner) (tx "ok");;
    mret (0%Z, [])
  | event_CLOSED =>
    world (λ w, (App (a_in w) (a_take w) (a_taken w) (a_seen w) (S (a_closed w)), ()));; mret (0%Z, [])
  | _ => mret (0%Z, [])
  end.
(** Callbacks within callbacks, to some depth. *)
Fixpoint toy_level (k : nat) : SxEnv app phase :=
  match k with O => idle_env | S k => toy_base (toy_cb (toy_level k)) end.
#[global] Instance toy_env : SxEnv app phase := toy_base (toy_cb (toy_level 4)).

Lemma toy_char_phase ph ch ph' l l' : toy_char ph ch = Some (ph', l) →
  phase_after ph (l ++ l') = if decide (XEntity ∈ l) then Some Stopped else phase_after ph' l'.
Proof.
  unfold toy_char. destruct ph as [b|d []| |]; try done.
  - case_bool_decide; [by intros [= <- <-]|]. case_bool_decide; [|done]. by intros [= <- <-].
  - case_bool_decide; [by intros [= <- <-]; destruct d|]. case_bool_decide; intros [= <- <-]; by destruct d.
Qed.
Lemma toy_parse_phase ph t ph' l ok : toy_parse ph t = (ph', l, ok) →
  ∃ ph1, phase_after ph l = Some ph1 ∧ (XEntity ∉ l → ph' = ph1 ∨ ok = false ∧ ph' = Stopped).
Proof.
  revert ph ph' l ok. induction t as [|ch t IH]; intros ph ph' l ok; cbn [toy_parse].
  { intros [= <- <- <-]. exists ph. split; [done|by left]. }
  destruct (toy_char ph ch) as [[ph1 l1]|] eqn:E.
  2: { intros [= <- <- <-]. exists ph. split; [done|]. by right. }
  destruct (toy_parse ph1 t) as [[ph2 l2] ok2] eqn:Et. intros [= <- <- <-].
  destruct (IH _ _ _ _ Et) as (ph3 & H3 & H4). rewrite (toy_char_phase _ _ _ _ l2 E). destruct (decide (XEntity ∈ l1)) as [Hi|Hi].
  - exists Stopped. split; [done|]. intros Hn. destruct Hn. apply elem_of_app. by left.
  - exists ph3. split; [done|]. intros Hn. apply H4. intros H. apply Hn. apply elem_of_app. by right.
Qed.
#[global] Instance toy_xml cb : XmlLaws app phase (H := toy_base cb).
Proof.
  refine (Build_XmlLaws app phase (toy_base cb) (λ ph, ph) eq_refl _ toy_parse_phase). done.
Defined.
Lemma toy_silent cb : silent (SxEnv0 := toy_base cb).
Proof. done. Qed.

(** The application keeps to its laws, for whatever is asked of it that holds when it reads,
    answers a packet and counts, if the writing within does. *)
Section toy.
Context (F : frame app phase).
Context (F_world : ∀ c w, a_taken w = a_taken c.1 → (Forall packet_ok (a_seen c.1) → Forall packet_ok (a_seen w)) →
  fr_J F c (w, c.2)).

Lemma idle_laws : AppLaws (SxEnv0 := idle_env) [] F.
Proof.
  split; [| |done|].
  - intros code g sp c Hc. apply runs_ret. by apply kept_refl.
  - intros e c Hc _ _. apply runs_ret. by apply sx_safe_refl.
  - intros [w s]. apply fr_refl.
Qed.
Lemma world_safe cb c w : sx_ok (SxEnv0 := toy_base cb) [] F c → a_taken w = a_taken c.1 →
  (Forall packet_ok (a_seen c.1) → Forall packet_ok (a_seen w)) → safe (SxEnv0 := toy_base cb) [] F true c (w, c.2).
Proof.
  intros Hc H1 H2. apply kept_safe; [|done]. split; [exact (sx_keeps_refl [] F _ (rd_ready _ _ _ _ Hc))|by apply F_world].
Qed.
Lemma toy_laws inner : AppLaws (SxEnv0 := toy_base inner) [] F →
  (∀ c, sx_ok (SxEnv0 := toy_base inner) [] F c →
     runs (sx_can_write (SxEnv0 := toy_base inner) []) c (λ c' _, safe (SxEnv0 := toy_base inner) [] F true c c')) →
  AppLaws (SxEnv0 := toy_base (toy_cb (toy_base inner))) [] F.
Proof.
  intros Hi Hw. split; [| |done|by intros [w s]; apply fr_refl].
  { intros code g sp c Hc. apply runs_ret. by apply kept_refl. }
  intros e c Hc Hp Hne. destruct e; cbn [sx_cb toy_base toy_cb]; try (apply runs_ret; by apply sx_safe_refl).
  - apply runs_bind. eapply runs_mono; [exact (Hw c Hc)|]. cbv beta. intros c1 _ H1. by apply runs_ret.
  - apply runs_bind, runs_world. destruct (a_in c.1) as [|t l] eqn:E; apply runs_ret; by apply world_safe.
  - by destruct (Hne buf).
  - apply runs_bind, runs_world. cbn [fst snd]. apply runs_bind.
    match goal with |- runs _ ?d _ => assert (safe (SxEnv0 := toy_base inner) [] F true c d) as H1 end.
    { apply world_safe; [exact Hc|done|]. cbn. intros H. apply Forall_app. split; [done|]. constructor; [by apply Hp|done]. }
    eapply runs_mono; [apply (saves_raw_write (SxEnv0 := toy_base inner) [] F true (tx "ok")); [done|exact (proj1 H1)]|].
    cbv beta. intros c2 _ H2. apply runs_ret. exact (sx_safe_trans _ _ _ _ _ _ H1 H2).
  - apply runs_bind, runs_world. apply runs_ret. by apply world_safe.
Qed.
End toy.

(** The frames of the three properties at the application, at any depth. *)
Lemma toy_write_laws cb (I : app → Prop) :
  (∀ b, cb (event_WRITE b) = toy_cb idle_env (event_WRITE b) ∨ cb (event_WRITE b) = mret (0%Z, [])) →
  (∀ w w', a_seen w' = a_seen w → I w → I w') → WriteLaws (SxEnv0 := toy_base cb) [] I.
Proof.
  intros Hcb HI. split.
  - intros t c Hc. assert (∀ w, a_seen w = a_seen c.1 → safe (SxEnv0 := toy_base cb) [] (world_frame I) true c (w, c.2)) as H.
    { intros w Hw. apply kept_safe; [|done]. split; [exact (sx_keeps_refl [] (world_frame I) _ (rd_ready _ _ _ _ Hc))|]. intros Hi. by apply (HI c.1). }
    cbn [sx_cb toy_base]. destruct (Hcb t) as [-> | ->]; [|apply runs_ret; by apply sx_safe_refl].
    apply runs_bind, runs_world. apply runs_ret. by apply H.
  - intros k c Hc. apply runs_ret. by apply sx_safe_refl.
Qed.
Lemma toy_world_laws (I : app → Prop) k :
  (∀ w w', a_taken w' = a_taken w → (Forall packet_ok (a_seen w) → Forall packet_ok (a_seen w')) → I w → I w') →
  (∀ w w', a_seen w' = a_seen w → I w → I w') →
  AppLaws (SxEnv0 := toy_base (toy_cb (toy_level k))) [] (world_frame I).
Proof.
  intros HI HI'. assert (∀ c w, a_taken w = a_taken c.1 → (Forall packet_ok (a_seen c.1) → Forall packet_ok (a_seen w)) →
    fr_J (world_frame I) c (w, c.2 : sx phase)) as HF by (intros c w H1 H2; exact (HI _ _ H1 H2)).
  induction k as [|k IH]; apply toy_laws; try done.
  - by apply idle_laws.
  - intros c Hc. assert (AppLaws (SxEnv0 := idle_env) [] (world_frame I)) by by apply idle_laws.
    assert (WriteLaws (SxEnv0 := idle_env) [] I) by (apply toy_write_laws; [by right|done]).
    by apply (can_write_safe (SxEnv0 := idle_env) [] I true).
  - intros c Hc. assert (WriteLaws (SxEnv0 := toy_base (toy_cb (toy_level k))) [] I) by (apply toy_write_laws; [by left|done]).
    by apply (can_write_safe (SxEnv0 := toy_base (toy_cb (toy_level k))) [] I true).
Qed.
Lemma toy_take cb :
  (∀ b, cb (event_WRITE b) = toy_cb idle_env (event_WRITE b) ∨ cb (event_WRITE b) = mret (0%Z, [])) →
  OutLaws (SxEnv0 := toy_base cb) [] a_taken.
Proof.
  intros Hcb. split; [|done]. intros t c Hc. cbn [sx_cb toy_base]. destruct (Hcb t) as [-> | ->].
  - apply runs_bind, runs_world. apply runs_ret. cbn [fst snd a_taken].
    split; [by apply sx_keeps_refl|]. split; [|split; [done|]].
    + unfold bf_len. destruct (a_take c.1); lia.
    + exists []. by rewrite app_nil_r.
  - apply runs_ret. split; [by apply sx_keeps_refl|]. split; [unfold bf_len; cbn; lia|]. split; [done|].
    exists []. cbn. by rewrite !app_nil_r.
Qed.
Lemma toy_out_laws k : AppLaws (SxEnv0 := toy_base (toy_cb (toy_level k))) [] (out_frame a_taken).
Proof.
  assert (∀ (c : app * sx phase) w, a_taken w = a_taken c.1 → (Forall packet_ok (a_seen c.1) → Forall packet_ok (a_seen w)) →
    fr_J (out_frame a_taken) c (w, c.2)) as HF.
  { intros c w H _. exists []. unfold out. cbn [fst snd]. by rewrite H, app_nil_r. }
  induction k as [|k IH]; apply toy_laws; try done.
  - by apply idle_laws.
  - intros c Hc. assert (AppLaws (SxEnv0 := idle_env) [] (out_frame a_taken)) by by apply idle_laws.
    assert (OutLaws (SxEnv0 := idle_env) [] a_taken) by (apply toy_take; by right).
    by apply (can_write_out (SxEnv0 := idle_env) [] a_taken true).
  - intros c Hc. assert (OutLaws (SxEnv0 := toy_base (toy_cb (toy_level k))) [] a_taken) by (apply toy_take; by left).
    by apply (can_write_out (SxEnv0 := toy_base (toy_cb (toy_level k))) [] a_taken true).
Qed.

(** ** Properties *)

Section properties.
Context {W P : Type} `{!SxEnv W P} `{!XmlLaws W P} (plugins : list (plugin W P)).

(** C2: a stream that is made, started as a server's and used by any sequence of reads, writes,
    packets, errors and closings never fails: no assertion, no overflow of a buffer whose size
    was counted before, no loop without an end, whatever the peer sends.  The parser calls its
    handlers as Expat does for a document ([XmlLaws]); the application's callback and the plugins
    keep the stream's invariant and give it no packets, which they do if they change the stream by its own functions
    only, [sx_can_write] at once among them, and do not touch what is read when they are told of
    an error ([AppLaws], [WriteLaws]). *)
Theorem sx_never_fails (w : W) (env : bool) (tag flags : Z) (ops : list sx_op) :
  AppLaws plugins (world_frame (λ _, True)) → WriteLaws plugins (λ _, True) →
  new_is_none plugins w env tag → Forall op_ok ops →
  is_Some (sx_session plugins w env tag flags ops).
Proof.
  intros HA HW Hnone Hops.
  destruct (session_safe plugins (world_frame (λ _, True)) (can_write_safe plugins _ false ltac:(done)) w env tag flags ops Hnone Hops) as (c & -> & _).
  done.
Qed.

(** C4: every packet that the application of a server's stream is given is a well-formed document of
    at least one element, in whatever pieces it came: what it has seen, and its plugins have let
    through, stays of that kind.  Parser, application and plugins keep to the laws of C2, and
    what the application has seen changes by the packets it is given. *)
Theorem sx_packets_are_documents (seen : W → list nad) (w : W) (env : bool) (tag flags : Z) (ops : list sx_op) (c : W * sx P) :
  AppLaws plugins (world_frame (λ w, Forall packet_ok (seen w))) → WriteLaws plugins (λ w, Forall packet_ok (seen w)) →
  new_is_none plugins w env tag → Forall op_ok ops → seen w = [] →
  sx_session plugins w env tag flags ops = Some c → Forall packet_ok (seen c.1).
Proof.
  intros HA HW Hnone Hops Hw E.
  destruct (session_safe plugins (world_frame (λ w, Forall packet_ok (seen w))) (can_write_safe plugins _ false ltac:(done)) w env tag flags ops Hnone Hops)
    as (c' & E' & _ & HJ).
  rewrite E in E'. injection E' as <-. apply HJ. cbn. by rewrite Hw.
Qed.

(** C5: what a server's stream without plugins that change its bytes has queued is written once and in order: the
    bytes that were taken, those pending and those queued are, after any further operations, the
    beginning of what is taken, pending and queued then, however little the socket takes at a time,
    and though the application writes again from its callback.  Sending does not fail ([OutLaws]);
    parser and application keep to the laws of C2. *)
Theorem sx_output_in_order (taken : W → text) (w : W) (env : bool) (tag flags : Z) (ops1 ops2 : list sx_op) (c1 c2 : W * sx P) :
  AppLaws plugins (out_frame taken) → OutLaws plugins taken →
  new_is_none plugins w env tag → Forall op_ok (ops1 ++ ops2) →
  sx_session plugins w env tag flags ops1 = Some c1 → sx_session plugins w env tag flags (ops1 ++ ops2) = Some c2 →
  (taken c1.1 ++ queued c1.2) `prefix_of` (taken c2.1 ++ queued c2.2).
Proof.
  intros HA HO Hnone Hops E1 E2.
  exact (session_extends plugins (out_frame taken) (λ c, can_write_out plugins taken false c ltac:(done)) w env tag flags ops1 ops2 c1 c2 Hnone Hops E1 E2).
Qed.
End properties.

(** A client that sends its header and two messages in pieces, to a socket that takes three bytes first. *)
Definition toy_app : app := App [tx "<<h"; tx "i><"; tx "<x>>"] [3%Z] [] [] 0.
Definition toy_ops : list sx_op :=
  [OpRead; OpWrite; OpWrite; OpWrite; OpRead; OpRead; OpWrite; OpNad nad_new 0; OpError 12 None; OpClose; OpWrite; OpWrite].
Lemma toy_new (w : app) (env : bool) (tag : Z) : new_is_none [] w env tag.
Proof. unfold new_is_none, sx_new, env_plugins. intros c1. by destruct env; intros [= <-]. Qed.
Lemma toy_ops_ok : Forall op_ok toy_ops.
Proof. repeat constructor; try done. Qed.

Lemma sx_never_fails_witness : is_Some (sx_session [] toy_app true 1 0 toy_ops).
Proof.
  apply (sx_never_fails [] toy_app true 1 0 toy_ops).
  - by apply (toy_world_laws (λ _, True) 4).
  - apply (toy_write_laws _ (λ _, True)); [by left|done].
  - apply toy_new.
  - exact toy_ops_ok.
Defined.

Definition toy_seen : list nat := (λ n, length (elems n)) <$> default [] (a_seen ∘ fst <$> sx_session [] toy_app true 1 0 toy_ops).
Example toy_sees : toy_seen = [1; 2].
Proof. vm_compute. reflexivity. Qed.

Lemma sx_packets_are_documents_witness :
  match sx_session [] toy_app true 1 0 toy_ops with
  | Some c => Forall packet_ok (a_seen c.1) ∧ length (a_seen c.1) = 2
  | None => False
  end.
Proof.
  destruct (sx_session [] toy_app true 1 0 toy_ops) as [c|] eqn:E; [|by vm_compute in E].
  split.
  - apply (sx_packets_are_documents [] a_seen toy_app true 1 0 toy_ops c).
    + apply (toy_world_laws (λ w, Forall packet_ok (a_seen w)) 4); [intros w w' _ H; exact H|intros w w' -> H; exact H].
    + apply (toy_write_laws _ (λ w, Forall packet_ok (a_seen w))); [by left|intros w w' -> H; exact H].
    + apply toy_new.
    + exact toy_ops_ok.
    + reflexivity.
    + exact E.
  - assert (length <$> (a_seen ∘ fst <$> sx_session [] toy_app true 1 0 toy_ops) = Some 2) as H by (vm_compute; reflexivity).
    rewrite E in H. cbn in H. congruence.
Defined.

Lemma sx_output_in_order_witness :
  match sx_session [] toy_app true 1 0 (take 3 toy_ops), sx_session [] toy_app true 1 0 toy_ops with
  | Some c1, Some c2 => (a_taken c1.1 ++ queued c1.2) `prefix_of` (a_taken c2.1 ++ queued c2.2) ∧
      length (a_taken c1.1) < length (a_taken c2.1)
  | _, _ => False
  end.
Proof.
  destruct (sx_session [] toy_app true 1 0 (take 3 toy_ops)) as [c1|] eqn:E1; [|by vm_compute in E1].
  destruct (sx_session [] toy_app true 1 0 toy_ops) as [c2|] eqn:E2; [|by vm_compute in E2].
  split.
  - apply (sx_output_in_order [] a_taken toy_app true 1 0 (take 3 toy_ops) (drop 3 toy_ops) c1 c2).
    + exact (toy_out_laws 4).
    + apply toy_take. by left.
    + apply toy_new.
    + exact toy_ops_ok.
    + exact E1.
    + exact E2.
  - assert (match sx_session [] toy_app true 1 0 (take 3 toy_ops), sx_session [] toy_app true 1 0 toy_ops with
            | Some x, Some y => length (a_taken x.1) <? length (a_taken y.1)
            | _, _ => false
            end = true) as H by (vm_compute; reflexivity).
    rewrite E1, E2 in H. by apply Nat.ltb_lt in H.
Defined.
