(* ===== verification/SxLive.v ===== *)
(** * How a stream ends, and when it does not

    A closing stream whose socket takes what it is offered tells its application
    the end; one whose last buffer was taken in parts never does.  A stanza that
    is too long stops the stream without a word. *)
From S2P Require Import Prelude.
From S2P Require Import CStr.
From S2P Require Import DList.
From S2P Require Import JQueue.
From S2P Require Import Codec.
From S2P Require Import Nad.
From S2P Require Import Stanza.
From S2P Require Import Pkt.
From S2P Require Import SxState.
From S2P Require Import Sx.
From S2P Require Import SxIo.
From S2P Require Import SxLogic.
From S2P Require Import SxTotal.
From S2P Require Import SxSpec.

(** [n] calls of [sx_can_write]. *)
Fixpoint writes {W P} `{!SxEnv W P} (plugins : list (plugin W P)) (n : nat) : sxM W P unit :=
  match n with O => mret () | S n => sx_can_write plugins;; writes plugins n end.

Section live.
Context {W P : Type} `{!SxEnv W P} (plugins : list (plugin W P)).
Implicit Types (s : sx P) (w : W).

(** A stream with no plugins in the way that has nothing pending and [l] queued. *)
Definition ready_to_write s (l : list sx_buf) : Prop :=
  x_wio s = [] ∧ x_wbufpending s = None ∧ fifo_rep (x_wbufq s) l.

Lemma runs_eq {A} (m : sxM W P A) (c c' : W * sx P) (a : A) : runs m c (λ d b, d = c' ∧ b = a) → m c = Some (c', a).
Proof. by intros (d & b & E & -> & ->). Qed.

(** Taking the next buffer off the queue. *)
Lemma get_pending_pull w s l : ready_to_write s l →
  ∃ q, fifo_rep q (tail l) ∧ _sx_get_pending_write plugins (w, s) =
    let s' := with_x_want_write (int32 (Z.of_nat (length (tail l)))) (with_x_wbufq q s) in
    let b := default (SxBuf [] None) (head l) in
    Some ((w, if (bf_len b =? 0)%Z then s' else with_x_wbufpending (Some b) s'), 0%Z).
Proof.
  intros (Hw & Hp & Hq). destruct (fifo_pull _ _ Hq) as [Hq' Hd]. pose proof (fifo_size _ _ Hq') as Hs.
  exists (jqueue_pull (x_wbufq s)).1. split; [done|]. apply runs_eq.
  unfold _sx_get_pending_write. rstep. rstep. cbn [snd]. rewrite Hp. rstep. rstep. cbn [snd].
  destruct (jqueue_pull (x_wbufq s)) as [q o]. cbn [fst snd] in *. subst o.
  apply runs_bind, runs_upd. apply runs_bind, runs_upd. cbv zeta. rstep. unfold _sx_chain_io_write. rstep. rstep.
  cbn [fst snd with_x_want_write with_x_wbufq x_wio]. rewrite Hw. cbn [chain_io]. rstep. cbn [Z.leb Z.compare].
  rewrite Hs. destruct (bf_len _ =? 0)%Z; cbn [negb when]; rstep.
  - rstep. by rstep.
  - apply runs_upd. by rstep.
Qed.

Lemma event_runs e w s (Q : W → Z * text → Prop) :
  (∀ s', runs (sx_cb e) (w, s') (λ c' r, c'.2 = s' ∧ Q c'.1 r)) → runs (_sx_event e) (w, s) (λ c' r, c'.2 = s ∧ Q c'.1 r).
Proof.
  intros H. unfold _sx_event. apply runs_bind, runs_upd. rstep. eapply runs_mono; [apply H|]. cbv beta.
  intros [w' s'] r [Es HQ]. cbn [fst snd] in *. subst s'. apply runs_bind, runs_upd. rstep. split; [|done]. cbn [snd fst].
  destruct s. unfold with_x_reentry. cbn. f_equal. lia.
Qed.
Lemma event_unit e w s (Q : W → Prop) :
  (∀ s', runs (sx_cb e) (w, s') (λ c' r, c'.2 = s' ∧ Q c'.1)) → runs (event e) (w, s) (λ c' _, c'.2 = s ∧ Q c'.1).
Proof.
  intros H. unfold event. rstep. eapply runs_mono; [by apply (event_runs e w s (λ w _, Q w))|]. cbv beta. intros c r H'. by rstep.
Qed.

(** What the socket has taken, how often the end was told, and whether the socket takes all it is offered from now on. *)
Context (taken : W → text) (closed : W → nat) (willing : W → Prop).

(** The application looks on. *)
Class Quiet : Prop := {
  quiet_read w s : runs (sx_cb event_WANT_READ) (w, s) (λ c' _, c' = (w, s));
  quiet_closed w s : runs (sx_cb event_CLOSED) (w, s) (λ c' _, c'.2 = s ∧ taken c'.1 = taken w ∧ closed c'.1 = S (closed w))
}.
Class Takes : Prop := {
  takes_all b w s : willing w → runs (sx_cb (event_WRITE b)) (w, s)
    (λ c' r, c'.2 = s ∧ r.1 = bf_len b ∧ taken c'.1 = taken w ++ bf_data b ∧ closed c'.1 = closed w ∧ willing c'.1)
}.
Context `{!Quiet}.

Lemma then_read_runs w s : runs then_read (w, s) (λ c' v, c' = (w, s) ∧ v = x_want_write s).
Proof.
  unfold then_read. rstep. rstep. rstep. apply runs_when; intros _.
  - eapply runs_mono; [apply (event_unit _ _ _ (λ w', w' = w))|].
    { intros s'. eapply runs_mono; [apply quiet_read|]. by intros c' r ->. }
    cbv beta. intros [w' s'] _ [E1 E2]. cbn in E1, E2. subst. by rstep.
  - by rstep.
Qed.

Lemma finish_runs w s : x_state s = state_CLOSING →
  runs finish (w, s) (λ c' r, if (x_want_write s =? 0)%Z
    then r = Some 0%Z ∧ x_state c'.2 = state_CLOSED ∧ taken c'.1 = taken w ∧ closed c'.1 = S (closed w)
    else r = None ∧ c' = (w, s)).
Proof.
  intros Hst. unfold finish. rstep. rstep. unfold id. cbn [snd]. rewrite Hst, !bool_decide_eq_true_2, bool_decide_eq_false_2, andb_true_r by done.
  destruct (x_want_write s =? 0)%Z; [|by rstep]. apply runs_bind, runs_upd. rstep.
  eapply runs_mono; [apply (event_unit _ _ _ (λ w', taken w' = taken w ∧ closed w' = S (closed w)))|].
  { intros s'. eapply runs_mono; [apply quiet_closed|]. done. }
  cbv beta. intros [w' s'] _ (E1 & E2 & E3). cbn in E1, E2, E3. rstep. subst s'. done.
Qed.

(** One call, when there is something to write and the socket takes it. *)
Lemma can_write_next `{!Takes} w s b l : willing w → ready_to_write s (b :: l) → x_state s = state_CLOSING → bf_data b ≠ [] → bf_notify b = None →
  (Z.of_nat (length l) < 2 ^ 31)%Z →
  runs (sx_can_write plugins) (w, s) (λ c' _, taken c'.1 = taken w ++ bf_data b ∧
    if decide (l = []) then x_state c'.2 = state_CLOSED ∧ closed c'.1 = S (closed w)
    else x_state c'.2 = state_CLOSING ∧ ready_to_write c'.2 l ∧ closed c'.1 = closed w ∧ willing c'.1).
Proof.
  intros Hwl Hs Hst Hb Hn Hl. unfold sx_can_write. rstep. rstep. unfold id. cbn [snd]. rewrite Hst, andb_false_r.
  destruct (get_pending_pull w s _ Hs) as (q & Hq & E). cbn [head tail] in E, Hq. change (default (SxBuf [] None) (Some b)) with b in E.
  assert ((bf_len b =? 0)%Z = false) as Hbl by (apply Z.eqb_neq; unfold bf_len; destruct (bf_data b); [done|cbn; lia]).
  cbv zeta in E. rewrite Hbl in E. cbv iota in E. rstep. exists (w, with_x_wbufpending (Some b) (with_x_want_write (int32 (Z.of_nat (length l))) (with_x_wbufq q s))), 0%Z.
  split; [exact E|]. cbn [Z.ltb Z.compare]. rstep. rstep. cbn [snd x_wbufpending with_x_wbufpending]. apply runs_bind, runs_upd. cbn [fst snd].
  rstep. eapply runs_mono; [apply (event_runs _ _ _ (λ w' r, r.1 = bf_len b ∧ taken w' = taken w ++ bf_data b ∧ closed w' = closed w ∧ willing w'))|].
  { intros s'. by apply takes_all. }
  cbv beta. intros [w' s'] [k t] (E1 & E2 & E3 & E4 & E5). cbn [fst snd] in *. subst s' k.
  destruct (Z.ltb_spec (bf_len b) 0); [unfold bf_len in *; lia|]. rewrite Z.ltb_irrefl, Hn. rstep. rstep. rstep.
  rewrite int32_id by lia.
  match goal with |- runs finish (w', ?s2) _ => assert (ready_to_write s2 l ∧ x_want_write s2 = Z.of_nat (length l)) as [Hr Hw];
    [|pose proof (finish_runs w' s2 Hst) as Hf; eapply runs_mono; [exact Hf|]] end.
  { destruct Hs as (Hw1 & Hp1 & _). by split. }
  cbv beta. rewrite Hw. intros [w2 s2] r. destruct l as [|b2 l]; cbn [length].
  - cbn [Z.of_nat Z.eqb]. intros (-> & G1 & G2 & G3). rstep. cbn [fst snd] in *. rewrite decide_True by done. by rewrite G2, G3, E3, E4.
  - destruct (Z.eqb_spec (Z.of_nat (S (length l))) 0); [lia|]. intros [-> [= -> ->]].
    eapply runs_mono; [apply then_read_runs|]. cbv beta. intros c' v [-> _]. rewrite decide_False by done. by split_and!.
Qed.

Lemma closing_drains `{!Takes} l w s : willing w → l ≠ [] → ready_to_write s l → x_state s = state_CLOSING →
  Forall (λ b, bf_data b ≠ [] ∧ bf_notify b = None) l → (Z.of_nat (length l) <= 2 ^ 31)%Z →
  runs (writes plugins (length l)) (w, s) (λ c' _, x_state c'.2 = state_CLOSED ∧
    taken c'.1 = taken w ++ bytes_of l ∧ closed c'.1 = S (closed w)).
Proof.
  revert w s. induction l as [|b l IH]; intros w s Hwl Hl Hs Hst Hb Hn; [done|]. inversion_clear Hb as [|? ? [Hb1 Hb2] Hb'].
  cbn [length writes] in *. rstep. eapply runs_mono; [apply (can_write_next w s b l Hwl Hs Hst Hb1 Hb2); lia|].
  cbv beta. intros [w' s'] v [Ht Hc]. cbn [fst snd] in *. destruct (decide (l = [])) as [->|Hl'].
  - cbn [length writes]. rstep. cbn [fst snd]. destruct Hc as [H1 H2]. unfold bytes_of. cbn. by rewrite app_nil_r.
  - destruct Hc as (H1 & H2 & H3 & H4). eapply runs_mono; [apply (IH w' s' H4 Hl' H2 H1 Hb'); lia|]. cbv beta.
    intros c' _ (E1 & E2 & E3). split_and!; [done| |congruence]. rewrite E2, Ht. unfold bytes_of. cbn. by rewrite app_assoc.
Qed.

(** A call with nothing to write. *)
Lemma can_write_idle w s : ready_to_write s [] → x_state s = state_CLOSING →
  runs (sx_can_write plugins) (w, s) (λ c' v, v = 0%Z ∧ c'.1 = w ∧ x_state c'.2 = state_CLOSING ∧ ready_to_write c'.2 []).
Proof.
  intros Hs Hst. unfold sx_can_write. rstep. rstep. unfold id. cbn [snd]. rewrite Hst, andb_false_r.
  destruct (get_pending_pull w s _ Hs) as (q & Hq & E). cbv zeta in E. cbn [head tail] in E, Hq.
  change (bf_len (default (SxBuf [] None) None) =? 0)%Z with true in E. cbv iota in E.
  rstep. eexists _, _. split; [exact E|]. cbn [Z.ltb Z.compare]. rstep. rstep. cbn [snd x_wbufpending with_x_want_write with_x_wbufq].
  destruct Hs as (Hw & Hp & _). rewrite Hp. eapply runs_mono; [apply then_read_runs|]. cbv beta. intros c' v [-> ->].
  split_and!; [done|done|done|]. by split.
Qed.
Lemma writes_idle n w s : ready_to_write s [] → x_state s = state_CLOSING →
  runs (writes plugins n) (w, s) (λ c' _, c'.1 = w ∧ x_state c'.2 = state_CLOSING).
Proof.
  revert s. induction n as [|n IH]; intros s Hs Hst; cbn [writes]; [by rstep|]. rstep.
  eapply runs_mono; [by apply can_write_idle|]. cbv beta. intros [w' s'] v (_ & E & H1 & H2). cbn in E, H1, H2. subst w'. by apply IH.
Qed.

(** The last buffer, of which the socket takes [k] bytes: the rest is pending, and counted once more. *)
Lemma can_write_part w s b k : ready_to_write s [b] → x_state s = state_CLOSING → (0 <= k < bf_len b)%Z →
  (∀ s', runs (sx_cb (event_WRITE b)) (w, s') (λ c' r, c'.2 = s' ∧ r.1 = k ∧ taken c'.1 = taken w ++ take (Z.to_nat k) (bf_data b) ∧
     closed c'.1 = closed w ∧ willing c'.1)) →
  runs (sx_can_write plugins) (w, s) (λ c' v, v = 1%Z ∧ x_state c'.2 = state_CLOSING ∧ x_want_write c'.2 = 1%Z ∧
    x_wio c'.2 = [] ∧ fifo_rep (x_wbufq c'.2) [] ∧
    x_wbufpending c'.2 = Some (SxBuf (drop (Z.to_nat k) (bf_data b)) (bf_notify b)) ∧
    taken c'.1 = taken w ++ take (Z.to_nat k) (bf_data b) ∧ closed c'.1 = closed w ∧ willing c'.1).
Proof.
  intros Hs Hst Hk Hcb. unfold sx_can_write. rstep. rstep. unfold id. cbn [snd]. rewrite Hst, andb_false_r.
  destruct (get_pending_pull w s _ Hs) as (q & Hq & E). cbv zeta in E. cbn [head tail] in E, Hq.
  change (default (SxBuf [] None) (Some b)) with b in E. destruct (Z.eqb_spec (bf_len b) 0); [lia|].
  rstep. eexists _, _. split; [exact E|]. cbn [Z.ltb Z.compare]. rstep. rstep. cbn [snd x_wbufpending with_x_wbufpending].
  apply runs_bind, runs_upd. cbn [fst snd]. rstep.
  eapply runs_mono; [apply (event_runs _ _ _ (λ w' r, r.1 = k ∧ taken w' = taken w ++ take (Z.to_nat k) (bf_data b) ∧ closed w' = closed w ∧ willing w') Hcb)|].
  cbv beta. intros [w' s'] [k' t] (E1 & E2 & E3 & E4 & E5). cbn [fst snd] in *. subst s' k'.
  destruct (Z.ltb_spec k 0); [lia|]. destruct (Z.ltb_spec k (bf_len b)); [|lia].
  apply runs_bind, runs_bind, runs_upd, runs_upd. rstep. cbn [fst snd]. destruct Hs as (Hw1 & Hp1 & _).
  match goal with |- runs finish (w', ?s2) _ => pose proof (finish_runs w' s2 Hst) as Hf; eapply runs_mono; [exact Hf|] end.
  cbv beta. change (length []) with 0. change (int32 (Z.of_nat 0)) with 0%Z.
  cbn [x_want_write with_x_want_write with_x_wbufpending fst snd]. change (0 + 1 =? 0)%Z with false. cbv iota.
  intros c2 r [-> ->]. eapply runs_mono; [apply then_read_runs|]. cbv beta. intros c' v [-> ->]. by split_and!.
Qed.

(** What is pending is taken; the count stays, and with it the end untold. *)
Lemma can_write_rest `{!Takes} w s b : willing w → x_wio s = [] → fifo_rep (x_wbufq s) [] → x_wbufpending s = Some b →
  x_want_write s = 1%Z → bf_notify b = None → x_state s = state_CLOSING →
  runs (sx_can_write plugins) (w, s) (λ c' v, v = 1%Z ∧ x_state c'.2 = state_CLOSING ∧ ready_to_write c'.2 [] ∧
    taken c'.1 = taken w ++ bf_data b ∧ closed c'.1 = closed w).
Proof.
  intros Hwl Hw Hq Hp Hww Hn Hst. unfold sx_can_write. rstep. rstep. unfold id. cbn [snd]. rewrite Hst, andb_false_r.
  rstep. unfold _sx_get_pending_write. rstep. rstep. cbn [snd]. rewrite Hp. rstep. cbn [Z.ltb Z.compare]. rstep. rstep. cbn [snd].
  rewrite Hp. apply runs_bind, runs_upd. cbn [fst snd]. rstep.
  eapply runs_mono; [apply (event_runs _ _ _ (λ w' r, r.1 = bf_len b ∧ taken w' = taken w ++ bf_data b ∧ closed w' = closed w ∧ willing w'))|].
  { intros s'. by apply takes_all. }
  cbv beta. intros [w' s'] [k t] (E1 & E2 & E3 & E4 & E5). cbn [fst snd] in *. subst s' k.
  destruct (Z.ltb_spec (bf_len b) 0); [unfold bf_len in *; lia|]. rewrite Z.ltb_irrefl, Hn. rstep. rstep. rstep.
  match goal with |- runs finish (w', ?s2) _ => pose proof (finish_runs w' s2 Hst) as Hf; eapply runs_mono; [exact Hf|] end.
  cbv beta. cbn [x_want_write with_x_wbufpending]. rewrite Hww. cbn [Z.eqb]. intros c2 r [-> ->].
  eapply runs_mono; [apply then_read_runs|]. cbv beta. intros c' v [-> ->]. cbn [fst snd]. split_and!; [done|done|by split|done|done].
Qed.
End live.

(** ** A stanza that is too long *)

Section long.
Context {W P : Type} `{!SxEnv W P} (plugins : list (plugin W P)).
Implicit Types (s : sx P) (w : W).

(** A read that takes the bytes since the last stanza past the limit, when no plugin reads along. *)
Lemma can_read_long w s w' t : x_rio s = [] → (x_want_read s ≠ 0)%Z → t ≠ [] →
  (0 < x_rbytesmax s < x_rbytes s + Z.of_nat (length t))%Z → (0 <= x_rbytes s)%Z → (x_rbytes s + Z.of_nat (length t) < 2 ^ 31)%Z →
  (∀ s', runs (sx_cb (event_READ 1024)) (w, s') (λ c' r, c'.2 = s' ∧ c'.1 = w' ∧ r = (Z.of_nat (length t), t))) →
  runs (sx_can_read plugins) (w, s) (λ c' v, v = 0%Z ∧ c'.1 = w' ∧
    c'.2 = with_x_want_write 0 (with_x_want_read 0 (with_x_rbytes (x_rbytes s + Z.of_nat (length t)) s))).
Proof.
  intros Hr Hw Ht Hmax H0 Hb Hcb. unfold sx_can_read. rstep. rstep. unfold id. cbn [snd].
  destruct (Z.eqb_spec (x_want_read s) 0) as [|_]; [lia|]. cbn [andb]. rstep.
  eapply runs_mono; [by apply (event_runs _ _ _ (λ w2 r, w2 = w' ∧ r = (Z.of_nat (length t), t)))|].
  cbv beta. intros [w2 s'] [k t2] (E1 & E2 & E3). cbn [fst snd] in *. subst w2 s'. injection E3 as -> ->.
  assert (0 < length t) by (destruct t; [done|cbn; lia]).
  destruct (Z.ltb_spec (Z.of_nat (length t)) 0); [lia|]. rstep. destruct (Z.eqb_spec (Z.of_nat (length t)) 0); [lia|].
  apply runs_bind, runs_upd. cbn [fst snd]. rstep. unfold _sx_chain_io_read. rstep. rstep.
  cbn [snd x_rio with_x_rbytes]. rewrite Hr. cbn [chain_io]. rstep. rstep. rstep. unfold id. cbn [snd x_rbytes x_rbytesmax with_x_rbytes].
  rewrite int32_id by lia. destruct (Z.eqb_spec (x_rbytesmax s) 0); [lia|].
  destruct (Z.ltb_spec (x_rbytesmax s) (x_rbytes s + Z.of_nat (length t))); [|lia]. cbn [negb andb Z.leb Z.ltb Z.compare].
  rstep. apply runs_when; intros Hz; [clear Hz|discriminate Hz]. apply runs_bind, runs_upd. apply runs_upd. cbn [fst snd]. rstep.
  unfold then_write. rstep. rstep. cbn [snd x_want_write with_x_want_write]. change (negb (0 =? 0)%Z) with false. rstep. cbn [when].
  rstep. rstep. by split_and!.
Qed.
(** A stream that wants nothing does nothing. *)
Lemma wants_nothing w s : (x_want_read s = 0)%Z → (x_want_write s = 0)%Z → state_ge (x_state s) state_CLOSING = false →
  sx_can_read plugins (w, s) = Some ((w, s), 0%Z) ∧ sx_can_write plugins (w, s) = Some ((w, s), 0%Z).
Proof.
  intros Hr Hw Hst. split; apply runs_eq; [unfold sx_can_read|unfold sx_can_write]; rstep; rstep; unfold id; cbn [snd];
    rewrite ?Hr, ?Hw, Hst; cbn [Z.eqb andb negb]; by rstep.
Qed.
End long.

(** ** Properties *)

Section properties.
Context {W P : Type} `{!SxEnv W P} (taken : W → text) (closed : W → nat) (willing : W → Prop).

(** C17: a closing stream with no plugin on the way out, nothing pending and a queue of one or more buffers,
    none of them empty and none with a notify function, whose socket takes each buffer whole, has, after as
    many calls of [sx_can_write] as there are buffers in its queue, handed over everything in order, is
    closed, and has told the application so, once.  (With a buffer that is taken in parts it never ends:
    [sx_closing_stalls].) *)
Theorem sx_closing_ends (plugins : list (plugin W P)) (w : W) (s : sx P) (l : list sx_buf) :
  Quiet taken closed → Takes taken closed willing → willing w → l ≠ [] → ready_to_write s l → x_state s = state_CLOSING →
  Forall (λ b, bf_data b ≠ [] ∧ bf_notify b = None) l → (Z.of_nat (length l) <= 2 ^ 31)%Z →
  ∃ w' s', writes plugins (length l) (w, s) = Some ((w', s'), ()) ∧ x_state s' = state_CLOSED ∧
    taken w' = taken w ++ bytes_of l ∧ closed w' = S (closed w).
Proof.
  intros HQ HT Hwl Hl Hs Hst Hb Hn.
  destruct (closing_drains plugins taken closed willing l w s Hwl Hl Hs Hst Hb Hn) as ([w' s'] & [] & E & H). eauto.
Qed.

(** If the socket takes only a part of the last buffer of a closing stream at first, and then
    everything, all bytes are written but the end is never told: however often the stream is called to write,
    its state stays [state_CLOSING] and the application is not told. *)
Theorem sx_closing_stalls (w : W) (s : sx P) (b : sx_buf) (k : Z) (n : nat) :
  Quiet taken closed → Takes taken closed willing → ready_to_write s [b] → x_state s = state_CLOSING → bf_notify b = None →
  (0 <= k < bf_len b)%Z →
  (∀ s', runs (sx_cb (event_WRITE b)) (w, s') (λ c' r, c'.2 = s' ∧ r.1 = k ∧ taken c'.1 = taken w ++ take (Z.to_nat k) (bf_data b) ∧
     closed c'.1 = closed w ∧ willing c'.1)) →
  ∃ w' s', writes [] (S (S n)) (w, s) = Some ((w', s'), ()) ∧ x_state s' = state_CLOSING ∧
    taken w' = taken w ++ bf_data b ∧ closed w' = closed w.
Proof.
  intros HQ HT Hs Hst Hb Hk Hcb.
  assert (runs (writes [] (S (S n))) (w, s) (λ c' _, x_state c'.2 = state_CLOSING ∧ taken c'.1 = taken w ++ bf_data b ∧
    closed c'.1 = closed w)) as ([w' s'] & [] & E & H); [|by exists w', s'].
  cbn [writes]. rstep. eapply runs_mono; [by apply (can_write_part [] taken closed willing w s b k)|]. cbv beta.
  intros [w1 s1] v (_ & H1 & H2 & H3 & H4 & H5 & H6 & H7 & H8). cbn [fst snd] in *. rstep.
  eapply runs_mono; [by apply (can_write_rest [] taken closed willing w1 s1 _ H8 H3 H4 H5)|]. cbv beta.
  intros [w2 s2] v2 (_ & G1 & G2 & G3 & G4). cbn [fst snd bf_data] in *.
  eapply runs_mono; [by apply (writes_idle [] taken closed)|]. cbv beta. intros [w3 s3] _ [F1 F2]. cbn [fst snd] in *. subst w3.
  split_and!; [done| |congruence]. by rewrite G3, H6, <- app_assoc, take_drop.
Qed.

(** When a read takes the bytes since the last stanza past the limit, no error is sent, nothing is
    told and nothing is closed: the stream stays as it is, wants neither to read nor to write, and does
    neither when it is called. *)
Theorem sx_oversize_stalls (plugins : list (plugin W P)) (w w' : W) (s : sx P) (t : text) :
  x_rio s = [] → (x_want_read s ≠ 0)%Z → t ≠ [] → (0 < x_rbytesmax s < x_rbytes s + Z.of_nat (length t))%Z →
  (0 <= x_rbytes s)%Z → (x_rbytes s + Z.of_nat (length t) < 2 ^ 31)%Z → state_ge (x_state s) state_CLOSING = false →
  (∀ s', runs (sx_cb (event_READ 1024)) (w, s') (λ c' r, c'.2 = s' ∧ c'.1 = w' ∧ r = (Z.of_nat (length t), t))) →
  ∃ s', sx_can_read plugins (w, s) = Some ((w', s'), 0%Z) ∧ x_state s' = x_state s ∧ x_wbufq s' = x_wbufq s ∧
    sx_can_read plugins (w', s') = Some ((w', s'), 0%Z) ∧ sx_can_write plugins (w', s') = Some ((w', s'), 0%Z).
Proof.
  intros Hr Hw Ht Hmax H0 Hb Hst Hcb.
  destruct (can_read_long plugins w s w' t Hr Hw Ht Hmax H0 Hb Hcb) as ([w2 s2] & v & E & -> & Ew & Es).
  cbn [fst snd] in Ew, Es. subst w2 s2. eexists. split; [exact E|]. split; [done|]. split; [done|].
  by apply wants_nothing.
Qed.
End properties.

(** ** The application of SxSpec *)

Lemma toy_quiet : Quiet a_taken a_closed.
Proof.
  split; intros w s; [by apply runs_ret|]. apply runs_bind, runs_world. apply runs_ret. done.
Qed.
Lemma toy_takes : Takes a_taken a_closed (λ w, a_take w = []).
Proof.
  split. intros b w s Hw. apply runs_bind, runs_world. apply runs_ret. cbn [fst snd]. rewrite Hw. cbn.
  split_and!; try done. unfold bf_len. by rewrite Nat2Z.id, firstn_all.
Qed.

(** A closing stream with some buffers queued. *)
Definition closing_stream (l : list text) : sx phase :=
  with_x_state state_CLOSING (with_x_wbufq (foldl (λ q t, jqueue_push q (SxBuf t None) 0) (jqueue_new 0) l) (sx_zero 1)).
Lemma closing_ready l : ready_to_write (closing_stream l) ((λ t, SxBuf t None) <$> l).
Proof.
  split; [done|]. split; [done|]. cbn [x_wbufq closing_stream with_x_state with_x_wbufq].
  assert (∀ q k, fifo_rep q k → fifo_rep (foldl (λ q t, jqueue_push q (SxBuf t None) 0) q l) (k ++ ((λ t, SxBuf t None) <$> l))) as H.
  { induction l as [|t l IH]; intros q k Hk; cbn [foldl fmap list_fmap]; [by rewrite app_nil_r|].
    replace (k ++ SxBuf t None :: ((λ t, SxBuf t None) <$> l)) with ((k ++ [SxBuf t None]) ++ ((λ t, SxBuf t None) <$> l)) by by rewrite <- app_assoc.
    apply IH. by apply fifo_push. }
  exact (H _ [] (fifo_new 0)).
Qed.
Definition idle_app (k : list Z) : app := App [] k [] [] 0.

Lemma sx_closing_ends_witness : ∃ w' s',
  writes [] 2 (idle_app [], closing_stream [tx "bye"; tx "</stream:stream>"]) = Some ((w', s'), ()) ∧ x_state s' = state_CLOSED ∧
  a_taken w' = tx "bye</stream:stream>" ∧ a_closed w' = 1.
Proof.
  apply (sx_closing_ends a_taken a_closed (λ w, a_take w = []) [] (idle_app []) (closing_stream [tx "bye"; tx "</stream:stream>"])
    [SxBuf (tx "bye") None; SxBuf (tx "</stream:stream>") None]).
  - exact toy_quiet.
  - exact toy_takes.
  - reflexivity.
  - discriminate.
  - exact (closing_ready [tx "bye"; tx "</stream:stream>"]).
  - reflexivity.
  - repeat constructor; discriminate.
  - repeat split; vm_compute; congruence.
Defined.

Lemma sx_closing_stalls_witness : ∃ w' s',
  writes [] 5 (idle_app [3%Z], closing_stream [tx "</stream:stream>"]) = Some ((w', s'), ()) ∧ x_state s' = state_CLOSING ∧
  a_taken w' = tx "</stream:stream>" ∧ a_closed w' = 0.
Proof.
  apply (sx_closing_stalls a_taken a_closed (λ w, a_take w = []) (idle_app [3%Z]) (closing_stream [tx "</stream:stream>"])
    (SxBuf (tx "</stream:stream>") None) 3 3).
  - exact toy_quiet.
  - exact toy_takes.
  - exact (closing_ready [tx "</stream:stream>"]).
  - reflexivity.
  - reflexivity.
  - repeat split; vm_compute; congruence.
  - intros s'. exists (App [] [] (tx "</s") [] 0, s'), (3%Z, []). by split_and!.
Defined.

(** A stream that may read ten bytes for a stanza, and has read eight. *)
Definition reading_stream : sx phase :=
  with_x_rbytesmax 10 (with_x_rbytes 8 (with_x_want_read 1 (with_x_state state_OPEN (sx_zero 1)))).
Lemma sx_oversize_stalls_witness : ∃ s',
  sx_can_read [] (App [tx "<xy"] [] [] [] 0, reading_stream) = Some ((idle_app [], s'), 0%Z) ∧ x_state s' = state_OPEN ∧
  x_wbufq s' = x_wbufq reading_stream ∧
  sx_can_read [] (idle_app [], s') = Some ((idle_app [], s'), 0%Z) ∧
  sx_can_write [] (idle_app [], s') = Some ((idle_app [], s'), 0%Z).
Proof.
  apply (sx_oversize_stalls [] (App [tx "<xy"] [] [] [] 0) (idle_app []) reading_stream (tx "<xy")).
  - reflexivity.
  - discriminate.
  - discriminate.
  - repeat split; vm_compute; congruence.
  - repeat split; vm_compute; congruence.
  - repeat split; vm_compute; congruence.
  - reflexivity.
  - intros s'. eexists (_, s'), _. by split_and!.
Defined.
