(* ===== verification/SxSasl.v ===== *)
(** * SASL: sx/sasl.c

    The plugin that authenticates a stream.  The library GNU SASL is a
    parameter: sessions of a type [G], with properties, a step, and codings; so
    is what the application's callback answers.  The world holds the plugin's
    own context, which all streams share, and of this stream the session and
    what the TLS plugin knows of the peer's certificate. *)
From S2P Require Import Prelude.
From S2P Require Import CStr.
From S2P Require Import JQueue.
From S2P Require Import Codec.
From S2P Require Import Nad.
From S2P Require Import Stanza.
From S2P Require Import Pkt.
From S2P Require Import SxState.
From S2P Require Import Sx.
From S2P Require Import SxIo.

Definition uri_SASL : string := "urn:ietf:params:xml:ns:xmpp-sasl".
Definition SX_ERR_AUTH : Z := 2.
Definition SX_CONN_EXTERNAL_ID_MAX_COUNT : nat := 8.

(** The results of the library that the code tells apart. *)
Inductive gsasl_rc :=
  | GSASL_OK | GSASL_NEEDS_MORE | GSASL_AUTHENTICATION_ERROR | GSASL_NO_ANONYMOUS_TOKEN | GSASL_NO_AUTHID | GSASL_NO_AUTHZID
  | GSASL_NO_PASSWORD | GSASL_NO_PASSCODE | GSASL_NO_PIN | GSASL_NO_SERVICE | GSASL_NO_HOSTNAME | GSASL_UNKNOWN_MECHANISM
  | GSASL_MECHANISM_PARSE_ERROR | GSASL_BASE64_ERROR | GSASL_NO_CALLBACK | GSASL_OTHER (k : nat).
Inductive gsasl_property :=
  | GSASL_AUTHID | GSASL_AUTHZID | GSASL_PASSWORD | GSASL_REALM | GSASL_SERVICE | GSASL_HOSTNAME | GSASL_ANONYMOUS_TOKEN
  | GSASL_GSSAPI_DISPLAY_NAME | GSASL_VALIDATE_SIMPLE | GSASL_VALIDATE_GSSAPI | GSASL_VALIDATE_ANONYMOUS | GSASL_VALIDATE_EXTERNAL.
#[global] Instance gsasl_property_eq_dec : EqDecision gsasl_property.
Proof. solve_decision. Defined.

(** The library.  A step calls back with a session and a property. *)
Class Gsasl (G : Type) := {
  gs_mechlist : option string;
  gs_support : string → bool;
  gs_server_start : string → G + gsasl_rc;
  gs_client_start : string → G + gsasl_rc;
  gs_step : (G → gsasl_property → G * gsasl_rc) → G → text → G * gsasl_rc * text;
  gs_get : G → gsasl_property → option string;
  gs_set : G → gsasl_property → option string → G;
  gs_name : G → string;
  gs_encode : G → text → G * (text + gsasl_rc);
  gs_decode : G → text → G * (text + gsasl_rc);
  gs_base64_from : text → text + gsasl_rc;
  gs_base64_to : text → text + gsasl_rc;
  gs_strerror : gsasl_rc → string;
  gs_gethostname : string
}.

(** The application's callback, for the stream that asks. *)
Class SaslApp (A : Type) := {
  sa_realm : A → option string;
  sa_pass : A → string → string → option string;
  sa_check_pass : A → string → string → string → bool;
  sa_check_mech : A → string → bool;
  sa_gen_authzid : A → string
}.

(** [sw_ext_id] is the context's, for all streams; [sw_sd] and [sw_ssl] are this stream's. *)
Record sasl_world {A G : Type} := SaslWorld {
  sw_ext_id : list (option string);
  sw_sd : option G;
  sw_ssl : option (list (option string));
  sw_app : A
}.
Arguments sasl_world : clear implicits.

Section sasl.
Context {A G P : Type} `{!Gsasl G} `{!SaslApp A} `{!SxEnv (sasl_world A G) P} (plugins : list (plugin (sasl_world A G) P)).
(** The plugin's index, [ctx->appname], and what lies in memory behind the text of a nad. *)
Context (index : nat) (appname : string) (beyond : nad → text).
Notation M := (sxM (sasl_world A G) P).

Definition set_sd (sd : option G) (w : sasl_world A G) : sasl_world A G := SaslWorld A G (sw_ext_id w) sd (sw_ssl w) (sw_app w).
Definition set_ext (l : list (option string)) (w : sasl_world A G) : sasl_world A G := SaslWorld A G l (sw_sd w) (sw_ssl w) (sw_app w).
Definition asks {B} (f : sasl_world A G → B) : M B := world (λ w, (w, f w)).
Definition store (sd : option G) : M unit := world (λ w, (set_sd sd w, ())).

(** ** Nads *)

Definition sasl_nad (name : string) : nad * Z :=
  let '(n, ns) := nad_add_namespace nad_new uri_SASL None in ((nad_append_elem n ns name 0).1, ns).
Definition sasl_data (name : string) (data : option text) : nad :=
  let n := (sasl_nad name).1 in match data with Some t => nad_append_cdata n t 1 | None => n end.
Definition _sx_sasl_success (data : option text) : nad := sasl_data "success" data.
Definition _sx_sasl_challenge (data : option text) : nad := sasl_data "challenge" data.
Definition _sx_sasl_response (data : option text) : nad := sasl_data "response" data.
Definition _sx_sasl_abort : nad := (sasl_nad "abort").1.
Definition _sx_sasl_failure (err text : option string) : nad :=
  let '(n, ns) := sasl_nad "failure" in
  let n := match err with Some e => (nad_append_elem n ns e 1).1 | None => n end in
  match text with Some t => nad_append_cdata (nad_append_elem n ns "text" 1).1 (tx t) 2 | None => n end.

(** [_sx_nad_write(s, ..., 0)] *)
Definition send (n : nad) : M unit := _sx_nad_write plugins n 0;; mret ().
Definition fail_with (err : string) (text : option string) : M unit := send (_sx_sasl_failure (Some err) text).

(** ** The encoding of the stream *)

Definition _sx_sasl_wio (buf : sx_buf) : M (sx_buf * Z) :=
  sd ← asks sw_sd;
  sd ← lift sd;
  let '(sd, r) := gs_encode sd (bf_data buf) in
  store (Some sd);;
  match r with
  | inl out => mret (SxBuf out (bf_notify buf), 1%Z)
  | inr rc =>
    event (event_ERROR SX_ERR_AUTH "SASL Stream encoding failed" (Some (gs_strerror rc)));; mret (buf, (-1)%Z)
  end.
Definition _sx_sasl_rio (buf : sx_buf) : M (sx_buf * Z) :=
  sd ← asks sw_sd;
  sd ← lift sd;
  let '(sd, r) := gs_decode sd (bf_data buf) in
  store (Some sd);;
  match r with
  | inl out => mret (SxBuf out (bf_notify buf), 1%Z)
  | inr rc =>
    event (event_ERROR SX_ERR_AUTH "SASL Stream decoding failed" (Some (gs_strerror rc)));; mret (buf, (-1)%Z)
  end.

(** ** Opening *)

(** The name that the stream is opened for; [strlen] and [sprintf] of NULL fail. *)
Definition authorised (sd : G) (req_to : option string) : option (option string) :=
  match gs_get sd GSASL_GSSAPI_DISPLAY_NAME with
  | Some name => Some (Some name)
  | None =>
    authnid ← gs_get sd GSASL_AUTHID;
    realm ← match gs_get sd GSASL_REALM with
            | Some r => if bool_decide (r = "") then req_to else Some r
            | None => req_to
            end;
    Some (Some (authnid +:+ "@" +:+ realm))
  end.
Definition _sx_sasl_open (sd : G) : M unit :=
  to ← gets x_req_to;
  authzid ← lift (authorised sd to);
  sx_auth (Some ("SASL/" +:+ gs_name sd)) authzid.

Definition _sx_sasl_stream : M unit :=
  sd ← asks sw_sd;
  match sd with
  | None => mret ()
  | Some sd => match gs_get sd GSASL_AUTHID with None => mret () | Some _ => _sx_sasl_open sd end
  end.

(** ** Features *)

(** [strchr(mech, ' ')]: the mechanisms, and those that the application allows. *)
Fixpoint mech_words (fuel : nat) (l : string) : list string :=
  match fuel with
  | O => []
  | S fuel => match split_at " " l with None => [l] | Some (m, l) => m :: mech_words fuel l end
  end.
Definition _sx_sasl_features (n : nad) : M nad :=
  s ← gets id;
  sd ← asks sw_sd;
  app ← asks sw_app;
  if bool_decide (x_type s ≠ type_SERVER) || bool_decide (is_Some sd) || negb (flag (x_flags s) SX_SASL_OFFER)
     || (flag (x_flags s) SX_SSL_STARTTLS_REQUIRE && (x_ssf s =? 0)%Z)
  then mret n
  else
    match gs_mechlist with
    | None => mret n
    | Some mechs =>
      let offered := filter (λ m, sa_check_mech app m = true) (mech_words (S (String.length mechs)) mechs) in
      mret (if decide (offered = []) then n
            else
              let '(n, ns) := nad_add_namespace n uri_SASL None in
              let n := (nad_append_elem n ns "mechanisms" 1).1 in
              foldl (λ n m, nad_append_cdata (nad_append_elem n (-1) "mechanism" 2).1 (tx m) 3) n offered)
    end.

(** ** The library's callback *)

(** The names of the certificate, up to the first that is not there. *)
Fixpoint ext_names (l : list (option string)) : list string :=
  match l with Some x :: l => x :: ext_names l | _ => [] end.
(** EXTERNAL: the first name of the certificate that fits. *)
Fixpoint external_match (sd : G) (authzid : option string) (ids : list string) : G * gsasl_rc :=
  match ids with
  | [] => (sd, GSASL_AUTHENTICATION_ERROR)
  | x :: ids =>
    match split_at "@" x with
    | None => if bool_decide (authzid = Some x) then (sd, GSASL_OK) else external_match sd authzid ids
    | Some (node, host) =>
      if bool_decide (authzid = Some x) || bool_decide (authzid = None)
      then (gs_set (gs_set sd GSASL_AUTHID (Some node)) GSASL_REALM (Some host), GSASL_OK)
      else external_match sd authzid ids
    end
  end.

Definition _sx_sasl_gsasl_callback (ext_id : list (option string)) (app : A) (sd : G) (prop : gsasl_property) : G * gsasl_rc :=
  match prop with
  | GSASL_PASSWORD =>
    match gs_get sd GSASL_AUTHID, gs_get sd GSASL_REALM with
    | None, _ => (sd, GSASL_NO_AUTHID)
    | _, None => (sd, GSASL_NO_AUTHZID)
    | Some authnid, Some realm =>
      (match sa_pass app authnid realm with Some v => gs_set sd GSASL_PASSWORD (Some v) | None => sd end, GSASL_NEEDS_MORE)
    end
  | GSASL_SERVICE => (gs_set sd GSASL_SERVICE (Some "xmpp"), GSASL_OK)
  | GSASL_HOSTNAME => (gs_set sd GSASL_HOSTNAME (Some (stake 255 gs_gethostname)), GSASL_OK)
  | GSASL_VALIDATE_SIMPLE =>
    match gs_get sd GSASL_AUTHID, gs_get sd GSASL_REALM, gs_get sd GSASL_PASSWORD with
    | None, _, _ => (sd, GSASL_NO_AUTHID)
    | _, None, _ => (sd, GSASL_NO_AUTHZID)
    | _, _, None => (sd, GSASL_NO_PASSWORD)
    | Some authnid, Some realm, Some pass =>
      (sd, if sa_check_pass app authnid realm pass then GSASL_OK else GSASL_AUTHENTICATION_ERROR)
    end
  | GSASL_VALIDATE_GSSAPI =>
    match gs_get sd GSASL_GSSAPI_DISPLAY_NAME, gs_get sd GSASL_AUTHZID with
    | None, _ => (sd, GSASL_NO_AUTHID)
    | _, None => (sd, GSASL_NO_AUTHZID)
    | Some authnid, Some _ => (gs_set sd GSASL_AUTHID (Some authnid), GSASL_OK)
    end
  | GSASL_VALIDATE_ANONYMOUS =>
    match gs_get sd GSASL_ANONYMOUS_TOKEN with
    | None => (sd, GSASL_NO_ANONYMOUS_TOKEN)
    | Some authnid => (gs_set sd GSASL_AUTHID (Some authnid), GSASL_OK)
    end
  | GSASL_VALIDATE_EXTERNAL => external_match sd (gs_get sd GSASL_AUTHZID) (ext_names ext_id)
  | _ => (sd, GSASL_NO_CALLBACK)
  end.

(** [gsasl_step]; the session is the one behind the stream's pointer. *)
Definition step (sd : G) (t : text) : M (gsasl_rc * text) :=
  ext ← asks sw_ext_id;
  app ← asks sw_app;
  let '(sd, rc, out) := gs_step (_sx_sasl_gsasl_callback ext app) sd t in
  store (Some sd);;
  mret (rc, out).

(** ** The server's side *)

Definition _sx_sasl_notify_success : M unit :=
  _sx_chain_io_plugin index;;
  _sx_reset;;
  f ← gets x_flags;
  sx_server_init plugins f.

(** The names of the certificate, copied to the context; without TLS it keeps what it has. *)
Fixpoint copy_ext (k : nat) (from to : list (option string)) : list (option string) :=
  match k, from, to with
  | S k, Some x :: from, _ :: to => Some x :: copy_ext k from to
  | S _, None :: _, _ :: to => None :: to
  | _, _, _ => to
  end.
Definition take_ext_ids : M unit :=
  ssl ← asks sw_ssl;
  match ssl with
  | None => mret ()
  | Some ids => world (λ w, (set_ext (copy_ext SX_CONN_EXTERNAL_ID_MAX_COUNT ids (sw_ext_id w)) w, ()))
  end.

(** [strstr(in, "<") != NULL && strncmp(in, "=", strstr(in, "<") - in) == 0]: [in] is what
    is in memory from the text on, up to a NUL. *)
Definition looks_empty (mem : string) : bool :=
  match split_at "<" mem with
  | Some (before, _) => strncmp_eq (String.length before) mem "="
  | None => false
  end.

(** [jqueue]'s front buffer gets the notify function; [None]: there is none. *)
Definition set_front_notify (fn : notify_fn) (q : @jqueue sx_buf) : option (@jqueue sx_buf) :=
  a ← q_front q;
  _ ← q_heap q !! a;
  Some (JQueue (alter (λ n, JNode (SxBuf (bf_data (jn_data n)) (Some fn)) (jn_priority n) (jn_next n) (jn_prev n)) a (q_heap q))
    (q_fresh q) (q_cache q) (q_front q) (q_back q) (q_size q) (q_init_time q)).

Definition failure_of (rc : gsasl_rc) : string :=
  match rc with
  | GSASL_AUTHENTICATION_ERROR | GSASL_NO_ANONYMOUS_TOKEN | GSASL_NO_AUTHID | GSASL_NO_AUTHZID | GSASL_NO_PASSWORD
  | GSASL_NO_PASSCODE | GSASL_NO_PIN | GSASL_NO_SERVICE | GSASL_NO_HOSTNAME => "not-authorized"
  | GSASL_UNKNOWN_MECHANISM | GSASL_MECHANISM_PARSE_ERROR => "invalid-mechanism"
  | GSASL_BASE64_ERROR => "incorrect-encoding"
  | _ => "malformed-request"
  end.

(** What follows a step. *)
Definition after_step (rc : gsasl_rc) (out : text) : M unit :=
  match rc with
  | GSASL_OK =>
    match gs_base64_to out with
    | inl t =>
      send (_sx_sasl_success (Some t));;
      q ← gets x_wbufq;
      q ← lift (set_front_notify (NotifyPlugin index) q);
      upd (with_x_wbufq q)
    | inr rc => fail_with "incorrect-encoding" (Some (gs_strerror rc))
    end
  | GSASL_NEEDS_MORE =>
    match gs_base64_to out with
    | inl t => send (_sx_sasl_challenge (Some t))
    | inr rc => fail_with "incorrect-encoding" (Some (gs_strerror rc))
    end
  | _ => fail_with (failure_of rc) (Some (gs_strerror rc))
  end.

(** The session of a request, with the properties that it starts with. *)
Definition new_session (app : A) (sd : G) : G :=
  gs_set (gs_set (gs_set sd GSASL_SERVICE (Some appname)) GSASL_REALM (sa_realm app)) GSASL_HOSTNAME
    (Some (stake 255 gs_gethostname)).
(** What goes to the first step: ANONYMOUS has a name of the application's, [=] is empty. *)
Definition first_response (app : A) (mech : string) (n : nad) : text + gsasl_rc :=
  if bool_decide (mech = "ANONYMOUS") then inl (tx (sa_gen_authzid app))
  else if looks_empty (cstr_of (drop (Z.to_nat (e_icdata (elem_at n 0))) (cdata n) ++ beyond n)) then inl []
  else gs_base64_from (nad_cdata n 0).

(** [mech] is NULL for a response. *)
Definition _sx_sasl_client_process (sd : option G) (mech : option string) (n : nad) : M unit :=
  match mech with
  | Some mech =>
    app ← asks sw_app;
    if negb (gs_support mech) || negb (sa_check_mech app mech) then fail_with "invalid-mechanism" None
    else match gs_server_start mech with
    | inr rc => fail_with "temporary-auth-failure" (Some (gs_strerror rc))
    | inl sd =>
      let sd := new_session app sd in
      take_ext_ids;;
      store (Some sd);;
      match first_response app mech n with
      | inr rc => fail_with "incorrect-encoding" (Some (gs_strerror rc))
      | inl buf => '(rc, out) ← step sd buf; after_step rc out
      end
    end
  | None =>
    match gs_base64_from (nad_cdata n 0) with
    | inr rc => fail_with "incorrect-encoding" (Some (gs_strerror rc))
    | inl buf =>
      match sd with
      | None => fail_with "mechanism-too-weak" (Some "response send before auth request enabling mechanism")
      | Some sd => '(rc, out) ← step sd buf; after_step rc out
      end
    end
  end.

(** ** The client's side *)

Definition _sx_sasl_server_process (sd : G) (data : text) : M unit :=
  match gs_base64_from data with
  | inr _ => send _sx_sasl_abort
  | inl buf =>
    '(rc, out) ← step sd buf;
    match rc with
    | GSASL_OK | GSASL_NEEDS_MORE =>
      match gs_base64_to out with inl t => send (_sx_sasl_response (Some t)) | inr _ => mret () end
    | _ => send _sx_sasl_abort
    end
  end.

(** ** Packets *)

(** [NAD_ENAME_L(nad, 0) == k && strncmp(name, NAD_ENAME(nad, 0), k) == 0] *)
Definition is_elem (n : nad) (name : string) : bool := same_text (e_lname (elem_at n 0)) (nad_ename n 0) (tx name).

Definition _sx_sasl_process (n : nad) : M (nad * bool) :=
  sd ← asks sw_sd;
  s ← gets id;
  if negb ((0 <=? nad_ens n 0)%Z && same_text (n_luri (ns_at n (nad_ens n 0))) (nad_nuri n (nad_ens n 0)) (tx uri_SASL))
  then mret (n, true)
  else
    (if bool_decide (x_state s ≠ state_STREAM) then mret ()
     else match x_type s with
     | type_SERVER =>
       if negb (flag (x_flags s) SX_SASL_OFFER) then mret ()
       else if flag (x_flags s) SX_SSL_STARTTLS_REQUIRE && (x_ssf s =? 0)%Z then mret ()
       else if is_elem n "auth" then
         let attr := nad_find_attr n 0 (-1) "mechanism" None in
         if (attr <? 0)%Z then fail_with "invalid-mechanism" None
         else _sx_sasl_client_process sd (Some (stake 126 (cstr_of (nad_aval n attr)))) n
       else if is_elem n "response" then _sx_sasl_client_process sd None n
       else when (is_elem n "abort") (fail_with "aborted" None)
     | type_CLIENT =>
       match sd with
       | None => mret ()
       | Some sd =>
         if is_elem n "challenge" then _sx_sasl_server_process sd (nad_cdata n 0)
         else if is_elem n "success" then
           _sx_reset;;
           sx_client_init plugins (x_flags s) (x_ns s) (x_req_to s) (x_req_from s) (x_req_version s)
         else if is_elem n "failure" then
           event (event_ERROR SX_ERR_AUTH "Authentication failed" None);;
           store None
         else mret ()
       end
     | type_NONE => mret ()
     end);;
    mret (n, false).

Definition _sx_sasl_free : M unit := store None.

(** The functions that [sx_sasl_init] sets. *)
Definition sasl_plugin : plugin (sasl_world A G) P :=
  Plugin _ _ None (Some _sx_sasl_free) None None (Some _sx_sasl_wio) (Some _sx_sasl_rio) None None None
    (Some _sx_sasl_stream) (Some _sx_sasl_features) (Some _sx_sasl_process).

(** [true]: it has begun. *)
Definition sx_sasl_auth : M bool :=
  s ← gets id;
  if bool_decide (x_type s ≠ type_CLIENT) || bool_decide (x_state s ≠ state_STREAM) then mret false
  else
    match gs_client_start "DIGEST-MD5" with
    | inr _ => mret false
    | inl sd =>
      let sd := gs_set sd GSASL_AUTHID (Some "jabberd") in
      let sd := gs_set sd GSASL_PASSWORD (Some "secret") in
      let sd := gs_set sd GSASL_SERVICE (Some "jabberd-router") in
      let sd := gs_set sd GSASL_HOSTNAME (Some (stake 255 gs_gethostname)) in
      ext ← asks sw_ext_id;
      app ← asks sw_app;
      let '(sd, rc, out) := gs_step (_sx_sasl_gsasl_callback ext app) sd [] in
      match rc with
      | GSASL_OK | GSASL_NEEDS_MORE =>
        store (Some sd);;
        match gs_base64_to out with
        | inr _ => mret false
        | inl t =>
          let '(n, ns) := nad_add_namespace nad_new uri_SASL None in
          let n := (nad_append_elem n ns "auth" 0).1 in
          let n := (nad_append_attr n (-1) "mechanism" "DIGEST-MD5").1 in
          sx_nad_write plugins (nad_append_cdata n t 1);; mret true
        end
      | _ => mret false
      end
    end.
End sasl.
