(* ===== verification/SxSaslThms.v ===== *)
(** * What SASL shows: theorems about SxSasl

    Without TLS where TLS is required the plugin does nothing; a certificate's
    name is what EXTERNAL opens a stream for; and two ways in which a stream is
    opened for a name that was not validated for it. *)
From S2P Require Import Prelude.
From S2P Require Import CStr.
From S2P Require Import DList.
From S2P Require Import JQueue.
From S2P Require Import Codec.
From S2P Require Import Nad.
From S2P Require Import Stanza.
From S2P Require Import Pkt.
From S2P Require Import SxState.
From S2P Require Import Sx.
From S2P Require Import SxIo.
From S2P Require Import SxSasl.

(** One step of a computation that does not fail. *)
Section steps.
Context {W P A B : Type}.
Lemma bind_gets (f : sx P → A) (k : A → sxM W P B) c : (gets f ≫= k) c = k (f c.2) c.
Proof. done. Qed.
Lemma bind_upd (f : sx P → sx P) (k : unit → sxM W P B) c : (upd f ≫= k) c = k () (c.1, f c.2).
Proof. done. Qed.
Lemma bind_mret (a : A) (k : A → sxM W P B) c : (mret a ≫= k) c = k a c.
Proof. done. Qed.
Lemma bind_assoc {C} (m : sxM W P A) (f : A → sxM W P C) (k : C → sxM W P B) c : ((m ≫= f) ≫= k) c = (m ≫= λ a, f a ≫= k) c.
Proof. unfold mbind, sxM_bind. by destruct (m c) as [[]|]. Qed.
Lemma bind_run (m : sxM W P A) (k : A → sxM W P B) c c' a : m c = Some (c', a) → (m ≫= k) c = k a c'.
Proof. unfold mbind, sxM_bind. by intros ->. Qed.
End steps.
Lemma bind_asks {A G P B C} (f : sasl_world A G → B) (k : B → sxM (sasl_world A G) P C) c : (asks f ≫= k) c = k (f c.1) c.
Proof. by destruct c. Qed.
Lemma bind_store {A G P C} (sd : option G) (k : unit → sxM (sasl_world A G) P C) c :
  (store sd ≫= k) c = k () (set_sd sd c.1, c.2).
Proof. done. Qed.
#[local] Ltac run :=
  repeat first [rewrite bind_assoc|rewrite bind_gets|rewrite bind_upd|rewrite bind_mret|rewrite bind_asks|rewrite bind_store];
  cbn [fst snd id].

(** The properties of a session are what was set last. *)
Class GsaslLaws (G : Type) `{!Gsasl G} := {
  gs_get_set sd p v : gs_get (gs_set sd p v) p = v;
  gs_get_other sd p p' v : p ≠ p' → gs_get (gs_set sd p v) p' = gs_get sd p'
}.

(** A packet of the namespace, an [<auth/>] among them. *)
Definition is_sasl (n : nad) : bool :=
  (0 <=? nad_ens n 0)%Z && same_text (n_luri (ns_at n (nad_ens n 0))) (nad_nuri n (nad_ens n 0)) (tx uri_SASL).
Definition auth_request (n : nad) (mech : string) : Prop :=
  is_sasl n = true ∧ is_elem n "auth" = true ∧ (0 <= nad_find_attr n 0 (-1) "mechanism" None)%Z ∧
  stake 126 (cstr_of (nad_aval n (nad_find_attr n 0 (-1) "mechanism" None))) = mech.

Section thms.
Context {A G P : Type} `{!Gsasl G} `{!SaslApp A} `{!SxEnv (sasl_world A G) P} (plugins : list (plugin (sasl_world A G) P)).
Context (index : nat) (appname : string) (beyond : nad → text).
Notation process := (_sx_sasl_process plugins index appname beyond).
Notation callback := (_sx_sasl_gsasl_callback).

(** A stream that takes SASL requests, with no plugin in the way of its own packets. *)
Definition takes_auth (s : sx P) : Prop :=
  x_state s = state_STREAM ∧ x_type s = type_SERVER ∧ flag (x_flags s) SX_SASL_OFFER = true ∧
  flag (x_flags s) SX_SSL_STARTTLS_REQUIRE && (x_ssf s =? 0)%Z = false ∧ x_wnad s = [].

(** The world after the names of the certificate were taken. *)
Definition ext_taken (w : sasl_world A G) : sasl_world A G :=
  match sw_ssl w with
  | None => w
  | Some ids => set_ext (copy_ext SX_CONN_EXTERNAL_ID_MAX_COUNT ids (sw_ext_id w)) w
  end.

Lemma bind_take_ext {B} (k : unit → sxM (sasl_world A G) P B) w s : (take_ext_ids ≫= k) (w, s) = k () (ext_taken w, s).
Proof. unfold take_ext_ids. run. unfold ext_taken. by destruct (sw_ssl w). Qed.

(** A request comes to one step of the library, on a new session. *)
Lemma process_auth n mech w s sd0 buf :
  takes_auth s → auth_request n mech → gs_support mech = true → sa_check_mech (sw_app w) mech = true →
  gs_server_start mech = inl sd0 → first_response beyond (sw_app w) mech n = inl buf →
  process n (w, s) =
    (let '(sd2, rc, out) := gs_step (callback (sw_ext_id (ext_taken w)) (sw_app w)) (new_session appname (sw_app w) sd0) buf in
     (after_step plugins index rc out;; mret (n, false)) (set_sd (Some sd2) (ext_taken w), s)).
Proof.
  intros (Hst & Hty & Hof & Htls & _) (Hns & Hel & Hat & Hm) Hsup Hchk Hstart Hbuf.
  unfold is_sasl in Hns. unfold _sx_sasl_process. run. rewrite Hns, Hst, Hty, Hof, Htls, Hel. cbn [negb].
  rewrite bool_decide_eq_false_2 by (intros H; by apply H). run. rewrite (proj2 (Z.ltb_ge _ _) Hat), Hm.
  unfold _sx_sasl_client_process. run. rewrite Hsup, Hchk, Hstart. cbn [negb orb]. run. rewrite bind_take_ext. run. rewrite Hbuf.
  unfold step. run. cbn [set_sd sw_ext_id sw_app].
  assert (sw_app (ext_taken w) = sw_app w) as -> by (unfold ext_taken; by destruct (sw_ssl w)).
  destruct (gs_step _ _ _) as [[sd2 rc] out]. run. reflexivity.
Qed.

(** A packet of the plugin itself goes to the end of the queue. *)
Lemma send_no_wnad n w s : x_state s = state_STREAM → x_wnad s = [] →
  send plugins n (w, s) = Some ((w, with_x_want_write 1 (with_x_wbufq (jqueue_push (x_wbufq s) (SxBuf (nad_print n 0).2 None) 0) s)), ()).
Proof.
  intros Hst Hw. unfold send, _sx_nad_write. run. rewrite Hst. unfold _sx_chain_nad_write.
  change (state_ge state_STREAM state_CLOSING) with false. cbv iota. run. rewrite Hw. reflexivity.
Qed.

(** The name a session opens the stream for, and the call that does it. *)
Lemma stream_opens sd name w s : sw_sd w = Some sd → is_Some (gs_get sd GSASL_AUTHID) →
  authorised sd (x_req_to s) = Some (Some name) →
  _sx_sasl_stream (w, s) = sx_auth (Some ("SASL/" +:+ gs_name sd)) (Some name) (w, s).
Proof.
  intros Hsd [a Ha] Hn. unfold _sx_sasl_stream. run. rewrite Hsd, Ha.
  unfold _sx_sasl_open. run. rewrite Hn. reflexivity.
Qed.
Lemma authorised_realm sd a r to : gs_get sd GSASL_GSSAPI_DISPLAY_NAME = None → gs_get sd GSASL_AUTHID = Some a →
  gs_get sd GSASL_REALM = Some r → r ≠ "" → authorised sd to = Some (Some (a +:+ "@" +:+ r)).
Proof. intros H1 H2 H3 H4. unfold authorised. rewrite H1, H2, H3. cbn. by rewrite bool_decide_eq_false_2. Qed.

(** C14: where the application requires TLS and the connection has none, the plugin neither offers
    mechanisms nor answers: every packet of its namespace is dropped, every other passed on,
    and neither the stream nor anything else changes. *)
Theorem sasl_needs_tls (n : nad) (w : sasl_world A G) (s : sx P) :
  x_type s = type_SERVER → flag (x_flags s) SX_SSL_STARTTLS_REQUIRE = true → x_ssf s = 0%Z →
  _sx_sasl_features n (w, s) = Some ((w, s), n) ∧ process n (w, s) = Some ((w, s), (n, negb (is_sasl n))).
Proof.
  intros Hty Hfl Hssf. split.
  - unfold _sx_sasl_features. run. rewrite Hfl, Hssf, !orb_true_r. reflexivity.
  - unfold _sx_sasl_process. run. fold (is_sasl n).
    destruct (is_sasl n); [|done]. cbn [negb]. case_bool_decide; [done|]. rewrite Hty, Hfl, Hssf.
    by destruct (negb (flag (x_flags s) SX_SASL_OFFER)).
Qed.

(** C12: an authentication that fails still takes the place of the one before it, whose success
    may be waiting in the queue: the session that the failed request leaves, with the name that it
    claimed, is what the stream is opened for once it is restarted. *)
Theorem failed_auth_opens (n : nad) (mech a r : string) (w : sasl_world A G) (s : sx P) (sd0 sd2 : G) (buf out : text) (rc : gsasl_rc) :
  takes_auth s → auth_request n mech → gs_support mech = true → sa_check_mech (sw_app w) mech = true →
  gs_server_start mech = inl sd0 → first_response beyond (sw_app w) mech n = inl buf →
  gs_step (callback (sw_ext_id (ext_taken w)) (sw_app w)) (new_session appname (sw_app w) sd0) buf = (sd2, rc, out) →
  rc ≠ GSASL_OK → rc ≠ GSASL_NEEDS_MORE →
  gs_get sd2 GSASL_GSSAPI_DISPLAY_NAME = None → gs_get sd2 GSASL_AUTHID = Some a → gs_get sd2 GSASL_REALM = Some r → r ≠ "" →
  ∃ w' s' failure, process n (w, s) = Some ((w', s'), (n, false)) ∧
    x_wbufq s' = jqueue_push (x_wbufq s) failure 0 ∧ bf_notify failure = None ∧
    ∀ s2, _sx_sasl_stream (w', s2) = sx_auth (Some ("SASL/" +:+ gs_name sd2)) (Some (a +:+ "@" +:+ r)) (w', s2).
Proof.
  intros Hs Hn Hsup Hchk Hstart Hbuf Hstep Hok Hmore Hg Ha Hr Hne.
  rewrite (process_auth n mech w s sd0 buf Hs Hn Hsup Hchk Hstart Hbuf), Hstep.
  set (w' := set_sd (Some sd2) (ext_taken w)).
  set (failure := _sx_sasl_failure (Some (failure_of rc)) (Some (gs_strerror rc))).
  exists w', (with_x_want_write 1 (with_x_wbufq (jqueue_push (x_wbufq s) (SxBuf (nad_print failure 0).2 None) 0) s)),
    (SxBuf (nad_print failure 0).2 None).
  split_and!; [|done|done|].
  - assert (after_step plugins index rc out = send plugins failure) as -> by (by destruct rc).
    rewrite (bind_run _ _ _ _ _ (send_no_wnad _ _ _ (proj1 Hs) (proj2 (proj2 (proj2 (proj2 Hs)))))). done.
  - intros s2. apply (stream_opens sd2); [done|by eexists|]. by apply authorised_realm.
Qed.

(** ** The front of the queue *)

Notation noted fn b := (SxBuf (bf_data b) (Some fn)).

Lemma set_front_fifo fn q b l : fifo_rep q (b :: l) → ∃ q', set_front_notify fn q = Some q' ∧ fifo_rep q' (noted fn b :: l).
Proof.
  intros (bl & cl & c & [Hch Hsc Hnd Hfr Hb Hf Hhd Hsz HF] & Hc).
  assert (c = rev ((λ n, (n, 0%Z)) <$> l) ++ [(b, 0%Z)]) as -> by (by rewrite <- (rev_involutive c), Hc).
  apply Forall2_app_inv_r in HF as (bl0 & bl1 & HF0 & HF1 & ->).
  inversion HF1 as [|a ? ? ? Ha HF2]; subst. inversion HF2; subst. clear HF1 HF2.
  unfold payload in Ha. destruct (q_heap q !! a) as [n|] eqn:En; [|done]. cbn in Ha. injection Ha as Hn Hp.
  unfold set_front_notify. rewrite Hf, last_or_snoc. cbn. rewrite En. cbn. eexists; split; [done|].
  set (f := λ n : jnode, JNode (noted fn (jn_data n)) (jn_priority n) (jn_next n) (jn_prev n)).
  assert (∀ a' n', q_heap q !! a' = Some n' → ∃ n'', alter f a (q_heap q) !! a' = Some n'' ∧ nx n'' = nx n' ∧ pv n'' = pv n') as Hl.
  { intros a' n' E. destruct (decide (a' = a)) as [->|]; [rewrite lookup_alter_eq, E; by eexists|].
    rewrite lookup_alter_ne by done. by exists n'. }
  exists (bl0 ++ [a]), cl, (rev ((λ n, (n, 0%Z)) <$> l) ++ [(noted fn b, 0%Z)]). split; [|by rewrite rev_app_distr, rev_involutive].
  rewrite <- app_assoc in Hnd. apply NoDup_app in Hnd as (Hnd0 & Hdis & Hnd1).
  split; cbn; try done.
  - by apply (dseg_same_links _ _ _ _ _ Hl).
  - by apply (sseg_same_links _ _ _ _ Hl).
  - rewrite <- app_assoc. by apply NoDup_app.
  - by rewrite last_or_snoc.
  - apply Forall2_app.
    + eapply payloads_ext; [|exact HF0]. intros a' Ha'. unfold payload. rewrite lookup_alter_ne; [done|].
      intros <-. apply (Hdis _ Ha'). set_solver.
    + constructor; [|constructor]. unfold payload. rewrite lookup_alter_eq, En. cbn. by rewrite Hn, Hp.
Qed.

(** The world and the stream after the success of an authentication. *)
Lemma after_success out t w s q : x_state s = state_STREAM → x_wnad s = [] → gs_base64_to out = inl t →
  set_front_notify (NotifyPlugin index) (jqueue_push (x_wbufq s) (SxBuf (nad_print (_sx_sasl_success (Some t)) 0).2 None) 0) = Some q →
  after_step plugins index GSASL_OK out (w, s) = Some ((w, with_x_wbufq q (with_x_want_write 1
    (with_x_wbufq (jqueue_push (x_wbufq s) (SxBuf (nad_print (_sx_sasl_success (Some t)) 0).2 None) 0) s))), ()).
Proof.
  intros Hst Hw Ht Hq. unfold after_step. rewrite Ht. rewrite (bind_run _ _ _ _ _ (send_no_wnad _ w s Hst Hw)). run.
  change (x_wbufq (with_x_want_write 1 (with_x_wbufq ?q0 s))) with q0. rewrite Hq. reflexivity.
Qed.

(** The success of an authentication is told to the peer before the stream restarts only if
    nothing else waits to be written: the function that restarts the stream is set on the first
    buffer of the queue, and when that was there before, writing it drops the success. *)
Theorem success_restarts_after_front (out t : text) (w : sasl_world A G) (s : sx P) (l : list sx_buf) :
  x_state s = state_STREAM → x_wnad s = [] → gs_base64_to out = inl t → fifo_rep (x_wbufq s) l →
  ∃ s' s2, let success := SxBuf (nad_print (_sx_sasl_success (Some t)) 0).2 None in
    after_step plugins index GSASL_OK out (w, s) = Some ((w, s'), ()) ∧
    fifo_rep (x_wbufq s')
      (match l with [] => [noted (NotifyPlugin index) success] | b :: l => noted (NotifyPlugin index) b :: l ++ [success] end) ∧
    (_sx_chain_io_plugin index;; _sx_reset) (w, with_x_wbufq (jqueue_pull (x_wbufq s')).1 s') = Some ((w, s2), ()) ∧
    fifo_rep (x_wbufq s2) [] ∧ x_wio s2 = index :: x_wio s ∧ x_state s2 = state_NONE.
Proof.
  intros Hst Hw Ht Hl. set (success := SxBuf (nad_print (_sx_sasl_success (Some t)) 0).2 None).
  pose proof (fifo_push _ _ success Hl) as Hp.
  assert (∃ q, set_front_notify (NotifyPlugin index) (jqueue_push (x_wbufq s) success 0) = Some q ∧
    fifo_rep q (match l with [] => [noted (NotifyPlugin index) success] | b :: l => noted (NotifyPlugin index) b :: l ++ [success] end))
    as (q & Hq & Hr) by (destruct l; by apply set_front_fifo).
  eexists _, _. split_and!.
  - by apply (after_success out t w s q).
  - exact Hr.
  - reflexivity.
  - apply fifo_new.
  - done.
  - done.
Qed.

(** ** Certificates *)

Section external.
Context `{!GsaslLaws G}.

(** A name of a certificate fits what the peer asked to be: it is that, or it has a host and the
    peer asked for nothing. *)
Definition fits (authzid : option string) (x : string) : Prop :=
  authzid = Some x ∨ authzid = None ∧ is_Some (split_at "@" x).

Lemma external_none sd z ids : Forall (λ x, ¬ fits z x) ids → external_match sd z ids = (sd, GSASL_AUTHENTICATION_ERROR).
Proof.
  induction 1 as [|x ids Hx _ IH]; [done|]. cbn [external_match]. unfold fits in Hx. destruct (split_at "@" x) as [[node host]|].
  - rewrite !bool_decide_eq_false_2 by naive_solver. done.
  - rewrite bool_decide_eq_false_2 by naive_solver. done.
Qed.
Lemma external_first sd z pre x post : Forall (λ x, ¬ fits z x) pre → fits z x →
  external_match sd z (pre ++ x :: post) =
    (match split_at "@" x with
     | Some (node, host) => gs_set (gs_set sd GSASL_AUTHID (Some node)) GSASL_REALM (Some host)
     | None => sd
     end, GSASL_OK).
Proof.
  intros Hpre Hx. induction Hpre as [|y pre Hy _ IH].
  - cbn [app external_match]. destruct (split_at "@" x) as [[node host]|] eqn:E.
    + destruct Hx as [->|[-> _]]; [by rewrite (bool_decide_eq_true_2 (Some x = Some x))|].
      by rewrite (bool_decide_eq_true_2 (None = None)), orb_true_r.
    + destruct Hx as [->|[_ [? ?]]]; [by rewrite bool_decide_eq_true_2|]. congruence.
  - cbn [app external_match]. unfold fits in Hy. destruct (split_at "@" y) as [[node host]|].
    + rewrite !bool_decide_eq_false_2 by naive_solver. done.
    + rewrite bool_decide_eq_false_2 by naive_solver. done.
Qed.
Lemma external_opens sd x node host to : gs_get sd GSASL_GSSAPI_DISPLAY_NAME = None → split_at "@" x = Some (node, host) → host ≠ "" →
  authorised (gs_set (gs_set sd GSASL_AUTHID (Some node)) GSASL_REALM (Some host)) to = Some (Some x).
Proof.
  intros Hg Hx Hh. apply split_at_Some in Hx as ->. rewrite (authorised_realm _ node host); try done.
  - by rewrite !gs_get_other.
  - by rewrite gs_get_other, gs_get_set.
  - by rewrite gs_get_set.
Qed.

(** C13: EXTERNAL is granted if and only if one of the certificate names that the plugin's context holds
    fits what the peer asked for.  Then, if the first of them that fits has a host, a stream is opened for
    that name whatever domain was asked for, and without an at sign it sets nothing.  If it is not granted
    nothing is set either.  The session has no display name of GSSAPI, which would be taken instead. *)
Theorem external_is_certificate (ext : list (option string)) (app : A) (sd : G) :
  gs_get sd GSASL_GSSAPI_DISPLAY_NAME = None →
  let z := gs_get sd GSASL_AUTHZID in
  let '(sd', rc) := callback ext app sd GSASL_VALIDATE_EXTERNAL in
  (rc = GSASL_OK ∨ rc = GSASL_AUTHENTICATION_ERROR) ∧
  (rc = GSASL_OK ↔ Exists (fits z) (ext_names ext)) ∧
  (rc = GSASL_OK → ∃ pre x post, ext_names ext = pre ++ x :: post ∧ Forall (λ y, ¬ fits z y) pre ∧ fits z x ∧
     match split_at "@" x with
     | Some (node, host) => host ≠ "" → ∀ to, authorised sd' to = Some (Some x)
     | None => sd' = sd
     end) ∧
  (rc ≠ GSASL_OK → sd' = sd).
Proof.
  intros Hg z. cbn [callback]. fold z.
  assert (∀ x, Decision (fits z x)) as Hdec by (intros x; unfold fits; apply _).
  destruct (decide (Exists (fits z) (ext_names ext))) as [HE|HE].
  - assert (∃ pre x post, ext_names ext = pre ++ x :: post ∧ Forall (λ x, ¬ fits z x) pre ∧ fits z x) as (pre & x & post & E & Hpre & Hx).
    { clear -HE Hdec. induction (ext_names ext) as [|x l IH]; [by apply Exists_nil in HE|].
      destruct (Hdec x) as [Hx|Hx]; [by exists [], x, l|]. apply Exists_cons in HE as [?|HE]; [done|].
      destruct (IH HE) as (pre & y & post & -> & Hp & Hy). exists (x :: pre), y, post. split; [done|]. split; [by constructor|done]. }
    rewrite E, external_first by done. split; [by left|]. split; [by rewrite <- E|]. split; [|done].
    intros _. exists pre, x, post. split; [done|]. split; [done|]. split; [done|]. destruct (split_at "@" x) as [[node host]|] eqn:Ex; [|done].
    intros Hh to. by apply external_opens.
  - rewrite external_none by (by apply Forall_Exists_neg). split; [by right|]. split; [naive_solver|]. split; [done|done].
Qed.

(** C30: a stream without TLS is taken for the owner of the certificate that another stream
    brought: the names stay in the context that all streams share, and a request for EXTERNAL on
    the stream without one is granted, and the stream opened, for the first name of them. *)
Theorem stale_certificate_opens (n : nad) (w : sasl_world A G) (s : sx P) (l : list sx_buf) (sd0 : G) (x node host : string)
    (ids : list (option string)) (t : text) :
  takes_auth s → fifo_rep (x_wbufq s) l → auth_request n "EXTERNAL" → gs_support "EXTERNAL" = true →
  sa_check_mech (sw_app w) "EXTERNAL" = true → gs_server_start "EXTERNAL" = inl sd0 → first_response beyond (sw_app w) "EXTERNAL" n = inl [] →
  (∀ cb, gs_step cb (new_session appname (sw_app w) sd0) [] =
     let '(sd, rc) := cb (new_session appname (sw_app w) sd0) GSASL_VALIDATE_EXTERNAL in (sd, rc, [])) → gs_base64_to [] = inl t →
  gs_get sd0 GSASL_AUTHZID = None → gs_get sd0 GSASL_GSSAPI_DISPLAY_NAME = None →
  sw_ssl w = None → sw_ext_id w = Some x :: ids → split_at "@" x = Some (node, host) → host ≠ "" →
  ∃ w' s' sd, process n (w, s) = Some ((w', s'), (n, false)) ∧ sw_ssl w' = None ∧
    ∀ s2, _sx_sasl_stream (w', s2) = sx_auth (Some ("SASL/" +:+ gs_name sd)) (Some x) (w', s2).
Proof.
  intros Hs Hl Hn Hsup Hchk Hstart Hbuf Hstep Ht Hz Hg Hssl Hext Hx Hh.
  rewrite (process_auth n "EXTERNAL" w s sd0 [] Hs Hn Hsup Hchk Hstart Hbuf).
  assert (ext_taken w = w) as -> by (unfold ext_taken; by rewrite Hssl).
  set (sd1 := new_session appname (sw_app w) sd0).
  assert (gs_get sd1 GSASL_AUTHZID = None ∧ gs_get sd1 GSASL_GSSAPI_DISPLAY_NAME = None) as [Hz1 Hg1].
  { unfold sd1, new_session. by rewrite !gs_get_other. }
  set (sd2 := gs_set (gs_set sd1 GSASL_AUTHID (Some node)) GSASL_REALM (Some host)).
  fold sd1 in Hstep. rewrite Hstep. cbn [callback]. rewrite Hext, Hz1. cbn [ext_names external_match]. rewrite Hx.
  rewrite (bool_decide_eq_true_2 (None = None)), orb_true_r by done. cbv iota beta.
  pose proof (fifo_push _ _ (SxBuf (nad_print (_sx_sasl_success (Some t)) 0).2 None) Hl) as Hp.
  assert (∃ q, set_front_notify (NotifyPlugin index) (jqueue_push (x_wbufq s) (SxBuf (nad_print (_sx_sasl_success (Some t)) 0).2 None) 0) = Some q) as [q Hq].
  { destruct l; destruct (set_front_fifo (NotifyPlugin index) _ _ _ Hp) as (q & Hq & _); by exists q. }
  eexists (set_sd (Some sd2) w), _, sd2. split_and!.
  - rewrite (bind_run _ _ _ _ _ (after_success [] t (set_sd (Some sd2) w) s q (proj1 Hs) (proj2 (proj2 (proj2 (proj2 Hs)))) Ht Hq)). done.
  - done.
  - intros s2. apply (stream_opens sd2); [done| |].
    + exists node. unfold sd2. by rewrite gs_get_other, gs_get_set.
    + by apply (external_opens sd1 x node host).
Qed.
End external.
End thms.

(** ** A library and an application

    Of the library PLAIN and EXTERNAL, as it documents them: PLAIN sets the name and the password
    that it was sent and asks for them to be validated. *)
Record toy_sess := ToySess { ts_name : string; ts_props : list (gsasl_property * option string) }.
Definition toy_set (sd : toy_sess) (p : gsasl_property) (v : option string) : toy_sess :=
  ToySess (ts_name sd) ((p, v) :: ts_props sd).
Definition toy_get (sd : toy_sess) (p : gsasl_property) : option string :=
  head (filter (λ x, x.1 = p) (ts_props sd)) ≫= snd.
Definition toy_start (mech : string) : toy_sess + gsasl_rc := inl (ToySess mech []).
(** The three fields of PLAIN, each up to a NUL. *)
Definition toy_plain (t : text) : string * string * string :=
  let z := cstr_of t in
  let t := drop (S (String.length z)) t in
  let a := cstr_of t in
  (z, a, cstr_of (drop (S (String.length a)) t)).
Definition toy_step (cb : toy_sess → gsasl_property → toy_sess * gsasl_rc) (sd : toy_sess) (t : text) : toy_sess * gsasl_rc * text :=
  let '(sd, rc) :=
    if bool_decide (ts_name sd = "PLAIN") then
      let '(_, a, p) := toy_plain t in
      cb (toy_set (toy_set sd GSASL_AUTHID (Some a)) GSASL_PASSWORD (Some p)) GSASL_VALIDATE_SIMPLE
    else cb sd GSASL_VALIDATE_EXTERNAL in
  (sd, rc, []).
#[global] Instance toy_gsasl : Gsasl toy_sess := {|
  gs_mechlist := Some "EXTERNAL PLAIN";
  gs_support m := bool_decide (m = "PLAIN") || bool_decide (m = "EXTERNAL");
  gs_server_start := toy_start;
  gs_client_start := toy_start;
  gs_step := toy_step;
  gs_get := toy_get;
  gs_set := toy_set;
  gs_name := ts_name;
  gs_encode sd t := (sd, inl t);
  gs_decode sd t := (sd, inl t);
  gs_base64_from t := inl (char_of <$> b64_decode (String.string_of_list_ascii t));
  gs_base64_to t := inl (tx (b64_encode (uchar <$> t)));
  gs_strerror _ := "error";
  gs_gethostname := "host"
|}.
#[global] Instance toy_gsasl_laws : GsaslLaws toy_sess.
Proof.
  split; intros; unfold gs_get, gs_set, toy_gsasl, toy_get, toy_set, ts_props; [by rewrite filter_cons_True|by rewrite filter_cons_False].
Qed.

(** One user, ann, and the realm of the host. *)
#[global] Instance toy_sasl_app : SaslApp unit := {|
  sa_realm _ := Some "example.org";
  sa_pass _ _ _ := None;
  sa_check_pass _ a _ p := bool_decide (a = "ann" ∧ p = "secret");
  sa_check_mech _ _ := true;
  sa_gen_authzid _ := "anonymous"
|}.
#[global] Instance toy_sasl_env : SxEnv (sasl_world unit toy_sess) unit := {|
  sx_cb _ := mret (0%Z, []);
  sx_notify _ := mret ();
  xml_new := ();
  xml_parse _ _ := ((), [], true);
  xml_stop _ := ();
  xml_error _ := None;
  sx_rand w := (w, 7%Z);
  RAND_MAX := 100
|}.

Definition toy_auth (mech data : string) : nad :=
  let '(n, ns) := sasl_nad "auth" in
  nad_append_cdata (nad_append_attr n (-1) "mechanism" mech).1 (tx data) 1.
Definition toy_stream : sx unit :=
  with_x_state state_STREAM (with_x_type type_SERVER (with_x_flags SX_SASL_OFFER (sx_zero (W:=sasl_world unit toy_sess) 1))).
Definition toy_world (ext : list (option string)) : sasl_world unit toy_sess := SaslWorld unit toy_sess ext None None ().
Notation toy_process := (_sx_sasl_process [] 0 "xmpp" (λ _, tx "</auth>")).
Definition ann : nad := toy_auth "PLAIN" (b64_encode (uchar <$> nul :: tx "ann" ++ nul :: tx "secret")).
Definition admin : nad := toy_auth "PLAIN" (b64_encode (uchar <$> nul :: tx "admin" ++ nul :: tx "guess")).

Lemma sasl_needs_tls_witness :
  let s := with_x_flags (Z.lor SX_SASL_OFFER SX_SSL_STARTTLS_REQUIRE) toy_stream in
  toy_process ann (toy_world [], s) = Some ((toy_world [], s), (ann, false)).
Proof.
  exact (proj2 (sasl_needs_tls [] 0 "xmpp" (λ _, tx "</auth>") ann (toy_world [])
    (with_x_flags (Z.lor SX_SASL_OFFER SX_SSL_STARTTLS_REQUIRE) toy_stream) eq_refl eq_refl eq_refl)).
Defined.

(** ann authenticates; before that is written the peer claims to be admin, with a wrong password. *)
Lemma failed_auth_opens_witness :
  ∃ w1 s1 n1 w2 s2, toy_process ann (toy_world [], toy_stream) = Some ((w1, s1), (n1, false)) ∧
    toy_process admin (w1, s1) = Some ((w2, s2), (admin, false)) ∧
    ∀ s3, _sx_sasl_stream (w2, s3) = sx_auth (Some "SASL/PLAIN") (Some "admin@example.org") (w2, s3).
Proof.
  destruct (toy_process ann (toy_world [], toy_stream)) as [[[w1 s1] [n1 b1]]|] eqn:E1; [|by vm_compute in E1].
  vm_compute in E1. injection E1 as <- <- <- <-.
  match goal with |- ∃ w1 s1 n1 w2 s2, Some ((?w, ?s), _) = _ ∧ _ => set (w1 := w); set (s1 := s) end.
  pose proof (failed_auth_opens [] 0 "xmpp" (λ _, tx "</auth>") admin "PLAIN" "admin" "example.org" w1 s1
    (ToySess "PLAIN" [])
    (toy_set (toy_set (new_session "xmpp" () (ToySess "PLAIN" [])) GSASL_AUTHID (Some "admin")) GSASL_PASSWORD (Some "guess"))
    (nul :: tx "admin" ++ nul :: tx "guess") [] GSASL_AUTHENTICATION_ERROR) as H.
  destruct H as (w2 & s2 & f & H1 & _ & _ & H2).
  - split_and!; vm_compute; done.
  - split_and!; vm_compute; done.
  - vm_compute. reflexivity.
  - vm_compute. reflexivity.
  - vm_compute. reflexivity.
  - vm_compute. reflexivity.
  - vm_compute. reflexivity.
  - done.
  - done.
  - vm_compute. reflexivity.
  - vm_compute. reflexivity.
  - vm_compute. reflexivity.
  - done.
  - eexists w1, s1, _, w2, s2. split; [reflexivity|]. split; [exact H1|exact H2].
Defined.

(** Another stream brought the certificate of ann. *)
Lemma stale_certificate_opens_witness :
  ∃ w s, toy_process (toy_auth "EXTERNAL" "=") (toy_world [Some "ann@example.org"], toy_stream) =
      Some ((w, s), (toy_auth "EXTERNAL" "=", false)) ∧ sw_ssl w = None ∧
    ∀ s2, ∃ m, _sx_sasl_stream (w, s2) = sx_auth m (Some "ann@example.org") (w, s2).
Proof.
  destruct (stale_certificate_opens [] 0 "xmpp" (λ _, tx "</auth>") (toy_auth "EXTERNAL" "=") (toy_world [Some "ann@example.org"])
    toy_stream [] (ToySess "EXTERNAL" []) "ann@example.org" "ann" "example.org" [] []) as (w & s & sd & H1 & H2 & H3).
  - split_and!; vm_compute; reflexivity.
  - apply fifo_new.
  - split_and!; vm_compute; done.
  - reflexivity.
  - reflexivity.
  - reflexivity.
  - vm_compute. reflexivity.
  - intros cb. unfold gs_step, toy_gsasl, toy_step. cbn [new_session]. reflexivity.
  - reflexivity.
  - reflexivity.
  - reflexivity.
  - reflexivity.
  - reflexivity.
  - reflexivity.
  - discriminate.
  - exists w, s. split; [exact H1|]. split; [exact H2|]. intros s2. eexists. exact (H3 s2).
Defined.

Lemma external_is_certificate_witness :
  let '(sd, rc) := _sx_sasl_gsasl_callback [Some "other.org"; Some "ann@example.org"] () (ToySess "EXTERNAL" []) GSASL_VALIDATE_EXTERNAL in
  rc = GSASL_OK ∧ gs_get sd GSASL_AUTHID = Some "ann" ∧
  ∃ pre x post, ["other.org"; "ann@example.org"] = pre ++ x :: post ∧ Forall (λ y, ¬ fits None y) pre ∧ fits None x.
Proof.
  assert (gs_get (ToySess "EXTERNAL" []) GSASL_GSSAPI_DISPLAY_NAME = None) as Hg by reflexivity.
  destruct (external_is_certificate [Some "other.org"; Some "ann@example.org"] () (ToySess "EXTERNAL" []) Hg) as (_ & _ & H & _).
  split; [reflexivity|]. split; [reflexivity|]. destruct (H eq_refl) as (pre & x & post & Hx & Hp & Hf & _).
  exists pre, x, post. split; [exact Hx|]. split; [exact Hp|exact Hf].
Defined.

Lemma success_restarts_after_front_witness :
  let features := SxBuf (tx "<stream:features/>") None in
  ∃ s' success, after_step [] 0 GSASL_OK [] (toy_world [], with_x_wbufq (jqueue_push (jqueue_new 0) features 0) toy_stream) =
      Some ((toy_world [], s'), ()) ∧
    fifo_rep (x_wbufq s') [SxBuf (tx "<stream:features/>") (Some (NotifyPlugin 0)); success].
Proof.
  intros features.
  destruct (success_restarts_after_front [] 0 [] [] (toy_world []) (with_x_wbufq (jqueue_push (jqueue_new 0) features 0) toy_stream)
    [features]) as (s' & s2 & H1 & H2 & _).
  - reflexivity.
  - reflexivity.
  - reflexivity.
  - apply (fifo_push _ [] features). apply fifo_new.
  - exists s'. eexists. split; [exact H1|exact H2].
Defined.
