(* ===== verification/Mio.v ===== *)
(** * Managed input and output: src/mio/mio_impl.h

    The descriptors of a process and what to do when they can be read or
    written, as the backend of epoll does it.  A handler and its argument are a
    value of the application's own type [H]; [handle] calls it, and it may call
    these functions again.  [None] is freed or missing memory.  The calls of
    the system are parameters: what they give is an argument. *)
From S2P Require Import Prelude.
From S2P Require Import CStr.
From S2P Require Import DList.

(** A loop that may go wrong. *)
Fixpoint foldO {A B} (f : B → A → option B) (b : B) (l : list A) : option B :=
  match l with [] => Some b | a :: l => b ← f b a; foldO f b l end.

Inductive mio_action := action_ACCEPT | action_READ | action_WRITE | action_CLOSE.
#[global] Instance mio_action_eq_dec : EqDecision mio_action.
Proof. solve_decision. Defined.

(** [mio_type_t] *)
Definition type_CLOSED : Z := 0x00.
Definition type_NORMAL : Z := 0x01.
Definition type_LISTEN : Z := 0x02.
Definition type_CONNECT : Z := 0x10.
Definition type_CONNECT_READ : Z := 0x11.
Definition type_CONNECT_WRITE : Z := 0x12.

(** [struct mio_priv_fd_st]; [f_in] and [f_out] are the bits EPOLLIN and EPOLLOUT of [events]. *)
Record mio_fd (H : Type) := MioFd {
  f_fd : Z;
  f_type : Z;
  f_app : option H;
  f_in : bool;
  f_out : bool
}.
Arguments MioFd {H}. Arguments f_fd {H}. Arguments f_type {H}. Arguments f_app {H}. Arguments f_in {H}. Arguments f_out {H}.

(** [struct mio_priv_st]: the descriptors that are allocated. *)
Record mio (H : Type) := Mio { m_fds : gmap loc (mio_fd H); m_fresh : loc; m_defer_free : bool }.
Arguments Mio {H}. Arguments m_fds {H}. Arguments m_fresh {H}. Arguments m_defer_free {H}.

(** A process that holds a mio; [w_closed] notes a [close] of a descriptor. *)
Class MioWorld (W H : Type) := {
  w_mio : W → mio H;
  w_set_mio : mio H → W → W;
  w_closed : Z → W → W
}.

Section fields.
Context {H : Type}.
Implicit Types (x : mio_fd H) (m : mio H).

Definition with_f_type (t : Z) x : mio_fd H := MioFd (f_fd x) t (f_app x) (f_in x) (f_out x).
Definition with_f_app (a : option H) x : mio_fd H := MioFd (f_fd x) (f_type x) a (f_in x) (f_out x).
Definition with_f_in (b : bool) x : mio_fd H := MioFd (f_fd x) (f_type x) (f_app x) b (f_out x).
Definition with_f_out (b : bool) x : mio_fd H := MioFd (f_fd x) (f_type x) (f_app x) (f_in x) b.
Definition upd_fd (f : loc) (g : mio_fd H → mio_fd H) m : mio H := Mio (alter g f (m_fds m)) (m_fresh m) (m_defer_free m).
(** [MIO_FREE_FD] *)
Definition free_fd (f : loc) m : mio H := Mio (delete f (m_fds m)) (m_fresh m) (m_defer_free m).
Definition set_defer (b : bool) m : mio H := Mio (m_fds m) (m_fresh m) b.
(** [MIO_ALLOC_FD] *)
Definition _mio_alloc_fd (fd : Z) m : mio H * loc :=
  (Mio (<[m_fresh m := MioFd fd 0 None false false]> (m_fds m)) (S (m_fresh m)) (m_defer_free m), m_fresh m).
Definition _mio_new : mio H := Mio ∅ 0 false.

(** The descriptor's own fields; [nonblocking]: did [fcntl] go well? *)
Definition _mio_setup_fd (fd : Z) (nonblocking : bool) (app : H) m : mio H * option loc :=
  let '(m, f) := _mio_alloc_fd fd m in
  let m := upd_fd f (λ x, with_f_app (Some app) (with_f_type type_NORMAL x)) m in
  if nonblocking then (m, Some f) else (free_fd f m, None).

Definition connecting (x : mio_fd H) : bool := negb (Z.land (f_type x) type_CONNECT =? 0)%Z.
End fields.

(** What [epoll_wait] reports of a descriptor, and what the calls made for it
    give: [accept] a new descriptor, whether it could be made non-blocking, and its
    address; the rest is the application's. *)
Record mio_res (I : Type) := MioRes {
  r_fd : loc;
  r_read : bool;
  r_write : bool;
  r_accept : option (Z * bool * string);
  r_in : I
}.
Arguments MioRes {I}. Arguments r_fd {I}. Arguments r_read {I}. Arguments r_write {I}. Arguments r_accept {I}. Arguments r_in {I}.

Section mio.
Context {W H I : Type} `{MioWorld W H}.
(** Calls a handler: the value it returns and the state it leaves. *)
Context (handle : H → mio_action → loc → option string → W → option (Z * W)).
(** The answers of the system for one descriptor. *)
Context (input : I → W → W).
Implicit Types (w : W) (f : loc).

Definition get_fd w f : option (mio_fd H) := m_fds (w_mio w) !! f.
Definition upd_mio (g : mio H → mio H) w : W := w_set_mio (g (w_mio w)) w.

(** [ACT] *)
Definition act (a : mio_action) f (d : option string) w : option (Z * W) :=
  x ← get_fd w f; h ← f_app x; handle h a f d w.

Definition _mio_close f w : option W :=
  x ← get_fd w f;
  if (f_type x =? type_CLOSED)%Z then Some w
  else
    w ← match f_app x with Some _ => snd <$> act action_CLOSE f None w | None => Some w end;
    x ← get_fd w f;
    let w := w_closed (f_fd x) w in
    let w := upd_mio (upd_fd f (λ x, with_f_app None (with_f_type type_CLOSED x))) w in
    Some (if m_defer_free (w_mio w) then w else upd_mio (free_fd f) w).

Definition _mio_app f (app : H) w : option W := _ ← get_fd w f; Some (upd_mio (upd_fd f (with_f_app (Some app))) w).

Definition _mio_read (f : option loc) w : option W :=
  match f with
  | None => Some w
  | Some f =>
    x ← get_fd w f;
    Some (if connecting x then upd_mio (upd_fd f (with_f_type (Z.lor (f_type x) type_CONNECT_READ))) w
          else upd_mio (upd_fd f (with_f_in true)) w)
  end.

Definition _mio_write (f : option loc) w : option W :=
  match f with
  | None => Some w
  | Some f =>
    x ← get_fd w f;
    if connecting x then Some (upd_mio (upd_fd f (with_f_type (Z.lor (f_type x) type_CONNECT_WRITE))) w)
    else if negb (f_type x =? type_NORMAL)%Z then Some w
    else
      '(r, w) ← act action_WRITE f None w;
      if (r =? 0)%Z then Some w
      else _ ← get_fd w f; Some (upd_mio (upd_fd f (with_f_out true)) w)
  end.

(** A connection that was being made. *)
Definition _mio__connect f w : option W :=
  x ← get_fd w f;
  let type := f_type x in
  let w := upd_mio (upd_fd f (λ x, with_f_out false (with_f_type type_NORMAL x))) w in
  w ← (if negb (Z.land type type_CONNECT_READ =? 0)%Z then _mio_read (Some f) w else Some w);
  if negb (Z.land type type_CONNECT_WRITE =? 0)%Z then _mio_write (Some f) w else Some w.

Definition _mio_accept f (r : option (Z * bool * string)) w : option W :=
  match r with
  | None => Some w
  | Some (newfd, nonblocking, ip) =>
    x ← get_fd w f; app ← f_app x;
    let '(m, new) := _mio_setup_fd newfd nonblocking app (w_mio w) in
    let w := w_set_mio m w in
    match new with
    | None => Some (w_closed newfd w)
    | Some new =>
      '(r, w) ← act action_ACCEPT new (Some ip) w;
      if (r =? 0)%Z then Some w
      else _ ← get_fd w new; Some (upd_mio (free_fd new) (w_closed newfd w))
    end
  end.

(** The two calls for a descriptor that is ready. *)
Definition ready_read f (r : bool) w : option W :=
  x ← get_fd w f;
  if (f_type x =? type_NORMAL)%Z && r then
    '(r, w) ← act action_READ f None w;
    if (r =? 0)%Z then _ ← get_fd w f; Some (upd_mio (upd_fd f (with_f_in false)) w) else Some w
  else Some w.
Definition ready_write f (r : bool) w : option W :=
  x ← get_fd w f;
  if (f_type x =? type_NORMAL)%Z && r then
    '(r, w) ← act action_WRITE f None w;
    if (r =? 0)%Z then _ ← get_fd w f; Some (upd_mio (upd_fd f (with_f_out false)) w) else Some w
  else Some w.
Definition free_closed f w : option W :=
  x ← get_fd w f; Some (if (f_type x =? type_CLOSED)%Z then upd_mio (free_fd f) w else w).

(** The body of the loop. *)
Definition mio_result (w : W) (r : mio_res I) : option W :=
  let f := r_fd r in
  let w := input (r_in r) w in
  x ← get_fd w f;
  if (f_type x =? type_CLOSED)%Z then Some w
  else
    w ← (if (f_type x =? type_LISTEN)%Z && r_read r then _mio_accept f (r_accept r) w
         else if connecting x && (r_read r || r_write r) then _mio__connect f w
         else w ← ready_read f (r_read r) w; ready_write f (r_write r) w);
    free_closed f w.

Definition _mio_run (rs : list (mio_res I)) w : option W :=
  match rs with
  | [] => Some w
  | _ => w ← foldO mio_result (upd_mio (set_defer true) w) rs; Some (upd_mio (set_defer false) w)
  end.

(** [sock]: the descriptor if each of the calls before it went well. *)
Definition _mio_listen (sock : option (Z * bool)) (app : H) w : option (W * option loc) :=
  match sock with
  | None => Some (w, None)
  | Some (fd, nonblocking) =>
    let '(m, f) := _mio_setup_fd fd nonblocking app (w_mio w) in
    let w := w_set_mio m w in
    match f with
    | None => Some (w_closed fd w, None)
    | Some f => w ← _mio_read (Some f) (upd_mio (upd_fd f (with_f_type type_LISTEN)) w); Some (w, Some f)
    end
  end.

(** What [connect] gives on a socket: a connection, one to wait for, or none. *)
Inductive connecting_result := ConnNow (fd : Z) (nonblocking : bool) | ConnLater (fd : Z) (nonblocking : bool) | ConnFailed.
Definition _mio_connect (r : connecting_result) (app : H) w : W * option loc :=
  match r with
  | ConnFailed => (w, None)
  | ConnNow fd nb =>
    let '(m, f) := _mio_setup_fd fd nb app (w_mio w) in
    let w := w_set_mio m w in
    match f with Some f => (w, Some f) | None => (w_closed fd w, None) end
  | ConnLater fd nb =>
    let '(m, f) := _mio_setup_fd fd nb app (w_mio w) in
    let w := w_set_mio m w in
    match f with
    | Some f => (upd_mio (upd_fd f (λ x, with_f_out true (with_f_type type_CONNECT x))) w, Some f)
    | None => (w_closed fd w, None)
    end
  end.
End mio.
