(* ===== verification/Proxy65.v ===== *)
(** * The SOCKS5 bytestream proxy: src/proxy65

    Two clients that connect with the same hash are joined, and when one of
    them asks for it through the router, what the one writes is sent to the
    other.  The state of the process with its connections and bytestreams on
    heaps, shared by pointer; its descriptors are those of Mio, whose handlers
    call it back.  What the calls of the system give is taken from [p_in], what is
    sent and received is noted in [p_out]; after an [OExit] nothing happens any more.
    [None] is a NULL or dangling pointer followed.  The router's stream is the library's:
    what it tells the process while it reads and writes is an input. *)
From S2P Require Import Prelude.
From S2P Require Import CStr.
From S2P Require Import DList.
From S2P Require Import Table.
From S2P Require Import Str.
From S2P Require Import Codec.
From S2P Require Import Jid.
From S2P Require Import Nad.
From S2P Require Import Stanza.
From S2P Require Import Datetime.
From S2P Require Import Pkt.
From S2P Require Import Config.
From S2P Require Import Mio.

Definition PROXY65_HASH_HEX_LEN : nat := 40.
Definition PROXY65_RELAY_BUF : nat := 8192.
Definition PROXY65_SOCK_IDLE : Z := 300.
Definition rbuf_size : nat := 512.
Definition uri_DISCO_INFO : string := "http://jabber.org/protocol/disco#info".
Definition uri_DISCO_ITEMS : string := "http://jabber.org/protocol/disco#items".
Definition uri_BYTESTREAMS : string := "http://jabber.org/protocol/bytestreams".

(** ** The state *)

(** [sock_state_t]; [sock_DEAD] is the value -1. *)
Inductive sock_state := sock_GREETING | sock_REQUEST | sock_CONNECTED | sock_RELAY | sock_DEAD.
#[global] Instance sock_state_eq_dec : EqDecision sock_state.
Proof. solve_decision. Defined.

(** [struct sock_conn_st]: [k_rbuf] holds the first [rlen] bytes of [rbuf], [k_wbuf] the [wlen] bytes of [wbuf]. *)
Record sock_conn := SockConn {
  k_fd : option loc;
  k_state : sock_state;
  k_rbuf : text;
  k_hash : string;
  k_bs : option loc;
  k_wbuf : option text;
  k_woff : nat;
  k_last_activity : Z
}.

Definition with_k_fd (x : option loc) (k : sock_conn) : sock_conn :=
  SockConn x (k_state k) (k_rbuf k) (k_hash k) (k_bs k) (k_wbuf k) (k_woff k) (k_last_activity k).
Definition with_k_state (x : sock_state) (k : sock_conn) : sock_conn :=
  SockConn (k_fd k) x (k_rbuf k) (k_hash k) (k_bs k) (k_wbuf k) (k_woff k) (k_last_activity k).
Definition with_k_rbuf (x : text) (k : sock_conn) : sock_conn :=
  SockConn (k_fd k) (k_state k) x (k_hash k) (k_bs k) (k_wbuf k) (k_woff k) (k_last_activity k).
Definition with_k_hash (x : string) (k : sock_conn) : sock_conn :=
  SockConn (k_fd k) (k_state k) (k_rbuf k) x (k_bs k) (k_wbuf k) (k_woff k) (k_last_activity k).
Definition with_k_bs (x : option loc) (k : sock_conn) : sock_conn :=
  SockConn (k_fd k) (k_state k) (k_rbuf k) (k_hash k) x (k_wbuf k) (k_woff k) (k_last_activity k).
Definition with_k_wbuf (x : option text) (k : sock_conn) : sock_conn :=
  SockConn (k_fd k) (k_state k) (k_rbuf k) (k_hash k) (k_bs k) x (k_woff k) (k_last_activity k).
Definition with_k_woff (x : nat) (k : sock_conn) : sock_conn :=
  SockConn (k_fd k) (k_state k) (k_rbuf k) (k_hash k) (k_bs k) (k_wbuf k) x (k_last_activity k).
Definition with_k_last_activity (x : Z) (k : sock_conn) : sock_conn :=
  SockConn (k_fd k) (k_state k) (k_rbuf k) (k_hash k) (k_bs k) (k_wbuf k) (k_woff k) x.

(** [struct bytestream_st] *)
Record bytestream := Bytestream {
  bs_hash : string;
  bs_sid : string;
  bs_peers : list (option loc);
  bs_npeers : nat;
  bs_activated : bool;
  bs_created : Z
}.

Definition with_bs_hash (x : string) (b : bytestream) : bytestream :=
  Bytestream x (bs_sid b) (bs_peers b) (bs_npeers b) (bs_activated b) (bs_created b).
Definition with_bs_sid (x : string) (b : bytestream) : bytestream :=
  Bytestream (bs_hash b) x (bs_peers b) (bs_npeers b) (bs_activated b) (bs_created b).
Definition with_bs_peers (x : list (option loc)) (b : bytestream) : bytestream :=
  Bytestream (bs_hash b) (bs_sid b) x (bs_npeers b) (bs_activated b) (bs_created b).
Definition with_bs_npeers (x : nat) (b : bytestream) : bytestream :=
  Bytestream (bs_hash b) (bs_sid b) (bs_peers b) x (bs_activated b) (bs_created b).
Definition with_bs_activated (x : bool) (b : bytestream) : bytestream :=
  Bytestream (bs_hash b) (bs_sid b) (bs_peers b) (bs_npeers b) x (bs_created b).
Definition with_bs_created (x : Z) (b : bytestream) : bytestream :=
  Bytestream (bs_hash b) (bs_sid b) (bs_peers b) (bs_npeers b) (bs_activated b) x.

(** What [_proxy65_config_expand] reads. *)
Record pconf := Pconf {
  pc_id : string;
  pc_router_ip : string;
  pc_router_port : Z;
  pc_router_cachain : option string;
  pc_router_private_key_password : option string;
  pc_router_ciphers : option string;
  pc_retry_init : Z;
  pc_retry_lost : Z;
  pc_retry_sleep : Z;
  pc_log_type : string;
  pc_log_facility : option string;
  pc_log_ident : option string;
  pc_local_ip : string;
  pc_local_port : Z;
  pc_local_host : string;
  pc_io_max_fds : Z
}.

(** The handlers with their arguments that the process gives mio. *)
Inductive handler := h_router | h_listen | h_sock (sc : loc).

(** [recv]: bytes, none at the end; [send]: at most so many bytes. *)
Inductive recv_result := RData (t : text) | RBlock | RFail.
Inductive send_result := SSome (n : nat) | SBlock | SFail.

(** What the router's stream does when it may read or write: the state that
    the library sets, the events that it gives, and the end of its function. *)
Inductive router_event :=
  | RevState (st : sx_state)
  | RevWantRead
  | RevWantWrite
  | RevRead (r : recv_result)
  | RevWrite (r : send_result)
  | RevError (auth : bool)
  | RevStream
  | RevOpen
  | RevPacket (n : nad)
  | RevClosed                           (* the stream is closed, which event_CLOSED tells *)
  | RevReturn (r : Z).

(** The answers to come of the system: FIONREAD, [recv], [send] (when there are no more
    it would block), the router's stream, the socket to listen on, [time]. *)
Record sys_in := SysIn {
  in_nbytes : Z;
  in_recv : recv_result;
  in_sends : list send_result;
  in_router : list router_event;
  in_listen : option (Z * bool);
  in_now : Z
}.
Definition with_in_sends (l : list send_result) (i : sys_in) : sys_in := SysIn (in_nbytes i) (in_recv i) l (in_router i) (in_listen i) (in_now i).
Definition with_in_router (l : list router_event) (i : sys_in) : sys_in := SysIn (in_nbytes i) (in_recv i) (in_sends i) l (in_listen i) (in_now i).

Inductive pout :=
  | OSend (fd : Z) (t : text)
  | ORecv (fd : Z) (t : text)
  | OClosed (fd : Z)
  | ORouter (n : nad)                   (* sx_nad_write to the router *)
  | ORouterAuth                         (* sx_sasl_auth *)
  | ORouterClose                        (* the end of stream *)
  | OSxFree
  | OExit.

(** The pointer to the router's stream: none yet, freed, or a stream in a state. *)
Inductive router_ptr := RNull | RFreed | RStream (st : sx_state).
Definition router_state (r : router_ptr) : option sx_state := match r with RStream st => Some st | _ => None end.

Section proxy65.
Context {T : Type → Type} `{Table T} `{Env}.

(** [struct proxy65_st] *)
Record proxy65 := Proxy65 {
  p_conf : pconf;
  p_streams : T loc;
  p_bss : gmap loc bytestream;
  p_conns : gmap loc sock_conn;
  p_fresh : loc;
  p_mio : mio handler;
  p_router : router_ptr;
  p_fd : option loc;
  p_server_fd : option loc;
  p_started : bool;
  p_online : bool;
  p_retry_left : Z;
  p_lost_router : bool;
  p_last_expire : Z;
  p_shutdown : bool;
  p_now : Z;
  p_in : sys_in;
  p_out : list pout
}.

Definition set_p_conf (x : pconf) (p : proxy65) : proxy65 :=
  Proxy65 x (p_streams p) (p_bss p) (p_conns p) (p_fresh p) (p_mio p) (p_router p) (p_fd p) (p_server_fd p) (p_started p) (p_online p) (p_retry_left p) (p_lost_router p) (p_last_expire p) (p_shutdown p) (p_now p) (p_in p) (p_out p).
Definition set_p_streams (x : T loc) (p : proxy65) : proxy65 :=
  Proxy65 (p_conf p) x (p_bss p) (p_conns p) (p_fresh p) (p_mio p) (p_router p) (p_fd p) (p_server_fd p) (p_started p) (p_online p) (p_retry_left p) (p_lost_router p) (p_last_expire p) (p_shutdown p) (p_now p) (p_in p) (p_out p).
Definition set_p_bss (x : gmap loc bytestream) (p : proxy65) : proxy65 :=
  Proxy65 (p_conf p) (p_streams p) x (p_conns p) (p_fresh p) (p_mio p) (p_router p) (p_fd p) (p_server_fd p) (p_started p) (p_online p) (p_retry_left p) (p_lost_router p) (p_last_expire p) (p_shutdown p) (p_now p) (p_in p) (p_out p).
Definition set_p_conns (x : gmap loc sock_conn) (p : proxy65) : proxy65 :=
  Proxy65 (p_conf p) (p_streams p) (p_bss p) x (p_fresh p) (p_mio p) (p_router p) (p_fd p) (p_server_fd p) (p_started p) (p_online p) (p_retry_left p) (p_lost_router p) (p_last_expire p) (p_shutdown p) (p_now p) (p_in p) (p_out p).
Definition set_p_fresh (x : loc) (p : proxy65) : proxy65 :=
  Proxy65 (p_conf p) (p_streams p) (p_bss p) (p_conns p) x (p_mio p) (p_router p) (p_fd p) (p_server_fd p) (p_started p) (p_online p) (p_retry_left p) (p_lost_router p) (p_last_expire p) (p_shutdown p) (p_now p) (p_in p) (p_out p).
Definition set_p_mio (x : mio handler) (p : proxy65) : proxy65 :=
  Proxy65 (p_conf p) (p_streams p) (p_bss p) (p_conns p) (p_fresh p) x (p_router p) (p_fd p) (p_server_fd p) (p_started p) (p_online p) (p_retry_left p) (p_lost_router p) (p_last_expire p) (p_shutdown p) (p_now p) (p_in p) (p_out p).
Definition set_p_router (x : router_ptr) (p : proxy65) : proxy65 :=
  Proxy65 (p_conf p) (p_streams p) (p_bss p) (p_conns p) (p_fresh p) (p_mio p) x (p_fd p) (p_server_fd p) (p_started p) (p_online p) (p_retry_left p) (p_lost_router p) (p_last_expire p) (p_shutdown p) (p_now p) (p_in p) (p_out p).
Definition set_p_fd (x : option loc) (p : proxy65) : proxy65 :=
  Proxy65 (p_conf p) (p_streams p) (p_bss p) (p_conns p) (p_fresh p) (p_mio p) (p_router p) x (p_server_fd p) (p_started p) (p_online p) (p_retry_left p) (p_lost_router p) (p_last_expire p) (p_shutdown p) (p_now p) (p_in p) (p_out p).
Definition set_p_server_fd (x : option loc) (p : proxy65) : proxy65 :=
  Proxy65 (p_conf p) (p_streams p) (p_bss p) (p_conns p) (p_fresh p) (p_mio p) (p_router p) (p_fd p) x (p_started p) (p_online p) (p_retry_left p) (p_lost_router p) (p_last_expire p) (p_shutdown p) (p_now p) (p_in p) (p_out p).
Definition set_p_started (x : bool) (p : proxy65) : proxy65 :=
  Proxy65 (p_conf p) (p_streams p) (p_bss p) (p_conns p) (p_fresh p) (p_mio p) (p_router p) (p_fd p) (p_server_fd p) x (p_online p) (p_retry_left p) (p_lost_router p) (p_last_expire p) (p_shutdown p) (p_now p) (p_in p) (p_out p).
Definition set_p_online (x : bool) (p : proxy65) : proxy65 :=
  Proxy65 (p_conf p) (p_streams p) (p_bss p) (p_conns p) (p_fresh p) (p_mio p) (p_router p) (p_fd p) (p_server_fd p) (p_started p) x (p_retry_left p) (p_lost_router p) (p_last_expire p) (p_shutdown p) (p_now p) (p_in p) (p_out p).
Definition set_p_retry_left (x : Z) (p : proxy65) : proxy65 :=
  Proxy65 (p_conf p) (p_streams p) (p_bss p) (p_conns p) (p_fresh p) (p_mio p) (p_router p) (p_fd p) (p_server_fd p) (p_started p) (p_online p) x (p_lost_router p) (p_last_expire p) (p_shutdown p) (p_now p) (p_in p) (p_out p).
Definition set_p_lost_router (x : bool) (p : proxy65) : proxy65 :=
  Proxy65 (p_conf p) (p_streams p) (p_bss p) (p_conns p) (p_fresh p) (p_mio p) (p_router p) (p_fd p) (p_server_fd p) (p_started p) (p_online p) (p_retry_left p) x (p_last_expire p) (p_shutdown p) (p_now p) (p_in p) (p_out p).
Definition set_p_last_expire (x : Z) (p : proxy65) : proxy65 :=
  Proxy65 (p_conf p) (p_streams p) (p_bss p) (p_conns p) (p_fresh p) (p_mio p) (p_router p) (p_fd p) (p_server_fd p) (p_started p) (p_online p) (p_retry_left p) (p_lost_router p) x (p_shutdown p) (p_now p) (p_in p) (p_out p).
Definition set_p_shutdown (x : bool) (p : proxy65) : proxy65 :=
  Proxy65 (p_conf p) (p_streams p) (p_bss p) (p_conns p) (p_fresh p) (p_mio p) (p_router p) (p_fd p) (p_server_fd p) (p_started p) (p_online p) (p_retry_left p) (p_lost_router p) (p_last_expire p) x (p_now p) (p_in p) (p_out p).
Definition set_p_now (x : Z) (p : proxy65) : proxy65 :=
  Proxy65 (p_conf p) (p_streams p) (p_bss p) (p_conns p) (p_fresh p) (p_mio p) (p_router p) (p_fd p) (p_server_fd p) (p_started p) (p_online p) (p_retry_left p) (p_lost_router p) (p_last_expire p) (p_shutdown p) x (p_in p) (p_out p).
Definition set_p_in (x : sys_in) (p : proxy65) : proxy65 :=
  Proxy65 (p_conf p) (p_streams p) (p_bss p) (p_conns p) (p_fresh p) (p_mio p) (p_router p) (p_fd p) (p_server_fd p) (p_started p) (p_online p) (p_retry_left p) (p_lost_router p) (p_last_expire p) (p_shutdown p) (p_now p) x (p_out p).
Definition set_p_out (x : list pout) (p : proxy65) : proxy65 :=
  Proxy65 (p_conf p) (p_streams p) (p_bss p) (p_conns p) (p_fresh p) (p_mio p) (p_router p) (p_fd p) (p_server_fd p) (p_started p) (p_online p) (p_retry_left p) (p_lost_router p) (p_last_expire p) (p_shutdown p) (p_now p) (p_in p) x.

#[global] Instance proxy_world : MioWorld proxy65 handler := {
  w_mio := p_mio;
  w_set_mio m p := set_p_mio m p;
  w_closed fd p := set_p_out (p_out p ++ [OClosed fd]) p
}.

Implicit Types (p : proxy65) (sc b f : loc).

Definition emit (o : pout) p : proxy65 := set_p_out (p_out p ++ [o]) p.
Definition get_conn p sc : option sock_conn := p_conns p !! sc.
Definition get_bs p b : option bytestream := p_bss p !! b.
Definition upd_conn sc (g : sock_conn → sock_conn) p : proxy65 := set_p_conns (alter g sc (p_conns p)) p.
Definition upd_bs b (g : bytestream → bytestream) p : proxy65 := set_p_bss (alter g b (p_bss p)) p.

(** ** Bytestreams *)

Definition proxy65_stream_get p (hash : string) : option loc := tget (p_streams p) hash.
Definition _stream_get_or_create p (hash : string) : proxy65 * loc :=
  match proxy65_stream_get p hash with
  | Some b => (p, b)
  | None =>
    let b := p_fresh p in
    let bs := Bytestream (stake PROXY65_HASH_HEX_LEN hash) "" [None; None] 0 false (p_now p) in
    (set_p_streams (tput (p_streams p) (bs_hash bs) b) (set_p_bss (<[b := bs]> (p_bss p)) (set_p_fresh (S b) p)), b)
  end.

(** The loop over [bs->peers] of a connection that leaves: the last other one. *)
Definition other_peer sc (ps : list (option loc)) : option loc :=
  foldl (λ o q, match q with Some c => if bool_decide (c = sc) then o else Some c | None => o end) None ps.
(** The bytestream of a connection is taken out of the table and freed; its other peer. *)
Definition unjoin p sc (ob : option loc) : option (proxy65 * option loc) :=
  match ob with
  | None => Some (p, None)
  | Some b =>
    bs ← get_bs p b;
    Some (set_p_bss (delete b (p_bss p)) (set_p_streams (tzap (p_streams p) (bs_hash bs)) p), other_peer sc (bs_peers bs))
  end.
(** The other peer is dead too, if it is not yet; its descriptor. *)
Definition kill_peer p (peer : option loc) : option (proxy65 * option loc) :=
  match peer with
  | None => Some (p, None)
  | Some q =>
    y ← get_conn p q;
    if bool_decide (k_state y = sock_DEAD) then Some (p, None)
    else Some (upd_conn q (λ y, with_k_fd None (with_k_bs None (with_k_state sock_DEAD y))) p, k_fd y)
  end.
Definition _sock_conn_free p sc : option proxy65 := _ ← get_conn p sc; Some (set_p_conns (delete sc (p_conns p)) p).

(** ** What a client says *)

Definition byte_at (t : text) (i : nat) : Z := uchar (nth i t nul).
Definition hex_ok (c : ascii) : bool :=
  in_range (uchar c) 0x30 0x39 || in_range (uchar c) 0x61 0x66 || in_range (uchar c) 0x41 0x46.
Definition _hex_is_valid (s : text) : bool := bool_decide (length s = PROXY65_HASH_HEX_LEN) && forallb hex_ok s.
Definition lower_hex (c : ascii) : ascii :=
  if in_range (uchar c) 0x41 0x46 then char_of (uchar c - 0x41 + 0x61) else c.

(** [send(sc->fd->fd, ...)]; of [len] bytes, one at least, if it does not fail. *)
Definition sock_send p sc (t : text) : option (proxy65 * option Z) :=
  x ← get_conn p sc; f ← k_fd x; y ← get_fd p f;
  match in_sends (p_in p) with
  | [] => Some (p, Some (-1)%Z)
  | s :: rest =>
    let p := set_p_in (with_in_sends rest (p_in p)) p in
    match s with
    | SSome n =>
      let n := min (max 1 n) (length t) in
      Some (emit (OSend (f_fd y) (take n t)) p, Some (Z.of_nat n))
    | SBlock => Some (p, Some (-1)%Z)
    | SFail => Some (p, None)
    end
  end.
(** A reply: whether it was sent is not looked at. *)
Definition socks_reply p sc (l : list Z) : option proxy65 := fst <$> sock_send p sc (char_of <$> l).
Definition _socks_reply_fail p sc (rep : Z) : option proxy65 := socks_reply p sc [0x05; rep; 0x00; 0x01; 0; 0; 0; 0; 0; 0]%Z.
Definition _socks_reply_ok p sc : option proxy65 := socks_reply p sc [0x05; 0x00; 0x00; 0x01; 0; 0; 0; 0; 0; 0]%Z.

(** The request of [_socks_process]; the result is its return value. *)
Definition socks_request p sc : option (proxy65 * Z) :=
  x ← get_conn p sc;
  let buf := k_rbuf x in let n := Z.of_nat (length buf) in
  if negb (bool_decide (k_state x = sock_REQUEST)) then Some (p, 0%Z)
  else if (n <? 5)%Z then Some (p, 0%Z)
  else if negb (byte_at buf 0 =? 0x05)%Z || negb (byte_at buf 1 =? 0x01)%Z then p ← _socks_reply_fail p sc 0x07; Some (p, -1)%Z
  else if negb (byte_at buf 3 =? 0x03)%Z then p ← _socks_reply_fail p sc 0x08; Some (p, -1)%Z
  else
    let alen := byte_at buf 4 in
    let need := (5 + alen + 2)%Z in
    if (n <? need)%Z then Some (p, 0%Z)
    else
      let name := take (Z.to_nat alen) (drop 5 buf) in
      if negb (_hex_is_valid name) then p ← _socks_reply_fail p sc 0x04; Some (p, -1)%Z
      else
        let hash := string_of (lower_hex <$> name) in
        let '(p, b) := _stream_get_or_create p hash in
        bs ← get_bs p b;
        if (2 <=? bs_npeers bs) || bs_activated bs then p ← _socks_reply_fail p sc 0x05; Some (p, -1)%Z
        else
          let p := upd_conn sc (λ x, with_k_bs (Some b) (with_k_hash (stake PROXY65_HASH_HEX_LEN hash) x)) p in
          let p := upd_bs b (λ bs, with_bs_npeers (S (bs_npeers bs)) (with_bs_peers (<[bs_npeers bs := Some sc]> (bs_peers bs)) bs)) p in
          let p := upd_conn sc (with_k_state sock_CONNECTED) p in
          p ← _socks_reply_ok p sc;
          Some (upd_conn sc (with_k_rbuf (drop (Z.to_nat need) buf)) p, 0%Z).

Definition _socks_process p sc : option (proxy65 * Z) :=
  x ← get_conn p sc;
  let buf := k_rbuf x in let n := Z.of_nat (length buf) in
  if bool_decide (k_state x = sock_GREETING) then
    if (n <? 2)%Z then Some (p, 0%Z)
    else if negb (byte_at buf 0 =? 0x05)%Z then Some (p, -1)%Z
    else
      let need := (2 + byte_at buf 1)%Z in
      if (n <? need)%Z then Some (p, 0%Z)
      else
        let have_noauth := existsb (λ c, uchar c =? 0)%Z (take (Z.to_nat (byte_at buf 1)) (drop 2 buf)) in
        p ← socks_reply p sc [0x05; if have_noauth then 0x00 else 0xff]%Z;
        if negb have_noauth then Some (p, -1)%Z
        else socks_request (upd_conn sc (λ x, with_k_state sock_REQUEST (with_k_rbuf (drop (Z.to_nat need) buf) x)) p) sc
  else socks_request p sc.

(** The first other peer. *)
Definition first_peer sc (ps : list (option loc)) : option loc :=
  foldr (λ q o, match q with Some c => if bool_decide (c = sc) then o else Some c | None => o end) None ps.
Definition _socks_peer p sc : option (option loc) :=
  x ← get_conn p sc;
  match k_bs x with
  | None => Some None
  | Some b => bs ← get_bs p b; Some (first_peer sc (bs_peers bs))
  end.

(** ** Closing, relaying, and what mio calls

    [handle] is what mio calls for a handler: some of these functions are called
    by mio while they call it. *)
Section handlers.
Context (handle : handler → mio_action → loc → option string → proxy65 → option (Z * proxy65)).

Definition close_opt (f : option loc) p : option proxy65 := match f with Some f => _mio_close handle f p | None => Some p end.

Definition _sock_conn_close p sc : option proxy65 :=
  x ← get_conn p sc;
  if bool_decide (k_state x = sock_DEAD) then Some p
  else
    let p := upd_conn sc (λ x, with_k_bs None (with_k_state sock_DEAD x)) p in
    '(p, peer) ← unjoin p sc (k_bs x);
    '(p, peerfd) ← kill_peer p peer;
    let p := upd_conn sc (with_k_fd None) p in
    p ← close_opt peerfd p;
    match k_fd x with Some f => _mio_close handle f p | None => _sock_conn_free p sc end.

(** One turn of the loop of [proxy65_stream_free]. *)
Definition free_peer b p (i : nat) : option proxy65 :=
  bs ← get_bs p b;
  match nth i (bs_peers bs) None with
  | Some sc =>
    _ ← get_conn p sc;
    let p := upd_bs b (λ bs, with_bs_peers (<[i := None]> (bs_peers bs)) bs) p in
    _sock_conn_close (upd_conn sc (with_k_bs None) p) sc
  | None => Some p
  end.
Definition proxy65_stream_free p b : option proxy65 :=
  p ← foldO (free_peer b) p [0; 1];
  bs ← get_bs p b;
  Some (set_p_bss (delete b (p_bss p)) (set_p_streams (tzap (p_streams p) (bs_hash bs)) p)).

(** The value is 0 or -1. *)
Definition _socks_relay_flush p sc : option (proxy65 * Z) :=
  x ← get_conn p sc;
  match k_wbuf x with
  | None => Some (p, 0%Z)
  | Some wbuf =>
    if length wbuf <=? k_woff x then Some (p, 0%Z)
    else
      '(p, n) ← sock_send p sc (drop (k_woff x) wbuf);
      match n with
      | None => Some (p, -1)%Z
      | Some n =>
        if (n <? 0)%Z then Some (p, 0%Z)
        else
          let woff := k_woff x + Z.to_nat n in
          if length wbuf <=? woff then Some (upd_conn sc (λ x, with_k_woff 0 (with_k_wbuf None x)) p, 0%Z)
          else p ← _mio_write handle (k_fd x) (upd_conn sc (with_k_woff woff) p); Some (p, 0%Z)
      end
  end.

Definition _socks_relay_write p dest (data : text) : option (proxy65 * Z) :=
  x ← get_conn p dest;
  match k_wbuf x with
  | Some wbuf => p ← _mio_write handle (k_fd x) (upd_conn dest (with_k_wbuf (Some (wbuf ++ data))) p); Some (p, 0%Z)
  | None =>
    '(p, n) ← sock_send p dest data;
    match n with
    | None => Some (p, -1)%Z
    | Some n =>
      let n := Z.to_nat n in
      if n <? length data then
        p ← _mio_write handle (k_fd x) (upd_conn dest (λ x, with_k_woff 0 (with_k_wbuf (Some (drop n data)) x)) p);
        Some (p, 0%Z)
      else Some (p, 0%Z)
    end
  end.

(** [recv(fd->fd, buf, size, 0)] *)
Definition sock_recv p f (size : nat) : option (proxy65 * recv_result) :=
  y ← get_fd p f;
  match in_recv (p_in p) with
  | RData t => Some (match take size t with [] => p | t => emit (ORecv (f_fd y) t) p end, RData (take size t))
  | r => Some (p, r)
  end.

Definition sock_action_read p f sc : option (Z * proxy65) :=
  _ ← get_conn p sc;
  let p := upd_conn sc (with_k_last_activity (p_now p)) p in
  x ← get_conn p sc;
  let hang_up p := p ← _sock_conn_close p sc; Some (0%Z, p) in
  if bool_decide (k_state x = sock_RELAY) then
    peer ← _socks_peer p sc;
    match peer with
    | None => Some (0%Z, p)
    | Some peer =>
      y ← get_conn p peer;
      match k_wbuf y with
      | Some _ => Some (0%Z, p)
      | None =>
        '(p, r) ← sock_recv p f PROXY65_RELAY_BUF;
        match r with
        | RBlock => Some (1%Z, p)
        | RFail | RData [] => hang_up p
        | RData t =>
          '(p, r) ← _socks_relay_write p peer t;
          if (r <? 0)%Z then hang_up p else Some (1%Z, p)
        end
      end
    end
  else if (in_nbytes (p_in p) =? 0)%Z && bool_decide (k_rbuf x = []) then hang_up p
  else if rbuf_size <=? length (k_rbuf x) then hang_up p
  else
    '(p, r) ← sock_recv p f (rbuf_size - length (k_rbuf x));
    match r with
    | RBlock => Some (1%Z, p)
    | RFail | RData [] => hang_up p
    | RData t =>
      '(p, r) ← _socks_process (upd_conn sc (λ x, with_k_rbuf (k_rbuf x ++ t) x) p) sc;
      if (r <? 0)%Z then hang_up p
      else
        x ← get_conn p sc;
        Some ((if bool_decide (k_state x = sock_GREETING) || bool_decide (k_state x = sock_REQUEST) then 1 else 0)%Z, p)
    end.

Definition sock_action_write p sc : option (Z * proxy65) :=
  x ← get_conn p sc;
  if bool_decide (k_state x = sock_RELAY) then
    '(p, r) ← _socks_relay_flush p sc;
    if (r <? 0)%Z then p ← _sock_conn_close p sc; Some (0%Z, p)
    else
      (* peer may have been paused *)
      peer ← _socks_peer p sc;
      x ← get_conn p sc;
      match peer, k_wbuf x with
      | Some q, None => y ← get_conn p q; p ← _mio_read (k_fd y) p; Some (0%Z, p)
      | _, _ => Some (0%Z, p)
      end
  else Some (0%Z, p).

Definition sock_action_close p sc : option (Z * proxy65) :=
  x ← get_conn p sc;
  p ← (if negb (bool_decide (k_state x = sock_DEAD)) then
         let p := upd_conn sc (λ x, with_k_fd None (with_k_bs None (with_k_state sock_DEAD x))) p in
         '(p, peer) ← unjoin p sc (k_bs x);
         '(p, pfd) ← kill_peer p peer;
         close_opt pfd p
       else Some (upd_conn sc (with_k_fd None) p));
  p ← _sock_conn_free p sc;
  Some (0%Z, p).

Definition _sock_conn_mio_callback (a : mio_action) f sc p : option (Z * proxy65) :=
  match a with
  | action_READ => sock_action_read p f sc
  | action_WRITE => sock_action_write p sc
  | action_CLOSE => sock_action_close p sc
  | action_ACCEPT => _ ← get_conn p sc; Some (0%Z, p)
  end.

Definition proxy65_socks_mio_callback (a : mio_action) f p : option (Z * proxy65) :=
  match a with
  | action_ACCEPT =>
    let sc := p_fresh p in
    let p := set_p_fresh (S sc) (set_p_conns (<[sc := SockConn (Some f) sock_GREETING [] "" None None 0 (p_now p)]> (p_conns p)) p) in
    p ← _mio_app f (h_sock sc) p;
    p ← _mio_read (Some f) p;
    Some (0%Z, p)
  | _ => Some (0%Z, p)
  end.

Definition proxy65_socks_listen p : option proxy65 :=
  '(p, f) ← _mio_listen (in_listen (p_in p)) h_listen p;
  Some (match f with Some _ => set_p_server_fd f p | None => emit OExit (set_p_server_fd None p) end).
End handlers.

(** Reading is wanted from both peers. *)
Definition relay_peer p (q : option loc) : option proxy65 :=
  match q with
  | Some c => y ← get_conn p c; _mio_read (k_fd y) (upd_conn c (with_k_state sock_RELAY) p)
  | None => Some p
  end.
Definition proxy65_socks_activate p (hash : string) (sid : string) : option proxy65 :=
  match proxy65_stream_get p hash with
  | None => Some p
  | Some b =>
    bs ← get_bs p b;
    if bs_npeers bs <? 2 then Some p
    else
      foldO relay_peer (upd_bs b (λ bs, with_bs_sid (stake 255 sid) (with_bs_activated true bs)) p) (bs_peers bs)
  end.

(** The bytestreams that nobody activated in time are freed; the handlers are mio's. *)
Definition idle p (kv : string * loc) : bool :=
  match get_bs p kv.2 with Some bs => negb (bs_activated bs) && (bs_created bs + PROXY65_SOCK_IDLE <? p_now p)%Z | None => false end.
Definition proxy65_socks_expire handle p : option proxy65 :=
  let '(t, l) := titer (p_streams p) in
  let p := set_p_streams t p in
  if forallb (λ kv : string * loc, bool_decide (is_Some (get_bs p kv.2))) l
  then foldO (proxy65_stream_free handle) p (filter (λ kv, idle p kv = true) l).*2
  else None.

(** ** Requests: proxy65/iq.c *)

Definition proxy65_hash_sid (sid requester target : string) : string :=
  stake PROXY65_HASH_HEX_LEN (hex_from_raw (env_sha1 (sid +:+ requester +:+ target))).

(** An attribute in a buffer; empty if there is none. *)
Definition attr_in_buf (size : nat) (n : nad) (el : Z) (name : string) : string :=
  match attr_of n el name with Some v => sprint size v | None => "" end.
(** [_route_attrs]: [iq_to], [iq_from], [iq_id] and [rto]. *)
Definition _route_attrs p (req : nad) : string * string * string * string :=
  (attr_in_buf 1024 req 1 "from",
   match attr_of req 1 "to" with Some v => sprint 1024 v | None => stake 1023 (pc_id (p_conf p)) end,
   attr_in_buf 256 req 1 "id",
   attr_in_buf 1024 req 0 "from").

Definition append_if (n : nad) (name v : string) : nad :=
  if bool_decide (v = "") then n else (nad_append_attr n (-1) name v).1.
Definition _iq_result_skel p (req : nad) : nad :=
  let '(iq_to, iq_from, iq_id, rto) := _route_attrs p req in
  let '(n, rns) := nad_add_namespace nad_new uri_COMPONENT None in
  let '(n, _) := nad_append_elem n rns "route" 0 in
  let n := append_if n "to" rto in
  let '(n, _) := nad_append_attr n (-1) "from" (pc_id (p_conf p)) in
  let '(n, cns) := nad_add_namespace n uri_CLIENT None in
  let '(n, _) := nad_append_elem n cns "iq" 1 in
  let '(n, _) := nad_append_attr n (-1) "type" "result" in
  let n := append_if n "id" iq_id in
  let n := append_if n "to" iq_to in
  append_if n "from" iq_from.

(** [sx_nad_write] on the router's stream. *)
Definition router_write p (n : nad) : option proxy65 := _ ← router_state (p_router p); Some (emit (ORouter n) p).

Definition proxy65_route_reply p (n : nad) : option proxy65 :=
  let rfrom := attr_in_buf 1024 n 0 "from" in
  let n := stanza_tofrom n 1 in
  let n := nad_set_attr n 0 (-1) "to" (not_empty rfrom) 0 in
  let n := nad_set_attr n 0 (-1) "from" (Some (pc_id (p_conf p))) 0 in
  router_write p n.
Definition proxy65_route_error p (n : nad) (err : Z) : option proxy65 := n ← stanza_error n 1 err; proxy65_route_reply p n.

Definition disco_info_nad p (req : nad) : nad :=
  let n := _iq_result_skel p req in
  let '(n, ns) := nad_add_namespace n uri_DISCO_INFO None in
  let '(n, _) := nad_append_elem n ns "query" 2 in
  let '(n, _) := nad_append_elem n ns "identity" 3 in
  let '(n, _) := nad_append_attr n (-1) "category" "proxy" in
  let '(n, _) := nad_append_attr n (-1) "type" "bytestreams" in
  let '(n, _) := nad_append_attr n (-1) "name" "SOCKS5 Bytestreams Proxy" in
  let '(n, _) := nad_append_elem n ns "feature" 3 in
  let '(n, _) := nad_append_attr n (-1) "var" uri_DISCO_INFO in
  let '(n, _) := nad_append_elem n ns "feature" 3 in
  let '(n, _) := nad_append_attr n (-1) "var" uri_BYTESTREAMS in
  n.
Definition _iq_disco_info p (req : nad) : option proxy65 := router_write p (disco_info_nad p req).
Definition disco_items_nad p (req : nad) : nad :=
  let n := _iq_result_skel p req in
  let '(n, ns) := nad_add_namespace n uri_DISCO_ITEMS None in
  let '(n, _) := nad_append_elem n ns "query" 2 in
  n.
Definition _iq_disco_items p (req : nad) : option proxy65 := router_write p (disco_items_nad p req).
Definition bytestreams_nad p (req : nad) : nad :=
  let ns := nad_find_scoped_namespace req uri_BYTESTREAMS None in
  let query := nad_find_elem req 1 ns (Some "query") 1 in
  let sid := if (0 <=? query)%Z then attr_in_buf 256 req query "sid" else "" in
  let n := _iq_result_skel p req in
  let '(n, ns) := nad_add_namespace n uri_BYTESTREAMS None in
  let '(n, _) := nad_append_elem n ns "query" 2 in
  let n := append_if n "sid" sid in
  let '(n, _) := nad_append_elem n ns "streamhost" 3 in
  let '(n, _) := nad_append_attr n (-1) "jid" (pc_id (p_conf p)) in
  let '(n, _) := nad_append_attr n (-1) "host" (pc_local_host (p_conf p)) in
  let '(n, _) := nad_append_attr n (-1) "port" (stake 15 (fmt_d (pc_local_port (p_conf p)))) in
  n.
Definition _iq_bytestreams_get p (req : nad) : option proxy65 := router_write p (bytestreams_nad p req).

(** The hash that a request to activate names, or the error it is answered with. *)
Definition activate_hash (req : nad) : option (Z + string * string) :=
  let ns := nad_find_scoped_namespace req uri_BYTESTREAMS None in
  let query := nad_find_elem req 1 ns (Some "query") 1 in
  if (query <? 0)%Z then Some (inl stanza_err_BAD_REQUEST)
  else match attr_of req query "sid" with
  | None => Some (inl stanza_err_BAD_REQUEST)
  | Some v =>
    let sid := sprint 256 v in
    let act := nad_find_elem req query (-1) (Some "activate") 1 in
    if (act <? 0)%Z || (e_lcdata (elem_at req act) <=? 0)%Z then Some (inl stanza_err_BAD_REQUEST)
    else
      let target := sprint 1024 (nad_cdata req act) in
      match attr_of req 1 "from" with
      | None => Some (inl stanza_err_BAD_REQUEST)
      | Some v =>
        let from := sprint 1024 v in
        match jid_new env_nodeprep env_nameprep env_resourceprep (Some from) (-1),
              jid_new env_nodeprep env_nameprep env_resourceprep (Some target) (-1) with
        | Some jfrom, Some jtarget =>
          requester ← (jid_full jfrom).2; target ← (jid_full jtarget).2;
          Some (inr (sid, proxy65_hash_sid sid requester target))
        | _, _ => Some (inl stanza_err_JID_MALFORMED)
        end
      end
  end.
Definition _iq_bytestreams_activate p (req : nad) : option proxy65 :=
  r ← activate_hash req;
  match r with
  | inl err => proxy65_route_error p req err
  | inr (sid, hash) =>
    match proxy65_stream_get p hash with
    | None => proxy65_route_error p req stanza_err_ITEM_NOT_FOUND
    | Some b =>
      bs ← get_bs p b;
      if bs_npeers bs <? 2 then proxy65_route_error p req stanza_err_ITEM_NOT_FOUND
      else
        p ← proxy65_socks_activate (upd_bs b (with_bs_sid (stake 255 sid)) p) hash sid;
        router_write p (_iq_result_skel p req)
    end
  end.

Definition iq_query (n : nad) (uri : string) : Z :=
  let ns := nad_find_scoped_namespace n uri None in
  if (0 <=? ns)%Z then nad_find_elem n 1 ns (Some "query") 1 else (-1)%Z.
Definition proxy65_iq_handle p (n : nad) : option proxy65 :=
  match attr_of n 1 "type" with
  | None => Some p
  | Some v =>
    let type := sprint 16 v in
    if (0 <=? iq_query n uri_DISCO_INFO)%Z && (strcmp type "get" =? 0)%Z then _iq_disco_info p n
    else if (0 <=? iq_query n uri_DISCO_ITEMS)%Z && (strcmp type "get" =? 0)%Z then _iq_disco_items p n
    else
      let query := iq_query n uri_BYTESTREAMS in
      if (0 <=? query)%Z && (strcmp type "get" =? 0)%Z then _iq_bytestreams_get p n
      else if (0 <=? query)%Z && (strcmp type "set" =? 0)%Z && (0 <=? nad_find_elem n query (-1) (Some "activate") 1)%Z
      then _iq_bytestreams_activate p n
      else if (strcmp type "error" =? 0)%Z then Some p
      else proxy65_route_error p n stanza_err_SERVICE_UNAVAILABLE
  end.

(** ** The router: proxy65/router.c *)

Section router.
Context (handle : handler → mio_action → loc → option string → proxy65 → option (Z * proxy65)).

(** [event_CLOSED], and the functions of the library that give it. *)
Definition router_event_closed p : option proxy65 :=
  f ← p_fd p; p ← _mio_close handle f p; Some (set_p_fd None p).
Definition sx_kill p : option proxy65 := _ ← router_state (p_router p); router_event_closed (set_p_router (RStream state_CLOSED) p).
Definition sx_close p : option proxy65 :=
  st ← router_state (p_router p);
  if state_ge st state_CLOSING then Some p
  else if state_ge st state_STREAM_SENT then Some (set_p_router (RStream state_CLOSING) (emit ORouterClose p))
  else router_event_closed (set_p_router (RStream state_CLOSED) p).

Definition router_event_open p : option proxy65 :=
  let p := set_p_retry_left (pc_retry_lost (p_conf p)) p in
  let '(n, ns) := nad_add_namespace nad_new uri_COMPONENT None in
  let '(n, _) := nad_append_elem n ns "bind" 0 in
  let '(n, _) := nad_append_attr n (-1) "name" (pc_id (p_conf p)) in
  router_write p n.

(** Is the first element this one? *)
Definition elem_is (n : nad) (uri name : string) : bool :=
  bool_decide (nad_nuri n (nad_ens n 0) = tx uri) && bool_decide (nad_ename n 0 = tx name).

Definition bind_response p (n : nad) : option proxy65 :=
  if negb (elem_is n uri_COMPONENT "bind") then Some p
  else match attr_of n 0 "error" with
       | Some _ => Some (emit OExit p)
       | None =>
         p ← match p_server_fd p with Some _ => Some p | None => proxy65_socks_listen p end;
         Some (match p_server_fd p with Some _ => set_p_started true (set_p_online true p) | None => p end)
       end.

Definition router_event_packet p (n : nad) : option proxy65 :=
  if (nad_ens n 0 <? 0)%Z then Some p
  else
    st ← router_state (p_router p);
    if bool_decide (st = state_STREAM) then Some (if elem_is n uri_STREAMS "features" then emit ORouterAuth p else p)
    else if bool_decide (st = state_OPEN) && negb (p_online p) then bind_response p n
    else if negb (elem_is n uri_COMPONENT "route") then Some p
    else if (0 <=? nad_find_attr n 0 (-1) "type" None)%Z then Some p
    else if (ecur n <? 2)%Z || negb (bool_decide (nad_ename n 1 = tx "iq")) then Some p
    else proxy65_iq_handle p n.

(** [proxy65_router_sx_callback]; the library frees the document of a packet or not, and
    sets the state of the stream. *)
Definition proxy65_router_sx_callback p (e : router_event) : option proxy65 :=
  match e with
  | RevState st => _ ← router_state (p_router p); Some (set_p_router (RStream st) p)
  | RevWantRead => _mio_read (p_fd p) p
  | RevWantWrite => _mio_write handle (p_fd p) p
  | RevRead r =>
    f ← p_fd p; _ ← get_fd p f;
    match r with RFail | RData [] => sx_kill p | _ => Some p end
  | RevWrite r =>
    f ← p_fd p; _ ← get_fd p f;
    match r with SFail => sx_kill p | _ => Some p end
  | RevError auth => if auth : bool then sx_close p else Some p
  | RevStream | RevReturn _ => Some p
  | RevOpen => router_event_open p
  | RevPacket n => router_event_packet p n
  | RevClosed => sx_kill p
  end.

(** [sx_can_read] and [sx_can_write]: what the stream does, up to its return.  A stream that is
    closed gives no more events, and 0. *)
Fixpoint sx_run (k : nat) p : option (Z * proxy65) :=
  match k with
  | O => Some (0%Z, p)
  | S k =>
    match in_router (p_in p) with
    | [] => Some (0%Z, p)
    | e :: l =>
      let p := set_p_in (with_in_router l (p_in p)) p in
      st ← router_state (p_router p);
      match e with
      | RevReturn r => Some (if bool_decide (st = state_CLOSED) then 0%Z else r, p)
      | _ => if bool_decide (st = state_CLOSED) then sx_run k p else p ← proxy65_router_sx_callback p e; sx_run k p
      end
    end
  end.
Definition sx_can p : option (Z * proxy65) := _ ← router_state (p_router p); sx_run (length (in_router (p_in p))) p.

Definition proxy65_router_mio_callback (a : mio_action) p : option (Z * proxy65) :=
  match a with
  | action_READ => if (in_nbytes (p_in p) =? 0)%Z then p ← sx_kill p; Some (0%Z, p) else sx_can p
  | action_WRITE => sx_can p
  | action_CLOSE => Some (0%Z, set_p_online false (set_p_lost_router true p))
  | action_ACCEPT => Some (0%Z, p)
  end.
End router.

(** ** The handlers tied together

    A handler calls mio, which calls a handler: at most once for each answer
    that is used up, and for closing the two ends of a bytestream.  With too little
    fuel the result is [None] as for a pointer that is gone; [calls] is enough, and
    what [read_twice] says of a freed connection holds with any fuel. *)
Fixpoint handle (k : nat) (h : handler) (a : mio_action) (f : loc) (d : option string) p : option (Z * proxy65) :=
  match k with
  | O => None
  | S k =>
    match h with
    | h_router => proxy65_router_mio_callback (handle k) a p
    | h_listen => proxy65_socks_mio_callback a f p
    | h_sock sc => _sock_conn_mio_callback (handle k) a f sc p
    end
  end.
Definition calls p : nat := 4 + length (in_sends (p_in p)) + length (in_router (p_in p)).
Definition call (h : handler) (a : mio_action) (f : loc) (d : option string) p : option (Z * proxy65) := handle (calls p) h a f d p.
Definition input (i : sys_in) p : proxy65 := set_p_now (in_now i) (set_p_in i p).

(** ** The process: proxy65/main.c *)

Definition conf_one (c : config) (key def : string) : string := default def (config_get_one c key 0).
(** [None]: an attribute that was never set is read. *)
Definition _proxy65_config_expand (c : config (T := T)) : option pconf :=
  let num key def := j_atoi (config_get_one c key 0) def in
  log_type ← match config_get c "log" with
             | None => Some "stdout"
             | Some _ =>
               type ← config_get_attr c "log" 0 "type";
               Some (match type with
                     | Some str => if (strcmp str "file" =? 0)%Z then "file" else if (strcmp str "syslog" =? 0)%Z then "syslog" else "stdout"
                     | None => "stdout"
                     end)
             end;
  let sleep := num "router.retry.sleep" 2%Z in
  Some {|
    pc_id := conf_one c "id" "proxy.localhost.localdomain";
    pc_router_ip := conf_one c "router.ip" "127.0.0.1";
    pc_router_port := num "router.port" 5347%Z;
    pc_router_cachain := config_get_one c "router.cachain" 0;
    pc_router_private_key_password := config_get_one c "router.private_key_password" 0;
    pc_router_ciphers := config_get_one c "router.ciphers" 0;
    pc_retry_init := num "router.retry.init" 3%Z;
    pc_retry_lost := num "router.retry.lost" 3%Z;
    pc_retry_sleep := if (sleep <? 1)%Z then 1%Z else sleep;
    pc_log_type := log_type;
    pc_log_facility := if bool_decide (log_type = "syslog") then config_get_one c "log.facility" 0 else None;
    pc_log_ident :=
      if bool_decide (log_type = "syslog") then Some (conf_one c "log.ident" "jabberd/proxy65")
      else if bool_decide (log_type = "file") then config_get_one c "log.file" 0 else None;
    pc_local_ip := conf_one c "local.ip" "0.0.0.0";
    pc_local_port := num "local.port" 7777%Z;
    pc_local_host := conf_one c "local.host" "127.0.0.1";
    pc_io_max_fds := num "io.max_fds" 1024%Z
  |}.

(** [refused]: was [errno] ECONNREFUSED?  [sx_client_init] wants to write its header. *)
Definition _proxy65_router_connect p (r : connecting_result) (refused : bool) : option proxy65 :=
  let '(p, f) := _mio_connect r h_router p in
  let p := set_p_fd f p in
  match f with
  | Some _ => _mio_write call f (set_p_router (RStream state_NONE) p)
  | None => Some (if refused then set_p_lost_router true p else p)
  end.

(** The stream is freed, and its pointer kept. *)
Definition free_router p : option proxy65 :=
  match p_router p with
  | RNull => Some p
  | RFreed => None
  | RStream _ => Some (set_p_router RFreed (emit OSxFree p))
  end.
Definition proxy65_reconnect p (r : connecting_result) (refused : bool) : option proxy65 :=
  if p_lost_router p then
    let again p :=
      p ← free_router (set_p_lost_router false p);
      _proxy65_router_connect p r refused in
    if (p_retry_left p <? 0)%Z then again p
    else if (p_retry_left p =? 0)%Z then Some (set_p_shutdown true p)
    else again (set_p_retry_left (p_retry_left p - 1) p)
  else Some p.

(** Before the loop; once around the loop, with what mio has to report, and what the calls after
    it give: the time, and what connecting would. *)
Definition proxy65_start (c : pconf) (i : sys_in) (r : connecting_result) (refused : bool) : option proxy65 :=
  let p := Proxy65 c (tnew 401) ∅ ∅ 0 _mio_new RNull None None false false (pc_retry_init c) false 0 false 0 i [] in
  _proxy65_router_connect p r refused.
Definition proxy65_turn p (rs : list (mio_res sys_in)) (i : sys_in) (r : connecting_result) (refused : bool) : option proxy65 :=
  p ← _mio_run call input rs p;
  let p := input i p in
  p ← proxy65_reconnect p r refused;
  if (p_last_expire p + 30 <=? in_now i)%Z then
    p ← proxy65_socks_expire call p;
    Some (set_p_last_expire (in_now i) p)
  else Some p.

Inductive proxy_event :=
  | EvTurn (rs : list (mio_res sys_in)) (i : sys_in) (r : connecting_result) (refused : bool)
  | EvSignal.
Definition proxy65_step p (ev : proxy_event) : option proxy65 :=
  match ev with
  | EvTurn rs i r refused => if p_shutdown p then Some p else proxy65_turn p rs i r refused
  | EvSignal => Some (set_p_lost_router false (set_p_shutdown true p))
  end.

(** After the loop. *)
Fixpoint free_streams (k : nat) p : option proxy65 :=
  match k with
  | O => None
  | S k =>
    match titer (p_streams p) with
    | (t, []) => Some (set_p_streams t p)
    | (t, (_, b) :: _) => p ← proxy65_stream_free call (set_p_streams t p) b; free_streams k p
    end
  end.
Definition proxy65_end p : option proxy65 :=
  p ← close_opt call (p_server_fd p) p;
  p ← close_opt call (p_fd p) p;
  p ← free_streams (S (length (twalk (p_streams p)))) p;
  free_router p.
End proxy65.
#[global] Arguments proxy65 T : clear implicits.
