(* ===== verification/Proxy65Inv.v ===== *)
(** * The proxy's heaps, table and descriptors agree

    [px_ok]: every connection is alive and holds its descriptor, whose handler
    it is; a bytestream is in the table under its hash and holds its peers, who
    hold it.  What each operation does to this, up to a turn of the main loop. *)
From S2P Require Import Prelude.
From S2P Require Import CStr.
From S2P Require Import DList.
From S2P Require Import Table.
From S2P Require Import Str.
From S2P Require Import Codec.
From S2P Require Import Jid.
From S2P Require Import Nad.
From S2P Require Import Stanza.
From S2P Require Import Datetime.
From S2P Require Import Pkt.
From S2P Require Import Config.
From S2P Require Import Mio.
From S2P Require Import Proxy65.

Section inv.
Context {T : Type → Type} `{TableLaws T} `{Env}.
Notation proxy65 := (proxy65 T).
Implicit Types (p : proxy65) (sc b f : loc) (k : sock_conn) (bs : bytestream) (x : mio_fd handler).

(** ** The invariant *)

Notation fds p := (m_fds (p_mio p)).

(** What a descriptor's handler says of it. *)
Definition fd_ok p f x : Prop :=
  match f_app x with
  | None => f_type x = type_CLOSED
  | Some h_listen => f_type x = type_LISTEN
  | Some h_router => (f_type x = type_NORMAL ∨ connecting x = true) ∧ f_type x ≠ type_LISTEN ∧ f_type x ≠ type_CLOSED ∧ p_fd p = Some f
  | Some (h_sock sc) => f_type x = type_NORMAL ∧ f_out x = false ∧ ∃ k, p_conns p !! sc = Some k ∧ k_fd k = Some f
  end.

(** The descriptor [f] is open for [h]. *)
Definition holds p f (h : handler) : Prop := ∃ x, fds p !! f = Some x ∧ f_app x = Some h.

Definition conn_ok p sc k : Prop :=
  (∃ f, k_fd k = Some f ∧ holds p f (h_sock sc)) ∧
  match k_bs k with
  | None => (k_state k = sock_GREETING ∨ k_state k = sock_REQUEST) ∧ k_wbuf k = None
  | Some b => (k_state k = sock_CONNECTED ∧ k_wbuf k = None ∨ k_state k = sock_RELAY) ∧
      ∃ bs, p_bss p !! b = Some bs ∧ Some sc ∈ bs_peers bs ∧ bs_hash bs = k_hash k ∧ (k_state k = sock_RELAY ↔ bs_activated bs = true)
  end ∧
  (∀ w, k_wbuf k = Some w → k_woff k < length w) ∧
  length (k_rbuf k) ≤ rbuf_size.

Definition bs_ok p b bs : Prop :=
  tmap (p_streams p) !! bs_hash bs = Some b ∧ good_key (bs_hash bs) ∧
  (∃ a, bs_peers bs = [Some a; None] ∧ bs_npeers bs = 1 ∧ bs_activated bs = false ∨
   ∃ c, bs_peers bs = [Some a; Some c] ∧ bs_npeers bs = 2 ∧ a ≠ c) ∧
  ∀ sc, Some sc ∈ bs_peers bs → ∃ k, p_conns p !! sc = Some k ∧ k_bs k = Some b.

Record px_ok p : Prop := {
  ok_tab : tok (p_streams p);
  ok_fresh : (∀ sc, is_Some (p_conns p !! sc) → sc < p_fresh p) ∧ (∀ b, is_Some (p_bss p !! b) → b < p_fresh p);
  ok_fdfresh f : is_Some (fds p !! f) → f < m_fresh (p_mio p);
  ok_fds f x : fds p !! f = Some x → fd_ok p f x;
  (** Descriptors that are open have different numbers. *)
  ok_nums f g x y : fds p !! f = Some x → fds p !! g = Some y → f_type x ≠ type_CLOSED → f_type y ≠ type_CLOSED → f_fd x = f_fd y → f = g;
  ok_conns sc k : p_conns p !! sc = Some k → conn_ok p sc k;
  ok_bss b bs : p_bss p !! b = Some bs → bs_ok p b bs;
  ok_entry h b : tmap (p_streams p) !! h = Some b → ∃ bs, p_bss p !! b = Some bs ∧ bs_hash bs = h;
  ok_router : (∀ f, p_fd p = Some f → holds p f h_router) ∧ (p_router p = RNull ∨ p_router p = RFreed → p_fd p = None);
  ok_stream st : p_router p = RStream st → st ≠ state_CLOSED → is_Some (p_fd p);
  ok_lost : p_lost_router p = true → p_fd p = None ∧ p_router p ≠ RFreed;
  ok_server f : p_server_fd p = Some f → holds p f h_listen
}.

(** A table whose entry is not stale. *)
Lemma ok_get p hash b : px_ok p → proxy65_stream_get p hash = Some b → ∃ bs, p_bss p !! b = Some bs ∧ bs_ok p b bs.
Proof.
  intros Hp Hb. destruct (tget_in _ _ _ (ok_tab _ Hp) Hb) as [h' Hh].
  destruct (ok_entry _ Hp _ _ Hh) as (bs & Hbs & _). exists bs. split; [done|]. by apply (ok_bss _ Hp).
Qed.

Lemma holds_uniq p f h h' : holds p f h → holds p f h' → h = h'.
Proof. intros (x & E & A) (y & E' & A'). congruence. Qed.
Lemma conn_fd_inj p sc sc' k k' f : px_ok p → p_conns p !! sc = Some k → p_conns p !! sc' = Some k' →
  k_fd k = Some f → k_fd k' = Some f → sc = sc'.
Proof.
  intros Hp Hk Hk' E E'. destruct (ok_conns _ Hp _ _ Hk) as ((g & Eg & Hh) & _), (ok_conns _ Hp _ _ Hk') as ((g' & Eg' & Hh') & _).
  assert (g = f) as -> by congruence. assert (g' = f) as -> by congruence. pose proof (holds_uniq _ _ _ _ Hh Hh'). congruence.
Qed.
End inv.
Notation fds p := (m_fds (p_mio p)).

(** ** Closing *)

Section closing.
Context {T : Type → Type} `{TableLaws T} `{Env}.
Notation proxy65 := (proxy65 T).
Implicit Types (p : proxy65) (sc b f : loc) (k : sock_conn) (bs : bytestream) (x : mio_fd handler).

(** A descriptor that was closed while mio goes through its results or outside of that. *)
Definition closed_fd p (o : option (mio_fd handler)) : option (mio_fd handler) :=
  if m_defer_free (p_mio p) then (λ x, with_f_app None (with_f_type type_CLOSED x)) <$> o else None.

(** The connection [sc] with its descriptor [f] of number [fd] is gone. *)
Record shut p f sc p' : Prop := {
  sh_conns i : p_conns p' !! i = if decide (i = sc) then None else p_conns p !! i;
  sh_fds g : fds p' !! g = if decide (g = f) then closed_fd p (fds p !! g) else fds p !! g;
  sh_out : ∃ fd, p_out p' = p_out p ++ [OClosed fd];
  sh_same : p_bss p' = p_bss p ∧ p_streams p' = p_streams p ∧ p_fresh p' = p_fresh p ∧
    m_fresh (p_mio p') = m_fresh (p_mio p) ∧ m_defer_free (p_mio p') = m_defer_free (p_mio p);
  sh_rest : (p_conf p', p_router p', p_fd p', p_server_fd p', p_lost_router p', p_in p', p_now p', p_started p') =
    (p_conf p, p_router p, p_fd p, p_server_fd p, p_lost_router p, p_in p, p_now p, p_started p)
}.

(** What mio calls to close a client's descriptor. *)
Definition closes (hd : handler → mio_action → loc → option string → proxy65 → option (Z * proxy65)) : Prop :=
  ∀ sc f p, ∃ g, hd (h_sock sc) action_CLOSE f None p = sock_action_close g p sc.
Lemma closes_handle n : closes (handle (S n)).
Proof. intros sc f p. by exists (handle n). Qed.
Lemma closes_call : closes call.
Proof. intros sc f p. unfold call, calls. by eexists. Qed.

Lemma mio_close_dead hd p f sc x k : closes hd → fds p !! f = Some x → f_app x = Some (h_sock sc) → f_type x ≠ type_CLOSED →
  p_conns p !! sc = Some k → k_state k = sock_DEAD →
  ∃ p', _mio_close hd f p = Some p' ∧ shut p f sc p'.
Proof.
  intros Hcl Hx Ha Ht Hk Hd. unfold _mio_close, get_fd, act. cbn [w_mio proxy_world]. rewrite Hx. cbn [mbind option_bind].
  rewrite (proj2 (Z.eqb_neq _ _) Ht), Ha. unfold get_fd. cbn [w_mio proxy_world]. rewrite Hx. cbn [mbind option_bind]. rewrite Ha.
  cbn [mbind option_bind]. destruct (Hcl sc f p) as [g0 ->]. unfold sock_action_close, get_conn. rewrite Hk. cbn [mbind option_bind].
  rewrite Hd. rewrite bool_decide_true by done. cbn [negb mbind option_bind]. unfold _sock_conn_free, get_conn.
  cbn. rewrite lookup_alter_eq, Hk. cbn. rewrite Hx. cbn. eexists. split; [done|].
  destruct (m_defer_free (p_mio p)) eqn:Edf; cbn; (split; cbn;
    [intros i; case_decide; [subst; by rewrite lookup_delete_eq|by rewrite lookup_delete_ne, lookup_alter_ne]
    |intros g; unfold closed_fd; rewrite Edf; case_decide; [subst|]; rewrite ?lookup_delete_eq, ?lookup_delete_ne, ?lookup_alter_eq, ?lookup_alter_ne by done; done
    |by eexists|by split_and!|done]).
Qed.

(** The bytestream [ob] and the connections [cs] are gone. *)
Definition gone_fd p (cs : list loc) (x : mio_fd handler) : option (mio_fd handler) :=
  match f_app x with Some (h_sock sc) => if decide (sc ∈ cs) then closed_fd p (Some x) else Some x | _ => Some x end.
Record removed p (ob : option loc) (cs : list loc) p' : Prop := {
  rm_conns i : p_conns p' !! i = if decide (i ∈ cs) then None else p_conns p !! i;
  rm_fds g : fds p' !! g = fds p !! g ≫= gone_fd p cs;
  rm_bss b : p_bss p' !! b = if decide (Some b = ob) then None else p_bss p !! b;
  rm_tab : tok (p_streams p') ∧ ∀ h, tmap (p_streams p') !! h =
    if decide ((bs_hash <$> (ob ≫= (λ b, p_bss p !! b))) = Some h) then None else tmap (p_streams p) !! h;
  rm_out : ∃ l, p_out p' = p_out p ++ (OClosed <$> l);
  rm_same : p_fresh p' = p_fresh p ∧ m_fresh (p_mio p') = m_fresh (p_mio p) ∧ m_defer_free (p_mio p') = m_defer_free (p_mio p);
  rm_rest : (p_conf p', p_router p', p_fd p', p_server_fd p', p_lost_router p', p_in p', p_now p', p_started p') =
    (p_conf p, p_router p, p_fd p, p_server_fd p, p_lost_router p, p_in p, p_now p, p_started p)
}.

(** Whom it takes along. *)
Definition takes p (ob : option loc) (cs : list loc) : Prop :=
  (∀ i, i ∈ cs → ∃ k, p_conns p !! i = Some k ∧ (k_bs k = ob ∨ k_bs k = None)) ∧
  (∀ i k b, p_conns p !! i = Some k → k_bs k = Some b → ob = Some b → i ∈ cs) ∧
  (∀ b, ob = Some b → is_Some (p_bss p !! b)).

Lemma kept_fd p ob cs p' f h : removed p ob cs p' → (∀ sc, h = h_sock sc → sc ∉ cs) → holds p f h → holds p' f h.
Proof.
  intros R Hn (x & Hx & Ha). exists x. split; [|done]. rewrite (rm_fds _ _ _ _ R), Hx. cbn. unfold gone_fd. rewrite Ha.
  destruct h as [| |sc]; try done. by rewrite decide_False by (by apply Hn).
Qed.

Lemma removed_conns p ob cs p' i k : removed p ob cs p' → p_conns p' !! i = Some k → p_conns p !! i = Some k ∧ i ∉ cs.
Proof. intros R Hi. rewrite (rm_conns _ _ _ _ R) in Hi. by case_decide. Qed.
Lemma removed_bss p ob cs p' b bs : removed p ob cs p' → p_bss p' !! b = Some bs → p_bss p !! b = Some bs ∧ ob ≠ Some b.
Proof. intros R Hi. rewrite (rm_bss _ _ _ _ R) in Hi. by case_decide. Qed.

(** What is left of the descriptors. *)
Lemma removed_fds p ob cs p' f y : removed p ob cs p' → fds p' !! f = Some y →
  (fds p !! f = Some y ∧ ∀ sc, f_app y = Some (h_sock sc) → sc ∉ cs) ∨
  (f_app y = None ∧ f_type y = type_CLOSED ∧ is_Some (fds p !! f)).
Proof.
  intros R. rewrite (rm_fds _ _ _ _ R). destruct (fds p !! f) as [x|] eqn:Ex; [|done]. cbn. unfold gone_fd, closed_fd.
  destruct (f_app x) as [[| |sc]|] eqn:Ea; [intros [= <-]; left; split; [done|congruence]..| |intros [= <-]; left; split; [done|congruence]].
  case_decide; [|intros [= <-]; left; split; [done|congruence]].
  destruct (m_defer_free (p_mio p)); [|done]. intros [= <-]. right. by split_and!.
Qed.

Lemma removed_ok p ob cs p' : px_ok p → removed p ob cs p' → takes p ob cs → px_ok p'.
Proof.
  intros Hp R (Hc1 & Hc2 & Hc3). pose proof (rm_rest _ _ _ _ R) as [= E1 E2 E3 E4 E5 E6 E7 E8].
  destruct (rm_same _ _ _ _ R) as (F1 & F2 & F3). destruct (rm_tab _ _ _ _ R) as (Ht & Em).
  assert (∀ b bs sc, p_bss p !! b = Some bs → ob ≠ Some b → Some sc ∈ bs_peers bs → sc ∉ cs) as Hkeep.
  { intros b bs sc Hb Hne Hs Hin. destruct (ok_bss _ Hp _ _ Hb) as (_ & _ & _ & Hps). destruct (Hps _ Hs) as (k & Hk & Ek).
    destruct (Hc1 _ Hin) as (k' & Hk' & [Eb|Eb]); congruence. }
  split.
  - done.
  - rewrite F1. split.
    + intros sc [k Hk]. apply (proj1 (ok_fresh _ Hp)). eexists. by apply (removed_conns _ _ _ _ _ _ R Hk).
    + intros b [bs Hb]. apply (proj2 (ok_fresh _ Hp)). eexists. by apply (removed_bss _ _ _ _ _ _ R Hb).
  - intros f [y Hy]. rewrite F2. apply (ok_fdfresh _ Hp). by destruct (removed_fds _ _ _ _ _ _ R Hy) as [[Hx _]|(_ & _ & ?)].
  - intros f y Hy. destruct (removed_fds _ _ _ _ _ _ R Hy) as [[Hx Hn]|(Ha & Hc & _)].
    + pose proof (ok_fds _ Hp _ _ Hx) as Hf. unfold fd_ok in *. destruct (f_app y) as [[| |sc]|] eqn:Ea; [by rewrite E3|done| |done].
      destruct Hf as (? & ? & k & Hk & ?). split_and!; [done..|]. exists k. rewrite (rm_conns _ _ _ _ R), decide_False by (by apply Hn). done.
    + unfold fd_ok. by rewrite Ha.
  - intros f g x y Hx Hy Hxc Hyc. destruct (removed_fds _ _ _ _ _ _ R Hx) as [[Hx' _]|(_ & ? & _)]; [|done].
    destruct (removed_fds _ _ _ _ _ _ R Hy) as [[Hy' _]|(_ & ? & _)]; [|done]. by apply (ok_nums _ Hp).
  - intros sc k Hk. destruct (removed_conns _ _ _ _ _ _ R Hk) as [Hk' Hn]. destruct (ok_conns _ Hp _ _ Hk') as ((f & Ef & Hf) & Hb & Hw & Hl).
    split_and!; [|..|done|done].
    + exists f. split; [done|]. eapply kept_fd; [done| |done]. intros sc' [= <-]. done.
    + destruct (k_bs k) as [b|] eqn:Eb; [|done]. destruct Hb as (Hs & bs & Hbs & Hr). split; [done|]. exists bs.
      rewrite (rm_bss _ _ _ _ R), decide_False; [done|]. intros <-. apply Hn. by eapply Hc2.
  - intros b bs Hb. destruct (removed_bss _ _ _ _ _ _ R Hb) as [Hb' Hne]. destruct (ok_bss _ Hp _ _ Hb') as (Hm & Hg & Hs & Hps).
    split_and!; [|done|done|].
    + rewrite Em, decide_False; [done|]. intros Ho. destruct ob as [b'|]; [|done]. cbn in Ho.
      destruct (p_bss p !! b') as [bs'|] eqn:Ebs; [|done]. cbn in Ho. destruct (ok_bss _ Hp _ _ Ebs) as (Hm' & _). congruence.
    + intros sc Hs'. destruct (Hps _ Hs') as (k & Hk & Ek). exists k. rewrite (rm_conns _ _ _ _ R), decide_False by (by eapply Hkeep). done.
  - intros h b. rewrite Em. case_decide as Hd; [done|]. intros Hm. destruct (ok_entry _ Hp _ _ Hm) as (bs & Hbs & Ebs).
    exists bs. split; [|done]. rewrite (rm_bss _ _ _ _ R), decide_False; [done|]. intros <-. apply Hd. cbn. rewrite Hbs. cbn. by rewrite Ebs.
  - rewrite E2, E3. destruct (ok_router _ Hp) as [Hr1 Hr2]. split; [|done]. intros f Hf. eapply kept_fd; [done|done|]. by apply Hr1.
  - intros st. rewrite E2, E3. apply (ok_stream _ Hp).
  - rewrite E5, E3, E2. apply (ok_lost _ Hp).
  - intros f. rewrite E4. intros Hf. eapply kept_fd; [done|done|]. by apply (ok_server _ Hp).
Qed.

(** The connections that share a bytestream with [sc]. *)
Definition company p sc k : list loc :=
  match k_bs k ≫= (λ b, p_bss p !! b) with
  | Some bs => sc :: match other_peer sc (bs_peers bs) with Some q => [q] | None => [] end
  | None => [sc]
  end.

Lemma other_peer_in p b bs sc : bs_ok p b bs → Some sc ∈ bs_peers bs →
  (other_peer sc (bs_peers bs) = None ∧ ∀ i, Some i ∈ bs_peers bs → i = sc) ∨
  (∃ q, other_peer sc (bs_peers bs) = Some q ∧ q ≠ sc ∧ Some q ∈ bs_peers bs ∧ ∀ i, Some i ∈ bs_peers bs → i = sc ∨ i = q).
Proof.
  intros (_ & _ & (a & [(E & _)|(c & E & _ & Hac)]) & _) Hin; rewrite E in *; unfold other_peer; cbn.
  - left. assert (a = sc) as -> by set_solver. rewrite bool_decide_true by done. split; [done|set_solver].
  - right. assert (sc = a ∨ sc = c) as [-> | ->] by set_solver.
    + rewrite (bool_decide_false (c = a)) by congruence. exists c. split_and!; [done|congruence|set_solver..].
    + rewrite (bool_decide_true (c = c)), (bool_decide_false (a = c)) by congruence. exists a. split_and!; [done|congruence|set_solver..].
Qed.

Lemma company_in p sc k : px_ok p → p_conns p !! sc = Some k →
  sc ∈ company p sc k ∧ takes p (k_bs k) (company p sc k).
Proof.
  intros Hp Hk. destruct (ok_conns _ Hp _ _ Hk) as (_ & Hb & _). unfold company, takes.
  destruct (k_bs k) as [b|] eqn:Eb; cbn.
  - destruct Hb as (_ & bs & Hbs & Hin & _). rewrite Hbs. pose proof (ok_bss _ Hp _ _ Hbs) as Hok.
    assert (∀ i k', p_conns p !! i = Some k' → k_bs k' = Some b → Some i ∈ bs_peers bs) as Hall.
    { intros i k' Hi Ei. destruct (ok_conns _ Hp _ _ Hi) as (_ & Hb' & _). rewrite Ei in Hb'. destruct Hb' as (_ & bs' & Hbs' & ? & _). congruence. }
    pose proof Hok as (_ & _ & _ & Hps).
    destruct (other_peer_in _ _ _ _ Hok Hin) as [[-> Hq]|(q & -> & Hne & Hqin & Hq)].
    + split_and!; [set_solver| | |by intros ? [= <-]; eexists].
      * intros i ->%list_elem_of_singleton. exists k. by rewrite Eb; auto.
      * intros i k' b' Hi Ei [= <-]. apply list_elem_of_singleton. by eapply Hq, Hall.
    + split_and!; [set_solver| | |by intros ? [= <-]; eexists].
      * intros i [->| ->%list_elem_of_singleton]%elem_of_cons; [exists k; by rewrite Eb; auto|].
        destruct (Hps _ Hqin) as (kq & Hkq & Ekq). exists kq. auto.
      * intros i k' b' Hi Ei [= <-]. destruct (Hq i (Hall _ _ Hi Ei)) as [-> | ->]; set_solver.
  - split_and!; [set_solver| |done|done]. intros i ->%list_elem_of_singleton. exists k. auto.
Qed.

Lemma closed_fd_same p p' o : m_defer_free (p_mio p') = m_defer_free (p_mio p) → closed_fd p' o = closed_fd p o.
Proof. unfold closed_fd. by intros ->. Qed.

(** One dead connection after another. *)
Lemma open_type p f sc : px_ok p → holds p f (h_sock sc) → ∀ x, fds p !! f = Some x → f_type x = type_NORMAL.
Proof.
  intros Hp (x & Hx & Ha) y Hy. assert (y = x) as -> by congruence. pose proof (ok_fds _ Hp _ _ Hx) as Hf.
  unfold fd_ok in Hf. rewrite Ha in Hf. by destruct Hf.
Qed.

Lemma decide_cons {A} (i c : nat) l (x y : A) :
  (if decide (i ∈ c :: l) then x else y) = if decide (i ∈ l) then x else if decide (i = c) then x else y.
Proof.
  destruct (decide (i ∈ l)) as [Hl|Hl]; [by rewrite decide_True by (by right)|].
  destruct (decide (i = c)) as [->|Hc]; [by rewrite decide_True by left|]. rewrite decide_False; [done|].
  by intros [?|?]%elem_of_cons.
Qed.

(** The state in which the ends are closed: the connections in [cs] are dead, their bytestream is gone. *)
Record dying p (ob : option loc) (cs : list loc) p1 : Prop := {
  dy_conns i : i ∉ cs → p_conns p1 !! i = p_conns p !! i;
  dy_dead i : i ∈ cs → ∃ k, p_conns p1 !! i = Some k ∧ k_state k = sock_DEAD;
  dy_mio : p_mio p1 = p_mio p;
  dy_bss b : p_bss p1 !! b = if decide (Some b = ob) then None else p_bss p !! b;
  dy_tab : tok (p_streams p1) ∧ ∀ h, tmap (p_streams p1) !! h =
    if decide ((bs_hash <$> (ob ≫= (λ b, p_bss p !! b))) = Some h) then None else tmap (p_streams p) !! h;
  dy_out : p_out p1 = p_out p;
  dy_rest : (p_fresh p1, p_conf p1, p_router p1, p_fd p1, p_server_fd p1, p_lost_router p1, p_in p1, p_now p1, p_started p1) =
    (p_fresh p, p_conf p, p_router p, p_fd p, p_server_fd p, p_lost_router p, p_in p, p_now p, p_started p)
}.

(** Closing what is dying, in any order, is removing it. *)
Fixpoint shut_all p (l : list (loc * loc)) p' : Prop :=
  match l with [] => p' = p | (f, sc) :: l => ∃ p1, shut p f sc p1 ∧ shut_all p1 l p' end.

Lemma shut_all_frame l : ∀ p p', shut_all p l p' →
  (∀ i, p_conns p' !! i = if decide (i ∈ l.*2) then None else p_conns p !! i) ∧
  (∀ g, NoDup l.*1 → fds p' !! g = if decide (g ∈ l.*1) then closed_fd p (fds p !! g) else fds p !! g) ∧
  (∃ o, p_out p' = p_out p ++ (OClosed <$> o)) ∧ (p_bss p', p_streams p', p_fresh p', m_fresh (p_mio p'), m_defer_free (p_mio p')) =
    (p_bss p, p_streams p, p_fresh p, m_fresh (p_mio p), m_defer_free (p_mio p)) ∧
  (p_conf p', p_router p', p_fd p', p_server_fd p', p_lost_router p', p_in p', p_now p', p_started p') =
    (p_conf p, p_router p, p_fd p, p_server_fd p, p_lost_router p, p_in p, p_now p, p_started p).
Proof.
  induction l as [|[f sc] l IH]; intros p p'; cbn.
  - intros ->. split_and!; [intros i|intros g _|exists []; by rewrite app_nil_r|done..]; rewrite decide_False by set_solver; done.
  - intros (p1 & S & Hl). destruct (IH _ _ Hl) as (Hc & Hf & (o & Eo) & Es & Er).
    destruct S as [Sc Sf [fd So] (S1 & S2 & S3 & S4 & S5) Sr]. split_and!.
    + intros i. rewrite Hc, Sc. by rewrite decide_cons.
    + intros g [Hn Hnd]%NoDup_cons. rewrite (Hf _ Hnd), Sf. rewrite (closed_fd_same p p1) by done.
      rewrite decide_cons. destruct (decide (g = f)) as [-> |]; [by destruct (decide (f ∈ l.*1))|done].
    + exists (fd :: o). by rewrite Eo, So, <- app_assoc.
    + rewrite Es. congruence.
    + by rewrite Er.
Qed.

Lemma gone_eq p l g : px_ok p → (∀ f sc, (f, sc) ∈ l → holds p f (h_sock sc)) →
  (if decide (g ∈ l.*1) then closed_fd p (fds p !! g) else fds p !! g) = fds p !! g ≫= gone_fd p l.*2.
Proof.
  intros Hp Hh.
  destruct (fds p !! g) as [x|] eqn:Eg; [|unfold closed_fd; by repeat case_match]. cbn. unfold gone_fd.
  case_decide as Hg.
  + apply list_elem_of_fmap in Hg as ([g' sc] & -> & Hin). destruct (Hh _ _ Hin) as (x' & Ex' & Ea). cbn in Eg.
    assert (x' = x) as -> by congruence. rewrite Ea. rewrite decide_True; [done|]. apply list_elem_of_fmap. by exists (g', sc).
  + destruct (f_app x) as [[| |sc]|] eqn:Ea; try done. rewrite decide_False; [done|]. intros Hin. apply Hg.
    apply list_elem_of_fmap in Hin as ([g' sc'] & -> & Hin). cbn in Ea. destruct (Hh _ _ Hin) as (x' & Ex' & Ea').
    pose proof (ok_fds _ Hp _ _ Eg) as Hfd. unfold fd_ok in Hfd. rewrite Ea in Hfd. destruct Hfd as (_ & _ & k & Hk & Ek).
    pose proof (ok_fds _ Hp _ _ Ex') as Hfd'. unfold fd_ok in Hfd'. rewrite Ea' in Hfd'. destruct Hfd' as (_ & _ & k' & Hk' & Ek').
    assert (g = g') as -> by congruence. apply list_elem_of_fmap. by exists (g', sc').
Qed.
Lemma shut_removed p ob p1 l p' : px_ok p → dying p ob l.*2 p1 → shut_all p1 l p' → NoDup l.*1 →
  (∀ f sc, (f, sc) ∈ l → holds p f (h_sock sc)) → (∀ sc, sc ∈ l.*2 → is_Some (p_conns p !! sc)) → removed p ob l.*2 p'.
Proof.
  intros Hp [D1 D2 D3 D4 D5 D6 D7] Hl Hnd Hh Hcs. destruct (shut_all_frame _ _ _ Hl) as (Hc & Hf & [o Ho] & Es & Er).
  injection Es as Eb Et Ef Em Ed. injection D7 as E0 E1 E2 E3 E4 E5 E6 E7 E8. injection Er as R1 R2 R3 R4 R5 R6 R7 R8. split.
  - intros i. rewrite Hc. case_decide; [done|]. by apply D1.
  - intros g. rewrite (Hf g Hnd), D3. rewrite (closed_fd_same p) by (by rewrite D3).
    by apply gone_eq.
  - intros b. rewrite Eb. apply D4.
  - rewrite Et. done.
  - exists o. rewrite Ho. congruence.
  - split_and!; [congruence|..]; [rewrite Em|rewrite Ed]; by rewrite D3.
  - congruence.
Qed.

(** The descriptors of dead connections are closed one by one. *)
Lemma close_list hd p l : closes hd → (∀ f sc, (f, sc) ∈ l → ∃ x k, fds p !! f = Some x ∧ f_app x = Some (h_sock sc) ∧ f_type x ≠ type_CLOSED ∧
    p_conns p !! sc = Some k ∧ k_state k = sock_DEAD) → NoDup l.*1 → NoDup l.*2 →
  ∃ p', foldO (λ p (a : loc * loc), _mio_close hd a.1 p) p l = Some p' ∧ shut_all p l p'.
Proof.
  intros Hcl. revert p. induction l as [|[f sc] l IH]; intros p Hl Hn1 Hn2; cbn [foldO shut_all].
  - by exists p.
  - apply NoDup_cons in Hn1 as [Hf Hn1], Hn2 as [Hsc Hn2].
    destruct (Hl f sc) as (x & k & Hx & Ha & Ht & Hk & Hd); [by left|].
    destruct (mio_close_dead hd _ _ _ _ _ Hcl Hx Ha Ht Hk Hd) as (p1 & E & S). cbn [fst]. rewrite E. cbn [mbind option_bind].
    destruct (IH p1) as (p' & E' & S'); [|done..|by exists p'; eauto].
    intros g i Hin. destruct (Hl g i) as (x' & k' & Hx' & Ha' & Ht' & Hk' & Hd'); [by right|].
    assert (g ≠ f) by (intros ->; apply Hf; apply list_elem_of_fmap; by exists (f, i)).
    assert (i ≠ sc) by (intros ->; apply Hsc; apply list_elem_of_fmap; by exists (g, sc)).
    exists x', k'. rewrite (sh_fds _ _ _ _ S), (sh_conns _ _ _ _ S), !decide_False by done. done.
Qed.

Lemma sock_open p g i : px_ok p → holds p g (h_sock i) → ∃ x, fds p !! g = Some x ∧ f_app x = Some (h_sock i) ∧ f_type x ≠ type_CLOSED.
Proof. intros Hp Hh. pose proof (open_type _ _ _ Hp Hh) as Hty. destruct Hh as (x & Hx & Ha). exists x. by rewrite (Hty _ Hx). Qed.

Lemma dying_removed hd p p1 ob l : closes hd → px_ok p → dying p ob l.*2 p1 → (∀ g i, (g, i) ∈ l → holds p g (h_sock i)) → NoDup l.*1 → NoDup l.*2 →
  (∀ i, i ∈ l.*2 → is_Some (p_conns p !! i)) →
  ∃ p', foldO (λ p (a : loc * loc), _mio_close hd a.1 p) p1 l = Some p' ∧ removed p ob l.*2 p'.
Proof.
  intros Hcl Hp D Hh Hn1 Hn2 Hc. destruct (close_list hd p1 l) as (p' & E & S); [done| |done..|].
  - intros g i Hin. destruct (sock_open _ _ _ Hp (Hh _ _ Hin)) as (x & Hx & Ha & Hty).
    destruct (dy_dead _ _ _ _ D i) as (k' & Hk' & Hd); [apply list_elem_of_fmap; by exists (g, i)|].
    exists x, k'. by rewrite (dy_mio _ _ _ _ D).
  - exists p'. split; [done|]. by eapply shut_removed.
Qed.

Lemma removed_perm p ob cs cs' p' : (∀ i, i ∈ cs ↔ i ∈ cs') → removed p ob cs p' → removed p ob cs' p'.
Proof.
  intros E [R1 R2 R3 R4 R5 R6 R7]. split; [..|done|done|done|done|done].
  - intros i. rewrite R1. apply decide_ext, E.
  - intros h. rewrite R2. destruct (fds p !! h) as [y|]; [|done]. cbn. unfold gone_fd. destruct (f_app y) as [[| |i]|]; try done.
    apply decide_ext, E.
Qed.

(** The table without the entry of a bytestream. *)
Lemma zap_tab p b bs : px_ok p → p_bss p !! b = Some bs →
  tok (tzap (p_streams p) (bs_hash bs)) ∧ ∀ h, tmap (tzap (p_streams p) (bs_hash bs)) !! h =
    if decide ((bs_hash <$> (Some b ≫= (λ b, p_bss p !! b))) = Some h) then None else tmap (p_streams p) !! h.
Proof.
  intros Hp Hbs. destruct (ok_bss _ Hp _ _ Hbs) as (_ & Hg & _).
  destruct (tzap_ok (p_streams p) (bs_hash bs) (ok_tab _ Hp) (proj1 Hg)) as [Ht' Em]. split; [done|]. intros h. rewrite Em. cbn. rewrite Hbs. cbn.
  case_decide as Hd; [injection Hd as <-; by rewrite lookup_delete_eq|rewrite lookup_delete_ne; [done|congruence]].
Qed.

Definition dead_conn (k : sock_conn) : sock_conn := with_k_bs None (with_k_state sock_DEAD k).
Definition without_bs p b bs : proxy65 := set_p_bss (delete b (p_bss p)) (set_p_streams (tzap (p_streams p) (bs_hash bs)) p).

(** The states that [_sock_conn_close] passes: without a bytestream, the last peer, one of two. *)
Lemma dying_alone p sc k : px_ok p → p_conns p !! sc = Some k →
  dying p None [sc] (upd_conn sc (with_k_fd None) (upd_conn sc dead_conn p)).
Proof.
  intros Hp Hk. split; cbn; try done.
  - intros i Hi. rewrite !lookup_alter_ne by set_solver. done.
  - intros i ->%list_elem_of_singleton. rewrite !lookup_alter_eq, Hk. cbn. by eexists.
  - split; [apply Hp|]. intros h. by rewrite decide_False.
Qed.
Lemma dying_bss p b b' : delete b (p_bss p) !! b' = if decide (Some b' = Some b) then None else p_bss p !! b'.
Proof. case_decide as Hd; [injection Hd as ->; by rewrite lookup_delete_eq|rewrite lookup_delete_ne; [done|congruence]]. Qed.
Lemma dying_last p sc k b bs : px_ok p → p_conns p !! sc = Some k → p_bss p !! b = Some bs →
  dying p (Some b) [sc] (upd_conn sc (with_k_fd None) (without_bs (upd_conn sc dead_conn p) b bs)).
Proof.
  intros Hp Hk Hb. split; cbn; try done.
  - intros i Hi. rewrite !lookup_alter_ne by set_solver. done.
  - intros i ->%list_elem_of_singleton. rewrite !lookup_alter_eq, Hk. cbn. by eexists.
  - intros b'. apply dying_bss.
  - by apply zap_tab.
Qed.
Lemma dying_both p sc k q kq b bs : px_ok p → p_conns p !! sc = Some k → p_conns p !! q = Some kq → q ≠ sc → p_bss p !! b = Some bs →
  dying p (Some b) [q; sc] (upd_conn sc (with_k_fd None) (upd_conn q (λ k, with_k_fd None (dead_conn k)) (without_bs (upd_conn sc dead_conn p) b bs))).
Proof.
  intros Hp Hk Hq Hne Hb. split; cbn; try done.
  - intros i Hi. rewrite !lookup_alter_ne by set_solver. done.
  - intros i [->| ->%list_elem_of_singleton]%elem_of_cons.
    + rewrite lookup_alter_ne, lookup_alter_eq, lookup_alter_ne, Hq by done. cbn. by eexists.
    + rewrite lookup_alter_eq, lookup_alter_ne, lookup_alter_eq, Hk by done. cbn. by eexists.
  - intros b'. apply dying_bss.
  - by apply zap_tab.
Qed.

Lemma fold_two {A B} (g : A → B → option A) a (x y : B) : foldO g a [x; y] = a ← g a x; g a y.
Proof. cbn. destruct (g a x) as [a'|]; cbn; [|done]. by destruct (g a' y). Qed.
Lemma fold_one {A B} (g : A → B → option A) a (x : B) : foldO g a [x] = g a x.
Proof. cbn. by destruct (g a x). Qed.

Lemma conn_alive p sc k : px_ok p → p_conns p !! sc = Some k → k_state k ≠ sock_DEAD.
Proof.
  intros Hp Hk E. destruct (ok_conns _ Hp _ _ Hk) as (_ & Hb & _). rewrite E in Hb.
  destruct (k_bs k); [by destruct Hb as [[[? _]|?] _]|by destruct Hb as [[?|?] _]].
Qed.

Lemma sock_conn_close_ok hd p sc k : closes hd → px_ok p → p_conns p !! sc = Some k →
  ∃ p', _sock_conn_close hd p sc = Some p' ∧ removed p (k_bs k) (company p sc k) p'.
Proof.
  intros Hcl Hp Hk. destruct (ok_conns _ Hp _ _ Hk) as ((f & Ef & Hf) & Hb & _).
  pose proof (conn_alive _ _ _ Hp Hk) as Hs.
  unfold _sock_conn_close, get_conn, company. rewrite Hk. cbn [mbind option_bind]. rewrite bool_decide_false by done.
  fold dead_conn. destruct (k_bs k) as [b|] eqn:Eb; cbn [unjoin mbind option_bind].
  - destruct Hb as (_ & bs & Hbs & Hin & _). unfold get_bs. cbn [p_bss upd_conn set_p_conns]. rewrite Hbs. cbn [mbind option_bind].
    pose proof (ok_bss _ Hp _ _ Hbs) as Hok. pose proof Hok as (_ & _ & _ & Hps).
    destruct (other_peer_in _ _ _ _ Hok Hin) as [[-> _]|(q & -> & Hne & Hqin & _)]; cbn [kill_peer mbind option_bind close_opt].
    + rewrite Ef. destruct (dying_removed hd p _ _ [(f, sc)] Hcl Hp (dying_last p sc k b bs Hp Hk Hbs)) as (p' & E & R).
      * intros g i [= -> ->]%list_elem_of_singleton. done.
      * apply NoDup_singleton.
      * apply NoDup_singleton.
      * intros i ->%list_elem_of_singleton. eauto.
      * rewrite fold_one in E. eauto.
    + destruct (Hps _ Hqin) as (kq & Hkq & Ekq). destruct (ok_conns _ Hp _ _ Hkq) as ((g & Eg & Hg') & _).
      pose proof (conn_alive _ _ _ Hp Hkq) as Hsq.
      unfold get_conn. cbn [p_conns upd_conn set_p_conns set_p_bss set_p_streams]. rewrite lookup_alter_ne by done. rewrite Hkq.
      cbn [mbind option_bind]. rewrite bool_decide_false by done. cbn [mbind option_bind]. rewrite Eg, Ef.
      destruct (dying_removed hd p _ _ [(g, q); (f, sc)] Hcl Hp (dying_both p sc k q kq b bs Hp Hk Hkq Hne Hbs)) as (p' & E & R).
      * intros g' i [[= -> ->]|[= -> ->]%list_elem_of_singleton]%elem_of_cons; done.
      * cbn. apply NoDup_cons. split; [|apply NoDup_singleton]. intros ->%list_elem_of_singleton. apply Hne.
        by eapply (conn_fd_inj p q sc).
      * cbn. apply NoDup_cons. split; [set_solver|apply NoDup_singleton].
      * intros i [->| ->%list_elem_of_singleton]%elem_of_cons; eauto.
      * rewrite fold_two in E. exists p'. split; [done|]. eapply removed_perm; [|exact R]. set_solver.
  - cbn [kill_peer mbind option_bind close_opt]. rewrite Ef.
    destruct (dying_removed hd p _ _ [(f, sc)] Hcl Hp (dying_alone p sc k Hp Hk)) as (p' & E & R).
    + intros g i [= -> ->]%list_elem_of_singleton. done.
    + apply NoDup_singleton.
    + apply NoDup_singleton.
    + intros i ->%list_elem_of_singleton. eauto.
    + rewrite fold_one in E. eauto.
Qed.
End closing.
