(* ===== verification/Proxy65Step.v ===== *)
(** * What the handlers of the proxy do

    Each keeps [px_ok] and is a step of [evolves]: connections are only changed
    in some ways, what is read from one of two that relay is sent to the other or
    waits, and nothing that waits moves but by a call to write. *)
From S2P Require Import Prelude.
From S2P Require Import CStr.
From S2P Require Import DList.
From S2P Require Import Table.
From S2P Require Import Str.
From S2P Require Import Codec.
From S2P Require Import Jid.
From S2P Require Import Nad.
From S2P Require Import Stanza.
From S2P Require Import Datetime.
From S2P Require Import Pkt.
From S2P Require Import Config.
From S2P Require Import Mio.
From S2P Require Import Proxy65.
From S2P Require Import Proxy65Inv.

(** What waits in a connection to be sent. *)
Definition pend (k : sock_conn) : text := match k_wbuf k with Some w => drop (k_woff k) w | None => [] end.
(** The bytes that a log says were received from, sent to a descriptor. *)
Definition recv_of (n : Z) (l : list pout) : text := l ≫= λ o, match o with ORecv m t => if (m =? n)%Z then t else [] | _ => [] end.
Definition sent_to (n : Z) (l : list pout) : text := l ≫= λ o, match o with OSend m t => if (m =? n)%Z then t else [] | _ => [] end.
Lemma recv_of_app n l l' : recv_of n (l ++ l') = recv_of n l ++ recv_of n l'.
Proof. apply bind_app. Qed.
Lemma sent_to_app n l l' : sent_to n (l ++ l') = sent_to n l ++ sent_to n l'.
Proof. apply bind_app. Qed.

(** A log that does not speak of relaying on [n]. *)
Definition silent (n : Z) (l : list pout) : Prop := recv_of n l = [] ∧ sent_to n l = [].

Definition survives (k k' : sock_conn) : Prop :=
  k_fd k' = k_fd k ∧ (∀ b, k_bs k = Some b → k_bs k' = Some b ∧ k_hash k' = k_hash k) ∧
  (k_state k = sock_RELAY → k_state k' = sock_RELAY).
Lemma survives_refl k : survives k k.
Proof. by split_and!. Qed.
Lemma survives_trans a b c : survives a b → survives b c → survives a c.
Proof.
  intros (F1 & B1 & S1) (F2 & B2 & S2). split_and!; [congruence| |by auto].
  intros i Hi. destruct (B1 _ Hi) as [Hi' E1]. destruct (B2 _ Hi') as [? E2]. split; [done|congruence].
Qed.

Section step.
Context {T : Type → Type} `{TableLaws T} `{Env}.
Notation proxy65 := (proxy65 T).
Implicit Types (p : proxy65) (sc q b f : loc) (k : sock_conn) (bs : bytestream) (x y : mio_fd handler) (e : option loc).

Definition number p sc (n : Z) : Prop := ∃ k f x, p_conns p !! sc = Some k ∧ k_fd k = Some f ∧ fds p !! f = Some x ∧ f_fd x = n.
(** Two connections that relay to each other. *)
Definition linked p sc q : Prop := sc ≠ q ∧ ∃ k kq b, p_conns p !! sc = Some k ∧ p_conns p !! q = Some kq ∧
  k_state k = sock_RELAY ∧ k_state kq = sock_RELAY ∧ k_bs k = Some b ∧ k_bs kq = Some b.

(** What was read from a connection is sent to its peer or waits there. *)
Definition relayed p p' (l : list pout) : Prop := ∀ sc q fd fdq kq kq', linked p sc q → number p sc fd → number p q fdq →
  p_conns p !! q = Some kq → is_Some (p_conns p' !! sc) → p_conns p' !! q = Some kq' →
  pend kq ++ recv_of fd l = sent_to fdq l ++ pend kq'.
(** What waits stays where it is, but at [e]. *)
Definition waits e p p' (l : list pout) : Prop := ∀ q fdq k k', e ≠ Some q → number p q fdq → p_conns p !! q = Some k →
  k_wbuf k ≠ None → p_conns p' !! q = Some k' → k_wbuf k' = k_wbuf k ∧ k_woff k' = k_woff k ∧ sent_to fdq l = [].

Record evolves e p p' : Prop := {
  ev_defer : m_defer_free (p_mio p') = m_defer_free (p_mio p);
  ev_kept f : m_defer_free (p_mio p) = true → is_Some (fds p !! f) → is_Some (fds p' !! f);
  ev_app f x y : fds p !! f = Some x → fds p' !! f = Some y → f_fd y = f_fd x ∧ (f_app y = f_app x ∨ f_app y = None);
  ev_new f : f < m_fresh (p_mio p) → fds p !! f = None → fds p' !! f = None;
  ev_fresh : p_fresh p ≤ p_fresh p' ∧ m_fresh (p_mio p) ≤ m_fresh (p_mio p');
  ev_conns i k' : i < p_fresh p → p_conns p' !! i = Some k' → ∃ k, p_conns p !! i = Some k ∧ survives k k';
  ev_conf : p_conf p' = p_conf p;
  ev_in : in_router (p_in p') `suffix_of` in_router (p_in p);
  ev_active i k' : p_conns p' !! i = Some k' → k_state k' = sock_RELAY →
    (∃ k, p_conns p !! i = Some k ∧ k_state k = sock_RELAY) ∨
    ∃ n sid, RevPacket n ∈ in_router (p_in p) ∧ activate_hash n = Some (inr (sid, k_hash k'));
  ev_out : ∃ l, p_out p' = p_out p ++ l ∧ relayed p p' l ∧ waits e p p' l
}.

(** *** Laws *)

Lemma number_step e p p' i n k' : px_ok p → px_ok p' → evolves e p p' → number p i n → p_conns p' !! i = Some k' → number p' i n.
Proof.
  intros Hp Hp' E (k & f & x & Hk & Hf & Hx & Hn) Hk'.
  destruct (ev_conns _ _ _ E i k') as (k0 & Hk0 & (F & _)); [apply (proj1 (ok_fresh _ Hp)); eauto|done|].
  assert (k0 = k) as -> by congruence. destruct (ok_conns _ Hp' _ _ Hk') as ((f' & Hf' & (y & Hy & _)) & _).
  assert (f' = f) as -> by congruence. exists k', f, y. split_and!; [done..|].
  by rewrite (proj1 (ev_app _ _ _ E _ _ _ Hx Hy)).
Qed.
Lemma back_step e p p' i : px_ok p → evolves e p p' → is_Some (p_conns p !! i) → is_Some (p_conns p' !! i) →
  ∃ k k', p_conns p !! i = Some k ∧ p_conns p' !! i = Some k' ∧ survives k k'.
Proof.
  intros Hp E Hk [k' Hk']. destruct (ev_conns _ _ _ E i k') as (k & ? & ?); [by apply (proj1 (ok_fresh _ Hp))|done|]. eauto.
Qed.
Lemma linked_step e p p' sc q : px_ok p → evolves e p p' → linked p sc q → is_Some (p_conns p' !! sc) → is_Some (p_conns p' !! q) → linked p' sc q.
Proof.
  intros Hp E (Hne & k & kq & b & Hk & Hq & S1 & S2 & B1 & B2) H1' H2'.
  destruct (back_step _ _ _ sc Hp E) as (k0 & k' & Hk0 & Hk' & (_ & Bk & Sk)); [by eexists|done|].
  destruct (back_step _ _ _ q Hp E) as (q0 & q' & Hq0 & Hq' & (_ & Bq & Sq)); [by eexists|done|].
  simplify_eq. split; [done|]. exists k', q', b. split_and!; [done|done|by auto|by auto|by apply Bk|by apply Bq].
Qed.

Lemma evolves_refl e p : evolves e p p.
Proof.
  split; try done; try eauto using survives_refl.
  - intros f x y Hx Hy. assert (y = x) as -> by congruence. auto.
  - exists []. split_and!; [by rewrite app_nil_r| |].
    + intros sc q fd fdq kq kq' _ _ _ Hq _ Hq'. assert (kq' = kq) as -> by congruence. by rewrite app_nil_r.
    + intros q fdq k k' _ _ Hk _ Hk'. assert (k' = k) as -> by congruence. done.
Qed.
Lemma evolves_trans e p1 p2 p3 : px_ok p1 → px_ok p2 → evolves e p1 p2 → evolves e p2 p3 → evolves e p1 p3.
Proof.
  intros Hp1 Hp2 E1 E2. destruct (ev_fresh _ _ _ E1), (ev_fresh _ _ _ E2). split.
  - by rewrite (ev_defer _ _ _ E2), (ev_defer _ _ _ E1).
  - intros f Hd Hf. apply (ev_kept _ _ _ E2); [by rewrite (ev_defer _ _ _ E1)|]. by apply (ev_kept _ _ _ E1).
  - intros f x z Hx Hz. destruct (fds p2 !! f) as [y|] eqn:Hy.
    + destruct (ev_app _ _ _ E1 _ _ _ Hx Hy) as [E' Ha1]. destruct (ev_app _ _ _ E2 _ _ _ Hy Hz) as [E Ha2].
      split; [congruence|]. destruct Ha2 as [->| ->]; [done|auto].
    + rewrite (ev_new _ _ _ E2) in Hz; [done| |done]. apply (Nat.lt_le_trans _ (m_fresh (p_mio p1))); [|lia]. apply (ok_fdfresh _ Hp1). eauto.
  - intros f Hf Hn. apply (ev_new _ _ _ E2); [lia|]. by apply (ev_new _ _ _ E1).
  - lia.
  - intros i k'' Hi Hk''. destruct (ev_conns _ _ _ E2 i k'') as (k' & Hk' & S2); [lia|done|].
    destruct (ev_conns _ _ _ E1 i k') as (k & Hk & S1); [done..|]. exists k. split; [done|]. by eapply survives_trans.
  - by rewrite (ev_conf _ _ _ E2), (ev_conf _ _ _ E1).
  - etrans; [apply (ev_in _ _ _ E2)|apply (ev_in _ _ _ E1)].
  - intros i k'' Hk'' Hs. destruct (ev_active _ _ _ E2 i k'' Hk'' Hs) as [(k' & Hk' & Hs')|(n & sid & Hn & Ha)].
    + destruct (ev_active _ _ _ E1 i k' Hk' Hs') as [?|(n & sid & Hn & Ha)]; [by left|]. right. exists n, sid. split; [done|]. rewrite Ha.
      destruct (back_step _ _ _ i Hp2 E2) as (k0 & k1 & Hk0 & Hk1 & (_ & Bk & _)); [by eexists..|]. simplify_eq.
      destruct (ok_conns _ Hp2 _ _ Hk') as (_ & Hb & _). destruct (k_bs k') as [b|]; [by rewrite (proj2 (Bk _ eq_refl))|].
      destruct Hb as [[Hb|Hb] _]; congruence.
    + right. exists n, sid. split; [|done]. destruct (ev_in _ _ _ E1) as [l0 ->]. apply elem_of_app. by right.
  - destruct (ev_out _ _ _ E1) as (l1 & O1 & R1 & W1), (ev_out _ _ _ E2) as (l2 & O2 & R2 & W2). exists (l1 ++ l2). split_and!.
    + by rewrite O2, O1, app_assoc.
    + intros sc q fd fdq kq kq'' HL Hn Hnq Hq Hsc'' Hq''.
      assert (∀ i, is_Some (p_conns p1 !! i) → is_Some (p_conns p3 !! i) → is_Some (p_conns p2 !! i)) as Hmid.
      { intros i Hi [k3 Hk3]. destruct (ev_conns _ _ _ E2 i k3) as (k2 & ? & _); [|done|by eexists].
        apply (Nat.lt_le_trans _ (p_fresh p1)); [by apply (proj1 (ok_fresh _ Hp1))|lia]. }
      destruct (Hmid q) as [kq' Hq']; [by eexists..|]. pose proof HL as (_ & k & _ & _ & Hk & _). destruct (Hmid sc) as [k' Hk']; [by eexists|done|].
      rewrite recv_of_app, sent_to_app, app_assoc. rewrite (R1 sc q fd fdq kq kq'); [|done..|by eexists|done].
      rewrite <- !app_assoc. f_equal. apply (R2 sc q); [|by apply (number_step e p1 p2 _ _ k')|by apply (number_step e p1 p2 _ _ kq')|done..].
      by apply (linked_step e p1 p2); [..|by eexists|by eexists].
    + intros q fdq k k'' Hne Hn Hk Hw Hk''.
      destruct (ev_conns _ _ _ E2 q k'') as (k' & Hk' & _); [|done|].
      { apply (Nat.lt_le_trans _ (p_fresh p1)); [apply (proj1 (ok_fresh _ Hp1)); by eexists|lia]. }
      destruct (W1 q fdq k k') as (Ew & Eo & S1); [done..|]. destruct (W2 q fdq k' k'') as (Ew' & Eo' & S2); [done|by apply (number_step e p1 p2 _ _ k')|done|by rewrite Ew|done|].
      split_and!; [congruence..|]. by rewrite sent_to_app, S1, S2.
Qed.

(** A log that leaves those that relay out. *)
Definition quiet p l : Prop := ∀ i k n, p_conns p !! i = Some k → k_state k = sock_RELAY → number p i n → silent n l.
Lemma waits_relay p q k : px_ok p → p_conns p !! q = Some k → k_wbuf k ≠ None → k_state k = sock_RELAY.
Proof.
  intros Hp Hk Hw. destruct (ok_conns _ Hp _ _ Hk) as (_ & Hb & _).
  destruct (k_bs k); [by destruct Hb as [[[_ ?]|?] _]|by destruct Hb as [_ ?]].
Qed.
Lemma quiet_out e p p' l : px_ok p → p_out p' = p_out p ++ l → quiet p l →
  (∀ i k k', p_conns p !! i = Some k → p_conns p' !! i = Some k' → k_wbuf k' = k_wbuf k ∧ k_woff k' = k_woff k) →
  ∃ l, p_out p' = p_out p ++ l ∧ relayed p p' l ∧ waits e p p' l.
Proof.
  intros Hp Ho Hq Hc. exists l. split_and!; [done|..].
  - intros sc q fd fdq kq kq' HL Hn Hnq Hk Hsc' Hk'. pose proof HL as (_ & k & kq0 & b & Hk0 & Hq0 & S1 & S2 & _).
    destruct (Hc _ _ _ Hk Hk') as [E1 E2]. assert (kq0 = kq) as -> by congruence.
    rewrite (proj1 (Hq sc k fd Hk0 S1 Hn)), (proj2 (Hq q kq fdq Hk S2 Hnq)), app_nil_r. unfold pend. by rewrite E1, E2.
  - intros q fdq k k' _ Hn Hk Hw Hk'. destruct (Hc _ _ _ Hk Hk') as [E1 E2]. split_and!; [done..|].
    apply (Hq q k fdq Hk); [by eapply waits_relay|done].
Qed.

Lemma silent_nil n : silent n [].
Proof. done. Qed.
Lemma silent_app n l l' : silent n l → silent n l' → silent n (l ++ l').
Proof. intros [R1 S1] [R2 S2]. split; [by rewrite recv_of_app, R1, R2|by rewrite sent_to_app, S1, S2]. Qed.
Lemma silent_closed n o : silent n (OClosed <$> o).
Proof. induction o as [|c o [R S]]; [done|]. by split. Qed.
Lemma quiet_nil p : quiet p [].
Proof. by intros i k n _ _ _. Qed.

Lemma removed_evolves e p ob cs p' : px_ok p → removed p ob cs p' → evolves e p p'.
Proof.
  intros Hp R. pose proof (rm_rest _ _ _ _ R) as [= E1 E2 E3 E4 E5 E6 E7 E8]. destruct (rm_same _ _ _ _ R) as (F1 & F2 & F3). split.
  - done.
  - intros f Hd [x Hx]. rewrite (rm_fds _ _ _ _ R), Hx. cbn. unfold gone_fd, closed_fd. rewrite Hd.
    destruct (f_app x) as [[| |i]|]; try by eexists. case_decide; by eexists.
  - intros f x y Hx Hy. rewrite (rm_fds _ _ _ _ R), Hx in Hy. cbn in Hy. unfold gone_fd, closed_fd in Hy.
    repeat case_match; simplify_eq/=; auto.
  - intros f _ Hn. rewrite (rm_fds _ _ _ _ R), Hn. done.
  - lia.
  - intros i k' _ Hk'. destruct (removed_conns _ _ _ _ _ _ R Hk') as [Hk _]. exists k'. split; [done|apply survives_refl].
  - done.
  - by rewrite E6.
  - intros i k' Hk' Hs. left. exists k'. by destruct (removed_conns _ _ _ _ _ _ R Hk') as [Hk _].
  - destruct (rm_out _ _ _ _ R) as [o Ho]. eapply quiet_out; [done|done| |].
    + intros i k n _ _ _. apply silent_closed.
    + intros i k k' Hk Hk'. destruct (removed_conns _ _ _ _ _ _ R Hk') as [Hk0 _]. assert (k' = k) as -> by congruence. done.
Qed.

(** *** One connection changes *)

Definition same_rest p p' : Prop :=
  (p_mio p', p_bss p', p_streams p', p_fresh p', p_conf p', p_router p', p_fd p', p_server_fd p', p_lost_router p') =
  (p_mio p, p_bss p, p_streams p, p_fresh p, p_conf p, p_router p, p_fd p, p_server_fd p, p_lost_router p).

Lemma upd_ok p p' sc k k' : px_ok p → p_conns p !! sc = Some k → p_conns p' = <[sc := k']> (p_conns p) → same_rest p p' →
  k_fd k' = k_fd k → k_bs k' = k_bs k → conn_ok p sc k' → px_ok p'.
Proof.
  intros Hp Hk Ec [= E1 E2 E3 E4 E5 E6 E7 E8 E9] Ef Eb Hok.
  assert (∀ f h, holds p' f h ↔ holds p f h) as Hh by (intros; unfold holds; by rewrite E1).
  assert (∀ i k0, conn_ok p i k0 → conn_ok p' i k0) as Hc.
  { intros i k0 ((f & ? & ?) & Hb & ?). split; [exists f; by rewrite Hh|]. rewrite E2. done. }
  split.
  - rewrite E3. apply Hp.
  - rewrite E4, E2, Ec. split; [|apply Hp]. intros i [k0 Hi]. apply (proj1 (ok_fresh _ Hp)).
    apply lookup_insert_Some in Hi as [[-> _]|[_ Hi]]; by eexists.
  - rewrite E1. apply Hp.
  - intros f x. rewrite E1. intros Hx. pose proof (ok_fds _ Hp _ _ Hx) as Hf. unfold fd_ok in *. rewrite E7, Ec.
    destruct (f_app x) as [[| |i]|]; [done..| |done]. destruct Hf as (? & ? & k0 & Hk0 & Hfd). split_and!; [done..|].
    destruct (decide (sc = i)) as [<-|Hne]; [|exists k0; by rewrite lookup_insert_ne].
    exists k'. rewrite lookup_insert_eq. split; [done|]. congruence.
  - rewrite E1. apply Hp.
  - intros i k0. rewrite Ec. intros [[<- <-]|[_ Hi]]%lookup_insert_Some; apply Hc; [done|by apply (ok_conns _ Hp)].
  - intros b bs. rewrite E2. intros Hb. destruct (ok_bss _ Hp _ _ Hb) as (? & ? & ? & Hps). unfold bs_ok. rewrite E3, Ec. split_and!; [done..|].
    intros i Hi. destruct (Hps i Hi) as (k0 & Hk0 & Eb0). destruct (decide (sc = i)) as [<-|Hne]; [|exists k0; by rewrite lookup_insert_ne].
    exists k'. rewrite lookup_insert_eq. split; [done|]. congruence.
  - rewrite E3, E2. apply Hp.
  - rewrite E7, E6. setoid_rewrite Hh. apply Hp.
  - rewrite E6, E7. apply Hp.
  - rewrite E9, E7, E6. apply Hp.
  - rewrite E8. setoid_rewrite Hh. apply Hp.
Qed.

Lemma upd_evolves e p p' sc k k' : px_ok p → p_conns p !! sc = Some k → p_conns p' = <[sc := k']> (p_conns p) → same_rest p p' →
  in_router (p_in p') = in_router (p_in p) → survives k k' → (k_state k' = sock_RELAY → k_state k = sock_RELAY) →
  (∃ l, p_out p' = p_out p ++ l ∧ relayed p p' l ∧ waits e p p' l) → evolves e p p'.
Proof.
  intros Hp Hk Ec [= E1 E2 E3 E4 E5 E6 E7 E8 E9] Ei Hs Hst Ho. split; rewrite ?E1, ?E4; try done.
  - intros f x y Hx Hy. assert (y = x) as -> by congruence. auto.
  - intros i k0 _. rewrite Ec. intros [[<- <-]|[_ Hi]]%lookup_insert_Some; eauto using survives_refl.
  - by rewrite Ei.
  - intros i k0. rewrite Ec. intros [[<- <-]|[_ Hi]]%lookup_insert_Some Hs0; left; eauto.
Qed.

(** *** One descriptor changes *)

Definition fd_set f (g : mio_fd handler → mio_fd handler) p : proxy65 := set_p_mio (upd_fd f g (p_mio p)) p.

Lemma fd_set_holds p f g i h : (∀ x, f_app (g x) = f_app x) → holds (fd_set f g p) i h ↔ holds p i h.
Proof.
  intros Ha. unfold holds. cbn. destruct (decide (f = i)) as [<-|Hne]; [|by setoid_rewrite lookup_alter_ne; [|done]].
  rewrite lookup_alter_eq. destruct (fds p !! f) as [x|]; cbn; [|naive_solver].
  split; intros (y & [= <-] & E); eexists; (split; [done|]); by rewrite ?Ha in *.
Qed.

Lemma fd_set_ok e p f x g : px_ok p → fds p !! f = Some x → (∀ x, f_app (g x) = f_app x ∧ f_fd (g x) = f_fd x) →
  fd_ok p f (g x) → (f_type (g x) ≠ type_CLOSED → f_type x ≠ type_CLOSED) → px_ok (fd_set f g p) ∧ evolves e p (fd_set f g p).
Proof.
  intros Hp Hx Hg Hok Hcl. pose proof (λ x, proj1 (Hg x)) as Ha. pose proof (λ x, proj2 (Hg x)) as Hn.
  assert (∀ i y, fds (fd_set f g p) !! i = Some y → ∃ y0, fds p !! i = Some y0 ∧ f_fd y = f_fd y0 ∧ f_app y = f_app y0 ∧
      (f_type y ≠ type_CLOSED → f_type y0 ≠ type_CLOSED)) as Hback.
  { intros i y. cbn. destruct (decide (f = i)) as [<-|Hne]; [|rewrite lookup_alter_ne by done; eauto].
    rewrite lookup_alter_eq, Hx. intros [= <-]. exists x. by rewrite Ha, Hn. }
  split.
  - split; try apply Hp.
    + intros i [y Hy]. destruct (Hback _ _ Hy) as (y0 & Hy0 & _). apply (ok_fdfresh _ Hp). by eexists.
    + intros i y. cbn. destruct (decide (f = i)) as [<-|Hne].
      * rewrite lookup_alter_eq, Hx. intros [= <-]. done.
      * rewrite lookup_alter_ne by done. apply (ok_fds _ Hp).
    + intros i j y z Hy Hz Ty Tz En. destruct (Hback _ _ Hy) as (y0 & Hy0 & Ey & _ & Cy), (Hback _ _ Hz) as (z0 & Hz0 & Ez & _ & Cz).
      apply (ok_nums _ Hp i j y0 z0); [done..|by auto|by auto|congruence].
    + intros i k Hk. destruct (ok_conns _ Hp _ _ Hk) as ((j & Ej & Hj) & Hr). split; [|done]. exists j. split; [done|]. by apply fd_set_holds.
    + split; [|apply (ok_router _ Hp)]. intros i Hi. apply fd_set_holds; [done|]. by apply (ok_router _ Hp).
    + intros i Hi. apply fd_set_holds; [done|]. by apply (ok_server _ Hp).
  - split; try done.
    + intros i Hd [y Hy]. cbn. destruct (decide (f = i)) as [<-|Hne]; [rewrite lookup_alter_eq, Hx; by eexists|rewrite lookup_alter_ne by done; by eexists].
    + intros i y z Hy Hz. destruct (Hback _ _ Hz) as (y0 & Hy0 & En & Ea & _). assert (y0 = y) as -> by congruence. auto.
    + intros i _ Hi. cbn. destruct (decide (f = i)) as [<-|Hne]; [by rewrite lookup_alter_eq, Hi|by rewrite lookup_alter_ne].
    + intros i k' _ Hk'. exists k'. split; [done|apply survives_refl].
    + intros i k' Hk' Hs. left. by exists k'.
    + eapply (quiet_out _ _ _ []); [done|by rewrite app_nil_r|apply quiet_nil|]. intros i k k' Hk Hk'. cbn in Hk'. assert (k' = k) as -> by congruence. done.
Qed.

Lemma land_normal : Z.land type_NORMAL type_CONNECT = 0%Z.
Proof. done. Qed.

(** [mio_read] on a connection's descriptor, on the router's. *)
Lemma mio_read_sock e p i k f : px_ok p → p_conns p !! i = Some k → k_fd k = Some f →
  ∃ p', _mio_read (k_fd k) p = Some p' ∧ px_ok p' ∧ evolves e p p' ∧ p_conns p' = p_conns p ∧ p_in p' = p_in p.
Proof.
  intros Hp Hk Ef. rewrite Ef. destruct (ok_conns _ Hp _ _ Hk) as ((g & Eg & (x & Hx & Ha)) & _). assert (g = f) as -> by congruence.
  pose proof (ok_fds _ Hp _ _ Hx) as Hf. unfold fd_ok in Hf. rewrite Ha in Hf. destruct Hf as (Ht & Ho & Hc).
  unfold _mio_read, get_fd. cbn [w_mio proxy_world]. rewrite Hx. cbn [mbind option_bind]. unfold connecting. rewrite Ht, land_normal. cbn [negb Z.eqb].
  destruct (fd_set_ok e p f x (with_f_in true) Hp Hx) as [? ?]; [done| |done|eexists; by split_and!].
  unfold fd_ok. cbn. rewrite Ha. done.
Qed.

(** *** Sending *)

(** No send fails right after one that took a part. *)
Fixpoint calm (l : list send_result) : Prop :=
  match l with
  | SSome _ :: SFail :: _ => False
  | _ :: l => calm l
  | [] => True
  end.
Lemma calm_tail s l : calm (s :: l) → calm l.
Proof. destruct s; cbn; [|done..]. by destruct l as [|[| |] l]. Qed.
Lemma calm_next n l : calm (SSome n :: l) → head l ≠ Some SFail.
Proof. destruct l as [|[| |] l]; cbn; congruence. Qed.

Definition sends p : list send_result := in_sends (p_in p).
Definition popped p : proxy65 := set_p_in (with_in_sends (tail (sends p)) (p_in p)) p.

Lemma sock_send_eq p sc k f x t : p_conns p !! sc = Some k → k_fd k = Some f → fds p !! f = Some x →
  sock_send p sc t = match sends p with
    | [] => Some (p, Some (-1)%Z)
    | SSome n :: _ => let n := min (max 1 n) (length t) in Some (emit (OSend (f_fd x) (take n t)) (popped p), Some (Z.of_nat n))
    | SBlock :: _ => Some (popped p, Some (-1)%Z)
    | SFail :: _ => Some (popped p, None)
    end.
Proof.
  intros Hk Hf Hx. unfold sock_send, get_conn, get_fd, popped, sends. rewrite Hk. cbn [mbind option_bind]. rewrite Hf. cbn [mbind option_bind w_mio proxy_world].
  rewrite Hx. cbn [mbind option_bind]. destruct (in_sends (p_in p)) as [|[n| |] l]; done.
Qed.

(** Only the inputs change. *)
Lemma in_ok p i : px_ok p → px_ok (set_p_in i p).
Proof. intros Hp. destruct Hp. by split. Qed.
Lemma in_evolves e p i : px_ok p → in_router i `suffix_of` in_router (p_in p) → evolves e p (set_p_in i p).
Proof.
  intros Hp Hi. split; try done; cbn; try eauto using survives_refl.
  - intros f x y Hx Hy. assert (y = x) as -> by congruence. auto.
  - apply (quiet_out e p (set_p_in i p) []); [done|by rewrite app_nil_r|apply quiet_nil|]. intros j k k' Hk Hk'. cbn in Hk'. assert (k' = k) as -> by congruence. done.
Qed.
Lemma popped_ok p : px_ok p → px_ok (popped p).
Proof. apply in_ok. Qed.
Lemma popped_evolves e p : px_ok p → evolves e p (popped p).
Proof. intros Hp. by apply in_evolves. Qed.

Lemma number_inj p i j n : px_ok p → number p i n → number p j n → i = j.
Proof.
  intros Hp (k & f & x & Hk & Hf & Hx & En) (k' & f' & x' & Hk' & Hf' & Hx' & En').
  destruct (ok_conns _ Hp _ _ Hk) as ((g & Eg & Hg) & _), (ok_conns _ Hp _ _ Hk') as ((g' & Eg' & Hg') & _).
  assert (g = f) as -> by congruence. assert (g' = f') as -> by congruence.
  assert (f = f') as <-; [|by eapply (conn_fd_inj p i j)].
  apply (ok_nums _ Hp f f' x x'); [done..|by rewrite (open_type _ _ _ Hp Hg _ Hx)|by rewrite (open_type _ _ _ Hp Hg' _ Hx')|congruence].
Qed.
Lemma number_fun p i n m : number p i n → number p i m → n = m.
Proof. intros (k & f & x & ?) (k' & f' & x' & ?). naive_solver congruence. Qed.
Lemma conn_number p sc k : px_ok p → p_conns p !! sc = Some k → ∃ f x, k_fd k = Some f ∧ fds p !! f = Some x ∧ f_app x = Some (h_sock sc) ∧ f_type x = type_NORMAL ∧ number p sc (f_fd x).
Proof.
  intros Hp Hk. destruct (ok_conns _ Hp _ _ Hk) as ((f & Ef & Hf) & _). pose proof (open_type _ _ _ Hp Hf) as Ht. destruct Hf as (x & Hx & Ha).
  exists f, x. split_and!; [done..|by apply Ht|]. exists k, f, x. done.
Qed.

(** The same connection but for what waits. *)
Definition same_but_wbuf k k' : Prop :=
  (k_fd k', k_state k', k_rbuf k', k_hash k', k_bs k') = (k_fd k, k_state k, k_rbuf k, k_hash k, k_bs k) ∧
  (∀ w, k_wbuf k' = Some w → k_woff k' < length w).
Lemma wbuf_conn_ok p sc k k' : conn_ok p sc k → k_state k = sock_RELAY → same_but_wbuf k k' → conn_ok p sc k'.
Proof.
  intros (Hf & Hb & Hw & Hl) Hs [[= E1 E2 E3 E4 E5] Hw']. unfold conn_ok. rewrite E1, E2, E3, E4, E5. split_and!; [done| |done|done].
  destruct (k_bs k); [|by destruct Hb as [[?|?] _]; congruence]. destruct Hb as [_ Hb]. split; [by right|done].
Qed.
Lemma wbuf_survives k k' : same_but_wbuf k k' → survives k k'.
Proof. intros [[= E1 E2 E3 E4 E5] _]. unfold survives. rewrite E1, E2, E4, E5. by split_and!. Qed.

Lemma sent_ok p p' sc k k' n t : px_ok p → p_conns p !! sc = Some k → k_state k = sock_RELAY → number p sc n →
  p_conns p' = <[sc := k']> (p_conns p) → same_rest p p' → in_router (p_in p') = in_router (p_in p) → p_out p' = p_out p ++ [OSend n t] →
  same_but_wbuf k k' → pend k = t ++ pend k' → px_ok p' ∧ evolves (Some sc) p p'.
Proof.
  intros Hp Hk Hs Hn Ec Hr Hi Ho Hw Hpd. pose proof (wbuf_survives _ _ Hw) as Hsv. pose proof Hw as [[= E1 E2 E3 E4 E5] _]. split.
  - eapply upd_ok; [done|done|done|done|done|done|]. eapply wbuf_conn_ok; [by apply (ok_conns _ Hp)|done..].
  - eapply upd_evolves; [done..| |]; [congruence|]. exists [OSend n t]. split_and!; [done|..].
    + intros sc0 q fd fdq kq kq' HL Hn0 Hnq Hq _ Hq'. unfold recv_of, sent_to. cbn. rewrite !app_nil_r. rewrite Ec in Hq'.
      destruct (decide (sc = q)) as [->|Hne].
      * rewrite lookup_insert_eq in Hq'. injection Hq' as <-. assert (kq = k) as -> by congruence.
        rewrite (number_fun _ _ _ _ Hn Hnq), Z.eqb_refl. done.
      * rewrite lookup_insert_ne in Hq' by done. assert (kq' = kq) as -> by congruence.
        destruct (Z.eqb_spec n fdq) as [->|]; [|done]. destruct Hne. by eapply number_inj.
    + intros q fdq kq kq' Hne Hnq Hq _ Hq'. rewrite Ec, lookup_insert_ne in Hq' by congruence. assert (kq' = kq) as -> by congruence.
      unfold sent_to. cbn. destruct (Z.eqb_spec n fdq) as [->|]; [|done]. destruct Hne. f_equal. by eapply number_inj.
Qed.

Lemma upd_conn_eq p sc k g : p_conns p !! sc = Some k → p_conns (upd_conn sc g p) = <[sc := g k]> (p_conns p).
Proof.
  intros Hk. cbn. apply map_eq. intros i. destruct (decide (sc = i)) as [<-|Hne].
  - by rewrite lookup_alter_eq, lookup_insert_eq, Hk.
  - by rewrite lookup_alter_ne, lookup_insert_ne.
Qed.

(** *** Closing and writing *)

Lemma close_ok e n p sc k : px_ok p → p_conns p !! sc = Some k →
  ∃ p', _sock_conn_close (handle (S n)) p sc = Some p' ∧ px_ok p' ∧ evolves e p p' ∧ p_conns p' !! sc = None.
Proof.
  intros Hp Hk. destruct (sock_conn_close_ok _ _ _ _ (closes_handle n) Hp Hk) as (p' & E & R). destruct (company_in _ _ _ Hp Hk) as [Hin Ht].
  exists p'. split_and!; [done|by eapply removed_ok|by eapply removed_evolves|]. by rewrite (rm_conns _ _ _ _ R), decide_True.
Qed.

(** What [action_WRITE] promises, for [n] answers of [send]. *)
Definition writes n : Prop := ∀ p sc k f d, px_ok p → p_conns p !! sc = Some k → k_state k = sock_RELAY →
  length (sends p) ≤ n → calm (sends p) →
  ∃ p', handle (S n) (h_sock sc) action_WRITE f d p = Some (0%Z, p') ∧ px_ok p' ∧ evolves (Some sc) p p' ∧
    (head (sends p) ≠ Some SFail → is_Some (p_conns p' !! sc)).

Lemma mio_write_sock n p sc k : writes n → px_ok p → p_conns p !! sc = Some k → k_state k = sock_RELAY →
  length (sends p) ≤ n → calm (sends p) →
  ∃ p', _mio_write (handle (S n)) (k_fd k) p = Some p' ∧ px_ok p' ∧ evolves (Some sc) p p' ∧
    (head (sends p) ≠ Some SFail → is_Some (p_conns p' !! sc)).
Proof.
  intros W Hp Hk Hs Hn Hc. destruct (conn_number _ _ _ Hp Hk) as (f & x & Ef & Hx & Ha & Ht & _).
  destruct (W p sc k f None Hp Hk Hs Hn Hc) as (p' & E & ?). exists p'. split; [|done]. rewrite Ef. unfold _mio_write, act, get_fd.
  cbn [w_mio proxy_world]. rewrite Hx. cbn [mbind option_bind]. unfold connecting. rewrite Ht, land_normal, Ha. cbn [negb Z.eqb mbind option_bind].
  rewrite Z.eqb_refl. cbn [negb]. rewrite E. done.
Qed.

Lemma flush_ok n p sc k : (∀ m, n = S m → writes m) → px_ok p → p_conns p !! sc = Some k → k_state k = sock_RELAY →
  length (sends p) ≤ n → calm (sends p) →
  ∃ p' r, _socks_relay_flush (handle n) p sc = Some (p', r) ∧ px_ok p' ∧ evolves (Some sc) p p' ∧ is_Some (p_conns p' !! sc) ∧
    (r = 0%Z ∨ r = (-1)%Z ∧ head (sends p) = Some SFail).
Proof.
  intros W Hp Hk Hs Hn Hc. unfold _socks_relay_flush, get_conn. rewrite Hk. cbn [mbind option_bind].
  destruct (k_wbuf k) as [w|] eqn:Ew; [|exists p, 0%Z; split_and!; eauto using evolves_refl].
  destruct (ok_conns _ Hp _ _ Hk) as (_ & _ & Hlt & _). specialize (Hlt _ Ew).
  destruct (Nat.leb_spec (length w) (k_woff k)); [lia|].
  destruct (conn_number _ _ _ Hp Hk) as (f & x & Ef & Hx & Ha & Ht & Hnum).
  rewrite (sock_send_eq _ _ _ _ _ _ Hk Ef Hx). destruct (sends p) as [|[m| |] l] eqn:Es; cbn [mbind option_bind].
  - exists p, 0%Z. split_and!; eauto using evolves_refl.
  - set (t := drop (k_woff k) w) in *. set (m' := min (max 1 m) (length t)).
    assert (1 ≤ m' ≤ length t) as Hm'. { assert (length t = length w - k_woff k) by (unfold t; by rewrite length_drop). unfold m'. lia. }
    destruct (Z.ltb_spec (Z.of_nat m') 0); [lia|]. rewrite Nat2Z.id.
    set (p1 := emit (OSend (f_fd x) (take m' t)) (popped p)).
    assert (p_conns p1 !! sc = Some k) as Hk1 by done.
    assert (length t = length w - k_woff k) as Hlt' by (unfold t; by rewrite length_drop).
    destruct (Nat.leb_spec (length w) (k_woff k + m')).
    + destruct (sent_ok p (upd_conn sc (λ k, with_k_woff 0 (with_k_wbuf None k)) p1) sc k (with_k_woff 0 (with_k_wbuf None k)) (f_fd x) (take m' t)) as [Hp2 E2]; [done..|by rewrite (upd_conn_eq _ _ _ _ Hk1)|done|done|done|by split| |].
      * unfold pend. rewrite Ew. cbn. rewrite app_nil_r. fold t. rewrite take_ge; [done|lia].
      * eexists _, 0%Z. split_and!; [done|done|done| |by left]. rewrite (upd_conn_eq _ _ _ _ Hk1), lookup_insert_eq. by eexists.
    + destruct (sent_ok p (upd_conn sc (with_k_woff (k_woff k + m')) p1) sc k (with_k_woff (k_woff k + m') k) (f_fd x) (take m' t)) as [Hp2 E2]; [done..|by rewrite (upd_conn_eq _ _ _ _ Hk1)|done|done|done| | |].
      * split; [done|]. intros w'. cbn. rewrite Ew. intros [= <-]. lia.
      * unfold pend. cbn. rewrite Ew. fold t. rewrite <- (take_drop m' t) at 1. unfold t. by rewrite drop_drop.
      * assert (p_conns (upd_conn sc (with_k_woff (k_woff k + m')) p1) !! sc = Some (with_k_woff (k_woff k + m') k)) as Hk2
          by (by rewrite (upd_conn_eq _ _ _ _ Hk1), lookup_insert_eq).
        destruct n as [|n]; [cbn in Hn; lia|].
        destruct (mio_write_sock n _ sc (with_k_woff (k_woff k + m') k) (W n eq_refl) Hp2 Hk2 Hs) as (p3 & E3 & Hp3 & Ev3 & Hsc).
        { unfold sends. cbn. rewrite Es. cbn in *. lia. }
        { unfold sends. cbn. rewrite Es. by eapply calm_tail. }
        cbn [with_k_woff k_fd] in E3. rewrite E3. cbn [mbind option_bind]. exists p3, 0%Z. split_and!; [done|done| | |by left].
        -- exact (evolves_trans _ _ _ _ Hp Hp2 E2 Ev3).
        -- apply Hsc. unfold sends. cbn. rewrite Es. by eapply calm_next.
  - cbn. exists (popped p), 0%Z. split_and!; [done|by apply popped_ok|by apply popped_evolves|by eexists|by left].
  - cbn. exists (popped p), (-1)%Z. split_and!; [done|by apply popped_ok|by apply popped_evolves|by eexists|by right].
Qed.

(** The peer of a connection. *)
Lemma socks_peer_ok p sc k : px_ok p → p_conns p !! sc = Some k → ∃ o, _socks_peer p sc = Some o ∧
  ∀ q, o = Some q → q ≠ sc ∧ ∃ kq b, p_conns p !! q = Some kq ∧ k_bs k = Some b ∧ k_bs kq = Some b.
Proof.
  intros Hp Hk. unfold _socks_peer, get_conn. rewrite Hk. cbn [mbind option_bind].
  destruct (k_bs k) as [b|] eqn:Eb; [|exists None; by split].
  destruct (ok_conns _ Hp _ _ Hk) as (_ & Hb & _). rewrite Eb in Hb. destruct Hb as (_ & bs & Hbs & _). unfold get_bs. rewrite Hbs. cbn [mbind option_bind].
  eexists. split; [done|]. destruct (ok_bss _ Hp _ _ Hbs) as (_ & _ & Hsh & Hps).
  assert (∀ q, first_peer sc (bs_peers bs) = Some q → q ≠ sc ∧ Some q ∈ bs_peers bs) as Hq.
  { intros q. unfold first_peer. destruct Hsh as (a & [(-> & _)|(c & -> & _)]); cbn; repeat case_bool_decide; intros [= <-]; (split; [done|set_solver]). }
  intros q Eq. destruct (Hq _ Eq) as [Hne Hin]. split; [done|]. destruct (Hps _ Hin) as (kq & Hkq & Ekq). by exists kq, b.
Qed.
Lemma relay_state p sc k b q kq : px_ok p → p_conns p !! sc = Some k → p_conns p !! q = Some kq → k_bs k = Some b → k_bs kq = Some b →
  k_state k = sock_RELAY → k_state kq = sock_RELAY.
Proof.
  intros Hp Hk Hq Eb Ebq Hs. destruct (ok_conns _ Hp _ _ Hk) as (_ & Hb & _), (ok_conns _ Hp _ _ Hq) as (_ & Hbq & _).
  rewrite Eb in Hb. rewrite Ebq in Hbq. destruct Hb as (_ & bs & Hbs & _ & _ & Ha), Hbq as (_ & bs' & Hbs' & _ & _ & Ha').
  assert (bs' = bs) as -> by congruence. by apply Ha', Ha.
Qed.

Lemma write_ok n : writes n.
Proof.
  induction n as [n IH] using lt_wf_ind. intros p sc k f d Hp Hk Hs Hn Hc. cbn [handle _sock_conn_mio_callback]. unfold sock_action_write. change (get_conn p sc) with (p_conns p !! sc).
  rewrite Hk. cbn [mbind option_bind]. rewrite bool_decide_true by done.
  destruct (flush_ok n p sc k) as (p' & r & E & Hp' & Ev & [k' Hk'] & Hr); [intros m ->; apply IH; lia|done..|]. rewrite E. cbn [mbind option_bind].
  destruct Hr as [-> |[-> Hf]]; cbn [Z.ltb Z.compare].
  - destruct (socks_peer_ok _ _ _ Hp' Hk') as (o & Eo & Ho). rewrite Eo. cbn [mbind option_bind]. unfold get_conn. rewrite Hk'. cbn [mbind option_bind].
    destruct o as [q|]; [|exists p'; split_and!; eauto]. destruct (k_wbuf k') as [w|] eqn:Ew; [exists p'; split_and!; eauto|].
    destruct (Ho q eq_refl) as (Hne & kq & b & Hkq & _). rewrite Hkq. cbn [mbind option_bind].
    destruct (conn_number _ _ _ Hp' Hkq) as (g & _ & Eg & _).
    destruct (mio_read_sock (Some sc) p' q kq g Hp' Hkq Eg) as (p2 & E2 & Hp2 & Ev2 & Ec & _). rewrite E2. cbn [mbind option_bind].
    exists p2. split_and!; [done|done|by eapply (evolves_trans _ p p')|]. intros _. rewrite Ec. by eexists.
  - destruct n as [|n]; [destruct (sends p); [done|cbn in Hn; lia]|].
    destruct (close_ok (Some sc) n p' sc k' Hp' Hk') as (p2 & E2 & Hp2 & Ev2 & _). rewrite E2. cbn [mbind option_bind].
    exists p2. split_and!; [done|done|by eapply (evolves_trans _ p p')|]. intros Hne. done.
Qed.

(** *** Reading while two connections relay *)

Lemma ev_weaken e p p' : evolves None p p' → evolves e p p'.
Proof.
  intros [V1 V2 V3 V4 V5 V6 V7 V8 V9 (l & Ho & Hr & Hw)]. split; try done. exists l. split_and!; [done..|].
  intros q fdq k k' _. by apply Hw.
Qed.
Lemma ev_strengthen p p' q kq : p_conns p !! q = Some kq → k_wbuf kq = None → evolves (Some q) p p' → evolves None p p'.
Proof.
  intros Hq Ew [V1 V2 V3 V4 V5 V6 V7 V8 V9 (l & Ho & Hr & Hw)]. split; try done. exists l. split_and!; [done..|].
  intros i fdq k k' _ Hn Hk Hne. apply (Hw i); [|done..]. intros [= ->]. congruence.
Qed.

(** A bytestream has two peers at most. *)
Lemma three_peers p i j l ki kj kl b : px_ok p → p_conns p !! i = Some ki → p_conns p !! j = Some kj → p_conns p !! l = Some kl →
  k_bs ki = Some b → k_bs kj = Some b → k_bs kl = Some b → i = j ∨ i = l ∨ j = l.
Proof.
  intros Hp Hi Hj Hl Bi Bj Bl.
  destruct (ok_conns _ Hp _ _ Hi) as (_ & Hbi & _), (ok_conns _ Hp _ _ Hj) as (_ & Hbj & _), (ok_conns _ Hp _ _ Hl) as (_ & Hbl & _).
  rewrite Bi in Hbi. rewrite Bj in Hbj. rewrite Bl in Hbl.
  destruct Hbi as (_ & bs & Hbs & Ii & _), Hbj as (_ & bs1 & Hbs1 & Ij & _), Hbl as (_ & bs2 & Hbs2 & Il & _).
  assert (bs1 = bs) as -> by congruence. assert (bs2 = bs) as -> by congruence.
  destruct (ok_bss _ Hp _ _ Hbs) as (_ & _ & (a & [(E & _)|(c & E & _)]) & _); rewrite E in *; set_solver.
Qed.
Lemma linked_uniq p i j q : px_ok p → linked p i q → linked p j q → i = j.
Proof.
  intros Hp (N1 & ki & kq & b & Hi & Hq & _ & _ & Bi & Bq) (N2 & kj & kq' & b' & Hj & Hq' & _ & _ & Bj & Bq').
  assert (kq' = kq) as -> by congruence. assert (b' = b) as -> by congruence.
  by destruct (three_peers p i j q ki kj kq b) as [?|[?|?]].
Qed.

(** Bytes come in and go to the peer, who had nothing waiting. *)
Lemma recv_sent_ok p p' sc q k kq kq' b fd fdq t t1 s : px_ok p → p_conns p !! sc = Some k → p_conns p !! q = Some kq → sc ≠ q →
  k_state k = sock_RELAY → k_bs k = Some b → k_bs kq = Some b → k_wbuf kq = None → number p sc fd → number p q fdq →
  p_conns p' = <[q := kq']> (p_conns p) → same_rest p p' → in_router (p_in p') = in_router (p_in p) → p_out p' = p_out p ++ ORecv fd t :: s →
  same_but_wbuf kq kq' → sent_to fdq s = t1 → (∀ m, recv_of m s = [] ∧ (m ≠ fdq → sent_to m s = [])) → t = t1 ++ pend kq' →
  px_ok p' ∧ evolves None p p'.
Proof.
  intros Hp Hk Hq Hne Hs Bk Bq Ew Hn Hnq Ec Hr Hi Ho Hw Et1 Hs' Et.
  pose proof (relay_state _ _ _ _ _ _ Hp Hk Hq Bk Bq Hs) as Hsq. pose proof (wbuf_survives _ _ Hw) as Hsv. pose proof Hw as [[= E1 E2 E3 E4 E5] _]. split.
  - eapply upd_ok; [done|exact Hq|done|done|done|done|]. eapply wbuf_conn_ok; [by apply (ok_conns _ Hp)|done..].
  - eapply upd_evolves; [done|exact Hq|done..| |]; [congruence|]. exists (ORecv fd t :: s). split_and!; [done|..].
    + intros sc0 q0 fd0 fdq0 k0 k0' HL Hn0 Hnq0 Hq0 _ Hq0'. change (ORecv fd t :: s) with ([ORecv fd t] ++ s). rewrite recv_of_app, sent_to_app.
      rewrite (proj1 (Hs' fd0)), app_nil_r. unfold recv_of, sent_to at 1. cbn. rewrite app_nil_r. rewrite Ec in Hq0'.
      destruct (decide (q = q0)) as [<-|Hqq].
      * rewrite lookup_insert_eq in Hq0'. injection Hq0' as <-. assert (k0 = kq) as -> by congruence.
        assert (sc0 = sc) as ->. { apply (linked_uniq p _ _ q); [done|done|]. split; [done|]. by exists k, kq, b. }
        rewrite (number_fun _ _ _ _ Hn Hn0), Z.eqb_refl. rewrite (number_fun _ _ _ _ Hnq0 Hnq), Et1. unfold pend at 1. by rewrite Ew.
      * rewrite lookup_insert_ne in Hq0' by done. assert (k0' = k0) as -> by congruence.
        rewrite (proj2 (Hs' fdq0)) by (intros ->; apply Hqq; by eapply number_inj).
        destruct (Z.eqb_spec fd fd0) as [<-|]; [|by rewrite app_nil_r]. assert (sc0 = sc) as -> by by eapply number_inj.
        destruct HL as (Hne0 & k1 & kq1 & b1 & Hk1 & Hq1 & _ & _ & B1 & B2). assert (k1 = k) as -> by congruence.
        assert (b1 = b) as -> by congruence. by destruct (three_peers p sc q q0 k kq kq1 b) as [?|[?|?]].
    + intros i fdi ki ki' _ Hni Hki Hwi Hki'. rewrite Ec in Hki'. destruct (decide (q = i)) as [<-|Hqi]; [congruence|].
      rewrite lookup_insert_ne in Hki' by done. assert (ki' = ki) as -> by congruence. split_and!; [done..|].
      change (ORecv fd t :: s) with ([ORecv fd t] ++ s). rewrite sent_to_app. apply (proj2 (Hs' fdi)). intros ->. apply Hqi. by eapply number_inj.
Qed.

(** The output of an operation does not matter to the tables. *)
Lemma emit_ok p o : px_ok p → px_ok (emit o p).
Proof. intros Hp. destruct Hp. by split. Qed.

(** What was read from a connection that is gone then. *)
Lemma recv_gone e p p' sc n t : px_ok p → number p sc n → evolves e (emit (ORecv n t) p) p' → p_conns p' !! sc = None → evolves e p p'.
Proof.
  intros Hp Hn [V1 V2 V3 V4 V5 V6 V7 V8 V9 (l & Ho & Hr & Hw)] Hg. split; try done. exists (ORecv n t :: l). split_and!.
  - rewrite Ho. cbn. by rewrite <- app_assoc.
  - intros sc0 q fd fdq kq kq' HL Hn0 Hnq Hq Hsc' Hq'. change (ORecv n t :: l) with ([ORecv n t] ++ l). rewrite recv_of_app, sent_to_app.
    unfold recv_of at 1, sent_to at 1. cbn. destruct (Z.eqb_spec n fd) as [<-|].
    + assert (sc0 = sc) as -> by by eapply number_inj. rewrite Hg in Hsc'. by destruct Hsc'.
    + apply (Hr sc0 q fd fdq kq kq'); done.
  - intros q fdq k k' He Hnq Hk Hwk Hk'. destruct (Hw q fdq k k') as (? & ? & ?); done.
Qed.

Lemma popped_sends p : sends (popped p) = tail (sends p).
Proof. done. Qed.
Lemma tail_length {A} (l : list A) : length (tail l) ≤ length l.
Proof. destruct l; cbn; lia. Qed.
Lemma calm_tl l : calm l → calm (tail l).
Proof. destruct l; [done|]. apply calm_tail. Qed.

Lemma relay_write_ok n p sc q k kq b fd t : px_ok p → p_conns p !! sc = Some k → p_conns p !! q = Some kq → sc ≠ q →
  k_state k = sock_RELAY → k_bs k = Some b → k_bs kq = Some b → k_wbuf kq = None → number p sc fd → t ≠ [] →
  length (sends p) ≤ n → calm (sends p) →
  ∃ p' r, _socks_relay_write (handle (S n)) (emit (ORecv fd t) p) q t = Some (p', r) ∧
    (r = 0%Z ∧ px_ok p' ∧ evolves None p p' ∨ r = (-1)%Z ∧ p' = popped (emit (ORecv fd t) p)).
Proof.
  intros Hp Hk Hq Hne Hs Bk Bq Ew Hn Ht Hl Hc. destruct (conn_number _ _ _ Hp Hq) as (f & x & Ef & Hx & _ & _ & Hnq).
  pose proof (relay_state _ _ _ _ _ _ Hp Hk Hq Bk Bq Hs) as Hsq.
  set (p1 := emit (ORecv fd t) p). assert (p_conns p1 !! q = Some kq) as Hq1 by done.
  unfold _socks_relay_write, get_conn. rewrite Hq1. cbn [mbind option_bind]. rewrite Ew.
  rewrite (sock_send_eq p1 q kq f x t Hq1 Ef Hx). change (sends p1) with (sends p).
  (* what is left waits, and is tried at once *)
  assert (∀ p2 t1 t2 s, p_conns p2 = p_conns p → same_rest p p2 → in_router (p_in p2) = in_router (p_in p) → p_out p2 = p_out p ++ ORecv fd t :: s →
    sent_to (f_fd x) s = t1 → (∀ m, recv_of m s = [] ∧ (m ≠ f_fd x → sent_to m s = [])) → t = t1 ++ t2 → t2 ≠ [] → sends p2 = tail (sends p) →
    ∃ p' r, (p ← _mio_write (handle (S n)) (k_fd kq) (upd_conn q (λ k, with_k_woff 0 (with_k_wbuf (Some t2) k)) p2); Some (p, 0%Z)) = Some (p', r) ∧
      r = 0%Z ∧ px_ok p' ∧ evolves None p p') as Hrest.
  { intros p2 t1 t2 s Ec Hr Hi Ho Es Hsm Et Ht2 Esd. assert (p_conns p2 !! q = Some kq) as Hq2 by by rewrite Ec.
    pose proof (upd_conn_eq p2 q kq (λ k, with_k_woff 0 (with_k_wbuf (Some t2) k)) Hq2) as Eu. rewrite Ec in Eu.
    destruct (recv_sent_ok p (upd_conn q (λ k, with_k_woff 0 (with_k_wbuf (Some t2) k)) p2) sc q k kq (with_k_woff 0 (with_k_wbuf (Some t2) kq)) b fd (f_fd x) t t1 s)
      as [Hp3 Ev3]; try done.
    { split; [done|]. intros w [= <-]. cbn. destruct t2; [done|cbn; lia]. }
    assert (p_conns (upd_conn q (λ k, with_k_woff 0 (with_k_wbuf (Some t2) k)) p2) !! q = Some (with_k_woff 0 (with_k_wbuf (Some t2) kq))) as Hq3
      by by rewrite Eu, lookup_insert_eq.
    assert (sends (upd_conn q (λ k, with_k_woff 0 (with_k_wbuf (Some t2) k)) p2) = tail (sends p)) as Es3 by done.
    destruct (mio_write_sock n _ q _ (write_ok n) Hp3 Hq3 Hsq) as (p4 & E4 & Hp4 & Ev4 & _).
    { rewrite Es3. pose proof (tail_length (sends p)). lia. }
    { rewrite Es3. by apply calm_tl. }
    cbn [with_k_woff with_k_wbuf k_fd] in E4. rewrite E4. cbn [mbind option_bind]. exists p4, 0%Z. split_and!; [done..|].
    apply (ev_strengthen p p4 q kq Hq Ew). apply (evolves_trans _ p _ p4 Hp Hp3); [by apply ev_weaken|done]. }
  assert (0 < length t) as Hlt by (destruct t; [done|cbn; lia]).
  destruct (sends p) as [|[m| |] l] eqn:Es; cbn [mbind option_bind].
  - change (Z.to_nat (-1)) with 0. destruct (Nat.ltb_spec 0 (length t)); [|lia]. cbn [drop].
    destruct (Hrest p1 [] t []) as (p' & r & E & ?); try done. exists p', r. auto.
  - set (m' := min (max 1 m) (length t)). rewrite Nat2Z.id. set (p2 := emit (OSend (f_fd x) (take m' t)) (popped p1)).
    assert (p_out p2 = p_out p ++ ORecv fd t :: [OSend (f_fd x) (take m' t)]) as Ho by (cbn; by rewrite <- app_assoc).
    assert (sent_to (f_fd x) [OSend (f_fd x) (take m' t)] = take m' t) as Est by (unfold sent_to; cbn; by rewrite Z.eqb_refl, app_nil_r).
    assert (∀ i, recv_of i [OSend (f_fd x) (take m' t)] = [] ∧ (i ≠ f_fd x → sent_to i [OSend (f_fd x) (take m' t)] = [])) as Hsm.
    { intros i. split; [done|]. intros Hi. unfold sent_to. cbn. by destruct (Z.eqb_spec (f_fd x) i). }
    destruct (Nat.ltb_spec m' (length t)).
    + destruct (Hrest p2 (take m' t) (drop m' t) [OSend (f_fd x) (take m' t)]) as (p' & r & E & ?); try done; [by rewrite take_drop| |by rewrite <- Es|].
      * intros Hd%(f_equal length). rewrite length_drop in Hd. cbn in Hd. lia.
      * exists p', r. auto.
    + exists p2, 0%Z. split; [done|]. left. split; [done|].
      apply (recv_sent_ok p p2 sc q k kq kq b fd (f_fd x) t (take m' t) [OSend (f_fd x) (take m' t)]); try done.
      * by rewrite insert_id.
      * split; [done|]. intros w Hw. congruence.
      * unfold pend. rewrite Ew, app_nil_r, take_ge; [done|lia].
  - change (Z.to_nat (-1)) with 0. destruct (Nat.ltb_spec 0 (length t)); [|lia]. cbn [drop].
    destruct (Hrest (popped p1) [] t []) as (p' & r & E & ?); try done; [by rewrite <- Es|].
    exists p', r. auto.
  - exists (popped p1), (-1)%Z. auto.
Qed.
End step.
