(* ===== verification/Proxy65Run.v ===== *)
(** * The proxy as a machine

    Reading, joining, requests and what the router's stream gives; the turns of
    the main loop: in every state that is reached the tables agree. *)
From S2P Require Import Prelude.
From S2P Require Import CStr.
From S2P Require Import DList.
From S2P Require Import Table.
From S2P Require Import Str.
From S2P Require Import Codec.
From S2P Require Import Jid.
From S2P Require Import Nad.
From S2P Require Import Stanza.
From S2P Require Import Datetime.
From S2P Require Import Pkt.
From S2P Require Import Config.
From S2P Require Import Mio.
From S2P Require Import Proxy65.
From S2P Require Import Proxy65Inv.
From S2P Require Import Proxy65Step.

Section run.
Context {T : Type → Type} `{TableLaws T} `{Env}.
Notation proxy65 := (proxy65 T).
Implicit Types (p : proxy65) (sc q b f : loc) (k : sock_conn) (bs : bytestream) (x y : mio_fd handler) (e : option loc).

(** ** The handshake *)

(** Nothing is said to or heard from those that relay. *)
Lemma quiet_number p sc k n l : px_ok p → p_conns p !! sc = Some k → k_state k ≠ sock_RELAY → number p sc n →
  (∀ m, m ≠ n → silent m l) → quiet p l.
Proof.
  intros Hp Hk Hs Hn Hl i ki m Hki Hsi Hm. apply Hl. intros ->. assert (i = sc) as -> by by eapply number_inj. congruence.
Qed.
Lemma silent_recv n m t : m ≠ n → silent m [ORecv n t].
Proof. intros Hne. split; [|done]. unfold recv_of. cbn. by destruct (Z.eqb_spec n m). Qed.
Lemma silent_send n m t : m ≠ n → silent m [OSend n t].
Proof. intros Hne. split; [done|]. unfold sent_to. cbn. by destruct (Z.eqb_spec n m). Qed.

(** A change to a connection that leaves its place and what waits. *)
Lemma touch_ok e p p' sc k k' l : px_ok p → p_conns p !! sc = Some k → p_conns p' = <[sc := k']> (p_conns p) → same_rest p p' →
  in_router (p_in p') = in_router (p_in p) → p_out p' = p_out p ++ l → quiet p l →
  (k_fd k', k_hash k', k_bs k', k_wbuf k', k_woff k') = (k_fd k, k_hash k, k_bs k, k_wbuf k, k_woff k) →
  (k_state k' = k_state k ∨ k_state k = sock_GREETING ∧ k_state k' = sock_REQUEST) →
  length (k_rbuf k') ≤ rbuf_size → px_ok p' ∧ evolves e p p'.
Proof.
  intros Hp Hk Ec Hr Hi Ho Hq [= E1 E2 E3 E4 E5] Hs Hl. destruct (ok_conns _ Hp _ _ Hk) as (Hf & Hb & Hw & _). split.
  - eapply upd_ok; [done..|]. unfold conn_ok. rewrite E1, E2, E3, E4, E5. split_and!; [done| |done..].
    destruct Hs as [->|[Hs ->]]; [done|]. rewrite Hs in Hb. destruct (k_bs k); [by destruct Hb as [[[? _]|?] _]|]. split; [by right|apply Hb].
  - eapply upd_evolves; [done..| | |].
    + split_and!; [done|by rewrite E2, E3|]. intros Hs'. by destruct Hs as [->|[Hs _]]; [|congruence].
    + destruct Hs as [->|[_ ->]]; done.
    + eapply quiet_out; [done..|]. intros i ki ki' Hki Hki'. rewrite Ec in Hki'. apply lookup_insert_Some in Hki' as [[<- <-]|[_ Hki']]; [|by simplify_eq].
      assert (ki = k) as -> by congruence. done.
Qed.

Lemma reply_ok p sc k l : px_ok p → p_conns p !! sc = Some k → k_state k ≠ sock_RELAY →
  ∃ p', socks_reply p sc l = Some p' ∧ px_ok p' ∧ evolves None p p' ∧ p_conns p' = p_conns p ∧ p_bss p' = p_bss p ∧ p_streams p' = p_streams p.
Proof.
  intros Hp Hk Hs. destruct (conn_number _ _ _ Hp Hk) as (f & x & Ef & Hx & _ & _ & Hn). unfold socks_reply. rewrite (sock_send_eq _ _ _ _ _ _ Hk Ef Hx).
  assert (∀ o, quiet p o → px_ok (set_p_out (p_out p ++ o) (popped p)) ∧ evolves None p (set_p_out (p_out p ++ o) (popped p))) as Hgo.
  { intros o Ho. eapply touch_ok; [done|done|cbn; by rewrite insert_id|done|done|done|done|done|by left|]. by apply (ok_conns _ Hp _ _ Hk). }
  destruct (sends p) as [|[m| |] rest] eqn:Es; cbn.
  - exists p. by split_and!; eauto using evolves_refl.
  - eexists. split; [done|]. unfold emit. match goal with |- context [[OSend ?a ?t]] => destruct (Hgo [OSend a t]) as [? ?] end.
    + eapply quiet_number; [done|done|done|done|]. intros. by apply silent_send.
    + by split_and!.
  - eexists. split; [done|]. split_and!; [by apply popped_ok|by apply popped_evolves|done..].
  - eexists. split; [done|]. split_and!; [by apply popped_ok|by apply popped_evolves|done..].
Qed.

(** ** Joining *)

(** [sc] is a new peer of [b], which is new or had one. *)
Record joins p sc k b bs p2 : Prop := {
  jn_conns : p_conns p2 = <[sc := with_k_state sock_CONNECTED (with_k_bs (Some b) (with_k_hash (bs_hash bs) k))]> (p_conns p);
  jn_bss : p_bss p2 = <[b := bs]> (p_bss p);
  jn_tab : tok (p_streams p2) ∧ tmap (p_streams p2) = <[bs_hash bs := b]> (tmap (p_streams p));
  jn_fresh : p_fresh p ≤ p_fresh p2 ∧ b < p_fresh p2;
  jn_rest : (p_mio p2, p_conf p2, p_router p2, p_fd p2, p_server_fd p2, p_lost_router p2, p_in p2, p_out p2) =
    (p_mio p, p_conf p, p_router p, p_fd p, p_server_fd p, p_lost_router p, p_in p, p_out p);
  jn_key : good_key (bs_hash bs) ∧ bs_activated bs = false;
  jn_peers : (bs_peers bs = [Some sc; None] ∧ bs_npeers bs = 1 ∧ p_bss p !! b = None ∧ tmap (p_streams p) !! bs_hash bs = None ∧ b = p_fresh p) ∨
    (∃ a bs0, bs_peers bs = [Some a; Some sc] ∧ bs_npeers bs = 2 ∧ p_bss p !! b = Some bs0 ∧ bs_hash bs0 = bs_hash bs ∧ bs_peers bs0 = [Some a; None] ∧ bs_activated bs0 = false)
}.

Lemma joins_ok p sc k b bs p2 : px_ok p → p_conns p !! sc = Some k → k_bs k = None → joins p sc k b bs p2 → px_ok p2.
Proof.
  intros Hp Hk Bk [Ec Eb (Ht & Em) Hf [= E1 E2 E3 E4 E5 E6 _ _] (Hg & Ha) Hpe].
  destruct (ok_conns _ Hp _ _ Hk) as (Hfd & Hst & Hw & Hl). rewrite Bk in Hst.
  assert (∀ f h, holds p2 f h ↔ holds p f h) as Hh by (intros; unfold holds; by rewrite E1).
  assert (∀ b' bs', p_bss p !! b' = Some bs' → b' ≠ b → bs_hash bs' ≠ bs_hash bs) as Hother.
  { intros b' bs' Hb' Hne Eh. destruct (ok_bss _ Hp _ _ Hb') as (Hm & _). rewrite Eh in Hm.
    destruct Hpe as [(_ & _ & _ & Hn & _)|(a & bs0 & _ & _ & Hb0 & Eh0 & _)]; [congruence|].
    destruct (ok_bss _ Hp _ _ Hb0) as (Hm0 & _). rewrite Eh0 in Hm0. congruence. }
  assert (∀ i, Some i ∈ bs_peers bs → i = sc ∨ ∃ ki, i ≠ sc ∧ p_conns p !! i = Some ki ∧ k_bs ki = Some b) as Hps.
  { intros i. destruct Hpe as [(-> & _)|(a & bs0 & -> & _ & Hb0 & _ & Ep & _)]; [set_solver|]. intros Hi.
    destruct (decide (i = sc)) as [->|Hne]; [by left|]. assert (i = a) as -> by set_solver. right.
    destruct (ok_bss _ Hp _ _ Hb0) as (_ & _ & _ & Hpp). destruct (Hpp a) as (ka & Hka & Eka); [rewrite Ep; by left|]. eauto. }
  split.
  - done.
  - split; [intros i [ki Hi]|intros b' [bs' Hb']].
    + rewrite Ec in Hi. apply (Nat.lt_le_trans _ (p_fresh p)); [|lia]. apply (proj1 (ok_fresh _ Hp)). apply lookup_insert_Some in Hi as [[<- _]|[_ Hi]]; by eexists.
    + rewrite Eb in Hb'. apply lookup_insert_Some in Hb' as [[<- _]|[_ Hb']]; [lia|].
      apply (Nat.lt_le_trans _ (p_fresh p)); [|lia]. apply (proj2 (ok_fresh _ Hp)). by eexists.
  - rewrite E1. apply Hp.
  - intros f x. rewrite E1. intros Hx. pose proof (ok_fds _ Hp _ _ Hx) as Hfx. unfold fd_ok in *. rewrite E4, Ec.
    destruct (f_app x) as [[| |i]|]; try done. destruct Hfx as (? & ? & ki & Hki & Ei). split_and!; [done..|].
    destruct (decide (sc = i)) as [<-|Hne]; [|exists ki; by rewrite lookup_insert_ne].
    eexists. rewrite lookup_insert_eq. split; [done|]. cbn. congruence.
  - rewrite E1. apply Hp.
  - intros i ki. rewrite Ec. intros [[<- <-]|[Hne Hki]]%lookup_insert_Some.
    + split_and!; [|split|done|done].
      * destruct Hfd as (f & ? & ?). exists f. by rewrite Hh.
      * left. split; [done|]. apply Hst.
      * exists bs. rewrite Eb, lookup_insert_eq. split_and!; [done| |done|by rewrite Ha].
        destruct Hpe as [(-> & _)|(a & bs0 & -> & _)]; set_solver.
    + destruct (ok_conns _ Hp _ _ Hki) as ((f & Ef & Hfi) & Hbi & Hwi & Hli). split_and!; [|..|done|done].
      * exists f. by rewrite Hh.
      * destruct (k_bs ki) as [b'|]; [|done]. destruct Hbi as (Hsi & bs' & Hb' & Hin & Ehi & Hai). split; [done|]. rewrite Eb.
        destruct (decide (b = b')) as [<-|Hbb]; [|exists bs'; by rewrite lookup_insert_ne].
        exists bs. rewrite lookup_insert_eq. destruct Hpe as [(_ & _ & Hn & _)|(a & bs0 & -> & _ & Hb0 & Eh0 & Ep & Ha0)]; [congruence|].
        assert (bs' = bs0) as -> by congruence. rewrite Ep in Hin. split_and!; [done|set_solver|congruence|]. by rewrite Ha, <- Ha0.
  - intros b' bs'. rewrite Eb. intros [[<- <-]|[Hne Hb']]%lookup_insert_Some.
    + split_and!; [by rewrite Em, lookup_insert_eq|done| |].
      * destruct Hpe as [(-> & -> & _)|(a & bs0 & -> & -> & Hb0 & _ & Ep & _)]; [exists sc; by left|]. exists a. right. exists sc.
        split_and!; [done..|]. intros ->. destruct (ok_bss _ Hp _ _ Hb0) as (_ & _ & _ & Hpp). destruct (Hpp sc) as (ka & Hka & Eka); [rewrite Ep; by left|]. congruence.
      * intros i Hi. rewrite Ec. destruct (Hps i Hi) as [->|(ki & Hne & Hki & Eki)]; [eexists; by rewrite lookup_insert_eq|].
        exists ki. by rewrite lookup_insert_ne.
    + destruct (ok_bss _ Hp _ _ Hb') as (Hm & Hg' & Hs' & Hpp). split_and!; [|done|done|].
      * rewrite Em, lookup_insert_ne; [done|]. apply not_eq_sym. by eapply Hother.
      * intros i Hi. destruct (Hpp i Hi) as (ki & Hki & Eki). exists ki. rewrite Ec, lookup_insert_ne; [done|]. congruence.
  - intros h b'. rewrite Em, Eb. intros [[<- <-]|[Hne Hm]]%lookup_insert_Some; [exists bs; by rewrite lookup_insert_eq|].
    destruct (ok_entry _ Hp _ _ Hm) as (bs' & Hb' & Eh). destruct (decide (b = b')) as [<-|Hbb]; [|exists bs'; by rewrite lookup_insert_ne].
    destruct Hpe as [(_ & _ & Hn & _)|(a & bs0 & _ & _ & Hb0 & Eh0 & _)]; congruence.
  - rewrite E4, E3. setoid_rewrite Hh. apply Hp.
  - rewrite E3, E4. apply Hp.
  - rewrite E6, E4, E3. apply (ok_lost _ Hp).
  - rewrite E5. setoid_rewrite Hh. apply Hp.
Qed.

Lemma joins_evolves e p sc k b bs p2 : px_ok p → p_conns p !! sc = Some k → k_bs k = None → joins p sc k b bs p2 → evolves e p p2.
Proof.
  intros Hp Hk Bk [Ec Eb (Ht & Em) Hf [= E1 E2 E3 E4 E5 E6 E7 E8] Hg Hpe].
  destruct (ok_conns _ Hp _ _ Hk) as (_ & Hst & _). rewrite Bk in Hst. split; rewrite ?E1, ?E7; try done.
  - intros f x y Hx Hy. assert (y = x) as -> by congruence. auto.
  - split; [apply Hf|done].
  - intros i ki _. rewrite Ec. intros [[<- <-]|[_ Hi]]%lookup_insert_Some; [|eauto using survives_refl].
    exists k. split; [done|]. split_and!; [done|by rewrite Bk|]. intros Hs. destruct Hst as [[?|?] _]; congruence.
  - intros i ki. rewrite Ec. intros [[<- <-]|[_ Hi]]%lookup_insert_Some Hs; [done|]. left. eauto.
  - eapply (quiet_out _ _ _ []); [done|by rewrite app_nil_r|apply quiet_nil|]. intros i ki ki' Hki Hki'. rewrite Ec in Hki'.
    apply lookup_insert_Some in Hki' as [[<- <-]|[_ Hki']]; simplify_eq; done.
Qed.

(** The hash of a request is a key. *)
Lemma lower_hex_ok c : hex_ok c = true → lower_hex c ≠ nul.
Proof.
  unfold hex_ok, lower_hex, in_range. pose proof (uchar_range c) as Hc. intros Hh E.
  assert (uchar nul = 0%Z) as En by done.
  destruct ((0x41 <=? uchar c) && (uchar c <=? 0x46))%Z eqn:Eb; apply (f_equal uchar) in E; rewrite En in E.
  - apply andb_true_iff in Eb as [?%Z.leb_le ?%Z.leb_le]. rewrite uchar_char_of in E by lia. lia.
  - rewrite E in Hh. cbn in Hh. done.
Qed.
Lemma no_nul_string_of t : no_nul (string_of t) = forallb (λ c, negb (bool_decide (c = nul))) t.
Proof. induction t as [|c t IH]; [done|]. cbn. by rewrite <- IH. Qed.
Lemma string_of_length t : String.length (string_of t) = length t.
Proof. induction t as [|c t IH]; [done|]. cbn. by rewrite <- IH. Qed.
Lemma hex_key t : _hex_is_valid t = true → good_key (string_of (lower_hex <$> t)) ∧ stake PROXY65_HASH_HEX_LEN (string_of (lower_hex <$> t)) = string_of (lower_hex <$> t).
Proof.
  unfold _hex_is_valid. intros [Hl%bool_decide_eq_true Hf]%andb_true_iff.
  assert (String.length (string_of (lower_hex <$> t)) = 40) as Hs by (by rewrite string_of_length, length_fmap).
  split; [split|].
  - rewrite no_nul_string_of. apply Is_true_true, forallb_forall. intros c Hc. apply negb_true_iff, bool_decide_eq_false. 
    apply list_elem_of_In, list_elem_of_fmap in Hc as (d & -> & Hd). apply lower_hex_ok. rewrite forallb_forall in Hf. by apply Hf, list_elem_of_In.
  - intros E. rewrite E in Hs. done.
  - apply stake_ge. rewrite Hs. done.
Qed.

(** What a request that is taken does. *)
Lemma join_request p sc k t : px_ok p → p_conns p !! sc = Some k → k_bs k = None → _hex_is_valid t = true →
  let hash := string_of (lower_hex <$> t) in
  ∃ b bs, (_stream_get_or_create p hash).2 = b ∧ get_bs (_stream_get_or_create p hash).1 b = Some bs ∧
    ((2 <=? bs_npeers bs) || bs_activated bs = true ∧ (_stream_get_or_create p hash).1 = p ∨
     (2 <=? bs_npeers bs) || bs_activated bs = false ∧ bs_hash bs = hash ∧
     joins p sc k b (with_bs_npeers (S (bs_npeers bs)) (with_bs_peers (<[bs_npeers bs := Some sc]> (bs_peers bs)) bs))
       (upd_conn sc (with_k_state sock_CONNECTED) (upd_bs b (λ bs, with_bs_npeers (S (bs_npeers bs)) (with_bs_peers (<[bs_npeers bs := Some sc]> (bs_peers bs)) bs))
         (upd_conn sc (λ k, with_k_bs (Some b) (with_k_hash (stake PROXY65_HASH_HEX_LEN hash) k)) (_stream_get_or_create p hash).1)))).
Proof.
  intros Hp Hk Bk Ht hash. destruct (hex_key t Ht) as [Hg Hst]. fold hash in Hg, Hst. unfold _stream_get_or_create, proxy65_stream_get, get_bs. rewrite !Hst.
  assert (∀ b bs' m, m !! b = Some bs' → ∀ g, alter g b m = <[b := g bs']> (m : gmap loc bytestream)) as Halt.
  { intros b bs' m Hm g. apply map_eq. intros j. destruct (decide (b = j)) as [<-|]; [by rewrite lookup_alter_eq, lookup_insert_eq, Hm|by rewrite lookup_alter_ne, lookup_insert_ne]. }
  assert (∀ p1 g1 g2, p_conns p1 = p_conns p → alter g2 sc (alter g1 sc (p_conns p1)) = <[sc := g2 (g1 k)]> (p_conns p)) as Hcc.
  { intros p1 g1 g2 ->. apply map_eq. intros j. destruct (decide (sc = j)) as [<-|]; [by rewrite !lookup_alter_eq, lookup_insert_eq, Hk|by rewrite !lookup_alter_ne, lookup_insert_ne]. }
  rewrite (tget_ok _ _ (ok_tab _ Hp) Hg). destruct (tmap (p_streams p) !! hash) as [b|] eqn:Em.
  - destruct (ok_entry _ Hp _ _ Em) as (bs & Hbs & Eh). exists b, bs. split_and!; [done|done|].
    destruct (ok_bss _ Hp _ _ Hbs) as (Hm & _ & Hsh & _). cbn [fst].
    destruct Hsh as (a & [(Epe & En & Ea)|(c & Epe & En & _)]); [|left; by rewrite En].
    right. rewrite En, Ea. split_and!; [done|done|]. split; cbn.
    + rewrite (Hcc p) by done. rewrite <- Eh. done.
    + rewrite (Halt _ bs) by done. unfold with_bs_npeers, with_bs_peers; cbn. by rewrite En.
    + rewrite Eh. split; [apply Hp|]. symmetry. by apply insert_id.
    + split; [done|]. apply (proj2 (ok_fresh _ Hp)). by eexists.
    + done.
    + rewrite Eh. done.
    + right. exists a, bs. cbn. by rewrite Epe.
  - cbn [fst snd]. eexists _, _. split_and!; [done|cbn; by rewrite lookup_insert_eq|]. right. cbn. split_and!; [done..|].
    destruct (tput_ok (p_streams p) hash (p_fresh p) (ok_tab _ Hp) (proj1 Hg)) as [Ht' Em']. split; cbn.
    + by rewrite (Hcc (set_p_fresh 0 p)).
    + rewrite (Halt _ (Bytestream hash "" [None; None] 0 false (p_now p))) by (by rewrite lookup_insert_eq). by rewrite insert_insert_eq.
    + done.
    + lia.
    + done.
    + done.
    + left. split_and!; [done..| |done|done]. destruct (p_bss p !! p_fresh p) as [bs|] eqn:E; [|done].
      assert (p_fresh p < p_fresh p) by (apply (proj2 (ok_fresh _ Hp)); by eexists). lia.
Qed.

Lemma request_ok p sc k : px_ok p → p_conns p !! sc = Some k → k_state k ≠ sock_RELAY →
  ∃ p' r, socks_request p sc = Some (p', r) ∧ px_ok p' ∧ evolves None p p' ∧ is_Some (p_conns p' !! sc).
Proof.
  intros Hp Hk Hs. destruct (ok_conns _ Hp _ _ Hk) as (_ & Hst & _ & Hl). unfold socks_request, get_conn. rewrite Hk. cbn [mbind option_bind].
  assert (∀ rep, ∃ p' r, (p ← _socks_reply_fail p sc rep; Some (p, -1)%Z) = Some (p', r) ∧ px_ok p' ∧ evolves None p p' ∧ is_Some (p_conns p' !! sc)) as Hfail.
  { intros rep. destruct (reply_ok p sc k [0x05; rep; 0x00; 0x01; 0; 0; 0; 0; 0; 0]%Z Hp Hk Hs) as (p' & E & ? & ? & Ec & _).
    unfold _socks_reply_fail. rewrite E. cbn. exists p', (-1)%Z. rewrite Ec. split_and!; [done..|by eexists]. }
  assert (∃ p' r, Some (p, 0%Z) = Some (p', r) ∧ px_ok p' ∧ evolves None p p' ∧ is_Some (p_conns p' !! sc)) as Hstay
    by (exists p, 0%Z; split_and!; [done..|apply evolves_refl|by eexists]).
  destruct (bool_decide (k_state k = sock_REQUEST)) eqn:Er; cbn [negb]; [|done]. apply bool_decide_eq_true in Er.
  assert (k_bs k = None) as Bk. { destruct (k_bs k); [destruct Hst as [[[? _]|?] _]; congruence|done]. }
  destruct (_ <? 5)%Z; [done|]. destruct (_ || _); [apply Hfail|]. destruct (negb _); [apply Hfail|]. destruct (_ <? _)%Z; [done|].
  destruct (_hex_is_valid _) eqn:Ev; cbn [negb]; [|apply Hfail].
  destruct (join_request p sc k _ Hp Hk Bk Ev) as (b & bs & Eb & Hbs & Hj). destruct (_stream_get_or_create _ _) as [p1 b1]. cbn [fst snd] in *. subst b1.
  rewrite Hbs. cbn [mbind option_bind]. destruct Hj as [[-> ->]|(-> & Eh & J)]; [apply Hfail|].
  match goal with |- context [_socks_reply_ok ?q sc] => set (p2 := q) in * end.
  pose proof (joins_ok _ _ _ _ _ _ Hp Hk Bk J) as Hp2. pose proof (joins_evolves None _ _ _ _ _ _ Hp Hk Bk J) as Ev2.
  assert (p_conns p2 !! sc = Some (with_k_state sock_CONNECTED (with_k_bs (Some b) (with_k_hash (bs_hash bs) k)))) as Hk2.
  { rewrite (jn_conns _ _ _ _ _ _ J), lookup_insert_eq. done. }
  destruct (reply_ok p2 sc _ [0x05; 0x00; 0x00; 0x01; 0; 0; 0; 0; 0; 0]%Z Hp2 Hk2) as (p3 & E3 & Hp3 & Ev3 & Ec3 & _); [done|].
  unfold _socks_reply_ok. rewrite E3. cbn [mbind option_bind]. rewrite <- Ec3 in Hk2.
  match goal with |- context [with_k_rbuf ?t] => destruct (touch_ok None p3 (upd_conn sc (with_k_rbuf t) p3) sc _
    (with_k_rbuf t (with_k_state sock_CONNECTED (with_k_bs (Some b) (with_k_hash (bs_hash bs) k)))) [] Hp3 Hk2) as [Hp4 Ev4] end; try done.
  - by rewrite (upd_conn_eq _ _ _ _ Hk2).
  - by rewrite app_nil_r.
  - by left.
  - cbn. rewrite length_drop. lia.
  - eexists _, 0%Z. split_and!; [done|done| |].
    + apply (evolves_trans _ p p2 _ Hp Hp2 Ev2). by apply (evolves_trans _ p2 p3 _ Hp2 Hp3 Ev3).
    + rewrite (upd_conn_eq _ _ _ _ Hk2), lookup_insert_eq. by eexists.
Qed.

(** A change to what was read, a reset of [last_activity]. *)
Lemma touch_upd e p sc k g : px_ok p → p_conns p !! sc = Some k →
  (k_fd (g k), k_hash (g k), k_bs (g k), k_wbuf (g k), k_woff (g k)) = (k_fd k, k_hash k, k_bs k, k_wbuf k, k_woff k) →
  (k_state (g k) = k_state k ∨ k_state k = sock_GREETING ∧ k_state (g k) = sock_REQUEST) → length (k_rbuf (g k)) ≤ rbuf_size →
  px_ok (upd_conn sc g p) ∧ evolves e p (upd_conn sc g p) ∧ p_conns (upd_conn sc g p) !! sc = Some (g k).
Proof.
  intros Hp Hk Hg Hs Hl. rewrite (upd_conn_eq _ _ _ g Hk), lookup_insert_eq.
  destruct (touch_ok e p (upd_conn sc g p) sc k (g k) [] Hp Hk) as [? ?]; try done; [by apply upd_conn_eq|by rewrite app_nil_r].
Qed.

Lemma process_ok p sc k : px_ok p → p_conns p !! sc = Some k → k_state k ≠ sock_RELAY →
  ∃ p' r, _socks_process p sc = Some (p', r) ∧ px_ok p' ∧ evolves None p p' ∧ is_Some (p_conns p' !! sc).
Proof.
  intros Hp Hk Hs. unfold _socks_process, get_conn. rewrite Hk. cbn [mbind option_bind].
  assert (∀ r, ∃ p' r', Some (p, r : Z) = Some (p', r') ∧ px_ok p' ∧ evolves None p p' ∧ is_Some (p_conns p' !! sc)) as Hstay
    by (intros r; exists p, r; split_and!; [done..|apply evolves_refl|by eexists]).
  destruct (bool_decide (k_state k = sock_GREETING)) eqn:Eg; [|by apply request_ok with k]. apply bool_decide_eq_true in Eg.
  destruct (_ <? 2)%Z; [done|]. destruct (negb _); [done|]. destruct (_ <? _)%Z; [done|]. cbv zeta.
  match goal with |- context [socks_reply p sc ?l] => destruct (reply_ok p sc k l Hp Hk Hs) as (p1 & E1 & Hp1 & Ev1 & Ec1 & _) end.
  rewrite E1. cbn [mbind option_bind]. destruct (negb _); [exists p1, (-1)%Z; rewrite Ec1; split_and!; [done..|by eexists]|].
  rewrite <- Ec1 in Hk. match goal with |- context [upd_conn sc ?g p1] => destruct (touch_upd None p1 sc k g Hp1 Hk) as (Hp2 & Ev2 & Hk2) end.
  - done.
  - by right.
  - cbn. rewrite length_drop. pose proof (ok_conns _ Hp1 _ _ Hk) as (_ & _ & _ & Hl). lia.
  - destruct (request_ok _ sc _ Hp2 Hk2) as (p3 & r & E3 & Hp3 & Ev3 & Hc3); [done|]. exists p3, r. split_and!; [done|done| |done].
    apply (evolves_trans _ p p1 _ Hp Hp1 Ev1). exact (evolves_trans _ _ _ _ Hp1 Hp2 Ev2 Ev3).
Qed.

(** ** Reading *)

Definition read_result n p sc f d : Prop :=
  ∃ p' r, handle (S n) (h_sock sc) action_READ f d p = Some (r, p') ∧ px_ok p' ∧ evolves None p p'.

(** Giving up after what the step did so far. *)
Lemma hang_up_ok n p p1 sc k : px_ok p → px_ok p1 → evolves None p p1 → p_conns p1 !! sc = Some k →
  ∃ p' r, (p ← _sock_conn_close (handle (S n)) p1 sc; Some (0%Z, p)) = Some (r, p') ∧ px_ok p' ∧ evolves None p p'.
Proof.
  intros Hp Hp1 Ev Hk. destruct (close_ok None n p1 sc k Hp1 Hk) as (p' & E & Hp' & Ev' & _). rewrite E. cbn. exists p', 0%Z.
  split_and!; [done..|]. by apply (evolves_trans _ p p1).
Qed.

Lemma sock_recv_eq p f x size : fds p !! f = Some x → sock_recv p f size =
  match in_recv (p_in p) with
  | RData t => Some (match take size t with [] => p | u => emit (ORecv (f_fd x) u) p end, RData (take size t))
  | r => Some (p, r)
  end.
Proof. intros Hx. unfold sock_recv, get_fd. cbn [w_mio proxy_world]. by rewrite Hx. Qed.

Lemma read_relay_ok n p sc k f x : px_ok p → p_conns p !! sc = Some k → k_state k = sock_RELAY → k_fd k = Some f → fds p !! f = Some x →
  number p sc (f_fd x) → length (sends p) ≤ n → calm (sends p) →
  ∃ p' r, (peer ← _socks_peer p sc;
    match peer with
    | None => Some (0%Z, p)
    | Some peer =>
      y ← get_conn p peer;
      match k_wbuf y with
      | Some _ => Some (0%Z, p)
      | None =>
        '(p, r) ← sock_recv p f PROXY65_RELAY_BUF;
        match r with
        | RBlock => Some (1%Z, p)
        | RFail | RData [] => p ← _sock_conn_close (handle (S n)) p sc; Some (0%Z, p)
        | RData t =>
          '(p, r) ← _socks_relay_write (handle (S n)) p peer t;
          if (r <? 0)%Z then p ← _sock_conn_close (handle (S n)) p sc; Some (0%Z, p) else Some (1%Z, p)
        end
      end
    end) = Some (r, p') ∧ px_ok p' ∧ evolves None p p'.
Proof.
  intros Hp Hk Hs Ef Hx Hn Hl Hc. assert (∀ r, ∃ p' r', Some (r, p) = Some (r' : Z, p') ∧ px_ok p' ∧ evolves None p p') as Hstay
    by (intros r; exists p, r; split_and!; [done..|apply evolves_refl]).
  destruct (socks_peer_ok _ _ _ Hp Hk) as (o & Eo & Ho). rewrite Eo. cbn [mbind option_bind]. destruct o as [q|]; [|done].
  destruct (Ho q eq_refl) as (Hne & kq & b & Hq & Bk & Bq). unfold get_conn. rewrite Hq. cbn [mbind option_bind].
  destruct (k_wbuf kq) as [w|] eqn:Ew; [done|]. rewrite (sock_recv_eq _ _ _ _ Hx). pose proof (evolves_refl None p) as Ev0.
  destruct (in_recv (p_in p)) as [t| |]; cbn [mbind option_bind]; [|done|by apply (hang_up_ok n p p sc k)].
  destruct (take PROXY65_RELAY_BUF t) as [|c u] eqn:Et; [by apply (hang_up_ok n p p sc k)|].
  assert (c :: u ≠ []) as Hcu by done.
  destruct (relay_write_ok n p sc q k kq b (f_fd x) (c :: u) Hp Hk Hq (not_eq_sym Hne) Hs Bk Bq Ew Hn Hcu Hl Hc)
    as (p' & r & E & [(-> & Hp' & Ev')|(-> & ->)]); rewrite E; cbn [mbind option_bind Z.ltb Z.compare].
  - by exists p', 1%Z.
  - destruct (close_ok None n (popped (emit (ORecv (f_fd x) (c :: u)) p)) sc k) as (p' & E' & Hp' & Ev' & Hgone); [by apply popped_ok, emit_ok|done|].
    rewrite E'. cbn [mbind option_bind]. exists p', 0%Z. split_and!; [done..|]. eapply recv_gone; [done..| |done].
    pose proof (emit_ok _ (ORecv (f_fd x) (c :: u)) Hp) as Hpe.
    exact (evolves_trans _ _ _ _ Hpe (popped_ok _ Hpe) (popped_evolves _ _ Hpe) Ev').
Qed.

Lemma read_ok n p sc k f d : px_ok p → p_conns p !! sc = Some k → k_fd k = Some f → length (sends p) ≤ n → calm (sends p) →
  read_result (S n) p sc f d.
Proof.
  intros Hp0 Hk0 Ef Hl Hc. unfold read_result. remember (S n) as n1 eqn:En1. cbn [handle _sock_conn_mio_callback]. subst n1. unfold sock_action_read.
  change (get_conn p sc) with (p_conns p !! sc). rewrite Hk0. cbn [mbind option_bind].
  destruct (touch_upd None p sc k (with_k_last_activity (p_now p)) Hp0 Hk0) as (Hp & Ev & Hk); [done|by left|apply (ok_conns _ Hp0 _ _ Hk0)|].
  set (p1 := upd_conn sc (with_k_last_activity (p_now p)) p) in *. set (k1 := with_k_last_activity (p_now p) k) in *.
  assert (sends p1 = sends p) as Es by done. rewrite <- Es in Hl, Hc. clearbody p1. clear Es.
  assert (∀ p' r, px_ok p' → evolves None p1 p' → ∃ p2 (r2 : Z), Some (r : Z, p') = Some (r2, p2) ∧ px_ok p2 ∧ evolves None p p2) as Hret.
  { intros p' r Hp' Ev'. exists p', r. split_and!; [done..|]. by apply (evolves_trans _ p p1). }
  assert (∀ p', px_ok p' → evolves None p1 p' → is_Some (p_conns p' !! sc) →
      ∃ p2 r2, (p ← _sock_conn_close (handle (S n)) p' sc; Some (0%Z, p)) = Some (r2, p2) ∧ px_ok p2 ∧ evolves None p p2) as Hgive.
  { intros p' Hp' Ev' [k' Hk']. apply (hang_up_ok n p p' sc k'); [done..| |done]. by apply (evolves_trans _ p p1). }
  change (get_conn p1 sc) with (p_conns p1 !! sc). rewrite Hk. cbn [mbind option_bind].
  destruct (conn_number _ _ _ Hp Hk) as (f' & x & Ef' & Hx & _ & _ & Hn). assert (f' = f) as -> by (cbn in Ef'; congruence).
  pose proof (evolves_refl None p1) as Ev0.
  destruct (bool_decide (k_state k1 = sock_RELAY)) eqn:Er.
  - apply bool_decide_eq_true in Er. destruct (read_relay_ok n p1 sc k1 f x Hp Hk Er Ef' Hx Hn Hl Hc) as (p2 & r2 & E2 & Hp2 & Ev2).
    rewrite E2. by apply Hret.
  - apply bool_decide_eq_false in Er. destruct (_ && _); [apply Hgive; [done..|by eexists]|].
    destruct (rbuf_size <=? length (k_rbuf k1)) eqn:Elen; [apply Hgive; [done..|by eexists]|]. apply Nat.leb_gt in Elen.
    rewrite (sock_recv_eq _ _ _ _ Hx).
    destruct (in_recv (p_in p1)) as [t| |]; cbn [mbind option_bind]; [|by apply Hret|apply Hgive; [done..|by eexists]].
    destruct (take _ t) as [|c u] eqn:Et; [apply Hgive; [done..|by eexists]|].
    assert (length (c :: u) ≤ rbuf_size - length (k_rbuf k1)) as Hlu by (rewrite <- Et, length_take; lia). set (t1 := c :: u) in *.
    destruct (touch_ok None p1 (upd_conn sc (λ k, with_k_rbuf (k_rbuf k ++ t1) k) (emit (ORecv (f_fd x) t1) p1)) sc k1 (with_k_rbuf (k_rbuf k1 ++ t1) k1)
      [ORecv (f_fd x) t1] Hp Hk) as [Hp2 Ev2]; try done.
    { by rewrite (upd_conn_eq _ _ k1). }
    { eapply quiet_number; [done|done|done|done|]. intros m Hm. by apply silent_recv. }
    { by left. }
    { cbn [k_rbuf with_k_rbuf]. rewrite length_app. lia. }
    destruct (process_ok (upd_conn sc (λ k, with_k_rbuf (k_rbuf k ++ t1) k) (emit (ORecv (f_fd x) t1) p1)) sc (with_k_rbuf (k_rbuf k1 ++ t1) k1)) as (p3 & r & E3 & Hp3 & Ev3 & [k3 Hk3]); [done| |done|].
    { by rewrite (upd_conn_eq _ _ k1), lookup_insert_eq. }
    rewrite E3. cbn [mbind option_bind]. pose proof (evolves_trans _ _ _ _ Hp Hp2 Ev2 Ev3) as Ev4.
    destruct (r <? 0)%Z; [apply Hgive; [done..|by eexists]|]. unfold get_conn. rewrite Hk3. cbn [mbind option_bind]. by apply Hret.
Qed.

(** ** Accepting *)

Definition new_conn p (newfd : Z) : proxy65 :=
  let g := m_fresh (p_mio p) in let sc := p_fresh p in
  set_p_fresh (S sc) (set_p_conns (<[sc := SockConn (Some g) sock_GREETING [] "" None None 0 (p_now p)]> (p_conns p))
    (set_p_mio (Mio (<[g := MioFd newfd type_NORMAL (Some (h_sock sc)) true false]> (fds p)) (S g) (m_defer_free (p_mio p))) p)).
(** A number that no open descriptor has. *)
Definition unused p (fd : Z) : Prop := ∀ g x, fds p !! g = Some x → f_type x ≠ type_CLOSED → f_fd x ≠ fd.

Lemma fresh_fd p : px_ok p → fds p !! m_fresh (p_mio p) = None.
Proof. intros Hp. destruct (fds p !! m_fresh (p_mio p)) eqn:E; [|done]. assert (m_fresh (p_mio p) < m_fresh (p_mio p)) by (apply (ok_fdfresh _ Hp); by eexists). lia. Qed.
Lemma fresh_conn p : px_ok p → p_conns p !! p_fresh p = None.
Proof. intros Hp. destruct (p_conns p !! p_fresh p) eqn:E; [|done]. assert (p_fresh p < p_fresh p) by (apply (proj1 (ok_fresh _ Hp)); by eexists). lia. Qed.

Lemma new_conn_ok p newfd : px_ok p → unused p newfd → px_ok (new_conn p newfd) ∧ evolves None p (new_conn p newfd).
Proof.
  intros Hp Hu. pose proof (fresh_fd _ Hp) as Hg. pose proof (fresh_conn _ Hp) as Hsc.
  assert (∀ f h, holds p f h → holds (new_conn p newfd) f h) as Hh.
  { intros f h (x & Hx & Ha). exists x. cbn. rewrite lookup_insert_ne; [done|]. intros <-. congruence. }
  split.
  - split; try apply Hp.
    + split; cbn.
      * intros i [ki Hi]. apply lookup_insert_Some in Hi as [[<- _]|[_ Hi]]; [lia|]. assert (i < p_fresh p) by (apply (proj1 (ok_fresh _ Hp)); by eexists). lia.
      * intros b Hb. assert (b < p_fresh p) by by apply (proj2 (ok_fresh _ Hp)). lia.
    + cbn. intros f [x Hx]. apply lookup_insert_Some in Hx as [[<- _]|[_ Hx]]; [lia|]. assert (f < m_fresh (p_mio p)) by (apply (ok_fdfresh _ Hp); by eexists). lia.
    + cbn. intros f x [[<- <-]|[_ Hx]]%lookup_insert_Some.
      * split_and!; [done..|]. eexists. cbn. by rewrite lookup_insert_eq.
      * pose proof (ok_fds _ Hp _ _ Hx) as Hf. unfold fd_ok in *. cbn. destruct (f_app x) as [[| |i]|]; try done.
        destruct Hf as (? & ? & ki & Hki & ?). split_and!; [done..|]. exists ki. rewrite lookup_insert_ne; [done|]. intros <-. congruence.
    + cbn. intros f f' x x' [[<- <-]|[_ Hx]]%lookup_insert_Some [[<- <-]|[_ Hx']]%lookup_insert_Some; cbn.
      * done.
      * intros _ Ht E. by destruct (Hu _ _ Hx').
      * intros Ht _ E. by destruct (Hu _ _ Hx).
      * by apply (ok_nums _ Hp).
    + cbn. intros i ki [[<- <-]|[_ Hi]]%lookup_insert_Some.
      * split_and!; [|by split; [left|]|done|cbn; lia]. eexists. split; [done|]. eexists. cbn. rewrite lookup_insert_eq. done.
      * destruct (ok_conns _ Hp _ _ Hi) as ((f & Ef & Hf) & Hr). split; [|done]. exists f. split; [done|]. by apply Hh.
    + cbn. intros b bs Hb. destruct (ok_bss _ Hp _ _ Hb) as (? & ? & ? & Hps). split_and!; [done..|]. intros i Hi. destruct (Hps i Hi) as (ki & Hki & Eki).
      exists ki. cbn. rewrite lookup_insert_ne; [done|]. intros <-. congruence.
    + split; [|apply (ok_router _ Hp)]. intros f Hf. apply Hh. by apply (ok_router _ Hp).
    + intros f Hf. apply Hh. by apply (ok_server _ Hp).
  - split; try done; cbn.
    + intros f _ [x Hx]. rewrite lookup_insert_ne; [by eexists|]. intros <-. congruence.
    + intros f x y Hx. rewrite lookup_insert_ne by (intros <-; congruence). intros Hy. assert (y = x) as -> by congruence. auto.
    + intros f Hf Hn. rewrite lookup_insert_ne; [done|lia].
    + lia.
    + intros i ki Hi. rewrite lookup_insert_ne by lia. eauto using survives_refl.
    + intros i ki [[<- <-]|[_ Hi]]%lookup_insert_Some Hs; [done|]. left. eauto.
    + apply (quiet_out None p (new_conn p newfd) []); [done|by rewrite app_nil_r|apply quiet_nil|]. intros i ki ki' Hki. cbn. rewrite lookup_insert_ne by (intros <-; congruence).
      intros Hki'. simplify_eq. done.
Qed.

(** Some output of no connection's. *)
Lemma note_ok e p o : (∀ m, silent m [o]) → px_ok p → px_ok (emit o p) ∧ evolves e p (emit o p).
Proof.
  intros Ho Hp. split; [by apply emit_ok|]. split; try done; cbn.
  - intros f x y Hx Hy. assert (y = x) as -> by congruence. auto.
  - eauto using survives_refl.
  - eauto.
  - apply (quiet_out e p (emit o p) [o]); [done|done|by intros i ki m _ _ _; apply Ho|]. intros i ki ki' Hki Hki'. cbn in Hki'. simplify_eq. done.
Qed.
Lemma note_closed_ok p n : px_ok p → px_ok (emit (OClosed n) p) ∧ evolves None p (emit (OClosed n) p).
Proof. by apply note_ok. Qed.

(** A location of a descriptor that is not used after all. *)
Definition skip_fd p : proxy65 := set_p_mio (Mio (fds p) (S (m_fresh (p_mio p))) (m_defer_free (p_mio p))) p.
Lemma skip_ok p : px_ok p → px_ok (skip_fd p) ∧ evolves None p (skip_fd p).
Proof.
  intros Hp. split.
  - destruct Hp as [O1 O2 O3 O4 O5 O6 O7 O8 O9 O10 O11 O12]. split; try done. intros f Hf. cbn. specialize (O3 f Hf). lia.
  - split; try done; cbn.
    + intros f x y Hx Hy. assert (y = x) as -> by congruence. auto.
    + lia.
    + eauto using survives_refl.
    + eauto.
    + apply (quiet_out None p (skip_fd p) []); [done|by rewrite app_nil_r|apply quiet_nil|]. intros i ki ki' Hki Hki'. cbn in Hki'. simplify_eq. done.
Qed.
Lemma unused_new p (m : mio_fd handler) : px_ok p → delete (m_fresh (p_mio p)) (<[m_fresh (p_mio p) := m]> (fds p)) = fds p.
Proof. intros Hp. rewrite delete_insert_eq, delete_id; [done|]. by apply fresh_fd. Qed.
Lemma alter_new {A} (g : A → A) (i : loc) (x : A) (m : gmap loc A) : alter g i (<[i := x]> m) = <[i := g x]> m.
Proof. apply map_eq. intros j. destruct (decide (i = j)) as [<-|Hne]; [by rewrite lookup_alter_eq, !lookup_insert_eq|by rewrite lookup_alter_ne, !lookup_insert_ne]. Qed.

Lemma client_accept_ok p f r : px_ok p → holds p f h_listen → (∀ fd nb ip, r = Some (fd, nb, ip) → unused p fd) →
  ∃ p', _mio_accept call f r p = Some p' ∧ px_ok p' ∧ evolves None p p'.
Proof.
  intros Hp (x & Hx & Ha) Hu. unfold _mio_accept. destruct r as [[[newfd nb] ip]|]; [|exists p; split_and!; [done..|apply evolves_refl]].
  specialize (Hu _ _ _ eq_refl). unfold get_fd. cbn [w_mio proxy_world]. rewrite Hx. cbn [mbind option_bind]. rewrite Ha. cbn [mbind option_bind].
  unfold _mio_setup_fd, _mio_alloc_fd, upd_fd. cbn [m_fds m_fresh m_defer_free]. rewrite alter_new.
  destruct nb; cbn.
  - unfold act, get_fd. cbn. rewrite lookup_insert_eq. cbn. unfold call, calls. cbn [Nat.add handle proxy65_socks_mio_callback]. unfold _mio_app, _mio_read, get_fd. cbn. rewrite lookup_insert_eq. cbn.
    rewrite alter_new, lookup_insert_eq. cbn. match goal with |- context [connecting ?y] => change (connecting y) with false end.
    unfold upd_mio, upd_fd. cbn. rewrite !alter_new. eexists. split; [done|].
    exact (new_conn_ok p newfd Hp Hu).
  - unfold free_fd. cbn. rewrite unused_new by done. eexists. split; [done|]. destruct (skip_ok _ Hp) as [Hp1 Ev1].
    destruct (note_closed_ok (skip_fd p) newfd Hp1) as [Hp2 Ev2]. split; [done|]. exact (evolves_trans _ _ _ _ Hp Hp1 Ev1 Ev2).
Qed.

(** ** Requests *)

(** Two peers begin to relay. *)
Definition relaying (k : sock_conn) : sock_conn := with_k_state sock_RELAY k.
Lemma activated_ok p p' a c ka kc b bs bs' : px_ok p → p_conns p !! a = Some ka → p_conns p !! c = Some kc → p_bss p !! b = Some bs →
  bs_peers bs = [Some a; Some c] → bs_npeers bs = 2 → a ≠ c →
  p_conns p' = <[c := relaying kc]> (<[a := relaying ka]> (p_conns p)) → p_bss p' = <[b := bs']> (p_bss p) →
  (bs_hash bs', bs_peers bs', bs_npeers bs', bs_activated bs') = (bs_hash bs, bs_peers bs, bs_npeers bs, true) →
  (p_mio p', p_streams p', p_fresh p', p_conf p', p_router p', p_fd p', p_server_fd p', p_lost_router p') =
  (p_mio p, p_streams p, p_fresh p, p_conf p, p_router p, p_fd p, p_server_fd p, p_lost_router p) → px_ok p'.
Proof.
  intros Hp Ha Hc Hb Ep En Hne Ec Eb [= B1 B2 B3 B4] [= E1 E3 E4 E5 E6 E7 E8 E9].
  assert (∀ f h, holds p' f h ↔ holds p f h) as Hh by (intros; unfold holds; by rewrite E1).
  destruct (ok_bss _ Hp _ _ Hb) as (Hm & Hg & Hsh & Hps).
  assert (∀ i ki', p_conns p' !! i = Some ki' → ∃ ki, p_conns p !! i = Some ki ∧
    (k_fd ki', k_hash ki', k_bs ki', k_wbuf ki', k_woff ki', k_rbuf ki') = (k_fd ki, k_hash ki, k_bs ki, k_wbuf ki, k_woff ki, k_rbuf ki) ∧
    (Some i ∈ bs_peers bs → k_state ki' = sock_RELAY) ∧ (Some i ∉ bs_peers bs → k_state ki' = k_state ki)) as Hback.
  { intros i ki'. rewrite Ec, Ep. intros [[<- <-]|[N1 [[<- <-]|[N2 Hi]]%lookup_insert_Some]]%lookup_insert_Some.
    - exists kc. split_and!; [done..|set_solver].
    - exists ka. split_and!; [done..|set_solver].
    - exists ki'. split_and!; [done..|set_solver|done]. }
  assert (∀ i ki, p_conns p !! i = Some ki → ∃ ki', p_conns p' !! i = Some ki' ∧ k_fd ki' = k_fd ki ∧ k_bs ki' = k_bs ki) as Hforth.
  { intros i ki Hi. rewrite Ec. destruct (decide (c = i)) as [<-|N1]; [exists (relaying kc); rewrite lookup_insert_eq; by simplify_eq|].
    rewrite lookup_insert_ne by done. destruct (decide (a = i)) as [<-|N2]; [exists (relaying ka); rewrite lookup_insert_eq; by simplify_eq|].
    rewrite lookup_insert_ne by done. eauto. }
  split.
  - rewrite E3. apply Hp.
  - rewrite E4. split.
    + intros i [ki Hi]. destruct (Hback _ _ Hi) as (ki0 & ? & _). apply (proj1 (ok_fresh _ Hp)). by eexists.
    + rewrite Eb. intros b' [? [[<- _]|[_ ?]]%lookup_insert_Some]; apply (proj2 (ok_fresh _ Hp)); by eexists.
  - rewrite E1. apply Hp.
  - intros f x. rewrite E1. intros Hx. pose proof (ok_fds _ Hp _ _ Hx) as Hf. unfold fd_ok in *. rewrite E7. destruct (f_app x) as [[| |i]|]; try done.
    destruct Hf as (? & ? & ki & Hi & Ei). destruct (Hforth _ _ Hi) as (ki' & ? & E & _). split_and!; [done..|]. exists ki'. by rewrite E.
  - rewrite E1. apply Hp.
  - intros i ki' Hi. destruct (Hback _ _ Hi) as (ki & Hki & [= F1 F2 F3 F4 F5 F6] & Hin & Hout).
    destruct (ok_conns _ Hp _ _ Hki) as ((f & Ef & Hf) & Hbi & Hw & Hl). unfold conn_ok. rewrite F1, F2, F3, F4, F5, F6. split_and!; [|..|done|done].
    { exists f. by rewrite Hh. }
    destruct (k_bs ki) as [b'|] eqn:Ebi.
    + destruct Hbi as (Hs & bs1 & Hb1 & Hin1 & Eh1 & Ha1). destruct (decide (b = b')) as [<-|Hbb].
      * assert (bs1 = bs) as -> by congruence. rewrite Hin by done. split; [by right|]. exists bs'. rewrite Eb, lookup_insert_eq. split_and!; [done|by rewrite B2|congruence|by rewrite B4].
      * rewrite Hout. { split; [done|]. exists bs1. by rewrite Eb, lookup_insert_ne. }
        intros Hin2. destruct (Hps i Hin2) as (k2 & Hk2 & Ek2). congruence.
    + rewrite Hout; [done|]. intros Hin2. destruct (Hps i Hin2) as (k2 & Hk2 & Ek2). congruence.
  - intros b' bs1. rewrite Eb. intros [[<- <-]|[Hbb Hb1]]%lookup_insert_Some.
    + unfold bs_ok. rewrite B1, B2, B3, E3, Ep, En. split_and!; [done..|exists a; right; by exists c|]. intros i Hi. rewrite <- Ep in Hi.
      destruct (Hps i Hi) as (ki & Hki & Eki). destruct (Hforth _ _ Hki) as (ki' & ? & _ & E). exists ki'. by rewrite E.
    + destruct (ok_bss _ Hp _ _ Hb1) as (? & ? & ? & Hps1). unfold bs_ok. rewrite E3. split_and!; [done..|]. intros i Hi.
      destruct (Hps1 i Hi) as (ki & Hki & Eki). destruct (Hforth _ _ Hki) as (ki' & ? & _ & E). exists ki'. by rewrite E.
  - intros h b'. rewrite E3, Eb. intros Hm'. destruct (ok_entry _ Hp _ _ Hm') as (bs1 & Hb1 & Eh). destruct (decide (b = b')) as [<-|Hbb].
    + exists bs'. rewrite lookup_insert_eq. split; [done|]. congruence.
    + exists bs1. by rewrite lookup_insert_ne.
  - rewrite E7, E6. setoid_rewrite Hh. apply Hp.
  - rewrite E6, E7. apply Hp.
  - rewrite E9, E7, E6. apply Hp.
  - rewrite E8. setoid_rewrite Hh. apply Hp.
Qed.
End run.
