(* ===== verification/Proxy65Loop.v ===== *)
(** * The proxy's requests, its router and the main loop

    A request that is answered, the events of the router's stream, the results
    of mio and the turns of the main loop keep [px_ok]; [proxy_run]. *)
From S2P Require Import Prelude.
From S2P Require Import CStr.
From S2P Require Import DList.
From S2P Require Import Table.
From S2P Require Import Str.
From S2P Require Import Codec.
From S2P Require Import Jid.
From S2P Require Import Nad.
From S2P Require Import Stanza.
From S2P Require Import Datetime.
From S2P Require Import Pkt.
From S2P Require Import Config.
From S2P Require Import Mio.
From S2P Require Import Proxy65.
From S2P Require Import Proxy65Inv.
From S2P Require Import Proxy65Step.
From S2P Require Import Proxy65Run.

Section loop.
Context {T : Type → Type} `{TableLaws T} `{Env}.
Notation proxy65 := (proxy65 T).
Implicit Types (p : proxy65) (sc q b f : loc) (k : sock_conn) (bs : bytestream) (x y : mio_fd handler) (e : option loc).

(** ** Requests *)

Lemma mio_read_sock_eq p i f : px_ok p → holds p f (h_sock i) → _mio_read (Some f) p = Some (fd_set f (with_f_in true) p).
Proof.
  intros Hp Hf. pose proof (open_type _ _ _ Hp Hf) as Ht. destruct Hf as (x & Hx & _). unfold _mio_read, get_fd. cbn [w_mio proxy_world].
  rewrite Hx. cbn [mbind option_bind]. unfold connecting. by rewrite (Ht _ Hx).
Qed.
Lemma fd_in_ok e p i f : px_ok p → holds p f (h_sock i) → px_ok (fd_set f (with_f_in true) p) ∧ evolves e p (fd_set f (with_f_in true) p).
Proof.
  intros Hp (x & Hx & Ha). eapply fd_set_ok; [done|exact Hx|done| |done]. pose proof (ok_fds _ Hp _ _ Hx) as Hf. unfold fd_ok in *. cbn. by rewrite Ha in *.
Qed.

(** The state after an activation, but for what is wanted of mio. *)
Definition activated p b (sid : string) (a c : loc) : proxy65 :=
  upd_conn c relaying (upd_conn a relaying (upd_bs b (λ bs, with_bs_sid (stake 255 sid) (with_bs_activated true bs)) (upd_bs b (with_bs_sid (stake 255 sid)) p))).

(** What an event of the router's stream leads to, from the state before it was taken. *)
Record led p0 p1 p2 : Prop := {
  ld_ok : px_ok p2;
  ld_ev : evolves None p0 p2;
  ld_server : p_server_fd p2 = p_server_fd p1 ∧ p_fd p2 = p_fd p1;
  ld_in : in_listen (p_in p2) = in_listen (p_in p1) ∧ in_router (p_in p2) `suffix_of` in_router (p_in p1) ∧ sends p2 = sends p1;
  ld_unused fd : unused p1 fd → unused p2 fd
}.
Definition taken (l : list router_event) p : proxy65 := set_p_in (with_in_router l (p_in p)) p.

Lemma unused_set p f g fd : (∀ x, f_fd (g x) = f_fd x ∧ (f_type (g x) ≠ type_CLOSED → f_type x ≠ type_CLOSED)) → unused p fd → unused (fd_set f g p) fd.
Proof.
  intros Hg Hu i y. cbn. destruct (decide (f = i)) as [<-|Hne]; [|rewrite lookup_alter_ne by done; apply Hu].
  rewrite lookup_alter_eq. destruct (fds p !! f) as [x|] eqn:Hx; [|done]. cbn. intros [= <-] Ht. destruct (Hg x) as [-> Hc]. by apply (Hu f x); [|apply Hc].
Qed.

Lemma led_refl p0 p1 : px_ok p1 → evolves None p0 p1 → led p0 p1 p1.
Proof. by split. Qed.
Lemma led_step p0 p1 p2 p3 : px_ok p0 → led p0 p1 p2 → px_ok p3 → evolves None p2 p3 → p_server_fd p3 = p_server_fd p2 → p_fd p3 = p_fd p2 → p_in p3 = p_in p2 →
  (∀ fd, unused p2 fd → unused p3 fd) → led p0 p1 p3.
Proof.
  intros Hp0 [L1 L2 [L3 L3'] L4 L5] Hp3 Ev E E' Ei Hu. split; [done| |by rewrite E, E'|unfold sends; by rewrite Ei|auto]. by apply (evolves_trans _ p0 p2).
Qed.
Lemma led_note p0 p1 p2 o : px_ok p0 → (∀ m, silent m [o]) → led p0 p1 p2 → led p0 p1 (emit o p2).
Proof. intros Hp0 Ho L. destruct (note_ok None p2 o Ho (ld_ok _ _ _ L)). by eapply led_step. Qed.

Lemma taken_led (ev : router_event) l p0 : px_ok p0 → in_router (p_in p0) = ev :: l → led p0 (taken l p0) (taken l p0).
Proof. intros Hp E. apply led_refl; [by apply in_ok|]. apply in_evolves; [done|]. rewrite E. by exists [ev]. Qed.

Definition on_stream p : Prop := ∃ st, p_router p = RStream st.
Lemma write_led p0 p1 p2 n : px_ok p0 → on_stream p2 → led p0 p1 p2 → ∃ p', router_write p2 n = Some p' ∧ led p0 p1 p' ∧ p_router p' = p_router p2.
Proof.
  intros Hp0 [st Hst] L. unfold router_write. rewrite Hst. cbn. eexists. split_and!; [done| |done]. by apply led_note.
Qed.
Lemma error_some n err : (stanza_err_BAD_REQUEST <= err < stanza_err_LAST)%Z → ∃ n', stanza_error n 1 err = Some n'.
Proof.
  intros [L1 L2]. unfold stanza_error. rewrite (proj2 (Z.leb_le _ _) L1), (proj2 (Z.ltb_lt _ _) L2). cbn [andb].
  change (0 <=? 1)%Z with true. cbn [andb]. destruct (nad_insert_elem _ _ _ _ _) as [n1 e1]. by eexists.
Qed.
Lemma error_led p0 p1 p2 n err : px_ok p0 → on_stream p2 → (stanza_err_BAD_REQUEST <= err < stanza_err_LAST)%Z → led p0 p1 p2 →
  ∃ p', proxy65_route_error p2 n err = Some p' ∧ led p0 p1 p' ∧ p_router p' = p_router p2.
Proof. intros Hp0 Hs He L. unfold proxy65_route_error. destruct (error_some n err He) as [n' ->]. cbn [mbind option_bind]. by apply write_led. Qed.

(** *** Activating *)

Lemma activate_hash_total req : ∃ r, activate_hash req = Some r.
Proof.
  assert (∀ j, ∃ s, (jid_full j).2 = Some s) as Hj.
  { intros j. unfold jid_full, jid_expand. cbn [snd]. destruct (negb (jid_dirty j) && bool_decide (is_Some (jid__full j))) eqn:E; [|destruct (bool_decide (jid_domain j = "")); by eexists].
    apply andb_true_iff in E as [_ [s Hs]%bool_decide_eq_true]. by exists s. }
  unfold activate_hash. destruct (_ <? 0)%Z; [by eexists|]. destruct (attr_of _ _ _); [|by eexists]. destruct (_ || _); [by eexists|].
  destruct (attr_of _ _ _); [|by eexists]. destruct (jid_new _ _ _ _ _) as [j1|]; [|by eexists]. destruct (jid_new _ _ _ _ _) as [j2|]; [|by eexists].
  destruct (Hj j1) as [s1 ->], (Hj j2) as [s2 ->]. cbn. by eexists.
Qed.
Lemma activate_hash_err req err : activate_hash req = Some (inl err) → (stanza_err_BAD_REQUEST <= err < stanza_err_LAST)%Z.
Proof.
  unfold activate_hash, mbind, option_bind. intros E. repeat (case_match; try discriminate); simplify_eq; done.
Qed.
Lemma activate_hash_key req sid hash : activate_hash req = Some (inr (sid, hash)) → no_nul hash.
Proof.
  unfold activate_hash, mbind, option_bind. intros E. repeat (case_match; try discriminate); simplify_eq. apply no_nul_stake, hex_no_nul.
Qed.

(** The bytestream that a request names is under the hash it gives. *)
Lemma named_bs p req sid hash b : px_ok p → activate_hash req = Some (inr (sid, hash)) → proxy65_stream_get p hash = Some b →
  ∃ bs, p_bss p !! b = Some bs ∧ bs_ok p b bs ∧ bs_hash bs = hash.
Proof.
  intros Hp Ha Hg. assert (good_key hash) as Hk.
  { split; [by eapply activate_hash_key|]. intros ->. unfold proxy65_stream_get in Hg. by rewrite tget_empty in Hg. }
  unfold proxy65_stream_get in Hg. rewrite (tget_ok _ _ (ok_tab _ Hp) Hk) in Hg. destruct (ok_entry _ Hp _ _ Hg) as (bs & Hbs & Eh).
  exists bs. split_and!; [done|by apply (ok_bss _ Hp)|done].
Qed.

Lemma mio_read_raw p f x : fds p !! f = Some x → f_type x = type_NORMAL → _mio_read (Some f) p = Some (fd_set f (with_f_in true) p).
Proof. intros Hx Ht. unfold _mio_read, get_fd. cbn [w_mio proxy_world]. rewrite Hx. cbn [mbind option_bind]. unfold connecting. by rewrite Ht. Qed.

Lemma alter_insert {A} (g : A → A) (i : loc) (x : A) (m : gmap loc A) : m !! i = Some x → alter g i m = <[i := g x]> m.
Proof.
  intros Hx. apply map_eq. intros j. destruct (decide (i = j)) as [<-|Hne]; [by rewrite lookup_alter_eq, lookup_insert_eq, Hx|by rewrite lookup_alter_ne, lookup_insert_ne].
Qed.

(** Both ends are told to relay. *)
Lemma socks_activate_eq p hash sid b bs a c ka kc fa fc xa xc : proxy65_stream_get p hash = Some b → p_bss p !! b = Some bs → bs_npeers bs = 2 →
  bs_peers bs = [Some a; Some c] → a ≠ c → p_conns p !! a = Some ka → p_conns p !! c = Some kc → k_fd ka = Some fa → k_fd kc = Some fc → fa ≠ fc →
  fds p !! fa = Some xa → f_type xa = type_NORMAL → fds p !! fc = Some xc → f_type xc = type_NORMAL →
  proxy65_socks_activate (upd_bs b (with_bs_sid (stake 255 sid)) p) hash sid =
    Some (fd_set fc (with_f_in true) (fd_set fa (with_f_in true) (activated p b sid a c))).
Proof.
  intros Hg Hb En Ep Hac Ha Hc Efa Efc Hf Hxa Hta Hxc Htc. unfold proxy65_socks_activate.
  change (proxy65_stream_get (upd_bs b (with_bs_sid (stake 255 sid)) p) hash) with (proxy65_stream_get p hash). rewrite Hg.
  unfold get_bs. cbn [p_bss upd_bs set_p_bss]. rewrite lookup_alter_eq, Hb. cbn [fmap option_fmap option_map mbind option_bind with_bs_sid bs_npeers bs_peers].
  rewrite En, Ep. cbn [Nat.ltb Nat.leb]. rewrite fold_two. unfold relay_peer, get_conn. cbn [p_conns upd_bs set_p_bss]. rewrite Ha. cbn [mbind option_bind]. rewrite Efa.
  rewrite (mio_read_raw _ fa xa) by done. cbn [mbind option_bind]. unfold get_conn. cbn [p_conns fd_set set_p_mio upd_conn set_p_conns upd_bs set_p_bss].
  rewrite lookup_alter_ne, Hc by done. cbn [mbind option_bind]. rewrite Efc.
  rewrite (mio_read_raw _ fc xc); [done| |done]. cbn. by rewrite lookup_alter_ne.
Qed.

Lemma activated_evolves p0 l req sid b bs a c ka kc : let p1 := taken l p0 in px_ok p0 → in_router (p_in p0) = RevPacket req :: l →
  activate_hash req = Some (inr (sid, bs_hash bs)) → p_bss p0 !! b = Some bs → bs_peers bs = [Some a; Some c] → a ≠ c →
  p_conns p0 !! a = Some ka → p_conns p0 !! c = Some kc → k_bs ka = Some b → k_bs kc = Some b →
  evolves None p0 (activated p1 b sid a c).
Proof.
  intros p1 Hp E Eh Hb Ep Hac Ha Hc Ba Bc.
  assert (p_conns (activated p1 b sid a c) = <[c := relaying kc]> (<[a := relaying ka]> (p_conns p0))) as Ec.
  { cbn. rewrite (alter_insert _ a ka) by done. apply alter_insert. by rewrite lookup_insert_ne. }
  assert (k_hash ka = bs_hash bs ∧ k_hash kc = bs_hash bs) as [Ea Ek].
  { destruct (ok_conns _ Hp _ _ Ha) as (_ & Hba & _), (ok_conns _ Hp _ _ Hc) as (_ & Hbc & _). rewrite Ba in Hba. rewrite Bc in Hbc.
    destruct Hba as (_ & bs1 & Hb1 & _ & E1 & _), Hbc as (_ & bs2 & Hb2 & _ & E2 & _). split; congruence. }
  split; rewrite ?Ec; try done.
  - intros f x y Hx Hy. cbn in Hy. assert (y = x) as -> by congruence. auto.
  - intros i ki _. intros [[<- <-]|[N1 [[<- <-]|[N2 Hi]]%lookup_insert_Some]]%lookup_insert_Some; [exists kc|exists ka|exists ki]; (split; [done|]); by split_and!.
  - cbn. rewrite E. by exists [RevPacket req].
  - intros i ki. intros [[<- <-]|[N1 [[<- <-]|[N2 Hi]]%lookup_insert_Some]]%lookup_insert_Some Hs; [right|right|left; by exists ki];
      exists req, sid; rewrite E; (split; [by left|]); cbn; by rewrite ?Ea, ?Ek.
  - apply (quiet_out None p0 (activated p1 b sid a c) []); [done|by rewrite app_nil_r|apply quiet_nil|]. intros i ki ki' Hki. rewrite Ec.
    intros [[<- <-]|[N1 [[<- <-]|[N2 Hi]]%lookup_insert_Some]]%lookup_insert_Some; simplify_eq; done.
Qed.

Lemma activated_holds p b sid a c f h : holds (activated p b sid a c) f h ↔ holds p f h.
Proof. done. Qed.

Lemma activate_led p0 l req : px_ok p0 → in_router (p_in p0) = RevPacket req :: l → on_stream p0 →
  ∃ p', _iq_bytestreams_activate (taken l p0) req = Some p' ∧ led p0 (taken l p0) p' ∧ p_router p' = p_router p0.
Proof.
  intros Hp E Hst. pose proof (taken_led _ _ _ Hp E) as L. pose proof (ld_ok _ _ _ L) as Hp1. assert (on_stream (taken l p0)) as Hst1 by exact Hst. set (p1 := taken l p0) in *.
  unfold _iq_bytestreams_activate. destruct (activate_hash_total req) as [r Er]. rewrite Er. cbn [mbind option_bind].
  destruct r as [err|[sid hash]]; [apply (error_led p0 p1 p1); [done|done|by eapply activate_hash_err|done]|].
  destruct (proxy65_stream_get p1 hash) as [b|] eqn:Eg; [|by apply (error_led p0 p1 p1)].
  destruct (named_bs _ _ _ _ _ Hp1 Er Eg) as (bs & Hb & Hok & Eh). unfold get_bs. rewrite Hb. cbn [mbind option_bind].
  pose proof Hok as (_ & _ & (a & [(_ & En & _)|(c & Ep & En & Hac)]) & Hps); rewrite En; cbn [Nat.ltb Nat.leb]; [by apply (error_led p0 p1 p1)|].
  destruct (Hps a) as (ka & Ha & Ba); [rewrite Ep; by left|]. destruct (Hps c) as (kc & Hc & Bc); [rewrite Ep; right; by left|].
  destruct (conn_number _ _ _ Hp1 Ha) as (fa & xa & Efa & Hxa & Aa & Ta & _), (conn_number _ _ _ Hp1 Hc) as (fc & xc & Efc & Hxc & Ac & Tc & _).
  assert (fa ≠ fc) as Hf by (intros ->; apply Hac; by eapply (conn_fd_inj p1)).
  rewrite (socks_activate_eq p1 hash sid b bs a c ka kc fa fc xa xc) by done. cbn [mbind option_bind].
  assert (led p0 p1 (activated p1 b sid a c)) as L2.
  { split; [|subst hash; by eapply activated_evolves|done|by split_and!|done].
    eapply (activated_ok p1 _ a c ka kc b bs); try done; cbn.
    - rewrite (alter_insert _ a ka) by done. apply alter_insert. by rewrite lookup_insert_ne.
    - rewrite (alter_insert (with_bs_sid (stake 255 sid)) b bs) by done. rewrite alter_new. done.
    - done. }
  destruct (fd_in_ok None (activated p1 b sid a c) a fa) as [Hp3 Ev3]; [apply L2|by exists xa|].
  assert (led p0 p1 (fd_set fa (with_f_in true) (activated p1 b sid a c))) as L3 by (eapply led_step; [done|exact L2|done..|]; intros; by apply unused_set).
  destruct (fd_in_ok None (fd_set fa (with_f_in true) (activated p1 b sid a c)) c fc) as [Hp4 Ev4]; [done|apply fd_set_holds; [done|by exists xc]|].
  destruct (write_led p0 p1 (fd_set fc (with_f_in true) (fd_set fa (with_f_in true) (activated p1 b sid a c)))
    (_iq_result_skel (fd_set fc (with_f_in true) (fd_set fa (with_f_in true) (activated p1 b sid a c))) req)) as (p' & E' & L' & Er'); [done|done| |by exists p'].
  eapply led_step; [done|exact L3|done..|]. intros. by apply unused_set.
Qed.

(** Every request is answered or dropped. *)
Lemma iq_led p0 l n : px_ok p0 → in_router (p_in p0) = RevPacket n :: l → on_stream p0 →
  ∃ p', proxy65_iq_handle (taken l p0) n = Some p' ∧ led p0 (taken l p0) p' ∧ p_router p' = p_router p0.
Proof.
  intros Hp E Hst. pose proof (taken_led _ _ _ Hp E) as L. unfold proxy65_iq_handle.
  assert (∃ p', Some (taken l p0) = Some p' ∧ led p0 (taken l p0) p' ∧ p_router p' = p_router p0) as Hdrop by by exists (taken l p0).
  destruct (attr_of n 1 "type"); [|done]. cbv zeta.
  assert (on_stream (taken l p0)) as Hst1 by exact Hst.
  do 3 (destruct (_ && _); [by apply (write_led p0 (taken l p0) (taken l p0))|]).
  destruct (_ && _); [by apply activate_led|]. destruct (_ =? 0)%Z; [done|]. by apply (error_led p0 (taken l p0) (taken l p0)).
Qed.

(** ** The router's stream *)

(** Changes to what the tables do not speak of, to the router's stream, to flags. *)
Definition tables p := (p_mio p, p_conns p, p_bss p, p_streams p, p_fresh p, p_conf p, p_server_fd p).
Lemma router_set_ok p p' : px_ok p → tables p' = tables p → p_fd p' = p_fd p → p_in p' = p_in p → p_out p' = p_out p →
  (p_router p' = RNull ∨ p_router p' = RFreed → p_fd p = None) → (∀ st, p_router p' = RStream st → st ≠ state_CLOSED → is_Some (p_fd p)) →
  (p_lost_router p' = true → p_fd p = None ∧ p_router p' ≠ RFreed) → px_ok p' ∧ evolves None p p'.
Proof.
  intros Hp [= E1 E2 E3 E4 E5 E6 E7] Ef Ei Eo Hr Hst Hl. assert (∀ f h, holds p' f h ↔ holds p f h) as Hh by (intros; unfold holds; by rewrite E1).
  assert (∀ i ki, conn_ok p i ki → conn_ok p' i ki) as Hc by (intros i ki ((f & ? & ?) & Hb & ?); split; [exists f; by rewrite Hh|by rewrite E3]).
  split.
  - split; rewrite ?E1, ?E2, ?E3, ?E4, ?E5, ?E7, ?Ef; try apply Hp.
    + intros f x Hx. pose proof (ok_fds _ Hp _ _ Hx) as Hf. unfold fd_ok in *. by rewrite E2, Ef.
    + intros i ki Hi. by apply Hc, (ok_conns _ Hp).
    + intros b bs Hb. pose proof (ok_bss _ Hp _ _ Hb) as Hbs. unfold bs_ok in *. by rewrite E2, E4.
    + split; [|done]. intros f Hf. apply Hh. by apply (ok_router _ Hp).
    + done.
    + done.
    + intros f Hf. apply Hh. by apply (ok_server _ Hp).
  - split; rewrite ?E1, ?E2, ?E5, ?Ei; try done.
    + intros f x y Hx Hy. assert (y = x) as -> by congruence. auto.
    + eauto using survives_refl.
    + eauto.
    + apply (quiet_out None p p' []); [done|by rewrite app_nil_r|apply quiet_nil|]. rewrite E2. intros i ki ki' Hki Hki'. simplify_eq. done.
Qed.

Lemma drop_router_ok p p' f n : px_ok p → holds p f h_router → (∀ g, fds p' !! g = if decide (g = f) then closed_fd p (fds p !! g) else fds p !! g) →
  (p_conns p', p_bss p', p_streams p', p_fresh p', p_conf p', p_server_fd p', p_in p') = (p_conns p, p_bss p, p_streams p, p_fresh p, p_conf p, p_server_fd p, p_in p) →
  m_fresh (p_mio p') = m_fresh (p_mio p) → m_defer_free (p_mio p') = m_defer_free (p_mio p) → p_fd p' = None → p_router p' = RStream state_CLOSED →
  p_out p' = p_out p ++ [OClosed n] → px_ok p' ∧ evolves None p p' ∧ ∀ fd, unused p fd → unused p' fd.
Proof.
  intros Hp Hf Efd [= E2 E3 E4 E5 E6 E7 E8] Em Ed Ef Er Eo.
  assert (∀ g h, h ≠ h_router → holds p g h → holds p' g h) as Hh.
  { intros g h Hne Hg. pose proof Hg as (x & Hx & Ha). exists x. rewrite Efd, decide_False; [done|]. intros ->. apply Hne. by eapply holds_uniq. }
  assert (∀ g y, fds p' !! g = Some y → (fds p !! g = Some y ∧ g ≠ f) ∨ (f_app y = None ∧ f_type y = type_CLOSED ∧ ∃ x, fds p !! g = Some x ∧ f_fd y = f_fd x)) as Hback.
  { intros g y. rewrite Efd. case_decide as Hg; [|auto]. unfold closed_fd. destruct (m_defer_free (p_mio p)); [|discriminate]. destruct (fds p !! g) as [x|]; [|discriminate]. cbn. intros [= <-]. right. split_and!; [done..|eauto]. }
  split_and!.
  - split; rewrite ?E2, ?E3, ?E4, ?E5, ?E7, ?Em, ?Ef; try apply Hp; try done.
    + intros g [y Hy]. apply (ok_fdfresh _ Hp). destruct (Hback _ _ Hy) as [[? _]|(_ & _ & x & ? & _)]; by eexists.
    + intros g y Hy. destruct (Hback _ _ Hy) as [[Hx Hne]|(Ha & Ht & _)]; [|unfold fd_ok; by rewrite Ha].
      pose proof (ok_fds _ Hp _ _ Hx) as Hg. unfold fd_ok in *. rewrite E2, Ef. destruct (f_app y) as [[| |i]|]; try done.
      exfalso. destruct Hf as (z & Hz & Az). pose proof (ok_fds _ Hp _ _ Hz) as Hz'. unfold fd_ok in Hz'. rewrite Az in Hz'.
      destruct Hg as (_ & _ & _ & Hg), Hz' as (_ & _ & _ & Hz'). congruence.
    + intros g g' y y' Hy Hy' Ty Ty'. destruct (Hback _ _ Hy) as [[Hx _]|(_ & ? & _)]; [|done]. destruct (Hback _ _ Hy') as [[Hx' _]|(_ & ? & _)]; [|done].
      by apply (ok_nums _ Hp).
    + intros i ki Hi. destruct (ok_conns _ Hp _ _ Hi) as ((g & Eg & Hg) & Hb & ?). split; [|by rewrite E3]. exists g. split; [done|]. by apply Hh.
    + intros b bs Hb. pose proof (ok_bss _ Hp _ _ Hb) as Hbs. unfold bs_ok in *. by rewrite E2, E4.
    + intros st. rewrite Er. by intros [= <-].
    + intros _. by rewrite Er.
    + intros g Hg. apply Hh; [done|]. by apply (ok_server _ Hp).
  - split; rewrite ?E2, ?E5, ?E8, ?Em; try done.
    + intros g Hd [x Hx]. rewrite Efd. case_decide; [|by eexists]. unfold closed_fd. rewrite Hd, Hx. by eexists.
    + intros g x y Hx Hy. destruct (Hback _ _ Hy) as [[Hx' _]|(Ha & _ & x' & Hx' & En)]; [assert (y = x) as -> by congruence; auto|]. assert (x' = x) as -> by congruence. auto.
    + intros g _ Hg. rewrite Efd, Hg. unfold closed_fd. by repeat case_match.
    + eauto using survives_refl.
    + eauto.
    + apply (quiet_out None p p' [OClosed n]); [done|done|by intros i ki m _ _ _|]. rewrite E2. intros i ki ki' Hki Hki'. simplify_eq. done.
  - intros fd Hu g y Hy Ht. destruct (Hback _ _ Hy) as [[Hx _]|(_ & ? & _)]; [by apply (Hu g)|done].
Qed.

(** A socket to listen on has a number of its own. *)
Definition can_listen p : Prop := ∀ fd nb, in_listen (p_in p) = Some (fd, nb) → p_server_fd p = None → unused p fd.
(** What an event leads to, from the state [p0] before it was taken and [p1] after. *)
Record went p0 p1 p2 : Prop := {
  wn_ok : px_ok p2;
  wn_ev : evolves None p0 p2;
  wn_listen : can_listen p1 → can_listen p2;
  wn_in : in_router (p_in p2) `suffix_of` in_router (p_in p1) ∧ sends p2 = sends p1;
  wn_stream : on_stream p2;
  wn_fd : p_fd p2 = p_fd p1 ∨ p_fd p2 = None
}.

Lemma listen_same p1 p2 : p_server_fd p2 = p_server_fd p1 → in_listen (p_in p2) = in_listen (p_in p1) → (∀ fd, unused p1 fd → unused p2 fd) →
  can_listen p1 → can_listen p2.
Proof. intros Es Ei Hu Hc fd nb. rewrite Es, Ei. intros E Hn. by eapply Hu, Hc. Qed.
Lemma led_went p0 p1 p2 : on_stream p2 → led p0 p1 p2 → went p0 p1 p2.
Proof. intros Hs [L1 L2 [L3 L3'] (L4 & L5 & L6) L7]. split; [done..| |done|done|by left]. by apply listen_same. Qed.

Lemma kill_ok n p : px_ok p → on_stream p → is_Some (p_fd p) →
  ∃ p', sx_kill (handle (S n)) p = Some p' ∧ went p p p'.
Proof.
  intros Hp [st Hst] [f Hf]. pose proof (proj1 (ok_router _ Hp) _ Hf) as Hh. pose proof Hh as (x & Hx & Ha).
  pose proof (ok_fds _ Hp _ _ Hx) as Hfx. unfold fd_ok in Hfx. rewrite Ha in Hfx. destruct Hfx as (_ & _ & Hc & _).
  unfold sx_kill. rewrite Hst. cbn [router_state mbind option_bind]. unfold router_event_closed. cbn [p_fd set_p_router]. rewrite Hf. cbn [mbind option_bind].
  unfold _mio_close, get_fd. cbn [w_mio proxy_world p_mio set_p_router]. rewrite Hx. cbn [mbind option_bind]. rewrite (proj2 (Z.eqb_neq _ _) Hc), Ha.
  unfold act, get_fd. cbn [w_mio proxy_world p_mio set_p_router]. rewrite Hx. cbn [mbind option_bind]. rewrite Ha. cbn. rewrite Hx. cbn.
  eexists. split; [done|]. set (p' := set_p_fd None _).
  assert ((∀ g, fds p' !! g = if decide (g = f) then closed_fd p (fds p !! g) else fds p !! g) ∧
    tables p' = (p_mio p', p_conns p, p_bss p, p_streams p, p_fresh p, p_conf p, p_server_fd p) ∧
    (m_fresh (p_mio p'), m_defer_free (p_mio p'), p_fd p', p_router p', p_in p', p_out p') =
    (m_fresh (p_mio p), m_defer_free (p_mio p), None, RStream state_CLOSED, p_in p, p_out p ++ [OClosed (f_fd x)])) as HH.
  { unfold p', closed_fd. destruct (m_defer_free (p_mio p)) eqn:Edf; cbn; rewrite ?Edf; split_and!; try done; intros g; case_decide; subst;
      rewrite ?lookup_delete_eq, ?lookup_delete_ne, ?lookup_alter_eq, ?lookup_alter_ne by done; done. }
  clearbody p'. destruct HH as (Ef & [= T2 T3 T4 T5 T6 T7] & [= E1 E2 E3 E4 E5 E6]).
  destruct (drop_router_ok p p' f (f_fd x) Hp Hh Ef) as (Hp' & Ev & Hu); try done; [congruence|].
  split; [done|done| | |by eexists|by right].
  - apply listen_same; [done|by rewrite E5|done].
  - unfold sends. by rewrite E5.
Qed.

(** *** Its events *)

Lemma went_trans p0 p1 p2 p3 : px_ok p0 → went p0 p1 p2 → went p2 p2 p3 → went p0 p1 p3.
Proof.
  intros Hp [A1 A2 A3 (A4 & A4') A5 A6] [B1 B2 B3 (B4 & B4') B5 B6]. split; [done|by apply (evolves_trans _ p0 p2)|auto|split; [by etrans|congruence]|done|].
  destruct B6 as [->| ->]; auto.
Qed.
Lemma went_here p0 p1 p2 : p_in p2 = p_in p1 → tables p2 = tables p1 → p_fd p2 = p_fd p1 → px_ok p2 → evolves None p0 p2 → on_stream p2 → went p0 p1 p2.
Proof.
  intros Ei [= E1 E2 E3 E4 E5 E6 E7] Ef Hp Ev Hs. split; [done|done| |unfold sends; by rewrite Ei|done|by left]. apply listen_same; [done|by rewrite Ei|].
  intros fd. unfold unused. by rewrite E1.
Qed.
Lemma set_router_went p0 p1 st : px_ok p0 → px_ok p1 → evolves None p0 p1 → is_Some (p_fd p1) → went p0 p1 (set_p_router (RStream st) p1).
Proof.
  intros Hp0 Hp Ev [f Hf]. destruct (router_set_ok p1 (set_p_router (RStream st) p1) Hp) as [Hp' Ev']; [done..|by intros [?|?]|intros _ _ _; rewrite Hf; by eexists|intros Hl; split; [by apply (ok_lost _ Hp)|done]|].
  apply went_here; [done|done|done|done|by apply (evolves_trans _ p0 p1)|by eexists].
Qed.

(** A new descriptor: the one listened on, or the router's. *)
Lemma new_fd_ok p p' x : let g := m_fresh (p_mio p) in px_ok p → unused p (f_fd x) →
  p_mio p' = Mio (<[g := x]> (fds p)) (S g) (m_defer_free (p_mio p)) →
  (p_conns p', p_bss p', p_streams p', p_fresh p', p_conf p', p_in p', p_out p') = (p_conns p, p_bss p, p_streams p, p_fresh p, p_conf p, p_in p, p_out p) →
  fd_ok p' g x → (p_fd p' = p_fd p ∧ p_router p' = p_router p ∨ p_fd p = None ∧ p_fd p' = Some g ∧ f_app x = Some h_router ∧ ∃ st, p_router p' = RStream st) →
  (p_server_fd p' = p_server_fd p ∨ p_server_fd p' = Some g ∧ f_app x = Some h_listen) → (p_lost_router p' = true → p_fd p' = None ∧ p_router p' ≠ RFreed) →
  px_ok p' ∧ evolves None p p'.
Proof.
  intros g Hp Hu Em [= E2 E3 E4 E5 E6 E7 E8] Hx Hr Hs Hl. pose proof (fresh_fd _ Hp) as Hg. fold g in Hg.
  assert (∀ f h, holds p f h → holds p' f h) as Hh.
  { intros f h (y & Hy & Ha). exists y. rewrite Em. cbn. rewrite lookup_insert_ne; [done|]. intros <-. congruence. }
  split.
  - split; rewrite ?E2, ?E3, ?E4, ?E5, ?Em; cbn; try apply Hp.
    + intros f [y Hy]. apply lookup_insert_Some in Hy as [[<- _]|[_ Hy]]; [lia|]. assert (f < g) by (apply (ok_fdfresh _ Hp); by eexists). lia.
    + intros f y [[<- <-]|[_ Hy]]%lookup_insert_Some; [done|]. pose proof (ok_fds _ Hp _ _ Hy) as Hf. unfold fd_ok in *. rewrite E2.
      destruct (f_app y) as [[| |i]|]; try done. destruct Hr as [[-> _]|(En & _)]; [done|]. destruct Hf as (_ & _ & _ & ?). congruence.
    + intros f f' y y' [[<- <-]|[_ Hy]]%lookup_insert_Some [[<- <-]|[_ Hy']]%lookup_insert_Some.
      * done.
      * intros _ Ht E. by destruct (Hu _ _ Hy').
      * intros Ht _ E. by destruct (Hu _ _ Hy).
      * by apply (ok_nums _ Hp).
    + intros i ki Hi. destruct (ok_conns _ Hp _ _ Hi) as ((f & Ef & Hf) & Hb & Ht). split; [exists f; auto|by rewrite E3].
    + intros b bs Hb. pose proof (ok_bss _ Hp _ _ Hb) as Hbs. unfold bs_ok in *. by rewrite E2, E4.
    + destruct Hr as [[-> ->]|(_ & Ef & Ha & st & Est)]; [split; [|by apply (ok_router _ Hp)]; intros f Hf; apply Hh; by apply (ok_router _ Hp)|].
      split; [|rewrite Est; by intros [?|?]]. intros f. rewrite Ef. intros [= <-]. exists x. rewrite Em. cbn. by rewrite lookup_insert_eq.
    + intros st. destruct Hr as [[-> ->]|(_ & -> & _)]; [apply (ok_stream _ Hp)|by eexists].
    + done.
    + intros f. destruct Hs as [->|[-> Ha]]; [intros Hf; apply Hh; by apply (ok_server _ Hp)|]. intros [= <-]. exists x. rewrite Em. cbn. by rewrite lookup_insert_eq.
  - split; rewrite ?E2, ?E5, ?E7, ?Em; cbn; try done.
    + intros f _ [y Hy]. rewrite lookup_insert_ne; [by eexists|]. intros <-. congruence.
    + intros f y z Hy. rewrite lookup_insert_ne by (intros <-; congruence). intros Hz. assert (z = y) as -> by congruence. auto.
    + intros f Hf Hn. rewrite lookup_insert_ne; [done|]. unfold g. lia.
    + unfold g. lia.
    + eauto using survives_refl.
    + eauto.
    + apply (quiet_out None p p' []); [done|by rewrite app_nil_r|apply quiet_nil|]. rewrite E2. intros i ki ki' Hki Hki'. simplify_eq. done.
Qed.

Lemma socks_listen_ok p : px_ok p → can_listen p → p_server_fd p = None →
  ∃ p', proxy65_socks_listen p = Some p' ∧ px_ok p' ∧ evolves None p p' ∧ p_in p' = p_in p ∧ (p_fd p', p_router p') = (p_fd p, p_router p) ∧
    (p_server_fd p' = None → ∀ fd, unused p fd → unused p' fd).
Proof.
  intros Hp Hc Hn. unfold proxy65_socks_listen, _mio_listen. destruct (in_listen (p_in p)) as [[fd nb]|] eqn:El; cbn [mbind option_bind].
  - specialize (Hc fd nb El Hn). unfold _mio_setup_fd, _mio_alloc_fd, upd_fd. cbn [m_fds m_fresh m_defer_free w_mio proxy_world]. rewrite alter_new. destruct nb; cbn.
    + unfold upd_mio, upd_fd, _mio_read, get_fd. cbn. rewrite alter_new, lookup_insert_eq. cbn.
      match goal with |- context [connecting ?y] => change (connecting y) with false end. cbn. unfold upd_fd. cbn. rewrite alter_new. eexists. split; [done|].
      match goal with |- px_ok ?q ∧ _ => pose proof (new_fd_ok p q (MioFd fd type_LISTEN (Some h_listen) true false) Hp Hc) as Hnew end.
      destruct Hnew as [Hp' Ev']; [done|done|done|by left|by right|apply (ok_lost _ Hp)|].
      by split_and!.
    + unfold free_fd. cbn. rewrite unused_new by done. eexists. split; [done|]. destruct (skip_ok _ Hp) as [Hp1 Ev1].
      destruct (note_closed_ok (skip_fd p) fd Hp1) as [Hp2 Ev2]. pose proof (evolves_trans _ _ _ _ Hp Hp1 Ev1 Ev2) as Ev3.
      destruct (note_ok None _ OExit (λ m, conj eq_refl eq_refl) Hp2) as [Hp4 Ev4]. pose proof (evolves_trans _ _ _ _ Hp Hp2 Ev3 Ev4) as Ev5.
      destruct (router_set_ok _ (emit OExit (set_p_server_fd None (emit (OClosed fd) (skip_fd p)))) Hp4) as [Hp6 Ev6]; try done; [unfold tables; cbn; by rewrite Hn|apply (ok_router _ Hp)|apply (ok_stream _ Hp)|apply (ok_lost _ Hp)|].
      split_and!; [exact Hp6|exact (evolves_trans _ _ _ _ Hp Hp4 Ev5 Ev6)|done..].
  - eexists. split; [done|]. destruct (note_ok None _ OExit (λ m, conj eq_refl eq_refl) Hp) as [Hp4 Ev4].
    destruct (router_set_ok _ (emit OExit (set_p_server_fd None p)) Hp4) as [Hp6 Ev6]; try done; [unfold tables; cbn; by rewrite Hn|apply (ok_router _ Hp)|apply (ok_stream _ Hp)|apply (ok_lost _ Hp)|].
    split_and!; [exact Hp6|exact (evolves_trans _ _ _ _ Hp Hp4 Ev4 Ev6)|done..].
Qed.

(** The router's descriptor. *)
Lemma router_open p f : px_ok p → p_fd p = Some f →
  ∃ x, fds p !! f = Some x ∧ f_app x = Some h_router ∧ (f_type x = type_NORMAL ∨ connecting x = true) ∧ f_type x ≠ type_LISTEN ∧ f_type x ≠ type_CLOSED.
Proof.
  intros Hp Hf. destruct (proj1 (ok_router _ Hp) f Hf) as (x & Hx & Ha). pose proof (ok_fds _ Hp _ _ Hx) as Ho. unfold fd_ok in Ho. rewrite Ha in Ho.
  destruct Ho as (? & ? & ? & _). by exists x.
Qed.
Lemma bit_type t : Z.testbit t 4 = true → negb (Z.land t type_CONNECT =? 0)%Z = true ∧ t ≠ type_LISTEN ∧ t ≠ type_CLOSED.
Proof.
  intros Ht. split_and!; [|by intros ->..]. apply negb_true_iff, Z.eqb_neq. intros E.
  assert (Z.testbit (Z.land t type_CONNECT) 4 = true) as Hb by (by rewrite Z.land_spec, Ht). by rewrite E in Hb.
Qed.

Lemma fd_set_went p0 p1 f x g : px_ok p0 → px_ok p1 → evolves None p0 p1 → on_stream p1 → fds p1 !! f = Some x → (∀ x, f_app (g x) = f_app x ∧ f_fd (g x) = f_fd x) →
  fd_ok p1 f (g x) → f_type x ≠ type_CLOSED → went p0 p1 (fd_set f g p1).
Proof.
  intros Hp0 Hp Ev Hs Hx Hg Hok Ht. destruct (fd_set_ok None p1 f x g) as [Hp' Ev']; [done..|].
  split; [done|by apply (evolves_trans _ p0 p1)| |done|done|by left]. apply listen_same; [done..|]. intros fd Hu i y. cbn.
  destruct (decide (f = i)) as [<-|Hne]; [|rewrite lookup_alter_ne by done; apply Hu]. rewrite lookup_alter_eq, Hx. intros [= <-] _. rewrite (proj2 (Hg x)). by apply (Hu f).
Qed.
(** What is wanted while it connects, or once it has. *)
Lemma router_want p0 p1 f x c : px_ok p0 → px_ok p1 → evolves None p0 p1 → on_stream p1 → p_fd p1 = Some f → fds p1 !! f = Some x → f_app x = Some h_router → f_type x ≠ type_CLOSED →
  Z.testbit c 4 = true → went p0 p1 (fd_set f (with_f_type (Z.lor (f_type x) c)) p1).
Proof.
  intros Hp0 Hp Ev Hs Hf Hx Ha Ht Hc. destruct (bit_type (Z.lor (f_type x) c)) as (B1 & B2 & B3); [by rewrite Z.lor_spec, Hc, orb_true_r|].
  eapply fd_set_went; [done..| |done]. unfold fd_ok. cbn. rewrite Ha. split_and!; [by right|done..].
Qed.
Lemma router_fd_same p f x g : fds p !! f = Some x → f_app x = Some h_router → px_ok p → f_app (g x) = f_app x → f_type (g x) = f_type x → fd_ok p f (g x).
Proof. intros Hx Ha Hp Eg Et. pose proof (ok_fds _ Hp _ _ Hx) as Ho. unfold fd_ok, connecting in *. by rewrite Eg, Et, Ha in *. Qed.

Lemma router_mio_read_went p0 p1 : px_ok p0 → px_ok p1 → evolves None p0 p1 → on_stream p1 → ∃ p', _mio_read (p_fd p1) p1 = Some p' ∧ went p0 p1 p'.
Proof.
  intros Hp0 Hp Ev Hs. destruct (p_fd p1) as [f|] eqn:Ef; [|by exists p1; split; [|apply went_here]].
  destruct (router_open _ _ Hp Ef) as (x & Hx & Ha & _ & _ & Ht). unfold _mio_read, get_fd. cbn [w_mio proxy_world]. rewrite Hx. cbn [mbind option_bind].
  eexists. split; [done|]. destruct (connecting x) eqn:Ec.
  - by apply (router_want p0 p1 f x).
  - eapply (fd_set_went p0 p1 f x (with_f_in true)); try done. by apply (router_fd_same p1 f x).
Qed.

(** What the stream does when it may, with [m] events to come. *)
Definition streams m : Prop := ∀ n j p, m ≤ n → px_ok p → on_stream p → can_listen p → length (in_router (p_in p)) ≤ m →
  ∃ r p', sx_run (handle (S n)) j p = Some (r, p') ∧ went p p p' ∧ (r = 0%Z ∨ is_Some (p_fd p') ∧ p_fd p' = p_fd p).

Lemma router_mio_write_went hd m n p : (∀ f, hd h_router action_WRITE f None p = sx_can (handle (S n)) p) → streams m → m ≤ n → px_ok p → on_stream p → can_listen p → is_Some (p_fd p) → length (in_router (p_in p)) ≤ m →
  ∃ p', _mio_write hd (p_fd p) p = Some p' ∧ went p p p'.
Proof.
  intros Ehd Hm Hn Hp Hs Hc [f Ef] Hl. destruct (router_open _ _ Hp Ef) as (x & Hx & Ha & _ & _ & Ht). rewrite Ef. unfold _mio_write, get_fd. cbn [w_mio proxy_world].
  rewrite Hx. cbn [mbind option_bind]. pose proof (evolves_refl None p) as Ev. destruct (connecting x) eqn:Ec.
  { eexists. split; [done|]. by apply (router_want p p f x). }
  destruct (negb _); [exists p; split; [done|by apply went_here]|]. unfold act, get_fd. cbn [w_mio proxy_world]. rewrite Hx. cbn [mbind option_bind]. rewrite Ha.
  cbn [mbind option_bind]. rewrite Ehd. unfold sx_can. pose proof Hs as [st ->].
  cbn [router_state mbind option_bind]. destruct (Hm n (length (in_router (p_in p))) p) as (r & p' & E & W & Hr); [done..|]. rewrite E. cbn [mbind option_bind].
  destruct (Z.eqb_spec r 0) as [->|Hne]; [by exists p'|]. destruct Hr as [?|[_ Hr]]; [done|]. rewrite Ef in Hr.
  destruct (router_open _ _ (wn_ok _ _ _ W) Hr) as (y & Hy & Hay & _ & _ & Hty). rewrite Hy. cbn [mbind option_bind]. eexists. split; [done|].
  apply (went_trans p p p'); [done|done|]. eapply (fd_set_went p' p' f y (with_f_out true)); try done; [apply W|apply W|apply evolves_refl|apply W|].
  apply (router_fd_same p' f y); try done. apply W.
Qed.

Lemma emit_went p0 p1 o : (∀ m, silent m [o]) → px_ok p0 → px_ok p1 → evolves None p0 p1 → on_stream p1 → went p0 p1 (emit o p1).
Proof. intros Ho Hp0 Hp Ev Hs. destruct (note_ok None p1 o Ho Hp). apply went_here; [done..|by apply (evolves_trans _ p0 p1)|done]. Qed.
(** Flags that the tables do not speak of. *)
Lemma flags_went p0 p1 p2 : px_ok p0 → px_ok p1 → evolves None p0 p1 → on_stream p1 → tables p2 = tables p1 →
  (p_fd p2, p_router p2, p_lost_router p2, p_in p2, p_out p2) = (p_fd p1, p_router p1, p_lost_router p1, p_in p1, p_out p1) → went p0 p1 p2.
Proof.
  intros Hp0 Hp Ev Hs Et [= E1 E2 E3 E4 E5]. destruct (router_set_ok p1 p2 Hp) as [Hp2 Ev2]; rewrite ?E2, ?E3; try done; try apply Hp.
  apply went_here; [done..|by apply (evolves_trans _ p0 p1)|]. unfold on_stream. by rewrite E2.
Qed.
Lemma same_went p0 p1 : px_ok p1 → evolves None p0 p1 → on_stream p1 → went p0 p1 p1.
Proof. intros. by apply went_here. Qed.

Lemma bind_went p0 p1 n : px_ok p0 → px_ok p1 → evolves None p0 p1 → on_stream p1 → can_listen p1 → ∃ p2, bind_response p1 n = Some p2 ∧ went p0 p1 p2.
Proof.
  intros Hp0 Hp Ev Hs Hc. unfold bind_response. destruct (negb _); [exists p1; split; [done|by apply same_went]|].
  destruct (attr_of _ _ _); [eexists; split; [done|by apply emit_went]|].
  destruct (p_server_fd p1) as [g|] eqn:Eg; cbn [mbind option_bind].
  - rewrite Eg. eexists. split; [done|]. by apply flags_went.
  - destruct (socks_listen_ok p1) as (p2 & E & Hp2 & Ev2 & Ei & [= E1 E2] & Hu); [done..|]. rewrite E. cbn [mbind option_bind].
    assert (went p0 p1 p2) as W.
    { split; [done|by apply (evolves_trans _ p0 p1)| |unfold sends; by rewrite Ei|unfold on_stream; by rewrite E2|by left].
      intros _ fd nb. rewrite Ei. intros Hin Hn. apply Hu; [done|]. by eapply Hc. }
    eexists. split; [done|]. destruct (p_server_fd p2); [|done]. eapply went_trans; [done|exact W|]. by apply flags_went; [..|apply evolves_refl|apply W| |].
Qed.

Lemma packet_went p0 l n : px_ok p0 → in_router (p_in p0) = RevPacket n :: l → on_stream p0 → can_listen p0 →
  ∃ p2, router_event_packet (taken l p0) n = Some p2 ∧ went p0 (taken l p0) p2.
Proof.
  intros Hp E Hs Hc. pose proof (taken_led _ _ _ Hp E) as [Hp1 Ev1 _ _ _]. pose proof Hs as [st Hst]. set (p1 := taken l p0) in *.
  assert (on_stream p1) as Hs1 by done. assert (can_listen p1) as Hc1 by done. assert (∃ p2, Some p1 = Some p2 ∧ went p0 p1 p2) as Hsame by (exists p1; split; [done|by apply same_went]).
  unfold router_event_packet. destruct (_ <? 0)%Z; [done|]. change (p_router p1) with (p_router p0). rewrite Hst. cbn [router_state mbind option_bind].
  case_bool_decide. { eexists. split; [done|]. case_match; [by apply emit_went|by apply same_went]. }
  destruct (_ && _); [by apply bind_went|]. do 3 (destruct (_ : bool); [done|]).
  destruct (iq_led p0 l n Hp E Hs) as (p2 & E2 & L & Er). exists p2. split; [done|]. apply led_went; [|done]. exists st. congruence.
Qed.

Lemma event_went n (ev : router_event) l p : px_ok p → in_router (p_in p) = ev :: l → (∃ st, p_router p = RStream st ∧ st ≠ state_CLOSED) → can_listen p →
  (ev = RevWantWrite → ∃ m n', n = S n' ∧ streams m ∧ m ≤ n' ∧ length l ≤ m) →
  ∃ p2, proxy65_router_sx_callback (handle (S n)) (taken l p) ev = Some p2 ∧ went p (taken l p) p2.
Proof.
  intros Hp E (st & Hst & Hop) Hc Hw. pose proof (taken_led _ _ _ Hp E) as [Hp1 Ev1 _ _ _]. pose proof (ok_stream _ Hp _ Hst Hop) as Hfd. set (p1 := taken l p) in *.
  assert (on_stream p1) as Hs1 by by exists st. assert (can_listen p1) as Hc1 by done. assert (is_Some (p_fd p1)) as Hfd1 by done.
  assert (∃ p2, Some p1 = Some p2 ∧ went p p1 p2) as Hsame by (exists p1; split; [done|by apply same_went]).
  assert (∀ p2, went p1 p1 p2 → went p p1 p2) as Hgo by (intros p2; apply went_trans; [done|by apply same_went]).
  assert (∃ p2, sx_kill (handle (S n)) p1 = Some p2 ∧ went p p1 p2) as Hkill by (destruct (kill_ok n p1) as (p2 & E2 & W); eauto).
  destruct Hfd1 as [f Hf]. destruct (router_open _ _ Hp1 Hf) as (x & Hx & _). assert (get_fd p1 f = Some x) as Eg by done.
  destruct ev; cbn [proxy65_router_sx_callback].
  - change (p_router p1) with (p_router p). rewrite Hst. cbn [router_state mbind option_bind]. eexists. split; [done|]. by apply set_router_went.
  - by apply router_mio_read_went.
  - destruct (Hw eq_refl) as (m & n' & -> & Hm & Hn & Hl). destruct (router_mio_write_went (handle (S (S n'))) m n' p1) as (p2 & E2 & W); [done..|by eexists|done|]. eauto.
  - rewrite Hf. cbn [mbind option_bind]. rewrite Eg. cbn [mbind option_bind]. by repeat case_match.
  - rewrite Hf. cbn [mbind option_bind]. rewrite Eg. cbn [mbind option_bind]. by repeat case_match.
  - destruct auth; [|done]. unfold sx_close. change (p_router p1) with (p_router p). rewrite Hst. cbn [router_state mbind option_bind].
    destruct (state_ge _ state_CLOSING); [done|]. destruct (state_ge _ _).
    + eexists. split; [done|]. apply (went_trans p p1 (emit ORouterClose p1)); [done|by apply emit_went|].
      destruct (note_ok None p1 ORouterClose) as [Hpe Eve]; [done..|]. apply set_router_went; [done|done|apply evolves_refl|by eexists].
    + destruct Hkill as (p2 & E2 & W). exists p2. split; [|done]. unfold sx_kill in E2. change (p_router p1) with (p_router p) in E2. rewrite Hst in E2. exact E2.
  - done.
  - unfold router_event_open. repeat case_match. unfold router_write. cbn [p_router set_p_retry_left]. change (p_router p1) with (p_router p). rewrite Hst. cbn [router_state mbind option_bind].
    eexists. split; [done|]. apply (went_trans p p1 (set_p_retry_left (pc_retry_lost (p_conf p1)) p1)); [done|by apply flags_went|].
    assert (went p p1 (set_p_retry_left (pc_retry_lost (p_conf p1)) p1)) as W by by apply flags_went.
    apply emit_went; [done|apply W|apply W|apply evolves_refl|apply W].
  - apply packet_went; [done..|by exists st|done].
  - done.
  - done.
Qed.

Lemma streams_ok m : streams m.
Proof.
  induction m as [m IH] using lt_wf_ind. intros n j. induction j as [|j IHj]; intros p Hn Hp Hs Hc Hl; cbn [sx_run].
  { exists 0%Z, p. split_and!; [done|apply same_went; [done|apply evolves_refl|done]|by left]. }
  destruct (in_router (p_in p)) as [|ev l] eqn:E. { exists 0%Z, p. split_and!; [done|apply same_went; [done|apply evolves_refl|done]|by left]. }
  change (set_p_in (with_in_router l (p_in p)) p) with (taken l p). pose proof (taken_led _ _ _ Hp E) as [Hp1 Ev1 _ _ _]. cbn [length] in Hl. pose proof Hs as [st Hst].
  assert (∀ p', went p (taken l p) p' → went p p p') as Hback.
  { intros p' [W1 W2 W3 [W4 W4'] W5 W6]. split; [done|done|done|split; [|done]|done|done]. etrans; [exact W4|]. cbn. rewrite E. by exists [ev]. }
  assert (∀ p2, went p (taken l p) p2 → ∃ r p', sx_run (handle (S n)) j p2 = Some (r, p') ∧ went p p p' ∧ (r = 0%Z ∨ is_Some (p_fd p') ∧ p_fd p' = p_fd p)) as Hrest.
  { intros p2 W. destruct (IHj p2) as (r & p' & E' & W' & Hr); [done|apply W|apply W|by apply W|..].
    { destruct (wn_in _ _ _ W) as [[l0 Es] _]. apply (f_equal length) in Es. rewrite length_app in Es. cbn in Es. lia. }
    exists r, p'. split_and!; [done|apply Hback; by apply (went_trans p (taken l p) p2)|]. destruct Hr as [?|[His Hr]]; [by left|]. right. split; [done|].
    destruct (wn_fd _ _ _ W) as [Ef|Ef]; [by rewrite Hr, Ef|]. rewrite Hr, Ef in His. by destruct His. }
  change (p_router (taken l p)) with (p_router p). rewrite Hst. cbn [router_state mbind option_bind].
  assert (∃ r p', (if bool_decide (st = state_CLOSED) then sx_run (handle (S n)) j (taken l p)
      else p0 ← proxy65_router_sx_callback (handle (S n)) (taken l p) ev; sx_run (handle (S n)) j p0) = Some (r, p') ∧ went p p p' ∧
      (r = 0%Z ∨ is_Some (p_fd p') ∧ p_fd p' = p_fd p)) as Hstep.
  { case_bool_decide as Hcl; [apply Hrest; by apply same_went|].
    destruct (event_went n ev l p Hp E) as (p2 & E2 & W); [by exists st|done| |rewrite E2; by apply Hrest].
    intros ->. exists (length l), (pred n). split_and!; [lia|apply IH; lia|lia|done]. }
  destruct ev as [| | | | | | | | | |r]; try exact Hstep.
  exists (if bool_decide (st = state_CLOSED) then 0%Z else r), (taken l p).
  split_and!; [done|apply Hback; by apply same_went|]. case_bool_decide as Hcl; [by left|]. right. split; [|done]. by apply (ok_stream _ Hp st).
Qed.
End loop.
