(* ===== verification/Proxy65Thms.v ===== *)
(** * The proxy, run

    What mio reports, turn after turn: nothing goes wrong as long as [allowed]
    says of what the system answers; what relaying does over a run. *)
From S2P Require Import Prelude.
From S2P Require Import CStr.
From S2P Require Import DList.
From S2P Require Import Table.
From S2P Require Import Str.
From S2P Require Import Codec.
From S2P Require Import Jid.
From S2P Require Import Nad.
From S2P Require Import Stanza.
From S2P Require Import Datetime.
From S2P Require Import Pkt.
From S2P Require Import Config.
From S2P Require Import Mio.
From S2P Require Import Proxy65.
From S2P Require Import Proxy65Inv.
From S2P Require Import Proxy65Step.
From S2P Require Import Proxy65Run.
From S2P Require Import Proxy65Loop.

Section thms.
Context {T : Type → Type} `{TableLaws T} `{Env}.
Notation proxy65 := (proxy65 T).
Implicit Types (p : proxy65) (sc q b f : loc) (k : sock_conn) (bs : bytestream) (x y : mio_fd handler) (e : option loc).

(** ** Runs *)

(** A state in which only what the router's stream is about to say matters of the inputs. *)
Definition hears (l : list router_event) p : proxy65 := set_p_mio (set_defer false (p_mio p)) (set_p_in (SysIn 0 RBlock [] l None 0) p).
(** What a run leads to in which the router's stream said [l]. *)
Definition ran (l : list router_event) p p' : Prop := evolves None (hears l p) (hears [] p').

Lemma hears_ok l p : px_ok p → px_ok (hears l p).
Proof. intros Hp. destruct Hp. by split. Qed.
Lemma defer_ok d p : px_ok p → px_ok (set_p_mio (set_defer d (p_mio p)) p).
Proof. intros Hp. destruct Hp. by split. Qed.
Lemma input_ok i p : px_ok p → px_ok (input i p).
Proof. intros Hp. destruct Hp. by split. Qed.

Lemma ran_defer l d p p' : ran l p p' → ran l p (set_p_mio (set_defer d (p_mio p')) p').
Proof. done. Qed.
Lemma ran_turn l d p p' : ran l (set_p_mio (set_defer d (p_mio p)) p) p' → ran l p p'.
Proof. done. Qed.
Lemma ran_in p p' : evolves None p p' → ran (in_router (p_in p)) p p'.
Proof.
  intros [V1 V2 V3 V4 V5 V6 V7 V8 V9 V10]. split; try done. exists (in_router (p_in p)). by rewrite app_nil_r.
Qed.
Lemma ran_of i p p' : evolves None (input i p) p' → ran (in_router i) p p'.
Proof. intros Ev. destruct (ran_in (input i p) p' Ev) as [V1 V2 V3 V4 V5 V6 V7 V8 V9 V10]. by split. Qed.
Lemma ran_refl p : ran [] p p.
Proof. apply evolves_refl. Qed.
Lemma ran_frame l1 l2 p p' : ran l1 p p' → evolves None (hears (l1 ++ l2) p) (hears l2 p').
Proof.
  intros [V1 V2 V3 V4 V5 V6 V7 V8 V9 V10]. split; try done; [by exists l1|]. intros i ki Hi Hs.
  destruct (V9 i ki Hi Hs) as [?|(n & sid & Hn & Ha)]; [by left|right]. exists n, sid. split; [|done]. cbn in *. apply elem_of_app. by left.
Qed.
Lemma ran_trans l1 l2 p1 p2 p3 : px_ok p1 → px_ok p2 → ran l1 p1 p2 → ran l2 p2 p3 → ran (l1 ++ l2) p1 p3.
Proof.
  intros Hp1 Hp2 R1 R2. unfold ran. eapply (evolves_trans _ _ (hears l2 p2)); [by apply hears_ok..|by apply ran_frame|exact R2].
Qed.

(** ** One result of mio *)

Notation deferring p := (m_defer_free (p_mio p) = true).

Lemma live_step e p p' f : deferring p → evolves e p p' → is_Some (fds p !! f) → is_Some (fds p' !! f) ∧ deferring p'.
Proof. intros Hd Ev Hf. split; [by apply (ev_kept _ _ _ Ev)|]. by rewrite (ev_defer _ _ _ Ev). Qed.

(** The two bits of a descriptor's events. *)
Lemma unset_ok p f x g : px_ok p → fds p !! f = Some x → g = with_f_in false ∨ g = with_f_out false → px_ok (fd_set f g p) ∧ evolves None p (fd_set f g p).
Proof.
  intros Hp Hx Hg. apply (fd_set_ok None p f x g); [done|done|by destruct Hg as [->| ->]| |by destruct Hg as [->| ->]].
  pose proof (ok_fds _ Hp _ _ Hx) as Ho. destruct Hg as [->| ->]; unfold fd_ok, connecting in *; cbn; destruct (f_app x) as [[| |i]|]; try done.
  destruct Ho as (? & ? & ?). by split_and!.
Qed.

Lemma call_router p : ∃ n, length (in_router (p_in p)) ≤ n ∧ (∀ f d, call h_router action_WRITE f d p = sx_can (handle (S n)) p) ∧
  ∀ f d, call h_router action_READ f d p = if (in_nbytes (p_in p) =? 0)%Z then p ← sx_kill (handle (S n)) p; Some (0%Z, p) else sx_can (handle (S n)) p.
Proof. exists (2 + length (sends p) + length (in_router (p_in p))). split_and!; [lia|done|done]. Qed.
Lemma sx_can_went n p : length (in_router (p_in p)) ≤ n → px_ok p → on_stream p → can_listen p →
  ∃ r p', sx_can (handle (S n)) p = Some (r, p') ∧ went p p p'.
Proof.
  intros Hn Hp Hs Hc. destruct (streams_ok (length (in_router (p_in p))) n (length (in_router (p_in p))) p) as (r & p' & E & W & _); [done..|].
  exists r, p'. split; [|done]. unfold sx_can. destruct Hs as [st ->]. exact E.
Qed.
Lemma router_stream p f x : px_ok p → fds p !! f = Some x → f_app x = Some h_router → on_stream p ∧ is_Some (p_fd p).
Proof.
  intros Hp Hx Ha. pose proof (ok_fds _ Hp _ _ Hx) as Ho. unfold fd_ok in Ho. rewrite Ha in Ho. destruct Ho as (_ & _ & _ & Ef). split; [|by eexists].
  destruct (p_router p) as [| |st] eqn:Er; [..|by exists st]; exfalso; by rewrite (proj2 (ok_router _ Hp)) in Ef by auto.
Qed.
Lemma router_call p f d a : px_ok p → on_stream p → is_Some (p_fd p) → can_listen p → a = action_READ ∨ a = action_WRITE →
  ∃ r p', call h_router a f d p = Some (r, p') ∧ went p p p'.
Proof.
  intros Hp Hs Hf Hc Ha. destruct (call_router p) as (n & Hn & Ew & Er). destruct Ha as [->| ->]; [|rewrite Ew; by apply sx_can_went].
  rewrite Er. destruct (_ =? 0)%Z; [|by apply sx_can_went]. destruct (kill_ok n p Hp Hs Hf) as (p' & E & W). rewrite E. cbn. by exists 0%Z, p'.
Qed.
Lemma sock_call p sc k f d : px_ok p → p_conns p !! sc = Some k → k_fd k = Some f → calm (sends p) →
  ∃ r p', call (h_sock sc) action_READ f d p = Some (r, p') ∧ px_ok p' ∧ evolves None p p'.
Proof.
  intros Hp Hk Hf Hc. destruct (read_ok (2 + length (sends p) + length (in_router (p_in p))) p sc k f d) as (p' & r & E & ?); [done..|lia|done|]. by exists r, p'.
Qed.

Lemma ready_read_ok p f r : px_ok p → deferring p → is_Some (fds p !! f) → calm (sends p) → can_listen p →
  ∃ p', ready_read call f r p = Some p' ∧ px_ok p' ∧ evolves None p p' ∧ (∀ x, fds p !! f = Some x → f_app x = Some h_router → can_listen p').
Proof.
  intros Hp Hd [x Hx] Hc Hl. unfold ready_read, get_fd. cbn [w_mio proxy_world]. rewrite Hx. cbn [mbind option_bind].
  assert (∃ p', Some p = Some p' ∧ px_ok p' ∧ evolves None p p' ∧ (∀ y, Some x = Some y → f_app y = Some h_router → can_listen p')) as Hsame
    by (exists p; split_and!; [done..|apply evolves_refl|done]).
  destruct (_ && _) eqn:Et; [|done]. apply andb_true_iff in Et as [Et%Z.eqb_eq _].
  assert (∀ (res : Z) p1, px_ok p1 → evolves None p p1 → (f_app x = Some h_router → can_listen p1) → ∃ p',
      (if (res =? 0)%Z then _ ← fds p1 !! f; Some (upd_mio (upd_fd f (with_f_in false)) p1) else Some p1) = Some p' ∧ px_ok p' ∧ evolves None p p' ∧
      (∀ y, Some x = Some y → f_app y = Some h_router → can_listen p')) as Hdone.
  { intros res p1 Hp1 Ev Hl1. destruct (res =? 0)%Z; [|exists p1; split_and!; [done..|by intros y [= <-]]].
    destruct (live_step _ _ _ f Hd Ev) as [[y Hy] _]; [by eexists|]. rewrite Hy. cbn [mbind option_bind]. eexists. split; [done|].
    destruct (unset_ok p1 f y (with_f_in false)) as [Hp2 Ev2]; [exact Hp1|exact Hy|left; reflexivity|]. split_and!; [exact Hp2|exact (evolves_trans _ _ _ _ Hp Hp1 Ev Ev2)|].
    intros y' [= <-] Ha fd nb Hin Hn. apply (unused_set p1 f (with_f_in false) fd); [done|]. by eapply Hl1. }
  pose proof (ok_fds _ Hp _ _ Hx) as Ho. unfold fd_ok in Ho. unfold act, get_fd. cbn [w_mio proxy_world]. rewrite Hx. cbn [mbind option_bind].
  destruct (f_app x) as [[| |sc]|] eqn:Ea; cbn [mbind option_bind].
  - destruct (router_stream _ _ _ Hp Hx Ea) as [Hs Hf]. destruct (router_call p f None action_READ) as (res & p1 & E & W); [done..|by left|]. rewrite E. cbn [mbind option_bind].
    apply Hdone; [apply W|apply W|]. intros _. by apply W.
  - rewrite Ho in Et. done.
  - destruct Ho as (_ & _ & k & Hk & Ef). destruct (sock_call p sc k f None) as (res & p1 & E & Hp1 & Ev1); [done..|]. rewrite E. cbn [mbind option_bind]. by apply Hdone.
  - rewrite Ho in Et. done.
Qed.

Lemma ready_write_ok p f r : px_ok p → deferring p → is_Some (fds p !! f) → (∀ x, fds p !! f = Some x → f_app x = Some h_router → can_listen p) →
  (r = true → ∀ x sc, fds p !! f = Some x → f_app x ≠ Some (h_sock sc)) → ∃ p', ready_write call f r p = Some p' ∧ px_ok p' ∧ evolves None p p'.
Proof.
  intros Hp Hd [x Hx] Hl Hn. unfold ready_write, get_fd. cbn [w_mio proxy_world]. rewrite Hx. cbn [mbind option_bind].
  destruct (_ && _) eqn:Et; [|exists p; split_and!; [done..|apply evolves_refl]]. apply andb_true_iff in Et as [Et%Z.eqb_eq ->].
  pose proof (ok_fds _ Hp _ _ Hx) as Ho. unfold fd_ok in Ho. unfold act, get_fd. cbn [w_mio proxy_world]. rewrite Hx. cbn [mbind option_bind].
  destruct (f_app x) as [[| |sc]|] eqn:Ea; cbn [mbind option_bind]; [|by rewrite Ho in Et|by destruct (Hn eq_refl x sc)|by rewrite Ho in Et].
  destruct (router_stream _ _ _ Hp Hx Ea) as [Hs Hf]. destruct (router_call p f None action_WRITE) as (res & p1 & E & W); [done..|by eapply Hl|by right|]. rewrite E. cbn [mbind option_bind].
  destruct (res =? 0)%Z; [|exists p1; split_and!; [done|apply W..]]. destruct (live_step _ _ _ f Hd (wn_ev _ _ _ W)) as [[y Hy] _]; [by eexists|]. rewrite Hy. cbn [mbind option_bind].
  eexists. split; [done|]. destruct (unset_ok p1 f y (with_f_out false)) as [Hp2 Ev2]; [apply W|done|by right|].
  split; [exact Hp2|]. eapply evolves_trans; [done| |apply W|exact Ev2]. apply W.
Qed.

(** A connection to the router is made. *)
Lemma connecting_bit x : connecting x = true → Z.testbit (f_type x) 4 = true.
Proof.
  unfold connecting. intros Hc%negb_true_iff%Z.eqb_neq. destruct (Z.testbit (f_type x) 4) eqn:E; [done|]. destruct Hc. apply Z.bits_inj'. intros i Hi.
  rewrite Z.land_spec, Z.bits_0. change type_CONNECT with (2 ^ 4)%Z. destruct (Z.eq_dec 4%Z i) as [<-|Hne]; [by rewrite E|]. rewrite (Z.pow2_bits_false 4%Z i) by done. apply andb_false_r.
Qed.
Lemma land_bit t c : Z.testbit t 4 = true → Z.testbit c 4 = true → negb (Z.land t c =? 0)%Z = true.
Proof.
  intros Ht Hc. apply negb_true_iff, Z.eqb_neq. intros E. assert (Z.testbit (Z.land t c) 4 = true) as Hb by (by rewrite Z.land_spec, Ht, Hc). by rewrite E in Hb.
Qed.
Lemma call_mio_write_went p : px_ok p → on_stream p → can_listen p → is_Some (p_fd p) → ∃ p', _mio_write call (p_fd p) p = Some p' ∧ went p p p'.
Proof.
  intros Hp Hs Hc Hf. destruct (call_router p) as (n & Hn & Ew & _).
  apply (router_mio_write_went call (length (in_router (p_in p))) n p); [intros f; apply Ew|apply streams_ok|done..].
Qed.
Lemma mio_read_fd p f p' : _mio_read (Some f) p = Some p' → p_fd p' = p_fd p.
Proof. unfold _mio_read, get_fd. destruct (m_fds _ !! f) as [x|]; [|done]. cbn. intros [= <-]. by destruct (connecting x). Qed.
Lemma connect_went p f x : px_ok p → fds p !! f = Some x → connecting x = true → can_listen p → ∃ p', _mio__connect call f p = Some p' ∧ went p p p'.
Proof.
  intros Hp Hx Hcn Hl. pose proof (connecting_bit _ Hcn) as Hb. pose proof (ok_fds _ Hp _ _ Hx) as Ho. unfold fd_ok in Ho.
  assert (f_app x = Some h_router) as Ha.
  { destruct (f_app x) as [[| |sc]|]; [done|exfalso; by rewrite Ho in Hb|destruct Ho as (Ho & _); exfalso; by rewrite Ho in Hb|exfalso; by rewrite Ho in Hb]. }
  rewrite Ha in Ho. destruct Ho as (_ & _ & Hcl & Ef). destruct (router_stream _ _ _ Hp Hx Ha) as [Hs Hfd].
  unfold _mio__connect, get_fd. cbn [w_mio proxy_world]. rewrite Hx. cbn [mbind option_bind].
  rewrite (land_bit _ type_CONNECT_READ Hb eq_refl), (land_bit _ type_CONNECT_WRITE Hb eq_refl).
  change (upd_mio (upd_fd f ?g) p) with (fd_set f g p). set (g := λ x, with_f_out false (with_f_type type_NORMAL x)).
  assert (went p p (fd_set f g p)) as W1.
  { apply (fd_set_went p p f x g); [done|done|apply evolves_refl|done|done|done| |done]. unfold fd_ok. cbn. rewrite Ha. split_and!; [by left|done..]. }
  destruct (router_mio_read_went (fd_set f g p) (fd_set f g p)) as (p2 & E2 & W2); [apply W1|apply W1|apply evolves_refl|done|].
  change (p_fd (fd_set f g p)) with (p_fd p) in E2. rewrite Ef in E2. rewrite E2. cbn [mbind option_bind]. pose proof (went_trans _ _ _ _ Hp W1 W2) as W12.
  destruct (wn_fd _ _ _ W2) as [Ef2|Ef2].
  - change (p_fd (fd_set f g p)) with (p_fd p) in Ef2. destruct (call_mio_write_went p2) as (p3 & E3 & W3); [apply W12|apply W12|by apply W12|rewrite Ef2, Ef; by eexists|].
    rewrite Ef2, Ef in E3. exists p3. split; [done|]. by apply (went_trans p p p2).
  - rewrite (mio_read_fd _ _ _ E2) in Ef2. change (p_fd (fd_set f g p)) with (p_fd p) in Ef2. congruence.
Qed.

Definition freed f p : proxy65 := upd_mio (free_fd f) p.
Lemma freed_ok p f x : px_ok p → fds p !! f = Some x → f_type x = type_CLOSED → px_ok (freed f p) ∧ ran [] p (freed f p).
Proof.
  intros Hp Hx Ht. assert (f_app x = None) as Ha.
  { pose proof (ok_fds _ Hp _ _ Hx) as Ho. unfold fd_ok in Ho. rewrite Ht in Ho.
    destruct (f_app x) as [[| |sc]|]; [by destruct Ho as (_ & _ & ? & _)|done|by destruct Ho|done]. }
  assert (∀ g h, holds p g h → holds (freed f p) g h) as Hh.
  { intros g h (y & Hy & Hya). exists y. cbn. rewrite lookup_delete_ne; [done|]. intros <-. congruence. }
  assert (∀ g y, fds (freed f p) !! g = Some y → fds p !! g = Some y) as Hback by (intros g y; cbn; intros [_ ?]%lookup_delete_Some; done).
  split.
  - split; try apply Hp.
    + intros g [y Hy]. apply (ok_fdfresh _ Hp). exists y. by apply Hback.
    + intros g y Hy. by apply (ok_fds _ Hp g y), Hback.
    + intros g g' y y' Hy%Hback Hy'%Hback. by apply (ok_nums _ Hp).
    + intros i ki Hi. destruct (ok_conns _ Hp _ _ Hi) as ((g & Eg & Hg) & Hr). split; [|done]. exists g. split; [done|]. by apply Hh.
    + split; [|by apply (ok_router _ Hp)]. intros g Hg. apply Hh. by apply (ok_router _ Hp).
    + intros g Hg. apply Hh. by apply (ok_server _ Hp).
  - split; try done.
    + intros g y z Hy Hz%Hback. cbn in Hy. assert (z = y) as -> by congruence. auto.
    + intros g _ Hg. cbn in *. destruct (decide (f = g)) as [<-|]; [by rewrite lookup_delete_eq|by rewrite lookup_delete_ne].
    + intros i ki _ Hi. exists ki. split; [done|apply survives_refl].
    + intros i ki Hi Hs. left. by exists ki.
    + apply (quiet_out None (hears [] p) (hears [] (freed f p)) []); [by apply hears_ok|by rewrite app_nil_r|apply quiet_nil|].
      intros i ki ki' Hi Hi'. cbn in Hi, Hi'. simplify_eq. done.
Qed.

(** What the system answers for one descriptor: the numbers it gives are not in use, and no [send] fails
    right after one that took a part. *)
Record answers p (r : mio_res sys_in) : Prop := {
  an_accept fd nb ip : r_accept r = Some (fd, nb, ip) → unused p fd;
  an_listen fd nb : in_listen (r_in r) = Some (fd, nb) → p_server_fd p = None → unused p fd;
  an_calm : calm (in_sends (r_in r))
}.
(** It is there, and only the router's is ever polled to write. *)
Definition there p (r : mio_res sys_in) : Prop := ∃ x, fds p !! r_fd r = Some x ∧ (r_write r = true → ∀ sc, f_app x ≠ Some (h_sock sc)).

Lemma result_ok p r : px_ok p → deferring p → there p r → answers p r →
  ∃ p', mio_result call input p r = Some p' ∧ px_ok p' ∧ deferring p' ∧ ran (in_router (r_in r)) p p' ∧ (∀ g, g ≠ r_fd r → is_Some (fds p !! g) → is_Some (fds p' !! g)).
Proof.
  intros Hp Hd (x & Hx & Hw) [A1 A2 A3]. unfold mio_result. pose proof (input_ok (r_in r) p Hp) as Hp1. set (p1 := input (r_in r) p) in *. set (f := r_fd r) in *.
  assert (fds p1 !! f = Some x) as Hx1 by done. assert (can_listen p1) as Hl1 by exact A2. assert (deferring p1) as Hd1 by done.
  unfold get_fd at 1. cbn [w_mio proxy_world]. rewrite Hx1. cbn [mbind option_bind].
  destruct (Z.eqb_spec (f_type x) type_CLOSED) as [Ht|Ht].
  { exists p1. split_and!; [done..| |done]. apply ran_of, evolves_refl. }
  assert (∀ p2, px_ok p2 → evolves None p1 p2 → ∃ p', free_closed f p2 = Some p' ∧ px_ok p' ∧ deferring p' ∧ ran (in_router (r_in r)) p p' ∧
      (∀ g, g ≠ f → is_Some (fds p !! g) → is_Some (fds p' !! g))) as Hend.
  { intros p2 Hp2 Ev. destruct (live_step _ _ _ f Hd1 Ev) as [[y Hy] Hd2]; [by eexists|]. pose proof (ran_of _ _ _ Ev) as R.
    unfold free_closed, get_fd. cbn [w_mio proxy_world]. rewrite Hy. cbn [mbind option_bind]. eexists. split; [done|].
    assert (∀ g, is_Some (fds p !! g) → is_Some (fds p2 !! g)) as Hkeep by (intros g Hg; by apply (live_step _ _ _ g Hd1 Ev)).
    destruct (Z.eqb_spec (f_type y) type_CLOSED) as [Hty|]; [|by split_and!; auto]. destruct (freed_ok p2 f y Hp2 Hy Hty) as [Hp3 R3].
    split_and!; [exact Hp3|done| |].
    - rewrite <- (app_nil_r (in_router (r_in r))). by apply (ran_trans _ _ p p2).
    - intros g Hg Hg'. cbn. rewrite lookup_delete_ne by done. by apply Hkeep. }
  assert (∃ p2, (if (f_type x =? type_LISTEN)%Z && r_read r then _mio_accept call f (r_accept r) p1
      else if connecting x && (r_read r || r_write r) then _mio__connect call f p1
      else w ← ready_read call f (r_read r) p1; ready_write call f (r_write r) w) = Some p2 ∧ px_ok p2 ∧ evolves None p1 p2) as (p2 & E2 & Hp2 & Ev2).
  { destruct (_ && r_read r) eqn:El.
    { apply andb_true_iff in El as [El%Z.eqb_eq _]. apply client_accept_ok; [done| |exact A1]. exists x. split; [done|].
      pose proof (ok_fds _ Hp1 _ _ Hx1) as Ho. unfold fd_ok in Ho. rewrite El in Ho. destruct (f_app x) as [[| |sc]|]; [by destruct Ho as (_ & ? & _)|done|by destruct Ho|done]. }
    destruct (connecting x && _) eqn:Ec.
    { apply andb_true_iff in Ec as [Ec _]. destruct (connect_went p1 f x) as (p2 & E & W); [done..|]. exists p2. split_and!; [done|apply W..]. }
    destruct (ready_read_ok p1 f (r_read r)) as (p2 & E & Hp2 & Ev2 & Hl2); [done..|by eexists|done|done|]. rewrite E. cbn [mbind option_bind].
    destruct (live_step _ _ _ f Hd1 Ev2) as [[y Hy] Hd2]; [by eexists|]. destruct (ev_app _ _ _ Ev2 f x y Hx1 Hy) as [_ Ha].
    destruct (ready_write_ok p2 f (r_write r)) as (p3 & E3 & Hp3 & Ev3); [done|done|by eexists|..].
    - intros y' Hy' Hr. assert (y' = y) as -> by congruence. apply (Hl2 x); [done|]. destruct Ha; congruence.
    - intros Hwr y' sc Hy' Hr. assert (y' = y) as -> by congruence. apply (Hw Hwr sc). destruct Ha; congruence.
    - exists p3. split_and!; [done|done|]. exact (evolves_trans _ _ _ _ Hp1 Hp2 Ev2 Ev3). }
  rewrite E2. cbn [mbind option_bind]. by apply Hend.
Qed.

(** The results of one turn, with the answers as they come. *)
Fixpoint answers_all p (rs : list (mio_res sys_in)) : Prop :=
  match rs with
  | [] => True
  | r :: rs => answers p r ∧ match mio_result call input p r with Some p' => answers_all p' rs | None => True end
  end.
(** What [epoll_wait] reports: descriptors that it was told of, each once, to write only if that was asked for. *)
Definition polled p (rs : list (mio_res sys_in)) : Prop :=
  NoDup (r_fd <$> rs) ∧ Forall (λ r, match fds p !! r_fd r with Some x => r_write r = true → f_out x = true | None => False end) rs.
Definition heard (rs : list (mio_res sys_in)) : list router_event := rs ≫= λ r, in_router (r_in r).

Lemma results_ok rs : ∀ p, px_ok p → deferring p → NoDup (r_fd <$> rs) → (∀ r, r ∈ rs → there p r) → answers_all p rs →
  ∃ p', foldO (mio_result call input) p rs = Some p' ∧ px_ok p' ∧ ran (heard rs) p p'.
Proof.
  induction rs as [|r rs IH]; intros p Hp Hd Hnd Ht Ha; cbn [foldO].
  { exists p. split_and!; [done|done|apply ran_refl]. }
  cbn [fmap list_fmap] in Hnd. apply NoDup_cons in Hnd as [Hn Hnd]. destruct Ha as [Ha Hrest].
  destruct (result_ok p r Hp Hd) as (p1 & E & Hp1 & Hd1 & R1 & Hk); [apply Ht; by left|done|]. rewrite E. cbn [mbind option_bind].
  rewrite E in Hrest. destruct (IH p1) as (p' & E' & Hp' & R'); [done..| |done|].
  - intros r' Hr'. assert (r_fd r' ≠ r_fd r) as Hne by (intros Eq; apply Hn; rewrite <- Eq; by apply list_elem_of_fmap_2).
    destruct (Ht r') as (x & Hx & Hw); [by right|]. destruct (Hk (r_fd r') Hne) as [y Hy]; [by eexists|]. exists y. split; [done|].
    intros Hwr sc. destruct (ev_app _ _ _ R1 (r_fd r') x y Hx Hy) as [_ [->| ->]]; [by apply Hw|done].
  - exists p'. split_and!; [done|done|]. by apply (ran_trans _ _ p p1).
Qed.

Lemma polled_there p r x : px_ok p → fds p !! r_fd r = Some x → (r_write r = true → f_out x = true) → there p r.
Proof.
  intros Hp Hx Hw. exists x. split; [done|]. intros Hwr sc Ha. pose proof (ok_fds _ Hp _ _ Hx) as Ho. unfold fd_ok in Ho. rewrite Ha in Ho.
  destruct Ho as (_ & Ho & _). by rewrite (Hw Hwr) in Ho.
Qed.
Lemma mio_run_ok p rs : px_ok p → polled p rs → answers_all (upd_mio (set_defer true) p) rs →
  ∃ p', _mio_run call input rs p = Some p' ∧ px_ok p' ∧ ran (heard rs) p p'.
Proof.
  intros Hp [Hnd Hpl] Ha. destruct rs as [|r rs]; [exists p; split_and!; [done..|apply ran_refl]|]. unfold _mio_run.
  destruct (results_ok (r :: rs) (upd_mio (set_defer true) p)) as (p' & E & Hp' & R); [by apply defer_ok|done|done| |done|].
  - intros r' Hr'. rewrite Forall_forall in Hpl. specialize (Hpl r' Hr'). cbn beta in Hpl. destruct (fds p !! r_fd r') as [x|] eqn:Hx; [|done].
    by apply (polled_there _ _ x); [apply defer_ok|..].
  - rewrite E. cbn [mbind option_bind]. eexists. split_and!; [done|by apply defer_ok|exact R].
Qed.

(** ** The router again *)

Definition conn_fd (r : connecting_result) : option Z := match r with ConnNow fd _ | ConnLater fd _ => Some fd | ConnFailed => None end.
(** What the system answers when it connects: a number that is not in use; refused only if it never was connected. *)
Record connects p (r : connecting_result) (refused : bool) : Prop := {
  cn_fd fd : conn_fd r = Some fd → unused p fd ∧ ∀ fd' nb, in_listen (p_in p) = Some (fd', nb) → p_server_fd p = None → fd' ≠ fd;
  cn_listen fd nb : in_listen (p_in p) = Some (fd, nb) → p_server_fd p = None → unused p fd;
  cn_refused : refused = true → p_router p = RNull
}.

Lemma lost_ok p : px_ok p → p_fd p = None → p_router p ≠ RFreed → px_ok (set_p_lost_router true p) ∧ evolves None p (set_p_lost_router true p).
Proof. intros Hp Hf Hr. apply router_set_ok; try done; apply (ok_stream _ Hp). Qed.

(** A new descriptor for the router, on which its header is to be written. *)
Lemma new_router_ok p (x : mio_fd handler) : px_ok p → p_fd p = None → p_lost_router p = false → unused p (f_fd x) → f_app x = Some h_router →
  f_type x = type_NORMAL ∨ f_type x = type_CONNECT → (∀ fd nb, in_listen (p_in p) = Some (fd, nb) → p_server_fd p = None → unused p fd ∧ fd ≠ f_fd x) →
  let g := m_fresh (p_mio p) in
  let p1 := set_p_router (RStream state_NONE) (set_p_fd (Some g) (set_p_mio (Mio (<[g := x]> (fds p)) (S g) (m_defer_free (p_mio p))) p)) in
  ∃ p', _mio_write call (Some g) p1 = Some p' ∧ px_ok p' ∧ evolves None p p'.
Proof.
  intros Hp Hf Hl Hu Ha Ht Hls g p1. assert (px_ok p1 ∧ evolves None p p1) as [Hp1 Ev1].
  { apply (new_fd_ok p p1 x); try done.
    - unfold fd_ok. rewrite Ha. split_and!; [|by destruct Ht as [->| ->]..|done]. unfold connecting. destruct Ht as [->| ->]; [by left|by right].
    - right. split_and!; try done. by eexists.
    - by left.
    - cbn. by rewrite Hl. }
  destruct (call_mio_write_went p1) as (p' & E & W); [done|by eexists| |by eexists|].
  - intros fd nb Hin Hn j y. destruct (Hls fd nb Hin Hn) as [Hu' Hne]. cbn. intros [[<- <-]|[_ Hy]]%lookup_insert_Some Hty; [done|]. by apply (Hu' j).
  - exists p'. split_and!; [done|apply W|]. eapply evolves_trans; [done|exact Hp1|done|apply W].
Qed.

Lemma no_router_ok p p1 refused : px_ok p → px_ok p1 → evolves None p p1 → p_fd p1 = None → (refused = true → p_router p1 ≠ RFreed) →
  ∃ p', Some (if refused : bool then set_p_lost_router true (set_p_fd None p1) else set_p_fd None p1) = Some p' ∧ px_ok p' ∧ evolves None p p'.
Proof.
  intros Hp Hp1 Ev Hf Hr. assert (px_ok (set_p_fd None p1) ∧ evolves None p1 (set_p_fd None p1)) as [Hp2 Ev2].
  { apply router_set_ok; try done; [rewrite <- Hf; apply (ok_stream _ Hp1)|intros Hl; split; [done|by apply (ok_lost _ Hp1)]]. }
  pose proof (evolves_trans _ _ _ _ Hp Hp1 Ev Ev2) as Ev3. destruct refused; [|by eexists]. destruct (lost_ok (set_p_fd None p1)) as [Hp3 Ev4]; [done|done|by apply Hr|].
  eexists. split_and!; [done|done|]. exact (evolves_trans _ _ _ _ Hp Hp2 Ev3 Ev4).
Qed.
Lemma unset_new p (x : mio_fd handler) n : px_ok p → px_ok (emit (OClosed n) (skip_fd p)) ∧ evolves None p (emit (OClosed n) (skip_fd p)).
Proof.
  intros Hp. destruct (skip_ok _ Hp) as [Hp1 Ev1]. destruct (note_closed_ok (skip_fd p) n Hp1) as [Hp2 Ev2]. split; [done|]. exact (evolves_trans _ _ _ _ Hp Hp1 Ev1 Ev2).
Qed.
Lemma connect_ok p r refused : px_ok p → p_fd p = None → p_lost_router p = false → (refused = true → p_router p ≠ RFreed) →
  (∀ fd, conn_fd r = Some fd → unused p fd ∧ ∀ fd' nb, in_listen (p_in p) = Some (fd', nb) → p_server_fd p = None → fd' ≠ fd) → can_listen p →
  ∃ p', _proxy65_router_connect p r refused = Some p' ∧ px_ok p' ∧ evolves None p p'.
Proof.
  intros Hp Hf Hl Hr Hu Hc. unfold _proxy65_router_connect, _mio_connect. destruct r as [fd nb|fd nb|]; [..|apply (no_router_ok p p); [done|done|apply evolves_refl|done|done]];
    destruct (Hu fd eq_refl) as [Hu1 Hne]; unfold _mio_setup_fd, _mio_alloc_fd, upd_fd; cbn [m_fds m_fresh m_defer_free w_mio proxy_world]; rewrite alter_new;
    (destruct nb; cbn; [|unfold free_fd; cbn; rewrite unused_new by done; destruct (unset_new p (MioFd fd 0 None false false) fd Hp) as [Hp1 Ev1]; by apply (no_router_ok p (emit (OClosed fd) (skip_fd p)))]).
  - apply (new_router_ok p (MioFd fd type_NORMAL (Some h_router) false false)); try done; [by left|]. intros fd' nb Hin Hn. split; [by eapply Hc|by eapply Hne].
  - unfold upd_mio, upd_fd. cbn. rewrite alter_new. apply (new_router_ok p (MioFd fd type_CONNECT (Some h_router) false true)); try done; [by right|].
    intros fd' nb Hin Hn. split; [by eapply Hc|by eapply Hne].
Qed.

Lemma reconnect_ok p r refused : px_ok p → connects p r refused →
  ∃ p', proxy65_reconnect p r refused = Some p' ∧ px_ok p' ∧ evolves None p p'.
Proof.
  intros Hp [C1 C2 C3]. unfold proxy65_reconnect. destruct (p_lost_router p) eqn:El; [|exists p; split_and!; [done..|apply evolves_refl]].
  destruct (ok_lost _ Hp El) as [Hf Hnf].
  assert (∀ p0, tables p0 = tables p → (p_fd p0, p_router p0, p_in p0, p_out p0) = (p_fd p, p_router p, p_in p, p_out p) →
    ∃ p', (p1 ← free_router (set_p_lost_router false p0); _proxy65_router_connect p1 r refused) = Some p' ∧ px_ok p' ∧ evolves None p p') as Hagain.
  { intros p0 Et [= E1 E2 E3 E4]. destruct (router_set_ok p (set_p_lost_router false p0) Hp) as [Hp0 Ev0]; [done..|rewrite Hf| |done|].
    { done. } { cbn. rewrite E2. apply (ok_stream _ Hp). }
    assert (∀ p1, px_ok p1 → evolves None p p1 → p_mio p1 = p_mio p → (p_fd p1, p_lost_router p1, p_in p1, p_server_fd p1) = (None, false, p_in p, p_server_fd p) →
      (refused = true → p_router p1 ≠ RFreed) → ∃ p', _proxy65_router_connect p1 r refused = Some p' ∧ px_ok p' ∧ evolves None p p') as Hgo.
    { intros p1 Hp1 Ev1 Em [= F1 F2 F3 F4] Hr. assert (∀ fd, unused p fd → unused p1 fd) as Hu by (intros fd; unfold unused; by rewrite Em).
      destruct (connect_ok p1 r refused) as (p' & E & Hp' & Ev'); [done..| | |].
      - rewrite F3, F4. intros fd Hfd. destruct (C1 fd Hfd) as [? ?]. auto.
      - intros fd nb. rewrite F3, F4. intros Hin Hn. by eapply Hu, C2.
      - exists p'. split_and!; [done|done|]. exact (evolves_trans _ _ _ _ Hp Hp1 Ev1 Ev'). }
    pose proof Et as [= Em _ _ _ _ _ Es].
    unfold free_router. change (p_router (set_p_lost_router false p0)) with (p_router p0). rewrite E2. destruct (p_router p) as [| |st] eqn:Er; [|done|]; cbn [mbind option_bind].
    - apply Hgo; [done|done|exact Em|cbn; congruence|cbn; congruence].
    - destruct (note_ok None (set_p_lost_router false p0) OSxFree (λ m, conj eq_refl eq_refl) Hp0) as [Hp1 Ev1].
      destruct (router_set_ok _ (set_p_router RFreed (emit OSxFree (set_p_lost_router false p0))) Hp1) as [Hp2 Ev2]; [done..|cbn; congruence|done|done|].
      apply Hgo; [exact Hp2| |exact Em|cbn; congruence|intros Hr; by specialize (C3 Hr)].
      apply (evolves_trans _ _ _ _ Hp Hp0 Ev0). exact (evolves_trans _ _ _ _ Hp0 Hp1 Ev1 Ev2). }
  destruct (_ <? 0)%Z; [by apply Hagain|]. destruct (_ =? 0)%Z; [|by apply (Hagain (set_p_retry_left (p_retry_left p - 1) p))].
  eexists. split; [done|]. apply router_set_ok; try done; apply (ok_stream _ Hp).
Qed.

(** ** Bytestreams that nobody activates *)

(** Some peers of the bytestream [b] are gone, with their descriptors. *)
Record cut p b bs (l : list (loc * loc)) p' : Prop := {
  ct_conns i : p_conns p' !! i = if decide (i ∈ l.*2) then None else p_conns p !! i;
  ct_fds g : fds p' !! g = if decide (g ∈ l.*1) then closed_fd p (fds p !! g) else fds p !! g;
  ct_bss b' : b' ≠ b → p_bss p' !! b' = p_bss p !! b';
  ct_bs : ∃ bs', p_bss p' !! b = Some bs' ∧ bs_hash bs' = bs_hash bs;
  ct_out : ∃ o, p_out p' = p_out p ++ (OClosed <$> o);
  ct_same : (p_streams p', p_fresh p', m_fresh (p_mio p'), m_defer_free (p_mio p')) = (p_streams p, p_fresh p, m_fresh (p_mio p), m_defer_free (p_mio p));
  ct_rest : (p_conf p', p_router p', p_fd p', p_server_fd p', p_lost_router p', p_in p', p_now p', p_started p') =
    (p_conf p, p_router p, p_fd p, p_server_fd p, p_lost_router p, p_in p, p_now p, p_started p)
}.

Lemma cut_nil p b bs : p_bss p !! b = Some bs → cut p b bs [] p.
Proof. intros Hb. split; try done; [by intros; rewrite decide_False by set_solver..|by exists bs|exists []; by rewrite app_nil_r]. Qed.

Lemma free_peer_ok hd p b bs l p1 bs1 i f sc k x : closes hd → cut p b bs l p1 → p_bss p1 !! b = Some bs1 → nth i (bs_peers bs1) None = Some sc →
  sc ∉ l.*2 → f ∉ l.*1 → p_conns p !! sc = Some k → k_state k ≠ sock_DEAD → k_fd k = Some f → fds p !! f = Some x → f_app x = Some (h_sock sc) → f_type x ≠ type_CLOSED →
  ∃ p2, free_peer hd b p1 i = Some p2 ∧ cut p b bs ((f, sc) :: l) p2 ∧ p_bss p2 !! b = Some (with_bs_peers (<[i := None]> (bs_peers bs1)) bs1).
Proof.
  intros Hcl [C1 C2 C3 (bs2 & Hb2 & Eh) (o & Ho) [= S1 S2 S3 S4] [= R1 R2 R3 R4 R5 R6 R7 R8]] Hb Hn Hsc Hf Hk Hs Ef Hx Ha Ht.
  assert (bs2 = bs1) as -> by congruence. assert (p_conns p1 !! sc = Some k) as Hk1 by by rewrite C1, decide_False.
  assert (fds p1 !! f = Some x) as Hx1 by by rewrite C2, decide_False.
  unfold free_peer, get_bs. rewrite Hb. cbn [mbind option_bind]. rewrite Hn. unfold get_conn. rewrite Hk1. cbn [mbind option_bind].
  unfold _sock_conn_close, get_conn. cbn [p_conns upd_conn set_p_conns upd_bs set_p_bss]. rewrite lookup_alter_eq, Hk1. cbn [fmap option_fmap option_map mbind option_bind with_k_bs k_state k_bs k_fd].
  rewrite bool_decide_false by done. cbn [unjoin kill_peer mbind option_bind close_opt]. rewrite Ef.
  match goal with |- context [_mio_close hd f ?q] => set (pd := q) end.
  destruct (mio_close_dead hd pd f sc x (with_k_fd None (with_k_bs None (with_k_state sock_DEAD (with_k_bs None k)))) Hcl) as (p2 & E & [D1 D2 [n D3] (D4 & D5 & D6 & D7 & D8) [= Q1 Q2 Q3 Q4 Q5 Q6 Q7 Q8]]); try done.
  { unfold pd. cbn. by rewrite !lookup_alter_eq, Hk1. }
  exists p2. split; [exact E|]. split; [split|].
  - intros j. change (((f, sc) :: l).*2) with (sc :: l.*2). rewrite D1, decide_cons. destruct (decide (j = sc)) as [->|Hj]; [by destruct (decide (sc ∈ l.*2))|]. unfold pd. cbn. rewrite !lookup_alter_ne by done. by rewrite C1.
  - intros g. change (((f, sc) :: l).*1) with (f :: l.*1). rewrite D2, decide_cons. unfold pd, closed_fd. cbn. rewrite S4, C2. destruct (decide (g = f)) as [->|]; [|done]. by destruct (decide (f ∈ l.*1)).
  - intros b' Hb'. rewrite D4. unfold pd. cbn. rewrite lookup_alter_ne by done. by apply C3.
  - rewrite D4. unfold pd. cbn. rewrite lookup_alter_eq, Hb. by eexists.
  - rewrite D3. unfold pd. cbn. rewrite Ho. exists (o ++ [n]). by rewrite fmap_app, app_assoc.
  - rewrite D5, D6, D7, D8. unfold pd. cbn. congruence.
  - rewrite Q1, Q2, Q3, Q4, Q5, Q6, Q7, Q8. unfold pd. cbn. congruence.
  - rewrite D4. unfold pd. cbn. by rewrite lookup_alter_eq, Hb.
Qed.

Lemma cut_removed p b bs l p1 bs1 : px_ok p → p_bss p !! b = Some bs → cut p b bs l p1 → p_bss p1 !! b = Some bs1 → (∀ f sc, (f, sc) ∈ l → holds p f (h_sock sc)) →
  removed p (Some b) l.*2 (without_bs p1 b bs1).
Proof.
  intros Hp Hb [C1 C2 C3 (bs2 & Hb2 & Eh) Ho [= S1 S2 S3 S4] R] Hb1 Hh. assert (bs2 = bs1) as -> by congruence. split; cbn; [done| | | |done|done|done].
  - intros g. rewrite C2. by apply gone_eq.
  - intros b'. case_decide as Hd; [injection Hd as ->; by rewrite lookup_delete_eq|]. rewrite lookup_delete_ne by congruence. apply C3. congruence.
  - rewrite S1, Eh. by apply zap_tab.
Qed.

Lemma stream_free_ok hd p b bs : closes hd → px_ok p → p_bss p !! b = Some bs →
  ∃ p' cs, proxy65_stream_free hd p b = Some p' ∧ removed p (Some b) cs p' ∧ takes p (Some b) cs.
Proof.
  intros Hcl Hp Hb. pose proof (ok_bss _ Hp _ _ Hb) as (_ & _ & (a & Hsh) & Hps). unfold proxy65_stream_free. rewrite fold_two.
  assert (∀ i, Some i ∈ bs_peers bs → ∃ k f x, p_conns p !! i = Some k ∧ k_bs k = Some b ∧ k_state k ≠ sock_DEAD ∧ k_fd k = Some f ∧ fds p !! f = Some x ∧ f_app x = Some (h_sock i) ∧ f_type x ≠ type_CLOSED) as Hpeer.
  { intros i Hi. destruct (Hps i Hi) as (k & Hk & Bk). destruct (conn_number _ _ _ Hp Hk) as (f & x & Ef & Hx & Ha & Ht & _). exists k, f, x.
    split_and!; [done|done|by eapply conn_alive|done|done|done|by rewrite Ht]. }
  assert (∀ cs, (∀ i, i ∈ cs ↔ Some i ∈ bs_peers bs) → takes p (Some b) cs) as Htk.
  { intros cs Hcs. split_and!; [|intros i k b' Hi Bi [= <-]|intros b' [= <-]; by eexists].
    - intros i Hi%Hcs. destruct (Hps i Hi) as (k & Hk & Bk). exists k. auto.
    - apply Hcs. destruct (ok_conns _ Hp _ _ Hi) as (_ & Hbi & _). rewrite Bi in Hbi. destruct Hbi as (_ & bs' & Hb' & Hin & _). congruence. }
  assert (Some a ∈ bs_peers bs) as Hina by (destruct Hsh as [(-> & _)|(c & -> & _)]; by left).
  destruct (Hpeer a Hina) as (ka & fa & xa & Hka & Ba & Sa & Efa & Hxa & Aa & Ta).
  destruct (free_peer_ok hd p b bs [] p bs 0 fa a ka xa Hcl (cut_nil p b bs Hb) Hb) as (p1 & E1 & Hc1 & Hb1); try done; [by destruct Hsh as [(-> & _)|(c & -> & _)]|set_solver..|].
  rewrite E1. cbn [mbind option_bind]. destruct Hsh as [(Ep & _)|(c & Ep & _ & Hac)]; rewrite Ep in *.
  - assert (free_peer hd b p1 1 = Some p1) as E2 by (unfold free_peer, get_bs; by rewrite Hb1). rewrite E2. cbn [mbind option_bind]. unfold get_bs. rewrite Hb1. cbn [mbind option_bind].
    eexists _, [a]. split_and!; [done| |apply Htk; set_solver]. apply (cut_removed p b bs [(fa, a)] p1); [done..|]. intros f sc [= -> ->]%list_elem_of_singleton. by exists xa.
  - destruct (Hpeer c) as (kc & fc & xc & Hkc & Bc & Sc & Efc & Hxc & Ac & Tc); [right; by left|]. assert (fc ≠ fa) as Hf by (intros ->; apply Hac; by eapply (conn_fd_inj p)).
    destruct (free_peer_ok hd p b bs [(fa, a)] p1 _ 1 fc c kc xc Hcl Hc1 Hb1) as (p2 & E2 & Hc2 & Hb2); try done; [set_solver..|].
    rewrite E2. cbn [mbind option_bind]. unfold get_bs. rewrite Hb2. cbn [mbind option_bind]. eexists _, [c; a]. split_and!; [done| |apply Htk; set_solver].
    apply (cut_removed p b bs [(fc, c); (fa, a)] p2); [done..|]. intros f sc [[= -> ->]|[= -> ->]%list_elem_of_singleton]%elem_of_cons; [by exists xc|by exists xa].
Qed.

Lemma set_streams_ok p t : px_ok p → tok t → tmap t = tmap (p_streams p) → px_ok (set_p_streams t p) ∧ evolves None p (set_p_streams t p).
Proof.
  intros Hp Ht Em. split.
  - split; try apply Hp; [done| |].
    + intros b bs Hb. destruct (ok_bss _ Hp _ _ Hb) as (? & ? & ? & ?). unfold bs_ok. cbn [p_streams set_p_streams]. by rewrite Em.
    + cbn. rewrite Em. apply (ok_entry _ Hp).
  - split; try done; cbn; [intros f x y Hx Hy; assert (y = x) as -> by congruence; auto|eauto using survives_refl|eauto|].
    apply (quiet_out None p (set_p_streams t p) []); [done|by rewrite app_nil_r|apply quiet_nil|]. intros i k k' Hk Hk'. cbn in Hk'. simplify_eq. done.
Qed.

Lemma free_all_ok l : ∀ p, px_ok p → NoDup l → (∀ b, b ∈ l → is_Some (p_bss p !! b)) →
  ∃ p', foldO (proxy65_stream_free call) p l = Some p' ∧ px_ok p' ∧ evolves None p p' ∧ ∀ b, p_bss p' !! b = if decide (b ∈ l) then None else p_bss p !! b.
Proof.
  induction l as [|b l IH]; intros p Hp Hn Hb; cbn [foldO].
  { exists p. split_and!; [done|done|apply evolves_refl|]. intros b. rewrite decide_False by set_solver. done. }
  apply NoDup_cons in Hn as [Hbl Hn]. destruct (Hb b) as [bs Hbs]; [by left|].
  destruct (stream_free_ok call p b bs closes_call Hp Hbs) as (p1 & cs & E & R & Tk). rewrite E. cbn [mbind option_bind].
  pose proof (removed_ok _ _ _ _ Hp R Tk) as Hp1.
  destruct (IH p1 Hp1 Hn) as (p' & E' & Hp' & Ev' & Hbss).
  { intros b' Hb'. rewrite (rm_bss _ _ _ _ R), decide_False; [apply Hb; by right|]. by intros [= ->]. }
  exists p'. split_and!; [done|done|eapply evolves_trans; [done|exact Hp1|by eapply removed_evolves|done]|].
  intros b'. rewrite Hbss, (rm_bss _ _ _ _ R), decide_cons. destruct (decide (b' ∈ l)); [done|].
  destruct (decide (b' = b)) as [->|]; [by rewrite decide_True|]. rewrite decide_False; [done|congruence].
Qed.

(** The bytestreams that are freed: nobody activated them, and they are old. *)
Definition stale p bs : bool := negb (bs_activated bs) && (bs_created bs + PROXY65_SOCK_IDLE <? p_now p)%Z.
Lemma expire_ok p : px_ok p →
  ∃ p', proxy65_socks_expire call p = Some p' ∧ px_ok p' ∧ evolves None p p' ∧ ∀ b, p_bss p' !! b = bs ← p_bss p !! b; if stale p bs then None else Some bs.
Proof.
  intros Hp. unfold proxy65_socks_expire. destruct (titer_ok (p_streams p) (ok_tab _ Hp)) as (Ht & Em & Hl). destruct (titer (p_streams p)) as [t l]. cbn [fst snd] in *.
  destruct (set_streams_ok p t Hp Ht Em) as [Hp1 Ev1].
  assert (∀ h b, (h, b) ∈ l ↔ tmap (p_streams p) !! h = Some b) as Hin by (intros h b; rewrite Hl; apply elem_of_twalk, Hp).
  assert (∀ h b, (h, b) ∈ l → ∃ bs, p_bss p !! b = Some bs ∧ bs_hash bs = h) as Hent by (intros h b Hhb%Hin; by apply (ok_entry _ Hp)).
  match goal with |- context [forallb ?g l] => assert (forallb g l = true) as -> end.
  { apply forallb_forall. intros [h b] Hhb%list_elem_of_In. apply bool_decide_eq_true. destruct (Hent h b Hhb) as (bs & Hbs & _). cbn. unfold get_bs. cbn. rewrite Hbs. by eexists. }
  assert (NoDup l) as Hnd by (rewrite Hl; eapply NoDup_fmap_1, twalk_nodup, Hp).
  destruct (free_all_ok (filter (λ kv, idle (set_p_streams t p) kv = true) l).*2 (set_p_streams t p) Hp1) as (p' & E & Hp' & Ev & Hb).
  - apply NoDup_fmap_2_strong; [|by apply NoDup_filter]. intros [h b] [h' b'] [_ Hx]%list_elem_of_filter [_ Hy]%list_elem_of_filter. cbn. intros ->.
    destruct (Hent _ _ Hx) as (bs & Hbs & <-), (Hent _ _ Hy) as (bs' & Hbs' & <-). congruence.
  - intros b ([h b'] & -> & [_ Hhb]%list_elem_of_filter)%list_elem_of_fmap. destruct (Hent _ _ Hhb) as (bs & Hbs & _). by exists bs.
  - exists p'. split_and!; [done|done|by eapply (evolves_trans _ p (set_p_streams t p))|]. intros b. rewrite Hb. cbn [p_bss set_p_streams].
    destruct (p_bss p !! b) as [bs|] eqn:Ebs; cbn [mbind option_bind]; [|by case_decide].
    assert ((b ∈ (filter (λ kv, idle (set_p_streams t p) kv = true) l).*2) ↔ stale p bs = true) as Hiff.
    { rewrite list_elem_of_fmap. split.
      - intros ([h b'] & -> & [Hi _]%list_elem_of_filter). unfold idle, get_bs in Hi. cbn in Hi. cbn in Ebs. by rewrite Ebs in Hi.
      - intros Hst. exists (bs_hash bs, b). split; [done|]. apply list_elem_of_filter. split; [unfold idle, get_bs; cbn; by rewrite Ebs|].
        apply Hin. by destruct (ok_bss _ Hp _ _ Ebs). }
    case_decide as Hd; [rewrite (proj1 Hiff Hd); done|]. destruct (stale p bs) eqn:Est; [|done]. by destruct Hd; apply Hiff.
Qed.

(** ** Turns *)

Definition step_allowed p (ev : proxy_event) : Prop :=
  match ev with
  | EvTurn rs i r refused => p_shutdown p = true ∨ polled p rs ∧ answers_all (upd_mio (set_defer true) p) rs ∧
      match _mio_run call input rs p with Some p' => connects (input i p') r refused | None => True end
  | EvSignal => True
  end.
Fixpoint allowed p (evs : list proxy_event) : Prop :=
  match evs with
  | [] => True
  | ev :: evs => step_allowed p ev ∧ match proxy65_step p ev with Some p' => allowed p' evs | None => True end
  end.
Definition step_heard (ev : proxy_event) : list router_event := match ev with EvTurn rs i _ _ => heard rs ++ in_router i | EvSignal => [] end.

Lemma ran_more l p : px_ok p → ran l p p.
Proof. intros Hp. exact (in_evolves None (hears l p) (SysIn 0 RBlock [] [] None 0) (hears_ok l p Hp) (suffix_nil _)). Qed.

Lemma turn_ok p rs i r refused : px_ok p → p_shutdown p = false → step_allowed p (EvTurn rs i r refused) →
  ∃ p', proxy65_turn p rs i r refused = Some p' ∧ px_ok p' ∧ ran (heard rs ++ in_router i) p p'.
Proof.
  intros Hp Hs Ha. cbn in Ha. destruct Ha as [?|(Hpl & Han & Hcn)]; [congruence|]. unfold proxy65_turn.
  destruct (mio_run_ok p rs Hp Hpl Han) as (p1 & E1 & Hp1 & R1). rewrite E1 in *. cbn [mbind option_bind].
  destruct (reconnect_ok (input i p1) r refused) as (p2 & E2 & Hp2 & Ev2); [by apply input_ok|done|]. rewrite E2. cbn [mbind option_bind].
  assert (∀ p3, px_ok p3 → evolves None (input i p1) p3 → px_ok p3 ∧ ran (heard rs ++ in_router i) p p3) as Hend.
  { intros p3 Hp3 Ev3. split; [done|]. apply (ran_trans _ _ p p1); [done..|]. by apply ran_of. }
  destruct (_ <=? _)%Z; [|eexists; split; [done|by apply Hend]]. destruct (expire_ok p2 Hp2) as (p3 & E3 & Hp3 & Ev3 & _). rewrite E3. cbn [mbind option_bind].
  eexists. split; [done|]. destruct (router_set_ok p3 (set_p_last_expire (in_now i) p3) Hp3) as [Hp4 Ev4]; try done; [apply (ok_router _ Hp3)|apply (ok_stream _ Hp3)|apply (ok_lost _ Hp3)|].
  apply Hend; [done|]. apply (evolves_trans _ _ p2); [by apply input_ok|done|done|]. by apply (evolves_trans _ _ p3).
Qed.
Lemma step_ok p ev : px_ok p → step_allowed p ev → ∃ p', proxy65_step p ev = Some p' ∧ px_ok p' ∧ ran (step_heard ev) p p'.
Proof.
  intros Hp Ha. destruct ev as [rs i r refused|]; cbn [proxy65_step step_heard].
  - destruct (p_shutdown p) eqn:Es; [exists p; split_and!; [done..|by apply ran_more]|by apply turn_ok].
  - eexists. split; [done|]. destruct (router_set_ok p (set_p_lost_router false (set_p_shutdown true p)) Hp) as [Hp' Ev]; try done; [apply (ok_router _ Hp)|apply (ok_stream _ Hp)|].
    split; [done|]. rewrite <- (app_nil_r []). apply (ran_trans [] [] p p); [done..|apply ran_refl|].
    destruct Ev as [V1 V2 V3 V4 V5 V6 V7 V8 V9 V10]. split; try done. eauto.
Qed.

(** ** The process *)

Definition run p (evs : list proxy_event) : option proxy65 := foldO proxy65_step p evs.
Lemma run_ok evs : ∀ p, px_ok p → allowed p evs → ∃ p', run p evs = Some p' ∧ px_ok p' ∧ ran (evs ≫= step_heard) p p'.
Proof.
  unfold run. induction evs as [|ev evs IH]; intros p Hp Ha; cbn [foldO].
  { exists p. split_and!; [done..|apply ran_refl]. }
  destruct Ha as [Ha Hr]. destruct (step_ok p ev Hp Ha) as (p1 & E & Hp1 & R1). rewrite E in *. cbn [mbind option_bind].
  destruct (IH p1 Hp1 Hr) as (p' & E' & Hp' & R'). exists p'. split_and!; [done..|]. by apply (ran_trans _ _ p p1).
Qed.

(** The numbers that the system gives first differ. *)
Definition start_allowed (i : sys_in) (r : connecting_result) : Prop := ∀ fd fd' nb, conn_fd r = Some fd → in_listen i = Some (fd', nb) → fd' ≠ fd.
Definition zero (c : pconf) (i : sys_in) : proxy65 := Proxy65 c (tnew 401) ∅ ∅ 0 _mio_new RNull None None false false (pc_retry_init c) false 0 false 0 i [].
Lemma zero_ok c i : px_ok (zero c i).
Proof.
  destruct (tnew_ok (V := loc) (T := T) 401) as [Ht Em]; [done|].
  split; cbn; try done; [split; intros ? [? E]; by rewrite lookup_empty in E|intros f [? E]; by rewrite lookup_empty in E|intros f x E; by rewrite lookup_empty in E..|].
  intros h b. rewrite Em, lookup_empty. done.
Qed.
Lemma start_ok c i r refused : start_allowed i r → ∃ p, proxy65_start c i r refused = Some p ∧ px_ok p ∧ evolves None (zero c i) p.
Proof.
  intros Ha. unfold proxy65_start. apply (connect_ok (zero c i)); [apply zero_ok|done..| |].
  - intros fd Hfd. split; [intros g x E; cbn in E; by rewrite lookup_empty in E|]. intros fd' nb Hin _. by eapply Ha.
  - intros fd nb _ _ g x E. cbn in E. by rewrite lookup_empty in E.
Qed.

(** ** What may still go wrong *)

(** A flush that sends a part and fails when it tries the rest at once: the connection is freed by the call inside. *)
Lemma flush_twice m p q kq w n l f d : px_ok p → p_conns p !! q = Some kq → k_state kq = sock_RELAY → k_wbuf kq = Some w → sends p = SSome n :: SFail :: l →
  max 1 n < length (pend kq) → handle (S (S (S m))) (h_sock q) action_WRITE f d p = None.
Proof.
  intros Hp Hq Hs Ew Es Hn. destruct (conn_number _ _ _ Hp Hq) as (g & x & Eg & Hx & Ha & Ht & Hnum). unfold pend in Hn. rewrite Ew in Hn.
  destruct (ok_conns _ Hp _ _ Hq) as (_ & _ & Hlt & _). specialize (Hlt _ Ew). rewrite length_drop in Hn.
  remember (S (S m)) as m2 eqn:Em. cbn [handle _sock_conn_mio_callback]. unfold sock_action_write. change (get_conn p q) with (p_conns p !! q). rewrite Hq.
  cbn [mbind option_bind]. rewrite bool_decide_true by done. unfold _socks_relay_flush at 1. change (get_conn p q) with (p_conns p !! q). rewrite Hq. cbn [mbind option_bind]. rewrite Ew.
  destruct (Nat.leb_spec (length w) (k_woff kq)); [lia|]. rewrite (sock_send_eq _ _ _ _ _ _ Hq Eg Hx), Es. cbn [mbind option_bind].
  set (t := drop (k_woff kq) w). set (n' := min (max 1 n) (length t)). assert (length t = length w - k_woff kq) as Hlt' by (unfold t; by rewrite length_drop).
  assert (n' = max 1 n) as En by (unfold n'; lia). destruct (Z.ltb_spec (Z.of_nat n') 0); [lia|]. rewrite Nat2Z.id.
  destruct (Nat.leb_spec (length w) (k_woff kq + n')); [lia|].
  set (p1 := emit (OSend (f_fd x) (take n' t)) (popped p)). assert (p_conns p1 !! q = Some kq) as Hq1 by done.
  set (k2 := with_k_woff (k_woff kq + n') kq). set (p2 := upd_conn q (with_k_woff (k_woff kq + n')) p1).
  assert (p_conns p2 !! q = Some k2) as Hq2 by (unfold p2; by rewrite (upd_conn_eq _ _ _ _ Hq1), lookup_insert_eq).
  destruct (sent_ok p p2 q kq k2 (f_fd x) (take n' t)) as [Hp2 _]; [done..|by unfold p2; rewrite (upd_conn_eq _ _ _ _ Hq1)|done|done|done| | |].
  { split; [done|]. intros w'. cbn. rewrite Ew. intros [= <-]. lia. }
  { unfold pend. cbn. rewrite Ew. fold t. rewrite <- (take_drop n' t) at 1. unfold t. by rewrite drop_drop. }
  (* the call inside *)
  assert (∃ p', _mio_write (handle m2) (k_fd k2) p2 = Some p' ∧ p_conns p' !! q = None) as (p' & E & Hgone).
  { unfold _mio_write, act, get_fd. change (k_fd k2) with (k_fd kq). rewrite Eg. cbn [w_mio proxy_world]. assert (fds p2 !! g = Some x) as Hx2 by done. rewrite Hx2. cbn [mbind option_bind].
    unfold connecting. rewrite Ht, land_normal, Ha. cbn [negb Z.eqb mbind option_bind]. rewrite Z.eqb_refl. cbn [negb]. subst m2.
    remember (S m) as m1 eqn:Em1. cbn [handle _sock_conn_mio_callback]. unfold sock_action_write. change (get_conn p2 q) with (p_conns p2 !! q). rewrite Hq2. cbn [mbind option_bind].
    change (k_state k2) with (k_state kq). rewrite bool_decide_true by done. unfold _socks_relay_flush. change (get_conn p2 q) with (p_conns p2 !! q). rewrite Hq2. cbn [mbind option_bind].
    change (k_wbuf k2) with (k_wbuf kq). rewrite Ew. change (k_woff k2) with (k_woff kq + n'). destruct (Nat.leb_spec (length w) (k_woff kq + n')); [lia|].
    rewrite (sock_send_eq _ _ _ g x _ Hq2 Eg Hx2). assert (sends p2 = SFail :: l) as Es2 by (unfold sends; cbn; by rewrite Es). rewrite Es2. cbn [mbind option_bind Z.ltb Z.compare].
    subst m1. destruct (close_ok None m (popped p2) q k2) as (p3 & E3 & _ & _ & Hg); [by apply popped_ok|done|]. rewrite E3. cbn [mbind option_bind]. by exists p3. }
  change (k_fd k2) with (k_fd kq) in E. change (upd_conn q (with_k_woff (k_woff kq + n')) p1) with p2. rewrite E. cbn [mbind option_bind Z.ltb Z.compare].
  unfold _socks_peer, get_conn. by rewrite Hgone.
Qed.

Lemma read_twice m p sc q k kq f t n1 n2 l d : px_ok p → linked p sc q → p_conns p !! sc = Some k → k_fd k = Some f → p_conns p !! q = Some kq → k_wbuf kq = None →
  in_recv (p_in p) = RData t → sends p = SSome n1 :: SSome n2 :: SFail :: l → max 1 n1 + max 1 n2 < length (take PROXY65_RELAY_BUF t) →
  handle (S (S (S (S m)))) (h_sock sc) action_READ f d p = None.
Proof.
  intros Hp0 (Hne & k0 & kq0 & b & Hk0 & Hq0 & Hs & Hsq & Bk & Bq) Hk1 Ef Hq Ew Er Es Hn. assert (k0 = k) as -> by congruence. assert (kq0 = kq) as -> by congruence.
  remember (S (S (S m))) as m3 eqn:Em. cbn [handle _sock_conn_mio_callback]. unfold sock_action_read. change (get_conn p sc) with (p_conns p !! sc). rewrite Hk0. cbn [mbind option_bind].
  destruct (touch_upd None p sc k (with_k_last_activity (p_now p)) Hp0 Hk0) as (Hp & _ & Hk); [done|by left|apply (ok_conns _ Hp0 _ _ Hk0)|].
  set (p1 := upd_conn sc (with_k_last_activity (p_now p)) p) in *. set (k1 := with_k_last_activity (p_now p) k) in *.
  assert (p_conns p1 !! q = Some kq) as Hqp by (unfold p1; cbn; by rewrite lookup_alter_ne). assert (sends p1 = SSome n1 :: SSome n2 :: SFail :: l) as Es1 by done.
  assert (in_recv (p_in p1) = RData t) as Er1 by done. clearbody p1. change (get_conn p1 sc) with (p_conns p1 !! sc). rewrite Hk. cbn [mbind option_bind].
  rewrite bool_decide_true by done. destruct (socks_peer_ok _ _ _ Hp Hk) as (o & Eo & Ho). rewrite Eo. cbn [mbind option_bind].
  assert (o = Some q) as ->.
  { unfold _socks_peer, get_conn in Eo. rewrite Hk in Eo. cbn [mbind option_bind] in Eo. change (k_bs k1) with (k_bs k) in Eo. rewrite Bk in Eo.
    destruct (ok_conns _ Hp _ _ Hk) as (_ & Hb & _), (ok_conns _ Hp _ _ Hqp) as (_ & Hbq & _). change (k_bs k1) with (k_bs k) in Hb. rewrite Bk in Hb. rewrite Bq in Hbq.
    destruct Hb as (_ & bs & Hbs & Hi & _), Hbq as (_ & bs' & Hbs' & Hiq & _). assert (bs' = bs) as -> by congruence.
    unfold get_bs in Eo. rewrite Hbs in Eo. cbn [mbind option_bind] in Eo. injection Eo as <-. destruct (ok_bss _ Hp _ _ Hbs) as (_ & _ & (a & [(E & _)|(c & E & _ & Hac)]) & _);
      rewrite E in *; unfold first_peer; cbn; repeat case_bool_decide; set_solver. }
  change (get_conn p1 q) with (p_conns p1 !! q). rewrite Hqp. cbn [mbind option_bind]. rewrite Ew.
  destruct (conn_number _ _ _ Hp Hk) as (f' & x & Ef' & Hx & _ & _ & Hn1). assert (f' = f) as -> by (cbn in Ef'; congruence).
  rewrite (sock_recv_eq _ _ _ _ Hx), Er1. cbn [mbind option_bind]. destruct (take PROXY65_RELAY_BUF t) as [|c u] eqn:Et; [cbn in Hn; lia|]. set (t1 := c :: u) in *.
  destruct (conn_number _ _ _ Hp Hqp) as (g & y & Eg & Hy & Hya & Hyt & Hn2). set (p2 := emit (ORecv (f_fd x) t1) p1).
  unfold _socks_relay_write. change (get_conn p2 q) with (p_conns p1 !! q). rewrite Hqp. cbn [mbind option_bind]. rewrite Ew.
  rewrite (sock_send_eq p2 q kq g y t1 Hqp Eg Hy). change (sends p2) with (sends p1). rewrite Es1. cbn [mbind option_bind]. rewrite Nat2Z.id.
  set (n' := min (max 1 n1) (length t1)). assert (n' = max 1 n1) as En by (unfold n'; lia). destruct (Nat.ltb_spec n' (length t1)); [|lia].
  set (p3 := emit (OSend (f_fd y) (take n' t1)) (popped p2)). set (kq3 := with_k_woff 0 (with_k_wbuf (Some (drop n' t1)) kq)).
  set (p4 := upd_conn q (λ k, with_k_woff 0 (with_k_wbuf (Some (drop n' t1)) k)) p3). assert (length (drop n' t1) = length t1 - n') as Hdl by apply length_drop.
  assert (p_conns p4 = <[q := kq3]> (p_conns p1)) as Ec4 by (unfold p4; by rewrite (upd_conn_eq _ _ kq)).
  destruct (recv_sent_ok p1 p4 sc q k1 kq kq3 b (f_fd x) (f_fd y) t1 (take n' t1) [OSend (f_fd y) (take n' t1)]) as [Hp4 _]; try done.
  { cbn. by rewrite <- app_assoc. }
  { split; [done|]. intros w. cbn. intros [= <-]. lia. }
  { unfold sent_to. cbn. by rewrite Z.eqb_refl, app_nil_r. }
  { intros i. split; [done|]. intros Hi. unfold sent_to. cbn. by destruct (Z.eqb_spec (f_fd y) i). }
  { change (pend kq3) with (drop n' t1). by rewrite take_drop. }
  assert (_mio_write (handle m3) (k_fd kq) p4 = None) as E; [|by rewrite E]. unfold _mio_write, act, get_fd. rewrite Eg. cbn [w_mio proxy_world].
  assert (fds p4 !! g = Some y) as Hy4 by done. rewrite Hy4. cbn [mbind option_bind]. unfold connecting. rewrite Hyt, land_normal, Hya. cbn [negb Z.eqb mbind option_bind]. rewrite Z.eqb_refl. cbn [negb].
  subst m3. rewrite (flush_twice m p4 q kq3 (drop n' t1) n2 l); [done|done|by rewrite Ec4, lookup_insert_eq|done|done|change (sends p4) with (tail (sends p1)); by rewrite Es1|]. change (pend kq3) with (drop n' t1). rewrite Hdl. lia.
Qed.

(** ** Deciding what is allowed *)

#[export] Instance unused_dec p fd : Decision (unused p fd).
Proof.
  refine (cast_if (decide (map_Forall (λ _ x, f_type x ≠ type_CLOSED → f_fd x ≠ fd) (fds p)))); abstract (unfold unused, map_Forall in *; naive_solver).
Defined.
#[export] Instance calm_dec l : Decision (calm l).
Proof. induction l as [|[n| |] l IH]; cbn; [apply _| |done..]. destruct l as [|[m| |] l]; [apply _|done|done|apply _]. Defined.
Definition new_num (o : option (Z * bool)) p : Prop := match o with Some (fd, _) => p_server_fd p = None → unused p fd | None => True end.
#[export] Instance new_num_dec o p : Decision (new_num o p).
Proof. unfold new_num. destruct o as [[fd nb]|]; apply _. Defined.
#[export] Instance answers_dec p r : Decision (answers p r).
Proof.
  refine (cast_if (decide ((match r_accept r with Some (fd, _, _) => unused p fd | None => True end) ∧ new_num (in_listen (r_in r)) p ∧ calm (in_sends (r_in r)))));
    [destruct r as [f rd wr [[[fd nb] ip]|] i]; apply _|abstract (unfold new_num in *; destruct a as (A1 & A2 & A3); split; [intros fd nb ip E; rewrite E in A1; exact A1|intros fd nb E; rewrite E in A2; exact A2|exact A3])|].
  abstract (intros [A1 A2 A3]; apply n; unfold new_num; split_and!; [destruct (r_accept r) as [[[fd nb] ip]|]; [by eapply A1|done]|destruct (in_listen (r_in r)) as [[fd nb]|]; [by eapply A2|done]|done]).
Defined.
#[export] Instance answers_all_dec rs : ∀ p, Decision (answers_all p rs).
Proof.
  induction rs as [|r rs IH]; intros p; cbn [answers_all]; [apply _|]. apply and_dec; [apply _|]. destruct (mio_result call input p r); [apply IH|apply _].
Defined.
#[export] Instance polled_dec p rs : Decision (polled p rs).
Proof.
  unfold polled. apply and_dec; [apply _|]. apply Forall_dec. intros r. destruct (fds p !! r_fd r); apply _.
Defined.
#[export] Instance connects_dec p r refused : Decision (connects p r refused).
Proof.
  refine (cast_if (decide ((match conn_fd r with Some fd => unused p fd ∧ match in_listen (p_in p) with Some (fd', _) => p_server_fd p = None → fd' ≠ fd | None => True end | None => True end) ∧
    new_num (in_listen (p_in p)) p ∧ (refused = true → router_state (p_router p) = None ∧ p_router p ≠ RFreed)))).
  - apply and_dec; [|apply and_dec; [apply _|]].
    + destruct (conn_fd r); [|apply _]. apply and_dec; [apply _|]. destruct (in_listen (p_in p)) as [[fd' nb]|]; apply _.
    + destruct refused; [|left; done]. destruct (p_router p); [left; done|right; abstract (intros E; by destruct (E eq_refl)).. ].
  - abstract (destruct a as (A1 & A2 & A3); split; [intros fd E; rewrite E in A1; split; [apply A1|]; intros fd' nb E'; destruct A1 as [_ A1]; rewrite E' in A1; exact A1
      |intros fd nb E; unfold new_num in A2; rewrite E in A2; exact A2|intros E; destruct (A3 E) as [A4 A5]; by destruct (p_router p)]).
  - abstract (intros [A1 A2 A3]; apply n; split_and!;
      [destruct (conn_fd r) as [fd|]; [|done]; destruct (A1 fd eq_refl) as [B1 B2]; split; [done|]; destruct (in_listen (p_in p)) as [[fd' nb]|]; [by eapply B2|done]
      |unfold new_num; destruct (in_listen (p_in p)) as [[fd' nb]|]; [by eapply A2|done]|intros E; by rewrite (A3 E)]).
Defined.
#[export] Instance step_allowed_dec p ev : Decision (step_allowed p ev).
Proof.
  destruct ev as [rs i r refused|]; cbn [step_allowed]; [|apply _]. apply or_dec; [apply _|]. apply and_dec; [apply _|]. apply and_dec; [apply _|].
  destruct (_mio_run call input rs p); apply _.
Defined.
#[export] Instance allowed_dec evs : ∀ p, Decision (allowed p evs).
Proof.
  induction evs as [|ev evs IH]; intros p; cbn [allowed]; [apply _|]. apply and_dec; [apply _|]. destruct (proxy65_step p ev); [apply IH|apply _].
Defined.

(** ** Theorems *)

(** A state the process comes to, and what its router's stream said up to it. *)
Definition reached (c : pconf) (l : list router_event) p : Prop := ∃ i r refused p0 evs,
  start_allowed i r ∧ proxy65_start c i r refused = Some p0 ∧ allowed p0 evs ∧ run p0 evs = Some p ∧ l = in_router i ++ (evs ≫= step_heard).
Lemma reached_ok c l p : reached c l p → px_ok p ∧ ∃ i, ran l (zero c i) p.
Proof.
  intros (i & r & refused & p0 & evs & Ha & E & Hal & Er & ->). destruct (start_ok c i r refused Ha) as (p0' & E' & Hp0 & Ev). assert (p0' = p0) as -> by congruence.
  destruct (run_ok evs p0 Hp0 Hal) as (p' & E2 & Hp' & R). assert (p' = p) as -> by congruence. split; [done|]. exists i.
  apply (ran_trans _ _ (zero c i) p0); [apply zero_ok|done| |done]. exact (ran_in (zero c i) p0 Ev).
Qed.

(** C6: from the start and as long as the system answers as [allowed] says, no turn of the main loop, whatever clients and router send, follows a pointer
    that is NULL or freed; and the connections, the bytestreams, the table of hashes and the descriptors agree at its end. *)
Theorem proxy_never_fails c i r refused evs : start_allowed i r → (∀ p, proxy65_start c i r refused = Some p → allowed p evs) →
  ∃ p p', proxy65_start c i r refused = Some p ∧ run p evs = Some p' ∧ px_ok p'.
Proof.
  intros Ha Hal. destruct (start_ok c i r refused Ha) as (p & E & Hp & _). destruct (run_ok evs p Hp (Hal p E)) as (p' & E' & Hp' & _). by exists p, p'.
Qed.

(** C7: between any two turns, of two connections that relay to each other and are both still there, what was waiting for the one and all that was read from the
    other is what was sent to the one, in order, and what waits now: nothing is lost, doubled, reordered or sent to somebody else. *)
Theorem relay_in_order c l p p' evs sc q fd fdq kq kq' : reached c l p → allowed p evs → run p evs = Some p' →
  linked p sc q → number p sc fd → number p q fdq → p_conns p !! q = Some kq → is_Some (p_conns p' !! sc) → p_conns p' !! q = Some kq' →
  ∃ o, p_out p' = p_out p ++ o ∧ pend kq ++ recv_of fd o = sent_to fdq o ++ pend kq'.
Proof.
  intros Hr Ha E HL Hn Hnq Hq Hsc Hq'. destruct (reached_ok _ _ _ Hr) as [Hp _]. destruct (run_ok evs p Hp Ha) as (p2 & E2 & _ & R). assert (p2 = p') as -> by congruence.
  destruct (ev_out _ _ _ R) as (o & Ho & Hrel & _). exists o. split; [exact Ho|]. by apply (Hrel sc q fd fdq).
Qed.

(** C8: a connection relays only after a request to activate came from the router that names the hash it gave: the SHA-1 of the stream's id, the sender and the target. *)
Theorem relay_needs_activation c l p sc k : reached c l p → p_conns p !! sc = Some k → k_state k = sock_RELAY →
  ∃ n sid, RevPacket n ∈ l ∧ activate_hash n = Some (inr (sid, k_hash k)).
Proof.
  intros Hr Hk Hs. destruct (reached_ok _ _ _ Hr) as (_ & i & R). destruct (ev_active _ _ _ R sc k Hk Hs) as [(k0 & Hk0 & _)|?]; [|done]. cbn in Hk0. by rewrite lookup_empty in Hk0.
Qed.

(** C22: what could not be sent to a client at once is never sent: as long as the connection is there, nothing more goes to it, and what waits stays. *)
Theorem relay_stalls c l p p' evs q fd k k' : reached c l p → allowed p evs → run p evs = Some p' → p_conns p !! q = Some k → k_wbuf k ≠ None → number p q fd →
  p_conns p' !! q = Some k' → k_wbuf k' = k_wbuf k ∧ k_woff k' = k_woff k ∧ ∃ o, p_out p' = p_out p ++ o ∧ sent_to fd o = [].
Proof.
  intros Hr Ha E Hk Hw Hn Hk'. destruct (reached_ok _ _ _ Hr) as [Hp _]. destruct (run_ok evs p Hp Ha) as (p2 & E2 & _ & R). assert (p2 = p') as -> by congruence.
  destruct (ev_out _ _ _ R) as (o & Ho & _ & Hwait). destruct (Hwait q fd k k') as (? & ? & ?); [done..|]. split_and!; [done..|]. by exists o.
Qed.

(** C21: when what was read is sent to the peer in two parts and the next [send] fails, the function that wrote goes on with the connection that a call inside it freed. *)
Theorem relay_use_after_free c l p sc q k kq f t n1 n2 rest w nb now : reached c l p → linked p sc q → p_conns p !! sc = Some k → k_fd k = Some f →
  p_conns p !! q = Some kq → k_wbuf kq = None → max 1 n1 + max 1 n2 < length (take PROXY65_RELAY_BUF t) →
  mio_result call input p (MioRes f true w None (SysIn nb (RData t) (SSome n1 :: SSome n2 :: SFail :: rest) [] None now)) = None.
Proof.
  intros Hr HL Hk Ef Hq Ew Hlt. destruct (reached_ok _ _ _ Hr) as [Hp _]. set (i := SysIn nb _ _ _ _ _). pose proof (input_ok i p Hp) as Hp1.
  destruct (conn_number _ _ _ Hp Hk) as (f' & x & Ef' & Hx & Ha & Ht & _). assert (f' = f) as -> by congruence.
  unfold mio_result, ready_read, act, get_fd. cbn [r_fd r_read r_write r_accept r_in w_mio proxy_world]. assert (fds (input i p) !! f = Some x) as Hx1 by done. rewrite Hx1. cbn [mbind option_bind].
  unfold connecting. rewrite Ht. cbn [Z.eqb andb type_NORMAL type_LISTEN type_CLOSED Pos.eqb]. rewrite land_normal. cbn [Z.eqb negb andb]. rewrite Ha. cbn [mbind option_bind].
  unfold call, calls. change (sends (input i p)) with (in_sends i). cbn [Nat.add in_sends in_router p_in input set_p_now set_p_in i length].
  rewrite (read_twice _ (input i p) sc q k kq f t n1 n2 rest); done.
Qed.
(** ** Bytes that come in pieces *)

(** More bytes of a client in its buffer. *)
Definition appended (u : text) sc p : proxy65 := upd_conn sc (λ k, with_k_rbuf (k_rbuf k ++ u) k) p.
Definition talking p sc : Prop := ∃ k, p_conns p !! sc = Some k ∧ (k_state k = sock_GREETING ∨ k_state k = sock_REQUEST).

Lemma appended_conn u sc p k : p_conns p !! sc = Some k → p_conns (appended u sc p) !! sc = Some (with_k_rbuf (k_rbuf k ++ u) k).
Proof. intros Hk. cbn. by rewrite lookup_alter_eq, Hk. Qed.
Lemma reply_appended u sc p k l : p_conns p !! sc = Some k → socks_reply (appended u sc p) sc l = appended u sc <$> socks_reply p sc l.
Proof.
  intros Hk. unfold socks_reply, sock_send, get_conn. rewrite (appended_conn u sc p k Hk), Hk. cbn [mbind option_bind]. change (k_fd (with_k_rbuf (k_rbuf k ++ u) k)) with (k_fd k).
  destruct (k_fd k) as [f|]; [|done]. cbn [mbind option_bind]. change (get_fd (appended u sc p) f) with (get_fd p f). destruct (get_fd p f) as [x|]; [|done]. cbn [mbind option_bind].
  change (in_sends (p_in (appended u sc p))) with (in_sends (p_in p)). by destruct (in_sends (p_in p)) as [|[n| |] r].
Qed.
Lemma reply_conns p sc l p' : socks_reply p sc l = Some p' → p_conns p' = p_conns p.
Proof.
  unfold socks_reply, sock_send. destruct (get_conn p sc) as [k|]; [|done]. cbn. destruct (k_fd k) as [f|]; [|done]. cbn. destruct (get_fd p f) as [x|]; [|done]. cbn.
  destruct (in_sends (p_in p)) as [|[n| |] r]; cbn; by intros [= <-].
Qed.
Lemma byte_at_app t u i : i < length t → byte_at (t ++ u) i = byte_at t i.
Proof. intros Hi. unfold byte_at. by rewrite app_nth1. Qed.

(** A request that is not whole, or none, leaves everything. *)
Lemma request_stays p sc p1 : socks_request p sc = Some (p1, 0%Z) → talking p1 sc → p1 = p.
Proof.
  unfold socks_request. destruct (get_conn p sc) as [k|]; [|done]. cbn [mbind option_bind]. intros E Ht.
  assert (∀ rep, (p ← _socks_reply_fail p sc rep; Some (p, -1)%Z) = Some (p1, 0%Z) → p1 = p) as Hfail by (intros rep; by destruct (_socks_reply_fail p sc rep)).
  destruct (negb (bool_decide _)); [by injection E as <-|]. destruct (_ <? 5)%Z; [by injection E as <-|]. destruct (_ || _); [by eapply Hfail|]. destruct (negb (_ =? 3)%Z); [by eapply Hfail|].
  destruct (_ <? _)%Z; [by injection E as <-|]. destruct (negb (_hex_is_valid _)); [by eapply Hfail|].
  destruct (_stream_get_or_create p _) as [p2 b]. destruct (get_bs p2 b) as [bs|]; [|done]. cbn [mbind option_bind] in E.
  destruct (_ || _). { by destruct (_socks_reply_fail p2 sc 5). }
  exfalso. unfold _socks_reply_ok in E. destruct (socks_reply _ sc _) as [p3|] eqn:E3; [|done]. cbn [mbind option_bind] in E. injection E as <-.
  destruct Ht as (k' & Hk' & Hs). cbn [p_conns upd_conn set_p_conns] in Hk'. rewrite (reply_conns _ _ _ _ E3) in Hk'. cbn in Hk'. rewrite !lookup_alter_eq in Hk'.
  destruct (p_conns p2 !! sc); [|done]. cbn in Hk'. injection Hk' as <-. cbn in Hs. naive_solver.
Qed.

(** C34: it does not matter how a client's greeting and request are cut into pieces: what is left to read after a piece that was not all of it leads, with the next
    piece, to the same answers and the same state as both at once. *)
Theorem socks_segmentation p sc u p1 : talking p sc → _socks_process p sc = Some (p1, 0%Z) → talking p1 sc →
  _socks_process (appended u sc p1) sc = _socks_process (appended u sc p) sc.
Proof.
  intros (k & Hk & Hs) E Ht. unfold _socks_process in E. change (get_conn p sc) with (p_conns p !! sc) in E. rewrite Hk in E. cbn [mbind option_bind] in E.
  case_bool_decide as Eg; [|by rewrite (request_stays _ _ _ E Ht)]. destruct (Z.ltb_spec (Z.of_nat (length (k_rbuf k))) 2) as [|Hl2]; [by injection E as <-|].
  destruct (negb (byte_at _ 0 =? 5)%Z) eqn:E5; [done|]. set (need := (2 + byte_at (k_rbuf k) 1)%Z) in *.
  destruct (Z.ltb_spec (Z.of_nat (length (k_rbuf k))) need) as [|Hneed]; [by injection E as <-|].
  set (m := existsb _ _) in E. destruct (socks_reply p sc _) as [p2|] eqn:Er; [|done]. cbn [mbind option_bind] in E. destruct (negb m) eqn:Em; [done|].
  set (p3 := upd_conn sc _ p2) in E. pose proof (request_stays _ _ _ E Ht) as ->.
  assert (p_conns p2 !! sc = Some k) as Hk2 by (by rewrite (reply_conns _ _ _ _ Er)).
  assert (p_conns p3 !! sc = Some (with_k_state sock_REQUEST (with_k_rbuf (drop (Z.to_nat need) (k_rbuf k)) k))) as Hk3 by (unfold p3; cbn; by rewrite lookup_alter_eq, Hk2).
  pose proof (uchar_range (nth 1 (k_rbuf k) nul)) as Hr. fold (byte_at (k_rbuf k) 1) in Hr.
  (* both at once *)
  assert (_socks_process (appended u sc p) sc = socks_request (appended u sc p3) sc) as ->.
  { unfold _socks_process. change (get_conn (appended u sc p) sc) with (p_conns (appended u sc p) !! sc). rewrite (appended_conn u sc p k Hk). cbn [mbind option_bind k_state k_rbuf with_k_rbuf].
    rewrite bool_decide_true by done. rewrite length_app. destruct (Z.ltb_spec (Z.of_nat (length (k_rbuf k) + length u)) 2); [lia|].
    rewrite !byte_at_app by lia. rewrite E5. fold need. destruct (Z.ltb_spec (Z.of_nat (length (k_rbuf k) + length u)) need); [lia|].
    rewrite drop_app_le by lia. rewrite take_app_le by (rewrite length_drop; lia). fold m. rewrite (reply_appended u sc p k _ Hk), Er. cbn [fmap option_fmap option_map mbind option_bind].
    rewrite Em. f_equal. unfold appended, p3, upd_conn, set_p_conns. cbn. f_equal. rewrite !(alter_insert _ _ k _ Hk2), !alter_new. rewrite drop_app_le by lia. done. }
  unfold _socks_process. change (get_conn (appended u sc p3) sc) with (p_conns (appended u sc p3) !! sc). rewrite (appended_conn u sc p3 _ Hk3). cbn [mbind option_bind k_state with_k_rbuf with_k_state].
  by rewrite bool_decide_false.
Qed.

End thms.

(** ** Runs *)

From S2P Require Import Alist.
From S2P Require Import SmRun.
#[local] Existing Instance ex_env.

Definition pconf0 : pconf := Pconf "proxy.example.com" "127.0.0.1" 5347 None None None 3 3 2 "stdout" None None "0.0.0.0" 7777 "10.0.0.1" 1024.
Definition quiet_in : sys_in := SysIn 0 RBlock [] [] None 100.
Definition turn (rs : list (mio_res sys_in)) : proxy_event := EvTurn rs quiet_in ConnFailed false.
Definition router_says (l : list router_event) : mio_res sys_in := MioRes 0 true false None (SysIn 1 RBlock [] l (Some (6%Z, true)) 0).
Definition client_comes (fd : Z) : mio_res sys_in := MioRes 1 true false (Some (fd, true, "10.0.0.9")) quiet_in.
Definition client_says (f : loc) (t : text) (s : list send_result) : mio_res sys_in := MioRes f true false None (SysIn 1 (RData t) s [] None 0).
Definition bound_nad : nad := (nad_append_elem (nad_add_namespace nad_new uri_COMPONENT None).1 0 "bind" 0).1.
Definition bytes (l : list Z) : text := char_of <$> l.
Definition px_hash : string := Eval vm_compute in proxy65_hash_sid "s1" "ann@example.com/a" "bob@example.com/b".
Definition hello : text := bytes [5;1;0]%Z.
Definition join_req : text := bytes [5;1;0;3;40]%Z ++ tx px_hash ++ bytes [0;0]%Z.
(** Ann asks the proxy to activate the stream with Bob. *)
Definition activate_nad : nad :=
  let '(n, ns) := nad_add_namespace nad_new uri_COMPONENT None in
  let '(n, _) := nad_append_elem n ns "route" 0 in
  let '(n, _) := nad_append_attr n (-1) "from" "sm" in
  let '(n, cns) := nad_add_namespace n uri_CLIENT None in
  let '(n, _) := nad_append_elem n cns "iq" 1 in
  let '(n, _) := nad_append_attr n (-1) "type" "set" in
  let '(n, _) := nad_append_attr n (-1) "from" "ann@example.com/a" in
  let '(n, _) := nad_append_attr n (-1) "id" "i1" in
  let '(n, ns) := nad_add_namespace n uri_BYTESTREAMS None in
  let '(n, _) := nad_append_elem n ns "query" 2 in
  let '(n, _) := nad_append_attr n (-1) "sid" "s1" in
  let '(n, _) := nad_append_elem n ns "activate" 3 in
  nad_append_cdata n (tx "bob@example.com/b") 4.
(** The router accepts the proxy, two clients join and are told to relay. *)
Definition px_joined : list proxy_event :=
  [turn [router_says [RevState state_OPEN; RevOpen; RevWantWrite; RevPacket bound_nad; RevReturn 1]];
   turn [client_comes 7]; turn [client_comes 8];
   turn [client_says 2 hello [SSome 2]; client_says 3 (hello ++ join_req) [SSome 2; SSome 10]];
   turn [client_says 2 join_req [SSome 10]]].
Definition px_active : list proxy_event := px_joined ++ [turn [router_says [RevPacket activate_nad; RevWantWrite; RevReturn 1]]].
(** What Ann writes: the whole is sent; then the first three bytes, and the rest waits. *)
Definition px_relay : list proxy_event := [turn [client_says 2 (tx "hi") [SSome 2]]].
Definition px_stall : list proxy_event := [turn [client_says 2 (tx "hello") [SSome 3; SBlock]]].

Definition px_zero : proxy65 alist := Eval vm_compute in zero pconf0 quiet_in.
Definition px0 : proxy65 alist := Eval vm_compute in default px_zero (proxy65_start pconf0 quiet_in (ConnNow 5 true) false).
Definition px1 : proxy65 alist := Eval vm_compute in default px_zero (run px0 px_active).
Definition px2 : proxy65 alist := Eval vm_compute in default px_zero (run px1 (px_relay ++ px_stall)).
Definition px3 : proxy65 alist := Eval vm_compute in default px_zero (run px2 px_relay).

Lemma px_reached evs p : bool_decide (allowed px0 evs) = true → run px0 evs = Some p → reached pconf0 (evs ≫= step_heard) p.
Proof.
  intros Ha%bool_decide_eq_true E. exists quiet_in, (ConnNow 5 true), false, px0, evs. split_and!; [done|by vm_compute|done|done|done].
Qed.
(** Ann's connection and Bob's in a state of theirs. *)
Definition conn_at (p : proxy65 alist) (sc : loc) : sock_conn := default (SockConn None sock_DEAD [] "" None None 0 0) (p_conns p !! sc).
Lemma px_linked : linked px1 0 1.
Proof. split; [done|]. exists (conn_at px1 0), (conn_at px1 1), 2. by vm_compute. Qed.
Lemma px_number (p : proxy65 alist) sc n : match p_conns p !! sc with Some k => match k_fd k with Some f => match fds p !! f with Some x => f_fd x = n | None => False end | None => False end | None => False end → number p sc n.
Proof.
  destruct (p_conns p !! sc) as [k|] eqn:Hk; [|done]. destruct (k_fd k) as [f|] eqn:Hf; [|done]. destruct (fds p !! f) as [x|] eqn:Hx; [|done].
  intros Hn. by exists k, f, x.
Qed.

Lemma px_allowed (p : proxy65 alist) evs : bool_decide (allowed p evs) = true → allowed p evs.
Proof. apply bool_decide_eq_true. Qed.
#[local] Opaque allowed run.

Lemma proxy_never_fails_witness : ∃ p p', proxy65_start pconf0 quiet_in (ConnNow 5 true) false = Some p ∧ run p (px_active ++ px_relay ++ px_stall) = Some p' ∧ px_ok (T := alist) p'.
Proof.
  apply (proxy_never_fails pconf0 quiet_in (ConnNow 5 true) false (px_active ++ px_relay ++ px_stall)); [done|].
  intros p E. assert (p = px0) as -> by (revert E; vm_compute; congruence). apply px_allowed. vm_compute. reflexivity.
Defined.
Lemma relay_in_order_witness : ∃ o, p_out px2 = p_out px1 ++ o ∧ pend (conn_at px1 1) ++ recv_of 7 o = sent_to 8 o ++ pend (conn_at px2 1).
Proof.
  apply (relay_in_order pconf0 (px_active ≫= step_heard) px1 px2 (px_relay ++ px_stall) 0 1 7 8).
  - apply px_reached; vm_compute; reflexivity.
  - apply px_allowed. vm_compute. reflexivity.
  - vm_compute. reflexivity.
  - apply px_linked.
  - apply px_number. vm_compute. reflexivity.
  - apply px_number. vm_compute. reflexivity.
  - vm_compute. reflexivity.
  - vm_compute. eexists. reflexivity.
  - vm_compute. reflexivity.
Defined.
Lemma relay_needs_activation_witness : ∃ n sid, RevPacket n ∈ (px_active ≫= step_heard) ∧ activate_hash n = Some (inr (sid, px_hash)).
Proof.
  apply (relay_needs_activation pconf0 (px_active ≫= step_heard) px1 0 (conn_at px1 0)).
  - apply px_reached; vm_compute; reflexivity.
  - vm_compute. reflexivity.
  - vm_compute. reflexivity.
Defined.
Lemma relay_stalls_witness : k_wbuf (conn_at px3 1) = Some (tx "lo") ∧ ∃ o, p_out px3 = p_out px2 ++ o ∧ sent_to 8 o = [].
Proof.
  destruct (relay_stalls pconf0 ((px_active ++ px_relay ++ px_stall) ≫= step_heard) px2 px3 px_relay 1 8 (conn_at px2 1) (conn_at px3 1)) as (E & _ & Ho).
  - apply px_reached; vm_compute; reflexivity.
  - apply px_allowed. vm_compute. reflexivity.
  - vm_compute. reflexivity.
  - vm_compute. reflexivity.
  - vm_compute. discriminate.
  - apply px_number. vm_compute. reflexivity.
  - vm_compute. reflexivity.
  - split; [|exact Ho]. vm_compute. reflexivity.
Defined.
Lemma relay_use_after_free_witness : mio_result call input px1 (MioRes 2 true false None (SysIn 1 (RData (tx "hello")) [SSome 3; SSome 1; SFail] [] None 0)) = None.
Proof.
  apply (relay_use_after_free pconf0 (px_active ≫= step_heard) px1 0 1 (conn_at px1 0) (conn_at px1 1) 2 (tx "hello") 3 1 []).
  - apply px_reached; vm_compute; reflexivity.
  - apply px_linked.
  - vm_compute. reflexivity.
  - vm_compute. reflexivity.
  - vm_compute. reflexivity.
  - vm_compute. reflexivity.
  - vm_compute. lia.
Defined.
(** Four bytes of what a client that joins writes, then the rest. *)
Definition px_new : proxy65 alist := Eval vm_compute in appended (hello ++ bytes [5]%Z) 0 (default px_zero (run px0 (take 2 px_joined))).
Lemma socks_segmentation_witness : _socks_process (appended (drop 4 (hello ++ join_req)) 0 (default (px_new, 0%Z) (_socks_process px_new 0)).1) 0 = _socks_process (appended (drop 4 (hello ++ join_req)) 0 px_new) 0.
Proof.
  apply (socks_segmentation px_new 0 (drop 4 (hello ++ join_req))).
  - exists (conn_at px_new 0). vm_compute. split; [reflexivity|left; reflexivity].
  - vm_compute. reflexivity.
  - exists (conn_at (default (px_new, 0%Z) (_socks_process px_new 0)).1 0). vm_compute. split; [reflexivity|right; reflexivity].
Defined.
